(* ===== verification/_CoqProject ===== *)
-Q . S2P
Prelude.v
GoStd.v
GoTime.v
Json.v
Crypto.v
Glob.v
Netip.v
Schema.v
Limits.v
Match.v
FileMatch.v
ExecMatch.v
NetworkMatch.v
Generation.v
Engine.v
Events.v
Enforcement.v
KernelProgram.v
KernelCapture.v
PolicyAudit.v
AuditStream.v
Correlator.v
Evidence.v
CgroupPath.v
Scope.v
Killer.v
LinuxCgroup.v
RunStore.v
Registration.v
Checkpoint.v
RunLifecycle.v
Coordinator.v
Hub.v
Redact.v
StoreRecord.v
Writer.v
Sqlite.v
SqliteOpen.v
JsonSink.v
WebSocket.v
StreamHandler.v
McpPolicy.v
Checker.v
Overview.v
EvidenceCodec.v
EvidenceApi.v
RuntimePipeline.v
StoredEvidence.v
InspectionAudit.v
Loader.v
EnvCheck.v
Diagnostics.v
