(* ===== verification/Prelude.v ===== *)
(** * AgentShield-eBPF: a verification of the control plane and its kernel programs

    AgentShield watches registered agent processes.  Kernel programs report
    file opens, execs and TCP connects of the cgroups in a scope map and can
    refuse connects; a Go service registers runs, decodes the reports,
    evaluates policies, contains a run by killing its cgroup, correlates
    kernel facts with the checkpoints an agent reports about itself, stores
    redacted evidence and serves it.  This library is a shallow embedding of
    these parts.  Paths below are relative to [src/].

    ** Conventions

    Go strings and byte slices are [string] (8-bit characters) or [list Z];
    integers are [Z], with wrap-around ([wrap32], [wrap64], [to_int64]) where
    the code can overflow; a pointer is an [option], a map a [gmap], a struct a
    [Record] with the source's field names.  A function that returns an error
    is a [result], whose error type has one constructor per return site.
    Methods pass the state they change; a critical section is one function.
    Concurrent code is a step relation, or a function over an environment that
    may change the shared state between any two calls.  Clocks, random bytes,
    contexts and answers of the operating system are arguments.  Code outside
    [src/] is a class of operations with laws for its documented behaviour
    ([BankStoreLaws], [EbpfMapLaws], [BackendLaws], [SqliteLaws],
    [UserMemoryLaws]); each has a concrete instance, used by the witnesses.
    The Go standard library is modelled: [GoStd] (strings, UTF-8, strconv,
    path), [GoTime] and [Json] (time, encoding/json), [Crypto] (SHA-256, HMAC,
    hex, base64), [Glob] (path.Match), [Netip] (net/netip), the regular
    expressions of [Redact], SHA-1 and frames in [WebSocket].  This file has
    the notations, the [result] monad, sorting, and shared lemmas.

    ** Policies ([internal/policy])

    - [Schema] (schema.go), [Limits] (limits.go, preview.go) and [Loader]
      (loader.go): what a bundle is and how a file becomes one.  Validation
      agrees with a declarative schema; a JSON file loads exactly when it is an
      acceptable bundle, and the loader inverts the printing of one.
    - [Match], [FileMatch], [ExecMatch], [NetworkMatch] (match.go and the three
      matchers): hits are reported exactly for the rules that match, with the
      confidence the captured data allows.
    - [Generation] (generation.go) and [Engine] (engine.go): an update of the
      two banks is all or nothing; activation swaps one immutable snapshot;
      the decision is that of the applicable policy of highest precedence.
    - [PolicyAudit] (audit.go): what a decision may claim was enforced.

    ** Kernel ([bpf/], [internal/events], [internal/bpfmgr])

    - [Events] (kernel_event.go, bpf/events.h): the decoder inverts the wire
      layout.
    - [Enforcement] (enforcement.go, bpfmgr/audit.go, audit_linux.go) compiles
      the block policy into map entries, [KernelProgram] (bpf/agentshield.bpf.c,
      bpf/maps.h) runs the hooks on them: a connect is refused exactly as the
      policy says.  [KernelCapture]: the records decode, truncation is always
      flagged, and every event of a scope is in the ring or counted as lost.
    - [AuditStream] (bpfmgr/audit.go, internal/timebase): losses are reported
      in full unless the clock or the writer fails.

    ** Runs ([internal/api], [internal/scope], [internal/killer])

    - [CgroupPath], [Scope] (scope/manager.go, monitor.go), [LinuxCgroup]
      (resolver_linux.go, monitor_linux.go, handle_fd_linux.go,
      killer/cgroup_linux.go): the manager's registrations are the kernel's
      scope map and never overlap.
    - [Killer] (killer.go): only the named, still registered cgroup is killed,
      and only while the service itself is outside it.
    - [RunStore], [Registration], [RunLifecycle] (registration.go,
      lifecycle.go, scope_monitor.go): under any interleaving scopes and runs
      agree, termination is exact, and expired runs are cleaned up.
    - [Checkpoint] (checkpoint.go): accepted sequences have no gap.
    - [Coordinator] (policy_coordinator.go): an event is evaluated for the run
      that owns its scope, and containment reaches that run.

    ** Evidence ([internal/correlator], [internal/evidence], [internal/store],
       [internal/stream], [internal/api])

    - [Correlator], [Evidence]: the best candidate is selected; a timeline is
      built from events that claim only what their source may claim.
    - [Redact], [StoreRecord] (store/record.go), [Writer] (writer.go), [Sqlite]
      and [SqliteOpen] (sqlite.go and the cgo binding): configured secrets do
      not reach a record; records are conserved; a batch is atomic.
    - [Hub] (stream/hub.go), [JsonSink] (json_sink.go), [WebSocket] and
      [StreamHandler] (handler.go): subscribers and connections see a gapless
      sequence or are told to resynchronise; tickets are issued to the bearer
      of the read token and used once.
    - [Overview] (overview.go, read_auth.go), [EvidenceCodec] and [EvidenceApi]
      (api/evidence.go), [RuntimePipeline] and [StoredEvidence]
      (runtime_pipeline.go): what is emitted is what a processed input tells,
      and every input is answered; the endpoints show the newest messages and
      stored records, as a declarative projection says.
    - [EnvCheck] (envcheck.go) and [Diagnostics] (policies.go, diagnostics.go):
      the static report, the catalogue, and exact loss counts.

    ** Local inspection ([internal/inspection], [internal/api/inspection.go])

    - [McpPolicy] (json.go, mcp.go), [Checker] (checker.go), [InspectionAudit]:
      a body is checked against the pinned policy, an approval is used once,
      and an answer "checked" follows the transaction that stores its record.

    ** Fuel and bounds

    Readers of text take fuel from the length of their input ([json_fuel] is
    two units per byte: an array and its first element start at the same byte);
    [decode_next_fuel] and [document_fuel] prove that more fuel changes
    nothing.  The glob matcher, the regular expressions and the rune readers
    use the length of what is left.  Loops over queues and retries use the
    bound the code has.  The termination theorems are total: they say that the
    result is returned, not only what it is.

    ** Not modelled

    The commands under [cmd/] (flags, listeners, signals, waiting for
    goroutines), the operator checks and generators, the container's first
    process, the Unix listeners, the kernel probe of a scope, configuration and
    logging: they are system calls and wiring without a state of their own.
    The Windows binding of SQLite repeats the cgo one through system calls.
    [RunAudit] opens and closes kernel objects around the modelled loop.  The
    YAML decoder, the eBPF library and SQLite are not in [src/]: parameters.
    The configuration of the inspection endpoint is taken as decoded.  The
    dashboard (TypeScript) and the launchers and SDK (Python) are clients of
    the modelled endpoints.  Instructions the BPF verifier adds and the memory
    model below Go's locks are outside the model. *)
From stdpp Require Export base tactics numbers list gmap strings sorting.
From Stdlib Require Export ZArith Lia.
From Stdlib Require Ascii String DecimalString DecimalN.

(** ** Notations *)
Declare Scope go_scope.
Delimit Scope go_scope with go.
Open Scope go_scope.

Notation "a == b" := (bool_decide (a = b)) (at level 70, no associativity) : go_scope.
Notation "a != b" := (negb (bool_decide (a = b))) (at level 70, no associativity) : go_scope.

(** ** Results: a Go call that returns a value and an error *)
Inductive result (E A : Type) : Type :=
| Ok (a : A)
| Err (e : E).
Arguments Ok {E A} a.
Arguments Err {E A} e.

#[export] Instance result_ret {E} : MRet (result E) := fun A a => Ok a.
#[export] Instance result_bind {E} : MBind (result E) :=
  fun A B f m => match m with Ok a => f a | Err e => Err e end.

Lemma Ok_inj {E A} (x y : A) : @Ok E A x = Ok y -> x = y.
Proof. congruence. Qed.

Definition is_ok {E A} (r : result E A) : bool :=
  match r with Ok _ => true | Err _ => false end.

(** [if cond then return err]: the guard idiom of every handler. *)
Definition guard_err {E} (bad : bool) (e : E) : result E unit :=
  if bad then Err e else Ok tt.
Lemma guard_err_ok {E} (bad : bool) (e : E) : guard_err bad e = Ok tt <-> bad = false.
Proof. by destruct bad. Qed.
Lemma guard_bind {E A} b (e : E) (m : result E A) x : (_ ← guard_err b e; m) = Ok x <-> b = false /\ m = Ok x.
Proof. destruct b; cbn; split; try done. by intros [? _]. by intros [_ ?]. Qed.

(** [x != nil] and [x == nil]. *)
Definition is_some {A} (x : option A) : bool := match x with Some _ => true | None => false end.
Definition is_none {A} (x : option A) : bool := negb (is_some x).
Lemma is_some_true {A} (x : option A) : is_some x = true <-> is_Some x.
Proof. destruct x; cbn; split; try done; by intros []. Qed.
Lemma is_some_false {A} (x : option A) : is_some x = false <-> x = None.
Proof. by destruct x. Qed.

(** A loop [for _, x := range l] whose body threads an accumulator and may
    return early with an error. *)
Fixpoint foldM {E S A} (f : S -> A -> result E S) (s : S) (l : list A) : result E S :=
  match l with
  | [] => Ok s
  | x :: l' => s' ← f s x; foldM f s' l'
  end.

(** Calls that also change a state. *)
Definition stateM (S E A : Type) : Type := S -> S * result E A.
#[export] Instance stateM_ret {S E} : MRet (stateM S E) := fun A a s => (s, Ok a).
#[export] Instance stateM_bind {S E} : MBind (stateM S E) :=
  fun A B f m s => match m s with
                   | (s', Ok a) => f a s'
                   | (s', Err e) => (s', Err e)
                   end.
Definition raise {S E A} (e : E) : stateM S E A := fun s => (s, Err e).
Definition reject_if {S E} (bad : bool) (e : E) : stateM S E unit :=
  if bad then raise e else mret tt.
Definition map_err {S E E' A} (f : E -> E') (m : stateM S E A) : stateM S E' A :=
  fun s => match m s with
           | (s', Ok a) => (s', Ok a)
           | (s', Err e) => (s', Err (f e))
           end.
Fixpoint forM {S E A} (f : nat -> A -> stateM S E unit) (i : nat) (l : list A) : stateM S E unit :=
  match l with
  | [] => mret tt
  | x :: l' => f i x ≫= fun _ => forM f (Datatypes.S i) l'
  end.

(** [holds R m Q]: started in any state, every run of [m] relates the first
    and last states by [R], and a successful one also meets [Q]. *)
Definition holds {S E A} (R : S -> S -> Prop) (m : stateM S E A) (Q : S -> A -> S -> Prop) : Prop :=
  forall s s' r, m s = (s', r) -> R s s' /\ match r with Ok a => Q s a s' | Err _ => True end.

(** ** Tactics and hints *)
Create HintDb agentshield.

(** Split every conjunction, existential and boolean conjunction in sight. *)
Ltac open_hyps :=
  repeat match goal with
  | H : _ /\ _ |- _ => destruct H
  | H : exists x, _ |- _ => let y := fresh x in destruct H as [y H]
  | H : (_ && _)%bool = true |- _ => apply andb_true_iff in H
  | H : negb _ = true |- _ => apply negb_true_iff in H
  | H : negb _ = false |- _ => apply negb_false_iff in H
  | H : (_ || _)%bool = false |- _ => apply orb_false_iff in H
  | H : bool_decide _ = true |- _ => apply bool_decide_eq_true_1 in H
  | H : bool_decide _ = false |- _ => apply bool_decide_eq_false_1 in H
  end.

(** Follow the branches of a handler: case on every scrutinee of the
    hypothesis or goal, discarding the branches that contradict it. *)
Ltac branches :=
  repeat (case_match; simplify_eq/=); open_hyps; simplify_eq/=.

(** Evaluate the comparisons between constants. *)
Ltac const_bool b :=
  let v := eval vm_compute in b in
  match v with true => change b with true | false => change b with false end.
Ltac go_consts :=
  repeat match goal with
  | |- context [bool_decide (?a = ?b)] => const_bool (bool_decide (a = b))
  end; cbn [negb andb orb].

(** Invert a successful bind or guard. *)
Ltac bind_inv H :=
  unfold mbind, result_bind, guard_err, mret, result_ret in H; cbn beta iota in H.

(** ** Lists *)
Section Lists.
Context {A : Type}.

Lemma Forall_filter_subset (P : A -> Prop) (Q : A -> Prop) `{!forall x, Decision (Q x)} (l : list A) :
  Forall P l -> Forall P (filter Q l).
Proof.
  intros Hl. apply Forall_forall. intros x Hx.
  apply list_elem_of_filter in Hx as [_ Hx]. by eapply Forall_forall in Hl.
Qed.

Lemma foldM_app {E S} (f : S -> A -> result E S) s (l1 l2 : list A) :
  foldM f s (l1 ++ l2) = (s' ← foldM f s l1; foldM f s' l2).
Proof.
  revert s. induction l1 as [|x l1 IH]; intros s; [done|]. simpl.
  destruct (f s x); simpl; [apply IH|done].
Qed.

Lemma foldM_concat {E S B} (f : S -> A -> result E S) (items : B -> list A) (gs : list B) : forall s,
  foldM (fun st g => foldM f st (items g)) s gs = foldM f s (concat (map items gs)).
Proof.
  induction gs as [|g gs IH]; intros s; simpl; [done|]. rewrite foldM_app.
  unfold mbind, result_bind. destruct (foldM f s (items g)); [apply IH|done].
Qed.
Lemma foldM_ext {E S} (f g : S -> A -> result E S) (l : list A) :
  (forall s x, f s x = g s x) -> forall s, foldM f s l = foldM g s l.
Proof.
  intros H. induction l as [|x l IH]; intros s; simpl; [done|]. rewrite H.
  unfold mbind, result_bind. destruct (g s x); [apply IH|done].
Qed.

Lemma elem_of_concat_map {B} (f : A -> list B) (l : list A) b :
  b ∈ concat (map f l) <-> exists x, x ∈ l /\ b ∈ f x.
Proof.
  induction l as [|x l IH]; simpl; [set_solver|]. rewrite elem_of_app, IH. set_solver.
Qed.

(** Duplicate-free concatenations: each block is duplicate free and a shared
    element identifies the block. *)
Lemma NoDup_concat_map {B K} (f : A -> list B) (key : A -> K) (l : list A) :
  NoDup (map key l) -> (forall x, x ∈ l -> NoDup (f x)) ->
  (forall x y b, x ∈ l -> y ∈ l -> b ∈ f x -> b ∈ f y -> key x = key y) ->
  NoDup (concat (map f l)).
Proof.
  induction l as [|x l IH]; simpl; [constructor|].
  intros [Hx Hl]%NoDup_cons Hf Hk. apply NoDup_app. split_and!.
  - apply Hf. by left.
  - intros b Hb (y & Hy & Hbs)%elem_of_concat_map.
    apply Hx. rewrite (Hk x y b); [|by left|by right|done|done]. by apply list_elem_of_fmap_2.
  - apply IH; [done| |]; intros; [apply Hf; by right|eapply Hk; [by right|by right|done|done]].
Qed.

(** Selecting from a list keeps its keys distinct. *)
Lemma NoDup_omap_key {B K} (g : A -> option B) (key : A -> K) (key' : B -> K) (l : list A) :
  (forall x y, g x = Some y -> key' y = key x) -> NoDup (map key l) -> NoDup (map key' (omap g l)).
Proof.
  intros Hg. induction l as [|x l IH]; simpl; [constructor|]. intros [Hx Hl]%NoDup_cons.
  destruct (g x) as [y|] eqn:E; [|by apply IH]. simpl. constructor; [|by apply IH].
  rewrite (Hg _ _ E). intros (z & Ez & (w & Hw & Ew)%list_elem_of_omap)%list_elem_of_fmap.
  apply Hx. rewrite Ez, (Hg _ _ Ew). by apply list_elem_of_fmap_2.
Qed.

(** An invariant of the loop body is an invariant of the loop. *)
Lemma foldM_invariant {E S} (f : S -> A -> result E S) (I : S -> Prop) (l : list A) :
  (forall s x s', x ∈ l -> I s -> f s x = Ok s' -> I s') ->
  forall s s', I s -> foldM f s l = Ok s' -> I s'.
Proof.
  induction l as [|x l IH]; simpl; intros Hstep s s' Hs Hf; [by simplify_eq|].
  unfold mbind, result_bind in Hf. destruct (f s x) eqn:E1; [|done].
  eapply IH; [|by eapply (Hstep s); [left| |]|done].
  intros s0 y s1 Hy. apply Hstep. by right.
Qed.
End Lists.

(** Searching a list. *)
Lemma existsb_false {A} (f : A -> bool) (l : list A) :
  existsb f l = false <-> Forall (fun x => f x = false) l.
Proof.
  induction l as [|x l IH]; simpl; [by split|].
  by rewrite orb_false_iff, IH, Forall_cons.
Qed.
Lemma find_None {A} (f : A -> bool) (l : list A) :
  List.find f l = None <-> Forall (fun x => f x = false) l.
Proof.
  induction l as [|x l IH]; simpl; [by split|]. rewrite Forall_cons.
  destruct (f x); [|by rewrite IH; tauto]. split; [done|]. by intros [? _].
Qed.
Lemma find_some_iff {A} (f : A -> bool) (l : list A) :
  (exists x, List.find f l = Some x) <-> exists x, x ∈ l /\ f x = true.
Proof.
  split.
  - intros [x Hx]. apply List.find_some in Hx as [Hx ?]. apply list_elem_of_In in Hx. eauto.
  - intros (x & Hx & Hf). destruct (List.find f l) eqn:E; [eauto|].
    rewrite find_None, Forall_forall in E. by rewrite E in Hf.
Qed.
Lemma find_elem {A} (f : A -> bool) (l : list A) x : List.find f l = Some x -> x ∈ l /\ f x = true.
Proof. intros H. apply List.find_some in H as [? ?]. split; [by apply list_elem_of_In|done]. Qed.

Lemma nodup_map_inj {A B} (f : A -> B) (l : list A) x y :
  NoDup (map f l) -> x ∈ l -> y ∈ l -> f x = f y -> x = y.
Proof.
  induction l as [|z l IH]; cbn; [set_solver|].
  rewrite NoDup_cons, list_elem_of_fmap. rewrite !elem_of_cons.
  intros [Hz Hl] [->|Hx] [->|Hy] E; [done| | |by apply IH].
  - exfalso. apply Hz. by exists y.
  - exfalso. apply Hz. by exists x.
Qed.

Lemma StronglySorted_lookup {A} (R : A -> A -> Prop) (l : list A) i j x y :
  StronglySorted R l -> l !! i = Some x -> l !! j = Some y -> i < j -> R x y.
Proof.
  intros Hs. revert i j. induction Hs as [|z l Hl IH Hz]; intros i j Hi Hj Hij; [done|].
  destruct j as [|j]; [lia|]. cbn in Hj. destruct i as [|i]; cbn in Hi.
  - simplify_eq. rewrite Forall_forall in Hz. apply Hz. by eapply list_elem_of_lookup_2.
  - apply (IH i j); [done..|lia].
Qed.

(** ** Rules for [holds] *)
Section Holds.
Context {S E : Type} (R : S -> S -> Prop) `{!PreOrder R}.

Lemma holds_ret {A} (a : A) : holds (E:=E) R (mret a) (fun s b s' => s' = s /\ b = a).
Proof. intros s s' r [= <- <-]. done. Qed.
Lemma holds_raise {A} (e : E) Q : holds (A:=A) R (raise e) Q.
Proof. intros s s' r [= <- <-]. done. Qed.
Lemma holds_reject_if (bad : bool) (e : E) : holds R (reject_if bad e) (fun s _ s' => s' = s /\ bad = false).
Proof. unfold reject_if. intros s s' r. destruct bad; intros [= <- <-]; done. Qed.
Lemma holds_bind {A B} (m : stateM S E A) (f : A -> stateM S E B) Q1 Q2 :
  holds R m Q1 -> (forall a, holds R (f a) (Q2 a)) ->
  holds R (m ≫= f) (fun s b s' => exists a s1, Q1 s a s1 /\ R s s1 /\ Q2 a s1 b s').
Proof.
  intros H1 H2 s s' r. unfold mbind, stateM_bind. destruct (m s) as [s1 [a|e]] eqn:E1.
  - intros E2. destruct (H1 _ _ _ E1) as [HR HQ]. destruct (H2 a _ _ _ E2) as [HR' HQ'].
    split; [by etrans|]. destruct r; [|done]. naive_solver.
  - intros [= <- <-]. split; [|done]. by destruct (H1 _ _ _ E1).
Qed.
Lemma holds_map_err {E' A} (f : E' -> E) (m : stateM S E' A) Q : holds R m Q -> holds R (map_err f m) Q.
Proof.
  intros H s s' r. unfold map_err. destruct (m s) as [s1 [a|e]] eqn:E1; intros [= <- <-].
  - by destruct (H _ _ _ E1).
  - split; [|done]. by destruct (H _ _ _ E1).
Qed.
Lemma holds_forM {A} (f : nat -> A -> stateM S E unit) (l : list A) : forall i,
  (forall j x, holds R (f j x) (fun _ _ _ => True)) -> holds R (forM f i l) (fun _ _ _ => True).
Proof.
  induction l as [|x l IH]; intros i H; simpl.
  - intros s s' r [= <- <-]. done.
  - intros s s' r Hr. split; [|by destruct r].
    by destruct (holds_bind _ _ _ _ (H i x) (fun _ => IH (Datatypes.S i) H) _ _ _ Hr).
Qed.
Lemma holds_weaken {A} (m : stateM S E A) Q Q' :
  holds R m Q -> (forall s a s', R s s' -> Q s a s' -> Q' s a s') -> holds R m Q'.
Proof.
  intros H HQ s s' r Hr. destruct (H _ _ _ Hr) as [? ?]. split; [done|]. destruct r; auto.
Qed.
End Holds.

(** ** Sorting
    [sort.SliceStable] with a strict weak order [less]: the stable sorted
    permutation.  [sort.Slice] and [slices.SortFunc] return some sorted
    permutation; where [less] separates the elements it is this one
    ([sort_by_unique]). *)
Class StrictWeak {A} (less : A -> A -> bool) : Prop := {
  less_asym x y : less x y = true -> less y x = false;
  less_ntrans x y z : less y x = false -> less z y = false -> less z x = false;
}.

Fixpoint insert_by {A} (less : A -> A -> bool) (x : A) (l : list A) : list A :=
  match l with
  | [] => [x]
  | y :: l' => if less y x then y :: insert_by less x l' else x :: l
  end.
Definition sort_by {A} (less : A -> A -> bool) (l : list A) : list A :=
  foldr (insert_by less) [] l.

Definition not_after {A} (less : A -> A -> bool) (x y : A) : Prop := less y x = false.

Section Sorting.
Context {A : Type} (less : A -> A -> bool) `{!StrictWeak less}.

Lemma insert_by_perm x (l : list A) : insert_by less x l ≡ₚ x :: l.
Proof.
  clear StrictWeak0.
  induction l as [|y l IH]; [done|]. simpl. destruct (less y x); [|done].
  rewrite IH. apply perm_swap.
Qed.

Lemma sort_by_perm (l : list A) : sort_by less l ≡ₚ l.
Proof.
  clear StrictWeak0.
  induction l as [|x l IH]; [done|]. unfold sort_by in *; simpl.
  by rewrite insert_by_perm, IH.
Qed.

Lemma elem_of_sort_by x (l : list A) : x ∈ sort_by less l <-> x ∈ l.
Proof. clear StrictWeak0. by rewrite sort_by_perm. Qed.

Lemma insert_by_sorted x (l : list A) :
  StronglySorted (not_after less) l -> StronglySorted (not_after less) (insert_by less x l).
Proof.
  induction 1 as [|y l Hl IH Hy]; simpl; [repeat constructor|].
  destruct (less y x) eqn:E; constructor; try done.
  - rewrite insert_by_perm. constructor; [|done]. by apply less_asym.
  - by constructor.
  - constructor; [done|]. eapply Forall_impl; [done|]. intros z Hz.
    by eapply less_ntrans.
Qed.

Lemma sort_by_sorted (l : list A) : StronglySorted (not_after less) (sort_by less l).
Proof.
  induction l as [|x l IH]; [constructor|]. by apply insert_by_sorted.
Qed.

(** Already sorted input is left alone (stability in its simplest form). *)
Lemma sort_by_id (l : list A) :
  StronglySorted (not_after less) l -> sort_by less l = l.
Proof.
  clear StrictWeak0.
  induction 1 as [|x l Hl IH Hx]; [done|]. unfold sort_by in *; simpl. rewrite IH.
  destruct l as [|y l']; [done|]. simpl.
  apply Forall_cons in Hx as [Hy _]. unfold not_after in Hy. by rewrite Hy.
Qed.

(** When [less] separates the elements of [l] the sorted permutation is
    unique, so any implementation of the sort returns it. *)
Lemma sort_by_unique (l l' : list A) :
  (forall x y, x ∈ l -> y ∈ l -> less x y = false -> less y x = false -> x = y) ->
  l ≡ₚ l' -> StronglySorted (not_after less) l' -> sort_by less l = l'.
Proof.
  intros Hsep Hp Hs.
  apply (StronglySorted_unique_strong (not_after less)); [|by apply sort_by_sorted|done|by rewrite sort_by_perm].
  intros x y Hx Hy H1 H2. rewrite elem_of_sort_by in Hx. rewrite <-Hp in Hy. exact (Hsep x y Hx Hy H2 H1).
Qed.

Lemma sort_by_perm_eq (l l' : list A) :
  (forall x y, x ∈ l -> y ∈ l -> less x y = false -> less y x = false -> x = y) ->
  l ≡ₚ l' -> sort_by less l = sort_by less l'.
Proof.
  intros Hsep Hp. apply sort_by_unique; [done| |by apply sort_by_sorted].
  by rewrite sort_by_perm.
Qed.

(** The first element of a sorted list precedes or ties with every other. *)
Lemma sort_by_head x l (l0 : list A) :
  sort_by less l0 = x :: l -> forall y, y ∈ l0 -> y = x \/ less y x = false.
Proof.
  intros E y Hy. rewrite <-(elem_of_sort_by y), E in Hy.
  apply elem_of_cons in Hy as [->|Hy]; [by left|]. right.
  pose proof (sort_by_sorted l0) as Hs. rewrite E in Hs.
  inversion_clear Hs as [|? ? _ HF]. by eapply Forall_forall in HF.
Qed.
End Sorting.

(** ** Machine integers *)
Definition u8_max : Z := 255.
Definition u16_max : Z := 65535.
Definition u32_max : Z := 4294967295.
Definition u64_max : Z := 18446744073709551615.
Definition i64_max : Z := 9223372036854775807.
Definition wrap32 (z : Z) : Z := (z mod 2 ^ 32)%Z.
Definition wrap64 (z : Z) : Z := (z mod 2 ^ 64)%Z.
(** Conversion of a 64-bit pattern to [int64]. *)
Definition to_int64 (z : Z) : Z :=
  (let u := wrap64 z in if u <? 2 ^ 63 then u else u - 2 ^ 64)%Z.

(** Go's [len] of a slice and of a string. *)
Definition len {A} (l : list A) : Z := Z.of_nat (length l).
Definition slen (s : string) : Z := Z.of_nat (String.length s).

Lemma len_nonneg {A} (l : list A) : (0 <= len l)%Z.
Proof. unfold len. lia. Qed.
Lemma len_zero {A} (l : list A) : len l = 0%Z <-> l = [].
Proof. unfold len. destruct l; simpl; split; intros; try done; lia. Qed.
#[export] Hint Resolve len_nonneg : agentshield.
Lemma len_app_zero {A} (l1 l2 : list A) : (len l1 + len l2 = 0)%Z <-> l1 ++ l2 = [].
Proof. unfold len. rewrite <-length_zero_iff_nil, length_app. lia. Qed.
Lemma len_app {A} (l1 l2 : list A) : len (l1 ++ l2) = (len l1 + len l2)%Z.
Proof. unfold len. rewrite length_app. lia. Qed.


Lemma wrap32_range z : (0 <= wrap32 z <= u32_max)%Z.
Proof. unfold wrap32, u32_max. pose proof (Z.mod_pos_bound z (2 ^ 32)). lia. Qed.
Lemma wrap64_small z : (0 <= z <= u64_max)%Z -> wrap64 z = z.
Proof. unfold wrap64, u64_max. intros. apply Z.mod_small. lia. Qed.
Lemma to_int64_small z : (0 <= z <= i64_max)%Z -> to_int64 z = z.
Proof.
  unfold to_int64, i64_max. intros. rewrite wrap64_small by (unfold u64_max; lia).
  destruct (Z.ltb_spec z (2 ^ 63)); lia.
Qed.
#[export] Hint Resolve wrap32_range : agentshield.

(** ** Strings: bytewise order *)
Definition str_lt (s t : string) : bool := String.ltb s t.

Lemma str_lt_leb s t : str_lt s t = negb (String.leb t s).
Proof.
  unfold str_lt, String.ltb, String.leb. rewrite String.compare_antisym.
  by destruct (String.compare t s).
Qed.
Lemma str_lt_irrefl s : str_lt s s = false.
Proof. rewrite str_lt_leb. apply negb_false_iff, Is_true_true. by pose proof (reflexivity (R:=String.le) s). Qed.
Lemma str_lt_total s t : str_lt s t = false -> str_lt t s = false -> s = t.
Proof.
  rewrite !str_lt_leb, !negb_false_iff, <-!Is_true_true. intros H1 H2.
  by apply (anti_symm String.le).
Qed.
#[export] Instance str_lt_weak : StrictWeak str_lt.
Proof.
  split; intros x y; rewrite ?str_lt_leb.
  - intros H%negb_true_iff. apply negb_false_iff.
    destruct (String.leb_total x y) as [Hl|Hl]; [done|]. congruence.
  - intros z. rewrite !str_lt_leb, !negb_false_iff, <-!Is_true_true.
    intros H1 H2. by apply (transitivity (R:=String.le) (y:=y)).
Qed.

(** The order needs to agree only on the sorted elements. *)
Lemma insert_by_ext {A} (less less' : A -> A -> bool) x l : (forall y, y ∈ l -> less x y = less' x y /\ less y x = less' y x) -> insert_by less x l = insert_by less' x l.
Proof.
  induction l as [|y l IH]; intros Hl; [done|]. cbn [insert_by]. destruct (Hl y) as [E1 E2]; [by left|]. rewrite ?E1, ?E2, IH; [done|]. intros z Hz. apply Hl. by right.
Qed.
Lemma sort_by_ext {A} (less less' : A -> A -> bool) l : (forall x y, x ∈ l -> y ∈ l -> less x y = less' x y) -> sort_by less l = sort_by less' l.
Proof.
  induction l as [|x l IH]; intros Hl; [done|]. change (insert_by less x (sort_by less l) = insert_by less' x (sort_by less' l)). rewrite IH by (intros a b Ha Hb; apply Hl; by right).
  apply insert_by_ext. intros y Hy. assert (y ∈ l) by exact (proj1 (elem_of_sort_by less' y l) Hy). split; apply Hl; by constructor.
Qed.
