(* ===== verification/GoStd.v ===== *)
(** * The parts of the Go standard library the program uses

    Executable definitions of what the sources call from [strings],
    [unicode/utf8], [strconv] and [path], on Go strings taken as byte
    sequences ([string] of 8-bit [ascii]).  Each follows the documented
    behaviour of the package, byte for byte.  The Unicode case tables, which
    are data and not code, are the class [UnicodeTables]. *)
From S2P Require Import Prelude.
From Stdlib Require Import DecimalString DecimalN.
From Stdlib Require DecimalFacts DecimalPos.
From Stdlib Require Export Ascii.
Open Scope Z_scope.

(** ** Bytes *)
Definition byte_val (c : ascii) : Z := Z.of_N (Ascii.N_of_ascii c).
Definition chr (z : Z) : ascii := Ascii.ascii_of_N (Z.to_N z).
Definition is_byte (b : Z) : Prop := 0 <= b < 256.
Definition bytes_to_string (l : list Z) : string :=
  foldr (fun z s => String (chr z) s) EmptyString l.
Fixpoint string_bytes (s : string) : list Z :=
  match s with
  | EmptyString => []
  | String c s' => byte_val c :: string_bytes s'
  end.

Definition slash : ascii := "/"%char.

Fixpoint str_drop (n : nat) (s : string) : string :=
  match n, s with
  | S n', String _ s' => str_drop n' s'
  | _, _ => s
  end.
Fixpoint str_exists (f : ascii -> bool) (s : string) : bool :=
  match s with
  | EmptyString => false
  | String c s' => f c || str_exists f s'
  end.
Fixpoint str_rev_app (s acc : string) : string :=
  match s with
  | EmptyString => acc
  | String c s' => str_rev_app s' (String c acc)
  end.
Definition str_rev (s : string) : string := str_rev_app s EmptyString.

(** A string literal in double quotes. *)
Definition dquote : string := String (chr 34) EmptyString.
Definition quoted (s : string) : string := dquote +:+ s +:+ dquote.

(** ** strings *)
Definition HasPrefix (s p : string) : bool := String.prefix p s.
Definition HasSuffix (s p : string) : bool := String.prefix (str_rev p) (str_rev s).
Fixpoint Contains (s sub : string) : bool :=
  String.prefix sub s ||
  match s with
  | EmptyString => false
  | String _ s' => Contains s' sub
  end.
Fixpoint count_byte (c : ascii) (s : string) : Z :=
  match s with
  | EmptyString => 0
  | String d s' => (if d == c then 1 else 0) + count_byte c s'
  end.
(** [strings.ContainsAny] for a set of ASCII characters. *)
Definition ContainsAny (s : string) (cs : list ascii) : bool :=
  str_exists (fun c => bool_decide (c ∈ cs)) s.
Fixpoint Join (l : list string) (sep : string) : string :=
  match l with
  | [] => EmptyString
  | [x] => x
  | x :: l' => x +:+ sep +:+ Join l' sep
  end.
(** [strings.Split] by one byte: always at least one piece. *)
Fixpoint split_byte (c : ascii) (s : string) : list string :=
  match s with
  | EmptyString => [EmptyString]
  | String d s' =>
      match split_byte c s' with
      | [] => []
      | p :: ps => if d == c then EmptyString :: p :: ps else String d p :: ps
      end
  end.

(** [strings.TrimPrefix]. *)
Definition TrimPrefix (s p : string) : string := if HasPrefix s p then str_drop (String.length p) s else s.
(** [strings.Cut]: around the first occurrence of a separator. *)
Fixpoint Cut (s sep : string) : option (string * string) :=
  if String.prefix sep s then Some ("", str_drop (String.length sep) s)
  else match s with
       | EmptyString => None
       | String c s' => match Cut s' sep with Some (a, b) => Some (String c a, b) | None => None end
       end.

(** The UTF-8 encodings of the code points [unicode.IsSpace] accepts. *)
Definition space_encodings : list string :=
  map bytes_to_string
    ([[9]; [10]; [11]; [12]; [13]; [32]; [194; 133]; [194; 160];
      [225; 154; 128]; [226; 128; 168]; [226; 128; 169]; [226; 128; 175];
      [226; 129; 159]; [227; 128; 128]]
     ++ map (fun b => [226; 128; 128 + Z.of_nat b]) (seq 0 11)).

Definition strip_one (encodings : list string) (s : string) : option string :=
  match filter (fun e => Is_true (String.prefix e s)) encodings with
  | [] => None
  | e :: _ => Some (str_drop (String.length e) s)
  end.
Fixpoint strip_all (fuel : nat) (encodings : list string) (s : string) : string :=
  match fuel with
  | O => s
  | S f => match strip_one encodings s with
           | Some s' => strip_all f encodings s'
           | None => s
           end
  end.
Definition TrimSpace (s : string) : string :=
  let l := strip_all (String.length s) space_encodings s in
  str_rev (strip_all (String.length l) (map str_rev space_encodings) (str_rev l)).

(** [strings.Fields]: the maximal runs of non-space characters. *)
Fixpoint fields_from (fuel : nat) (word s : string) : list string :=
  match fuel with
  | O => []
  | S f =>
      match strip_one space_encodings s, s with
      | Some rest, _ => (if word == "" then [] else [word]) ++ fields_from f "" rest
      | None, String c rest => fields_from f (word +:+ String c EmptyString) rest
      | None, EmptyString => if word == "" then [] else [word]
      end
  end.
Definition Fields (s : string) : list string := fields_from (S (String.length s)) "" s.

(** ** bufio
    [Scanner] with its default split function over the whole of its input:
    the lines without their end-of-line marker, and whether a line did not
    fit the 64 KiB buffer, which ends the scan. *)
Definition MaxScanTokenSize : Z := 65536.
Definition newline : ascii := chr 10.
Definition drop_cr (s : string) : string :=
  if HasSuffix s (String (chr 13) EmptyString) then str_rev (str_drop 1 (str_rev s)) else s.
Fixpoint scan_pieces (pieces : list string) : list string * bool :=
  match pieces with
  | [] => ([], false)
  | [last] => if MaxScanTokenSize <=? slen last then ([], true)
              else (if last == "" then [] else [drop_cr last], false)
  | line :: rest => if MaxScanTokenSize <=? slen line then ([], true)
                    else let (lines, long) := scan_pieces rest in (drop_cr line :: lines, long)
  end.
Definition scan_lines (input : string) : list string * bool := scan_pieces (split_byte newline input).

(** ** unicode/utf8 *)
Definition RuneError : Z := 65533.
Definition in_range (lo hi b : Z) : bool := (lo <=? b) && (b <=? hi).
Definition is_cont (b : Z) : bool := in_range 128 191 b.

(** First byte and value of the lead bits, and the range of the second byte. *)
Definition lead (b : Z) : option (nat * Z * Z * Z) :=
  if in_range 194 223 b then Some (2%nat, b - 192, 128, 191)
  else if b =? 224 then Some (3%nat, 0, 160, 191)
  else if b =? 237 then Some (3%nat, 13, 128, 159)
  else if in_range 225 239 b then Some (3%nat, b - 224, 128, 191)
  else if b =? 240 then Some (4%nat, 0, 144, 191)
  else if b =? 244 then Some (4%nat, 4, 128, 143)
  else if in_range 241 243 b then Some (4%nat, b - 240, 128, 191)
  else None.

(** [utf8.DecodeRuneInString]: the rune and its width in bytes. *)
Definition DecodeRune (s : string) : Z * nat :=
  match s with
  | EmptyString => (RuneError, O)
  | String c0 s1 =>
      let b0 := byte_val c0 in
      if b0 <? 128 then (b0, 1%nat)
      else match lead b0, s1 with
      | Some (n, v, lo, hi), String c1 s2 =>
          let b1 := byte_val c1 in
          if negb (in_range lo hi b1) then (RuneError, 1%nat)
          else let v1 := v * 64 + (b1 - 128) in
          if bool_decide (n = 2%nat) then (v1, 2%nat)
          else match s2 with
          | String c2 s3 =>
              let b2 := byte_val c2 in
              if negb (is_cont b2) then (RuneError, 1%nat)
              else let v2 := v1 * 64 + (b2 - 128) in
              if bool_decide (n = 3%nat) then (v2, 3%nat)
              else match s3 with
              | String c3 _ =>
                  let b3 := byte_val c3 in
                  if negb (is_cont b3) then (RuneError, 1%nat)
                  else (v2 * 64 + (b3 - 128), 4%nat)
              | EmptyString => (RuneError, 1%nat)
              end
          | EmptyString => (RuneError, 1%nat)
          end
      | _, _ => (RuneError, 1%nat)
      end
  end.

Fixpoint runes_go (fuel : nat) (s : string) : list (Z * nat) :=
  match fuel, s with
  | S f, String _ _ => let rn := DecodeRune s in rn :: runes_go f (str_drop rn.2 s)
  | _, _ => []
  end.
(** [for _, r := range s]: the runes of [s] with their widths. *)
Definition runes (s : string) : list (Z * nat) := runes_go (String.length s) s.
(** [utf8.ValidString]. *)
Definition utf8_valid (s : string) : bool :=
  forallb (fun rn => negb ((rn.1 =? RuneError) && bool_decide (rn.2 = 1%nat))) (runes s).

(** [utf8.AppendRune]; surrogates and out-of-range runes become [RuneError]. *)
Definition encode_rune (r : Z) : list Z :=
  if in_range 0 127 r then [r]
  else if in_range 128 2047 r then [192 + r / 64; 128 + r mod 64]
  else if in_range 65536 1114111 r then
    [240 + r / 262144; 128 + r / 4096 mod 64; 128 + r / 64 mod 64; 128 + r mod 64]
  else let r' := if in_range 2048 65535 r && negb (in_range 55296 57343 r) then r else RuneError in
    [224 + r' / 4096; 128 + r' / 64 mod 64; 128 + r' mod 64].

(** The Unicode simple-folding representative and lower-case mapping. *)
Class UnicodeTables := {
  fold_rune : Z -> Z;
  lower_rune : Z -> Z;
}.
(** The tables restricted to ASCII. *)
Definition ascii_lower (r : Z) : Z := if in_range 65 90 r then r + 32 else r.
Definition ascii_tables : UnicodeTables := {| fold_rune := ascii_lower; lower_rune := ascii_lower |}.

(** [strings.EqualFold] and [strings.ToLower]. *)
Definition EqualFold `{UnicodeTables} (s t : string) : bool :=
  map (fun rn => fold_rune rn.1) (runes s) == map (fun rn => fold_rune rn.1) (runes t).
Definition ToLower `{UnicodeTables} (s : string) : string :=
  bytes_to_string (concat (map (fun rn => encode_rune (lower_rune rn.1)) (runes s))).

(** ** strconv *)
Definition FormatUint (z : Z) : string := NilZero.string_of_uint (N.to_uint (Z.to_N z)).
(** [strconv.ParseUint(s, 10, 64)]: decimal digits only, at most [u64_max]. *)
Definition ParseUint (s : string) : option Z :=
  match NilZero.uint_of_string s with
  | Some d => let v := Z.of_N (N.of_uint d) in if v <=? u64_max then Some v else None
  | None => None
  end.

(** [strconv.FormatInt] and [ParseInt(s, 10, 64)]: an optional sign. *)
Definition FormatInt (z : Z) : string := if z <? 0 then "-" +:+ FormatUint (- z) else FormatUint z.
Definition ParseInt (s : string) : option Z :=
  let signed (negative : bool) (digits : string) :=
    match ParseUint digits with
    | Some v => if negative then if v <=? i64_max + 1 then Some (- v) else None else if v <=? i64_max then Some v else None
    | None => None
    end in
  match s with
  | String c rest => if c == "-"%char then signed true rest else if c == "+"%char then signed false rest else signed false s
  | EmptyString => None
  end.

(** ** path *)
Definition IsAbs (p : string) : bool := HasPrefix p "/".

(** One component of [path.Clean]: the stack of kept components, last first. *)
Definition clean_step (rooted : bool) (stack : list string) (c : string) : list string :=
  if (c == "") || (c == ".") then stack
  else if c == ".." then
    match stack with
    | [] => if rooted then [] else [".."]
    | top :: rest => if top == ".." then ".." :: stack else rest
    end
  else c :: stack.
Definition Clean (p : string) : string :=
  let rooted := IsAbs p in
  let body := Join (rev (foldl (clean_step rooted) [] (split_byte slash p))) "/" in
  if rooted then "/" +:+ body else if body == "" then "." else body.

Fixpoint drop_leading (c : ascii) (s : string) : string :=
  match s with
  | String d s' => if d == c then drop_leading c s' else s
  | EmptyString => s
  end.
Definition Base (p : string) : string :=
  if p == "" then "."
  else let t := str_rev (drop_leading slash (str_rev p)) in
       match rev (split_byte slash t) with
       | last :: _ => if last == "" then "/" else last
       | [] => "/"
       end.

(** ** Lemmas *)
Definition is_digit (c : ascii) : bool := in_range 48 57 (byte_val c).
Fixpoint str_forall (f : ascii -> bool) (s : string) : bool :=
  match s with
  | EmptyString => true
  | String c s' => f c && str_forall f s'
  end.

Lemma string_of_uint_digits d : str_forall is_digit (NilEmpty.string_of_uint d) = true.
Proof. induction d; simpl; done. Qed.
Lemma FormatUint_digits z : str_forall is_digit (FormatUint z) = true.
Proof.
  unfold FormatUint, NilZero.string_of_uint.
  destruct (N.to_uint _) eqn:E; [done|rewrite <-E; apply string_of_uint_digits..].
Qed.
Lemma to_uint_nonnil n : N.to_uint n <> Decimal.Nil.
Proof. destruct n; [done|apply DecimalPos.Unsigned.to_uint_nonnil]. Qed.

(** Decimal round trip on [uint64]. *)
Lemma ParseUint_FormatUint z : 0 <= z <= u64_max -> ParseUint (FormatUint z) = Some z.
Proof.
  intros Hz. unfold ParseUint, FormatUint.
  rewrite NilZero.usu by apply to_uint_nonnil.
  rewrite DecimalN.Unsigned.of_to, Z2N.id by lia.
  by destruct (Z.leb_spec z u64_max); [|lia].
Qed.
Lemma FormatUint_inj x y : 0 <= x -> 0 <= y -> FormatUint x = FormatUint y -> x = y.
Proof.
  unfold FormatUint. intros Hx Hy E.
  apply (f_equal NilZero.uint_of_string) in E.
  rewrite !NilZero.usu in E by apply to_uint_nonnil.
  injection E as E. apply DecimalN.Unsigned.to_uint_inj in E. lia.
Qed.
Lemma ParseUint_range s v : ParseUint s = Some v -> 0 <= v <= u64_max.
Proof.
  unfold ParseUint. intros H. branches.
  match goal with H : (_ <=? _) = true |- _ => apply Z.leb_le in H end. lia.
Qed.
#[export] Hint Resolve ParseUint_range : agentshield.

Lemma str_forall_app f s t : str_forall f (s +:+ t) = str_forall f s && str_forall f t.
Proof. induction s as [|c s IH]; simpl; [done|]. by rewrite IH, andb_assoc. Qed.
Lemma str_app_assoc s t u : s +:+ (t +:+ u) = (s +:+ t) +:+ u.
Proof.
  induction s as [|c s IH]; [done|].
  change (String c (s +:+ (t +:+ u)) = String c ((s +:+ t) +:+ u)). by rewrite IH.
Qed.
Lemma str_app_cons c s t : String c s +:+ t = String c (s +:+ t).
Proof. done. Qed.
Lemma str_app_nil_l s : "" +:+ s = s.
Proof. done. Qed.
Lemma str_app_nil_r s : s +:+ "" = s.
Proof. induction s as [|c s IH]; [done|]. change (String c (s +:+ "") = String c s). by rewrite IH. Qed.

Lemma str_drop_app s t : str_drop (String.length s) (s +:+ t) = t.
Proof. induction s as [|c s IH]; [by destruct t|]. cbn [String.length]. rewrite str_app_cons. exact IH. Qed.
Lemma str_length_drop n s : String.length (str_drop n s) = (String.length s - n)%nat.
Proof. revert s. induction n as [|n IH]; intros [|c s]; cbn; [done..|apply IH]. Qed.
Lemma HasPrefix_app s p : HasPrefix s p = true <-> exists r, s = p +:+ r.
Proof.
  unfold HasPrefix. revert s. induction p as [|c p IH]; intros s.
  { split; [|by destruct s]. intros _. by exists s. }
  destruct s as [|d s]; simpl.
  { split; [done|]. by intros [r E]. }
  destruct (ascii_dec c d) as [->|Hne].
  - rewrite IH. split; intros [r Hr]; exists r; [by rewrite Hr|by injection Hr].
  - split; [done|]. intros [r Hr]. by injection Hr.
Qed.
Lemma str_rev_app_spec s acc : str_rev_app s acc = str_rev s +:+ acc.
Proof.
  unfold str_rev. revert acc. induction s as [|c s IH]; intros acc; simpl; [done|].
  rewrite IH, (IH (String c EmptyString)). by rewrite <-str_app_assoc.
Qed.
Lemma str_rev_cons c s : str_rev (String c s) = str_rev s +:+ String c EmptyString.
Proof. exact (str_rev_app_spec s (String c EmptyString)). Qed.
Lemma str_rev_app_distr s t : str_rev (s +:+ t) = str_rev t +:+ str_rev s.
Proof.
  induction s as [|c s IH]; [by rewrite str_app_nil_r|].
  change (str_rev (String c (s +:+ t)) = str_rev t +:+ str_rev (String c s)).
  by rewrite !str_rev_cons, IH, str_app_assoc.
Qed.
Lemma str_rev_involutive s : str_rev (str_rev s) = s.
Proof.
  induction s as [|c s IH]; [done|]. by rewrite str_rev_cons, str_rev_app_distr, IH.
Qed.
Lemma HasSuffix_app s p : HasSuffix s p = true <-> exists f, s = f +:+ p.
Proof.
  unfold HasSuffix. fold (HasPrefix (str_rev s) (str_rev p)). rewrite HasPrefix_app. split.
  - intros [r Hr]. exists (str_rev r). apply (f_equal str_rev) in Hr.
    by rewrite str_rev_app_distr, !str_rev_involutive in Hr.
  - intros [f ->]. exists (str_rev f). apply str_rev_app_distr.
Qed.

(** ** Bytes of strings *)
Lemma str_length_app s t : String.length (s +:+ t) = (String.length s + String.length t)%nat.
Proof. induction s as [|c s IH]; [done|]. change (S (String.length (s +:+ t)) = S (String.length s + String.length t)). by rewrite IH. Qed.
Lemma byte_val_range c : is_byte (byte_val c).
Proof. unfold is_byte, byte_val. pose proof (N_ascii_bounded c). lia. Qed.
Lemma chr_byte_val c : chr (byte_val c) = c.
Proof. unfold chr, byte_val. by rewrite N2Z.id, ascii_N_embedding. Qed.
Lemma byte_val_chr z : is_byte z -> byte_val (chr z) = z.
Proof. unfold is_byte, chr, byte_val. intros Hz. rewrite N_ascii_embedding by lia. lia. Qed.
Lemma string_bytes_range s : Forall is_byte (string_bytes s).
Proof. induction s; cbn; constructor; auto using byte_val_range. Qed.
Lemma bytes_to_string_bytes s : bytes_to_string (string_bytes s) = s.
Proof. induction s as [|c s IH]; [done|]. cbn. unfold bytes_to_string in IH. by rewrite chr_byte_val, IH. Qed.
Lemma string_bytes_to_string l : Forall is_byte l -> string_bytes (bytes_to_string l) = l.
Proof. induction 1 as [|z l Hz _ IH]; [done|]. cbn. unfold bytes_to_string in IH. by rewrite byte_val_chr, IH. Qed.
Lemma bytes_to_string_length l : String.length (bytes_to_string l) = length l.
Proof. induction l as [|z l IH]; [done|]. cbn. by f_equal. Qed.
Lemma string_bytes_length s : length (string_bytes s) = String.length s.
Proof. induction s; cbn; congruence. Qed.

(** A string splits at a byte its first part does not contain. *)
Lemma split_byte_free c s : str_exists (fun d => d == c) s = false -> split_byte c s = [s].
Proof.
  induction s as [|d s IH]; [done|]. cbn. intros [Hd Hs]%orb_false_iff. rewrite IH by done. by rewrite Hd.
Qed.
Lemma split_byte_app c s t : str_exists (fun d => d == c) s = false ->
  split_byte c (s +:+ String c t) = s :: split_byte c t.
Proof.
  assert (forall u, split_byte c u <> []) as Hne.
  { intros u. induction u as [|d u IH]; [done|]. cbn. destruct (split_byte c u); [done|]. by destruct (d == c). }
  induction s as [|d s IH]; cbn [str_exists].
  - intros _. change ("" +:+ String c t) with (String c t). cbn [split_byte]. specialize (Hne t).
    destruct (split_byte c t); [done|]. by rewrite bool_decide_eq_true_2.
  - intros [Hd Hs]%orb_false_iff. change (String d s +:+ String c t) with (String d (s +:+ String c t)). cbn [split_byte]. rewrite IH by done. by rewrite Hd.
Qed.
Lemma Cut_app c s t : str_exists (fun d => d == c) s = false ->
  Cut (s +:+ String c t) (String c EmptyString) = Some (s, t).
Proof.
  assert (forall u v, String.prefix (String c EmptyString) (String v u) = (v == c)) as Hp.
  { intros u v. cbn. destruct (ascii_dec c v) as [->|Hn]; [rewrite bool_decide_eq_true_2 by done; by destruct u|].
    by rewrite bool_decide_eq_false_2. }
  induction s as [|d s IH]; cbn [str_exists].
  - intros _. change ("" +:+ String c t) with (String c t). cbn [Cut]. rewrite Hp, bool_decide_eq_true_2 by done. by destruct t.
  - intros [Hd Hs]%orb_false_iff. change (String d s +:+ String c t) with (String d (s +:+ String c t)). cbn [Cut].
    rewrite Hp, Hd, IH by done. done.
Qed.
Lemma str_forall_free f c s : str_forall f s = true -> f c = false -> str_exists (fun d => d == c) s = false.
Proof.
  intros Hs Hc. induction s as [|d s IH]; [done|]. cbn in *. apply andb_true_iff in Hs as [Hd Hs].
  rewrite IH by done. rewrite bool_decide_eq_false_2; [done|]. intros ->. congruence.
Qed.
(** At most one digit per bit. *)
Lemma little_double_digits d :
  (Decimal.nb_digits (Decimal.Little.double d) <= S (Decimal.nb_digits d))%nat /\
  (Decimal.nb_digits (Decimal.Little.succ_double d) <= S (Decimal.nb_digits d))%nat.
Proof. induction d; cbn in *; lia. Qed.
Lemma little_digits p : (Decimal.nb_digits (Pos.to_little_uint p) <= Pos.size_nat p)%nat.
Proof. induction p as [p IH|p IH|]; cbn; [|..|done]; pose proof (little_double_digits (Pos.to_little_uint p)); lia. Qed.
Lemma string_of_uint_length d : String.length (NilEmpty.string_of_uint d) = Decimal.nb_digits d.
Proof. induction d; cbn; congruence. Qed.
Lemma FormatUint_slen z : 0 <= z <= u64_max -> slen (FormatUint z) <= 65.
Proof.
  intros Hz. unfold FormatUint, slen, NilZero.string_of_uint. enough (Decimal.nb_digits (N.to_uint (Z.to_N z)) <= 65)%nat as H.
  { rewrite <-string_of_uint_length in H. destruct (N.to_uint (Z.to_N z)); [done|lia..]. }
  destruct z as [|p|p]; [cbn; lia| |lia]. cbn. unfold Pos.to_uint. rewrite DecimalFacts.nb_digits_rev.
  etrans; [apply little_digits|]. change 65%nat with (Pos.size_nat (2 ^ 64)). apply Pos.size_nat_monotone. unfold u64_max in Hz. lia.
Qed.
Lemma ParseInt_FormatInt z : 0 <= z <= i64_max -> ParseInt (FormatInt z) = Some z.
Proof.
  intros Hz. unfold FormatInt. destruct (Z.ltb_spec z 0) as [|_]; [lia|].
  assert (ParseUint (FormatUint z) = Some z) as Hp by (apply ParseUint_FormatUint; unfold i64_max, u64_max in *; lia).
  pose proof (FormatUint_digits z) as Hd. unfold ParseInt. destruct (FormatUint z) as [|c rest] eqn:E; [done|].
  cbn [str_forall] in Hd. apply andb_true_iff in Hd as [Hd _].
  rewrite !bool_decide_eq_false_2 by (intros ->; done). rewrite Hp. by destruct (Z.leb_spec z i64_max); [|lia].
Qed.

(** ** Decimal texts compare as numbers *)
Fixpoint digits_value (s : string) : Z :=
  match s with
  | String c s' => (byte_val c - 48) * 10 ^ slen s' + digits_value s'
  | EmptyString => 0
  end.
Lemma slen_cons c s : slen (String c s) = slen s + 1.
Proof. unfold slen. cbn [String.length]. lia. Qed.
Lemma slen_nonneg s : 0 <= slen s.
Proof. unfold slen. lia. Qed.
Lemma string_of_uint_value d : digits_value (NilEmpty.string_of_uint d) = Z.of_N (N.of_uint d) /\
  slen (NilEmpty.string_of_uint d) = Z.of_N (DecimalPos.Unsigned.usize d).
Proof.
  assert (forall d, Z.of_N (DecimalPos.Unsigned.usize d) = slen (NilEmpty.string_of_uint d)) as Hsize.
  { clear d. induction d; cbn [NilEmpty.string_of_uint DecimalPos.Unsigned.usize]; rewrite ?slen_cons, ?N2Z.inj_succ, ?IHd; done || lia. }
  split; [|done]. unfold N.of_uint. rewrite DecimalPos.Unsigned.of_uint_alt.
  induction d; [done|..]; cbn [NilEmpty.string_of_uint digits_value]; rewrite IHd, <-Hsize;
    change (Decimal.rev (?f d)) with (Decimal.revapp d (f Decimal.Nil)); rewrite DecimalPos.Unsigned.of_lu_revapp, N2Z.inj_add, N2Z.inj_mul, N2Z.inj_pow, Z.add_comm; f_equal.
Qed.
Lemma is_digit_range c : is_digit c = true -> 0 <= byte_val c - 48 <= 9.
Proof. unfold is_digit, in_range. lia. Qed.
Lemma digits_value_bound s : str_forall is_digit s = true -> 0 <= digits_value s < 10 ^ slen s.
Proof.
  induction s as [|c s IH]; [done|]. cbn [str_forall digits_value]. intros [Hc%is_digit_range Hs]%andb_true_iff. specialize (IH Hs). rewrite slen_cons.
  rewrite Z.pow_add_r by (pose proof (slen_nonneg s); lia). nia.
Qed.
Lemma byte_val_inj c d : byte_val c = byte_val d -> c = d.
Proof. unfold byte_val. intros E%N2Z.inj. by rewrite <-(Ascii.ascii_N_embedding c), E, Ascii.ascii_N_embedding. Qed.
Lemma str_lt_cons c d s t : str_lt (String c s) (String d t) = (byte_val c <? byte_val d) || ((byte_val c =? byte_val d) && str_lt s t).
Proof.
  unfold str_lt, String.ltb. cbn [String.compare]. unfold Ascii.compare, byte_val.
  destruct (N.compare_spec (Ascii.N_of_ascii c) (Ascii.N_of_ascii d)) as [E|E|E].
  - rewrite E, Z.ltb_irrefl, Z.eqb_refl. done.
  - apply N2Z.inj_lt, Z.ltb_lt in E. by rewrite E.
  - destruct (Z.ltb_spec (Z.of_N (Ascii.N_of_ascii c)) (Z.of_N (Ascii.N_of_ascii d))); [lia|]. destruct (Z.eqb_spec (Z.of_N (Ascii.N_of_ascii c)) (Z.of_N (Ascii.N_of_ascii d))); [lia|done].
Qed.
Lemma digits_order s : forall t, str_forall is_digit s = true -> str_forall is_digit t = true -> slen s = slen t -> str_lt s t = (digits_value s <? digits_value t).
Proof.
  induction s as [|c s IH]; intros [|d t]; [done|intros _ _ [=]..|].
  cbn [str_forall digits_value]. intros [Hc%is_digit_range Hs]%andb_true_iff [Hd%is_digit_range Ht]%andb_true_iff. rewrite !slen_cons. intros Hl. assert (slen s = slen t) as El by lia.
  rewrite str_lt_cons, IH, El by done. pose proof (digits_value_bound _ Hs) as Bs. pose proof (digits_value_bound _ Ht) as Bt. rewrite El in Bs.
  set (p := 10 ^ slen t) in *. clearbody p. destruct (Z.ltb_spec (byte_val c) (byte_val d)) as [Hb|Hb]; cbn [orb].
  - symmetry. apply Z.ltb_lt. nia.
  - destruct (Z.eqb_spec (byte_val c) (byte_val d)) as [E|E]; cbn [andb].
    + rewrite E. destruct (Z.ltb_spec (digits_value s) (digits_value t)), (Z.ltb_spec ((byte_val d - 48) * p + digits_value s) ((byte_val d - 48) * p + digits_value t)); done || lia.
    + symmetry. apply Z.ltb_ge. nia.
Qed.
Lemma FormatUint_value z : 0 <= z -> digits_value (FormatUint z) = z /\ (0 < z -> 10 ^ (slen (FormatUint z) - 1) <= z) /\ 1 <= slen (FormatUint z).
Proof.
  intros Hz. unfold FormatUint. assert (exists n, z = Z.of_N n) as [n ->] by (exists (Z.to_N z); lia). rewrite N2Z.id. clear Hz.
  pose proof (string_of_uint_value (N.to_uint n)) as [Hv _]. rewrite DecimalN.Unsigned.of_to in Hv.
  assert (NilZero.string_of_uint (N.to_uint n) = NilEmpty.string_of_uint (N.to_uint n)) as -> by (pose proof (to_uint_nonnil n); by destruct (N.to_uint n)).
  split; [done|]. assert (1 <= slen (NilEmpty.string_of_uint (N.to_uint n))) as Hl.
  { pose proof (to_uint_nonnil n). destruct (N.to_uint n) as [|u|u|u|u|u|u|u|u|u|u]; [done|..]; cbn [NilEmpty.string_of_uint]; rewrite slen_cons; pose proof (slen_nonneg (NilEmpty.string_of_uint u)); lia. }
  split; [|done]. intros Hpos. pose proof (DecimalN.Unsigned.to_of (N.to_uint n)) as Hn. rewrite DecimalN.Unsigned.of_to in Hn.
  assert (N.to_uint n <> Decimal.D0 Decimal.Nil) as Hz by (intros E; apply (f_equal N.of_uint) in E; rewrite DecimalN.Unsigned.of_to in E; cbn in E; lia).
  destruct (N.to_uint n) as [|u|u|u|u|u|u|u|u|u|u] eqn:Eu; [by destruct (to_uint_nonnil n)|..].
  { exfalso. rewrite DecimalFacts.unorm_D0 in Hn. assert (Decimal.nzhead u = Decimal.Nil \/ Decimal.nzhead u <> Decimal.Nil) as [En|En] by (destruct (Decimal.nzhead u); auto).
    - apply DecimalFacts.unorm_0 in En. congruence.
    - rewrite DecimalFacts.unorm_nzhead in Hn by done. symmetry in Hn. by apply DecimalFacts.nzhead_nonzero in Hn. }
  all: rewrite <-Hv; cbn [NilEmpty.string_of_uint digits_value]; rewrite slen_cons, Z.add_simpl_r;
    pose proof (digits_value_bound _ (string_of_uint_digits u)) as [Hb _];
    assert (0 <= 10 ^ slen (NilEmpty.string_of_uint u)) as Hp by (apply Z.pow_nonneg; lia);
    set (p := 10 ^ _) in *; set (v := digits_value _) in *;
    match goal with |- _ <= (byte_val ?c - 48) * _ + _ => let k := eval vm_compute in (byte_val c - 48) in change (byte_val c - 48) with k end; lia.
Qed.
(** Decimal texts without leading zeros, compared by length and then byte by
    byte, are in the order of the numbers. *)
Definition decimal_lt (s t : string) : bool := (slen s <? slen t) || ((slen s =? slen t) && str_lt s t).
Lemma FormatUint_order x y : 0 <= x -> 0 <= y -> decimal_lt (FormatUint x) (FormatUint y) = (x <? y).
Proof.
  assert (forall x y, 0 <= x -> 0 <= y -> slen (FormatUint x) < slen (FormatUint y) -> x < y) as Hlt.
  { intros a b Ha Hb Hl. destruct (FormatUint_value a Ha) as (Va & _ & La). destruct (FormatUint_value b Hb) as (Vb & Pb & _).
    pose proof (digits_value_bound _ (FormatUint_digits a)) as [_ Ba]. rewrite Va in Ba.
    assert (10 ^ slen (FormatUint a) <= 10 ^ (slen (FormatUint b) - 1)) by (apply Z.pow_le_mono_r; lia).
    destruct (Z.eq_dec b 0) as [->|]; [|specialize (Pb ltac:(lia)); lia]. change (slen (FormatUint 0)) with 1 in Hl. lia. }
  intros Hx Hy. unfold decimal_lt. destruct (Z.ltb_spec (slen (FormatUint x)) (slen (FormatUint y))) as [Hl|Hl]; cbn [orb].
  { symmetry. apply Z.ltb_lt. by apply Hlt. }
  destruct (Z.eqb_spec (slen (FormatUint x)) (slen (FormatUint y))) as [E|E]; cbn [andb].
  - rewrite digits_order by (done || apply FormatUint_digits). destruct (FormatUint_value x Hx) as (-> & _). by destruct (FormatUint_value y Hy) as (-> & _).
  - symmetry. apply Z.ltb_ge. apply Z.lt_le_incl, Hlt; lia.
Qed.
Lemma slen_app s t : slen (s +:+ t) = slen s + slen t.
Proof. unfold slen. rewrite str_length_app. lia. Qed.
