(* ===== verification/GoTime.v ===== *)
(** * Times and JSON of the Go standard library ([time], [encoding/json])

    A [time.Time] in UTC is the number of nanoseconds since the zero time
    0001-01-01T00:00:00Z, so [IsZero] is equality with 0.  [Marshal] prints a
    JSON value the way [encoding/json] does, HTML escapes included; a struct is
    the object of its fields in order, and a map the object of its keys in
    byte order. *)
From S2P Require Import Prelude GoStd.
Open Scope Z_scope.

(** ** Times *)
Definition Time := Z.
Definition Duration := Z.
Definition IsZero (t : Time) : bool := t =? 0.
Definition Before (t u : Time) : bool := t <? u.
Definition Nanosecond : Duration := 1.
Definition Millisecond : Duration := 1000000.
Definition Second : Duration := 1000000000.
Definition Minute : Duration := 60 * Second.
Definition Hour : Duration := 60 * Minute.
(** Nanoseconds from the zero time to the Unix epoch. *)
Definition unix_epoch : Z := 62135596800 * Second.
(** The result is an [int64]. *)
Definition UnixNano (t : Time) : Z := to_int64 (t - unix_epoch).
(** [time.Unix(0, n)]. *)
Definition UnixTime (n : Z) : Time := n + unix_epoch.

Definition leap (year : Z) : bool := (year mod 4 =? 0) && (negb (year mod 100 =? 0) || (year mod 400 =? 0)).
(** Year and day of the year (from 0) of a day counted from 0001-01-01. *)
Definition year_day (d : Z) : Z * Z :=
  let n400 := d / 146097 in let r := d mod 146097 in
  let n100 := Z.min 3 (r / 36524) in let r := r - n100 * 36524 in
  let n4 := r / 1461 in let r := r mod 1461 in
  let n1 := Z.min 3 (r / 365) in
  (1 + 400 * n400 + 100 * n100 + 4 * n4 + n1, r - n1 * 365).
Fixpoint month_day (months : list Z) (month day : Z) : Z * Z :=
  match months with
  | [] => (month, day + 1)
  | n :: months' => if day <? n then (month, day + 1) else month_day months' (month + 1) (day - n)
  end.
Definition civil (d : Z) : Z * Z * Z :=
  let (year, day) := year_day d in
  let (month, day) := month_day [31; if leap year then 29 else 28; 31; 30; 31; 30; 31; 31; 30; 31; 30] 1 day in
  (year, month, day).

(** At least [n] digits. *)
Fixpoint zeros (n : nat) : string := match n with O => EmptyString | S n' => String "0"%char (zeros n') end.
Definition pad_digits (n : nat) (z : Z) : string :=
  let s := FormatUint z in zeros (n - String.length s) +:+ s.
Definition trim_zeros (s : string) : string := str_rev (drop_leading "0"%char (str_rev s)).
(** [Format(time.RFC3339Nano)] of a UTC time. *)
Definition RFC3339Nano (t : Time) : string :=
  let '(year, month, day) := civil (t / (24 * Hour)) in
  let clock := t mod (24 * Hour) in
  let fraction := trim_zeros (pad_digits 9 (clock mod Second)) in
  pad_digits 4 year +:+ "-" +:+ pad_digits 2 month +:+ "-" +:+ pad_digits 2 day +:+ "T" +:+
  pad_digits 2 (clock / Hour) +:+ ":" +:+ pad_digits 2 (clock / Minute mod 60) +:+ ":" +:+ pad_digits 2 (clock / Second mod 60) +:+
  (if fraction == "" then "" else "." +:+ fraction) +:+ "Z".

(** ** JSON *)
Inductive json :=
  | JNull
  | JBool (b : bool)
  | JNumber (literal : string)
  | JString (s : string)
  | JArray (l : list json)
  | JObject (fields : list (string * json)).

Definition JInt (z : Z) : json := JNumber (FormatInt z).

Definition hex_nibble (z : Z) : ascii := chr (if z <? 10 then 48 + z else 87 + z).
Definition unicode_escape (r : Z) : string :=
  String "\"%char (String "u"%char (bytes_to_string (map (fun k => byte_val (hex_nibble (Z.land (Z.shiftr r k) 15))) [12; 8; 4; 0]))).
(** One rune of a string, with its width: an invalid byte is [RuneError] of
    width 1. *)
Definition escape_rune (r : Z) (width : nat) : string :=
  if r =? 34 then String "\"%char dquote else if r =? 92 then "\\"
  else if r =? 8 then "\b" else if r =? 12 then "\f" else if r =? 10 then "\n" else if r =? 13 then "\r" else if r =? 9 then "\t"
  else if (r <? 32) || (r =? 60) || (r =? 62) || (r =? 38) || (r =? 8232) || (r =? 8233) then unicode_escape r
  else if (r =? RuneError) && (width =? 1)%nat then unicode_escape RuneError
  else bytes_to_string (encode_rune r).
Definition json_string (s : string) : string :=
  quoted (String.concat "" (map (fun rn => escape_rune rn.1 rn.2) (runes s))).
Fixpoint Marshal (v : json) : string :=
  match v with
  | JNull => "null"
  | JBool b => if b then "true" else "false"
  | JNumber literal => literal
  | JString s => json_string s
  | JArray l => "[" +:+ Join (map Marshal l) "," +:+ "]"
  | JObject fields => "{" +:+ Join (map (fun f => json_string f.1 +:+ ":" +:+ Marshal f.2) fields) "," +:+ "}"
  end.

(** A [map[string]string]: a nil map is [null]. *)
Definition sorted_entries (m : gmap string string) : list (string * string) :=
  sort_by (fun a b => str_lt a.1 b.1) (map_to_list m).
Definition json_labels (labels : option (gmap string string)) : json :=
  match labels with
  | None => JNull
  | Some m => JObject (map (fun kv => (kv.1, JString kv.2)) (sorted_entries m))
  end.
(** A field with [omitempty]: dropped when it has its zero value. *)
Definition omitempty (empty : bool) (name : string) (v : json) : list (string * json) :=
  if empty then [] else [(name, v)].

Lemma RFC3339Nano_zero : RFC3339Nano 0 = "0001-01-01T00:00:00Z".
Proof. vm_compute. reflexivity. Qed.
Lemma RFC3339Nano_leap_day : RFC3339Nano (UnixTime 1709164799123456000) = "2024-02-28T23:59:59.123456Z" /\
  RFC3339Nano (UnixTime 1709164800000000000) = "2024-02-29T00:00:00Z" /\ RFC3339Nano (UnixTime 1735689599999999999) = "2024-12-31T23:59:59.999999999Z".
Proof. vm_compute. split_and!; reflexivity. Qed.
