(* ===== verification/Json.v ===== *)
(** * Reading JSON ([encoding/json])

    [json.Valid] and [Decoder.Decode] into an [any] with [UseNumber]: numbers
    keep their literal, objects become maps (the last of two equal names wins)
    and are represented in name order, and strings are unquoted with invalid
    UTF-8 replaced.  The parser is given the way an object keeps its members,
    because a decoder into structs sees them in their order in the text.  The
    scanner refuses nesting deeper than 10000.  The
    printer is [Marshal] of the time and JSON file; the theorems say that the
    parser inverts it and that its fuel is enough. *)
From S2P Require Import Prelude GoStd GoTime.
From Stdlib Require DecimalFacts DecimalN.
Open Scope Z_scope.

Section JsonInd.
Context (P : json -> Prop).
Context (Hnull : P JNull) (Hbool : forall b, P (JBool b)) (Hnumber : forall s, P (JNumber s)) (Hstring : forall s, P (JString s)).
Context (Harray : forall l, Forall P l -> P (JArray l)) (Hobject : forall fields, Forall (fun f => P f.2) fields -> P (JObject fields)).
Fixpoint json_induction (v : json) : P v :=
  match v with
  | JNull => Hnull
  | JBool b => Hbool b
  | JNumber s => Hnumber s
  | JString s => Hstring s
  | JArray l => Harray l ((fix go l := match l return Forall P l with [] => Forall_nil_2 _ | x :: l' => Forall_cons_2 _ _ _ (json_induction x) (go l') end) l)
  | JObject fields => Hobject fields ((fix go l := match l return Forall (fun f => P f.2) l with [] => Forall_nil_2 _ | x :: l' => Forall_cons_2 _ _ _ (json_induction x.2) (go l') end) fields)
  end.
End JsonInd.

(** ** Scanning *)
Definition is_space (c : ascii) : bool := let b := byte_val c in (b =? 32) || (b =? 9) || (b =? 10) || (b =? 13).
Fixpoint skip_space (s : string) : string :=
  match s with
  | String c s' => if is_space c then skip_space s' else s
  | EmptyString => EmptyString
  end.
(** The longest prefix of digits, and the rest. *)
Fixpoint span_digits (s : string) : string * string :=
  match s with
  | String c s' => if is_digit c then let (ds, rest) := span_digits s' in (String c ds, rest) else (EmptyString, s)
  | EmptyString => (EmptyString, EmptyString)
  end.
(** An optional fraction and an optional exponent. *)
Definition scan_fraction (s : string) : option (string * string) :=
  match s with
  | String c s' => if c == "."%char then match span_digits s' with (EmptyString, _) => None | (ds, rest) => Some (String c ds, rest) end else Some (EmptyString, s)
  | EmptyString => Some (EmptyString, s)
  end.
Definition scan_sign (s : string) : string * string :=
  match s with
  | String c s' => if (c == "+"%char) || (c == "-"%char) then (String c EmptyString, s') else (EmptyString, s)
  | EmptyString => (EmptyString, s)
  end.
Definition scan_exponent (s : string) : option (string * string) :=
  match s with
  | String c s' =>
      if (c == "e"%char) || (c == "E"%char)
      then let (sign, s'') := scan_sign s' in
           match span_digits s'' with (EmptyString, _) => None | (ds, rest) => Some (String c (sign +:+ ds), rest) end
      else Some (EmptyString, s)
  | EmptyString => Some (EmptyString, s)
  end.
Definition scan_integer (s : string) : option (string * string) :=
  match s with
  | String c s' => if c == "0"%char then Some ("0", s') else if is_digit c then Some (span_digits s) else None
  | EmptyString => None
  end.
Definition scan_number (s : string) : option (string * string) :=
  let (minus, s) := match s with String c s' => if c == "-"%char then ("-", s') else (EmptyString, s) | EmptyString => (EmptyString, s) end in
  match scan_integer s with
  | None => None
  | Some (int, s) =>
      match scan_fraction s with
      | None => None
      | Some (frac, s) => match scan_exponent s with None => None | Some (exp, s) => Some (minus +:+ int +:+ frac +:+ exp, s) end
      end
  end.

(** ** Strings *)
Definition hex_value (c : ascii) : option Z :=
  let b := byte_val c in
  if in_range 48 57 b then Some (b - 48) else if in_range 97 102 b then Some (b - 87) else if in_range 65 70 b then Some (b - 55) else None.
(** Four hexadecimal digits. *)
Definition get_u4 (s : string) : option (Z * string) :=
  match s with
  | String a (String b (String c (String d rest))) =>
      match hex_value a, hex_value b, hex_value c, hex_value d with
      | Some a, Some b, Some c, Some d => Some (a * 4096 + b * 256 + c * 16 + d, rest)
      | _, _, _, _ => None
      end
  | _ => None
  end.
Definition is_surrogate (r : Z) : bool := in_range 55296 57343 r.
(** [utf16.DecodeRune]. *)
Definition decode_surrogates (r1 r2 : Z) : option Z :=
  if in_range 55296 56319 r1 && in_range 56320 57343 r2 then Some ((r1 - 55296) * 1024 + (r2 - 56320) + 65536) else None.
Definition rune_string (r : Z) : string := bytes_to_string (encode_rune r).
(** The rune a [\u] escape and what follows it stand for. *)
Definition unescape_u (s : string) : option (string * string) :=
  match get_u4 s with
  | None => None
  | Some (r, rest) =>
      if is_surrogate r then
        match rest with
        | String b (String u rest') =>
            if (b == "\"%char) && (u == "u"%char)
            then match get_u4 rest' with
                 | Some (r2, rest'') => match decode_surrogates r r2 with Some dec => Some (rune_string dec, rest'') | None => Some (rune_string RuneError, rest) end
                 | None => Some (rune_string RuneError, rest)
                 end
            else Some (rune_string RuneError, rest)
        | _ => Some (rune_string RuneError, rest)
        end
      else Some (rune_string r, rest)
  end.
Definition unescape (c : ascii) (s : string) : option (string * string) :=
  let b := byte_val c in
  if (b =? 34) || (b =? 92) || (b =? 47) then Some (String c EmptyString, s)
  else if b =? 98 then Some (String (chr 8) EmptyString, s) else if b =? 102 then Some (String (chr 12) EmptyString, s)
  else if b =? 110 then Some (String (chr 10) EmptyString, s) else if b =? 114 then Some (String (chr 13) EmptyString, s)
  else if b =? 116 then Some (String (chr 9) EmptyString, s) else if b =? 117 then unescape_u s else None.
(** The contents of a string after its opening quote, and what follows the
    closing one. *)
Fixpoint unquote (fuel : nat) (s : string) : option (string * string) :=
  match fuel, s with
  | S f, String c s' =>
      let b := byte_val c in
      if b =? 34 then Some (EmptyString, s')
      else if b =? 92 then
        match s' with
        | String e s'' => match unescape e s'' with
                          | Some (text, rest) => match unquote f rest with Some (more, rest') => Some (text +:+ more, rest') | None => None end
                          | None => None
                          end
        | EmptyString => None
        end
      else if b <? 32 then None
      else let (r, n) := DecodeRune s in
           match unquote f (str_drop n s) with Some (more, rest') => Some (rune_string r +:+ more, rest') | None => None end
  | _, _ => None
  end.

(** ** Values *)
(** [m[key] = value] on a map in name order. *)
Fixpoint obj_set (key : string) (v : json) (fields : list (string * json)) : list (string * json) :=
  match fields with
  | [] => [(key, v)]
  | (k, w) :: fields' => if str_lt key k then (key, v) :: fields else if str_lt k key then (k, w) :: obj_set key v fields' else (key, v) :: fields'
  end.
Definition expect (c : ascii) (s : string) : option string :=
  match s with String d rest => if d == c then Some rest else None | EmptyString => None end.
Definition cut_literal (word : string) (v : json) (s : string) : option (json * string) :=
  if HasPrefix s word then Some (v, str_drop (String.length word) s) else None.

(** How the reader of an object keeps a member, and a parser for each way;
    [room]: how many brackets may still be opened. *)
Definition adder := string -> json -> list (string * json) -> list (string * json).
Fixpoint parse_value_with (add : adder) (fuel : nat) (room : nat) (s : string) : option (json * string) :=
  match fuel with
  | O => None
  | S f =>
      match skip_space s with
      | EmptyString => None
      | String c rest as s =>
          if c == "{"%char then
            match room with
            | O => None
            | S room' =>
                match expect "}"%char (skip_space rest) with
                | Some rest' => Some (JObject [], rest')
                | None => match parse_members_with add f room' [] rest with Some (fields, rest') => Some (JObject fields, rest') | None => None end
                end
            end
          else if c == "["%char then
            match room with
            | O => None
            | S room' =>
                match expect "]"%char (skip_space rest) with
                | Some rest' => Some (JArray [], rest')
                | None => match parse_elements_with add f room' rest with Some (l, rest') => Some (JArray l, rest') | None => None end
                end
            end
          else if byte_val c =? 34 then match unquote (String.length rest) rest with Some (text, rest') => Some (JString text, rest') | None => None end
          else if c == "t"%char then cut_literal "true" (JBool true) s
          else if c == "f"%char then cut_literal "false" (JBool false) s
          else if c == "n"%char then cut_literal "null" JNull s
          else match scan_number s with Some (literal, rest') => Some (JNumber literal, rest') | None => None end
      end
  end
with parse_members_with (add : adder) (fuel : nat) (room : nat) (fields : list (string * json)) (s : string) : option (list (string * json) * string) :=
  match fuel with
  | O => None
  | S f =>
      match expect (chr 34) (skip_space s) with
      | None => None
      | Some s =>
          match unquote (String.length s) s with
          | None => None
          | Some (key, s) =>
              match expect ":"%char (skip_space s) with
              | None => None
              | Some s =>
                  match parse_value_with add f room s with
                  | None => None
                  | Some (v, s) =>
                      let fields := add key v fields in
                      match skip_space s with
                      | String c rest => if c == ","%char then parse_members_with add f room fields rest else if c == "}"%char then Some (fields, rest) else None
                      | EmptyString => None
                      end
                  end
              end
          end
      end
  end
with parse_elements_with (add : adder) (fuel : nat) (room : nat) (s : string) : option (list json * string) :=
  match fuel with
  | O => None
  | S f =>
      match parse_value_with add f room s with
      | None => None
      | Some (v, s) =>
          match skip_space s with
          | String c rest =>
              if c == ","%char then match parse_elements_with add f room rest with Some (l, rest') => Some (v :: l, rest') | None => None end
              else if c == "]"%char then Some ([v], rest) else None
          | EmptyString => None
          end
      end
  end.
#[global] Notation parse_value := (parse_value_with obj_set).
#[global] Notation parse_members := (parse_members_with obj_set).
#[global] Notation parse_elements := (parse_elements_with obj_set).

(** Two units of fuel per byte: an array and its first element start at the
    same byte. *)
Definition json_fuel (s : string) : nat := 2 * String.length s + 2.
Definition maxNestingDepth : nat := 10000.
(** [Decoder.Decode]: the next value and the unread input. *)
Definition decode_next (s : string) : option (json * string) := parse_value (json_fuel s) maxNestingDepth s.
(** The value of an input that holds one. *)
Definition Decode (s : string) : option json :=
  match decode_next s with Some (v, rest) => if skip_space rest == "" then Some v else None | None => None end.
(** [json.Valid]. *)
Definition Valid (s : string) : bool := is_some (Decode s).

(** ** UTF-8 *)
Definition scalar (r : Z) : Prop := 0 <= r <= 1114111 /\ is_surrogate r = false.
Definition encoded (l : list Z) : string := String.concat "" (map rune_string l).

Ltac ranges := unfold in_range in *;
  repeat match goal with
  | |- context [?a <=? ?b] => destruct (Z.leb_spec a b)
  | |- context [?a <? ?b] => destruct (Z.ltb_spec a b)
  | |- context [?a =? ?b] => destruct (Z.eqb_spec a b)
  end; cbn [andb orb negb].
Ltac divmod := Z.to_euclidean_division_equations; lia.

Lemma concat_cons x l : String.concat "" (x :: l) = x +:+ String.concat "" l.
Proof. destruct l; cbn; [by rewrite str_app_nil_r|done]. Qed.
Lemma encoded_cons r l : encoded (r :: l) = rune_string r +:+ encoded l.
Proof. unfold encoded. cbn [map]. apply concat_cons. Qed.

#[local] Arguments byte_val : simpl never.
#[local] Arguments chr : simpl never.
Lemma DecodeRune_rune r t : scalar r -> DecodeRune (rune_string r +:+ t) = (r, String.length (rune_string r)).
Proof.
  intros [Hr Hs]. unfold is_surrogate, in_range in Hs. unfold rune_string, encode_rune.
  assert (r <= 127 \/ 128 <= r <= 2047 \/ 2048 <= r <= 65535 \/ 65536 <= r) as [H|[H|[H|H]]] by lia.
  - assert (in_range 0 127 r = true) as -> by (unfold in_range; lia). cbn [bytes_to_string foldr]. rewrite str_app_cons. cbn [DecodeRune String.length].
    rewrite byte_val_chr by (unfold is_byte; lia). by destruct (Z.ltb_spec r 128); [|lia].
  - assert (in_range 0 127 r = false) as -> by (unfold in_range; lia). assert (in_range 128 2047 r = true) as -> by (unfold in_range; lia). cbn [bytes_to_string foldr]. rewrite !str_app_cons. cbn [DecodeRune String.length].
    rewrite !byte_val_chr by (unfold is_byte; divmod).
    destruct (Z.ltb_spec (192 + r / 64) 128); [divmod|]. unfold lead.
    assert (in_range 194 223 (192 + r / 64) = true) as -> by (unfold in_range; divmod).
    assert (in_range 128 191 (128 + r mod 64) = true) as -> by (unfold in_range; divmod). cbn. f_equal. divmod.
  - assert (in_range 0 127 r = false) as -> by (unfold in_range; lia). assert (in_range 128 2047 r = false) as -> by (unfold in_range; lia).
    assert (in_range 65536 1114111 r = false) as -> by (unfold in_range; lia).
    assert (in_range 2048 65535 r && negb (in_range 55296 57343 r) = true) as -> by (unfold in_range; lia). cbn [bytes_to_string foldr]. rewrite !str_app_cons. cbn [DecodeRune String.length].
    rewrite !byte_val_chr by (unfold is_byte; divmod).
    destruct (Z.ltb_spec (224 + r / 4096) 128); [divmod|].
    assert (lead (224 + r / 4096) = Some (3%nat, r / 4096, if r / 4096 =? 0 then 160 else 128, if r / 4096 =? 13 then 159 else 191)) as ->.
    { unfold lead. assert (in_range 194 223 (224 + r / 4096) = false) as -> by (unfold in_range; divmod).
      destruct (Z.eqb_spec (224 + r / 4096) 224) as [E|E]; [assert (r / 4096 = 0) as -> by lia; done|].
      destruct (Z.eqb_spec (224 + r / 4096) 237) as [E'|E']; [assert (r / 4096 = 13) as -> by lia; done|].
      assert (in_range 225 239 (224 + r / 4096) = true) as -> by (unfold in_range; divmod).
      destruct (Z.eqb_spec (r / 4096) 0); [lia|]. destruct (Z.eqb_spec (r / 4096) 13); [lia|]. f_equal. f_equal. f_equal. f_equal. lia. }
    assert (in_range (if r / 4096 =? 0 then 160 else 128) (if r / 4096 =? 13 then 159 else 191) (128 + r / 64 mod 64) = true) as ->.
    { unfold in_range. destruct (Z.eqb_spec (r / 4096) 0), (Z.eqb_spec (r / 4096) 13); divmod. }
    cbn. assert (is_cont (128 + r mod 64) = true) as -> by (unfold is_cont, in_range; divmod). cbn. f_equal. divmod.
  - assert (in_range 0 127 r = false) as -> by (unfold in_range; lia). assert (in_range 128 2047 r = false) as -> by (unfold in_range; lia).
    assert (in_range 65536 1114111 r = true) as -> by (unfold in_range; lia). cbn [bytes_to_string foldr]. rewrite !str_app_cons. cbn [DecodeRune String.length].
    rewrite !byte_val_chr by (unfold is_byte; divmod).
    destruct (Z.ltb_spec (240 + r / 262144) 128); [divmod|].
    assert (lead (240 + r / 262144) = Some (4%nat, r / 262144, if r / 262144 =? 0 then 144 else 128, if r / 262144 =? 4 then 143 else 191)) as ->.
    { assert (0 <= r / 262144 <= 4) as Hq by divmod. set (q := r / 262144) in *.
      assert (q = 0 \/ q = 1 \/ q = 2 \/ q = 3 \/ q = 4) as [-> | [-> | [-> | [-> | ->]]]] by lia; done. }
    assert (in_range (if r / 262144 =? 0 then 144 else 128) (if r / 262144 =? 4 then 143 else 191) (128 + r / 4096 mod 64) = true) as ->.
    { unfold in_range. destruct (Z.eqb_spec (r / 262144) 0), (Z.eqb_spec (r / 262144) 4); divmod. }
    cbn. assert (is_cont (128 + r / 64 mod 64) = true) as -> by (unfold is_cont, in_range; divmod). cbn.
    assert (is_cont (128 + r mod 64) = true) as -> by (unfold is_cont, in_range; divmod). cbn. f_equal. divmod.
Qed.
Lemma chr_string c z : byte_val c = z -> c = chr z.
Proof. intros <-. by rewrite chr_byte_val. Qed.
Lemma lead_cases b n v lo hi : lead b = Some (n, v, lo, hi) ->
  128 <= lo /\ hi <= 191 /\
  ((n = 2%nat /\ b = 192 + v /\ 2 <= v <= 31) \/
   (n = 3%nat /\ b = 224 + v /\ 0 <= v <= 15 /\ (v = 0 -> lo = 160) /\ (v = 13 -> hi = 159)) \/
   (n = 4%nat /\ b = 240 + v /\ 0 <= v <= 4 /\ (v = 0 -> lo = 144) /\ (v = 4 -> hi = 143))).
Proof.
  unfold lead, in_range. intros E.
  repeat match type of E with (if ?b then _ else _) = _ => destruct b eqn:? end; simplify_eq; lia.
Qed.
Lemma DecodeRune_inv s : s <> "" ->
  let (r, n) := DecodeRune s in
  scalar r /\ (0 < n)%nat /\ ((r = RuneError /\ n = 1%nat) \/ s = rune_string r +:+ str_drop n s /\ n = String.length (rune_string r)).
Proof.
  destruct s as [|c0 s1]; [done|]. intros _. cbn [DecodeRune].
  assert (scalar RuneError /\ (0 < 1)%nat /\
    ((RuneError = RuneError /\ 1%nat = 1%nat) \/ String c0 s1 = rune_string RuneError +:+ str_drop 1 (String c0 s1) /\ 1%nat = String.length (rune_string RuneError))) as Hbad.
  { split; [split; [unfold RuneError; lia|done]|]. split; [lia|]. by left. }
  pose proof (byte_val_range c0) as B0. unfold is_byte in B0. pose proof (chr_string c0 _ eq_refl) as C0. set (b0 := byte_val c0) in *.
  destruct (Z.ltb_spec b0 128).
  { split; [split; [lia|unfold is_surrogate, in_range; lia]|]. split; [lia|]. right. unfold rune_string, encode_rune.
    assert (in_range 0 127 b0 = true) as -> by (unfold in_range; lia). cbn [bytes_to_string foldr str_drop]. rewrite str_app_cons, str_app_nil_l, <-C0.
    split; [|done]. by destruct s1. }
  destruct (lead b0) as [[[[n v] lo] hi]|] eqn:El; [|exact Hbad]. destruct s1 as [|c1 s2]; [exact Hbad|].
  pose proof (byte_val_range c1) as B1. unfold is_byte in B1. pose proof (chr_string c1 _ eq_refl) as C1. set (b1 := byte_val c1) in *.
  destruct (in_range lo hi b1) eqn:E1; cbn [negb]; [|exact Hbad]. unfold in_range in E1.
  apply lead_cases in El as (Hlo & Hhi & [(-> & Hb & Hv)|[(-> & Hb & Hv & Hv1 & Hv2)|(-> & Hb & Hv & Hv1 & Hv2)]]).
  - cbn [bool_decide decide_rel Nat.eq_dec]. rewrite bool_decide_eq_true_2 by done. set (r := v * 64 + (b1 - 128)).
    split; [split; [lia|unfold is_surrogate, in_range; lia]|]. split; [lia|]. right. unfold rune_string, encode_rune.
    assert (in_range 0 127 r = false) as -> by (unfold in_range; lia). assert (in_range 128 2047 r = true) as -> by (unfold in_range; lia).
    cbn [bytes_to_string foldr str_drop]. rewrite !str_app_cons, str_app_nil_l. split; [|done].
    assert (192 + r / 64 = b0) as -> by divmod. assert (128 + r mod 64 = b1) as -> by divmod. rewrite <-C0, <-C1. by destruct s2.
  - rewrite bool_decide_eq_false_2 by done. destruct s2 as [|c2 s3]; [exact Hbad|].
    pose proof (byte_val_range c2) as B2. unfold is_byte in B2. pose proof (chr_string c2 _ eq_refl) as C2. set (b2 := byte_val c2) in *.
    destruct (is_cont b2) eqn:E2; cbn [negb]; [|exact Hbad]. unfold is_cont, in_range in E2. rewrite bool_decide_eq_true_2 by done.
    set (r := (v * 64 + (b1 - 128)) * 64 + (b2 - 128)). assert (2048 <= r <= 65535 /\ (r < 55296 \/ 57343 < r)) as [Hr1 Hr2] by lia.
    split; [split; [lia|unfold is_surrogate, in_range; lia]|]. split; [lia|]. right. unfold rune_string, encode_rune.
    assert (in_range 0 127 r = false) as -> by (unfold in_range; lia). assert (in_range 128 2047 r = false) as -> by (unfold in_range; lia).
    assert (in_range 65536 1114111 r = false) as -> by (unfold in_range; lia).
    assert (in_range 2048 65535 r && negb (in_range 55296 57343 r) = true) as -> by (unfold in_range; lia).
    cbn [bytes_to_string foldr str_drop]. rewrite !str_app_cons, str_app_nil_l. split; [|done].
    assert (224 + r / 4096 = b0) as -> by divmod. assert (128 + r / 64 mod 64 = b1) as -> by divmod. assert (128 + r mod 64 = b2) as -> by divmod.
    rewrite <-C0, <-C1, <-C2. by destruct s3.
  - rewrite bool_decide_eq_false_2 by done. destruct s2 as [|c2 s3]; [exact Hbad|].
    pose proof (byte_val_range c2) as B2. unfold is_byte in B2. pose proof (chr_string c2 _ eq_refl) as C2. set (b2 := byte_val c2) in *.
    destruct (is_cont b2) eqn:E2; cbn [negb]; [|exact Hbad]. unfold is_cont, in_range in E2. rewrite bool_decide_eq_false_2 by done.
    destruct s3 as [|c3 s4]; [exact Hbad|].
    pose proof (byte_val_range c3) as B3. unfold is_byte in B3. pose proof (chr_string c3 _ eq_refl) as C3. set (b3 := byte_val c3) in *.
    destruct (is_cont b3) eqn:E3; cbn [negb]; [|exact Hbad]. unfold is_cont, in_range in E3.
    set (r := ((v * 64 + (b1 - 128)) * 64 + (b2 - 128)) * 64 + (b3 - 128)). assert (65536 <= r <= 1114111) as Hr by lia.
    split; [split; [lia|unfold is_surrogate, in_range; lia]|]. split; [lia|]. right. unfold rune_string, encode_rune.
    assert (in_range 0 127 r = false) as -> by (unfold in_range; lia). assert (in_range 128 2047 r = false) as -> by (unfold in_range; lia).
    assert (in_range 65536 1114111 r = true) as -> by (unfold in_range; lia).
    cbn [bytes_to_string foldr str_drop]. rewrite !str_app_cons, str_app_nil_l. split; [|done].
    assert (240 + r / 262144 = b0) as -> by divmod. assert (128 + r / 4096 mod 64 = b1) as -> by divmod.
    assert (128 + r / 64 mod 64 = b2) as -> by divmod. assert (128 + r mod 64 = b3) as -> by divmod.
    rewrite <-C0, <-C1, <-C2, <-C3. by destruct s4.
Qed.

Definition width (r : Z) : nat := String.length (rune_string r).
Lemma width_pos r : (0 < width r)%nat.
Proof. unfold width, rune_string, encode_rune. repeat case_match; cbn; lia. Qed.
Lemma runes_go_encoded l : Forall scalar l -> forall fuel, (String.length (encoded l) <= fuel)%nat ->
  runes_go fuel (encoded l) = map (fun r => (r, width r)) l.
Proof.
  induction 1 as [|r l Hr Hl IH]; intros fuel Hf; [by destruct fuel|]. rewrite encoded_cons in *. rewrite str_length_app in Hf.
  pose proof (width_pos r) as Hw. unfold width in Hw. destruct fuel as [|fuel]; [lia|].
  destruct (rune_string r +:+ encoded l) as [|c s] eqn:E; [apply (f_equal String.length) in E; rewrite str_length_app in E; cbn in E; lia|].
  unfold runes_go; fold runes_go. cbv zeta. rewrite <-E, DecodeRune_rune by done. cbn [fst snd map]. rewrite str_drop_app. unfold width at 1. f_equal. apply IH. lia.
Qed.
Lemma runes_encoded l : Forall scalar l -> runes (encoded l) = map (fun r => (r, width r)) l.
Proof. intros H. by apply runes_go_encoded. Qed.
Lemma scalar_width r : scalar r -> (r =? RuneError) && bool_decide (width r = 1%nat) = false.
Proof. intros _. destruct (Z.eqb_spec r RuneError) as [->|]; [vm_compute; done|done]. Qed.
Lemma runes_go_valid fuel : forall s, (String.length s <= fuel)%nat ->
  forallb (fun rn => negb ((rn.1 =? RuneError) && bool_decide (rn.2 = 1%nat))) (runes_go fuel s) = true ->
  exists l, Forall scalar l /\ s = encoded l.
Proof.
  induction fuel as [|fuel IH]; intros s Hf Hv; [destruct s; [by exists []|cbn in Hf; lia]|].
  destruct s as [|c s]; [by exists []|]. pose proof (DecodeRune_inv (String c s) ltac:(done)) as Hd.
  unfold runes_go in Hv; fold runes_go in Hv. cbv zeta in Hv. destruct (DecodeRune (String c s)) as [r n]. cbn [forallb fst snd] in Hv.
  apply andb_true_iff in Hv as [Hrn Hv]. destruct Hd as (Hs & Hn & [[-> ->]|[E Ew]]); [done|].
  destruct (IH (str_drop n (String c s))) as (l & Hl & El); [rewrite str_length_drop; lia|done|].
  exists (r :: l). split; [by constructor|]. rewrite encoded_cons, <-El. exact E.
Qed.
Lemma utf8_valid_encoded s : utf8_valid s = true <-> exists l, Forall scalar l /\ s = encoded l.
Proof.
  unfold utf8_valid. split; [apply runes_go_valid; lia|]. intros (l & Hl & ->). rewrite runes_encoded by done.
  apply forallb_forall. intros rn (r & <- & Hr)%in_map_iff. cbn. rewrite scalar_width; [done|]. rewrite Forall_forall in Hl. apply Hl. by apply list_elem_of_In.
Qed.

(** ** Reading back a printed string *)
Lemma hex_nibble_value z : 0 <= z < 16 -> hex_value (hex_nibble z) = Some z.
Proof.
  intros Hz. unfold hex_value, hex_nibble. rewrite byte_val_chr by (unfold is_byte; destruct (z <? 10); lia).
  destruct (Z.ltb_spec z 10); unfold in_range.
  - destruct (Z.leb_spec 48 (48 + z)); [|lia]. destruct (Z.leb_spec (48 + z) 57); [|lia]. cbn [andb]. f_equal. lia.
  - destruct (Z.leb_spec 48 (87 + z)); [|lia]. destruct (Z.leb_spec (87 + z) 57); [lia|]. cbn [andb].
    destruct (Z.leb_spec 97 (87 + z)); [|lia]. destruct (Z.leb_spec (87 + z) 102); [|lia]. cbn [andb]. f_equal. lia.
Qed.
Lemma nibble r k : 0 <= r -> 0 <= k -> Z.land (Z.shiftr r k) 15 = r / 2 ^ k mod 16.
Proof. intros. rewrite Z.shiftr_div_pow2 by done. change 15 with (Z.ones 4). by rewrite Z.land_ones. Qed.
Lemma unescape_unicode r t : 0 <= r < 65536 -> is_surrogate r = false ->
  unicode_escape r +:+ t = String "\"%char (String "u"%char (bytes_to_string (map (fun k => byte_val (hex_nibble (Z.land (Z.shiftr r k) 15))) [12; 8; 4; 0]) +:+ t)) /\
  unescape_u (bytes_to_string (map (fun k => byte_val (hex_nibble (Z.land (Z.shiftr r k) 15))) [12; 8; 4; 0]) +:+ t) = Some (rune_string r, t).
Proof.
  intros Hr Hs. split; [done|]. cbn [map bytes_to_string foldr]. rewrite !str_app_cons, str_app_nil_l, !chr_byte_val.
  unfold unescape_u, get_u4. rewrite !nibble, !hex_nibble_value by (try apply Z.mod_pos_bound; lia). change (2 ^ 12) with 4096. change (2 ^ 8) with 256. change (2 ^ 4) with 16. change (2 ^ 0) with 1.
  assert (r / 4096 mod 16 * 4096 + r / 256 mod 16 * 256 + r / 16 mod 16 * 16 + r / 1 mod 16 = r) as -> by divmod. by rewrite Hs.
Qed.
Lemma rune_string_first r : scalar r -> exists c s, rune_string r = String c s /\ (if r <? 128 then byte_val c = r else 192 <= byte_val c).
Proof.
  intros [Hr Hs]. unfold is_surrogate, in_range in Hs. unfold rune_string, encode_rune.
  destruct (in_range 0 127 r) eqn:E1; unfold in_range in E1.
  { do 2 eexists. split; [reflexivity|]. destruct (Z.ltb_spec r 128); [|lia]. apply byte_val_chr. unfold is_byte. lia. }
  destruct (Z.ltb_spec r 128); [lia|]. destruct (in_range 128 2047 r) eqn:E2; unfold in_range in E2.
  { do 2 eexists. split; [reflexivity|]. rewrite byte_val_chr by (unfold is_byte; divmod). divmod. }
  destruct (in_range 65536 1114111 r) eqn:E3; unfold in_range in E3.
  { do 2 eexists. split; [reflexivity|]. rewrite byte_val_chr by (unfold is_byte; divmod). divmod. }
  do 2 eexists. split; [reflexivity|]. set (r' := if _ : bool then r else RuneError).
  assert (0 <= r' <= 65535) by (unfold r', RuneError; destruct (in_range 2048 65535 r && _); lia). rewrite byte_val_chr by (unfold is_byte; divmod). divmod.
Qed.
Definition prepend (text : string) (m : option (string * string)) : option (string * string) :=
  match m with Some (more, rest) => Some (text +:+ more, rest) | None => None end.
Lemma unquote_unicode f r t : 0 <= r < 65536 -> is_surrogate r = false -> unquote (S f) (unicode_escape r +:+ t) = prepend (rune_string r) (unquote f t).
Proof.
  intros Hb Hn. destruct (unescape_unicode r t Hb Hn) as [-> Hu]. cbn [unquote]. change (byte_val "\"%char =? 34) with false. change (byte_val "\"%char =? 92) with true. cbn iota.
  unfold unescape. change (byte_val "u"%char) with 117. cbn [Z.eqb Pos.eqb orb]. by rewrite Hu.
Qed.
Lemma unquote_rune f r n t : scalar r -> unquote (S f) (escape_rune r n +:+ t) = prepend (rune_string r) (unquote f t).
Proof.
  intros Hr. unfold escape_rune.
  destruct (Z.eqb_spec r 34) as [->|N1]; [reflexivity|]. destruct (Z.eqb_spec r 92) as [->|N2]; [reflexivity|].
  destruct (Z.eqb_spec r 8) as [->|N3]; [reflexivity|]. destruct (Z.eqb_spec r 12) as [->|N4]; [reflexivity|].
  destruct (Z.eqb_spec r 10) as [->|N5]; [reflexivity|]. destruct (Z.eqb_spec r 13) as [->|N6]; [reflexivity|].
  destruct (Z.eqb_spec r 9) as [->|N7]; [reflexivity|].
  destruct (_ || _) eqn:Es.
  { destruct Hr as [Hr Hs]. apply unquote_unicode; [lia|done]. }
  destruct ((r =? RuneError) && (n =? 1)%nat) eqn:Ee.
  { apply andb_true_iff in Ee as [->%Z.eqb_eq _]. apply unquote_unicode; [unfold RuneError; lia|done]. }
  fold (rune_string r). pose proof (DecodeRune_rune r t Hr) as Hd. destruct (rune_string_first r Hr) as (c & s & E & Hc).
  unfold width in *. destruct Hr as [Hr _]. pose proof (str_drop_app (rune_string r) t) as Hdrop. rewrite E in *. rewrite str_app_cons in *. cbn [unquote].
  assert (byte_val c <> 34 /\ byte_val c <> 92 /\ 32 <= byte_val c) as (H1 & H2 & H3).
  { destruct (Z.ltb_spec r 128); lia. }
  destruct (Z.eqb_spec (byte_val c) 34); [done|]. destruct (Z.eqb_spec (byte_val c) 92); [done|]. destruct (Z.ltb_spec (byte_val c) 32); [lia|].
  rewrite Hd, Hdrop, E. done.
Qed.
Definition escaped (l : list (Z * nat)) : string := String.concat "" (map (fun rn => escape_rune rn.1 rn.2) l).
Lemma unquote_escaped l : Forall (fun rn => scalar rn.1) l -> forall f rest, (length l < f)%nat ->
  unquote f (escaped l +:+ String (chr 34) rest) = Some (encoded (map fst l), rest).
Proof.
  unfold escaped. induction 1 as [|rn l Hr Hl IH]; intros [|f] rest Hf; cbn in Hf; try lia; [reflexivity|].
  cbn [map]. rewrite concat_cons, <-str_app_assoc, unquote_rune, IH by (done || lia). cbn [prepend]. by rewrite encoded_cons.
Qed.
Lemma escape_length r n : (0 < String.length (escape_rune r n))%nat.
Proof. unfold escape_rune. repeat (case_match; [cbn; lia|]). exact (width_pos r). Qed.
Lemma escaped_length l : (length l <= String.length (escaped l))%nat.
Proof.
  unfold escaped. induction l as [|[r n] l IH]; cbn [map length]; [lia|]. rewrite concat_cons, str_length_app. cbn [fst snd]. pose proof (escape_length r n). lia.
Qed.
(** A string with its invalid bytes replaced. *)
Definition to_valid (s : string) : string := encoded (map fst (runes s)).
Lemma runes_scalar s : Forall (fun rn => scalar rn.1) (runes s).
Proof.
  unfold runes. generalize (String.length s) as fuel. intros fuel. revert s. induction fuel as [|fuel IH]; intros [|c s]; [constructor..|].
  unfold runes_go; fold runes_go. cbv zeta. pose proof (DecodeRune_inv (String c s) ltac:(done)) as Hd. destruct (DecodeRune (String c s)) as [r n].
  constructor; [apply Hd|apply IH].
Qed.
Lemma to_valid_id s : utf8_valid s = true -> to_valid s = s.
Proof. intros (l & Hl & ->)%utf8_valid_encoded. unfold to_valid. rewrite runes_encoded, map_map by done. cbn [fst]. by rewrite map_id. Qed.
Lemma to_valid_valid s : utf8_valid (to_valid s) = true.
Proof.
  apply utf8_valid_encoded. exists (map fst (runes s)). split; [|done]. apply Forall_map. exact (runes_scalar s).
Qed.
(** The text of a string value, after its opening quote, reads back. *)
Lemma unquote_json_string s rest :
  exists body, json_string s = String (chr 34) body /\ unquote (String.length (body +:+ rest)) (body +:+ rest) = Some (to_valid s, rest).
Proof.
  unfold json_string, quoted, dquote. fold (escaped (runes s)).
  eexists. split; [reflexivity|]. rewrite <-str_app_assoc, str_app_cons, str_app_nil_l. apply unquote_escaped; [apply runes_scalar|].
  rewrite str_length_app. pose proof (escaped_length (runes s)). cbn [String.length]. lia.
Qed.

(** ** Reading back a number *)
(** What follows cannot continue a number. *)
Definition delimited (rest : string) : Prop :=
  match rest with String c _ => is_digit c || (c == "."%char) || (c == "e"%char) || (c == "E"%char) = false | EmptyString => True end.
Lemma span_digits_app s rest : delimited rest -> forall ds r, span_digits s = (ds, r) -> span_digits (s +:+ rest) = (ds, r +:+ rest).
Proof.
  intros Hd. induction s as [|c s IH]; intros ds r; cbn [span_digits].
  - intros [= <- <-]. rewrite str_app_nil_l. destruct rest as [|c rest]; [done|]. cbn in Hd |- *. by destruct (is_digit c).
  - rewrite str_app_cons. cbn [span_digits]. destruct (is_digit c); [|intros [= <- <-]; done].
    destruct (span_digits s) as [ds' r']. rewrite (IH ds' r' eq_refl). by intros [= <- <-].
Qed.
Lemma scan_integer_app s rest i r : delimited rest -> scan_integer s = Some (i, r) -> scan_integer (s +:+ rest) = Some (i, r +:+ rest).
Proof.
  intros Hd. destruct s as [|c s]; [done|]. rewrite str_app_cons. unfold scan_integer. case_bool_decide; [by intros [= <- <-]|].
  destruct (is_digit c); [|done]. intros [= E]. f_equal. rewrite <-str_app_cons. by apply span_digits_app.
Qed.
Lemma scan_fraction_app s rest i r : delimited rest -> scan_fraction s = Some (i, r) -> scan_fraction (s +:+ rest) = Some (i, r +:+ rest).
Proof.
  intros Hd. destruct s as [|c s].
  - intros [= <- <-]. rewrite str_app_nil_l. destruct rest as [|c rest]; [done|]. cbn in Hd |- *. by destruct (is_digit c), (c == "."%char).
  - rewrite str_app_cons. unfold scan_fraction. case_bool_decide; [|by intros [= <- <-]].
    destruct (span_digits s) as [[|d ds] r'] eqn:E; [done|]. rewrite (span_digits_app s rest Hd _ _ E). by intros [= <- <-].
Qed.
Lemma scan_exponent_app s rest i r : delimited rest -> scan_exponent s = Some (i, r) -> scan_exponent (s +:+ rest) = Some (i, r +:+ rest).
Proof.
  intros Hd. destruct s as [|c s].
  - intros [= <- <-]. rewrite str_app_nil_l. destruct rest as [|c rest]; [done|]. cbn in Hd |- *.
    by destruct (is_digit c), (c == "."%char), (c == "e"%char), (c == "E"%char).
  - rewrite str_app_cons. unfold scan_exponent. destruct (_ || _); [|by intros [= <- <-]].
    assert (forall sg s'', scan_sign s = (sg, s'') -> s'' <> "" -> scan_sign (s +:+ rest) = (sg, s'' +:+ rest)) as Hs.
    { intros sg s''. destruct s as [|d s]; [by intros [= <- <-]|]. rewrite str_app_cons. unfold scan_sign. destruct (_ || _); by intros [= <- <-]. }
    destruct (scan_sign s) as [sg s'']. destruct (span_digits s'') as [[|d ds] r'] eqn:E; [done|].
    rewrite (Hs sg s'' eq_refl) by (by intros ->). rewrite (span_digits_app s'' rest Hd _ _ E). by intros [= <- <-].
Qed.
Definition number_literal (s : string) : Prop := scan_number s = Some (s, "").
Lemma scan_number_app s rest l r : delimited rest -> scan_number s = Some (l, r) -> scan_number (s +:+ rest) = Some (l, r +:+ rest).
Proof.
  intros Hd. unfold scan_number.
  assert (forall m s1, match s with String c s' => if c == "-"%char then ("-", s') else ("", s) | EmptyString => ("", s) end = (m, s1) -> s1 <> "" ->
    match s +:+ rest with String c s' => if c == "-"%char then ("-", s') else ("", s +:+ rest) | EmptyString => ("", s +:+ rest) end = (m, s1 +:+ rest)) as Hm.
  { intros m s1. destruct s as [|c s]; [by intros [= <- <-]|]. rewrite str_app_cons. case_bool_decide; by intros [= <- <-]. }
  destruct (match s with EmptyString => _ | _ => _ end) as [m s1]. destruct (scan_integer s1) as [[i s2]|] eqn:E1; [|done].
  rewrite (Hm m s1 eq_refl) by (by intros ->). rewrite (scan_integer_app _ _ _ _ Hd E1).
  destruct (scan_fraction s2) as [[f s3]|] eqn:E2; [|done]. rewrite (scan_fraction_app _ _ _ _ Hd E2).
  destruct (scan_exponent s3) as [[e s4]|] eqn:E3; [|done]. rewrite (scan_exponent_app _ _ _ _ Hd E3). by intros [= <- <-].
Qed.
(** The first byte of a number selects no other kind of value. *)
Lemma scan_number_first s l r : scan_number s = Some (l, r) -> exists c s', s = String c s' /\ (c = "-"%char \/ is_digit c = true).
Proof.
  destruct s as [|c s]; [done|]. unfold scan_number. case_bool_decide; [intros _; eauto|]. unfold scan_integer. case_bool_decide as H0; [subst; intros _; eauto|].
  destruct (is_digit c) eqn:E; [|done]. intros _. eauto.
Qed.
Lemma span_digits_all s : str_forall is_digit s = true -> span_digits s = (s, "").
Proof.
  induction s as [|c s IH]; [done|]. cbn [str_forall span_digits]. intros [-> Hs]%andb_true_iff. by rewrite IH.
Qed.
Lemma FormatUint_literal z : number_literal (FormatUint z).
Proof.
  pose proof (FormatUint_digits z) as Hd. unfold FormatUint in *. set (n := Z.to_N z) in *.
  pose proof (DecimalN.Unsigned.to_of (N.to_uint n)) as Hu. rewrite DecimalN.Unsigned.of_to in Hu.
  assert (forall c s, c <> "0"%char -> c <> "-"%char -> str_forall is_digit (String c s) = true -> number_literal (String c s)) as Hlit.
  { intros c s H1 H2 H. unfold number_literal, scan_number. rewrite bool_decide_eq_false_2 by done. unfold scan_integer. rewrite bool_decide_eq_false_2 by done.
    pose proof H as Hc. cbn [str_forall] in Hc. apply andb_true_iff in Hc as [-> _]. rewrite span_digits_all by done. cbn [scan_fraction scan_exponent]. by rewrite !str_app_nil_r, str_app_nil_l. }
  destruct (N.to_uint n) as [|d|d|d|d|d|d|d|d|d|d] eqn:E; [exfalso; exact (to_uint_nonnil n E)|..]; try (apply Hlit; [done|done|exact Hd]).
  assert (d = Decimal.Nil) as ->; [|reflexivity]. unfold Decimal.unorm in Hu. destruct (Decimal.nzhead (Decimal.D0 d)) eqn:Ez; try done; [by injection Hu|].
  exfalso. exact (DecimalFacts.nzhead_nonzero _ _ Ez).
Qed.

Lemma minus_literal s : number_literal s -> (forall c s', s = String c s' -> c <> "-"%char) -> number_literal (String "-" s).
Proof.
  unfold number_literal, scan_number. intros Hs Hc. rewrite (bool_decide_eq_true_2 ("-"%char = "-"%char)) by done.
  destruct s as [|c s']; [done|]. rewrite (bool_decide_eq_false_2 (c = "-"%char)) in Hs by exact (Hc c s' eq_refl).
  destruct (scan_integer _) as [[i s1]|]; [|done]. destruct (scan_fraction s1) as [[f s2]|]; [|done]. destruct (scan_exponent s2) as [[x s3]|]; [|done].
  rewrite str_app_nil_l in Hs. injection Hs as -> ->. done.
Qed.
Lemma FormatInt_literal z : number_literal (FormatInt z).
Proof.
  unfold FormatInt. destruct (z <? 0); [|apply FormatUint_literal]. change ("-" +:+ FormatUint (- z)) with (String "-" (FormatUint (- z))).
  apply minus_literal; [apply FormatUint_literal|]. intros c s' E. pose proof (FormatUint_digits (- z)) as Hd. rewrite E in Hd. cbn [str_forall] in Hd.
  apply andb_true_iff in Hd as [Hd _]. by intros ->.
Qed.
Lemma ParseInt_signed z : - i64_max - 1 <= z <= i64_max -> ParseInt (FormatInt z) = Some z.
Proof.
  intros Hz. destruct (Z.ltb_spec z 0) as [Hn|Hn]; [|apply ParseInt_FormatInt; lia]. unfold FormatInt. destruct (Z.ltb_spec z 0); [|lia].
  change ("-" +:+ FormatUint (- z)) with (String "-" (FormatUint (- z))). unfold ParseInt. rewrite bool_decide_eq_true_2 by done.
  rewrite ParseUint_FormatUint by (unfold i64_max, u64_max in *; lia). destruct (Z.leb_spec (- z) (i64_max + 1)); [f_equal; lia|lia].
Qed.

(** ** Reading back a value *)
Fixpoint ascending (l : list string) : bool :=
  match l with [] => true | a :: l' => forallb (str_lt a) l' && ascending l' end.
(** The values [Decode] returns: numbers are literals, strings UTF-8, and
    objects have their names in order. *)
Fixpoint canonical (v : json) : bool :=
  match v with
  | JNull | JBool _ => true
  | JNumber s => bool_decide (scan_number s = Some (s, ""))
  | JString s => utf8_valid s
  | JArray l => forallb canonical l
  | JObject fields => ascending (map fst fields) && forallb (fun f => utf8_valid f.1 && canonical f.2) fields
  end.
(** No object of the value, nested ones included, repeats a name. *)
Fixpoint names_unique (v : json) : bool :=
  match v with
  | JNull | JBool _ | JNumber _ | JString _ => true
  | JArray l => forallb names_unique l
  | JObject fields => bool_decide (NoDup (map fst fields)) && forallb (fun f => names_unique f.2) fields
  end.
Fixpoint depth (v : json) : nat :=
  match v with
  | JArray l => S (list_max (map depth l))
  | JObject fields => S (list_max (map (fun f => depth f.2) fields))
  | _ => 0
  end.

(** The values [Marshal] prints as JSON, and what they read back as: strings
    made valid, objects as maps. *)
Fixpoint printable (v : json) : bool :=
  match v with
  | JNumber s => bool_decide (scan_number s = Some (s, ""))
  | JArray l => forallb printable l
  | JObject fields => forallb (fun f => printable f.2) fields
  | _ => true
  end.
Definition set_all (fields : list (string * json)) (acc : list (string * json)) : list (string * json) :=
  foldl (fun acc f => obj_set f.1 f.2 acc) acc fields.
Fixpoint norm (v : json) : json :=
  match v with
  | JString s => JString (to_valid s)
  | JArray l => JArray (map norm l)
  | JObject fields => JObject (set_all (map (fun f => (to_valid f.1, norm f.2)) fields) [])
  | _ => v
  end.

(** The same for a reader that keeps the members by [add]. *)
Definition add_all (add : adder) (fields : list (string * json)) (acc : list (string * json)) : list (string * json) :=
  foldl (fun acc f => add f.1 f.2 acc) acc fields.
Fixpoint norm_with (add : adder) (v : json) : json :=
  match v with
  | JString s => JString (to_valid s)
  | JArray l => JArray (map (norm_with add) l)
  | JObject fields => JObject (add_all add (map (fun f => (to_valid f.1, norm_with add f.2)) fields) [])
  | _ => v
  end.

Lemma obj_set_last key v fields : Forall (fun f => str_lt f.1 key = true) fields -> obj_set key v fields = fields ++ [(key, v)].
Proof.
  induction 1 as [|[k w] fields Hk Hf IH]; [done|]. cbn [obj_set app fst] in *. rewrite (less_asym (less := str_lt) _ _ Hk), Hk. by rewrite IH.
Qed.
Lemma json_string_first s : exists body, json_string s = String (chr 34) body.
Proof. eexists. reflexivity. Qed.
Lemma digit_first c : c = "-"%char \/ is_digit c = true ->
  is_space c = false /\ c <> "]"%char /\ c <> "}"%char /\ c <> "{"%char /\ c <> "["%char /\ (byte_val c =? 34) = false /\ c <> "t"%char /\ c <> "f"%char /\ c <> "n"%char.
Proof. intros [->|H]; [vm_compute; done|]. destruct c as [[] [] [] [] [] [] [] []]; vm_compute in H |- *; done. Qed.
Lemma Marshal_first v : printable v = true -> exists c s, Marshal v = String c s /\ is_space c = false /\ c <> "]"%char.
Proof.
  destruct v as [|[]|s|s|l|fields]; cbn [printable Marshal]; intros Hc; [eexists _, _; (split; [reflexivity|done])..| | | |].
  - apply bool_decide_eq_true in Hc. pose proof (scan_number_first _ _ _ Hc) as (c & s' & -> & Hf). exists c, s'. apply digit_first in Hf as (? & ? & _). done.
  - eexists _, _. split; [reflexivity|done].
  - eexists _, _. split; [reflexivity|done].
  - eexists _, _. split; [reflexivity|done].
Qed.
Lemma skip_space_non c s : is_space c = false -> skip_space (String c s) = String c s.
Proof. intros H. cbn [skip_space]. by rewrite H. Qed.

Section ReadBack.
Context (add : adder).
Local Notation parse_value := (parse_value_with add).
Local Notation parse_members := (parse_members_with add).
Local Notation parse_elements := (parse_elements_with add).
Definition reads_back (v : json) : Prop := forall fuel room rest,
  printable v = true -> (depth v <= room)%nat -> delimited rest -> (2 * String.length (Marshal v) <= fuel)%nat ->
  parse_value fuel room (Marshal v +:+ rest) = Some (norm_with add v, rest).

Lemma Join_cons2 x y l sep : Join (x :: y :: l) sep = x +:+ sep +:+ Join (y :: l) sep.
Proof. done. Qed.
Lemma parse_elements_back l : Forall reads_back l -> l <> [] -> forall fuel room rest,
  forallb printable l = true -> (list_max (map depth l) <= room)%nat -> (2 * String.length (Join (map Marshal l) ",") + 1 <= fuel)%nat ->
  parse_elements fuel room (Join (map Marshal l) "," +:+ "]" +:+ rest) = Some (map (norm_with add) l, rest).
Proof.
  induction 1 as [|v l Hv Hl IH]; [done|]. intros _ fuel room rest Hc Hd Hf. cbn [forallb] in Hc. apply andb_true_iff in Hc as [Hcv Hcl].
  cbn [map list_max foldr] in Hd. destruct fuel as [|fuel]; [lia|]. cbn [parse_elements_with]. destruct l as [|w l].
  - cbn [map Join] in *. rewrite Hv; [|done|lia|reflexivity|lia]. reflexivity.
  - cbn [map] in *. rewrite Join_cons2 in *. rewrite <-!str_app_assoc. rewrite !str_length_app in Hf. cbn [String.length] in Hf.
    rewrite Hv; [|done|lia|reflexivity|lia]. rewrite str_app_cons, str_app_nil_l. change (skip_space (String "," ?s)) with (String "," s). cbn iota.
    rewrite bool_decide_eq_true_2 by done. rewrite IH; [done|done|done|cbn [list_max foldr] in *; lia|lia].
Qed.
Definition member (f : string * json) : string := json_string f.1 +:+ ":" +:+ Marshal f.2.
Definition norm_field (f : string * json) : string * json := (to_valid f.1, norm_with add f.2).
Lemma parse_members_back fields : Forall (fun f => reads_back f.2) fields -> fields <> [] -> forall fuel room acc rest,
  forallb (fun f => printable f.2) fields = true -> (list_max (map (fun f => depth f.2) fields) <= room)%nat ->
  (2 * String.length (Join (map member fields) ",") + 1 <= fuel)%nat ->
  parse_members fuel room acc (Join (map member fields) "," +:+ "}" +:+ rest) = Some (add_all add (map norm_field fields) acc, rest).
Proof.
  induction 1 as [|[key v] fields Hv Hl IH]; [done|]. intros _ fuel room acc rest Hc Hd Hf.
  cbn [forallb fst snd map list_max foldr] in *. apply andb_true_iff in Hc as [Hcv Hcl].
  destruct fuel as [|fuel]; [lia|]. cbn [parse_members_with].
  assert (exists tail, Join (member (key, v) :: map member fields) "," +:+ "}" +:+ rest = json_string key +:+ String ":" (Marshal v +:+ tail) /\
    delimited tail /\ (2 * String.length (Marshal v) <= fuel)%nat /\
    (fields = [] /\ tail = String "}" rest \/
     fields <> [] /\ tail = String "," (Join (map member fields) "," +:+ "}" +:+ rest) /\ (2 * String.length (Join (map member fields) ",") + 1 <= fuel)%nat)) as (tail & -> & Hdl & Hfv & Hcase).
  { unfold member at 1. destruct fields as [|g fields]; cbn [map fst snd] in *.
    - exists (String "}" rest). cbn [Join] in *. unfold member in Hf. cbn [fst snd] in Hf. rewrite !str_length_app in Hf. cbn [String.length] in Hf.
      rewrite <-!str_app_assoc. split; [done|]. split; [done|]. split; [lia|]. by left.
    - exists (String "," (Join (map member (g :: fields)) "," +:+ "}" +:+ rest)). rewrite Join_cons2 in *. unfold member in Hf at 1. cbn [fst snd] in Hf.
      rewrite !str_length_app in Hf. cbn [String.length] in Hf. rewrite <-!str_app_assoc. split; [done|]. split; [done|]. split; [lia|]. right.
      split_and!; [done..|]. cbn [map]. lia. }
  destruct (unquote_json_string key (String ":" (Marshal v +:+ tail))) as (body & -> & Hu). rewrite str_app_cons, skip_space_non by done.
  cbn [expect]. rewrite bool_decide_eq_true_2 by done. rewrite Hu. rewrite skip_space_non by done. cbn [expect]. rewrite bool_decide_eq_true_2 by done.
  rewrite Hv; [|done|lia|done|done]. cbv zeta. destruct Hcase as [[-> ->]|(Hne & -> & Hf')].
  - rewrite skip_space_non by done. done.
  - rewrite skip_space_non by done. rewrite bool_decide_eq_true_2 by done. rewrite IH; [done|done|done|unfold list_max; lia|done].
Qed.
Lemma cut_literal_app word v rest : cut_literal word v (word +:+ rest) = Some (v, rest).
Proof.
  unfold cut_literal. assert (HasPrefix (word +:+ rest) word = true) as -> by (apply HasPrefix_app; eauto). by rewrite str_drop_app.
Qed.
Lemma Marshal_reads_back v : reads_back v.
Proof.
  induction v as [| b |s|s|l IH|fields IH] using json_induction; intros [|fuel] room rest Hc Hd Hr Hf;
    try (destruct (Marshal_first _ Hc) as (c & s' & E & _); rewrite E in Hf; cbn [String.length] in Hf; lia).
  - exact (cut_literal_app "null" JNull rest).
  - destruct b; [exact (cut_literal_app "true" (JBool true) rest)|exact (cut_literal_app "false" (JBool false) rest)].
  - cbn [printable] in Hc. apply bool_decide_eq_true in Hc. cbn [Marshal]. destruct (scan_number_first _ _ _ Hc) as (c & s' & -> & Hfirst).
    destruct (digit_first c Hfirst) as (H1 & H2 & H3 & H4 & H5 & H6 & H7 & H8 & H9). cbn [parse_value_with]. rewrite str_app_cons, skip_space_non by done.
    rewrite !bool_decide_eq_false_2, H6 by done. by rewrite <-str_app_cons, (scan_number_app _ _ _ _ Hr Hc).
  - cbn [norm_with Marshal] in *. destruct (unquote_json_string s rest) as (body & -> & Hu). cbn [parse_value_with]. rewrite str_app_cons, skip_space_non by done.
    change (chr 34 == "{"%char) with false. change (chr 34 == "["%char) with false. change (byte_val (chr 34) =? 34) with true. cbn iota. by rewrite Hu.
  - cbn [printable norm_with Marshal depth] in *. rewrite <-!str_app_assoc. destruct room as [|room]; [lia|]. cbn [parse_value_with]. rewrite str_app_cons, str_app_nil_l, skip_space_non by done.
    change ("["%char == "{"%char) with false. change ("["%char == "["%char) with true. cbn iota. rewrite !str_length_app in Hf. cbn [String.length] in Hf.
    destruct l as [|v l]; [reflexivity|]. destruct (Join (map Marshal (v :: l)) "," +:+ "]" +:+ rest) as [|c s] eqn:E.
    { destruct (Join (map Marshal (v :: l)) ","); done. }
    assert (is_space c = false /\ c <> "]"%char) as [H1 H2].
    { cbn [forallb] in Hc. apply andb_true_iff in Hc as [Hcv _]. destruct (Marshal_first v Hcv) as (c' & s' & Ev & H1 & H2). revert E.
      destruct l; cbn [map]; [cbn [Join]|rewrite Join_cons2]; rewrite Ev, !str_app_cons; intros [= <- _]; done. }
    rewrite skip_space_non by done. cbn [expect]. rewrite bool_decide_eq_false_2 by done. rewrite <-E.
    rewrite parse_elements_back; [done|done|done|done|lia|lia].
  - cbn [printable norm_with Marshal depth] in *. rewrite <-!str_app_assoc. destruct room as [|room]; [lia|]. cbn [parse_value_with]. rewrite str_app_cons, str_app_nil_l, skip_space_non by done.
    change ("{"%char == "{"%char) with true. cbn iota. rewrite !str_length_app in Hf. cbn [String.length] in Hf. fold member in Hf |- *.
    destruct fields as [|f fields]; [reflexivity|].
    change (map (fun f => json_string f.1 +:+ ":" +:+ Marshal f.2) (f :: fields)) with (map member (f :: fields)) in *.
    destruct (Join (map member (f :: fields)) "," +:+ "}" +:+ rest) as [|c s] eqn:E.
    { destruct (Join (map member (f :: fields)) ","); done. }
    assert (c = chr 34) as ->.
    { revert E. destruct fields; cbn [map]; [cbn [Join]|rewrite Join_cons2]; unfold member at 1; destruct (json_string_first f.1) as (body & ->);
        rewrite !str_app_cons; by intros [= <- _]. }
    rewrite skip_space_non by done. cbn [expect]. change (chr 34 == "}"%char) with false. cbn iota. rewrite <-E.
    rewrite parse_members_back; [done|done|done|done|lia|lia].
Qed.
End ReadBack.
Lemma norm_with_set v : norm_with obj_set v = norm v.
Proof.
  induction v as [| b |s|s|l IH|fields IH] using json_induction; cbn [norm norm_with]; try done.
  - f_equal. apply map_ext_in. intros v Hv. rewrite Forall_forall in IH. by apply IH, list_elem_of_In.
  - unfold set_all, add_all. do 2 f_equal. apply map_ext_in. intros f Hf. rewrite Forall_forall in IH. f_equal. by apply IH, list_elem_of_In.
Qed.
Lemma norm_canonical v : canonical v = true -> norm v = v /\ printable v = true.
Proof.
  induction v as [| b |s|s|l IH|fields IH] using json_induction; cbn [canonical norm printable]; try done.
  - intros Hv. by rewrite to_valid_id.
  - intros Hl. rewrite forallb_forall in Hl. assert (Forall (fun v => norm v = v /\ printable v = true) l) as H.
    { apply Forall_forall. intros v Hv. rewrite Forall_forall in IH. apply IH; [done|]. apply Hl. by apply list_elem_of_In. }
    split; [|apply forallb_forall; intros v Hv; rewrite Forall_forall in H; by apply H, list_elem_of_In].
    f_equal. clear IH Hl. induction H as [|v l [E _] _ IH]; cbn; congruence.
  - intros [Ha Hf]%andb_true_iff. rewrite forallb_forall in Hf. assert (Forall (fun f => (to_valid f.1, norm f.2) = f /\ printable f.2 = true) fields) as H.
    { apply Forall_forall. intros [k v] Hv. rewrite Forall_forall in IH. specialize (Hf (k, v) ltac:(by apply list_elem_of_In)). apply andb_true_iff in Hf as [Hk Hv'].
      destruct (IH _ Hv Hv') as [E1 E2]. cbn [fst snd] in *. by rewrite to_valid_id, E1. }
    split; [|apply forallb_forall; intros f Hv; rewrite Forall_forall in H; by apply H, list_elem_of_In].
    assert (map (fun f => (to_valid f.1, norm f.2)) fields = fields) as ->.
    { clear IH Hf Ha. induction H as [|f fields [E _] _ IH]; cbn; congruence. }
    f_equal. clear IH Hf H. assert (forall acc, Forall (fun g => forallb (str_lt g.1) (map fst fields) = true) acc -> set_all fields acc = acc ++ fields) as Hs.
    { induction fields as [|[k v] fields IH]; intros acc Hacc; [by rewrite app_nil_r|]. cbn [map fst ascending forallb] in *. apply andb_true_iff in Ha as [Hk Ha].
      unfold set_all in *. cbn [foldl fst snd]. rewrite obj_set_last.
      - rewrite IH; [by rewrite <-app_assoc|done|]. apply Forall_app. split; [|by constructor]. eapply Forall_impl; [exact Hacc|]. intros g [_ ?]%andb_true_iff. done.
      - eapply Forall_impl; [exact Hacc|]. intros g [? _]%andb_true_iff. done. }
    by apply (Hs []).
Qed.
Lemma Decode_printed v : printable v = true -> (depth v <= maxNestingDepth)%nat -> Decode (Marshal v) = Some (norm v).
Proof.
  intros Hc Hd. unfold Decode, decode_next, json_fuel. pose proof (Marshal_reads_back obj_set v (2 * String.length (Marshal v) + 2)%nat maxNestingDepth "" Hc Hd I) as H.
  rewrite str_app_nil_r, norm_with_set in H. rewrite H by lia. done.
Qed.
Lemma Decode_Marshal v : canonical v = true -> (depth v <= maxNestingDepth)%nat -> Decode (Marshal v) = Some v.
Proof. intros [E Hp]%norm_canonical Hd. by rewrite Decode_printed, E. Qed.
Lemma Valid_Marshal v : printable v = true -> (depth v <= maxNestingDepth)%nat -> Valid (Marshal v) = true.
Proof. intros Hp Hd. unfold Valid. by rewrite Decode_printed. Qed.

(** ** What a successful parse consumes *)
Lemma skip_space_length s : (String.length (skip_space s) <= String.length s)%nat.
Proof. induction s as [|c s IH]; cbn; [done|]. destruct (is_space c); cbn; lia. Qed.
Lemma expect_length c s rest : expect c s = Some rest -> String.length s = S (String.length rest).
Proof. destruct s as [|d s]; [done|]. cbn. by case_bool_decide; intros [= <-]. Qed.
Lemma get_u4_length s r rest : get_u4 s = Some (r, rest) -> (String.length rest < String.length s)%nat.
Proof. unfold get_u4. repeat case_match; intros; simplify_eq; cbn; lia. Qed.
Lemma unescape_length c s text rest : unescape c s = Some (text, rest) -> (String.length rest <= String.length s)%nat.
Proof.
  unfold unescape. destruct (_ || _); [intros [= _ <-]; done|]. do 5 (destruct (_ =? _); [intros [= _ <-]; done|]). destruct (_ =? _); [|done].
  unfold unescape_u. destruct (get_u4 s) as [[r s1]|] eqn:E; [|done]. apply get_u4_length in E. destruct (is_surrogate r); [|intros [= _ <-]; lia].
  destruct s1 as [|b [|u s2]]; [intros [= _ <-]; cbn in *; lia..|]. destruct (_ && _); [|intros [= _ <-]; lia].
  destruct (get_u4 s2) as [[r2 s3]|] eqn:E2; [apply get_u4_length in E2|intros [= _ <-]; lia]. destruct (decode_surrogates r r2); intros [= _ <-]; cbn in *; lia.
Qed.
Lemma unquote_length fuel : forall s text rest, unquote fuel s = Some (text, rest) -> (String.length rest < String.length s)%nat.
Proof.
  induction fuel as [|fuel IH]; intros [|c s] text rest; try done. cbn [unquote]. destruct (_ =? 34); [intros [= _ <-]; cbn; lia|].
  destruct (_ =? 92).
  { destruct s as [|e s]; [done|]. destruct (unescape e s) as [[t1 r1]|] eqn:E; [|done]. apply unescape_length in E.
    destruct (unquote fuel r1) as [[t2 r2]|] eqn:E2; [|done]. apply IH in E2. intros [= _ <-]. cbn. lia. }
  destruct (_ <? 32); [done|]. pose proof (DecodeRune_inv (String c s) ltac:(done)) as Hd. destruct (DecodeRune (String c s)) as [r n].
  destruct Hd as (_ & Hn & _). destruct (unquote fuel _) as [[t2 r2]|] eqn:E2; [|done]. apply IH in E2. rewrite str_length_drop in E2. intros [= _ <-]. lia.
Qed.
Lemma span_digits_length s : forall ds r, span_digits s = (ds, r) -> (String.length r <= String.length s)%nat.
Proof.
  induction s as [|c s IH]; cbn; [by intros ? ? [= <- <-]|]. intros ds r. destruct (is_digit c); [|intros [= <- <-]; done].
  destruct (span_digits s) as [d r0]. intros [= <- <-]. pose proof (IH _ _ eq_refl). lia.
Qed.
Lemma scan_number_length s l r : scan_number s = Some (l, r) -> (String.length r < String.length s)%nat.
Proof.
  unfold scan_number. destruct (match s with EmptyString => _ | _ => _ end) as [m s1] eqn:E0.
  assert (String.length s1 <= String.length s)%nat as H0 by (destruct s as [|c s]; [by simplify_eq|]; case_bool_decide; simplify_eq; cbn; lia).
  destruct (scan_integer s1) as [[i s2]|] eqn:E1; [|done].
  assert (String.length s2 < String.length s1)%nat as H1.
  { destruct s1 as [|c s1]; [done|]. unfold scan_integer in E1. case_bool_decide; [by simplify_eq; cbn; lia|]. destruct (is_digit c) eqn:Ec; [|done].
    cbn [span_digits] in E1. rewrite Ec in E1. destruct (span_digits s1) as [d r0] eqn:Es. simplify_eq. apply span_digits_length in Es. cbn. lia. }
  destruct (scan_fraction s2) as [[f s3]|] eqn:E2; [|done].
  assert (String.length s3 <= String.length s2)%nat as H2.
  { destruct s2 as [|c s2]; [cbn in E2; by simplify_eq|]. unfold scan_fraction in E2. case_bool_decide; [|by simplify_eq].
    destruct (span_digits s2) as [[|d ds] r0] eqn:Es; [done|]. simplify_eq. apply span_digits_length in Es. cbn. lia. }
  destruct (scan_exponent s3) as [[e s4]|] eqn:E3; [|done]. intros [= _ <-].
  assert (String.length s4 <= String.length s3)%nat as H3; [|lia].
  destruct s3 as [|c s3]; [cbn in E3; by simplify_eq|]. unfold scan_exponent in E3. destruct (_ || _); [|by simplify_eq].
  assert (forall sg s5, scan_sign s3 = (sg, s5) -> (String.length s5 <= String.length s3)%nat) as Hs.
  { intros sg s5. destruct s3; cbn; [by intros [= <- <-]|]. destruct (_ || _); intros [= <- <-]; cbn; lia. }
  destruct (scan_sign s3) as [sg s5]. specialize (Hs _ _ eq_refl). destruct (span_digits s5) as [[|d ds] r0] eqn:Es; [done|].
  simplify_eq. apply span_digits_length in Es. cbn. lia.
Qed.
Lemma cut_literal_length word v s w rest : word <> "" -> cut_literal word v s = Some (w, rest) -> (String.length rest < String.length s)%nat.
Proof.
  unfold cut_literal. intros Hw. destruct (HasPrefix s word) eqn:E; [|done]. intros [= _ <-]. apply HasPrefix_app in E as [t ->].
  rewrite str_drop_app, str_length_app. destruct word; [done|]. cbn. lia.
Qed.
(** One case for each way a step can go, with the lengths recorded. *)
Ltac lengths := repeat match goal with
  | H : expect _ _ = Some _ |- _ => apply expect_length in H
  | H : unquote _ _ = Some _ |- _ => apply unquote_length in H
  | H : scan_number _ = Some _ |- _ => apply scan_number_length in H
  | H : cut_literal _ _ _ = Some _ |- _ => apply cut_literal_length in H; [|done]
  end.
Definition shrinks {A} (s : string) (m : option (A * string)) : Prop := forall a rest, m = Some (a, rest) -> (String.length rest < String.length s)%nat.
Section Fuel.
Context (add : adder).
Local Notation parse_value := (parse_value_with add).
Local Notation parse_members := (parse_members_with add).
Local Notation parse_elements := (parse_elements_with add).
Lemma parse_shrinks fuel : forall room s, shrinks s (parse_value fuel room s) /\ (forall acc, shrinks s (parse_members fuel room acc s)) /\ shrinks s (parse_elements fuel room s).
Proof.
  induction fuel as [|fuel IH]; intros room s; [done|]. split; [|split].
  - intros v rest. cbn [parse_value_with]. pose proof (skip_space_length s) as Hs. destruct (skip_space s) as [|c s1]; [done|]. cbn [String.length] in Hs.
    destruct (c == "{"%char); [destruct room as [|room]; [done|]|destruct (c == "["%char); [destruct room as [|room]; [done|]|]].
    + destruct (expect _ _) as [r|] eqn:E; [intros [= _ <-]; lengths; pose proof (skip_space_length s1); lia|].
      destruct (parse_members _ _ _ _) as [[l r]|] eqn:Em; [|done]. intros [= _ <-]. apply (IH room s1) in Em. lia.
    + destruct (expect _ _) as [r|] eqn:E; [intros [= _ <-]; lengths; pose proof (skip_space_length s1); lia|].
      destruct (parse_elements _ _ _) as [[l r]|] eqn:Em; [|done]. intros [= _ <-]. apply (IH room s1) in Em. lia.
    + destruct (_ =? 34); [destruct (unquote _ _) as [[t r]|] eqn:E; [|done]; intros [= _ <-]; lengths; lia|].
      repeat (destruct (_ == _); [intros E; lengths; cbn in *; lia|]).
      destruct (scan_number _) as [[l r]|] eqn:E; [|done]. intros [= _ <-]. lengths. cbn in *. lia.
  - intros acc l rest. cbn [parse_members_with]. pose proof (skip_space_length s) as Hs.
    destruct (expect _ _) as [s1|] eqn:E1; [|done]. destruct (unquote _ _) as [[key s2]|] eqn:E2; [|done].
    destruct (expect ":"%char _) as [s3|] eqn:E3; [|done]. lengths. destruct (parse_value _ _ _) as [[v s4]|] eqn:E4; [|done]. apply (IH room s3) in E4.
    pose proof (skip_space_length s2). pose proof (skip_space_length s4). cbv zeta. destruct (skip_space s4) as [|c r]; [done|]. cbn [String.length] in *.
    destruct (c == ","%char); [intros E; apply (IH room r) in E; lia|]. destruct (c == "}"%char); [|done]. intros [= _ <-]. lia.
  - intros l rest. cbn [parse_elements_with]. destruct (parse_value _ _ _) as [[v s4]|] eqn:E4; [|done]. apply (IH room s) in E4.
    pose proof (skip_space_length s4). destruct (skip_space s4) as [|c r]; [done|]. cbn [String.length] in *.
    destruct (c == ","%char); [destruct (parse_elements _ _ _) as [[l' r']|] eqn:E; [|done]; intros [= _ <-]; apply (IH room r) in E; lia|].
    destruct (c == "]"%char); [|done]. intros [= _ <-]. lia.
Qed.
(** More fuel than [json_fuel] changes nothing. *)
Lemma parse_fuel fuel : forall fuel' room s, (fuel <= fuel')%nat ->
  ((2 * String.length s + 1 <= fuel)%nat -> parse_value fuel' room s = parse_value fuel room s) /\
  ((2 * String.length s + 2 <= fuel)%nat -> (forall acc, parse_members fuel' room acc s = parse_members fuel room acc s) /\ parse_elements fuel' room s = parse_elements fuel room s).
Proof.
  induction fuel as [|fuel IH]; intros [|fuel'] room s Hle; [split; lia|split; lia|lia|]. split; [intros Hf|intros Hf; split; [intros acc|]].
  - cbn [parse_value_with]. pose proof (skip_space_length s) as Hs. destruct (skip_space s) as [|c s1]; [done|]. cbn [String.length] in Hs.
    destruct room as [|room]; [done|]. destruct (IH fuel' room s1 ltac:(lia)) as [_ IH2]. destruct IH2 as [IHm IHe]; [lia|]. by rewrite IHm, IHe.
  - cbn [parse_members_with]. pose proof (skip_space_length s) as Hs.
    destruct (expect _ _) as [s1|] eqn:E1; [|done]. destruct (unquote _ _) as [[key s2]|] eqn:E2; [|done].
    destruct (expect ":"%char _) as [s3|] eqn:E3; [|done]. lengths. pose proof (skip_space_length s2).
    rewrite (proj1 (IH fuel' room s3 ltac:(lia))) by lia.
    destruct (parse_value fuel room s3) as [[v s4]|] eqn:E4; [|done]. apply (parse_shrinks fuel room s3) in E4.
    pose proof (skip_space_length s4). cbv zeta. destruct (skip_space s4) as [|c r]; [done|]. cbn [String.length] in *.
    destruct (c == ","%char); [|done]. apply (IH fuel' room r ltac:(lia)). lia.
  - cbn [parse_elements_with]. rewrite (proj1 (IH fuel' room s ltac:(lia))) by lia.
    destruct (parse_value fuel room s) as [[v s4]|] eqn:E4; [|done]. apply (parse_shrinks fuel room s) in E4.
    pose proof (skip_space_length s4). destruct (skip_space s4) as [|c r]; [done|]. cbn [String.length] in *.
    destruct (c == ","%char); [|done]. destruct (IH fuel' room r ltac:(lia)) as [_ IH2]. destruct IH2 as [_ ->]; [lia|done].
Qed.
End Fuel.
(** Enough fuel: the parser stops for want of input, never of fuel. *)
Lemma decode_next_fuel fuel s : (json_fuel s <= fuel)%nat -> parse_value fuel maxNestingDepth s = decode_next s.
Proof. intros Hf. unfold decode_next. apply (parse_fuel obj_set (json_fuel s)); [done|]. unfold json_fuel. lia. Qed.

(** ** What a successful parse returns *)
Lemma encoded_app l1 l2 : encoded (l1 ++ l2) = encoded l1 +:+ encoded l2.
Proof. induction l1 as [|r l1 IH]; [done|]. cbn [app]. by rewrite !encoded_cons, IH, str_app_assoc. Qed.
Lemma utf8_valid_app s t : utf8_valid s = true -> utf8_valid t = true -> utf8_valid (s +:+ t) = true.
Proof.
  rewrite !utf8_valid_encoded. intros (l1 & H1 & ->) (l2 & H2 & ->). exists (l1 ++ l2). rewrite encoded_app. split; [by apply Forall_app|done].
Qed.
Lemma utf8_valid_rune r : scalar r -> utf8_valid (rune_string r) = true.
Proof. intros Hr. apply utf8_valid_encoded. exists [r]. split; [by constructor|]. by rewrite encoded_cons, str_app_nil_r. Qed.
Lemma hex_value_range c z : hex_value c = Some z -> 0 <= z < 16.
Proof. unfold hex_value, in_range. intros E. repeat match type of E with (if ?b then _ else _) = _ => destruct b eqn:? end; simplify_eq; lia. Qed.
Lemma get_u4_range s r rest : get_u4 s = Some (r, rest) -> 0 <= r < 65536.
Proof.
  unfold get_u4. destruct s as [|a [|b [|c [|d s]]]]; try done.
  destruct (hex_value a) eqn:E1; [|done]. destruct (hex_value b) eqn:E2; [|done]. destruct (hex_value c) eqn:E3; [|done]. destruct (hex_value d) eqn:E4; [|done].
  intros [= <- _]. apply hex_value_range in E1, E2, E3, E4. lia.
Qed.
Lemma scalar_error : scalar RuneError.
Proof. split; [unfold RuneError; lia|done]. Qed.
Lemma unescape_valid c s text rest : unescape c s = Some (text, rest) -> utf8_valid text = true.
Proof.
  unfold unescape. destruct (_ || _) eqn:E0.
  { intros [= <- _]. assert (byte_val c = 34 \/ byte_val c = 92 \/ byte_val c = 47) as H by lia. rewrite <-(chr_byte_val c). by destruct H as [-> |[-> | ->]]. }
  clear E0. do 5 (destruct (_ =? _); [intros [= <- _]; done|]). destruct (_ =? _); [|done].
  unfold unescape_u. destruct (get_u4 s) as [[r s1]|] eqn:E; [|done]. apply get_u4_range in E.
  pose proof (utf8_valid_rune _ scalar_error) as Hbad. destruct (is_surrogate r) eqn:Es; [|intros [= <- _]; apply utf8_valid_rune; split; [lia|done]].
  destruct s1 as [|b [|u s2]]; [intros [= <- _]; done..|]. destruct (_ && _); [|intros [= <- _]; done].
  destruct (get_u4 s2) as [[r2 s3]|]; [|intros [= <- _]; done]. destruct (decode_surrogates r r2) as [dec|] eqn:Ed; intros [= <- _]; [|done].
  unfold decode_surrogates, in_range in Ed. destruct (_ && _) eqn:Eb; [|done]. injection Ed as <-. apply utf8_valid_rune. split; [lia|unfold is_surrogate, in_range; lia].
Qed.
Lemma unquote_valid fuel : forall s text rest, unquote fuel s = Some (text, rest) -> utf8_valid text = true.
Proof.
  induction fuel as [|fuel IH]; intros [|c s] text rest; try done. cbn [unquote]. destruct (_ =? 34); [by intros [= <- _]|].
  destruct (_ =? 92).
  { destruct s as [|e s]; [done|]. destruct (unescape e s) as [[t1 r1]|] eqn:E; [|done]. apply unescape_valid in E.
    destruct (unquote fuel r1) as [[t2 r2]|] eqn:E2; [|done]. apply IH in E2. intros [= <- _]. by apply utf8_valid_app. }
  destruct (_ <? 32); [done|]. pose proof (DecodeRune_inv (String c s) ltac:(done)) as Hd. destruct (DecodeRune (String c s)) as [r n].
  destruct (unquote fuel _) as [[t2 r2]|] eqn:E2; [|done]. apply IH in E2. intros [= <- _]. destruct Hd as [Hs _]. apply utf8_valid_app; [|done]. by apply utf8_valid_rune.
Qed.
Lemma HasPrefix_char c d s : HasPrefix (String d s) (String c "") = (d == c).
Proof. unfold HasPrefix. cbn [String.prefix]. destruct (ascii_dec c d) as [->|H]; [rewrite bool_decide_eq_true_2 by done; by destruct s|by rewrite bool_decide_eq_false_2]. Qed.
(** The pieces of a number, scanned again. *)
Definition no_digit (t : string) : Prop := match t with String c _ => is_digit c = false | EmptyString => True end.
Lemma span_digits_again s : forall ds r, span_digits s = (ds, r) -> s = ds +:+ r /\ forall t, no_digit t -> span_digits (ds +:+ t) = (ds, t).
Proof.
  induction s as [|c s IH]; intros ds r; cbn [span_digits].
  - intros [= <- <-]. split; [done|]. intros [|c t]; [done|]. rewrite str_app_nil_l. cbn. by intros ->.
  - destruct (is_digit c) eqn:Ec.
    + destruct (span_digits s) as [ds' r'] eqn:E. intros [= <- <-]. destruct (IH _ _ eq_refl) as [-> H]. split; [done|].
      intros t Ht. rewrite str_app_cons. cbn [span_digits]. by rewrite Ec, H.
    + intros [= <- <-]. split; [done|]. intros [|d t]; [done|]. rewrite str_app_nil_l. cbn. by intros ->.
Qed.
Lemma scan_integer_again s i r : scan_integer s = Some (i, r) ->
  s = i +:+ r /\ HasPrefix i "-" = false /\ i <> "" /\ forall t, no_digit t -> scan_integer (i +:+ t) = Some (i, t).
Proof.
  destruct s as [|c s]; [done|]. unfold scan_integer at 1. case_bool_decide as H0; [subst; intros [= <- <-]; done|].
  destruct (is_digit c) eqn:Ec; [|done]. intros E%(inj Some). pose proof (span_digits_again _ _ _ E) as [Hs Ht]. revert E. cbn [span_digits]. rewrite Ec.
  destruct (span_digits s) as [ds r']. intros [= <- <-]. split; [done|]. split; [|split; [done|]].
  - rewrite HasPrefix_char. apply bool_decide_eq_false. by intros ->.
  - intros t Hn. rewrite str_app_cons. unfold scan_integer. rewrite bool_decide_eq_false_2, Ec by done. f_equal. by apply Ht.
Qed.
Lemma scan_fraction_again s f r : scan_fraction s = Some (f, r) ->
  s = f +:+ r /\ no_digit f /\ forall t, no_digit t -> HasPrefix t "." = false -> scan_fraction (f +:+ t) = Some (f, t).
Proof.
  destruct s as [|c s]; unfold scan_fraction at 1.
  { intros [= <- <-]. split_and!; [done..|]. intros [|c t]; [done|]. rewrite str_app_nil_l, HasPrefix_char. intros _ Hc. cbn [scan_fraction]. by rewrite Hc. }
  case_bool_decide as Hc.
  - destruct (span_digits s) as [[|d ds] r'] eqn:E; [done|]. intros [= <- <-]. apply span_digits_again in E as [-> Ht]. subst c. split_and!; [done..|].
    intros t Hn _. rewrite str_app_cons. unfold scan_fraction. rewrite bool_decide_eq_true_2 by done. by rewrite Ht.
  - intros [= <- <-]. split_and!; [done..|]. intros [|d t]; [done|]. rewrite str_app_nil_l, HasPrefix_char. intros _ Hd. cbn [scan_fraction]. by rewrite Hd.
Qed.
Lemma scan_exponent_again s e r : scan_exponent s = Some (e, r) ->
  s = e +:+ r /\ no_digit e /\ HasPrefix e "." = false /\ scan_exponent e = Some (e, "").
Proof.
  destruct s as [|c s]; unfold scan_exponent at 1; [by intros [= <- <-]|].
  destruct (_ || _) eqn:Hc; [|by intros [= <- <-]]. destruct (scan_sign s) as [sg s'] eqn:Es. destruct (span_digits s') as [[|d ds] r'] eqn:E; [done|].
  intros [= <- <-].
  assert (is_digit d = true) as Hd.
  { revert E. destruct s' as [|c' s'']; [done|]. cbn [span_digits]. destruct (is_digit c') eqn:Ec'; [|done]. destruct (span_digits s''). by intros [= <- <- <-]. }
  pose proof (span_digits_again _ _ _ E) as [-> Ht].
  assert (s = sg +:+ String d ds +:+ r' /\ scan_sign (sg +:+ String d ds) = (sg, String d ds)) as [-> Hsg].
  { destruct s as [|a s]; [by injection Es as <- Es|]. unfold scan_sign in Es. destruct ((a == "+"%char) || (a == "-"%char)) eqn:Ea;
      pose proof (f_equal fst Es) as E1; pose proof (f_equal snd Es) as E2; cbn [fst snd] in E1, E2; subst sg.
    - subst s. split; [done|]. rewrite str_app_cons, str_app_nil_l. unfold scan_sign. by rewrite Ea.
    - rewrite E2. split; [done|]. rewrite str_app_nil_l. unfold scan_sign. rewrite str_app_cons in E2. injection E2 as -> _. by rewrite Ea. }
  split; [exact (f_equal (String c) (str_app_assoc sg (String d ds) r'))|]. cbn [no_digit HasPrefix].
  assert (c = "e"%char \/ c = "E"%char) as Hce by (apply orb_true_iff in Hc as [Hc|Hc]; apply bool_decide_eq_true in Hc; auto).
  split; [by destruct Hce as [-> | ->]|]. split; [by destruct Hce as [-> | ->]|]. unfold scan_exponent. rewrite Hc, Hsg.
  rewrite <-(str_app_nil_r (String d ds)) at 1. by rewrite Ht.
Qed.
Lemma scan_number_literal s l r : scan_number s = Some (l, r) -> scan_number l = Some (l, "") /\ s = l +:+ r.
Proof.
  unfold scan_number at 1. destruct (match s with EmptyString => _ | _ => _ end) as [m s1] eqn:E0.
  destruct (scan_integer s1) as [[i s2]|] eqn:E1; [|done]. destruct (scan_fraction s2) as [[f s3]|] eqn:E2; [|done].
  destruct (scan_exponent s3) as [[e s4]|] eqn:E3; [|done]. intros [= <- <-].
  apply scan_integer_again in E1 as (-> & Hm & Hne & H1). apply scan_fraction_again in E2 as (-> & Hf & H2). apply scan_exponent_again in E3 as (-> & He & Hd & H3).
  assert (no_digit (f +:+ e)) as Hfe by (destruct f; [done|]; exact Hf).
  assert (s = m +:+ i +:+ f +:+ e +:+ s4 /\ (m = "-" \/ m = "")) as [-> Hms].
  { assert (forall m1 s1, (m1, s1) = (m, i +:+ f +:+ e +:+ s4) -> m = m1 /\ s1 = i +:+ f +:+ e +:+ s4) as Hp.
    { intros m1 s1 Hp. exact (conj (eq_sym (f_equal fst Hp)) (f_equal snd Hp)). }
    destruct s as [|c s]; [|revert E0; case_bool_decide; intros E0]; apply Hp in E0 as [-> E0]; [auto|subst; auto|auto]. }
  split; [|by rewrite !str_app_assoc]. unfold scan_number.
  assert (match m +:+ i +:+ f +:+ e with String c s' => if c == "-"%char then ("-", s') else ("", m +:+ i +:+ f +:+ e) | EmptyString => ("", m +:+ i +:+ f +:+ e) end = (m, i +:+ f +:+ e)) as ->.
  { destruct Hms as [-> | ->]; [done|]. rewrite str_app_nil_l. destruct i as [|c i]; [done|]. rewrite str_app_cons. rewrite HasPrefix_char in Hm. by rewrite Hm. }
  by rewrite H1, H2, H3.
Qed.

Lemma ascending_set key v fields : ascending (map fst fields) = true -> ascending (map fst (obj_set key v fields)) = true /\
  forall a, forallb (str_lt a) (map fst fields) = true -> str_lt a key = true -> forallb (str_lt a) (map fst (obj_set key v fields)) = true.
Proof.
  induction fields as [|[k w] fields IH]; cbn [map fst ascending forallb obj_set]; [intros _; split; [done|]; intros a _ ->; done|].
  intros [Hk Ha]%andb_true_iff. specialize (IH Ha) as [IH1 IH2].
  destruct (str_lt key k) eqn:E1; [|destruct (str_lt k key) eqn:E2].
  - cbn [map fst ascending forallb]. rewrite E1, Hk, Ha. split; [|intros a [-> ->]%andb_true_iff ->; done].
    cbn. rewrite andb_true_r. apply forallb_forall. intros x Hx. rewrite forallb_forall in Hk. specialize (Hk x Hx).
    destruct (str_lt key x) eqn:E; [done|]. pose proof (less_asym (less := str_lt) _ _ Hk) as Hk'. pose proof (less_ntrans (less := str_lt) k x key Hk' E) as Hn. congruence.
  - cbn [map fst ascending forallb]. rewrite IH1, IH2 by done. split; [done|]. intros a [-> Hr]%andb_true_iff Hak. by rewrite IH2.
  - pose proof (str_lt_total _ _ E1 E2) as ->. cbn [map fst ascending forallb]. by rewrite Hk, Ha.
Qed.
Lemma canonical_set key v fields : canonical (JObject fields) = true -> utf8_valid key = true -> canonical v = true -> canonical (JObject (obj_set key v fields)) = true.
Proof.
  cbn [canonical]. intros [Ha Hf]%andb_true_iff Hk Hv. rewrite (proj1 (ascending_set key v fields Ha)). cbn [andb]. clear Ha.
  induction fields as [|[k w] fields IH]; cbn [obj_set forallb fst snd] in *; [by rewrite Hk, Hv|]. apply andb_true_iff in Hf as [Hkw Hf].
  destruct (str_lt key k); cbn [forallb fst snd]; [by rewrite Hk, Hv, Hkw, Hf|]. destruct (str_lt k key); cbn [forallb fst snd]; [by rewrite Hkw, IH|by rewrite Hk, Hv, Hf].
Qed.
Lemma list_max_le l n : (list_max l <= n)%nat <-> Forall (fun k => (k <= n)%nat) l.
Proof. induction l as [|k l IH]; cbn; [split; [constructor|lia]|]. rewrite Forall_cons, <-IH. unfold list_max. lia. Qed.
Lemma depth_set key v fields room : (list_max (map (fun f => depth f.2) fields) <= room)%nat -> (depth v <= room)%nat ->
  (list_max (map (fun f => depth f.2) (obj_set key v fields)) <= room)%nat.
Proof.
  rewrite !list_max_le. intros Hf Hv. induction fields as [|[k w] fields IH]; cbn [obj_set map snd] in *; [by constructor|]. apply Forall_cons in Hf as [Hw Hf].
  destruct (str_lt key k); [by repeat constructor|]. destruct (str_lt k key); cbn [map snd]; constructor; auto.
Qed.
(** A parsed value is canonical and no deeper than allowed. *)
Lemma parse_canonical fuel : forall room s,
  (forall v rest, parse_value fuel room s = Some (v, rest) -> canonical v = true /\ (depth v <= room)%nat) /\
  (forall acc fields rest, canonical (JObject acc) = true -> (list_max (map (fun f => depth f.2) acc) <= room)%nat ->
    parse_members fuel room acc s = Some (fields, rest) -> canonical (JObject fields) = true /\ (list_max (map (fun f => depth f.2) fields) <= room)%nat) /\
  (forall l rest, parse_elements fuel room s = Some (l, rest) -> forallb canonical l = true /\ (list_max (map depth l) <= room)%nat).
Proof.
  induction fuel as [|fuel IH]; intros room s; [done|]. split; [|split].
  - intros v rest. cbn [parse_value_with]. destruct (skip_space s) as [|c s1]; [done|].
    destruct (c == "{"%char); [destruct room as [|room]; [done|]|destruct (c == "["%char); [destruct room as [|room]; [done|]|]].
    + destruct (expect _ _) as [r|]; [intros [= <- _]; split; [done|cbn; lia]|].
      destruct (parse_members _ _ _ _) as [[l r]|] eqn:Em; [|done]. intros [= <- _]. apply (IH room s1) in Em as [H1 H2]; [|done|cbn; lia]. split; [done|cbn [depth]; lia].
    + destruct (expect _ _) as [r|]; [intros [= <- _]; split; [done|cbn; lia]|].
      destruct (parse_elements _ _ _) as [[l r]|] eqn:Em; [|done]. intros [= <- _]. apply (IH room s1) in Em as [H1 H2]. split; [done|cbn [depth]; lia].
    + destruct (_ =? 34).
      { destruct (unquote _ _) as [[t r]|] eqn:E; [|done]. intros [= <- _]. apply unquote_valid in E. split; [done|cbn; lia]. }
      unfold cut_literal. repeat (destruct (_ == _); [destruct (HasPrefix _ _); [intros [= <- _]; split; [done|cbn; lia]|done]|]).
      destruct (scan_number _) as [[l r]|] eqn:E; [|done]. intros [= <- _]. apply scan_number_literal in E as [E _]. split; [cbn; by apply bool_decide_eq_true|cbn; lia].
  - intros acc fields rest Hacc Hd. cbn [parse_members_with]. destruct (expect _ _) as [s1|]; [|done].
    destruct (unquote _ _) as [[key s2]|] eqn:E2; [|done]. apply unquote_valid in E2. destruct (expect ":"%char _) as [s3|]; [|done].
    destruct (parse_value _ _ _) as [[v s4]|] eqn:E4; [|done]. apply (IH room s3) in E4 as [Hv Hdv]. cbv zeta. destruct (skip_space s4) as [|c r]; [done|].
    pose proof (canonical_set key v acc Hacc E2 Hv) as Hs. pose proof (depth_set key v acc room Hd Hdv) as Hsd.
    destruct (c == ","%char); [intros E; by apply (IH room r) in E|]. destruct (c == "}"%char); [|done]. intros [= <- _]. done.
  - intros l rest. cbn [parse_elements_with]. destruct (parse_value _ _ _) as [[v s4]|] eqn:E4; [|done]. apply (IH room s) in E4 as [Hv Hdv].
    destruct (skip_space s4) as [|c r]; [done|]. destruct (c == ","%char).
    + destruct (parse_elements _ _ _) as [[l' r']|] eqn:E; [|done]. intros [= <- _]. apply (IH room r) in E as [Hl Hdl].
      cbn [forallb map list_max foldr]. rewrite Hv, Hl. split; [done|]. unfold list_max in Hdl. lia.
    + destruct (c == "]"%char); [|done]. intros [= <- _]. cbn [forallb map list_max foldr]. rewrite Hv. split; [done|lia].
Qed.
Lemma Decode_canonical s v : Decode s = Some v -> canonical v = true /\ (depth v <= maxNestingDepth)%nat.
Proof.
  unfold Decode, decode_next. destruct (parse_value _ _ _) as [[w rest]|] eqn:E; [|done]. destruct (_ == _); [|done]. intros [= <-]. by apply parse_canonical in E.
Qed.
(** Printing a decoded value and decoding it again gives the same value. *)
Lemma Decode_again s v : Decode s = Some v -> Decode (Marshal v) = Some v.
Proof. intros [Hc Hd]%Decode_canonical. by apply Decode_Marshal. Qed.

Lemma Decode_examples :
  Decode (" {" +:+ quoted "b" +:+ ": [1.5e3, true,null] , " +:+ quoted "a" +:+ ":" +:+ quoted "x<😀\n" +:+ "," +:+ quoted "b" +:+ ":-0}") =
    Some (JObject [("a", JString ("x<" +:+ bytes_to_string [240; 159; 152; 128; 10])); ("b", JNumber "-0")]) /\
  Valid "[01]" = false /\ Valid "[1,]" = false /\ Valid "" = false /\ Valid "12 x" = false /\ Valid " 12 " = true /\ Valid (quoted "\x") = false.
Proof. vm_compute. split_and!; reflexivity. Qed.
