(* ===== verification/Crypto.v ===== *)
(** * Hashes and encodings of the Go standard library ([crypto/sha256],
      [crypto/hmac], [encoding/hex], [encoding/base64])

    Byte slices are strings.  [Sum256] is SHA-256 of FIPS 180-4 and [HMAC] is
    HMAC-SHA-256 of RFC 2104, both executable; [RawURL_DecodeString] skips
    carriage returns and newlines and ignores the unused low bits of the last
    character, as Go's non-strict decoder does. *)
From S2P Require Import Prelude GoStd.
Open Scope Z_scope.

(** ** SHA-256 *)
Definition rotr (n x : Z) : Z := wrap32 (Z.lor (Z.shiftr x n) (Z.shiftl x (32 - n))).
Definition Ch (x y z : Z) : Z := Z.lxor (Z.land x y) (Z.land (u32_max - x) z).
Definition Maj (x y z : Z) : Z := Z.lxor (Z.lxor (Z.land x y) (Z.land x z)) (Z.land y z).
Definition Sigma0 (x : Z) : Z := Z.lxor (Z.lxor (rotr 2 x) (rotr 13 x)) (rotr 22 x).
Definition Sigma1 (x : Z) : Z := Z.lxor (Z.lxor (rotr 6 x) (rotr 11 x)) (rotr 25 x).
Definition sigma0 (x : Z) : Z := Z.lxor (Z.lxor (rotr 7 x) (rotr 18 x)) (Z.shiftr x 3).
Definition sigma1 (x : Z) : Z := Z.lxor (Z.lxor (rotr 17 x) (rotr 19 x)) (Z.shiftr x 10).

(** The constants are the first 32 fractional bits of the cube roots and of
    the square roots of the first primes. *)
Definition prime (n : Z) : bool := forallb (fun d => negb (n mod d =? 0)) (map Z.of_nat (seq 2 (Z.to_nat n - 2))).
Definition primes : list Z := List.filter prime (map Z.of_nat (seq 2 310)).
Definition cube_root (n : Z) : Z :=
  fold_left (fun root bit => let next := root + 2 ^ bit in if next * next * next <=? n then next else root)
    (rev (map Z.of_nat (seq 0 36))) 0.
Definition round_constants : list Z :=
  Eval vm_compute in map (fun p => wrap32 (cube_root (p * 2 ^ 96))) primes.
Definition initial_hash : list Z :=
  Eval vm_compute in map (fun p => wrap32 (Z.sqrt (p * 2 ^ 64))) (take 8 primes).

(** [n] bytes of [z], most significant first. *)
Fixpoint big_endian (n : nat) (z : Z) : list Z :=
  match n with O => [] | S n' => big_endian n' (z / 256) ++ [z mod 256] end.
Definition from_big_endian (l : list Z) : Z := fold_left (fun acc b => acc * 256 + b) l 0.

Definition pad (message : list Z) : list Z :=
  let zeros := Z.to_nat ((55 - len message) mod 64) in
  message ++ [0x80] ++ replicate zeros 0 ++ big_endian 8 (8 * len message).

(** Groups of [n]; the padded message is a whole number of blocks. *)
Fixpoint chunks (fuel : nat) (n : nat) (l : list Z) : list (list Z) :=
  match fuel, l with
  | S f, _ :: _ => take n l :: chunks f n (drop n l)
  | _, _ => []
  end.

(** The message schedule, kept as the sixteen last words, newest last. *)
Definition next_word (w : list Z) : Z :=
  wrap32 (sigma1 (nth 14 w 0) + nth 9 w 0 + sigma0 (nth 1 w 0) + nth 0 w 0).
Definition round (h : list Z) (k w : Z) : list Z :=
  match h with
  | [a; b; c; d; e; f; g; hh] =>
      let t1 := wrap32 (hh + Sigma1 e + Ch e f g + k + w) in
      let t2 := wrap32 (Sigma0 a + Maj a b c) in
      [wrap32 (t1 + t2); a; b; c; wrap32 (d + t1); e; f; g]
  | _ => h
  end.
Fixpoint rounds (ks : list Z) (w h : list Z) : list Z :=
  match ks with
  | [] => h
  | k :: ks' => rounds ks' (drop 1 w ++ [next_word w]) (round h k (nth 0 w 0))
  end.
Definition block (h : list Z) (b : list Z) : list Z :=
  let w := map from_big_endian (chunks 16 4 b) in
  zip_with (fun x y => wrap32 (x + y)) h (rounds round_constants w h).
Definition sha256_bytes (message : list Z) : list Z :=
  let padded := pad message in
  concat (map (big_endian 4) (fold_left block (chunks (length padded) 64 padded) initial_hash)).
Definition Sum256 (data : string) : string := bytes_to_string (sha256_bytes (string_bytes data)).

(** ** HMAC *)
Definition HMAC (key message : string) : string :=
  let k := string_bytes key in
  let k := if 64 <? len k then sha256_bytes k else k in
  let k := k ++ replicate (64 - length k) 0 in
  bytes_to_string (sha256_bytes (map (Z.lxor 0x5c) k ++ sha256_bytes (map (Z.lxor 0x36) k ++ string_bytes message))).

(** ** Hexadecimal *)
Definition hex_digit (z : Z) : ascii := chr (if z <? 10 then 48 + z else 87 + z).
Fixpoint hex_EncodeToString (s : string) : string :=
  match s with
  | EmptyString => EmptyString
  | String c s' => String (hex_digit (byte_val c / 16)) (String (hex_digit (byte_val c mod 16)) (hex_EncodeToString s'))
  end.

(** ** Base64, URL alphabet, no padding *)
Definition url_char (z : Z) : ascii :=
  chr (if z <? 26 then 65 + z else if z <? 52 then 71 + z else if z <? 62 then z - 4 else if z =? 62 then 45 else 95).
Definition url_value (c : ascii) : option Z :=
  let b := byte_val c in
  if in_range 65 90 b then Some (b - 65) else if in_range 97 122 b then Some (b - 71)
  else if in_range 48 57 b then Some (b + 4) else if b =? 45 then Some 62 else if b =? 95 then Some 63 else None.
Fixpoint url_encode (l : list Z) : list Z :=
  match l with
  | a :: b :: c :: l' => a / 4 :: a mod 4 * 16 + b / 16 :: b mod 16 * 4 + c / 64 :: c mod 64 :: url_encode l'
  | [a; b] => [a / 4; a mod 4 * 16 + b / 16; b mod 16 * 4]
  | [a] => [a / 4; a mod 4 * 16]
  | [] => []
  end.
(** One character left over is an error. *)
Fixpoint url_decode (l : list Z) : option (list Z) :=
  match l with
  | a :: b :: c :: d :: l' =>
      (fun rest => a * 4 + b / 16 :: b mod 16 * 16 + c / 4 :: c mod 4 * 64 + d :: rest) <$> url_decode l'
  | [a; b; c] => Some [a * 4 + b / 16; b mod 16 * 16 + c / 4]
  | [a; b] => Some [a * 4 + b / 16]
  | [_] => None
  | [] => Some []
  end.
Definition is_line_break (c : ascii) : bool := (byte_val c =? 10) || (byte_val c =? 13).
Definition RawURL_EncodeToString (s : string) : string :=
  String.string_of_list_ascii (map url_char (url_encode (string_bytes s))).
Definition RawURL_DecodeString (s : string) : option string :=
  values ← mapM url_value (List.filter (fun c => negb (is_line_break c)) (String.list_ascii_of_string s));
  bytes_to_string <$> url_decode values.

(** ** Lemmas *)
Lemma big_endian_length n z : length (big_endian n z) = n.
Proof. revert z. induction n as [|n IH]; intros z; [done|]. cbn. rewrite length_app, IH. cbn. lia. Qed.
Lemma big_endian_bytes n z : Forall is_byte (big_endian n z).
Proof.
  revert z. induction n as [|n IH]; intros z; cbn; [constructor|]. apply Forall_app. split; [done|].
  constructor; [|constructor]. unfold is_byte. pose proof (Z.mod_pos_bound z 256). lia.
Qed.
Lemma round_length h k w : length (round h k w) = length h.
Proof. by destruct h as [|? [|? [|? [|? [|? [|? [|? [|? [|? ?]]]]]]]]]. Qed.
Lemma rounds_length ks : forall w h, length (rounds ks w h) = length h.
Proof. induction ks as [|k ks IH]; intros w h; [done|]. cbn. by rewrite IH, round_length. Qed.
Lemma blocks_length bs : forall h, length (fold_left block bs h) = length h.
Proof.
  induction bs as [|b bs IH]; intros h; [done|]. cbn. rewrite IH. unfold block. rewrite length_zip_with, rounds_length. lia.
Qed.
Lemma sha256_length message : length (sha256_bytes message) = 32%nat.
Proof.
  unfold sha256_bytes. pose proof (blocks_length (chunks (length (pad message)) 64 (pad message)) initial_hash) as H.
  change (length initial_hash) with 8%nat in H. revert H. generalize (fold_left block (chunks (length (pad message)) 64 (pad message)) initial_hash).
  intros l Hl. do 8 (destruct l as [|? l]; [done|]). destruct l; [|done]. cbn [map concat]. rewrite !length_app, !big_endian_length. done.
Qed.
Lemma Sum256_length data : String.length (Sum256 data) = 32%nat.
Proof. unfold Sum256. by rewrite bytes_to_string_length, sha256_length. Qed.
Lemma HMAC_length key message : String.length (HMAC key message) = 32%nat.
Proof. unfold HMAC. by rewrite bytes_to_string_length, sha256_length. Qed.

(** Known answers of FIPS 180-4 and of RFC 4231. *)
Lemma Sum256_abc : hex_EncodeToString (Sum256 "abc") = "ba7816bf8f01cfea414140de5dae2223b00361a396177a9cb410ff61f20015ad".
Proof. vm_compute. reflexivity. Qed.
Lemma Sum256_two_blocks : hex_EncodeToString (Sum256 "abcdbcdecdefdefgefghfghighijhijkijkljklmklmnlmnomnopnopq") =
  "248d6a61d20638b8e5c026930c3e6039a33ce45964ff2167f6ecedd419db06c1".
Proof. vm_compute. reflexivity. Qed.
Lemma HMAC_jefe : hex_EncodeToString (HMAC "Jefe" "what do ya want for nothing?") =
  "5bdcc146bf60754e6a042426089575c75a003f089d2739839dec58b964ec3843".
Proof. vm_compute. reflexivity. Qed.

(** *** Hexadecimal *)
Definition is_hex_digit (c : ascii) : bool := in_range 48 57 (byte_val c) || in_range 97 102 (byte_val c).
Lemma hex_digit_ok z : 0 <= z < 16 -> is_hex_digit (hex_digit z) = true.
Proof.
  intros Hz. unfold is_hex_digit, hex_digit. destruct (Z.ltb_spec z 10);
    rewrite byte_val_chr by (unfold is_byte; lia); unfold in_range; apply orb_true_iff; [left|right]; apply andb_true_iff; lia.
Qed.
Lemma hex_digits s : str_forall is_hex_digit (hex_EncodeToString s) = true.
Proof.
  induction s as [|c s IH]; [done|]. cbn. pose proof (byte_val_range c) as Hc. unfold is_byte in Hc.
  rewrite IH, !hex_digit_ok; [done| |]; pose proof (Z.mod_pos_bound (byte_val c) 16); pose proof (Z.div_lt_upper_bound (byte_val c) 16 16); pose proof (Z.div_pos (byte_val c) 16); lia.
Qed.
Lemma hex_length s : String.length (hex_EncodeToString s) = (2 * String.length s)%nat.
Proof. induction s as [|c s IH]; [done|]. cbn in *. lia. Qed.

(** *** Base64 *)
Definition sextet (z : Z) : Prop := 0 <= z < 64.
Lemma url_value_char z : sextet z -> url_value (url_char z) = Some z /\ is_line_break (url_char z) = false /\ byte_val (url_char z) <> 46.
Proof.
  unfold sextet. intros Hz. assert (exists n, (n < 64)%nat /\ z = Z.of_nat n) as (n & Hn & ->) by (exists (Z.to_nat z); lia).
  clear Hz. do 64 (destruct n as [|n]; [by vm_compute|]). lia.
Qed.
(** Induction over groups of three bytes. *)
Lemma groups_of_three (P : list Z -> Prop) : P [] -> (forall a, P [a]) -> (forall a b, P [a; b]) ->
  (forall a b c l, P l -> P (a :: b :: c :: l)) -> forall l, P l.
Proof.
  intros H0 H1 H2 H3 l. assert (P l /\ (forall a, P (a :: l)) /\ forall a b, P (a :: b :: l)) as [H _]; [|done].
  induction l as [|x l (IH1 & IH2 & IH3)]; auto.
Qed.
Lemma url_sextets l : Forall is_byte l -> Forall sextet (url_encode l).
Proof.
  unfold is_byte, sextet. induction l as [|a|a b|a b c l IH] using groups_of_three; cbn [url_encode].
  1: done. all: intros H; repeat (apply Forall_cons in H as [? H]);
    repeat (apply Forall_cons; split; [Z.to_euclidean_division_equations; lia|]); auto.
Qed.
Lemma url_roundtrip l : Forall is_byte l -> url_decode (url_encode l) = Some l.
Proof.
  unfold is_byte. induction l as [|a|a b|a b c l IH] using groups_of_three; cbn [url_encode url_decode].
  1: done. all: intros H; repeat (apply Forall_cons in H as [? H]); rewrite ?IH by done; cbn [fmap option_fmap option_map]; repeat f_equal;
    Z.to_euclidean_division_equations; lia.
Qed.
Lemma mapM_url_value l : Forall sextet l ->
  mapM url_value (List.filter (fun c => negb (is_line_break c)) (map url_char l)) = Some l.
Proof.
  induction 1 as [|z l Hz _ IH]; [done|]. destruct (url_value_char z Hz) as (Hv & Hb & _). cbn [map List.filter]. rewrite Hb.
  cbn [negb]. cbn. rewrite Hv. cbn. by rewrite IH.
Qed.
(** Decoding inverts encoding. *)
Lemma RawURL_roundtrip s : RawURL_DecodeString (RawURL_EncodeToString s) = Some s.
Proof.
  unfold RawURL_DecodeString, RawURL_EncodeToString. rewrite String.list_ascii_of_string_of_list_ascii.
  pose proof (string_bytes_range s) as Hs. rewrite mapM_url_value by (by apply url_sextets). cbn.
  rewrite url_roundtrip by done. cbn. by rewrite bytes_to_string_bytes.
Qed.
Lemma RawURL_no_dot s : str_exists (fun d => d == "."%char) (RawURL_EncodeToString s) = false.
Proof.
  unfold RawURL_EncodeToString. pose proof (url_sextets _ (string_bytes_range s)) as H.
  induction H as [|z l Hz _ IH]; [done|]. cbn. rewrite IH, orb_false_r. apply bool_decide_eq_false. intros E.
  apply (url_value_char z Hz). by rewrite E.
Qed.
Lemma url_encode_length l : Z.of_nat (length (url_encode l)) = (4 * len l + 2) / 3.
Proof.
  unfold len. induction l as [|a|a b|a b c l IH] using groups_of_three; cbn [url_encode length]; [done..|].
  Z.to_euclidean_division_equations. lia.
Qed.
Lemma RawURL_length s : slen (RawURL_EncodeToString s) = (4 * slen s + 2) / 3.
Proof.
  unfold slen, RawURL_EncodeToString. pose proof (url_encode_length (string_bytes s)) as H. unfold len in H.
  rewrite string_bytes_length in H. rewrite <-H. clear H. induction (url_encode (string_bytes s)); [done|]. cbn. lia.
Qed.
