(* ===== verification/Glob.v ===== *)
(** * [path.Match], the glob matcher of the Go standard library

    The chunk-by-chunk matcher of package [path]: [scanChunk] cuts the pattern
    at the next unbracketed star, [matchChunk] matches one chunk and keeps
    checking the syntax of the rest after a mismatch, [getEsc] reads one
    possibly escaped character of a class, and [Match] drives them with the
    star search.  [None] is [path.ErrBadPattern]. *)
From S2P Require Import Prelude GoStd.
Open Scope Z_scope.

Definition ch_star : ascii := "*"%char.
Definition ch_quest : ascii := "?"%char.
Definition ch_lbrack : ascii := "["%char.
Definition ch_rbrack : ascii := "]"%char.
Definition ch_backslash : ascii := "\"%char.
Definition ch_dash : ascii := "-"%char.
Definition ch_caret : ascii := "^"%char.

Fixpoint strip_stars (p : string) : bool * string :=
  match p with
  | String c p' => if c == ch_star then (true, (strip_stars p').2) else (false, p)
  | EmptyString => (false, p)
  end.

(** The [Scan] loop: the chunk up to the next star outside brackets. *)
Fixpoint scan (inrange escaped : bool) (p : string) : string * string :=
  match p with
  | EmptyString => (EmptyString, EmptyString)
  | String c p' =>
      if escaped then let '(a, b) := scan inrange false p' in (String c a, b)
      else if (c == ch_star) && negb inrange then (EmptyString, p)
      else let inrange' := if c == ch_lbrack then true
                           else if c == ch_rbrack then false else inrange in
           let '(a, b) := scan inrange' (c == ch_backslash) p' in (String c a, b)
  end.
Definition scanChunk (p : string) : bool * string * string :=
  let '(star, p') := strip_stars p in
  let '(chunk, rest) := scan false false p' in
  (star, chunk, rest).

Definition getEsc (chunk : string) : option (Z * string) :=
  match chunk with
  | EmptyString => None
  | String c rest =>
      if (c == ch_dash) || (c == ch_rbrack) then None
      else let chunk' := if c == ch_backslash then rest else chunk in
           if chunk' == "" then None
           else let '(r, n) := DecodeRune chunk' in
                if (r =? RuneError) && bool_decide (n = 1%nat) then None
                else let nchunk := str_drop n chunk' in
                     if nchunk == "" then None else Some (r, nchunk)
  end.

(** The ranges of a character class after the optional caret. *)
Fixpoint class_ranges (fuel : nat) (chunk : string) (r : Z) (nonempty matched : bool)
  : option (bool * string) :=
  match fuel with
  | O => None
  | S f =>
      match chunk with
      | String c rest =>
          if (c == ch_rbrack) && nonempty then Some (matched, rest)
          else match getEsc chunk with
               | None => None
               | Some (lo, c1) =>
                   let hi_res := match c1 with
                                 | String d c1' => if d == ch_dash then getEsc c1' else Some (lo, c1)
                                 | EmptyString => Some (lo, c1)
                                 end in
                   match hi_res with
                   | None => None
                   | Some (hi, c2) => class_ranges f c2 r true (matched || in_range lo hi r)
                   end
               end
      | EmptyString => None
      end
  end.

(** [failed] is the [failed] flag of the source: the name is no longer read,
    the rest of the chunk is only checked for syntax. *)
Fixpoint match_chunk (fuel : nat) (chunk s : string) (failed0 : bool) : option (option string) :=
  match fuel with
  | O => None
  | S f =>
      match chunk with
      | EmptyString => Some (if failed0 then None else Some s)
      | String c chunk' =>
          let failed := failed0 || (s == "") in
          if c == ch_lbrack then
            let '(r, s') := if failed then (0, s)
                            else let '(r, n) := DecodeRune s in (r, str_drop n s) in
            let '(negated, body) := match chunk' with
                                    | String d c' => if d == ch_caret then (true, c') else (false, chunk')
                                    | EmptyString => (false, chunk')
                                    end in
            match class_ranges (S (String.length body)) body r false false with
            | None => None
            | Some (m, rest) => match_chunk f rest s' (failed || (m == negated))
            end
          else if c == ch_quest then
            if failed then match_chunk f chunk' s true
            else let at_slash := match s with String d _ => d == slash | EmptyString => false end in
                 match_chunk f chunk' (str_drop (DecodeRune s).2 s) at_slash
          else
            let '(lit_ok, d, rest) :=
              if c == ch_backslash then
                match chunk' with
                | EmptyString => (false, c, chunk')
                | String d c' => (true, d, c')
                end
              else (true, c, chunk') in
            if negb lit_ok then None
            else if failed then match_chunk f rest s true
            else match s with
                 | String e s' => match_chunk f rest s' (d != e)
                 | EmptyString => match_chunk f rest s true
                 end
      end
  end.
Definition matchChunk (chunk s : string) : option (option string) :=
  match_chunk (S (String.length chunk)) chunk s false.

(** The loop that skips [i+1] bytes of the name, none of them a slash. *)
Fixpoint star_search (chunk rest name : string) : option (option string) :=
  match name with
  | EmptyString => Some None
  | String c name' =>
      if c == slash then Some None
      else match matchChunk chunk name' with
           | None => None
           | Some (Some t) =>
               if (rest == "") && (t != "") then star_search chunk rest name' else Some (Some t)
           | Some None => star_search chunk rest name'
           end
  end.

(** Syntax check of the remaining pattern before answering false. *)
Fixpoint rest_valid (fuel : nat) (p : string) : option bool :=
  match fuel with
  | O => None
  | S f =>
      if p == "" then Some false
      else let '(_, chunk, rest) := scanChunk p in
           match matchChunk chunk "" with
           | None => None
           | Some _ => rest_valid f rest
           end
  end.

Fixpoint match_go (fuel : nat) (p name : string) : option bool :=
  match fuel with
  | O => None
  | S f =>
      if p == "" then Some (name == "")
      else
        let '(star, chunk, rest) := scanChunk p in
        if star && (chunk == "") then Some (negb (str_exists (fun c => c == slash) name))
        else
          let retry :=
            if star then
              match star_search chunk rest name with
              | None => None
              | Some (Some t) => match_go f rest t
              | Some None => rest_valid f rest
              end
            else rest_valid f rest in
          match matchChunk chunk name with
          | None => None
          | Some (Some t) => if (t == "") || (rest != "") then match_go f rest t else retry
          | Some None => retry
          end
  end.
Definition Match (pattern name : string) : option bool :=
  match_go (S (String.length pattern)) pattern name.

(** ** The matcher on the patterns the policy loader accepts *)
Definition literal_char (c : ascii) : bool :=
  negb (bool_decide (c ∈ [ch_star; ch_quest; ch_lbrack; ch_backslash])).
Definition literal (p : string) : bool := str_forall literal_char p.

Lemma strip_stars_length p : (String.length (strip_stars p).2 <= String.length p)%nat.
Proof. induction p as [|c p IH]; simpl; [done|]. case_bool_decide; simpl; lia. Qed.

Lemma scan_length p : forall inr esc,
  (String.length (scan inr esc p).1 + String.length (scan inr esc p).2 = String.length p)%nat.
Proof.
  induction p as [|c p IH]; intros inr esc; simpl; [done|].
  destruct esc.
  - specialize (IH inr false). destruct (scan inr false p); simpl in *. lia.
  - destruct ((c == ch_star) && negb inr); simpl; [done|].
    match goal with |- context [scan ?a ?b p] => specialize (IH a b); destruct (scan a b p) end.
    simpl in *. lia.
Qed.

(** Every iteration of [Match] consumes pattern, so the fuel is enough. *)
Lemma scanChunk_shrinks p :
  p <> EmptyString -> (String.length (scanChunk p).2 < String.length p)%nat.
Proof.
  destruct p as [|c p]; [done|]. intros _. unfold scanChunk; simpl.
  destruct (c == ch_star) eqn:E; simpl.
  - pose proof (strip_stars_length p). destruct (strip_stars p) as [? q]; simpl in *.
    pose proof (scan_length q false false). destruct (scan false false q); simpl in *. lia.
  - match goal with |- context [scan ?a ?b p] => pose proof (scan_length p a b); destruct (scan a b p) end.
    simpl in *. rewrite E. simpl. lia.
Qed.

Lemma scan_literal p esc : literal p = true -> scan false esc p = (p, EmptyString).
Proof.
  revert esc. induction p as [|c p IH]; intros esc; simpl; [done|].
  unfold literal in *. simpl. intros H. open_hyps.
  assert (forall x, x ∈ [ch_star; ch_quest; ch_lbrack; ch_backslash] -> c <> x) as Hne.
  { intros x Hx ->. unfold literal_char in H. apply negb_true_iff, bool_decide_eq_false_1 in H. done. }
  rewrite !(bool_decide_eq_false_2 (c = _)) by (apply Hne; set_solver).
  simpl. destruct (c == ch_rbrack); destruct esc; by rewrite IH.
Qed.

Lemma match_chunk_failed_literal p : forall fuel s,
  (String.length p < fuel)%nat -> literal p = true -> match_chunk fuel p s true = Some None.
Proof.
  induction p as [|c p IH]; intros [|f] s Hf Hl; simpl in *; try lia; [done|].
  unfold literal in *. simpl in Hl. open_hyps.
  unfold literal_char in *. open_hyps.
  rewrite !(bool_decide_eq_false_2 (c = _)) by set_solver. simpl.
  apply IH; [lia|done].
Qed.

Lemma match_chunk_literal p : forall fuel s,
  (String.length p < fuel)%nat -> literal p = true ->
  match_chunk fuel p s false =
    Some (if String.prefix p s then Some (str_drop (String.length p) s) else None).
Proof.
  induction p as [|c p IH]; intros [|f] s Hf Hl; simpl in *; try lia.
  { destruct s; done. }
  unfold literal in *. simpl in Hl. open_hyps.
  pose proof H as Hlc. unfold literal_char in Hlc. open_hyps.
  rewrite !(bool_decide_eq_false_2 (c = _)) by set_solver. simpl.
  destruct s as [|e s]; simpl.
  { apply match_chunk_failed_literal; [lia|done]. }
  destruct (Ascii.ascii_dec c e) as [->|Hne].
  - rewrite bool_decide_eq_true_2 by done. simpl. apply IH; [lia|done].
  - rewrite bool_decide_eq_false_2 by done. simpl. apply match_chunk_failed_literal; [lia|done].
Qed.

Lemma prefix_drop_all p s :
  String.prefix p s = true -> str_drop (String.length p) s = EmptyString -> p = s.
Proof.
  revert s. induction p as [|c p IH]; intros [|e s]; simpl; intros H1 H2; try done.
  destruct (Ascii.ascii_dec c e); [|done]. subst. f_equal. by apply IH.
Qed.
Lemma prefix_self s : String.prefix s s = true /\ str_drop (String.length s) s = EmptyString.
Proof.
  induction s as [|c s [IH1 IH2]]; [done|]. simpl. split; [|done].
  by destruct (Ascii.ascii_dec c c).
Qed.

(** A pattern with no metacharacter matches exactly itself. *)
Lemma Match_literal p s : literal p = true -> Match p s = Some (p == s).
Proof.
  intros Hl. unfold Match. destruct p as [|c p].
  { simpl. destruct s; done. }
  remember (String c p) as q eqn:Eq.
  assert (q <> EmptyString) as Hq by (by subst).
  assert (scanChunk q = (false, q, EmptyString)) as Hscan.
  { unfold scanChunk. subst q. simpl (strip_stars _).
    pose proof Hl as Hl'. unfold literal in Hl'. simpl in Hl'. open_hyps.
    unfold literal_char in H. open_hyps.
    rewrite (bool_decide_eq_false_2 (c = ch_star)) by set_solver.
    by rewrite scan_literal. }
  cbn [match_go]. rewrite (bool_decide_eq_false_2 (q = EmptyString)) by done.
  rewrite Hscan. simpl. unfold matchChunk. rewrite match_chunk_literal by (done || lia).
  assert (exists n, String.length q = S n) as [n Hn] by (subst q; simpl; eauto).
  pose proof (prefix_self q) as [Hp1 Hp2].
  destruct (String.prefix q s) eqn:Ep.
  - destruct (str_drop (String.length q) s) eqn:Ed; rewrite Hn; simpl.
    + by rewrite (bool_decide_eq_true_2 (q = s)) by (by apply prefix_drop_all).
    + rewrite bool_decide_eq_false_2; [done|]. intros ->. congruence.
  - rewrite Hn. simpl. rewrite bool_decide_eq_false_2; [done|]. intros ->. congruence.
Qed.
