(* ===== verification/Netip.v ===== *)
(** * [net/netip]: addresses and prefixes of the Go standard library

    [Addr] keeps the three representations of [netip.Addr]: the zero value,
    IPv4 and IPv6 with an optional zone.  [ParseAddr], [ParsePrefix],
    [Addr_String], [Unmap] and [Contains] follow the package's documented
    behaviour on every input; parse errors are [None]. *)
From S2P Require Import Prelude GoStd.
Open Scope Z_scope.

Inductive Addr : Type :=
| AddrInvalid
| Addr4 (v : Z)
| Addr6 (v : Z) (zone : string).

#[export] Instance Addr_eq_dec : EqDecision Addr.
Proof. solve_decision. Defined.

(** ** Byte representations *)
Fixpoint be_val (acc : Z) (l : list Z) : Z :=
  match l with
  | [] => acc
  | b :: l' => be_val (acc * 256 + b) l'
  end.
Fixpoint be_bytes (n : nat) (z : Z) : list Z :=
  match n with
  | O => []
  | S n' => be_bytes n' (z / 256) ++ [z mod 256]
  end.

Definition AddrFrom4 (bytes : list Z) : Addr := Addr4 (be_val 0 bytes).
Definition AddrFrom16 (bytes : list Z) : Addr := Addr6 (be_val 0 bytes) "".
Definition As4 (v : Z) : list Z := be_bytes 4 v.
Definition As16 (v : Z) : list Z := be_bytes 16 v.

Definition IsValid (a : Addr) : bool := match a with AddrInvalid => false | _ => true end.
Definition Is4 (a : Addr) : bool := match a with Addr4 _ => true | _ => false end.
Definition Is4In6 (a : Addr) : bool :=
  match a with Addr6 v _ => v / 2 ^ 32 =? 65535 | _ => false end.
Definition BitLen (a : Addr) : Z :=
  match a with AddrInvalid => 0 | Addr4 _ => 32 | Addr6 _ _ => 128 end.
Definition has_zone (a : Addr) : bool := match a with Addr6 _ z => z != "" | _ => false end.
Definition addr_val (a : Addr) : Z := match a with AddrInvalid => 0 | Addr4 v => v | Addr6 v _ => v end.
Definition Unmap (a : Addr) : Addr :=
  match a with
  | Addr6 v _ => if Is4In6 a then Addr4 (v mod 2 ^ 32) else a
  | _ => a
  end.

(** ** Parsing *)
Definition octet (s : string) : option Z :=
  if negb (str_forall is_digit s) || (s == "") then None
  else if (1 <? slen s) && HasPrefix s "0" then None
  else match ParseUint s with
       | Some v => if v <=? 255 then Some v else None
       | None => None
       end.
Definition ipv4_fields (s : string) : option (list Z) :=
  match split_byte "."%char s with
  | [a; b; c; d] => mapM octet [a; b; c; d]
  | _ => None
  end.

Definition hex_digit (c : ascii) : option Z :=
  let b := byte_val c in
  if in_range 48 57 b then Some (b - 48)
  else if in_range 97 102 b then Some (b - 87)
  else if in_range 65 70 b then Some (b - 55)
  else None.
(** The hex digits at the front of [s]: their count, value and the rest. *)
Fixpoint hex_group (s : string) (off acc : Z) : Z * Z * string :=
  match s with
  | String c s' => match hex_digit c with
                   | Some d => hex_group s' (off + 1) (acc * 16 + d)
                   | None => (off, acc, s)
                   end
  | EmptyString => (off, acc, s)
  end.

(** The group loop of [parseIPv6]: bytes written so far, position of the
    ellipsis, remaining input; at most eight groups are read. *)
Fixpoint ipv6_groups (n : nat) (ip : list Z) (ellipsis : option nat) (s : string)
  : option (list Z * option nat * string) :=
  match n with
  | O => Some (ip, ellipsis, s)
  | S n' =>
      let '(off, acc, rest) := hex_group s 0 0 in
      if (4 <? off) || (off =? 0) then None
      else if HasPrefix rest "." then
        if bool_decide (ellipsis = None) && negb (len ip =? 12) then None
        else if 16 <? len ip + 4 then None
        else match ipv4_fields s with
             | None => None
             | Some f => Some (ip ++ f, ellipsis, EmptyString)
             end
      else
        let ip' := ip ++ [acc / 256; acc mod 256] in
        match rest with
        | EmptyString => Some (ip', ellipsis, EmptyString)
        | String c rest1 =>
            if c != ":"%char then None
            else match rest1 with
                 | EmptyString => None
                 | String d rest2 =>
                     if d == ":"%char then
                       match ellipsis with
                       | Some _ => None
                       | None => if rest2 == "" then Some (ip', Some (length ip'), EmptyString)
                                 else ipv6_groups n' ip' (Some (length ip')) rest2
                       end
                     else ipv6_groups n' ip' ellipsis rest1
                 end
        end
  end.

Definition expand_ellipsis (ip : list Z) (ellipsis : option nat) : option (list Z) :=
  match ellipsis with
  | None => if len ip =? 16 then Some ip else None
  | Some e => if len ip <? 16
              then Some (take e ip ++ replicate (16 - length ip) 0 ++ drop e ip)
              else None
  end.

(** Split at the first byte [c]: [strings.Cut]. *)
Fixpoint cut_byte (c : ascii) (s : string) : string * option string :=
  match s with
  | EmptyString => (EmptyString, None)
  | String d s' => if d == c then (EmptyString, Some s')
                   else let '(a, b) := cut_byte c s' in (String d a, b)
  end.

Definition parseIPv6 (input : string) : option Addr :=
  let '(s, zone_opt) := cut_byte "%"%char input in
  if zone_opt == Some EmptyString then None
  else
    let zone := default EmptyString zone_opt in
    let leading := HasPrefix s "::" in
    let s' := if leading then str_drop 2 s else s in
    if leading && (s' == "") then Some (Addr6 0 zone)
    else match ipv6_groups 8 [] (if leading then Some O else None) s' with
         | Some (ip, ellipsis, EmptyString) =>
             match expand_ellipsis ip ellipsis with
             | Some bytes => Some (Addr6 (be_val 0 bytes) zone)
             | None => None
             end
         | _ => None
         end.

Fixpoint first_of (cs : list ascii) (s : string) : option ascii :=
  match s with
  | EmptyString => None
  | String c s' => if bool_decide (c ∈ cs) then Some c else first_of cs s'
  end.
Definition ParseAddr (s : string) : option Addr :=
  match first_of ["."%char; ":"%char; "%"%char] s with
  | Some c => if c == "."%char then Addr4 ∘ be_val 0 <$> ipv4_fields s
              else if c == ":"%char then parseIPv6 s
              else None
  | None => None
  end.

Record Prefix := mkPrefix { prefix_addr : Addr; prefix_bits : Z }.

Definition ParsePrefix (s : string) : option Prefix :=
  match rev (split_byte slash s) with
  | bits :: ((_ :: _) as front) =>
      match ParseAddr (Join (rev front) "/") with
      | None => None
      | Some ip =>
          if has_zone ip then None
          else if (1 <? slen bits) && HasPrefix bits "0" then None
          else if negb (str_forall is_digit bits) then None
          else match ParseUint bits with
               | Some b => if BitLen ip <? b then None else Some (mkPrefix ip b)
               | None => None
               end
      end
  | _ => None
  end.

Definition mask6 (bits : Z) : Z := Z.shiftl (Z.ones bits) (128 - bits).
Definition Contains_addr (p : Prefix) (ip : Addr) : bool :=
  if has_zone ip then false
  else if (BitLen (prefix_addr p) =? 0) || (BitLen ip =? 0)
          || negb (BitLen (prefix_addr p) =? BitLen ip) then false
  else if Is4 ip
       then Z.shiftr (Z.lxor (addr_val ip) (addr_val (prefix_addr p))) (32 - prefix_bits p) =? 0
       else Z.land (Z.lxor (addr_val ip) (addr_val (prefix_addr p))) (mask6 (prefix_bits p)) =? 0.

(** ** Printing *)
Definition string4 (v : Z) : string := Join (map FormatUint (As4 v)) ".".
Definition hex_char (d : Z) : ascii := chr (if d <? 10 then 48 + d else 87 + d).
(** [appendHex]: no leading zeros. *)
Definition append_hex (v : Z) : string :=
  let digits := [v / 4096 mod 16; v / 256 mod 16; v / 16 mod 16; v mod 16] in
  let n := if 4096 <=? v then 0%nat else if 256 <=? v then 1%nat else if 16 <=? v then 2%nat else 3%nat in
  foldr (fun d s => String (hex_char d) s) EmptyString (drop n digits).
Definition groups6 (v : Z) : list Z :=
  map (fun i => v / 2 ^ (16 * Z.of_nat (7 - i)) mod 65536) (seq 0 8).
Fixpoint zero_run (gs : list Z) : nat :=
  match gs with
  | g :: gs' => if g =? 0 then S (zero_run gs') else O
  | [] => O
  end.
(** The first longest run of at least two zero groups: start and length. *)
Definition longest_zero (gs : list Z) : option (nat * nat) :=
  foldl (fun best i =>
           let l := zero_run (drop i gs) in
           let cur := match best with Some (_, n) => n | None => O end in
           if bool_decide (2 <= l)%nat && bool_decide (cur < l)%nat then Some (i, l) else best)
        None (seq 0 8).
Definition string6 (v : Z) : string :=
  let gs := groups6 v in
  match longest_zero gs with
  | None => Join (map append_hex gs) ":"
  | Some (i, n) =>
      Join (map append_hex (take i gs)) ":" +:+ "::" +:+ Join (map append_hex (drop (i + n) gs)) ":"
  end.
Definition Addr_String (a : Addr) : string :=
  match a with
  | AddrInvalid => "invalid IP"
  | Addr4 v => string4 v
  | Addr6 v zone =>
      (if Is4In6 a then "::ffff:" +:+ string4 (v mod 2 ^ 32) else string6 v)
      +:+ (if zone == "" then EmptyString else "%" +:+ zone)
  end.

(** ** Lemmas: values and bytes *)
Lemma be_val_range l : forall acc k, Forall is_byte l -> 0 <= acc < 256 ^ Z.of_nat k ->
  0 <= be_val acc l < 256 ^ Z.of_nat (k + length l).
Proof.
  induction l as [|b l IH]; intros acc k Hl Ha; cbn [be_val length]; [by rewrite Nat.add_0_r|].
  apply Forall_cons in Hl as [Hb Hl]. unfold is_byte in Hb. replace (k + S (length l))%nat with (S k + length l)%nat by lia.
  apply IH; [done|]. rewrite Nat2Z.inj_succ, Z.pow_succ_r by lia. lia.
Qed.
Lemma be_val_bytes l : Forall is_byte l -> 0 <= be_val 0 l < 256 ^ Z.of_nat (length l).
Proof. intros H. apply (be_val_range l 0 0); [done|]. cbn. lia. Qed.
Lemma be_val_snoc l : forall acc b, be_val acc (l ++ [b]) = be_val acc l * 256 + b.
Proof. induction l as [|x l IH]; intros acc b; cbn; [done|]. apply IH. Qed.
Lemma be_bytes_val l : Forall is_byte l -> be_bytes (length l) (be_val 0 l) = l.
Proof.
  induction l as [|b l IH] using rev_ind; [done|]. intros [Hl Hb]%Forall_app. apply Forall_inv in Hb. unfold is_byte in Hb.
  rewrite length_app, Nat.add_1_r, be_val_snoc. cbn [be_bytes].
  replace ((be_val 0 l * 256 + b) / 256) with (be_val 0 l) by (rewrite Z.div_add_l, (Z.div_small b) by lia; lia).
  rewrite IH by done. f_equal. f_equal. rewrite Z.add_comm, Z.mod_add, Z.mod_small; lia.
Qed.
Lemma be_val_be_bytes n : forall z, 0 <= z < 256 ^ Z.of_nat n -> be_val 0 (be_bytes n z) = z.
Proof.
  induction n as [|n IH]; intros z Hz; [cbn in *; lia|]. cbn [be_bytes]. rewrite be_val_snoc, IH.
  - pose proof (Z.div_mod z 256). lia.
  - rewrite Nat2Z.inj_succ, Z.pow_succ_r in Hz by lia. split; [apply Z.div_pos; lia|apply Z.div_lt_upper_bound; lia].
Qed.
Lemma be_bytes_length n : forall z, length (be_bytes n z) = n.
Proof. induction n as [|n IH]; intros z; cbn; [done|]. rewrite length_app, IH. cbn. lia. Qed.

(** ** Lemmas: the parser returns addresses in range *)
Definition addr_ok (a : Addr) : Prop :=
  match a with
  | AddrInvalid => True
  | Addr4 v => 0 <= v < 2 ^ 32
  | Addr6 v _ => 0 <= v < 2 ^ 128
  end.

Lemma octet_byte s v : octet s = Some v -> is_byte v.
Proof.
  unfold octet, is_byte. destruct (_ || _); [done|]. destruct (_ && _); [done|].
  destruct (ParseUint s) as [w|] eqn:E; [|done]. apply ParseUint_range in E. destruct (Z.leb_spec w 255); [|done].
  intros [= <-]. lia.
Qed.
Lemma ipv4_fields_ok s f : ipv4_fields s = Some f -> Forall is_byte f /\ length f = 4%nat.
Proof.
  unfold ipv4_fields. destruct (split_byte _ s) as [|a [|b [|c [|d [|]]]]]; try done. intros H.
  apply mapM_Some in H. split; [|by apply Forall2_length in H; cbn in H].
  apply Forall_forall. intros v Hv. apply list_elem_of_lookup in Hv as [i Hi].
  destruct (Forall2_lookup_r _ _ _ _ _ H Hi) as (x & _ & Hx). by eapply octet_byte.
Qed.

Lemma hex_digit_range c d : hex_digit c = Some d -> 0 <= d < 16.
Proof.
  unfold hex_digit, in_range. repeat case_match; intros [= <-]; lia.
Qed.
Lemma hex_group_range s : forall off acc off' acc' rest,
  hex_group s off acc = (off', acc', rest) -> 0 <= off -> 0 <= acc < 16 ^ off -> off <= off' /\ 0 <= acc' < 16 ^ off'.
Proof.
  induction s as [|c s IH]; intros off acc off' acc' rest; cbn [hex_group]; [by intros [= <- <- <-]; split|].
  destruct (hex_digit c) as [d|] eqn:E; [|by intros [= <- <- <-]; split]. apply hex_digit_range in E.
  intros H Ho Ha. apply IH in H; [lia|lia|]. rewrite Z.pow_add_r by lia. lia.
Qed.

Lemma ipv6_groups_ok n : forall ip e s ip' e' s',
  ipv6_groups n ip e s = Some (ip', e', s') -> Forall is_byte ip -> Forall is_byte ip'.
Proof.
  induction n as [|n IH]; intros ip e s ip' e' s'; cbn [ipv6_groups]; [by intros [= <- <- <-]|].
  destruct (hex_group s 0 0) as [[off acc] rest] eqn:E. destruct (_ || _) eqn:Eo; [done|].
  apply hex_group_range in E as [_ Hacc]; [|lia..].
  assert (acc < 65536) as H16.
  { apply orb_false_iff in Eo as [Eo _]. apply Z.ltb_ge in Eo. apply Z.lt_le_trans with (16 ^ off); [lia|].
    change 65536 with (16 ^ 4). apply Z.pow_le_mono_r; lia. }
  intros H Hip.
  assert (Forall is_byte (ip ++ [acc / 256; acc mod 256])) as Hip'.
  { apply Forall_app; split; [done|]. unfold is_byte. repeat constructor; try (apply Z.div_pos; lia);
      try (apply Z.div_lt_upper_bound; lia); apply Z.mod_pos_bound; lia. }
  destruct (HasPrefix rest "."); [|repeat case_match; simplify_eq; first [exact Hip'|exact (IH _ _ _ _ _ _ H Hip')]].
  clear Eo. revert H. destruct (_ && _); [done|]. destruct (_ <? _); [done|]. destruct (ipv4_fields s) as [f|] eqn:Ef; [|done].
  intros [= <- <- <-]. apply ipv4_fields_ok in Ef as [Hf _]. by apply Forall_app.
Qed.
Lemma expand_ellipsis_ok ip e bytes :
  expand_ellipsis ip e = Some bytes -> Forall is_byte ip -> Forall is_byte bytes /\ length bytes = 16%nat.
Proof.
  unfold expand_ellipsis, len. destruct e as [e|]; intros H Hip.
  - destruct (Z.ltb_spec (Z.of_nat (length ip)) 16); [|done]. injection H as <-. split.
    + repeat apply Forall_app_2; [by apply Forall_take| |by apply Forall_drop].
      apply Forall_replicate. unfold is_byte. lia.
    + rewrite !length_app, length_take, length_drop, length_replicate. lia.
  - destruct (Z.eqb_spec (Z.of_nat (length ip)) 16); [|done]. injection H as <-. split; [done|lia].
Qed.
Lemma ParseAddr_ok s a : ParseAddr s = Some a -> addr_ok a.
Proof.
  unfold ParseAddr. destruct (first_of _ s) as [c|]; [|done]. destruct (c == _); [|destruct (c == _); [|done]].
  - destruct (ipv4_fields s) as [f|] eqn:E; [|done]. intros [= <-]. apply ipv4_fields_ok in E as [Hf Hl].
    apply be_val_bytes in Hf. by rewrite Hl in Hf.
  - unfold parseIPv6. destruct (cut_byte _ s) as [s' z]. destruct (z == _); [done|].
    destruct (_ && _); [intros [= <-]; cbn; lia|].
    destruct (ipv6_groups 8 _ _ _) as [[[ip e] [|]]|] eqn:E; try done.
    destruct (expand_ellipsis ip e) as [bytes|] eqn:Ex; [|done]. intros [= <-].
    apply ipv6_groups_ok in E; [|done]. apply expand_ellipsis_ok in Ex as [Hb Hl]; [|done].
    apply be_val_bytes in Hb. by rewrite Hl in Hb.
Qed.
Lemma ParsePrefix_ok s p :
  ParsePrefix s = Some p -> addr_ok (prefix_addr p) /\ IsValid (prefix_addr p) = true /\ has_zone (prefix_addr p) = false.
Proof.
  unfold ParsePrefix. destruct (rev _) as [|bits [|x front]]; try done.
  destruct (ParseAddr _) as [ip|] eqn:E; [|done].
  assert (IsValid ip = true) as Hv.
  { destruct ip; [|done..]. exfalso. revert E. unfold ParseAddr, parseIPv6. repeat case_match; try done.
    by destruct (ipv4_fields _). }
  apply ParseAddr_ok in E. repeat case_match; try done. by intros [= <-].
Qed.

Lemma lxor_range a b n : 0 <= n -> 0 <= a < 2 ^ n -> 0 <= b < 2 ^ n -> 0 <= Z.lxor a b < 2 ^ n.
Proof.
  intros Hn Ha Hb. assert (0 <= Z.lxor a b) as H0 by (apply Z.lxor_nonneg; lia). split; [done|].
  destruct (Z.eq_dec (Z.lxor a b) 0) as [->|Hne]; [lia|]. apply Z.log2_lt_pow2; [lia|].
  assert (forall x, 0 <= x < 2 ^ n -> x <> 0 -> Z.log2 x < n) as Hlog by (intros; apply Z.log2_lt_pow2; lia).
  destruct (Z.eq_dec a 0) as [->|Ha0]; [rewrite Z.lxor_0_l in *; by apply Hlog|].
  destruct (Z.eq_dec b 0) as [->|Hb0]; [rewrite Z.lxor_0_r in *; by apply Hlog|].
  pose proof (Z.log2_lxor a b). specialize (Hlog a) as H1. specialize (Hlog b) as H2. lia.
Qed.
(** A prefix of full length contains its own address only. *)
Lemma Contains_host p a :
  addr_ok (prefix_addr p) -> IsValid (prefix_addr p) = true -> has_zone (prefix_addr p) = false -> addr_ok a ->
  has_zone a = false -> prefix_bits p = BitLen (prefix_addr p) -> Contains_addr p a = true <-> prefix_addr p = a.
Proof.
  destruct p as [[|v|v z] bits]; intros Hp Hv Hz Ha Hza Hb; [done|..]; cbn in Hp, Hb, Hz; subst bits; unfold Contains_addr;
    destruct a as [|w|w z']; cbn -[Z.shiftr mask6 Z.land]; try done; cbn in Hza; rewrite ?Hza; cbn -[Z.shiftr mask6 Z.land].
  - rewrite Z.shiftr_0_r, Z.eqb_eq, Z.lxor_eq_0_iff. naive_solver.
  - by split.
  - replace (mask6 128) with (Z.ones 128) by reflexivity.
    rewrite Z.land_ones, Z.mod_small by (try lia; by apply lxor_range).
    rewrite Z.eqb_eq, Z.lxor_eq_0_iff. apply negb_false_iff, bool_decide_eq_true in Hz, Hza. naive_solver.
Qed.
