(* ===== verification/Schema.v ===== *)
(** * The policy bundle schema ([internal/policy/schema.go])

    The Go string enumerations stay strings, because a decoded bundle may
    carry any text in them and [Validate] is what rejects it.  A pointer is
    an [option], a map is a [gmap].  [errors.Join] of the collected errors is
    the list of them: the call succeeded when the list is empty. *)
From S2P Require Import Prelude GoStd Netip.
Open Scope Z_scope.

Definition SchemaVersion : Z := 1.

Definition Decision := string.
Definition DecisionObserve : Decision := "observe".
Definition DecisionAllow : Decision := "allow".
Definition DecisionDeny : Decision := "deny".

Definition Action := string.
Definition ActionAudit : Action := "audit".
Definition ActionAlert : Action := "alert".
Definition ActionBlock : Action := "block".
Definition ActionContain : Action := "contain".
Definition ActionKill : Action := "kill".

Definition Severity := string.
Definition SeverityInfo : Severity := "info".
Definition SeverityLow : Severity := "low".
Definition SeverityMedium : Severity := "medium".
Definition SeverityHigh : Severity := "high".
Definition SeverityCritical : Severity := "critical".

Definition ScopeType := string.
Definition ScopeGlobal : ScopeType := "global".
Definition ScopeLabels : ScopeType := "labels".
Definition ScopeCgroup : ScopeType := "cgroup".
Definition ScopeRun : ScopeType := "run".

Definition FileAccess := string.
Definition FileRead : FileAccess := "read".
Definition FileWrite : FileAccess := "write".
Definition FileExecute : FileAccess := "execute".

Definition NetworkDefault := string.
Definition NetworkDefaultObserve : NetworkDefault := "default_observe".
Definition NetworkDefaultDeny : NetworkDefault := "default_deny".

Definition IPFamily := string.
Definition FamilyIPv4 : IPFamily := "ipv4".
Definition FamilyIPv6 : IPFamily := "ipv6".

Record Scope := mkScope {
  Scope_Type : ScopeType;
  Scope_RunID : string;
  Scope_CgroupID : string;
  Scope_LabelSelector : gmap string string;
}.

Record FileCondition := mkFileCondition {
  ExactPaths : list string;
  Prefixes : list string;
  Suffixes : list string;
  Basenames : list string;
  Access : list FileAccess;
}.

Record ExecCondition := mkExecCondition {
  Executables : list string;
  ArgContains : list string;
}.

Record PortRange := mkPortRange { From : Z; To : Z }.

Record NetworkCondition := mkNetworkCondition {
  Default : NetworkDefault;
  CIDRs : list string;
  Ports : list PortRange;
  Families : list IPFamily;
}.

Record Conditions := mkConditions {
  File : option FileCondition;
  Exec : option ExecCondition;
  Network : option NetworkCondition;
}.

Record Policy := mkPolicy {
  ID : string;
  Name : string;
  Description : string;
  Enabled : bool;
  Policy_Scope : Scope;
  Policy_Decision : Decision;
  RequestedAction : Action;
  Priority : Z;
  Policy_Severity : Severity;
  Policy_Conditions : Conditions;
}.

Record Bundle := mkBundle {
  Bundle_SchemaVersion : Z;
  Policies : list Policy;
}.

Record Diagnostic := mkDiagnostic {
  Diagnostic_Code : string;
  Diagnostic_PolicyID : string;
  Diagnostic_Message : string;
}.

#[export] Instance PortRange_eq_dec : EqDecision PortRange.
Proof. solve_decision. Defined.

(** ** Errors, one constructor per message of the source *)
Inductive ScopeError :=
| GlobalScopeExtra
| RunScopeFields
| CgroupScopeFields
| CgroupScopeID
| LabelsScopeFields
| LabelsScopeBlank
| ScopeTypeUnsupported (t : ScopeType).

Inductive ConditionError :=
| SelectExactlyOne
| FileNoPattern
| FileNoAccess
| FileAccessUnsupported (a : FileAccess)
| FileAccessDuplicated (a : FileAccess)
| ValuesNonEmpty
| ExecNoPattern
| NetworkDefaultUnsupported (d : NetworkDefault)
| NetworkNoFamily
| FamilyUnsupported (f : IPFamily)
| FamilyDuplicated (f : IPFamily)
| CIDRInvalid (c : string)
| CIDRFamily (c : string) (f : IPFamily)
| PortRangeInvalid (r : PortRange).

Inductive PolicyError :=
| IDRequired
| NameRequired
| ScopeInvalid (e : ScopeError)
| ActionInvalid (a : Action) (d : Decision)
| SeverityUnsupported (s : Severity)
| ConditionsInvalid (e : ConditionError).

Inductive BundleError :=
| BundleRequired
| SchemaVersionMismatch (got : Z)
| PoliciesRequired
| DuplicatePolicyID (index : nat) (id : string)
| PolicyInvalid (index : nat) (errors : list PolicyError).

(** ** Helpers *)
Fixpoint firstDuplicate_go (seen values : list string) : option string :=
  match values with
  | [] => None
  | v :: vs => if bool_decide (v ∈ seen) then Some v else firstDuplicate_go (v :: seen) vs
  end.
Definition firstDuplicate (values : list string) : option string := firstDuplicate_go [] values.

Definition blank (s : string) : bool := TrimSpace s == "".

Definition validateNonEmptyStrings (groups : list (list string)) : option ConditionError :=
  if existsb (existsb blank) groups then Some ValuesNonEmpty else None.

Definition validSeverity (severity : Severity) : bool :=
  bool_decide (severity ∈ [SeverityInfo; SeverityLow; SeverityMedium; SeverityHigh; SeverityCritical]).

Definition validDecisionAction (decision : Decision) (action : Action) : bool :=
  if decision == DecisionObserve then (action == ActionAudit) || (action == ActionAlert)
  else if decision == DecisionAllow then action == ActionAudit
  else if decision == DecisionDeny then
    (action == ActionAudit) || (action == ActionAlert) ||
    (action == ActionBlock) || (action == ActionContain)
  else false.

(** ** Validation *)
Definition Scope_Validate (s : Scope) : option ScopeError :=
  let no_labels := Scope_LabelSelector s == ∅ in
  if Scope_Type s == ScopeGlobal then
    if (Scope_RunID s != "") || (Scope_CgroupID s != "") || negb no_labels
    then Some GlobalScopeExtra else None
  else if Scope_Type s == ScopeRun then
    if blank (Scope_RunID s) || (Scope_CgroupID s != "") || negb no_labels
    then Some RunScopeFields else None
  else if Scope_Type s == ScopeCgroup then
    if (Scope_RunID s != "") || negb no_labels then Some CgroupScopeFields
    else match ParseUint (Scope_CgroupID s) with
         | None => Some CgroupScopeID
         | Some id => if id =? 0 then Some CgroupScopeID else None
         end
  else if Scope_Type s == ScopeLabels then
    if (Scope_RunID s != "") || (Scope_CgroupID s != "") || no_labels then Some LabelsScopeFields
    else if existsb (fun kv => blank kv.1 || blank kv.2) (map_to_list (Scope_LabelSelector s))
         then Some LabelsScopeBlank else None
  else Some (ScopeTypeUnsupported (Scope_Type s)).

Definition FileCondition_Validate (c : FileCondition) : option ConditionError :=
  if len (ExactPaths c) + len (Prefixes c) + len (Suffixes c) + len (Basenames c) =? 0
  then Some FileNoPattern
  else if len (Access c) =? 0 then Some FileNoAccess
  else match List.find (fun a => (a != FileRead) && (a != FileWrite) && (a != FileExecute)) (Access c) with
       | Some a => Some (FileAccessUnsupported a)
       | None =>
           match firstDuplicate (Access c) with
           | Some d => Some (FileAccessDuplicated d)
           | None => validateNonEmptyStrings [ExactPaths c; Prefixes c; Suffixes c; Basenames c]
           end
       end.

Definition ExecCondition_Validate (c : ExecCondition) : option ConditionError :=
  if len (Executables c) + len (ArgContains c) =? 0 then Some ExecNoPattern
  else validateNonEmptyStrings [Executables c; ArgContains c].

Definition cidr_error (families : list IPFamily) (cidr : string) : option ConditionError :=
  match ParsePrefix cidr with
  | None => Some (CIDRInvalid cidr)
  | Some prefix =>
      let family := if Is4 (prefix_addr prefix) then FamilyIPv4 else FamilyIPv6 in
      if bool_decide (family ∈ families) then None else Some (CIDRFamily cidr family)
  end.

(** The first error of a [range] loop that returns at the first failure. *)
Fixpoint first_error {A B} (f : A -> option B) (l : list A) : option B :=
  match l with
  | [] => None
  | x :: l' => match f x with Some e => Some e | None => first_error f l' end
  end.

Definition NetworkCondition_Validate (c : NetworkCondition) : option ConditionError :=
  if (Default c != NetworkDefaultObserve) && (Default c != NetworkDefaultDeny)
  then Some (NetworkDefaultUnsupported (Default c))
  else if len (Families c) =? 0 then Some NetworkNoFamily
  else match List.find (fun f => (f != FamilyIPv4) && (f != FamilyIPv6)) (Families c) with
       | Some f => Some (FamilyUnsupported f)
       | None =>
           match firstDuplicate (Families c) with
           | Some d => Some (FamilyDuplicated d)
           | None =>
               match first_error (cidr_error (Families c)) (CIDRs c) with
               | Some e => Some e
               | None =>
                   first_error (fun r => if (From r =? 0) || (To r <? From r)
                                         then Some (PortRangeInvalid r) else None) (Ports c)
               end
           end
       end.

Definition Conditions_Validate (c : Conditions) : option ConditionError :=
  let present {A} (o : option A) : Z := match o with Some _ => 1 | None => 0 end in
  if negb (present (File c) + present (Exec c) + present (Network c) =? 1) then Some SelectExactlyOne
  else match File c, Exec c, Network c with
       | Some f, _, _ => FileCondition_Validate f
       | None, Some e, _ => ExecCondition_Validate e
       | None, None, Some n => NetworkCondition_Validate n
       | None, None, None => None
       end.

Definition Policy_Validate (p : Policy) : list PolicyError :=
  (if blank (ID p) then [IDRequired] else []) ++
  (if blank (Name p) then [NameRequired] else []) ++
  (match Scope_Validate (Policy_Scope p) with Some e => [ScopeInvalid e] | None => [] end) ++
  (if validDecisionAction (Policy_Decision p) (RequestedAction p) then []
   else [ActionInvalid (RequestedAction p) (Policy_Decision p)]) ++
  (if validSeverity (Policy_Severity p) then [] else [SeverityUnsupported (Policy_Severity p)]) ++
  (match Conditions_Validate (Policy_Conditions p) with Some e => [ConditionsInvalid e] | None => [] end).

(** The policy loop of [Bundle.Validate]; [seen] is [seenIDs]. *)
Fixpoint validate_policies (index : nat) (seen : list string) (ps : list Policy) : list BundleError :=
  match ps with
  | [] => []
  | p :: ps' =>
      (if bool_decide (ID p ∈ seen) && (ID p != "") then [DuplicatePolicyID index (ID p)] else []) ++
      (match Policy_Validate p with [] => [] | errs => [PolicyInvalid index errs] end) ++
      validate_policies (S index) (ID p :: seen) ps'
  end.

Definition Bundle_Validate (b : Bundle) : list BundleError :=
  (if Bundle_SchemaVersion b =? SchemaVersion then [] else [SchemaVersionMismatch (Bundle_SchemaVersion b)]) ++
  (match Policies b with [] => [PoliciesRequired] | _ => [] end) ++
  validate_policies 0 [] (Policies b).

(** ** Normalization of the deprecated action *)
Definition normalize_policy (p : Policy) : Policy :=
  if RequestedAction p == ActionKill then
    mkPolicy (ID p) (Name p) (Description p) (Enabled p) (Policy_Scope p) (Policy_Decision p)
             ActionContain (Priority p) (Policy_Severity p) (Policy_Conditions p)
  else p.
Definition kill_diagnostic (p : Policy) : list Diagnostic :=
  if RequestedAction p == ActionKill then
    [mkDiagnostic "deprecated_action_kill" (ID p)
       ("requested_action " +:+ quoted "kill" +:+ " is deprecated; normalized to " +:+ quoted "contain")]
  else [].

(** The receiver is a pointer: [None] is a nil bundle, and the normalized
    bundle is returned because the method rewrites it in place. *)
Definition NormalizeAndValidate (b : option Bundle) : option Bundle * list Diagnostic * list BundleError :=
  match b with
  | None => (None, [], [BundleRequired])
  | Some b =>
      let b' := mkBundle (Bundle_SchemaVersion b) (map normalize_policy (Policies b)) in
      (Some b', concat (map kill_diagnostic (Policies b)), Bundle_Validate b')
  end.

(** ** Precedence *)
Definition specificity (s : Scope) : Z :=
  if Scope_Type s == ScopeRun then 3
  else if Scope_Type s == ScopeCgroup then 2
  else if Scope_Type s == ScopeLabels then 1
  else if Scope_Type s == ScopeGlobal then 0
  else -1.

Definition HigherPrecedence (first second : Policy) : bool :=
  let s1 := specificity (Policy_Scope first) in
  let s2 := specificity (Policy_Scope second) in
  if negb (s1 =? s2) then s2 <? s1
  else if negb (Priority first =? Priority second) then Priority second <? Priority first
  else str_lt (ID first) (ID second).

(** ** What a valid bundle is *)
Inductive wf_scope : Scope -> Prop :=
| wf_global : wf_scope (mkScope ScopeGlobal "" "" ∅)
| wf_run run : blank run = false -> wf_scope (mkScope ScopeRun run "" ∅)
| wf_cgroup cg v : ParseUint cg = Some v -> v <> 0 -> wf_scope (mkScope ScopeCgroup "" cg ∅)
| wf_labels ls : ls <> ∅ ->
    (forall k v, ls !! k = Some v -> blank k = false /\ blank v = false) ->
    wf_scope (mkScope ScopeLabels "" "" ls).

Definition nonblank (l : list string) : Prop := Forall (fun s => blank s = false) l.

Record wf_file (c : FileCondition) : Prop := {
  wf_file_some : ExactPaths c ++ Prefixes c ++ Suffixes c ++ Basenames c <> [];
  wf_file_nonblank : nonblank (ExactPaths c ++ Prefixes c ++ Suffixes c ++ Basenames c);
  wf_file_access_some : Access c <> [];
  wf_file_access_known : Access c ⊆ [FileRead; FileWrite; FileExecute];
  wf_file_access_nodup : NoDup (Access c);
}.
Record wf_exec (c : ExecCondition) : Prop := {
  wf_exec_some : Executables c ++ ArgContains c <> [];
  wf_exec_nonblank : nonblank (Executables c ++ ArgContains c);
}.
Definition cidr_family (p : Prefix) : IPFamily :=
  if Is4 (prefix_addr p) then FamilyIPv4 else FamilyIPv6.
Record wf_network (c : NetworkCondition) : Prop := {
  wf_network_default : Default c ∈ [NetworkDefaultObserve; NetworkDefaultDeny];
  wf_network_families_some : Families c <> [];
  wf_network_families_known : Families c ⊆ [FamilyIPv4; FamilyIPv6];
  wf_network_families_nodup : NoDup (Families c);
  wf_network_cidrs : Forall (fun s => exists p, ParsePrefix s = Some p /\ cidr_family p ∈ Families c) (CIDRs c);
  wf_network_ports : Forall (fun r => From r <> 0 /\ From r <= To r) (Ports c);
}.
Inductive wf_conditions : Conditions -> Prop :=
| wf_only_file c : wf_file c -> wf_conditions (mkConditions (Some c) None None)
| wf_only_exec c : wf_exec c -> wf_conditions (mkConditions None (Some c) None)
| wf_only_network c : wf_network c -> wf_conditions (mkConditions None None (Some c)).

Inductive wf_effect : Decision -> Action -> Prop :=
| wf_observe a : a ∈ [ActionAudit; ActionAlert] -> wf_effect DecisionObserve a
| wf_allow : wf_effect DecisionAllow ActionAudit
| wf_deny a : a ∈ [ActionAudit; ActionAlert; ActionBlock; ActionContain] -> wf_effect DecisionDeny a.

Record wf_policy (p : Policy) : Prop := {
  wf_policy_id : blank (ID p) = false;
  wf_policy_name : blank (Name p) = false;
  wf_policy_scope : wf_scope (Policy_Scope p);
  wf_policy_effect : wf_effect (Policy_Decision p) (RequestedAction p);
  wf_policy_severity : Policy_Severity p ∈ [SeverityInfo; SeverityLow; SeverityMedium; SeverityHigh; SeverityCritical];
  wf_policy_conditions : wf_conditions (Policy_Conditions p);
}.
Record wf_bundle (b : Bundle) : Prop := {
  wf_bundle_version : Bundle_SchemaVersion b = 1;
  wf_bundle_some : Policies b <> [];
  wf_bundle_nodup : NoDup (map ID (Policies b));
  wf_bundle_policies : Forall wf_policy (Policies b);
}.

(** ** Validation is exactly well-formedness *)
Lemma firstDuplicate_go_None seen l :
  firstDuplicate_go seen l = None <-> NoDup l /\ (forall x, x ∈ l -> x ∉ seen).
Proof.
  revert seen. induction l as [|x l IH]; intros seen; simpl.
  { split; [|done]. intros _. split; [constructor|]. set_solver. }
  case_bool_decide as Hx.
  - split; [done|]. intros [_ Hd]. exfalso. apply (Hd x); [left|done].
  - rewrite IH, NoDup_cons. set_solver.
Qed.
Lemma firstDuplicate_None l : firstDuplicate l = None <-> NoDup l.
Proof. unfold firstDuplicate. rewrite firstDuplicate_go_None. set_solver. Qed.

Lemma first_error_None {A B} (f : A -> option B) (l : list A) :
  first_error f l = None <-> Forall (fun x => f x = None) l.
Proof.
  induction l as [|x l IH]; simpl; [by split|]. rewrite Forall_cons.
  destruct (f x); [|by rewrite IH; tauto]. split; [done|]. by intros [? _].
Qed.
Lemma validateNonEmptyStrings_None groups :
  validateNonEmptyStrings groups = None <-> nonblank (concat groups).
Proof.
  unfold validateNonEmptyStrings, nonblank. rewrite Forall_concat.
  trans (existsb (existsb blank) groups = false); [by destruct (existsb _ _)|].
  rewrite existsb_false. apply Forall_iff. intros g. apply existsb_false.
Qed.

Lemma Scope_Validate_None s : Scope_Validate s = None <-> wf_scope s.
Proof.
  split.
  - destruct s as [t run cg ls]. unfold Scope_Validate; cbn. intros H. branches;
      repeat match goal with
             | E : blank _ || _ = false |- _ => apply orb_false_iff in E as [? ?]
             | E : _ || bool_decide _ = false |- _ => apply orb_false_iff in E as [? ?]
             end; open_hyps; subst; try by constructor.
    + eapply wf_cgroup; [done|]. by apply Z.eqb_neq.
    + apply wf_labels; [done|]. intros k v Hk. apply elem_of_map_to_list in Hk.
      match goal with E : existsb _ _ = false |- _ => rewrite existsb_false, Forall_forall in E; apply E in Hk end.
      by apply orb_false_iff in Hk.
  - unfold Scope_Validate. destruct 1 as [|run Hr|cg v Hc Hv|ls Hl Hb]; cbn; [done|..].
    + by rewrite Hr.
    + rewrite Hc. by apply Z.eqb_neq in Hv as ->.
    + go_consts. case_bool_decide as El; [done|]. cbn.
      destruct (existsb _ (map_to_list ls)) eqn:E; [exfalso|done].
      apply existsb_exists in E as ([k v] & Hin & E).
      apply list_elem_of_In, elem_of_map_to_list, Hb in Hin as [H1 H2]. cbn in E.
      by rewrite H1, H2 in E.
Qed.

(** A guard that returns an error leaves success only when it is passed. *)
Lemma guard_None {E} (b : bool) (e : E) (r : option E) :
  (if b then Some e else r) = None <-> b = false /\ r = None.
Proof. destruct b; naive_solver. Qed.
Lemma case_None {A E} (o : option A) (f : A -> E) (r : option E) :
  match o with Some x => Some (f x) | None => r end = None <-> o = None /\ r = None.
Proof. destruct o; naive_solver. Qed.

Lemma known_values (l known : list string) (f : string -> bool) :
  (forall a, f a = false <-> a ∈ known) -> Forall (fun a => f a = false) l <-> l ⊆ known.
Proof. intros Hf. rewrite Forall_forall. setoid_rewrite Hf. done. Qed.

Lemma FileCondition_Validate_None c : FileCondition_Validate c = None <-> wf_file c.
Proof.
  unfold FileCondition_Validate.
  rewrite !guard_None, !case_None, !Z.eqb_neq, find_None, firstDuplicate_None,
    validateNonEmptyStrings_None, len_zero.
  rewrite (known_values _ [FileRead; FileWrite; FileExecute]).
  2: { intros a. rewrite !andb_false_iff, !negb_false_iff, !bool_decide_eq_true. set_solver. }
  rewrite <-!Z.add_assoc, <-!len_app, len_zero.
  cbn [concat]. rewrite app_nil_r. split; [intros; open_hyps; by constructor|by intros []].
Qed.

Lemma ExecCondition_Validate_None c : ExecCondition_Validate c = None <-> wf_exec c.
Proof.
  unfold ExecCondition_Validate.
  rewrite guard_None, Z.eqb_neq, len_app_zero, validateNonEmptyStrings_None.
  cbn [concat]. rewrite app_nil_r. split; [intros; open_hyps; by constructor|by intros []].
Qed.

Lemma cidr_error_None fs s :
  cidr_error fs s = None <-> exists p, ParsePrefix s = Some p /\ cidr_family p ∈ fs.
Proof.
  unfold cidr_error. fold (cidr_family). destruct (ParsePrefix s) as [p|]; [|naive_solver].
  fold (cidr_family p). case_bool_decide; naive_solver.
Qed.

Lemma NetworkCondition_Validate_None c : NetworkCondition_Validate c = None <-> wf_network c.
Proof.
  unfold NetworkCondition_Validate.
  rewrite !guard_None, !case_None, Z.eqb_neq, find_None, firstDuplicate_None, len_zero.
  rewrite (known_values _ [FamilyIPv4; FamilyIPv6]).
  2: { intros a. rewrite !andb_false_iff, !negb_false_iff, !bool_decide_eq_true. set_solver. }
  rewrite andb_false_iff, !negb_false_iff, !bool_decide_eq_true.
  rewrite !first_error_None.
  rewrite (Forall_iff _ (CIDRs c) (fun s => exists p, ParsePrefix s = Some p /\ cidr_family p ∈ Families c))
    by (intros; apply cidr_error_None).
  rewrite (Forall_iff _ (Ports c) (fun r => From r <> 0 /\ From r <= To r)).
  2: { intros r. rewrite guard_None, orb_false_iff, Z.eqb_neq, Z.ltb_ge. tauto. }
  split; [intros; constructor; set_solver|intros []; set_solver].
Qed.

Lemma Conditions_Validate_None c : Conditions_Validate c = None <-> wf_conditions c.
Proof.
  destruct c as [[f|] [e|] [n|]]; unfold Conditions_Validate; cbn;
    match goal with |- context [if ?b then _ else _] => const_bool b end;
    rewrite ?FileCondition_Validate_None, ?ExecCondition_Validate_None, ?NetworkCondition_Validate_None;
    (split; [intros; first [done | by constructor] | inversion 1; by subst]).
Qed.

Lemma validDecisionAction_wf d a : validDecisionAction d a = true <-> wf_effect d a.
Proof.
  unfold validDecisionAction. split.
  - intros H. branches; try (constructor; set_solver);
      repeat (apply orb_true_iff in H as [H|H]); open_hyps; subst; constructor; set_solver.
  - destruct 1 as [a Ha| |a Ha]; [..|];
      repeat (apply elem_of_cons in Ha as [->|Ha]); try done; by apply elem_of_nil in Ha.
Qed.
Lemma validSeverity_wf s :
  validSeverity s = true <-> s ∈ [SeverityInfo; SeverityLow; SeverityMedium; SeverityHigh; SeverityCritical].
Proof. apply bool_decide_eq_true. Qed.

Lemma collect_nil {A} (b : bool) (e : A) l : (if b then [e] else []) ++ l = [] <-> b = false /\ l = [].
Proof. destruct b; naive_solver. Qed.
Lemma collect_nil' {A} (b : bool) (e : A) l : (if b then [] else [e]) ++ l = [] <-> b = true /\ l = [].
Proof. destruct b; naive_solver. Qed.
Lemma collect_opt {A B} (o : option A) (f : A -> B) l :
  (match o with Some e => [f e] | None => [] end) ++ l = [] <-> o = None /\ l = [].
Proof. destruct o; naive_solver. Qed.

Lemma Policy_Validate_nil p : Policy_Validate p = [] <-> wf_policy p.
Proof.
  unfold Policy_Validate.
  rewrite !collect_nil, !collect_opt, !collect_nil'.
  rewrite <-(app_nil_r (match Conditions_Validate _ with Some _ => _ | None => _ end)), collect_opt.
  rewrite Scope_Validate_None, Conditions_Validate_None, validDecisionAction_wf, validSeverity_wf.
  split; [intros; open_hyps; by constructor|by intros []].
Qed.

Lemma blank_empty : blank "" = true.
Proof. done. Qed.

Lemma validate_policies_nil ps : forall index seen,
  validate_policies index seen ps = [] <->
  Forall wf_policy ps /\ NoDup (map ID ps) /\ (forall p, p ∈ ps -> ID p ∉ seen).
Proof.
  induction ps as [|p ps IH]; intros index seen; cbn [validate_policies map].
  { split; [|done]. intros _. split_and!; [constructor|constructor|set_solver]. }
  rewrite collect_nil, Forall_cons, NoDup_cons, <-(Policy_Validate_nil p).
  destruct (Policy_Validate p) eqn:Ep; [|naive_solver]. cbn [app]. rewrite IH.
  assert (ID p <> "") as Hne.
  { intros E. apply Policy_Validate_nil in Ep as [Hid _ _ _ _ _]. by rewrite E, blank_empty in Hid. }
  rewrite (bool_decide_eq_false_2 (ID p = "")) by done. cbn [negb]. rewrite andb_true_r, bool_decide_eq_false.
  setoid_rewrite elem_of_cons. rewrite list_elem_of_fmap. naive_solver.
Qed.

Lemma Bundle_Validate_nil b : Bundle_Validate b = [] <-> wf_bundle b.
Proof.
  unfold Bundle_Validate. rewrite collect_nil', Z.eqb_eq.
  destruct (Policies b) as [|p ps] eqn:E.
  { split; [naive_solver|]. by intros [_ ? _ _]. }
  cbn [app]. rewrite <-E, validate_policies_nil.
  split; [intros; open_hyps; constructor; by rewrite ?E in *|]. intros []. set_solver.
Qed.

(** ** Normalization *)
Lemma normalize_policy_id p : ID (normalize_policy p) = ID p.
Proof. unfold normalize_policy. by case_bool_decide. Qed.
Lemma normalize_policy_not_kill p : RequestedAction (normalize_policy p) <> ActionKill.
Proof. unfold normalize_policy. by case_bool_decide. Qed.
Lemma normalize_policy_id_map ps : map ID (map normalize_policy ps) = map ID ps.
Proof. rewrite map_map. apply map_ext, normalize_policy_id. Qed.
Lemma normalized_fixpoint p :
  RequestedAction p <> ActionKill -> normalize_policy p = p /\ kill_diagnostic p = [].
Proof. intros. unfold normalize_policy, kill_diagnostic. by rewrite bool_decide_eq_false_2. Qed.
Lemma normalized_fixpoint_all ps :
  Forall (fun p => RequestedAction p <> ActionKill) ps ->
  map normalize_policy ps = ps /\ concat (map kill_diagnostic ps) = [].
Proof.
  induction 1 as [|p ps Hp _ [IH1 IH2]]; [done|]. cbn.
  destruct (normalized_fixpoint p Hp) as [-> ->]. by rewrite IH1, IH2.
Qed.
(** What the deprecation means for one policy: a "kill" request becomes
    "contain" and every other field stays; another request stays as it is. *)
Inductive kill_rewritten : Policy -> Policy -> Prop :=
| rewritten_kill id name description enabled scope decision priority severity conditions :
    kill_rewritten (mkPolicy id name description enabled scope decision "kill" priority severity conditions)
                   (mkPolicy id name description enabled scope decision "contain" priority severity conditions)
| rewritten_kept p : RequestedAction p <> "kill" -> kill_rewritten p p.
Definition deprecation (p : Policy) : Diagnostic :=
  mkDiagnostic "deprecated_action_kill" (ID p)
    ("requested_action " +:+ quoted "kill" +:+ " is deprecated; normalized to " +:+ quoted "contain").
Lemma normalize_policy_rewritten p : kill_rewritten p (normalize_policy p).
Proof.
  unfold normalize_policy. destruct (bool_decide_reflect (RequestedAction p = ActionKill)) as [E|E]; [|by apply rewritten_kept].
  destruct p as [id name description enabled scope decision action priority severity conditions]. cbn [RequestedAction] in E. subst action.
  apply rewritten_kill.
Qed.
Lemma kill_diagnostics_exact ps :
  concat (map kill_diagnostic ps) = map deprecation (filter (fun p => RequestedAction p = "kill") ps).
Proof.
  induction ps as [|p ps IH]; [done|]. cbn [map concat]. rewrite IH, filter_cons. unfold kill_diagnostic.
  destruct (bool_decide_reflect (RequestedAction p = ActionKill)) as [E|E];
    [rewrite decide_True by exact E|rewrite decide_False by exact E]; done.
Qed.

(** ** Precedence: specificity, then priority, then identifier *)
Lemma HigherPrecedence_lex a b :
  HigherPrecedence a b = true <->
  specificity (Policy_Scope b) < specificity (Policy_Scope a) \/
  specificity (Policy_Scope a) = specificity (Policy_Scope b) /\
    (Priority b < Priority a \/ Priority a = Priority b /\ str_lt (ID a) (ID b) = true).
Proof.
  unfold HigherPrecedence.
  destruct (Z.eqb_spec (specificity (Policy_Scope a)) (specificity (Policy_Scope b)));
    destruct (Z.eqb_spec (Priority a) (Priority b)); cbn [negb]; rewrite ?Z.ltb_lt; intuition lia.
Qed.
Lemma HigherPrecedence_false a b :
  HigherPrecedence a b = false <->
  specificity (Policy_Scope a) < specificity (Policy_Scope b) \/
  specificity (Policy_Scope a) = specificity (Policy_Scope b) /\
    (Priority a < Priority b \/ Priority a = Priority b /\ str_lt (ID a) (ID b) = false).
Proof.
  unfold HigherPrecedence.
  destruct (Z.eqb_spec (specificity (Policy_Scope a)) (specificity (Policy_Scope b)));
    destruct (Z.eqb_spec (Priority a) (Priority b)); cbn [negb]; rewrite ?Z.ltb_ge; intuition lia.
Qed.
#[export] Instance HigherPrecedence_weak : StrictWeak HigherPrecedence.
Proof.
  split.
  - intros a b. rewrite HigherPrecedence_lex, HigherPrecedence_false.
    pose proof (less_asym (ID a) (ID b)). intuition lia.
  - intros a b c. rewrite !HigherPrecedence_false.
    pose proof (less_ntrans (ID a) (ID b) (ID c)). intuition lia.
Qed.
Lemma HigherPrecedence_separates a b :
  HigherPrecedence a b = false -> HigherPrecedence b a = false -> ID a = ID b.
Proof.
  rewrite !HigherPrecedence_false. intros H1 H2.
  apply str_lt_total; intuition lia.
Qed.

(** ** Properties *)
(** C1: [NormalizeAndValidate] rewrites every deprecated "kill" request to
    "contain", leaves every other field of that policy and every other policy
    as they were, in their order, and reports exactly one diagnostic for each
    rewritten policy, naming it; it reports no error exactly when the
    normalized bundle meets the declarative schema [wf_bundle] (supported
    version, at least one policy, unique IDs, every scope, effect, severity and
    condition well formed); and a second normalization changes nothing and
    repeats the verdict. *)
Theorem NormalizeAndValidate_correct b : exists b' ds errs,
  NormalizeAndValidate (Some b) = (Some b', ds, errs) /\
  (errs = [] <-> wf_bundle b') /\
  Bundle_SchemaVersion b' = Bundle_SchemaVersion b /\
  Forall2 kill_rewritten (Policies b) (Policies b') /\
  map ID (Policies b') = map ID (Policies b) /\
  Forall (fun p => RequestedAction p <> ActionKill) (Policies b') /\
  ds = map deprecation (filter (fun p => RequestedAction p = "kill") (Policies b)) /\
  NormalizeAndValidate (Some b') = (Some b', [], errs).
Proof.
  set (b' := mkBundle (Bundle_SchemaVersion b) (map normalize_policy (Policies b))).
  exists b', (concat (map kill_diagnostic (Policies b))), (Bundle_Validate b').
  assert (Forall (fun p => RequestedAction p <> ActionKill) (Policies b')) as Hk.
  { apply Forall_map, Forall_true. intros p. apply normalize_policy_not_kill. }
  split_and!; [done|apply Bundle_Validate_nil|done| |apply normalize_policy_id_map|done|apply kill_diagnostics_exact|].
  - apply Forall2_fmap_r, Forall_Forall2_diag, Forall_true. apply normalize_policy_rewritten.
  - unfold NormalizeAndValidate. destruct (normalized_fixpoint_all _ Hk) as [-> ->]. done.
Qed.

(** Policy precedence is a strict order that is total on distinct IDs:
    irreflexive, transitive, and of two policies with different identifiers
    exactly one precedes the other, whatever their scopes and priorities. *)
Theorem HigherPrecedence_strict_total :
  (forall a, HigherPrecedence a a = false) /\
  (forall a b c, HigherPrecedence a b = true -> HigherPrecedence b c = true -> HigherPrecedence a c = true) /\
  (forall a b, ID a <> ID b -> HigherPrecedence a b = negb (HigherPrecedence b a)).
Proof.
  split_and!.
  - intros a. apply HigherPrecedence_false. right. split; [done|]. right. split; [done|]. apply str_lt_irrefl.
  - intros a b c Hab Hbc. destruct (HigherPrecedence a c) eqn:E; [done|].
    rewrite (less_ntrans c a b) in Hbc; [done|done|by apply less_asym].
  - intros a b Hne. destruct (HigherPrecedence b a) eqn:E; [by apply less_asym|].
    destruct (HigherPrecedence a b) eqn:E'; [done|]. by apply HigherPrecedence_separates in E'.
Qed.
