(* ===== verification/Limits.v ===== *)
(** * Resource limits and compile preview
    ([internal/policy/limits.go], [internal/policy/preview.go])

    The bounds checked on a decoded bundle, and the estimate of how its rules
    split between kernel maps and user space. *)
From S2P Require Import Prelude GoStd Glob Netip Schema.
Open Scope Z_scope.

(** ** Limits *)
Definition defaultMaxFileBytes : Z := 1048576.
Definition defaultMaxPolicies : Z := 256.
Definition defaultMaxStringBytes : Z := 256.
Definition defaultMaxConditionValues : Z := 64.
Definition defaultMaxGlobMetacharacters : Z := 4.
Definition defaultKernelMapCapacity : Z := 1024.
Definition defaultMaxUserSpaceRules : Z := 1024.

Record Limits := mkLimits {
  MaxFileBytes : Z;
  MaxPolicies : Z;
  MaxStringBytes : Z;
  MaxConditionValues : Z;
  MaxGlobMetacharacters : Z;
  KernelMapCapacity : Z;
  MaxUserSpaceRules : Z;
}.

Definition DefaultLimits : Limits :=
  mkLimits defaultMaxFileBytes defaultMaxPolicies defaultMaxStringBytes defaultMaxConditionValues
    defaultMaxGlobMetacharacters defaultKernelMapCapacity defaultMaxUserSpaceRules.

Definition withDefaults (l : Limits) : Limits :=
  let pick (v d : Z) := if v <=? 0 then d else v in
  mkLimits (pick (MaxFileBytes l) defaultMaxFileBytes)
           (pick (MaxPolicies l) defaultMaxPolicies)
           (pick (MaxStringBytes l) defaultMaxStringBytes)
           (pick (MaxConditionValues l) defaultMaxConditionValues)
           (pick (MaxGlobMetacharacters l) defaultMaxGlobMetacharacters)
           (pick (KernelMapCapacity l) defaultKernelMapCapacity)
           (pick (MaxUserSpaceRules l) defaultMaxUserSpaceRules).

Definition hasGlob (value : string) : bool := ContainsAny value ["*"%char; "?"%char; "["%char].
Definition globMetacharacters (value : string) : Z :=
  count_byte "*"%char value + count_byte "?"%char value + count_byte "["%char value.

Inductive PolicyLimitError :=
| LabelSelectorEntries (got limit : Z)
| ConditionValueCount (got limit : Z)
| ConditionGlobInvalid (value : string)
| ConditionGlobMetacharacters (value : string) (got limit : Z)
| StringBytes (field : string) (got limit : Z).
Inductive LimitError :=
| PolicyCount (got limit : Z)
| PolicyLimit (index : nat) (e : PolicyLimitError).

(** The label selector is a Go map, whose iteration order is unspecified:
    only the field named in the error depends on it. *)
Definition base_strings (p : Policy) : list (string * string) :=
  let s := Policy_Scope p in
  [("id", ID p); ("name", Name p); ("description", Description p);
   ("scope.run_id", Scope_RunID s); ("scope.cgroup_id", Scope_CgroupID s)] ++
  concat (map (fun kv => [("scope.label_selector key", kv.1); ("scope.label_selector value", kv.2)])
              (map_to_list (Scope_LabelSelector s))).

Definition file_strings (c : FileCondition) : list string :=
  ExactPaths c ++ Prefixes c ++ Suffixes c ++ Basenames c.
Definition exec_strings (c : ExecCondition) : list string := Executables c ++ ArgContains c.

(** [conditionStrings], [globPatterns] and [conditionValues] after the three
    [if condition != nil] blocks. *)
Definition condition_values (c : Conditions) : list string * list string * Z :=
  let '(strs, globs, n) :=
    match File c with
    | Some f => (file_strings f, ExactPaths f, len (file_strings f) + len (Access f))
    | None => ([], [], 0)
    end in
  let '(strs, globs, n) :=
    match Exec c with
    | Some e => (strs ++ exec_strings e, globs ++ Executables e, len (strs ++ exec_strings e))
    | None => (strs, globs, n)
    end in
  match Network c with
  | Some w => (strs ++ CIDRs w, globs, len (CIDRs w) + len (Ports w) + len (Families w))
  | None => (strs, globs, n)
  end.

Definition glob_error (l : Limits) (value : string) : option PolicyLimitError :=
  if negb (hasGlob value) then None
  else match Match value "policy-preview-probe" with
       | None => Some (ConditionGlobInvalid value)
       | Some _ =>
           if MaxGlobMetacharacters l <? globMetacharacters value
           then Some (ConditionGlobMetacharacters value (globMetacharacters value) (MaxGlobMetacharacters l))
           else None
       end.
Definition string_error (l : Limits) (item : string * string) : option PolicyLimitError :=
  if MaxStringBytes l <? slen item.2 then Some (StringBytes item.1 (slen item.2) (MaxStringBytes l)) else None.

Definition validatePolicyLimits (p : Policy) (l : Limits) : option PolicyLimitError :=
  let labels := Z.of_nat (size (Scope_LabelSelector (Policy_Scope p))) in
  if MaxConditionValues l <? labels then Some (LabelSelectorEntries labels (MaxConditionValues l))
  else
    let '(strs, globs, n) := condition_values (Policy_Conditions p) in
    if MaxConditionValues l <? n then Some (ConditionValueCount n (MaxConditionValues l))
    else match first_error (glob_error l) globs with
         | Some e => Some e
         | None => first_error (string_error l) (base_strings p ++ map (pair "condition value") strs)
         end.

Fixpoint validate_limits_from (index : nat) (ps : list Policy) (l : Limits) : option LimitError :=
  match ps with
  | [] => None
  | p :: ps' => match validatePolicyLimits p l with
                | Some e => Some (PolicyLimit index e)
                | None => validate_limits_from (S index) ps' l
                end
  end.
Definition validateBundleLimits (b : Bundle) (l : Limits) : option LimitError :=
  if MaxPolicies l <? len (Policies b) then Some (PolicyCount (len (Policies b)) (MaxPolicies l))
  else validate_limits_from 0 (Policies b) l.

(** ** Compile preview *)
Definition ExecutionClass := string.
Definition ExecutionDisabled : ExecutionClass := "disabled".
Definition ExecutionKernel : ExecutionClass := "kernel_eligible".
Definition ExecutionUserSpaceOnly : ExecutionClass := "user_space_only".
Definition ExecutionMixed : ExecutionClass := "mixed".

Record PolicyPreview := mkPolicyPreview {
  Preview_PolicyID : string;
  Preview_Execution : ExecutionClass;
  Preview_RequestedAction : Action;
  Preview_KernelRuleCount : Z;
  Preview_UserSpaceRuleCount : Z;
  Preview_FallbackRequired : bool;
  Preview_Reasons : list string;
}.
Record CompilePreview := mkCompilePreview {
  CompilePreview_Policies : list PolicyPreview;
  CompilePreview_KernelRuleCount : Z;
  CompilePreview_UserSpaceRuleCount : Z;
  CompilePreview_KernelMapCapacity : Z;
  CompilePreview_UserSpaceRuleCapacity : Z;
}.

(** The counters and reasons a condition contributes: kernel rules,
    user-space rules, reasons in the order they are appended. *)
Definition counts := (Z * Z * list string)%type.
Definition exact_path_step (c : counts) (exactPath : string) : counts :=
  let '(k, u, rs) := c in
  if hasGlob exactPath then (k, u + 1, rs ++ ["file_glob_requires_user_space"])
  else if negb (IsAbs exactPath) then (k, u + 1, rs ++ ["relative_file_path_requires_user_space"])
  else (k + 1, u, rs).
Definition group_step (c : counts) (values : list string) (reason : string) : counts :=
  let '(k, u, rs) := c in
  (k, u + len values, if 0 <? len values then rs ++ [reason] else rs).
Definition previewFile (f : FileCondition) : counts :=
  let c0 := foldl exact_path_step (0, 0, []) (ExactPaths f) in
  let c1 := group_step c0 (Prefixes f) "file_prefix_requires_user_space" in
  let c2 := group_step c1 (Suffixes f) "file_suffix_requires_user_space" in
  group_step c2 (Basenames f) "file_basename_requires_user_space".
Definition executable_step (c : counts) (executable : string) : counts :=
  let '(k, u, rs) := c in
  if hasGlob executable then (k, u + 1, rs ++ ["executable_glob_requires_user_space"]) else (k + 1, u, rs).
Definition previewExec (e : ExecCondition) : counts :=
  group_step (foldl executable_step (0, 0, []) (Executables e)) (ArgContains e) "exec_argument_requires_user_space".
Definition previewNetwork (n : NetworkCondition) : counts :=
  let k := len (CIDRs n) + len (Ports n) in
  (if k =? 0 then len (Families n) else k, 0, []).

(** [slices.Compact]. *)
Fixpoint Compact (l : list string) : list string :=
  match l with
  | x :: ((y :: _) as l') => if x == y then Compact l' else x :: Compact l'
  | _ => l
  end.

Definition previewPolicy (p : Policy) : PolicyPreview :=
  if negb (Enabled p) then
    mkPolicyPreview (ID p) ExecutionDisabled (RequestedAction p) 0 0 false ["policy_disabled"]
  else
    let '(k, u, reasons) :=
      match File (Policy_Conditions p), Exec (Policy_Conditions p), Network (Policy_Conditions p) with
      | Some f, _, _ => previewFile f
      | None, Some e, _ => previewExec e
      | None, None, Some n => previewNetwork n
      | None, None, None => (0, 0, [])
      end in
    let execution :=
      if (0 <? k) && (0 <? u) then ExecutionMixed
      else if 0 <? u then ExecutionUserSpaceOnly
      else ExecutionKernel in
    mkPolicyPreview (ID p) execution (RequestedAction p) k u (0 <? u) (Compact (sort_by str_lt reasons)).

Inductive CompileError :=
| BlockRequiresUserSpace (id : string) (reasons : list string)
| KernelRulesExceed (got limit : Z)
| UserSpaceRulesExceed (got limit : Z).
Inductive PreviewError :=
| PreviewLimits (e : LimitError)
| PreviewInvalid (errors : list BundleError)
| PreviewCompileFailed (errors : list CompileError).

Definition block_error (p : Policy) : list CompileError :=
  let pp := previewPolicy p in
  if (RequestedAction p == ActionBlock) && (0 <? Preview_UserSpaceRuleCount pp)
  then [BlockRequiresUserSpace (ID p) (Preview_Reasons pp)] else [].
Definition sumZ (l : list Z) : Z := foldr Z.add 0 l.

Definition PreviewCompile (b : Bundle) (l0 : Limits) : CompilePreview * option PreviewError :=
  let l := withDefaults l0 in
  let empty := mkCompilePreview [] 0 0 (KernelMapCapacity l) (MaxUserSpaceRules l) in
  match validateBundleLimits b l with
  | Some e => (empty, Some (PreviewLimits e))
  | None =>
      match Bundle_Validate b with
      | (_ :: _) as errs => (empty, Some (PreviewInvalid errs))
      | [] =>
          let pps := map previewPolicy (Policies b) in
          let k := sumZ (map Preview_KernelRuleCount pps) in
          let u := sumZ (map Preview_UserSpaceRuleCount pps) in
          let errs := concat (map block_error (Policies b)) ++
                      (if KernelMapCapacity l <? k then [KernelRulesExceed k (KernelMapCapacity l)] else []) ++
                      (if MaxUserSpaceRules l <? u then [UserSpaceRulesExceed u (MaxUserSpaceRules l)] else []) in
          (mkCompilePreview pps k u (KernelMapCapacity l) (MaxUserSpaceRules l),
           match errs with [] => None | _ => Some (PreviewCompileFailed errs) end)
      end
  end.

(** ** What the limits bound *)
Definition glob_ok (l : Limits) (v : string) : Prop :=
  hasGlob v = true -> Match v "policy-preview-probe" <> None /\ globMetacharacters v <= MaxGlobMetacharacters l.
Record within_limits (l : Limits) (p : Policy) : Prop := {
  limit_labels : Z.of_nat (size (Scope_LabelSelector (Policy_Scope p))) <= MaxConditionValues l;
  limit_values : (condition_values (Policy_Conditions p)).2 <= MaxConditionValues l;
  limit_globs : Forall (glob_ok l) (condition_values (Policy_Conditions p)).1.2;
  limit_texts : Forall (fun s => slen s <= MaxStringBytes l)
                  (map snd (base_strings p) ++ (condition_values (Policy_Conditions p)).1.1);
}.

Lemma glob_error_None l v : glob_error l v = None <-> glob_ok l v.
Proof.
  unfold glob_error, glob_ok. destruct (hasGlob v); cbn [negb]; [|done].
  destruct (Match v _).
  - rewrite guard_None, Z.ltb_ge. intuition done.
  - split; [done|]. intros H. by destruct (H eq_refl).
Qed.
Lemma string_error_None l item : string_error l item = None <-> slen item.2 <= MaxStringBytes l.
Proof. unfold string_error. rewrite guard_None, Z.ltb_ge. tauto. Qed.

Lemma validatePolicyLimits_None p l : validatePolicyLimits p l = None <-> within_limits l p.
Proof.
  unfold validatePolicyLimits. destruct (condition_values (Policy_Conditions p)) as [[strs globs] n] eqn:E.
  rewrite !guard_None, !Z.ltb_ge.
  assert (forall A (o r : option A), match o with Some e => Some e | None => r end = None <-> o = None /\ r = None) as ->
    by (intros A [] ?; naive_solver).
  rewrite !first_error_None.
  rewrite (Forall_iff _ globs (glob_ok l)) by apply glob_error_None.
  rewrite (Forall_iff _ (base_strings p ++ _) (fun i => slen i.2 <= MaxStringBytes l)) by apply string_error_None.
  rewrite <-(Forall_map snd (fun s => slen s <= MaxStringBytes l)), map_app, map_map, map_id.
  split; [intros; open_hyps; constructor; by rewrite ?E|]. intros []. by rewrite E in *.
Qed.
Lemma validate_limits_from_None ps l i :
  validate_limits_from i ps l = None <-> Forall (within_limits l) ps.
Proof.
  revert i. induction ps as [|p ps IH]; intros i; cbn; [by split|].
  rewrite case_None, validatePolicyLimits_None, IH, Forall_cons. done.
Qed.
Lemma validateBundleLimits_None b l :
  validateBundleLimits b l = None <-> len (Policies b) <= MaxPolicies l /\ Forall (within_limits l) (Policies b).
Proof. unfold validateBundleLimits. by rewrite guard_None, Z.ltb_ge, validate_limits_from_None. Qed.

Lemma concat_map_nil {A B} (f : A -> list B) (l : list A) :
  concat (map f l) = [] <-> Forall (fun x => f x = []) l.
Proof.
  induction l as [|x l IH]; cbn; [by split|]. by rewrite app_nil, IH, Forall_cons.
Qed.

(** The preview's verdict. *)
Lemma PreviewCompile_None b l0 (l := withDefaults l0) (pv := (PreviewCompile b l0).1) :
  (PreviewCompile b l0).2 = None <->
  len (Policies b) <= MaxPolicies l /\ Forall (within_limits l) (Policies b) /\ wf_bundle b /\
  CompilePreview_KernelRuleCount pv <= KernelMapCapacity l /\
  CompilePreview_UserSpaceRuleCount pv <= MaxUserSpaceRules l /\
  Forall (fun p => RequestedAction p = ActionBlock -> Preview_UserSpaceRuleCount (previewPolicy p) <= 0) (Policies b).
Proof.
  subst pv. unfold PreviewCompile. fold l. cbv zeta.
  pose proof (validateBundleLimits_None b l) as HL. pose proof (Bundle_Validate_nil b) as HV.
  destruct (validateBundleLimits b l); [naive_solver|].
  destruct (Bundle_Validate b); [|naive_solver]. cbn [fst snd CompilePreview_KernelRuleCount CompilePreview_UserSpaceRuleCount].
  trans (concat (map block_error (Policies b)) = [] /\
         sumZ (map Preview_KernelRuleCount (map previewPolicy (Policies b))) <= KernelMapCapacity l /\
         sumZ (map Preview_UserSpaceRuleCount (map previewPolicy (Policies b))) <= MaxUserSpaceRules l).
  - destruct (concat _); cbn [app]; [|naive_solver].
    destruct (Z.ltb_spec (KernelMapCapacity l) (sumZ (map Preview_KernelRuleCount (map previewPolicy (Policies b)))));
    destruct (Z.ltb_spec (MaxUserSpaceRules l) (sumZ (map Preview_UserSpaceRuleCount (map previewPolicy (Policies b)))));
      cbn [app]; (split; [|intuition lia]); done.
  - rewrite concat_map_nil.
    rewrite (Forall_iff _ (Policies b)
      (fun p => RequestedAction p = ActionBlock -> Preview_UserSpaceRuleCount (previewPolicy p) <= 0)); [tauto|].
    intros p. unfold block_error. case_bool_decide; cbn [andb]; [|naive_solver].
    destruct (Z.ltb_spec 0 (Preview_UserSpaceRuleCount (previewPolicy p))); naive_solver lia.
Qed.
