(* ===== verification/Match.v ===== *)
(** * Match results and rule identifiers ([internal/policy/match.go])

    A rule identifier is the 32-bit FNV-1a hash of the policy ID, the rule
    kind and the index; the registry refuses two rules that hash alike.  The
    compilers of the file, exec and network rules all fill a registry in a
    loop: [Registry] proves once what a successful loop gives them. *)
From S2P Require Import Prelude GoStd Netip Schema.
Open Scope Z_scope.

Definition EvidenceSource := string.
Definition EvidenceUserPath : EvidenceSource := "user_path".
Definition EvidenceFileIdentity : EvidenceSource := "file_identity".
Definition EvidenceExecCapture : EvidenceSource := "exec_capture".
Definition EvidenceNetworkTuple : EvidenceSource := "network_tuple".

Definition MatchConfidence := string.
Definition ConfidenceExact : MatchConfidence := "exact".
Definition ConfidenceHeuristic : MatchConfidence := "heuristic".
Definition ConfidenceIncomplete : MatchConfidence := "incomplete".

Record PolicyHit := mkPolicyHit {
  Hit_PolicyID : string;
  Hit_RuleID : Z;
  Hit_RuleKind : string;
  Hit_RequestedAction : Action;
  Hit_EffectiveAction : Action;
  Hit_EvidenceSource : EvidenceSource;
  Hit_Confidence : MatchConfidence;
  Hit_PostEventOnly : bool;
  Hit_ContainmentHint : bool;
  Hit_Enforced : bool;
  Hit_Reasons : list string;
}.

Record EvaluationGap := mkEvaluationGap {
  Gap_PolicyID : string;
  Gap_Code : string;
  Gap_Message : string;
}.

Record MatchResult := mkMatchResult {
  Hits : list PolicyHit;
  Gaps : list EvaluationGap;
}.

(** ** FNV-1a, 32 bits ([hash/fnv.New32a]) *)
Definition fnv_offset32 : Z := 2166136261.
Definition fnv_prime32 : Z := 16777619.
Definition fnv_byte (h b : Z) : Z := wrap32 (Z.lxor h b * fnv_prime32).
Definition fnv32a (bytes : list Z) : Z := foldl fnv_byte fnv_offset32 bytes.

(** [binary.LittleEndian.PutUint32]. *)
Definition le32 (v : Z) : list Z := [v mod 256; v / 256 mod 256; v / 65536 mod 256; v / 16777216 mod 256].

(** ** The registry *)
(** [ruleIDRegistry] is [gmap Z string]. *)
Inductive RegistryError := RuleIDCollision (existing identity : string).

Definition rule_hash (policyID kind : string) (index : Z) : Z :=
  let h := fnv32a (string_bytes policyID ++ [0] ++ string_bytes kind ++ le32 (wrap32 index)) in
  if h =? 0 then 1 else h.
Definition rule_identity (policyID kind : string) (index : Z) : string :=
  policyID +:+ "/" +:+ kind +:+ "/" +:+ FormatUint index.

Definition registry_add (registry : gmap Z string) (policyID kind : string) (index : Z)
  : result RegistryError (gmap Z string * Z) :=
  let ruleID := rule_hash policyID kind index in
  let identity := rule_identity policyID kind index in
  match registry !! ruleID with
  | Some existing =>
      if existing != identity then Err (RuleIDCollision existing identity)
      else Ok (<[ruleID := identity]> registry, ruleID)
  | None => Ok (<[ruleID := identity]> registry, ruleID)
  end.

(** One rule the compilers emit: the policy, the group's kind, and the value
    with its index in the group. *)
Record rule_item := mkItem {
  item_policy : Policy;
  item_kind : string;
  item_index : Z;
  item_value : string;
}.
Definition item_hash (it : rule_item) : Z := rule_hash (ID (item_policy it)) (item_kind it) (item_index it).
Definition item_identity (it : rule_item) : string :=
  rule_identity (ID (item_policy it)) (item_kind it) (item_index it).

(** [for index, value := range group.values]. *)
Definition group_items (p : Policy) (group : string * list string) : list rule_item :=
  imap (fun i v => mkItem p group.1 (Z.of_nat i) v) group.2.

(** ** Lemmas *)
Lemma fnv_fold_range l h : 0 <= h <= u32_max -> 0 <= foldl fnv_byte h l <= u32_max.
Proof.
  revert h. induction l as [|b l IH]; intros h Hh; cbn; [done|].
  apply IH, wrap32_range.
Qed.
Lemma rule_hash_range pid kind i : 1 <= rule_hash pid kind i <= u32_max.
Proof.
  unfold rule_hash, fnv32a.
  pose proof (fnv_fold_range (string_bytes pid ++ [0] ++ string_bytes kind ++ le32 (wrap32 i)) fnv_offset32
    ltac:(unfold fnv_offset32, u32_max; lia)) as H.
  cbv zeta. destruct (Z.eqb_spec (foldl fnv_byte fnv_offset32
    (string_bytes pid ++ [0] ++ string_bytes kind ++ le32 (wrap32 i))) 0); unfold u32_max in *; lia.
Qed.
#[export] Hint Resolve rule_hash_range : agentshield.

(** The last slash-separated piece of an identity is its index and the one
    before it its kind, so an identity determines the rule. *)
Definition no_slash (s : string) : bool := str_forall (fun c => c != slash) s.

Lemma no_slash_app a t : no_slash (a +:+ "/" +:+ t) = false.
Proof. unfold no_slash. rewrite !str_forall_app. apply andb_false_r. Qed.
Lemma split_last_slash a b s t :
  no_slash s = true -> no_slash t = true -> a +:+ "/" +:+ s = b +:+ "/" +:+ t -> a = b /\ s = t.
Proof.
  intros Hs Ht. revert b. induction a as [|c a IH]; intros [|d b] E.
  - by injection E.
  - injection E as _ E. change (s = b +:+ "/" +:+ t) in E. by rewrite E, no_slash_app in Hs.
  - injection E as _ E. change (a +:+ "/" +:+ s = t) in E. by rewrite <-E, no_slash_app in Ht.
  - injection E as -> E. by destruct (IH b E) as [-> ->].
Qed.
Lemma digits_no_slash z : no_slash (FormatUint z) = true.
Proof.
  pose proof (FormatUint_digits z) as H. revert H. unfold no_slash.
  generalize (FormatUint z). intros s. induction s as [|c s IH]; cbn; [done|].
  intros [Hc Hs]%andb_true_iff. rewrite IH by done. rewrite andb_true_r.
  apply negb_true_iff, bool_decide_eq_false. intros ->. by vm_compute in Hc.
Qed.
Lemma rule_identity_inj p1 k1 i1 p2 k2 i2 :
  no_slash k1 = true -> no_slash k2 = true -> 0 <= i1 -> 0 <= i2 ->
  rule_identity p1 k1 i1 = rule_identity p2 k2 i2 -> p1 = p2 /\ k1 = k2 /\ i1 = i2.
Proof.
  unfold rule_identity. intros Hk1 Hk2 Hi1 Hi2 E.
  rewrite (str_app_assoc p1 "/"), (str_app_assoc (p1 +:+ "/")), (str_app_assoc p2 "/"), (str_app_assoc (p2 +:+ "/")) in E.
  apply split_last_slash in E as [E Ei]; [|apply digits_no_slash..].
  rewrite <-!str_app_assoc in E. apply split_last_slash in E as [-> ->]; [|done..].
  by apply FormatUint_inj in Ei as ->.
Qed.

Section Registry.
Context {R : Type} (mk : rule_item -> Z -> R).

(** The body of the rule loops: register, then append the rule. *)
Definition add_rule (st : gmap Z string * list R) (it : rule_item) : result RegistryError (gmap Z string * list R) :=
  '(registry, ruleID) ← registry_add st.1 (ID (item_policy it)) (item_kind it) (item_index it);
  Ok (registry, st.2 ++ [mk it ruleID]).

Definition emit (it : rule_item) : R := mk it (item_hash it).

(** The registry after the items [done]: each hash is bound to the identity
    of an item that has it, and every processed item is bound. *)
Definition registry_ok (done : list rule_item) (registry : gmap Z string) : Prop :=
  (forall h ident, registry !! h = Some ident -> exists it, it ∈ done /\ item_hash it = h /\ item_identity it = ident) /\
  (forall it, it ∈ done -> registry !! item_hash it = Some (item_identity it)).

Lemma add_rule_ok done registry rules it st' :
  registry_ok done registry -> add_rule (registry, rules) it = Ok st' ->
  registry_ok (done ++ [it]) st'.1 /\ st'.2 = rules ++ [emit it].
Proof.
  intros [H1 H2] E. unfold add_rule, registry_add in E. bind_inv E. cbn [fst snd] in E.
  fold (item_hash it) (item_identity it) in E.
  assert (st' = (<[item_hash it := item_identity it]> registry, rules ++ [emit it]) /\
          forall ident, registry !! item_hash it = Some ident -> ident = item_identity it) as [-> Hold].
  { destruct (registry !! item_hash it) as [ex|]; [|naive_solver].
    destruct (decide (ex = item_identity it)); [|by rewrite bool_decide_eq_false_2 in E].
    rewrite bool_decide_eq_true_2 in E by done. naive_solver. }
  split; [|done]. split; cbn.
  - intros h ident. rewrite lookup_insert_Some. intros [[<- <-]|[Hne Hl]]; [exists it; set_solver|].
    destruct (H1 _ _ Hl) as (it' & ? & ?). exists it'. set_solver.
  - intros it' [Hit'| ->%list_elem_of_singleton]%elem_of_app; [|by rewrite lookup_insert_eq].
    rewrite lookup_insert. case_decide as Eh; [|by apply H2].
    symmetry. f_equal. apply Hold. rewrite Eh. by apply H2.
Qed.

Lemma foldM_add_rule items : forall done registry rules st',
  registry_ok done registry -> foldM add_rule (registry, rules) items = Ok st' ->
  registry_ok (done ++ items) st'.1 /\ st'.2 = rules ++ map emit items.
Proof.
  induction items as [|it items IH]; intros done registry rules st' Hok E; cbn in E.
  { simplify_eq. by rewrite !app_nil_r. }
  unfold mbind, result_bind in E. destruct (add_rule _ it) as [[reg1 rules1]|] eqn:E1; [|done].
  apply (add_rule_ok done) in E1 as [Hok1 Hr1]; [|done]. cbn in *. subst.
  destruct (IH _ _ _ _ Hok1 E) as [? ->]. by rewrite <-!app_assoc in *.
Qed.

Lemma registry_ok_empty : registry_ok [] ∅.
Proof. split; [|set_solver]. intros ? ?. by rewrite lookup_empty. Qed.

(** A successful loop registered every item, and its rule identifiers are as
    distinct as the items' identities. *)
Lemma compiled_rules items st' :
  foldM add_rule (∅, []) items = Ok st' ->
  st'.2 = map emit items /\
  (NoDup (map item_identity items) -> NoDup (map item_hash items)).
Proof.
  intros E. destruct (foldM_add_rule items [] ∅ [] st' registry_ok_empty E) as [[_ H2] ->].
  split; [done|]. intros Hnd.
  assert (forall x y, x ∈ items -> y ∈ items -> item_hash x = item_hash y -> item_identity x = item_identity y) as Hinj.
  { intros x y Hx Hy Eh. pose proof (H2 x Hx) as Lx. pose proof (H2 y Hy) as Ly. rewrite Eh in Lx. congruence. }
  clear -Hnd Hinj. induction items as [|x items IH]; cbn in *; [constructor|].
  apply NoDup_cons in Hnd as [Hx Hnd]. constructor; [|apply IH; [done|set_solver]].
  intros (y & Ey & Hy)%list_elem_of_fmap. apply Hx. rewrite (Hinj x y) by set_solver.
  by apply list_elem_of_fmap_2.
Qed.

(** Conversely the loop fails only when two rules with different identities
    hash alike. *)
Lemma compile_succeeds items :
  (forall x y, x ∈ items -> y ∈ items -> item_hash x = item_hash y -> item_identity x = item_identity y) ->
  exists registry, foldM add_rule (∅, []) items = Ok (registry, map emit items).
Proof.
  intros Hinj.
  enough (forall todo done registry rules, done ++ todo = items -> registry_ok done registry ->
    exists registry', foldM add_rule (registry, rules) todo = Ok (registry', rules ++ map emit todo)) as H.
  { exact (H items [] ∅ [] eq_refl registry_ok_empty). }
  induction todo as [|it todo IH]; intros done registry rules Ed Hok; cbn.
  { exists registry. by rewrite app_nil_r. }
  assert (add_rule (registry, rules) it = Ok (<[item_hash it := item_identity it]> registry, rules ++ [emit it])) as E1.
  { unfold add_rule, registry_add. cbn [fst snd]. fold (item_hash it) (item_identity it).
    destruct (registry !! item_hash it) as [ex|] eqn:El; [|done].
    apply Hok in El as (it' & Hin & Eh & <-). rewrite (Hinj it' it) by (subst; set_solver).
    by rewrite bool_decide_eq_true_2. }
  rewrite E1. cbn. pose proof (add_rule_ok done _ _ _ _ Hok E1) as [Hok1 _].
  destruct (IH (done ++ [it]) _ (rules ++ [emit it]) ltac:(by rewrite <-app_assoc) Hok1) as [reg' E2].
  exists reg'. cbn in E2. rewrite E2. by rewrite <-app_assoc.
Qed.
End Registry.

Definition lift_registry {E A} (wrap : RegistryError -> E) (r : result RegistryError A) : result E A :=
  match r with Ok a => Ok a | Err e => Err (wrap e) end.

(** The policy loop the three compilers share: skip or reject the policy,
    otherwise run the rule loop over its items. *)
Section Compile.
Context {R Er : Type} (mk : rule_item -> Z -> R) (wrap : RegistryError -> Er).
Context (reject : Policy -> option Er) (groups : Policy -> list (string * list string)).

Definition policy_items (p : Policy) : list rule_item := concat (map (group_items p) (groups p)).
Definition compile_step (st : gmap Z string * list R) (p : Policy) : result Er (gmap Z string * list R) :=
  match reject p with
  | Some e => Err e
  | None => lift_registry wrap (foldM (add_rule mk) st (policy_items p))
  end.

Lemma foldM_compile_step ps : forall st st',
  foldM compile_step st ps = Ok st' <->
  Forall (fun p => reject p = None) ps /\ foldM (add_rule mk) st (concat (map policy_items ps)) = Ok st'.
Proof.
  induction ps as [|p ps IH]; intros st st'; simpl; [rewrite Forall_nil; split; [by intros [= ->]|by intros [_ [= ->]]]|].
  rewrite Forall_cons, foldM_app. unfold mbind, result_bind.
  assert (compile_step st p = match reject p with Some e => Err e | None => lift_registry wrap (foldM (add_rule mk) st (policy_items p)) end) as -> by done.
  destruct (reject p); [intuition congruence|].
  destruct (foldM (add_rule mk) st (policy_items p)); simpl; [|intuition congruence].
  rewrite IH. tauto.
Qed.

Lemma group_items_identity p g it :
  it ∈ group_items p g -> exists i : nat, item_identity it = rule_identity (ID p) g.1 (Z.of_nat i).
Proof. intros (i & v & -> & _)%elem_of_lookup_imap. by exists i. Qed.

Lemma group_items_nodup p g : no_slash g.1 = true -> NoDup (map item_identity (group_items p g)).
Proof.
  intros Hg. change (NoDup (item_identity <$> imap (fun i v => mkItem p g.1 (Z.of_nat i) v) g.2)).
  rewrite fmap_imap.
  apply NoDup_alt. intros i j x. rewrite !list_lookup_imap, !fmap_Some. cbn.
  intros (v & _ & ->) (w & _ & E). unfold item_identity in E; cbn in E.
  apply rule_identity_inj in E; [lia|done|done|lia|lia].
Qed.

Context (kinds_ok : forall p, NoDup (map fst (groups p)) /\ Forall (fun g => no_slash g.1 = true) (groups p)).

Lemma policy_items_identity p x :
  x ∈ map item_identity (policy_items p) ->
  exists g (i : nat), g ∈ groups p /\ no_slash g.1 = true /\ x = rule_identity (ID p) g.1 (Z.of_nat i).
Proof.
  unfold policy_items. intros (it & -> & (g & Hg & Hit)%elem_of_concat_map)%list_elem_of_fmap.
  destruct (group_items_identity _ _ _ Hit) as [i ->]. destruct (kinds_ok p) as [_ Hk].
  exists g, i. split_and!; [done| |done]. by eapply Forall_forall in Hk.
Qed.

Lemma policy_items_nodup p : NoDup (map item_identity (policy_items p)).
Proof.
  destruct (kinds_ok p) as [Hnd Hk]. unfold policy_items. rewrite concat_map, map_map.
  apply (NoDup_concat_map _ fst); [done|intros g Hg; apply group_items_nodup; by eapply Forall_forall in Hk|].
  intros g h x Hg Hh (a & -> & Ha)%list_elem_of_fmap (b & E & Hb)%list_elem_of_fmap.
  destruct (group_items_identity _ _ _ Ha) as [i Ei], (group_items_identity _ _ _ Hb) as [j Ej].
  rewrite Ei, Ej in E. rewrite Forall_forall in Hk. apply rule_identity_inj in E; naive_solver lia.
Qed.

Lemma bundle_items_nodup ps :
  NoDup (map ID ps) -> NoDup (map item_identity (concat (map policy_items ps))).
Proof.
  intros Hnd. rewrite concat_map, map_map. apply (NoDup_concat_map _ ID); [done|intros p _; apply policy_items_nodup|].
  intros p q x _ _ (g & i & _ & Hg & ->)%policy_items_identity (h & j & _ & Hh & E)%policy_items_identity.
  apply rule_identity_inj in E; naive_solver lia.
Qed.

(** A compiler's output: one rule per item in bundle order, with its hash as
    identifier, and no identifier used twice when the policy IDs are unique. *)
Lemma compile_output ps st' :
  foldM compile_step (∅, []) ps = Ok st' ->
  Forall (fun p => reject p = None) ps /\
  st'.2 = map (emit mk) (concat (map policy_items ps)) /\
  (NoDup (map ID ps) -> NoDup (map item_hash (concat (map policy_items ps)))).
Proof.
  rewrite foldM_compile_step. intros [Hr Hf]. apply compiled_rules in Hf as [Hs Hn].
  split_and!; [done|done|]. intros Hnd. by apply Hn, bundle_items_nodup.
Qed.

(** A compiler succeeds exactly when it rejects no policy and no two of the
    rules hash alike. *)
Lemma compile_returns ps :
  NoDup (map ID ps) ->
  (exists st', foldM compile_step (∅, []) ps = Ok st') <->
  Forall (fun p => reject p = None) ps /\
  (forall x y, x ∈ concat (map policy_items ps) -> y ∈ concat (map policy_items ps) ->
     item_hash x = item_hash y -> item_identity x = item_identity y).
Proof.
  intros Hnd. split.
  - intros [st' E]. apply compile_output in E as (Hr & _ & Hn). split; [done|]. intros x y Hx Hy Eh.
    by rewrite (nodup_map_inj item_hash _ x y (Hn Hnd) Hx Hy Eh).
  - intros [Hr Hinj]. destruct (compile_succeeds mk _ Hinj) as [registry E]. eexists. by apply foldM_compile_step.
Qed.
End Compile.
