(* ===== verification/FileMatch.v ===== *)
(** * File rules ([internal/policy/file_match.go])

    Compilation of the file conditions of a bundle to rules, and their
    evaluation on one file observation. *)
From S2P Require Import Prelude GoStd Glob Netip Schema Limits Match.
Open Scope Z_scope.

Record FileIdentity := mkFileIdentity { Device : Z; Inode : Z; MountID : Z }.

Record FileObservation := mkFileObservation {
  UserPath : string;
  UserPathTruncated : bool;
  ResolvedPath : string;
  ResolvedPathTruncated : bool;
  Identity : option FileIdentity;
  Observed_Access : FileAccess;
}.

Record compiledFileRule := mkFileRule {
  frule_policy : Policy;
  frule_id : Z;
  frule_kind : string;
  frule_value : string;
  frule_access : list FileAccess;
}.

Record fileCandidate := mkCandidate {
  cand_value : string;
  cand_source : EvidenceSource;
  cand_confidence : MatchConfidence;
  cand_truncated : bool;
  cand_reasons : list string;
}.

Inductive FileError :=
| FilePathRequired
| FileIdentityRequired
| FileInodeZero
| FileObservationAccess (a : FileAccess)
| FileBundleInvalid (errors : list BundleError)
| FileActionUnsupported (id : string) (a : Action)
| FileRegistry (e : RegistryError).

Definition validateFileObservation (o : FileObservation) : option FileError :=
  if (UserPath o == "") && (ResolvedPath o == "") then Some FilePathRequired
  else if (ResolvedPath o != "") && bool_decide (Identity o = None) then Some FileIdentityRequired
  else if match Identity o with Some i => Inode i =? 0 | None => false end then Some FileInodeZero
  else if (Observed_Access o != FileRead) && (Observed_Access o != FileWrite) && (Observed_Access o != FileExecute)
       then Some (FileObservationAccess (Observed_Access o))
  else None.

(** ** Compilation *)
Definition file_groups (c : FileCondition) : list (string * list string) :=
  [("file_exact", ExactPaths c); ("file_prefix", Prefixes c);
   ("file_suffix", Suffixes c); ("file_basename", Basenames c)].

Definition file_access (p : Policy) : list FileAccess :=
  match File (Policy_Conditions p) with Some c => Access c | None => [] end.
Definition file_rule (it : rule_item) (id : Z) : compiledFileRule :=
  mkFileRule (item_policy it) id (item_kind it) (item_value it) (file_access (item_policy it)).

Definition compile_file_policy (st : gmap Z string * list compiledFileRule) (p : Policy)
  : result FileError (gmap Z string * list compiledFileRule) :=
  match File (Policy_Conditions p) with
  | None => Ok st
  | Some c =>
      if negb (Enabled p) then Ok st
      else if (RequestedAction p != ActionAudit) && (RequestedAction p != ActionAlert)
           then Err (FileActionUnsupported (ID p) (RequestedAction p))
      else lift_registry FileRegistry
             (foldM (fun st group => foldM (add_rule file_rule) st (group_items p group)) st (file_groups c))
  end.

Definition compileFileRules (b : Bundle) : result FileError (list compiledFileRule) :=
  '(_, rules) ← foldM compile_file_policy (∅, []) (Policies b); Ok rules.

(** ** Matching *)
Definition resolved_candidate (o : FileObservation) : list fileCandidate :=
  if ResolvedPath o == "" then []
  else [mkCandidate (ResolvedPath o) EvidenceFileIdentity
          (if ResolvedPathTruncated o then ConfidenceIncomplete else ConfidenceExact)
          (ResolvedPathTruncated o)
          (if ResolvedPathTruncated o then ["resolved_path_truncated"] else [])].
Definition user_candidate (o : FileObservation) : list fileCandidate :=
  if UserPath o == "" then []
  else [mkCandidate (UserPath o) EvidenceUserPath
          (if UserPathTruncated o then ConfidenceIncomplete else ConfidenceHeuristic)
          (UserPathTruncated o)
          (["user_path_is_not_file_identity"] ++
           (if IsAbs (UserPath o) then [] else ["relative_user_path"]) ++
           (if UserPathTruncated o then ["user_path_truncated"] else []))].

(** The candidates and the gaps [fileCandidates] appends to the result. *)
Definition fileCandidates (o : FileObservation) : list fileCandidate * list EvaluationGap :=
  (resolved_candidate o ++ user_candidate o,
   (if (ResolvedPath o != "") && ResolvedPathTruncated o
    then [mkEvaluationGap "" "resolved_path_truncated" "resolved file path is incomplete"] else []) ++
   (if (UserPath o != "") && negb (IsAbs (UserPath o))
    then [mkEvaluationGap "" "relative_user_path" "relative path was not resolved against a trusted directory"] else []) ++
   (if (UserPath o != "") && UserPathTruncated o
    then [mkEvaluationGap "" "user_path_truncated" "user pathname capture is incomplete"] else [])).

Definition matched (m : option bool) : bool := default false m.

Definition fileRuleMatches (r : compiledFileRule) (c : fileCandidate) : bool :=
  if frule_kind r == "file_exact" then
    if cand_truncated c then false
    else if hasGlob (frule_value r) then matched (Match (frule_value r) (cand_value c))
    else cand_value c == frule_value r
  else if frule_kind r == "file_prefix" then HasPrefix (cand_value c) (frule_value r)
  else if frule_kind r == "file_suffix" then negb (cand_truncated c) && HasSuffix (cand_value c) (frule_value r)
  else if frule_kind r == "file_basename" then negb (cand_truncated c) && (Base (cand_value c) == frule_value r)
  else false.

Definition file_hit (o : FileObservation) (r : compiledFileRule) (c : fileCandidate) : PolicyHit :=
  mkPolicyHit (ID (frule_policy r)) (frule_id r) (frule_kind r)
    (RequestedAction (frule_policy r)) (RequestedAction (frule_policy r))
    (cand_source c) (cand_confidence c) true false false
    (cand_reasons c ++
     (if (ResolvedPath o != "") && (UserPath o != "") && (ResolvedPath o != UserPath o)
      then ["symlink_or_namespace_path_resolved"] else [])).

(** One iteration of the rule loop; the state is [seen] and [result.Hits].
    The candidate loop stops at the first candidate that matches, whether or
    not the rule was seen before. *)
Definition match_file_rule (o : FileObservation) (candidates : list fileCandidate)
    (st : list Z * list PolicyHit) (r : compiledFileRule) : list Z * list PolicyHit :=
  if negb (bool_decide (Observed_Access o ∈ frule_access r)) then st
  else match List.find (fileRuleMatches r) candidates with
       | None => st
       | Some c => if bool_decide (frule_id r ∈ st.1) then st
                   else (frule_id r :: st.1, st.2 ++ [file_hit o r c])
       end.
Definition matchFileRules (rules : list compiledFileRule) (o : FileObservation) : MatchResult :=
  let '(candidates, gaps) := fileCandidates o in
  mkMatchResult (foldl (match_file_rule o candidates) ([], []) rules).2 gaps.

Definition MatchFile (b : Bundle) (o : FileObservation) : result FileError MatchResult :=
  match Bundle_Validate b with
  | (_ :: _) as errs => Err (FileBundleInvalid errs)
  | [] => match validateFileObservation o with
          | Some e => Err e
          | None => rules ← compileFileRules b; Ok (matchFileRules rules o)
          end
  end.

(** ** Lemmas *)
Definition file_select (p : Policy) : list (string * list string) :=
  match File (Policy_Conditions p) with
  | Some c => if Enabled p then file_groups c else []
  | None => []
  end.
Definition file_reject (p : Policy) : option FileError :=
  match File (Policy_Conditions p) with
  | Some c => if negb (Enabled p) then None
              else if (RequestedAction p != ActionAudit) && (RequestedAction p != ActionAlert)
                   then Some (FileActionUnsupported (ID p) (RequestedAction p)) else None
  | None => None
  end.

Lemma compile_file_policy_eq st p :
  compile_file_policy st p = compile_step file_rule FileRegistry file_reject file_select st p.
Proof.
  unfold compile_file_policy, compile_step, file_reject, policy_items, file_select.
  destruct (File _); [|by destruct st]. destruct (Enabled p); cbn [negb]; [|by destruct st].
  destruct (_ && _); [done|]. by rewrite foldM_concat.
Qed.
Lemma file_kinds_ok p : NoDup (map fst (file_select p)) /\ Forall (fun g => no_slash g.1 = true) (file_select p).
Proof.
  unfold file_select. destruct (File _); [|split; constructor]. destruct (Enabled p); [|split; constructor].
  split; [cbn; compute_done|repeat constructor].
Qed.

Lemma compileFileRules_output b rules :
  compileFileRules b = Ok rules ->
  Forall (fun p => file_reject p = None) (Policies b) /\
  rules = map (emit file_rule) (concat (map (policy_items file_select) (Policies b))) /\
  (NoDup (map ID (Policies b)) -> NoDup (map frule_id rules)).
Proof.
  unfold compileFileRules. rewrite (foldM_ext _ _ _ compile_file_policy_eq). intros E. bind_inv E.
  destruct (foldM _ _ _) as [[reg rs]|] eqn:Ef; [|done]. injection E as <-.
  apply compile_output in Ef as (Hr & Hs & Hn); [|apply file_kinds_ok]. cbn in Hs; subst rs.
  split_and!; [done|done|]. intros Hnd. rewrite map_map. by apply Hn.
Qed.

(** The hit of one rule when rule identifiers are unique. *)
Definition file_outcome (o : FileObservation) (candidates : list fileCandidate) (r : compiledFileRule) : option PolicyHit :=
  if bool_decide (Observed_Access o ∈ frule_access r)
  then file_hit o r <$> List.find (fileRuleMatches r) candidates else None.

Lemma match_file_rules_fold o cs rules : forall seen hits,
  NoDup (map frule_id rules) -> (forall r, r ∈ rules -> frule_id r ∉ seen) ->
  (foldl (match_file_rule o cs) (seen, hits) rules).2 = hits ++ omap (file_outcome o cs) rules.
Proof.
  induction rules as [|r rules IH]; intros seen hits Hnd Hseen; cbn [foldl]; [by rewrite app_nil_r|].
  cbn [map] in Hnd. apply NoDup_cons in Hnd as [Hr Hnd].
  assert (forall x, x ∈ rules -> frule_id x ∉ frule_id r :: seen) as Hseen'.
  { intros x Hx. rewrite not_elem_of_cons. split; [|apply Hseen; by right].
    intros E. apply Hr. rewrite <-E. by apply list_elem_of_fmap_2. }
  unfold match_file_rule at 2. cbn [fst snd omap list_omap]. unfold file_outcome at 1.
  case_bool_decide; cbn [negb]; [|apply IH; [done|]; intros; apply Hseen; by right].
  destruct (List.find _ cs); cbn; [|apply IH; [done|]; intros; apply Hseen; by right].
  rewrite bool_decide_eq_false_2 by (apply Hseen; by left).
  rewrite IH by done. by rewrite <-app_assoc.
Qed.
Lemma matchFileRules_hits rules o :
  NoDup (map frule_id rules) ->
  Hits (matchFileRules rules o) = omap (file_outcome o (fileCandidates o).1) rules.
Proof. intros Hnd. unfold matchFileRules; cbn. apply match_file_rules_fold; [done|set_solver]. Qed.

(** *** What the rules mean
    A path the observation shows: the source that shows it, the captured text
    and whether the capture was cut. *)
Inductive observed_path (o : FileObservation) : EvidenceSource -> string -> bool -> Prop :=
| observed_resolved : ResolvedPath o <> "" -> observed_path o "file_identity" (ResolvedPath o) (ResolvedPathTruncated o)
| observed_user : UserPath o <> "" -> observed_path o "user_path" (UserPath o) (UserPathTruncated o).
(** What a rule of each kind selects of a captured path. *)
Inductive file_selects : string -> string -> string -> bool -> Prop :=
| selects_exact v : hasGlob v = false -> file_selects "file_exact" v v false
| selects_glob v path : hasGlob v = true -> Match v path = Some true -> file_selects "file_exact" v path false
| selects_prefix v rest cut : file_selects "file_prefix" v (v +:+ rest) cut
| selects_suffix v front : file_selects "file_suffix" v (front +:+ v) false
| selects_basename path : file_selects "file_basename" (Base path) path false.
(** The confidence a captured path gives. *)
Inductive path_confidence : EvidenceSource -> bool -> MatchConfidence -> Prop :=
| confidence_cut source : path_confidence source true "incomplete"
| confidence_identity : path_confidence "file_identity" false "exact"
| confidence_user : path_confidence "user_path" false "heuristic".
(** An observation the matcher accepts. *)
Record file_observation_ok (o : FileObservation) : Prop := {
  foo_path : UserPath o <> "" \/ ResolvedPath o <> "";
  foo_identity : ResolvedPath o <> "" -> Identity o <> None;
  foo_inode : forall i, Identity o = Some i -> Inode i <> 0;
  foo_access : Observed_Access o ∈ [FileRead; FileWrite; FileExecute];
}.

(** The rules a bundle asks for: one for each entry of the four lists of a
    file condition. *)
Inductive file_value (c : FileCondition) : string -> nat -> string -> Prop :=
| value_exact i v : ExactPaths c !! i = Some v -> file_value c "file_exact" i v
| value_prefix i v : Prefixes c !! i = Some v -> file_value c "file_prefix" i v
| value_suffix i v : Suffixes c !! i = Some v -> file_value c "file_suffix" i v
| value_basename i v : Basenames c !! i = Some v -> file_value c "file_basename" i v.
Record file_rule_at (b : Bundle) (p : Policy) (c : FileCondition) (kind : string) (i : nat) (value : string) : Prop := {
  frat_policy : p ∈ Policies b;
  frat_enabled : Enabled p = true;
  frat_condition : File (Policy_Conditions p) = Some c;
  frat_value : file_value c kind i value;
}.
(** No two rules of the bundle have the same 32-bit identifier. *)
Definition file_rules_distinct (b : Bundle) : Prop :=
  forall p c kind i v p' c' kind' i' v', file_rule_at b p c kind i v -> file_rule_at b p' c' kind' i' v' ->
    rule_hash (ID p) kind (Z.of_nat i) = rule_hash (ID p') kind' (Z.of_nat i') -> ID p = ID p' /\ kind = kind' /\ i = i'.

Lemma validateFileObservation_ok o : validateFileObservation o = None <-> file_observation_ok o.
Proof.
  unfold validateFileObservation. rewrite !guard_None, !andb_false_iff, !negb_false_iff, !bool_decide_eq_false, !bool_decide_eq_true.
  split.
  - intros (H1 & H2 & H3 & H4 & _). constructor; [tauto|tauto| |rewrite !elem_of_cons; tauto].
    intros i E. rewrite E in H3. by apply Z.eqb_neq.
  - intros [H1 H2 H3 H4]. rewrite !elem_of_cons in H4. split_and!; [tauto| | |set_solver|done].
    + destruct (decide (ResolvedPath o = "")); tauto.
    + destruct (Identity o) as [i|]; [|done]. by apply Z.eqb_neq, H3.
Qed.
Lemma matched_true m : matched m = true <-> m = Some true.
Proof. destruct m as [[]|]; by vm_compute. Qed.

Lemma fileRuleMatches_selects r c :
  fileRuleMatches r c = true <-> file_selects (frule_kind r) (frule_value r) (cand_value c) (cand_truncated c).
Proof.
  unfold fileRuleMatches. split.
  - case_bool_decide as E; [|case_bool_decide as E2; [|case_bool_decide as E3; [|case_bool_decide as E4; [|done]]]].
    + rewrite E. destruct (cand_truncated c) eqn:Et; [done|]. destruct (hasGlob _) eqn:Eg.
      * intros ?%matched_true. by apply selects_glob.
      * intros ->%bool_decide_eq_true. by apply selects_exact.
    + rewrite E2, HasPrefix_app. intros [rest ->]. by eapply selects_prefix.
    + rewrite E3. intros [->%negb_true_iff Hs]%andb_true_iff. apply HasSuffix_app in Hs as [f ->]. by eapply selects_suffix.
    + rewrite E4. intros [->%negb_true_iff <-%bool_decide_eq_true]%andb_true_iff. by apply selects_basename.
  - inversion 1 as [v Hg Hk Hv Hc Ht|v path Hg Hm Hk Hv Hc Ht|v rest cut Hk Hv Hc Ht|v f Hk Hv Hc Ht|path Hk Hv Hc Ht]; subst; go_consts.
    + rewrite Hg. by apply bool_decide_eq_true.
    + rewrite Hg, Hm. done.
    + apply HasPrefix_app. eauto.
    + apply HasSuffix_app. eauto.
    + by apply bool_decide_eq_true.
Qed.
(** The code's candidates are the observed paths, the resolved one first. *)
Lemma fileCandidates_observed o cand :
  cand ∈ (fileCandidates o).1 -> observed_path o (cand_source cand) (cand_value cand) (cand_truncated cand) /\
    path_confidence (cand_source cand) (cand_truncated cand) (cand_confidence cand).
Proof.
  cbn [fileCandidates fst]. unfold resolved_candidate, user_candidate. rewrite elem_of_app.
  destruct (bool_decide_reflect (ResolvedPath o = "")) as [Er|Er], (bool_decide_reflect (UserPath o = "")) as [Eu|Eu];
    rewrite ?elem_of_nil, ?list_elem_of_singleton; (intros [Hc|Hc]; [try done|try done]); subst cand;
    cbn [cand_source cand_value cand_truncated cand_confidence];
    (split; [first [by apply (observed_resolved o)|by apply (observed_user o)]|]);
    match goal with |- context [if ?cut then _ else _] => destruct cut end;
    first [exact (confidence_cut _)|exact confidence_identity|exact confidence_user].
Qed.
Lemma observed_fileCandidates o source path cut :
  observed_path o source path cut ->
  exists cand, cand ∈ (fileCandidates o).1 /\ cand_source cand = source /\ cand_value cand = path /\ cand_truncated cand = cut.
Proof.
  cbn [fileCandidates fst]. unfold resolved_candidate, user_candidate. intros [Hr|Hu].
  - rewrite bool_decide_eq_false_2 by done. eexists. split; [apply elem_of_app; left; left|done].
  - rewrite (bool_decide_eq_false_2 _ Hu). eexists. split; [apply elem_of_app; right; left|done].
Qed.
Lemma find_file_candidate o r cand :
  List.find (fileRuleMatches r) (fileCandidates o).1 = Some cand -> cand_source cand = "user_path" ->
  forall path cut, observed_path o "file_identity" path cut -> ~ file_selects (frule_kind r) (frule_value r) path cut.
Proof.
  cbn [fileCandidates fst]. unfold resolved_candidate, user_candidate. intros Hf Hs path cut Ho Hsel. inversion Ho as [Hr|]; subst path cut.
  rewrite (bool_decide_eq_false_2 _ Hr) in Hf. cbn [app List.find] in Hf.
  rewrite (proj2 (fileRuleMatches_selects r _)) in Hf by exact Hsel. injection Hf as <-. by cbn in Hs.
Qed.

Lemma file_value_groups c kind i v : file_value c kind i v <-> exists values, (kind, values) ∈ file_groups c /\ values !! i = Some v.
Proof.
  unfold file_groups. split.
  - intros []; eexists; (split; [|done]); set_solver.
  - intros (values & Hg & Hv). rewrite !elem_of_cons in Hg.
    destruct Hg as [E|[E|[E|[E|[]%elem_of_nil]]]]; injection E as -> ->; by constructor.
Qed.
Lemma file_item_at b it :
  it ∈ concat (map (policy_items file_select) (Policies b)) <->
  exists p c kind i value, file_rule_at b p c kind i value /\ it = mkItem p kind (Z.of_nat i) value.
Proof.
  rewrite elem_of_concat_map. split.
  - intros (p & Hp & Hit). unfold policy_items, file_select in Hit.
    destruct (File (Policy_Conditions p)) as [c|] eqn:Ec; [|by apply elem_of_nil in Hit].
    destruct (Enabled p) eqn:Ee; [|by apply elem_of_nil in Hit].
    apply elem_of_concat_map in Hit as ([kind values] & Hg & Hit).
    apply elem_of_lookup_imap in Hit as (i & v & -> & Hv).
    exists p, c, kind, i, v. split; [|done]. constructor; [done..|]. apply file_value_groups. eauto.
  - intros (p & c & kind & i & v & [Hp He Hc (values & Hg & Hv)%file_value_groups] & ->). exists p. split; [done|].
    unfold policy_items, file_select. rewrite Hc, He. apply elem_of_concat_map. exists (kind, values).
    split; [done|]. by apply (elem_of_lookup_imap_2 (fun i v => mkItem p kind (Z.of_nat i) v)).
Qed.
Lemma file_reject_None p :
  file_reject p = None <-> (Enabled p = true -> File (Policy_Conditions p) <> None -> RequestedAction p ∈ [ActionAudit; ActionAlert]).
Proof.
  unfold file_reject. destruct (File (Policy_Conditions p)) as [c|]; [|naive_solver]. destruct (Enabled p); cbn [negb]; [|naive_solver].
  rewrite guard_None, andb_false_iff, !negb_false_iff, !bool_decide_eq_true, !elem_of_cons, elem_of_nil. naive_solver.
Qed.
Lemma compileFileRules_returns b :
  NoDup (map ID (Policies b)) ->
  (exists rules, compileFileRules b = Ok rules) <->
  (forall p, p ∈ Policies b -> Enabled p = true -> File (Policy_Conditions p) <> None -> RequestedAction p ∈ [ActionAudit; ActionAlert]) /\
  file_rules_distinct b.
Proof.
  intros Hnd. trans (exists st', foldM (compile_step file_rule FileRegistry file_reject file_select) (∅, []) (Policies b) = Ok st').
  { unfold compileFileRules. rewrite (foldM_ext _ _ _ compile_file_policy_eq). unfold mbind, result_bind.
    destruct (foldM _ _ _) as [[reg rs]|]; naive_solver. }
  rewrite compile_returns by (done || apply file_kinds_ok). rewrite Forall_forall. setoid_rewrite file_reject_None. split.
  - intros [Ha Hi]. split; [done|]. intros p c kind i v p' c' kind' i' v' H1 H2 Eh.
    assert (forall p c kind i v, file_rule_at b p c kind i v -> no_slash kind = true) as Hns by (intros ????? [_ _ _ []]; done).
    specialize (Hi (mkItem p kind (Z.of_nat i) v) (mkItem p' kind' (Z.of_nat i') v')).
    destruct (rule_identity_inj (ID p) kind (Z.of_nat i) (ID p') kind' (Z.of_nat i')) as (E1 & E2 & E3);
      [by eapply Hns|by eapply Hns|lia|lia|apply Hi; [apply file_item_at; naive_solver..|done]|]. split_and!; [done|done|lia].
  - intros [Ha Hi]. split; [done|]. intros x y (p & c & kind & i & v & H1 & ->)%file_item_at (p' & c' & kind' & i' & v' & H2 & ->)%file_item_at Eh.
    destruct (Hi _ _ _ _ _ _ _ _ _ _ H1 H2 Eh) as (E1 & -> & ->). unfold item_identity. cbn. by rewrite E1.
Qed.

Lemma MatchFile_inv b o res :
  MatchFile b o = Ok res ->
  exists rules, wf_bundle b /\ validateFileObservation o = None /\ compileFileRules b = Ok rules /\
    res = matchFileRules rules o.
Proof.
  unfold MatchFile. intros E. pose proof (Bundle_Validate_nil b) as Hv.
  destruct (Bundle_Validate b); [|done]. destruct (validateFileObservation o); [done|]. bind_inv E.
  destruct (compileFileRules b) as [rules|]; [|done]. exists rules. naive_solver.
Qed.

Lemma file_outcome_Some o cs r hit :
  file_outcome o cs r = Some hit <->
  Observed_Access o ∈ frule_access r /\ exists c, List.find (fileRuleMatches r) cs = Some c /\ hit = file_hit o r c.
Proof.
  unfold file_outcome. case_bool_decide; [|naive_solver]. rewrite fmap_Some. naive_solver.
Qed.

(** Every hit of a successful match comes from a rule of the bundle. *)
Lemma file_hit_origin b o rules hit :
  compileFileRules b = Ok rules -> NoDup (map frule_id rules) -> hit ∈ Hits (matchFileRules rules o) ->
  exists p c kind i value cand,
    file_rule_at b p c kind i value /\ Observed_Access o ∈ Access c /\
    List.find (fileRuleMatches (file_rule (mkItem p kind (Z.of_nat i) value) (rule_hash (ID p) kind (Z.of_nat i))))
      (fileCandidates o).1 = Some cand /\
    hit = file_hit o (file_rule (mkItem p kind (Z.of_nat i) value) (rule_hash (ID p) kind (Z.of_nat i))) cand.
Proof.
  intros Ec Hnd. rewrite matchFileRules_hits by done. apply compileFileRules_output in Ec as (_ & -> & _).
  intros (r & (it & -> & Hit)%list_elem_of_fmap & Ho)%list_elem_of_omap.
  apply file_item_at in Hit as (p & c & kind & i & v & Hat & ->).
  apply file_outcome_Some in Ho as (Ha & cand & Hf & ->).
  exists p, c, kind, i, v, cand. split_and!; [done| |done|done].
  cbn in Ha. unfold file_access in Ha. by rewrite (frat_condition _ _ _ _ _ _ Hat) in Ha.
Qed.

Lemma file_hit_sound b o rules hit :
  compileFileRules b = Ok rules -> NoDup (map frule_id rules) -> hit ∈ Hits (matchFileRules rules o) ->
  exists p c kind i value path cut, file_rule_at b p c kind i value /\
    Observed_Access o ∈ Access c /\ observed_path o (Hit_EvidenceSource hit) path cut /\ file_selects kind value path cut /\
    path_confidence (Hit_EvidenceSource hit) cut (Hit_Confidence hit) /\
    (Hit_EvidenceSource hit = "user_path" -> forall path cut, observed_path o "file_identity" path cut -> ~ file_selects kind value path cut) /\
    Hit_PolicyID hit = ID p /\ Hit_RuleID hit = rule_hash (ID p) kind (Z.of_nat i) /\ Hit_RuleKind hit = kind /\
    Hit_RequestedAction hit = RequestedAction p /\
    Hit_EffectiveAction hit = RequestedAction p /\ RequestedAction p ∈ [ActionAudit; ActionAlert] /\
    Hit_PostEventOnly hit = true /\ Hit_Enforced hit = false /\ Hit_ContainmentHint hit = false.
Proof.
  intros Ec Hnd Hin. pose proof (compileFileRules_output _ _ Ec) as (Hrej & _ & _).
  destruct (file_hit_origin _ _ _ _ Ec Hnd Hin) as (p & c & kind & i & v & cand & Hat & Ha & Hf & ->).
  pose proof (find_file_candidate _ _ _ Hf) as Hpref. apply find_elem in Hf as [Hcand Hm]. apply fileRuleMatches_selects in Hm.
  apply fileCandidates_observed in Hcand as [Ho Hc].
  exists p, c, kind, i, v, (cand_value cand), (cand_truncated cand). split_and!; try done.
  rewrite Forall_forall in Hrej. specialize (Hrej p (frat_policy _ _ _ _ _ _ Hat)). rewrite file_reject_None in Hrej.
  apply Hrej; [exact (frat_enabled _ _ _ _ _ _ Hat)|by rewrite (frat_condition _ _ _ _ _ _ Hat)].
Qed.
Lemma MatchFile_returns b o :
  (exists res, MatchFile b o = Ok res) <->
  wf_bundle b /\ file_observation_ok o /\
  (forall p, p ∈ Policies b -> Enabled p = true -> File (Policy_Conditions p) <> None -> RequestedAction p ∈ [ActionAudit; ActionAlert]) /\
  file_rules_distinct b.
Proof.
  split.
  - intros [res (rules & Hwf & Ho & Ec & _)%MatchFile_inv]. split; [done|]. split; [by apply validateFileObservation_ok|].
    apply compileFileRules_returns; [by apply wf_bundle_nodup|eauto].
  - intros (Hwf & Ho & Hc). unfold MatchFile. rewrite (proj2 (Bundle_Validate_nil b) Hwf), (proj2 (validateFileObservation_ok o) Ho).
    apply compileFileRules_returns in Hc as [rules ->]; [by eexists|by apply wf_bundle_nodup].
Qed.

(** ** Properties *)
(** C4: file matching is sound and complete.  [MatchFile] returns a result
    exactly when the bundle is valid, the observation shows a path (a resolved
    one with the identity of the file) and a known access, every enabled file
    policy asks for audit or alert, and no two rules share an identifier.  Then
    no rule is reported twice; a rule of an enabled policy is reported exactly
    when the observed access is one it lists and its pattern selects the
    resolved or the user path (a cut path only by prefix); and every reported
    hit is such a rule, with the source and confidence of the path that matched
    it, the resolved path taking precedence, carrying its policy's audit or
    alert action unchanged, never marked enforced. *)
Theorem MatchFile_sound_complete b o :
  ((exists res, MatchFile b o = Ok res) <->
   wf_bundle b /\ file_observation_ok o /\
   (forall p, p ∈ Policies b -> Enabled p = true -> File (Policy_Conditions p) <> None -> RequestedAction p ∈ [ActionAudit; ActionAlert]) /\
   file_rules_distinct b) /\
  (forall res, MatchFile b o = Ok res ->
   NoDup (map Hit_RuleID (Hits res)) /\
   (forall p c kind i value, file_rule_at b p c kind i value ->
      (exists hit, hit ∈ Hits res /\ Hit_RuleID hit = rule_hash (ID p) kind (Z.of_nat i)) <->
      Observed_Access o ∈ Access c /\
      exists source path cut, observed_path o source path cut /\ file_selects kind value path cut) /\
   (forall hit, hit ∈ Hits res ->
      exists p c kind i value path cut, file_rule_at b p c kind i value /\
        Observed_Access o ∈ Access c /\ observed_path o (Hit_EvidenceSource hit) path cut /\ file_selects kind value path cut /\
        path_confidence (Hit_EvidenceSource hit) cut (Hit_Confidence hit) /\
        (Hit_EvidenceSource hit = "user_path" -> forall path cut, observed_path o "file_identity" path cut -> ~ file_selects kind value path cut) /\
        Hit_PolicyID hit = ID p /\ Hit_RuleID hit = rule_hash (ID p) kind (Z.of_nat i) /\ Hit_RuleKind hit = kind /\
        Hit_RequestedAction hit = RequestedAction p /\
        Hit_EffectiveAction hit = RequestedAction p /\ RequestedAction p ∈ [ActionAudit; ActionAlert] /\
        Hit_PostEventOnly hit = true /\ Hit_Enforced hit = false /\ Hit_ContainmentHint hit = false)).
Proof.
  split; [apply MatchFile_returns|]. intros res (rules & Hwf & _ & Ec & ->)%MatchFile_inv.
  pose proof (compileFileRules_output _ _ Ec) as (Hrej & Hrules & Hnd).
  specialize (Hnd (wf_bundle_nodup _ Hwf)). split_and!.
  - rewrite matchFileRules_hits by done. apply (NoDup_omap_key _ frule_id); [|done].
    intros r hit (_ & c & _ & ->)%file_outcome_Some. done.
  - intros p c kind i value Hat. split.
    + intros (hit & Hin & Hid).
      destruct (file_hit_origin _ _ _ _ Ec Hnd Hin) as (p' & c' & kind' & i' & v' & cand & Hat' & Ha & Hf & ->).
      apply find_elem in Hf as [Hcand Hm]. apply fileRuleMatches_selects in Hm. cbn in Hid, Hm.
      assert (mkItem p' kind' (Z.of_nat i') v' = mkItem p kind (Z.of_nat i) value) as Eit.
      { rewrite Hrules, map_map in Hnd.
        apply (nodup_map_inj (fun it => frule_id (emit file_rule it)) _ _ _ Hnd); [apply file_item_at..|done]; naive_solver. }
      injection Eit as -> -> Ei ->. assert (c' = c) as ->.
      { pose proof (frat_condition _ _ _ _ _ _ Hat). pose proof (frat_condition _ _ _ _ _ _ Hat'). congruence. }
      split; [done|]. apply fileCandidates_observed in Hcand as [? _]. eauto.
    + intros (Ha & source & path & cut & (cand & Hcand & _ & <- & <-)%observed_fileCandidates & Hsel).
      set (r := emit file_rule (mkItem p kind (Z.of_nat i) value)).
      assert (r ∈ rules) as Hr. { rewrite Hrules. apply list_elem_of_fmap_2, file_item_at. naive_solver. }
      destruct (proj2 (find_some_iff (fileRuleMatches r) (fileCandidates o).1)) as [cand' Hf].
      { exists cand. split; [done|]. by apply fileRuleMatches_selects. }
      exists (file_hit o r cand'). split; [|done]. rewrite matchFileRules_hits by done.
      apply list_elem_of_omap. exists r. split; [done|]. apply file_outcome_Some. split; [|by exists cand'].
      cbn. unfold file_access. by rewrite (frat_condition _ _ _ _ _ _ Hat).
  - intros hit Hin. by apply (file_hit_sound b o rules).
Qed.

(** A truncated path never claims more than it shows.  Every hit of
    [MatchFile] states the confidence of the path that produced it: "exact"
    only on a complete resolved path backed by a file identity, "incomplete"
    exactly on a truncated path, and a truncated path is matched by prefix
    rules only, whatever the rule set. *)
Theorem MatchFile_truncation_confidence b o res hit :
  MatchFile b o = Ok res -> hit ∈ Hits res ->
  (Hit_EvidenceSource hit = EvidenceFileIdentity /\ ResolvedPath o <> "" /\ Identity o <> None /\
     Hit_Confidence hit = (if ResolvedPathTruncated o then ConfidenceIncomplete else ConfidenceExact) /\
     (ResolvedPathTruncated o = true -> Hit_RuleKind hit = "file_prefix")) \/
  (Hit_EvidenceSource hit = EvidenceUserPath /\ UserPath o <> "" /\
     Hit_Confidence hit = (if UserPathTruncated o then ConfidenceIncomplete else ConfidenceHeuristic) /\
     (UserPathTruncated o = true -> Hit_RuleKind hit = "file_prefix")).
Proof.
  intros (rules & Hwf & Hobs & Ec & ->)%MatchFile_inv Hin.
  pose proof (compileFileRules_output _ _ Ec) as (_ & _ & Hnd). specialize (Hnd (wf_bundle_nodup _ Hwf)).
  destruct (file_hit_origin _ _ _ _ Ec Hnd Hin) as (p & c & kind & i & v & cand & Hat & Ha & Hf & ->).
  apply find_elem in Hf as [Hcand Hm]. apply fileRuleMatches_selects in Hm. cbn in Hm.
  assert (cand_truncated cand = true -> kind = "file_prefix") as Hk.
  { intros Ht. inversion Hm; subst; [congruence|congruence|done|congruence|congruence]. }
  unfold fileCandidates in Hcand. cbn in Hcand. apply elem_of_app in Hcand as [Hc|Hc].
  - left. unfold resolved_candidate in Hc. case_bool_decide as Hr; [by apply elem_of_nil in Hc|].
    apply list_elem_of_singleton in Hc as ->. split_and!; try done.
    intros Hid. unfold validateFileObservation in Hobs.
    rewrite (bool_decide_eq_false_2 (ResolvedPath o = "")), andb_false_r, Hid in Hobs by done. done.
  - right. unfold user_candidate in Hc. case_bool_decide as Hr; [by apply elem_of_nil in Hc|].
    by apply list_elem_of_singleton in Hc as ->.
Qed.

(** A bundle with an exact and a prefix rule, and a truncated observation. *)
Definition demo_file_policy : Policy :=
  mkPolicy "secrets" "Secret files" "" true (mkScope ScopeGlobal "" "" ∅) DecisionObserve ActionAlert 10 SeverityHigh
    (mkConditions (Some (mkFileCondition ["/etc/shadow"; "/root/*.key"] ["/root/"] [] [] [FileRead])) None None).
Definition demo_file_bundle : Bundle := mkBundle 1 [demo_file_policy].
Definition demo_file_observation : FileObservation :=
  mkFileObservation "/root/id.key" false "" false None FileRead.
Definition demo_truncated_observation : FileObservation :=
  mkFileObservation "/root/id.key" true "" false None FileRead.

Lemma MatchFile_sound_complete_witness :
  exists res, MatchFile demo_file_bundle demo_file_observation = Ok res /\
    length (Hits res) = 2%nat /\ NoDup (map Hit_RuleID (Hits res)).
Proof.
  destruct (MatchFile_sound_complete demo_file_bundle demo_file_observation) as [_ H].
  eexists. split; [vm_compute; reflexivity|]. split; [reflexivity|]. apply H. vm_compute. reflexivity.
Defined.

Definition demo_truncated_hit : PolicyHit :=
  mkPolicyHit "secrets" (rule_hash "secrets" "file_prefix" 0) "file_prefix" ActionAlert ActionAlert EvidenceUserPath
    ConfidenceIncomplete true false false ["user_path_is_not_file_identity"; "user_path_truncated"].
Definition demo_truncated_result : MatchResult :=
  mkMatchResult [demo_truncated_hit]
    [mkEvaluationGap "" "user_path_truncated" "user pathname capture is incomplete"].

Lemma MatchFile_truncation_confidence_witness :
  MatchFile demo_file_bundle demo_truncated_observation = Ok demo_truncated_result /\
  Hit_RuleKind demo_truncated_hit = "file_prefix".
Proof.
  assert (MatchFile demo_file_bundle demo_truncated_observation = Ok demo_truncated_result) as E
    by (vm_compute; reflexivity).
  split; [exact E|].
  destruct (MatchFile_truncation_confidence _ _ _ demo_truncated_hit E) as [(Es & _)|(_ & _ & _ & H)];
    [left|discriminate Es|]. by apply H.
Defined.
