(* ===== verification/ExecMatch.v ===== *)
(** * Exec rules ([internal/policy/exec_match.go])

    Compilation of the exec conditions and their evaluation on one captured
    exec attempt. *)
From S2P Require Import Prelude GoStd Glob Netip Schema Limits Match.
Open Scope Z_scope.

Definition ExecOperation := string.
Definition ExecOperationExecve : ExecOperation := "execve".
Definition ExecOperationExecveat : ExecOperation := "execveat".

Definition CaptureState := string.
Definition CaptureComplete : CaptureState := "complete".
Definition CaptureTruncated : CaptureState := "truncated".
Definition CaptureUnavailable : CaptureState := "unavailable".

Record ExecObservation := mkExecObservation {
  Operation : ExecOperation;
  Executable : string;
  Exec_ExecutableTruncated : bool;
  Arguments : list string;
  ArgumentsState : CaptureState;
  ExecveatFlags : Z;
}.

Record compiledExecRule := mkExecRule {
  erule_policy : Policy;
  erule_id : Z;
  erule_kind : string;
  erule_value : string;
}.

Inductive ExecError :=
| ExecOperationUnsupported (op : ExecOperation)
| CaptureStateUnsupported (s : CaptureState)
| UnavailableWithArguments
| ExecBundleInvalid (errors : list BundleError)
| ExecBlockUnsupported (id : string)
| ExecRegistry (e : RegistryError).

Definition validateExecObservation (o : ExecObservation) : option ExecError :=
  if (Operation o != ExecOperationExecve) && (Operation o != ExecOperationExecveat)
  then Some (ExecOperationUnsupported (Operation o))
  else if (ArgumentsState o != CaptureComplete) && (ArgumentsState o != CaptureTruncated)
          && (ArgumentsState o != CaptureUnavailable)
  then Some (CaptureStateUnsupported (ArgumentsState o))
  else if (ArgumentsState o == CaptureUnavailable) && negb (len (Arguments o) =? 0)
  then Some UnavailableWithArguments
  else None.

(** ** Compilation *)
Definition exec_groups (c : ExecCondition) : list (string * list string) :=
  [("exec_executable", Executables c); ("exec_argument", ArgContains c)].
Definition exec_rule (it : rule_item) (id : Z) : compiledExecRule :=
  mkExecRule (item_policy it) id (item_kind it) (item_value it).

Definition compile_exec_policy (st : gmap Z string * list compiledExecRule) (p : Policy)
  : result ExecError (gmap Z string * list compiledExecRule) :=
  match Exec (Policy_Conditions p) with
  | None => Ok st
  | Some c =>
      if negb (Enabled p) then Ok st
      else if RequestedAction p == ActionBlock then Err (ExecBlockUnsupported (ID p))
      else lift_registry ExecRegistry
             (foldM (fun st group => foldM (add_rule exec_rule) st (group_items p group)) st (exec_groups c))
  end.
Definition compileExecRules (b : Bundle) : result ExecError (list compiledExecRule) :=
  '(_, rules) ← foldM compile_exec_policy (∅, []) (Policies b); Ok rules.

(** ** Matching *)
Definition addExecCaptureGaps (o : ExecObservation) : list EvaluationGap :=
  (if Executable o == "" then [mkEvaluationGap "" "executable_unavailable" "executable pathname was not captured"] else []) ++
  (if Exec_ExecutableTruncated o
   then [mkEvaluationGap "" "executable_truncated" "executable pathname capture is incomplete"] else []) ++
  (if ArgumentsState o == CaptureUnavailable
   then [mkEvaluationGap "" "arguments_unavailable" "argument rules were not evaluated"]
   else if ArgumentsState o == CaptureTruncated
   then [mkEvaluationGap "" "arguments_truncated" "only the captured argument prefix was evaluated"] else []) ++
  (if (Operation o == ExecOperationExecveat) && negb (IsAbs (Executable o))
   then [mkEvaluationGap "" "execveat_resolution_unavailable"
           "relative execveat path was not resolved against dirfd and flags"] else []).

(** [None] is an unmatched rule; a match carries confidence and reasons. *)
Definition execRuleMatches (r : compiledExecRule) (o : ExecObservation) : option (MatchConfidence * list string) :=
  let reasons := ["exec_attempt_not_execution_result"] ++
                 (if Operation o == ExecOperationExecveat then ["execveat_attempt"] else []) in
  if erule_kind r == "exec_executable" then
    if (Executable o == "") || Exec_ExecutableTruncated o then None
    else
      let candidate := if negb (Contains (erule_value r) "/") then Base (Executable o) else Executable o in
      let is_match := if hasGlob (erule_value r) then default false (Match (erule_value r) candidate)
                      else candidate == erule_value r in
      if is_match then Some (ConfidenceHeuristic, reasons) else None
  else if erule_kind r == "exec_argument" then
    if (ArgumentsState o == CaptureUnavailable) || (len (Arguments o) =? 0) then None
    else if negb (Contains (Join (Arguments o) " ") (erule_value r)) &&
            negb (existsb (fun argument => Contains argument (erule_value r)) (Arguments o)) then None
    else if ArgumentsState o == CaptureTruncated
         then Some (ConfidenceIncomplete, reasons ++ ["argument_capture_truncated"])
         else Some (ConfidenceHeuristic, reasons)
  else None.

Definition exec_hit (o : ExecObservation) (r : compiledExecRule) : option PolicyHit :=
  match execRuleMatches r o with
  | None => None
  | Some (confidence, reasons) =>
      let requested := RequestedAction (erule_policy r) in
      let hint := requested == ActionContain in
      Some (mkPolicyHit (ID (erule_policy r)) (erule_id r) (erule_kind r) requested
              (if hint then ActionAlert else requested)
              EvidenceExecCapture confidence true hint false
              (if hint then reasons ++ ["containment_not_executed"] else reasons))
  end.
Definition matchExecRules (rules : list compiledExecRule) (o : ExecObservation) : MatchResult :=
  mkMatchResult (omap (exec_hit o) rules) (addExecCaptureGaps o).

Definition MatchExec (b : Bundle) (o : ExecObservation) : result ExecError MatchResult :=
  match Bundle_Validate b with
  | (_ :: _) as errs => Err (ExecBundleInvalid errs)
  | [] => match validateExecObservation o with
          | Some e => Err e
          | None => rules ← compileExecRules b; Ok (matchExecRules rules o)
          end
  end.

(** ** Lemmas *)
Definition exec_select (p : Policy) : list (string * list string) :=
  match Exec (Policy_Conditions p) with
  | Some c => if Enabled p then exec_groups c else []
  | None => []
  end.
Definition exec_reject (p : Policy) : option ExecError :=
  match Exec (Policy_Conditions p) with
  | Some c => if negb (Enabled p) then None
              else if RequestedAction p == ActionBlock then Some (ExecBlockUnsupported (ID p)) else None
  | None => None
  end.
Lemma compile_exec_policy_eq st p :
  compile_exec_policy st p = compile_step exec_rule ExecRegistry exec_reject exec_select st p.
Proof.
  unfold compile_exec_policy, compile_step, exec_reject, policy_items, exec_select.
  destruct (Exec _); [|by destruct st]. destruct (Enabled p); cbn [negb]; [|by destruct st].
  case_bool_decide; [done|]. by rewrite foldM_concat.
Qed.
Lemma exec_kinds_ok p : NoDup (map fst (exec_select p)) /\ Forall (fun g => no_slash g.1 = true) (exec_select p).
Proof.
  unfold exec_select. destruct (Exec _); [|split; constructor]. destruct (Enabled p); [|split; constructor].
  split; [cbn; compute_done|repeat constructor].
Qed.
Lemma compileExecRules_output b rules :
  compileExecRules b = Ok rules ->
  Forall (fun p => exec_reject p = None) (Policies b) /\
  rules = map (emit exec_rule) (concat (map (policy_items exec_select) (Policies b))) /\
  (NoDup (map ID (Policies b)) -> NoDup (map erule_id rules)).
Proof.
  unfold compileExecRules. rewrite (foldM_ext _ _ _ compile_exec_policy_eq). intros E. bind_inv E.
  destruct (foldM _ _ _) as [[reg rs]|] eqn:Ef; [|done]. injection E as <-.
  apply compile_output in Ef as (Hr & Hs & Hn); [|apply exec_kinds_ok]. cbn in Hs; subst rs.
  split_and!; [done|done|]. intros Hnd. rewrite map_map. by apply Hn.
Qed.

(** The rules a bundle asks for: one for each entry of the two lists of an
    exec condition. *)
Inductive exec_value (c : ExecCondition) : string -> nat -> string -> Prop :=
| value_executable i v : Executables c !! i = Some v -> exec_value c "exec_executable" i v
| value_argument i v : ArgContains c !! i = Some v -> exec_value c "exec_argument" i v.
Record exec_rule_at (b : Bundle) (p : Policy) (kind : string) (i : nat) (value : string) : Prop := {
  erat_policy : p ∈ Policies b;
  erat_enabled : Enabled p = true;
  erat_value : exists c, Exec (Policy_Conditions p) = Some c /\ exec_value c kind i value;
}.
(** No two rules of the bundle have the same 32-bit identifier. *)
Definition exec_rules_distinct (b : Bundle) : Prop :=
  forall p kind i v p' kind' i' v', exec_rule_at b p kind i v -> exec_rule_at b p' kind' i' v' ->
    rule_hash (ID p) kind (Z.of_nat i) = rule_hash (ID p') kind' (Z.of_nat i') -> ID p = ID p' /\ kind = kind' /\ i = i'.
(** An attempt the matcher accepts. *)
Record exec_observation_ok (o : ExecObservation) : Prop := {
  eoo_operation : Operation o ∈ ["execve"; "execveat"];
  eoo_state : ArgumentsState o ∈ ["complete"; "truncated"; "unavailable"];
  eoo_arguments : ArgumentsState o = "unavailable" -> Arguments o = [];
}.
Lemma validateExecObservation_ok o : validateExecObservation o = None <-> exec_observation_ok o.
Proof.
  unfold validateExecObservation. rewrite !guard_None, !andb_false_iff, !negb_false_iff, !bool_decide_eq_true, bool_decide_eq_false, Z.eqb_eq, len_zero.
  split.
  - intros (H1 & H2 & H3 & _). constructor; [rewrite !elem_of_cons; tauto|rewrite !elem_of_cons; tauto|tauto].
  - intros [H1 H2 H3]. set_unfold in H1. set_unfold in H2. split_and!; [tauto|tauto| |done].
    destruct (decide (ArgumentsState o = CaptureUnavailable)); tauto.
Qed.
Lemma exec_value_groups c kind i v : exec_value c kind i v <-> exists values, (kind, values) ∈ exec_groups c /\ values !! i = Some v.
Proof.
  unfold exec_groups. split.
  - intros []; eexists; (split; [|done]); set_solver.
  - intros (values & Hg & Hv). rewrite !elem_of_cons in Hg.
    destruct Hg as [E|[E|[]%elem_of_nil]]; injection E as -> ->; by constructor.
Qed.
Lemma exec_item_at b it :
  it ∈ concat (map (policy_items exec_select) (Policies b)) <->
  exists p kind i value, exec_rule_at b p kind i value /\ it = mkItem p kind (Z.of_nat i) value.
Proof.
  rewrite elem_of_concat_map. split.
  - intros (p & Hp & Hit). unfold policy_items, exec_select in Hit.
    destruct (Exec (Policy_Conditions p)) as [c|] eqn:Ec; [|by apply elem_of_nil in Hit].
    destruct (Enabled p) eqn:Ee; [|by apply elem_of_nil in Hit].
    apply elem_of_concat_map in Hit as ([kind values] & Hg & Hit).
    apply elem_of_lookup_imap in Hit as (i & v & -> & Hv).
    exists p, kind, i, v. split; [|done]. constructor; [done..|]. exists c. rewrite exec_value_groups. eauto.
  - intros (p & kind & i & v & [Hp He (c & Hc & (values & Hg & Hv)%exec_value_groups)] & ->). exists p. split; [done|].
    unfold policy_items, exec_select. rewrite Hc, He. apply elem_of_concat_map. exists (kind, values).
    split; [done|]. by apply (elem_of_lookup_imap_2 (fun i v => mkItem p kind (Z.of_nat i) v)).
Qed.
Lemma exec_reject_None p :
  exec_reject p = None <-> (Enabled p = true -> Exec (Policy_Conditions p) <> None -> RequestedAction p <> ActionBlock).
Proof.
  unfold exec_reject. destruct (Exec (Policy_Conditions p)) as [c|]; [|naive_solver]. destruct (Enabled p); cbn [negb]; [|naive_solver].
  rewrite guard_None, bool_decide_eq_false. naive_solver.
Qed.
Lemma compileExecRules_returns b :
  NoDup (map ID (Policies b)) ->
  (exists rules, compileExecRules b = Ok rules) <->
  (forall p, p ∈ Policies b -> Enabled p = true -> Exec (Policy_Conditions p) <> None -> RequestedAction p <> ActionBlock) /\
  exec_rules_distinct b.
Proof.
  intros Hnd. trans (exists st', foldM (compile_step exec_rule ExecRegistry exec_reject exec_select) (∅, []) (Policies b) = Ok st').
  { unfold compileExecRules. rewrite (foldM_ext _ _ _ compile_exec_policy_eq). unfold mbind, result_bind.
    destruct (foldM _ _ _) as [[reg rs]|]; naive_solver. }
  rewrite compile_returns by (done || apply exec_kinds_ok). rewrite Forall_forall. setoid_rewrite exec_reject_None. split.
  - intros [Ha Hi]. split; [done|]. intros p kind i v p' kind' i' v' H1 H2 Eh.
    assert (forall p kind i v, exec_rule_at b p kind i v -> no_slash kind = true) as Hns by (intros ???? [_ _ (c & _ & [])]; done).
    specialize (Hi (mkItem p kind (Z.of_nat i) v) (mkItem p' kind' (Z.of_nat i') v')).
    destruct (rule_identity_inj (ID p) kind (Z.of_nat i) (ID p') kind' (Z.of_nat i')) as (E1 & E2 & E3);
      [by eapply Hns|by eapply Hns|lia|lia|apply Hi; [apply exec_item_at; eauto 10..|done]|]. split_and!; [done|done|lia].
  - intros [Ha Hi]. split; [done|]. intros x y (p & kind & i & v & H1 & ->)%exec_item_at (p' & kind' & i' & v' & H2 & ->)%exec_item_at Eh.
    destruct (Hi _ _ _ _ _ _ _ _ H1 H2 Eh) as (E1 & -> & ->). unfold item_identity. cbn. by rewrite E1.
Qed.
Lemma MatchExec_inv b o res :
  MatchExec b o = Ok res ->
  exists rules, wf_bundle b /\ validateExecObservation o = None /\ compileExecRules b = Ok rules /\
    res = matchExecRules rules o.
Proof.
  unfold MatchExec. intros E. pose proof (Bundle_Validate_nil b) as Hv.
  destruct (Bundle_Validate b); [|done]. destruct (validateExecObservation o); [done|]. bind_inv E.
  destruct (compileExecRules b) as [rules|]; [|done]. exists rules. naive_solver.
Qed.

(** What a captured attempt shows of a rule. *)
Definition executable_view (value executable : string) : string :=
  if negb (Contains value "/") then Base executable else executable.
Inductive exec_selects (o : ExecObservation) : string -> string -> Prop :=
| selects_executable v : Executable o <> "" -> Exec_ExecutableTruncated o = false -> hasGlob v = false ->
    executable_view v (Executable o) = v -> exec_selects o "exec_executable" v
| selects_executable_glob v : Executable o <> "" -> Exec_ExecutableTruncated o = false -> hasGlob v = true ->
    Match v (executable_view v (Executable o)) = Some true -> exec_selects o "exec_executable" v
| selects_argument v : ArgumentsState o <> CaptureUnavailable -> Arguments o <> [] ->
    Contains (Join (Arguments o) " ") v = true \/ (exists a, a ∈ Arguments o /\ Contains a v = true) ->
    exec_selects o "exec_argument" v.

Lemma execRuleMatches_selects r o :
  is_Some (execRuleMatches r o) <-> exec_selects o (erule_kind r) (erule_value r).
Proof.
  unfold execRuleMatches. fold (executable_view (erule_value r) (Executable o)). cbv zeta. split.
  - case_bool_decide as Ek; [rewrite Ek|case_bool_decide as Ek2; [rewrite Ek2|by intros [? ?]]].
    + destruct (_ || _) eqn:Eo; [by intros [? ?]|]. apply orb_false_iff in Eo as [Eo Et]. open_hyps.
      destruct (hasGlob (erule_value r)) eqn:Eg.
      * destruct (Match _ _) as [[]|] eqn:Em; [|by intros [? ?]..]. intros _. by apply selects_executable_glob.
      * case_bool_decide; [|by intros [? ?]]. intros _. by apply selects_executable.
    + destruct (_ || _) eqn:Eo; [by intros [? ?]|]. apply orb_false_iff in Eo as [Eo El].
      destruct (_ && _) eqn:Ea; [by intros [? ?]|]. intros _. apply Z.eqb_neq in El. rewrite len_zero in El.
      apply selects_argument; [open_hyps; done|done|].
      apply andb_false_iff in Ea as [Ea|Ea]; apply negb_false_iff in Ea; [by left|right].
      apply existsb_exists in Ea as (a & Ha & Hc). exists a. split; [by apply list_elem_of_In|done].
  - inversion 1 as [v Hne Ht Hg Hv Hk|v Hne Ht Hg Hv Hk|v Hu Hne Hv Hk]; subst; go_consts.
    + rewrite (bool_decide_eq_false_2 (Executable o = "")), Ht, Hg by done. cbn.
      by rewrite (bool_decide_eq_true_2 (executable_view _ _ = _)).
    + rewrite (bool_decide_eq_false_2 (Executable o = "")), Ht, Hg, Hv by done. done.
    + rewrite (bool_decide_eq_false_2 (ArgumentsState o = CaptureUnavailable)) by done. cbn.
      destruct (Z.eqb_spec (len (Arguments o)) 0) as [El|_]; [by rewrite len_zero in El|].
      assert (negb (Contains (Join (Arguments o) " ") (erule_value r)) &&
              negb (existsb (fun argument => Contains argument (erule_value r)) (Arguments o)) = false) as ->.
      { apply andb_false_iff. rewrite !negb_false_iff. destruct Hv as [Hv|(a & Ha & Hv)]; [by left|right].
        apply existsb_exists. exists a. split; [by apply list_elem_of_In|done]. }
      by case_bool_decide.
Qed.

(** The hits are those of the bundle's rules. *)
Lemma exec_hits_origin b o rules hit :
  compileExecRules b = Ok rules ->
  hit ∈ omap (exec_hit o) rules <->
  exists p kind i value, exec_rule_at b p kind i value /\
    exec_hit o (emit exec_rule (mkItem p kind (Z.of_nat i) value)) = Some hit.
Proof.
  intros (_ & -> & _)%compileExecRules_output. rewrite list_elem_of_omap. split.
  - intros (r & (it & -> & Hit)%list_elem_of_fmap & Hh). apply exec_item_at in Hit. naive_solver.
  - intros (p & kind & i & v & Hat & Hh). eexists. split; [|exact Hh].
    apply list_elem_of_fmap_2, exec_item_at. naive_solver.
Qed.

Lemma MatchExec_returns b o :
  (exists res, MatchExec b o = Ok res) <->
  wf_bundle b /\ exec_observation_ok o /\
  (forall p, p ∈ Policies b -> Enabled p = true -> Exec (Policy_Conditions p) <> None -> RequestedAction p <> ActionBlock) /\
  exec_rules_distinct b.
Proof.
  split.
  - intros [res (rules & Hwf & Ho & Ec & _)%MatchExec_inv]. split; [done|]. split; [by apply validateExecObservation_ok|].
    apply compileExecRules_returns; [by apply wf_bundle_nodup|eauto].
  - intros (Hwf & Ho & Hc). unfold MatchExec. rewrite (proj2 (Bundle_Validate_nil b) Hwf), (proj2 (validateExecObservation_ok o) Ho).
    apply compileExecRules_returns in Hc as [rules ->]; [by eexists|by apply wf_bundle_nodup].
Qed.

(** What the requested action of an exec rule becomes, with the containment
    hint: nothing can be contained from a captured attempt alone. *)
Inductive exec_effect : Action -> Action -> bool -> Prop :=
| effect_contain : exec_effect "contain" "alert" true
| effect_audit : exec_effect "audit" "audit" false
| effect_alert : exec_effect "alert" "alert" false.
Lemma exec_effect_of p :
  wf_policy p -> RequestedAction p <> ActionBlock ->
  exec_effect (RequestedAction p) (if RequestedAction p == ActionContain then ActionAlert else RequestedAction p) (RequestedAction p == ActionContain).
Proof.
  intros Hp Hb. assert (RequestedAction p = "contain" \/ RequestedAction p = "audit" \/ RequestedAction p = "alert") as [E|[E|E]]
    by (destruct (wf_policy_effect _ Hp); set_solver);
    rewrite E; cbn; [exact effect_contain|exact effect_audit|exact effect_alert].
Qed.
(** The confidence of a match: a cut argument list is incomplete. *)
Definition exec_confidence (o : ExecObservation) (kind : string) : MatchConfidence :=
  if decide (kind = "exec_argument" /\ ArgumentsState o = "truncated") then "incomplete" else "heuristic".
Lemma execRuleMatches_confidence r o confidence reasons :
  execRuleMatches r o = Some (confidence, reasons) -> confidence = exec_confidence o (erule_kind r).
Proof.
  unfold execRuleMatches, exec_confidence. cbv zeta.
  destruct (bool_decide_reflect (erule_kind r = "exec_executable")) as [Ek|_].
  { rewrite decide_False by (rewrite Ek; by intros [? _]). destruct (_ || _); [done|]. destruct (if hasGlob _ then _ else _); [|done]. by intros [= <- _]. }
  destruct (bool_decide_reflect (erule_kind r = "exec_argument")) as [Ek|_]; [|done].
  destruct (_ || _); [done|]. destruct (_ && _); [done|].
  destruct (bool_decide_reflect (ArgumentsState o = CaptureTruncated)) as [Et|Et]; intros [= <- _];
    [rewrite decide_True by done|rewrite decide_False by (by intros [_ ?])]; done.
Qed.
Lemma exec_hit_sound b o rules hit :
  wf_bundle b -> compileExecRules b = Ok rules -> hit ∈ omap (exec_hit o) rules ->
  exists p kind i value, exec_rule_at b p kind i value /\ exec_selects o kind value /\
    Hit_PolicyID hit = ID p /\ Hit_RuleID hit = rule_hash (ID p) kind (Z.of_nat i) /\ Hit_RuleKind hit = kind /\
    Hit_RequestedAction hit = RequestedAction p /\
    exec_effect (RequestedAction p) (Hit_EffectiveAction hit) (Hit_ContainmentHint hit) /\
    Hit_EvidenceSource hit = "exec_capture" /\ Hit_Confidence hit = exec_confidence o kind /\
    Hit_PostEventOnly hit = true /\ Hit_Enforced hit = false.
Proof.
  intros Hwf Ec. pose proof (compileExecRules_output _ _ Ec) as (Hrej & _ & _).
  intros (p & kind & i & v & Hat & Hh)%(exec_hits_origin b o rules hit Ec). unfold exec_hit in Hh.
  destruct (execRuleMatches _ o) as [[conf reasons]|] eqn:Hm; [|done]. injection Hh as <-. cbn -[exec_confidence].
  assert (exec_selects o kind v) as Hsel.
  { apply (execRuleMatches_selects (emit exec_rule (mkItem p kind (Z.of_nat i) v))). by rewrite Hm. }
  apply execRuleMatches_confidence in Hm. exists p, kind, i, v. split_and!; try done.
  pose proof (wf_bundle_policies _ Hwf) as Hps. rewrite Forall_forall in Hps, Hrej.
  specialize (Hrej p (erat_policy _ _ _ _ _ Hat)). rewrite exec_reject_None in Hrej.
  destruct (erat_value _ _ _ _ _ Hat) as (c & Hc & _). rewrite Hc in Hrej.
  specialize (Hrej (erat_enabled _ _ _ _ _ Hat) ltac:(done)).
  apply exec_effect_of; [exact (Hps p (erat_policy _ _ _ _ _ Hat))|done].
Qed.

(** ** Properties *)
(** C5: exec matching is sound and complete, and never enforces.
    [MatchExec] returns a result exactly when the bundle is valid, the attempt
    is a known operation with a consistent capture state, no enabled exec
    policy asks to block, and no two rules share an identifier.  Then each rule
    of an enabled policy is reported exactly when the captured attempt shows
    it, and no rule twice; every hit is such a rule, reported as a post-event
    observation that is not enforced: a "contain" request becomes an alert with
    the containment hint set, audit and alert stay as requested without the
    hint, and the confidence is "incomplete" exactly for an argument rule on a
    cut argument list. *)
Theorem MatchExec_sound_complete b o :
  ((exists res, MatchExec b o = Ok res) <->
   wf_bundle b /\ exec_observation_ok o /\
   (forall p, p ∈ Policies b -> Enabled p = true -> Exec (Policy_Conditions p) <> None -> RequestedAction p <> ActionBlock) /\
   exec_rules_distinct b) /\
  (forall res, MatchExec b o = Ok res ->
   NoDup (map Hit_RuleID (Hits res)) /\
   (forall p kind i value, exec_rule_at b p kind i value ->
      (exists hit, hit ∈ Hits res /\ Hit_RuleID hit = rule_hash (ID p) kind (Z.of_nat i)) <->
      exec_selects o kind value) /\
   (forall hit, hit ∈ Hits res ->
      exists p kind i value, exec_rule_at b p kind i value /\ exec_selects o kind value /\
        Hit_PolicyID hit = ID p /\ Hit_RuleID hit = rule_hash (ID p) kind (Z.of_nat i) /\ Hit_RuleKind hit = kind /\
        Hit_RequestedAction hit = RequestedAction p /\
        exec_effect (RequestedAction p) (Hit_EffectiveAction hit) (Hit_ContainmentHint hit) /\
        Hit_EvidenceSource hit = "exec_capture" /\ Hit_Confidence hit = exec_confidence o kind /\
        Hit_PostEventOnly hit = true /\ Hit_Enforced hit = false)).
Proof.
  split; [apply MatchExec_returns|]. intros res (rules & Hwf & _ & Ec & ->)%MatchExec_inv.
  pose proof (compileExecRules_output _ _ Ec) as (Hrej & Hrules & Hnd).
  specialize (Hnd (wf_bundle_nodup _ Hwf)). cbn [Hits matchExecRules].
  pose proof (fun hit => exec_hits_origin b o rules hit Ec) as Horigin.
  split_and!.
  - apply (NoDup_omap_key _ erule_id); [|done]. intros r hit. unfold exec_hit.
    destruct (execRuleMatches r o) as [[]|]; [|done]. by intros [= <-].
  - intros p kind i value Hat.
    trans (is_Some (execRuleMatches (emit exec_rule (mkItem p kind (Z.of_nat i) value)) o));
      [|apply execRuleMatches_selects].
    split.
    + intros (hit & (p' & kind' & i' & v' & Hat' & Hh)%Horigin & Hid).
      assert (mkItem p' kind' (Z.of_nat i') v' = mkItem p kind (Z.of_nat i) value) as <-.
      { rewrite Hrules, map_map in Hnd.
        apply (nodup_map_inj (fun it => erule_id (emit exec_rule it)) _ _ _ Hnd); [apply exec_item_at; eauto 10..|].
        unfold exec_hit in Hh. destruct (execRuleMatches _ o) as [[]|]; [|done]. injection Hh as <-. exact Hid. }
      unfold exec_hit in Hh. destruct (execRuleMatches _ o); [done|done].
    + intros [[conf reasons] Hm].
      destruct (exec_hit o (emit exec_rule (mkItem p kind (Z.of_nat i) value))) as [hit|] eqn:Hh;
        [|unfold exec_hit in Hh; by rewrite Hm in Hh].
      exists hit. split; [apply Horigin; eauto 10|]. unfold exec_hit in Hh. rewrite Hm in Hh. by simplify_eq.
  - intros hit Hin. by apply (exec_hit_sound b o rules).
Qed.

Definition demo_exec_policy : Policy :=
  mkPolicy "shells" "Shells" "" true (mkScope ScopeGlobal "" "" ∅) DecisionDeny ActionContain 5 SeverityHigh
    (mkConditions None (Some (mkExecCondition ["sh"; "/usr/bin/n*"] ["--evil"])) None).
Definition demo_exec_bundle : Bundle := mkBundle 1 [demo_exec_policy].
Definition demo_exec_observation : ExecObservation :=
  mkExecObservation ExecOperationExecve "/bin/sh" false ["sh"; "-c"; "x --evil"] CaptureTruncated 0.

Lemma MatchExec_sound_complete_witness :
  exists res, MatchExec demo_exec_bundle demo_exec_observation = Ok res /\
    length (Hits res) = 2%nat /\ NoDup (map Hit_RuleID (Hits res)).
Proof.
  destruct (MatchExec_sound_complete demo_exec_bundle demo_exec_observation) as [_ H].
  eexists. split; [vm_compute; reflexivity|]. split; [reflexivity|]. apply H. vm_compute. reflexivity.
Defined.
