(* ===== verification/NetworkMatch.v ===== *)
(** * Network rules ([internal/policy/network_match.go])

    Compilation of the network policies and their evaluation on one
    connection attempt. *)
From S2P Require Import Prelude GoStd Netip Schema Match.
Open Scope Z_scope.

Definition NetworkProtocol := string.
Definition ProtocolTCP : NetworkProtocol := "tcp".
Definition ProtocolUDP : NetworkProtocol := "udp".

Definition NetworkDisposition := string.
Definition DispositionObserved : NetworkDisposition := "observed".
Definition DispositionAllowed : NetworkDisposition := "allowed".
Definition DispositionDenied : NetworkDisposition := "denied".
Definition DispositionNotApplicable : NetworkDisposition := "not_applicable".

Record NetworkObservation := mkNetworkObservation {
  Destination : Addr;
  Port : Z;
  Protocol : NetworkProtocol;
  ObservedHostname : string;
}.

Record NetworkPolicyDecision := mkNetworkPolicyDecision {
  ND_PolicyID : string;
  ND_RuleID : Z;
  ND_Disposition : NetworkDisposition;
  ND_MatchedCIDR : string;
  ND_MatchedPort : option PortRange;
  ND_Enforced : bool;
  ND_Reasons : list string;
}.

Record NetworkMatchResult := mkNetworkMatchResult {
  Network_MatchResult : MatchResult;
  Network_Decisions : list NetworkPolicyDecision;
}.

Record compiledNetworkRule := mkNetworkRule {
  nrule_policy : Policy;
  nrule_id : Z;
}.

Inductive NetworkError :=
| DestinationInvalid
| PortZero
| ProtocolUnsupported (p : NetworkProtocol)
| NetworkBundleInvalid (errors : list BundleError)
| ObserveActionUnsupported (id : string)
| DefaultDenyDecision (id : string)
| NetworkRegistry (e : RegistryError).

Definition validateNetworkObservation (o : NetworkObservation) : option NetworkError :=
  if negb (IsValid (Destination o)) then Some DestinationInvalid
  else if Port o =? 0 then Some PortZero
  else if (Protocol o != ProtocolTCP) && (Protocol o != ProtocolUDP) then Some (ProtocolUnsupported (Protocol o))
  else None.

(** ** Compilation *)
Definition validateNetworkPolicyMode (p : Policy) (c : NetworkCondition) : option NetworkError :=
  if Default c == NetworkDefaultObserve then
    if (RequestedAction p != ActionAudit) && (RequestedAction p != ActionAlert)
    then Some (ObserveActionUnsupported (ID p)) else None
  else if Policy_Decision p != DecisionDeny then Some (DefaultDenyDecision (ID p))
  else None.

Definition network_rule (it : rule_item) (id : Z) : compiledNetworkRule := mkNetworkRule (item_policy it) id.

Definition compile_network_policy (st : gmap Z string * list compiledNetworkRule) (p : Policy)
  : result NetworkError (gmap Z string * list compiledNetworkRule) :=
  match Network (Policy_Conditions p) with
  | None => Ok st
  | Some c =>
      if negb (Enabled p) then Ok st
      else match validateNetworkPolicyMode p c with
           | Some e => Err e
           | None =>
               match registry_add st.1 (ID p) "network_default" 0 with
               | Err e => Err (NetworkRegistry e)
               | Ok (registry, ruleID) => Ok (registry, st.2 ++ [mkNetworkRule p ruleID])
               end
           end
  end.
Definition compileNetworkRules (b : Bundle) : result NetworkError (list compiledNetworkRule) :=
  '(_, rules) ← foldM compile_network_policy (∅, []) (Policies b); Ok rules.

(** ** Evaluation *)
Definition cidr_contains (raw : string) (a : Addr) : bool :=
  match ParsePrefix raw with Some p => Contains_addr p a | None => false end.
Definition matchCIDR (cidrs : list string) (a : Addr) : bool * string :=
  match cidrs with
  | [] => (true, "")
  | _ => match List.find (fun raw => cidr_contains raw a) cidrs with
         | Some raw => (true, raw)
         | None => (false, "")
         end
  end.
Definition in_port_range (port : Z) (r : PortRange) : bool := (From r <=? port) && (port <=? To r).
Definition matchPort (ranges : list PortRange) (port : Z) : bool * option PortRange :=
  match ranges with
  | [] => (true, None)
  | _ => match List.find (in_port_range port) ranges with
         | Some r => (true, Some r)
         | None => (false, None)
         end
  end.

Definition networkDenyReasons (o : NetworkObservation) : list string :=
  if Port o =? 53 then ["direct_dns_not_allowed"]
  else if (Protocol o == ProtocolUDP) && (Port o =? 443) then ["direct_quic_not_allowed"]
  else if (Protocol o == ProtocolTCP) && (Port o =? 443) then ["direct_https_or_doh_not_allowed"]
  else ["proxy_bypass_not_allowed"].

Definition networkRuleKind (d : NetworkDisposition) : string :=
  if d == DispositionAllowed then "network_allow"
  else if d == DispositionDenied then "network_default_deny"
  else "network_observe".

Definition observed_family (a : Addr) : IPFamily := if Is4 a then FamilyIPv4 else FamilyIPv6.

(** [c] is [policy.Conditions.Network], which the code dereferences. *)
Definition evaluateNetworkPolicy (p : Policy) (c : NetworkCondition) (ruleID : Z) (o : NetworkObservation)
  : NetworkPolicyDecision :=
  let familyMatch := bool_decide (observed_family (Destination o) ∈ Families c) in
  let '(cidrMatch, matchedCIDR) := matchCIDR (CIDRs c) (Destination o) in
  let '(portMatch, matchedPort) := matchPort (Ports c) (Port o) in
  let selected := familyMatch && cidrMatch && portMatch in
  let selected := if Default c == NetworkDefaultDeny
                  then selected && (Protocol o == ProtocolTCP) && ((0 <? len (CIDRs c)) || (0 <? len (Ports c)))
                  else selected in
  let decide disposition reasons :=
    mkNetworkPolicyDecision (ID p) ruleID disposition matchedCIDR matchedPort false reasons in
  if Default c == NetworkDefaultObserve then
    if selected then decide DispositionObserved ["network_tuple_observed"]
    else decide DispositionNotApplicable []
  else if selected then decide DispositionAllowed ["static_network_allowlist_match"]
  else decide DispositionDenied (networkDenyReasons o ++ ["enforcement_not_connected"]).

Definition network_hit (p : Policy) (ruleID : Z) (d : NetworkPolicyDecision) : list PolicyHit :=
  if (ND_Disposition d != DispositionObserved) && (ND_Disposition d != DispositionAllowed)
     && (ND_Disposition d != DispositionDenied) then []
  else
    let requested := RequestedAction p in
    let '(effective, hint) :=
      if ND_Disposition d == DispositionAllowed then (ActionAudit, false)
      else if (ND_Disposition d == DispositionDenied) && ((requested == ActionBlock) || (requested == ActionContain))
           then (ActionAudit, requested == ActionContain)
      else (requested, false) in
    [mkPolicyHit (ID p) ruleID (networkRuleKind (ND_Disposition d)) requested effective
       EvidenceNetworkTuple ConfidenceExact true hint false (ND_Reasons d)].

(** One iteration of the rule loop.  The compiler emits no rule whose policy
    lacks a network condition ([compiled_network_condition]); the code would
    panic on one. *)
Definition match_network_rule (o : NetworkObservation) (r : compiledNetworkRule)
  : list NetworkPolicyDecision * list PolicyHit * list EvaluationGap :=
  match Network (Policy_Conditions (nrule_policy r)) with
  | None => ([], [], [])
  | Some c =>
      let d := evaluateNetworkPolicy (nrule_policy r) c (nrule_id r) o in
      ([d], network_hit (nrule_policy r) (nrule_id r) d,
       if ObservedHostname o != "" then
         [mkEvaluationGap (ID (nrule_policy r)) "dynamic_hostname_observe_only"
            "observed hostname did not participate in the allow decision"]
       else [])
  end.
Definition matchNetworkRules (rules : list compiledNetworkRule) (o : NetworkObservation) : NetworkMatchResult :=
  let o := mkNetworkObservation (Unmap (Destination o)) (Port o) (Protocol o) (ObservedHostname o) in
  let results := map (match_network_rule o) rules in
  mkNetworkMatchResult
    (mkMatchResult (concat (map (fun x => x.1.2) results)) (concat (map snd results)))
    (concat (map (fun x => x.1.1) results)).

Definition MatchNetwork (b : Bundle) (o : NetworkObservation) : result NetworkError NetworkMatchResult :=
  match Bundle_Validate b with
  | (_ :: _) as errs => Err (NetworkBundleInvalid errs)
  | [] => match validateNetworkObservation o with
          | Some e => Err e
          | None => rules ← compileNetworkRules b; Ok (matchNetworkRules rules o)
          end
  end.

(** ** Lemmas *)
Definition network_select (p : Policy) : list (string * list string) :=
  match Network (Policy_Conditions p) with
  | Some _ => if Enabled p then [("network_default", [""])] else []
  | None => []
  end.
Definition network_reject (p : Policy) : option NetworkError :=
  match Network (Policy_Conditions p) with
  | Some c => if negb (Enabled p) then None else validateNetworkPolicyMode p c
  | None => None
  end.
Lemma compile_network_policy_eq st p :
  compile_network_policy st p = compile_step network_rule NetworkRegistry network_reject network_select st p.
Proof.
  unfold compile_network_policy, compile_step, network_reject, policy_items, network_select.
  destruct (Network _); [|by destruct st]. destruct (Enabled p); cbn [negb]; [|by destruct st].
  destruct (validateNetworkPolicyMode p _); [done|]. cbn -[registry_add]. unfold add_rule.
  cbn -[registry_add]. change (Z.of_nat 0) with 0.
  by destruct (registry_add st.1 (ID p) "network_default" 0) as [[]|].
Qed.
Lemma network_kinds_ok p :
  NoDup (map fst (network_select p)) /\ Forall (fun g => no_slash g.1 = true) (network_select p).
Proof.
  unfold network_select. destruct (Network _); [|split; constructor]. destruct (Enabled p); [|split; constructor].
  split; [cbn; compute_done|repeat constructor].
Qed.

(** The policies with a network rule, in bundle order. *)
Definition has_network_rule (p : Policy) : bool :=
  Enabled p && match Network (Policy_Conditions p) with Some _ => true | None => false end.
Definition network_rule_of (p : Policy) : compiledNetworkRule :=
  mkNetworkRule p (rule_hash (ID p) "network_default" 0).

Lemma network_items ps :
  map (emit network_rule) (concat (map (policy_items network_select) ps)) =
  map network_rule_of (filter (fun p => has_network_rule p = true) ps).
Proof.
  induction ps as [|p ps IH]; [done|]. cbn [map concat]. rewrite map_app, IH, filter_cons.
  unfold policy_items, network_select.
  case_decide as Hd; unfold has_network_rule in Hd;
    destruct (Network (Policy_Conditions p)), (Enabled p); cbn in Hd; first [done|by destruct Hd].
Qed.
Lemma compileNetworkRules_output b rules :
  compileNetworkRules b = Ok rules ->
  Forall (fun p => network_reject p = None) (Policies b) /\
  rules = map network_rule_of (filter (fun p => has_network_rule p = true) (Policies b)) /\
  (NoDup (map ID (Policies b)) -> NoDup (map nrule_id rules)).
Proof.
  unfold compileNetworkRules. rewrite (foldM_ext _ _ _ compile_network_policy_eq). intros E. bind_inv E.
  destruct (foldM _ _ _) as [[reg rs]|] eqn:Ef; [|done]. injection E as <-.
  apply compile_output in Ef as (Hr & Hs & Hn); [|apply network_kinds_ok]. cbn in Hs; subst rs.
  split_and!; [done|apply network_items|]. intros Hnd. rewrite map_map. by apply Hn.
Qed.

(** ** What a network condition decides *)
Definition unmapped (o : NetworkObservation) : NetworkObservation :=
  mkNetworkObservation (Unmap (Destination o)) (Port o) (Protocol o) (ObservedHostname o).
Definition tuple_selected (c : NetworkCondition) (o : NetworkObservation) : Prop :=
  observed_family (Destination o) ∈ Families c /\
  (CIDRs c = [] \/ exists raw, raw ∈ CIDRs c /\ cidr_contains raw (Destination o) = true) /\
  (Ports c = [] \/ exists r, r ∈ Ports c /\ From r <= Port o <= To r).
Definition tuple_allowed (c : NetworkCondition) (o : NetworkObservation) : Prop :=
  tuple_selected c o /\ Protocol o = ProtocolTCP /\ (CIDRs c <> [] \/ Ports c <> []).
Inductive network_verdict (c : NetworkCondition) (o : NetworkObservation) : NetworkDisposition -> Prop :=
| verdict_observed : Default c = NetworkDefaultObserve -> tuple_selected c o -> network_verdict c o DispositionObserved
| verdict_not_applicable : Default c = NetworkDefaultObserve -> ~ tuple_selected c o ->
    network_verdict c o DispositionNotApplicable
| verdict_allowed : Default c = NetworkDefaultDeny -> tuple_allowed c o -> network_verdict c o DispositionAllowed
| verdict_denied : Default c = NetworkDefaultDeny -> ~ tuple_allowed c o -> network_verdict c o DispositionDenied.

Lemma matchCIDR_true cidrs a :
  (matchCIDR cidrs a).1 = true <-> cidrs = [] \/ exists raw, raw ∈ cidrs /\ cidr_contains raw a = true.
Proof.
  unfold matchCIDR. destruct cidrs as [|x cidrs]; [naive_solver|].
  pose proof (find_some_iff (fun raw => cidr_contains raw a) (x :: cidrs)) as H.
  destruct (List.find _ _); split; try done; intros; [right|]; naive_solver.
Qed.
Lemma matchPort_true ranges port :
  (matchPort ranges port).1 = true <-> ranges = [] \/ exists r, r ∈ ranges /\ From r <= port <= To r.
Proof.
  unfold matchPort. destruct ranges as [|x ranges]; [naive_solver|].
  pose proof (find_some_iff (in_port_range port) (x :: ranges)) as H.
  assert (forall r, in_port_range port r = true <-> From r <= port <= To r) as Hr.
  { intros r. unfold in_port_range. rewrite andb_true_iff, !Z.leb_le. done. }
  setoid_rewrite Hr in H.
  destruct (List.find _ _); split; try done; intros; [right|]; naive_solver.
Qed.

Lemma selected_reflect c o :
  (bool_decide (observed_family (Destination o) ∈ Families c) && (matchCIDR (CIDRs c) (Destination o)).1
   && (matchPort (Ports c) (Port o)).1 = true) <-> tuple_selected c o.
Proof.
  rewrite !andb_true_iff, bool_decide_eq_true, matchCIDR_true, matchPort_true. unfold tuple_selected. tauto.
Qed.
Lemma nonempty_reflect {A B} (l : list A) (m : list B) :
  ((0 <? len l) || (0 <? len m) = true) <-> l <> [] \/ m <> [].
Proof.
  rewrite orb_true_iff, !Z.ltb_lt. unfold len.
  destruct l, m; cbn; split; intros [H|H]; try done; (try (by left)); (try (by right)); left + right; lia.
Qed.

Lemma evaluateNetworkPolicy_verdict p c id o :
  Default c ∈ [NetworkDefaultObserve; NetworkDefaultDeny] ->
  network_verdict c o (ND_Disposition (evaluateNetworkPolicy p c id o)).
Proof.
  intros Hd. pose proof (selected_reflect c o) as Hs. pose proof (nonempty_reflect (CIDRs c) (Ports c)) as Hne.
  unfold evaluateNetworkPolicy.
  destruct (matchCIDR (CIDRs c) (Destination o)) as [cm mc], (matchPort (Ports c) (Port o)) as [pm mp]. cbn [fst] in Hs.
  apply elem_of_cons in Hd as [Ed|Hd%list_elem_of_singleton].
  - rewrite Ed. go_consts. destruct (_ && _ && _); [apply verdict_observed|apply verdict_not_applicable]; naive_solver.
  - rewrite Hd. go_consts. destruct (_ && _ && pm) eqn:E1; cbn [andb].
    + destruct (decide (Protocol o = ProtocolTCP)) as [Ep|Ep];
        [rewrite (bool_decide_eq_true_2 _ Ep)|rewrite (bool_decide_eq_false_2 _ Ep)]; cbn [andb].
      * destruct (_ || _) eqn:E2; [apply verdict_allowed|apply verdict_denied]; unfold tuple_allowed; naive_solver.
      * apply verdict_denied; unfold tuple_allowed; naive_solver.
    + apply verdict_denied; unfold tuple_allowed; naive_solver.
Qed.
Lemma evaluateNetworkPolicy_fields p c id o :
  ND_PolicyID (evaluateNetworkPolicy p c id o) = ID p /\ ND_RuleID (evaluateNetworkPolicy p c id o) = id /\
  ND_Enforced (evaluateNetworkPolicy p c id o) = false.
Proof.
  unfold evaluateNetworkPolicy.
  destruct (matchCIDR (CIDRs c) (Destination o)) as [cm mc], (matchPort (Ports c) (Port o)) as [pm mp].
  cbv zeta. by repeat case_match.
Qed.

Lemma MatchNetwork_inv b o res :
  MatchNetwork b o = Ok res ->
  exists rules, wf_bundle b /\ validateNetworkObservation o = None /\ compileNetworkRules b = Ok rules /\
    res = matchNetworkRules rules o.
Proof.
  unfold MatchNetwork. intros E. pose proof (Bundle_Validate_nil b) as Hv.
  destruct (Bundle_Validate b); [|done]. destruct (validateNetworkObservation o); [done|]. bind_inv E.
  destruct (compileNetworkRules b) as [rules|]; [|done]. exists rules. naive_solver.
Qed.

Lemma wf_network_condition p c : wf_policy p -> Network (Policy_Conditions p) = Some c -> wf_network c.
Proof.
  intros [_ _ _ _ _ Hc] E. destruct (Policy_Conditions p) as [f e n]. cbn in E. subst. by inversion Hc.
Qed.

(** One decision per rule. *)
Definition rule_decision (o : NetworkObservation) (p : Policy) (c : NetworkCondition) : NetworkPolicyDecision :=
  evaluateNetworkPolicy p c (rule_hash (ID p) "network_default" 0) (unmapped o).

Lemma has_network_rule_true p :
  has_network_rule p = true <-> Enabled p = true /\ exists c, Network (Policy_Conditions p) = Some c.
Proof.
  unfold has_network_rule. rewrite andb_true_iff. destruct (Network _); naive_solver.
Qed.

Lemma network_decisions ps o d :
  d ∈ Network_Decisions (matchNetworkRules (map network_rule_of (filter (fun p => has_network_rule p = true) ps)) o) <->
  exists p c, p ∈ ps /\ Enabled p = true /\ Network (Policy_Conditions p) = Some c /\ d = rule_decision o p c.
Proof.
  unfold matchNetworkRules; cbn. rewrite !map_map, elem_of_concat_map.
  setoid_rewrite list_elem_of_filter. setoid_rewrite has_network_rule_true. split.
  - intros (p & [[He [c Hc]] Hp] & Hd). unfold match_network_rule in Hd. cbn in Hd. rewrite Hc in Hd.
    apply list_elem_of_singleton in Hd as ->. eauto 10.
  - intros (p & c & Hp & He & Hc & ->). exists p. split; [eauto|]. unfold match_network_rule. cbn. rewrite Hc.
    by apply list_elem_of_singleton.
Qed.
Lemma network_hits ps o hit :
  hit ∈ Hits (Network_MatchResult (matchNetworkRules (map network_rule_of (filter (fun p => has_network_rule p = true) ps)) o)) <->
  exists p c, p ∈ ps /\ Enabled p = true /\ Network (Policy_Conditions p) = Some c /\
    hit ∈ network_hit p (rule_hash (ID p) "network_default" 0) (rule_decision o p c).
Proof.
  unfold matchNetworkRules; cbn. rewrite !map_map, elem_of_concat_map.
  setoid_rewrite list_elem_of_filter. setoid_rewrite has_network_rule_true. split.
  - intros (p & [[He [c Hc]] Hp] & Hd). unfold match_network_rule in Hd. cbn in Hd. rewrite Hc in Hd. eauto 10.
  - intros (p & c & Hp & He & Hc & Hd). exists p. split; [eauto|]. unfold match_network_rule. cbn. by rewrite Hc.
Qed.

(** A hit never carries an enforcing action: what the kernel did is
    reconciled later. *)
Lemma network_hit_fields p c o hit :
  wf_policy p -> network_reject p = None -> Enabled p = true -> Network (Policy_Conditions p) = Some c ->
  hit ∈ network_hit p (rule_hash (ID p) "network_default" 0) (rule_decision o p c) ->
  let d := rule_decision o p c in
  ND_Disposition d <> DispositionNotApplicable /\ Hit_PolicyID hit = ID p /\ Hit_RuleID hit = ND_RuleID d /\
  Hit_RequestedAction hit = RequestedAction p /\
  Hit_EffectiveAction hit ∈ [ActionAudit; ActionAlert] /\ Hit_Enforced hit = false /\ Hit_PostEventOnly hit = true /\
  (Hit_ContainmentHint hit = true <-> ND_Disposition d = DispositionDenied /\ RequestedAction p = ActionContain).
Proof.
  intros Hp Hrej He Hc Hin d. pose proof (wf_network_condition _ _ Hp Hc) as Hn.
  pose proof (evaluateNetworkPolicy_verdict p c (rule_hash (ID p) "network_default" 0) (unmapped o)
    (wf_network_default _ Hn)) as Hverdict.
  fold (rule_decision o p c) in Hverdict. fold d in Hverdict. unfold network_hit in Hin. fold d in Hin.
  destruct (_ && _ && _) eqn:E; [by apply elem_of_nil in Hin|].
  unfold network_reject in Hrej. rewrite Hc, He in Hrej. cbn [negb] in Hrej. unfold validateNetworkPolicyMode in Hrej.
  destruct (evaluateNetworkPolicy_fields p c (rule_hash (ID p) "network_default" 0) (unmapped o)) as (_ & Hid & _).
  fold (rule_decision o p c) in Hid. fold d in Hid. rewrite Hid.
  pose proof (wf_policy_effect _ Hp) as Heff.
  inversion Hverdict as [Hd Hs Ev|Hd Hs Ev|Hd Hs Ev|Hd Hs Ev]; rewrite <-Ev in *.
  - revert Hin. go_consts. rewrite list_elem_of_singleton. intros ->. cbn.
    rewrite Hd in Hrej. apply guard_None in Hrej as [[Hb|Hb]%andb_false_iff _]; open_hyps; rewrite Hb;
      (split_and!; [done..|set_solver|done|done|]); split; [done|by intros [? ?]|done|by intros [? ?]].
  - done.
  - revert Hin. go_consts. rewrite list_elem_of_singleton. intros ->. cbn. split_and!; try done; [set_solver|].
    split; [done|by intros [? ?]].
  - rewrite Hd in Hrej. cbn in Hrej. apply guard_None in Hrej as [Hb _]. open_hyps. rewrite Hb in Heff.
    inversion Heff as [| |a Ha]; subst a.
    repeat (apply elem_of_cons in Ha as [Ha|Ha]); try (by apply elem_of_nil in Ha); rewrite Ha in Hin |- *;
      revert Hin; go_consts; rewrite list_elem_of_singleton; intros ->; cbn; split_and!; try done; set_solver.
Qed.

(** *** What a decision reports
    The effective action of a decision: nothing is blocked or contained by the
    evaluation itself. *)
Inductive network_effect : NetworkDisposition -> Action -> Action -> Prop :=
| effect_allowed a : network_effect "allowed" a "audit"
| effect_observed a : network_effect "observed" a a
| effect_held a : a ∈ ["block"; "contain"] -> network_effect "denied" a "audit"
| effect_denied a : a ∉ ["block"; "contain"] -> network_effect "denied" a a.
Record network_observation_ok (o : NetworkObservation) : Prop := {
  noo_destination : Destination o <> AddrInvalid;
  noo_port : Port o <> 0;
  noo_protocol : Protocol o ∈ ["tcp"; "udp"];
}.
Lemma validateNetworkObservation_ok o : validateNetworkObservation o = None <-> network_observation_ok o.
Proof.
  unfold validateNetworkObservation. rewrite !guard_None, negb_false_iff, Z.eqb_neq, andb_false_iff, !negb_false_iff, !bool_decide_eq_true.
  split.
  - intros (H1 & H2 & H3 & _). constructor; [by intros E; rewrite E in H1|done|]. set_unfold. tauto.
  - intros [H1 H2 H3]. set_unfold in H3. split_and!; [by destruct (Destination o)|done|tauto|done].
Qed.
Lemma network_verdict_fun c o d d' : network_verdict c o d -> network_verdict c o d' -> d = d'.
Proof.
  assert (NetworkDefaultObserve <> NetworkDefaultDeny) as Hne by done. intros [] []; first [done|tauto|congruence].
Qed.
Lemma network_effect_fun d a x y : network_effect d a x -> network_effect d a y -> x = y.
Proof. inversion 1; inversion 1; subst; first [done|tauto|congruence]. Qed.

Lemma network_hit_effect p c id o hit :
  Default c ∈ [NetworkDefaultObserve; NetworkDefaultDeny] ->
  let d := evaluateNetworkPolicy p c id o in
  hit ∈ network_hit p id d ->
  ND_Disposition d <> DispositionNotApplicable /\ network_effect (ND_Disposition d) (RequestedAction p) (Hit_EffectiveAction hit) /\
  Hit_PolicyID hit = ID p /\ Hit_RuleID hit = id /\ Hit_RequestedAction hit = RequestedAction p /\ Hit_Enforced hit = false.
Proof.
  intros Hd d Hin. pose proof (evaluateNetworkPolicy_verdict p c id o Hd) as Hv. fold d in Hv. revert Hin. unfold network_hit.
  inversion Hv as [? ? Ev|? ? Ev|? ? Ev|? ? Ev]; rewrite <-Ev in *; go_consts; cbn [andb orb negb]; [|by rewrite elem_of_nil|..].
  - rewrite list_elem_of_singleton. intros ->. cbn. split_and!; try done. apply effect_observed.
  - rewrite list_elem_of_singleton. intros ->. cbn. split_and!; try done. apply effect_allowed.
  - destruct (bool_decide_reflect (RequestedAction p = ActionBlock)) as [E|E]; cbn [orb].
    { rewrite list_elem_of_singleton. intros ->. cbn. rewrite E. split_and!; try done. apply effect_held. set_solver. }
    destruct (bool_decide_reflect (RequestedAction p = ActionContain)) as [E'|E']; rewrite list_elem_of_singleton; intros ->; cbn.
    { rewrite E'. split_and!; try done. apply effect_held. set_solver. }
    split_and!; try done. apply effect_denied. set_solver.
Qed.
Lemma network_hit_exists p c id o :
  Default c ∈ [NetworkDefaultObserve; NetworkDefaultDeny] ->
  let d := evaluateNetworkPolicy p c id o in
  ND_Disposition d <> DispositionNotApplicable -> exists hit, hit ∈ network_hit p id d.
Proof.
  intros Hd d Hn. pose proof (evaluateNetworkPolicy_verdict p c id o Hd) as Hv. fold d in Hv. unfold network_hit.
  inversion Hv as [? ? Ev|? ? Ev|? ? Ev|? ? Ev]; rewrite <-Ev in *; [|done|..]; cbn;
    try (destruct ((RequestedAction p == ActionBlock) || (RequestedAction p == ActionContain))); eexists; left.
Qed.

(** ** Properties *)
(** C6: network evaluation decides every policy by its tuple.  When
    [MatchNetwork] returns a result, it holds exactly one decision for each
    enabled network policy of the bundle, in bundle order; the decision's
    disposition is the declarative verdict on the unmapped destination (a
    default-deny policy allows exactly the TCP tuples inside its families,
    CIDRs and ports, provided it lists any, and denies everything else); and a
    hit never carries an enforcing action, with the containment hint set
    exactly on a denial whose policy asked to contain. *)
Theorem MatchNetwork_decides b o res :
  MatchNetwork b o = Ok res ->
  map ND_PolicyID (Network_Decisions res) = map ID (filter (fun p => has_network_rule p = true) (Policies b)) /\
  (forall p c, p ∈ Policies b -> Enabled p = true -> Network (Policy_Conditions p) = Some c ->
     exists d, d ∈ Network_Decisions res /\ ND_PolicyID d = ID p /\
       network_verdict c (unmapped o) (ND_Disposition d)) /\
  (forall hit, hit ∈ Hits (Network_MatchResult res) ->
     Hit_EffectiveAction hit ∈ [ActionAudit; ActionAlert] /\ Hit_Enforced hit = false /\
     exists d, d ∈ Network_Decisions res /\ ND_PolicyID d = Hit_PolicyID hit /\ ND_RuleID d = Hit_RuleID hit /\
       ND_Disposition d <> DispositionNotApplicable /\
       (Hit_ContainmentHint hit = true <->
          ND_Disposition d = DispositionDenied /\ Hit_RequestedAction hit = ActionContain)).
Proof.
  intros (rules & Hwf & _ & Ec & ->)%MatchNetwork_inv.
  pose proof (compileNetworkRules_output _ _ Ec) as (Hrej & -> & _).
  pose proof (wf_bundle_policies _ Hwf) as Hps. rewrite Forall_forall in Hps, Hrej. split_and!.
  - clear. unfold matchNetworkRules; cbn. rewrite !map_map, concat_map, map_map.
    induction (Policies b) as [|p ps IH]; [done|]. rewrite filter_cons.
    case_decide as Hp; [|done]. apply has_network_rule_true in Hp as [_ [c Hc]]. cbn [map concat].
    rewrite IH. unfold match_network_rule. cbn. rewrite Hc. cbn. f_equal. apply evaluateNetworkPolicy_fields.
  - intros p c Hp He Hc. exists (rule_decision o p c). split; [apply network_decisions; eauto 10|].
    split; [apply evaluateNetworkPolicy_fields|].
    apply evaluateNetworkPolicy_verdict, wf_network_default, (wf_network_condition p); auto.
  - intros hit (p & c & Hp & He & Hc & Hin)%network_hits.
    destruct (network_hit_fields p c o hit) as (Hna & Hpid & Hrid & Hreq & Heff & Henf & _ & Hhint); auto.
    split_and!; [done|done|]. exists (rule_decision o p c). rewrite Hreq.
    split_and!; [apply network_decisions; eauto 10| |done|done|exact Hhint].
    rewrite Hpid. apply evaluateNetworkPolicy_fields.
Qed.

Definition demo_network_policy : Policy :=
  mkPolicy "egress" "Egress allowlist" "" true (mkScope ScopeGlobal "" "" ∅) DecisionDeny ActionContain 7 SeverityHigh
    (mkConditions None None
       (Some (mkNetworkCondition NetworkDefaultDeny ["10.0.0.5/32"] [mkPortRange 443 443] [FamilyIPv4]))).
Definition demo_network_bundle : Bundle := mkBundle 1 [demo_network_policy].
Definition demo_network_observation : NetworkObservation :=
  mkNetworkObservation (Addr4 134744072) 53 ProtocolTCP "".

Lemma MatchNetwork_decides_witness :
  exists res, MatchNetwork demo_network_bundle demo_network_observation = Ok res /\
    map ND_Disposition (Network_Decisions res) = [DispositionDenied] /\
    map ND_PolicyID (Network_Decisions res) = ["egress"].
Proof.
  eexists. split; [vm_compute; reflexivity|]. split; [reflexivity|].
  apply (MatchNetwork_decides demo_network_bundle demo_network_observation). vm_compute. reflexivity.
Defined.
