(* ===== verification/Generation.v ===== *)
(** * Two-bank policy generations ([internal/policy/generation.go])

    [GenerationUpdater] writes a complete image to the inactive bank, reads it
    back, and only then switches the active generation.  The store itself is
    an interface of the source; it is the class [BankStore], and what its
    comments require of an implementation is [BankStoreLaws].  The updater's
    theorems hold for every lawful store; [MemoryStore] is one. *)
From S2P Require Import Prelude GoStd.
Open Scope Z_scope.

Definition Bank := Z.
Definition BankA : Bank := 0.
Definition BankB : Bank := 1.

Record Generation := mkGeneration { Revision : Z; Generation_Bank : Bank }.
Record MapEntry := mkMapEntry { Key : Z; Value : list Z }.
Record BankImage := mkBankImage { Rules : list MapEntry; Profiles : list MapEntry }.
Record RecoveredGeneration := mkRecovered { Recovered_Generation : Generation; Recovered_Image : BankImage }.

#[export] Instance Generation_eq_dec : EqDecision Generation.
Proof. solve_decision. Defined.
#[export] Instance MapEntry_eq_dec : EqDecision MapEntry.
Proof. solve_decision. Defined.

Definition otherBank (b : Bank) : Bank := if b == BankA then BankB else BankA.

(** ** Image validation *)
Inductive ImageError :=
| RuleCapacityExceeded (got limit : Z)
| ProfileCapacityExceeded (got limit : Z)
| KeyReserved (kind : string)
| ValueEmpty (kind : string) (key : Z)
| KeyDuplicated (kind : string) (key : Z).
Inductive VerifyError :=
| InvalidReadback (e : ImageError)
| RuleReadbackDiffers
| ProfileReadbackDiffers.

Fixpoint validateMapEntries_from (kind : string) (seen : list Z) (entries : list MapEntry) : option ImageError :=
  match entries with
  | [] => None
  | e :: es =>
      if Key e =? 0 then Some (KeyReserved kind)
      else if len (Value e) =? 0 then Some (ValueEmpty kind (Key e))
      else if bool_decide (Key e ∈ seen) then Some (KeyDuplicated kind (Key e))
      else validateMapEntries_from kind (Key e :: seen) es
  end.
Definition validateMapEntries (kind : string) (entries : list MapEntry) : option ImageError :=
  validateMapEntries_from kind [] entries.

Definition validateBankImage (image : BankImage) (ruleCapacity profileCapacity : Z) : option ImageError :=
  if ruleCapacity <? len (Rules image) then Some (RuleCapacityExceeded (len (Rules image)) ruleCapacity)
  else if profileCapacity <? len (Profiles image)
       then Some (ProfileCapacityExceeded (len (Profiles image)) profileCapacity)
  else match validateMapEntries "rule" (Rules image) with
       | Some e => Some e
       | None => validateMapEntries "profile" (Profiles image)
       end.

Definition key_less (a b : MapEntry) : bool := Key a <? Key b.
Fixpoint same_entries (first second : list MapEntry) : bool :=
  match first, second with
  | [], [] => true
  | a :: first', b :: second' => (Key a =? Key b) && (Value a == Value b) && same_entries first' second'
  | _, _ => false
  end.
Definition equalEntries (first second : list MapEntry) : bool :=
  same_entries (sort_by key_less first) (sort_by key_less second).

Definition verifyBankImage (expected actual : BankImage) : option VerifyError :=
  match validateBankImage actual (len (Rules expected)) (len (Profiles expected)) with
  | Some e => Some (InvalidReadback e)
  | None => if negb (equalEntries (Rules expected) (Rules actual)) then Some RuleReadbackDiffers
            else if negb (equalEntries (Profiles expected) (Profiles actual)) then Some ProfileReadbackDiffers
            else None
  end.

Definition cloneEntries (entries : list MapEntry) : list MapEntry :=
  map (fun e => mkMapEntry (Key e) (Value e)) entries.
Definition cloneBankImage (image : BankImage) : BankImage :=
  mkBankImage (cloneEntries (Rules image)) (cloneEntries (Profiles image)).

(** ** The store interface *)
Class BankStore (S Er : Type) := {
  store_BeginUpdate : stateM S Er unit;
  store_Active : stateM S Er Generation;
  store_Reset : Bank -> stateM S Er unit;
  store_PutRule : Bank -> MapEntry -> stateM S Er unit;
  store_PutProfile : Bank -> MapEntry -> stateM S Er unit;
  store_Read : Bank -> stateM S Er BankImage;
  store_Activate : Generation -> Generation -> stateM S Er unit;
  store_Close : S -> S;
}.

(** ** The updater *)
(** [PolicyUpdateFailedRecord] carries the error's text; here the error. *)
Inductive CommitError (Er : Type) :=
| UpdaterRequired
| UpdateContextRequired
| CommitImageInvalid (e : ImageError)
| BeginFailed (e : Er)
| ActiveFailed (e : Er)
| ActiveBankInvalid (b : Bank)
| RevisionExhausted
| ResetFailed (b : Bank) (e : Er)
| RuleWriteCancelled
| RuleWriteFailed (key : Z) (e : Er)
| ProfileWriteCancelled
| ProfileWriteFailed (key : Z) (e : Er)
| ReadbackFailed (e : Er)
| VerifyFailed (e : VerifyError)
| ActivateCancelled
| ActivateFailed (revision : Z) (e : Er).
Arguments UpdaterRequired {Er}.
Arguments UpdateContextRequired {Er}.
Arguments CommitImageInvalid {Er} e.
Arguments BeginFailed {Er} e.
Arguments ActiveFailed {Er} e.
Arguments ActiveBankInvalid {Er} b.
Arguments RevisionExhausted {Er}.
Arguments ResetFailed {Er} b e.
Arguments RuleWriteCancelled {Er}.
Arguments RuleWriteFailed {Er} key e.
Arguments ProfileWriteCancelled {Er}.
Arguments ProfileWriteFailed {Er} key e.
Arguments ReadbackFailed {Er} e.
Arguments VerifyFailed {Er} e.
Arguments ActivateCancelled {Er}.
Arguments ActivateFailed {Er} revision e.

Record PolicyUpdateFailedRecord (Er : Type) := mkFailedRecord {
  RecordType : string;
  ActiveGeneration : option Generation;
  AttemptedGeneration : option Generation;
  Failed_Error : CommitError Er;
}.
Arguments mkFailedRecord {Er}.
Arguments RecordType {Er} _.
Arguments ActiveGeneration {Er} _.
Arguments AttemptedGeneration {Er} _.
Arguments Failed_Error {Er} _.

Inductive RecoverError (Er : Type) :=
| RecoverUpdaterRequired
| RecoverContextRequired
| RecoverBeginFailed (e : Er)
| RecoverActiveFailed (e : Er)
| RecoverBankInvalid (b : Bank)
| ErrNoCommittedGeneration
| RecoverReadFailed (b : Bank) (e : Er)
| RecoverImageInvalid (revision : Z) (e : ImageError)
| RecoverCancelled
| RecoverResetFailed (e : Er).
Arguments RecoverUpdaterRequired {Er}.
Arguments RecoverContextRequired {Er}.
Arguments RecoverBeginFailed {Er} e.
Arguments RecoverActiveFailed {Er} e.
Arguments RecoverBankInvalid {Er} b.
Arguments ErrNoCommittedGeneration {Er}.
Arguments RecoverReadFailed {Er} b e.
Arguments RecoverImageInvalid {Er} revision e.
Arguments RecoverCancelled {Er}.
Arguments RecoverResetFailed {Er} e.

(** The reporter returns an error of its own type [RErr]. *)
Record GenerationUpdater (Er RErr : Type) := mkUpdater {
  ruleCapacity : Z;
  profileCapacity : Z;
  reportFailure : option (PolicyUpdateFailedRecord Er -> option RErr);
}.
Arguments mkUpdater {Er RErr}.
Arguments ruleCapacity {Er RErr} _.
Arguments profileCapacity {Er RErr} _.
Arguments reportFailure {Er RErr} _.

Inductive UpdaterError := ReporterRequired | StoreRequired | CapacityNotPositive.

(** [newGenerationUpdater]; [has_store] is [store != nil]. *)
Definition newGenerationUpdater {Er RErr} (has_store : bool) (rules profiles : Z)
    (reporter : option (PolicyUpdateFailedRecord Er -> option RErr)) : result UpdaterError (GenerationUpdater Er RErr) :=
  if negb has_store then Err StoreRequired
  else if (rules <=? 0) || (profiles <=? 0) then Err CapacityNotPositive
  else Ok (mkUpdater rules profiles reporter).
Definition NewGenerationUpdater {Er RErr} (has_store : bool) (rules profiles : Z) : result UpdaterError (GenerationUpdater Er RErr) :=
  newGenerationUpdater has_store rules profiles None.
Definition NewReportingGenerationUpdater {Er RErr} (has_store : bool) (rules profiles : Z)
    (reporter : option (PolicyUpdateFailedRecord Er -> option RErr)) : result UpdaterError (GenerationUpdater Er RErr) :=
  match reporter with
  | None => Err ReporterRequired
  | Some r => newGenerationUpdater has_store rules profiles (Some r)
  end.

Section Updater.
Context {S Er RErr : Type} `{BankStore S Er}.

(** A context is seen through its polls: [ctx n] says that the [n]-th
    [ctx.Err()] of the call is non-nil. *)
Definition Context := nat -> bool.

(** A failed attempt: the error, and the generations known by then. *)
Record failure := mkFailure {
  fail_error : CommitError Er;
  fail_active : option Generation;
  fail_attempted : option Generation;
}.

(** The writes and checks before the switch: reset the inactive bank, put
    every entry, read it back, verify. *)
Definition stage (ctx : Context) (image : BankImage) (inactive : Bank) : stateM S (CommitError Er) unit :=
  let nr := length (Rules image) in
  let np := length (Profiles image) in
  _ ← map_err (ResetFailed inactive) (store_Reset inactive);
  _ ← forM (fun i entry => _ ← reject_if (ctx i) RuleWriteCancelled;
                           map_err (RuleWriteFailed (Key entry)) (store_PutRule inactive entry)) 0 (Rules image);
  _ ← forM (fun i entry => _ ← reject_if (ctx i) ProfileWriteCancelled;
                           map_err (ProfileWriteFailed (Key entry)) (store_PutProfile inactive entry)) nr (Profiles image);
  readback ← map_err ReadbackFailed (store_Read inactive);
  _ ← match verifyBankImage image readback with Some e => raise (VerifyFailed e) | None => mret tt end;
  reject_if (ctx (nr + np)%nat) ActivateCancelled.
Definition stage_and_activate (ctx : Context) (image : BankImage) (active next : Generation)
  : stateM S (CommitError Er) Generation :=
  _ ← stage ctx image (Generation_Bank next);
  _ ← map_err (ActivateFailed (Revision next)) (store_Activate active next);
  mret next.

(** The body of the update transaction, between [BeginUpdate] and [Close]. *)
Definition commit_update (ctx : Context) (image : BankImage) : stateM S failure Generation :=
  active ← map_err (fun e => mkFailure (ActiveFailed e) None None) store_Active;
  _ ← reject_if ((Generation_Bank active != BankA) && (Generation_Bank active != BankB))
        (mkFailure (ActiveBankInvalid (Generation_Bank active)) None None);
  _ ← reject_if (Revision active =? u64_max) (mkFailure RevisionExhausted (Some active) None);
  let next := mkGeneration (Revision active + 1) (otherBank (Generation_Bank active)) in
  map_err (fun e => mkFailure e (Some active) (Some next)) (stage_and_activate ctx image active next).

(** [defer update.Close()]. *)
Definition with_close {E A} (m : stateM S E A) : stateM S E A :=
  fun s => let '(s', r) := m s in (store_Close s', r).

Definition commit_attempt (u : option (GenerationUpdater Er RErr)) (ctx : option Context) (image : BankImage)
  : stateM S failure Generation :=
  match u with
  | None => raise (mkFailure UpdaterRequired None None)
  | Some u =>
      match ctx with
      | None => raise (mkFailure UpdateContextRequired None None)
      | Some ctx =>
          let image := cloneBankImage image in
          match validateBankImage image (ruleCapacity u) (profileCapacity u) with
          | Some e => raise (mkFailure (CommitImageInvalid e) None None)
          | None =>
              _ ← map_err (fun e => mkFailure (BeginFailed e) None None) store_BeginUpdate;
              with_close (commit_update ctx image)
          end
      end
  end.

(** [Commit] with its deferred report: on failure the record handed to the
    reporter, and the error joined with the reporter's own. *)
Definition commit_error := (CommitError Er * option RErr)%type.
Definition report (u : option (GenerationUpdater Er RErr)) (f : failure) : option (PolicyUpdateFailedRecord Er) * option RErr :=
  match u with
  | Some u =>
      match reportFailure u with
      | Some reporter =>
          let record := mkFailedRecord "policy_update_failed" (fail_active f) (fail_attempted f) (fail_error f) in
          (Some record, reporter record)
      | None => (None, None)
      end
  | None => (None, None)
  end.
Definition Commit (u : option (GenerationUpdater Er RErr)) (ctx : option Context) (image : BankImage) (s : S)
  : S * result commit_error Generation * option (PolicyUpdateFailedRecord Er) :=
  match commit_attempt u ctx image s with
  | (s', Ok g) => (s', Ok g, None)
  | (s', Err f) => let '(record, rerr) := report u f in (s', Err (fail_error f, rerr), record)
  end.

Definition recover_update (u : GenerationUpdater Er RErr) (ctx : Context) : stateM S (RecoverError Er) RecoveredGeneration :=
  active ← map_err RecoverActiveFailed store_Active;
  _ ← reject_if ((Generation_Bank active != BankA) && (Generation_Bank active != BankB))
        (RecoverBankInvalid (Generation_Bank active));
  _ ← reject_if (Revision active =? 0) ErrNoCommittedGeneration;
  image ← map_err (RecoverReadFailed (Generation_Bank active)) (store_Read (Generation_Bank active));
  _ ← match validateBankImage image (ruleCapacity u) (profileCapacity u) with
      | Some e => raise (RecoverImageInvalid (Revision active) e)
      | None => mret tt
      end;
  _ ← reject_if (ctx O) RecoverCancelled;
  _ ← map_err RecoverResetFailed (store_Reset (otherBank (Generation_Bank active)));
  mret (mkRecovered active (cloneBankImage image)).

Definition Recover (u : option (GenerationUpdater Er RErr)) (ctx : option Context) : stateM S (RecoverError Er) RecoveredGeneration :=
  match u with
  | None => raise RecoverUpdaterRequired
  | Some u =>
      match ctx with
      | None => raise RecoverContextRequired
      | Some ctx =>
          _ ← map_err RecoverBeginFailed store_BeginUpdate;
          with_close (recover_update u ctx)
      end
  end.
End Updater.

(** ** What a store promises *)
Class BankView (S : Type) := {
  active_of : S -> Generation;
  image_of : S -> Bank -> BankImage;
}.

(** Two images with the same entries, in any order. *)
Definition image_same (a b : BankImage) : Prop := Rules a ≡ₚ Rules b /\ Profiles a ≡ₚ Profiles b.
#[export] Instance image_same_equiv : Equivalence image_same.
Proof.
  split; [done|intros a b [? ?]; split; by symmetry|intros a b c [? ?] [? ?]; split; by etrans].
Qed.

Section Laws.
Context {S : Type} `{BankView S}.

(** Nothing observable changed. *)
Definition view_same (s s' : S) : Prop := active_of s' = active_of s /\ forall b, image_of s' b = image_of s b.
(** At most the contents of bank [b] changed. *)
Definition confined (b : Bank) (s s' : S) : Prop :=
  active_of s' = active_of s /\ forall b', b' <> b -> image_of s' b' = image_of s b'.
#[export] Instance view_same_pre : PreOrder view_same.
Proof. split; [done|]. intros a b c [? ?] [? ?]. split; [congruence|]. intros. etrans; eauto. Qed.
#[export] Instance confined_pre b : PreOrder (confined b).
Proof.
  split; [done|]. intros x y z [? Hxy] [? Hyz]. split; [congruence|]. intros b' Hb. by rewrite Hyz, Hxy.
Qed.
Lemma view_same_confined b s s' : view_same s s' -> confined b s s'.
Proof. intros [? ?]. split; auto. Qed.
End Laws.

(** The contract of the interface comments: an operation on a bank touches no
    other bank and never the selector; [Read] returns what the bank holds;
    [Activate] switches only from the expected generation, and an error leaves
    the active generation unchanged. *)
Class BankStoreLaws (S Er : Type) `{BankStore S Er, BankView S} : Prop := {
  law_begin : holds view_same store_BeginUpdate (fun _ _ _ => True);
  law_active : holds view_same store_Active (fun s g _ => g = active_of s);
  law_reset b : holds (confined b) (store_Reset b)
                  (fun _ _ s' => image_same (image_of s' b) (mkBankImage [] []));
  law_put_rule b e : holds (confined b) (store_PutRule b e) (fun _ _ _ => True);
  law_put_profile b e : holds (confined b) (store_PutProfile b e) (fun _ _ _ => True);
  law_read b : holds view_same (store_Read b) (fun s image _ => image_same image (image_of s b));
  law_activate expected next s s' r :
    store_Activate expected next s = (s', r) ->
    (forall b, image_of s' b = image_of s b) /\
    match r with
    | Ok _ => active_of s = expected /\ active_of s' = next
    | Err _ => active_of s' = active_of s
    end;
  law_close s : view_same s (store_Close s);
}.

(** ** Lemmas on images *)
#[export] Instance key_less_weak : StrictWeak key_less.
Proof.
  unfold key_less. split; intros x y.
  - rewrite Z.ltb_lt, Z.ltb_ge. lia.
  - intros z. rewrite !Z.ltb_ge. lia.
Qed.
Lemma same_entries_eq l1 l2 : same_entries l1 l2 = true <-> l1 = l2.
Proof.
  revert l2. induction l1 as [|[k v] l1 IH]; intros [|[k2 v2] l2]; cbn; try done.
  rewrite !andb_true_iff, Z.eqb_eq, bool_decide_eq_true, IH. naive_solver.
Qed.
Lemma equalEntries_perm l1 l2 : equalEntries l1 l2 = true -> l1 ≡ₚ l2.
Proof.
  unfold equalEntries. rewrite same_entries_eq. intros E.
  rewrite <-(sort_by_perm key_less l1), E. apply sort_by_perm.
Qed.
Lemma verifyBankImage_same expected actual :
  verifyBankImage expected actual = None -> image_same expected actual.
Proof.
  unfold verifyBankImage. intros E. branches.
  split; by apply equalEntries_perm.
Qed.
Lemma cloneBankImage_id image : cloneBankImage image = image.
Proof.
  destruct image as [rs ps]. unfold cloneBankImage, cloneEntries. cbn.
  assert (forall l, map (fun e => mkMapEntry (Key e) (Value e)) l = l) as Hid.
  { induction l as [|[] l IH]; cbn; [done|]. by rewrite IH. }
  by rewrite !Hid.
Qed.
Lemma otherBank_ne b : otherBank b <> b.
Proof. unfold otherBank. case_bool_decide as E; [by rewrite E|]. intros E'. by apply E. Qed.

(** ** The updater against the interface *)
Section UpdaterLaws.
Context {S Er RErr : Type} `{BankStoreLaws S Er}.

Lemma stage_spec ctx image b :
  holds (confined b) (stage ctx image b) (fun _ _ s' => image_same (image_of s' b) image).
Proof.
  unfold stage.
  eapply holds_weaken; [apply (holds_bind (confined b))|].
  { apply holds_map_err, law_reset. }
  { intros ?. apply (holds_bind (confined b)).
    { apply holds_forM; [typeclasses eauto|]. intros j x. eapply holds_weaken; [apply (holds_bind (confined b))|done].
      - apply holds_reject_if. typeclasses eauto.
      - intros ?. apply holds_map_err, law_put_rule. }
    intros ?. apply (holds_bind (confined b)).
    { apply holds_forM; [typeclasses eauto|]. intros j x. eapply holds_weaken; [apply (holds_bind (confined b))|done].
      - apply holds_reject_if. typeclasses eauto.
      - intros ?. apply holds_map_err, law_put_profile. }
    intros ?. apply (holds_bind (confined b)).
    { apply holds_map_err. intros s s' r E. destruct (law_read b _ _ _ E) as [Hv Hq].
      split; [by apply view_same_confined|]. instantiate (1 := fun s0 image0 s1 => view_same s0 s1 /\ image_same image0 (image_of s0 b)).
      destruct r; [by split|done]. }
    intros readback.
    apply (holds_bind (confined b) _ _ (fun s _ s' => s' = s /\ image_same image readback)
             (fun _ s _ s' => s' = s)).
    { destruct (verifyBankImage image readback) eqn:Ev; [apply holds_raise; typeclasses eauto|].
      intros s s' r [= <- <-]. split; [done|]. split; [done|]. by apply verifyBankImage_same. }
    intros ?. eapply holds_weaken; [apply holds_reject_if; typeclasses eauto|]. by intros ? ? ? _ [-> _]. }
  intros s a s' _ (a1 & s1 & _ & _ & a2 & s2 & _ & _ & a3 & s3 & _ & _ & rb & s4 & [[_ Hv] Hr] & _ & a5 & s5 & [-> Hs] & _ & ->).
  rewrite Hv. etrans; [symmetry; exact Hr|]. by symmetry.
Qed.

Lemma stage_and_activate_spec ctx image active next s s' r :
  stage_and_activate ctx image active next s = (s', r) ->
  (forall b, b <> Generation_Bank next -> image_of s' b = image_of s b) /\
  match r with
  | Ok g => g = next /\ active_of s = active /\ active_of s' = next /\
            image_same (image_of s' (Generation_Bank next)) image
  | Err _ => active_of s' = active_of s
  end.
Proof.
  unfold stage_and_activate, mbind, stateM_bind.
  destruct (stage ctx image (Generation_Bank next) s) as [s1 r1] eqn:E1.
  destruct (stage_spec ctx image (Generation_Bank next) _ _ _ E1) as [[Ha Hi] Hq].
  destruct r1; [|by intros [= <- <-]]. unfold map_err.
  destruct (store_Activate active next s1) as [s2 r2] eqn:E2.
  destruct (law_activate _ _ _ _ _ E2) as [Hi2 Hr2]. destruct r2; intros [= <- <-].
  - split; [intros; rewrite Hi2; auto|]. destruct Hr2 as [? ?]. rewrite Hi2. split_and!; congruence || done.
  - split; [intros; rewrite Hi2; auto|congruence].
Qed.

(** The generation a commit from [g] attempts. *)
Definition successor (g : Generation) : Generation := mkGeneration (Revision g + 1) (otherBank (Generation_Bank g)).
Definition bank_ok (g : Generation) : Prop := Generation_Bank g = BankA \/ Generation_Bank g = BankB.

(** The outcome of one attempt in state [s]. *)
Definition commit_outcome (image : BankImage) (s s' : S) (r : result (failure (Er:=Er)) Generation) : Prop :=
  image_of s' (Generation_Bank (active_of s)) = image_of s (Generation_Bank (active_of s)) /\
  match r with
  | Ok g => bank_ok (active_of s) /\ Revision (active_of s) <> u64_max /\ g = successor (active_of s) /\
            active_of s' = g /\ image_same (image_of s' (Generation_Bank g)) image
  | Err f => active_of s' = active_of s /\
             (fail_active f = None /\ fail_attempted f = None \/
              fail_active f = Some (active_of s) /\ fail_attempted f = None /\ Revision (active_of s) = u64_max \/
              fail_active f = Some (active_of s) /\ fail_attempted f = Some (successor (active_of s)))
  end.

Lemma commit_update_spec ctx image s s' r :
  commit_update ctx image s = (s', r) -> commit_outcome image s s' r.
Proof.
  unfold commit_update, mbind, stateM_bind, map_err at 1.
  destruct (store_Active s) as [s1 r1] eqn:E1. destruct (law_active _ _ _ E1) as [[Ha Hi] Hq].
  destruct r1 as [active|e]; [subst active|intros [= <- <-]; split; [done|by split; [|left]]].
  unfold reject_if. destruct (_ && _) eqn:Eb; cbn; [intros [= <- <-]; split; [done|by split; [|left]]|].
  destruct (Z.eqb_spec (Revision (active_of s)) u64_max) as [Er1|Er1]; cbn.
  { intros [= <- <-]. split; [done|]. split; [done|]. right; left. done. }
  fold (successor (active_of s)). unfold map_err.
  destruct (stage_and_activate ctx image (active_of s) (successor (active_of s)) s1) as [s2 r2] eqn:E2.
  destruct (stage_and_activate_spec _ _ _ _ _ _ _ E2) as [Hi2 Hr2].
  assert (image_of s2 (Generation_Bank (active_of s)) = image_of s (Generation_Bank (active_of s))) as Hkeep.
  { rewrite Hi2, Hi; [done|]. intros E. by apply (otherBank_ne (Generation_Bank (active_of s))). }
  destruct r2; intros [= <- <-]; (split; [done|]).
  - destruct Hr2 as (-> & _ & ? & ?). split_and!; try done. unfold bank_ok.
    apply andb_false_iff in Eb as [Eb|Eb]; open_hyps; auto.
  - split; [congruence|]. by right; right.
Qed.

Lemma commit_outcome_close image s s' r :
  commit_outcome image s s' r -> commit_outcome image s (store_Close s') r.
Proof.
  destruct (law_close s') as [Ha Hi]. intros [Hk Hr]. split; [by rewrite Hi|].
  destruct r; rewrite Ha, ?Hi; done.
Qed.
Lemma commit_outcome_begin image s s1 s' r :
  view_same s s1 -> commit_outcome image s1 s' r -> commit_outcome image s s' r.
Proof.
  intros [Ha Hi] [Hk Hr]. rewrite Ha in Hk, Hr. rewrite Hi in Hk. by split.
Qed.
Lemma commit_attempt_spec (u : option (GenerationUpdater Er RErr)) ctx image s s' r :
  commit_attempt u ctx image s = (s', r) -> commit_outcome image s s' r.
Proof.
  unfold commit_attempt, raise. rewrite cloneBankImage_id.
  destruct u as [u|]; [|intros [= <- <-]; split; [done|by split; [|left]]].
  destruct ctx as [ctx|]; [|intros [= <- <-]; split; [done|by split; [|left]]].
  destruct (validateBankImage _ _ _); [intros [= <- <-]; split; [done|by split; [|left]]|].
  unfold mbind, stateM_bind, map_err. destruct (store_BeginUpdate s) as [s1 r1] eqn:E1.
  destruct (law_begin _ _ _ E1) as [Hv _].
  destruct r1; [|intros [= <- <-]; destruct Hv as [? Hi]; split; [apply Hi|by split; [|left]]].
  unfold with_close. destruct (commit_update ctx image s1) as [s2 r2] eqn:E2. intros [= <- <-].
  apply commit_outcome_close, (commit_outcome_begin _ _ s1); [done|]. by eapply commit_update_spec.
Qed.

Lemma recover_update_spec (u : GenerationUpdater Er RErr) ctx s s' r :
  recover_update u ctx s = (s', r) ->
  confined (otherBank (Generation_Bank (active_of s))) s s' /\
  match r with
  | Ok rec => Recovered_Generation rec = active_of s /\ Revision (active_of s) <> 0 /\ bank_ok (active_of s) /\
              image_same (Recovered_Image rec) (image_of s (Generation_Bank (active_of s))) /\
              image_same (image_of s' (otherBank (Generation_Bank (active_of s)))) (mkBankImage [] [])
  | Err _ => True
  end.
Proof.
  unfold recover_update, mbind, stateM_bind, map_err, reject_if, raise.
  destruct (store_Active s) as [s1 r1] eqn:E1. destruct (law_active _ _ _ E1) as [Hv1 Hq1].
  destruct r1 as [active|e]; [subst active|intros [= <- <-]; split; [by apply view_same_confined|done]].
  destruct (_ && _) eqn:Eb; [intros [= <- <-]; split; [by apply view_same_confined|done]|]. cbn.
  destruct (Z.eqb_spec (Revision (active_of s)) 0); [intros [= <- <-]; split; [by apply view_same_confined|done]|]. cbn.
  destruct (store_Read _ s1) as [s2 r2] eqn:E2. destruct (law_read _ _ _ _ E2) as [Hv2 Hq2].
  assert (view_same s s2) as Hv by by etrans.
  destruct r2 as [image|e]; [|intros [= <- <-]; split; [by apply view_same_confined|done]].
  destruct (validateBankImage _ _ _); [intros [= <- <-]; split; [by apply view_same_confined|done]|]. cbn.
  destruct (ctx O); [intros [= <- <-]; split; [by apply view_same_confined|done]|]. cbn.
  destruct (store_Reset _ s2) as [s3 r3] eqn:E3. destruct (law_reset _ _ _ _ E3) as [Hc Hq3].
  assert (confined (otherBank (Generation_Bank (active_of s))) s s3) as Hc'.
  { etrans; [by apply view_same_confined|done]. }
  destruct r3; intros [= <- <-]; (split; [done|]); [|done].
  rewrite cloneBankImage_id. cbn. split_and!; [done|done| | |done].
  - unfold bank_ok. apply andb_false_iff in Eb as [Eb|Eb]; open_hyps; auto.
  - destruct Hv1 as [_ Hi]. by rewrite <-Hi.
Qed.
Lemma Recover_spec (u : option (GenerationUpdater Er RErr)) ctx s s' r :
  Recover u ctx s = (s', r) ->
  active_of s' = active_of s /\
  image_of s' (Generation_Bank (active_of s)) = image_of s (Generation_Bank (active_of s)) /\
  match r with
  | Ok rec => Recovered_Generation rec = active_of s /\ Revision (active_of s) <> 0 /\
              image_same (Recovered_Image rec) (image_of s (Generation_Bank (active_of s))) /\
              image_same (image_of s' (otherBank (Generation_Bank (active_of s)))) (mkBankImage [] [])
  | Err _ => True
  end.
Proof.
  unfold Recover, raise. destruct u as [u|]; [|by intros [= <- <-]]. destruct ctx as [ctx|]; [|by intros [= <- <-]].
  unfold mbind, stateM_bind, map_err. destruct (store_BeginUpdate s) as [s1 r1] eqn:E1.
  destruct (law_begin _ _ _ E1) as [[Ha Hi] _]. destruct r1; [|by intros [= <- <-]].
  unfold with_close. destruct (recover_update u ctx s1) as [s2 r2] eqn:E2.
  destruct (recover_update_spec _ _ _ _ _ E2) as [[Ha2 Hi2] Hr]. destruct (law_close s2) as [Ha3 Hi3].
  intros [= <- <-]. rewrite Ha in *. split_and!; [congruence| |].
  - rewrite Hi3, Hi2, Hi; [done|]. intros E. by apply (otherBank_ne (Generation_Bank (active_of s))).
  - destruct r2; [|done]. rewrite Hi3, <-Hi. naive_solver.
Qed.

(** A sequence of commit requests, each with its own context. *)
Definition commit_all (u : option (GenerationUpdater Er RErr)) (requests : list (option Context * BankImage)) (s : S)
  : S * list (result (commit_error (Er:=Er) (RErr:=RErr)) Generation) :=
  foldl (fun st req => let '(s', r, _) := Commit u req.1 req.2 st.1 in (s', st.2 ++ [r])) (s, []) requests.
(** The image of the last request that succeeded, if any. *)
Fixpoint last_committed (requests : list (option Context * BankImage))
    (results : list (result (commit_error (Er:=Er) (RErr:=RErr)) Generation)) (current : BankImage) : BankImage :=
  match requests, results with
  | req :: requests', r :: results' =>
      last_committed requests' results' (if is_ok r then req.2 else current)
  | _, _ => current
  end.

Lemma Commit_cases (u : option (GenerationUpdater Er RErr)) ctx image s s' r record :
  Commit u ctx image s = (s', r, record) ->
  exists r0, commit_attempt u ctx image s = (s', r0) /\
    match r0 with
    | Ok g => r = Ok g /\ record = None
    | Err f => r = Err (fail_error f, (report u f).2) /\ record = (report u f).1
    end.
Proof.
  unfold Commit. destruct (commit_attempt u ctx image s) as [s1 [g|f]] eqn:E.
  - intros [= <- <- <-]. by exists (Ok g).
  - destruct (report u f) as [rec rerr] eqn:Er2. intros [= <- <- <-]. exists (Err f). by rewrite Er2.
Qed.
Lemma Commit_step (u : option (GenerationUpdater Er RErr)) ctx image s s' r record :
  Commit u ctx image s = (s', r, record) ->
  Revision (active_of s') = Revision (active_of s) + (if is_ok r then 1 else 0) /\
  (is_ok r = true -> active_of s' = successor (active_of s)) /\
  (is_ok r = false -> active_of s' = active_of s) /\
  forall current, image_same (image_of s (Generation_Bank (active_of s))) current ->
    image_same (image_of s' (Generation_Bank (active_of s'))) (if is_ok r then image else current).
Proof.
  intros (r0 & E & Hr)%Commit_cases. apply commit_attempt_spec in E as [Hk Ho].
  destruct r0 as [g|f]; destruct Hr as [-> _]; cbn.
  - destruct Ho as (_ & _ & -> & Ha & Hi). rewrite Ha. split_and!; try done.
  - destruct Ho as [-> _]. split_and!; [lia|done|done|]. intros current. by rewrite Hk.
Qed.

(** ** Properties *)
(** C9: a commit is atomic, for every store that keeps the interface's
    contract and every way it may fail or be cancelled.  On success the active
    generation is the next revision in the other bank, and that bank holds
    exactly the requested entries; on failure the active generation is
    unchanged.  Either way the bank that was active keeps its image.  The
    failure record, when a reporter is configured, names the generation that
    is still active whenever it was known. *)
Theorem Commit_atomic (u : option (GenerationUpdater Er RErr)) ctx image s s' r record :
  Commit u ctx image s = (s', r, record) ->
  image_of s' (Generation_Bank (active_of s)) = image_of s (Generation_Bank (active_of s)) /\
  match r with
  | Ok g => Revision (active_of s) <> u64_max /\ Revision g = Revision (active_of s) + 1 /\ Generation_Bank g = otherBank (Generation_Bank (active_of s)) /\ active_of s' = g /\
            image_same (image_of s' (Generation_Bank g)) image /\ record = None
  | Err _ => active_of s' = active_of s /\
             (forall rec, record = Some rec ->
                RecordType rec = "policy_update_failed" /\
                (ActiveGeneration rec = None \/ ActiveGeneration rec = Some (active_of s')) /\
                (AttemptedGeneration rec = None \/ AttemptedGeneration rec = Some (successor (active_of s'))))
  end.
Proof.
  intros (r0 & E & Hr)%Commit_cases. apply commit_attempt_spec in E as [Hk Ho]. split; [done|].
  destruct r0 as [g|f]; destruct Hr as [-> ->].
  - by destruct Ho as (_ & Hmax & -> & Ha & Hi).
  - destruct Ho as [Ha Hf]. split; [done|]. rewrite Ha. intros rec.
    unfold report. destruct u as [u|]; [|done]. destruct (reportFailure u); [|done].
    intros [= <-]. cbn. naive_solver.
Qed.

(** Recovery returns the last committed generation.  Whatever a commit
    did before it returned or failed (cancelled between two writes, rejected
    by the store, failing verification), a recovery that then succeeds returns
    the generation and image that were committed last: the new ones if the
    commit succeeded, the previous ones otherwise; and it leaves the staging
    bank empty without touching the active one. *)
Theorem Recover_after_Commit (u : option (GenerationUpdater Er RErr)) ctx image s s1 r record
    (u' : option (GenerationUpdater Er RErr)) ctx' s2 rec :
  Commit u ctx image s = (s1, r, record) ->
  Recover u' ctx' s1 = (s2, Ok rec) ->
  Recovered_Generation rec = match r with Ok g => g | Err _ => active_of s end /\
  image_same (Recovered_Image rec)
    match r with Ok _ => image | Err _ => image_of s (Generation_Bank (active_of s)) end /\
  active_of s2 = Recovered_Generation rec /\
  image_same (image_of s2 (Generation_Bank (Recovered_Generation rec))) (Recovered_Image rec) /\
  image_same (image_of s2 (otherBank (Generation_Bank (Recovered_Generation rec)))) (mkBankImage [] []).
Proof.
  intros HC HR. pose proof (Commit_step _ _ _ _ _ _ _ HC) as (_ & Hok & Herr & Himg).
  specialize (Himg _ (reflexivity _)).
  destruct (Recover_spec _ _ _ _ _ HR) as (Ha & Hk & Hg & _ & Hi & He).
  apply Commit_cases in HC as (r0 & E & Hr). apply commit_attempt_spec in E as [_ Ho].
  rewrite Hg. split_and!; [| |done| |done].
  - destruct r0 as [g|f]; destruct Hr as [-> _]; [by destruct Ho as (_ & _ & _ & ? & _)|by destruct Ho].
  - rewrite Hi. by destruct r.
  - rewrite Hk. by symmetry.
Qed.

(** Over any sequence of commits the revision counts the successes and
    the active bank holds the image of the last one that succeeded. *)
Theorem commit_all_history (u : option (GenerationUpdater Er RErr)) requests s s' results :
  commit_all u requests s = (s', results) ->
  length results = length requests /\
  Revision (active_of s') = Revision (active_of s) + len (filter (fun r => is_ok r = true) results) /\
  image_same (image_of s' (Generation_Bank (active_of s')))
    (last_committed requests results (image_of s (Generation_Bank (active_of s)))).
Proof.
  unfold commit_all.
  enough (forall acc current, image_same (image_of s (Generation_Bank (active_of s))) current ->
    foldl (fun st req => let '(s', r, _) := Commit u req.1 req.2 st.1 in (s', st.2 ++ [r])) (s, acc) requests = (s', results) ->
    exists new, results = acc ++ new /\ length new = length requests /\
      Revision (active_of s') = Revision (active_of s) + len (filter (fun r => is_ok r = true) new) /\
      image_same (image_of s' (Generation_Bank (active_of s'))) (last_committed requests new current)) as Hgen.
  { intros E. by destruct (Hgen [] _ (reflexivity _) E) as (new & -> & ?). }
  revert s. induction requests as [|req requests IH]; intros s acc current Hcur; cbn [foldl].
  { intros [= <- <-]. exists []. rewrite app_nil_r. split_and!; try done. change (len _) with 0. lia. }
  cbn [fst snd]. destruct (Commit u req.1 req.2 s) as [[s1 r] record] eqn:E1.
  destruct (Commit_step _ _ _ _ _ _ _ E1) as (Hrev & _ & _ & Himg).
  intros (new & -> & Hlen & Hr & Hi)%(IH _ _ (if is_ok r then req.2 else current)); [|by apply Himg].
  exists (r :: new). rewrite <-app_assoc. split_and!; [done|cbn; lia| |done].
  rewrite Hr, Hrev, filter_cons. destruct (is_ok r); [rewrite decide_True by done|rewrite decide_False by done];
    unfold len; cbn [length]; lia.
Qed.
End UpdaterLaws.

(** ** An in-memory store *)
Record MemoryStore := mkMemory {
  mem_locked : bool;
  mem_active : Generation;
  mem_bankA : BankImage;
  mem_bankB : BankImage;
}.
Inductive MemoryError := MemLocked | MemBankUnknown | MemStale.

Definition mem_image (s : MemoryStore) (b : Bank) : BankImage :=
  if b == BankA then mem_bankA s else if b == BankB then mem_bankB s else mkBankImage [] [].
Definition mem_update (b : Bank) (f : BankImage -> BankImage) : stateM MemoryStore MemoryError unit :=
  fun s => if b == BankA then (mkMemory (mem_locked s) (mem_active s) (f (mem_bankA s)) (mem_bankB s), Ok tt)
           else if b == BankB then (mkMemory (mem_locked s) (mem_active s) (mem_bankA s) (f (mem_bankB s)), Ok tt)
           else (s, Err MemBankUnknown).
Definition put_entry (e : MapEntry) (l : list MapEntry) : list MapEntry :=
  filter (fun e' => Key e' <> Key e) l ++ [e].

#[export] Instance memory_store : BankStore MemoryStore MemoryError := {|
  store_BeginUpdate := fun s => if mem_locked s then (s, Err MemLocked)
                                else (mkMemory true (mem_active s) (mem_bankA s) (mem_bankB s), Ok tt);
  store_Active := fun s => (s, Ok (mem_active s));
  store_Reset := fun b => mem_update b (fun _ => mkBankImage [] []);
  store_PutRule := fun b e => mem_update b (fun i => mkBankImage (put_entry e (Rules i)) (Profiles i));
  store_PutProfile := fun b e => mem_update b (fun i => mkBankImage (Rules i) (put_entry e (Profiles i)));
  store_Read := fun b s => (s, Ok (mem_image s b));
  store_Activate := fun expected next s =>
    if mem_active s == expected then (mkMemory (mem_locked s) next (mem_bankA s) (mem_bankB s), Ok tt)
    else (s, Err MemStale);
  store_Close := fun s => mkMemory false (mem_active s) (mem_bankA s) (mem_bankB s);
|}.
#[export] Instance memory_view : BankView MemoryStore := {| active_of := mem_active; image_of := mem_image |}.

Lemma mem_update_confined b f :
  holds (confined b) (mem_update b f) (fun s _ s' => mem_image s' b = f (mem_image s b)).
Proof.
  intros s s' r. unfold mem_update. case_bool_decide as EA; [|case_bool_decide as EB].
  - subst. intros [= <- <-]. split; [split; [done|]|done]. intros b' Hb. cbn. unfold mem_image.
    by rewrite bool_decide_eq_false_2.
  - subst. intros [= <- <-]. split; [split; [done|]|done]. intros b' Hb. cbn. unfold mem_image.
    case_bool_decide; [done|]. by rewrite bool_decide_eq_false_2.
  - intros [= <- <-]. done.
Qed.
#[export] Instance memory_laws : BankStoreLaws MemoryStore MemoryError.
Proof.
  split.
  - intros s s' r. cbn. destruct (mem_locked s); by intros [= <- <-].
  - intros s s' r [= <- <-]. done.
  - intros b. eapply holds_weaken; [apply mem_update_confined|]. cbn. by intros s a s' _ ->.
  - intros b e. eapply holds_weaken; [apply mem_update_confined|done].
  - intros b e. eapply holds_weaken; [apply mem_update_confined|done].
  - intros b s s' r [= <- <-]. done.
  - intros expected next s s' r. cbn. case_bool_decide; by intros [= <- <-].
  - done.
Qed.

Definition demo_memory : MemoryStore :=
  mkMemory false (mkGeneration 4 BankA) (mkBankImage [mkMapEntry 1 [9]] []) (mkBankImage [] []).
Definition demo_updater : option (GenerationUpdater MemoryError unit) := Some (mkUpdater 8 8 (Some (fun _ => None))).
Definition demo_image : BankImage := mkBankImage [mkMapEntry 3 [7; 7]; mkMapEntry 2 [5]] [mkMapEntry 1 [1]].
Definition never_cancelled : option Context := Some (fun _ => false).
(** Cancelled between the first and the second rule. *)
Definition cancelled_midway : option Context := Some (fun n => bool_decide (n = 1%nat)).

Lemma Commit_atomic_witness : exists s' g,
  Commit demo_updater never_cancelled demo_image demo_memory = (s', Ok g, None) /\
  mem_active s' = mkGeneration 5 BankB /\ image_same (mem_image s' BankB) demo_image /\
  (exists s'' e rec, Commit demo_updater cancelled_midway demo_image demo_memory = (s'', Err e, Some rec) /\
     active_of s'' = active_of demo_memory).
Proof.
  eexists _, _. split; [vm_compute; reflexivity|]. split; [reflexivity|]. split.
  - pose proof (Commit_atomic demo_updater never_cancelled demo_image demo_memory _ _ _ eq_refl) as (_ & _ & _ & _ & _ & H & _).
    exact H.
  - eexists _, _, _. split; [vm_compute; reflexivity|].
    pose proof (Commit_atomic demo_updater cancelled_midway demo_image demo_memory _ _ _ eq_refl) as (_ & H & _).
    exact H.
Defined.

Lemma Recover_after_Commit_witness : exists s1 e record s2 rec,
  Commit demo_updater cancelled_midway demo_image demo_memory = (s1, Err e, record) /\
  Recover demo_updater never_cancelled s1 = (s2, Ok rec) /\
  Recovered_Generation rec = mkGeneration 4 BankA /\
  image_same (Recovered_Image rec) (mkBankImage [mkMapEntry 1 [9]] []).
Proof.
  eexists _, _, _, _, _. split; [vm_compute; reflexivity|]. split; [vm_compute; reflexivity|].
  pose proof (Recover_after_Commit demo_updater cancelled_midway demo_image demo_memory _ _ _
    demo_updater never_cancelled _ _ eq_refl eq_refl) as (H1 & H2 & _). split; [exact H1|exact H2].
Defined.

Lemma commit_all_history_witness : exists s' results,
  commit_all demo_updater [(never_cancelled, demo_image); (cancelled_midway, demo_image); (never_cancelled, mkBankImage [] [])]
    demo_memory = (s', results) /\ Revision (mem_active s') = 6.
Proof.
  eexists _, _. split; [vm_compute; reflexivity|].
  pose proof (commit_all_history demo_updater
    [(never_cancelled, demo_image); (cancelled_midway, demo_image); (never_cancelled, mkBankImage [] [])]
    demo_memory _ _ eq_refl) as (_ & H & _). exact H.
Defined.
