(* ===== verification/Engine.v ===== *)
(** * The policy engine ([internal/policy/engine.go])

    [Engine] holds one prepared, immutable snapshot per generation and
    evaluates file, exec and network observations against it.  [Activate] is
    the only operation that changes the engine; the lock and the atomic
    pointer of the source make it one atomic step. *)
From S2P Require Import Prelude GoStd Glob Netip Schema Limits Match FileMatch ExecMatch NetworkMatch Generation.
Open Scope Z_scope.

Record EvaluationContext := mkContext {
  Context_RunID : string;
  Context_CgroupID : string;
  Context_Labels : gmap string string;
}.

Record FinalDecision := mkFinalDecision {
  Final_PolicyID : string;
  Final_RuleID : Z;
  Final_Decision : Decision;
  Final_NetworkDisposition : NetworkDisposition;
  Final_RequestedAction : Action;
  Final_EffectiveAction : Action;
  Final_Enforced : bool;
}.
Record DecisionReport := mkDecisionReport {
  Report_Generation : Generation;
  Report_Hits : list PolicyHit;
  Report_Gaps : list EvaluationGap;
  Report_Final : option FinalDecision;
}.
Record NetworkDecisionReport := mkNetworkDecisionReport {
  NetworkReport : DecisionReport;
  NetworkReport_Decisions : list NetworkPolicyDecision;
}.

Record preparedEngineBundle := mkPrepared {
  prepared_bundle : Bundle;
  prepared_fileRules : gmap string (list compiledFileRule);
  prepared_execRules : gmap string (list compiledExecRule);
  prepared_networkRules : gmap string (list compiledNetworkRule);
}.
Record engineSnapshot := mkSnapshot {
  snap_generation : Generation;
  snap_bundle : Bundle;
  snap_fileRules : gmap string (list compiledFileRule);
  snap_execRules : gmap string (list compiledExecRule);
  snap_networkRules : gmap string (list compiledNetworkRule);
}.
(** [active] is the atomic pointer: [None] is nil. *)
Record Engine := mkEngine {
  engine_limits : Limits;
  engine_active : option engineSnapshot;
}.

Inductive EngineError :=
| EngineRequired
| NoActiveGeneration
| RevisionZero
| GenerationBankInvalid (b : Bank)
| RevisionNotNewer (attempted current : Z)
| BankNotInactive (revision : Z)
| PrepareInvalid (errors : list BundleError)
| PreparePreview (e : PreviewError)
| EngineFile (e : FileError)
| EngineExec (e : ExecError)
| EngineNetwork (e : NetworkError).

Definition lift_err {E E' A} (f : E -> E') (r : result E A) : result E' A :=
  match r with Ok a => Ok a | Err e => Err (f e) end.

(** ** Preparation *)
Definition cloneStringMap (values : gmap string string) : gmap string string :=
  list_to_map (map_to_list values).
Definition clone_policy (p : Policy) : Policy :=
  let s := Policy_Scope p in
  let c := Policy_Conditions p in
  mkPolicy (ID p) (Name p) (Description p) (Enabled p)
    (mkScope (Scope_Type s) (Scope_RunID s) (Scope_CgroupID s) (cloneStringMap (Scope_LabelSelector s)))
    (Policy_Decision p) (RequestedAction p) (Priority p) (Policy_Severity p)
    (mkConditions
       ((fun f => mkFileCondition (ExactPaths f) (Prefixes f) (Suffixes f) (Basenames f) (Access f)) <$> File c)
       ((fun e => mkExecCondition (Executables e) (ArgContains e)) <$> Exec c)
       ((fun n => mkNetworkCondition (Default n) (CIDRs n) (Ports n) (Families n)) <$> Network c)).
Definition cloneBundle (b : Bundle) : Bundle :=
  mkBundle (Bundle_SchemaVersion b) (map clone_policy (Policies b)).

Definition index_rules {R} (key : R -> string) (rules : list R) : gmap string (list R) :=
  foldl (fun indexed rule => <[key rule := default [] (indexed !! key rule) ++ [rule]]> indexed) ∅ rules.
Definition indexFileRules : list compiledFileRule -> gmap string (list compiledFileRule) :=
  index_rules (fun r => ID (frule_policy r)).
Definition indexExecRules : list compiledExecRule -> gmap string (list compiledExecRule) :=
  index_rules (fun r => ID (erule_policy r)).
Definition indexNetworkRules : list compiledNetworkRule -> gmap string (list compiledNetworkRule) :=
  index_rules (fun r => ID (nrule_policy r)).

Definition select_rules {R} (indexed : gmap string (list R)) (b : Bundle) : list R :=
  concat (map (fun p => default [] (indexed !! ID p)) (Policies b)).
Definition selectFileRules : gmap string (list compiledFileRule) -> Bundle -> list compiledFileRule := select_rules.
Definition selectExecRules : gmap string (list compiledExecRule) -> Bundle -> list compiledExecRule := select_rules.
Definition selectNetworkRules : gmap string (list compiledNetworkRule) -> Bundle -> list compiledNetworkRule := select_rules.

Definition prepareEngineBundle (b : Bundle) (l : Limits) : result EngineError preparedEngineBundle * list Diagnostic :=
  let '(prepared, diagnostics, errs) := NormalizeAndValidate (Some (cloneBundle b)) in
  match prepared, errs with
  | Some prepared, [] =>
      (match (PreviewCompile prepared l).2 with
       | Some e => Err (PreparePreview e)
       | None =>
           fileRules ← lift_err EngineFile (compileFileRules prepared);
           execRules ← lift_err EngineExec (compileExecRules prepared);
           networkRules ← lift_err EngineNetwork (compileNetworkRules prepared);
           Ok (mkPrepared prepared (indexFileRules fileRules) (indexExecRules execRules) (indexNetworkRules networkRules))
       end, diagnostics)
  | _, errs => (Err (PrepareInvalid errs), diagnostics)
  end.

Definition newEngineSnapshot (g : Generation) (p : preparedEngineBundle) : engineSnapshot :=
  mkSnapshot g (prepared_bundle p) (prepared_fileRules p) (prepared_execRules p) (prepared_networkRules p).

Definition validateInitialGeneration (g : Generation) : option EngineError :=
  if Revision g =? 0 then Some RevisionZero
  else if (Generation_Bank g != BankA) && (Generation_Bank g != BankB) then Some (GenerationBankInvalid (Generation_Bank g))
  else None.

Definition NewEngine (b : Bundle) (g : Generation) (l : Limits) : result EngineError Engine * list Diagnostic :=
  match validateInitialGeneration g with
  | Some e => (Err e, [])
  | None => let '(r, diagnostics) := prepareEngineBundle b l in
            (prepared ← r; Ok (mkEngine (withDefaults l) (Some (newEngineSnapshot g prepared))), diagnostics)
  end.

(** [Activate] returns the engine after the call. *)
Definition Activate (e : option Engine) (b : Bundle) (g : Generation)
  : option Engine * list Diagnostic * option EngineError :=
  match e with
  | None => (None, [], Some EngineRequired)
  | Some engine =>
      match engine_active engine with
      | None => (e, [], Some NoActiveGeneration)
      | Some current =>
          if (Generation_Bank g != BankA) && (Generation_Bank g != BankB)
          then (e, [], Some (GenerationBankInvalid (Generation_Bank g)))
          else if Revision g <=? Revision (snap_generation current)
          then (e, [], Some (RevisionNotNewer (Revision g) (Revision (snap_generation current))))
          else if Generation_Bank g =? Generation_Bank (snap_generation current)
          then (e, [], Some (BankNotInactive (Revision g)))
          else match prepareEngineBundle b (engine_limits engine) with
               | (Err err, diagnostics) => (e, diagnostics, Some err)
               | (Ok prepared, diagnostics) =>
                   (Some (mkEngine (engine_limits engine) (Some (newEngineSnapshot g prepared))), diagnostics, None)
               end
      end
  end.

Definition engine_snapshot (e : option Engine) : result EngineError engineSnapshot :=
  match e with
  | None => Err EngineRequired
  | Some engine => match engine_active engine with None => Err NoActiveGeneration | Some s => Ok s end
  end.

(** ** Selection *)
Inductive conditionKind := conditionFile | conditionExec | conditionNetwork.

Definition hasCondition (p : Policy) (k : conditionKind) : bool :=
  match k with
  | conditionFile => match File (Policy_Conditions p) with Some _ => true | None => false end
  | conditionExec => match Exec (Policy_Conditions p) with Some _ => true | None => false end
  | conditionNetwork => match Network (Policy_Conditions p) with Some _ => true | None => false end
  end.
(** A missing label reads as the empty string. *)
Definition scopeMatches (s : Scope) (c : EvaluationContext) : bool :=
  if Scope_Type s == ScopeGlobal then true
  else if Scope_Type s == ScopeRun then (Context_RunID c != "") && (Context_RunID c == Scope_RunID s)
  else if Scope_Type s == ScopeCgroup then (Context_CgroupID c != "") && (Context_CgroupID c == Scope_CgroupID s)
  else if Scope_Type s == ScopeLabels then
    forallb (fun kv => default EmptyString (Context_Labels c !! kv.1) == kv.2) (map_to_list (Scope_LabelSelector s))
  else false.

Definition applicable (c : EvaluationContext) (k : conditionKind) (p : Policy) : bool :=
  Enabled p && scopeMatches (Policy_Scope p) c && hasCondition p k.
Definition selectPolicies (b : Bundle) (c : EvaluationContext) (k : conditionKind) : Bundle :=
  mkBundle (Bundle_SchemaVersion b)
    (sort_by HigherPrecedence (filter (fun p => applicable c k p = true) (Policies b))).

(** ** Reports *)
(** [rank] and [policies] hold the last entry of each identifier. *)
Definition rank_map (ps : list Policy) : gmap string Z :=
  foldl (fun m ip => <[ID ip.2 := Z.of_nat ip.1]> m) ∅ (imap pair ps).
Definition policy_map (ps : list Policy) : gmap string Policy :=
  foldl (fun m p => <[ID p := p]> m) ∅ ps.
Definition rank_less (rank : gmap string Z) (h1 h2 : PolicyHit) : bool :=
  default 0 (rank !! Hit_PolicyID h1) <? default 0 (rank !! Hit_PolicyID h2).

Definition buildDecisionReport (g : Generation) (b : Bundle) (r : MatchResult) : DecisionReport :=
  let hits := sort_by (rank_less (rank_map (Policies b))) (Hits r) in
  mkDecisionReport g hits (Gaps r)
    (match hits with
     | [] => None
     | winner :: _ =>
         let decision := match policy_map (Policies b) !! Hit_PolicyID winner with
                         | Some p => Policy_Decision p
                         | None => ""
                         end in
         Some (mkFinalDecision (Hit_PolicyID winner) (Hit_RuleID winner) decision ""
                 (Hit_RequestedAction winner) (Hit_EffectiveAction winner) (Hit_Enforced winner))
     end).
Definition emptyDecisionReport (g : Generation) : DecisionReport := mkDecisionReport g [] [] None.

(** ** Evaluation *)
Definition gap_key (g : EvaluationGap) : string :=
  let nul := String (chr 0) EmptyString in
  Gap_PolicyID g +:+ nul +:+ Gap_Code g +:+ nul +:+ Gap_Message g.

(** Append the elements whose key was not seen before. *)
Definition merge_new {A K} `{EqDecision K} (key : A -> K) (st : list K * list A) (x : A) : list K * list A :=
  if bool_decide (key x ∈ st.1) then st else (key x :: st.1, st.2 ++ [x]).

Definition file_state := (list Z * list PolicyHit * (list string * list EvaluationGap))%type.
Definition file_observation_step (rules : list compiledFileRule) (st : file_state) (o : FileObservation)
  : result EngineError file_state :=
  match validateFileObservation o with
  | Some e => Err (EngineFile e)
  | None =>
      let m := matchFileRules rules o in
      Ok (foldl (merge_new Hit_RuleID) st.1 (Hits m), foldl (merge_new gap_key) st.2 (Gaps m))
  end.
Definition evaluateFileSnapshot (s : engineSnapshot) (c : EvaluationContext) (os : list FileObservation)
  : result EngineError DecisionReport :=
  let b := selectPolicies (snap_bundle s) c conditionFile in
  match Policies b with
  | [] => Ok (emptyDecisionReport (snap_generation s))
  | _ =>
      let rules := selectFileRules (snap_fileRules s) b in
      st ← foldM (file_observation_step rules) (([], []), ([], [])) os;
      Ok (buildDecisionReport (snap_generation s) b (mkMatchResult st.1.2 st.2.2))
  end.
Definition EvaluateFile (e : option Engine) (c : EvaluationContext) (o : FileObservation) : result EngineError DecisionReport :=
  match validateFileObservation o with
  | Some err => Err (EngineFile err)
  | None => s ← engine_snapshot e; evaluateFileSnapshot s c [o]
  end.

Definition EvaluateExec (e : option Engine) (c : EvaluationContext) (o : ExecObservation) : result EngineError DecisionReport :=
  match validateExecObservation o with
  | Some err => Err (EngineExec err)
  | None =>
      s ← engine_snapshot e;
      let b := selectPolicies (snap_bundle s) c conditionExec in
      match Policies b with
      | [] => Ok (emptyDecisionReport (snap_generation s))
      | _ => Ok (buildDecisionReport (snap_generation s) b (matchExecRules (selectExecRules (snap_execRules s) b) o))
      end
  end.

(** The final decision takes the disposition of its own network decision. *)
Definition set_disposition (ds : list NetworkPolicyDecision) (f : FinalDecision) : FinalDecision :=
  match List.find (fun d => (ND_PolicyID d == Final_PolicyID f) && (ND_RuleID d =? Final_RuleID f)) ds with
  | Some d => mkFinalDecision (Final_PolicyID f) (Final_RuleID f) (Final_Decision f) (ND_Disposition d)
                (Final_RequestedAction f) (Final_EffectiveAction f) (Final_Enforced f)
  | None => f
  end.
Definition EvaluateNetwork (e : option Engine) (c : EvaluationContext) (o : NetworkObservation)
  : result EngineError NetworkDecisionReport :=
  match validateNetworkObservation o with
  | Some err => Err (EngineNetwork err)
  | None =>
      s ← engine_snapshot e;
      let b := selectPolicies (snap_bundle s) c conditionNetwork in
      match Policies b with
      | [] => Ok (mkNetworkDecisionReport (emptyDecisionReport (snap_generation s)) [])
      | _ =>
          let m := matchNetworkRules (selectNetworkRules (snap_networkRules s) b) o in
          let r := buildDecisionReport (snap_generation s) b (Network_MatchResult m) in
          Ok (mkNetworkDecisionReport
                (mkDecisionReport (Report_Generation r) (Report_Hits r) (Report_Gaps r)
                   (set_disposition (Network_Decisions m) <$> Report_Final r))
                (Network_Decisions m))
      end
  end.

(** ** Lemmas: preparation *)
Lemma clone_policy_id p : clone_policy p = p.
Proof.
  destruct p as [? ? ? ? [t r c ls] ? ? ? ? [f e n]]. unfold clone_policy, cloneStringMap. cbn.
  rewrite list_to_map_to_list. destruct f as [[]|], e as [[]|], n as [[]|]; done.
Qed.
Lemma cloneBundle_id b : cloneBundle b = b.
Proof.
  destruct b as [v ps]. unfold cloneBundle. cbn. f_equal.
  rewrite (map_ext _ (fun p => p)) by apply clone_policy_id. apply map_id.
Qed.

Definition normalized (b : Bundle) : Bundle := mkBundle (Bundle_SchemaVersion b) (map normalize_policy (Policies b)).

(** A prepared bundle: what it was made of. *)
Record prepared_from (b : Bundle) (l : Limits) (p : preparedEngineBundle) : Prop := {
  pf_bundle : prepared_bundle p = normalized b;
  pf_wf : wf_bundle (prepared_bundle p);
  pf_preview : (PreviewCompile (prepared_bundle p) l).2 = None;
  pf_file : exists rules, compileFileRules (prepared_bundle p) = Ok rules /\ prepared_fileRules p = indexFileRules rules;
  pf_exec : exists rules, compileExecRules (prepared_bundle p) = Ok rules /\ prepared_execRules p = indexExecRules rules;
  pf_network : exists rules, compileNetworkRules (prepared_bundle p) = Ok rules /\
                 prepared_networkRules p = indexNetworkRules rules;
}.
Lemma prepareEngineBundle_Ok b l p ds : prepareEngineBundle b l = (Ok p, ds) -> prepared_from b l p.
Proof.
  unfold prepareEngineBundle, NormalizeAndValidate. rewrite cloneBundle_id. fold (normalized b). cbv beta iota zeta.
  pose proof (Bundle_Validate_nil (normalized b)) as Hv. destruct (Bundle_Validate (normalized b)); [|done].
  destruct (PreviewCompile (normalized b) l).2 eqn:Ep; [done|].
  destruct (compileFileRules (normalized b)) as [fr|] eqn:Ef; [|done].
  destruct (compileExecRules (normalized b)) as [er|] eqn:Ee; [|done].
  destruct (compileNetworkRules (normalized b)) as [nr|] eqn:En; [|done].
  cbn [lift_err mbind result_bind]. intros [= <- _]. constructor; cbn [prepared_bundle prepared_fileRules prepared_execRules prepared_networkRules]; [done|tauto|done|eauto..].
Qed.

(** ** Lemmas: indexing and selection *)
Lemma index_rules_lookup {R} (key : R -> string) (rules : list R) k :
  default [] (index_rules key rules !! k) = filter (fun r => key r = k) rules.
Proof.
  unfold index_rules. rewrite <-(app_nil_l (filter _ rules)).
  assert (forall (m : gmap string (list R)) acc, default [] (m !! k) = acc ->
    default [] (foldl (fun indexed rule => <[key rule := default [] (indexed !! key rule) ++ [rule]]> indexed) m rules !! k)
    = acc ++ filter (fun r => key r = k) rules) as H.
  { induction rules as [|r rules IH]; intros m acc Hm; cbn [foldl]; [by rewrite app_nil_r|].
    rewrite filter_cons. case_decide as Hk.
    - rewrite (IH _ (acc ++ [r])); [by rewrite <-app_assoc|]. rewrite Hk, lookup_insert_eq. cbn. by rewrite Hm.
    - rewrite (IH _ acc); [done|]. by rewrite lookup_insert_ne. }
  by apply H.
Qed.

(** The rules of one policy are the block the compiler emitted for it. *)
Lemma filter_blocks {A B} (key : A -> string) (key' : B -> string) (f : A -> list B) (l : list A) x :
  NoDup (map key l) -> (forall y z, y ∈ l -> z ∈ f y -> key' z = key y) -> x ∈ l ->
  filter (fun z => key' z = key x) (concat (map f l)) = f x.
Proof.
  intros Hnd Hk Hx. induction l as [|y l IH]; [by apply elem_of_nil in Hx|].
  cbn [map concat] in *. apply NoDup_cons in Hnd as [Hy Hnd]. rewrite filter_app.
  assert (forall P (m : list B) `{forall z, base.Decision (P z)}, (forall z, z ∈ m -> P z) -> filter P m = m) as Hall.
  { clear. intros P m HP. induction m as [|z m IH]; intros H; [done|].
    rewrite filter_cons_True, IH by set_solver. done. }
  assert (forall P (m : list B) `{forall z, base.Decision (P z)}, (forall z, z ∈ m -> ~ P z) -> filter P m = []) as Hnone.
  { clear. intros P m HP. induction m as [|z m IH]; intros H; [done|].
    rewrite filter_cons_False, IH by set_solver. done. }
  apply elem_of_cons in Hx as [->|Hx].
  - rewrite Hall, Hnone, app_nil_r; [done| |].
    + intros z (w & Hw & Hz)%elem_of_concat_map Ez. apply Hy. rewrite <-Ez, (Hk w z) by set_solver.
      by apply list_elem_of_fmap_2.
    + intros z Hz. apply Hk; set_solver.
  - rewrite Hnone, IH; [done|done|set_solver|done|].
    intros z Hz Ez. apply Hy. rewrite <-(Hk y z), Ez by set_solver. by apply list_elem_of_fmap_2.
Qed.

(** What evaluation sees of a compiled rule set: the blocks of the selected
    policies, in their order. *)
Lemma select_rules_blocks {R} (pol : R -> Policy) (block : Policy -> list R) (ps sel : list Policy) :
  NoDup (map ID ps) -> (forall p r, r ∈ block p -> pol r = p) -> (forall p, p ∈ sel -> p ∈ ps) ->
  concat (map (fun p => default [] (index_rules (fun r => ID (pol r)) (concat (map block ps)) !! ID p)) sel)
  = concat (map block sel).
Proof.
  intros Hnd Hpol Hsel. f_equal. apply map_ext_in. intros p Hp%list_elem_of_In.
  rewrite index_rules_lookup. apply (filter_blocks ID (fun r => ID (pol r)) block); [done| |by apply Hsel].
  intros q r _ Hr. by rewrite (Hpol q r).
Qed.

Definition file_block (p : Policy) : list compiledFileRule := map (emit file_rule) (policy_items file_select p).
Definition exec_block (p : Policy) : list compiledExecRule := map (emit exec_rule) (policy_items exec_select p).
Definition network_block (p : Policy) : list compiledNetworkRule :=
  if has_network_rule p then [network_rule_of p] else [].

Lemma policy_items_policy groups p it : it ∈ policy_items groups p -> item_policy it = p.
Proof. intros (g & _ & (i & v & -> & _)%elem_of_lookup_imap)%elem_of_concat_map. done. Qed.
Lemma file_block_policy p r : r ∈ file_block p -> frule_policy r = p.
Proof. intros (it & -> & Hit)%list_elem_of_fmap. cbn. by eapply policy_items_policy. Qed.
Lemma exec_block_policy p r : r ∈ exec_block p -> erule_policy r = p.
Proof. intros (it & -> & Hit)%list_elem_of_fmap. cbn. by eapply policy_items_policy. Qed.
Lemma network_block_policy p r : r ∈ network_block p -> nrule_policy r = p.
Proof. unfold network_block. destruct (has_network_rule p); [|set_solver]. by intros ->%list_elem_of_singleton. Qed.

Lemma network_blocks ps :
  map network_rule_of (filter (fun p => has_network_rule p = true) ps) = concat (map network_block ps).
Proof.
  induction ps as [|p ps IH]; [done|]. rewrite filter_cons. cbn [map concat].
  rewrite <-IH. unfold network_block. destruct (has_network_rule p); [rewrite decide_True by done|rewrite decide_False by done]; done.
Qed.

Section Prepared.
Context (b : Bundle) (l : Limits) (p : preparedEngineBundle) (Hp : prepared_from b l p).
Context (sel : Bundle) (Hsel : forall q, q ∈ Policies sel -> q ∈ Policies (prepared_bundle p)).

Let nodup : NoDup (map ID (Policies (prepared_bundle p))) := wf_bundle_nodup _ (pf_wf _ _ _ Hp).

Lemma selected_file_rules : selectFileRules (prepared_fileRules p) sel = concat (map file_block (Policies sel)).
Proof.
  destruct (pf_file _ _ _ Hp) as (rules & Ec & ->). apply compileFileRules_output in Ec as (_ & -> & _).
  unfold selectFileRules, select_rules, indexFileRules. rewrite concat_map, map_map.
  apply (select_rules_blocks frule_policy file_block); [done|apply file_block_policy|done].
Qed.
Lemma selected_exec_rules : selectExecRules (prepared_execRules p) sel = concat (map exec_block (Policies sel)).
Proof.
  destruct (pf_exec _ _ _ Hp) as (rules & Ec & ->). apply compileExecRules_output in Ec as (_ & -> & _).
  unfold selectExecRules, select_rules, indexExecRules. rewrite concat_map, map_map.
  apply (select_rules_blocks erule_policy exec_block); [done|apply exec_block_policy|done].
Qed.
Lemma selected_network_rules : selectNetworkRules (prepared_networkRules p) sel = concat (map network_block (Policies sel)).
Proof.
  destruct (pf_network _ _ _ Hp) as (rules & Ec & ->). apply compileNetworkRules_output in Ec as (_ & -> & _).
  unfold selectNetworkRules, select_rules, indexNetworkRules. rewrite network_blocks.
  apply (select_rules_blocks nrule_policy network_block); [done|apply network_block_policy|done].
Qed.
End Prepared.

(** ** Lemmas: selection *)
Lemma elem_of_selectPolicies b c k p :
  p ∈ Policies (selectPolicies b c k) <-> p ∈ Policies b /\ applicable c k p = true.
Proof. unfold selectPolicies; cbn. rewrite elem_of_sort_by, list_elem_of_filter. tauto. Qed.
Lemma selectPolicies_nodup b c k :
  NoDup (map ID (Policies b)) -> NoDup (map ID (Policies (selectPolicies b c k))).
Proof.
  intros Hnd. unfold selectPolicies; cbn. rewrite sort_by_perm.
  induction (Policies b) as [|p ps IH]; [constructor|]. cbn in Hnd. apply NoDup_cons in Hnd as [Hp Hnd].
  rewrite filter_cons. case_decide; [|auto]. cbn. constructor; [|auto].
  intros (q & Eq & [_ Hq]%list_elem_of_filter)%list_elem_of_fmap. apply Hp. rewrite Eq. by apply list_elem_of_fmap_2.
Qed.
Lemma selectPolicies_sorted b c k : StronglySorted (not_after HigherPrecedence) (Policies (selectPolicies b c k)).
Proof. apply sort_by_sorted, _. Qed.
Lemma selectPolicies_perm b b' c k :
  NoDup (map ID (Policies b)) -> Policies b ≡ₚ Policies b' ->
  Policies (selectPolicies b c k) = Policies (selectPolicies b' c k).
Proof.
  intros Hnd Hp. unfold selectPolicies; cbn. apply sort_by_perm_eq; [apply _| |by rewrite Hp].
  intros x y [_ Hx]%list_elem_of_filter [_ Hy]%list_elem_of_filter H1 H2.
  apply (nodup_map_inj ID (Policies b)); [done..|]. by apply HigherPrecedence_separates.
Qed.

(** ** Lemmas: reports *)
Lemma rank_map_lookup ps i p :
  NoDup (map ID ps) -> ps !! i = Some p -> rank_map ps !! ID p = Some (Z.of_nat i).
Proof.
  intros Hnd Hi. unfold rank_map.
  assert (forall (l : list (nat * Policy)) (m : gmap string Z) j q,
    NoDup (map (fun ip => ID ip.2) l) -> (j, q) ∈ l ->
    foldl (fun m ip => <[ID ip.2 := Z.of_nat ip.1]> m) m l !! ID q = Some (Z.of_nat j)) as H.
  { clear. induction l as [|[a x] l IH]; intros m j q Hnd Hq; [by apply elem_of_nil in Hq|].
    cbn in *. apply NoDup_cons in Hnd as [Hx Hnd]. apply elem_of_cons in Hq as [[= -> ->]|Hq]; [|by apply IH].
    assert (forall (l : list (nat * Policy)) (m : gmap string Z) id,
      id ∉ map (fun ip => ID ip.2) l -> foldl (fun m ip => <[ID ip.2 := Z.of_nat ip.1]> m) m l !! id = m !! id) as Hskip.
    { clear. induction l as [|[a x] l IH]; intros m id Hid; [done|]. cbn in *.
      rewrite IH by set_solver. rewrite lookup_insert_ne; [done|]. set_solver. }
    rewrite Hskip by done. by rewrite lookup_insert_eq. }
  apply H.
  - assert (map (fun ip => ID ip.2) (imap pair ps) = map ID ps) as ->; [|done].
    change ((fun ip : nat * Policy => ID ip.2) <$> imap pair ps = ID <$> ps). rewrite fmap_imap.
    etrans; [|apply imap_const]. by apply imap_ext.
  - by apply (elem_of_lookup_imap_2 pair).
Qed.
Lemma policy_map_lookup ps p : NoDup (map ID ps) -> p ∈ ps -> policy_map ps !! ID p = Some p.
Proof.
  unfold policy_map. generalize (∅ : gmap string Policy). induction ps as [|q ps IH]; intros m Hnd Hp.
  { by apply elem_of_nil in Hp. }
  cbn in *. apply NoDup_cons in Hnd as [Hq Hnd]. apply elem_of_cons in Hp as [->|Hp]; [|by apply IH].
  assert (forall (l : list Policy) (m : gmap string Policy) id,
    id ∉ map ID l -> foldl (fun m p => <[ID p := p]> m) m l !! id = m !! id) as Hskip.
  { clear. induction l as [|x l IH]; intros m id Hid; [done|]. cbn in *.
    rewrite IH by set_solver. rewrite lookup_insert_ne; [done|]. set_solver. }
  rewrite Hskip by done. by rewrite lookup_insert_eq.
Qed.
#[export] Instance rank_less_weak rank : StrictWeak (rank_less rank).
Proof.
  unfold rank_less. split; intros x y.
  - rewrite Z.ltb_lt, Z.ltb_ge. lia.
  - intros z. rewrite !Z.ltb_ge. lia.
Qed.

(** The contract of a report over the selected policies [sel]. *)
Record report_ok (g : Generation) (sel : list Policy) (hits : list PolicyHit) (r : DecisionReport) : Prop := {
  ro_generation : Report_Generation r = g;
  ro_hits : Report_Hits r ≡ₚ hits;
  ro_none : Report_Final r = None <-> hits = [];
  ro_final : forall f, Report_Final r = Some f -> exists p hit, p ∈ sel /\ hit ∈ hits /\
    Final_PolicyID f = ID p /\ Final_Decision f = Policy_Decision p /\
    Hit_PolicyID hit = ID p /\ Final_RuleID f = Hit_RuleID hit /\
    Final_RequestedAction f = Hit_RequestedAction hit /\ Final_EffectiveAction f = Hit_EffectiveAction hit /\
    Final_Enforced f = Hit_Enforced hit /\
    (forall h q, h ∈ hits -> q ∈ sel -> Hit_PolicyID h = ID q -> q = p \/ HigherPrecedence p q = true);
}.

Lemma sorted_precedes sel i j p q :
  StronglySorted (not_after HigherPrecedence) sel -> NoDup (map ID sel) ->
  sel !! i = Some p -> sel !! j = Some q -> (i <= j)%nat -> q = p \/ HigherPrecedence p q = true.
Proof.
  intros Hs Hnd Hi Hj Hij. destruct (decide (i = j)) as [->|Hne]; [left; congruence|]. right.
  pose proof (StronglySorted_lookup _ _ _ _ _ _ Hs Hi Hj ltac:(lia)) as Hn. unfold not_after in Hn.
  destruct (HigherPrecedence p q) eqn:E; [done|exfalso].
  pose proof (HigherPrecedence_separates _ _ E Hn) as Eid.
  assert (p = q) as ->. { apply (nodup_map_inj ID sel); [done|by eapply list_elem_of_lookup_2..|done]. }
  apply Hne. rewrite NoDup_alt in Hnd. apply (Hnd i j (ID q)).
  - change ((ID <$> sel) !! i = Some (ID q)). by rewrite list_lookup_fmap, Hi.
  - change ((ID <$> sel) !! j = Some (ID q)). by rewrite list_lookup_fmap, Hj.
Qed.

Lemma buildDecisionReport_ok g b r :
  StronglySorted (not_after HigherPrecedence) (Policies b) -> NoDup (map ID (Policies b)) ->
  (forall h, h ∈ Hits r -> exists p, p ∈ Policies b /\ Hit_PolicyID h = ID p) ->
  report_ok g (Policies b) (Hits r) (buildDecisionReport g b r).
Proof.
  intros Hs Hnd Hh. unfold buildDecisionReport. set (rank := rank_map (Policies b)).
  pose proof (sort_by_perm (rank_less rank) (Hits r)) as Hperm.
  pose proof (sort_by_head (rank_less rank)) as Hhead.
  destruct (sort_by (rank_less rank) (Hits r)) as [|w hits] eqn:Es.
  { apply Permutation_nil in Hperm. rewrite Hperm. constructor; cbn; done. }
  constructor; cbn.
  - done.
  - done.
  - split; [done|]. intros E. rewrite E in Hperm. by apply Permutation_nil_r in Hperm.
  - intros f [= <-].
    assert (w ∈ Hits r) as Hw by (rewrite <-Hperm; left).
    destruct (Hh w Hw) as (p & Hp & Ep). exists p, w. rewrite Ep, (policy_map_lookup _ _ Hnd Hp).
    split_and!; try done. intros h q Hhin Hq Eq.
    apply list_elem_of_lookup in Hp as [i Hi]. apply list_elem_of_lookup in Hq as [j Hj].
    apply (sorted_precedes (Policies b) i j); [done..|].
    destruct (Hhead _ _ _ Es h Hhin) as [->|Hless].
    + assert (ID p = ID q) as E by congruence.
      pose proof (rank_map_lookup _ _ _ Hnd Hi) as R1. pose proof (rank_map_lookup _ _ _ Hnd Hj) as R2.
      rewrite E in R1. assert (Z.of_nat i = Z.of_nat j) by congruence. lia.
    + unfold rank_less in Hless. rewrite Ep, Eq in Hless. subst rank.
      rewrite (rank_map_lookup _ _ _ Hnd Hi), (rank_map_lookup _ _ _ Hnd Hj) in Hless.
      apply Z.ltb_ge in Hless. cbn in Hless. lia.
Qed.

(** ** Reachable engines *)
Definition snapshot_from (b : Bundle) (l : Limits) (s : engineSnapshot) : Prop :=
  exists p, prepared_from b l p /\ s = newEngineSnapshot (snap_generation s) p.

(** A revision is a [uint64], so not negative. *)
Inductive reachable : Engine -> Prop :=
| reach_new b g l e ds : 0 <= Revision g -> NewEngine b g l = (Ok e, ds) -> reachable e
| reach_activate e b g e' ds err : reachable e -> Activate (Some e) b g = (Some e', ds, err) -> reachable e'.

(** The engine invariant: an active snapshot prepared from some bundle, in a
    valid bank, at a non-zero revision. *)
Record engine_inv (e : Engine) : Prop := {
  ei_active : exists s b l, engine_active e = Some s /\ snapshot_from b l s /\
                bank_ok (snap_generation s) /\ 0 < Revision (snap_generation s);
}.

Lemma bank_check_ok b : (b != BankA) && (b != BankB) = false -> b = BankA \/ b = BankB.
Proof. intros [H|H]%andb_false_iff; open_hyps; auto. Qed.

Lemma Activate_cases e b g e' ds err s :
  engine_active e = Some s -> Activate (Some e) b g = (e', ds, err) ->
  match err with
  | Some _ => e' = Some e
  | None => exists p, prepared_from b (engine_limits e) p /\
      e' = Some (mkEngine (engine_limits e) (Some (newEngineSnapshot g p))) /\
      Revision (snap_generation s) < Revision g /\ Generation_Bank g <> Generation_Bank (snap_generation s) /\ bank_ok g
  end.
Proof.
  intros Hs. unfold Activate. rewrite Hs.
  destruct (_ && _) eqn:Eb; [by intros [= <- <- <-]|].
  destruct (Z.leb_spec (Revision g) (Revision (snap_generation s))); [by intros [= <- <- <-]|].
  destruct (Z.eqb_spec (Generation_Bank g) (Generation_Bank (snap_generation s))); [by intros [= <- <- <-]|].
  destruct (prepareEngineBundle b (engine_limits e)) as [[p|x] ds'] eqn:Ep; intros [= <- <- <-]; [|done].
  exists p. split_and!; [by eapply prepareEngineBundle_Ok|done|done|done|by apply bank_check_ok].
Qed.

Lemma NewEngine_inv b g l e ds : 0 <= Revision g -> NewEngine b g l = (Ok e, ds) -> engine_inv e.
Proof.
  unfold NewEngine, validateInitialGeneration. intros Hg E.
  destruct (Z.eqb_spec (Revision g) 0); [done|]. destruct (_ && _) eqn:Eb; [done|].
  destruct (prepareEngineBundle b l) as [[p|] ds'] eqn:Ep; [|done]. cbn in E. injection E as <- _.
  constructor. eexists _, b, l. split_and!; [done|exists p; split; [by eapply prepareEngineBundle_Ok|done]| |cbn; lia].
  by apply bank_check_ok.
Qed.
Lemma reachable_inv e : reachable e -> engine_inv e.
Proof.
  induction 1 as [b g l e ds Hg E|e b g e' ds err _ [(s & b0 & l0 & Hs & Hf & Hb & Hr)] E]; [by eapply NewEngine_inv|].
  pose proof (Activate_cases _ _ _ _ _ _ _ Hs E) as H. destruct err as [x|].
  - injection H as ->. constructor. eauto 10.
  - destruct H as (p & Hp & [= ->] & Hlt & _ & Hg). constructor.
    eexists _, b, (engine_limits e). split_and!; [done|by exists p|done|cbn; lia].
Qed.

(** ** Lemmas: evaluation *)
Lemma merge_new_spec {A K} `{EqDecision K} (key : A -> K) (l : list A) : forall st,
  st.1 ≡ₚ map key st.2 -> NoDup (map key st.2) ->
  let st' := foldl (merge_new key) st l in
  st'.1 ≡ₚ map key st'.2 /\ NoDup (map key st'.2) /\
  (forall k, k ∈ map key st'.2 <-> k ∈ map key st.2 \/ k ∈ map key l) /\
  (forall x, x ∈ st'.2 -> x ∈ st.2 \/ x ∈ l).
Proof.
  induction l as [|x l IH]; intros st Hs Hnd; cbn [foldl]; [set_solver|].
  assert ((merge_new key st x).1 ≡ₚ map key (merge_new key st x).2 /\ NoDup (map key (merge_new key st x).2) /\
    (forall k, k ∈ map key (merge_new key st x).2 <-> k ∈ map key st.2 \/ k = key x) /\
    (forall y, y ∈ (merge_new key st x).2 -> y ∈ st.2 \/ y = x)) as (H1 & H2 & H3 & H4).
  { unfold merge_new. case_bool_decide as Hx; rewrite Hs in Hx.
    - split_and!; [done|done| |auto]. intros k. split; [auto|]. by intros [?| ->].
    - cbn. rewrite map_app. cbn. split_and!.
      + rewrite Hs. apply Permutation_cons_append.
      + apply NoDup_app. split_and!; [done| |apply NoDup_singleton]. intros k Hk ->%list_elem_of_singleton. done.
      + intros k. rewrite elem_of_app, list_elem_of_singleton. done.
      + intros y [?| ->%list_elem_of_singleton]%elem_of_app; auto. }
  destruct (IH _ H1 H2) as (G1 & G2 & G3 & G4). split_and!; [done|done| |].
  - intros k. rewrite G3, H3. cbn [map]. rewrite elem_of_cons. tauto.
  - intros y [Hy|Hy]%G4; [apply H4 in Hy as [?| ->]|]; set_solver.
Qed.

Lemma merge_new_elem {A K} `{EqDecision K} (key : A -> K) (l : list A) x :
  NoDup (map key l) -> x ∈ (foldl (merge_new key) ([], []) l).2 <-> x ∈ l.
Proof.
  intros Hnd. destruct (merge_new_spec key l ([], []) ltac:(done) ltac:(constructor)) as (_ & _ & Hk & Hin). split.
  - intros [Hx|Hx]%Hin; [by apply elem_of_nil in Hx|done].
  - intros Hx. pose proof (proj2 (Hk (key x)) ltac:(right; by apply list_elem_of_fmap_2)) as Hkx.
    apply list_elem_of_fmap in Hkx as (y & E & Hy). pose proof (Hin y Hy) as [Hy'|Hy']; [by apply elem_of_nil in Hy'|].
    by rewrite (nodup_map_inj key l x y Hnd Hx Hy' E).
Qed.
Lemma matchFileRules_nodup rules o : NoDup (map Hit_RuleID (Hits (matchFileRules rules o))).
Proof.
  unfold matchFileRules; cbn [fileCandidates Hits]. generalize (resolved_candidate o ++ user_candidate o) as cs. intros cs.
  assert (forall st, foldl (match_file_rule o cs) st rules = foldl (merge_new Hit_RuleID) st (omap (file_outcome o cs) rules)) as ->.
  { induction rules as [|r rules IH]; intros st; [done|]. cbn [foldl omap list_omap]. rewrite IH. unfold match_file_rule at 1, file_outcome at 2.
    case_bool_decide; cbn [negb]; [|done]. by destruct (List.find _ cs). }
  by destruct (merge_new_spec Hit_RuleID (omap (file_outcome o cs) rules) ([], []) ltac:(done) ltac:(constructor)) as (_ & ? & _).
Qed.

(** Hits name the policy of a rule. *)
Lemma file_hit_rule rules o hit :
  hit ∈ Hits (matchFileRules rules o) -> exists r, r ∈ rules /\ Hit_PolicyID hit = ID (frule_policy r).
Proof.
  unfold matchFileRules; cbn. generalize (resolved_candidate o ++ user_candidate o) as cs. intros cs.
  assert (forall l st, (forall h, h ∈ (foldl (match_file_rule o cs) st l).2 ->
    h ∈ st.2 \/ exists r, r ∈ l /\ Hit_PolicyID h = ID (frule_policy r))) as H.
  { induction l as [|r l IH]; intros st h Hh; cbn in Hh; [by left|].
    apply IH in Hh as [Hh|(r' & ? & ?)]; [|right; exists r'; set_solver].
    unfold match_file_rule in Hh. destruct (negb _); [by left|]. destruct (List.find _ cs); [|by left].
    case_bool_decide; [by left|]. cbn in Hh. apply elem_of_app in Hh as [?| ->%list_elem_of_singleton]; [by left|].
    right. exists r. split; [left|done]. }
  intros Hh. apply H in Hh as [Hh|?]; [by apply elem_of_nil in Hh|done].
Qed.
Lemma exec_hit_rule rules o hit :
  hit ∈ Hits (matchExecRules rules o) -> exists r, r ∈ rules /\ Hit_PolicyID hit = ID (erule_policy r).
Proof.
  cbn. intros (r & Hr & Hh)%list_elem_of_omap. exists r. split; [done|]. unfold exec_hit in Hh.
  destruct (execRuleMatches r o) as [[]|]; [|done]. by injection Hh as <-.
Qed.
Lemma network_hit_rule rules o hit :
  hit ∈ Hits (Network_MatchResult (matchNetworkRules rules o)) ->
  exists r d, r ∈ rules /\ d ∈ Network_Decisions (matchNetworkRules rules o) /\
    Hit_PolicyID hit = ID (nrule_policy r) /\ ND_PolicyID d = Hit_PolicyID hit /\ ND_RuleID d = Hit_RuleID hit.
Proof.
  unfold matchNetworkRules; cbn. rewrite !map_map. intros (r & Hr & Hh)%elem_of_concat_map.
  unfold match_network_rule in Hh. destruct (Network _) as [c|] eqn:Ec; [|by apply elem_of_nil in Hh].
  cbn [fst snd] in Hh. fold (unmapped o) in Hh |- *.
  destruct (evaluateNetworkPolicy_fields (nrule_policy r) c (nrule_id r) (unmapped o)) as (E1 & E2 & _).
  exists r, (evaluateNetworkPolicy (nrule_policy r) c (nrule_id r) (unmapped o)).
  assert (Hit_PolicyID hit = ID (nrule_policy r) /\ Hit_RuleID hit = nrule_id r) as [Hp Hi].
  { unfold network_hit in Hh. destruct (_ && _ && _); [by apply elem_of_nil in Hh|].
    destruct (if _ == DispositionAllowed then _ else _) as [eff hint]. by apply list_elem_of_singleton in Hh as ->. }
  split_and!; [done| |done|congruence|congruence].
  apply elem_of_concat_map. exists r. split; [done|]. unfold match_network_rule. rewrite Ec. cbn. fold (unmapped o). left.
Qed.

Lemma report_ok_self g sel hits r : report_ok g sel hits r -> report_ok g sel (Report_Hits r) r.
Proof.
  intros [Hg Hh Hn Hf]. constructor; [done|done| |].
  - rewrite Hn. split; intros E; [|by rewrite E in Hh; apply Permutation_nil_l in Hh].
    rewrite E in Hh. by apply Permutation_nil_r in Hh.
  - intros f Ef. destruct (Hf f Ef) as (p & hit & Hp & Hhit & ? & ? & ? & ? & ? & ? & ? & Hq).
    exists p, hit. rewrite Hh. split_and!; try done. intros h q. rewrite Hh. apply Hq.
Qed.
Lemma report_ok_empty g sel : sel = [] -> report_ok g sel [] (emptyDecisionReport g).
Proof. intros ->. by constructor. Qed.

Section Snapshot.
Context (b : Bundle) (l : Limits) (s : engineSnapshot) (Hs : snapshot_from b l s) (c : EvaluationContext).

(** The policies a snapshot applies, in precedence order. *)
Definition selected (k : conditionKind) : list Policy := Policies (selectPolicies (snap_bundle s) c k).

Lemma selected_nodup k : NoDup (map ID (selected k)).
Proof.
  destruct Hs as (p & Hp & E). unfold selected. rewrite E.
  apply selectPolicies_nodup, wf_bundle_nodup, (pf_wf _ _ _ Hp).
Qed.
Lemma selected_sub k q : q ∈ selected k -> q ∈ Policies (snap_bundle s).
Proof. intros [? _]%elem_of_selectPolicies. done. Qed.

Lemma snapshot_file_rules :
  selectFileRules (snap_fileRules s) (selectPolicies (snap_bundle s) c conditionFile)
  = concat (map file_block (selected conditionFile)).
Proof.
  unfold selected. destruct Hs as (p & Hp & E). rewrite E. cbn [newEngineSnapshot snap_bundle snap_fileRules].
  apply (selected_file_rules b l p Hp).
  intros q [? _]%elem_of_selectPolicies. done.
Qed.
Lemma snapshot_exec_rules :
  selectExecRules (snap_execRules s) (selectPolicies (snap_bundle s) c conditionExec)
  = concat (map exec_block (selected conditionExec)).
Proof.
  unfold selected. destruct Hs as (p & Hp & E). rewrite E. cbn [newEngineSnapshot snap_bundle snap_execRules].
  apply (selected_exec_rules b l p Hp).
  intros q [? _]%elem_of_selectPolicies. done.
Qed.
Lemma snapshot_network_rules :
  selectNetworkRules (snap_networkRules s) (selectPolicies (snap_bundle s) c conditionNetwork)
  = concat (map network_block (selected conditionNetwork)).
Proof.
  unfold selected. destruct Hs as (p & Hp & E). rewrite E. cbn [newEngineSnapshot snap_bundle snap_networkRules].
  apply (selected_network_rules b l p Hp).
  intros q [? _]%elem_of_selectPolicies. done.
Qed.

Lemma snapshot_report k (r : MatchResult) :
  (forall h, h ∈ Hits r -> exists p, p ∈ selected k /\ Hit_PolicyID h = ID p) ->
  report_ok (snap_generation s) (selected k) (Hits r)
    (buildDecisionReport (snap_generation s) (selectPolicies (snap_bundle s) c k) r).
Proof.
  intros Hh. apply buildDecisionReport_ok; [apply selectPolicies_sorted|apply selected_nodup|done].
Qed.

(** The loop over the observations collects the rule identifiers of all. *)
Lemma file_fold_spec rules os : forall (st st' : file_state),
  foldM (file_observation_step rules) st os = Ok st' ->
  st.1.1 ≡ₚ map Hit_RuleID st.1.2 -> NoDup (map Hit_RuleID st.1.2) ->
  (forall id, id ∈ map Hit_RuleID st'.1.2 <->
     id ∈ map Hit_RuleID st.1.2 \/ exists o, o ∈ os /\ id ∈ map Hit_RuleID (Hits (matchFileRules rules o))) /\
  NoDup (map Hit_RuleID st'.1.2) /\
  (forall h, h ∈ st'.1.2 -> h ∈ st.1.2 \/ exists o, o ∈ os /\ h ∈ Hits (matchFileRules rules o)).
Proof.
  induction os as [|o os IH]; intros st st' E H1 H2; cbn in E.
  { injection E as <-. split_and!; [set_solver|done|auto]. }
  unfold mbind, result_bind, file_observation_step at 1 in E.
  destruct (validateFileObservation o); [done|].
  destruct (merge_new_spec Hit_RuleID (Hits (matchFileRules rules o)) st.1 H1 H2) as (G1 & G2 & G3 & G4).
  destruct (IH _ _ E) as (K1 & K2 & K3); [done|done|]. split_and!; [|done|].
  - intros id. rewrite K1. cbn [fst snd]. rewrite G3. split.
    + intros [[H|H]|(o' & Ho & H)]; [by left|right; exists o; split; [left|done]|right; exists o'; split; [by right|done]].
    + intros [H|(o' & [->|Ho]%elem_of_cons & H)]; [by left; left|by left; right|right; by exists o'].
  - intros h [Hh|(o' & ? & ?)]%K3; [apply G4 in Hh as [?|?]; [by left|right; exists o; split; [left|done]]|].
    right. exists o'. split; [by right|done].
Qed.

Lemma evaluateFileSnapshot_report os r :
  evaluateFileSnapshot s c os = Ok r ->
  report_ok (snap_generation s) (selected conditionFile) (Report_Hits r) r /\
  NoDup (map Hit_RuleID (Report_Hits r)) /\
  (forall id, id ∈ map Hit_RuleID (Report_Hits r) <-> exists o, o ∈ os /\
     id ∈ map Hit_RuleID (Hits (matchFileRules (concat (map file_block (selected conditionFile))) o))).
Proof.
  unfold evaluateFileSnapshot. rewrite snapshot_file_rules. intros E.
  destruct (Policies (selectPolicies (snap_bundle s) c conditionFile)) as [|p0 ps0] eqn:Esel.
  { injection E as <-. split_and!; [by apply report_ok_empty|constructor|]. unfold selected. rewrite Esel.
    intros id. split; [set_solver|]. intros (o & _ & Hid). exfalso.
    apply list_elem_of_fmap in Hid as (h & _ & (r & Hr & _)%file_hit_rule). by apply elem_of_nil in Hr. }
  bind_inv E. destruct (foldM _ _ _) as [st|] eqn:Ef; [|done]. injection E as <-.
  destruct (file_fold_spec _ _ _ _ Ef) as (K1 & K2 & K3); [done|constructor|].
  assert (report_ok (snap_generation s) (selected conditionFile) st.1.2
    (buildDecisionReport (snap_generation s) (selectPolicies (snap_bundle s) c conditionFile) (mkMatchResult st.1.2 st.2.2))) as Hok.
  { apply (snapshot_report conditionFile (mkMatchResult st.1.2 st.2.2)). cbn. intros h [Hh|(o & _ & Hh)]%K3; [set_solver|].
    apply file_hit_rule in Hh as (r & (p & Hp & Hr)%elem_of_concat_map & Eh).
    exists p. split; [done|]. by rewrite Eh, (file_block_policy p r Hr). }
  split; [by eapply report_ok_self|]. rewrite (ro_hits _ _ _ _ Hok). split; [done|].
  intros id. rewrite (ro_hits _ _ _ _ Hok), K1. set_solver.
Qed.
(** On one observation the hits are those of the matcher. *)
Lemma evaluateFileSnapshot_hits o r :
  evaluateFileSnapshot s c [o] = Ok r ->
  report_ok (snap_generation s) (selected conditionFile) (Report_Hits r) r /\
  forall h, h ∈ Report_Hits r <-> h ∈ Hits (matchFileRules (concat (map file_block (selected conditionFile))) o).
Proof.
  intros E. split; [by apply evaluateFileSnapshot_report in E as [? _]|]. revert E.
  unfold evaluateFileSnapshot. rewrite snapshot_file_rules.
  destruct (Policies (selectPolicies (snap_bundle s) c conditionFile)) as [|p0 ps0] eqn:Esel.
  { intros <-%Ok_inj h. unfold selected. rewrite Esel. cbn. set_solver. }
  cbn [foldM]. unfold mbind, result_bind, file_observation_step. destruct (validateFileObservation o); [done|].
  intros <-%Ok_inj h. cbn [Report_Hits buildDecisionReport Hits fst snd]. rewrite elem_of_sort_by.
  apply merge_new_elem, matchFileRules_nodup.
Qed.
End Snapshot.

Lemma report_ok_disposition g sel hits r ds :
  report_ok g sel hits r ->
  report_ok g sel hits (mkDecisionReport (Report_Generation r) (Report_Hits r) (Report_Gaps r)
                          (set_disposition ds <$> Report_Final r)).
Proof.
  intros [Hg Hh Hn Hf]. constructor; cbn; [done|done|by rewrite fmap_None|].
  intros f (f0 & Ef & ->)%fmap_Some. unfold set_disposition. destruct (List.find _ ds); exact (Hf f0 Ef).
Qed.

Section Evaluations.
Context (b : Bundle) (l : Limits) (s : engineSnapshot) (Hs : snapshot_from b l s) (lim : Limits).
Let e := Some (mkEngine lim (Some s)).

Lemma EvaluateExec_report c o r :
  EvaluateExec e c o = Ok r -> report_ok (snap_generation s) (selected s c conditionExec) (Report_Hits r) r.
Proof.
  unfold EvaluateExec. destruct (validateExecObservation o); [done|]. cbn [engine_snapshot e engine_active mbind result_bind].
  rewrite (snapshot_exec_rules b l s Hs c).
  destruct (Policies (selectPolicies (snap_bundle s) c conditionExec)) as [|p0 ps0] eqn:Esel.
  { intros [= <-]. by apply report_ok_empty. }
  intros <-%Ok_inj. eapply report_ok_self, (snapshot_report b l s Hs).
  intros h (r & (p & Hp & Hr)%elem_of_concat_map & Eh)%exec_hit_rule.
  exists p. split; [done|]. by rewrite Eh, (exec_block_policy p r Hr).
Qed.

Lemma EvaluateNetwork_report c o r :
  EvaluateNetwork e c o = Ok r ->
  report_ok (snap_generation s) (selected s c conditionNetwork) (Report_Hits (NetworkReport r)) (NetworkReport r) /\
  forall f, Report_Final (NetworkReport r) = Some f -> exists d, d ∈ NetworkReport_Decisions r /\
    ND_PolicyID d = Final_PolicyID f /\ ND_RuleID d = Final_RuleID f /\ Final_NetworkDisposition f = ND_Disposition d.
Proof.
  unfold EvaluateNetwork. destruct (validateNetworkObservation o); [done|].
  cbn [engine_snapshot e engine_active mbind result_bind]. rewrite (snapshot_network_rules b l s Hs c).
  destruct (Policies (selectPolicies (snap_bundle s) c conditionNetwork)) as [|p0 ps0] eqn:Esel.
  { intros [= <-]. split; [by apply report_ok_empty|done]. }
  set (m := matchNetworkRules _ o). intros <-%Ok_inj. cbn [NetworkReport NetworkReport_Decisions].
  assert (report_ok (snap_generation s) (selected s c conditionNetwork) (Hits (Network_MatchResult m))
    (buildDecisionReport (snap_generation s) (selectPolicies (snap_bundle s) c conditionNetwork) (Network_MatchResult m))) as Hok.
  { apply (snapshot_report b l s Hs). intros h (r & d & (p & Hp & Hr)%elem_of_concat_map & _ & Eh & _)%network_hit_rule.
    exists p. split; [done|]. by rewrite Eh, (network_block_policy p r Hr). }
  split; [by eapply report_ok_self, report_ok_disposition|].
  cbn [Report_Final]. intros f (f0 & Ef & ->)%fmap_Some.
  destruct (ro_final _ _ _ _ Hok f0 Ef) as (p & hit & _ & Hhit & Hpid & _ & Hhp & Hrid & _).
  apply network_hit_rule in Hhit as (r & d & _ & Hd & _ & Ed1 & Ed2).
  unfold set_disposition. destruct (List.find _ _) as [d'|] eqn:Efind.
  - apply find_elem in Efind as [Hd' [E1 E2]%andb_true_iff]. apply bool_decide_eq_true in E1. apply Z.eqb_eq in E2.
    exists d'. done.
  - exfalso. rewrite find_None, Forall_forall in Efind. specialize (Efind d Hd).
    rewrite bool_decide_eq_true_2 in Efind by congruence. cbn in Efind. apply Z.eqb_neq in Efind. congruence.
Qed.

Lemma EvaluateFile_report c o r :
  EvaluateFile e c o = Ok r -> report_ok (snap_generation s) (selected s c conditionFile) (Report_Hits r) r.
Proof.
  unfold EvaluateFile. destruct (validateFileObservation o); [done|]. cbn [engine_snapshot e engine_active mbind result_bind].
  intros E. by apply (evaluateFileSnapshot_report b l s Hs) in E as [? _].
Qed.
End Evaluations.

(** ** What an evaluation promises
    When a policy applies: it is enabled, its scope covers the context and it
    has a condition of the observed kind. *)
Inductive in_scope (c : EvaluationContext) : Scope -> Prop :=
| scope_global run cgroup labels : in_scope c (mkScope "global" run cgroup labels)
| scope_run cgroup labels : Context_RunID c <> "" -> in_scope c (mkScope "run" (Context_RunID c) cgroup labels)
| scope_cgroup run labels : Context_CgroupID c <> "" -> in_scope c (mkScope "cgroup" run (Context_CgroupID c) labels)
| scope_labels run cgroup labels :
    (forall k v, labels !! k = Some v -> Context_Labels c !! k = Some v \/ v = "" /\ Context_Labels c !! k = None) ->
    in_scope c (mkScope "labels" run cgroup labels).
Inductive concerns (p : Policy) : conditionKind -> Prop :=
| concerns_file f : File (Policy_Conditions p) = Some f -> concerns p conditionFile
| concerns_exec x : Exec (Policy_Conditions p) = Some x -> concerns p conditionExec
| concerns_network n : Network (Policy_Conditions p) = Some n -> concerns p conditionNetwork.
Definition applies (b : Bundle) (c : EvaluationContext) (k : conditionKind) (p : Policy) : Prop :=
  p ∈ Policies b /\ Enabled p = true /\ in_scope c (Policy_Scope p) /\ concerns p k.
(** Which of two policies decides: the narrower scope, then the higher
    priority, then the smaller identifier. *)
Inductive narrower : ScopeType -> ScopeType -> Prop :=
| run_narrowest t : t ∈ ["cgroup"; "labels"; "global"] -> narrower "run" t
| cgroup_narrower t : t ∈ ["labels"; "global"] -> narrower "cgroup" t
| labels_narrower : narrower "labels" "global".
Inductive outranks (p q : Policy) : Prop :=
| by_scope : narrower (Scope_Type (Policy_Scope p)) (Scope_Type (Policy_Scope q)) -> outranks p q
| by_priority : Scope_Type (Policy_Scope p) = Scope_Type (Policy_Scope q) -> Priority q < Priority p -> outranks p q
| by_id : Scope_Type (Policy_Scope p) = Scope_Type (Policy_Scope q) -> Priority p = Priority q ->
    str_lt (ID p) (ID q) = true -> outranks p q.

(** What an observation triggers of a policy: the identifier of the rule and
    the effective action. *)
Inductive file_triggers (o : FileObservation) (p : Policy) : Z -> Action -> Prop :=
| file_triggered f kind i value source path cut :
    File (Policy_Conditions p) = Some f -> file_value f kind i value -> Observed_Access o ∈ Access f ->
    observed_path o source path cut -> file_selects kind value path cut ->
    file_triggers o p (rule_hash (ID p) kind (Z.of_nat i)) (RequestedAction p).
Inductive exec_triggers (o : ExecObservation) (p : Policy) : Z -> Action -> Prop :=
| exec_triggered x kind i value effective hint :
    Exec (Policy_Conditions p) = Some x -> exec_value x kind i value -> exec_selects o kind value ->
    exec_effect (RequestedAction p) effective hint ->
    exec_triggers o p (rule_hash (ID p) kind (Z.of_nat i)) effective.
Inductive network_triggers (o : NetworkObservation) (p : Policy) : Z -> Action -> Prop :=
| network_triggered n disposition effective :
    Network (Policy_Conditions p) = Some n -> network_verdict n (unmapped o) disposition -> disposition <> "not_applicable" ->
    network_effect disposition (RequestedAction p) effective ->
    network_triggers o p (rule_hash (ID p) "network_default" 0) effective.

(** The contract of a report: its hits are the triggered rules of the policies
    that apply, and the final decision is that of the policy that outranks all
    others with a triggered rule. *)
Definition hit_for (triggers : Policy -> Z -> Action -> Prop) (p : Policy) (h : PolicyHit) : Prop :=
  triggers p (Hit_RuleID h) (Hit_EffectiveAction h) /\ Hit_PolicyID h = ID p /\
  Hit_RequestedAction h = RequestedAction p /\ Hit_Enforced h = false.
Record decided (b : Bundle) (g : Generation) (c : EvaluationContext) (k : conditionKind)
    (triggers : Policy -> Z -> Action -> Prop) (r : DecisionReport) : Prop := {
  de_generation : Report_Generation r = g;
  de_sound : forall h, h ∈ Report_Hits r -> exists p, applies b c k p /\ hit_for triggers p h;
  de_complete : forall p id effective, applies b c k p -> triggers p id effective ->
    exists h, h ∈ Report_Hits r /\ hit_for triggers p h /\ Hit_RuleID h = id;
  de_none : Report_Final r = None <-> (forall p id effective, applies b c k p -> ~ triggers p id effective);
  de_final : forall f, Report_Final r = Some f -> exists p, applies b c k p /\
    triggers p (Final_RuleID f) (Final_EffectiveAction f) /\ Final_PolicyID f = ID p /\
    Final_Decision f = Policy_Decision p /\ Final_RequestedAction f = RequestedAction p /\ Final_Enforced f = false /\
    (forall q id effective, applies b c k q -> triggers q id effective -> q = p \/ outranks p q);
}.

Lemma scopeMatches_in_scope s c : scopeMatches s c = true <-> in_scope c s.
Proof.
  destruct s as [t run cg ls]. unfold scopeMatches. cbn [Scope_Type Scope_RunID Scope_CgroupID Scope_LabelSelector]. split.
  - destruct (bool_decide_reflect (t = ScopeGlobal)) as [->|_]; [intros _; apply scope_global|].
    destruct (bool_decide_reflect (t = ScopeRun)) as [->|_].
    { intros [H1%negb_true_iff%bool_decide_eq_false <-%bool_decide_eq_true]%andb_true_iff. by apply scope_run. }
    destruct (bool_decide_reflect (t = ScopeCgroup)) as [->|_].
    { intros [H1%negb_true_iff%bool_decide_eq_false <-%bool_decide_eq_true]%andb_true_iff. by apply scope_cgroup. }
    destruct (bool_decide_reflect (t = ScopeLabels)) as [->|_]; [|done].
    rewrite forallb_forall. intros H. apply scope_labels. intros k v Hk.
    specialize (H (k, v) ltac:(by apply list_elem_of_In, elem_of_map_to_list)). apply bool_decide_eq_true in H. cbn in H.
    destruct (Context_Labels c !! k) as [w|]; cbn in H; [left; by subst|by right].
  - inversion 1 as [r0 c0 l0 E|c0 l0 Hne E|r0 l0 Hne E|r0 c0 l0 Hl E]; subst; go_consts; [done|..].
    + rewrite (bool_decide_eq_false_2 _ Hne), (bool_decide_eq_true_2 (Context_RunID c = Context_RunID c)) by done. done.
    + rewrite (bool_decide_eq_false_2 _ Hne), (bool_decide_eq_true_2 (Context_CgroupID c = Context_CgroupID c)) by done. done.
    + change ("labels" == ScopeGlobal) with false. change ("labels" == ScopeRun) with false. change ("labels" == ScopeCgroup) with false.
      change ("labels" == ScopeLabels) with true. cbv iota. rewrite forallb_forall. intros [k v] Hk%list_elem_of_In%elem_of_map_to_list. apply bool_decide_eq_true. cbn.
      destruct (Hl k v Hk) as [->|[-> ->]]; done.
Qed.
Lemma hasCondition_concerns p k : hasCondition p k = true <-> concerns p k.
Proof.
  destruct k; unfold hasCondition; (split; [|by inversion 1 as [? E|? E|? E]; rewrite E]);
    match goal with |- context [match ?x with Some _ => _ | None => _ end] => destruct x eqn:E end; try done; intros _;
    [by eapply concerns_file|by eapply concerns_exec|by eapply concerns_network].
Qed.
Lemma HigherPrecedence_outranks p q :
  wf_scope (Policy_Scope p) -> wf_scope (Policy_Scope q) -> HigherPrecedence p q = true <-> outranks p q.
Proof.
  intros Hp Hq. rewrite HigherPrecedence_lex.
  assert (forall s, wf_scope s -> Scope_Type s = "run" /\ specificity s = 3 \/ Scope_Type s = "cgroup" /\ specificity s = 2 \/
    Scope_Type s = "labels" /\ specificity s = 1 \/ Scope_Type s = "global" /\ specificity s = 0) as Hr.
  { intros s []; cbn; tauto. }
  apply Hr in Hp as [[Tp Sp]|[[Tp Sp]|[[Tp Sp]|[Tp Sp]]]], Hq as [[Tq Sq]|[[Tq Sq]|[[Tq Sq]|[Tq Sq]]]];
    rewrite Sp, Sq; clear Sp Sq; (split;
    [intros [H|[H [H1|[H1 H2]]]]; first [exfalso; lia|apply by_scope; rewrite Tp, Tq; constructor; set_solver|
       apply by_priority; [congruence|done]|apply by_id; [congruence|done|done]|idtac]
    |intros [H|H1 H2|H1 H2 H3]; [rewrite Tp, Tq in H; inversion H as [t Ht|t Ht|]; subst; first [lia|exfalso; set_solver]| |];
       first [exfalso; rewrite Tp, Tq in H1; discriminate|right; split; [lia|tauto]]]).
Qed.

Section Decisions.
Context (b : Bundle) (l : Limits) (s : engineSnapshot) (Hs : snapshot_from b l s) (c : EvaluationContext).

Lemma snapshot_wf : wf_bundle (snap_bundle s).
Proof. destruct Hs as (p & Hp & ->). exact (pf_wf _ _ _ Hp). Qed.
Lemma selected_applies k p : p ∈ selected s c k <-> applies (snap_bundle s) c k p.
Proof.
  unfold selected, applies. rewrite elem_of_selectPolicies. unfold applicable.
  rewrite !andb_true_iff, scopeMatches_in_scope, hasCondition_concerns. tauto.
Qed.
Lemma applies_unique k p q : applies (snap_bundle s) c k p -> applies (snap_bundle s) c k q -> ID p = ID q -> p = q.
Proof. intros [Hp _] [Hq _]. by apply (nodup_map_inj ID _ _ _ (wf_bundle_nodup _ snapshot_wf)). Qed.
Lemma applies_scope k p : applies (snap_bundle s) c k p -> wf_scope (Policy_Scope p).
Proof.
  intros [Hp _]. pose proof (wf_bundle_policies _ snapshot_wf) as H. rewrite Forall_forall in H. exact (wf_policy_scope _ (H p Hp)).
Qed.

(** A report over the right hits keeps the contract. *)
Lemma report_decided k triggers r :
  report_ok (snap_generation s) (selected s c k) (Report_Hits r) r ->
  (forall h, h ∈ Report_Hits r -> exists p, applies (snap_bundle s) c k p /\ hit_for triggers p h) ->
  (forall p id effective, applies (snap_bundle s) c k p -> triggers p id effective ->
     exists h, h ∈ Report_Hits r /\ hit_for triggers p h /\ Hit_RuleID h = id) ->
  decided (snap_bundle s) (snap_generation s) c k triggers r.
Proof.
  intros [Hg _ Hn Hf] Hsound Hcomplete. constructor; [done|done|done| |].
  - rewrite Hn. split.
    + intros E p id eff Hp Ht. destruct (Hcomplete p id eff Hp Ht) as (h & Hh & _). rewrite E in Hh. by apply elem_of_nil in Hh.
    + intros H. destruct (Report_Hits r) as [|h hs]; [done|exfalso].
      destruct (Hsound h ltac:(left)) as (p & Hp & Ht & _). exact (H _ _ _ Hp Ht).
  - intros f Ef. destruct (Hf f Ef) as (p & hit & Hp & Hhit & E1 & E2 & E3 & E4 & E5 & E6 & E7 & Htop).
    apply selected_applies in Hp. destruct (Hsound hit Hhit) as (p' & Hp' & Ht & F1 & F2 & F3).
    rewrite (applies_unique k p' p Hp' Hp ltac:(congruence)) in *.
    exists p. rewrite E4, E6. split_and!; [done|done|done|done|congruence|congruence|]. intros q id eff Hq Hqt.
    destruct (Hcomplete q id eff Hq Hqt) as (h & Hh & (_ & Eh & _) & _).
    destruct (Htop h q Hh ltac:(by apply selected_applies) Eh) as [->|Hhp]; [by left|right].
    apply HigherPrecedence_outranks; [by eapply applies_scope..|done].
Qed.

(** *** The hits of the three matchers *)
Lemma file_block_elem p r :
  r ∈ file_block p <-> exists f kind i v, Enabled p = true /\ File (Policy_Conditions p) = Some f /\ file_value f kind i v /\
    r = emit file_rule (mkItem p kind (Z.of_nat i) v).
Proof.
  unfold file_block. pose proof (fun it => file_item_at (mkBundle 1 [p]) it) as H. cbn [Policies map concat] in H.
  split.
  - intros (it & -> & Hit)%list_elem_of_fmap. rewrite app_nil_r in H.
    apply H in Hit as (p' & f & kind & i & v & [Hp%list_elem_of_singleton He Hf Hv] & ->). subst p'. eauto 10.
  - intros (f & kind & i & v & He & Hf & Hv & ->). apply list_elem_of_fmap_2. rewrite app_nil_r in H. apply H.
    exists p, f, kind, i, v. split; [|done]. constructor; [by apply list_elem_of_singleton|done..].
Qed.
Lemma exec_block_elem p r :
  r ∈ exec_block p <-> exists x kind i v, Enabled p = true /\ Exec (Policy_Conditions p) = Some x /\ exec_value x kind i v /\
    r = emit exec_rule (mkItem p kind (Z.of_nat i) v).
Proof.
  unfold exec_block. pose proof (fun it => exec_item_at (mkBundle 1 [p]) it) as H. cbn [Policies map concat] in H.
  split.
  - intros (it & -> & Hit)%list_elem_of_fmap. rewrite app_nil_r in H.
    apply H in Hit as (p' & kind & i & v & [Hp%list_elem_of_singleton He (x & Hx & Hv)] & ->). subst p'. eauto 10.
  - intros (x & kind & i & v & He & Hx & Hv & ->). apply list_elem_of_fmap_2. rewrite app_nil_r in H. apply H.
    exists p, kind, i, v. split; [|done]. constructor; [by apply list_elem_of_singleton|done|eauto].
Qed.
Lemma nodup_selected_blocks {R} (pol : R -> Policy) (id : R -> Z) (block : Policy -> list R) (ps sel : list Policy) :
  NoDup (map id (concat (map block ps))) -> NoDup (map ID sel) -> (forall p, p ∈ sel -> p ∈ ps) ->
  (forall p r, r ∈ block p -> pol r = p) -> NoDup (map id (concat (map block sel))).
Proof.
  intros Hall Hnd Hsub Hpol. rewrite concat_map, map_map. apply (NoDup_concat_map _ ID); [done| |].
  - intros p Hp%Hsub. apply list_elem_of_split in Hp as (l1 & l2 & ->).
    rewrite map_app, concat_app, map_app in Hall. cbn [map concat] in Hall. rewrite map_app in Hall.
    apply NoDup_app in Hall as (_ & _ & Hall). by apply NoDup_app in Hall as (Hall & _ & _).
  - intros p q x Hp Hq (r & -> & Hr)%list_elem_of_fmap (r' & E & Hr')%list_elem_of_fmap.
    assert (r = r') as <-.
    { apply (nodup_map_inj id _ _ _ Hall); [apply elem_of_concat_map; eauto..|done]. }
    by rewrite <-(Hpol p r Hr), (Hpol q r Hr').
Qed.
Lemma selected_file_ids : NoDup (map frule_id (concat (map file_block (selected s c conditionFile)))).
Proof.
  pose proof (selected_nodup b l s Hs c conditionFile) as Hnd. pose proof (selected_sub s c conditionFile) as Hsub.
  destruct Hs as (p & Hp & E). rewrite E in Hsub |- *. destruct (pf_file _ _ _ Hp) as (rules & Ec & _).
  apply compileFileRules_output in Ec as (_ & -> & Hids). specialize (Hids (wf_bundle_nodup _ (pf_wf _ _ _ Hp))).
  rewrite concat_map, map_map in Hids.
  apply (nodup_selected_blocks frule_policy _ _ (Policies (prepared_bundle p))); [exact Hids|by rewrite <-E|exact Hsub|apply file_block_policy].
Qed.

Lemma file_hits_decided o r :
  evaluateFileSnapshot s c [o] = Ok r ->
  decided (snap_bundle s) (snap_generation s) c conditionFile (file_triggers o) r.
Proof.
  intros E. destruct (evaluateFileSnapshot_hits b l s Hs c o r E) as (Hok & Hhits). apply report_decided; [done|..].
  - intros h. rewrite Hhits, matchFileRules_hits by apply selected_file_ids.
    intros (rule & (p & Hp & (f & kind & i & v & He & Hf & Hv & ->)%file_block_elem)%elem_of_concat_map & Ho)%list_elem_of_omap.
    apply file_outcome_Some in Ho as (Ha & cand & [Hcand Hm]%find_elem & ->). exists p. split; [by apply selected_applies|].
    apply fileRuleMatches_selects in Hm. apply fileCandidates_observed in Hcand as [Hobs _].
    cbn in Ha. unfold file_access in Ha. rewrite Hf in Ha. split; [|done]. by eapply (file_triggered o p f kind i v).
  - intros p id eff Hp [f kind i v source path cut Hf Hv Ha (cand & Hcand & _ & <- & <-)%observed_fileCandidates Hsel].
    set (rule := emit file_rule (mkItem p kind (Z.of_nat i) v)).
    destruct (proj2 (find_some_iff (fileRuleMatches rule) (fileCandidates o).1)) as [cand' Hf'].
    { exists cand. split; [done|]. by apply fileRuleMatches_selects. }
    exists (file_hit o rule cand'). pose proof (find_elem _ _ _ Hf') as [Hcand' Hm']. apply fileRuleMatches_selects in Hm'.
    apply fileCandidates_observed in Hcand' as [Hobs' _]. split; [|split; [split; [|done]|done]].
    + rewrite Hhits, matchFileRules_hits by apply selected_file_ids. apply list_elem_of_omap. exists rule. split.
      * apply elem_of_concat_map. exists p. split; [by apply selected_applies|]. apply file_block_elem.
        exists f, kind, i, v. split_and!; [exact (proj1 (proj2 Hp))|done|done|done].
      * apply file_outcome_Some. split; [|by exists cand']. cbn. unfold file_access. by rewrite Hf.
    + by eapply (file_triggered o p f kind i v).
Qed.
Lemma exec_action_effect p x :
  p ∈ Policies (snap_bundle s) -> Enabled p = true -> Exec (Policy_Conditions p) = Some x ->
  exec_effect (RequestedAction p) (if RequestedAction p == ActionContain then ActionAlert else RequestedAction p) (RequestedAction p == ActionContain).
Proof.
  intros Hin He Hx. pose proof snapshot_wf as Hwf. destruct Hs as (pr & Hp & E). rewrite E in Hin, Hwf. destruct (pf_exec _ _ _ Hp) as (rules & Ec & _).
  apply compileExecRules_output in Ec as (Hrej & _). rewrite Forall_forall in Hrej. specialize (Hrej p Hin). rewrite exec_reject_None in Hrej.
  specialize (Hrej He ltac:(by rewrite Hx)). by apply exec_effect_of; [eapply Forall_forall in Hin; [|apply (wf_bundle_policies _ Hwf)]|].
Qed.
Lemma exec_hits_decided o rules r :
  rules = concat (map exec_block (selected s c conditionExec)) ->
  report_ok (snap_generation s) (selected s c conditionExec) (Report_Hits r) r ->
  (forall h, h ∈ Report_Hits r <-> h ∈ Hits (matchExecRules rules o)) ->
  decided (snap_bundle s) (snap_generation s) c conditionExec (exec_triggers o) r.
Proof.
  intros -> Hok Hhits. apply report_decided; [done|..].
  - intros h. rewrite Hhits. cbn [Hits matchExecRules].
    intros (rule & (p & Hp & (x & kind & i & v & He & Hx & Hv & ->)%exec_block_elem)%elem_of_concat_map & Ho)%list_elem_of_omap.
    unfold exec_hit in Ho. destruct (execRuleMatches _ o) as [[conf reasons]|] eqn:Hm; [|done]. injection Ho as <-.
    exists p. split; [by apply selected_applies|]. split; [|done]. cbn.
    eapply (exec_triggered o p x kind i v); [done|done| |by eapply exec_action_effect, Hx; [eapply selected_sub|]].
    apply (execRuleMatches_selects (emit exec_rule (mkItem p kind (Z.of_nat i) v))). by rewrite Hm.
  - intros p id eff Hp [x kind i v eff' hint Hx Hv Hsel Heff]. set (rule := emit exec_rule (mkItem p kind (Z.of_nat i) v)).
    destruct (proj2 (execRuleMatches_selects rule o) Hsel) as [[conf reasons] Hm].
    destruct (exec_hit o rule) as [h|] eqn:Hh; [|unfold exec_hit in Hh; by rewrite Hm in Hh]. exists h. split.
    + rewrite Hhits. apply list_elem_of_omap. exists rule. split; [|done]. apply elem_of_concat_map. exists p.
      split; [by apply selected_applies|]. apply exec_block_elem. exists x, kind, i, v. split_and!; [exact (proj1 (proj2 Hp))|done|done|done].
    + unfold exec_hit in Hh. rewrite Hm in Hh. injection Hh as <-. split; [|done]. split; [|done].
      eapply (exec_triggered o p x kind i v); [done|done|done|]. cbn. eapply exec_action_effect, Hx; [exact (proj1 Hp)|exact (proj1 (proj2 Hp))].
Qed.
Lemma network_default_known p n : p ∈ Policies (snap_bundle s) -> Network (Policy_Conditions p) = Some n ->
  Default n ∈ [NetworkDefaultObserve; NetworkDefaultDeny].
Proof.
  intros Hp Hn. pose proof (wf_bundle_policies _ snapshot_wf) as H. rewrite Forall_forall in H.
  apply wf_network_default. by apply (wf_network_condition p); [apply H|].
Qed.
Lemma network_blocks_hits o h :
  h ∈ Hits (Network_MatchResult (matchNetworkRules (concat (map network_block (selected s c conditionNetwork))) o)) <->
  exists p n, p ∈ selected s c conditionNetwork /\ Enabled p = true /\ Network (Policy_Conditions p) = Some n /\
    h ∈ network_hit p (rule_hash (ID p) "network_default" 0) (rule_decision o p n).
Proof. rewrite <-network_blocks. apply network_hits. Qed.
Lemma network_hits_decided o r :
  report_ok (snap_generation s) (selected s c conditionNetwork) (Report_Hits r) r ->
  (forall h, h ∈ Report_Hits r <->
     h ∈ Hits (Network_MatchResult (matchNetworkRules (concat (map network_block (selected s c conditionNetwork))) o))) ->
  decided (snap_bundle s) (snap_generation s) c conditionNetwork (network_triggers o) r.
Proof.
  intros Hok Hhits. apply report_decided; [done|..].
  - intros h. rewrite Hhits, network_blocks_hits. intros (p & n & Hp & He & Hn & Hh). exists p. split; [by apply selected_applies|].
    pose proof (network_default_known p n (selected_sub _ _ _ _ Hp) Hn) as Hd.
    destruct (network_hit_effect _ _ _ _ _ Hd Hh) as (Hna & Heff & E1 & E2 & E3 & E4). rewrite <-E2 in Heff. split; [|done]. rewrite E2.
    eapply (network_triggered o p n); [done|by apply evaluateNetworkPolicy_verdict|exact Hna|]. by rewrite E2 in Heff.
  - intros p id eff Hp [n d eff' Hn Hv Hna Heff]. pose proof (network_default_known p n (proj1 Hp) Hn) as Hd.
    pose proof (evaluateNetworkPolicy_verdict p n (rule_hash (ID p) "network_default" 0) (unmapped o) Hd) as Hv'.
    rewrite (network_verdict_fun _ _ _ _ Hv Hv') in Hna, Heff.
    destruct (network_hit_exists p n (rule_hash (ID p) "network_default" 0) (unmapped o) Hd Hna) as [h Hh]. exists h.
    destruct (network_hit_effect _ _ _ _ _ Hd Hh) as (_ & Heff' & E1 & E2 & E3 & E4). split; [|split; [split; [|done]|done]].
    + rewrite Hhits, network_blocks_hits. exists p, n. split_and!; [by apply selected_applies|exact (proj1 (proj2 Hp))|done|done].
    + rewrite E2. by eapply (network_triggered o p n).
Qed.
End Decisions.

(** An evaluation returns a report with the contract [good] exactly when the
    observation is [valid]. *)
Definition evaluates {A} (res : result EngineError A) (valid : Prop) (good : A -> Prop) : Prop :=
  match res with Ok r => valid /\ good r | Err _ => ~ valid end.
(** The final disposition is the verdict on the deciding policy, and that of
    its own decision. *)
Definition disposition_decided (b : Bundle) (c : EvaluationContext) (o : NetworkObservation) (r : NetworkDecisionReport) : Prop :=
  forall f, Report_Final (NetworkReport r) = Some f ->
    (exists p n, applies b c conditionNetwork p /\ ID p = Final_PolicyID f /\ Network (Policy_Conditions p) = Some n /\
       network_verdict n (unmapped o) (Final_NetworkDisposition f)) /\
    (exists d, d ∈ NetworkReport_Decisions r /\ ND_PolicyID d = Final_PolicyID f /\ ND_RuleID d = Final_RuleID f /\
       Final_NetworkDisposition f = ND_Disposition d).

Section EvaluationContracts.
Context (b : Bundle) (l : Limits) (s : engineSnapshot) (Hs : snapshot_from b l s) (lim : Limits).
Let e := Some (mkEngine lim (Some s)).

Lemma EvaluateFile_decided c o :
  evaluates (EvaluateFile e c o) (file_observation_ok o)
    (decided (snap_bundle s) (snap_generation s) c conditionFile (file_triggers o)).
Proof.
  unfold EvaluateFile. pose proof (validateFileObservation_ok o) as Hv.
  destruct (validateFileObservation o) eqn:Ev; [intros H; by apply Hv in H|].
  cbn [engine_snapshot e engine_active mbind result_bind].
  destruct (evaluateFileSnapshot s c [o]) as [r|err] eqn:Er; [split; [by apply Hv|by apply (file_hits_decided b l s Hs)]|exfalso].
  revert Er. unfold evaluateFileSnapshot. destruct (Policies _); [done|]. cbn [foldM]. unfold mbind, result_bind, file_observation_step. by rewrite Ev.
Qed.
Lemma EvaluateExec_decided c o :
  evaluates (EvaluateExec e c o) (exec_observation_ok o)
    (decided (snap_bundle s) (snap_generation s) c conditionExec (exec_triggers o)).
Proof.
  pose proof (EvaluateExec_report b l s Hs lim c o) as Hrep. fold e in Hrep. revert Hrep.
  unfold EvaluateExec. pose proof (validateExecObservation_ok o) as Hv.
  destruct (validateExecObservation o); [intros _ H; by apply Hv in H|].
  cbn [engine_snapshot e engine_active mbind result_bind]. rewrite (snapshot_exec_rules b l s Hs c). unfold evaluates.
  destruct (Policies (selectPolicies (snap_bundle s) c conditionExec)) as [|p0 ps0] eqn:Esel; intros Hrep; (split; [by apply Hv|]).
  - apply (exec_hits_decided b l s Hs c o _ _ eq_refl (Hrep _ eq_refl)). intros h. unfold selected. rewrite Esel. done.
  - apply (exec_hits_decided b l s Hs c o _ _ eq_refl (Hrep _ eq_refl)). intros h. cbn [Report_Hits buildDecisionReport].
    apply elem_of_sort_by.
Qed.
Lemma EvaluateNetwork_decided c o :
  evaluates (EvaluateNetwork e c o) (network_observation_ok o) (fun r =>
    decided (snap_bundle s) (snap_generation s) c conditionNetwork (network_triggers o) (NetworkReport r) /\
    disposition_decided (snap_bundle s) c o r).
Proof.
  pose proof (EvaluateNetwork_report b l s Hs lim c o) as Hrep. fold e in Hrep. revert Hrep.
  unfold EvaluateNetwork. pose proof (validateNetworkObservation_ok o) as Hv.
  destruct (validateNetworkObservation o); [intros _ H; by apply Hv in H|].
  cbn [engine_snapshot e engine_active mbind result_bind]. rewrite (snapshot_network_rules b l s Hs c). unfold evaluates.
  destruct (Policies (selectPolicies (snap_bundle s) c conditionNetwork)) as [|p0 ps0] eqn:Esel; intros Hrep;
    (split; [by apply Hv|]); destruct (Hrep _ eq_refl) as [Hok Hdisp]; (split; [apply (network_hits_decided b l s Hs c o _ Hok); intros h|]).
  - unfold selected. rewrite Esel. done.
  - done.
  - cbn [NetworkReport Report_Hits buildDecisionReport]. apply elem_of_sort_by.
  - intros f Ef. pose proof (Hdisp f Ef) as (d & Hd & E1 & E2 & E3). split; [|eauto]. cbn [NetworkReport_Decisions] in Hd.
    rewrite <-network_blocks in Hd. apply network_decisions in Hd as (p & n & Hp & He & Hn & ->). exists p, n.
    split_and!; [by apply selected_applies|rewrite <-E1; symmetry; apply evaluateNetworkPolicy_fields|done|].
    rewrite E3. apply evaluateNetworkPolicy_verdict. apply (network_default_known b l s Hs p); [by eapply selected_sub|done].
Qed.
End EvaluationContracts.

(** ** Properties *)
(** C7: every report names the highest-precedence policy with a triggered
    rule.  In any engine reached by construction and activations, a file, exec
    or network evaluation returns a report exactly when the observation is
    valid.  The hits of the report are exactly the rules the observation
    triggers of the policies that apply to the context (enabled, with a scope
    that covers it and a condition of the kind), each with its policy's
    requested action and the effective action of the rule.  There is a final
    decision exactly when there is such a rule, and it is that of the policy
    which outranks (scope, then priority, then identifier) every other one with
    a triggered rule.  A network report's final disposition is the verdict on
    the deciding policy. *)
Theorem evaluation_final_decision eng :
  reachable eng ->
  exists s, engine_active eng = Some s /\
  (forall c o, evaluates (EvaluateFile (Some eng) c o) (file_observation_ok o)
     (decided (snap_bundle s) (snap_generation s) c conditionFile (file_triggers o))) /\
  (forall c o, evaluates (EvaluateExec (Some eng) c o) (exec_observation_ok o)
     (decided (snap_bundle s) (snap_generation s) c conditionExec (exec_triggers o))) /\
  (forall c o, evaluates (EvaluateNetwork (Some eng) c o) (network_observation_ok o) (fun r =>
     decided (snap_bundle s) (snap_generation s) c conditionNetwork (network_triggers o) (NetworkReport r) /\
     disposition_decided (snap_bundle s) c o r)).
Proof.
  intros [(s & b & l & Hs & Hf & _)]%reachable_inv. exists s. split; [done|].
  destruct eng as [lim act]. cbn in Hs. subst act.
  split_and!; intros c o; [apply (EvaluateFile_decided b l s Hf)|apply (EvaluateExec_decided b l s Hf)|
    apply (EvaluateNetwork_decided b l s Hf)].
Qed.

(** C8: activation is atomic and monotone.  In any reachable engine a failed
    activation leaves the engine as it was; a successful one publishes a
    validated snapshot of the normalized bundle under a strictly newer
    revision in the other bank. *)
Theorem Activate_atomic eng b g eng' ds err :
  reachable eng -> Activate (Some eng) b g = (eng', ds, err) ->
  exists s, engine_active eng = Some s /\
  match err with
  | Some _ => eng' = Some eng
  | None => exists s', eng' = Some (mkEngine (engine_limits eng) (Some s')) /\ snap_generation s' = g /\
      snap_bundle s' = normalized b /\ wf_bundle (snap_bundle s') /\
      Revision (snap_generation s) < Revision g /\ Generation_Bank g = otherBank (Generation_Bank (snap_generation s))
  end.
Proof.
  intros [(s & b0 & l0 & Hs & _ & Hb & _)]%reachable_inv E. exists s. split; [done|].
  pose proof (Activate_cases _ _ _ _ _ _ _ Hs E) as H. destruct err; [done|].
  destruct H as (p & Hp & -> & Hlt & Hne & Hg). eexists. split_and!; [done|done| | |done|].
  - exact (pf_bundle _ _ _ Hp).
  - exact (pf_wf _ _ _ Hp).
  - unfold otherBank. unfold bank_ok in *. destruct Hb as [Hb|Hb], Hg as [Hg|Hg]; rewrite Hb, Hg in *; done.
Qed.

(** Decisions do not depend on the order of the policies in the bundle.
    Two bundles with the same policies in a different order, both accepted,
    give the same report on every observation in every context. *)
Theorem evaluation_order_independent b b' l l' p p' ds ds' g lim c :
  prepareEngineBundle b l = (Ok p, ds) -> prepareEngineBundle b' l' = (Ok p', ds') ->
  Policies b ≡ₚ Policies b' ->
  let eng := Some (mkEngine lim (Some (newEngineSnapshot g p))) in
  let eng' := Some (mkEngine lim (Some (newEngineSnapshot g p'))) in
  (forall o, EvaluateFile eng c o = EvaluateFile eng' c o) /\
  (forall o, EvaluateExec eng c o = EvaluateExec eng' c o) /\
  (forall o, EvaluateNetwork eng c o = EvaluateNetwork eng' c o).
Proof.
  intros Hp%prepareEngineBundle_Ok Hp'%prepareEngineBundle_Ok Hperm eng eng'.
  set (s := newEngineSnapshot g p). set (s' := newEngineSnapshot g p').
  assert (forall k, selectPolicies (snap_bundle s) c k = selectPolicies (snap_bundle s') c k) as Hsel.
  { intros k. assert (Policies (selectPolicies (snap_bundle s) c k) = Policies (selectPolicies (snap_bundle s') c k)) as E.
    { apply selectPolicies_perm; [apply wf_bundle_nodup, (pf_wf _ _ _ Hp)|].
      cbn. rewrite (pf_bundle _ _ _ Hp), (pf_bundle _ _ _ Hp'). cbn. by rewrite Hperm. }
    unfold selectPolicies in *; cbn [Policies] in E. f_equal; [|done].
    cbn. by rewrite (wf_bundle_version _ (pf_wf _ _ _ Hp)), (wf_bundle_version _ (pf_wf _ _ _ Hp')). }
  assert (snapshot_from b l s) as Hs by (by exists p). assert (snapshot_from b' l' s') as Hs' by (by exists p').
  assert (forall k, selected s c k = selected s' c k) as Hsel' by (intros k; unfold selected; by rewrite Hsel).
  split_and!; intros o.
  - unfold EvaluateFile. destruct (validateFileObservation o); [done|]. cbn [eng eng' engine_snapshot engine_active mbind result_bind].
    unfold evaluateFileSnapshot. rewrite (snapshot_file_rules b l s Hs), (snapshot_file_rules b' l' s' Hs'), Hsel, Hsel'. done.
  - unfold EvaluateExec. destruct (validateExecObservation o); [done|]. cbn [eng eng' engine_snapshot engine_active mbind result_bind].
    fold s s'. rewrite (snapshot_exec_rules b l s Hs), (snapshot_exec_rules b' l' s' Hs'), Hsel, Hsel'. done.
  - unfold EvaluateNetwork. destruct (validateNetworkObservation o); [done|]. cbn [eng eng' engine_snapshot engine_active mbind result_bind].
    fold s s'. rewrite (snapshot_network_rules b l s Hs), (snapshot_network_rules b' l' s' Hs'), Hsel, Hsel'. done.
Qed.

(** A run-scoped policy that outranks the global one of [demo_file_bundle]. *)
Definition demo_run_policy : Policy :=
  mkPolicy "run-keys" "Keys of one run" "" true (mkScope ScopeRun "run-1" "" ∅) DecisionObserve ActionAudit 1 SeverityLow
    (mkConditions (Some (mkFileCondition [] [] [".key"] [] [FileRead; FileWrite])) None None).
Definition demo_bundle : Bundle := mkBundle 1 [demo_file_policy; demo_run_policy; demo_exec_policy; demo_network_policy].
Definition demo_bundle_reversed : Bundle :=
  mkBundle 1 [demo_network_policy; demo_exec_policy; demo_run_policy; demo_file_policy].
Definition demo_generation : Generation := mkGeneration 1 BankA.
Definition demo_context : EvaluationContext := mkContext "run-1" "77" ∅.
Definition no_prepared : preparedEngineBundle := mkPrepared (mkBundle 0 []) ∅ ∅ ∅.
Definition demo_prepared (b : Bundle) : preparedEngineBundle :=
  match prepareEngineBundle b DefaultLimits with (Ok p, _) => p | _ => no_prepared end.
Definition demo_engine : Engine :=
  mkEngine (withDefaults DefaultLimits) (Some (newEngineSnapshot demo_generation (demo_prepared demo_bundle))).

Lemma demo_prepared_ok : prepareEngineBundle demo_bundle DefaultLimits = (Ok (demo_prepared demo_bundle), []).
Proof. vm_compute. reflexivity. Qed.
Lemma demo_reversed_ok :
  prepareEngineBundle demo_bundle_reversed DefaultLimits = (Ok (demo_prepared demo_bundle_reversed), []).
Proof. vm_compute. reflexivity. Qed.
Lemma demo_reachable : reachable demo_engine.
Proof.
  apply (reach_new demo_bundle demo_generation DefaultLimits demo_engine []); [done|].
  unfold NewEngine. cbn [validateInitialGeneration demo_generation]. by rewrite demo_prepared_ok.
Qed.

Definition final_policy (r : result EngineError DecisionReport) : option string :=
  match r with Ok r => Final_PolicyID <$> Report_Final r | Err _ => None end.

Lemma evaluation_final_decision_witness :
  final_policy (EvaluateFile (Some demo_engine) demo_context demo_file_observation) = Some "run-keys" /\
  exists s, engine_active demo_engine = Some s /\
    evaluates (EvaluateFile (Some demo_engine) demo_context demo_file_observation) (file_observation_ok demo_file_observation)
      (decided (snap_bundle s) (snap_generation s) demo_context conditionFile (file_triggers demo_file_observation)).
Proof.
  split; [vm_compute; reflexivity|].
  destruct (evaluation_final_decision demo_engine demo_reachable) as (s & Hs & Hf & _). exists s. split; [exact Hs|apply Hf].
Defined.

Lemma Activate_atomic_witness :
  exists eng' ds, Activate (Some demo_engine) demo_file_bundle (mkGeneration 2 BankB) = (eng', ds, None) /\
  exists s, engine_active demo_engine = Some s /\ Revision (snap_generation s) < 2.
Proof.
  destruct (Activate (Some demo_engine) demo_file_bundle (mkGeneration 2 BankB)) as [[eng' ds] err] eqn:E.
  exists eng', ds.
  assert (err = None) as -> by (apply (f_equal snd) in E; vm_compute in E; by symmetry).
  split; [reflexivity|].
  destruct (Activate_atomic demo_engine demo_file_bundle (mkGeneration 2 BankB) eng' ds None demo_reachable E)
    as (s & Hs & _ & _ & _ & _ & _ & Hlt & _). exists s. split; [exact Hs|exact Hlt].
Defined.

Lemma evaluation_order_independent_witness :
  EvaluateFile (Some (mkEngine DefaultLimits (Some (newEngineSnapshot demo_generation (demo_prepared demo_bundle)))))
    demo_context demo_file_observation =
  EvaluateFile (Some (mkEngine DefaultLimits (Some (newEngineSnapshot demo_generation (demo_prepared demo_bundle_reversed)))))
    demo_context demo_file_observation.
Proof.
  pose proof (evaluation_order_independent demo_bundle demo_bundle_reversed DefaultLimits DefaultLimits _ _ [] []
    demo_generation DefaultLimits demo_context demo_prepared_ok demo_reversed_ok
    (Permutation_rev (Policies demo_bundle))) as [Hf _].
  exact (Hf demo_file_observation).
Defined.
