(* ===== verification/Events.v ===== *)
(** * Kernel events ([internal/events/kernel_event.go], [bpf/events.h])

    The wire layout of [struct agentshield_event] and the decoder that turns a
    ring-buffer sample into a [KernelEvent].  A sample is a list of bytes. *)
From S2P Require Import Prelude GoStd Netip.
Open Scope Z_scope.

(** ** Constants
    The names that the policy package also uses carry the prefix [Kernel]. *)
Definition WireSchemaVersion : Z := 3.
Definition JSONSchemaVersion : Z := 2.

Definition EventTypeUnspecified : Z := 0.
Definition EventTypeExecAttempt : Z := 1.
Definition EventTypeFileOpen : Z := 2.
Definition EventTypeNetConnect : Z := 3.
Definition EventTypePolicyHit : Z := 4.
Definition EventTypeBlockResult : Z := 5.
Definition EventTypeDropNotice : Z := 6.
Definition EventTypeSelfDiag : Z := 7.

Definition KernelActionAudit : Z := 0.
Definition KernelActionAlert : Z := 1.
Definition KernelActionBlock : Z := 2.
Definition KernelActionContain : Z := 3.

Definition ActionResultNone : Z := 0.
Definition ActionResultAllowed : Z := 1.
Definition ActionResultBlocked : Z := 2.
Definition ActionResultKilled : Z := 3.
Definition ActionResultFailed : Z := 4.
Definition ActionResultFallback : Z := 5.

Definition FlagTruncated : Z := 1.
Definition FlagFallback : Z := 2.
Definition FlagFieldUnavailable : Z := 4.
Definition FlagExecutableTruncated : Z := 8.
Definition FlagArgumentsTruncated : Z := 16.

Definition AddressFamilyIPv4 : Z := 2.
Definition AddressFamilyIPv6 : Z := 10.
Definition KernelProtocolTCP : Z := 6.

Definition execExecutableLength : nat := 128.
Definition execArgumentCount : nat := 4.
Definition execArgumentLength : nat := 32.

(** ** Data *)
Record KernelEvent := mkKernelEvent {
  Event_JSONSchemaVersion : Z;
  Event_SchemaVersion : Z;
  Event_EventType : Z;
  Event_EventTypeName : string;
  Event_Action : Z;
  Event_ActionName : string;
  Event_ActionResult : Z;
  Event_ActionResultName : string;
  Event_TimestampNS : Z;
  Event_KernelMonotonicNS : Z;
  Event_ServerReceivedMonotonicNS : Z;
  Event_ServerReceivedUnixNS : Z;
  Event_ClockCalibrationErrorNS : Z;
  Event_CgroupID : Z;
  Event_InstanceID : Z;
  Event_ScopeCookie : Z;
  Event_PID : Z;
  Event_TGID : Z;
  Event_PPID : Z;
  Event_UID : Z;
  Event_ProfileID : Z;
  Event_PolicyID : Z;
  Event_RuleID : Z;
  Event_Flags : Z;
  Event_SyscallFlags : Z;
  Event_Comm : string;
  Event_Data : string;
  Event_Argv : list string;
  Event_CapturedArgc : Z;
  Event_DestinationIP : string;
  Event_DestinationPort : Z;
  Event_AddressFamily : Z;
  Event_AddressFamilyName : string;
  Event_Protocol : Z;
  Event_ProtocolName : string;
  Event_DroppedEventType : Z;
  Event_DroppedEventTypeName : string;
  Event_DroppedCount : Z;
  Event_Truncated : bool;
  Event_ExecutableTruncated : bool;
  Event_ArgumentsTruncated : bool;
  Event_FieldsUnavailable : bool;
  Event_RawEncoding : gmap string string;
}.

Record rawKernelEventV3 := mkRaw {
  Raw_SchemaVersion : Z;
  Raw_EventType : Z;
  Raw_Action : Z;
  Raw_ActionResult : Z;
  Raw_TimestampNS : Z;
  Raw_CgroupID : Z;
  Raw_InstanceID : Z;
  Raw_ScopeCookie : Z;
  Raw_PID : Z;
  Raw_TGID : Z;
  Raw_PPID : Z;
  Raw_UID : Z;
  Raw_ProfileID : Z;
  Raw_PolicyID : Z;
  Raw_RuleID : Z;
  Raw_Flags : Z;
  Raw_SyscallFlags : Z;
  Raw_CapturedArgcPlusOne : Z;
  Raw_Comm : list Z;
  Raw_Data : list Z;
}.

Record rawNetworkPayloadV2 := mkRawNetwork {
  Payload_DestinationAddress : list Z;
  Payload_DestinationPort : Z;
  Payload_AddressFamily : Z;
  Payload_Protocol : Z;
  Payload_Reserved : list Z;
}.

Inductive DecodeError :=
| SampleTooShort (n : Z)
| ErrUnsupportedSchema (got : Z)
| InvalidSize (n : Z)
| MissingScopeIdentity
| MissingCapturedArgc
| CapturedArgcTooLarge (argc : Z)
| NetworkPayloadShort (n : Z)
| UnsupportedAddressFamily (f : Z)
| UnsupportedProtocol (p : Z).

(** ** Little-endian fields ([encoding/binary]) *)
Fixpoint le_val (bs : list Z) : Z :=
  match bs with
  | [] => 0
  | b :: bs' => b + 256 * le_val bs'
  end.
Fixpoint le_bytes (n : nat) (z : Z) : list Z :=
  match n with
  | O => []
  | S n' => z mod 256 :: le_bytes n' (z / 256)
  end.
Definition field (off n : nat) (bs : list Z) : list Z := take n (drop off bs).

(** Sizes of the packed layouts, as [binary.Size] computes them. *)
Definition KernelEventV3Size : nat := 4 * 2 + 4 * 8 + 10 * 4 + 16 + 256.
Definition networkPayloadSize : nat := 16 + 2 + 2 + 1 + 3.

(** [binary.Read] into the two raw structures. *)
Definition read_raw (bs : list Z) : rawKernelEventV3 :=
  mkRaw (le_val (field 0 2 bs)) (le_val (field 2 2 bs)) (le_val (field 4 2 bs)) (le_val (field 6 2 bs))
    (le_val (field 8 8 bs)) (le_val (field 16 8 bs)) (le_val (field 24 8 bs)) (le_val (field 32 8 bs))
    (le_val (field 40 4 bs)) (le_val (field 44 4 bs)) (le_val (field 48 4 bs)) (le_val (field 52 4 bs))
    (le_val (field 56 4 bs)) (le_val (field 60 4 bs)) (le_val (field 64 4 bs)) (le_val (field 68 4 bs))
    (le_val (field 72 4 bs)) (le_val (field 76 4 bs)) (field 80 16 bs) (field 96 256 bs).
Definition read_network (bs : list Z) : rawNetworkPayloadV2 :=
  mkRawNetwork (field 0 16 bs) (le_val (field 16 2 bs)) (le_val (field 18 2 bs)) (le_val (field 20 1 bs)) (field 21 3 bs).

(** ** Names *)
Definition EventTypeName (t : Z) : string :=
  if t =? EventTypeExecAttempt then "exec_attempt"
  else if t =? EventTypeFileOpen then "file_open"
  else if t =? EventTypeNetConnect then "net_connect"
  else if t =? EventTypePolicyHit then "policy_hit"
  else if t =? EventTypeBlockResult then "block_result"
  else if t =? EventTypeDropNotice then "drop_notice"
  else if t =? EventTypeSelfDiag then "self_diag"
  else if t =? EventTypeUnspecified then "unspecified"
  else "unknown".
Definition ActionName (a : Z) : string :=
  if a =? KernelActionAudit then "audit"
  else if a =? KernelActionAlert then "alert"
  else if a =? KernelActionBlock then "block"
  else if a =? KernelActionContain then "contain"
  else "unknown".
Definition ActionResultName (r : Z) : string :=
  if r =? ActionResultNone then "none"
  else if r =? ActionResultAllowed then "allowed"
  else if r =? ActionResultBlocked then "blocked"
  else if r =? ActionResultKilled then "killed"
  else if r =? ActionResultFailed then "failed"
  else if r =? ActionResultFallback then "fallback"
  else "unknown".
Definition AddressFamilyName (f : Z) : string :=
  if f =? AddressFamilyIPv4 then "ipv4" else if f =? AddressFamilyIPv6 then "ipv6" else "unknown".
Definition ProtocolName (p : Z) : string := if p =? KernelProtocolTCP then "tcp" else "unknown".

(** ** C strings *)
(** The index of the first zero byte, [bytes.IndexByte]. *)
Fixpoint trimCString (value : list Z) : list Z :=
  match value with
  | [] => []
  | b :: bs => if b =? 0 then [] else b :: trimCString bs
  end.
Definition CleanCString (value : list Z) : string := bytes_to_string (trimCString value).

(** [base64.StdEncoding]. *)
Definition base64_char (v : Z) : ascii :=
  chr (if v <? 26 then 65 + v else if v <? 52 then 71 + v else if v <? 62 then v - 4
       else if v =? 62 then 43 else 47).
Fixpoint base64 (bs : list Z) : string :=
  match bs with
  | a :: b :: c :: bs' =>
      String (base64_char (a / 4)) (String (base64_char (a mod 4 * 16 + b / 16))
        (String (base64_char (b mod 16 * 4 + c / 64)) (String (base64_char (c mod 64)) (base64 bs'))))
  | [a; b] => String (base64_char (a / 4)) (String (base64_char (a mod 4 * 16 + b / 16))
                (String (base64_char (b mod 16 * 4)) "="))
  | [a] => String (base64_char (a / 4)) (String (base64_char (a mod 4 * 16)) "==")
  | [] => EmptyString
  end.

Definition cleanCString (value : list Z) : string * string :=
  let value := trimCString value in
  if utf8_valid (bytes_to_string value) then (bytes_to_string value, EmptyString) else (base64 value, "base64").
(** The decoded text and [event.RawEncoding] afterwards. *)
Definition decodeEventCString (encodings : gmap string string) (name : string) (value : list Z)
  : string * gmap string string :=
  let '(cleaned, encoding) := cleanCString value in
  (cleaned, if encoding != "" then <[name := encoding]> encodings else encodings).

(** ** The decoder *)
(** The argument loop, from slot [i] with [n] slots left.  A slot is decoded
    before the captured count is compared. *)
Fixpoint decode_argv (n i : nat) (capturedArgc : Z) (data : list Z) (encodings : gmap string string) (argv : list string)
  : list string * gmap string string :=
  match n with
  | O => (argv, encodings)
  | S n' =>
      let start := (execExecutableLength + i * execArgumentLength)%nat in
      let '(arg, encodings') :=
        decodeEventCString encodings ("argv[" +:+ FormatUint (Z.of_nat i) +:+ "]") (field start execArgumentLength data) in
      if capturedArgc <=? Z.of_nat i then (argv, encodings')
      else decode_argv n' (S i) capturedArgc data encodings' (argv ++ [arg])
  end.

(** Address, port, family and protocol of a network payload. *)
Definition decodeNetworkPayload (data : list Z) : result DecodeError (Addr * Z * Z * Z) :=
  if bool_decide (length data < networkPayloadSize)%nat then Err (NetworkPayloadShort (len data))
  else
    let payload := read_network (take networkPayloadSize data) in
    let f := Payload_AddressFamily payload in
    let decoded :=
      if f =? AddressFamilyIPv4 then Some (AddrFrom4 (take 4 (Payload_DestinationAddress payload)))
      else if f =? AddressFamilyIPv6 then Some (AddrFrom16 (Payload_DestinationAddress payload))
      else None in
    match decoded with
    | None => Err (UnsupportedAddressFamily f)
    | Some address =>
        if negb (Payload_Protocol payload =? KernelProtocolTCP) then Err (UnsupportedProtocol (Payload_Protocol payload))
        else Ok (address, Payload_DestinationPort payload, f, Payload_Protocol payload)
    end.

Definition flag_set (flags bit : Z) : bool := negb (Z.land flags bit =? 0).

(** The fields of an event that every branch fills alike. *)
Definition base_event (raw : rawKernelEventV3) (comm data : string) (argv : list string)
    (network : option (Addr * Z * Z * Z)) (encodings : gmap string string) : KernelEvent :=
  let truncated := flag_set (Raw_Flags raw) FlagTruncated in
  let exe := flag_set (Raw_Flags raw) FlagExecutableTruncated in
  let args := flag_set (Raw_Flags raw) FlagArgumentsTruncated in
  let legacy := (Raw_EventType raw =? EventTypeExecAttempt) && truncated && negb exe && negb args in
  let '(ip, port, family, familyName, protocol, protocolName) :=
    match network with
    | Some (a, port, f, p) => (Addr_String a, port, f, AddressFamilyName f, p, ProtocolName p)
    | None => (EmptyString, 0, 0, EmptyString, 0, EmptyString)
    end in
  mkKernelEvent JSONSchemaVersion (Raw_SchemaVersion raw)
    (Raw_EventType raw) (EventTypeName (Raw_EventType raw))
    (Raw_Action raw) (ActionName (Raw_Action raw))
    (Raw_ActionResult raw) (ActionResultName (Raw_ActionResult raw))
    (Raw_TimestampNS raw) (Raw_TimestampNS raw) 0 0 0
    (Raw_CgroupID raw) (Raw_InstanceID raw) (Raw_ScopeCookie raw)
    (Raw_PID raw) (Raw_TGID raw) (Raw_PPID raw) (Raw_UID raw)
    (Raw_ProfileID raw) (Raw_PolicyID raw) (Raw_RuleID raw) (Raw_Flags raw) (Raw_SyscallFlags raw)
    comm data argv (len argv)
    ip port family familyName protocol protocolName
    0 EmptyString 0
    truncated (exe || legacy) (args || legacy) (flag_set (Raw_Flags raw) FlagFieldUnavailable)
    encodings.

(** The part of [DecodeKernelEvent] after the fixed-size read. *)
Definition decode_raw (raw : rawKernelEventV3) : result DecodeError KernelEvent :=
  if (Raw_CgroupID raw =? 0) || (Raw_InstanceID raw =? 0) || (Raw_ScopeCookie raw =? 0) then Err MissingScopeIdentity
  else
    let '(comm, encodings) := decodeEventCString ∅ "comm" (Raw_Comm raw) in
    if Raw_EventType raw =? EventTypeExecAttempt then
      let '(data, encodings) := decodeEventCString encodings "data" (take execExecutableLength (Raw_Data raw)) in
      if Raw_CapturedArgcPlusOne raw =? 0 then Err MissingCapturedArgc
      else if Z.of_nat (execArgumentCount + 1) <? Raw_CapturedArgcPlusOne raw
           then Err (CapturedArgcTooLarge (Raw_CapturedArgcPlusOne raw - 1))
      else
        let '(argv, encodings) :=
          decode_argv execArgumentCount 0 (Raw_CapturedArgcPlusOne raw - 1) (Raw_Data raw) encodings [] in
        Ok (base_event raw comm data argv None encodings)
    else if Raw_EventType raw =? EventTypeNetConnect then
      network ← decodeNetworkPayload (Raw_Data raw);
      Ok (base_event raw comm EmptyString [] (Some network) encodings)
    else
      let '(data, encodings) := decodeEventCString encodings "data" (Raw_Data raw) in
      Ok (base_event raw comm data [] None encodings).

Definition DecodeKernelEvent (sample : list Z) : result DecodeError KernelEvent :=
  if len sample <? 2 then Err (SampleTooShort (len sample))
  else if negb (le_val (take 2 sample) =? WireSchemaVersion) then Err (ErrUnsupportedSchema (le_val (take 2 sample)))
  else if negb (bool_decide (length sample = KernelEventV3Size)) then Err (InvalidSize (len sample))
  else decode_raw (read_raw sample).

(** ** The wire image
    [struct agentshield_event] in memory on the little-endian targets. *)
Definition write_raw (r : rawKernelEventV3) : list Z :=
  le_bytes 2 (Raw_SchemaVersion r) ++ le_bytes 2 (Raw_EventType r) ++
  le_bytes 2 (Raw_Action r) ++ le_bytes 2 (Raw_ActionResult r) ++
  le_bytes 8 (Raw_TimestampNS r) ++ le_bytes 8 (Raw_CgroupID r) ++
  le_bytes 8 (Raw_InstanceID r) ++ le_bytes 8 (Raw_ScopeCookie r) ++
  le_bytes 4 (Raw_PID r) ++ le_bytes 4 (Raw_TGID r) ++ le_bytes 4 (Raw_PPID r) ++ le_bytes 4 (Raw_UID r) ++
  le_bytes 4 (Raw_ProfileID r) ++ le_bytes 4 (Raw_PolicyID r) ++ le_bytes 4 (Raw_RuleID r) ++
  le_bytes 4 (Raw_Flags r) ++ le_bytes 4 (Raw_SyscallFlags r) ++ le_bytes 4 (Raw_CapturedArgcPlusOne r) ++
  Raw_Comm r ++ Raw_Data r.
Definition write_network (p : rawNetworkPayloadV2) : list Z :=
  Payload_DestinationAddress p ++ le_bytes 2 (Payload_DestinationPort p) ++
  le_bytes 2 (Payload_AddressFamily p) ++ le_bytes 1 (Payload_Protocol p) ++ Payload_Reserved p.

Definition fits (n : nat) (z : Z) : Prop := 0 <= z < 256 ^ Z.of_nat n.
Record raw_ok (r : rawKernelEventV3) : Prop := {
  rok_u16 : Forall (fits 2) [Raw_SchemaVersion r; Raw_EventType r; Raw_Action r; Raw_ActionResult r];
  rok_u64 : Forall (fits 8) [Raw_TimestampNS r; Raw_CgroupID r; Raw_InstanceID r; Raw_ScopeCookie r];
  rok_u32 : Forall (fits 4) [Raw_PID r; Raw_TGID r; Raw_PPID r; Raw_UID r; Raw_ProfileID r; Raw_PolicyID r;
                             Raw_RuleID r; Raw_Flags r; Raw_SyscallFlags r; Raw_CapturedArgcPlusOne r];
  rok_comm : length (Raw_Comm r) = 16%nat;
  rok_data : length (Raw_Data r) = 256%nat;
}.

(** ** Lemmas: the layout *)
Lemma le_bytes_length n z : length (le_bytes n z) = n.
Proof. revert z. induction n as [|n IH]; intros z; cbn; [done|]. by rewrite IH. Qed.
Lemma le_val_bytes n z : fits n z -> le_val (le_bytes n z) = z.
Proof.
  unfold fits. revert z. induction n as [|n IH]; intros z Hz; cbn [le_bytes le_val]; [cbn in Hz; lia|].
  rewrite IH; [pose proof (Z.div_mod z 256); lia|].
  rewrite Nat2Z.inj_succ, Z.pow_succ_r in Hz by lia. split; [apply Z.div_pos; lia|].
  apply Z.div_lt_upper_bound; lia.
Qed.
Lemma le_bytes_val l : Forall is_byte l -> le_bytes (length l) (le_val l) = l.
Proof.
  induction 1 as [|b l Hb Hl IH]; cbn; [done|]. unfold is_byte in Hb.
  rewrite (Z.mul_comm 256), Z.mod_add, Z.mod_small, Z.div_add, Z.div_small by lia. by rewrite Z.add_0_l, IH.
Qed.
Lemma le_val_fits l : Forall is_byte l -> fits (length l) (le_val l).
Proof.
  unfold fits. induction 1 as [|b l Hb Hl IH]; cbn [le_val length]; [cbn; lia|]. unfold is_byte in Hb.
  rewrite Nat2Z.inj_succ, Z.pow_succ_r by lia. lia.
Qed.
Lemma field_head n (a b : list Z) : length a = n -> field 0 n (a ++ b) = a.
Proof. intros <-. unfold field. rewrite drop_0. apply take_app_length. Qed.
Lemma field_skip off n (a b : list Z) : (length a <= off)%nat -> field off n (a ++ b) = field (off - length a) n b.
Proof. intros H. unfold field. by rewrite drop_app_ge. Qed.
Lemma field_length off n (l : list Z) : (off + n <= length l)%nat -> length (field off n l) = n.
Proof. intros H. unfold field. rewrite length_take, length_drop. lia. Qed.
Lemma field_join off n off' m (l : list Z) :
  off' = (off + n)%nat -> field off n l ++ field off' m l = field off (n + m) l.
Proof. intros ->. unfold field. rewrite <-drop_drop. apply take_take_drop. Qed.
Lemma field_bytes off n l : Forall is_byte l -> Forall is_byte (field off n l).
Proof. intros H. unfold field. by apply Forall_take, Forall_drop. Qed.

Ltac skip_field :=
  rewrite field_skip by (rewrite le_bytes_length; lia); rewrite le_bytes_length;
  match goal with |- context [field (?a - ?b) ?n ?l] =>
    let v := eval compute in (a - b)%nat in change (field (a - b) n l) with (field v n l) end.
Ltac read_field :=
  repeat skip_field; rewrite field_head by (rewrite ?le_bytes_length; done).

Lemma read_write_raw r : raw_ok r -> read_raw (write_raw r) = r.
Proof.
  intros [H16 H64 H32 Hc Hd]. 
  repeat match goal with H : Forall _ (_ :: _) |- _ => apply Forall_cons in H as [? H] end.
  destruct r as [f1 f2 f3 f4 f5 f6 f7 f8 f9 f10 f11 f12 f13 f14 f15 f16 f17 f18 comm data].
  unfold read_raw, write_raw. cbn [Raw_SchemaVersion Raw_EventType Raw_Action Raw_ActionResult Raw_TimestampNS Raw_CgroupID
    Raw_InstanceID Raw_ScopeCookie Raw_PID Raw_TGID Raw_PPID Raw_UID Raw_ProfileID Raw_PolicyID Raw_RuleID Raw_Flags
    Raw_SyscallFlags Raw_CapturedArgcPlusOne Raw_Comm Raw_Data] in *.
  f_equal; [read_field; by apply le_val_bytes..| |].
  - read_field. done.
  - repeat skip_field. rewrite field_skip by lia. rewrite Hc. change (16 - 16)%nat with 0%nat.
    unfold field. rewrite drop_0. apply take_ge. lia.
Qed.
Lemma write_raw_length r : raw_ok r -> length (write_raw r) = KernelEventV3Size.
Proof.
  intros [_ _ _ Hc Hd]. unfold write_raw. rewrite !length_app, !le_bytes_length, Hc, Hd. done.
Qed.
Lemma write_read_raw bs : Forall is_byte bs -> length bs = KernelEventV3Size -> write_raw (read_raw bs) = bs.
Proof.
  intros Hb Hlen. unfold write_raw, read_raw. cbn [Raw_SchemaVersion Raw_EventType Raw_Action Raw_ActionResult Raw_TimestampNS Raw_CgroupID
    Raw_InstanceID Raw_ScopeCookie Raw_PID Raw_TGID Raw_PPID Raw_UID Raw_ProfileID Raw_PolicyID Raw_RuleID Raw_Flags
    Raw_SyscallFlags Raw_CapturedArgcPlusOne Raw_Comm Raw_Data].
  assert (forall off n, (off + n <= 352)%nat -> le_bytes n (le_val (field off n bs)) = field off n bs) as Hf.
  { intros off n H. rewrite <-(field_length off n bs) at 1 by (rewrite Hlen; exact H). by apply le_bytes_val, field_bytes. }
  rewrite !Hf by lia.
  repeat (erewrite field_join by reflexivity).
  unfold field. rewrite drop_0. apply take_ge. rewrite Hlen. done.
Qed.
Lemma read_raw_ok bs : Forall is_byte bs -> length bs = KernelEventV3Size -> raw_ok (read_raw bs).
Proof.
  intros Hb Hlen.
  assert (forall off n, (off + n <= 352)%nat -> fits n (le_val (field off n bs))) as Hf.
  { intros off n H. rewrite <-(field_length off n bs) at 1 by (rewrite Hlen; exact H). by apply le_val_fits, field_bytes. }
  constructor; cbn; [repeat (constructor; [apply Hf; lia|]); constructor..| |]; apply field_length; rewrite Hlen; unfold KernelEventV3Size; lia.
Qed.

(** ** What an accepted image decodes to *)
Definition argv_slot (data : list Z) (i : nat) : string :=
  (cleanCString (field (execExecutableLength + i * execArgumentLength) execArgumentLength data)).1.
Definition captured (raw : rawKernelEventV3) : nat := Z.to_nat (Raw_CapturedArgcPlusOne raw - 1).
Definition network_of (raw : rawKernelEventV3) : rawNetworkPayloadV2 := read_network (take networkPayloadSize (Raw_Data raw)).
Definition address_of (p : rawNetworkPayloadV2) : Addr :=
  if Payload_AddressFamily p =? AddressFamilyIPv4 then AddrFrom4 (take 4 (Payload_DestinationAddress p))
  else AddrFrom16 (Payload_DestinationAddress p).

Record accepted (raw : rawKernelEventV3) : Prop := {
  acc_version : Raw_SchemaVersion raw = WireSchemaVersion;
  acc_scope : Raw_CgroupID raw <> 0 /\ Raw_InstanceID raw <> 0 /\ Raw_ScopeCookie raw <> 0;
  acc_exec : Raw_EventType raw = EventTypeExecAttempt -> 1 <= Raw_CapturedArgcPlusOne raw <= 5;
  acc_network : Raw_EventType raw = EventTypeNetConnect ->
    Payload_AddressFamily (network_of raw) ∈ [AddressFamilyIPv4; AddressFamilyIPv6] /\
    Payload_Protocol (network_of raw) = KernelProtocolTCP;
}.
Record decodes (raw : rawKernelEventV3) (e : KernelEvent) : Prop := {
  dec_header : [Event_SchemaVersion e; Event_EventType e; Event_Action e; Event_ActionResult e; Event_KernelMonotonicNS e;
                Event_CgroupID e; Event_InstanceID e; Event_ScopeCookie e; Event_PID e; Event_TGID e; Event_PPID e;
                Event_UID e; Event_ProfileID e; Event_PolicyID e; Event_RuleID e; Event_Flags e; Event_SyscallFlags e] =
               [Raw_SchemaVersion raw; Raw_EventType raw; Raw_Action raw; Raw_ActionResult raw; Raw_TimestampNS raw;
                Raw_CgroupID raw; Raw_InstanceID raw; Raw_ScopeCookie raw; Raw_PID raw; Raw_TGID raw; Raw_PPID raw;
                Raw_UID raw; Raw_ProfileID raw; Raw_PolicyID raw; Raw_RuleID raw; Raw_Flags raw; Raw_SyscallFlags raw];
  dec_comm : Event_Comm e = (cleanCString (Raw_Comm raw)).1;
  dec_truncated : Event_Truncated e = flag_set (Raw_Flags raw) FlagTruncated;
  dec_capture :
    (flag_set (Raw_Flags raw) FlagExecutableTruncated = true -> Event_ExecutableTruncated e = true) /\
    (flag_set (Raw_Flags raw) FlagArgumentsTruncated = true -> Event_ArgumentsTruncated e = true);
  dec_exec : Raw_EventType raw = EventTypeExecAttempt ->
    Event_Data e = (cleanCString (take execExecutableLength (Raw_Data raw))).1 /\
    Event_Argv e = map (argv_slot (Raw_Data raw)) (seq 0 (captured raw)) /\
    Event_CapturedArgc e = Raw_CapturedArgcPlusOne raw - 1 /\
    (Event_Truncated e = true -> Event_ExecutableTruncated e = true \/ Event_ArgumentsTruncated e = true);
  dec_network : Raw_EventType raw = EventTypeNetConnect ->
    Event_DestinationIP e = Addr_String (address_of (network_of raw)) /\
    Event_DestinationPort e = Payload_DestinationPort (network_of raw) /\
    Event_AddressFamily e = Payload_AddressFamily (network_of raw) /\ Event_Protocol e = KernelProtocolTCP;
  dec_other : Raw_EventType raw <> EventTypeExecAttempt -> Raw_EventType raw <> EventTypeNetConnect ->
    Event_Data e = (cleanCString (Raw_Data raw)).1;
}.

Lemma decodeEventCString_fst enc name v : (decodeEventCString enc name v).1 = (cleanCString v).1.
Proof. unfold decodeEventCString. by destruct (cleanCString v). Qed.
Lemma decode_argv_fst n : forall i argc data enc argv,
  (i <= argc)%nat ->
  (decode_argv n i (Z.of_nat argc) data enc argv).1 = argv ++ map (argv_slot data) (seq i (n `min` (argc - i))).
Proof.
  induction n as [|n IH]; intros i argc data enc argv Hi; cbn [decode_argv]; [by rewrite app_nil_r|].
  destruct (decodeEventCString _ _ _) as [arg enc'] eqn:E.
  assert (arg = argv_slot data i) as ->.
  { unfold argv_slot. rewrite <-(decodeEventCString_fst enc ("argv[" +:+ FormatUint (Z.of_nat i) +:+ "]")). by rewrite E. }
  destruct (Z.leb_spec (Z.of_nat argc) (Z.of_nat i)).
  - replace (argc - i)%nat with 0%nat by lia. rewrite Nat.min_0_r. cbn. by rewrite app_nil_r.
  - rewrite IH by lia. replace (S n `min` (argc - i))%nat with (S (n `min` (argc - S i))) by lia.
    cbn [seq map]. by rewrite <-app_assoc.
Qed.

Lemma decodeNetworkPayload_spec raw :
  length (Raw_Data raw) = 256%nat ->
  match decodeNetworkPayload (Raw_Data raw) with
  | Ok (a, port, f, p) =>
      f ∈ [AddressFamilyIPv4; AddressFamilyIPv6] /\ p = KernelProtocolTCP /\
      a = address_of (network_of raw) /\ port = Payload_DestinationPort (network_of raw) /\
      f = Payload_AddressFamily (network_of raw) /\ p = Payload_Protocol (network_of raw)
  | Err _ => ~ (Payload_AddressFamily (network_of raw) ∈ [AddressFamilyIPv4; AddressFamilyIPv6] /\
                Payload_Protocol (network_of raw) = KernelProtocolTCP)
  end.
Proof.
  intros Hd. unfold decodeNetworkPayload. fold (network_of raw). rewrite bool_decide_eq_false_2 by (rewrite Hd; unfold networkPayloadSize; lia).
  set (p := network_of raw). unfold address_of.
  destruct (Z.eqb_spec (Payload_AddressFamily p) AddressFamilyIPv4) as [E4|E4];
    [|destruct (Z.eqb_spec (Payload_AddressFamily p) AddressFamilyIPv6) as [E6|E6]];
    [destruct (Z.eqb_spec (Payload_Protocol p) KernelProtocolTCP); cbn [negb]..|].
  - rewrite E4. split_and!; try done. left.
  - by intros [_ ?].
  - rewrite E6. split_and!; try done. right. left.
  - by intros [_ ?].
  - intros [[?|[?|[]%elem_of_nil]%elem_of_cons]%elem_of_cons _]; done.
Qed.

(** The decoder accepts exactly the well-formed records, and then reports
    their fields. *)
Lemma decode_raw_spec raw :
  raw_ok raw -> Raw_SchemaVersion raw = WireSchemaVersion ->
  match decode_raw raw with Ok e => accepted raw /\ decodes raw e | Err _ => ~ accepted raw end.
Proof.
  intros [_ _ H32 _ Hd] Hv. unfold decode_raw.
  destruct (_ || _) eqn:Es.
  { intros [_ (H1 & H2 & H3) _ _]. apply Z.eqb_neq in H1, H2, H3. by rewrite H1, H2, H3 in Es. }
  apply orb_false_iff in Es as [Es Es3]. apply orb_false_iff in Es as [Es1 Es2]. apply Z.eqb_neq in Es1, Es2, Es3.
  destruct (decodeEventCString ∅ "comm" (Raw_Comm raw)) as [comm enc] eqn:Ec.
  assert (comm = (cleanCString (Raw_Comm raw)).1) as -> by (by rewrite <-(decodeEventCString_fst ∅ "comm"), Ec). clear Ec.
  destruct (Z.eqb_spec (Raw_EventType raw) EventTypeExecAttempt) as [Et|Et];
    [|destruct (Z.eqb_spec (Raw_EventType raw) EventTypeNetConnect) as [En|En]].
  - destruct (decodeEventCString enc "data" _) as [data enc'] eqn:Ed.
    assert (data = (cleanCString (take execExecutableLength (Raw_Data raw))).1) as ->
      by (by rewrite <-(decodeEventCString_fst enc "data"), Ed). clear Ed.
    destruct (Z.eqb_spec (Raw_CapturedArgcPlusOne raw) 0) as [E0|E0]; [intros [_ _ H _]; specialize (H Et); lia|].
    change (Z.of_nat (execArgumentCount + 1)) with 5.
    destruct (Z.ltb_spec 5 (Raw_CapturedArgcPlusOne raw)) as [E5|E5]; [intros [_ _ H _]; specialize (H Et); lia|].
    assert (0 <= Raw_CapturedArgcPlusOne raw) as H0.
    { apply Forall_inv_tail in H32; do 8 apply Forall_inv_tail in H32. apply Forall_inv in H32. unfold fits in H32. lia. }
    pose proof (decode_argv_fst execArgumentCount 0 (captured raw) (Raw_Data raw) enc' [] ltac:(lia)) as Hargv.
    unfold captured in Hargv. rewrite Z2Nat.id in Hargv by lia. fold (captured raw) in Hargv.
    replace (execArgumentCount `min` (captured raw - 0))%nat with (captured raw) in Hargv
      by (unfold captured, execArgumentCount; lia).
    destruct (decode_argv _ _ _ _ _ _) as [argv enc'']. cbn [fst app] in Hargv. subst argv.
    split; [constructor; [done|done|intros _; lia|by rewrite Et]|].
    constructor; cbn; try done; [by split; intros ->| |by rewrite Et].
    intros _. unfold len. rewrite length_map, length_seq. split_and!; [done|done|unfold captured; lia|].
    intros Ht. rewrite Et, Ht. cbn.
    destruct (flag_set (Raw_Flags raw) FlagExecutableTruncated), (flag_set (Raw_Flags raw) FlagArgumentsTruncated); auto.
  - pose proof (decodeNetworkPayload_spec raw Hd) as Hn.
    destruct (decodeNetworkPayload (Raw_Data raw)) as [[[[a port] f] p]|err]; cbn [mbind result_bind].
    + destruct Hn as (Hf & Hp & -> & -> & -> & Hp'). split; [constructor; try done; split; [done|congruence]|].
      constructor; cbn; try done; [by split; intros ->|by rewrite En..].
    + intros [_ _ _ H]. by apply Hn, H.
  - destruct (decodeEventCString enc "data" (Raw_Data raw)) as [data enc'] eqn:Ed.
    split; [by constructor|]. constructor; cbn; try done; [by split; intros ->|].
    intros _ _. by rewrite <-(decodeEventCString_fst enc "data"), Ed.
Qed.

(** A record of the current version is read back unchanged. *)
Lemma DecodeKernelEvent_write raw :
  raw_ok raw -> Raw_SchemaVersion raw = WireSchemaVersion -> DecodeKernelEvent (write_raw raw) = decode_raw raw.
Proof.
  intros Hok Hv. pose proof (write_raw_length raw Hok) as Hl. unfold DecodeKernelEvent.
  rewrite (proj2 (Z.ltb_ge _ _)) by (unfold len; rewrite Hl; unfold KernelEventV3Size; lia).
  assert (le_val (take 2 (write_raw raw)) = WireSchemaVersion) as ->.
  { rewrite <-Hv. rewrite <-(read_write_raw raw Hok) at 2. done. }
  rewrite Z.eqb_refl, bool_decide_eq_true_2 by done. cbn [negb]. by rewrite read_write_raw.
Qed.

(** ** Properties *)
(** C10: the decoder inverts the wire layout of the kernel program.  On any
    byte sample it succeeds exactly when the sample is the 352-byte image of
    an [agentshield_event] with schema version 3, a complete scope identity
    and a payload valid for its type; it then reports every header field of
    that record, the captured arguments (no more than the record counts), the
    connection tuple, and a truncation flag that always marks at least one of
    the exec captures as uncertain. *)
Theorem DecodeKernelEvent_inverts sample :
  Forall is_byte sample ->
  match DecodeKernelEvent sample with
  | Ok e => exists raw, raw_ok raw /\ sample = write_raw raw /\ accepted raw /\ decodes raw e
  | Err _ => ~ exists raw, raw_ok raw /\ sample = write_raw raw /\ accepted raw
  end.
Proof.
  intros Hb. unfold DecodeKernelEvent.
  assert (forall raw, raw_ok raw -> sample = write_raw raw -> accepted raw ->
    len sample = 352 /\ le_val (take 2 sample) = WireSchemaVersion) as Himg.
  { intros raw Hok E Hacc. split; [unfold len; by rewrite E, write_raw_length|].
    rewrite <-(acc_version _ Hacc).
    assert (Raw_SchemaVersion (read_raw sample) = Raw_SchemaVersion raw) as Hv by (by rewrite E, read_write_raw). exact Hv. }
  destruct (Z.ltb_spec (len sample) 2) as [H2|H2].
  { intros (raw & Hok & E & Hacc). destruct (Himg raw Hok E Hacc). lia. }
  destruct (Z.eqb_spec (le_val (take 2 sample)) WireSchemaVersion) as [Hv|Hv]; cbn [negb];
    [|intros (raw & Hok & E & Hacc); by destruct (Himg raw Hok E Hacc)].
  destruct (bool_decide (length sample = KernelEventV3Size)) eqn:El; cbn [negb].
  2: { intros (raw & Hok & E & Hacc). rewrite E, write_raw_length in El by done. by vm_compute in El. }
  apply bool_decide_eq_true in El.
  pose proof (decode_raw_spec (read_raw sample) (read_raw_ok _ Hb El) Hv) as Hspec.
  destruct (decode_raw (read_raw sample)) as [e|err].
  - exists (read_raw sample). destruct Hspec as [Hacc Hdec]. split_and!; [by apply read_raw_ok|by rewrite write_read_raw|done|done].
  - intros (raw & Hok & -> & Hacc). apply Hspec. by rewrite read_write_raw.
Qed.

Definition bytes_check (l : list Z) : bool := forallb (fun b => (0 <=? b) && (b <? 256)) l.
Lemma bytes_check_true l : bytes_check l = true -> Forall is_byte l.
Proof.
  intros H. apply Forall_forall. intros b Hb. apply forallb_forall with (x := b) in H; [|by apply list_elem_of_In].
  unfold is_byte. lia.
Qed.
Definition demo_exec_raw : rawKernelEventV3 :=
  mkRaw 3 EventTypeExecAttempt 0 0 1000 77 5 9 42 40 1 1000 1 0 0 16 0 3
    (string_bytes "sh" ++ replicate 14 0)
    (string_bytes "/bin/sh" ++ replicate 121 0 ++ string_bytes "sh" ++ replicate 30 0 ++ string_bytes "-c" ++ replicate 94 0).
Definition demo_exec_sample : list Z := write_raw demo_exec_raw.

Lemma DecodeKernelEvent_inverts_witness :
  Forall is_byte demo_exec_sample /\
  exists e, DecodeKernelEvent demo_exec_sample = Ok e /\ Event_Data e = "/bin/sh" /\ Event_Argv e = ["sh"; "-c"] /\
    exists raw, raw_ok raw /\ demo_exec_sample = write_raw raw /\ accepted raw /\ decodes raw e.
Proof.
  assert (Forall is_byte demo_exec_sample) as Hb by (apply bytes_check_true; vm_compute; reflexivity).
  split; [exact Hb|]. pose proof (DecodeKernelEvent_inverts demo_exec_sample Hb) as H.
  assert (match DecodeKernelEvent demo_exec_sample with
          | Ok e => Event_Data e = "/bin/sh" /\ Event_Argv e = ["sh"; "-c"] | Err _ => False end) as He
    by (vm_compute; split; reflexivity).
  destruct (DecodeKernelEvent demo_exec_sample) as [e|]; [|destruct He]. destruct He as [H1 H2].
  exists e. repeat (split; [first [reflexivity|exact H1|exact H2]|]). exact H.
Defined.
