(* ===== verification/Enforcement.v ===== *)
(** * Network enforcement images
    ([internal/policy/enforcement.go], [internal/bpfmgr/audit.go] and
    [audit_linux.go])

    [CompileNetworkEnforcement] turns the one applicable block policy into
    exact allow tuples; the loader validates the configuration and installs
    it in the kernel maps.  The maps are finite maps of the model. *)
From S2P Require Import Prelude GoStd Netip Schema Limits Match NetworkMatch Generation Engine Events.
Open Scope Z_scope.

Definition NetworkAllowAnyAddress : Z := 1.
Definition NetworkAllowAnyPort : Z := 2.

(** [Address] is a [[16]byte]. *)
Record NetworkAllowTuple := mkAllowTuple {
  Tuple_AddressFamily : Z;
  Tuple_Port : Z;
  Tuple_Address : list Z;
  Tuple_MatchFlags : Z;
}.
#[export] Instance NetworkAllowTuple_eq_dec : EqDecision NetworkAllowTuple.
Proof. solve_decision. Defined.

Record NetworkEnforcementImage := mkImage {
  Image_ProfileID : Z;
  Image_Generation : Z;
  Image_PolicyID : Z;
  Image_RuleID : Z;
  Image_Allows : list NetworkAllowTuple;
}.

Inductive AddressError := CIDRNotHost (raw : string).
Inductive PortError := PortRangeNotExact (r : PortRange).
Inductive EnforcementError :=
| EnforcementProfileZero
| EnforcementRevision (revision : Z)
| EnforcementBundleInvalid (errors : list BundleError)
| EnforcementManyPolicies (applicable blocking : Z)
| EnforcementNotDefaultDeny (id : string)
| EnforcementAddress (id : string) (e : AddressError)
| EnforcementPort (id : string) (e : PortError)
| EnforcementCapacity (id : string) (got : Z)
| EnforcementRegistry (e : RegistryError).

Record enforcementAddress := mkEnforcementAddress { ea_family : Z; ea_value : list Z }.

Definition zero_address : list Z := replicate 16 0.
(** [copy(entry.value[:], ipv4[:])] into a zero array. *)
Definition enforcement_entry (address : Addr) : enforcementAddress :=
  if Is4 address then mkEnforcementAddress 2 (As4 (addr_val address) ++ replicate 12 0)
  else mkEnforcementAddress 10 (As16 (addr_val address)).

Definition enforcement_address (raw : string) : result AddressError enforcementAddress :=
  let '(prefix_ip, bits) := match ParsePrefix raw with
                            | Some p => (prefix_addr p, prefix_bits p)
                            | None => (AddrInvalid, -1)
                            end in
  let address := Unmap prefix_ip in
  if negb (bits =? BitLen address) then Err (CIDRNotHost raw) else Ok (enforcement_entry address).

Fixpoint map_result {E A B} (f : A -> result E B) (l : list A) : result E (list B) :=
  match l with
  | [] => Ok []
  | x :: l' => y ← f x; ys ← map_result f l'; Ok (y :: ys)
  end.

Definition enforcementAddresses (c : NetworkCondition) : result AddressError (list enforcementAddress) :=
  match CIDRs c with
  | [] => Ok (map (fun f => mkEnforcementAddress (if f == FamilyIPv4 then 2 else 10) zero_address) (Families c))
  | cidrs => map_result enforcement_address cidrs
  end.

Definition enforcementPorts (c : NetworkCondition) : result PortError (list Z) :=
  match Ports c with
  | [] => Ok [0]
  | ranges => map_result (fun r => if From r =? To r then Ok (From r) else Err (PortRangeNotExact r)) ranges
  end.

(** [slices.Compare] of two byte arrays, as "is less". *)
Fixpoint bytes_less (a b : list Z) : bool :=
  match a, b with
  | x :: a', y :: b' => if x =? y then bytes_less a' b' else x <? y
  | [], _ :: _ => true
  | _, _ => false
  end.
Definition tuple_less (t u : NetworkAllowTuple) : bool :=
  if negb (Tuple_AddressFamily t =? Tuple_AddressFamily u) then Tuple_AddressFamily t <? Tuple_AddressFamily u
  else if Tuple_Address t != Tuple_Address u then bytes_less (Tuple_Address t) (Tuple_Address u)
  else if negb (Tuple_Port t =? Tuple_Port u) then Tuple_Port t <? Tuple_Port u
  else Tuple_MatchFlags t <? Tuple_MatchFlags u.

Definition cross_tuple (anyAddress anyPort : bool) (a : enforcementAddress) (port : Z) : NetworkAllowTuple :=
  mkAllowTuple (ea_family a) port (ea_value a)
    (Z.lor (if anyAddress then NetworkAllowAnyAddress else 0) (if anyPort then NetworkAllowAnyPort else 0)).
(** Keep the first occurrence of each tuple. *)
Definition add_tuple (allows : list NetworkAllowTuple) (t : NetworkAllowTuple) : list NetworkAllowTuple :=
  if bool_decide (t ∈ allows) then allows else allows ++ [t].
Definition crossNetworkAllows (addresses : list enforcementAddress) (ports : list Z) (anyAddress anyPort : bool)
  : list NetworkAllowTuple :=
  if (len addresses =? 0) || (len ports =? 0) then []
  else sort_by tuple_less
         (foldl (fun allows a => foldl (fun allows port => add_tuple allows (cross_tuple anyAddress anyPort a port))
                                       allows ports) [] addresses).

Definition stablePolicyID (policyID : string) : Z :=
  let value := fnv32a (string_bytes policyID) in
  if value =? 0 then 1 else value.

(** [None] is the nil image: no applicable block policy. *)
Definition CompileNetworkEnforcement (b : Bundle) (c : EvaluationContext) (profileID : Z) (g : Generation)
  : result EnforcementError (option NetworkEnforcementImage) :=
  if profileID =? 0 then Err EnforcementProfileZero
  else if (Revision g =? 0) || (u32_max <? Revision g) then Err (EnforcementRevision (Revision g))
  else match Bundle_Validate b with
  | (_ :: _) as errs => Err (EnforcementBundleInvalid errs)
  | [] =>
      let selected := Policies (selectPolicies b c conditionNetwork) in
      let blocking := filter (fun p => RequestedAction p = ActionBlock) selected in
      match blocking with
      | [] => Ok None
      | p :: _ =>
          if negb (len selected =? 1) then Err (EnforcementManyPolicies (len selected) (len blocking))
          else match Network (Policy_Conditions p) with
          | None => Ok None (* not reachable: [p] was selected for its network condition *)
          | Some cond =>
              if (Default cond != NetworkDefaultDeny) || (Policy_Decision p != DecisionDeny)
              then Err (EnforcementNotDefaultDeny (ID p))
              else match enforcementAddresses cond with
              | Err e => Err (EnforcementAddress (ID p) e)
              | Ok addresses =>
                  match enforcementPorts cond with
                  | Err e => Err (EnforcementPort (ID p) e)
                  | Ok ports =>
                      let allows :=
                        if negb (len (CIDRs cond) =? 0) || negb (len (Ports cond) =? 0)
                        then crossNetworkAllows addresses ports (len (CIDRs cond) =? 0) (len (Ports cond) =? 0)
                        else [] in
                      if KernelMapCapacity DefaultLimits <? len allows then Err (EnforcementCapacity (ID p) (len allows))
                      else match registry_add ∅ (ID p) "network_default" 0 with
                      | Err e => Err (EnforcementRegistry e)
                      | Ok (_, ruleID) =>
                          Ok (Some (mkImage profileID (wrap32 (Revision g)) (stablePolicyID (ID p)) ruleID allows))
                      end
                  end
              end
          end
      end
  end.

(** ** The loader's configuration
    [bpfmgr.NetworkEnforcementConfig] has the fields of the image, copied one
    by one by the command; the image stands for it. *)
Inductive ConfigError :=
| ConfigZeroID
| ConfigCapacity (got : Z)
| ConfigFamily (f : Z)
| ConfigFlags (f : Z)
| ConfigBothWildcards
| ConfigAnyPortNonZero
| ConfigPortZero
| ConfigAnyAddressNonZero
| ConfigDuplicate (t : NetworkAllowTuple).

Definition tuple_error (t : NetworkAllowTuple) : option ConfigError :=
  if negb (Tuple_AddressFamily t =? AddressFamilyIPv4) && negb (Tuple_AddressFamily t =? AddressFamilyIPv6)
  then Some (ConfigFamily (Tuple_AddressFamily t))
  else if negb (Z.ldiff (Tuple_MatchFlags t) (Z.lor NetworkAllowAnyAddress NetworkAllowAnyPort) =? 0)
  then Some (ConfigFlags (Tuple_MatchFlags t))
  else if Z.land (Tuple_MatchFlags t) (Z.lor NetworkAllowAnyAddress NetworkAllowAnyPort)
          =? Z.lor NetworkAllowAnyAddress NetworkAllowAnyPort
  then Some ConfigBothWildcards
  else if negb (Z.land (Tuple_MatchFlags t) NetworkAllowAnyPort =? 0) && negb (Tuple_Port t =? 0)
  then Some ConfigAnyPortNonZero
  else if (Z.land (Tuple_MatchFlags t) NetworkAllowAnyPort =? 0) && (Tuple_Port t =? 0)
  then Some ConfigPortZero
  else if negb (Z.land (Tuple_MatchFlags t) NetworkAllowAnyAddress =? 0) && (Tuple_Address t != zero_address)
  then Some ConfigAnyAddressNonZero
  else None.
Fixpoint tuples_error (seen ts : list NetworkAllowTuple) : option ConfigError :=
  match ts with
  | [] => None
  | t :: ts' => match tuple_error t with
                | Some e => Some e
                | None => if bool_decide (t ∈ seen) then Some (ConfigDuplicate t) else tuples_error (t :: seen) ts'
                end
  end.
Definition NetworkEnforcementConfig_Validate (c : NetworkEnforcementImage) : option ConfigError :=
  if (Image_ProfileID c =? 0) || (Image_Generation c =? 0) || (Image_PolicyID c =? 0) || (Image_RuleID c =? 0)
  then Some ConfigZeroID
  else if 1024 <? len (Image_Allows c) then Some (ConfigCapacity (len (Image_Allows c)))
  else tuples_error [] (Image_Allows c).

(** ** The kernel maps *)
Record ebpfNetworkProfile := mkProfile {
  Profile_Generation : Z;
  Profile_PolicyID : Z;
  Profile_RuleID : Z;
  Profile_Flags : Z;
}.
Record ebpfNetworkAllowKey := mkAllowKey {
  AllowKey_ProfileID : Z;
  AllowKey_Generation : Z;
  AllowKey_AddressFamily : Z;
  AllowKey_DestinationPort : Z;
  AllowKey_DestinationAddress : list Z;
  AllowKey_MatchFlags : Z;
}.
#[export] Instance ebpfNetworkAllowKey_eq_dec : EqDecision ebpfNetworkAllowKey.
Proof. solve_decision. Defined.
(** The hash maps: profiles by identifier, the set of allow keys. *)
Record network_maps := mkNetworkMaps {
  profile_map : gmap Z ebpfNetworkProfile;
  allow_map : list ebpfNetworkAllowKey;
}.

Inductive InstallError := AllowExists (t : NetworkAllowTuple) | AllowMapFull (t : NetworkAllowTuple)
| ProfileExists (id : Z) | ProfileMapFull (id : Z).
Definition networkDefaultDeny : Z := 1.
Definition max_allow_tuples : Z := 1024.
Definition max_profiles : Z := 256.

Definition allow_key (c : NetworkEnforcementImage) (t : NetworkAllowTuple) : ebpfNetworkAllowKey :=
  mkAllowKey (Image_ProfileID c) (Image_Generation c) (Tuple_AddressFamily t) (Tuple_Port t) (Tuple_Address t) (Tuple_MatchFlags t).
(** [ebpf.UpdateNoExist] on a bounded hash map. *)
Definition install_allow (c : NetworkEnforcementImage) (keys : list ebpfNetworkAllowKey) (t : NetworkAllowTuple)
  : result InstallError (list ebpfNetworkAllowKey) :=
  if bool_decide (allow_key c t ∈ keys) then Err (AllowExists t)
  else if max_allow_tuples <=? len keys then Err (AllowMapFull t)
  else Ok (allow_key c t :: keys).
Definition installNetworkEnforcement (m : network_maps) (c : NetworkEnforcementImage) : result InstallError network_maps :=
  keys ← foldM (install_allow c) (allow_map m) (Image_Allows c);
  match profile_map m !! Image_ProfileID c with
  | Some _ => Err (ProfileExists (Image_ProfileID c))
  | None =>
      if max_profiles <=? Z.of_nat (size (profile_map m)) then Err (ProfileMapFull (Image_ProfileID c))
      else Ok (mkNetworkMaps
        (<[Image_ProfileID c := mkProfile (Image_Generation c) (Image_PolicyID c) (Image_RuleID c) networkDefaultDeny]> (profile_map m))
        keys)
  end.

(** ** Lemmas: the cross product *)
Lemma map_result_Ok {E A B} (f : A -> result E B) l ys :
  map_result f l = Ok ys <-> Forall2 (fun x y => f x = Ok y) l ys.
Proof.
  revert ys. induction l as [|x l IH]; intros ys; cbn [map_result]; unfold mbind, result_bind.
  - split; [intros <-%Ok_inj; constructor|by inversion 1].
  - destruct (f x) as [y|e] eqn:Ef; [|split; [done|inversion 1; congruence]].
    destruct (map_result f l) as [zs|e] eqn:El; split.
    + intros <-%Ok_inj. constructor; [done|]. by apply IH.
    + inversion 1 as [|? ? ? ? H1 H2]; subst. apply IH, Ok_inj in H2. congruence.
    + done.
    + inversion 1 as [|? ? ? ? H1 H2]; subst. by apply IH in H2.
Qed.
Lemma foldl_concat {A B C} (f : C -> B -> C) (g : A -> list B) (l : list A) : forall c,
  foldl (fun c x => foldl f c (g x)) c l = foldl f c (concat (map g l)).
Proof. induction l as [|x l IH]; intros c; cbn; [done|]. by rewrite foldl_app, IH. Qed.
Lemma foldl_map {A B C} (f : C -> B -> C) (g : A -> B) (l : list A) : forall c,
  foldl (fun c x => f c (g x)) c l = foldl f c (map g l).
Proof. induction l as [|x l IH]; intros c; cbn; [done|]. by rewrite IH. Qed.
Lemma foldl_ext_eq {A C} (f g : C -> A -> C) (l : list A) :
  (forall c x, f c x = g c x) -> forall c, foldl f c l = foldl g c l.
Proof. intros H. induction l as [|x l IH]; intros c; cbn; [done|]. by rewrite H, IH. Qed.

Definition cross_list (addresses : list enforcementAddress) (ports : list Z) (anyAddress anyPort : bool)
  : list NetworkAllowTuple :=
  concat (map (fun a => map (cross_tuple anyAddress anyPort a) ports) addresses).
Lemma add_tuples_spec ts : forall allows, NoDup allows ->
  NoDup (foldl add_tuple allows ts) /\ (forall t, t ∈ foldl add_tuple allows ts <-> t ∈ allows \/ t ∈ ts).
Proof.
  induction ts as [|t ts IH]; intros allows Hnd; cbn [foldl].
  { split; [done|]. intros t. rewrite elem_of_nil. tauto. }
  assert (NoDup (add_tuple allows t) /\ (forall u, u ∈ add_tuple allows t <-> u ∈ allows \/ u = t)) as [H1 H2].
  { unfold add_tuple. case_bool_decide as Ht.
    - split; [done|]. intros u. split; [by left|]. intros [?| ->]; done.
    - split; [|intros u; by rewrite elem_of_app, list_elem_of_singleton].
      apply NoDup_app. split_and!; [done| |apply NoDup_singleton]. intros u Hu ->%list_elem_of_singleton. done. }
  destruct (IH _ H1) as [H3 H4]. split; [done|]. intros u. rewrite H4, H2, elem_of_cons. tauto.
Qed.
Lemma add_tuples_length ts : forall allows, (length (foldl add_tuple allows ts) <= length allows + length ts)%nat.
Proof.
  induction ts as [|t ts IH]; intros allows; cbn [foldl length]; [lia|].
  specialize (IH (add_tuple allows t)). unfold add_tuple in *. destruct (bool_decide _); [lia|].
  rewrite length_app in IH. cbn in IH. lia.
Qed.
Lemma crossNetworkAllows_eq addresses ports aa ap :
  crossNetworkAllows addresses ports aa ap = sort_by tuple_less (foldl add_tuple [] (cross_list addresses ports aa ap)).
Proof.
  unfold crossNetworkAllows, cross_list.
  destruct (_ || _) eqn:E.
  - apply orb_true_iff in E. rewrite !Z.eqb_eq, !len_zero in E. destruct E as [->| ->]; [done|].
    clear. induction addresses; [done|]. by cbn.
  - f_equal. rewrite <-foldl_concat. apply foldl_ext_eq. intros c a. by rewrite <-foldl_map.
Qed.
Lemma crossNetworkAllows_spec addresses ports aa ap :
  NoDup (crossNetworkAllows addresses ports aa ap) /\
  (forall t, t ∈ crossNetworkAllows addresses ports aa ap <->
             exists a port, a ∈ addresses /\ port ∈ ports /\ t = cross_tuple aa ap a port) /\
  len (crossNetworkAllows addresses ports aa ap) <= len addresses * len ports.
Proof.
  rewrite crossNetworkAllows_eq. destruct (add_tuples_spec (cross_list addresses ports aa ap) [] (NoDup_nil_2)) as [H1 H2].
  split_and!.
  - by rewrite sort_by_perm.
  - intros t. rewrite elem_of_sort_by, H2, elem_of_nil. unfold cross_list. rewrite elem_of_concat_map.
    setoid_rewrite list_elem_of_fmap. split; [intros [[]|(a & ? & p & ? & ?)]|intros (a & p & ? & ? & ?)]; eauto 6.
  - unfold len. rewrite (Permutation_length (sort_by_perm _ _)).
    pose proof (add_tuples_length (cross_list addresses ports aa ap) []) as Hl. cbn [length] in Hl.
    assert (length (cross_list addresses ports aa ap) = length addresses * length ports)%nat as E; [|lia].
    unfold cross_list. clear. induction addresses as [|a l IH]; cbn; [done|]. rewrite length_app, length_map. lia.
Qed.

(** ** Lemmas: what the compiler emits *)
Lemma enforcement_address_Ok raw a :
  enforcement_address raw = Ok a ->
  (exists p, ParsePrefix raw = Some p /\ prefix_bits p = BitLen (Unmap (prefix_addr p)) /\
             a = enforcement_entry (Unmap (prefix_addr p))).
Proof.
  unfold enforcement_address. destruct (ParsePrefix raw) as [p|]; [|done].
  destruct (Z.eqb_spec (prefix_bits p) (BitLen (Unmap (prefix_addr p)))); [|done]. cbn [negb]. intros <-%Ok_inj. eauto.
Qed.
Lemma enforcement_address_Ok_iff raw p :
  ParsePrefix raw = Some p -> prefix_bits p = BitLen (Unmap (prefix_addr p)) ->
  enforcement_address raw = Ok (enforcement_entry (Unmap (prefix_addr p))).
Proof. intros E1 E2. unfold enforcement_address. by rewrite E1, (proj2 (Z.eqb_eq _ _) E2). Qed.
Lemma enforcementAddresses_elem c addresses a :
  enforcementAddresses c = Ok addresses ->
  a ∈ addresses <->
  (CIDRs c = [] /\ exists f, f ∈ Families c /\ a = mkEnforcementAddress (if f == FamilyIPv4 then 2 else 10) zero_address) \/
  (exists raw p, raw ∈ CIDRs c /\ ParsePrefix raw = Some p /\ prefix_bits p = BitLen (Unmap (prefix_addr p)) /\
                 a = enforcement_entry (Unmap (prefix_addr p))).
Proof.
  unfold enforcementAddresses. destruct (CIDRs c) as [|x l] eqn:E.
  - intros <-%Ok_inj. rewrite list_elem_of_fmap. split.
    + intros (f & -> & Hf). left. eauto.
    + intros [(_ & f & Hf & ->)|(raw & p & Hr & _)]; [eauto|]. by apply elem_of_nil in Hr.
  - intros H%map_result_Ok. split.
    + intros (i & Hi)%list_elem_of_lookup. destruct (Forall2_lookup_r _ _ _ _ _ H Hi) as (raw & Hraw & Ha).
      apply enforcement_address_Ok in Ha as (p & ? & ? & ?). right. exists raw, p. split_and!; [|done..].
      by eapply list_elem_of_lookup_2.
    + intros [[? _]|(raw & p & (i & Hi)%list_elem_of_lookup & Hp & Hb & ->)]; [done|].
      destruct (Forall2_lookup_l _ _ _ _ _ H Hi) as (a & Ha & Hra).
      rewrite (enforcement_address_Ok_iff raw p Hp Hb) in Hra. apply Ok_inj in Hra. subst a. by eapply list_elem_of_lookup_2.
Qed.
Lemma enforcementPorts_elem c ports port :
  enforcementPorts c = Ok ports ->
  port ∈ ports <-> (Ports c = [] /\ port = 0) \/ (exists r, r ∈ Ports c /\ From r = port /\ To r = port).
Proof.
  unfold enforcementPorts. destruct (Ports c) as [|x l] eqn:E.
  - intros <-%Ok_inj. rewrite list_elem_of_singleton. split; [by left|]. intros [[_ ?]|(r & []%elem_of_nil & _)]. done.
  - intros H%map_result_Ok. split.
    + intros (i & Hi)%list_elem_of_lookup. destruct (Forall2_lookup_r _ _ _ _ _ H Hi) as (r & Hr & Ha). right.
      destruct (Z.eqb_spec (From r) (To r)); [|done]. apply Ok_inj in Ha. exists r. split_and!; [|done|congruence].
      by eapply list_elem_of_lookup_2.
    + intros [[? _]|(r & (i & Hi)%list_elem_of_lookup & E1 & E2)]; [done|].
      destruct (Forall2_lookup_l _ _ _ _ _ H Hi) as (q & Hq & Hr). rewrite E1, E2, Z.eqb_refl in Hr.
      apply Ok_inj in Hr. subst q. by eapply list_elem_of_lookup_2.
Qed.

(** The condition an image was compiled from. *)
Record compiled_from (b : Bundle) (c : EvaluationContext) (profileID : Z) (g : Generation) (p : Policy) (cond : NetworkCondition)
    (img : NetworkEnforcementImage) : Prop := {
  cf_bundle : wf_bundle b;
  cf_only : Policies (selectPolicies b c conditionNetwork) = [p];
  cf_block : RequestedAction p = ActionBlock;
  cf_network : Network (Policy_Conditions p) = Some cond;
  cf_deny : Default cond = NetworkDefaultDeny /\ Policy_Decision p = DecisionDeny;
  cf_ids : profileID <> 0 /\ Revision g <> 0 /\ Revision g <= u32_max /\ Image_ProfileID img = profileID /\
    Image_Generation img = wrap32 (Revision g) /\ Image_PolicyID img = stablePolicyID (ID p) /\
    Image_RuleID img = rule_hash (ID p) "network_default" 0;
  cf_small : len (Image_Allows img) <= 1024;
  cf_allows : exists addresses ports, enforcementAddresses cond = Ok addresses /\ enforcementPorts cond = Ok ports /\
    Image_Allows img =
      if negb (len (CIDRs cond) =? 0) || negb (len (Ports cond) =? 0)
      then crossNetworkAllows addresses ports (len (CIDRs cond) =? 0) (len (Ports cond) =? 0) else [];
}.
Lemma CompileNetworkEnforcement_inv b c profileID g img :
  CompileNetworkEnforcement b c profileID g = Ok (Some img) -> exists p cond, compiled_from b c profileID g p cond img.
Proof.
  unfold CompileNetworkEnforcement. destruct (Z.eqb_spec profileID 0); [done|].
  destruct (_ || _) eqn:Er; [done|]. apply orb_false_iff in Er as [Er0 Er1].
  apply Z.eqb_neq in Er0. apply Z.ltb_ge in Er1.
  pose proof (Bundle_Validate_nil b) as Hv. destruct (Bundle_Validate b); [|done].
  set (selected := Policies (selectPolicies b c conditionNetwork)).
  destruct (filter (fun q => RequestedAction q = ActionBlock) selected) as [|p bs] eqn:Ef; [done|].
  destruct (Z.eqb_spec (len selected) 1) as [E1|]; [|done]. cbn [negb].
  assert (p ∈ selected /\ RequestedAction p = ActionBlock) as [Hp Hb].
  { assert (p ∈ filter (fun q => RequestedAction q = ActionBlock) selected) as Hp by (rewrite Ef; left).
    apply list_elem_of_filter in Hp as [??]. done. }
  assert (selected = [p]) as Es.
  { unfold len in E1. destruct selected as [|q [|]]; cbn in E1; try lia. apply list_elem_of_singleton in Hp. by subst. }
  destruct (Network (Policy_Conditions p)) as [cond|] eqn:En; [|done].
  destruct (_ || _) eqn:Ed; [done|]. apply orb_false_iff in Ed as [Ed1 Ed2].
  apply negb_false_iff, bool_decide_eq_true in Ed1, Ed2.
  destruct (enforcementAddresses cond) as [addresses|] eqn:Ea; [|done].
  destruct (enforcementPorts cond) as [ports|] eqn:Ep; [|done]. cbv zeta.
  set (allows := if negb (len (CIDRs cond) =? 0) || negb (len (Ports cond) =? 0) then _ else _). change (KernelMapCapacity DefaultLimits) with 1024.
  destruct (Z.ltb_spec 1024 (len allows)); [done|].
  unfold registry_add. rewrite lookup_empty. intros E%Ok_inj. injection E as <-. exists p, cond.
  constructor; cbn; try done; [naive_solver|]. exists addresses, ports. done.
Qed.

Lemma cross_elem b c profileID g p cond img t :
  compiled_from b c profileID g p cond img ->
  t ∈ Image_Allows img <->
  (CIDRs cond <> [] \/ Ports cond <> []) /\
  exists a port addresses ports, enforcementAddresses cond = Ok addresses /\ enforcementPorts cond = Ok ports /\
    a ∈ addresses /\ port ∈ ports /\ t = cross_tuple (len (CIDRs cond) =? 0) (len (Ports cond) =? 0) a port.
Proof.
  intros [_ _ _ _ _ _ _ (addresses & ports & Ea & Ep & ->)].
  destruct (negb (len (CIDRs cond) =? 0) || negb (len (Ports cond) =? 0)) eqn:E.
  - rewrite (proj1 (proj2 (crossNetworkAllows_spec _ _ _ _))).
    apply orb_true_iff in E. rewrite !negb_true_iff, !Z.eqb_neq, !len_zero in E.
    split; [intros (a & port & ? & ? & ?); split; [done|]; exists a, port, addresses, ports; done|].
    intros (_ & a & port & as' & ps' & Ea' & Ep' & Ha & Hp & ->). rewrite Ea in Ea'. rewrite Ep in Ep'.
    apply Ok_inj in Ea', Ep'. subst. eauto.
  - apply orb_false_iff in E. rewrite !negb_false_iff, !Z.eqb_eq, !len_zero in E. rewrite elem_of_nil. tauto.
Qed.

(** ** Lemmas: the loader *)
Lemma tuples_error_None ts : forall seen,
  Forall (fun t => tuple_error t = None) ts -> NoDup ts -> (forall t, t ∈ ts -> t ∉ seen) -> tuples_error seen ts = None.
Proof.
  induction ts as [|t ts IH]; intros seen Hf Hnd Hs; cbn [tuples_error]; [done|].
  apply Forall_cons in Hf as [-> Hf]. apply NoDup_cons in Hnd as [Ht Hnd].
  rewrite bool_decide_eq_false_2 by (apply Hs; left). apply IH; [done..|].
  intros u Hu [->|Hu']%elem_of_cons; [done|]. by apply (Hs u); [right|].
Qed.
Lemma cross_tuple_valid aa ap a port :
  ea_family a = 2 \/ ea_family a = 10 -> (aa = true -> ea_value a = zero_address) ->
  (ap = true -> port = 0) -> (ap = false -> port <> 0) -> (aa = false \/ ap = false) ->
  tuple_error (cross_tuple aa ap a port) = None.
Proof.
  intros Hf Ha Hp Hp' Hb. unfold tuple_error, cross_tuple. cbn [Tuple_AddressFamily Tuple_MatchFlags Tuple_Port Tuple_Address].
  destruct Hf as [-> | ->]; destruct aa, ap; try (by destruct Hb);
    rewrite ?Hp, ?Ha by done; rewrite ?(proj2 (Z.eqb_neq port 0)) by auto; try reflexivity;
    (destruct (port =? 0) eqn:E0; [apply Z.eqb_eq in E0; by destruct (Hp' eq_refl)|reflexivity]).
Qed.
Lemma enforcement_entry_family a : ea_family (enforcement_entry a) = 2 \/ ea_family (enforcement_entry a) = 10.
Proof. unfold enforcement_entry. destruct (Is4 a); auto. Qed.
Lemma stablePolicyID_nonzero id : stablePolicyID id <> 0.
Proof. unfold stablePolicyID. destruct (Z.eqb_spec (fnv32a (string_bytes id)) 0); lia. Qed.

Lemma compiled_wf_network b c profileID g p cond img :
  compiled_from b c profileID g p cond img -> wf_network cond.
Proof.
  intros [Hwf Hsel _ Hn _ _ _ _]. apply (wf_network_condition p); [|done].
  assert (p ∈ Policies (selectPolicies b c conditionNetwork)) as Hp by (rewrite Hsel; left).
  apply elem_of_selectPolicies in Hp as [Hp _]. destruct Hwf as [_ _ _ Hps]. rewrite Forall_forall in Hps. by apply Hps.
Qed.
Lemma compiled_tuple_valid b c profileID g p cond img t :
  compiled_from b c profileID g p cond img -> t ∈ Image_Allows img -> tuple_error t = None.
Proof.
  intros Hc Ht. pose proof (compiled_wf_network _ _ _ _ _ _ _ Hc) as Hwf.
  apply (cross_elem _ _ _ _ _ _ _ _ Hc) in Ht as (Hne & a & port & as' & ps & Ea & Ep & Ha & Hp & ->).
  apply (enforcementAddresses_elem _ _ _ Ea) in Ha. apply (enforcementPorts_elem _ _ _ Ep) in Hp.
  apply cross_tuple_valid; rewrite ?Z.eqb_eq, ?Z.eqb_neq, ?len_zero.
  - destruct Ha as [(_ & f & _ & ->)|(raw & q & _ & _ & _ & ->)]; [cbn; destruct (f == FamilyIPv4); auto|].
    apply enforcement_entry_family.
  - intros E. destruct Ha as [(_ & f & _ & ->)|(raw & q & Hraw & _)]; [done|]. rewrite E in Hraw. by apply elem_of_nil in Hraw.
  - intros E. destruct Hp as [[_ ?]|(r & Hr & _)]; [done|]. rewrite E in Hr. by apply elem_of_nil in Hr.
  - intros E. destruct Hp as [[? _]|(r & Hr & E1 & E2)]; [done|].
    pose proof (wf_network_ports _ Hwf) as Hports. rewrite Forall_forall in Hports. destruct (Hports r Hr). congruence.
  - destruct Hne; auto.
Qed.
Lemma compiled_validates b c profileID g p cond img :
  compiled_from b c profileID g p cond img -> 0 <= Revision g -> NetworkEnforcementConfig_Validate img = None.
Proof.
  intros Hc Hrev. pose proof Hc as [_ _ _ _ _ (Hpid & Hr0 & Hr1 & E1 & E2 & E3 & E4) Hsmall (as' & ps & _ & _ & Hall)].
  unfold NetworkEnforcementConfig_Validate. rewrite E1, E2, E3, E4.
  assert (wrap32 (Revision g) <> 0) as Hg by (unfold wrap32; rewrite Z.mod_small by (unfold u32_max in Hr1; lia); done).
  pose proof (rule_hash_range (ID p) "network_default" 0). pose proof (stablePolicyID_nonzero (ID p)).
  rewrite !(proj2 (Z.eqb_neq _ _)) by (done || lia). cbn [orb].
  rewrite (proj2 (Z.ltb_ge _ _)) by done. apply tuples_error_None.
  - apply Forall_forall. intros t Ht. by eapply compiled_tuple_valid.
  - rewrite Hall. destruct (_ || _); [apply crossNetworkAllows_spec|constructor].
  - intros t _. apply not_elem_of_nil.
Qed.

Lemma allow_key_inj c t u : allow_key c t = allow_key c u -> t = u.
Proof. destruct t, u. unfold allow_key. cbn. by intros [= -> -> -> ->]. Qed.
Lemma install_allows_spec c ts : forall keys,
  NoDup ts -> (forall t, t ∈ ts -> allow_key c t ∉ keys) -> len keys + len ts <= max_allow_tuples ->
  exists keys', foldM (install_allow c) keys ts = Ok keys' /\ forall k, k ∈ keys' <-> k ∈ keys \/ exists t, t ∈ ts /\ k = allow_key c t.
Proof.
  induction ts as [|t ts IH]; intros keys Hnd Hk Hlen; cbn [foldM].
  { exists keys. split; [done|]. intros k. split; [by left|]. intros [?|(t & []%elem_of_nil & _)]. done. }
  apply NoDup_cons in Hnd as [Ht Hnd]. unfold len in Hlen; cbn [length] in Hlen.
  assert (install_allow c keys t = Ok (allow_key c t :: keys)) as ->.
  { unfold install_allow. rewrite bool_decide_eq_false_2 by (apply Hk; left).
    by rewrite (proj2 (Z.leb_gt _ _)) by (unfold len; lia). }
  unfold mbind, result_bind.
  destruct (IH (allow_key c t :: keys)) as (keys' & E & Hkeys); [done| |unfold len; cbn [length]; lia|].
  { intros u Hu [E%allow_key_inj|Hin]%elem_of_cons; [by subst|]. by apply (Hk u); [right|]. }
  exists keys'. split; [done|]. intros k. rewrite Hkeys, elem_of_cons. setoid_rewrite elem_of_cons. naive_solver.
Qed.
Definition empty_maps : network_maps := mkNetworkMaps ∅ [].
Definition installed (c : NetworkEnforcementImage) (m : network_maps) : Prop :=
  profile_map m = {[ Image_ProfileID c := mkProfile (Image_Generation c) (Image_PolicyID c) (Image_RuleID c) networkDefaultDeny ]} /\
  forall k, k ∈ allow_map m <-> exists t, t ∈ Image_Allows c /\ k = allow_key c t.
Lemma tuples_error_nodup ts : forall seen, tuples_error seen ts = None -> NoDup ts /\ forall t, t ∈ ts -> t ∉ seen.
Proof.
  induction ts as [|t ts IH]; intros seen; cbn [tuples_error].
  { intros _. split; [constructor|]. by intros t []%elem_of_nil. }
  destruct (tuple_error t); [done|]. case_bool_decide as Hs; [done|]. intros [Hnd Ht]%IH. split.
  - constructor; [|done]. intros Hin. apply (Ht t Hin). left.
  - intros u [->|Hu]%elem_of_cons; [done|]. intros Hin. apply (Ht u Hu). by right.
Qed.
(** A valid configuration always installs on freshly loaded maps. *)
Lemma install_valid c :
  NetworkEnforcementConfig_Validate c = None ->
  exists m, installNetworkEnforcement empty_maps c = Ok m /\ installed c m.
Proof.
  unfold NetworkEnforcementConfig_Validate. destruct (_ || _); [done|]. destruct (Z.ltb_spec 1024 (len (Image_Allows c))); [done|].
  intros [Hnd _]%tuples_error_nodup.
  destruct (install_allows_spec c (Image_Allows c) []) as (keys & E & Hk); [done|intros; apply not_elem_of_nil|unfold len at 1; cbn; unfold max_allow_tuples; lia|].
  unfold installNetworkEnforcement, empty_maps. cbn [allow_map profile_map]. rewrite E. unfold mbind, result_bind.
  rewrite lookup_empty, map_size_empty. eexists. split; [reflexivity|]. split; [done|]. cbn [allow_map].
  intros k. rewrite Hk, elem_of_nil. naive_solver.
Qed.
