(* ===== verification/KernelProgram.v ===== *)
(** * The kernel programs ([bpf/agentshield.bpf.c], [bpf/maps.h])

    The two tracepoints and the two connect hooks, over the state they share:
    the scope map, the network maps, the per-CPU counters of the current CPU
    and the ring buffer.  What the kernel helpers return is an argument of the
    programs ([task] and the class [UserMemory]), with the documented behaviour
    of the string reader as the laws [UserMemoryLaws]. *)
From S2P Require Import Prelude GoStd Netip Schema Limits Match NetworkMatch Generation Engine Events Enforcement.
Open Scope Z_scope.

Record agentshield_scope_value := mkScopeValue {
  Scope_instance_id : Z;
  Scope_scope_cookie : Z;
  Scope_profile_id : Z;
  Scope_reserved : Z;
}.
#[export] Instance agentshield_scope_value_eq_dec : EqDecision agentshield_scope_value.
Proof. solve_decision. Defined.

Definition AGENTSHIELD_MAX_SCOPES : Z := 1024.
Definition AGENTSHIELD_STATS_SLOTS : nat := 32.
Definition AGENTSHIELD_STAT_EVENTS_TOTAL_BASE : Z := 0.
Definition AGENTSHIELD_STAT_EVENTS_DROPPED_BASE : Z := 16.
Definition AGENTSHIELD_EXEC_EXE_LEN : nat := 128.
Definition AGENTSHIELD_EXEC_ARG_COUNT : nat := 4.
Definition AGENTSHIELD_EXEC_ARG_LEN : nat := 32.
Definition AGENTSHIELD_DATA_LEN : nat := 256.

(** The maps and the submitted records. *)
Record kernel := mkKernel {
  agentshield_scope_map : gmap Z agentshield_scope_value;
  agentshield_network : network_maps;
  agentshield_stats_map : list Z;
  agentshield_events : list rawKernelEventV3;
}.
(** What the helpers return in one invocation; [ring_room] is whether
    [bpf_ringbuf_reserve] succeeds. *)
Record task := mkTask {
  bpf_ktime_get_ns : Z;
  bpf_get_current_pid_tgid : Z;
  bpf_get_current_uid_gid : Z;
  bpf_get_current_cgroup_id : Z;
  current_ppid : Z;
  bpf_get_current_comm : list Z;
  ring_room : bool;
}.
Record bpf_sock_addr := mkSockAddr {
  user_ip4 : Z;
  user_ip6 : list Z;
  user_port : Z;
  sock_protocol : Z;
}.

(** ** The shared steps *)
Definition agentshield_current_scope (k : kernel) (t : task) : option agentshield_scope_value :=
  agentshield_scope_map k !! bpf_get_current_cgroup_id t.

(** The record after [memset] and [agentshield_fill_common]. *)
Definition agentshield_fill_common (event_type : Z) (t : task) (s : agentshield_scope_value) (ppid : Z) : rawKernelEventV3 :=
  mkRaw 3 event_type KernelActionAudit ActionResultNone (bpf_ktime_get_ns t) (bpf_get_current_cgroup_id t)
    (Scope_instance_id s) (Scope_scope_cookie s)
    (wrap32 (bpf_get_current_pid_tgid t)) (wrap32 (Z.shiftr (bpf_get_current_pid_tgid t) 32)) ppid
    (wrap32 (bpf_get_current_uid_gid t)) (Scope_profile_id s) 0 0 0 0 0
    (bpf_get_current_comm t) (replicate AGENTSHIELD_DATA_LEN 0).

Definition agentshield_increment_stat (base event_type : Z) (stats : list Z) : list Z :=
  let key := Z.to_nat (base + event_type) in
  match stats !! key with
  | Some counter => <[key := wrap64 (counter + 1)]> stats
  | None => stats
  end.
(** Whether a record was reserved, and the counters afterwards. *)
Definition agentshield_reserve_event (event_type : Z) (t : task) (k : kernel) : bool * kernel :=
  let base := if ring_room t then AGENTSHIELD_STAT_EVENTS_TOTAL_BASE else AGENTSHIELD_STAT_EVENTS_DROPPED_BASE in
  (ring_room t, mkKernel (agentshield_scope_map k) (agentshield_network k)
                  (agentshield_increment_stat base event_type (agentshield_stats_map k)) (agentshield_events k)).
Definition bpf_ringbuf_submit (e : rawKernelEventV3) (k : kernel) : kernel :=
  mkKernel (agentshield_scope_map k) (agentshield_network k) (agentshield_stats_map k) (agentshield_events k ++ [e]).

Definition set_flags (e : rawKernelEventV3) (bits : Z) : rawKernelEventV3 :=
  mkRaw (Raw_SchemaVersion e) (Raw_EventType e) (Raw_Action e) (Raw_ActionResult e) (Raw_TimestampNS e) (Raw_CgroupID e)
    (Raw_InstanceID e) (Raw_ScopeCookie e) (Raw_PID e) (Raw_TGID e) (Raw_PPID e) (Raw_UID e) (Raw_ProfileID e)
    (Raw_PolicyID e) (Raw_RuleID e) (Z.lor (Raw_Flags e) bits) (Raw_SyscallFlags e) (Raw_CapturedArgcPlusOne e)
    (Raw_Comm e) (Raw_Data e).
Definition set_data (e : rawKernelEventV3) (data : list Z) : rawKernelEventV3 :=
  mkRaw (Raw_SchemaVersion e) (Raw_EventType e) (Raw_Action e) (Raw_ActionResult e) (Raw_TimestampNS e) (Raw_CgroupID e)
    (Raw_InstanceID e) (Raw_ScopeCookie e) (Raw_PID e) (Raw_TGID e) (Raw_PPID e) (Raw_UID e) (Raw_ProfileID e)
    (Raw_PolicyID e) (Raw_RuleID e) (Raw_Flags e) (Raw_SyscallFlags e) (Raw_CapturedArgcPlusOne e) (Raw_Comm e) data.
Definition set_syscall (e : rawKernelEventV3) (syscall_flags captured_argc_plus_one : Z) : rawKernelEventV3 :=
  mkRaw (Raw_SchemaVersion e) (Raw_EventType e) (Raw_Action e) (Raw_ActionResult e) (Raw_TimestampNS e) (Raw_CgroupID e)
    (Raw_InstanceID e) (Raw_ScopeCookie e) (Raw_PID e) (Raw_TGID e) (Raw_PPID e) (Raw_UID e) (Raw_ProfileID e)
    (Raw_PolicyID e) (Raw_RuleID e) (Raw_Flags e) syscall_flags captured_argc_plus_one (Raw_Comm e) (Raw_Data e).
Definition set_enforcement (e : rawKernelEventV3) (result : Z) (p : ebpfNetworkProfile) : rawKernelEventV3 :=
  mkRaw (Raw_SchemaVersion e) (Raw_EventType e) KernelActionBlock result (Raw_TimestampNS e) (Raw_CgroupID e)
    (Raw_InstanceID e) (Raw_ScopeCookie e) (Raw_PID e) (Raw_TGID e) (Raw_PPID e) (Raw_UID e) (Raw_ProfileID e)
    (Profile_PolicyID p) (Profile_RuleID p) (Raw_Flags e) (Raw_SyscallFlags e) (Raw_CapturedArgcPlusOne e)
    (Raw_Comm e) (Raw_Data e).

(** Bytes stored at an offset of a buffer. *)
Definition store_at (off : nat) (bytes data : list Z) : list Z :=
  take off data ++ bytes ++ drop (off + length bytes) data.

(** ** User memory *)
Class UserMemory := {
  (** [bpf_probe_read_user_str dst size ptr]: the return value and the bytes
      stored from [dst] on. *)
  bpf_probe_read_user_str : nat -> Z -> Z * list Z;
  (** An eight-byte [bpf_probe_read_user]; [None] is a negative return. *)
  bpf_probe_read_user : Z -> option Z;
}.

Section Tracepoints.
Context {UM : UserMemory}.

Definition FLAG_EXECUTABLE : Z := Z.lor FlagTruncated FlagExecutableTruncated.
Definition FLAG_ARGUMENTS : Z := Z.lor FlagTruncated FlagArgumentsTruncated.

(** The argument loop from slot [i], [n] slots left: the record and
    [captured_argc]. *)
Fixpoint capture_argv (n i : nat) (argv : Z) (e : rawKernelEventV3) (captured_argc : Z) : rawKernelEventV3 * Z :=
  match n with
  | O => (e, captured_argc)
  | S n' =>
      match bpf_probe_read_user (argv + 8 * Z.of_nat i) with
      | None => (set_flags e FLAG_ARGUMENTS, captured_argc)
      | Some arg =>
          if arg =? 0 then (e, captured_argc)
          else
            let '(read_len, bytes) := bpf_probe_read_user_str AGENTSHIELD_EXEC_ARG_LEN arg in
            let e := set_data e (store_at (AGENTSHIELD_EXEC_EXE_LEN + i * AGENTSHIELD_EXEC_ARG_LEN) bytes (Raw_Data e)) in
            if read_len <? 0 then (set_flags e FLAG_ARGUMENTS, captured_argc)
            else capture_argv n' (S i) argv
                   (if read_len =? Z.of_nat AGENTSHIELD_EXEC_ARG_LEN then set_flags e FLAG_ARGUMENTS else e)
                   (captured_argc + 1)
      end
  end.

(** The record of an exec attempt. *)
Definition exec_record (t : task) (s : agentshield_scope_value) (filename argv : Z) : rawKernelEventV3 :=
  let e := agentshield_fill_common EventTypeExecAttempt t s (current_ppid t) in
  let '(read_len, bytes) := bpf_probe_read_user_str AGENTSHIELD_EXEC_EXE_LEN filename in
  let e := set_data e (store_at 0 bytes (Raw_Data e)) in
  let e := if (read_len <? 0) || (read_len =? Z.of_nat AGENTSHIELD_EXEC_EXE_LEN) then set_flags e FLAG_EXECUTABLE else e in
  let '(e, captured_argc) := capture_argv AGENTSHIELD_EXEC_ARG_COUNT 0 argv e 0 in
  let e := set_syscall e (Raw_SyscallFlags e) (captured_argc + 1) in
  if captured_argc =? Z.of_nat AGENTSHIELD_EXEC_ARG_COUNT then
    match bpf_probe_read_user (argv + 8 * Z.of_nat AGENTSHIELD_EXEC_ARG_COUNT) with
    | None => set_flags e FLAG_ARGUMENTS
    | Some arg => if negb (arg =? 0) then set_flags e FLAG_ARGUMENTS else e
    end
  else e.
Definition agentshield_trace_execve (t : task) (filename argv : Z) (k : kernel) : kernel :=
  match agentshield_current_scope k t with
  | None => k
  | Some s =>
      let '(reserved, k) := agentshield_reserve_event EventTypeExecAttempt t k in
      if reserved then bpf_ringbuf_submit (exec_record t s filename argv) k else k
  end.

Definition open_record (t : task) (s : agentshield_scope_value) (filename flags : Z) : rawKernelEventV3 :=
  let e := agentshield_fill_common EventTypeFileOpen t s (current_ppid t) in
  let e := set_syscall e (wrap32 flags) (Raw_CapturedArgcPlusOne e) in
  let '(read_len, bytes) := bpf_probe_read_user_str AGENTSHIELD_DATA_LEN filename in
  let e := set_data e (store_at 0 bytes (Raw_Data e)) in
  if (read_len <? 0) || (read_len =? Z.of_nat AGENTSHIELD_DATA_LEN) then set_flags e FlagTruncated else e.
Definition agentshield_trace_openat (t : task) (filename flags : Z) (k : kernel) : kernel :=
  match agentshield_current_scope k t with
  | None => k
  | Some s =>
      let '(reserved, k) := agentshield_reserve_event EventTypeFileOpen t k in
      if reserved then bpf_ringbuf_submit (open_record t s filename flags) k else k
  end.
End Tracepoints.

(** ** Connect hooks *)
(** [bpf_ntohs((__u16)port)]. *)
Definition bpf_ntohs (port : Z) : Z := port mod 256 * 256 + port / 256 mod 256.
(** The copy into a zeroed 16-byte destination: the words are stored in
    memory order. *)
Definition agentshield_copy_destination (ctx : bpf_sock_addr) (address_family : Z) : list Z :=
  if address_family =? AddressFamilyIPv4 then le_bytes 4 (user_ip4 ctx) ++ replicate 12 0
  else le_bytes 4 (nth 0 (user_ip6 ctx) 0) ++ le_bytes 4 (nth 1 (user_ip6 ctx) 0) ++
       le_bytes 4 (nth 2 (user_ip6 ctx) 0) ++ le_bytes 4 (nth 3 (user_ip6 ctx) 0).
Definition agentshield_fill_network_key (ctx : bpf_sock_addr) (address_family profile_id generation : Z) : ebpfNetworkAllowKey :=
  mkAllowKey profile_id generation address_family (bpf_ntohs (user_port ctx)) (agentshield_copy_destination ctx address_family) 0.
Definition allow_lookup (m : network_maps) (key : ebpfNetworkAllowKey) : bool := bool_decide (key ∈ allow_map m).
Definition agentshield_network_tuple_allowed (m : network_maps) (ctx : bpf_sock_addr) (address_family profile_id generation : Z) : bool :=
  let key := agentshield_fill_network_key ctx address_family profile_id generation in
  if allow_lookup m key then true
  else if allow_lookup m (mkAllowKey profile_id generation address_family 0 (AllowKey_DestinationAddress key) NetworkAllowAnyPort)
  then true
  else allow_lookup m (mkAllowKey profile_id generation address_family (bpf_ntohs (user_port ctx)) zero_address NetworkAllowAnyAddress).

Definition zero_profile : ebpfNetworkProfile := mkProfile 0 0 0 0.
Definition applied_profile (k : kernel) (s : agentshield_scope_value) : ebpfNetworkProfile :=
  if Scope_profile_id s =? 0 then zero_profile
  else default zero_profile (profile_map (agentshield_network k) !! Scope_profile_id s).
Definition default_deny (p : ebpfNetworkProfile) : bool := negb (Z.land (Profile_Flags p) networkDefaultDeny =? 0).

Definition connect_payload (ctx : bpf_sock_addr) (address_family : Z) : rawNetworkPayloadV2 :=
  mkRawNetwork (agentshield_copy_destination ctx address_family) (bpf_ntohs (user_port ctx)) address_family KernelProtocolTCP [0; 0; 0].
Definition connect_record (t : task) (s : agentshield_scope_value) (p : ebpfNetworkProfile) (blocked : bool)
    (ctx : bpf_sock_addr) (address_family : Z) : rawKernelEventV3 :=
  let e := set_flags (agentshield_fill_common EventTypeNetConnect t s 0) FlagFieldUnavailable in
  let e := if default_deny p then set_enforcement e (if blocked then ActionResultBlocked else ActionResultAllowed) p else e in
  set_data e (store_at 0 (write_network (connect_payload ctx address_family)) (Raw_Data e)).
(** The kernel state afterwards and the return value; 1 lets the connection
    proceed. *)
Definition agentshield_audit_connect (t : task) (ctx : bpf_sock_addr) (address_family : Z) (k : kernel) : kernel * Z :=
  if negb (sock_protocol ctx =? KernelProtocolTCP) then (k, 1)
  else match agentshield_current_scope k t with
  | None => (k, 1)
  | Some s =>
      let p := applied_profile k s in
      let blocked :=
        if default_deny p
        then negb (agentshield_network_tuple_allowed (agentshield_network k) ctx address_family (Scope_profile_id s) (Profile_Generation p))
        else false in
      let '(reserved, k) := agentshield_reserve_event EventTypeNetConnect t k in
      (if reserved then bpf_ringbuf_submit (connect_record t s p blocked ctx address_family) k else k, if blocked then 0 else 1)
  end.
Definition agentshield_connect4 (t : task) (ctx : bpf_sock_addr) (k : kernel) : kernel * Z :=
  agentshield_audit_connect t ctx AddressFamilyIPv4 k.
Definition agentshield_connect6 (t : task) (ctx : bpf_sock_addr) (k : kernel) : kernel * Z :=
  agentshield_audit_connect t ctx AddressFamilyIPv6 k.

(** ** Lemmas: addresses on the wire *)
Definition sock_ok (ctx : bpf_sock_addr) : Prop :=
  fits 4 (user_ip4 ctx) /\ Forall (fits 4) (user_ip6 ctx) /\ length (user_ip6 ctx) = 4%nat /\ fits 4 (user_port ctx).
Definition family_known (f : Z) : Prop := f = AddressFamilyIPv4 \/ f = AddressFamilyIPv6.
(** The destination the record of a connection reports. *)
Definition sock_address (ctx : bpf_sock_addr) (f : Z) : Addr := address_of (connect_payload ctx f).

Lemma le_bytes_is_byte n : forall z, Forall is_byte (le_bytes n z).
Proof.
  induction n as [|n IH]; intros z; cbn [le_bytes]; constructor; [|apply IH].
  unfold is_byte. apply Z.mod_pos_bound. lia.
Qed.
Lemma copy_destination_ok ctx f :
  Forall is_byte (agentshield_copy_destination ctx f) /\ length (agentshield_copy_destination ctx f) = 16%nat.
Proof.
  unfold agentshield_copy_destination. destruct (f =? AddressFamilyIPv4); split.
  - apply Forall_app; split; [apply le_bytes_is_byte|]. apply Forall_replicate. unfold is_byte. lia.
  - by rewrite length_app, le_bytes_length, length_replicate.
  - repeat apply Forall_app_2; apply le_bytes_is_byte.
  - by rewrite !length_app, !le_bytes_length.
Qed.
Lemma sock_address_ok ctx f : addr_ok (sock_address ctx f) /\ has_zone (sock_address ctx f) = false.
Proof.
  destruct (copy_destination_ok ctx f) as [Hb Hl].
  unfold sock_address, address_of, connect_payload. cbn [Payload_AddressFamily Payload_DestinationAddress].
  destruct (f =? AddressFamilyIPv4); (split; [|done]).
  - assert (length (take 4 (agentshield_copy_destination ctx f)) = 4%nat) as Hl4 by (rewrite length_take; lia).
    pose proof (be_val_bytes _ (Forall_take _ 4 _ Hb)) as H. by rewrite Hl4 in H.
  - pose proof (be_val_bytes _ Hb) as H. by rewrite Hl in H.
Qed.
Lemma sock_address_family ctx f :
  family_known f -> observed_family (sock_address ctx f) = if f =? AddressFamilyIPv4 then FamilyIPv4 else FamilyIPv6.
Proof. by intros [-> | ->]. Qed.

(** An exact address and its wire form identify each other. *)
Lemma entry4_matches v bytes :
  0 <= v < 2 ^ 32 -> Forall is_byte bytes -> length bytes = 4%nat ->
  As4 v ++ replicate 12 0 = bytes ++ replicate 12 0 <-> Addr4 v = AddrFrom4 bytes.
Proof.
  intros Hv Hb Hl. unfold As4, AddrFrom4. split.
  - intros E%app_inv_tail. rewrite <-E, be_val_be_bytes; [done|exact Hv].
  - intros E%(f_equal addr_val). cbn [addr_val] in E. rewrite E. f_equal. rewrite <-Hl. by apply be_bytes_val.
Qed.
Lemma entry6_matches v bytes :
  0 <= v < 2 ^ 128 -> Forall is_byte bytes -> length bytes = 16%nat ->
  As16 v = bytes <-> Addr6 v "" = AddrFrom16 bytes.
Proof.
  intros Hv Hb Hl. unfold As16, AddrFrom16. split.
  - intros E. rewrite <-E, be_val_be_bytes; [done|exact Hv].
  - intros E%(f_equal addr_val). cbn [addr_val] in E. rewrite E. rewrite <-Hl. by apply be_bytes_val.
Qed.
Lemma entry_injective f g v w : mkEnforcementAddress f v = mkEnforcementAddress g w <-> f = g /\ v = w.
Proof. split; [by intros [= -> ->]|by intros [-> ->]]. Qed.
Lemma entry_matches ctx f a :
  family_known f -> addr_ok a -> IsValid a = true -> has_zone a = false ->
  enforcement_entry a = mkEnforcementAddress f (agentshield_copy_destination ctx f) <-> a = sock_address ctx f.
Proof.
  intros Hf Ha Hv Hz. destruct (copy_destination_ok ctx f) as [Hb Hl].
  unfold sock_address, address_of, connect_payload, enforcement_entry. cbn [Payload_AddressFamily Payload_DestinationAddress].
  destruct Hf as [-> | ->], a as [|v|v z]; try done; cbn [Is4 addr_val]; rewrite entry_injective.
  - change (AddressFamilyIPv4 =? AddressFamilyIPv4) with true. cbv iota.
    change (agentshield_copy_destination ctx AddressFamilyIPv4) with (le_bytes 4 (user_ip4 ctx) ++ replicate 12 0).
    rewrite take_app_length' by (by rewrite le_bytes_length).
    rewrite entry4_matches; [|done|apply le_bytes_is_byte|apply le_bytes_length]. by split; [intros [_ ?]|].
  - change (AddressFamilyIPv6 =? AddressFamilyIPv4) with false. cbv iota.
    apply negb_false_iff, bool_decide_eq_true in Hz. subst z.
    rewrite entry6_matches by done. by split; [intros [_ ?]|].
Qed.

(** ** Lemmas: the tuple lookup *)
Lemma lookup_installed img m t :
  installed img m -> allow_lookup m (allow_key img t) = true <-> t ∈ Image_Allows img.
Proof.
  intros [_ Hm]. unfold allow_lookup. rewrite bool_decide_eq_true, Hm. split; [|eauto].
  by intros (u & Hu & ->%allow_key_inj).
Qed.
Definition address_listed (addresses : list enforcementAddress) (any : bool) (f : Z) (dest : list Z) : Prop :=
  exists a, a ∈ addresses /\ ea_family a = f /\ ea_value a = if any then zero_address else dest.
Definition port_listed (ports : list Z) (any : bool) (port : Z) : Prop := (if any then 0 else port) ∈ ports.

Lemma elem_cross b c pid g p cond img addresses ports f port value flags :
  compiled_from b c pid g p cond img -> enforcementAddresses cond = Ok addresses -> enforcementPorts cond = Ok ports ->
  mkAllowTuple f port value flags ∈ Image_Allows img <->
  (CIDRs cond <> [] \/ Ports cond <> []) /\ mkEnforcementAddress f value ∈ addresses /\ port ∈ ports /\
  flags = Z.lor (if len (CIDRs cond) =? 0 then 1 else 0) (if len (Ports cond) =? 0 then 2 else 0).
Proof.
  intros Hc Ea Ep. rewrite (cross_elem _ _ _ _ _ _ _ _ Hc). split.
  - intros (Hne & [f' v'] & port' & as' & ps & Ea' & Ep' & Ha & Hp & [= -> -> -> ->]).
    rewrite Ea in Ea'. rewrite Ep in Ep'. apply Ok_inj in Ea', Ep'. by subst.
  - intros (Hne & Ha & Hp & ->). split; [done|]. eexists _, port, addresses, ports. done.
Qed.
Lemma tuple_allowed_listed b c pid g p cond img m ctx f addresses ports :
  compiled_from b c pid g p cond img -> installed img m ->
  enforcementAddresses cond = Ok addresses -> enforcementPorts cond = Ok ports ->
  agentshield_network_tuple_allowed m ctx f (Image_ProfileID img) (Image_Generation img) = true <->
  (CIDRs cond <> [] \/ Ports cond <> []) /\
  address_listed addresses (len (CIDRs cond) =? 0) f (agentshield_copy_destination ctx f) /\
  port_listed ports (len (Ports cond) =? 0) (bpf_ntohs (user_port ctx)).
Proof.
  intros Hc Hm Ea Ep. unfold agentshield_network_tuple_allowed, agentshield_fill_network_key. cbn [AllowKey_DestinationAddress].
  assert (forall port value flags,
    allow_lookup m (mkAllowKey (Image_ProfileID img) (Image_Generation img) f port value flags) =
    bool_decide (mkAllowTuple f port value flags ∈ Image_Allows img)) as Hk.
  { intros. apply eq_bool_prop_intro. rewrite !Is_true_true, bool_decide_eq_true.
    exact (lookup_installed img m (mkAllowTuple f port value flags) Hm). }
  assert (address_listed addresses (len (CIDRs cond) =? 0) f (agentshield_copy_destination ctx f) <->
          mkEnforcementAddress f (if len (CIDRs cond) =? 0 then zero_address else agentshield_copy_destination ctx f) ∈ addresses) as ->.
  { unfold address_listed. split; [by intros ([] & Ha & <- & <-)|]. intros Ha. eexists. split; [exact Ha|]. done. }
  unfold port_listed. rewrite !Hk. clear Hk.
  pose proof (fun port value flags => elem_cross _ _ _ _ _ _ _ _ _ f port value flags Hc Ea Ep) as He.
  destruct (Z.eqb_spec (len (CIDRs cond)) 0) as [Ec|Ec]; rewrite len_zero in Ec;
  destruct (Z.eqb_spec (len (Ports cond)) 0) as [Eq|Eq]; rewrite len_zero in Eq;
    unfold NetworkAllowAnyAddress, NetworkAllowAnyPort;
    (case_bool_decide as H1; [|case_bool_decide as H2; [|rewrite bool_decide_eq_true]]);
    rewrite ?He in *; cbn in *; first [naive_solver|(split; [|tauto]); naive_solver].
Qed.

(** No prefix of the condition is written in the IPv4-mapped notation. *)
Definition plain_cidrs (c : NetworkCondition) : Prop :=
  Forall (fun raw => forall p, ParsePrefix raw = Some p -> Is4In6 (prefix_addr p) = false) (CIDRs c).
Lemma Unmap_plain a : Is4In6 a = false -> Unmap a = a.
Proof. destruct a; [done..|]. unfold Unmap. by intros ->. Qed.
Lemma enforcementAddresses_host c addresses raw :
  enforcementAddresses c = Ok addresses -> raw ∈ CIDRs c ->
  exists p, ParsePrefix raw = Some p /\ prefix_bits p = BitLen (Unmap (prefix_addr p)).
Proof.
  unfold enforcementAddresses. destruct (CIDRs c) as [|x l]; [by intros _ []%elem_of_nil|].
  intros H%map_result_Ok (i & Hi)%list_elem_of_lookup. destruct (Forall2_lookup_l _ _ _ _ _ H Hi) as (a & _ & Ha).
  apply enforcement_address_Ok in Ha as (p & ? & ? & _). eauto.
Qed.
Lemma cidr_listed ctx f c addresses raw :
  family_known f -> plain_cidrs c -> enforcementAddresses c = Ok addresses -> raw ∈ CIDRs c ->
  cidr_contains raw (sock_address ctx f) = true <->
  exists p, ParsePrefix raw = Some p /\ prefix_bits p = BitLen (Unmap (prefix_addr p)) /\
    mkEnforcementAddress f (agentshield_copy_destination ctx f) = enforcement_entry (Unmap (prefix_addr p)).
Proof.
  intros Hf Hplain Ea Hraw. destruct (enforcementAddresses_host _ _ _ Ea Hraw) as (p & Ep & Hbits).
  unfold plain_cidrs in Hplain. rewrite Forall_forall in Hplain. specialize (Hplain raw Hraw p Ep).
  destruct (ParsePrefix_ok _ _ Ep) as (Hok & Hv & Hz). destruct (sock_address_ok ctx f) as [Hsa Hsz].
  rewrite (Unmap_plain _ Hplain) in Hbits.
  assert (cidr_contains raw (sock_address ctx f) = Contains_addr p (sock_address ctx f)) as -> by (unfold cidr_contains; by rewrite Ep).
  rewrite Contains_host by done. rewrite <-(entry_matches ctx f) by done. split.
  - intros E. exists p. by rewrite (Unmap_plain _ Hplain).
  - intros (q & Eq & _ & E). rewrite Ep in Eq. injection Eq as <-. by rewrite (Unmap_plain _ Hplain) in E.
Qed.
Lemma address_listed_iff ctx f c addresses :
  family_known f -> wf_network c -> plain_cidrs c -> enforcementAddresses c = Ok addresses ->
  address_listed addresses (len (CIDRs c) =? 0) f (agentshield_copy_destination ctx f) <->
  observed_family (sock_address ctx f) ∈ Families c /\
  (CIDRs c = [] \/ exists raw, raw ∈ CIDRs c /\ cidr_contains raw (sock_address ctx f) = true).
Proof.
  intros Hf Hwf Hplain Ea. pose proof (fun a => enforcementAddresses_elem _ _ a Ea) as Hel.
  rewrite (sock_address_family _ _ Hf). destruct (Z.eqb_spec (len (CIDRs c)) 0) as [E0|E0]; rewrite len_zero in E0.
  - unfold address_listed. split.
    + intros (a & Ha & <- & _). split; [|by left]. apply Hel in Ha as [(_ & fam & Hfam & ->)|(raw & ? & Hraw & _)].
      * pose proof (wf_network_families_known _ Hwf _ Hfam) as Hk. cbn [ea_family].
        case_bool_decide as Hd; [by subst|].
        apply elem_of_cons in Hk as [?|Hk%list_elem_of_singleton]; [done|]. rewrite Hk in Hfam. exact Hfam.
      * rewrite E0 in Hraw. by apply elem_of_nil in Hraw.
    + intros [Hin _]. exists (mkEnforcementAddress f zero_address). split_and!; [|done..]. apply Hel. left. split; [done|].
      exists (if f =? AddressFamilyIPv4 then FamilyIPv4 else FamilyIPv6). split; [done|]. by destruct Hf as [-> | ->].
  - unfold address_listed. split.
    + intros ([fam v] & Ha & Efam & Ev). cbn in Efam, Ev. subst fam v.
      apply Hel in Ha as [[? _]|(raw & p & Hraw & Ep & Hb & E)]; [done|].
      assert (cidr_contains raw (sock_address ctx f) = true) as Hc by (apply (cidr_listed ctx f c addresses); eauto).
      split; [|eauto]. pose proof (wf_network_cidrs _ Hwf) as Hcidrs. rewrite Forall_forall in Hcidrs.
      destruct (Hcidrs raw Hraw) as (q & Eq & Hq). rewrite Ep in Eq. injection Eq as <-.
      unfold plain_cidrs in Hplain. rewrite Forall_forall in Hplain. rewrite (Unmap_plain _ (Hplain raw Hraw p Ep)) in E.
      apply (f_equal ea_family) in E. unfold enforcement_entry in E. unfold cidr_family in Hq.
      destruct (Is4 (prefix_addr p)); cbn in E; subst f; exact Hq.
    + intros [_ [?|(raw & Hraw & Hc)]]; [done|]. exists (mkEnforcementAddress f (agentshield_copy_destination ctx f)).
      split_and!; [|done..]. apply Hel. right.
      apply (cidr_listed ctx f c addresses) in Hc as (p & ? & ? & ?); [|done..]. eauto 6.
Qed.
Lemma port_listed_iff c ports port :
  wf_network c -> enforcementPorts c = Ok ports ->
  port_listed ports (len (Ports c) =? 0) port <-> (Ports c = [] \/ exists r, r ∈ Ports c /\ From r <= port <= To r).
Proof.
  intros Hwf Ep. unfold port_listed. rewrite (enforcementPorts_elem _ _ _ Ep).
  assert (forall r, r ∈ Ports c -> From r = To r) as Heq.
  { unfold enforcementPorts in Ep. destruct (Ports c) as [|x l]; [by intros r []%elem_of_nil|]. apply map_result_Ok in Ep.
    intros r (i & Hi)%list_elem_of_lookup. destruct (Forall2_lookup_l _ _ _ _ _ Ep Hi) as (q & _ & Hr).
    by destruct (Z.eqb_spec (From r) (To r)). }
  destruct (Z.eqb_spec (len (Ports c)) 0) as [E0|E0]; rewrite len_zero in E0; [naive_solver|].
  split; [intros [[? _]|(r & Hr & E1 & E2)]; [done|]; right; exists r; split; [done|lia]|].
  intros [?|(r & Hr & Hp)]; [done|]. right. exists r. pose proof (Heq r Hr). split_and!; [done|lia..].
Qed.

(** ** Properties *)
(** The tuple a user-space evaluation sees for a connection. *)
Definition sock_observation (ctx : bpf_sock_addr) (f : Z) : NetworkObservation :=
  mkNetworkObservation (sock_address ctx f) (bpf_ntohs (user_port ctx)) ProtocolTCP "".

(** C11: the kernel enforces the policy.  A compiled enforcement image always
    passes the loader's validation and installs on the freshly loaded maps;
    from then on a TCP connection from a scope with that profile is let
    through exactly when the policy's condition allows its tuple, and the
    record emitted for it, when the ring buffer has room, says which.  This is
    for policies none of whose prefixes lies in the IPv4-mapped range
    ([plain_cidrs]) and for destinations that are not IPv4-mapped addresses. *)
Theorem enforcement_image_enforced b c profileID g img :
  0 <= Revision g -> CompileNetworkEnforcement b c profileID g = Ok (Some img) ->
  NetworkEnforcementConfig_Validate img = None /\
  exists m p cond,
    installNetworkEnforcement empty_maps img = Ok m /\
    Policies (selectPolicies b c conditionNetwork) = [p] /\ Network (Policy_Conditions p) = Some cond /\
    forall k t s ctx f,
      agentshield_network k = m -> agentshield_current_scope k t = Some s -> Scope_profile_id s = profileID ->
      sock_protocol ctx = KernelProtocolTCP -> family_known f -> plain_cidrs cond -> Is4In6 (sock_address ctx f) = false ->
      exists verdict,
        (verdict = 1 <-> tuple_allowed cond (unmapped (sock_observation ctx f))) /\ (verdict = 0 \/ verdict = 1) /\
        (agentshield_audit_connect t ctx f k).2 = verdict /\
        agentshield_events (agentshield_audit_connect t ctx f k).1 =
          agentshield_events k ++
          (if ring_room t then [connect_record t s (mkProfile (Image_Generation img) (stablePolicyID (ID p))
                                  (rule_hash (ID p) "network_default" 0) networkDefaultDeny) (verdict =? 0) ctx f] else []).
Proof.
  intros Hrev Hcompile. apply CompileNetworkEnforcement_inv in Hcompile as (p & cond & Hc).
  pose proof (compiled_validates _ _ _ _ _ _ _ Hc Hrev) as Hv. split; [done|].
  destruct (install_valid img Hv) as (m & Hm & Hinst). exists m, p, cond. pose proof Hc as [_ Hsel _ Hn _ Hids _ (addresses & ports & Ea & Ep & _)].
  split_and!; [done..|]. intros k t s ctx f Ek Es Eprof Etcp Hf Hplain Hdest.
  destruct Hids as (Hpid & _ & _ & E1 & E2 & E3 & E4).
  unfold agentshield_audit_connect. rewrite Etcp, Z.eqb_refl, Es. cbn [negb]. cbv zeta.
  assert (applied_profile k s = mkProfile (Image_Generation img) (stablePolicyID (ID p)) (rule_hash (ID p) "network_default" 0)
            networkDefaultDeny) as Eap.
  { unfold applied_profile. rewrite Eprof, (proj2 (Z.eqb_neq _ _) Hpid), Ek, (proj1 Hinst), E1, lookup_singleton_eq, E3, E4. done. }
  rewrite !Eap. change (default_deny _) with true. cbv iota. cbn [Profile_Generation]. rewrite Eprof, <-E1, Ek.
  pose proof (tuple_allowed_listed _ _ _ _ _ _ _ m ctx f _ _ Hc Hinst Ea Ep) as Hta.
  rewrite (address_listed_iff _ _ _ _ Hf (compiled_wf_network _ _ _ _ _ _ _ Hc) Hplain Ea) in Hta.
  rewrite (port_listed_iff _ _ _ (compiled_wf_network _ _ _ _ _ _ _ Hc) Ep) in Hta.
  exists (if agentshield_network_tuple_allowed m ctx f (Image_ProfileID img) (Image_Generation img) then 1 else 0).
  unfold agentshield_reserve_event.
  split_and!; [|destruct (agentshield_network_tuple_allowed _ _ _ _ _); auto| |].
  - unfold tuple_allowed, tuple_selected, unmapped, sock_observation. cbn [Destination Port Protocol].
    rewrite (Unmap_plain _ Hdest). destruct (agentshield_network_tuple_allowed _ _ _ _ _).
    + split; [intros _; destruct (proj1 Hta eq_refl) as (? & [? ?] & ?); done|done].
    + split; [done|]. intros ((? & ? & ?) & _ & ?). discriminate (proj2 Hta ltac:(done)).
  - by destruct (agentshield_network_tuple_allowed _ _ _ _ _).
  - destruct (agentshield_network_tuple_allowed _ _ _ _ _), (ring_room t); cbn -[connect_record]; by rewrite ?app_nil_r.
Qed.

Definition block_policy (cond : NetworkCondition) : Policy :=
  mkPolicy "egress" "Egress allowlist" "" true (mkScope ScopeGlobal "" "" ∅) DecisionDeny ActionBlock 7 SeverityHigh
    (mkConditions None None (Some cond)).
Definition demo_condition : NetworkCondition :=
  mkNetworkCondition NetworkDefaultDeny ["10.0.0.5/32"] [mkPortRange 443 443] [FamilyIPv4].
Definition demo_image (cond : NetworkCondition) : option NetworkEnforcementImage :=
  match CompileNetworkEnforcement (mkBundle 1 [block_policy cond]) (mkContext "" "" ∅) 1 (mkGeneration 1 BankA) with
  | Ok image => image
  | Err _ => None
  end.
Definition demo_kernel (m : network_maps) : kernel :=
  mkKernel {[ 77 := mkScopeValue 5 9 1 0 ]} m (replicate 32 0) [].
Definition demo_task : task := mkTask 1000 (Z.shiftl 40 32 + 42) 1000 77 1 (replicate 16 0) true.
(** 10.0.0.5, port 443, in network byte order. *)
Definition demo_sock : bpf_sock_addr := mkSockAddr 83886090 [0; 0; 0; 0] 47873 KernelProtocolTCP.

Lemma enforcement_image_enforced_witness :
  exists img m, CompileNetworkEnforcement (mkBundle 1 [block_policy demo_condition]) (mkContext "" "" ∅) 1 (mkGeneration 1 BankA) = Ok (Some img) /\
    installNetworkEnforcement empty_maps img = Ok m /\
    (agentshield_connect4 demo_task demo_sock (demo_kernel m)).2 = 1 /\
    tuple_allowed demo_condition (unmapped (sock_observation demo_sock AddressFamilyIPv4)).
Proof.
  assert (match demo_image demo_condition with Some _ => True | None => False end) as Hsome by (vm_compute; exact I).
  destruct (demo_image demo_condition) as [img|] eqn:Ei; [clear Hsome|destruct Hsome].
  assert (CompileNetworkEnforcement (mkBundle 1 [block_policy demo_condition]) (mkContext "" "" ∅) 1 (mkGeneration 1 BankA) = Ok (Some img)) as Ec.
  { revert Ei. unfold demo_image. destruct (CompileNetworkEnforcement _ _ _ _) as [i|]; [intros ->; reflexivity|discriminate]. }
  destruct (enforcement_image_enforced _ _ 1 (mkGeneration 1 BankA) img ltac:(cbn; lia) Ec) as (_ & m & p & cond & Hm & Hp & Hc & H).
  assert (Policies (selectPolicies (mkBundle 1 [block_policy demo_condition]) (mkContext "" "" ∅) conditionNetwork) =
          [block_policy demo_condition]) as Hp' by (vm_compute; reflexivity).
  rewrite Hp' in Hp. injection Hp as <-.
  injection Hc as <-. exists img, m. repeat (split; [first [exact Ec|exact Hm]|]).
  destruct (H (demo_kernel m) demo_task (mkScopeValue 5 9 1 0) demo_sock AddressFamilyIPv4) as (v & Hv & _ & E & _);
    [reflexivity|vm_compute; reflexivity|reflexivity|reflexivity|left; reflexivity| |vm_compute; reflexivity|].
  { constructor; [|constructor]. intros q Hq. vm_compute in Hq. injection Hq as <-. vm_compute. reflexivity. }
  assert (v = 1) as ->.
  { rewrite <-E. assert (installNetworkEnforcement empty_maps img = Ok m) as Hm' by exact Hm.
    vm_compute in Ei. injection Ei as <-. vm_compute in Hm'. injection Hm' as <-. vm_compute. reflexivity. }
  split; [exact E|]. apply Hv. reflexivity.
Defined.

(** ** Where the kernel and the policy disagree *)
(** The verdict of the hooks for the image of a one-policy bundle. *)
Definition demo_verdict (cond : NetworkCondition) (ctx : bpf_sock_addr) (f : Z) : option Z :=
  match demo_image cond with
  | Some img => match installNetworkEnforcement empty_maps img with
                | Ok m => Some (agentshield_audit_connect demo_task ctx f (demo_kernel m)).2
                | Err _ => None
                end
  | None => None
  end.
(** The user-space disposition of the same tuple. *)
Definition demo_disposition (cond : NetworkCondition) (ctx : bpf_sock_addr) (f : Z) : NetworkDisposition :=
  ND_Disposition (rule_decision (sock_observation ctx f) (block_policy cond) cond).

Definition mapped_prefix_condition : NetworkCondition :=
  mkNetworkCondition NetworkDefaultDeny ["::ffff:10.0.0.5/32"] [] [FamilyIPv6].
(** An accepted IPv6 prefix in mapped notation, of length 32, becomes an exact
    IPv4 host in the kernel image: the kernel lets a connection through that
    the policy denies. *)
Theorem mapped_prefix_divergence :
  Bundle_Validate (mkBundle 1 [block_policy mapped_prefix_condition]) = [] /\
  demo_verdict mapped_prefix_condition demo_sock AddressFamilyIPv4 = Some 1 /\
  demo_disposition mapped_prefix_condition demo_sock AddressFamilyIPv4 = DispositionDenied.
Proof. split_and!; vm_compute; reflexivity. Qed.

Definition any_address_condition : NetworkCondition :=
  mkNetworkCondition NetworkDefaultDeny [] [mkPortRange 443 443] [FamilyIPv6].
(** ::ffff:10.0.0.5, port 443. *)
Definition mapped_sock : bpf_sock_addr := mkSockAddr 0 [0; 0; 4294901760; 83886090] 47873 KernelProtocolTCP.
(** A destination in the mapped range reaches [connect6] as an IPv6 address,
    while the evaluation treats it as IPv4: under a policy that permits the
    IPv6 family only, the kernel lets it through and the policy denies it. *)
Theorem mapped_destination_divergence :
  Bundle_Validate (mkBundle 1 [block_policy any_address_condition]) = [] /\
  sock_address mapped_sock AddressFamilyIPv6 = Addr6 (65535 * 2 ^ 32 + 167772165) "" /\
  demo_verdict any_address_condition mapped_sock AddressFamilyIPv6 = Some 1 /\
  demo_disposition any_address_condition mapped_sock AddressFamilyIPv6 = DispositionDenied.
Proof. split_and!; vm_compute; reflexivity. Qed.
