(* ===== verification/KernelCapture.v ===== *)
(** * What the kernel captures reach user space
    ([bpf/agentshield.bpf.c] with [internal/events/kernel_event.go])

    The records of the tracepoints and hooks decode in user space, and their
    truncation flags are never missing; every in-scope invocation is either
    submitted or counted as dropped. *)
From S2P Require Import Prelude GoStd Netip Schema Limits Match NetworkMatch Generation Engine Events Enforcement KernelProgram.
Open Scope Z_scope.

(** The documented behaviour of [bpf_probe_read_user_str]: at most [size]
    bytes are stored; a successful call stores a terminated string and returns
    its length with the terminator, and a return below [size] means that it is
    the whole string at the address. *)
Class UserMemoryLaws (UM : UserMemory) (user_string : Z -> option (list Z)) : Prop := {
  read_str_stored n ptr rc bs : bpf_probe_read_user_str n ptr = (rc, bs) -> (length bs <= n)%nat /\ Forall is_byte bs;
  read_str_terminated n ptr rc bs : bpf_probe_read_user_str n ptr = (rc, bs) -> 0 <= rc ->
    exists s, bs = s ++ [0] /\ Forall (fun b => b <> 0) s /\ rc = len bs;
  read_str_complete n ptr rc s : bpf_probe_read_user_str n ptr = (rc, s ++ [0]) -> 0 <= rc < Z.of_nat n ->
    user_string ptr = Some s;
}.

(** ** Lemmas: buffers *)
Lemma trimCString_terminated s rest : Forall (fun b => b <> 0) s -> trimCString (s ++ 0 :: rest) = s.
Proof.
  induction 1 as [|b s Hb Hs IH]; cbn; [done|]. by rewrite (proj2 (Z.eqb_neq _ _) Hb), IH.
Qed.
Lemma store_at_length off bs data :
  (off + length bs <= length data)%nat -> length (store_at off bs data) = length data.
Proof. intros H. unfold store_at. rewrite !length_app, length_take, length_drop. lia. Qed.
Lemma field_store_before off n off' bs data :
  (off + n <= off')%nat -> (off' <= length data)%nat -> field off n (store_at off' bs data) = field off n data.
Proof.
  intros H1 H2. unfold field, store_at. rewrite drop_app_le by (rewrite length_take; lia).
  rewrite take_app_le by (rewrite length_drop, length_take; lia).
  rewrite skipn_firstn_comm, take_take. f_equal. lia.
Qed.
Lemma field_store_same off n bs data :
  (off <= length data)%nat -> (length bs <= n)%nat -> exists rest, field off n (store_at off bs data) = bs ++ rest.
Proof.
  intros H1 H2. unfold field, store_at. rewrite drop_app_length' by (rewrite length_take; lia).
  rewrite take_app_ge by done. eauto.
Qed.
Lemma take_field n data : take n data = field 0 n data.
Proof. unfold field. by rewrite drop_0. Qed.

Section Capture.
Context {UM : UserMemory} {user_string : Z -> option (list Z)} `{!UserMemoryLaws UM user_string}.

Lemma stored_string n ptr rc bs off data :
  bpf_probe_read_user_str n ptr = (rc, bs) -> (off <= length data)%nat -> 0 <= rc ->
  exists s, trimCString (field off n (store_at off bs data)) = s /\ (rc < Z.of_nat n -> user_string ptr = Some s).
Proof.
  intros E Hoff Hrc. destruct (read_str_stored _ _ _ _ E) as [Hl _].
  destruct (read_str_terminated _ _ _ _ E Hrc) as (s & -> & Hs & Elen).
  destruct (field_store_same off n (s ++ [0]) data Hoff Hl) as (rest & ->). exists s. split.
  - rewrite <-app_assoc. by apply trimCString_terminated.
  - intros Hlt. by eapply read_str_complete.
Qed.

(** ** Lemmas: the argument loop *)
Definition header (e : rawKernelEventV3) : rawKernelEventV3 :=
  mkRaw (Raw_SchemaVersion e) (Raw_EventType e) (Raw_Action e) (Raw_ActionResult e) (Raw_TimestampNS e) (Raw_CgroupID e)
    (Raw_InstanceID e) (Raw_ScopeCookie e) (Raw_PID e) (Raw_TGID e) (Raw_PPID e) (Raw_UID e) (Raw_ProfileID e)
    (Raw_PolicyID e) (Raw_RuleID e) 0 (Raw_SyscallFlags e) (Raw_CapturedArgcPlusOne e) (Raw_Comm e) [].
Definition capture_flags : list Z := [0; FLAG_EXECUTABLE; FLAG_ARGUMENTS; Z.lor FLAG_EXECUTABLE FLAG_ARGUMENTS].
Definition slot (i : nat) : nat := AGENTSHIELD_EXEC_EXE_LEN + i * AGENTSHIELD_EXEC_ARG_LEN.

(** The arguments of slots [i], [i+1], ...: pointers read, strings held. *)
Record captured_args (argv : Z) (i : nat) (data : list Z) (ptrs : list Z) (strs : list (list Z)) : Prop := {
  ca_ptrs : forall j p, ptrs !! j = Some p -> bpf_probe_read_user (argv + 8 * Z.of_nat (i + j)) = Some p /\ p <> 0;
  ca_strs : Forall2 (fun p s => user_string p = Some s) ptrs strs;
  ca_slots : forall j s, strs !! j = Some s -> trimCString (field (slot (i + j)) AGENTSHIELD_EXEC_ARG_LEN data) = s;
}.

Record captures (n i : nat) (argv : Z) (e e' : rawKernelEventV3) (argc argc' : Z) : Prop := {
  cap_header : header e' = header e;
  cap_data : length (Raw_Data e') = 256%nat;
  cap_flags : Raw_Flags e' ∈ capture_flags;
  cap_exe : flag_set (Raw_Flags e') FlagExecutableTruncated = flag_set (Raw_Flags e) FlagExecutableTruncated;
  cap_before : forall off m, (off + m <= slot i)%nat -> field off m (Raw_Data e') = field off m (Raw_Data e);
  cap_argc : argc <= argc' <= argc + Z.of_nat n;
  cap_complete : flag_set (Raw_Flags e') FlagArgumentsTruncated = false ->
    flag_set (Raw_Flags e) FlagArgumentsTruncated = false /\
    exists ptrs strs, captured_args argv i (Raw_Data e') ptrs strs /\ len ptrs = argc' - argc /\
      (len ptrs < Z.of_nat n -> bpf_probe_read_user (argv + 8 * (Z.of_nat i + len ptrs)) = Some 0);
}.

Lemma capture_flags_arguments fl :
  fl ∈ capture_flags ->
  Z.lor fl FLAG_ARGUMENTS ∈ capture_flags /\ flag_set (Z.lor fl FLAG_ARGUMENTS) FlagArgumentsTruncated = true /\
  flag_set (Z.lor fl FLAG_ARGUMENTS) FlagExecutableTruncated = flag_set fl FlagExecutableTruncated.
Proof.
  unfold capture_flags. rewrite !elem_of_cons, elem_of_nil. intros [->|[->|[->|[->|[]]]]]; vm_compute; intuition.
Qed.
Lemma captures_stop n i argv e argc :
  (i + n <= 4)%nat -> length (Raw_Data e) = 256%nat -> Raw_Flags e ∈ capture_flags ->
  (n = 0%nat \/ bpf_probe_read_user (argv + 8 * Z.of_nat i) = Some 0) -> captures n i argv e e argc argc.
Proof.
  intros Hi Hd Hf Hstop. constructor; try done; [lia|]. intros Hflag. split; [done|]. exists [], [].
  split_and!; [constructor; [done|constructor|done]|unfold len; cbn; lia|].
  unfold len; cbn. intros Hn. destruct Hstop as [->|Hr]; [lia|]. by rewrite Z.add_0_r.
Qed.
Lemma captures_fault n i argv e d argc :
  length d = 256%nat -> Raw_Flags e ∈ capture_flags -> (forall off m, (off + m <= slot i)%nat -> field off m d = field off m (Raw_Data e)) ->
  captures n i argv e (set_flags (set_data e d) FLAG_ARGUMENTS) argc argc.
Proof.
  intros Hd Hf Hb. destruct (capture_flags_arguments _ Hf) as (H1 & H2 & H3). constructor; cbn; try done; [lia|].
  intros H. by rewrite H2 in H.
Qed.
Lemma set_data_same e : set_data e (Raw_Data e) = e.
Proof. by destruct e. Qed.

(** One captured argument before the remaining slots. *)
Lemma captures_step n i argv e e1 e' argc argc' arg rc bs :
  (i + S n <= 4)%nat -> length (Raw_Data e) = 256%nat -> Raw_Flags e ∈ capture_flags ->
  bpf_probe_read_user (argv + 8 * Z.of_nat i) = Some arg -> arg <> 0 ->
  bpf_probe_read_user_str AGENTSHIELD_EXEC_ARG_LEN arg = (rc, bs) -> 0 <= rc ->
  e1 = set_data e (store_at (slot i) bs (Raw_Data e)) ->
  captures n (S i) argv (if rc =? Z.of_nat AGENTSHIELD_EXEC_ARG_LEN then set_flags e1 FLAG_ARGUMENTS else e1) e' (argc + 1) argc' ->
  captures (S n) i argv e e' argc argc'.
Proof.
  intros Hi Hd Hf Harg Hnz Estr Hrc -> [Hh Hd' Hf' Hexe Hbefore Hargc Hcomplete].
  destruct (capture_flags_arguments _ Hf) as (_ & Ht & Hx).
  destruct (read_str_stored _ _ _ _ Estr) as [Hl _].
  destruct (stored_string _ _ _ _ (slot i) (Raw_Data e) Estr) as (s & Hs & Hus);
    [rewrite Hd; unfold slot, AGENTSHIELD_EXEC_EXE_LEN, AGENTSHIELD_EXEC_ARG_LEN; lia|done|].
  assert (forall b, Raw_Data (if b : bool then set_flags (set_data e (store_at (slot i) bs (Raw_Data e))) FLAG_ARGUMENTS
    else set_data e (store_at (slot i) bs (Raw_Data e))) = store_at (slot i) bs (Raw_Data e)) as Edata by (by intros []).
  constructor; [by rewrite Hh; destruct (_ =? _)|done|done| | |lia|].
  - rewrite Hexe. destruct (_ =? _); cbn; [by rewrite Hx|done].
  - intros off m Hoff. rewrite Hbefore, Edata by (unfold slot in *; lia).
    apply field_store_before; [done|]. rewrite Hd. unfold slot, AGENTSHIELD_EXEC_EXE_LEN, AGENTSHIELD_EXEC_ARG_LEN. lia.
  - intros Hflag. destruct (Hcomplete Hflag) as (Hflag1 & ptrs & strs & [Hp Hstrs Hslots] & Hlen & Hlast).
    destruct (Z.eqb_spec rc (Z.of_nat AGENTSHIELD_EXEC_ARG_LEN)) as [Eq|Eq]; [cbn in Hflag1; by rewrite Ht in Hflag1|].
    cbn in Hflag1. split; [done|]. exists (arg :: ptrs), (s :: strs).
    destruct (read_str_terminated _ _ _ _ Estr Hrc) as (s' & _ & _ & Erc). unfold len in Erc.
    split_and!; [constructor| |].
    + intros [|j] p; cbn; [intros [= <-]; by rewrite Nat.add_0_r|]. rewrite Nat.add_succ_r. apply (Hp j p).
    + constructor; [apply Hus; lia|done].
    + intros [|j] u Hu.
      * injection Hu as <-. rewrite Nat.add_0_r, Hbefore by (unfold slot, AGENTSHIELD_EXEC_EXE_LEN, AGENTSHIELD_EXEC_ARG_LEN; lia). exact Hs.
      * rewrite Nat.add_succ_r. exact (Hslots j u Hu).
    + unfold len in *. cbn [length]. lia.
    + unfold len in *. cbn [length]. intros Hn. rewrite <-Hlast by lia. f_equal. lia.
Qed.
Lemma capture_argv_spec argv n : forall i e argc e' argc',
  capture_argv n i argv e argc = (e', argc') ->
  (i + n <= 4)%nat -> length (Raw_Data e) = 256%nat -> Raw_Flags e ∈ capture_flags -> captures n i argv e e' argc argc'.
Proof.
  induction n as [|n IH]; intros i e argc e' argc' E Hi Hd Hf; cbn [capture_argv] in E.
  { injection E as <- <-. apply captures_stop; auto. }
  destruct (bpf_probe_read_user (argv + 8 * Z.of_nat i)) as [arg|] eqn:Earg.
  2: { injection E as <- <-. rewrite <-(set_data_same e) at 2. by apply captures_fault. }
  destruct (Z.eqb_spec arg 0) as [->|Hnz]; [injection E as <- <-; apply captures_stop; auto|].
  destruct (bpf_probe_read_user_str AGENTSHIELD_EXEC_ARG_LEN arg) as [rc bs] eqn:Estr.
  destruct (read_str_stored _ _ _ _ Estr) as [Hl _]. fold (slot i) in E.
  assert (slot i + 32 <= 256)%nat as Hslot by (unfold slot, AGENTSHIELD_EXEC_EXE_LEN, AGENTSHIELD_EXEC_ARG_LEN; lia).
  assert (length (store_at (slot i) bs (Raw_Data e)) = 256%nat) as Hd1
    by (rewrite store_at_length; [done|rewrite Hd; unfold AGENTSHIELD_EXEC_ARG_LEN in Hl; lia]).
  destruct (Z.ltb_spec rc 0) as [Hneg|Hrc].
  - injection E as <- <-. apply captures_fault; [done|done|]. intros off m Hoff. apply field_store_before; lia.
  - eapply (captures_step n i argv e _ e' argc argc' arg rc bs); try done. apply IH in E; [done|lia|by destruct (_ =? _)|].
    destruct (_ =? _); [by apply capture_flags_arguments|done].
Qed.

(** ** Lemmas: the exec record *)
Record task_ok (t : task) (s : agentshield_scope_value) : Prop := {
  tok_u64 : Forall (fits 8) [bpf_ktime_get_ns t; bpf_get_current_cgroup_id t; Scope_instance_id s; Scope_scope_cookie s];
  tok_u32 : Forall (fits 4) [current_ppid t; Scope_profile_id s];
  tok_comm : length (bpf_get_current_comm t) = 16%nat;
  tok_scope : bpf_get_current_cgroup_id t <> 0 /\ Scope_instance_id s <> 0 /\ Scope_scope_cookie s <> 0;
}.
Lemma fits_small n z : 0 <= z < 256 -> (0 < n)%nat -> fits n z.
Proof.
  intros Hz Hn. unfold fits. split; [lia|]. apply Z.lt_le_trans with 256; [lia|]. change 256 with (256 ^ 1) at 1.
  apply Z.pow_le_mono_r; lia.
Qed.
Lemma fits_wrap32 z : fits 4 (wrap32 z).
Proof. unfold fits, wrap32. apply Z.mod_pos_bound. lia. Qed.
Lemma capture_flags_fit fl : fl ∈ capture_flags -> fits 4 fl.
Proof.
  intros H. apply fits_small; [|lia]. revert H. unfold capture_flags. rewrite !elem_of_cons, elem_of_nil.
  intros [->|[->|[->|[->|[]]]]]; vm_compute; split; congruence.
Qed.
(** The fixed fields of any record a tracepoint submits. *)
Lemma traced_raw_ok event_type t s r e :
  task_ok t s -> header r = header (set_syscall (agentshield_fill_common event_type t s (current_ppid t))
                                      (Raw_SyscallFlags e) (Raw_CapturedArgcPlusOne e)) ->
  fits 2 event_type -> fits 4 (Raw_Flags r) -> fits 4 (Raw_SyscallFlags e) -> fits 4 (Raw_CapturedArgcPlusOne e) ->
  length (Raw_Data r) = 256%nat -> raw_ok r.
Proof.
  intros [H64 H32 Hcomm _] Hh Ht Hfl Hsys Hargc Hdata. destruct r as [r1 r2 r3 r4 r5 r6 r7 r8 r9 r10 r11 r12 r13 r14 r15 r16 r17 r18 r19 r20]. unfold header in Hh.
  cbn -[fits replicate] in Hh, Hfl, Hdata. injection Hh as -> -> -> -> -> -> -> -> -> -> -> -> -> -> -> -> -> ->.
  repeat match goal with H : Forall _ (_ :: _) |- _ => apply Forall_cons in H as [? H] end.
  constructor; cbn [Raw_SchemaVersion Raw_EventType Raw_Action Raw_ActionResult Raw_TimestampNS Raw_CgroupID
    Raw_InstanceID Raw_ScopeCookie Raw_PID Raw_TGID Raw_PPID Raw_UID Raw_ProfileID Raw_PolicyID Raw_RuleID Raw_Flags
    Raw_SyscallFlags Raw_CapturedArgcPlusOne Raw_Comm Raw_Data]; [..|done|done];
    repeat (apply Forall_cons_2; [first [assumption|apply fits_wrap32|apply fits_small; unfold KernelActionAudit, ActionResultNone; lia]|]); apply Forall_nil_2.
Qed.

Definition exec_start (t : task) (s : agentshield_scope_value) (filename : Z) : rawKernelEventV3 :=
  let e := agentshield_fill_common EventTypeExecAttempt t s (current_ppid t) in
  let '(read_len, bytes) := bpf_probe_read_user_str AGENTSHIELD_EXEC_EXE_LEN filename in
  let e := set_data e (store_at 0 bytes (Raw_Data e)) in
  if (read_len <? 0) || (read_len =? Z.of_nat AGENTSHIELD_EXEC_EXE_LEN) then set_flags e FLAG_EXECUTABLE else e.
Lemma exec_start_spec t s filename :
  let e := exec_start t s filename in
  header e = header (agentshield_fill_common EventTypeExecAttempt t s (current_ppid t)) /\
  length (Raw_Data e) = 256%nat /\ Raw_Flags e ∈ capture_flags /\ flag_set (Raw_Flags e) FlagArgumentsTruncated = false /\
  (flag_set (Raw_Flags e) FlagExecutableTruncated = false ->
   user_string filename = Some (trimCString (field 0 AGENTSHIELD_EXEC_EXE_LEN (Raw_Data e)))).
Proof.
  unfold exec_start. destruct (bpf_probe_read_user_str AGENTSHIELD_EXEC_EXE_LEN filename) as [rc bs] eqn:E. cbv zeta.
  set (e0 := agentshield_fill_common EventTypeExecAttempt t s (current_ppid t)).
  destruct (read_str_stored _ _ _ _ E) as [Hl _].
  assert (length (store_at 0 bs (Raw_Data e0)) = 256%nat) as Hd
    by (rewrite store_at_length; [done|unfold AGENTSHIELD_EXEC_EXE_LEN in Hl; change (length (Raw_Data e0)) with 256%nat; lia]).
  destruct (Z.ltb_spec rc 0) as [Hneg|Hrc]; cbn [orb].
  - split_and!; try done; try (by vm_compute). unfold capture_flags. right. left.
  - destruct (Z.eqb_spec rc (Z.of_nat AGENTSHIELD_EXEC_EXE_LEN)) as [Eq|Ne].
    + split_and!; try done; try (by vm_compute). unfold capture_flags. right. left.
    + split_and!; try done; try (by vm_compute); [unfold capture_flags; left|]. intros _.
      destruct (stored_string _ _ _ _ 0 (Raw_Data e0) E) as (u & Hu & Hus); [lia|done|].
      destruct (read_str_terminated _ _ _ _ E Hrc) as (_ & _ & _ & Erc). unfold len in Erc.
      change (Raw_Data (set_data e0 (store_at 0 bs (Raw_Data e0)))) with (store_at 0 bs (Raw_Data e0)).
      rewrite Hu. apply Hus. lia.
Qed.

Lemma header_set_syscall e e' argc :
  header e = header e' -> header (set_syscall e (Raw_SyscallFlags e) argc) = header (set_syscall e' (Raw_SyscallFlags e') argc).
Proof. destruct e, e'. unfold header, set_syscall. cbn. intros H. injection H. intros. subst. reflexivity. Qed.

(** The record of an exec attempt and what its flags vouch for. *)
Definition argv_complete (argv : Z) (data : list Z) (argc : Z) : Prop :=
  exists ptrs strs, captured_args argv 0 data ptrs strs /\ len ptrs = argc /\
    bpf_probe_read_user (argv + 8 * len ptrs) = Some 0.
Record exec_vouched (t : task) (s : agentshield_scope_value) (filename argv : Z) (r : rawKernelEventV3) : Prop := {
  ev_raw : raw_ok r;
  ev_accepted : accepted r;
  ev_type : Raw_EventType r = EventTypeExecAttempt;
  ev_scope : Raw_CgroupID r = bpf_get_current_cgroup_id t /\ Raw_InstanceID r = Scope_instance_id s /\
    Raw_ScopeCookie r = Scope_scope_cookie s;
  ev_executable : flag_set (Raw_Flags r) FlagExecutableTruncated = false ->
    user_string filename = Some (trimCString (field 0 AGENTSHIELD_EXEC_EXE_LEN (Raw_Data r)));
  ev_arguments : flag_set (Raw_Flags r) FlagArgumentsTruncated = false ->
    argv_complete argv (Raw_Data r) (Raw_CapturedArgcPlusOne r - 1);
}.
Lemma exec_fixed_fields t s r argc :
  task_ok t s -> 0 <= argc <= 4 ->
  header r = header (set_syscall (agentshield_fill_common EventTypeExecAttempt t s (current_ppid t)) 0 (argc + 1)) ->
  Raw_Flags r ∈ capture_flags -> length (Raw_Data r) = 256%nat ->
  raw_ok r /\ accepted r /\ Raw_EventType r = EventTypeExecAttempt /\
  (Raw_CgroupID r = bpf_get_current_cgroup_id t /\ Raw_InstanceID r = Scope_instance_id s /\ Raw_ScopeCookie r = Scope_scope_cookie s) /\
  Raw_CapturedArgcPlusOne r = argc + 1.
Proof.
  intros Ht Hargc Hr Hfr Hdr.
  assert (raw_ok r) as Hok.
  { apply (traced_raw_ok EventTypeExecAttempt t s r (set_syscall r 0 (argc + 1)));
      [done|done|apply fits_small; unfold EventTypeExecAttempt; lia|by apply capture_flags_fit|apply fits_small; cbn; lia| |done].
    apply fits_small; cbn [Raw_CapturedArgcPlusOne set_syscall]; lia. }
  pose proof (f_equal Raw_SchemaVersion Hr) as V1. pose proof (f_equal Raw_EventType Hr) as V2.
  pose proof (f_equal Raw_CgroupID Hr) as V3. pose proof (f_equal Raw_InstanceID Hr) as V4.
  pose proof (f_equal Raw_ScopeCookie Hr) as V5. pose proof (f_equal Raw_CapturedArgcPlusOne Hr) as V6.
  cbn in V1, V2, V3, V4, V5, V6. destruct Ht as [_ _ _ (Z1 & Z2 & Z3)].
  split_and!; try done. constructor; [done|by rewrite V3, V4, V5| |by rewrite V2]. intros _. rewrite V6. lia.
Qed.
Lemma exec_record_vouched t s filename argv :
  task_ok t s -> exec_vouched t s filename argv (exec_record t s filename argv).
Proof.
  intros Ht. destruct (exec_start_spec t s filename) as (Hh & Hd & Hf & Ha & Hexe).
  assert (exec_record t s filename argv =
    (let '(e, captured_argc) := capture_argv AGENTSHIELD_EXEC_ARG_COUNT 0 argv (exec_start t s filename) 0 in
     let e := set_syscall e (Raw_SyscallFlags e) (captured_argc + 1) in
     if captured_argc =? Z.of_nat AGENTSHIELD_EXEC_ARG_COUNT then
       match bpf_probe_read_user (argv + 8 * Z.of_nat AGENTSHIELD_EXEC_ARG_COUNT) with
       | None => set_flags e FLAG_ARGUMENTS
       | Some arg => if negb (arg =? 0) then set_flags e FLAG_ARGUMENTS else e
       end
     else e)) as ->.
  { unfold exec_record, exec_start. by destruct (bpf_probe_read_user_str AGENTSHIELD_EXEC_EXE_LEN filename). }
  set (e0 := exec_start t s filename) in *.
  destruct (capture_argv AGENTSHIELD_EXEC_ARG_COUNT 0 argv e0 0) as [e argc] eqn:Ec. cbv zeta.
  apply capture_argv_spec in Ec as [Ch Cd Cf Cexe Cbefore Cargc Ccomplete]; [|unfold AGENTSHIELD_EXEC_ARG_COUNT; lia|done|done].
  unfold AGENTSHIELD_EXEC_ARG_COUNT in *. change (Z.of_nat 4) with 4 in *.
  destruct (capture_flags_arguments _ Cf) as (G1 & G2 & G3).
  rewrite Hh in Ch. pose proof (header_set_syscall _ _ (argc + 1) Ch) as He1.
  set (e1 := set_syscall e (Raw_SyscallFlags e) (argc + 1)) in *.
  assert (user_string_ok : forall fl, flag_set fl FlagExecutableTruncated = flag_set (Raw_Flags e) FlagExecutableTruncated ->
    flag_set fl FlagExecutableTruncated = false ->
    user_string filename = Some (trimCString (field 0 AGENTSHIELD_EXEC_EXE_LEN (Raw_Data e)))).
  { intros fl E1 E2. rewrite Cbefore by (unfold slot; lia). apply Hexe. congruence. }
  assert (exec_vouched t s filename argv (set_flags e1 FLAG_ARGUMENTS)) as Hflagged.
  { destruct (exec_fixed_fields t s (set_flags e1 FLAG_ARGUMENTS) argc Ht ltac:(lia) He1 G1 Cd) as (R1 & R2 & R3 & R4 & R5).
    constructor; [done..|by apply user_string_ok|]. intros Hfalse. cbn in Hfalse. by rewrite G2 in Hfalse. }
  assert ((argc = 4 -> bpf_probe_read_user (argv + 8 * 4) = Some 0) -> exec_vouched t s filename argv e1) as Hclean.
  { intros Hlast. destruct (exec_fixed_fields t s e1 argc Ht ltac:(lia) He1 Cf Cd) as (R1 & R2 & R3 & R4 & R5).
    constructor; [done..|by apply user_string_ok|]. rewrite R5, Z.add_simpl_r. intros Hfalse.
    destruct (Ccomplete Hfalse) as (_ & ptrs & strs & Hcap & Hlen & Hnull). rewrite Z.sub_0_r in Hlen.
    exists ptrs, strs. split_and!; [done|done|].
    destruct (Z.eq_dec argc 4) as [E4|E4]; [rewrite Hlen, E4; auto|]. rewrite <-Hnull by lia. f_equal. }
  destruct (Z.eqb_spec argc 4) as [E4|E4]; [|by apply Hclean].
  destruct (bpf_probe_read_user (argv + 8 * 4)) as [arg|] eqn:Earg; [|done].
  destruct (Z.eqb_spec arg 0) as [->|]; [|done]. cbn [negb]. by apply Hclean.
Qed.

(** ** Lemmas: the open and connect records *)
Record open_vouched (t : task) (s : agentshield_scope_value) (filename flags : Z) (r : rawKernelEventV3) : Prop := {
  ov_raw : raw_ok r;
  ov_accepted : accepted r;
  ov_type : Raw_EventType r = EventTypeFileOpen;
  ov_flags : Raw_SyscallFlags r = wrap32 flags;
  ov_path : flag_set (Raw_Flags r) FlagTruncated = false -> user_string filename = Some (trimCString (Raw_Data r));
}.
Lemma open_record_vouched t s filename flags :
  task_ok t s -> open_vouched t s filename flags (open_record t s filename flags).
Proof.
  intros Ht. unfold open_record. destruct (bpf_probe_read_user_str AGENTSHIELD_DATA_LEN filename) as [rc bs] eqn:E. cbv zeta.
  set (e0 := set_syscall _ _ _). destruct (read_str_stored _ _ _ _ E) as [Hl _].
  assert (length (store_at 0 bs (Raw_Data e0)) = 256%nat) as Hd
    by (rewrite store_at_length; [done|unfold AGENTSHIELD_DATA_LEN in Hl; change (length (Raw_Data e0)) with 256%nat; lia]).
  assert (forall r, header r = header e0 -> fits 4 (Raw_Flags r) -> length (Raw_Data r) = 256%nat ->
    (flag_set (Raw_Flags r) FlagTruncated = false -> user_string filename = Some (trimCString (Raw_Data r))) ->
    open_vouched t s filename flags r) as Hv.
  { intros r Hr Hfl Hdr Hp. constructor; [| |exact (f_equal Raw_EventType Hr)|exact (f_equal Raw_SyscallFlags Hr)|done].
    - apply (traced_raw_ok EventTypeFileOpen t s r (set_syscall r (wrap32 flags) 0));
        [done|done|apply fits_small; unfold EventTypeFileOpen; lia|done|apply fits_wrap32|apply fits_small; cbn; lia|done].
    - destruct Ht as [_ _ _ (Z1 & Z2 & Z3)]. pose proof (f_equal Raw_EventType Hr) as V2.
      pose proof (f_equal Raw_CgroupID Hr) as V3. pose proof (f_equal Raw_InstanceID Hr) as V4.
      pose proof (f_equal Raw_ScopeCookie Hr) as V5. cbn in V2, V3, V4, V5.
      constructor; [exact (f_equal Raw_SchemaVersion Hr)|by rewrite V3, V4, V5|by rewrite V2..]. }
  destruct (Z.ltb_spec rc 0) as [Hneg|Hrc]; cbn [orb];
    [apply Hv; [done|apply fits_small; [vm_compute; split; congruence|lia]|done|intros H; by vm_compute in H]|].
  destruct (Z.eqb_spec rc (Z.of_nat AGENTSHIELD_DATA_LEN)) as [Eq|Ne];
    [apply Hv; [done|apply fits_small; [vm_compute; split; congruence|lia]|done|intros H; by vm_compute in H]|].
  apply Hv; [done|apply fits_small; [vm_compute; split; congruence|lia]|done|]. intros _.
  destruct (stored_string _ _ _ _ 0 (Raw_Data e0) E) as (u & Hu & Hus); [lia|done|].
  destruct (read_str_terminated _ _ _ _ E Hrc) as (_ & _ & _ & Erc). unfold len in Erc.
  change (Raw_Data (set_data e0 (store_at 0 bs (Raw_Data e0)))) with (store_at 0 bs (Raw_Data e0)).
  rewrite <-(take_ge (store_at 0 bs (Raw_Data e0)) AGENTSHIELD_DATA_LEN) by (rewrite Hd; done).
  rewrite take_field, Hu. apply Hus. lia.
Qed.
End Capture.

(** ** Properties *)
(** The text user space shows for captured bytes. *)
Definition text (bytes : list Z) : string :=
  if utf8_valid (bytes_to_string bytes) then bytes_to_string bytes else base64 bytes.
Lemma cleanCString_text v : (cleanCString v).1 = text (trimCString v).
Proof. unfold cleanCString, text. by destruct (utf8_valid _). Qed.

(** The argument vector at [argv]: non-null pointers up to a null one. *)
Definition argv_at {UM : UserMemory} (argv : Z) (ptrs : list Z) : Prop :=
  (forall j p, ptrs !! j = Some p -> bpf_probe_read_user (argv + 8 * Z.of_nat j) = Some p /\ p <> 0) /\
  bpf_probe_read_user (argv + 8 * len ptrs) = Some 0.

(** C12: an exec attempt in scope reaches user space honestly.  For a task
    whose kernel fields have their widths and whose scope identity is not zero
    ([task_ok]), with room in the ring buffer, the tracepoint submits one record, which decodes; the event
    names the scope of the task, and unless it is marked truncated its
    executable is the whole path and its arguments are the whole argument
    vector of the system call. *)
Theorem exec_attempt_reported {UM : UserMemory} {user_string} `{!UserMemoryLaws UM user_string} t s filename argv k :
  task_ok t s -> agentshield_current_scope k t = Some s -> ring_room t = true ->
  exists r e,
    agentshield_events (agentshield_trace_execve t filename argv k) = agentshield_events k ++ [r] /\
    DecodeKernelEvent (write_raw r) = Ok e /\ Event_EventType e = EventTypeExecAttempt /\
    Event_CgroupID e = bpf_get_current_cgroup_id t /\ Event_InstanceID e = Scope_instance_id s /\
    Event_ScopeCookie e = Scope_scope_cookie s /\
    (Event_ExecutableTruncated e = false -> exists path, user_string filename = Some path /\ Event_Data e = text path) /\
    (Event_ArgumentsTruncated e = false ->
     exists ptrs strs, argv_at argv ptrs /\ Forall2 (fun p a => user_string p = Some a) ptrs strs /\ Event_Argv e = map text strs).
Proof.
  intros Ht Hs Hroom. destruct (exec_record_vouched t s filename argv Ht) as [Hok Hacc Htype (S1 & S2 & S3) Hexe Hargs].
  set (r := exec_record t s filename argv) in *. exists r.
  pose proof (decode_raw_spec r Hok (acc_version _ Hacc)) as Hdec. rewrite (DecodeKernelEvent_write r Hok (acc_version _ Hacc)).
  destruct (decode_raw r) as [e|]; [|by destruct Hdec]. destruct Hdec as [_ [Hhead _ _ [Hc1 Hc2] Hexec _ _]]. exists e.
  destruct (Hexec Htype) as (Hdata & Hargv & _ & _). injection Hhead as _ He1 _ _ _ He2 He3 He4 _ _ _ _ _ _ _ _ _.
  split_and!; try congruence.
  - unfold agentshield_trace_execve. rewrite Hs. unfold agentshield_reserve_event. by rewrite Hroom.
  - intros Hf. eexists. split; [apply Hexe|].
    + destruct (flag_set (Raw_Flags r) FlagExecutableTruncated); [by rewrite Hc1 in Hf|done].
    + by rewrite Hdata, cleanCString_text, take_field.
  - intros Hf. destruct Hargs as (ptrs & strs & [Hp Hstrs Hslots] & Hlen & Hnull).
    { destruct (flag_set (Raw_Flags r) FlagArgumentsTruncated); [by rewrite Hc2 in Hf|done]. }
    exists ptrs, strs. split_and!; [by split|done|]. rewrite Hargv.
    assert (captured r = length strs) as -> by (unfold captured; rewrite <-Hlen, <-(Forall2_length _ _ _ Hstrs); unfold len; lia).
    apply list_eq. intros i. rewrite !list_lookup_fmap. destruct (decide (i < length strs)%nat) as [Hi|Hi].
    + rewrite lookup_seq_lt by done. destruct (lookup_lt_is_Some_2 strs i Hi) as [u Hu]. rewrite Hu. cbn [fmap option_fmap option_map].
      f_equal. unfold argv_slot. rewrite cleanCString_text. f_equal. exact (Hslots i u Hu).
    + rewrite lookup_seq_ge by lia. by rewrite lookup_ge_None_2 by lia.
Qed.

(** An open in scope reaches user space honestly: the decoded event
    carries the flags of the system call and, unless marked truncated, the
    whole path. *)
Theorem file_open_reported {UM : UserMemory} {user_string} `{!UserMemoryLaws UM user_string} t s filename flags k :
  task_ok t s -> agentshield_current_scope k t = Some s -> ring_room t = true ->
  exists r e,
    agentshield_events (agentshield_trace_openat t filename flags k) = agentshield_events k ++ [r] /\
    DecodeKernelEvent (write_raw r) = Ok e /\ Event_EventType e = EventTypeFileOpen /\
    Event_SyscallFlags e = wrap32 flags /\
    (Event_Truncated e = false -> exists path, user_string filename = Some path /\ Event_Data e = text path).
Proof.
  intros Ht Hs Hroom. destruct (open_record_vouched t s filename flags Ht) as [Hok Hacc Htype Hflags Hpath].
  set (r := open_record t s filename flags) in *. exists r.
  pose proof (decode_raw_spec r Hok (acc_version _ Hacc)) as Hdec. rewrite (DecodeKernelEvent_write r Hok (acc_version _ Hacc)).
  destruct (decode_raw r) as [e|]; [|by destruct Hdec]. destruct Hdec as [_ [Hhead _ Htr _ _ _ Hother]]. exists e.
  injection Hhead as _ He1 _ _ _ _ _ _ _ _ _ _ _ _ _ _ He2. split_and!; try congruence.
  - unfold agentshield_trace_openat. rewrite Hs. unfold agentshield_reserve_event. by rewrite Hroom.
  - intros Hf. eexists. split; [apply Hpath; congruence|].
    by rewrite Hother, cleanCString_text by (rewrite Htype; done).
Qed.

(** ** The connect record *)
Record payload_ok (p : rawNetworkPayloadV2) : Prop := {
  pok_address : length (Payload_DestinationAddress p) = 16%nat;
  pok_port : fits 2 (Payload_DestinationPort p);
  pok_family : fits 2 (Payload_AddressFamily p);
  pok_protocol : fits 1 (Payload_Protocol p);
  pok_reserved : length (Payload_Reserved p) = 3%nat;
}.
Lemma read_write_network p : payload_ok p -> read_network (write_network p) = p.
Proof.
  intros [Ha Hp Hf Hq Hr]. destruct p as [a port f q r].
  unfold read_network, write_network. cbn [Payload_DestinationAddress Payload_DestinationPort Payload_AddressFamily Payload_Protocol Payload_Reserved] in *.
  assert (forall off n l, field (16 + off) n (a ++ l) = field off n l) as Hskip
    by (intros; rewrite field_skip by lia; f_equal; lia).
  f_equal; [by apply field_head|apply (eq_trans (y := le_val (le_bytes 2 port)))|apply (eq_trans (y := le_val (le_bytes 2 f)))
           |apply (eq_trans (y := le_val (le_bytes 1 q)))|]; try by apply le_val_bytes.
  - f_equal. rewrite (Hskip 0%nat). by apply field_head.
  - f_equal. rewrite (Hskip 2%nat). repeat skip_field. by apply field_head.
  - f_equal. rewrite (Hskip 4%nat). repeat skip_field. by apply field_head.
  - rewrite (Hskip 5%nat). repeat skip_field. unfold field. rewrite drop_0. apply take_ge. lia.
Qed.
Lemma write_network_length p : payload_ok p -> length (write_network p) = networkPayloadSize.
Proof. intros [Ha _ _ _ Hr]. unfold write_network. rewrite !length_app, !le_bytes_length, Ha, Hr. done. Qed.
Lemma ntohs_fits port : fits 2 (bpf_ntohs port).
Proof.
  unfold fits, bpf_ntohs. change (256 ^ Z.of_nat 2) with 65536.
  pose proof (Z.mod_pos_bound port 256). pose proof (Z.mod_pos_bound (port / 256) 256). lia.
Qed.
Lemma connect_payload_ok ctx f : family_known f -> payload_ok (connect_payload ctx f).
Proof.
  intros Hf. constructor; cbn [connect_payload Payload_DestinationAddress Payload_DestinationPort Payload_AddressFamily Payload_Protocol Payload_Reserved].
  - apply copy_destination_ok.
  - apply ntohs_fits.
  - apply fits_small; [|lia]. unfold AddressFamilyIPv4, AddressFamilyIPv6 in *. destruct Hf as [-> | ->]; unfold AddressFamilyIPv4, AddressFamilyIPv6; lia.
  - apply fits_small; unfold KernelProtocolTCP; lia.
  - done.
Qed.
Definition profile_ok (p : ebpfNetworkProfile) : Prop := fits 4 (Profile_PolicyID p) /\ fits 4 (Profile_RuleID p).
Definition connect_result (p : ebpfNetworkProfile) (blocked : bool) : Z :=
  if default_deny p then if blocked then ActionResultBlocked else ActionResultAllowed else ActionResultNone.

Lemma connect_record_network t s p blocked ctx f :
  family_known f -> network_of (connect_record t s p blocked ctx f) = connect_payload ctx f.
Proof.
  intros Hf. unfold network_of, connect_record. cbn [Raw_Data set_data].
  unfold store_at. rewrite take_0. cbn [app]. rewrite take_app_length'; [by apply read_write_network, connect_payload_ok|]. by rewrite write_network_length by by apply connect_payload_ok.
Qed.
Lemma connect_record_fields t s p blocked ctx f :
  task_ok t s -> profile_ok p -> family_known f ->
  let r := connect_record t s p blocked ctx f in
  raw_ok r /\ accepted r /\ Raw_EventType r = EventTypeNetConnect /\ Raw_ActionResult r = connect_result p blocked /\
  Raw_Action r = (if default_deny p then KernelActionBlock else KernelActionAudit).
Proof.
  intros [H64 H32 Hcomm (Z1 & Z2 & Z3)] [Hp1 Hp2] Hf. pose proof (connect_record_network t s p blocked ctx f Hf) as Hn.
  assert (length (Raw_Data (connect_record t s p blocked ctx f)) = 256%nat) as Hd.
  { unfold connect_record. cbn [Raw_Data set_data]. rewrite store_at_length; [by destruct (default_deny p)|].
    rewrite write_network_length by by apply connect_payload_ok. destruct (default_deny p); cbn; unfold networkPayloadSize; lia. }
  cbv zeta. split_and!.
  - revert Hd. unfold connect_record, connect_result. intros Hd.
    repeat match goal with H : Forall _ (_ :: _) |- _ => apply Forall_cons in H as [? H] end.
    destruct (default_deny p), blocked; cbn -[fits store_at write_network] in Hd |- *;
      (constructor; cbn -[fits store_at write_network Z.lor]; [..|done|done]);
      repeat (apply Forall_cons_2; [first [assumption|apply fits_wrap32|apply fits_small; [vm_compute; split; congruence|lia]]|]);
      apply Forall_nil_2.
  - constructor; try by (unfold connect_record; destruct (default_deny p)).
    intros _. rewrite Hn. split; [|done]. destruct Hf as [-> | ->]; [left|right; left].
  - unfold connect_record. by destruct (default_deny p).
  - unfold connect_record, connect_result. by destruct (default_deny p), blocked.
  - unfold connect_record. by destruct (default_deny p).
Qed.

(** A TCP connection attempt in scope is reported as it was decided: the
    submitted record decodes to an event with the destination, port and family
    of the socket call, and its action result is [blocked] exactly when the
    hook refuses the connection under a default-deny profile, [allowed] when
    such a profile lets it through, and [none] without one. *)
Theorem connect_reported t s ctx f k :
  task_ok t s -> agentshield_current_scope k t = Some s -> ring_room t = true -> family_known f ->
  sock_protocol ctx = KernelProtocolTCP -> profile_ok (applied_profile k s) ->
  exists r e,
    agentshield_events (agentshield_audit_connect t ctx f k).1 = agentshield_events k ++ [r] /\
    DecodeKernelEvent (write_raw r) = Ok e /\ Event_EventType e = EventTypeNetConnect /\
    Event_DestinationIP e = Addr_String (sock_address ctx f) /\ Event_DestinationPort e = bpf_ntohs (user_port ctx) /\
    Event_AddressFamily e = f /\
    Event_ActionResult e = (if default_deny (applied_profile k s)
                            then if (agentshield_audit_connect t ctx f k).2 =? 0 then ActionResultBlocked else ActionResultAllowed
                            else ActionResultNone) /\
    (default_deny (applied_profile k s) = false -> (agentshield_audit_connect t ctx f k).2 = 1).
Proof.
  intros Ht Hs Hroom Hf Htcp Hp. unfold agentshield_audit_connect. rewrite Htcp, Z.eqb_refl, Hs. cbn [negb]. cbv zeta.
  set (blocked := if default_deny _ then negb _ else false). unfold agentshield_reserve_event. rewrite Hroom. cbv iota.
  destruct (connect_record_fields t s (applied_profile k s) blocked ctx f Ht Hp Hf) as (Hok & Hacc & Htype & Hres & _).
  pose proof (connect_record_network t s (applied_profile k s) blocked ctx f Hf) as Hn.
  set (r := connect_record t s (applied_profile k s) blocked ctx f) in *. exists r.
  pose proof (decode_raw_spec r Hok (acc_version _ Hacc)) as Hdec. rewrite (DecodeKernelEvent_write r Hok (acc_version _ Hacc)).
  destruct (decode_raw r) as [e|]; [|by destruct Hdec]. destruct Hdec as [_ [Hhead _ _ _ _ Hnet _]]. exists e.
  destruct (Hnet Htype) as (N1 & N2 & N3 & _). rewrite Hn in N1, N2, N3.
  injection Hhead as _ He1 _ He2 _ _ _ _ _ _ _ _ _ _ _ _ _.
  split_and!; [done|done|exact (eq_trans He1 Htype)|done..| |].
  - rewrite (eq_trans He2 Hres). unfold connect_result. by destruct (default_deny _), blocked.
  - intros E. unfold blocked. by rewrite E.
Qed.

(** ** Accounting *)
Inductive kernel_op :=
| OpExec (t : task) (filename argv : Z)
| OpOpen (t : task) (filename flags : Z)
| OpConnect (t : task) (ctx : bpf_sock_addr) (f : Z).
Definition op_task (op : kernel_op) : task :=
  match op with OpExec t _ _ | OpOpen t _ _ | OpConnect t _ _ => t end.
Definition op_type (op : kernel_op) : Z :=
  match op with OpExec _ _ _ => EventTypeExecAttempt | OpOpen _ _ _ => EventTypeFileOpen | OpConnect _ _ _ => EventTypeNetConnect end.
Definition run_op `{UserMemory} (k : kernel) (op : kernel_op) : kernel :=
  match op with
  | OpExec t filename argv => agentshield_trace_execve t filename argv k
  | OpOpen t filename flags => agentshield_trace_openat t filename flags k
  | OpConnect t ctx f => (agentshield_audit_connect t ctx f k).1
  end.
(** The invocations that must be accounted for: in a registered scope, and
    TCP for a connection. *)
Definition observed_op (scopes : gmap Z agentshield_scope_value) (op : kernel_op) : bool :=
  match op with OpConnect _ ctx _ => sock_protocol ctx =? KernelProtocolTCP | _ => true end &&
  bool_decide (is_Some (scopes !! bpf_get_current_cgroup_id (op_task op))).
Definition count {A} (f : A -> bool) (l : list A) : Z := len (List.filter f l).
Definition of_type (ty : Z) (e : rawKernelEventV3) : bool := Raw_EventType e =? ty.
Definition lost (scopes : gmap Z agentshield_scope_value) (ty : Z) (op : kernel_op) : bool :=
  observed_op scopes op && (op_type op =? ty) && negb (ring_room (op_task op)).
Definition seen (scopes : gmap Z agentshield_scope_value) (ty : Z) (op : kernel_op) : bool :=
  observed_op scopes op && (op_type op =? ty).

Lemma count_app {A} (f : A -> bool) l l' : count f (l ++ l') = count f l + count f l'.
Proof. unfold count. by rewrite List.filter_app, len_app. Qed.
Lemma count_nil {A} (f : A -> bool) : count f [] = 0.
Proof. done. Qed.
Lemma count_one {A} (f : A -> bool) x : count f [x] = if f x then 1 else 0.
Proof. unfold count. cbn. by destruct (f x). Qed.
Lemma exec_record_type `{UserMemory} t s filename argv : Raw_EventType (exec_record t s filename argv) = EventTypeExecAttempt.
Proof.
  assert (forall n i e argc, Raw_EventType (capture_argv n i argv e argc).1 = Raw_EventType e) as Hc.
  { induction n as [|n IH]; intros i e argc; cbn [capture_argv]; [done|].
    destruct (bpf_probe_read_user _) as [arg|]; [|done]. destruct (arg =? 0); [done|].
    destruct (bpf_probe_read_user_str _ arg) as [rc bs]. destruct (rc <? 0); [done|]. rewrite IH. by destruct (_ =? _). }
  unfold exec_record. destruct (bpf_probe_read_user_str _ filename) as [rc bs].
  match goal with |- context [capture_argv ?n ?i argv ?e ?c] => specialize (Hc n i e c) end.
  destruct (capture_argv _ _ _ _ _) as [e argc]. cbn [fst] in Hc.
  assert (Raw_EventType e = EventTypeExecAttempt) as He by (rewrite Hc; by destruct (_ || _)).
  destruct (argc =? _); [|done]. destruct (bpf_probe_read_user _) as [arg|]; [|done]. by destruct (negb _).
Qed.
Lemma open_record_type `{UserMemory} t s filename flags : Raw_EventType (open_record t s filename flags) = EventTypeFileOpen.
Proof. unfold open_record. destruct (bpf_probe_read_user_str _ filename) as [rc bs]. by destruct (_ || _). Qed.
Lemma connect_record_type t s p blocked ctx f : Raw_EventType (connect_record t s p blocked ctx f) = EventTypeNetConnect.
Proof. unfold connect_record. by destruct (default_deny p). Qed.

(** One invocation: nothing if it is not observed, else one record or one
    count of a loss. *)
Lemma run_op_spec `{UserMemory} k op :
  run_op k op = k /\ observed_op (agentshield_scope_map k) op = false \/
  observed_op (agentshield_scope_map k) op = true /\
  exists r, Raw_EventType r = op_type op /\
    run_op k op = mkKernel (agentshield_scope_map k) (agentshield_network k)
      (agentshield_increment_stat (if ring_room (op_task op) then 0 else 16) (op_type op) (agentshield_stats_map k))
      (agentshield_events k ++ if ring_room (op_task op) then [r] else []).
Proof.
  destruct op as [t filename argv|t filename flags|t ctx f]; cbn [run_op op_task op_type]; unfold observed_op; cbn [op_task].
  - unfold agentshield_trace_execve, agentshield_current_scope. destruct (_ !! _) as [s|]; [right|by left].
    split; [done|]. exists (exec_record t s filename argv). split; [apply exec_record_type|].
    unfold agentshield_reserve_event. destruct (ring_room t); [done|]. by rewrite app_nil_r.
  - unfold agentshield_trace_openat, agentshield_current_scope. destruct (_ !! _) as [s|]; [right|by left].
    split; [done|]. exists (open_record t s filename flags). split; [apply open_record_type|].
    unfold agentshield_reserve_event. destruct (ring_room t); [done|]. by rewrite app_nil_r.
  - unfold agentshield_audit_connect, agentshield_current_scope. destruct (sock_protocol ctx =? KernelProtocolTCP); [|by left].
    cbn [negb andb]. destruct (_ !! _) as [s|]; [right|by left]. split; [done|]. eexists. split; [apply connect_record_type|].
    unfold agentshield_reserve_event. destruct (ring_room t); [reflexivity|]. by rewrite app_nil_r.
Qed.

Definition initial_kernel (scopes : gmap Z agentshield_scope_value) (m : network_maps) : kernel :=
  mkKernel scopes m (replicate AGENTSHIELD_STATS_SLOTS 0) [].
Record accounted (scopes : gmap Z agentshield_scope_value) (ops : list kernel_op) (k : kernel) : Prop := {
  acc_scopes : agentshield_scope_map k = scopes;
  acc_slots : length (agentshield_stats_map k) = AGENTSHIELD_STATS_SLOTS;
  acc_total ty : 1 <= ty <= 3 ->
    agentshield_stats_map k !! Z.to_nat ty = Some (wrap64 (count (of_type ty) (agentshield_events k)));
  acc_dropped ty : 1 <= ty <= 3 ->
    agentshield_stats_map k !! Z.to_nat (16 + ty) = Some (wrap64 (count (lost scopes ty) ops));
  acc_sum ty : 1 <= ty <= 3 ->
    count (seen scopes ty) ops = count (of_type ty) (agentshield_events k) + count (lost scopes ty) ops;
  acc_rest i : (i < 32)%nat -> ~ (1 <= Z.of_nat i <= 3 \/ 17 <= Z.of_nat i <= 19) -> agentshield_stats_map k !! i = Some 0;
}.

Lemma increment_stat_spec base ty stats :
  0 <= base + ty < 32 -> length stats = AGENTSHIELD_STATS_SLOTS ->
  length (agentshield_increment_stat base ty stats) = AGENTSHIELD_STATS_SLOTS /\
  forall i c, stats !! i = Some c ->
    agentshield_increment_stat base ty stats !! i = Some (if bool_decide (i = Z.to_nat (base + ty)) then wrap64 (c + 1) else c).
Proof.
  intros Hb Hl. unfold agentshield_increment_stat.
  destruct (lookup_lt_is_Some_2 stats (Z.to_nat (base + ty))) as [c Hc]; [rewrite Hl; unfold AGENTSHIELD_STATS_SLOTS; lia|].
  rewrite Hc. split; [by rewrite length_insert|]. intros i d Hd. case_bool_decide as E.
  - subst i. rewrite list_lookup_insert_eq by (by eapply lookup_lt_Some). congruence.
  - by rewrite list_lookup_insert_ne by congruence.
Qed.
Lemma wrap64_succ z : wrap64 (wrap64 z + 1) = wrap64 (z + 1).
Proof. unfold wrap64. by rewrite Zplus_mod_idemp_l. Qed.
Lemma accounted_step `{UserMemory} scopes ops k op :
  accounted scopes ops k -> accounted scopes (ops ++ [op]) (run_op k op).
Proof.
  intros [Hs Hl Ht Hd Hsum Hrest]. destruct (run_op_spec k op) as [[-> Hno]|(Hyes & r & Hr & ->)]; rewrite Hs in *.
  - assert (forall ty, lost scopes ty op = false /\ seen scopes ty op = false) as Hz by (intros ty; unfold lost, seen; by rewrite Hno).
    constructor; [done|done|..|done]; intros ty Hty; destruct (Hz ty) as [Z1 Z2]; rewrite ?count_app, ?count_one, ?Z1, ?Z2, ?Z.add_0_r; auto.
  - assert (1 <= op_type op <= 3) as Hop
      by (destruct op; unfold op_type, EventTypeExecAttempt, EventTypeFileOpen, EventTypeNetConnect; lia).
    destruct (increment_stat_spec (if ring_room (op_task op) then 0 else 16) (op_type op) (agentshield_stats_map k)) as [Hl' Hi];
      [destruct (ring_room _); lia|done|].
    assert (forall ty, seen scopes ty op = (op_type op =? ty) /\
      lost scopes ty op = (op_type op =? ty) && negb (ring_room (op_task op))) as Hz by (intros ty; unfold lost, seen; by rewrite Hyes).
    assert (forall ty, of_type ty r = (op_type op =? ty)) as Ho by (intros ty; unfold of_type; by rewrite Hr).
    constructor; cbn [agentshield_scope_map agentshield_stats_map agentshield_events]; [done|done|..|];
      [intros ty Hty; destruct (Hz ty) as [Z1 Z2]..|].
    + rewrite (Hi _ _ (Ht ty Hty)), count_app. f_equal. destruct (ring_room (op_task op)).
      * rewrite count_one. rewrite Ho. case_bool_decide as Ei.
        -- rewrite (proj2 (Z.eqb_eq _ _)) by lia. by rewrite wrap64_succ.
        -- rewrite (proj2 (Z.eqb_neq _ _)) by lia. by rewrite Z.add_0_r.
      * rewrite bool_decide_eq_false_2 by lia. by rewrite Z.add_0_r.
    + rewrite (Hi _ _ (Hd ty Hty)), count_app, count_one, Z2. f_equal. destruct (ring_room (op_task op)); cbn [negb].
      * rewrite bool_decide_eq_false_2 by lia. by rewrite andb_false_r, Z.add_0_r.
      * rewrite andb_true_r. case_bool_decide as Ei.
        -- rewrite (proj2 (Z.eqb_eq _ _)) by lia. by rewrite wrap64_succ.
        -- rewrite (proj2 (Z.eqb_neq _ _)) by lia. by rewrite Z.add_0_r.
    + rewrite !count_app, !count_one, Z1, Z2, (Hsum ty Hty). destruct (ring_room (op_task op)); cbn [negb].
      * rewrite count_one. rewrite Ho. destruct (op_type op =? ty); cbn; lia.
      * rewrite count_nil. destruct (op_type op =? ty); cbn; lia.
    + intros i Hi32 Hi'. rewrite (Hi _ _ (Hrest i Hi32 Hi')). rewrite bool_decide_eq_false_2; [done|].
      destruct (ring_room (op_task op)); lia.
Qed.

Lemma accounted_run `{UserMemory} scopes m ops : accounted scopes ops (foldl run_op (initial_kernel scopes m) ops).
Proof.
  induction ops as [|op ops IH] using rev_ind.
  - constructor; try done; intros t Ht; cbn [foldl initial_kernel agentshield_stats_map agentshield_events count List.filter];
      intros; rewrite ?lookup_replicate_2 by (unfold AGENTSHIELD_STATS_SLOTS; lia); done.
  - rewrite foldl_app. cbn [foldl]. by apply accounted_step.
Qed.

(** C13: no silent loss.  After any sequence of program invocations from
    freshly loaded maps, for every event type the total counter is the number
    of submitted records and the drop counter the number of observed
    invocations without a record (both at 64 bits), and together they account
    for every invocation of that type in a registered scope. *)
Theorem kernel_accounting `{UserMemory} scopes m ops ty :
  1 <= ty <= 3 ->
  let k := foldl run_op (initial_kernel scopes m) ops in
  agentshield_stats_map k !! Z.to_nat ty = Some (wrap64 (count (of_type ty) (agentshield_events k))) /\
  agentshield_stats_map k !! Z.to_nat (16 + ty) = Some (wrap64 (count (lost scopes ty) ops)) /\
  count (seen scopes ty) ops = count (of_type ty) (agentshield_events k) + count (lost scopes ty) ops.
Proof.
  intros Hty. cbv zeta. destruct (accounted_run scopes m ops) as [_ _ Ht Hd Hs _]. auto.
Qed.

(** ** A concrete memory *)
Section Table.
Context (strings : list (Z * list Z)) (pointers : list (Z * Z)).
Definition assoc {A} (l : list (Z * A)) (k : Z) : option A := snd <$> List.find (fun kv => kv.1 =? k) l.
Definition table_read_str (n : nat) (ptr : Z) : Z * list Z :=
  match assoc strings ptr, n with
  | Some s, S n' => if bool_decide (length s < n)%nat then (len s + 1, s ++ [0]) else (Z.of_nat n, take n' s ++ [0])
  | _, _ => (-14, [])
  end.
#[local] Instance table_memory : UserMemory :=
  {| bpf_probe_read_user_str := table_read_str; bpf_probe_read_user := assoc pointers |}.
Lemma table_laws :
  Forall (fun kv => Forall (fun b => 0 < b < 256) kv.2) strings -> UserMemoryLaws table_memory (assoc strings).
Proof.
  intros Hs.
  assert (forall ptr s, assoc strings ptr = Some s -> Forall (fun b => 0 < b < 256) s) as Hok.
  { intros ptr s. unfold assoc. destruct (List.find _ strings) as [[k u]|] eqn:E; [|done]. intros [= <-].
    apply find_elem in E as [E _]. rewrite Forall_forall in Hs. exact (Hs _ E). }
  assert (forall l, Forall (fun b => 0 < b < 256) l -> Forall is_byte (l ++ [0])) as Hbyte.
  { intros l Hl. apply Forall_app_2; [|apply Forall_singleton; unfold is_byte; lia]. eapply Forall_impl; [exact Hl|]. unfold is_byte. lia. }
  assert (forall l, Forall (fun b => 0 < b < 256) l -> Forall (fun b => b <> 0) l) as Hnz.
  { intros l Hl. eapply Forall_impl; [exact Hl|]. cbn. lia. }
  split; cbn; unfold table_read_str; intros n ptr rc x E; destruct (assoc strings ptr) as [s|] eqn:Es, n as [|n];
    try (injection E as <- <-; split; [cbn; lia|constructor]); try (injection E as <- E; lia).
  - specialize (Hok _ _ Es). case_bool_decide; injection E as <- <-; rewrite length_app, ?length_take; cbn.
    + split; [lia|auto].
    + split; [lia|]. by apply Hbyte, Forall_take.
  - specialize (Hok _ _ Es). case_bool_decide; injection E as <- <-; intros _; eexists; (split; [reflexivity|]);
      (split; [auto using Forall_take|]); unfold len; rewrite length_app, ?length_take; cbn; lia.
  - case_bool_decide; injection E as <- E; [|lia]. intros _. apply app_inj_tail in E as [-> _]. done.
Qed.
End Table.

Definition demo_strings : list (Z * list Z) :=
  [(100, string_bytes "/bin/sh"); (200, string_bytes "sh"); (300, string_bytes "-c")].
Definition demo_pointers : list (Z * Z) := [(1000, 200); (1008, 300); (1016, 0)].
#[local] Instance demo_memory : UserMemory := table_memory demo_strings demo_pointers.
Lemma demo_memory_laws : UserMemoryLaws demo_memory (assoc demo_strings).
Proof. apply table_laws. repeat constructor. Qed.
Lemma demo_task_ok : task_ok demo_task (mkScopeValue 5 9 1 0).
Proof.
  constructor; cbn [demo_task bpf_ktime_get_ns bpf_get_current_cgroup_id Scope_instance_id Scope_scope_cookie Scope_profile_id current_ppid];
    [repeat (apply Forall_cons_2; [vm_compute; split; congruence|]); apply Forall_nil_2..|reflexivity|lia].
Qed.

Lemma exec_attempt_reported_witness :
  exists r e, agentshield_events (agentshield_trace_execve demo_task 100 1000 (demo_kernel empty_maps)) = [r] /\
    DecodeKernelEvent (write_raw r) = Ok e /\
    (Event_ArgumentsTruncated e = false ->
     exists ptrs strs, argv_at 1000 ptrs /\ Forall2 (fun p a => assoc demo_strings p = Some a) ptrs strs /\ Event_Argv e = map text strs).
Proof.
  pose proof demo_memory_laws as HL.
  destruct (exec_attempt_reported demo_task (mkScopeValue 5 9 1 0) 100 1000 (demo_kernel empty_maps) demo_task_ok ltac:(vm_compute; reflexivity) eq_refl)
    as (r & e & H1 & H2 & _ & _ & _ & _ & _ & H3).
  exists r, e. split; [exact H1|]. split; [exact H2|exact H3].
Defined.
Lemma file_open_reported_witness :
  exists r e, agentshield_events (agentshield_trace_openat demo_task 100 577 (demo_kernel empty_maps)) = [r] /\
    DecodeKernelEvent (write_raw r) = Ok e /\ Event_SyscallFlags e = 577.
Proof.
  pose proof demo_memory_laws as HL.
  destruct (file_open_reported demo_task (mkScopeValue 5 9 1 0) 100 577 (demo_kernel empty_maps) demo_task_ok ltac:(vm_compute; reflexivity) eq_refl)
    as (r & e & H1 & H2 & _ & H3 & _).
  exists r, e. split; [exact H1|]. split; [exact H2|exact H3].
Defined.
Lemma connect_reported_witness :
  exists r e, agentshield_events (agentshield_connect4 demo_task demo_sock (demo_kernel empty_maps)).1 = [r] /\
    DecodeKernelEvent (write_raw r) = Ok e /\ Event_DestinationIP e = "10.0.0.5" /\ Event_DestinationPort e = 443.
Proof.
  destruct (connect_reported demo_task (mkScopeValue 5 9 1 0) demo_sock AddressFamilyIPv4 (demo_kernel empty_maps) demo_task_ok
    ltac:(vm_compute; reflexivity) eq_refl (or_introl eq_refl) eq_refl
    ltac:(split; vm_compute; split; congruence)) as (r & e & H1 & H2 & _ & H3 & H4 & _).
  exists r, e. split; [exact H1|]. split; [exact H2|]. rewrite H3, H4. split; vm_compute; reflexivity.
Defined.
Lemma kernel_accounting_witness :
  let t := mkTask 1000 (Z.shiftl 40 32 + 42) 1000 77 1 (replicate 16 0) false in
  let ops := [OpOpen demo_task 100 0; OpOpen t 100 0] in
  let k := foldl run_op (demo_kernel empty_maps) ops in
  agentshield_stats_map k !! Z.to_nat 2 = Some (wrap64 (count (of_type 2) (agentshield_events k))) /\
  count (seen {[ 77 := mkScopeValue 5 9 1 0 ]} 2) ops = 2.
Proof.
  cbv zeta. split; [|vm_compute; reflexivity].
  destruct (kernel_accounting {[ 77 := mkScopeValue 5 9 1 0 ]} empty_maps
    [OpOpen demo_task 100 0; OpOpen (mkTask 1000 (Z.shiftl 40 32 + 42) 1000 77 1 (replicate 16 0) false) 100 0] 2 ltac:(lia)) as [H _].
  exact H.
Defined.
