(* ===== verification/PolicyAudit.v ===== *)
(** * Decisions for kernel events ([internal/policy/audit.go])

    One decoded kernel event is evaluated against the active policies; the
    result of a network decision is reconciled with what the kernel hook
    reports to have done. *)
From S2P Require Import Prelude GoStd Netip Schema Limits Match FileMatch ExecMatch NetworkMatch Generation Engine Events Enforcement.
Open Scope Z_scope.

Definition openAccessMode : Z := 3.
Definition openWriteOnly : Z := 1.
Definition openReadWrite : Z := 2.
Definition openPath : Z := 2097152.

Record AuditDecisionRecord := mkAuditDecisionRecord {
  Audit_RecordType : string;
  Audit_RunID : string;
  Audit_KernelMonotonicNS : Z;
  Audit_ServerReceivedMonotonicNS : Z;
  Audit_ServerReceivedUnixNS : Z;
  Audit_CgroupID : Z;
  Audit_InstanceID : Z;
  Audit_ScopeCookie : Z;
  Audit_PID : Z;
  Audit_EventType : Z;
  Audit_EventTypeName : string;
  Audit_Report : DecisionReport;
  Audit_NetworkDecisions : list NetworkPolicyDecision;
}.

Inductive AuditError :=
| ContextCgroupMismatch (context event : string)
| DestinationParse (s : string)
| AuditEngine (e : EngineError).

Definition removeReason (reasons : list string) (remove : string) : list string :=
  filter (fun r => r <> remove) reasons.
Definition appendWithout (reasons : list string) (value : string) : list string :=
  if bool_decide (value ∈ reasons) then reasons else reasons ++ [value].

(** Change the first element that [p] selects; [None] when there is none. *)
Fixpoint alter_first {A} (p : A -> bool) (f : A -> A) (l : list A) : option (list A) :=
  match l with
  | [] => None
  | x :: l' => if p x then Some (f x :: l') else (x ::.) <$> alter_first p f l'
  end.

(** The reason and the disposition that fit the kernel's action result. *)
Definition expected_enforcement (result : Z) : option (string * NetworkDisposition) :=
  if result =? ActionResultBlocked then Some ("cgroup_connect_hook_blocked", DispositionDenied)
  else if result =? ActionResultAllowed then Some ("cgroup_connect_hook_allowed", DispositionAllowed)
  else None.
Definition enforce_decision (reason : string) (d : NetworkPolicyDecision) : NetworkPolicyDecision :=
  mkNetworkPolicyDecision (ND_PolicyID d) (ND_RuleID d) (ND_Disposition d) (ND_MatchedCIDR d) (ND_MatchedPort d)
    true (appendWithout (ND_Reasons d) reason).
Definition enforce_hit (blocked : bool) (reason : string) (h : PolicyHit) : PolicyHit :=
  mkPolicyHit (Hit_PolicyID h) (Hit_RuleID h) (Hit_RuleKind h) (Hit_RequestedAction h)
    (if blocked then ActionBlock else Hit_EffectiveAction h) (Hit_EvidenceSource h) (Hit_Confidence h)
    false (Hit_ContainmentHint h) true
    (appendWithout (removeReason (Hit_Reasons h) "enforcement_not_connected") reason).
Definition enforce_final (blocked : bool) (f : FinalDecision) : FinalDecision :=
  mkFinalDecision (Final_PolicyID f) (Final_RuleID f) (Final_Decision f) (Final_NetworkDisposition f)
    (Final_RequestedAction f) (if blocked then ActionBlock else Final_EffectiveAction f) true.

(** The decision and the hit share one reason slice; the append to the full
    slice of the decision reallocates it before the hit's slice is filtered in
    place, so the two lists are independent values from there on. *)
Definition reconcileNetworkEnforcement (r : NetworkDecisionReport) (ev : KernelEvent) : NetworkDecisionReport :=
  if negb (Event_Action ev =? KernelActionBlock) || (Event_PolicyID ev =? 0) || (Event_RuleID ev =? 0) then r
  else match Report_Final (NetworkReport r) with
  | None => r
  | Some f =>
      if negb (stablePolicyID (Final_PolicyID f) =? Event_PolicyID ev) || negb (Final_RuleID f =? Event_RuleID ev)
         || (Final_RequestedAction f != ActionBlock) then r
      else match expected_enforcement (Event_ActionResult ev) with
      | None => r
      | Some (reason, disposition) =>
          let blocked := Event_ActionResult ev =? ActionResultBlocked in
          match alter_first (fun d => (stablePolicyID (ND_PolicyID d) =? Event_PolicyID ev) && (ND_RuleID d =? Event_RuleID ev)
                                      && (ND_Disposition d == disposition))
                  (enforce_decision reason) (NetworkReport_Decisions r) with
          | None => r
          | Some decisions =>
              match alter_first (fun h => (stablePolicyID (Hit_PolicyID h) =? Event_PolicyID ev) && (Hit_RuleID h =? Event_RuleID ev)
                                          && (Hit_RequestedAction h == ActionBlock))
                      (enforce_hit blocked reason) (Report_Hits (NetworkReport r)) with
              | None => r
              | Some hits =>
                  mkNetworkDecisionReport
                    (mkDecisionReport (Report_Generation (NetworkReport r)) hits (Report_Gaps (NetworkReport r))
                       (Some (enforce_final blocked f)))
                    decisions
              end
          end
      end
  end.

Definition open_accesses (syscallFlags : Z) : list FileAccess :=
  let mode := Z.land syscallFlags openAccessMode in
  if mode =? openWriteOnly then [FileWrite] else if mode =? openReadWrite then [FileRead; FileWrite] else [FileRead].
Definition open_observation (ev : KernelEvent) (a : FileAccess) : FileObservation :=
  mkFileObservation (Event_Data ev) (Event_Truncated ev) "" false None a.
Definition file_gap_report (s : engineSnapshot) (c : EvaluationContext) (code message : string) : DecisionReport :=
  mkDecisionReport (snap_generation s) []
    (if 0 <? len (Policies (selectPolicies (snap_bundle s) c conditionFile)) then [mkEvaluationGap "" code message] else []) None.
Definition evaluateFileAuditEvent (e : option Engine) (c : EvaluationContext) (ev : KernelEvent) : result EngineError DecisionReport :=
  s ← engine_snapshot e;
  if negb (Z.land (Event_SyscallFlags ev) openPath =? 0) then
    Ok (file_gap_report s c "open_path_not_content_access" "O_PATH does not grant file content access")
  else if Event_Data ev == "" then
    Ok (file_gap_report s c "user_path_unavailable" "file pathname was not captured")
  else evaluateFileSnapshot s c (map (open_observation ev) (open_accesses (Event_SyscallFlags ev))).

Definition exec_observation (ev : KernelEvent) : ExecObservation :=
  let legacy := Event_Truncated ev && negb (Event_ExecutableTruncated ev) && negb (Event_ArgumentsTruncated ev) in
  let executableTruncated := Event_ExecutableTruncated ev || legacy in
  let argumentsTruncated := Event_ArgumentsTruncated ev || legacy in
  let '(state, arguments) :=
    if Event_FieldsUnavailable ev then (CaptureUnavailable, [])
    else if argumentsTruncated then (CaptureTruncated, Event_Argv ev)
    else (CaptureComplete, Event_Argv ev) in
  mkExecObservation ExecOperationExecve (Event_Data ev) executableTruncated arguments state 0.

Definition audit_record (c : EvaluationContext) (ev : KernelEvent) (r : DecisionReport) (ds : list NetworkPolicyDecision)
  : AuditDecisionRecord :=
  mkAuditDecisionRecord "policy_decision" (Context_RunID c) (Event_KernelMonotonicNS ev) (Event_ServerReceivedMonotonicNS ev)
    (Event_ServerReceivedUnixNS ev) (Event_CgroupID ev) (Event_InstanceID ev) (Event_ScopeCookie ev) (Event_PID ev)
    (Event_EventType ev) (Event_EventTypeName ev) r ds.

(** [None]: the event type has no matcher. *)
Definition EvaluateAuditDecision (e : option Engine) (c : EvaluationContext) (ev : KernelEvent)
  : result AuditError (option AuditDecisionRecord) :=
  let eventCgroupID := FormatUint (Event_CgroupID ev) in
  if (Context_CgroupID c != "") && (Context_CgroupID c != eventCgroupID)
  then Err (ContextCgroupMismatch (Context_CgroupID c) eventCgroupID)
  else
    let c := mkContext (Context_RunID c) eventCgroupID (Context_Labels c) in
    if Event_EventType ev =? EventTypeFileOpen then
      match evaluateFileAuditEvent e c ev with
      | Err x => Err (AuditEngine x)
      | Ok r => Ok (Some (audit_record c ev r []))
      end
    else if Event_EventType ev =? EventTypeExecAttempt then
      match EvaluateExec e c (exec_observation ev) with
      | Err x => Err (AuditEngine x)
      | Ok r => Ok (Some (audit_record c ev r []))
      end
    else if Event_EventType ev =? EventTypeNetConnect then
      match ParseAddr (Event_DestinationIP ev) with
      | None => Err (DestinationParse (Event_DestinationIP ev))
      | Some destination =>
          let protocol := if Event_Protocol ev =? KernelProtocolTCP then ProtocolTCP else "" in
          match EvaluateNetwork e c (mkNetworkObservation destination (Event_DestinationPort ev) protocol "") with
          | Err x => Err (AuditEngine x)
          | Ok r => let r := reconcileNetworkEnforcement r ev in
                    Ok (Some (audit_record c ev (NetworkReport r) (NetworkReport_Decisions r)))
          end
      end
    else Ok None.
Definition EvaluateAuditEvent (e : option Engine) (ev : KernelEvent) : result AuditError (list AuditDecisionRecord) :=
  r ← EvaluateAuditDecision e (mkContext "" "" ∅) ev; Ok (match r with Some x => [x] | None => [] end).

(** ** Lemmas: network reports of a snapshot *)
Lemma alter_first_Some {A} (p : A -> bool) (f : A -> A) l l' :
  alter_first p f l = Some l' <-> exists l1 x l2, l = l1 ++ x :: l2 /\ p x = true /\ Forall (fun y => p y = false) l1 /\ l' = l1 ++ f x :: l2.
Proof.
  revert l'. induction l as [|y l IH]; intros l'; cbn.
  - split; [done|]. intros ([|] & x & l2 & E & _); done.
  - destruct (p y) eqn:Ey.
    + split; [intros [= <-]; by exists [], y, l|]. intros ([|z l1] & x & l2 & [= -> ->] & Hx & Hf & ->); [done|].
      apply Forall_cons in Hf as [Hf _]. congruence.
    + rewrite fmap_Some. setoid_rewrite IH. split.
      * intros (? & (l1 & x & l2 & -> & Hx & Hf & ->) & ->). exists (y :: l1), x, l2. by rewrite Forall_cons.
      * intros ([|z l1] & x & l2 & E & Hx & Hf & ->); [injection E as -> ->; congruence|]. injection E as <- ->.
        apply Forall_cons in Hf as [_ Hf]. eexists. split; [eauto 10|done].
Qed.
Lemma alter_first_None {A} (p : A -> bool) (f : A -> A) l :
  alter_first p f l = None <-> Forall (fun y => p y = false) l.
Proof.
  induction l as [|y l IH]; cbn; [by split|]. rewrite Forall_cons, <-IH. destruct (p y); [by split; [|intros [? _]]|].
  rewrite fmap_None. tauto.
Qed.

Lemma evaluateNetworkPolicy_observed p c id o :
  ND_Disposition (evaluateNetworkPolicy p c id o) = DispositionObserved -> Default c = NetworkDefaultObserve.
Proof.
  unfold evaluateNetworkPolicy.
  destruct (matchCIDR (CIDRs c) (Destination o)) as [cm mc], (matchPort (Ports c) (Port o)) as [pm mp]. cbv zeta.
  destruct (decide (Default c = NetworkDefaultObserve)) as [E|E]; [done|].
  rewrite (bool_decide_eq_false_2 _ E). repeat case_match; done.
Qed.
Lemma network_hit_ids p id d h :
  h ∈ network_hit p id d ->
  Hit_PolicyID h = ID p /\ Hit_RuleID h = id /\ Hit_RequestedAction h = RequestedAction p /\ Hit_Enforced h = false /\
  (Hit_EffectiveAction h = ActionBlock -> ND_Disposition d = DispositionObserved /\ RequestedAction p = ActionBlock).
Proof.
  unfold network_hit. destruct (_ && _ && _) eqn:E; [by intros []%elem_of_nil|].
  destruct (if _ == DispositionAllowed then _ else _) as [eff hint] eqn:Ee. intros ->%list_elem_of_singleton. cbn.
  split_and!; try done. intros ->. revert Ee.
  destruct (decide (ND_Disposition d = DispositionAllowed)) as [Ha|Ha]; [by rewrite (bool_decide_eq_true_2 _ Ha)|].
  rewrite (bool_decide_eq_false_2 _ Ha).
  destruct (decide (ND_Disposition d = DispositionDenied)) as [Hd|Hd].
  - rewrite (bool_decide_eq_true_2 _ Hd). cbn [andb]. destruct (RequestedAction p == ActionBlock) eqn:Eb; [done|].
    cbn [orb]. destruct (_ == ActionContain); [done|]. intros [= Er _]. by rewrite Er in Eb.
  - rewrite (bool_decide_eq_false_2 _ Hd). cbn [andb]. intros [= -> _]. split; [|done].
    apply andb_false_iff in E as [[E|E]%andb_false_iff|E]; apply negb_false_iff, bool_decide_eq_true in E; done.
Qed.

Section NetworkReport.
Context (b : Bundle) (l : Limits) (s : engineSnapshot) (Hs : snapshot_from b l s) (lim : Limits) (c : EvaluationContext).
Let e := Some (mkEngine lim (Some s)).
Let sel := selected s c conditionNetwork.

(** The decision and hit of a selected policy. *)
Definition policy_decision (o : NetworkObservation) (p : Policy) : list NetworkPolicyDecision :=
  match Network (Policy_Conditions p) with Some cond => [rule_decision o p cond] | None => [] end.
Definition policy_hits (o : NetworkObservation) (p : Policy) : list PolicyHit :=
  match Network (Policy_Conditions p) with
  | Some cond => network_hit p (rule_hash (ID p) "network_default" 0) (rule_decision o p cond)
  | None => []
  end.

Lemma selected_network p : p ∈ sel ->
  p ∈ Policies (snap_bundle s) /\ has_network_rule p = true /\ network_reject p = None.
Proof.
  intros [Hp Ha]%elem_of_selectPolicies. split; [done|]. unfold applicable in Ha.
  apply andb_true_iff in Ha as [[He _]%andb_true_iff Hk]. split.
  - unfold has_network_rule. rewrite He. unfold hasCondition in Hk. by destruct (Network (Policy_Conditions p)).
  - destruct Hs as (q & Hq & E). destruct (pf_network _ _ _ Hq) as (rules & Hr & _).
    apply compileNetworkRules_output in Hr as (Hrej & _ & _). rewrite Forall_forall in Hrej. apply Hrej.
    rewrite E in Hp. exact Hp.
Qed.
Lemma network_block_one p : p ∈ sel -> network_block p = [network_rule_of p].
Proof. intros (_ & Hn & _)%selected_network. unfold network_block. by rewrite Hn. Qed.

Lemma concat_map_ext {A B} (f g : A -> list B) (xs : list A) :
  (forall x, x ∈ xs -> f x = g x) -> concat (map f xs) = concat (map g xs).
Proof.
  intros H. induction xs as [|x xs IH]; [done|]. cbn. rewrite H by left. f_equal. apply IH. intros y Hy. apply H. by right.
Qed.
Lemma concat_map_concat {A B C} (f : A -> list B) (g : B -> list C) (xs : list A) :
  concat (map g (concat (map f xs))) = concat (map (fun x => concat (map g (f x))) xs).
Proof. induction xs as [|x xs IH]; [done|]. cbn. by rewrite map_app, concat_app, IH. Qed.

Lemma EvaluateNetwork_shape o r :
  EvaluateNetwork e c o = Ok r ->
  NetworkReport_Decisions r = concat (map (policy_decision o) sel) /\
  Report_Hits (NetworkReport r) ≡ₚ concat (map (policy_hits o) sel).
Proof.
  unfold EvaluateNetwork. destruct (validateNetworkObservation o); [done|].
  cbn [engine_snapshot e engine_active mbind result_bind]. rewrite (snapshot_network_rules b l s Hs c). fold sel.
  destruct (Policies (selectPolicies (snap_bundle s) c conditionNetwork)) as [|p0 ps0] eqn:Esel.
  { intros <-%Ok_inj. unfold sel, selected. rewrite Esel. done. }
  intros <-%Ok_inj. cbn [NetworkReport NetworkReport_Decisions Report_Hits buildDecisionReport].
  unfold matchNetworkRules. cbn [Network_Decisions Network_MatchResult Hits]. rewrite !map_map. split.
  - rewrite concat_map_concat. apply concat_map_ext. intros p Hp. rewrite network_block_one by done. cbn. rewrite app_nil_r.
    unfold match_network_rule, policy_decision. cbn [nrule_policy network_rule_of nrule_id].
    destruct (Network (Policy_Conditions p)); done.
  - rewrite sort_by_perm. rewrite concat_map_concat. erewrite concat_map_ext; [done|].
    intros p Hp. cbv beta. rewrite network_block_one by done. cbn. rewrite app_nil_r.
    unfold match_network_rule, policy_hits. cbn [nrule_policy network_rule_of nrule_id].
    destruct (Network (Policy_Conditions p)); done.
Qed.

Lemma selected_rule_inj p q :
  p ∈ sel -> q ∈ sel -> rule_hash (ID p) "network_default" 0 = rule_hash (ID q) "network_default" 0 -> p = q.
Proof.
  intros Hp Hq E. destruct (selected_network p Hp) as (Hp1 & Hp2 & _). destruct (selected_network q Hq) as (Hq1 & Hq2 & _).
  destruct Hs as (w & Hw & Es). destruct (pf_network _ _ _ Hw) as (rules & Hr & _).
  apply compileNetworkRules_output in Hr as (_ & -> & Hnd). specialize (Hnd (wf_bundle_nodup _ (pf_wf _ _ _ Hw))).
  rewrite Es in Hp1, Hq1. cbn in Hp1, Hq1. rewrite map_map in Hnd.
  apply (nodup_map_inj _ _ p q Hnd); [by apply list_elem_of_filter..|done].
Qed.
Lemma decision_unique o r d d' :
  EvaluateNetwork e c o = Ok r -> d ∈ NetworkReport_Decisions r -> d' ∈ NetworkReport_Decisions r ->
  ND_RuleID d = ND_RuleID d' -> d = d'.
Proof.
  intros [-> _]%EvaluateNetwork_shape (p & Hp & Hd)%elem_of_concat_map (q & Hq & Hd')%elem_of_concat_map.
  unfold policy_decision in *. destruct (Network (Policy_Conditions p)) as [cp|] eqn:Ep; [|by apply elem_of_nil in Hd].
  destruct (Network (Policy_Conditions q)) as [cq|] eqn:Eq; [|by apply elem_of_nil in Hd'].
  apply list_elem_of_singleton in Hd as ->, Hd' as ->. unfold rule_decision.
  destruct (evaluateNetworkPolicy_fields p cp (rule_hash (ID p) "network_default" 0) (unmapped o)) as (_ & -> & _).
  destruct (evaluateNetworkPolicy_fields q cq (rule_hash (ID q) "network_default" 0) (unmapped o)) as (_ & -> & _).
  intros E. assert (p = q) as -> by (by apply selected_rule_inj). congruence.
Qed.
(** User-space evaluation claims nothing about the kernel. *)
Lemma network_hit_unenforced o r h :
  EvaluateNetwork e c o = Ok r -> h ∈ Report_Hits (NetworkReport r) ->
  Hit_Enforced h = false /\ Hit_EffectiveAction h <> ActionBlock /\ 1 <= Hit_RuleID h.
Proof.
  intros [_ Hh]%EvaluateNetwork_shape. rewrite Hh. intros (p & Hp & Hin)%elem_of_concat_map.
  destruct (selected_network p Hp) as (_ & Hn & Hrej). unfold policy_hits in Hin.
  destruct (Network (Policy_Conditions p)) as [cp|] eqn:Ep; [|by apply elem_of_nil in Hin].
  unfold network_reject in Hrej. rewrite Ep in Hrej.
  unfold has_network_rule in Hn. apply andb_true_iff in Hn as [Hen _]. rewrite Hen in Hrej. cbn [negb] in Hrej.
  pose proof (rule_hash_range (ID p) "network_default" 0) as Hr.
  destruct (network_hit_ids _ _ _ _ Hin) as (_ & E2 & _ & E4 & E5). split_and!; [done| |lia].
  intros [Eo Eb]%E5. apply evaluateNetworkPolicy_observed in Eo. revert Hrej. unfold validateNetworkPolicyMode.
  rewrite Eo, Eb. done.
Qed.
End NetworkReport.

(** ** Lemmas: reconciliation *)
(** The kernel reports, for the very policy and rule of the final decision,
    an outcome that agrees with its disposition. *)
Definition kernel_agrees (ev : KernelEvent) (f : FinalDecision) : Prop :=
  Event_Action ev = KernelActionBlock /\ Event_PolicyID ev = stablePolicyID (Final_PolicyID f) /\
  Event_RuleID ev = Final_RuleID f /\ Final_RequestedAction f = ActionBlock /\
  (Event_ActionResult ev = ActionResultBlocked /\ Final_NetworkDisposition f = DispositionDenied \/
   Event_ActionResult ev = ActionResultAllowed /\ Final_NetworkDisposition f = DispositionAllowed).

Lemma expected_enforcement_Some result reason d :
  expected_enforcement result = Some (reason, d) ->
  result = ActionResultBlocked /\ d = DispositionDenied \/ result = ActionResultAllowed /\ d = DispositionAllowed.
Proof.
  unfold expected_enforcement. destruct (Z.eqb_spec result ActionResultBlocked); [intros [= _ <-]; auto|].
  destruct (Z.eqb_spec result ActionResultAllowed); [intros [= _ <-]; auto|done].
Qed.

Record reconciled (ev : KernelEvent) (r r' : NetworkDecisionReport) : Prop := {
  rec_none : Report_Final (NetworkReport r) = None -> r' = r;
  rec_final f : Report_Final (NetworkReport r) = Some f -> exists f',
    Report_Final (NetworkReport r') = Some f' /\
    Final_PolicyID f' = Final_PolicyID f /\ Final_RuleID f' = Final_RuleID f /\
    Final_NetworkDisposition f' = Final_NetworkDisposition f /\ Final_RequestedAction f' = Final_RequestedAction f /\
    (kernel_agrees ev f /\ Final_Enforced f' = true /\
     Final_EffectiveAction f' = (if Event_ActionResult ev =? ActionResultBlocked then ActionBlock else Final_EffectiveAction f) \/
     ~ kernel_agrees ev f /\ r' = r);
  rec_hits h : h ∈ Report_Hits (NetworkReport r') -> h ∈ Report_Hits (NetworkReport r) \/
    (Hit_RuleID h = Event_RuleID ev /\ exists f, Report_Final (NetworkReport r) = Some f /\ kernel_agrees ev f);
}.

Section Reconcile.
Context (ev : KernelEvent) (r : NetworkDecisionReport).
(** What an evaluation guarantees of its report. *)
Context (Hdecision : forall f, Report_Final (NetworkReport r) = Some f -> exists d, d ∈ NetworkReport_Decisions r /\
  ND_PolicyID d = Final_PolicyID f /\ ND_RuleID d = Final_RuleID f /\ Final_NetworkDisposition f = ND_Disposition d).
Context (Hhit : forall f, Report_Final (NetworkReport r) = Some f -> exists h, h ∈ Report_Hits (NetworkReport r) /\
  Hit_PolicyID h = Final_PolicyID f /\ Hit_RuleID h = Final_RuleID f /\ Hit_RequestedAction h = Final_RequestedAction f /\
  1 <= Hit_RuleID h).
Context (Hunique : forall d d', d ∈ NetworkReport_Decisions r -> d' ∈ NetworkReport_Decisions r -> ND_RuleID d = ND_RuleID d' -> d = d').

Lemma reconcile_same f : Report_Final (NetworkReport r) = Some f -> ~ kernel_agrees ev f -> reconciled ev r r.
Proof. intros Hf Hn. constructor; [done| |by left]. intros f' Hf'. exists f'. rewrite Hf in Hf'. simplify_eq. naive_solver. Qed.

Lemma reconcile_spec : reconciled ev r (reconcileNetworkEnforcement r ev).
Proof.
  unfold reconcileNetworkEnforcement.
  destruct (Report_Final (NetworkReport r)) as [f|] eqn:Ef.
  2: { destruct (_ || _ || _); constructor; rewrite ?Ef; try done; by left. }
  destruct (Hdecision f eq_refl) as (d & Hd & Ed1 & Ed2 & Ed3). destruct (Hhit f eq_refl) as (h & Hh & Eh1 & Eh2 & Eh3 & Eh4).
  pose proof (stablePolicyID_nonzero (Final_PolicyID f)) as Hnz.
  destruct (_ || _ || _) eqn:E1.
  { apply (reconcile_same f Ef). intros (A & B & C & _). rewrite A, B, C, Z.eqb_refl in E1. cbn [negb orb] in E1.
    apply orb_true_iff in E1 as [E1|E1]; apply Z.eqb_eq in E1; [done|lia]. }
  destruct (negb (stablePolicyID _ =? _) || _ || _) eqn:E2.
  { apply (reconcile_same f Ef). intros (_ & B & C & D & _). rewrite B, C, !Z.eqb_refl, D in E2. done. }
  apply orb_false_iff in E1 as [[E1 _]%orb_false_iff _]. apply negb_false_iff, Z.eqb_eq in E1.
  apply orb_false_iff in E2 as [[E2 E3]%orb_false_iff E4].
  apply negb_false_iff, Z.eqb_eq in E2, E3. apply negb_false_iff, bool_decide_eq_true in E4.
  destruct (expected_enforcement (Event_ActionResult ev)) as [[reason disposition]|] eqn:E5.
  2: { apply (reconcile_same f Ef). intros (_ & _ & _ & _ & [[F _]|[F _]]); by rewrite F in E5. }
  pose proof (expected_enforcement_Some _ _ _ E5) as E6. cbv zeta.
  destruct (alter_first _ (enforce_decision reason) (NetworkReport_Decisions r)) as [ds|] eqn:E7.
  2: { apply (reconcile_same f Ef). intros (_ & _ & _ & _ & F). apply alter_first_None in E7. rewrite Forall_forall in E7.
       specialize (E7 d Hd). rewrite Ed1, Ed2, E2, E3, !Z.eqb_refl in E7. cbn [andb] in E7.
       apply bool_decide_eq_false in E7. rewrite <-Ed3 in E7.
       destruct E6 as [[G1 G2]|[G1 G2]], F as [[F1 F2]|[F1 F2]]; first [congruence|rewrite G1 in F1; discriminate F1]. }
  apply alter_first_Some in E7 as (l1 & d' & l2 & El & Hd' & _ & _).
  apply andb_true_iff in Hd' as [[_ Hd2]%andb_true_iff Hd3]. apply Z.eqb_eq in Hd2. apply bool_decide_eq_true in Hd3.
  assert (d' = d) as -> by (apply Hunique; [rewrite El; apply elem_of_app; right; left|done|congruence]).
  assert (kernel_agrees ev f) as Hagree.
  { split_and!; [done|done|done|done|]. rewrite Ed3, Hd3. destruct E6 as [[-> ->]|[-> ->]]; auto. }
  destruct (alter_first _ (enforce_hit _ reason) (Report_Hits (NetworkReport r))) as [hs|] eqn:E8.
  2: { exfalso. apply alter_first_None in E8. rewrite Forall_forall in E8. specialize (E8 h Hh).
       rewrite Eh1, Eh2, E2, E3, !Z.eqb_refl, Eh3, E4 in E8. done. }
  constructor; cbn [NetworkReport Report_Final Report_Hits]; [by rewrite Ef| |].
  - intros f' Hf'. rewrite Ef in Hf'. injection Hf' as <-. eexists. split; [reflexivity|]. cbn. split_and!; try done. by left.
  - intros g Hg. apply alter_first_Some in E8 as (k1 & h' & k2 & Ek & Hh' & _ & ->).
    apply elem_of_app in Hg as [Hg|[->|Hg]%elem_of_cons]; [left; rewrite Ek; set_solver| |left; rewrite Ek; set_solver].
    right. cbn. apply andb_true_iff in Hh' as [[_ Hr]%andb_true_iff _]. apply Z.eqb_eq in Hr. eauto.
Qed.
End Reconcile.

(** ** Properties *)
(** C14: enforcement is claimed exactly when kernel and policy agree.  For a
    connection event in any reachable engine, the final decision is marked
    enforced exactly when the kernel reports, for that policy and rule, an
    outcome that agrees with the evaluated disposition; the effective action is
    [block] exactly when it is so marked and the kernel blocked; a hit is
    marked enforced only for the kernel's rule under such an agreement. *)
Theorem enforcement_claim_exact eng c ev rec :
  reachable eng -> Event_EventType ev = EventTypeNetConnect ->
  EvaluateAuditDecision (Some eng) c ev = Ok (Some rec) ->
  (forall f, Report_Final (Audit_Report rec) = Some f ->
     (Final_Enforced f = true <-> kernel_agrees ev f) /\
     (Final_EffectiveAction f = ActionBlock <-> Final_Enforced f = true /\ Event_ActionResult ev = ActionResultBlocked)) /\
  (forall h, h ∈ Report_Hits (Audit_Report rec) -> Hit_Enforced h = true ->
     Hit_RuleID h = Event_RuleID ev /\ exists f, Report_Final (Audit_Report rec) = Some f /\ kernel_agrees ev f).
Proof.
  intros [(s & b & l & Hs & Hf & _)]%reachable_inv Et. destruct eng as [lim act]. cbn in Hs. subst act.
  unfold EvaluateAuditDecision. destruct (_ && _); [done|]. rewrite Et. cbv zeta.
  change (EventTypeNetConnect =? EventTypeFileOpen) with false. change (EventTypeNetConnect =? EventTypeExecAttempt) with false.
  rewrite Z.eqb_refl. cbv iota. destruct (ParseAddr _) as [a|]; [|done].
  destruct (EvaluateNetwork _ _ _) as [r|] eqn:Er; [|done]. intros E%Ok_inj. injection E as <-.
  cbn [audit_record Audit_Report].
  destruct (EvaluateNetwork_report b l s Hf lim _ _ _ Er) as [Hok Hdisp].
  assert (reconciled ev r (reconcileNetworkEnforcement r ev)) as [Hn Hfin Hhits].
  { apply reconcile_spec; [done| |intros d d'; by apply (decision_unique b l s Hf lim _ _ _ d d' Er)].
    intros f Ef. destruct (ro_final _ _ _ _ Hok f Ef) as (p & h & _ & Hh & E1 & _ & E2 & E3 & E4 & _).
    exists h. split_and!; [done|congruence|done|done|]. by apply (network_hit_unenforced b l s Hf lim _ _ _ _ Er). }
  assert (forall f, Report_Final (NetworkReport r) = Some f -> Final_Enforced f = false /\ Final_EffectiveAction f <> ActionBlock) as Huser.
  { intros f Ef. destruct (ro_final _ _ _ _ Hok f Ef) as (p & h & _ & Hh & _ & _ & _ & _ & _ & E5 & E6 & _).
    destruct (network_hit_unenforced b l s Hf lim _ _ _ _ Er Hh) as (U1 & U2 & _). split; congruence. }
  assert (forall f f', Final_PolicyID f' = Final_PolicyID f -> Final_RuleID f' = Final_RuleID f ->
    Final_NetworkDisposition f' = Final_NetworkDisposition f -> Final_RequestedAction f' = Final_RequestedAction f ->
    kernel_agrees ev f' <-> kernel_agrees ev f) as Hcong by (intros f f' A B C D; unfold kernel_agrees; by rewrite A, B, C, D).
  split.
  - intros f Ef. destruct (Report_Final (NetworkReport r)) as [f0|] eqn:E0; [|rewrite Hn in Ef by done; congruence].
    destruct (Hfin f0 eq_refl) as (f' & E' & A & B & C & D & Hcase). rewrite E' in Ef. injection Ef as ->.
    rewrite (Hcong f0 f A B C D). destruct (Huser f0 eq_refl) as [U1 U2]. destruct Hcase as [(Hag & Hen & Heff)|(Hno & Hsame)].
    + rewrite Hen, Heff. destruct (Z.eqb_spec (Event_ActionResult ev) ActionResultBlocked); naive_solver.
    + rewrite Hsame, E0 in E'. injection E' as <-. rewrite U1. naive_solver.
  - intros h [Hh|(E1 & f0 & E0 & Hag)]%Hhits Hen.
    + destruct (network_hit_unenforced b l s Hf lim _ _ _ _ Er Hh). congruence.
    + split; [done|]. destruct (Hfin f0 E0) as (f' & E' & A & B & C & D & _). exists f'. split; [done|]. by apply (Hcong f0 f').
Qed.

(** The accesses an open grants: bits 0 and 1 of its flags, none for an
    [O_PATH] open. *)
Inductive open_grants (flags : Z) : FileAccess -> Prop :=
| grants_read : Z.testbit flags 21 = false -> Z.testbit flags 0 = Z.testbit flags 1 \/ Z.testbit flags 1 = true ->
    open_grants flags FileRead
| grants_write : Z.testbit flags 21 = false -> Z.testbit flags 0 <> Z.testbit flags 1 -> open_grants flags FileWrite.

Lemma open_accesses_grants flags a :
  Z.land flags openPath = 0 -> a ∈ open_accesses flags <-> open_grants flags a.
Proof.
  intros Hp.
  assert (Z.testbit flags 21 = false) as H21.
  { apply (f_equal (fun z => Z.testbit z 21)) in Hp. rewrite Z.land_spec, Z.bits_0 in Hp. change (Z.testbit openPath 21) with true in Hp.
    by rewrite andb_true_r in Hp. }
  assert (Z.land flags openAccessMode = Z.b2z (Z.testbit flags 0) + 2 * Z.b2z (Z.testbit flags 1)) as Hm.
  { change openAccessMode with (Z.ones 2). rewrite Z.land_ones by lia. change (2 ^ 2) with 4.
    rewrite !Z.testbit_spec' by lia. change (2 ^ 0) with 1. change (2 ^ 1) with 2. rewrite Z.div_1_r.
    rewrite (Z.mod_eq flags 4), (Z.mod_eq flags 2), (Z.mod_eq (flags / 2) 2), Z.div_div by lia. change (2 * 2) with 4. lia. }
  assert (open_grants flags a <-> a = FileRead /\ (Z.testbit flags 0 = Z.testbit flags 1 \/ Z.testbit flags 1 = true) \/
          a = FileWrite /\ Z.testbit flags 0 <> Z.testbit flags 1) as ->.
  { split; [intros []; auto|]. intros [[-> ?]|[-> ?]]; by constructor. }
  unfold open_accesses. rewrite Hm. unfold openWriteOnly, openReadWrite.
  destruct (Z.testbit flags 0), (Z.testbit flags 1); cbn [Z.b2z];
    repeat match goal with |- context [?x =? ?y] => const_bool (x =? y) end; cbv iota;
    rewrite ?elem_of_cons, ?elem_of_nil; intuition (try discriminate; auto).
Qed.

(** File events.  An [O_PATH] open or one without a captured path has no
    hit; otherwise the reported rules are exactly those that match the path
    for an access the open flags grant, once each, and the final decision is
    that of the highest-precedence policy among them. *)
Theorem file_event_reports_granted_accesses eng c ev rec :
  reachable eng -> Event_EventType ev = EventTypeFileOpen ->
  EvaluateAuditDecision (Some eng) c ev = Ok (Some rec) ->
  exists s, engine_active eng = Some s /\
  let sel := selected s (mkContext (Context_RunID c) (FormatUint (Event_CgroupID ev)) (Context_Labels c)) conditionFile in
  report_ok (snap_generation s) sel (Report_Hits (Audit_Report rec)) (Audit_Report rec) /\
  NoDup (map Hit_RuleID (Report_Hits (Audit_Report rec))) /\
  (forall id, id ∈ map Hit_RuleID (Report_Hits (Audit_Report rec)) <->
     Event_Data ev <> "" /\ exists a, open_grants (Event_SyscallFlags ev) a /\
     id ∈ map Hit_RuleID (Hits (matchFileRules (concat (map file_block sel)) (open_observation ev a)))).
Proof.
  intros [(s & b & l & Hs & Hf & _)]%reachable_inv Et. destruct eng as [lim act]. cbn in Hs. subst act.
  unfold EvaluateAuditDecision. destruct (_ && _); [done|]. rewrite Et, Z.eqb_refl. cbv zeta.
  set (c' := mkContext _ _ _). unfold evaluateFileAuditEvent. cbn [engine_snapshot engine_active mbind result_bind].
  intros E. exists s. split; [done|].
  assert (forall code msg, report_ok (snap_generation s) (selected s c' conditionFile) [] (file_gap_report s c' code msg)) as Hempty
    by (intros; by constructor).
  destruct (Z.eqb_spec (Z.land (Event_SyscallFlags ev) openPath) 0) as [Hp|Hp]; cbn [negb] in E.
  2: { apply Ok_inj in E. injection E as <-. split; [apply Hempty|]. split; [constructor|]. intros id. split; [by intros []%elem_of_nil|].
       intros (_ & a & Hg & _). exfalso. apply Hp. apply Z.bits_inj'. intros n Hn. rewrite Z.land_spec, Z.bits_0.
       change openPath with (2 ^ 21). rewrite Z.pow2_bits_eqb by lia. destruct (Z.eqb_spec 21 n) as [<-|]; [|by rewrite andb_false_r].
       by destruct Hg as [Hg _|Hg _]; rewrite Hg. }
  destruct (decide (Event_Data ev = "")) as [Hd|Hd]; [rewrite (bool_decide_eq_true_2 _ Hd) in E|rewrite (bool_decide_eq_false_2 _ Hd) in E].
  { apply Ok_inj in E. injection E as <-. split; [apply Hempty|]. split; [constructor|]. intros id. split; [by intros []%elem_of_nil|].
    by intros [? _]. }
  destruct (evaluateFileSnapshot s c' _) as [r|] eqn:Er; [|done]. apply Ok_inj in E. injection E as <-. cbn [audit_record Audit_Report].
  destruct (evaluateFileSnapshot_report b l s Hf c' _ _ Er) as (H1 & H2 & H3). split_and!; [done|done|].
  intros id. rewrite H3. split.
  - intros (o & (a & -> & Ha)%list_elem_of_fmap & Hid). split; [done|]. exists a. split; [by apply open_accesses_grants|done].
  - intros (_ & a & Ha & Hid). exists (open_observation ev a). split; [|done]. apply list_elem_of_fmap_2. by apply open_accesses_grants.
Qed.

Definition demo_block_policy : Policy :=
  mkPolicy "egress" "Egress allowlist" "" true (mkScope ScopeGlobal "" "" ∅) DecisionDeny ActionBlock 7 SeverityHigh
    (mkConditions None None (Some (mkNetworkCondition NetworkDefaultDeny ["10.0.0.5/32"] [mkPortRange 443 443] [FamilyIPv4]))).
Definition demo_block_bundle : Bundle := mkBundle 1 [demo_block_policy].
Definition demo_block_engine : Engine :=
  mkEngine (withDefaults DefaultLimits) (Some (newEngineSnapshot demo_generation (demo_prepared demo_block_bundle))).
Lemma demo_block_reachable : reachable demo_block_engine.
Proof.
  apply (reach_new demo_block_bundle demo_generation DefaultLimits demo_block_engine []); [done|].
  unfold NewEngine. cbn [validateInitialGeneration demo_generation].
  assert (prepareEngineBundle demo_block_bundle DefaultLimits = (Ok (demo_prepared demo_block_bundle), [])) as -> by (vm_compute; reflexivity).
  done.
Qed.
(** The kernel blocked 8.8.8.8, port 53, under that policy. *)
Definition demo_blocked_event : KernelEvent :=
  base_event (mkRaw 3 EventTypeNetConnect KernelActionBlock ActionResultBlocked 1000 77 5 9 42 40 0 1000 1
    (stablePolicyID "egress") (rule_hash "egress" "network_default" 0) 4 0 0 [] []) "" "" [] (Some (Addr4 134744072, 53, 2, 6)) ∅.
Definition demo_blocked_record : option AuditDecisionRecord :=
  match EvaluateAuditDecision (Some demo_block_engine) (mkContext "" "" ∅) demo_blocked_event with Ok r => r | Err _ => None end.

Lemma enforcement_claim_exact_witness :
  exists rec f, EvaluateAuditDecision (Some demo_block_engine) (mkContext "" "" ∅) demo_blocked_event = Ok (Some rec) /\
    Report_Final (Audit_Report rec) = Some f /\ Final_Enforced f = true /\ kernel_agrees demo_blocked_event f.
Proof.
  assert (match demo_blocked_record with
          | Some rec => match Report_Final (Audit_Report rec) with Some f => Final_Enforced f = true | None => False end
          | None => False end) as H by (vm_compute; reflexivity).
  destruct demo_blocked_record as [rec|] eqn:Er; [|destruct H].
  assert (EvaluateAuditDecision (Some demo_block_engine) (mkContext "" "" ∅) demo_blocked_event = Ok (Some rec)) as E.
  { revert Er. unfold demo_blocked_record. destruct (EvaluateAuditDecision _ _ _); [intros ->; reflexivity|discriminate]. }
  destruct (Report_Final (Audit_Report rec)) as [f|] eqn:Ef; [|destruct H]. exists rec, f.
  destruct (enforcement_claim_exact demo_block_engine (mkContext "" "" ∅) demo_blocked_event rec demo_block_reachable eq_refl E) as [Hx _].
  destruct (Hx f Ef) as [[H1 _] _]. split; [exact E|]. split; [exact Ef|]. split; [exact H|exact (H1 H)].
Defined.

(** The network decision of an enforced block keeps the reason
    [enforcement_not_connected] beside the hook's own; only the hit loses it. *)
Theorem enforced_decision_keeps_reason :
  exists rec d h, demo_blocked_record = Some rec /\ Audit_NetworkDecisions rec = [d] /\ Report_Hits (Audit_Report rec) = [h] /\
    ND_Enforced d = true /\ ND_Reasons d = ["direct_dns_not_allowed"; "enforcement_not_connected"; "cgroup_connect_hook_blocked"] /\
    Hit_Reasons h = ["direct_dns_not_allowed"; "cgroup_connect_hook_blocked"].
Proof. vm_compute. do 3 eexists. split_and!; reflexivity. Qed.

(** A read-write open of a key file under the policies of [demo_engine]. *)
Definition demo_open_event : KernelEvent :=
  base_event (mkRaw 3 EventTypeFileOpen KernelActionAudit ActionResultNone 1000 77 5 9 42 40 1 1000 1 0 0 0 2 0 [] [])
    "" "/etc/tls.key" [] None ∅.
Definition demo_open_record : option AuditDecisionRecord :=
  match EvaluateAuditDecision (Some demo_engine) (mkContext "run-1" "" ∅) demo_open_event with Ok r => r | Err _ => None end.
Lemma file_event_reports_granted_accesses_witness :
  exists rec s, EvaluateAuditDecision (Some demo_engine) (mkContext "run-1" "" ∅) demo_open_event = Ok (Some rec) /\
    engine_active demo_engine = Some s /\ Report_Hits (Audit_Report rec) <> [] /\
    NoDup (map Hit_RuleID (Report_Hits (Audit_Report rec))).
Proof.
  assert (match demo_open_record with Some rec => negb (len (Report_Hits (Audit_Report rec)) =? 0) = true | None => False end) as H
    by (vm_compute; reflexivity).
  destruct demo_open_record as [rec|] eqn:Er; [|destruct H].
  assert (EvaluateAuditDecision (Some demo_engine) (mkContext "run-1" "" ∅) demo_open_event = Ok (Some rec)) as E.
  { revert Er. unfold demo_open_record. destruct (EvaluateAuditDecision _ _ _); [intros ->; reflexivity|discriminate]. }
  destruct (file_event_reports_granted_accesses demo_engine (mkContext "run-1" "" ∅) demo_open_event rec demo_reachable eq_refl E)
    as (s & Hs & _ & Hnd & _).
  exists rec, s. split; [exact E|]. split; [exact Hs|]. split; [|exact Hnd].
  intros Hnil. rewrite Hnil in H. discriminate H.
Defined.
