(* ===== verification/AuditStream.v ===== *)
(** * The audit stream ([internal/bpfmgr/audit.go], [audit_linux.go],
      [internal/timebase/clock.go])

    The loop that reads ring-buffer samples, decodes and stamps them, and
    writes each raw event with its derived records; the monitor that turns
    the kernel's drop counters into notices; receipt clocks.  Callbacks,
    clocks and the encoder are arguments: functions of the number of calls
    made before. *)
From S2P Require Import Prelude GoStd Netip Schema Limits Match NetworkMatch Generation Engine Events Enforcement KernelProgram KernelCapture.
Open Scope Z_scope.

(** ** Receipt clocks *)
Record Sample := mkSample { Sample_MonotonicNS : Z; Sample_UnixNS : Z; Sample_ErrorNS : Z }.
Inductive CalibrateError := InvalidClockSample.
Definition Calibrate (monotonicBeforeNS unixNS monotonicAfterNS : Z) : result CalibrateError Sample :=
  if (monotonicBeforeNS <? 0) || (unixNS <? 0) || (monotonicAfterNS <? monotonicBeforeNS) then Err InvalidClockSample
  else
    let interval := wrap64 (monotonicAfterNS - monotonicBeforeNS) in
    Ok (mkSample (wrap64 (monotonicBeforeNS + interval / 2)) unixNS (wrap64 (interval + 1) / 2)).

Record ReceiptTime := mkReceiptTime { Receipt_MonotonicNS : Z; Receipt_UnixNS : Z; Receipt_CalibrationErrorNS : Z }.
Inductive CaptureError (Er : Type) :=
| MonotonicBefore (e : Er)
| Realtime (e : Er)
| MonotonicAfter (e : Er)
| CaptureInvalid (e : CalibrateError).
Arguments MonotonicBefore {Er} e.
Arguments Realtime {Er} e.
Arguments MonotonicAfter {Er} e.
Arguments CaptureInvalid {Er} e.
(** The three clock readings, in nanoseconds. *)
Definition captureReceiptTime {Er} (before realtime after : result Er Z) : result (CaptureError Er) ReceiptTime :=
  match before with
  | Err e => Err (MonotonicBefore e)
  | Ok b => match realtime with
            | Err e => Err (Realtime e)
            | Ok u => match after with
                      | Err e => Err (MonotonicAfter e)
                      | Ok a => match Calibrate b u a with
                                | Err e => Err (CaptureInvalid e)
                                | Ok s => Ok (mkReceiptTime (Sample_MonotonicNS s) (Sample_UnixNS s) (Sample_ErrorNS s))
                                end
                      end
            end
  end.

Definition with_receipt (ev : KernelEvent) (r : ReceiptTime) : KernelEvent :=
  mkKernelEvent (Event_JSONSchemaVersion ev) (Event_SchemaVersion ev) (Event_EventType ev) (Event_EventTypeName ev)
    (Event_Action ev) (Event_ActionName ev) (Event_ActionResult ev) (Event_ActionResultName ev)
    (Event_TimestampNS ev) (Event_KernelMonotonicNS ev)
    (Receipt_MonotonicNS r) (Receipt_UnixNS r) (Receipt_CalibrationErrorNS r)
    (Event_CgroupID ev) (Event_InstanceID ev) (Event_ScopeCookie ev) (Event_PID ev) (Event_TGID ev) (Event_PPID ev)
    (Event_UID ev) (Event_ProfileID ev) (Event_PolicyID ev) (Event_RuleID ev) (Event_Flags ev) (Event_SyscallFlags ev)
    (Event_Comm ev) (Event_Data ev) (Event_Argv ev) (Event_CapturedArgc ev) (Event_DestinationIP ev) (Event_DestinationPort ev)
    (Event_AddressFamily ev) (Event_AddressFamilyName ev) (Event_Protocol ev) (Event_ProtocolName ev)
    (Event_DroppedEventType ev) (Event_DroppedEventTypeName ev) (Event_DroppedCount ev)
    (Event_Truncated ev) (Event_ExecutableTruncated ev) (Event_ArgumentsTruncated ev) (Event_FieldsUnavailable ev)
    (Event_RawEncoding ev).
(** [clock] is the outcome of the clock call, [None] without a clock. *)
Definition stampReceiptTime {Er} (ev : KernelEvent) (clock : option (result Er ReceiptTime)) : result Er KernelEvent :=
  match clock with
  | None => Ok ev
  | Some (Err e) => Err e
  | Some (Ok r) => Ok (with_receipt ev r)
  end.

(** ** The stream loop *)
Definition maxConsecutiveMalformedEvents : Z := 3.
Definition maxMalformedEventNotifications : Z := 3.

Record DerivedRecordError (Er : Type) := mkDerivedRecordError {
  DRE_RecordType : string;
  DRE_KernelMonotonicNS : Z;
  DRE_ServerReceivedMonotonicNS : Z;
  DRE_ServerReceivedUnixNS : Z;
  DRE_CgroupID : Z;
  DRE_InstanceID : Z;
  DRE_ScopeCookie : Z;
  DRE_PID : Z;
  DRE_EventType : Z;
  DRE_EventTypeName : string;
  DRE_Error : Er;
}.
Definition derivedRecordError {Er} (ev : KernelEvent) (e : Er) : DerivedRecordError Er :=
  mkDerivedRecordError Er "derived_record_error" (Event_KernelMonotonicNS ev) (Event_ServerReceivedMonotonicNS ev)
    (Event_ServerReceivedUnixNS ev) (Event_CgroupID ev) (Event_InstanceID ev) (Event_ScopeCookie ev) (Event_PID ev)
    (Event_EventType ev) (Event_EventTypeName ev) e.

(** What the encoder writes: a raw event, an error record or a record of the
    deriving callback. *)
Inductive stream_record (Er R : Type) :=
| RawEvent (ev : KernelEvent)
| ErrorRecord (e : DerivedRecordError Er)
| Derived (r : R).
Arguments RawEvent {Er R} ev.
Arguments ErrorRecord {Er R} e.
Arguments Derived {Er R} r.

Record AuditOptions (Er R : Type) := mkAuditOptions {
  OnMalformedEvent : bool;
  OnEvent : option (nat -> KernelEvent -> option Er);
  DeriveRecords : option (nat -> KernelEvent -> result Er (list R));
  ReceiptClock : option (nat -> result Er ReceiptTime);
}.
Arguments OnMalformedEvent {Er R} _.
Arguments OnEvent {Er R} _.
Arguments DeriveRecords {Er R} _.
Arguments ReceiptClock {Er R} _.

Inductive StreamError (Er : Type) :=
| ReadRingBuffer (e : Er)
| TooManyMalformed (n : Z) (e : DecodeError)
| DecodeFailed (e : DecodeError)
| ReceiptClocks (e : Er)
| WriteEvent (e : Er).
Arguments ReadRingBuffer {Er} e.
Arguments TooManyMalformed {Er} n e.
Arguments DecodeFailed {Er} e.
Arguments ReceiptClocks {Er} e.
Arguments WriteEvent {Er} e.

Inductive read_result (Er : Type) :=
| ReadSample (sample : list Z)
| ReadEOF
| ReadFailed (e : Er).
Arguments ReadSample {Er} sample.
Arguments ReadEOF {Er}.
Arguments ReadFailed {Er} e.

(** The local variables of the loop, the calls made to the callbacks and the
    records written. *)
Record stream_state (Er R : Type) := mkStreamState {
  consecutiveMalformed : Z;
  malformedNotifications : Z;
  notified : list DecodeError;
  decoded : nat;
  reported : list Er;
  written : list (stream_record Er R);
}.
Arguments mkStreamState {Er R} _ _ _ _ _ _.
Arguments consecutiveMalformed {Er R} _.
Arguments malformedNotifications {Er R} _.
Arguments notified {Er R} _.
Arguments decoded {Er R} _.
Arguments reported {Er R} _.
Arguments written {Er R} _.

Definition is_malformed (e : DecodeError) : bool := match e with ErrUnsupportedSchema _ => false | _ => true end.

Section Stream.
Context {Er R : Type} (opts : AuditOptions Er R) (encode : nat -> option Er).

(** Records are encoded one by one until an error. *)
Fixpoint EmitBatch (out : list (stream_record Er R)) (records : list (stream_record Er R))
  : list (stream_record Er R) * option Er :=
  match records with
  | [] => (out, None)
  | r :: rs => match encode (length out) with
               | Some e => (out, Some e)
               | None => EmitBatch (out ++ [r]) rs
               end
  end.

(** The records of the [n]-th decoded event, and the errors its callbacks
    returned. *)
Definition event_errors (n : nat) (ev : KernelEvent) : list Er :=
  match OnEvent opts with Some f => match f n ev with Some e => [e] | None => [] end | None => [] end.
Definition derived_records (n : nat) (ev : KernelEvent) : list (stream_record Er R) * list Er :=
  match DeriveRecords opts with
  | None => ([], [])
  | Some f => match f n ev with
              | Err e => ([ErrorRecord (derivedRecordError ev e)], [e])
              | Ok rs => (map Derived rs, [])
              end
  end.
Definition event_records (n : nat) (ev : KernelEvent) : list (stream_record Er R) :=
  RawEvent ev :: map (fun e => ErrorRecord (derivedRecordError ev e)) (event_errors n ev) ++ (derived_records n ev).1.

(** One iteration: the state, and the return value if the loop returns. *)
Definition stream_step (st : stream_state Er R) (r : read_result Er) : stream_state Er R * option (option (StreamError Er)) :=
  match r with
  | ReadEOF => (st, Some None)
  | ReadFailed e => (st, Some (Some (ReadRingBuffer e)))
  | ReadSample sample =>
      match DecodeKernelEvent sample with
      | Err e =>
          if is_malformed e then
            let consecutive := consecutiveMalformed st + 1 in
            let notify := OnMalformedEvent opts && (malformedNotifications st <? maxMalformedEventNotifications) in
            let st := mkStreamState consecutive
                        (if notify then malformedNotifications st + 1 else malformedNotifications st)
                        (if notify then notified st ++ [e] else notified st) (decoded st) (reported st) (written st) in
            (st, if maxConsecutiveMalformedEvents <=? consecutive then Some (Some (TooManyMalformed consecutive e)) else None)
          else (st, Some (Some (DecodeFailed e)))
      | Ok ev =>
          let st := mkStreamState 0 (malformedNotifications st) (notified st) (decoded st) (reported st) (written st) in
          match stampReceiptTime ev ((fun c => c (decoded st)) <$> ReceiptClock opts) with
          | Err e => (st, Some (Some (ReceiptClocks e)))
          | Ok ev =>
              let '(out, failed) := EmitBatch (written st) (event_records (decoded st) ev) in
              (mkStreamState 0 (malformedNotifications st) (notified st) (S (decoded st))
                 (reported st ++ event_errors (decoded st) ev ++ (derived_records (decoded st) ev).2) out,
               match failed with Some e => Some (Some (WriteEvent e)) | None => None end)
          end
      end
  end.
(** [None]: the loop waits for the next sample. *)
Fixpoint stream_from (st : stream_state Er R) (reads : list (read_result Er)) : stream_state Er R * option (option (StreamError Er)) :=
  match reads with
  | [] => (st, None)
  | r :: rs => match stream_step st r with
               | (st', None) => stream_from st' rs
               | done => done
               end
  end.
Definition streamAuditEventsTo (reads : list (read_result Er)) : stream_state Er R * option (option (StreamError Er)) :=
  stream_from (mkStreamState 0 0 [] 0 [] []) reads.
End Stream.

(** ** Lemmas: the loop *)
Definition malformed_sample (s : list Z) : bool :=
  match DecodeKernelEvent s with Err e => is_malformed e | Ok _ => false end.
Definition foreign_sample (s : list Z) : bool :=
  match DecodeKernelEvent s with Err e => negb (is_malformed e) | Ok _ => false end.
Definition decoded_sample (s : list Z) : option KernelEvent :=
  match DecodeKernelEvent s with Ok ev => Some ev | Err _ => None end.
(** Three malformed samples in a row. *)
Definition three_malformed (ss : list (list Z)) : Prop :=
  exists l1 a b c l2, ss = l1 ++ [a; b; c] ++ l2 /\ malformed_sample a = true /\ malformed_sample b = true /\ malformed_sample c = true.

Definition trailing (ss : list (list Z)) : Z := foldl (fun n s => if malformed_sample s then n + 1 else 0) 0 ss.
Lemma trailing_snoc ss s : trailing (ss ++ [s]) = if malformed_sample s then trailing ss + 1 else 0.
Proof. unfold trailing. by rewrite foldl_app. Qed.
Lemma trailing_nonneg ss : 0 <= trailing ss.
Proof. induction ss as [|s ss IH] using rev_ind; [done|]. rewrite trailing_snoc. destruct (malformed_sample s); lia. Qed.
Lemma trailing_two l a b : malformed_sample a = true -> malformed_sample b = true -> 2 <= trailing (l ++ [a; b]).
Proof.
  intros Ha Hb. change [a; b] with ([a] ++ [b]). rewrite app_assoc, !trailing_snoc, Ha, Hb. pose proof (trailing_nonneg l). lia.
Qed.
Lemma trailing_split ss : 2 <= trailing ss -> exists l a b, ss = l ++ [a; b] /\ malformed_sample a = true /\ malformed_sample b = true.
Proof.
  destruct ss as [|b ss] using rev_ind; [unfold trailing; cbn; lia|]. rewrite trailing_snoc. destruct (malformed_sample b) eqn:Eb; [|lia].
  destruct ss as [|a ss] using rev_ind; [unfold trailing; cbn; lia|]. rewrite trailing_snoc. destruct (malformed_sample a) eqn:Ea; [|lia].
  intros _. exists ss, a, b. by rewrite <-app_assoc.
Qed.
Lemma three_malformed_snoc ss s :
  three_malformed (ss ++ [s]) <-> three_malformed ss \/ malformed_sample s = true /\ 2 <= trailing ss.
Proof.
  split.
  - intros (l1 & a & b & c & l2 & E & Ha & Hb & Hc). destruct l2 as [|z l2] using rev_ind.
    + right. rewrite app_nil_r in E. replace (l1 ++ [a; b; c]) with ((l1 ++ [a; b]) ++ [c]) in E by by rewrite <-app_assoc.
      apply app_inj_tail in E as [-> ->]. split; [done|]. by apply trailing_two.
    + left. rewrite !app_assoc in E. apply app_inj_tail in E as [-> _]. exists l1, a, b, c, l2. by rewrite !app_assoc.
  - intros [(l1 & a & b & c & l2 & -> & H)|[Hs (l & a & b & -> & Ha & Hb)%trailing_split]].
    + exists l1, a, b, c, (l2 ++ [s]). by rewrite <-!app_assoc.
    + exists l, a, b, s, []. by rewrite <-app_assoc.
Qed.

Section StreamSpec.
Context {Er R : Type} (opts : AuditOptions Er R).
Context (Hclock : forall c n, ReceiptClock opts = Some c -> exists r, c n = Ok r).
Let encode : nat -> option Er := fun _ => None.

(** The [n]-th decoded event with its receipt time. *)
Definition stamped (n : nat) (ev : KernelEvent) : KernelEvent :=
  match ReceiptClock opts with
  | Some c => match c n with Ok r => with_receipt ev r | Err _ => ev end
  | None => ev
  end.
Definition expected_records (ss : list (list Z)) : list (stream_record Er R) :=
  concat (imap (fun n ev => event_records opts n (stamped n ev)) (omap decoded_sample ss)).

Lemma EmitBatch_all out rs : EmitBatch (R:=R) encode out rs = (out ++ rs, None).
Proof.
  revert out. induction rs as [|r rs IH]; intros out; cbn; [by rewrite app_nil_r|]. by rewrite IH, <-app_assoc.
Qed.
Lemma stamp_ok n ev : stampReceiptTime ev ((fun c => c n) <$> ReceiptClock opts) = Ok (stamped n ev).
Proof.
  unfold stampReceiptTime, stamped. destruct (ReceiptClock opts) as [c|] eqn:E; [|done].
  destruct (Hclock c n eq_refl) as [r Hr]. cbn. by rewrite Hr.
Qed.
Lemma expected_records_snoc ss s :
  expected_records (ss ++ [s]) = expected_records ss ++
    match decoded_sample s with
    | Some ev => event_records opts (length (omap decoded_sample ss)) (stamped (length (omap decoded_sample ss)) ev)
    | None => []
    end.
Proof.
  unfold expected_records. rewrite omap_app, imap_app, concat_app. f_equal. cbn. destruct (decoded_sample s); cbn; [|done].
  by rewrite Nat.add_0_r, app_nil_r.
Qed.

(** The state after the samples [ss]. *)
Record streamed (ss : list (list Z)) (st : stream_state Er R) : Prop := {
  sd_calm : ~ three_malformed ss;
  sd_known : Forall (fun s => foreign_sample s = false) ss;
  sd_malformed : consecutiveMalformed st = trailing ss;
  sd_decoded : decoded st = length (omap decoded_sample ss);
  sd_written : written st = expected_records ss;
  sd_notified : malformedNotifications st = len (notified st) /\ len (notified st) <= 3;
}.
(** How the loop ends at sample [s]. *)
Inductive stopped (ss : list (list Z)) (s : list Z) : option (StreamError Er) -> Prop :=
| stopped_malformed e : DecodeKernelEvent s = Err e -> is_malformed e = true -> three_malformed (ss ++ [s]) ->
    stopped ss s (Some (TooManyMalformed 3 e))
| stopped_foreign e : DecodeKernelEvent s = Err e -> foreign_sample s = true -> stopped ss s (Some (DecodeFailed e)).

Lemma stream_step_spec ss st s :
  streamed ss st ->
  let '(st', ret) := stream_step opts encode st (ReadSample s) in
  match ret with
  | None => streamed (ss ++ [s]) st'
  | Some r => stopped ss s r /\ written st' = expected_records ss /\ len (notified st') <= 3
  end.
Proof.
  intros [Hc Hk Hm Hd Hw [Hn1 Hn2]]. unfold stream_step. pose proof (three_malformed_snoc ss s) as H3. pose proof (trailing_snoc ss s) as Ht.
  pose proof (expected_records_snoc ss s) as Hw'. pose proof (trailing_nonneg ss) as Htn.
  assert (decoded_sample s = match DecodeKernelEvent s with Ok ev => Some ev | Err _ => None end) as Eds by done.
  assert (malformed_sample s = match DecodeKernelEvent s with Err e => is_malformed e | Ok _ => false end) as Ems by done.
  assert (foreign_sample s = match DecodeKernelEvent s with Err e => negb (is_malformed e) | Ok _ => false end) as Efs by done.
  destruct (DecodeKernelEvent s) as [ev|e] eqn:Edec; cbv zeta.
  - cbn [decoded written]. rewrite stamp_ok, EmitBatch_all.
    constructor; cbn [consecutiveMalformed malformedNotifications notified decoded written]; [| | | | |done].
    + rewrite H3, Ems. naive_solver.
    + apply Forall_app. split; [done|]. by apply Forall_singleton.
    + by rewrite Ht, Ems.
    + rewrite omap_app. cbn. rewrite Eds. rewrite length_app, Hd. cbn. lia.
    + rewrite Hw, Hw', Eds. by rewrite <-Hd.
  - destruct (is_malformed e) eqn:Em; [|split; [by apply stopped_foreign|done]].
    set (notify := _ && _).
    assert (len (if notify then notified st ++ [e] else notified st) <= 3 /\
      (if notify then malformedNotifications st + 1 else malformedNotifications st) = len (if notify then notified st ++ [e] else notified st)) as [N1 N2].
    { unfold notify. destruct (OnMalformedEvent opts); cbn [andb]; [|done].
      destruct (Z.ltb_spec (malformedNotifications st) maxMalformedEventNotifications) as [Hlt|]; [|done].
      unfold maxMalformedEventNotifications in Hlt. rewrite len_app. unfold len at 2 4. cbn [length]. lia. }
    unfold maxConsecutiveMalformedEvents. destruct (Z.leb_spec 3 (consecutiveMalformed st + 1)) as [Hge|Hlt].
    + assert (consecutiveMalformed st + 1 = 3) as ->.
      { rewrite Hm in *. destruct (Z.eq_dec (trailing ss) 2); [lia|]. exfalso. apply Hc.
        destruct ss as [|x xs _] using rev_ind; [unfold trailing in Hge; cbn in Hge; lia|].
        apply three_malformed_snoc. right. rewrite trailing_snoc in *. destruct (malformed_sample x); [|lia]. split; [done|lia]. }
      split; [apply stopped_malformed; [done..|]; apply H3; right; rewrite Ems; split; [done|lia]|]. by cbn.
    + constructor; cbn [consecutiveMalformed malformedNotifications notified decoded written]; [| | | | |done].
      * rewrite H3. rewrite Hm in Hlt. intros [?|[_ ?]]; [done|lia].
      * apply Forall_app. split; [done|]. by apply Forall_singleton.
      * rewrite Ht, Ems. lia.
      * rewrite omap_app. cbn. rewrite Eds. by rewrite app_nil_r.
      * by rewrite Hw, Hw', Eds, app_nil_r.
Qed.
Lemma stream_from_spec ss : forall done st,
  streamed done st ->
  let '(st', ret) := stream_from opts encode st (map ReadSample ss) in
  match ret with
  | None => streamed (done ++ ss) st'
  | Some r => exists l1 s l2, done ++ ss = l1 ++ s :: l2 /\ ~ three_malformed l1 /\ Forall (fun s => foreign_sample s = false) l1 /\
      stopped l1 s r /\ written st' = expected_records l1 /\ len (notified st') <= 3
  end.
Proof.
  induction ss as [|s ss IH]; intros done st Hst; cbn [map stream_from]; [by rewrite app_nil_r|].
  pose proof (stream_step_spec done st s Hst) as Hstep. destruct (stream_step opts encode st (ReadSample s)) as [st' [r|]].
  - destruct Hst as [Hc Hk _ _ _ _]. exists done, s, ss. naive_solver.
  - specialize (IH (done ++ [s]) st' Hstep). by rewrite <-app_assoc in IH.
Qed.
End StreamSpec.

(** ** Drop counters *)
Definition droppedStatsBase : Z := 16.
Inductive SnapshotError := LookupFailed (eventType : Z).
(** The per-CPU arrays summed for the types 1 to 7. *)
Definition cpu_value (key : Z) (stats : list Z) : option Z := stats !! Z.to_nat key.
Definition snapshot_type (cpus : list (list Z)) (eventType : Z) : result SnapshotError (Z * Z) :=
  match mapM (cpu_value (droppedStatsBase + eventType)) cpus with
  | None => Err (LookupFailed eventType)
  | Some values => Ok (eventType, foldl (fun sum v => wrap64 (sum + v)) 0 values)
  end.
Definition DropCounter_Snapshot (cpus : list (list Z)) : result SnapshotError (gmap Z Z) :=
  entries ← map_result (snapshot_type cpus) [1; 2; 3; 4; 5; 6; 7]; Ok (list_to_map entries).

(** An event with the zero value in every other field. *)
Definition drop_notice (eventType delta : Z) : KernelEvent :=
  mkKernelEvent JSONSchemaVersion WireSchemaVersion EventTypeDropNotice (EventTypeName EventTypeDropNotice)
    KernelActionAudit (ActionName KernelActionAudit) ActionResultNone (ActionResultName ActionResultNone)
    0 0 0 0 0 0 0 0 0 0 0 0 0 0 0 0 0 "" "" [] 0 "" 0 0 "" 0 ""
    eventType (EventTypeName eventType) delta false false false false ∅.
Definition drop_delta (value prior : Z) : Z := if prior <=? value then value - prior else value.
(** The notices for one snapshot, in the order of the event types. *)
Definition notices (previous current : gmap Z Z) : list KernelEvent :=
  omap (fun '(eventType, value) =>
          let delta := drop_delta value (default 0 (previous !! eventType)) in
          if delta =? 0 then None else Some (drop_notice eventType delta))
       (sort_by (fun a b => a.1 <? b.1) (map_to_list current)).

Inductive MonitorError (Er : Type) :=
| ReadInitial (e : Er)
| ReadCounters (e : Er)
| ReadFinal (e : Er)
| NoticeClocks (e : Er)
| WriteNotice (e : Er).
Arguments ReadInitial {Er} e.
Arguments ReadCounters {Er} e.
Arguments ReadFinal {Er} e.
Arguments NoticeClocks {Er} e.
Arguments WriteNotice {Er} e.
(** The wake-ups of the monitor: the ticker or the end of the context, each
    with the snapshot read then. *)
Inductive wakeup (Er : Type) :=
| Tick (snapshot : result Er (gmap Z Z))
| Finish (snapshot : result Er (gmap Z Z)).
Arguments Tick {Er} snapshot.
Arguments Finish {Er} snapshot.

Record monitor_state := mkMonitorState {
  previous_counters : gmap Z Z;
  emitted_notices : list KernelEvent;
}.
Section Monitor.
Context {Er : Type} (clock : option (nat -> result Er ReceiptTime)) (encode_notice : nat -> option Er).

(** Notices are stamped, handed to the callback and written one by one. *)
Fixpoint emit_notices (out : list KernelEvent) (evs : list KernelEvent) : list KernelEvent * option (MonitorError Er) :=
  match evs with
  | [] => (out, None)
  | ev :: evs' =>
      match stampReceiptTime ev ((fun c => c (length out)) <$> clock) with
      | Err e => (out, Some (NoticeClocks e))
      | Ok ev => match encode_notice (length out) with
                 | Some e => (out, Some (WriteNotice e))
                 | None => emit_notices (out ++ [ev]) evs'
                 end
      end
  end.
Definition emitDeltas (st : monitor_state) (current : gmap Z Z) : monitor_state * option (MonitorError Er) :=
  match emit_notices (emitted_notices st) (notices (previous_counters st) current) with
  | (out, None) => (mkMonitorState current out, None)
  | (out, Some e) => (mkMonitorState (previous_counters st) out, Some e)
  end.
(** The return value is [None] while the monitor waits. *)
Fixpoint monitor_from (st : monitor_state) (ws : list (wakeup Er)) : monitor_state * option (option (MonitorError Er)) :=
  match ws with
  | [] => (st, None)
  | Finish (Err e) :: _ => (st, Some (Some (ReadFinal e)))
  | Finish (Ok current) :: _ => let '(st', err) := emitDeltas st current in (st', Some err)
  | Tick (Err e) :: _ => (st, Some (Some (ReadCounters e)))
  | Tick (Ok current) :: ws' =>
      match emitDeltas st current with
      | (st', Some e) => (st', Some (Some e))
      | (st', None) => monitor_from st' ws'
      end
  end.
Definition monitorDropCounters (initial : result Er (gmap Z Z)) (ws : list (wakeup Er))
  : monitor_state * option (option (MonitorError Er)) :=
  let st := mkMonitorState ∅ [] in
  match initial with
  | Err e => (st, Some (Some (ReadInitial e)))
  | Ok current => match emitDeltas st current with
                  | (st', Some e) => (st', Some (Some e))
                  | (st', None) => monitor_from st' ws
                  end
  end.
End Monitor.

(** ** Lemmas: notices *)
Definition dropped_of (ty : Z) (ev : KernelEvent) : Z := if Event_DroppedEventType ev =? ty then Event_DroppedCount ev else 0.
Definition notice_sum (ty : Z) (evs : list KernelEvent) : Z := foldr Z.add 0 (map (dropped_of ty) evs).
Definition counter (m : gmap Z Z) (ty : Z) : Z := default 0 (m !! ty).
(** Counters only grow. *)
Definition counters_le (m m' : gmap Z Z) : Prop := forall ty, 0 <= counter m ty <= counter m' ty.

Lemma notice_sum_app ty l l' : notice_sum ty (l ++ l') = notice_sum ty l + notice_sum ty l'.
Proof. unfold notice_sum. rewrite map_app, foldr_app. induction (map (dropped_of ty) l); cbn; lia. Qed.
Definition entry_notice (previous : gmap Z Z) (kv : Z * Z) : option KernelEvent :=
  let '(eventType, value) := kv in
  let delta := drop_delta value (default 0 (previous !! eventType)) in
  if delta =? 0 then None else Some (drop_notice eventType delta).
Lemma entry_notice_sum previous l ty :
  NoDup l.*1 -> Forall (fun kv => counter previous kv.1 <= kv.2) l ->
  notice_sum ty (omap (entry_notice previous) l) =
  match (list_to_map l : gmap Z Z) !! ty with Some v => v - counter previous ty | None => 0 end.
Proof.
  unfold notice_sum. induction l as [|[k v] l IH]; intros Hnd Hle; [cbn; by rewrite lookup_empty|].
  change (list_to_map ((k, v) :: l)) with (<[k := v]> (list_to_map l : gmap Z Z)).
  change (omap (entry_notice previous) ((k, v) :: l)) with
    (match entry_notice previous (k, v) with Some y => y :: omap (entry_notice previous) l | None => omap (entry_notice previous) l end).
  unfold entry_notice at 1.
  apply NoDup_cons in Hnd as [Hk Hnd]. apply Forall_cons in Hle as [Hv Hle]. specialize (IH Hnd Hle). cbn in Hv.
  unfold drop_delta. fold (counter previous k). rewrite (proj2 (Z.leb_le _ _)) by done.
  destruct (decide (k = ty)) as [->|Hne].
  - rewrite lookup_insert_eq. rewrite not_elem_of_list_to_map_1 in IH by done.
    destruct (Z.eqb_spec (v - counter previous ty) 0) as [E|E]; [rewrite IH; lia|].
    cbn [map foldr]. rewrite IH. unfold dropped_of at 1. cbn. rewrite Z.eqb_refl. lia.
  - rewrite lookup_insert_ne by done. destruct (Z.eqb_spec (v - counter previous k) 0) as [E|E]; [done|].
    cbn [map foldr]. rewrite IH. unfold dropped_of at 1. cbn. by rewrite (proj2 (Z.eqb_neq _ _) Hne).
Qed.
Lemma notices_spec previous current ty :
  counters_le previous current ->
  notice_sum ty (notices previous current) = counter current ty - counter previous ty /\
  Forall (fun ev => 0 < Event_DroppedCount ev) (notices previous current).
Proof.
  intros Hle.
  assert (notices previous current = omap (entry_notice previous) (sort_by (fun a b => a.1 <? b.1) (map_to_list current))) as E by done.
  set (l := sort_by (fun a b : Z * Z => a.1 <? b.1) (map_to_list current)) in *.
  assert (l ≡ₚ map_to_list current) as Hp by apply sort_by_perm.
  assert (NoDup l.*1) as Hnd by (rewrite Hp; apply NoDup_fst_map_to_list).
  assert (Forall (fun kv => counter previous kv.1 <= kv.2) l) as Hall.
  { rewrite Hp. apply Forall_forall. intros [k v] Hkv%elem_of_map_to_list. cbn. destruct (Hle k) as [_ H]. unfold counter in H at 2. by rewrite Hkv in H. }
  assert ((list_to_map l : gmap Z Z) = current) as Hm by (rewrite (list_to_map_proper _ _ Hnd Hp); apply list_to_map_to_list).
  rewrite E. split.
  - rewrite (entry_notice_sum _ _ _ Hnd Hall), Hm. unfold counter at 2. destruct (current !! ty) eqn:Ec; cbn [default]; [done|].
    destruct (Hle ty) as [H0 H1]. unfold counter in *. rewrite Ec in H1. cbn in *. lia.
  - apply Forall_forall. intros ev ([k v] & Hkv & Hev)%list_elem_of_omap. cbn in Hev. unfold drop_delta in Hev.
    rewrite Forall_forall in Hall. specialize (Hall _ Hkv). cbn in Hall. fold (counter previous k) in Hev.
    rewrite (proj2 (Z.leb_le _ _)) in Hev by done. destruct (Z.eqb_spec (v - counter previous k) 0); [done|].
    injection Hev as <-. cbn. lia.
Qed.

Section MonitorSpec.
Context {Er : Type} (clock : option (nat -> result Er ReceiptTime)).
Context (Hclock : forall c n, clock = Some c -> exists r, c n = Ok r).
Let encode : nat -> option Er := fun _ => None.

Lemma emit_notices_spec evs : forall out, exists evs',
  emit_notices clock encode out evs = (out ++ evs', None) /\ (forall ty, notice_sum ty evs' = notice_sum ty evs) /\
  (Forall (fun ev => 0 < Event_DroppedCount ev) evs -> Forall (fun ev => 0 < Event_DroppedCount ev) evs').
Proof.
  induction evs as [|ev evs IH]; intros out; cbn [emit_notices].
  { exists []. by rewrite app_nil_r. }
  assert (exists ev', stampReceiptTime ev ((fun c => c (length out)) <$> clock) = Ok ev' /\
    Event_DroppedEventType ev' = Event_DroppedEventType ev /\ Event_DroppedCount ev' = Event_DroppedCount ev) as (ev' & -> & E1 & E2).
  { destruct clock as [c|]; cbn; [|eauto]. destruct (Hclock c (length out) eq_refl) as [r Hr]. rewrite Hr. by exists (with_receipt ev r). }
  destruct (IH (out ++ [ev'])) as (evs' & -> & Hs & Hf). exists (ev' :: evs'). split_and!.
  - by rewrite <-app_assoc.
  - intros ty. unfold notice_sum in *. cbn. rewrite Hs. unfold dropped_of. by rewrite E1, E2.
  - rewrite !Forall_cons. intros [? ?]. split; [by rewrite E2|auto].
Qed.
Definition reports (st : monitor_state) : Prop :=
  (forall ty, notice_sum ty (emitted_notices st) = counter (previous_counters st) ty) /\
  Forall (fun ev => 0 < Event_DroppedCount ev) (emitted_notices st).
Lemma emitDeltas_spec st current :
  reports st -> counters_le (previous_counters st) current ->
  exists st', emitDeltas clock encode st current = (st', None) /\ reports st' /\ previous_counters st' = current.
Proof.
  intros [Hs Hf] Hle. unfold emitDeltas.
  destruct (emit_notices_spec (notices (previous_counters st) current) (emitted_notices st)) as (evs & -> & Hsum & Hpos).
  eexists. split; [reflexivity|]. split; [|done]. split; cbn [emitted_notices previous_counters].
  - intros ty. rewrite notice_sum_app, Hs, Hsum. destruct (notices_spec (previous_counters st) current ty Hle) as [-> _]. lia.
  - apply Forall_app. split; [done|]. apply Hpos. by apply (notices_spec _ _ 0).
Qed.

(** Snapshots of growing counters, ending with [final]. *)
Fixpoint growing (previous : gmap Z Z) (snapshots : list (gmap Z Z)) : Prop :=
  match snapshots with
  | [] => True
  | m :: ms => counters_le previous m /\ growing m ms
  end.
Lemma monitor_from_spec ms final : forall st,
  reports st -> growing (previous_counters st) (ms ++ [final]) ->
  exists st', monitor_from clock encode st (map (fun m => Tick (Ok m)) ms ++ [Finish (Ok final)]) = (st', Some None) /\
    reports st' /\ previous_counters st' = final.
Proof.
  induction ms as [|m ms IH]; intros st Hst [Hle Hg]; cbn [map app monitor_from].
  - destruct (emitDeltas_spec st final Hst Hle) as (st' & -> & ? & ?). eauto.
  - destruct (emitDeltas_spec st m Hst Hle) as (st' & -> & Hst' & E). apply IH; [done|]. by rewrite E.
Qed.
End MonitorSpec.

(** *** Clocks and writers that may fail *)
Section MonitorAny.
Context {Er : Type} (clock : option (nat -> result Er ReceiptTime)) (encode : nat -> option Er).
(** Why the [n]-th notice could not be written. *)
Inductive report_failed (n : nat) : MonitorError Er -> Prop :=
| failed_clock c e : clock = Some c -> c n = Err e -> report_failed n (NoticeClocks e)
| failed_write e : encode n = Some e -> report_failed n (WriteNotice e).
(** Every notice reports a loss and carries the reading of the clock taken
    for it. *)
Definition noticed (out : list KernelEvent) : Prop :=
  forall i ev, out !! i = Some ev -> 0 < Event_DroppedCount ev /\ forall c, clock = Some c -> exists r, c i = Ok r /\ with_receipt ev r = ev.
Lemma notice_sum_nonneg ty evs : Forall (fun ev => 0 < Event_DroppedCount ev) evs -> 0 <= notice_sum ty evs.
Proof.
  unfold notice_sum. induction 1 as [|ev evs Hev _ IH]; cbn [map foldr]; [done|]. unfold dropped_of at 1. destruct (_ =? ty); lia.
Qed.
Lemma emit_notices_any evs : forall out, Forall (fun ev => 0 < Event_DroppedCount ev) evs -> noticed out ->
  let '(out', err) := emit_notices clock encode out evs in noticed out' /\
  match err with
  | None => forall ty, notice_sum ty out' = notice_sum ty out + notice_sum ty evs
  | Some e => report_failed (length out') e /\ forall ty, notice_sum ty out <= notice_sum ty out' <= notice_sum ty out + notice_sum ty evs
  end.
Proof.
  induction evs as [|ev evs IH]; intros out Hpos Hout; cbn [emit_notices].
  { split; [done|]. intros ty. change (notice_sum ty []) with 0. lia. }
  pose proof (fun ty => notice_sum_nonneg ty _ Hpos) as Hnn. apply Forall_cons in Hpos as [Hev Hpos].
  destruct (stampReceiptTime ev ((fun c => c (length out)) <$> clock)) as [ev'|e] eqn:Es.
  2:{ split; [done|]. split; [|intros ty; specialize (Hnn ty); lia]. destruct clock as [c|] eqn:Ec; [|done]. cbn in Es. destruct (c (length out)) eqn:Er'; [done|]. injection Es as <-. by eapply failed_clock. }
  destruct (encode (length out)) as [e|] eqn:Ee; [split; [done|]; split; [by apply failed_write|intros ty; specialize (Hnn ty); lia]|].
  assert (Event_DroppedEventType ev' = Event_DroppedEventType ev /\ Event_DroppedCount ev' = Event_DroppedCount ev /\
    forall c, clock = Some c -> exists r, c (length out) = Ok r /\ with_receipt ev' r = ev') as (E1 & E2 & E3).
  { destruct clock as [c|]; cbn in Es; [|by injection Es as <-]. destruct (c (length out)) as [r|] eqn:Er'; [|done]. injection Es as <-. split_and!; [done..|]. intros ? [= <-]. by exists r. }
  assert (noticed (out ++ [ev'])) as Hout'.
  { intros i x. rewrite lookup_snoc_Some. intros [[_ Hx]|[-> <-]]; [by apply Hout|]. split; [by rewrite E2|done]. }
  specialize (IH (out ++ [ev']) Hpos Hout'). destruct (emit_notices clock encode (out ++ [ev']) evs) as [out' err]. destruct IH as [H1 H2]. split; [done|].
  assert (forall ty, notice_sum ty (out ++ [ev']) = notice_sum ty out + dropped_of ty ev /\ notice_sum ty (ev :: evs) = dropped_of ty ev + notice_sum ty evs /\ 0 <= dropped_of ty ev) as Hs.
  { intros ty. rewrite notice_sum_app. unfold notice_sum, dropped_of. cbn [map foldr]. rewrite E1, E2. split_and!; [lia|done|]. destruct (_ =? ty); lia. }
  destruct err as [e|]; [destruct H2 as [H2 H3]; split; [done|]|]; intros ty; destruct (Hs ty) as (S1 & S2 & S3); [specialize (H3 ty)|specialize (H2 ty)]; lia.
Qed.
Lemma emitDeltas_any st current : (forall ty, notice_sum ty (emitted_notices st) = counter (previous_counters st) ty) -> noticed (emitted_notices st) ->
  counters_le (previous_counters st) current ->
  let '(st', err) := emitDeltas clock encode st current in noticed (emitted_notices st') /\
  match err with
  | None => previous_counters st' = current /\ forall ty, notice_sum ty (emitted_notices st') = counter current ty
  | Some e => report_failed (length (emitted_notices st')) e /\ forall ty, notice_sum ty (emitted_notices st') <= counter current ty
  end.
Proof.
  intros Hs Hn Hle. unfold emitDeltas. pose proof (fun ty => notices_spec (previous_counters st) current ty Hle) as Hnotices. destruct (Hnotices 0) as [_ Hpos].
  pose proof (emit_notices_any (notices (previous_counters st) current) (emitted_notices st) Hpos Hn) as He.
  destruct (emit_notices clock encode _ _) as [out [e|]]; destruct He as [H1 H2]; (split; [done|]).
  - destruct H2 as [H2 H3]. split; [done|]. intros ty. specialize (H3 ty). destruct (Hnotices ty) as [E _]. rewrite Hs, E in H3. cbn [emitted_notices]. lia.
  - split; [done|]. intros ty. cbn [emitted_notices]. rewrite H2, Hs. destruct (Hnotices ty) as [-> _]. lia.
Qed.
Lemma growing_last ms : forall previous final ty, growing previous (ms ++ [final]) -> counter previous ty <= counter final ty.
Proof.
  induction ms as [|m ms IH]; intros previous final ty; cbn; [intros [Hle _]; apply Hle|]. intros [Hle Hg]. specialize (IH m final ty Hg). destruct (Hle ty). lia.
Qed.
(** The outcome of a monitor that saw the counters [final] last. *)
Definition monitored (final : gmap Z Z) (r : monitor_state * option (option (MonitorError Er))) : Prop :=
  exists st ret, r = (st, Some ret) /\ noticed (emitted_notices st) /\
    match ret with
    | None => forall ty, notice_sum ty (emitted_notices st) = counter final ty
    | Some e => report_failed (length (emitted_notices st)) e /\ forall ty, notice_sum ty (emitted_notices st) <= counter final ty
    end.
Lemma monitor_from_any ms final : forall st, (forall ty, notice_sum ty (emitted_notices st) = counter (previous_counters st) ty) -> noticed (emitted_notices st) ->
  growing (previous_counters st) (ms ++ [final]) -> monitored final (monitor_from clock encode st (map (fun m => Tick (Ok m)) ms ++ [Finish (Ok final)])).
Proof.
  induction ms as [|m ms IH]; intros st Hs Hn [Hle Hg]; cbn [map app monitor_from].
  - pose proof (emitDeltas_any st final Hs Hn Hle) as He. destruct (emitDeltas clock encode st final) as [st' err]. exists st', err. split; [done|]. destruct He as [H1 H2]. split; [done|]. destruct err; [done|]. apply H2.
  - pose proof (emitDeltas_any st m Hs Hn Hle) as He. destruct (emitDeltas clock encode st m) as [st' [e|]]; destruct He as [H1 [H2 H3]].
    + exists st', (Some e). split_and!; [done..|]. intros ty. specialize (H3 ty). pose proof (growing_last ms m final ty Hg). lia.
    + apply IH; [by rewrite H2|done|by rewrite H2].
Qed.
Lemma monitor_any initial ms final : growing ∅ (initial :: ms ++ [final]) ->
  monitored final (monitorDropCounters clock encode (Ok initial) (map (fun m => Tick (Ok m)) ms ++ [Finish (Ok final)])).
Proof.
  intros [Hle Hg]. unfold monitorDropCounters. assert (noticed []) as Hn by (by intros i ev; rewrite lookup_nil).
  pose proof (emitDeltas_any (mkMonitorState ∅ []) initial (fun _ => eq_refl) Hn Hle) as He. destruct (emitDeltas clock encode _ initial) as [st' [e|]]; destruct He as [H1 [H2 H3]].
  - exists st', (Some e). split_and!; [done..|]. intros ty. specialize (H3 ty). pose proof (growing_last ms initial final ty Hg). lia.
  - apply monitor_from_any; [by rewrite H2|done|by rewrite H2].
Qed.
End MonitorAny.

(** ** Properties *)
(** The stream loop keeps every fact and stops where it must.  With
    working clocks and encoder, the loop writes for each decodable sample its
    raw event followed by the records or the error of the callbacks, in order,
    and nothing else; it keeps running unless it meets a record of a foreign
    schema or the third malformed sample in a row, and then returns that error
    having written everything before it; at most three malformed samples are
    notified. *)
Theorem stream_keeps_facts {Er R} (opts : AuditOptions Er R) ss :
  (forall c n, ReceiptClock opts = Some c -> exists r, c n = Ok r) ->
  match streamAuditEventsTo opts (fun _ => None) (map ReadSample ss) with
  | (st, None) => ~ three_malformed ss /\ Forall (fun s => foreign_sample s = false) ss /\
      written st = expected_records opts ss /\ len (notified st) <= 3
  | (st, Some ret) => exists l1 s l2, ss = l1 ++ s :: l2 /\ ~ three_malformed l1 /\
      Forall (fun s => foreign_sample s = false) l1 /\ stopped l1 s ret /\ written st = expected_records opts l1 /\ len (notified st) <= 3
  end.
Proof.
  intros Hclock. unfold streamAuditEventsTo.
  assert (streamed opts [] (mkStreamState 0 0 [] 0 [] [])) as H0.
  { constructor; try done. intros ([|] & a & b & c & l2 & E & _); discriminate E. }
  pose proof (stream_from_spec opts Hclock ss [] _ H0) as H. destruct (stream_from _ _ _ _) as [st [ret|]]; [exact H|].
  destruct H as [H1 H2 _ _ H5 [_ H6]]. done.
Qed.

(** Drop notices are exact.  While the kernel's drop counters only grow,
    the counts of the notices of each event type add up to its final counter
    when the monitor finishes, and every notice reports a positive count. *)
Theorem drop_notices_exact {Er} (clock : option (nat -> result Er ReceiptTime)) initial ms final :
  (forall c n, clock = Some c -> exists r, c n = Ok r) -> growing ∅ (initial :: ms ++ [final]) ->
  exists st, monitorDropCounters clock (fun _ => None) (Ok initial) (map (fun m => Tick (Ok m)) ms ++ [Finish (Ok final)]) = (st, Some None) /\
    (forall ty, notice_sum ty (emitted_notices st) = counter final ty) /\
    Forall (fun ev => 0 < Event_DroppedCount ev) (emitted_notices st).
Proof.
  intros Hclock [Hle Hg]. unfold monitorDropCounters.
  assert (reports (mkMonitorState ∅ [])) as H0 by (split; [done|constructor]).
  destruct (emitDeltas_spec clock Hclock _ initial H0 Hle) as (st & -> & Hst & E).
  destruct (monitor_from_spec clock Hclock ms final st Hst) as (st' & -> & [H1 H2] & E'); [by rewrite E|].
  exists st'. split_and!; [done| |done]. intros ty. by rewrite H1, E'.
Qed.

(** A receipt time is calibrated.  On valid 64-bit readings the
    monotonic midpoint lies between the two monotonic readings and no instant
    of that interval is farther from it than the reported error, which is at
    most half the interval rounded up. *)
Theorem Calibrate_bounds before unix after s t :
  after <= i64_max -> Calibrate before unix after = Ok s -> before <= t <= after ->
  before <= Sample_MonotonicNS s <= after /\ Z.abs (t - Sample_MonotonicNS s) <= Sample_ErrorNS s /\
  2 * Sample_ErrorNS s <= after - before + 1 /\ Sample_UnixNS s = unix.
Proof.
  unfold Calibrate, i64_max. intros Hmax. destruct (_ || _ || _) eqn:E; [done|].
  apply orb_false_iff in E as [[E1 E2]%orb_false_iff E3]. apply Z.ltb_ge in E1, E2, E3. cbv zeta. intros <-%Ok_inj Ht.
  cbn [Sample_MonotonicNS Sample_UnixNS Sample_ErrorNS]. rewrite (wrap64_small (after - before)) by (unfold u64_max; lia).
  pose proof (Z.div_mod (after - before) 2). pose proof (Z.mod_pos_bound (after - before) 2).
  rewrite !wrap64_small by (unfold u64_max; lia).
  pose proof (Z.div_mod (after - before + 1) 2). pose proof (Z.mod_pos_bound (after - before + 1) 2). lia.
Qed.

(** ** From the kernel's losses to the notices *)
Section Losses.
Context `{UserMemory} (scopes : gmap Z agentshield_scope_value) (m : network_maps).

(** A history lists what each CPU ran since the maps were loaded. *)
Definition cpu_stats (ops : list kernel_op) : list Z := agentshield_stats_map (foldl run_op (initial_kernel scopes m) ops).
Definition drop_snapshot (history : list (list kernel_op)) : result SnapshotError (gmap Z Z) :=
  DropCounter_Snapshot (map cpu_stats history).
Definition total_lost (ty : Z) (history : list (list kernel_op)) : Z := foldr Z.add 0 (map (count (lost scopes ty)) history).
Definition extends (h h' : list (list kernel_op)) : Prop := Forall2 (fun ops ops' => exists more, ops' = ops ++ more) h h'.
Fixpoint histories_grow (h : list (list kernel_op)) (hs : list (list (list kernel_op))) : Prop :=
  match hs with
  | [] => True
  | h' :: hs' => extends h h' /\ histories_grow h' hs'
  end.

Lemma count_nonneg {A} (f : A -> bool) l : 0 <= count f l.
Proof. apply len_nonneg. Qed.
Lemma total_lost_nonneg ty h : 0 <= total_lost ty h.
Proof.
  unfold total_lost. induction h as [|ops h IH]; cbn; [done|]. pose proof (count_nonneg (lost scopes ty) ops). lia.
Qed.
Lemma total_lost_mono ty h h' : extends h h' -> total_lost ty h <= total_lost ty h'.
Proof.
  induction 1 as [|ops ops' h h' [more ->] Hext IH]; cbn; [done|]. unfold total_lost in *. cbn. rewrite count_app.
  pose proof (count_nonneg (lost scopes ty) more). lia.
Qed.

Lemma sum_values {A} (f : A -> Z) (l : list A) : forall acc,
  0 <= acc -> Forall (fun x => 0 <= f x) l -> acc + foldr Z.add 0 (map f l) <= u64_max ->
  foldl (fun sum v => wrap64 (sum + v)) acc (map f l) = acc + foldr Z.add 0 (map f l).
Proof.
  induction l as [|x l IH]; intros acc Hacc Hf Hle; cbn in *; [lia|]. apply Forall_cons in Hf as [Hx Hf].
  assert (0 <= foldr Z.add 0 (map f l)).
  { clear -Hf. induction Hf as [|y l Hy Hl IH]; cbn; [lia|]. lia. }
  rewrite (wrap64_small (acc + f x)) by lia. rewrite IH by (done || lia). lia.
Qed.
Lemma snapshot_type_value ty (f : list kernel_op -> Z) h :
  (forall ops, ops ∈ h -> cpu_value (16 + ty) (cpu_stats ops) = Some (f ops) /\ 0 <= f ops) ->
  foldr Z.add 0 (map f h) <= u64_max ->
  snapshot_type (map cpu_stats h) ty = Ok (ty, foldr Z.add 0 (map f h)).
Proof.
  intros Hf Hle. unfold snapshot_type, droppedStatsBase.
  assert (mapM (cpu_value (16 + ty)) (map cpu_stats h) = Some (map f h)) as ->.
  { apply mapM_Some. clear Hle. induction h as [|ops h IH]; cbn; constructor; [apply Hf; left|].
    apply IH. intros ops' Hin. apply Hf. by right. }
  rewrite sum_values; [by rewrite Z.add_0_l|done| |by rewrite Z.add_0_l].
  apply Forall_forall. intros ops Hin. by apply Hf.
Qed.
Lemma count_bound ty h ops : ops ∈ h -> count (lost scopes ty) ops <= total_lost ty h.
Proof.
  unfold total_lost. induction h as [|x h IH]; [by intros []%elem_of_nil|]. cbn.
  pose proof (count_nonneg (lost scopes ty) x). pose proof (total_lost_nonneg ty h) as Ht. unfold total_lost in Ht.
  intros [->|Hin]%elem_of_cons; [lia|]. specialize (IH Hin). lia.
Qed.
Ltac go_range :=
  repeat match goal with |- context [bool_decide (?a <= ?b <= ?c)] => const_bool (bool_decide (a <= b <= c)) end; cbv iota.
Lemma drop_snapshot_spec h :
  (forall ty, 1 <= ty <= 3 -> total_lost ty h <= u64_max) ->
  exists mm, drop_snapshot h = Ok mm /\ forall ty, counter mm ty = if bool_decide (1 <= ty <= 3) then total_lost ty h else 0.
Proof.
  intros Hmax.
  assert (forall ty, 1 <= ty <= 3 -> snapshot_type (map cpu_stats h) ty = Ok (ty, total_lost ty h)) as Hlow.
  { intros ty Hty. apply snapshot_type_value; [|by apply Hmax]. intros ops Hin.
    destruct (accounted_run scopes m ops) as [_ _ _ Hd _ _]. split; [|apply count_nonneg].
    unfold cpu_value, cpu_stats. rewrite (Hd ty Hty). f_equal. apply wrap64_small.
    pose proof (count_nonneg (lost scopes ty) ops). pose proof (count_bound ty h ops Hin). specialize (Hmax ty Hty). lia. }
  assert (forall ty, 4 <= ty <= 7 -> snapshot_type (map cpu_stats h) ty = Ok (ty, 0)) as Hhigh.
  { intros ty Hty. assert (foldr Z.add 0 (map (fun _ : list kernel_op => 0) h) = 0) as Ez by (clear; induction h; cbn; lia).
    trans (Ok (E:=SnapshotError) (ty, foldr Z.add 0 (map (fun _ : list kernel_op => 0) h))); [|by rewrite Ez]. apply snapshot_type_value; [|rewrite Ez; by vm_compute]. intros ops Hin. split; [|done].
    unfold cpu_value, cpu_stats. destruct (accounted_run scopes m ops) as [_ _ _ _ _ Hr]. apply Hr; lia. }
  unfold drop_snapshot, DropCounter_Snapshot. cbn [map_result].
  rewrite (Hlow 1), (Hlow 2), (Hlow 3), (Hhigh 4), (Hhigh 5), (Hhigh 6), (Hhigh 7) by lia. cbn [mbind result_bind]. eexists. split; [reflexivity|]. intros ty. unfold counter.
  destruct (decide (1 <= ty <= 7)) as [Hin|Hout].
  - rewrite (elem_of_list_to_map_1 _ ty (if bool_decide (1 <= ty <= 3) then total_lost ty h else 0)); [done|cbn; compute_done|].
    assert (ty = 1 \/ ty = 2 \/ ty = 3 \/ ty = 4 \/ ty = 5 \/ ty = 6 \/ ty = 7) as Hcase by lia.
    rewrite !elem_of_cons. destruct Hcase as [->|[->|[->|[->|[->|[->| ->]]]]]]; go_range; tauto.
  - rewrite bool_decide_eq_false_2 by lia. rewrite not_elem_of_list_to_map_1; [done|]. cbn. rewrite !elem_of_cons, elem_of_nil. lia.
Qed.

Lemma last_cons {A} (x : A) l d : List.last (x :: l) d = List.last l x.
Proof.
  revert x d. induction l as [|y l IH]; intros x d; [done|]. change (List.last (y :: l) d = List.last (y :: l) x). by rewrite !IH.
Qed.
Lemma total_lost_last ty hs : forall h, histories_grow h hs -> total_lost ty h <= total_lost ty (List.last hs h).
Proof.
  induction hs as [|x hs IH]; intros h Hg; [done|]. destruct Hg as [He Hg]. rewrite last_cons.
  pose proof (total_lost_mono ty _ _ He). specialize (IH x Hg). lia.
Qed.
(** Every snapshot of growing histories succeeds and the counters grow. *)
Lemma histories_growing hs : forall h,
  histories_grow h hs -> (forall ty, 1 <= ty <= 3 -> total_lost ty (List.last hs h) <= u64_max) ->
  exists mm ms, drop_snapshot h = Ok mm /\ map drop_snapshot hs = map Ok ms /\ growing mm ms /\
    (forall ty, 0 <= counter mm ty) /\ (forall ty, counter mm ty = if bool_decide (1 <= ty <= 3) then total_lost ty h else 0) /\
    (forall ty, 1 <= ty <= 3 -> counter (List.last ms mm) ty = total_lost ty (List.last hs h)).
Proof.
  induction hs as [|h' hs IH]; intros h Hg Hmax.
  all: assert (forall ty, 1 <= ty <= 3 -> total_lost ty h <= u64_max) as Hmax'
    by (intros ty Hty; specialize (Hmax ty Hty); pose proof (total_lost_last ty _ h Hg); lia).
  all: destruct (drop_snapshot_spec h Hmax') as (mm & Hmm & Hc).
  all: assert (forall ty, 0 <= counter mm ty) as Hnn by (intros ty; rewrite Hc; case_bool_decide; [apply total_lost_nonneg|done]).
  - exists mm, []. split_and!; try done. intros ty Hty. cbn. by rewrite Hc, bool_decide_eq_true_2.
  - destruct Hg as [Hext Hg]. rewrite last_cons in Hmax |- *. destruct (IH h' Hg Hmax) as (mm' & ms & Hmm' & Hms & Hgr & _ & Hc' & Hlast).
    exists mm, (mm' :: ms). split_and!; [done|by cbn [map]; rewrite Hmm', Hms| |done|done|intros ty Hty; rewrite last_cons; by apply Hlast].
    split; [|done]. intros ty. split; [done|]. rewrite Hc, Hc'. case_bool_decide; [by apply total_lost_mono|done].
Qed.
End Losses.

(** The snapshot of the counters, with the reader's error in the type of the
    monitor's. *)
Definition read_counters `{UserMemory} {Er} (wrap : SnapshotError -> Er) scopes m (h : list (list kernel_op)) : result Er (gmap Z Z) :=
  match drop_snapshot scopes m h with Ok counters => Ok counters | Err e => Err (wrap e) end.

(** ** Witnesses *)
(** One good sample between malformed ones, with a deriving callback that
    always fails. *)
Definition demo_options : AuditOptions string string :=
  mkAuditOptions string string true None (Some (fun _ _ => Err "no policy")) (Some (fun n => Ok (mkReceiptTime (Z.of_nat n) 7 1))).
Definition demo_samples : list (list Z) := [[3; 0]; demo_exec_sample; [3; 0]; [3; 0]].
Lemma stream_keeps_facts_witness :
  exists st, streamAuditEventsTo demo_options (fun _ => None) (map ReadSample demo_samples) = (st, None) /\
    written st = expected_records demo_options demo_samples /\ length (written st) = 2%nat.
Proof.
  assert (forall c n, ReceiptClock demo_options = Some c -> exists r, c n = Ok r) as Hclock.
  { intros c n Hc. injection Hc as <-. eexists. reflexivity. }
  pose proof (stream_keeps_facts demo_options demo_samples Hclock) as H.
  assert ((streamAuditEventsTo demo_options (fun _ => None) (map ReadSample demo_samples)).2 = None /\
    length (written (streamAuditEventsTo demo_options (fun _ => None) (map ReadSample demo_samples)).1) = 2%nat) as [E1 E2]
    by (split; vm_compute; reflexivity).
  destruct (streamAuditEventsTo demo_options (fun _ => None) (map ReadSample demo_samples)) as [st ret].
  cbn [snd fst] in E1, E2. subst ret. exists st. destruct H as (_ & _ & Hw & _).
  split; [reflexivity|]. split; [exact Hw|exact E2].
Defined.

Lemma drop_notices_exact_witness :
  exists st, monitorDropCounters (Er:=string) None (fun _ => None) (Ok {[ 2 := 1 ]})
      (map (fun m => Tick (Ok m)) [{[ 2 := 5 ]}] ++ [Finish (Ok {[ 2 := 9 ]})]) = (st, Some None) /\
    notice_sum 2 (emitted_notices st) = 9.
Proof.
  destruct (drop_notices_exact (Er:=string) None {[ 2 := 1 ]} [{[ 2 := 5 ]}] {[ 2 := 9 ]}) as (st & Hst & Hsum & _).
  - intros c n H. discriminate H.
  - assert (forall a b, 0 <= a <= b -> counters_le {[ 2 := a ]} {[ 2 := b ]}) as Hle.
    { intros a b Hab ty. unfold counter. destruct (decide (ty = 2)) as [->|Hne].
      - rewrite !lookup_singleton_eq. exact Hab.
      - rewrite !lookup_singleton_ne by congruence. cbn. lia. }
    split; [|split; [apply Hle; lia|split; [apply Hle; lia|exact I]]].
    intros ty. unfold counter. rewrite lookup_empty. destruct (decide (ty = 2)) as [->|Hne].
    + rewrite lookup_singleton_eq. cbn. lia.
    + rewrite lookup_singleton_ne by congruence. cbn. lia.
  - exists st. split; [exact Hst|]. rewrite Hsum. reflexivity.
Defined.

Lemma Calibrate_bounds_witness :
  exists s, Calibrate 100 7 105 = Ok s /\ 100 <= Sample_MonotonicNS s <= 105 /\ Z.abs (104 - Sample_MonotonicNS s) <= Sample_ErrorNS s.
Proof.
  eexists. split; [vm_compute; reflexivity|].
  destruct (Calibrate_bounds 100 7 105 (mkSample 102 7 3) 104) as (H1 & H2 & _);
    [unfold i64_max; lia|vm_compute; reflexivity|lia|]. split; [exact H1|exact H2].
Defined.

Definition demo_full_task : task := mkTask 1000 (Z.shiftl 40 32 + 42) 1000 77 1 (replicate 16 0) false.
Definition demo_history : list (list kernel_op) := [[OpOpen demo_full_task 100 0]; []].
Definition demo_later_history : list (list kernel_op) :=
  [[OpOpen demo_full_task 100 0; OpOpen demo_task 100 0]; [OpOpen demo_full_task 100 0]].
#[local] Existing Instance demo_memory.
Definition demo_clock (n : nat) : result string ReceiptTime := Ok (mkReceiptTime (Z.of_nat n + 1) 7 1).
