(* ===== verification/Correlator.v ===== *)
(** * Correlation of kernel events with agent checkpoints
      ([internal/correlator/correlator.go])

    The names the other packages use too carry the prefix [Correlation]. *)
From S2P Require Import Prelude GoStd.
Open Scope Z_scope.

Definition AttributionStatus := string.
Definition AttributionExact : AttributionStatus := "exact".
Definition AttributionStale : AttributionStatus := "stale".
Definition AttributionUnknown : AttributionStatus := "unknown".

Record Attribution := mkAttribution {
  Attribution_RunID : string;
  Attribution_RunStatus : string;
  Attribution_Status : AttributionStatus;
}.
(** Instance, cookie and server time to the Run that owned the scope. *)
Definition ResolveRun := Z -> Z -> Z -> Attribution.

Record CorrelationEvent := mkCorrelationEvent {
  CE_EventID : string;
  CE_InstanceID : Z;
  CE_ScopeCookie : Z;
  CE_ServerMonotonicNS : Z;
  CE_PID : Z;
  CE_TGID : Z;
  CE_EventType : string;
  CE_ToolName : string;
}.
Record CorrelationCheckpoint := mkCorrelationCheckpoint {
  CC_CheckpointID : string;
  CC_RunID : string;
  CC_ServerMonotonicNS : Z;
  CC_ClientUnixNS : Z;
  CC_Sequence : Z;
  CC_Type : string;
  CC_Phase : string;
  CC_ToolName : string;
  CC_PID : Z;
  CC_TGID : Z;
}.
Record Factor := mkFactor { Factor_Name : string; Factor_Points : Z; Factor_Detail : string }.
Record Candidate := mkCandidate {
  Candidate_CheckpointID : string;
  Candidate_Score : Z;
  Candidate_DeltaNS : Z;
  Candidate_Factors : list Factor;
}.
Record CorrelationResult := mkCorrelationResult {
  Result_EventID : string;
  Result_Attribution : Attribution;
  Result_SelectedCheckpoint : string;
  Result_Confidence : Z;
  Result_Conflict : bool;
  Result_Candidates : list Candidate;
  Result_CorrelationStatus : string;
  Result_AuthoritativeClock : string;
}.
Record CorrelationOptions := mkCorrelationOptions {
  BeforeWindowNS : Z;
  AfterWindowNS : Z;
  MinimumScore : Z;
}.
Record Correlator := mkCorrelator { correlator_resolve : ResolveRun; correlator_options : CorrelationOptions }.

Inductive CorrelatorError := ResolverRequired | OptionsInvalid.
Definition NewCorrelator (resolve : option ResolveRun) (o : CorrelationOptions) : result CorrelatorError Correlator :=
  match resolve with
  | None => Err ResolverRequired
  | Some resolve =>
      let before := if BeforeWindowNS o =? 0 then 1500 * 1000000 else BeforeWindowNS o in
      let after := if AfterWindowNS o =? 0 then 5000 * 1000000 else AfterWindowNS o in
      let minimum := if MinimumScore o =? 0 then 25 else MinimumScore o in
      if (60 * 1000000000 <? before) || (60 * 1000000000 <? after) || (minimum <? 1) || (100 <? minimum)
      then Err OptionsInvalid
      else Ok (mkCorrelator resolve (mkCorrelationOptions before after minimum))
  end.

(** [-(value+1)] cannot overflow an [int64]. *)
Definition absolute (value : Z) : Z := if value <? 0 then wrap64 (wrap64 (- (value + 1)) + 1) else wrap64 value.

(** [None]: outside the window. *)
Definition boundedDelta (eventNS checkpointNS : Z) (o : CorrelationOptions) : option Z :=
  if checkpointNS <=? eventNS then
    let difference := eventNS - checkpointNS in
    if (AfterWindowNS o <? difference) || (i64_max <? difference) then None else Some difference
  else
    let difference := checkpointNS - eventNS in
    if (BeforeWindowNS o <? difference) || (i64_max <? difference) then None else Some (- difference).

Section Correlate.
Context `{UnicodeTables}.

Definition compatible (eventType checkpointType : string) : bool :=
  let eventType := ToLower eventType in
  if bool_decide (checkpointType ∈ ["tool_planned"; "tool_started"; "tool_finished"])
  then Contains eventType "file" || Contains eventType "exec" || Contains eventType "net"
  else if bool_decide (checkpointType ∈ ["llm_request"; "llm_response"]) then Contains eventType "net"
  else false.

(** The factors in the order the code adds them. *)
Definition identity_factor (ev : CorrelationEvent) (c : CorrelationCheckpoint) : list Factor :=
  if negb (CE_TGID ev =? 0) && (CC_TGID c =? CE_TGID ev) then [mkFactor "same_tgid" 35 "checkpoint and event share TGID"]
  else if negb (CE_PID ev =? 0) && (CC_PID c =? CE_PID ev) then [mkFactor "same_pid" 30 "checkpoint and event share PID"]
  else [].
Definition tool_factor (ev : CorrelationEvent) (c : CorrelationCheckpoint) : list Factor :=
  if (CE_ToolName ev != "") && EqualFold (CE_ToolName ev) (CC_ToolName c)
  then [mkFactor "tool_name" 25 "normalized tool names match"] else [].
Definition phase_factor (ev : CorrelationEvent) (c : CorrelationCheckpoint) : list Factor :=
  if compatible (CE_EventType ev) (CC_Type c)
  then [mkFactor "semantic_phase" 15 "checkpoint type is compatible with event class"] else [].
Definition closeness (delta : Z) (o : CorrelationOptions) : Z :=
  let window := if delta <? 0 then BeforeWindowNS o else AfterWindowNS o in
  if negb (window =? 0) then 5 + wrap64 (wrap64 (window - absolute delta) * 20) / window else 25.
Definition candidate_factors (ev : CorrelationEvent) (c : CorrelationCheckpoint) (delta : Z) (o : CorrelationOptions) : list Factor :=
  identity_factor ev c ++ tool_factor ev c ++ phase_factor ev c ++
  [mkFactor "server_monotonic_proximity" (closeness delta o) "same-host server monotonic time window"].
Definition factor_total (fs : list Factor) : Z := foldl (fun s f => s + Factor_Points f) 0 fs.
Definition scoreCandidate (ev : CorrelationEvent) (c : CorrelationCheckpoint) (delta : Z) (o : CorrelationOptions) : Candidate :=
  let fs := candidate_factors ev c delta o in
  let score := factor_total fs in
  mkCandidate (CC_CheckpointID c) (if 100 <? score then 100 else score) delta fs.

(** The candidate of one checkpoint, if it qualifies. *)
Definition checkpoint_candidate (o : CorrelationOptions) (runID : string) (ev : CorrelationEvent) (c : CorrelationCheckpoint) : option Candidate :=
  if (CC_RunID c != runID) || (CC_CheckpointID c == "") || (CC_ServerMonotonicNS c =? 0) then None
  else match boundedDelta (CE_ServerMonotonicNS ev) (CC_ServerMonotonicNS c) o with
       | None => None
       | Some delta => let candidate := scoreCandidate ev c delta o in
                       if MinimumScore o <=? Candidate_Score candidate then Some candidate else None
       end.
Definition candidate_less (a b : Candidate) : bool :=
  if negb (Candidate_Score a =? Candidate_Score b) then Candidate_Score b <? Candidate_Score a
  else if negb (absolute (Candidate_DeltaNS a) =? absolute (Candidate_DeltaNS b))
       then absolute (Candidate_DeltaNS a) <? absolute (Candidate_DeltaNS b)
  else str_lt (Candidate_CheckpointID a) (Candidate_CheckpointID b).

Definition Correlate (k : Correlator) (ev : CorrelationEvent) (checkpoints : list CorrelationCheckpoint) : CorrelationResult :=
  let result attribution selected confidence conflict candidates status :=
    mkCorrelationResult (CE_EventID ev) attribution selected confidence conflict candidates status "server_monotonic_ns" in
  if (CE_EventID ev == "") || (CE_InstanceID ev =? 0) || (CE_ScopeCookie ev =? 0) || (CE_ServerMonotonicNS ev =? 0)
  then result (mkAttribution "" "" AttributionUnknown) "" 0 false [] "invalid_event"
  else
    let attribution := correlator_resolve k (CE_InstanceID ev) (CE_ScopeCookie ev) (CE_ServerMonotonicNS ev) in
    if (Attribution_Status attribution != AttributionExact) || (Attribution_RunID attribution == "")
    then result attribution "" 0 false [] "unattributed"
    else
      let candidates := sort_by candidate_less
        (omap (checkpoint_candidate (correlator_options k) (Attribution_RunID attribution) ev) checkpoints) in
      match candidates with
      | [] => result attribution "" 0 false [] "unmatched"
      | best :: rest =>
          let tie := match rest with
                     | second :: _ => (Candidate_Score second =? Candidate_Score best)
                                      && (absolute (Candidate_DeltaNS second) =? absolute (Candidate_DeltaNS best))
                     | [] => false
                     end in
          if tie then result attribution "" (Candidate_Score best) true candidates "ambiguous"
          else result attribution (Candidate_CheckpointID best) (Candidate_Score best) false candidates "matched"
      end.
End Correlate.

(** ** Lemmas: scores *)
Record options_ok (o : CorrelationOptions) : Prop := {
  oo_before : 1 <= BeforeWindowNS o <= 60000000000;
  oo_after : 1 <= AfterWindowNS o <= 60000000000;
  oo_minimum : 1 <= MinimumScore o <= 100;
}.
Lemma NewCorrelator_ok r o k :
  0 <= BeforeWindowNS o -> 0 <= AfterWindowNS o -> NewCorrelator r o = Ok k -> options_ok (correlator_options k).
Proof.
  unfold NewCorrelator. intros Hb Ha. destruct r as [resolve|]; [|done].
  destruct (_ || _) eqn:E; [done|]. intros <-%Ok_inj. cbn [correlator_options].
  apply orb_false_iff in E as [[[E1 E2]%orb_false_iff E3]%orb_false_iff E4]. apply Z.ltb_ge in E1, E2, E3, E4.
  constructor; cbn [BeforeWindowNS AfterWindowNS MinimumScore]; [| |lia].
  - destruct (Z.eqb_spec (BeforeWindowNS o) 0); lia.
  - destruct (Z.eqb_spec (AfterWindowNS o) 0); lia.
Qed.
Lemma absolute_small d : Z.abs d <= i64_max -> absolute d = Z.abs d.
Proof.
  unfold absolute, i64_max. intros Hd. destruct (Z.ltb_spec d 0).
  - rewrite (wrap64_small (- (d + 1))), wrap64_small by (unfold u64_max; lia). lia.
  - rewrite wrap64_small by (unfold u64_max; lia). lia.
Qed.
(** A delta is inside the window on its side. *)
Definition window_of (o : CorrelationOptions) (delta : Z) : Z := if delta <? 0 then BeforeWindowNS o else AfterWindowNS o.
Lemma boundedDelta_Some e c o delta :
  boundedDelta e c o = Some delta <-> delta = e - c /\ Z.abs delta <= window_of o delta /\ Z.abs delta <= i64_max.
Proof.
  unfold boundedDelta, window_of, i64_max. destruct (Z.leb_spec c e) as [H|H]; cbv zeta.
  - destruct (Z.ltb_spec (AfterWindowNS o) (e - c)) as [A|A], (Z.ltb_spec 9223372036854775807 (e - c)) as [B|B]; cbn [orb];
      (split; [first [discriminate|intros [= <-]]|intros (-> & W & M)]);
      rewrite ?(proj2 (Z.ltb_ge (e - c) 0)) in * by lia; first [lia|done].
  - destruct (Z.ltb_spec (BeforeWindowNS o) (c - e)) as [A|A], (Z.ltb_spec 9223372036854775807 (c - e)) as [B|B]; cbn [orb];
      (split; [first [discriminate|intros [= <-]]|intros (-> & W & M)]);
      rewrite ?(proj2 (Z.ltb_lt (- (c - e)) 0)) in * by lia; rewrite ?(proj2 (Z.ltb_lt (e - c) 0)) in * by lia;
      first [lia|f_equal; lia|done].
Qed.
Lemma closeness_range o delta :
  options_ok o -> Z.abs delta <= window_of o delta -> 5 <= closeness delta o <= 25.
Proof.
  intros [Hb Ha _] Hw. unfold closeness. fold (window_of o delta). cbv zeta.
  assert (1 <= window_of o delta <= 60000000000) as Hr by (unfold window_of; destruct (delta <? 0); lia).
  rewrite (proj2 (Z.eqb_neq _ _)) by lia. cbn [negb]. rewrite absolute_small by (unfold i64_max; lia).
  rewrite (wrap64_small (window_of o delta - Z.abs delta)) by (unfold u64_max; lia).
  rewrite wrap64_small by (unfold u64_max; lia).
  assert (0 <= (window_of o delta - Z.abs delta) * 20 / window_of o delta <= 20); [|lia].
  split; [apply Z.div_pos; lia|]. apply Z.div_le_upper_bound; lia.
Qed.

Section Specification.
Context `{UnicodeTables}.

Lemma factor_total_app l l' : factor_total (l ++ l') = factor_total l + factor_total l'.
Proof.
  unfold factor_total. rewrite foldl_app. generalize (foldl (fun s f => s + Factor_Points f) 0 l) as z.
  induction l' as [|f l' IH]; intros z; cbn [foldl]; [lia|]. rewrite IH, (IH (0 + Factor_Points f)). lia.
Qed.
(** The cap at 100 never bites: a candidate's factors add up to its score. *)
Lemma score_explained o ev c delta :
  options_ok o -> Z.abs delta <= window_of o delta ->
  Candidate_Score (scoreCandidate ev c delta o) = factor_total (Candidate_Factors (scoreCandidate ev c delta o)) /\
  5 <= Candidate_Score (scoreCandidate ev c delta o) <= 100.
Proof.
  intros Ho Hw. pose proof (closeness_range o delta Ho Hw) as Hc. unfold scoreCandidate. cbn [Candidate_Score Candidate_Factors].
  assert (5 <= factor_total (candidate_factors ev c delta o) <= 100) as Ht.
  { unfold candidate_factors. rewrite !factor_total_app. unfold identity_factor, tool_factor, phase_factor.
    repeat case_match; unfold factor_total; cbn; lia. }
  rewrite (proj2 (Z.ltb_ge _ _)) by lia. done.
Qed.

(** ** Lemmas: the order of candidates *)
Definition delta_of (a : Candidate) : Z := absolute (Candidate_DeltaNS a).
(** [a] is a strictly better explanation than [b]. *)
Definition better (a b : Candidate) : Prop :=
  Candidate_Score b < Candidate_Score a \/ Candidate_Score a = Candidate_Score b /\ delta_of a < delta_of b.
Definition tied (a b : Candidate) : Prop := Candidate_Score a = Candidate_Score b /\ delta_of a = delta_of b.

Lemma candidate_less_false a b :
  candidate_less a b = false <->
  better b a \/ tied a b /\ str_lt (Candidate_CheckpointID a) (Candidate_CheckpointID b) = false.
Proof.
  unfold candidate_less, better, tied, delta_of.
  destruct (Z.eqb_spec (Candidate_Score a) (Candidate_Score b)) as [Es|Es]; cbn [negb].
  - destruct (Z.eqb_spec (absolute (Candidate_DeltaNS a)) (absolute (Candidate_DeltaNS b))) as [Ed|Ed]; cbn [negb].
    + split; [by right|]. intros [?|[_ ?]]; [lia|done].
    + rewrite Z.ltb_ge. split; [left; lia|]. intros [?|[[? ?] _]]; lia.
  - rewrite Z.ltb_ge. split; [left; lia|]. intros [?|[[? ?] _]]; lia.
Qed.
#[export] Instance candidate_less_weak : StrictWeak candidate_less.
Proof.
  split.
  - intros a b Hab. destruct (candidate_less b a) eqn:E; [exfalso|done].
    assert (candidate_less a b <> false) as H1 by congruence. assert (candidate_less b a <> false) as H2 by congruence.
    rewrite candidate_less_false in H1, H2. unfold better, tied in *.
    assert (tied a b) as Ht by (unfold tied; destruct (Z.lt_trichotomy (Candidate_Score a) (Candidate_Score b)) as [?|[?|?]],
      (Z.lt_trichotomy (delta_of a) (delta_of b)) as [?|[?|?]]; try (exfalso; tauto); split; lia).
    destruct Ht as [T1 T2].
    destruct (str_lt (Candidate_CheckpointID a) (Candidate_CheckpointID b)) eqn:Es; [|apply H1; right; auto].
    apply H2. right. split; [auto|]. by apply (less_asym (less:=str_lt)).
  - intros a b c. rewrite !candidate_less_false. unfold better, tied. intros [H1|[[T1 T2] S1]] [H2|[[U1 U2] S2]]; [left; lia..|].
    right. split; [lia|]. by apply (less_ntrans (less:=str_lt) _ (Candidate_CheckpointID b)).
Qed.

(** *** What makes a checkpoint a candidate for an event
    The evidence, stated on the fields of the event and the checkpoint. *)
Inductive same_process (ev : CorrelationEvent) (c : CorrelationCheckpoint) : list Factor -> Prop :=
| by_tgid : CE_TGID ev <> 0 -> CC_TGID c = CE_TGID ev ->
    same_process ev c [mkFactor "same_tgid" 35 "checkpoint and event share TGID"]
| by_pid : CE_TGID ev = 0 \/ CC_TGID c <> CE_TGID ev -> CE_PID ev <> 0 -> CC_PID c = CE_PID ev ->
    same_process ev c [mkFactor "same_pid" 30 "checkpoint and event share PID"]
| by_neither : CE_TGID ev = 0 \/ CC_TGID c <> CE_TGID ev -> CE_PID ev = 0 \/ CC_PID c <> CE_PID ev ->
    same_process ev c [].
Definition names_tool (ev : CorrelationEvent) (c : CorrelationCheckpoint) : Prop :=
  CE_ToolName ev <> "" /\ EqualFold (CE_ToolName ev) (CC_ToolName c) = true.
(** A tool step explains any event class, a model call only network traffic. *)
Inductive explains (eventType : string) : string -> Prop :=
| tool_explains step class :
    step ∈ ["tool_planned"; "tool_started"; "tool_finished"] -> class ∈ ["file"; "exec"; "net"] ->
    Contains (ToLower eventType) class = true -> explains eventType step
| model_explains step :
    step ∈ ["llm_request"; "llm_response"] -> Contains (ToLower eventType) "net" = true -> explains eventType step.
(** [P] holds and its factor is listed, or it does not and none is. *)
Definition listed_if (P : Prop) (f : Factor) (fs : list Factor) : Prop := P /\ fs = [f] \/ ~ P /\ fs = [].
(** Points for proximity: 25 at the same instant, 5 at the edge of the window. *)
Definition proximity (window delta : Z) : Factor :=
  mkFactor "server_monotonic_proximity" (5 + (window - Z.abs delta) * 20 / window) "same-host server monotonic time window".

(** [c] is a candidate, as [cand], for the event [ev] of the Run [run]. *)
Record qualifies (o : CorrelationOptions) (run : string) (ev : CorrelationEvent) (c : CorrelationCheckpoint) (cand : Candidate) : Prop := {
  q_run : CC_RunID c = run;
  q_id : CC_CheckpointID c <> "";
  q_clock : CC_ServerMonotonicNS c <> 0;
  q_window : - BeforeWindowNS o <= CE_ServerMonotonicNS ev - CC_ServerMonotonicNS c <= AfterWindowNS o;
  q_names : Candidate_CheckpointID cand = CC_CheckpointID c;
  q_delta : Candidate_DeltaNS cand = CE_ServerMonotonicNS ev - CC_ServerMonotonicNS c;
  q_factors : exists process tool phase,
    same_process ev c process /\
    listed_if (names_tool ev c) (mkFactor "tool_name" 25 "normalized tool names match") tool /\
    listed_if (explains (CE_EventType ev) (CC_Type c))
      (mkFactor "semantic_phase" 15 "checkpoint type is compatible with event class") phase /\
    Candidate_Factors cand = process ++ tool ++ phase ++ [proximity (window_of o (Candidate_DeltaNS cand)) (Candidate_DeltaNS cand)];
  q_score : Candidate_Score cand = foldr Z.add 0 (map Factor_Points (Candidate_Factors cand));
  q_range : 5 <= Candidate_Score cand <= 100;
  q_minimum : MinimumScore o <= Candidate_Score cand;
}.
(** The candidates of a list of checkpoints: one for each that qualifies,
    none for the others. *)
Inductive qualifying (o : CorrelationOptions) (run : string) (ev : CorrelationEvent) : list CorrelationCheckpoint -> list Candidate -> Prop :=
| qualifying_nil : qualifying o run ev [] []
| qualifying_take c cs cand cands : qualifies o run ev c cand -> qualifying o run ev cs cands -> qualifying o run ev (c :: cs) (cand :: cands)
| qualifying_skip c cs cands : (forall cand, ~ qualifies o run ev c cand) -> qualifying o run ev cs cands -> qualifying o run ev (c :: cs) cands.

(** An event that can be attributed: complete, and in the scope of one Run. *)
Definition attributed (k : Correlator) (ev : CorrelationEvent) : Prop :=
  CE_EventID ev <> "" /\ CE_InstanceID ev <> 0 /\ CE_ScopeCookie ev <> 0 /\ CE_ServerMonotonicNS ev <> 0 /\
  Attribution_Status (correlator_resolve k (CE_InstanceID ev) (CE_ScopeCookie ev) (CE_ServerMonotonicNS ev)) = AttributionExact /\
  Attribution_RunID (correlator_resolve k (CE_InstanceID ev) (CE_ScopeCookie ev) (CE_ServerMonotonicNS ev)) <> "".

(** How a set of candidates is decided. *)
Inductive verdict (cands : list Candidate) : string -> string -> Z -> bool -> Prop :=
| verdict_unmatched : cands = [] -> verdict cands "unmatched" "" 0 false
| verdict_matched l1 best l2 : cands = l1 ++ best :: l2 -> Forall (better best) (l1 ++ l2) ->
    verdict cands "matched" (Candidate_CheckpointID best) (Candidate_Score best) false
| verdict_ambiguous l1 a l2 b l3 : cands = l1 ++ a :: l2 ++ b :: l3 -> tied a b -> Forall (fun x => ~ better x a) cands ->
    verdict cands "ambiguous" "" (Candidate_Score a) true.

Lemma sorted_head_best best rest x :
  StronglySorted (not_after candidate_less) (best :: rest) -> x ∈ rest -> ~ better x best.
Proof.
  intros Hs Hx. inversion_clear Hs as [|? ? _ Hf]. rewrite Forall_forall in Hf. specialize (Hf x Hx). unfold not_after in Hf.
  apply candidate_less_false in Hf. unfold better, tied in *. lia.
Qed.
Lemma sorted_strict best second rest x :
  StronglySorted (not_after candidate_less) (best :: second :: rest) -> ~ tied second best -> x ∈ second :: rest -> better best x.
Proof.
  intros Hs Ht Hx. pose proof (sorted_head_best best (second :: rest) x Hs Hx) as H1.
  pose proof (sorted_head_best best (second :: rest) second Hs ltac:(left)) as H0.
  assert (~ better x second) as H2.
  { inversion_clear Hs as [|? ? Hs' _]. apply elem_of_cons in Hx as [->|Hx]; [unfold better; lia|]. by eapply sorted_head_best. }
  unfold better, tied in *. lia.
Qed.
End Specification.

(** ** Properties *)
Section Theorems.
Context `{UnicodeTables}.

Lemma sorted_verdict cands sorted :
  sorted = sort_by candidate_less cands ->
  match sorted with
  | [] => verdict cands "unmatched" "" 0 false
  | best :: rest =>
      let tie := match rest with
                 | second :: _ => (Candidate_Score second =? Candidate_Score best)
                                  && (absolute (Candidate_DeltaNS second) =? absolute (Candidate_DeltaNS best))
                 | [] => false
                 end in
      if tie then verdict cands "ambiguous" "" (Candidate_Score best) true
      else verdict cands "matched" (Candidate_CheckpointID best) (Candidate_Score best) false
  end.
Proof.
  intros E. pose proof (sort_by_perm candidate_less cands) as Hp. pose proof (sort_by_sorted candidate_less cands) as Hs.
  rewrite <-E in Hp, Hs. clear E. destruct sorted as [|best rest]; [apply verdict_unmatched; by apply Permutation_nil_l in Hp|].
  assert (best ∈ cands) as Hb by (rewrite <-Hp; left). apply list_elem_of_split in Hb as (l1 & l2 & ->).
  assert (l1 ++ l2 ≡ₚ rest) as Hr by (symmetry; by eapply Permutation_cons_app_inv).
  destruct rest as [|second rest]; cbv zeta.
  { apply (verdict_matched _ l1 best l2); [done|]. rewrite Hr. constructor. }
  destruct ((Candidate_Score second =? Candidate_Score best) && (absolute (Candidate_DeltaNS second) =? absolute (Candidate_DeltaNS best))) eqn:Et.
  - apply andb_true_iff in Et as [E1 E2]. apply Z.eqb_eq in E1, E2.
    assert (Forall (fun x => ~ better x best) (l1 ++ best :: l2)) as Hbest.
    { rewrite <-Hp. constructor; [unfold better; lia|]. apply Forall_forall. intros x Hx. by eapply sorted_head_best. }
    assert (second ∈ l1 ++ l2) as [H1|H1]%elem_of_app by (rewrite Hr; left); apply list_elem_of_split in H1 as (k1 & k2 & ->).
    + rewrite <-E1. apply (verdict_ambiguous _ k1 second k2 best l2); [by rewrite <-app_assoc|by split|].
      eapply Forall_impl; [exact Hbest|]. intros x Hx Hbx. apply Hx. unfold better, delta_of in *. lia.
    + apply (verdict_ambiguous _ l1 best k1 second k2); [done|by split|done].
  - apply (verdict_matched _ l1 best l2); [done|]. rewrite Hr. apply Forall_forall. intros x Hx. eapply sorted_strict; [done| |done].
    intros [T1 T2]. unfold delta_of in T2. rewrite T1, T2, !Z.eqb_refl in Et. done.
Qed.

(** *** The code's candidate of a checkpoint is the specified one *)
Lemma identity_factor_spec ev c : same_process ev c (identity_factor ev c).
Proof.
  unfold identity_factor. destruct (Z.eqb_spec (CE_TGID ev) 0), (Z.eqb_spec (CC_TGID c) (CE_TGID ev)),
    (Z.eqb_spec (CE_PID ev) 0), (Z.eqb_spec (CC_PID c) (CE_PID ev)); cbn [negb andb];
    first [apply by_tgid; tauto|apply by_pid; tauto|apply by_neither; tauto].
Qed.
Lemma tool_factor_spec ev c : listed_if (names_tool ev c) (mkFactor "tool_name" 25 "normalized tool names match") (tool_factor ev c).
Proof.
  unfold tool_factor, listed_if, names_tool. destruct (bool_decide_reflect (CE_ToolName ev = "")) as [E|E]; cbn [negb andb]; [tauto|].
  destruct (EqualFold _ _); [left|right]; naive_solver.
Qed.
Lemma compatible_spec et t : compatible et t = true <-> explains et t.
Proof.
  unfold compatible. cbv zeta. split.
  - destruct (bool_decide_reflect (t ∈ ["tool_planned"; "tool_started"; "tool_finished"])) as [Ht|_].
    + intros [[H1|H1]%orb_true_iff|H1]%orb_true_iff; (eapply tool_explains; [done| |exact H1]); set_solver.
    + destruct (bool_decide_reflect (t ∈ ["llm_request"; "llm_response"])) as [Hm|_]; [|done]. by apply model_explains.
  - intros [step class Ht Hc Hin|step Hm Hin].
    + rewrite (bool_decide_eq_true_2 _ Ht). set_unfold in Hc. destruct Hc as [->|[->|[->|[]]]]; rewrite Hin, ?orb_true_r; done.
    + rewrite bool_decide_eq_false_2, (bool_decide_eq_true_2 _ Hm); [done|]. set_unfold. destruct Hm as [->|[->|[]]]; naive_solver.
Qed.
Lemma phase_factor_spec ev c :
  listed_if (explains (CE_EventType ev) (CC_Type c)) (mkFactor "semantic_phase" 15 "checkpoint type is compatible with event class") (phase_factor ev c).
Proof.
  unfold phase_factor, listed_if. rewrite <-compatible_spec. destruct (compatible _ _); [by left|by right].
Qed.
Lemma closeness_spec o delta :
  options_ok o -> Z.abs delta <= window_of o delta ->
  closeness delta o = 5 + (window_of o delta - Z.abs delta) * 20 / window_of o delta.
Proof.
  intros [Hb Ha _] Hw. unfold closeness. fold (window_of o delta). cbv zeta.
  assert (1 <= window_of o delta <= 60000000000) as Hr by (unfold window_of; destruct (delta <? 0); lia).
  rewrite (proj2 (Z.eqb_neq _ _)) by lia. cbn [negb]. rewrite absolute_small by (unfold i64_max; lia).
  rewrite (wrap64_small (window_of o delta - Z.abs delta)) by (unfold u64_max; lia).
  by rewrite wrap64_small by (unfold u64_max; lia).
Qed.
Lemma factor_total_foldr fs : factor_total fs = foldr Z.add 0 (map Factor_Points fs).
Proof.
  induction fs as [|f fs IH]; [done|]. change (f :: fs) with ([f] ++ fs). rewrite factor_total_app, IH. cbn. lia.
Qed.
(** The factors of a candidate determine it. *)
Lemma same_process_fun ev c fs : same_process ev c fs -> fs = identity_factor ev c.
Proof.
  intros H0. pose proof (identity_factor_spec ev c) as H1. revert H1. generalize (identity_factor ev c) as gs. intros gs H1.
  destruct H0, H1; try done; exfalso; tauto.
Qed.
Lemma listed_if_fun P f fs gs : listed_if P f fs -> listed_if P f gs -> fs = gs.
Proof. unfold listed_if. naive_solver. Qed.
Lemma window_iff o d : options_ok o -> Z.abs d <= window_of o d <-> - BeforeWindowNS o <= d <= AfterWindowNS o.
Proof. intros [Hb Ha _]. unfold window_of. destruct (Z.ltb_spec d 0); lia. Qed.

Lemma scoreCandidate_spec o ev c :
  options_ok o -> let delta := CE_ServerMonotonicNS ev - CC_ServerMonotonicNS c in
  - BeforeWindowNS o <= delta <= AfterWindowNS o ->
  Candidate_Factors (scoreCandidate ev c delta o) =
    identity_factor ev c ++ tool_factor ev c ++ phase_factor ev c ++ [proximity (window_of o delta) delta].
Proof.
  intros Ho delta Hw%window_iff; [|done]. cbn [scoreCandidate Candidate_Factors]. unfold candidate_factors, proximity.
  by rewrite closeness_spec.
Qed.
Lemma checkpoint_candidate_spec o run ev c cand :
  options_ok o -> checkpoint_candidate o run ev c = Some cand <-> qualifies o run ev c cand.
Proof.
  intros Ho. pose proof Ho as [Hb Ha _]. unfold checkpoint_candidate. set (delta := CE_ServerMonotonicNS ev - CC_ServerMonotonicNS c). split.
  - destruct (_ || _ || _) eqn:E; [done|]. apply orb_false_iff in E as [[E1 E2]%orb_false_iff E3].
    apply negb_false_iff, bool_decide_eq_true in E1. apply bool_decide_eq_false in E2. apply Z.eqb_neq in E3.
    destruct (boundedDelta _ _ _) as [d|] eqn:Ed; [|done]. apply boundedDelta_Some in Ed as (-> & Hw & _). fold delta in Hw |- *.
    cbv zeta. destruct (Z.leb_spec (MinimumScore o) (Candidate_Score (scoreCandidate ev c delta o))) as [Hm|]; [|done]. intros [= <-].
    destruct (score_explained o ev c delta Ho Hw) as [S1 S2]. rewrite factor_total_foldr in S1. apply window_iff in Hw; [|done].
    constructor; try done. exists (identity_factor ev c), (tool_factor ev c), (phase_factor ev c).
    split_and!; [apply identity_factor_spec|apply tool_factor_spec|apply phase_factor_spec|by apply scoreCandidate_spec].
  - intros [Q1 Q2 Q3 Q4 Q5 Q6 (fs1 & fs2 & fs3 & F1 & F2 & F3 & F4) Q8 Q9 Q10]. fold delta in Q4, Q6.
    rewrite (bool_decide_eq_true_2 _ Q1), (bool_decide_eq_false_2 _ Q2), (proj2 (Z.eqb_neq _ _) Q3). cbn [negb orb].
    rewrite (proj2 (boundedDelta_Some _ _ _ delta)); [|split_and!; [done|by apply window_iff|unfold i64_max; lia]]. cbv zeta.
    apply same_process_fun in F1 as ->. rewrite (listed_if_fun _ _ _ _ F2 (tool_factor_spec ev c)), (listed_if_fun _ _ _ _ F3 (phase_factor_spec ev c)), Q6 in F4.
    rewrite <-scoreCandidate_spec in F4 by done. fold delta in F4.
    assert (scoreCandidate ev c delta o = cand) as ->.
    { pose proof (proj1 (score_explained o ev c delta Ho (proj2 (window_iff o delta Ho) Q4))) as S. rewrite factor_total_foldr, <-F4, <-Q8 in S.
      destruct cand as [i sc d fs]; cbn [Candidate_CheckpointID Candidate_Score Candidate_DeltaNS Candidate_Factors] in *.
      unfold scoreCandidate in *. cbn [Candidate_Score Candidate_Factors] in *. congruence. }
    by rewrite (proj2 (Z.leb_le _ _) Q10).
Qed.
Lemma qualifying_omap o run ev cs : options_ok o -> qualifying o run ev cs (omap (checkpoint_candidate o run ev) cs).
Proof.
  intros Ho. induction cs as [|c cs IH]; [constructor|]. cbn [omap list_omap].
  destruct (checkpoint_candidate o run ev c) as [cand|] eqn:E.
  - apply qualifying_take; [by apply checkpoint_candidate_spec|done].
  - apply qualifying_skip; [|done]. intros cand Hq%checkpoint_candidate_spec; [congruence|done].
Qed.

(** An option left at zero takes its default. *)
Definition defaulted (default given used : Z) : Prop := given = 0 /\ used = default \/ given <> 0 /\ used = given.
Lemma NewCorrelator_defaults r o k :
  NewCorrelator r o = Ok k ->
  r = Some (correlator_resolve k) /\ defaulted 1500000000 (BeforeWindowNS o) (BeforeWindowNS (correlator_options k)) /\
  defaulted 5000000000 (AfterWindowNS o) (AfterWindowNS (correlator_options k)) /\
  defaulted 25 (MinimumScore o) (MinimumScore (correlator_options k)).
Proof.
  unfold NewCorrelator, defaulted. destruct r as [resolve|]; [|done]. cbv zeta. destruct (_ || _); [done|]. intros <-%Ok_inj.
  cbn [correlator_resolve correlator_options BeforeWindowNS AfterWindowNS MinimumScore].
  split_and!; [done|..]; match goal with |- context [if ?x =? 0 then _ else _] => destruct (Z.eqb_spec x 0) end; lia.
Qed.

(** C32: correlation picks the unique best checkpoint of the right Run.  An
    event is matched only when it is attributed; the candidates are exactly the
    checkpoints of the attributed Run inside the time windows that reach the
    minimum score, where the factors and points of a candidate are those of the
    facts it shares with the event (process, tool name, kind of step, distance
    in server time) and add up to its score, in 5..100; the selected checkpoint
    is the one candidate that beats all others on score, then on distance; a
    tie for the best is reported as ambiguous and selects nothing.  An option
    left at zero takes its default. *)
Theorem Correlate_selects_best r o k ev cs :
  0 <= BeforeWindowNS o -> 0 <= AfterWindowNS o -> NewCorrelator r o = Ok k ->
  let res := Correlate k ev cs in
  let attribution := correlator_resolve k (CE_InstanceID ev) (CE_ScopeCookie ev) (CE_ServerMonotonicNS ev) in
  (r = Some (correlator_resolve k) /\ defaulted 1500000000 (BeforeWindowNS o) (BeforeWindowNS (correlator_options k)) /\
   defaulted 5000000000 (AfterWindowNS o) (AfterWindowNS (correlator_options k)) /\
   defaulted 25 (MinimumScore o) (MinimumScore (correlator_options k))) /\
  (~ attributed k ev -> Result_SelectedCheckpoint res = "" /\ Result_Candidates res = [] /\ Result_Confidence res = 0) /\
  (attributed k ev -> Result_Attribution res = attribution /\
   exists cands, qualifying (correlator_options k) (Attribution_RunID attribution) ev cs cands /\
     Result_Candidates res ≡ₚ cands /\
     verdict cands (Result_CorrelationStatus res) (Result_SelectedCheckpoint res) (Result_Confidence res) (Result_Conflict res)).
Proof.
  intros Hb Ha Hk. pose proof (NewCorrelator_ok _ _ _ Hb Ha Hk) as Ho. cbv zeta. split; [exact (NewCorrelator_defaults _ _ _ Hk)|]. unfold Correlate.
  destruct (_ || _ || _ || _) eqn:E1.
  { split; [done|]. intros (N1 & N2 & N3 & N4 & _). apply Z.eqb_neq in N2, N3, N4. rewrite N2, N3, N4, bool_decide_eq_false_2 in E1 by done. done. }
  set (attr := correlator_resolve k (CE_InstanceID ev) (CE_ScopeCookie ev) (CE_ServerMonotonicNS ev)). cbv zeta.
  destruct ((Attribution_Status attr != AttributionExact) || (Attribution_RunID attr == "")) eqn:E2.
  { split; [done|]. intros (_ & _ & _ & _ & N5 & N6). fold attr in N5, N6. rewrite N5, (bool_decide_eq_false_2 _ N6) in E2. done. }
  set (cands := omap (checkpoint_candidate (correlator_options k) (Attribution_RunID attr) ev) cs).
  pose proof (sorted_verdict cands _ eq_refl) as Hv. set (sorted := sort_by candidate_less cands) in *. split.
  { intros Hn. exfalso. apply Hn. apply orb_false_iff in E1 as [[[E1 E3]%orb_false_iff E4]%orb_false_iff E5].
    apply orb_false_iff in E2 as [E6 E7]. apply bool_decide_eq_false in E1, E7. apply negb_false_iff, bool_decide_eq_true in E6.
    apply Z.eqb_neq in E3, E4, E5. by split_and!. }
  intros _. clear E1 E2.
  match goal with |- context [Result_Candidates ?res] => assert (Result_Candidates res = sorted /\ Result_Attribution res = attr /\
     verdict cands (Result_CorrelationStatus res) (Result_SelectedCheckpoint res) (Result_Confidence res) (Result_Conflict res)) as (Hc & Hattr & Hver) end.
  { destruct sorted as [|best rest]; [by split_and!|]. cbv zeta in Hv.
    destruct (match rest with [] => false | second :: _ => (Candidate_Score second =? Candidate_Score best)
                && (absolute (Candidate_DeltaNS second) =? absolute (Candidate_DeltaNS best)) end); by split_and!. }
  rewrite Hc, Hattr. split; [done|]. exists cands. split_and!; [by apply qualifying_omap|apply sort_by_perm|done].
Qed.

(** Correlation does not depend on the order of the checkpoints, as long
    as their identifiers are distinct. *)
Theorem Correlate_order_independent k ev cs cs' :
  NoDup (map CC_CheckpointID cs) -> cs ≡ₚ cs' -> Correlate k ev cs = Correlate k ev cs'.
Proof.
  intros Hnd Hp. unfold Correlate. destruct (_ || _ || _ || _); [done|]. cbv zeta. destruct (_ || _); [done|].
  set (run := Attribution_RunID (correlator_resolve k (CE_InstanceID ev) (CE_ScopeCookie ev) (CE_ServerMonotonicNS ev))).
  assert (sort_by candidate_less (omap (checkpoint_candidate (correlator_options k) run ev) cs) =
    sort_by candidate_less (omap (checkpoint_candidate (correlator_options k) run ev) cs')) as ->; [|done].
  apply sort_by_perm_eq; [apply _| |by rewrite Hp].
  intros a b (c & Hc & Ea)%list_elem_of_omap (d & Hd & Eb)%list_elem_of_omap L1 L2.
  assert (forall c a, checkpoint_candidate (correlator_options k) run ev c = Some a -> Candidate_CheckpointID a = CC_CheckpointID c) as Hid.
  { intros c0 a0. unfold checkpoint_candidate. destruct (_ || _); [done|]. destruct (boundedDelta _ _ _); [|done].
    cbv zeta. destruct (_ <=? _); [|done]. by intros [= <-]. }
  apply candidate_less_false in L1, L2. unfold better, tied in *.
  assert (Candidate_CheckpointID a = Candidate_CheckpointID b) as E
    by (destruct L1 as [?|[[? ?] L1]], L2 as [?|[[? ?] L2]]; [lia..|by apply str_lt_total]).
  rewrite (Hid _ _ Ea), (Hid _ _ Eb) in E. assert (c = d) as -> by (by apply (nodup_map_inj CC_CheckpointID cs)). congruence.
Qed.
End Theorems.

Definition demo_correlator : Correlator :=
  mkCorrelator (fun _ _ _ => mkAttribution "run-1" "active" AttributionExact) (mkCorrelationOptions 1500000000 5000000000 25).
Definition demo_correlation_event : CorrelationEvent :=
  mkCorrelationEvent "e1" 5 9 10000000000 42 40 "exec_attempt" "shell".
Definition demo_checkpoints : list CorrelationCheckpoint :=
  [mkCorrelationCheckpoint "c1" "run-1" 9000000000 0 1 "tool_started" "" "Shell" 42 40;
   mkCorrelationCheckpoint "c2" "run-1" 9900000000 0 2 "llm_request" "" "" 42 40;
   mkCorrelationCheckpoint "c3" "run-2" 9990000000 0 3 "tool_started" "" "shell" 42 40].
#[local] Existing Instance ascii_tables.

Lemma Correlate_selects_best_witness :
  NewCorrelator (Some (correlator_resolve demo_correlator)) (mkCorrelationOptions 0 0 0) = Ok demo_correlator /\
  Result_SelectedCheckpoint (Correlate demo_correlator demo_correlation_event demo_checkpoints) = "c1" /\
  exists cands, qualifying (mkCorrelationOptions 1500000000 5000000000 25) "run-1" demo_correlation_event demo_checkpoints cands /\
    map Candidate_Score cands ≡ₚ [96; 59] /\ verdict cands "matched" "c1" 96 false.
Proof.
  assert (NewCorrelator (Some (correlator_resolve demo_correlator)) (mkCorrelationOptions 0 0 0) = Ok demo_correlator) as Hk by reflexivity.
  split; [exact Hk|]. split; [vm_compute; reflexivity|].
  destruct (Correlate_selects_best (Some (correlator_resolve demo_correlator)) (mkCorrelationOptions 0 0 0) demo_correlator demo_correlation_event demo_checkpoints ltac:(cbn; lia) ltac:(cbn; lia) Hk) as (_ & _ & H).
  assert (attributed demo_correlator demo_correlation_event) as Ha by (repeat split; discriminate).
  destruct (H Ha) as (_ & cands & Hq & Hp & Hv).
  assert (Result_CorrelationStatus (Correlate demo_correlator demo_correlation_event demo_checkpoints) = "matched" /\
    Result_SelectedCheckpoint (Correlate demo_correlator demo_correlation_event demo_checkpoints) = "c1" /\
    Result_Confidence (Correlate demo_correlator demo_correlation_event demo_checkpoints) = 96 /\
    Result_Conflict (Correlate demo_correlator demo_correlation_event demo_checkpoints) = false) as (E1 & E2 & E3 & E4)
    by (split_and!; vm_compute; reflexivity).
  rewrite E1, E2, E3, E4 in Hv. exists cands. split; [exact Hq|]. split; [|exact Hv].
  rewrite <-Hp. assert (map Candidate_Score (Result_Candidates (Correlate demo_correlator demo_correlation_event demo_checkpoints)) = [96; 59]) as -> by (vm_compute; reflexivity).
  reflexivity.
Defined.
Lemma Correlate_order_independent_witness :
  Correlate demo_correlator demo_correlation_event demo_checkpoints = Correlate demo_correlator demo_correlation_event (rev demo_checkpoints).
Proof.
  apply (Correlate_order_independent demo_correlator demo_correlation_event demo_checkpoints (rev demo_checkpoints)).
  - apply (bool_decide_unpack _). vm_compute. exact I.
  - apply Permutation_rev.
Defined.
