(* ===== verification/Evidence.v ===== *)
(** * Evidence timelines ([internal/evidence/timeline.go] and [sample.go])

    [Build] turns the events of a Run into a numbered chronological timeline,
    after checking that every event carries only the evidence its source may
    claim.  The names other packages use too carry the prefix [Evidence]. *)
From S2P Require Import Prelude GoStd Correlator.
Open Scope Z_scope.

Definition EvidenceSchemaVersion : string := "1".
Definition Source := string.
Definition AgentClaim : Source := "agent_claim".
Definition KernelFact : Source := "kernel_fact".
Definition PolicyDecision : Source := "policy_decision".
Definition ContainmentResult : Source := "containment_result".

Record EvidenceAttribution := mkEvidenceAttribution {
  EA_Status : string;
  EA_RunID : string;
  EA_RunStatus : string;
  EA_Basis : string;
}.
Record OperationResult := mkOperationResult {
  AttemptObserved : bool;
  OR_ActionResult : string;
  OR_Mechanism : string;
}.
Record EvidenceDecision := mkEvidenceDecision {
  ED_PolicyID : string;
  ED_RuleID : string;
  ED_RequestedAction : string;
  ED_FinalDecision : string;
  ED_Enforced : bool;
  ED_Mechanism : string;
}.
Record Containment := mkContainment {
  Containment_Requested : bool;
  Containment_Result : string;
  Containment_Method : string;
  TargetIdentity : string;
  OriginalActionResult : string;
}.
Record Item := mkItem {
  Item_Sequence : string;
  Item_ID : string;
  Item_Type : string;
  Item_Source : Source;
  Item_ServerMonotonicNS : string;
  Item_ServerUnixNS : string;
  Item_Summary : string;
  Item_Attribution : option EvidenceAttribution;
  Item_Correlation : option CorrelationResult;
  Item_Operation : option OperationResult;
  Item_Decision : option EvidenceDecision;
  Item_Containment : option Containment;
  monotonicNS : Z;
}.
Record Timeline := mkTimeline {
  Timeline_SchemaVersion : string;
  Timeline_RunID : string;
  Timeline_Items : list Item;
}.
Record EvidenceEvent := mkEvidenceEvent {
  EE_ID : string;
  EE_Type : string;
  EE_Source : Source;
  EE_ServerMonotonicNS : Z;
  EE_ServerUnixNS : Z;
  EE_Summary : string;
  EE_Attribution : option EvidenceAttribution;
  EE_Correlation : option CorrelationResult;
  EE_Operation : option OperationResult;
  EE_Decision : option EvidenceDecision;
  EE_Containment : option Containment;
}.

Inductive TimelineError :=
  | TimelineInputInvalid | TimelineEventInvalid | TimelineIDDuplicated
  | ClaimContainsResult | KernelFactFields | PolicyDecisionFields | ContainmentFields | SourceInvalid
  | AttributionForeign | CorrelationForeignEvent | CorrelationForeignRun | SelectedNotClaim | CandidateNotClaim.

Definition validateSource (event : EvidenceEvent) : result TimelineError unit :=
  if EE_Source event == AgentClaim then
    guard_err (is_some (EE_Attribution event) || is_some (EE_Correlation event) || is_some (EE_Operation event) ||
      is_some (EE_Decision event) || is_some (EE_Containment event)) ClaimContainsResult
  else if EE_Source event == KernelFact then
    guard_err (is_none (EE_Operation event) || is_some (EE_Decision event) || is_some (EE_Containment event)) KernelFactFields
  else if EE_Source event == PolicyDecision then
    guard_err (is_some (EE_Attribution event) || is_some (EE_Correlation event) || is_some (EE_Operation event) ||
      is_none (EE_Decision event) || is_some (EE_Containment event)) PolicyDecisionFields
  else if EE_Source event == ContainmentResult then
    guard_err (is_some (EE_Attribution event) || is_some (EE_Correlation event) || is_none (EE_Containment event) ||
      is_some (EE_Decision event) || is_some (EE_Operation event)) ContainmentFields
  else Err SourceInvalid.

(** A missing key of a Go map reads as the zero value. *)
Definition source_of (sources : gmap string Source) (id : string) : Source :=
  match sources !! id with Some source => source | None => "" end.

Definition validateReferences (runID : string) (event : EvidenceEvent) (sources : gmap string Source) : result TimelineError unit :=
  if match EE_Attribution event with Some a => (EA_RunID a != "") && (EA_RunID a != runID) | None => false end
  then Err AttributionForeign
  else match EE_Correlation event with
       | None => Ok tt
       | Some correlation =>
           if Result_EventID correlation != EE_ID event then Err CorrelationForeignEvent
           else if (Attribution_RunID (Result_Attribution correlation) != "") &&
                   (Attribution_RunID (Result_Attribution correlation) != runID) then Err CorrelationForeignRun
           else if (Result_SelectedCheckpoint correlation != "") &&
                   (source_of sources (Result_SelectedCheckpoint correlation) != AgentClaim) then Err SelectedNotClaim
           else guard_err (existsb (fun candidate => (Candidate_CheckpointID candidate == "") ||
                  (source_of sources (Candidate_CheckpointID candidate) != AgentClaim)) (Result_Candidates correlation))
                  CandidateNotClaim
       end.

Definition index_event (sources : gmap string Source) (event : EvidenceEvent) : result TimelineError (gmap string Source) :=
  if (EE_ID event == "") || (EE_Type event == "") || (EE_ServerMonotonicNS event =? 0) ||
     (EE_ServerUnixNS event =? 0) || (4096 <? slen (EE_Summary event)) then Err TimelineEventInvalid
  else if is_some (sources !! EE_ID event) then Err TimelineIDDuplicated
  else Ok (<[EE_ID event := EE_Source event]> sources).

Definition event_item (event : EvidenceEvent) : Item :=
  mkItem "" (EE_ID event) (EE_Type event) (EE_Source event) (FormatUint (EE_ServerMonotonicNS event))
    (FormatUint (EE_ServerUnixNS event)) (EE_Summary event) (EE_Attribution event) (EE_Correlation event)
    (EE_Operation event) (EE_Decision event) (EE_Containment event) (EE_ServerMonotonicNS event).
Definition build_item (runID : string) (sources : gmap string Source) (items : list Item) (event : EvidenceEvent) : result TimelineError (list Item) :=
  _ ← validateSource event;
  _ ← validateReferences runID event sources;
  Ok (items ++ [event_item event]).

Definition item_less (i j : Item) : bool :=
  if negb (monotonicNS i =? monotonicNS j) then monotonicNS i <? monotonicNS j else str_lt (Item_ID i) (Item_ID j).
Definition number_item (index : nat) (i : Item) : Item :=
  mkItem (FormatUint (Z.of_nat index + 1)) (Item_ID i) (Item_Type i) (Item_Source i) (Item_ServerMonotonicNS i)
    (Item_ServerUnixNS i) (Item_Summary i) (Item_Attribution i) (Item_Correlation i) (Item_Operation i)
    (Item_Decision i) (Item_Containment i) 0.

Definition Build (runID : string) (events : list EvidenceEvent) : result TimelineError Timeline :=
  if (runID == "") || (10000 <? len events) then Err TimelineInputInvalid
  else
    sources ← foldM index_event ∅ events;
    items ← foldM (build_item runID sources) [] events;
    Ok (mkTimeline EvidenceSchemaVersion runID (imap number_item (sort_by item_less items))).

Definition sample_correlation : CorrelationResult :=
  mkCorrelationResult "kernel-exec-1" (mkAttribution "run-demo" "active" AttributionExact) "checkpoint-tool-1" 99 false
    [mkCandidate "checkpoint-tool-1" 99 1000000
      [mkFactor "same_tgid" 35 "checkpoint and event share TGID";
       mkFactor "tool_name" 25 "normalized tool names match";
       mkFactor "semantic_phase" 15 "checkpoint type is compatible with event class";
       mkFactor "server_monotonic_proximity" 24 "same-host server monotonic time window"]]
    "matched" "server_monotonic_ns".
Definition sample_attribution : EvidenceAttribution :=
  mkEvidenceAttribution "exact" "run-demo" "active" "instance_id+scope_cookie".
Definition sample_events : list EvidenceEvent :=
  [mkEvidenceEvent "checkpoint-tool-1" "tool_started" AgentClaim 1000000000 1800000000000000000
     "Run redacted shell step" None None None None None;
   mkEvidenceEvent "kernel-exec-1" "exec_attempt" KernelFact 1001000000 1800000000001000000
     "exec attempt observed" (Some sample_attribution) (Some sample_correlation)
     (Some (mkOperationResult true "none" "tracepoint/sys_enter_execve")) None None;
   mkEvidenceEvent "decision-contain-1" "policy_decision" PolicyDecision 1002000000 1800000000002000000
     "deny and request post-event containment" None None None
     (Some (mkEvidenceDecision "policy-exec" "rule-shell" "contain" "deny" false "post_event")) None;
   mkEvidenceEvent "containment-1" "containment_result" ContainmentResult 1003000000 1800000000003000000
     "exact scope contained" None None None None
     (Some (mkContainment true "killed" "cgroup.kill" "instance_id+scope_cookie+cgroup_id" "none"));
   mkEvidenceEvent "kernel-net-1" "net_connect" KernelFact 1004000000 1800000000004000000
     "connect rejected by kernel hook" (Some sample_attribution) None
     (Some (mkOperationResult true "blocked" "cgroup/connect4")) None None;
   mkEvidenceEvent "decision-block-1" "policy_decision" PolicyDecision 1005000000 1800000000005000000
     "synchronous network block" None None None
     (Some (mkEvidenceDecision "policy-network" "rule-default-deny" "block" "deny" true "cgroup/connect4")) None].
Definition BuildSampleTimeline : result TimelineError Timeline := Build "run-demo" sample_events.

(** ** What a timeline may contain *)
Definition well_formed (ev : EvidenceEvent) : Prop :=
  EE_ID ev <> "" /\ EE_Type ev <> "" /\ EE_ServerMonotonicNS ev <> 0 /\ EE_ServerUnixNS ev <> 0 /\ slen (EE_Summary ev) <= 4096.
(** Agents claim no results; only the kernel reports operations and their
    correlation, only the policy decides, only the containment contains. *)
Definition well_sourced (ev : EvidenceEvent) : Prop :=
  EE_Source ev ∈ [AgentClaim; KernelFact; PolicyDecision; ContainmentResult] /\
  (is_Some (EE_Operation ev) <-> EE_Source ev = KernelFact) /\
  (is_Some (EE_Decision ev) <-> EE_Source ev = PolicyDecision) /\
  (is_Some (EE_Containment ev) <-> EE_Source ev = ContainmentResult) /\
  (is_Some (EE_Attribution ev) \/ is_Some (EE_Correlation ev) -> EE_Source ev = KernelFact).
(** [id] is the ID of an agent claim among the events. *)
Definition claimed (events : list EvidenceEvent) (id : string) : Prop :=
  exists claim, claim ∈ events /\ EE_ID claim = id /\ EE_Source claim = AgentClaim.
Definition well_referenced (runID : string) (events : list EvidenceEvent) (ev : EvidenceEvent) : Prop :=
  (forall a, EE_Attribution ev = Some a -> EA_RunID a = "" \/ EA_RunID a = runID) /\
  (forall c, EE_Correlation ev = Some c ->
    Result_EventID c = EE_ID ev /\
    (Attribution_RunID (Result_Attribution c) = "" \/ Attribution_RunID (Result_Attribution c) = runID) /\
    (Result_SelectedCheckpoint c = "" \/ claimed events (Result_SelectedCheckpoint c)) /\
    forall cand, cand ∈ Result_Candidates c -> claimed events (Candidate_CheckpointID cand)).
Definition acceptable (runID : string) (events : list EvidenceEvent) : Prop :=
  runID <> "" /\ len events <= 10000 /\ NoDup (map EE_ID events) /\
  Forall (fun ev => well_formed ev /\ well_sourced ev /\ well_referenced runID events ev) events.

Definition before (a b : EvidenceEvent) : Prop :=
  EE_ServerMonotonicNS a < EE_ServerMonotonicNS b \/
  EE_ServerMonotonicNS a = EE_ServerMonotonicNS b /\ str_lt (EE_ID a) (EE_ID b) = true.

(** ** The checks decide the predicates *)

Lemma validateSource_ok ev : validateSource ev = Ok tt <-> well_sourced ev.
Proof.
  assert (NoDup [AgentClaim; KernelFact; PolicyDecision; ContainmentResult]) as N by (apply (bool_decide_unpack _); vm_compute; exact I).
  unfold validateSource, well_sourced, is_none. rewrite <-!is_some_true, !elem_of_cons, elem_of_nil.
  rewrite !NoDup_cons, !not_elem_of_cons in N. destruct N as ((? & ? & ? & _) & (? & ? & _) & (? & _) & _).
  generalize dependent AgentClaim. generalize dependent KernelFact. generalize dependent PolicyDecision.
  generalize dependent ContainmentResult. intros co po ke H1 ag H2 H3 H4 H5 H6.
  generalize (EE_Source ev) (is_some (EE_Attribution ev)) (is_some (EE_Correlation ev)) (is_some (EE_Operation ev))
    (is_some (EE_Decision ev)) (is_some (EE_Containment ev)). intros src a c o d k.
  repeat case_bool_decide; rewrite ?guard_err_ok; subst; destruct a, c, o, d, k; cbn.
  all: intuition congruence.
Qed.

Definition index (m : gmap string Source) (ev : EvidenceEvent) : gmap string Source := <[EE_ID ev := EE_Source ev]> m.

Lemma index_event_ok m ev m' :
  index_event m ev = Ok m' <-> well_formed ev /\ m !! EE_ID ev = None /\ m' = index m ev.
Proof.
  unfold index_event, well_formed.
  destruct (_ || _ || _ || _ || _) eqn:E.
  - split; [done|]. intros ((N1 & N2 & N3 & N4 & N5) & _).
    apply Z.eqb_neq in N3, N4. apply Z.ltb_ge in N5. by rewrite !bool_decide_eq_false_2, N3, N4, N5 in E.
  - apply orb_false_iff in E as [[[[E1 E2]%orb_false_iff E3]%orb_false_iff E4]%orb_false_iff E5].
    apply bool_decide_eq_false in E1, E2. apply Z.eqb_neq in E3, E4. apply Z.ltb_ge in E5.
    destruct (m !! EE_ID ev) eqn:El; cbn; split; try done.
    + by intros (_ & ? & _).
    + intros <-%Ok_inj. done.
    + by intros (_ & _ & ->).
Qed.

Lemma index_events_ok events : forall m m',
  foldM index_event m events = Ok m' <->
  Forall well_formed events /\ NoDup (map EE_ID events) /\ (forall ev, ev ∈ events -> m !! EE_ID ev = None) /\ m' = foldl index m events.
Proof.
  induction events as [|ev events IH]; intros m m'; cbn.
  - split; [intros <-%Ok_inj|intros (_ & _ & _ & ->); done]. split_and!; [done|constructor|set_solver|done].
  - rewrite Forall_cons, NoDup_cons.
    destruct (index_event m ev) as [m1|e] eqn:E; cbn.
    + apply index_event_ok in E as (Hw & Hn & ->). rewrite IH. split.
      * intros (H1 & H2 & H3 & ->).
        assert (EE_ID ev ∉ map EE_ID events) as Hni.
        { intros (ev' & Ei & Hi)%list_elem_of_fmap. specialize (H3 ev' Hi). unfold index in H3.
          rewrite Ei, lookup_insert_eq in H3. done. }
        split_and!; try done. intros ev' [->|Hi]%elem_of_cons; [done|].
        specialize (H3 ev' Hi). unfold index in H3. by apply lookup_insert_None in H3 as [? _].
      * intros ([_ H1] & [Hni H2] & H3 & ->). split_and!; try done. intros ev' Hi. unfold index.
        apply lookup_insert_None. split; [apply H3; set_solver|]. intros Ei. apply Hni. rewrite Ei. by apply list_elem_of_fmap_2.
    + split; [done|]. intros ([Hw _] & _ & Hn & _).
      assert (index_event m ev = Ok (index m ev)) as E' by (apply index_event_ok; split_and!; [done|apply Hn; set_solver|done]).
      by rewrite E' in E.
Qed.

Lemma index_lookup events : forall m id, NoDup (map EE_ID events) ->
  (forall ev, ev ∈ events -> m !! EE_ID ev = None) ->
  (foldl index m events !! id = Some AgentClaim <-> claimed events id \/ m !! id = Some AgentClaim).
Proof.
  unfold claimed. induction events as [|ev events IH]; intros m id; cbn.
  - intros _ _. split; [by right|]. intros [(? & ?%elem_of_nil & _)|]; done.
  - rewrite NoDup_cons. intros [Hni Hnd] Hm.
    rewrite IH; [|done|].
    + unfold index. rewrite lookup_insert_Some. split.
      * intros [(cl & Hc & ? & ?)|[[<- ?]|[_ ?]]]; [left; exists cl; set_solver|left; exists ev; set_solver|by right].
      * intros [(cl & [->|Hc]%elem_of_cons & <- & Es)|Hs]; [right; by left|left; by exists cl|].
        right. right. split; [|done]. intros <-. by rewrite (Hm ev) in Hs by set_solver.
    + intros ev' Hi. unfold index. apply lookup_insert_None. split; [apply Hm; set_solver|].
      intros Ei. apply Hni. rewrite Ei. by apply list_elem_of_fmap_2.
Qed.

Lemma source_of_claimed events id : NoDup (map EE_ID events) ->
  source_of (foldl index ∅ events) id = AgentClaim <-> claimed events id.
Proof.
  intros Hnd. pose proof (index_lookup events ∅ id Hnd ltac:(intros; apply lookup_empty)) as [H1 H2].
  unfold source_of. split.
  - destruct (foldl index ∅ events !! id) as [s|] eqn:E; cbn; [intros ->|done].
    destruct (H1 eq_refl) as [?|Hs]; [done|]. by rewrite lookup_empty in Hs.
  - intros Hc. by rewrite H2 by (by left).
Qed.

Lemma own_run (x runID : string) : (x != "") && (x != runID) = false <-> x = "" \/ x = runID.
Proof. repeat case_bool_decide; cbn; intuition congruence. Qed.

Lemma validateReferences_ok runID events ev : Forall well_formed events -> NoDup (map EE_ID events) ->
  validateReferences runID ev (foldl index ∅ events) = Ok tt <-> well_referenced runID events ev.
Proof.
  intros Hw Hnd. unfold validateReferences, well_referenced.
  assert (forall id, claimed events id -> id <> "") as Hne.
  { intros id (cl & Hc & <- & _). rewrite Forall_forall in Hw. apply (Hw _ Hc). }
  assert (match EE_Attribution ev with Some a => (EA_RunID a != "") && (EA_RunID a != runID) | None => false end = false <->
    forall a, EE_Attribution ev = Some a -> EA_RunID a = "" \/ EA_RunID a = runID) as Ha.
  { destruct (EE_Attribution ev) as [a|]; [|done]. rewrite own_run. split; [by intros ? ? [= <-]|auto]. }
  destruct (match EE_Attribution ev with Some _ => _ | None => _ end); [split; [done|intros [H _]; by apply Ha in H]|].
  rewrite <-Ha. destruct (EE_Correlation ev) as [c|]; [|done].
  assert (forall P : CorrelationResult -> Prop, (forall c', Some c = Some c' -> P c') <-> P c) as Hc.
  { intros P. split; [auto|by intros ? ? [= <-]]. }
  rewrite Hc. clear Hc. case_bool_decide as E1; cbn [negb]; [|by split; [|intros (_ & ? & _)]].
  rewrite <-own_run. destruct ((Attribution_RunID _ != "") && _) eqn:E2; [by split; [|intros (_ & _ & ? & _)]|].
  destruct ((Result_SelectedCheckpoint _ != "") && _) eqn:E3.
  - split; [done|]. intros (_ & _ & _ & Hs & _). rewrite <-source_of_claimed in Hs by done.
    apply andb_true_iff in E3 as [N1%negb_true_iff%bool_decide_eq_false N2%negb_true_iff%bool_decide_eq_false]. by destruct Hs.
  - assert (Result_SelectedCheckpoint c = "" \/ claimed events (Result_SelectedCheckpoint c)) as Hs.
    { rewrite <-source_of_claimed by done. apply andb_false_iff in E3 as [E3|E3]; apply negb_false_iff, bool_decide_eq_true in E3; auto. }
    rewrite guard_err_ok, existsb_false, Forall_forall. split.
    + intros Hx. split_and!; try done. intros cand Hcand. specialize (Hx cand Hcand). apply orb_false_iff in Hx as [_ Hx].
      apply negb_false_iff, bool_decide_eq_true in Hx. by apply source_of_claimed.
    + intros (_ & _ & _ & _ & Hx) cand Hcand. specialize (Hx cand Hcand).
      rewrite (bool_decide_eq_false_2 _ (Hne _ Hx)), bool_decide_eq_true_2; [done|by apply source_of_claimed].
Qed.

Definition passes (runID : string) (sources : gmap string Source) (ev : EvidenceEvent) : Prop :=
  validateSource ev = Ok tt /\ validateReferences runID ev sources = Ok tt.
Lemma build_item_ok runID sources acc ev items :
  build_item runID sources acc ev = Ok items <-> passes runID sources ev /\ items = acc ++ [event_item ev].
Proof.
  unfold build_item, passes. destruct (validateSource ev) as [[]|]; cbn; [|split; [done|intros [[? _] _]; discriminate]].
  destruct (validateReferences _ _ _) as [[]|]; cbn; [|split; [done|intros [[_ ?] _]; discriminate]].
  split; [by intros <-%Ok_inj|by intros [_ ->]].
Qed.

Lemma build_items_ok runID sources events : forall acc items,
  foldM (build_item runID sources) acc events = Ok items <->
  Forall (passes runID sources) events /\ items = acc ++ map event_item events.
Proof.
  induction events as [|ev events IH]; intros acc items; cbn [foldM map].
  - rewrite app_nil_r. split; [by intros <-%Ok_inj|by intros [_ ->]].
  - rewrite Forall_cons. destruct (build_item runID sources acc ev) as [acc'|e] eqn:E.
    + apply build_item_ok in E as [Hp ->]. cbn. rewrite IH, <-app_assoc. cbn. intuition.
    + split; [done|]. intros [[Hp _] _]. assert (build_item runID sources acc ev = Ok (acc ++ [event_item ev])) as E'
        by (by apply build_item_ok). by rewrite E' in E.
Qed.

Definition timeline_of (runID : string) (events : list EvidenceEvent) : Timeline :=
  mkTimeline EvidenceSchemaVersion runID (imap number_item (sort_by item_less (map event_item events))).

Lemma Build_ok runID events t :
  Build runID events = Ok t <-> acceptable runID events /\ t = timeline_of runID events.
Proof.
  unfold Build, acceptable. destruct (_ || _) eqn:E.
  { split; [done|]. intros ((N1 & N2 & _) & _). apply Z.ltb_ge in N2. by rewrite bool_decide_eq_false_2, N2 in E. }
  apply orb_false_iff in E as [N1%bool_decide_eq_false N2%Z.ltb_ge].
  destruct (foldM index_event ∅ events) as [sources|e] eqn:Es; cbn [mbind result_bind].
  - apply index_events_ok in Es as (Hw & Hnd & _ & ->).
    assert (Forall (passes runID (foldl index ∅ events)) events <->
      Forall (fun ev => well_formed ev /\ well_sourced ev /\ well_referenced runID events ev) events) as Hp.
    { rewrite !Forall_forall. unfold passes. setoid_rewrite validateSource_ok. setoid_rewrite validateReferences_ok; [|done..].
      rewrite Forall_forall in Hw. clear -Hw. split; intros H x Hx; specialize (H x Hx); specialize (Hw x Hx); tauto. }
    destruct (foldM (build_item _ _) [] events) as [items|e] eqn:Ei.
    + apply build_items_ok in Ei as [Hi ->]. rewrite Hp in Hi. split; [intros <-%Ok_inj; done|by intros [_ ->]].
    + split; [done|]. intros ((_ & _ & _ & Ha) & _). rewrite <-Hp in Ha.
      assert (foldM (build_item runID (foldl index ∅ events)) [] events = Ok ([] ++ map event_item events)) as Ei'
        by (by apply build_items_ok). by rewrite Ei' in Ei.
  - split; [done|]. intros ((_ & _ & Hnd & Ha) & _).
    assert (foldM index_event ∅ events = Ok (foldl index ∅ events)) as Es'; [|by rewrite Es' in Es].
    apply index_events_ok. split_and!; [|done|intros; apply lookup_empty|done].
    eapply Forall_impl; [exact Ha|]. by intros ? [? _].
Qed.

#[export] Instance item_less_weak : StrictWeak item_less.
Proof.
  split; unfold item_less.
  - intros x y. destruct (Z.eqb_spec (monotonicNS x) (monotonicNS y)), (Z.eqb_spec (monotonicNS y) (monotonicNS x)); cbn; try lia.
    by apply less_asym.
  - intros x y z. destruct (Z.eqb_spec (monotonicNS y) (monotonicNS x)), (Z.eqb_spec (monotonicNS z) (monotonicNS y)),
      (Z.eqb_spec (monotonicNS z) (monotonicNS x)); cbn; try lia. by apply less_ntrans.
Qed.

(** Separated items are strictly ordered. *)
Lemma item_less_false a b : item_less (event_item b) (event_item a) = false -> EE_ID a <> EE_ID b -> before a b.
Proof.
  unfold item_less, before. cbn. destruct (Z.eqb_spec (EE_ServerMonotonicNS b) (EE_ServerMonotonicNS a)); cbn; [|lia].
  intros Hl Hn. right. split; [done|]. destruct (str_lt (EE_ID a) (EE_ID b)) eqn:E; [done|].
  destruct Hn. by apply str_lt_total.
Qed.
Lemma item_less_separates events : NoDup (map EE_ID events) -> forall x y,
  x ∈ map event_item events -> y ∈ map event_item events -> item_less x y = false -> item_less y x = false -> x = y.
Proof.
  intros Hnd x y (a & -> & Ha)%list_elem_of_fmap (b & -> & Hb)%list_elem_of_fmap H1 H2.
  destruct (decide (EE_ID a = EE_ID b)) as [E|E]; [by rewrite (nodup_map_inj _ _ _ _ Hnd Ha Hb E)|].
  pose proof (item_less_false _ _ H2 E) as L1. pose proof (item_less_false _ _ H1 (not_eq_sym E)) as L2.
  unfold before in *. destruct L1 as [|[? L1]], L2 as [|[? L2]]; try lia. apply less_asym in L1. congruence.
Qed.

Lemma sorted_before order : NoDup (map EE_ID order) ->
  StronglySorted (not_after item_less) (map event_item order) -> StronglySorted before order.
Proof.
  induction order as [|a order IH]; cbn; [constructor|]. rewrite NoDup_cons.
  intros [Hni Hnd] [Hs Ha]%StronglySorted_inv. constructor; [by apply IH|].
  rewrite Forall_forall in Ha. apply Forall_forall. intros b Hb. apply item_less_false; [apply Ha; by apply list_elem_of_fmap_2|].
  intros E. apply Hni. rewrite E. by apply list_elem_of_fmap_2.
Qed.

Lemma acceptable_perm runID events events' : events ≡ₚ events' -> acceptable runID events -> acceptable runID events'.
Proof.
  intros Hp (H1 & H2 & H3 & H4). unfold acceptable, len. rewrite <-Hp. split_and!; try done.
  eapply Forall_impl; [exact H4|]. intros ev (W1 & W2 & W3 & W4). split_and!; try done. split; [done|].
  unfold claimed in *. by setoid_rewrite <-Hp.
Qed.

(** [Build] accepts exactly the acceptable inputs: a non-empty Run ID, at
    most 10000 complete events with distinct IDs, each carrying only the
    evidence its source may claim (an agent never reports an operation, a
    decision or a containment), each referring only to this Run, and each
    correlation belonging to its event and naming only checkpoints that are
    agent claims of the same timeline. *)
Theorem Build_accepts runID events : (exists t, Build runID events = Ok t) <-> acceptable runID events.
Proof. setoid_rewrite Build_ok. split; [by intros (t & ? & _)|eauto]. Qed.

(** The item shown for event [ev] at position [i] of a timeline. *)
Definition shows (i : nat) (ev : EvidenceEvent) (it : Item) : Prop :=
  Item_Sequence it = FormatUint (Z.of_nat i + 1) /\
  Item_ID it = EE_ID ev /\ Item_Type it = EE_Type ev /\ Item_Source it = EE_Source ev /\
  Item_ServerMonotonicNS it = FormatUint (EE_ServerMonotonicNS ev) /\ Item_ServerUnixNS it = FormatUint (EE_ServerUnixNS ev) /\
  Item_Summary it = EE_Summary ev /\ Item_Attribution it = EE_Attribution ev /\ Item_Correlation it = EE_Correlation ev /\
  Item_Operation it = EE_Operation ev /\ Item_Decision it = EE_Decision ev /\ Item_Containment it = EE_Containment ev.

(** A timeline shows every event exactly once, unchanged, in strictly
    increasing order of server monotonic time (ties by ID), numbered from 1;
    the result does not depend on the order in which the events were given. *)
Theorem Build_chronology runID events t : Build runID events = Ok t ->
  (exists order, order ≡ₚ events /\ StronglySorted before order /\
    length (Timeline_Items t) = length order /\
    forall i ev it, order !! i = Some ev -> Timeline_Items t !! i = Some it -> shows i ev it) /\
  Timeline_RunID t = runID /\
  forall events', events' ≡ₚ events -> Build runID events' = Ok t.
Proof.
  intros [Ha ->]%Build_ok. split; [|split; [done|]].
  - destruct (Permutation_map_inv event_item _ (sort_by_perm item_less (map event_item events))) as (order & E & Hp).
    assert (NoDup (map EE_ID order)) as Hnd by (rewrite <-(Permutation_map EE_ID Hp); apply Ha).
    exists order. split; [by symmetry|]. unfold timeline_of. cbn [Timeline_Items]. rewrite E. split_and!.
    + apply sorted_before; [done|]. rewrite <-E. apply sort_by_sorted, _.
    + by rewrite length_imap, length_map.
    + intros i ev it Ho. rewrite list_lookup_imap, list_lookup_fmap, Ho. cbn. by intros [= <-].
  - intros events' Hp. apply Build_ok. split; [by apply (acceptable_perm _ events)|].
    unfold timeline_of. do 2 f_equal. apply sort_by_perm_eq; [apply _| |by rewrite Hp].
    apply item_less_separates, Ha.
Qed.

Lemma Build_chronology_witness :
  is_ok BuildSampleTimeline = true /\ Build "run-demo" (rev sample_events) = BuildSampleTimeline.
Proof.
  assert (is_ok BuildSampleTimeline = true) as Hok by (vm_compute; reflexivity). split; [exact Hok|].
  destruct BuildSampleTimeline as [t|e] eqn:E; [|discriminate].
  apply (Build_chronology "run-demo" sample_events t E). symmetry. apply Permutation_rev.
Defined.

(** ** Correlations as the correlator builds them *)
Section Correlated.
Context `{UnicodeTables}.

Lemma checkpoint_candidate_from o runID kev c cand : checkpoint_candidate o runID kev c = Some cand ->
  Candidate_CheckpointID cand = CC_CheckpointID c /\ CC_CheckpointID c <> "" /\ CC_RunID c = runID.
Proof.
  unfold checkpoint_candidate. destruct (_ || _) eqn:E; [done|].
  apply orb_false_iff in E as [[E1%negb_false_iff%bool_decide_eq_true E2%bool_decide_eq_false]%orb_false_iff _].
  destruct (boundedDelta _ _ _); [|done]. cbv zeta. destruct (_ <=? _); [|done]. by intros [= <-].
Qed.

Lemma Correlate_references k kev cs : let res := Correlate k kev cs in
  Result_EventID res = CE_EventID kev /\
  (Result_SelectedCheckpoint res = "" \/ exists cand, cand ∈ Result_Candidates res /\ Result_SelectedCheckpoint res = Candidate_CheckpointID cand) /\
  forall cand, cand ∈ Result_Candidates res -> exists c, c ∈ cs /\ CC_CheckpointID c = Candidate_CheckpointID cand /\
    CC_CheckpointID c <> "" /\ CC_RunID c = Attribution_RunID (Result_Attribution res) /\ CC_RunID c <> "".
Proof.
  cbv zeta. unfold Correlate. destruct (_ || _ || _ || _).
  { split; [done|]. split; [by left|]. intros ? ?%elem_of_nil. done. }
  set (attr := correlator_resolve _ _ _ _). cbv zeta. destruct (_ || (Attribution_RunID attr == "")) eqn:E.
  { split; [done|]. split; [by left|]. intros ? ?%elem_of_nil. done. }
  apply orb_false_iff in E as [_ Hne%bool_decide_eq_false].
  assert (forall cand, cand ∈ sort_by candidate_less (omap (checkpoint_candidate (correlator_options k) (Attribution_RunID attr) kev) cs) ->
    exists c, c ∈ cs /\ CC_CheckpointID c = Candidate_CheckpointID cand /\ CC_CheckpointID c <> "" /\
      CC_RunID c = Attribution_RunID attr /\ CC_RunID c <> "") as Hc.
  { intros cand. rewrite elem_of_sort_by, list_elem_of_omap. intros (c & Hc & (E1 & E2 & E3)%checkpoint_candidate_from).
    exists c. split_and!; try done; congruence. }
  destruct (sort_by _ _) as [|best rest]; [split; [done|]; split; [by left|done]|].
  destruct (match rest with [] => _ | _ => _ end); split; try done; split; try done; [by left|].
  right. exists best. split; [set_solver|done].
Qed.

Lemma well_referenced_app runID events ev evs : well_referenced runID events ev -> well_referenced runID (events ++ evs) ev.
Proof.
  intros [H1 H2]. split; [done|]. intros c Hc. destruct (H2 c Hc) as (E1 & E2 & E3 & E4).
  assert (forall id, claimed events id -> claimed (events ++ evs) id) as Hcl by (intros id (cl & ? & ?); exists cl; set_solver).
  split_and!; [done..|naive_solver|auto].
Qed.

(** A timeline accepts what the correlator produces.  When a kernel event
    of the Run is correlated against checkpoints whose claims of this Run are
    in the timeline, adding the event with that correlation to an accepted
    timeline is accepted again. *)
Theorem Build_accepts_correlated runID events t k kev cs ev :
  Build runID events = Ok t -> len events < 10000 ->
  Forall (fun c => CC_RunID c = runID -> CC_CheckpointID c <> "" -> claimed events (CC_CheckpointID c)) cs ->
  Attribution_RunID (Result_Attribution (Correlate k kev cs)) ∈ [""; runID] ->
  EE_Correlation ev = Some (Correlate k kev cs) -> EE_ID ev = CE_EventID kev ->
  EE_ID ev ∉ map EE_ID events -> well_formed ev -> EE_Source ev = KernelFact -> is_Some (EE_Operation ev) ->
  EE_Decision ev = None -> EE_Containment ev = None -> EE_Attribution ev = None ->
  exists t', Build runID (events ++ [ev]) = Ok t'.
Proof.
  intros [(A1 & A2 & A3 & A4) _]%Build_ok Hlen Hcs Hrun Hcor Hid Hfresh Hw Hsrc Hop Hd Hk Ha.
  eexists. apply Build_ok. split; [|done]. pose proof (Correlate_references k kev cs) as (R1 & R2 & R3).
  assert (forall cand, cand ∈ Result_Candidates (Correlate k kev cs) -> claimed (events ++ [ev]) (Candidate_CheckpointID cand)) as Hcl.
  { intros cand Hc. destruct (R3 cand Hc) as (c & Hin & <- & Hne & E1 & E2). rewrite Forall_forall in Hcs.
    destruct (Hcs c Hin) as (cl & Hcl & E); [|done|exists cl; set_solver].
    rewrite <-E1 in Hrun. set_solver. }
  split_and!; [done|rewrite len_app; cbn; unfold len in *; cbn; lia| |].
  - rewrite map_app. apply NoDup_app. split_and!; [done| |apply NoDup_singleton]. set_solver.
  - apply Forall_app. split; [eapply Forall_impl; [exact A4|]; intros ? (? & ? & ?); split_and!; [done..|by apply well_referenced_app]|].
    apply Forall_singleton. split_and!; [done| |].
    + unfold well_sourced. rewrite Hsrc, Hd, Hk. split_and!; [set_solver|done|..]; try done; split; try done; intros [? ?]; done.
    + split; [by rewrite Ha|]. rewrite Hcor. intros c [= <-]. split_and!; [congruence|set_solver| |done].
      destruct R2 as [?|(cand & Hc & ->)]; [by left|right; auto].
Qed.
End Correlated.

(** A claim of [run-1], and a kernel event correlated with it. *)
Definition demo_claim : EvidenceEvent :=
  mkEvidenceEvent "c1" "tool_started" AgentClaim 9000000000 1800000000000000000 "start shell" None None None None None.
Definition demo_fact : EvidenceEvent :=
  mkEvidenceEvent "e1" "exec_attempt" KernelFact 10000000000 1800000001000000000 "exec attempt observed" None
    (Some (Correlate (H := ascii_tables) demo_correlator demo_correlation_event (take 1 demo_checkpoints)))
    (Some (mkOperationResult true "none" "tracepoint/sys_enter_execve")) None None.

Lemma Build_accepts_correlated_witness : exists t', Build "run-1" ([demo_claim] ++ [demo_fact]) = Ok t'.
Proof.
  destruct (Build "run-1" [demo_claim]) as [t|e] eqn:E; [|vm_compute in E; discriminate].
  apply (Build_accepts_correlated (H := ascii_tables) "run-1" [demo_claim] t demo_correlator demo_correlation_event (take 1 demo_checkpoints));
    try reflexivity.
  - exact E.
  - apply Forall_singleton. intros _ _. exists demo_claim. split_and!; [left|reflexivity..].
  - apply (bool_decide_unpack _). vm_compute. exact I.
  - apply (bool_decide_unpack _). vm_compute. exact I.
  - split_and!; [discriminate..|]. unfold slen. cbn. lia.
  - eexists. reflexivity.
Defined.
