(* ===== verification/CgroupPath.v ===== *)
(** * Cgroup paths as lists of components

    [path.Clean] of an absolute path is [/] followed by its components; the
    ancestor tests of [internal/scope/manager.go] and
    [internal/killer/killer.go], which compare cleaned strings byte by byte,
    are the prefix order on components. *)
From S2P Require Import Prelude GoStd.
Open Scope Z_scope.

(** The test both packages write:
    [c == d || c == "/" || len(c) < len(d) && d[:len(c)] == c && d[len(c)] == '/']. *)
Definition clean_ancestor (candidate descendant : string) : bool :=
  (candidate == descendant) || (candidate == "/") ||
  ((slen candidate <? slen descendant) && HasPrefix descendant candidate &&
   match str_drop (String.length candidate) descendant with
   | String c _ => c == slash
   | EmptyString => false
   end).

Definition pathIsEqualOrAncestor (candidate descendant : string) : bool :=
  clean_ancestor (Clean candidate) (Clean descendant).
Definition pathsOverlap (first second : string) : bool :=
  pathIsEqualOrAncestor first second || pathIsEqualOrAncestor second first.

(** ** Components *)
Definition components (p : string) : list string := rev (foldl (clean_step (IsAbs p)) [] (split_byte slash p)).

Definition no_slash (s : string) : bool := str_forall (fun c => c != slash) s.
Definition component_ok (s : string) : Prop := no_slash s = true /\ s <> "".
Fixpoint rooted_path (l : list string) : string :=
  match l with
  | [] => ""
  | x :: l' => "/" +:+ x +:+ rooted_path l'
  end.

Lemma split_byte_no_slash s : Forall (fun x => no_slash x = true) (split_byte slash s).
Proof.
  induction s as [|c s IH]; cbn; [by repeat constructor|].
  destruct (split_byte slash s) as [|p ps]; [constructor|]. apply Forall_cons in IH as [Hp Hps].
  case_bool_decide as E; repeat constructor; try done. unfold no_slash in *. cbn. by rewrite bool_decide_eq_false_2.
Qed.

Lemma components_ok p : Forall component_ok (components p).
Proof.
  unfold components. apply Forall_rev. generalize (split_byte_no_slash p). generalize (IsAbs p) as r.
  generalize (split_byte slash p) as l. intros l r Hl.
  assert (Forall component_ok ([] : list string)) as Hacc by constructor.
  revert Hacc. generalize ([] : list string) as acc. induction Hl as [|x l Hx Hl IH]; intros acc Hacc; [done|].
  cbn. apply IH. unfold clean_step. destruct (_ || _) eqn:E; [done|]. apply orb_false_iff in E as [E%bool_decide_eq_false _].
  assert (component_ok "..") as Hdd by done. case_bool_decide.
  - destruct acc as [|top rest]; [destruct r; [constructor|by apply Forall_singleton]|].
    apply Forall_cons in Hacc as [? ?]. case_bool_decide; [by repeat apply Forall_cons_2|done].
  - by constructor.
Qed.

Lemma rooted_join l : l <> [] -> "/" +:+ Join l "/" = rooted_path l.
Proof.
  induction l as [|x [|y l] IH]; [done| |]; intros _.
  - cbn [rooted_path Join]. by rewrite str_app_nil_r.
  - change (Join (x :: y :: l) "/") with (x +:+ "/" +:+ Join (y :: l) "/"). rewrite IH by done. done.
Qed.
Lemma Clean_abs p : IsAbs p = true ->
  Clean p = match components p with [] => "/" | _ => rooted_path (components p) end.
Proof.
  intros Ha. assert (Clean p = "/" +:+ Join (components p) "/") as -> by (unfold Clean, components; by rewrite Ha).
  destruct (components p) as [|x l]; [done|]. by apply rooted_join.
Qed.

(** Slash-free heads of equal strings are equal. *)
Definition slash_or_end (s : string) : Prop := match s with EmptyString => True | String c _ => c = slash end.
Lemma head_unique x : forall y u v, no_slash x = true -> no_slash y = true -> slash_or_end u -> slash_or_end v ->
  x +:+ u = y +:+ v -> x = y /\ u = v.
Proof.
  unfold no_slash. induction x as [|c x IH]; intros [|d y] u v Hx Hy Hu Hv E; cbn in *.
  - done.
  - change (u = String d (y +:+ v)) in E. subst u. cbn in Hu. subst d. by rewrite bool_decide_eq_true_2 in Hy.
  - change (String c (x +:+ u) = v) in E. subst v. cbn in Hv. subst c. by rewrite bool_decide_eq_true_2 in Hx.
  - apply andb_true_iff in Hx as [_ Hx], Hy as [_ Hy]. change (String c (x +:+ u) = String d (y +:+ v)) in E. injection E as -> E.
    destruct (IH y u v Hx Hy Hu Hv E) as [-> ->]. done.
Qed.
Lemma rooted_slash_or_end l : slash_or_end (rooted_path l).
Proof. by destruct l. Qed.

Lemma rooted_prefix l1 : forall l2 u, Forall component_ok l1 -> Forall component_ok l2 ->
  slash_or_end u -> rooted_path l1 +:+ u = rooted_path l2 -> exists l3, l2 = l1 ++ l3 /\ u = rooted_path l3.
Proof.
  induction l1 as [|x l1 IH]; intros l2 u H1 H2 Hu E; [by exists l2|].
  destruct l2 as [|y l2]; [done|]. apply Forall_cons in H1 as [[Hx _] H1], H2 as [[Hy _] H2].
  cbn [rooted_path] in E. rewrite <-!str_app_assoc in E.
  assert (x +:+ (rooted_path l1 +:+ u) = y +:+ rooted_path l2) as E' by (cbn in E; by injection E).
  apply head_unique in E' as [-> E']; [|done|done|by destruct l1|apply rooted_slash_or_end].
  destruct (IH l2 u H1 H2 Hu E') as (l3 & -> & ->). by exists l3.
Qed.
Lemma rooted_app l1 l2 : rooted_path (l1 ++ l2) = rooted_path l1 +:+ rooted_path l2.
Proof. induction l1 as [|x l1 IH]; [done|]. cbn [rooted_path app]. by rewrite IH, !str_app_assoc. Qed.


(** The byte-wise test holds exactly when the descendant continues the
    candidate with a slash. *)
Lemma clean_ancestor_spec c d :
  clean_ancestor c d = true <-> c = d \/ c = "/" \/ exists r, d = c +:+ String slash r.
Proof.
  unfold clean_ancestor. rewrite !orb_true_iff, !bool_decide_eq_true, !andb_true_iff, Z.ltb_lt, HasPrefix_app. split.
  - intros [[?|?]|[[_ [r ->]] Hr]]; [tauto..|]. right. right. rewrite str_drop_app in Hr. destruct r as [|e r]; [done|].
    apply bool_decide_eq_true in Hr as ->. by exists r.
  - intros [?|[?|[r ->]]]; [tauto..|]. right. rewrite str_drop_app. split_and!; [|by exists (String slash r)|by rewrite bool_decide_eq_true].
    unfold slen. rewrite str_length_app. cbn. lia.
Qed.

Lemma rooted_inj l1 l2 : Forall component_ok l1 -> Forall component_ok l2 ->
  rooted_path l1 = rooted_path l2 -> l1 = l2.
Proof.
  intros H1 H2 E. destruct (rooted_prefix l1 l2 "" H1 H2 I) as (l3 & -> & E3); [by rewrite str_app_nil_r|].
  destruct l3; [by rewrite app_nil_r|done].
Qed.

(** On absolute paths the test is the prefix order on components. *)
Lemma clean_ancestor_components p q : IsAbs p = true -> IsAbs q = true ->
  clean_ancestor (Clean p) (Clean q) = true <-> components p `prefix_of` components q.
Proof.
  intros Hp Hq. pose proof (components_ok p) as Np. pose proof (components_ok q) as Nq.
  rewrite clean_ancestor_spec, !Clean_abs by done. generalize dependent (components p). generalize dependent (components q). clear.
  intros lq Nq lp Np. destruct lp as [|x lp]; [split; [intros _; apply prefix_nil|tauto]|].
  assert (rooted_path (x :: lp) <> "/") as Hne.
  { apply Forall_cons in Np as [[_ Hx] _]. by destruct x. }
  set (l := x :: lp) in *. split.
  - intros [E|[E|[r E]]].
    + destruct lq; [done|]. by rewrite (rooted_inj _ _ Np Nq E).
    + done.
    + destruct lq as [|y lq].
      * exfalso. apply Forall_cons in Np as [[_ Hx] _]. by destruct x.
      * destruct (rooted_prefix l (y :: lq) (String slash r) Np Nq eq_refl (eq_sym E)) as (l3 & -> & _). by exists l3.
  - intros [l3 ->]. destruct l3 as [|y l3]; [left; by rewrite app_nil_r|]. right. right.
    change (match l ++ y :: l3 with [] => "/" | _ => rooted_path (l ++ y :: l3) end) with (rooted_path (l ++ y :: l3)).
    rewrite rooted_app. exists (y +:+ rooted_path l3). done.
Qed.

(** Components of a rooted path are proper names, so cleaning again changes
    nothing. *)
Definition proper_name (s : string) : Prop := component_ok s /\ s <> "." /\ s <> "..".
Lemma components_proper p : IsAbs p = true -> Forall proper_name (components p).
Proof.
  intros Ha. unfold components. rewrite Ha. apply Forall_rev. generalize (split_byte_no_slash p).
  generalize (split_byte slash p) as l. intros l Hl.
  assert (Forall proper_name ([] : list string)) as Hacc by constructor.
  revert Hacc. generalize ([] : list string) as acc. induction Hl as [|x l Hx Hl IH]; intros acc Hacc; [done|].
  cbn. apply IH. unfold clean_step. destruct (_ || _) eqn:E; [done|].
  apply orb_false_iff in E as [E1%bool_decide_eq_false E2%bool_decide_eq_false]. case_bool_decide as E3.
  - destruct acc as [|top rest]; [done|]. apply Forall_cons in Hacc as [[_ [_ ?]] ?]. by rewrite bool_decide_eq_false_2.
  - by constructor.
Qed.
Lemma clean_step_proper l : forall acc, Forall proper_name l -> foldl (clean_step true) acc l = rev l ++ acc.
Proof.
  induction l as [|x l IH]; intros acc Hl; [done|]. apply Forall_cons in Hl as [([_ H1] & H2 & H3) Hl].
  cbn [foldl rev]. unfold clean_step at 2. rewrite !bool_decide_eq_false_2 by done. cbn [orb].
  by rewrite IH, <-app_assoc.
Qed.
Lemma split_no_slash x : forall s, no_slash x = true ->
  split_byte slash (x +:+ s) = match split_byte slash s with [] => [] | p :: ps => (x +:+ p) :: ps end.
Proof.
  unfold no_slash. induction x as [|c x IH]; intros s; [change ("" +:+ s) with s; by destruct (split_byte slash s)|].
  cbn [str_forall]. intros [Hc%negb_true_iff Hx]%andb_true_iff. change (String c x +:+ s) with (String c (x +:+ s)).
  cbn [split_byte]. rewrite IH by done. destruct (split_byte slash s); [done|]. by rewrite Hc.
Qed.
Lemma split_rooted l : Forall component_ok l -> split_byte slash (rooted_path l) = "" :: l.
Proof.
  induction l as [|x l IH]; [done|]. intros [[Hx _] Hl]%Forall_cons. cbn [rooted_path].
  change ("/" +:+ x +:+ rooted_path l) with (String slash (x +:+ rooted_path l)). cbn [split_byte].
  rewrite (split_no_slash x _ Hx), (IH Hl), bool_decide_eq_true_2 by done. by rewrite str_app_nil_r.
Qed.
Lemma components_Clean p : IsAbs p = true -> IsAbs (Clean p) = true /\ components (Clean p) = components p.
Proof.
  intros Ha. pose proof (components_proper p Ha) as Hp. rewrite (Clean_abs p Ha).
  destruct (components p) as [|x l]; [done|]. set (cs := x :: l) in *.
  assert (IsAbs (rooted_path cs) = true) as Hr by (unfold IsAbs; by apply HasPrefix_app; exists (x +:+ rooted_path l)).
  split; [done|]. unfold components. rewrite Hr, split_rooted by (eapply Forall_impl; [exact Hp|by intros ? [? _]]).
  cbn [foldl]. unfold clean_step at 2. cbn [bool_decide orb]. rewrite bool_decide_eq_true_2 by done. cbn [orb].
  by rewrite clean_step_proper, app_nil_r, rev_involutive.
Qed.
