(* ===== verification/Scope.v ===== *)
(** * Cgroup scopes ([internal/scope/manager.go], [internal/scope/monitor.go])
      and the BPF scope map ([ebpfScopeMap] of [internal/bpfmgr/audit_linux.go])

    The manager registers exact cgroups in the kernel's scope map.  The map is
    an interface of the code ([scope.Map]) and the class [ScopeMap] here; the
    manager is proved against the laws of the interface and [ebpfScopeMap]
    discharges them from the documented behaviour of the BPF map it wraps.
    What the resolver and the BPF probe answer is an argument of [Register].
    [Register] resolves and probes before it takes the lock and reads no
    mutable state there, so one call is one atomic step. *)
From S2P Require Import Prelude GoStd Netip Schema Limits Match NetworkMatch Generation Engine Events Enforcement KernelProgram KernelCapture CgroupPath.
Open Scope Z_scope.

Record ScopeValue := mkValue {
  Value_InstanceID : Z;
  Value_ScopeCookie : Z;
  Value_ProfileID : Z;
  Value_Reserved : Z;
}.
#[export] Instance ScopeValue_eq_dec : EqDecision ScopeValue.
Proof. solve_decision. Defined.

Inductive ValueError := ValueIdentityZero | ValueReservedSet.
Definition Value_Validate (v : ScopeValue) : option ValueError :=
  if (Value_InstanceID v =? 0) || (Value_ScopeCookie v =? 0) then Some ValueIdentityZero
  else if negb (Value_Reserved v =? 0) then Some ValueReservedSet
  else None.

(** [closer] identifies the open descriptor behind the handle, if any. *)
Record Handle := mkHandle {
  Handle_ID : Z;
  Handle_Path : string;
  handle_closer : option Z;
  handle_fd : Z;
  handle_hasFD : bool;
  handle_root : string;
}.
#[export] Instance Handle_eq_dec : EqDecision Handle.
Proof. solve_decision. Defined.
Record Target := mkTarget { Target_Path : string; Target_RootPID : Z }.
Record Registration := mkRegistration {
  Registration_CgroupID : Z;
  Registration_Path : string;
  Registration_RootPID : Z;
  Registration_Value : ScopeValue;
}.
#[export] Instance Registration_eq_dec : EqDecision Registration.
Proof. solve_decision. Defined.
Record activeScope := mkActiveScope { scope_registration : Registration; scope_handle : Handle }.

(** [scope.Map]. *)
Class ScopeMap (M Er : Type) := {
  scopes_Put : M -> Z -> ScopeValue -> M * option Er;
  scopes_Delete : M -> Z -> M * option Er;
}.

(** Resolver errors, with the two sentinels callers test for. *)
Inductive ResolveError := ResolveInvalidTarget | ResolveNotLeaf | ResolveFailed.
(** [scope.Resolver] and [scope.Probe]: what they answer. *)
Definition ResolvePathFn := string -> result ResolveError (option Handle).
Definition ProbeFn := Handle -> option Z.

Record Manager (M : Type) := mkManager {
  manager_scopes : M;
  manager_active : gmap Z activeScope;
  manager_corePath : string;
  (** The handles closed so far, in order. *)
  manager_closed : list Handle;
}.
Arguments mkManager {M} _ _ _ _.
Arguments manager_scopes {M} _.
Arguments manager_active {M} _.
Arguments manager_corePath {M} _.
Arguments manager_closed {M} _.

Inductive NewManagerError := CoreResolveFailed (e : ResolveError) | CoreHandleIncomplete | CoreCloseFailed.
(** [close_ok]: whether closing the Core handle succeeds.  The handles closed
    are returned in every case. *)
Definition NewManager {M} (scopes : M) (core : result ResolveError (option Handle)) (close_ok : bool) : result NewManagerError (Manager M) * list Handle :=
  match core with
  | Err e => (Err (CoreResolveFailed e), [])
  | Ok None => (Err CoreHandleIncomplete, [])
  | Ok (Some h) =>
      if (Handle_ID h =? 0) || (Handle_Path h == "") then (Err CoreHandleIncomplete, [h])
      else if negb close_ok then (Err CoreCloseFailed, [h])
      else (Ok (mkManager scopes ∅ (Clean (Handle_Path h)) [h]), [h])
  end.

Inductive RegisterError (Er : Type) :=
  | ErrInvalidTarget
  | RegisterValueInvalid (e : ValueError)
  | RegisterResolveFailed (e : ResolveError)
  | HandleIncomplete
  | ErrProtectedScope
  | ProbeFailed
  | ErrIdentityMismatch
  | ErrAlreadyActive
  | ErrOverlap
  | MapPutFailed (e : Er).
Arguments ErrInvalidTarget {Er}.
Arguments RegisterValueInvalid {Er} e.
Arguments RegisterResolveFailed {Er} e.
Arguments HandleIncomplete {Er}.
Arguments ErrProtectedScope {Er}.
Arguments ProbeFailed {Er}.
Arguments ErrIdentityMismatch {Er}.
Arguments ErrAlreadyActive {Er}.
Arguments ErrOverlap {Er}.
Arguments MapPutFailed {Er} e.

Inductive UnregisterError (Er : Type) := ErrNotActive | MapDeleteFailed (e : Er).
Arguments ErrNotActive {Er}.
Arguments MapDeleteFailed {Er} e.

Section Manager.
Context {M Er : Type} `{ScopeMap M Er}.

Definition close_handle (m : Manager M) (h : Handle) : Manager M :=
  mkManager (manager_scopes m) (manager_active m) (manager_corePath m) (manager_closed m ++ [h]).

Definition overlaps_active (m : Manager M) (path : string) : bool :=
  existsb (fun a => pathsOverlap (Registration_Path (scope_registration (snd a))) path) (map_to_list (manager_active m)).

(** The part under the lock. *)
Definition register_locked (m : Manager M) (h : Handle) (target : Target) (value : ScopeValue) : Manager M * result (RegisterError Er) Registration :=
  if is_some (manager_active m !! Handle_ID h) then (close_handle m h, Err ErrAlreadyActive)
  else if overlaps_active m (Handle_Path h) then (close_handle m h, Err ErrOverlap)
  else match scopes_Put (manager_scopes m) (Handle_ID h) value with
       | (scopes, Some e) =>
           (close_handle (mkManager scopes (manager_active m) (manager_corePath m) (manager_closed m)) h, Err (MapPutFailed e))
       | (scopes, None) =>
           let registration := mkRegistration (Handle_ID h) (Handle_Path h) (Target_RootPID target) value in
           (mkManager scopes (<[Handle_ID h := mkActiveScope registration h]> (manager_active m)) (manager_corePath m) (manager_closed m),
            Ok registration)
       end.

Definition Register (resolve : ResolvePathFn) (probe : ProbeFn) (m : Manager M) (target : Target) (value : ScopeValue) : Manager M * result (RegisterError Er) Registration :=
  if Target_Path target == "" then (m, Err ErrInvalidTarget)
  else if Target_RootPID target <? 0 then (m, Err ErrInvalidTarget)
  else match Value_Validate value with
  | Some e => (m, Err (RegisterValueInvalid e))
  | None =>
  match resolve (Target_Path target) with
  | Err e => (m, Err (RegisterResolveFailed e))
  | Ok None => (m, Err HandleIncomplete)
  | Ok (Some h) =>
      if (Handle_ID h =? 0) || (Handle_Path h == "") then (close_handle m h, Err HandleIncomplete)
      else if pathIsEqualOrAncestor (Handle_Path h) (manager_corePath m) then (close_handle m h, Err ErrProtectedScope)
      else match probe h with
           | None => (close_handle m h, Err ProbeFailed)
           | Some observed =>
               if negb (observed =? Handle_ID h) then (close_handle m h, Err ErrIdentityMismatch)
               else register_locked m h target value
           end
  end end.

(** The error of closing the handle is ignored. *)
Definition Unregister (m : Manager M) (cgroupID : Z) : Manager M * option (UnregisterError Er) :=
  match manager_active m !! cgroupID with
  | None => (m, Some ErrNotActive)
  | Some a =>
      match scopes_Delete (manager_scopes m) cgroupID with
      | (scopes, Some e) => (mkManager scopes (manager_active m) (manager_corePath m) (manager_closed m), Some (MapDeleteFailed e))
      | (scopes, None) =>
          (close_handle (mkManager scopes (delete cgroupID (manager_active m)) (manager_corePath m) (manager_closed m)) (scope_handle a), None)
      end
  end.

Definition Lookup (m : Manager M) (cgroupID : Z) : option Registration := scope_registration <$> manager_active m !! cgroupID.
(** In some order: Go iterates maps in no particular order. *)
Definition ActiveIDs (m : Manager M) : list Z := map fst (map_to_list (manager_active m)).

Inductive IdentityError (Ae : Type) :=
  | IdentityZero | ActionRequired | IdentityNotActive | ErrScopeIdentityMismatch | ActionFailed (e : Ae).
Arguments IdentityZero {Ae}.
Arguments ActionRequired {Ae}.
Arguments IdentityNotActive {Ae}.
Arguments ErrScopeIdentityMismatch {Ae}.
Arguments ActionFailed {Ae} e.

(** The action runs under the lock, on a state of its own; the manager is
    not changed. *)
Definition WithActiveIdentity {St Ae} (m : Manager M) (cgroupID instanceID scopeCookie : Z)
    (action : option (Registration -> Handle -> St -> St * option Ae)) (s : St) : St * option (IdentityError Ae) :=
  if (instanceID =? 0) || (scopeCookie =? 0) then (s, Some IdentityZero)
  else match action with
  | None => (s, Some ActionRequired)
  | Some action =>
  match manager_active m !! cgroupID with
  | None => (s, Some IdentityNotActive)
  | Some a =>
      let v := Registration_Value (scope_registration a) in
      if negb (Value_InstanceID v =? instanceID) || negb (Value_ScopeCookie v =? scopeCookie)
      then (s, Some ErrScopeIdentityMismatch)
      else let (s', r) := action (scope_registration a) (scope_handle a) s in (s', ActionFailed <$> r)
  end end.

(** ** Monitoring *)
Definition ViolationChildCgroup : string := "child_cgroup".
Definition ViolationMemberEscape : string := "member_escape".
Definition ViolationInspectionFailed : string := "inspection_failed".

Record ScopeState := mkScopeState {
  ChildCgroups : list string;
  RootPIDPath : string;
  RootExitedAndEmpty : bool;
}.
Record Violation := mkViolation {
  Violation_EventType : string;
  Violation_CgroupID : Z;
  Violation_Path : string;
  Violation_Reason : string;
  Violation_Detail : string;
}.
(** [scope.Inspector]: [None] is an inspection error. *)
Definition InspectFn := Handle -> Z -> option ScopeState.

Inductive CheckError := InspectorRequired | CheckNotActive | InspectFailed.
Definition Manager_Check (m : Manager M) (cgroupID : Z) (inspector : option InspectFn) : result CheckError (list Violation) :=
  match inspector with
  | None => Err InspectorRequired
  | Some inspect =>
  match manager_active m !! cgroupID with
  | None => Err CheckNotActive
  | Some a =>
      let r := scope_registration a in
      match inspect (scope_handle a) (Registration_RootPID r) with
      | None => Err InspectFailed
      | Some state =>
          let violation := mkViolation "scope_violation" cgroupID (Registration_Path r) in
          Ok (map (violation ViolationChildCgroup) (ChildCgroups state) ++
              if (0 <? Registration_RootPID r) && negb (RootExitedAndEmpty state) &&
                 (Clean (RootPIDPath state) != Clean (Registration_Path r))
              then [violation ViolationMemberEscape (RootPIDPath state)] else [])
      end
  end end.
End Manager.

(** ** The scope map of the kernel *)
(** A map of the BPF library: [Update] with [UpdateNoExist] and [Delete]. *)
Class EbpfMap (B : Type) := {
  ebpf_error : Type;
  ebpf_UpdateNoExist : B -> Z -> ScopeValue -> B * option ebpf_error;
  ebpf_Delete : B -> Z -> B * option ebpf_error;
  ebpf_entries : B -> gmap Z ScopeValue;
}.
(** Documented behaviour: an update that must not exist fails on a present
    key, a failed operation changes nothing, a successful one exactly the
    key. *)
Class EbpfMapLaws (B : Type) `{EbpfMap B} : Prop := {
  ebpf_update_law b id v b' e : ebpf_UpdateNoExist b id v = (b', e) ->
    match e with
    | None => ebpf_entries b !! id = None /\ ebpf_entries b' = <[id := v]> (ebpf_entries b)
    | Some _ => ebpf_entries b' = ebpf_entries b
    end;
  ebpf_delete_law b id b' e : ebpf_Delete b id = (b', e) ->
    match e with
    | None => ebpf_entries b' = delete id (ebpf_entries b)
    | Some _ => ebpf_entries b' = ebpf_entries b
    end;
}.

Inductive ScopeMapError (Be : Type) :=
  | CgroupIDZero | ScopeValueInvalid (e : ValueError) | UpdateFailed (e : Be) | DeleteFailed (e : Be).
Arguments CgroupIDZero {Be}.
Arguments ScopeValueInvalid {Be} e.
Arguments UpdateFailed {Be} e.
Arguments DeleteFailed {Be} e.

Definition ebpfScopeMap_Put {B} `{EbpfMap B} (b : B) (cgroupID : Z) (value : ScopeValue) : B * option (ScopeMapError ebpf_error) :=
  if cgroupID =? 0 then (b, Some CgroupIDZero)
  else match Value_Validate value with
       | Some e => (b, Some (ScopeValueInvalid e))
       | None => let (b', e) := ebpf_UpdateNoExist b cgroupID value in (b', UpdateFailed <$> e)
       end.
Definition ebpfScopeMap_Delete {B} `{EbpfMap B} (b : B) (cgroupID : Z) : B * option (ScopeMapError ebpf_error) :=
  let (b', e) := ebpf_Delete b cgroupID in (b', DeleteFailed <$> e).
#[export] Instance ebpfScopeMap {B} `{EbpfMap B} : ScopeMap B (ScopeMapError ebpf_error) :=
  {| scopes_Put := ebpfScopeMap_Put; scopes_Delete := ebpfScopeMap_Delete |}.

(** ** What a scope map promises *)
Class ScopeMapView (M : Type) := scopes_view : M -> gmap Z ScopeValue.
Class ScopeMapLaws (M Er : Type) `{ScopeMap M Er, ScopeMapView M} : Prop := {
  scopes_put_law m id v m' e : scopes_Put m id v = (m', e) ->
    scopes_view m' = match e with None => <[id := v]> (scopes_view m) | Some _ => scopes_view m end;
  scopes_delete_law m id m' e : scopes_Delete m id = (m', e) ->
    scopes_view m' = match e with None => delete id (scopes_view m) | Some _ => scopes_view m end;
}.

#[export] Instance ebpfScopeMap_view {B} `{EbpfMap B} : ScopeMapView B := ebpf_entries.
#[export] Instance ebpfScopeMap_laws {B} `{EbpfMapLaws B} : ScopeMapLaws B (ScopeMapError ebpf_error).
Proof.
  split.
  - intros b id v b' e. cbn. unfold ebpfScopeMap_Put, scopes_view, ebpfScopeMap_view.
    destruct (id =? 0); [by intros [= <- <-]|]. destruct (Value_Validate v); [by intros [= <- <-]|].
    destruct (ebpf_UpdateNoExist b id v) as [b1 e1] eqn:E. intros [= <- <-].
    apply ebpf_update_law in E. destruct e1; [done|by destruct E].
  - intros b id b' e. cbn. unfold ebpfScopeMap_Delete, scopes_view, ebpfScopeMap_view.
    destruct (ebpf_Delete b id) as [b1 e1] eqn:E. intros [= <- <-].
    apply ebpf_delete_law in E. by destruct e1.
Qed.

(** A concrete map of the size [agentshield_scope_map] has. *)
Record bounded_map := mkBounded { bounded_entries : gmap Z ScopeValue }.
Inductive bounded_error := KeyExists | MapFull | KeyNotFound.
#[export] Instance bounded_ebpf : EbpfMap bounded_map := {|
  ebpf_error := bounded_error;
  ebpf_UpdateNoExist b id v :=
    if is_some (bounded_entries b !! id) then (b, Some KeyExists)
    else if AGENTSHIELD_MAX_SCOPES <=? Z.of_nat (size (bounded_entries b)) then (b, Some MapFull)
    else (mkBounded (<[id := v]> (bounded_entries b)), None);
  ebpf_Delete b id :=
    if is_some (bounded_entries b !! id) then (mkBounded (delete id (bounded_entries b)), None) else (b, Some KeyNotFound);
  ebpf_entries := bounded_entries;
|}.
#[export] Instance bounded_laws : EbpfMapLaws bounded_map.
Proof.
  split; intros b id; cbn.
  - intros v b' e. destruct (is_some _) eqn:E; [by intros [= <- <-]|]. apply is_some_false in E.
    destruct (_ <=? _); by intros [= <- <-].
  - intros b' e. destruct (is_some _); by intros [= <- <-].
Qed.

(** ** Reachable managers *)
Section Reachable.
Context {M Er : Type} `{ScopeMapLaws M Er}.

(** The handle a [Register] call gets from its resolver, if it gets that far. *)
Definition opened_by (resolve : ResolvePathFn) (target : Target) (value : ScopeValue) : list Handle :=
  if (Target_Path target == "") || (Target_RootPID target <? 0) || is_some (Value_Validate value) then []
  else match resolve (Target_Path target) with Ok (Some h) => [h] | _ => [] end.

(** [m] started with no scope and the Core at path [core], and [opened] are
    the handles the resolver has handed out since. *)
Inductive manager_reachable (core : string) : Manager M -> list Handle -> Prop :=
  | reach_new scopes h m : NewManager scopes (Ok (Some h)) true = (Ok m, [h]) -> scopes_view scopes = ∅ ->
      Handle_Path h = core -> manager_reachable core m [h]
  | reach_register m opened resolve probe target value m' r :
      manager_reachable core m opened -> Register resolve probe m target value = (m', r) ->
      manager_reachable core m' (opened ++ opened_by resolve target value)
  | reach_unregister m opened id m' e :
      manager_reachable core m opened -> Unregister m id = (m', e) -> manager_reachable core m' opened.

Definition held (m : Manager M) : list Handle := map (fun a => scope_handle (snd a)) (map_to_list (manager_active m)).
Definition registered (m : Manager M) : gmap Z ScopeValue := (fun a => Registration_Value (scope_registration a)) <$> manager_active m.

(** A registered scope is the exact cgroup that was resolved and probed, has a
    complete identity, and contains no part of the path to the Core. *)
Record scope_ok (core : string) (id : Z) (a : activeScope) : Prop := {
  so_registered : Registration_CgroupID (scope_registration a) = id;
  so_handle : Handle_ID (scope_handle a) = id /\ Handle_Path (scope_handle a) = Registration_Path (scope_registration a);
  so_nonzero : id <> 0;
  so_value : Value_Validate (Registration_Value (scope_registration a)) = None;
  so_core : pathIsEqualOrAncestor (Registration_Path (scope_registration a)) (Clean core) = false;
}.
Definition disjoint_scopes (m : Manager M) : Prop :=
  forall i j a b, i <> j -> manager_active m !! i = Some a -> manager_active m !! j = Some b ->
    pathsOverlap (Registration_Path (scope_registration a)) (Registration_Path (scope_registration b)) = false.
Record manager_ok (core : string) (m : Manager M) (opened : list Handle) : Prop := {
  mo_core : manager_corePath m = Clean core;
  mo_scopes : scopes_view (manager_scopes m) = registered m;
  mo_entries : map_Forall (scope_ok core) (manager_active m);
  mo_disjoint : disjoint_scopes m;
  mo_handles : opened ≡ₚ manager_closed m ++ held m;
}.

Lemma pathsOverlap_sym p q : pathsOverlap p q = pathsOverlap q p.
Proof. unfold pathsOverlap. apply orb_comm. Qed.

Lemma overlaps_active_false (m : Manager M) path : overlaps_active m path = false <->
  forall id a, manager_active m !! id = Some a -> pathsOverlap (Registration_Path (scope_registration a)) path = false.
Proof.
  unfold overlaps_active. rewrite existsb_false, Forall_forall. split.
  - intros Hf id a Ha. apply elem_of_map_to_list in Ha. exact (Hf (id, a) Ha).
  - intros Hf [id a] Ha%elem_of_map_to_list. exact (Hf id a Ha).
Qed.

(** A call of [Register] either fails, closes what it opened and changes
    nothing else, or adds exactly one scope. *)
Lemma Register_cases resolve probe (m : Manager M) target value m' r :
  Register resolve probe m target value = (m', r) ->
  (exists e, r = Err e /\ manager_active m' = manager_active m /\ manager_corePath m' = manager_corePath m /\
    scopes_view (manager_scopes m') = scopes_view (manager_scopes m) /\
    manager_closed m' = manager_closed m ++ opened_by resolve target value) \/
  (exists h, opened_by resolve target value = [h] /\ Handle_ID h <> 0 /\ Value_Validate value = None /\
    pathIsEqualOrAncestor (Handle_Path h) (manager_corePath m) = false /\ probe h = Some (Handle_ID h) /\
    manager_active m !! Handle_ID h = None /\ overlaps_active m (Handle_Path h) = false /\
    let reg := mkRegistration (Handle_ID h) (Handle_Path h) (Target_RootPID target) value in
    r = Ok reg /\ manager_active m' = <[Handle_ID h := mkActiveScope reg h]> (manager_active m) /\
    manager_corePath m' = manager_corePath m /\
    scopes_view (manager_scopes m') = <[Handle_ID h := value]> (scopes_view (manager_scopes m)) /\
    manager_closed m' = manager_closed m).
Proof.
  unfold Register, opened_by. intros E.
  destruct (Target_Path target == "") eqn:E1; cbn [orb]; [injection E as <- <-; left; eexists; rewrite app_nil_r; done|].
  destruct (Target_RootPID target <? 0) eqn:E2; cbn [orb]; [injection E as <- <-; left; eexists; rewrite app_nil_r; done|].
  destruct (Value_Validate value) eqn:E3; cbn [is_some]; [injection E as <- <-; left; eexists; rewrite app_nil_r; done|].
  destruct (resolve _) as [[h|]|e] eqn:E4; [|injection E as <- <-; left; eexists; rewrite app_nil_r; done..].
  destruct (_ || _) eqn:E5; [injection E as <- <-; left; eexists; done|].
  destruct (pathIsEqualOrAncestor _ _) eqn:E6; [injection E as <- <-; left; eexists; done|].
  destruct (probe h) as [observed|] eqn:E7; [|injection E as <- <-; left; eexists; done].
  destruct (Z.eqb_spec observed (Handle_ID h)) as [->|]; cbn [negb] in E; [|injection E as <- <-; left; eexists; done].
  unfold register_locked in E. destruct (is_some _) eqn:E8; [injection E as <- <-; left; eexists; done|].
  destruct (overlaps_active _ _) eqn:E9; [injection E as <- <-; left; eexists; done|].
  destruct (scopes_Put _ _ _) as [scopes [e|]] eqn:E10; injection E as <- <-; apply scopes_put_law in E10.
  - left. eexists. done.
  - right. exists h. apply orb_false_iff in E5 as [E5%Z.eqb_neq _]. apply is_some_false in E8. split_and!; done.
Qed.

Lemma Unregister_cases (m : Manager M) id m' e : Unregister m id = (m', e) ->
  (manager_active m' = manager_active m /\ manager_corePath m' = manager_corePath m /\
    scopes_view (manager_scopes m') = scopes_view (manager_scopes m) /\ manager_closed m' = manager_closed m /\ is_Some e) \/
  (exists a, manager_active m !! id = Some a /\ manager_active m' = delete id (manager_active m) /\
    manager_corePath m' = manager_corePath m /\
    scopes_view (manager_scopes m') = delete id (scopes_view (manager_scopes m)) /\
    manager_closed m' = manager_closed m ++ [scope_handle a] /\ e = None).
Proof.
  unfold Unregister. destruct (manager_active m !! id) as [a|] eqn:E1; [|intros [= <- <-]; left; split_and!; eauto].
  destruct (scopes_Delete _ _) as [scopes [e'|]] eqn:E2; intros [= <- <-]; apply scopes_delete_law in E2.
  - left. split_and!; eauto.
  - right. exists a. done.
Qed.

Lemma held_insert (m : Manager M) id a : manager_active m !! id = None ->
  map (fun a => scope_handle (snd a)) (map_to_list (<[id := a]> (manager_active m))) ≡ₚ scope_handle a :: held m.
Proof. intros Hn. unfold held. by rewrite map_to_list_insert. Qed.
Lemma held_delete (m : Manager M) id a : manager_active m !! id = Some a ->
  held m ≡ₚ scope_handle a :: map (fun a => scope_handle (snd a)) (map_to_list (delete id (manager_active m))).
Proof.
  intros Ha. unfold held. rewrite <-(insert_delete_id _ _ _ Ha) at 1. by rewrite map_to_list_insert by (apply lookup_delete_eq).
Qed.

Lemma manager_invariant core m opened : manager_reachable core m opened -> manager_ok core m opened.
Proof.
  induction 1 as [scopes h m Hnew Hempty Hcore|m opened resolve probe target value m' r _ IH Hr|m opened id m' e _ IH Hu].
  - unfold NewManager in Hnew. destruct (_ || _); [done|]. injection Hnew as <-. subst core.
    split; cbn; [done|by rewrite Hempty; unfold registered; rewrite fmap_empty|apply map_Forall_empty|done|].
    unfold held. cbn. by rewrite map_to_list_empty.
  - destruct IH as [Hc Hs He Hd Hh]. apply Register_cases in Hr as
      [(e & -> & Ea & Ec & Es & Ecl)|(h & Eo & Hnz & Hv & Hp & _ & Hnone & Hover & -> & Ea & Ec & Es & Ecl)].
    + split; [congruence|unfold registered; by rewrite Es, Ea|by rewrite Ea|unfold disjoint_scopes; by rewrite Ea|].
      unfold held in *. rewrite Ecl, Ea, Hh. solve_Permutation.
    + rewrite overlaps_active_false in Hover.
      split; [congruence|unfold registered; rewrite Es, Ea, Hs, fmap_insert; done| | |].
      * rewrite Ea. apply map_Forall_insert_2; [|done]. rewrite Hc in Hp. split; done.
      * intros i j a b Hij. rewrite Ea. intros [[<- <-]|[Ni Ha]]%lookup_insert_Some [[<- <-]|[Nj Hb]]%lookup_insert_Some; [done|..|by apply (Hd i j)].
        -- rewrite pathsOverlap_sym. by apply (Hover j).
        -- by apply (Hover i).
      * rewrite Eo, Ecl. unfold held at 1. rewrite Ea, held_insert by done. cbn [scope_handle]. rewrite Hh. solve_Permutation.
  - destruct IH as [Hc Hs He Hd Hh]. apply Unregister_cases in Hu as
      [(Ea & Ec & Es & Ecl & _)|(a & Ha & Ea & Ec & Es & Ecl & _)].
    + split; [congruence|unfold registered; by rewrite Es, Ea|by rewrite Ea|unfold disjoint_scopes; by rewrite Ea|].
      unfold held in *. by rewrite Ecl, Ea.
    + split; [congruence|unfold registered; by rewrite Es, Ea, Hs, fmap_delete|rewrite Ea; by apply map_Forall_delete| |].
      * intros i j x y Hij. rewrite Ea. intros [_ Hx]%lookup_delete_Some [_ Hy]%lookup_delete_Some. by apply (Hd i j).
      * rewrite Ecl, Hh. unfold held at 2. rewrite Ea, (held_delete _ _ _ Ha). solve_Permutation.
Qed.

(** A cgroup path lies inside a scope. *)
Definition inside (p : list string) (a : activeScope) : Prop :=
  components (Registration_Path (scope_registration a)) `prefix_of` p.

Lemma prefix_comparable {A} (l1 l2 p : list A) : l1 `prefix_of` p -> l2 `prefix_of` p -> l1 `prefix_of` l2 \/ l2 `prefix_of` l1.
Proof. intros. by eapply prefix_weak_total. Qed.

(** C18: the scope manager is exact.  In every reachable state the kernel's
    scope map holds exactly the active registrations, each for the cgroup that
    was resolved and confirmed by the BPF probe, with a complete identity;
    no cgroup path is inside two scopes and the Core's own path is inside
    none; and every directory handle the resolver handed out is either closed
    exactly once or held by exactly one active scope. *)
Theorem scope_manager_exact core m opened : manager_reachable core m opened ->
  (forall id v, scopes_view (manager_scopes m) !! id = Some v <->
     exists a, manager_active m !! id = Some a /\ Registration_Value (scope_registration a) = v) /\
  (forall id a, manager_active m !! id = Some a ->
     Registration_CgroupID (scope_registration a) = id /\ Handle_ID (scope_handle a) = id /\
     Handle_Path (scope_handle a) = Registration_Path (scope_registration a) /\ id <> 0 /\
     Value_InstanceID (Registration_Value (scope_registration a)) <> 0 /\
     Value_ScopeCookie (Registration_Value (scope_registration a)) <> 0) /\
  (forall i j a b p, manager_active m !! i = Some a -> manager_active m !! j = Some b ->
     IsAbs (Registration_Path (scope_registration a)) = true -> IsAbs (Registration_Path (scope_registration b)) = true ->
     inside p a -> inside p b -> i = j) /\
  (forall i a, manager_active m !! i = Some a -> IsAbs (Registration_Path (scope_registration a)) = true ->
     IsAbs core = true -> ~ inside (components core) a) /\
  opened ≡ₚ manager_closed m ++ held m.
Proof.
  intros [Hc Hs He Hd Hh]%manager_invariant. split_and!; [| | | |done].
  - intros id v. rewrite Hs. unfold registered. rewrite lookup_fmap_Some. split; intros (a & ? & ?); by exists a.
  - intros id a Ha. destruct (He id a Ha) as [E1 [E2 E3] E4 E5 E6]. split_and!; try done.
    all: unfold Value_Validate in E5; intros E0; rewrite E0 in E5; by rewrite ?orb_true_r in E5.
  - intros i j a b p Ha Hb Aa Ab Pa Pb. destruct (decide (i = j)) as [|Hij]; [done|].
    specialize (Hd i j a b Hij Ha Hb). unfold pathsOverlap, pathIsEqualOrAncestor in Hd. apply orb_false_iff in Hd as [D1 D2].
    destruct (prefix_comparable _ _ _ Pa Pb) as [Hp|Hp]; apply clean_ancestor_components in Hp; try done; congruence.
  - intros i a Ha Aa Ac Hin. destruct (He i a Ha) as [_ _ _ _ E6]. unfold pathIsEqualOrAncestor in E6.
    destruct (components_Clean core Ac) as [Acc Ecc]. unfold inside in Hin. rewrite <-Ecc in Hin.
    apply (clean_ancestor_components _ _ Aa Acc) in Hin. congruence.
Qed.
End Reachable.

(** ** Scopes as the kernel programs see them *)
(** The Go struct in the layout of the C struct. *)
Definition scope_image (v : ScopeValue) : agentshield_scope_value :=
  mkScopeValue (Value_InstanceID v) (Value_ScopeCookie v) (Value_ProfileID v) (Value_Reserved v).

(** Whose activity a record reports. *)
Definition record_scope (e : rawKernelEventV3) : Z * Z * Z * Z :=
  (Raw_CgroupID e, Raw_InstanceID e, Raw_ScopeCookie e, Raw_ProfileID e).
Definition scope_of_task (t : task) (s : agentshield_scope_value) : Z * Z * Z * Z :=
  (bpf_get_current_cgroup_id t, Scope_instance_id s, Scope_scope_cookie s, Scope_profile_id s).

Lemma capture_argv_scope `{UserMemory} argv n : forall i e argc, record_scope (capture_argv n i argv e argc).1 = record_scope e.
Proof.
  induction n as [|n IH]; intros i e argc; cbn [capture_argv]; [done|].
  destruct (bpf_probe_read_user _) as [arg|]; [|done]. destruct (arg =? 0); [done|].
  destruct (bpf_probe_read_user_str _ arg) as [rc bs]. destruct (rc <? 0); [done|]. rewrite IH. by destruct (_ =? _).
Qed.
Lemma exec_record_scope `{UserMemory} t s filename argv : record_scope (exec_record t s filename argv) = scope_of_task t s.
Proof.
  unfold exec_record. destruct (bpf_probe_read_user_str _ filename) as [rc bs].
  match goal with |- context [capture_argv ?n ?i argv ?e ?c] => pose proof (capture_argv_scope argv n i e c) as Hc end.
  destruct (capture_argv _ _ _ _ _) as [e argc]. cbn [fst] in Hc.
  assert (record_scope e = scope_of_task t s) as He by (rewrite Hc; by destruct (_ || _)).
  destruct (argc =? _); [|done]. destruct (bpf_probe_read_user _) as [arg|]; [|done]. by destruct (negb _).
Qed.
Lemma open_record_scope `{UserMemory} t s filename flags : record_scope (open_record t s filename flags) = scope_of_task t s.
Proof. unfold open_record. destruct (bpf_probe_read_user_str _ filename) as [rc bs]. by destruct (_ || _). Qed.
Lemma connect_record_scope t s p blocked ctx f : record_scope (connect_record t s p blocked ctx f) = scope_of_task t s.
Proof. unfold connect_record. by destruct (default_deny p). Qed.

(** What one invocation submits, and whether it lets the call proceed. *)
Lemma run_op_records `{UserMemory} k op : exists rs,
  agentshield_events (run_op k op) = agentshield_events k ++ rs /\
  forall r, r ∈ rs -> exists s, agentshield_current_scope k (op_task op) = Some s /\ record_scope r = scope_of_task (op_task op) s.
Proof.
  destruct op as [t filename argv|t filename flags|t ctx f]; cbn [run_op op_task].
  - unfold agentshield_trace_execve. destruct (agentshield_current_scope k t) as [s|]; [|exists []; rewrite app_nil_r; set_solver].
    unfold agentshield_reserve_event. destruct (ring_room t); [|exists []; cbn; rewrite app_nil_r; set_solver].
    eexists. split; [done|]. intros r ->%list_elem_of_singleton. eauto using exec_record_scope.
  - unfold agentshield_trace_openat. destruct (agentshield_current_scope k t) as [s|]; [|exists []; rewrite app_nil_r; set_solver].
    unfold agentshield_reserve_event. destruct (ring_room t); [|exists []; cbn; rewrite app_nil_r; set_solver].
    eexists. split; [done|]. intros r ->%list_elem_of_singleton. eauto using open_record_scope.
  - unfold agentshield_audit_connect. destruct (negb _); [exists []; cbn; rewrite app_nil_r; set_solver|].
    destruct (agentshield_current_scope k t) as [s|]; [|exists []; cbn; rewrite app_nil_r; set_solver].
    unfold agentshield_reserve_event. destruct (ring_room t); [|exists []; cbn; rewrite app_nil_r; set_solver].
    eexists. split; [done|]. intros r ->%list_elem_of_singleton. eauto using connect_record_scope.
Qed.

(** C19: the kernel watches exactly the registered scopes.  With the kernel's
    scope map in the state a reachable manager has brought it to, an
    invocation of a task outside every registered cgroup changes nothing in
    the kernel and its connections are never refused; inside a registered
    cgroup every record submitted carries the cgroup, instance, cookie and
    profile of that registration. *)
Theorem registered_scopes_observed `{EbpfMapLaws B} `{UserMemory} core (m : Manager B) opened k op :
  manager_reachable core m opened ->
  agentshield_scope_map k = scope_image <$> ebpf_entries (manager_scopes m) ->
  match manager_active m !! bpf_get_current_cgroup_id (op_task op) with
  | None => run_op k op = k /\ forall t ctx f, op = OpConnect t ctx f -> (agentshield_audit_connect t ctx f k).2 = 1
  | Some a => exists rs, agentshield_events (run_op k op) = agentshield_events k ++ rs /\
      Forall (fun r => let reg := scope_registration a in let v := Registration_Value reg in
        record_scope r = (Registration_CgroupID reg, Value_InstanceID v, Value_ScopeCookie v, Value_ProfileID v) /\
        Raw_InstanceID r <> 0 /\ Raw_ScopeCookie r <> 0) rs
  end.
Proof.
  intros Hr Hk. pose proof (manager_invariant _ _ _ Hr) as [_ Hs He _ _].
  change (ebpf_entries (manager_scopes m)) with (scopes_view (manager_scopes m)) in Hk. rewrite Hs in Hk. unfold registered in Hk.
  set (cg := bpf_get_current_cgroup_id (op_task op)). assert (agentshield_current_scope k (op_task op) =
    (fun a => scope_image (Registration_Value (scope_registration a))) <$> manager_active m !! cg) as Hcur.
  { unfold agentshield_current_scope. rewrite Hk, !lookup_fmap. fold cg. by destruct (manager_active m !! cg). }
  destruct (manager_active m !! cg) as [a|] eqn:Ea; cbn in Hcur.
  - destruct (run_op_records k op) as (rs & Ers & Hrs). exists rs. split; [done|]. apply Forall_forall. intros r Hin.
    destruct (Hrs r Hin) as (s & Es & Er). rewrite Hcur in Es. injection Es as <-.
    destruct (He _ _ Ea) as [E1 _ _ E4 _]. cbv zeta. rewrite Er, E1. unfold scope_of_task. fold cg. split; [done|].
    unfold record_scope in Er. injection Er as _ -> -> _. cbn. unfold Value_Validate in E4.
    destruct (_ || _) eqn:E; [done|]. apply orb_false_iff in E as [?%Z.eqb_neq ?%Z.eqb_neq]. done.
  - assert (run_op k op = k) as Hid.
    { destruct (run_op_spec k op) as [[? _]|(Ho & _)]; [done|]. unfold observed_op in Ho. fold cg in Ho.
      unfold agentshield_current_scope in Hcur. fold cg in Hcur. rewrite Hcur in Ho. cbn in Ho. by rewrite andb_false_r in Ho. }
    split; [done|]. intros t ctx f ->. cbn [op_task] in *. unfold agentshield_audit_connect. rewrite Hcur. by destruct (negb _).
Qed.

(** ** A run: one scope registered, a second rejected for overlap *)
Definition demo_core_handle : Handle := mkHandle 1 "/sys/fs/cgroup/core" (Some 3) 3 true "/sys/fs/cgroup".
Definition demo_leaf (id fd : Z) (path : string) : Handle := mkHandle id path (Some fd) fd true "/sys/fs/cgroup".
Definition demo_resolve : ResolvePathFn := fun path =>
  if path == "/sys/fs/cgroup/agent" then Ok (Some (demo_leaf 77 4 path))
  else if path == "/sys/fs/cgroup/agent/child" then Ok (Some (demo_leaf 78 5 path))
  else Err ResolveFailed.
Definition demo_probe : ProbeFn := fun h => Some (Handle_ID h).
Definition demo_value : ScopeValue := mkValue 11 22 0 0.
Definition demo_manager : Manager bounded_map := mkManager (mkBounded ∅) ∅ "/sys/fs/cgroup/core" [demo_core_handle].
Definition demo_registered : Manager bounded_map :=
  (Register demo_resolve demo_probe demo_manager (mkTarget "/sys/fs/cgroup/agent" 100) demo_value).1.
Definition demo_refused : Manager bounded_map :=
  (Register demo_resolve demo_probe demo_registered (mkTarget "/sys/fs/cgroup/agent/child" 0) demo_value).1.
Definition demo_opened : list Handle :=
  [demo_core_handle] ++ [demo_leaf 77 4 "/sys/fs/cgroup/agent"] ++ [demo_leaf 78 5 "/sys/fs/cgroup/agent/child"].

Lemma demo_manager_reachable : manager_reachable "/sys/fs/cgroup/core" demo_refused demo_opened.
Proof.
  refine (reach_register _ demo_registered ([demo_core_handle] ++ [demo_leaf 77 4 "/sys/fs/cgroup/agent"]) demo_resolve demo_probe
    (mkTarget "/sys/fs/cgroup/agent/child" 0) demo_value _ (Err ErrOverlap) _ _); [|vm_compute; reflexivity].
  refine (reach_register _ demo_manager [demo_core_handle] demo_resolve demo_probe
    (mkTarget "/sys/fs/cgroup/agent" 100) demo_value _ (Ok (mkRegistration 77 "/sys/fs/cgroup/agent" 100 demo_value)) _ _); [|vm_compute; reflexivity].
  by refine (reach_new _ (mkBounded ∅) demo_core_handle demo_manager _ _ _).
Qed.

Lemma scope_manager_exact_witness :
  demo_opened ≡ₚ manager_closed demo_refused ++ held demo_refused /\
  Lookup demo_refused 77 = Some (mkRegistration 77 "/sys/fs/cgroup/agent" 100 demo_value) /\ Lookup demo_refused 78 = None.
Proof.
  split; [apply (scope_manager_exact "/sys/fs/cgroup/core" demo_refused demo_opened demo_manager_reachable)|].
  split; vm_compute; reflexivity.
Defined.

Definition demo_scoped_kernel : kernel :=
  mkKernel (scope_image <$> bounded_entries (manager_scopes demo_refused)) empty_maps (replicate 32 0) [].
Definition demo_stranger : task := mkTask 1000 (Z.shiftl 40 32 + 42) 1000 78 1 (replicate 16 0) true.
#[local] Existing Instance KernelCapture.demo_memory.
Lemma registered_scopes_observed_witness :
  run_op demo_scoped_kernel (OpConnect demo_stranger demo_sock AddressFamilyIPv4) = demo_scoped_kernel /\
  exists rs, agentshield_events (run_op demo_scoped_kernel (OpOpen demo_task 100 0)) = [] ++ rs /\
    Forall (fun r => record_scope r = (77, 11, 22, 0)) rs.
Proof.
  split.
  - pose proof (registered_scopes_observed "/sys/fs/cgroup/core" demo_refused demo_opened demo_scoped_kernel
      (OpConnect demo_stranger demo_sock AddressFamilyIPv4) demo_manager_reachable eq_refl) as H.
    assert (manager_active demo_refused !! bpf_get_current_cgroup_id (op_task (OpConnect demo_stranger demo_sock AddressFamilyIPv4)) = None)
      as E by (vm_compute; reflexivity). rewrite E in H. exact (proj1 H).
  - pose proof (registered_scopes_observed "/sys/fs/cgroup/core" demo_refused demo_opened demo_scoped_kernel
      (OpOpen demo_task 100 0) demo_manager_reachable eq_refl) as H.
    destruct (manager_active demo_refused !! bpf_get_current_cgroup_id (op_task (OpOpen demo_task 100 0))) as [a|] eqn:E;
      [|vm_compute in E; discriminate].
    vm_compute in E. injection E as <-. destruct H as (rs & Hrs & Hf). exists rs. split; [exact Hrs|].
    eapply Forall_impl; [exact Hf|]. intros r [Hr _]. exact Hr.
Defined.
