(* ===== verification/Killer.v ===== *)
(** * Post-event containment ([internal/killer/killer.go])

    [Contain] kills one exact cgroup: the one the request names, while its
    registration is locked in the scope manager.  The cgroup file system is
    the interface [CgroupBackend] of the code; the executor is proved against
    the laws of that interface.  [ctx] answers the successive [ctx.Err()]
    calls of one containment, and [error_text] is the text of an error. *)
From S2P Require Import Prelude GoStd Netip Schema Limits Match NetworkMatch Generation Engine Events Enforcement KernelProgram KernelCapture CgroupPath Scope.
Open Scope Z_scope.

Definition EnforcementMethod := string.
Definition MethodCgroupKill : EnforcementMethod := "cgroup_kill".
Definition EnforcementResult := string.
Definition ResultNotAttempted : EnforcementResult := "not_attempted".
Definition ResultKilled : EnforcementResult := "killed".
Definition ResultFailed : EnforcementResult := "failed".
Definition SyscallResult := string.
Definition SyscallNotObserved : SyscallResult := "not_observed".
Definition SyscallSucceeded : SyscallResult := "succeeded".
Definition SyscallFailed : SyscallResult := "failed".

Record Request := mkRequest {
  Request_KernelMonotonicNS : Z;
  Request_CgroupID : Z;
  Request_InstanceID : Z;
  Request_ScopeCookie : Z;
  Request_PID : Z;
  Request_TGID : Z;
  Request_SyscallResult : SyscallResult;
}.
Inductive RequestError := RequestIdentityZero | SyscallResultUnsupported.
Definition Request_Validate (r : Request) : option RequestError :=
  if (Request_CgroupID r =? 0) || (Request_InstanceID r =? 0) || (Request_ScopeCookie r =? 0) then Some RequestIdentityZero
  else if bool_decide (Request_SyscallResult r ∈ [SyscallNotObserved; SyscallSucceeded; SyscallFailed]) then None
  else Some SyscallResultUnsupported.

Record Outcome := mkOutcome {
  Outcome_RecordType : string;
  Outcome_KernelMonotonicNS : Z;
  Outcome_CgroupID : Z;
  Outcome_InstanceID : Z;
  Outcome_ScopeCookie : Z;
  Outcome_PID : Z;
  Outcome_TGID : Z;
  Outcome_SyscallResult : SyscallResult;
  Outcome_EnforcementMethod : EnforcementMethod;
  Outcome_EnforcementResult : EnforcementResult;
  Outcome_Reason : string;
}.
#[export] Instance Outcome_eq_dec : EqDecision Outcome.
Proof. solve_decision. Defined.
Definition outcome_of (r : Request) (enforcement : EnforcementResult) (reason : string) : Outcome :=
  mkOutcome "containment_result" (Request_KernelMonotonicNS r) (Request_CgroupID r) (Request_InstanceID r)
    (Request_ScopeCookie r) (Request_PID r) (Request_TGID r) (Request_SyscallResult r) MethodCgroupKill enforcement reason.
Definition newOutcome (r : Request) : Outcome := outcome_of r ResultNotAttempted "".

Record CgroupIdentity := mkIdentity { Identity_ID : Z; Identity_Path : string }.
#[export] Instance CgroupIdentity_eq_dec : EqDecision CgroupIdentity.
Proof. solve_decision. Defined.
Definition validateCgroupIdentity (identity : CgroupIdentity) : bool :=
  negb ((Identity_ID identity =? 0) || negb (IsAbs (Identity_Path identity))).
Definition cgroupContains (candidatePath : string) (candidateID : Z) (member : CgroupIdentity) : bool :=
  (candidateID =? Identity_ID member) || clean_ancestor (Clean candidatePath) (Clean (Identity_Path member)).

(** Backend errors, with the two sentinels the executor tests for. *)
Inductive BackendError := BackendIdentityMismatch | BackendNotLeaf | BackendFailed.
Class CgroupBackend (S Hd : Type) := {
  backend_CurrentCoreCgroup : S -> S * result BackendError CgroupIdentity;
  backend_OpenCgroup : Handle -> S -> S * result BackendError (option Hd);
  handle_Identity : Hd -> CgroupIdentity;
  handle_Kill : Hd -> S -> S * option BackendError;
  handle_Close : Hd -> S -> S;
}.

Inductive ActionError :=
  | RegisteredMismatch | TargetNotAbsolute | TrustedMismatch
  | CoreUnresolved (e : BackendError) | CoreInvalid | ErrProtectedTarget
  | OpenFailed (e : BackendError) | HandleNil | OpenedInvalid | OpenedMismatch | OpenedProtected
  | CoreUnresolvedAgain (e : BackendError) | CoreInvalidAgain | ProtectedAgain
  | ContainCancelled | KillFailed (e : BackendError).
Inductive ContainError :=
  | ExecutorRequired | ContextRequired | RequestInvalid (e : RequestError) | ContextDone
  | ActionRejected (e : IdentityError ActionError).

(** The closure's state: the backend and the two captured flags. *)
Record containing (S : Type) := mkContaining { backend_state : S; authorized : bool; safetyRejected : bool }.
Arguments mkContaining {S} _ _ _.
Arguments backend_state {S} _.
Arguments authorized {S} _.
Arguments safetyRejected {S} _.

Section Executor.
Context {S Hd : Type} `{CgroupBackend S Hd}.

Definition actionM := stateM (containing S) ActionError.
(** [safetyRejected = true; return err]. *)
Definition reject_safely {A} (e : ActionError) : actionM A :=
  fun c => (mkContaining (backend_state c) (authorized c) true, Err e).
Definition safely {A} (rejected : bool) (e : ActionError) (k : actionM A) : actionM A :=
  if rejected then reject_safely e else k.
Definition authorize : actionM unit := fun c => (mkContaining (backend_state c) true (safetyRejected c), Ok tt).
Definition on_backend {A} (f : S -> S * A) : actionM A :=
  fun c => let (s, a) := f (backend_state c) in (mkContaining s (authorized c) (safetyRejected c), Ok a).
(** [defer handle.Close()]. *)
Definition closing {A} (h : Hd) (m : actionM A) : actionM A :=
  fun c => let (c', r) := m c in
           (mkContaining (handle_Close h (backend_state c')) (authorized c') (safetyRejected c'), r).

Definition read_core (unresolved : BackendError -> ActionError) (invalid : ActionError) : actionM CgroupIdentity :=
  r ← on_backend backend_CurrentCoreCgroup;
  match r with
  | Err e => raise (unresolved e)
  | Ok core => if validateCgroupIdentity core then mret core else raise invalid
  end.
(** The checks on the opened handle, and the kill. *)
Definition kill_opened (cancelled : bool) (request : Request) (targetPath : string) (core : CgroupIdentity) (h : Hd) : actionM unit :=
  let opened := handle_Identity h in
  safely (negb (validateCgroupIdentity opened)) OpenedInvalid (
  safely (negb (Identity_ID opened =? Request_CgroupID request) || (Clean (Identity_Path opened) != targetPath)) OpenedMismatch (
  safely (cgroupContains (Identity_Path opened) (Identity_ID opened) core) OpenedProtected (
  latestCore ← read_core CoreUnresolvedAgain CoreInvalidAgain;
  safely (cgroupContains (Identity_Path opened) (Identity_ID opened) latestCore) ProtectedAgain (
  _ ← reject_if cancelled ContainCancelled;
  r ← on_backend (handle_Kill h);
  match r with
  | Some BackendNotLeaf => reject_safely (KillFailed BackendNotLeaf)
  | Some e => raise (KillFailed e)
  | None => mret tt
  end)))).
Definition open_and_kill (cancelled : bool) (request : Request) (targetPath : string) (core : CgroupIdentity) (trusted : Handle) : actionM unit :=
  r ← on_backend (backend_OpenCgroup trusted);
  match r with
  | Err BackendIdentityMismatch => reject_safely (OpenFailed BackendIdentityMismatch)
  | Err BackendNotLeaf => reject_safely (OpenFailed BackendNotLeaf)
  | Err e => raise (OpenFailed e)
  | Ok None => raise HandleNil
  | Ok (Some h) => closing h (kill_opened cancelled request targetPath core h)
  end.
Definition contain_action (cancelled : bool) (request : Request) (registration : Registration) (trusted : Handle) : actionM unit :=
  safely (negb (Registration_CgroupID registration =? Request_CgroupID request)) RegisteredMismatch (
  let targetPath := Clean (Registration_Path registration) in
  safely (negb (IsAbs targetPath)) TargetNotAbsolute (
  safely (negb (Handle_ID trusted =? Request_CgroupID request) || (Clean (Handle_Path trusted) != targetPath)) TrustedMismatch (
  _ ← authorize;
  core ← read_core CoreUnresolved CoreInvalid;
  safely (cgroupContains targetPath (Request_CgroupID request) core) ErrProtectedTarget (
  open_and_kill cancelled request targetPath core trusted)))).

(** [ctx]: [None] for a nil context; whether it is done at the first and at
    the second look. *)
Definition Contain {M} (error_text : ContainError -> string) (executor : option (Manager M)) (ctx : option (bool * bool))
    (request : Request) (s : S) : S * (Outcome * option ContainError) :=
  let fail s e := (s, (outcome_of request ResultNotAttempted (error_text e), Some e)) in
  match executor with
  | None => fail s ExecutorRequired
  | Some m =>
  match ctx with
  | None => fail s ContextRequired
  | Some (finished, cancelled) =>
  match Request_Validate request with
  | Some e => fail s (RequestInvalid e)
  | None =>
      if (finished : bool) then fail s ContextDone
      else
        let action registration trusted c :=
          let (c', r) := contain_action cancelled request registration trusted c in
          (c', match r with Ok _ => None | Err e => Some e end) in
        match WithActiveIdentity m (Request_CgroupID request) (Request_InstanceID request) (Request_ScopeCookie request)
                (Some action) (mkContaining s false false) with
        | (c, Some e) =>
            let err := ActionRejected e in
            (backend_state c, (outcome_of request (if authorized c && negb (safetyRejected c) then ResultFailed else ResultNotAttempted)
                                 (error_text err), Some err))
        | (c, None) => (backend_state c, (outcome_of request ResultKilled "", None))
        end
  end end end.
End Executor.

(** ** What a backend promises *)
Class BackendView (S Hd : Type) := {
  (** The cgroups killed so far, how many descriptors are open, and the
      handles that are open. *)
  backend_killed : S -> list Z;
  backend_handles : S -> Z;
  handle_open : S -> Hd -> Prop;
}.
(** Reading and opening kill nothing; an open handle kills its own cgroup, and
    not when it reports that the cgroup is no leaf; a handle is open from
    [OpenCgroup] to [Close], and nothing else is left open. *)
Class BackendLaws (S Hd : Type) `{CgroupBackend S Hd, BackendView S Hd} : Prop := {
  law_core s s' r : backend_CurrentCoreCgroup s = (s', r) ->
    backend_killed s' = backend_killed s /\ backend_handles s' = backend_handles s /\
    forall h, handle_open s h -> handle_open s' h;
  law_open h s s' r : backend_OpenCgroup h s = (s', r) ->
    backend_killed s' = backend_killed s /\
    backend_handles s' = backend_handles s + match r with Ok (Some _) => 1 | _ => 0 end /\
    match r with Ok (Some hd) => handle_open s' hd | _ => True end;
  law_kill h s s' e : handle_open s h -> handle_Kill h s = (s', e) ->
    backend_handles s' = backend_handles s /\ handle_open s' h /\
    match e with
    | None => backend_killed s' = backend_killed s ++ [Identity_ID (handle_Identity h)]
    | Some BackendNotLeaf => backend_killed s' = backend_killed s
    | Some _ => backend_killed s' = backend_killed s \/
                backend_killed s' = backend_killed s ++ [Identity_ID (handle_Identity h)]
    end;
  law_close_handle h s : handle_open s h -> backend_killed (handle_Close h s) = backend_killed s /\
    backend_handles (handle_Close h s) = backend_handles s - 1;
}.

Section ExecutorLaws.
Context {S Hd : Type} `{BackendLaws S Hd}.

(** *** What a kill needs
    The Core is a complete identity that is neither the cgroup [id] nor in the
    tree at [path]. *)
Definition core_outside (id : Z) (path : string) (core : CgroupIdentity) : Prop :=
  Identity_ID core <> 0 /\ IsAbs (Identity_Path core) = true /\ Identity_ID core <> id /\
  ~ components path `prefix_of` components (Identity_Path core).
(** The backend calls of one containment that reaches the kill, from the state
    it starts in: the Core is read, the registered cgroup is opened and is the
    requested one, the Core is read again, and neither reading is inside the
    opened cgroup; then it is killed and closed. *)
Inductive guarded_kill (request : Request) (a : activeScope) (s : S) : S -> option BackendError -> Prop :=
| guarded_kill_steps s1 s2 s3 s4 core latest h e :
    backend_CurrentCoreCgroup s = (s1, Ok core) ->
    backend_OpenCgroup (scope_handle a) s1 = (s2, Ok (Some h)) ->
    Identity_ID (handle_Identity h) = Request_CgroupID request -> Request_CgroupID request <> 0 ->
    IsAbs (Identity_Path (handle_Identity h)) = true ->
    Clean (Identity_Path (handle_Identity h)) = Clean (Registration_Path (scope_registration a)) ->
    backend_CurrentCoreCgroup s2 = (s3, Ok latest) ->
    core_outside (Request_CgroupID request) (Identity_Path (handle_Identity h)) core ->
    core_outside (Request_CgroupID request) (Identity_Path (handle_Identity h)) latest ->
    handle_Kill h s3 = (s4, e) ->
    guarded_kill request a s (handle_Close h s4) e.
Record request_ok (request : Request) : Prop := {
  rq_identity : Request_CgroupID request <> 0 /\ Request_InstanceID request <> 0 /\ Request_ScopeCookie request <> 0;
  rq_syscall : Request_SyscallResult request ∈ ["not_observed"; "succeeded"; "failed"];
}.
Lemma Request_Validate_ok request : Request_Validate request = None <-> request_ok request.
Proof.
  unfold Request_Validate. rewrite guard_None, !orb_false_iff, !Z.eqb_neq.
  destruct (bool_decide_reflect (Request_SyscallResult request ∈ [SyscallNotObserved; SyscallSucceeded; SyscallFailed])) as [Hs|Hs].
  - split; [intros (((? & ?) & ?) & _); by constructor|]. intros [(? & ? & ?) _]. done.
  - split; [by intros [_ ?]|]. by intros [_ ?].
Qed.
Lemma core_outside_iff id path core : IsAbs path = true ->
  core_outside id path core <-> validateCgroupIdentity core = true /\ cgroupContains path id core = false.
Proof.
  intros Hp. unfold core_outside, validateCgroupIdentity, cgroupContains.
  rewrite negb_true_iff, !orb_false_iff, Z.eqb_neq, negb_false_iff, Z.eqb_neq. split.
  - intros (E1 & E2 & E3 & E4). split_and!; [done|done|done|]. rewrite <-not_true_iff_false, clean_ancestor_components by done. done.
  - intros [[E1 E2] [E3 E4]]. rewrite <-not_true_iff_false, clean_ancestor_components in E4 by done. done.
Qed.
Lemma cgroupContains_clean path path' id core : IsAbs path = true -> Clean path = path' -> IsAbs (Identity_Path core) = true ->
  cgroupContains path' id core = cgroupContains path id core.
Proof.
  intros Hp <- Hc. unfold cgroupContains. f_equal. destruct (components_Clean path Hp) as [Ha Ec].
  apply Bool.eq_iff_eq_true. by rewrite !clean_ancestor_components, Ec.
Qed.

(** The action either stops before the kill, with nothing left open, or is a
    guarded kill. *)
Definition quiet (s s' : S) : Prop := backend_killed s' = backend_killed s /\ backend_handles s' = backend_handles s.
Lemma read_core_run unresolved invalid c :
  match backend_CurrentCoreCgroup (backend_state c) with
  | (s, Ok core) => if validateCgroupIdentity core then read_core unresolved invalid c = (mkContaining s (authorized c) (safetyRejected c), Ok core)
                    else read_core unresolved invalid c = (mkContaining s (authorized c) (safetyRejected c), Err invalid)
  | (s, Err e) => read_core unresolved invalid c = (mkContaining s (authorized c) (safetyRejected c), Err (unresolved e))
  end.
Proof.
  unfold read_core, mbind, stateM_bind, on_backend, raise, mret, stateM_ret.
  destruct (backend_CurrentCoreCgroup (backend_state c)) as [s [core|e]]; [|done]. by destruct (validateCgroupIdentity core).
Qed.
(** The opened handle [h] may be killed: [core] is the first reading of the
    Core, and [latest], taken in the state [s], the second. *)
Record kill_ready (cancelled : bool) (request : Request) (targetPath : string) (core : CgroupIdentity) (h : Hd) (s s3 : S) (latest : CgroupIdentity) : Prop := {
  kr_context : cancelled = false;
  kr_id : Identity_ID (handle_Identity h) = Request_CgroupID request;
  kr_nonzero : Request_CgroupID request <> 0;
  kr_abs : IsAbs (Identity_Path (handle_Identity h)) = true;
  kr_path : Clean (Identity_Path (handle_Identity h)) = targetPath;
  kr_core : cgroupContains (Identity_Path (handle_Identity h)) (Request_CgroupID request) core = false;
  kr_latest : backend_CurrentCoreCgroup s = (s3, Ok latest);
  kr_outside : core_outside (Request_CgroupID request) (Identity_Path (handle_Identity h)) latest;
}.
Lemma kill_opened_cases cancelled request targetPath core h c :
  handle_open (backend_state c) h ->
  (exists c' e, kill_opened cancelled request targetPath core h c = (c', Err e) /\ quiet (backend_state c) (backend_state c') /\
     handle_open (backend_state c') h /\ forall s3 latest, ~ kill_ready cancelled request targetPath core h (backend_state c) s3 latest) \/
  (exists s3 s4 latest e, kill_ready cancelled request targetPath core h (backend_state c) s3 latest /\ handle_Kill h s3 = (s4, e) /\
     kill_opened cancelled request targetPath core h c =
       (mkContaining s4 (authorized c) (match e with Some BackendNotLeaf => true | _ => safetyRejected c end),
        match e with Some e => Err (KillFailed e) | None => Ok tt end)).
Proof.
  intros Ho. unfold kill_opened, safely.
  destruct (validateCgroupIdentity (handle_Identity h)) eqn:Ev; cbn [negb].
  2:{ left. eexists _, _. split; [reflexivity|]. split_and!; try done. intros s3 latest [_ E Hnz Ha _ _ _ _]. unfold validateCgroupIdentity in Ev.
      rewrite E, Ha, (proj2 (Z.eqb_neq _ _) Hnz) in Ev. done. }
  assert (Identity_ID (handle_Identity h) <> 0 /\ IsAbs (Identity_Path (handle_Identity h)) = true) as [Hnz Habs].
  { unfold validateCgroupIdentity in Ev. apply negb_true_iff, orb_false_iff in Ev as [E1%Z.eqb_neq E2%negb_false_iff]. done. }
  destruct (_ || _) eqn:E1.
  { left. eexists _, _. split; [reflexivity|]. split_and!; try done. intros s3 latest [_ E _ _ Ec _ _ _]. rewrite E, Ec, Z.eqb_refl in E1. cbn in E1.
    by rewrite bool_decide_eq_true_2 in E1. }
  apply orb_false_iff in E1 as [E1%negb_false_iff%Z.eqb_eq E2%negb_false_iff%bool_decide_eq_true]. rewrite E1 in *.
  destruct (cgroupContains _ _ core) eqn:E3.
  { left. eexists _, _. split; [reflexivity|]. split_and!; try done. intros s3 latest [_ _ _ _ _ Hc _ _]. congruence. }
  unfold mbind at 1, stateM_bind at 1. pose proof (read_core_run CoreUnresolvedAgain CoreInvalidAgain c) as Hrun.
  destruct (backend_CurrentCoreCgroup (backend_state c)) as [s3 r3] eqn:Ec. destruct (law_core _ _ _ Ec) as (L1 & L2 & L3).
  destruct r3 as [latest|e3]; [destruct (validateCgroupIdentity latest) eqn:Evl|]; rewrite Hrun.
  2,3: left; eexists _, _; (split; [reflexivity|]); (split; [by split|]); (split; [by apply L3|]);
    intros s3' latest' [_ _ _ _ _ _ E Hl]; rewrite Ec in E; injection E; intros; subst; apply core_outside_iff in Hl; [|done]; destruct Hl; congruence.
  destruct (cgroupContains _ _ latest) eqn:E4.
  { left. eexists _, _. split; [reflexivity|]. (split; [by split|]); (split; [by apply L3|]).
    intros s3' latest' [_ _ _ _ _ _ E Hl]. rewrite Ec in E. injection E as <- <-. apply core_outside_iff in Hl; [|done]. destruct Hl; congruence. }
  destruct cancelled.
  { left. eexists _, _. split; [reflexivity|]. (split; [by split|]); (split; [by apply L3|]). intros s3' latest' []. done. }
  right. unfold reject_if, mbind, stateM_bind, on_backend. cbn. destruct (handle_Kill h s3) as [s4 e] eqn:Ek. cbn.
  exists s3, s4, latest, e. split; [constructor; try done; by apply core_outside_iff|]. split; [done|]. rewrite Hrun, E4. cbn [backend_state]. rewrite Ek. by destruct e as [[]|].
Qed.
(** A guarded kill leaves no handle open and kills the requested cgroup when
    the backend reports no error. *)
Lemma guarded_kill_effect request a s s' e : guarded_kill request a s s' e ->
  backend_handles s' = backend_handles s /\
  match e with
  | None => backend_killed s' = backend_killed s ++ [Request_CgroupID request]
  | Some BackendNotLeaf => backend_killed s' = backend_killed s
  | Some _ => backend_killed s' = backend_killed s \/ backend_killed s' = backend_killed s ++ [Request_CgroupID request]
  end.
Proof.
  intros [s1 s2 s3 s4 core latest h e' H1' H2' Hid _ _ _ H3' _ _ H4'].
  apply law_core in H1' as (K1 & N1 & _). apply law_open in H2' as (K2 & N2 & Ho). apply law_core in H3' as (K3 & N3 & O3).
  apply (law_kill _ _ _ _ (O3 _ Ho)) in H4' as (N4 & Ho4 & K4). destruct (law_close_handle _ _ Ho4) as [K5 N5].
  rewrite Hid in K4. rewrite K5, N5. split; [lia|]. rewrite K3, K2, K1 in K4. exact K4.
Qed.
Lemma open_and_kill_cases cancelled request a core c :
  (forall h, cgroupContains (Clean (Registration_Path (scope_registration a))) (Request_CgroupID request) core = false ->
     IsAbs (Identity_Path (handle_Identity h)) = true -> Clean (Identity_Path (handle_Identity h)) = Clean (Registration_Path (scope_registration a)) ->
     core_outside (Request_CgroupID request) (Identity_Path (handle_Identity h)) core) ->
  cgroupContains (Clean (Registration_Path (scope_registration a))) (Request_CgroupID request) core = false ->
  let '(c', r) := open_and_kill cancelled request (Clean (Registration_Path (scope_registration a))) core (scope_handle a) c in
  (exists e, r = Err e /\ quiet (backend_state c) (backend_state c') /\
     forall s2 h s3 latest, backend_OpenCgroup (scope_handle a) (backend_state c) = (s2, Ok (Some h)) ->
       ~ kill_ready cancelled request (Clean (Registration_Path (scope_registration a))) core h s2 s3 latest) \/
  (exists s2 h s3 latest s4 e, backend_OpenCgroup (scope_handle a) (backend_state c) = (s2, Ok (Some h)) /\
     kill_ready cancelled request (Clean (Registration_Path (scope_registration a))) core h s2 s3 latest /\ handle_Kill h s3 = (s4, e) /\
     core_outside (Request_CgroupID request) (Identity_Path (handle_Identity h)) core /\
     backend_state c' = handle_Close h s4 /\ authorized c' = authorized c /\
     safetyRejected c' = match e with Some BackendNotLeaf => true | _ => safetyRejected c end /\
     r = match e with Some e => Err (KillFailed e) | None => Ok tt end).
Proof.
  intros Hcore Hcc. unfold open_and_kill, mbind, stateM_bind, on_backend. destruct (backend_OpenCgroup (scope_handle a) (backend_state c)) as [s2 o] eqn:Eo.
  pose proof (law_open _ _ _ _ Eo) as (Ok_ & Oh & Oo).
  destruct o as [[h|]|[]]; try (left; eexists; split; [reflexivity|]; split; [split; cbn; [done|by rewrite Oh, Z.add_0_r]|];
    intros s2' h s3 latest E; congruence).
  unfold closing. set (c1 := mkContaining s2 (authorized c) (safetyRejected c)).
  destruct (kill_opened_cases cancelled request (Clean (Registration_Path (scope_registration a))) core h c1 Oo)
    as [(c' & e & E & [Q1 Q2] & Ho & Hn)|(s3 & s4 & latest & e & Hr & Hk & E)]; rewrite E.
  - left. exists e. cbn [backend_state] in *. destruct (law_close_handle h (backend_state c') Ho) as [K N]. split; [done|].
    split; [split; cbn; [exact (eq_trans K (eq_trans Q1 Ok_))|change (backend_state c1) with s2 in Q2; lia]|]. intros s2' h' s3 latest E' Hr. injection E' as <- <-. exact (Hn _ _ Hr).
  - right. exists s2, h, s3, latest, s4, e. cbn [backend_state] in *. split_and!; try done.
    apply Hcore; [done|exact (kr_abs _ _ _ _ _ _ _ _ Hr)|exact (kr_path _ _ _ _ _ _ _ _ Hr)].
Qed.
Lemma contain_action_cases cancelled request a c :
  Registration_CgroupID (scope_registration a) = Request_CgroupID request -> Handle_ID (scope_handle a) = Request_CgroupID request ->
  Handle_Path (scope_handle a) = Registration_Path (scope_registration a) ->
  let '(c', r) := contain_action cancelled request (scope_registration a) (scope_handle a) c in
  (exists e, r = Err e /\ quiet (backend_state c) (backend_state c') /\
     forall s' e', cancelled = false -> ~ guarded_kill request a (backend_state c) s' e') \/
  (exists e, cancelled = false /\ guarded_kill request a (backend_state c) (backend_state c') e /\ authorized c' = true /\
     safetyRejected c' = match e with Some BackendNotLeaf => true | _ => safetyRejected c end /\
     r = match e with Some e => Err (KillFailed e) | None => Ok tt end).
Proof.
  intros Er Eh Ep. unfold contain_action, safely. rewrite Er, Eh, Ep, !Z.eqb_refl. cbn [negb orb]. rewrite bool_decide_eq_true_2 by done. cbn [negb].
  destruct (IsAbs (Clean (Registration_Path (scope_registration a)))) eqn:Ea; cbn [negb].
  2:{ left. eexists. split; [reflexivity|]. split; [done|]. intros s' e' _ [? ? ? ? ? ? h ? _ _ _ _ Ha Hc _ _ _ _].
      destruct (components_Clean _ Ha) as [Ha' _]. rewrite Hc in Ha'. congruence. }
  unfold mbind, stateM_bind, authorize. set (c0 := mkContaining (backend_state c) true (safetyRejected c)).
  pose proof (read_core_run CoreUnresolved CoreInvalid c0) as Hrun. cbn [backend_state c0] in Hrun.
  destruct (backend_CurrentCoreCgroup (backend_state c)) as [s1 r1] eqn:Ec. destruct (law_core _ _ _ Ec) as (L1 & L2 & _).
  destruct r1 as [core|e1]; [destruct (validateCgroupIdentity core) eqn:Evc|]; rewrite Hrun.
  2,3: left; eexists; (split; [reflexivity|]); (split; [done|]); intros s' e' _ [? ? ? ? ? ? h ? E _ _ _ Ha _ _ Hc _ _];
    rewrite Ec in E; injection E; intros; subst; apply core_outside_iff in Hc; [|done]; destruct Hc; congruence.
  assert (IsAbs (Identity_Path core) = true) as Hca by (unfold validateCgroupIdentity in Evc; by destruct (Identity_ID core =? 0), (IsAbs (Identity_Path core))).
  destruct (cgroupContains _ _ core) eqn:Ecc.
  { left. eexists. split; [reflexivity|]. split; [done|]. intros s' e' _ [? ? ? ? ? ? h ? E _ _ _ Ha Hc _ Ho _ _].
    rewrite Ec in E. injection E as <- <-. apply core_outside_iff in Ho as [_ Ho]; [|done]. rewrite <-(cgroupContains_clean _ _ _ _ Ha Hc Hca) in Ho. congruence. }
  assert (forall h, cgroupContains (Clean (Registration_Path (scope_registration a))) (Request_CgroupID request) core = false ->
     IsAbs (Identity_Path (handle_Identity h)) = true -> Clean (Identity_Path (handle_Identity h)) = Clean (Registration_Path (scope_registration a)) ->
     core_outside (Request_CgroupID request) (Identity_Path (handle_Identity h)) core) as Hcore.
  { intros h Hcc Ha Hc. apply core_outside_iff; [done|]. split; [done|]. by rewrite <-(cgroupContains_clean _ _ _ _ Ha Hc Hca). }
  pose proof (open_and_kill_cases cancelled request a core (mkContaining s1 true (safetyRejected c)) Hcore Ecc) as Hcases.
  cbn [authorized safetyRejected c0] in *.
  destruct (open_and_kill _ _ _ _ _ _) as [c' r]. destruct Hcases as [(e & -> & [Q1 Q2] & Hn)|(s2 & h & s3 & latest & s4 & e & Eo & Hr & Hk & Hco & Es & Eau & Esr & ->)].
  - left. exists e. cbn [backend_state] in *. split; [done|]. split; [split; congruence|]. intros s' e' Hcan [s1' s2 s3 s4 core' latest h e2 E1 E2 E3 E4 E5 E6 E7 E8 E9 E10].
    rewrite Ec in E1. injection E1 as <- <-. apply (Hn _ _ s3 latest E2). constructor; try done. by apply core_outside_iff in E8 as [_ ?].
  - right. exists e. destruct Hr as [R1 R2 R3 R4 R5 R6 R7 R8]. rewrite Es. split_and!; try done. by eapply guarded_kill_steps.
Qed.

Lemma guarded_kill_fun request a s s1 e1 s2 e2 : guarded_kill request a s s1 e1 -> guarded_kill request a s s2 e2 -> s1 = s2 /\ e1 = e2.
Proof.
  intros [? ? ? ? ? ? ? ? A1 A2 _ _ _ _ A3 _ _ A4] [? ? ? ? ? ? ? ? B1 B2 _ _ _ _ B3 _ _ B4]. rewrite A1 in B1. injection B1 as <- <-. rewrite A2 in B2. injection B2 as <- <-. rewrite A3 in B3. injection B3 as <- <-. rewrite A4 in B4. by injection B4 as <- <-.
Qed.

(** Both halves of the contract of [Contain]: what it kills and what it says. *)
Lemma Contain_spec {M Er} `{ScopeMapLaws M Er} error_text core (m : Manager M) opened ctx request s s' outcome err :
  manager_reachable core m opened ->
  Contain error_text (Some m) ctx request s = (s', (outcome, err)) ->
  backend_handles s' = backend_handles s /\
  (backend_killed s' = backend_killed s \/
   backend_killed s' = backend_killed s ++ [Request_CgroupID request] /\
   exists a, manager_active m !! Request_CgroupID request = Some a /\
     scopes_view (manager_scopes m) !! Request_CgroupID request = Some (Registration_Value (scope_registration a)) /\
     Value_InstanceID (Registration_Value (scope_registration a)) = Request_InstanceID request /\
     Value_ScopeCookie (Registration_Value (scope_registration a)) = Request_ScopeCookie request /\
     exists e, guarded_kill request a s s' e) /\
  (Outcome_EnforcementResult outcome = ResultKilled <-> err = None) /\
  (err = None -> backend_killed s' = backend_killed s ++ [Request_CgroupID request]) /\
  (Outcome_EnforcementResult outcome = ResultNotAttempted -> backend_killed s' = backend_killed s) /\
  outcome = outcome_of request (Outcome_EnforcementResult outcome) (Outcome_Reason outcome) /\
  (err = None <-> ctx = Some (false, false) /\ request_ok request /\
     exists a s'', manager_active m !! Request_CgroupID request = Some a /\
       Value_InstanceID (Registration_Value (scope_registration a)) = Request_InstanceID request /\
       Value_ScopeCookie (Registration_Value (scope_registration a)) = Request_ScopeCookie request /\ guarded_kill request a s s'' None).
Proof.
  intros Hreach. pose proof (manager_invariant _ _ _ Hreach) as [_ Hs Hscopes _ _]. unfold Contain.
  pose proof (Request_Validate_ok request) as Hrq.
  assert (forall (P : Prop) e, ~ P -> (Some e : option ContainError) = None <-> P) as Hno by (intros P e HP; split; [done|by intros ?%HP]).
  destruct ctx as [[finished cancelled]|]; [|intros [= <- <- <-]; split_and!; auto; [done..|]; apply Hno; by intros [? _]].
  destruct (Request_Validate request); [intros [= <- <- <-]; split_and!; auto; [done..|]; apply Hno; intros (_ & ?%Hrq & _); done|].
  destruct finished; [intros [= <- <- <-]; split_and!; auto; [done..|]; apply Hno; by intros [[= ?] _]|].
  assert (request_ok request) as Hok by (by apply Hrq). pose proof (rq_identity _ Hok) as (N1 & N2 & N3).
  unfold WithActiveIdentity. rewrite (proj2 (Z.eqb_neq _ _) N2), (proj2 (Z.eqb_neq _ _) N3). cbn [orb].
  destruct (manager_active m !! _) as [a|] eqn:Ea; [|intros [= <- <- <-]; split_and!; auto; [done..|]; apply Hno; by intros (_ & _ & a & s'' & ? & _)]. cbv zeta.
  destruct (_ || _) eqn:Ei.
  { intros [= <- <- <-]. split_and!; auto; [done..|]. apply Hno. intros (_ & _ & a' & s'' & [= <-] & I1 & I2 & _). rewrite I1, I2, !Z.eqb_refl in Ei. done. }
  apply orb_false_iff in Ei as [Ei1%negb_false_iff%Z.eqb_eq Ei2%negb_false_iff%Z.eqb_eq].
  assert (scopes_view (manager_scopes m) !! Request_CgroupID request = Some (Registration_Value (scope_registration a))) as Hv
    by (rewrite Hs; unfold registered; by rewrite lookup_fmap, Ea).
  destruct (Hscopes _ _ Ea) as [S1 [S2 S3] _ _ _].
  pose proof (contain_action_cases cancelled request a (mkContaining s false false) S1 S2 S3) as Hcases.
  destruct (contain_action _ _ _ _ _) as [c r]. cbn [backend_state safetyRejected] in Hcases.
  destruct Hcases as [(e & -> & [Q1 Q2] & Hn)|(e & -> & Hg & Hau & Hsr & ->)].
  - cbn. intros [= <- <- <-]. cbn. split; [done|]. split; [by left|].
    split; [by destruct (authorized c && _)|]. do 3 (split; [done|]). apply Hno. intros ([= ->] & _ & a' & s'' & [= <-] & _ & _ & Hg). exact (Hn _ _ eq_refl Hg).
  - destruct (guarded_kill_effect _ _ _ _ _ Hg) as [Hh Hk]. destruct e as [e|]; cbn; intros [= <- <- <-]; cbn; rewrite ?Hau, ?Hsr; cbn.
    + split_and!; try done.
      * destruct e; [destruct Hk as [?|?]; [by left|right; split; [done|]; eauto 10]|by left|destruct Hk as [?|?]; [by left|right; split; [done|]; eauto 10]].
      * destruct e; cbn; done.
      * destruct e; cbn; done.
      * apply Hno. intros (_ & _ & a' & s'' & [= <-] & _ & _ & Hg'). pose proof (guarded_kill_fun _ _ _ _ _ _ _ Hg Hg') as [_ ?]. done.
    + split_and!; try done; [right; split; [done|]; eauto 10|]. split; [intros _|done]. split_and!; [done|done|]. eauto 10.
Qed.
(** C17: containment kills exactly the requested scope and nothing else.  For
    every request against a reachable manager: at most the requested cgroup is
    killed, only while it is an active registration, present in the kernel's
    scope map, with exactly the requested instance and cookie, and only by a
    guarded kill of this call: the Core was read before and again after the
    cgroup was opened, the opened cgroup is the registered one, and neither
    reading of the Core is that cgroup or inside it.  The call succeeds exactly
    when the request is complete, the context is live, the scope is active with
    that identity and such a guarded kill is possible and reports no error; the
    outcome says [killed] exactly when the call succeeds and then the kill took
    place, it never says [not_attempted] after a kill, it copies the request and
    leaves the syscall result alone; and no opened handle stays open. *)
Theorem contain_exact {M Er} `{ScopeMapLaws M Er} error_text core (m : Manager M) opened ctx request s s' outcome err :
  manager_reachable core m opened ->
  Contain error_text (Some m) ctx request s = (s', (outcome, err)) ->
  backend_handles s' = backend_handles s /\
  (backend_killed s' = backend_killed s \/
   backend_killed s' = backend_killed s ++ [Request_CgroupID request] /\
   exists a, manager_active m !! Request_CgroupID request = Some a /\
     scopes_view (manager_scopes m) !! Request_CgroupID request = Some (Registration_Value (scope_registration a)) /\
     Value_InstanceID (Registration_Value (scope_registration a)) = Request_InstanceID request /\
     Value_ScopeCookie (Registration_Value (scope_registration a)) = Request_ScopeCookie request /\
     exists e, guarded_kill request a s s' e) /\
  (Outcome_EnforcementResult outcome = ResultKilled <-> err = None) /\
  (err = None -> backend_killed s' = backend_killed s ++ [Request_CgroupID request]) /\
  (Outcome_EnforcementResult outcome = ResultNotAttempted -> backend_killed s' = backend_killed s) /\
  outcome = outcome_of request (Outcome_EnforcementResult outcome) (Outcome_Reason outcome) /\
  (err = None <-> ctx = Some (false, false) /\ request_ok request /\
     exists a s'', manager_active m !! Request_CgroupID request = Some a /\
       Value_InstanceID (Registration_Value (scope_registration a)) = Request_InstanceID request /\
       Value_ScopeCookie (Registration_Value (scope_registration a)) = Request_ScopeCookie request /\ guarded_kill request a s s'' None).
Proof. apply Contain_spec. Qed.
End ExecutorLaws.
