(* ===== verification/LinuxCgroup.v ===== *)
(** * The Linux cgroup file system as the program uses it
      ([internal/killer/cgroup_linux.go], [internal/scope/resolver_linux.go],
      [internal/scope/monitor_linux.go], [internal/scope/handle_fd_linux.go])

    System calls act on [os]: a table of open descriptors with what they refer
    to, the cgroups killed so far, and a clock that ticks at every call.  What
    the outside world answers (whether a call fails, what a file contains) is
    the class [World], a function of the tick, so that two reads of the same
    file may differ.  A new descriptor is the lowest unused one, as POSIX
    specifies. *)
From S2P Require Import Prelude GoStd Netip Schema Limits Match NetworkMatch Generation Engine Events Enforcement KernelProgram KernelCapture CgroupPath Scope Killer.
Open Scope Z_scope.

(** ** Paths *)
(** [filepath.Join] of two elements. *)
Definition Join2 (a b : string) : string :=
  if (a == "") && (b == "") then "" else Clean (if a == "" then b else if b == "" then a else a +:+ "/" +:+ b).
(** The elements of a cleaned path. *)
Definition elements (p : string) : list string := if Clean p == "." then [] else components p.
Fixpoint strip_common (b t : list string) : list string * list string :=
  match b, t with
  | x :: b', y :: t' => if x == y then strip_common b' t' else (b, t)
  | _, _ => (b, t)
  end.
(** [filepath.Rel]. *)
Definition Rel (base targ : string) : option string :=
  if Clean targ == Clean base then Some "."
  else if negb (Bool.eqb (IsAbs base) (IsAbs targ)) then None
  else let (rest_b, rest_t) := strip_common (elements base) (elements targ) in
       match rest_b, rest_t with
       | ".." :: _, _ :: _ => None
       | _, _ => Some (Join (map (fun _ => "..") rest_b ++ rest_t) "/")
       end.
(** [err != nil || relative == ".." || strings.HasPrefix(relative, "../")]. *)
Definition escapes (root path : string) : bool :=
  match Rel root path with
  | None => true
  | Some relative => (relative == "..") || HasPrefix relative "../"
  end.

(** ** Descriptors *)
Inductive fd_object := FdDir (ino : Z) | FdControl (ino : Z) | FdFile.
Record os := mkOs {
  os_tick : nat;
  os_fds : gmap Z fd_object;
  os_killed : list Z;
  (** The mutable [fd] field of the kill handles, by handle. *)
  os_handles : list Z;
}.
Definition lowest_free (fds : gmap Z fd_object) : Z :=
  match List.find (fun z => is_none (fds !! z)) (map Z.of_nat (seq 0 (S (size fds)))) with
  | Some fd => fd
  | None => 0
  end.

Class World := {
  (** Whether the context is done. *)
  w_done : nat -> bool;
  (** Whether a call that takes a descriptor or path succeeds. *)
  w_dup : nat -> bool;
  w_fstat : nat -> bool;
  w_open : nat -> bool;
  (** The inode the directory at a path has when it is opened. *)
  w_inode : nat -> string -> Z;
  w_statfs_type : nat -> option Z;
  w_readlink : nat -> option string;
  w_eval_symlinks : nat -> string -> option string;
  w_entries : nat -> option (list string);
  w_is_dir : nat -> string -> option bool;
  (** Opening [cgroup.kill]: [Some true] is [ENOENT] or [EOPNOTSUPP]. *)
  w_open_control : nat -> option bool;
  (** How often the write of the kill byte is interrupted, and how it then
      returns. *)
  w_write : nat -> nat * option Z;
  (** A file under [/proc] or [cgroup.events]: its contents, and whether
      reading it ends in an error; an error says whether the process is gone
      ([os.ErrNotExist] or [ESRCH]). *)
  w_proc_open : nat -> result bool (string * option bool);
  w_events_open : nat -> option (string * bool);
  (** [os.ReadDir]: the names, and which are directories. *)
  w_read_dir : nat -> string -> option (list (string * bool));
  (** Whether the process shares our cgroup namespace; [None] is an error. *)
  w_same_namespace : nat -> option bool;
}.

Definition CGROUP2_SUPER_MAGIC : Z := 0x63677270.
Definition defaultCgroupRoot : string := "/sys/fs/cgroup".

(** ** System calls *)
Definition tick (s : os) : os := mkOs (S (os_tick s)) (os_fds s) (os_killed s) (os_handles s).
Definition ask {E A} (f : nat -> A) : stateM os E A := fun s => (tick s, Ok (f (os_tick s))).
Definition open_fd {E} (o : fd_object) : stateM os E Z := fun s =>
  let fd := lowest_free (os_fds s) in
  (mkOs (S (os_tick s)) (<[fd := o]> (os_fds s)) (os_killed s) (os_handles s), Ok fd).
Definition close_now (fd : Z) (s : os) : os :=
  mkOs (S (os_tick s)) (delete fd (os_fds s)) (os_killed s) (os_handles s).
(** [defer unix.Close(fd)]. *)
Definition closing_fd {E A} (fd : Z) (m : stateM os E A) : stateM os E A := fun s =>
  let (s', r) := m s in (close_now fd s', r).
(** [unix.Close(fd)] on the error paths only. *)
Definition closing_on_error {E A} (fd : Z) (m : stateM os E A) : stateM os E A := fun s =>
  match m s with
  | (s', Ok a) => (s', Ok a)
  | (s', Err e) => (close_now fd s', Err e)
  end.
Definition require {S E} (good : bool) (e : E) : stateM S E unit := reject_if (negb good) e.
Definition expect {S E A} (x : option A) (e : E) : stateM S E A :=
  match x with Some a => mret a | None => raise e end.

Section Linux.
Context {W : World}.
Definition osM (A : Type) : Type := stateM os BackendError A.

Definition look {A} (f : os -> result BackendError A) : osM A := fun s => (s, f s).
Definition act (f : os -> os) : osM unit := fun s => (f s, Ok tt).
Definition check_context : osM unit := finished ← ask w_done; reject_if finished BackendFailed.
(** [unix.Fstat], for the inode of a directory descriptor. *)
Definition sys_fstat (fd : Z) : osM Z := fun s =>
  (tick s, match os_fds s !! fd with
           | Some (FdDir ino) => if w_fstat (os_tick s) then Ok ino else Err BackendFailed
           | _ => Err BackendFailed
           end).
(** [F_DUPFD_CLOEXEC]: a new descriptor for the same object. *)
Definition sys_dup (fd : Z) : osM Z := fun s =>
  match os_fds s !! fd with
  | Some o => if w_dup (os_tick s) then open_fd o s else (tick s, Err BackendFailed)
  | None => (tick s, Err BackendFailed)
  end.

(** ** killer/cgroup_linux.go *)
Definition leaf_entry (entry : string) : osM unit :=
  dir ← ask (fun n => w_is_dir n entry);
  match dir with
  | None => raise BackendFailed
  | Some true => raise BackendNotLeaf
  | Some false => mret tt
  end.
Definition requireLeafCgroup (fd : Z) : osM unit :=
  opened ← ask w_open;
  _ ← require opened BackendFailed;
  iterator ← open_fd FdFile;
  closing_fd iterator (
    entries ← ask w_entries;
    entries ← expect entries BackendFailed;
    forM (fun _ entry => leaf_entry entry) 0 entries).

Record linuxCgroupHandle := mkLinuxHandle { linux_ref : nat; linux_identity : CgroupIdentity }.
(** [&linuxCgroupHandle{fd: fd, identity: identity}]. *)
Definition new_handle (fd : Z) (identity : CgroupIdentity) : osM linuxCgroupHandle := fun s =>
  (mkOs (os_tick s) (os_fds s) (os_killed s) (os_handles s ++ [fd]), Ok (mkLinuxHandle (length (os_handles s)) identity)).
Definition linux_Identity (h : linuxCgroupHandle) : CgroupIdentity := linux_identity h.
(** The handle's [fd] field; closed handles have -1. *)
Definition handle_descriptor (h : linuxCgroupHandle) (s : os) : Z := default (-1) (os_handles s !! linux_ref h).
Definition linux_Close (h : linuxCgroupHandle) (s : os) : os :=
  let fd := handle_descriptor h s in
  if fd <? 0 then s
  else let s' := close_now fd s in
       mkOs (os_tick s') (os_fds s') (os_killed s') (<[linux_ref h := -1]> (os_handles s')).

(** The checks of [newLinuxCgroupHandle]; every error path closes [fd]. *)
Definition checked_handle (fd : Z) (expected : CgroupIdentity) (requireLeaf : bool) : osM linuxCgroupHandle :=
  ino ← sys_fstat fd;
  _ ← reject_if (ino =? 0) BackendFailed;
  fstype ← ask w_statfs_type;
  fstype ← expect fstype BackendFailed;
  _ ← require (fstype =? CGROUP2_SUPER_MAGIC) BackendFailed;
  _ ← reject_if (negb (Identity_ID expected =? 0) && negb (ino =? Identity_ID expected)) BackendIdentityMismatch;
  _ ← (if requireLeaf then requireLeafCgroup fd else mret tt);
  _ ← check_context;
  new_handle fd (mkIdentity ino (Clean (Identity_Path expected))).
Definition newLinuxCgroupHandle (fd : Z) (expected : CgroupIdentity) (requireLeaf : bool) : osM linuxCgroupHandle :=
  closing_on_error fd (checked_handle fd expected requireLeaf).

Definition openCgroupPath (root target : string) : osM linuxCgroupHandle :=
  _ ← check_context;
  let clean := Clean (if IsAbs target then target else Join2 root target) in
  resolved ← ask (fun n => w_eval_symlinks n clean);
  resolved ← expect resolved BackendFailed;
  _ ← require (resolved == clean) BackendFailed;
  _ ← reject_if (escapes root resolved) BackendFailed;
  opened ← ask w_open;
  _ ← require opened BackendFailed;
  ino ← ask (fun n => w_inode n resolved);
  fd ← open_fd (FdDir ino);
  newLinuxCgroupHandle fd (mkIdentity 0 (Clean resolved)) false.

(** The first line of the unified hierarchy; [readUnifiedCgroupPath] skips an
    empty path, the readers of package [scope] do not. *)
Fixpoint unified_line (nonempty : bool) (lines : list string) : option string :=
  match lines with
  | [] => None
  | line :: rest =>
      match Cut line "::" with
      | Some (hierarchy, member) =>
          if (hierarchy == "0") && (negb nonempty || (member != "")) then Some member else unified_line nonempty rest
      | None => unified_line nonempty rest
      end
  end.
(** Open [/proc/<pid>/cgroup], scan it, close it.  The error says whether the
    process is gone. *)
Definition read_membership (nonempty : bool) : stateM os bool string :=
  file ← ask w_proc_open;
  match file with
  | Err gone => raise gone
  | Ok (contents, read_error) =>
      fd ← open_fd FdFile;
      closing_fd fd (
        let (lines, long) := scan_lines contents in
        match unified_line nonempty lines with
        | Some member => mret member
        | None => raise (if long then false else default false read_error)
        end)
  end.
Definition readUnifiedCgroupPath : osM string := map_err (fun _ => BackendFailed) (read_membership true).

Definition CurrentCoreCgroup (root : string) : osM CgroupIdentity :=
  _ ← check_context;
  relative ← readUnifiedCgroupPath;
  h ← openCgroupPath root (Join2 root (TrimPrefix relative "/"));
  _ ← act (linux_Close h);
  mret (linux_Identity h).

(** [Handle.DuplicateFD] of package [scope]. *)
Definition DuplicateFD (trusted : Handle) : osM Z :=
  _ ← reject_if (negb (handle_hasFD trusted) || (handle_fd trusted <? 0)) BackendFailed;
  sys_dup (handle_fd trusted).
Definition OpenCgroup (root : string) (trusted : Handle) : osM linuxCgroupHandle :=
  _ ← check_context;
  _ ← reject_if ((Handle_ID trusted =? 0) || negb (IsAbs (Handle_Path trusted))) BackendIdentityMismatch;
  duplicate ← DuplicateFD trusted;
  actualPath ← closing_on_error duplicate (
    actualPath ← ask w_readlink;
    actualPath ← expect actualPath BackendFailed;
    let actualPath := Clean actualPath in
    _ ← require (actualPath == Clean (Handle_Path trusted)) BackendIdentityMismatch;
    _ ← reject_if (escapes root actualPath) BackendIdentityMismatch;
    mret actualPath);
  newLinuxCgroupHandle duplicate (mkIdentity (Handle_ID trusted) actualPath) true.

(** The write loop: [interrupts] calls return [EINTR], the next returns.  One
    byte written to [cgroup.kill] kills the cgroup. *)
Fixpoint write_kill (interrupts : nat) (written : option Z) (ino : Z) : osM unit :=
  match interrupts with
  | S n => _ ← ask (fun _ => tt); write_kill n written ino
  | O => fun s =>
      match written with
      | None => (tick s, Err BackendFailed)
      | Some n => if negb (n =? 1) then (tick s, Err BackendFailed)
                  else (mkOs (S (os_tick s)) (os_fds s) (os_killed s ++ [ino]) (os_handles s), Ok tt)
      end
  end.
Definition linux_Kill (h : linuxCgroupHandle) : osM unit :=
  _ ← check_context;
  fd ← look (fun s => Ok (handle_descriptor h s));
  _ ← reject_if (fd <? 0) BackendFailed;
  _ ← requireLeafCgroup fd;
  refused ← ask w_open_control;
  _ ← reject_if (is_some refused) BackendFailed;
  ino ← look (fun s => match os_fds s !! fd with Some (FdDir ino) => Ok ino | _ => Err BackendFailed end);
  control ← open_fd (FdControl ino);
  closing_fd control (
    w ← ask w_write;
    let '(interrupts, written) := w in
    write_kill interrupts written ino).

Definition linux_backend (root : string) : CgroupBackend os linuxCgroupHandle := {|
  backend_CurrentCoreCgroup := CurrentCoreCgroup root;
  backend_OpenCgroup trusted s := let (s', r) := OpenCgroup root trusted s in
    (s', match r with Ok h => Ok (Some h) | Err e => Err e end);
  handle_Identity := linux_Identity;
  handle_Kill h s := let (s', r) := linux_Kill h s in (s', match r with Ok _ => None | Err e => Some e end);
  handle_Close := linux_Close;
|}.
End Linux.

(** ** scope/resolver_linux.go *)
Section Resolver.
Context {W : World}.
Definition resolveM (A : Type) : Type := stateM os ResolveError A.

Definition ResolvePath (root path : string) : resolveM Handle :=
  _ ← reject_if (path == "") ResolveInvalidTarget;
  let clean := Clean (if IsAbs path then path else Join2 root path) in
  resolved ← ask (fun n => w_eval_symlinks n clean);
  resolved ← expect resolved ResolveFailed;
  _ ← require (resolved == clean) ResolveFailed;
  _ ← reject_if (escapes root resolved) ResolveFailed;
  entries ← ask (fun n => w_read_dir n resolved);
  entries ← expect entries ResolveFailed;
  _ ← reject_if (existsb snd entries) ResolveNotLeaf;
  opened ← ask w_open;
  _ ← require opened ResolveFailed;
  ino ← ask (fun n => w_inode n resolved);
  fd ← open_fd (FdDir ino);
  closing_on_error fd (
    ino ← map_err (fun _ => ResolveFailed) (sys_fstat fd);
    _ ← reject_if (ino =? 0) ResolveFailed;
    mret (mkHandle ino resolved (Some fd) fd true root)).

Definition ResolvePID (root : string) (pid : Z) : resolveM Handle :=
  _ ← reject_if (pid <? 1) ResolveInvalidTarget;
  same ← ask w_same_namespace;
  same ← expect same ResolveFailed;
  _ ← require same ResolveFailed;
  file ← ask w_proc_open;
  match file with
  | Err _ => raise ResolveFailed
  | Ok (contents, read_error) =>
      fd ← open_fd FdFile;
      closing_fd fd (
        let (lines, long) := scan_lines contents in
        match unified_line false lines with
        | Some path => ResolvePath root (Join2 root (TrimPrefix path "/"))
        | None => raise ResolveFailed
        end)
  end.

(** ** scope/monitor.go and scope/monitor_linux.go *)
Definition membershipPath (root membership : string) : string := Join2 (Clean root) (Clean ("/" +:+ membership)).

(** The loop of [cgroupUnpopulated]: whether the field was found, and its
    value. *)
Definition populated_line (st : option bool) (line : string) : result unit (option bool) :=
  match Fields line with
  | "populated" :: values =>
      match st, values with
      | None, ["0"] => Ok (Some true)
      | None, ["1"] => Ok (Some false)
      | _, _ => Err tt
      end
  | _ => Ok st
  end.
(** [events]: the contents, and whether reading ends in an error.  The result
    is whether the cgroup is empty. *)
Definition cgroupUnpopulated (contents : string) (read_error : bool) : option bool :=
  let (lines, long) := scan_lines contents in
  match foldM populated_line None lines with
  | Err _ => None
  | Ok st => if long || read_error then None else st
  end.

(** [rootPIDExited] is the flag a membership error carries. *)
Definition exited_and_empty (h : Handle) (gone : bool) : stateM os unit bool :=
  _ ← reject_if (negb gone || negb (handle_hasFD h)) tt;
  events ← ask w_events_open;
  events ← expect events tt;
  let '(contents, read_error) := events in
  fd ← open_fd FdFile;
  closing_fd fd (
    empty ← expect (cgroupUnpopulated contents read_error) tt;
    _ ← require empty tt;
    mret true).
(** The membership of the root process, or [None] if it is gone. *)
Definition root_membership (h : Handle) : stateM os unit (option string) := fun s =>
  match read_membership false s with
  | (s', Ok membership) => (s', Ok (Some (membershipPath (handle_root h) (TrimPrefix membership "/"))))
  | (s', Err gone) => (_ ← exited_and_empty h gone; mret None) s'
  end.
Definition Inspect (h : Handle) (rootPID : Z) : stateM os unit ScopeState :=
  let directory := if handle_hasFD h then Join2 "/proc/self/fd" (FormatUint (handle_fd h)) else Handle_Path h in
  entries ← ask (fun n => w_read_dir n directory);
  entries ← expect entries tt;
  let children := map (fun e : string * bool => Join2 (Handle_Path h) (fst e)) (List.filter snd entries) in
  if 0 <? rootPID then
    _ ← reject_if (handle_root h == "") tt;
    membership ← root_membership h;
    mret match membership with
         | Some path => mkScopeState children path false
         | None => mkScopeState children "" true
         end
  else mret (mkScopeState children "" false).
End Resolver.

(** ** Descriptors are balanced *)
(** Nothing but the clock changed. *)
Definition frames (s s' : os) : Prop :=
  os_killed s' = os_killed s /\ os_fds s' = os_fds s /\ os_handles s' = os_handles s.
#[export] Instance frames_pre : PreOrder frames.
Proof. split; [done|]. intros x y z (? & ? & ?) (? & ? & ?). split_and!; congruence. Qed.
Definition quiet {E A} (m : stateM os E A) : Prop := forall s s' r, m s = (s', r) -> frames s s'.

Lemma bind_run {S E A B} (m : stateM S E A) (f : A -> stateM S E B) s s' r : (m ≫= f) s = (s', r) ->
  (exists e, m s = (s', Err e) /\ r = Err e) \/ (exists a s1, m s = (s1, Ok a) /\ f a s1 = (s', r)).
Proof. unfold mbind, stateM_bind. destruct (m s) as [s1 [a|e]]; [eauto|]. intros [= <- <-]. eauto. Qed.

Lemma quiet_bind {E A B} (m : stateM os E A) (f : A -> stateM os E B) :
  quiet m -> (forall a, quiet (f a)) -> quiet (m ≫= f).
Proof.
  intros Hm Hf s s' r [(e & He & _)|(a & s1 & Ha & Hr)]%bind_run; [by eapply Hm|].
  etrans; [by eapply Hm|by eapply Hf].
Qed.
Lemma bind_quiet {E A B} (m : stateM os E A) (f : A -> stateM os E B) s0 s s' r :
  quiet m -> frames s0 s -> (m ≫= f) s = (s', r) ->
  (frames s0 s' /\ exists e, r = Err e) \/ (exists a s1, m s = (s1, Ok a) /\ frames s0 s1 /\ f a s1 = (s', r)).
Proof.
  intros Hm Hs [(e & He & ->)|(a & s1 & Ha & Hr)]%bind_run; [left|right].
  - split; [|by eexists]. etrans; [done|by eapply Hm].
  - exists a, s1. split_and!; try done. etrans; [done|by eapply Hm].
Qed.
(** Step over a quiet call of the run [H], which started in a state framed by
    [Hfr]: the failing case is closed by [fail], the value is [a]. *)
Tactic Notation "pass" hyp(H) hyp(Hfr) "by" tactic3(q) "as" simple_intropattern(a) ident(Hm) "failing" tactic3(failing) :=
  let s1 := fresh "s" in let Hres := fresh "Hres" in
  apply (bind_quiet _ _ _ _ _ _ ltac:(q) Hfr) in H as [[?Hq [?e Hres]]|(a & s1 & Hm & ?Hfr' & H)];
  [try rewrite Hres; failing|]; clear Hfr; rename Hfr' into Hfr.
Lemma quiet_ask {E A} (f : nat -> A) : quiet (E := E) (ask f).
Proof. by intros s s' r [= <- _]. Qed.
Lemma quiet_ret {E A} (a : A) : quiet (E := E) (mret a).
Proof. by intros s s' r [= <- _]. Qed.
Lemma quiet_raise {E A} (e : E) : quiet (A := A) (raise e).
Proof. by intros s s' r [= <- _]. Qed.
Lemma quiet_reject_if {E} (b : bool) (e : E) : quiet (reject_if b e).
Proof. destruct b; [apply quiet_raise|apply quiet_ret]. Qed.
Lemma quiet_require {E} (b : bool) (e : E) : quiet (require b e).
Proof. apply quiet_reject_if. Qed.
Lemma quiet_expect {E A} (x : option A) (e : E) : quiet (expect x e).
Proof. destruct x; [apply quiet_ret|apply quiet_raise]. Qed.
Lemma quiet_forM {E A} (f : nat -> A -> stateM os E unit) l : (forall i x, quiet (f i x)) -> forall i, quiet (forM f i l).
Proof. intros Hf. induction l as [|x l IH]; intros i; cbn [forM]; [apply quiet_ret|]. apply quiet_bind; auto. Qed.
Lemma quiet_map_err {E E' A} (f : E -> E') (m : stateM os E A) : quiet m -> quiet (map_err f m).
Proof. intros Hm s s' r. unfold map_err. destruct (m s) as [s1 [a|e]] eqn:Em; intros [= <- _]; by eapply Hm. Qed.

Lemma lowest_free_fresh fds : 0 <= lowest_free fds /\ fds !! lowest_free fds = None.
Proof.
  unfold lowest_free. set (candidates := map Z.of_nat (seq 0 (S (size fds)))).
  destruct (List.find _ candidates) as [fd|] eqn:E.
  - apply find_elem in E as [Hin Hf]. apply list_elem_of_fmap in Hin as (n & -> & _). split; [lia|].
    unfold is_none in Hf. apply negb_true_iff, is_some_false in Hf. done.
  - exfalso. rewrite find_None, Forall_forall in E.
    assert (list_to_set candidates ⊆ dom fds) as Hsub.
    { intros z Hz. apply elem_of_list_to_set, E in Hz. unfold is_none in Hz. apply negb_false_iff, is_some_true in Hz. by apply elem_of_dom. }
    apply subseteq_size in Hsub. rewrite size_dom, size_list_to_set in Hsub.
    + unfold candidates in Hsub. rewrite length_map, length_seq in Hsub. lia.
    + apply NoDup_fmap; [intros ? ?; lia|]. apply NoDup_ListNoDup, seq_NoDup.
Qed.
Lemma delete_insert_fresh (fds : gmap Z fd_object) o : delete (lowest_free fds) (<[lowest_free fds := o]> fds) = fds.
Proof. rewrite delete_insert_eq. apply delete_id, lowest_free_fresh. Qed.

(** Opening a descriptor and closing it afterwards leaves the table alone. *)
Lemma quiet_bracket {E A} (o : fd_object) (m : Z -> stateM os E A) :
  (forall fd, quiet (m fd)) -> quiet (open_fd o ≫= fun fd => closing_fd fd (m fd)).
Proof.
  intros Hm s s' r. unfold mbind, stateM_bind, open_fd, closing_fd. set (fd := lowest_free (os_fds s)). cbv zeta.
  destruct (m fd _) as [s1 r1] eqn:Em. intros [= <- _]. apply Hm in Em as (E1 & E2 & E3). cbn in *.
  split_and!; cbn; [done|rewrite E2; apply delete_insert_fresh|done].
Qed.
Ltac quietly := repeat first
  [ apply quiet_bracket; intros | apply quiet_ask | apply quiet_ret | apply quiet_raise | apply quiet_reject_if | apply quiet_require
  | apply quiet_expect | apply quiet_map_err | (apply quiet_forM; intros) | (apply quiet_bind; [|intros]) | case_match | progress cbv zeta ].

Section Balanced.
Context {W : World}.

Lemma quiet_check_context : quiet check_context.
Proof. unfold check_context. quietly. Qed.
Lemma quiet_fstat fd : quiet (sys_fstat fd).
Proof. intros s s' r [= <- _]. done. Qed.
Lemma quiet_leaf fd : quiet (requireLeafCgroup fd).
Proof. unfold requireLeafCgroup, leaf_entry. quietly. Qed.
Lemma quiet_membership nonempty : quiet (read_membership nonempty).
Proof. unfold read_membership. quietly. Qed.
Lemma quiet_unified : quiet readUnifiedCgroupPath.
Proof. apply quiet_map_err, quiet_membership. Qed.

Lemma reject_ok {S E} (b : bool) (e : E) (s s' : S) a : reject_if b e s = (s', Ok a) -> b = false.
Proof. by destruct b. Qed.

Lemma quiet_leaf_if (leaf : bool) fd : quiet (if leaf then requireLeafCgroup fd else mret tt).
Proof. destruct leaf; [apply quiet_leaf|apply quiet_ret]. Qed.

(** Quiet until the handle is stored. *)
Lemma checked_handle_spec fd expected leaf s s' r : checked_handle fd expected leaf s = (s', r) ->
  match r with
  | Err _ => frames s s'
  | Ok h => os_killed s' = os_killed s /\ os_fds s' = os_fds s /\ os_handles s' = os_handles s ++ [fd] /\
      linux_ref h = length (os_handles s) /\ os_fds s !! fd = Some (FdDir (Identity_ID (linux_identity h))) /\
      Identity_ID (linux_identity h) <> 0 /\
      (Identity_ID expected <> 0 -> Identity_ID (linux_identity h) = Identity_ID expected)
  end.
Proof.
  unfold checked_handle. intros H. assert (frames s s) as Hfr by done.
  pass H Hfr by (apply quiet_fstat) as ino Hino failing done.
  pass H Hfr by (apply quiet_reject_if) as [] Hz failing done. apply reject_ok, Z.eqb_neq in Hz.
  pass H Hfr by (apply quiet_ask) as o Ho failing done.
  pass H Hfr by (apply quiet_expect) as fstype Hty failing done.
  pass H Hfr by (apply quiet_require) as [] Hmagic failing done.
  pass H Hfr by (apply quiet_reject_if) as [] Hexp failing done. apply reject_ok in Hexp.
  pass H Hfr by (apply quiet_leaf_if) as [] Hleaf failing done.
  pass H Hfr by (apply quiet_check_context) as [] Hctx failing done.
  destruct Hfr as (G1 & G2 & G3). unfold new_handle in H. injection H as <- <-. cbn. rewrite G1, G2, G3.
  unfold sys_fstat in Hino. destruct (os_fds s !! fd) as [[ino'| |]|]; try done. destruct (w_fstat _); [|done]. injection Hino as _ ->.
  split_and!; try done. intros He. apply andb_false_iff in Hexp as [Hn|Hn]; apply negb_false_iff, Z.eqb_eq in Hn; done.
Qed.
Lemma newLinuxCgroupHandle_spec fd expected leaf s s' r : newLinuxCgroupHandle fd expected leaf s = (s', r) ->
  os_killed s' = os_killed s /\
  match r with
  | Err _ => os_fds s' = delete fd (os_fds s) /\ os_handles s' = os_handles s
  | Ok h => os_fds s' = os_fds s /\ os_handles s' = os_handles s ++ [fd] /\ linux_ref h = length (os_handles s) /\
      os_fds s !! fd = Some (FdDir (Identity_ID (linux_identity h))) /\ Identity_ID (linux_identity h) <> 0 /\
      (Identity_ID expected <> 0 -> Identity_ID (linux_identity h) = Identity_ID expected)
  end.
Proof.
  unfold newLinuxCgroupHandle, closing_on_error. destruct (checked_handle fd expected leaf s) as [s1 [h|e]] eqn:Hc;
    apply checked_handle_spec in Hc; intros [= <- <-]; [tauto|]. destruct Hc as (G1 & G2 & G3). cbn. by rewrite G1, G2, G3.
Qed.

(** A new handle [h] on the fresh descriptor; or nothing at all. *)
Definition opens (s s' : os) (h : linuxCgroupHandle) : Prop :=
  let fd := lowest_free (os_fds s) in
  os_killed s' = os_killed s /\ os_fds s' = <[fd := FdDir (Identity_ID (linux_identity h))]> (os_fds s) /\
  os_handles s' = os_handles s ++ [fd] /\ linux_ref h = length (os_handles s) /\ Identity_ID (linux_identity h) <> 0.

Lemma handle_on_fresh o expected leaf s0 s s' r fd s1 : frames s0 s -> open_fd (E := BackendError) o s = (s1, Ok fd) ->
  newLinuxCgroupHandle fd expected leaf s1 = (s', r) ->
  match r with
  | Err _ => frames s0 s'
  | Ok h => opens s0 s' h /\ o = FdDir (Identity_ID (linux_identity h)) /\
      (Identity_ID expected <> 0 -> Identity_ID (linux_identity h) = Identity_ID expected)
  end.
Proof.
  intros (G1 & G2 & G3). unfold open_fd. cbv zeta. intros [= <- <-] [Hk Hr]%newLinuxCgroupHandle_spec.
  cbn [os_fds os_killed os_handles] in *. rewrite G2 in *. destruct r as [h|e].
  - destruct Hr as (H1 & H2 & H3 & H4 & H5 & H6). rewrite lookup_insert_eq in H4. injection H4 as ->.
    unfold opens. rewrite <-G1, <-G3. done.
  - destruct Hr as [H1 H2]. rewrite delete_insert_fresh in H1. split_and!; congruence.
Qed.
Lemma openCgroupPath_spec root target s s' r : openCgroupPath root target s = (s', r) ->
  match r with Err _ => frames s s' | Ok h => opens s s' h end.
Proof.
  unfold openCgroupPath. intros H. assert (frames s s) as Hfr by done.
  pass H Hfr by (apply quiet_check_context) as [] Hc failing done.
  pass H Hfr by (apply quiet_ask) as o Ho failing done.
  pass H Hfr by (apply quiet_expect) as resolved Hres failing done.
  pass H Hfr by (apply quiet_require) as [] Hcl failing done.
  pass H Hfr by (apply quiet_reject_if) as [] Hesc failing done.
  pass H Hfr by (apply quiet_ask) as opened Hop failing done.
  pass H Hfr by (apply quiet_require) as [] Hop' failing done.
  pass H Hfr by (apply quiet_ask) as ino Hino failing done.
  apply bind_run in H as [(e & He & ->)|(fd & s9 & Hfd & H)]; [done|].
  apply (handle_on_fresh _ _ _ _ _ _ _ _ _ Hfr Hfd) in H. destruct r; [apply H|done].
Qed.

Lemma close_opened s s' h : opens s s' h ->
  os_killed (linux_Close h s') = os_killed s /\ os_fds (linux_Close h s') = os_fds s /\
  os_handles (linux_Close h s') = os_handles s ++ [-1].
Proof.
  intros (H1 & H2 & H3 & H4 & _). unfold linux_Close, handle_descriptor. rewrite H3, H4, list_lookup_middle by done. cbn.
  destruct (lowest_free_fresh (os_fds s)) as [Hnn Hf]. destruct (Z.ltb_spec (lowest_free (os_fds s)) 0); [lia|]. cbn.
  rewrite H2, H3, delete_insert_fresh. split_and!; try done. rewrite insert_app_r_alt by lia. by rewrite Nat.sub_diag.
Qed.
Lemma CurrentCoreCgroup_spec root s s' r : CurrentCoreCgroup root s = (s', r) ->
  os_killed s' = os_killed s /\ os_fds s' = os_fds s /\ exists l, os_handles s' = os_handles s ++ l.
Proof.
  assert (forall t, frames s t -> os_killed t = os_killed s /\ os_fds t = os_fds s /\ exists l, os_handles t = os_handles s ++ l) as Hq.
  { intros t (G1 & G2 & G3). split_and!; try done. exists []. by rewrite app_nil_r. }
  unfold CurrentCoreCgroup. intros H. assert (frames s s) as Hfr by done.
  pass H Hfr by (apply quiet_check_context) as [] Hc failing auto.
  pass H Hfr by (apply quiet_unified) as rel Hrel failing auto.
  apply bind_run in H as [(e & He & ->)|(h & s3 & Hh & H)].
  - apply openCgroupPath_spec in He. apply Hq. by etrans.
  - apply openCgroupPath_spec in Hh. apply bind_run in H as [(e & He & ->)|([] & s4 & Ha & H)]; [done|].
    injection Ha as <-. injection H as <- _. destruct (close_opened _ _ _ Hh) as (C1 & C2 & C3).
    destruct Hfr as (G1 & G2 & G3). rewrite C1, C2, C3, G1, G2, G3. eauto.
Qed.

Lemma closing_on_error_quiet {E A} fd (m : stateM os E A) s s' r : quiet m -> closing_on_error fd m s = (s', r) ->
  match r with
  | Ok a => frames s s' /\ m s = (s', Ok a)
  | Err _ => os_killed s' = os_killed s /\ os_fds s' = delete fd (os_fds s) /\ os_handles s' = os_handles s
  end.
Proof.
  intros Hm. unfold closing_on_error. destruct (m s) as [s1 [a|e]] eqn:Em; intros [= <- <-].
  - split; [by eapply Hm|done].
  - apply Hm in Em as (G1 & G2 & G3). cbn. by rewrite G1, G2, G3.
Qed.
Lemma OpenCgroup_spec root trusted s s' r : OpenCgroup root trusted s = (s', r) ->
  match r with
  | Err _ => frames s s'
  | Ok h => opens s s' h /\ Identity_ID (linux_identity h) = Handle_ID trusted /\
      os_fds s !! handle_fd trusted = Some (FdDir (Handle_ID trusted))
  end.
Proof.
  unfold OpenCgroup. intros H. assert (frames s s) as Hfr by done.
  pass H Hfr by (apply quiet_check_context) as [] Hc failing done.
  pass H Hfr by (apply quiet_reject_if) as [] Hid failing done. apply reject_ok, orb_false_iff in Hid as [Hid%Z.eqb_neq _].
  unfold DuplicateFD in H. apply bind_run in H as [(e & Hd & ->)|(fd & s3 & Hd & H)].
  { pass Hd Hfr by (apply quiet_reject_if) as [] Hh failing done. unfold sys_dup in Hd.
    destruct (os_fds _ !! _) as [o|]; [destruct (w_dup _)|]; try done; injection Hd as <- _; by etrans. }
  pass Hd Hfr by (apply quiet_reject_if) as [] Hh failing done. unfold sys_dup in Hd.
  destruct (os_fds _ !! handle_fd trusted) as [o|] eqn:Eo; [|done]. destruct (w_dup _); [|done].
  destruct Hfr as (G1 & G2 & G3). rewrite G2 in Eo.
  assert (os_killed s3 = os_killed s /\ os_fds s3 = <[fd := o]> (os_fds s) /\ os_handles s3 = os_handles s /\ fd = lowest_free (os_fds s))
    as (K1 & K2 & K3 & ->) by (unfold open_fd in Hd; cbv zeta in Hd; injection Hd as <- <-; cbn; rewrite G1, G2, G3; done).
  clear Hd. apply bind_run in H as [(e & Hp & ->)|(path & s4 & Hp & H)].
  - apply closing_on_error_quiet in Hp as (P1 & P2 & P3); [|quietly]. rewrite K2, delete_insert_fresh in P2. split_and!; congruence.
  - apply closing_on_error_quiet in Hp as [(P1 & P2 & P3) _]; [|quietly].
    apply newLinuxCgroupHandle_spec in H as [Hk Hr]. rewrite P2, K2 in Hr. destruct r as [h|e].
    + destruct Hr as (R1 & R2 & R3 & R4 & R5 & R6). rewrite lookup_insert_eq in R4. injection R4 as ->. cbn [Identity_ID] in R6.
      rewrite (R6 Hid) in *. split_and!; try done. unfold opens. rewrite (R6 Hid), R1, R2, R3, Hk, P1, P3, K1, K3. done.
    + destruct Hr as [R1 R2]. rewrite delete_insert_fresh in R1. split_and!; congruence.
Qed.

Lemma write_kill_spec n written ino : forall s s' r, write_kill n written ino s = (s', r) ->
  os_fds s' = os_fds s /\ os_handles s' = os_handles s /\
  os_killed s' = os_killed s ++ match r with Ok _ => [ino] | Err _ => [] end /\ r <> Err BackendNotLeaf.
Proof.
  induction n as [|n IH]; intros s s' r; cbn [write_kill].
  - destruct written as [k|]; [destruct (negb _)|]; intros [= <- <-]; cbn; by rewrite ?app_nil_r.
  - intros [(e & He & _)|(a & s1 & Ha & Hr)]%bind_run; [done|]. apply quiet_ask in Ha as (G1 & G2 & G3).
    apply IH in Hr. by rewrite G1, G2, G3 in Hr.
Qed.
(** Killing closes what it opens, and kills the directory behind the handle. *)
Lemma linux_Kill_spec h s s' r fd ino : linux_Kill h s = (s', r) ->
  os_handles s !! linux_ref h = Some fd -> os_fds s !! fd = Some (FdDir ino) ->
  os_fds s' = os_fds s /\ os_handles s' = os_handles s /\
  match r with
  | Ok _ => os_killed s' = os_killed s ++ [ino]
  | Err _ => os_killed s' = os_killed s
  end.
Proof.
  assert (forall t, frames s t -> os_fds t = os_fds s /\ os_handles t = os_handles s /\ os_killed t = os_killed s) as Hq
    by (intros t (G1 & G2 & G3); done).
  unfold linux_Kill. intros H Hfd Hino. assert (frames s s) as Hfr by done.
  pass H Hfr by (apply quiet_check_context) as [] Hc failing auto.
  apply bind_run in H as [(e & He & ->)|(fd' & s2 & Hl & H)]; [done|]. injection Hl as <- Hl.
  pose proof Hfr as (G1 & G2 & G3). unfold handle_descriptor in Hl. rewrite G3, Hfd in Hl. cbn in Hl. subst fd'. clear G1 G2 G3.
  pass H Hfr by (apply quiet_reject_if) as [] Hneg failing auto.
  pass H Hfr by (apply quiet_leaf) as [] Hleaf failing auto.
  pass H Hfr by (apply quiet_ask) as refused Href failing auto.
  pass H Hfr by (apply quiet_reject_if) as [] Href' failing auto.
  destruct Hfr as (G1 & G2 & G3). apply bind_run in H as [(e & He & ->)|(ino' & s7 & Hl & H)].
  { unfold look in He. rewrite G2, Hino in He. done. }
  unfold look in Hl. rewrite G2, Hino in Hl. injection Hl as <- <-.
  unfold mbind at 1, stateM_bind at 1, open_fd, closing_fd in H. cbv zeta in H.
  match type of H with (let (_, _) := ?m in _) = _ => destruct m as [s8 r8] eqn:Em end.
  injection H as <- <-. apply bind_run in Em as [(e & He & ->)|([n written] & s9 & Ha & Hw)]; [done|].
  apply quiet_ask in Ha as (A1 & A2 & A3). apply write_kill_spec in Hw as (W1 & W2 & W3 & _). cbn in *.
  rewrite W1, W2, W3, A1, A2, A3, G1, G2, G3, delete_insert_fresh. split_and!; try done. destruct r8; [done|]. by rewrite app_nil_r.
Qed.
End Balanced.

(** ** The Linux backend keeps the promises the executor relies on *)
Section LinuxBackend.
Context {W : World} (root : string).
#[local] Instance linux_backend_root : CgroupBackend os linuxCgroupHandle := linux_backend root.
#[export] Instance linux_view : BackendView os linuxCgroupHandle := {|
  backend_killed := os_killed;
  backend_handles s := Z.of_nat (size (os_fds s));
  handle_open s h := exists fd, os_handles s !! linux_ref h = Some fd /\ 0 <= fd /\
    os_fds s !! fd = Some (FdDir (Identity_ID (linux_identity h)));
|}.
#[export] Instance linux_laws : BackendLaws os linuxCgroupHandle.
Proof.
  split.
  - intros s s' r (C1 & C2 & l & C3)%CurrentCoreCgroup_spec. cbn. rewrite C2. split_and!; try done.
    intros h (fd & H1 & H2 & H3). exists fd. rewrite C3. split_and!; try done. by apply lookup_app_l_Some.
  - intros h s s' r. cbn. destruct (OpenCgroup root h s) as [s1 [hd|e]] eqn:E; intros [= <- <-]; apply OpenCgroup_spec in E.
    + destruct E as [(O1 & O2 & O3 & O4 & _) _]. destruct (lowest_free_fresh (os_fds s)) as [Hnn Hf].
      rewrite O1, O2, O3, O4, map_size_insert_None by done. split_and!; [done|lia|].
      exists (lowest_free (os_fds s)). rewrite list_lookup_middle, lookup_insert_eq by done. done.
    + destruct E as (G1 & G2 & G3). by rewrite G1, G2, Z.add_0_r.
  - intros h s s' e (fd & H1 & H2 & H3). cbn. destruct (linux_Kill h s) as [s1 r] eqn:E.
    pose proof (linux_Kill_spec _ _ _ _ _ _ E H1 H3) as (K1 & K2 & K3). intros [= <- <-]. rewrite K1. split_and!; [done| |].
    + exists fd. by rewrite K2.
    + destruct r as [[]|[]]; auto.
  - intros h s (fd & H1 & H2 & H3). cbn. unfold linux_Close, handle_descriptor. rewrite H1. cbn.
    destruct (Z.ltb_spec fd 0); [lia|]. cbn. rewrite map_size_delete, H3. split; [done|].
    assert (size (os_fds s) <> 0%nat); [|lia]. intros E%map_size_empty_inv. by rewrite E, lookup_empty in H3.
Qed.
End LinuxBackend.

(** ** Resolution *)
Lemma strip_common_spec b : forall t, exists common, b = common ++ (strip_common b t).1 /\ t = common ++ (strip_common b t).2 /\
  match strip_common b t with (x :: _, y :: _) => x <> y | _ => True end.
Proof.
  induction b as [|x b IH]; intros [|y t]; cbn; try by exists [].
  case_bool_decide as E; [subst y|by exists []].
  destruct (IH t) as (common & E1 & E2 & E3). exists (x :: common). cbn. by rewrite <-E1, <-E2.
Qed.
Lemma strip_common_prefix b t : (strip_common b t).1 = [] <-> b `prefix_of` t.
Proof.
  destruct (strip_common_spec b t) as (common & E1 & E2 & E3). destruct (strip_common b t) as [rb rt]. cbn in *. split.
  - intros ->. rewrite app_nil_r in E1. subst common. by exists rt.
  - intros [l El]. subst b. rewrite <-app_assoc in El. rewrite E2 in El. apply app_inv_head in El.
    destruct rb as [|x rb]; [done|]. destruct rt as [|y rt]; [done|]. by injection El.
Qed.
Lemma elements_abs p : IsAbs p = true -> elements p = components p.
Proof.
  intros Ha. unfold elements. rewrite bool_decide_eq_false_2; [done|]. rewrite (Clean_abs p Ha). by destruct (components p).
Qed.
Lemma dotdot_join l : let relative := Join (".." :: l) "/" in (relative == "..") || HasPrefix relative "../" = true.
Proof.
  destruct l as [|y l]; [done|]. cbv zeta. apply orb_true_iff. right. apply HasPrefix_app. by exists (Join (y :: l) "/").
Qed.
Lemma proper_join x l : proper_name x -> HasPrefix (Join (x :: l) "/") "../" = false /\ Join (x :: l) "/" <> "..".
Proof.
  intros ([Hs Hne] & _ & Hdd).
  assert (forall u, slash_or_end u -> HasPrefix (x +:+ u) "../" = false /\ x +:+ u <> "..") as Hx.
  { intros u Hu. split.
    - apply not_true_is_false. intros [r Hr]%HasPrefix_app. change ("../" +:+ r) with (".." +:+ String slash r) in Hr.
      by apply head_unique in Hr as [? _].
    - intros Hr. rewrite <-(str_app_nil_r "..") in Hr. by apply head_unique in Hr as [? _]. }
  destruct l as [|y l]; cbn [Join]; [|by apply (Hx ("/" +:+ Join (y :: l) "/"))].
  specialize (Hx "" I). by rewrite str_app_nil_r in Hx.
Qed.
(** On absolute paths the lexical check decides containment. *)
Lemma escapes_prefix root p : IsAbs root = true -> IsAbs p = true ->
  escapes root p = false <-> components root `prefix_of` components p.
Proof.
  intros Hr Hp. unfold escapes, Rel. case_bool_decide as Ec.
  { split; [intros _|done]. apply (clean_ancestor_components _ _ Hr Hp), clean_ancestor_spec. by left. }
  rewrite Hr, Hp. cbn [Bool.eqb negb]. rewrite !elements_abs, <-strip_common_prefix by done.
  pose proof (components_proper root Hr) as Pr. pose proof (components_proper p Hp) as Pp.
  destruct (strip_common_spec (components root) (components p)) as (common & E1 & E2 & _).
  destruct (strip_common (components root) (components p)) as [rb rt]. cbn [fst snd] in *.
  rewrite E1, Forall_app in Pr. rewrite E2, Forall_app in Pp. destruct Pr as [_ Pr], Pp as [_ Pp].
  destruct rb as [|x rb].
  - split; [done|intros _]. destruct rt as [|y rt]; [done|]. apply Forall_cons in Pp as [Py _]. cbn [map app].
    destruct (proper_join y rt Py) as [H1 H2]. by rewrite H1, bool_decide_eq_false_2.
  - split; [|done]. cbn [map app]. pose proof (dotdot_join (map (fun _ => "..") rb ++ rt)) as Hd. cbv zeta in Hd.
    match goal with |- match ?o with _ => _ end = _ -> _ =>
      assert (o = None \/ o = Some (Join (".." :: map (fun _ => "..") rb ++ rt) "/")) as [-> | ->] by (repeat (case_match; auto)) end;
      [done|by rewrite Hd].
Qed.

Section Resolution.
Context {W : World}.

(** A resolved scope is an exact leaf under the trusted root.  A handle is
    returned only for a path that resolves to itself (no symbolic link), lies
    under the root, had no child directory when it was listed, and whose open
    directory has the non-zero inode the handle carries; its descriptor is the
    only one added.  On every error the descriptor table is as it was. *)
Theorem ResolvePath_exact root path s s' r : IsAbs root = true -> ResolvePath root path s = (s', r) ->
  os_killed s' = os_killed s /\
  match r with
  | Err _ => os_fds s' = os_fds s
  | Ok h => let fd := lowest_free (os_fds s) in
      os_fds s' = <[fd := FdDir (Handle_ID h)]> (os_fds s) /\ os_fds s !! fd = None /\
      handle_fd h = fd /\ handle_closer h = Some fd /\ handle_hasFD h = true /\ handle_root h = root /\
      Handle_ID h <> 0 /\
      (exists n, w_eval_symlinks n (Handle_Path h) = Some (Handle_Path h)) /\
      (exists n entries, w_read_dir n (Handle_Path h) = Some entries /\ forall e, e ∈ entries -> snd e = false) /\
      (IsAbs (Handle_Path h) = true -> components root `prefix_of` components (Handle_Path h))
  end.
Proof.
  intros Hroot H. unfold ResolvePath in H. assert (frames s s) as Hfr by done.
  assert (forall t, frames s t -> os_killed t = os_killed s /\ os_fds t = os_fds s) as Hq by (by intros t (G1 & G2 & G3)).
  pass H Hfr by (apply quiet_reject_if) as [] Hne failing auto.
  pass H Hfr by (apply quiet_ask) as o Ho failing auto. injection Ho as _ Ho.
  pass H Hfr by (apply quiet_expect) as resolved Hres failing auto. destruct o as [resolved'|]; [|done]. injection Hres as _ ->.
  pass H Hfr by (apply quiet_require) as [] Hcl failing auto. apply reject_ok, negb_false_iff, bool_decide_eq_true in Hcl.
  pass H Hfr by (apply quiet_reject_if) as [] Hesc failing auto. apply reject_ok in Hesc.
  pass H Hfr by (apply quiet_ask) as o Hdir failing auto. injection Hdir as _ Hdir.
  pass H Hfr by (apply quiet_expect) as entries Hent failing auto. destruct o as [entries'|]; [|done]. injection Hent as _ ->.
  pass H Hfr by (apply quiet_reject_if) as [] Hleaf failing auto. apply reject_ok in Hleaf. rewrite existsb_false, Forall_forall in Hleaf.
  pass H Hfr by (apply quiet_ask) as opened Hop failing auto.
  pass H Hfr by (apply quiet_require) as [] Hop' failing auto.
  pass H Hfr by (apply quiet_ask) as ino Hino failing auto.
  destruct Hfr as (G1 & G2 & G3). apply bind_run in H as [(e & He & ->)|(fd & s12 & Hfd & H)]; [done|].
  unfold open_fd in Hfd. cbv zeta in Hfd. injection Hfd as <- <-. apply closing_on_error_quiet in H; [|quietly; apply quiet_fstat].
  destruct r as [h|e].
  - destruct H as [(K1 & K2 & K3) H]. cbn in K1, K2. apply bind_run in H as [(e & He & ?)|(ino' & s13 & Hst & H)]; [done|].
    unfold map_err, sys_fstat in Hst. cbn in Hst. rewrite lookup_insert_eq in Hst. destruct (w_fstat _); [|done]. injection Hst as <- <-.
    apply bind_run in H as [(e & He & ?)|([] & s14 & Hz & H)]; [done|]. apply reject_ok, Z.eqb_neq in Hz. injection H as <- <-. cbn.
    rewrite K1, K2, G1, G2. destruct (lowest_free_fresh (os_fds s)) as [_ Hf]. split_and!; try done.
    + eexists. rewrite <-Hcl in Ho. by symmetry in Ho.
    + by eexists _, _.
    + intros Ha. by apply escapes_prefix.
  - destruct H as (K1 & K2 & K3). cbn in K1, K2. by rewrite K1, K2, delete_insert_fresh, G1, G2.
Qed.

(** Resolving a process or inspecting a scope leaves no descriptor behind. *)
Lemma quiet_inspect h rootPID : quiet (Inspect h rootPID).
Proof.
  unfold Inspect. assert (quiet (root_membership h)) as Hm.
  { intros s s' r. unfold root_membership. destruct (read_membership false s) as [s1 [m|gone]] eqn:E; apply quiet_membership in E.
    - by intros [= <- _].
    - intros Hr. etrans; [done|]. revert Hr. apply quiet_bind; [|intros; apply quiet_ret].
      unfold exited_and_empty. quietly. }
  repeat first [apply Hm | quietly].
Qed.
End Resolution.

(** ** A machine with the Core at [/core] and one scope at [/agent] *)
Definition demo_world : World := {|
  w_done _ := false; w_dup _ := true; w_fstat _ := true; w_open _ := true;
  w_inode _ path := if path == "/sys/fs/cgroup/core" then 1 else 77;
  w_statfs_type _ := Some CGROUP2_SUPER_MAGIC;
  w_readlink _ := Some "/sys/fs/cgroup/agent";
  w_eval_symlinks _ path := Some path;
  w_entries _ := Some ["cgroup.procs"; "cgroup.kill"];
  w_is_dir _ _ := Some false;
  w_open_control _ := None;
  w_write _ := (2%nat, Some 1);
  w_proc_open _ := Ok ("0::/core" +:+ String newline "", None);
  w_events_open _ := Some ("populated 0" +:+ String newline "", false);
  w_read_dir _ _ := Some [("cgroup.procs", false)];
  w_same_namespace _ := Some true;
|}.
Definition demo_os : os := mkOs 0 {[ 4 := FdDir 77 ]} [] [].
Definition demo_request : Request := mkRequest 5000 77 11 22 42 40 SyscallNotObserved.
Definition demo_text (e : ContainError) : string := "containment failed".

Section DemoContain.
#[local] Existing Instance demo_world.

Lemma contain_exact_witness :
  exists s' outcome, Contain (H := linux_backend defaultCgroupRoot) demo_text (Some demo_refused) (Some (false, false)) demo_request demo_os = (s', (outcome, None)) /\
    os_killed s' = [77] /\ size (os_fds s') = 1%nat.
Proof.
  destruct (Contain (H := linux_backend defaultCgroupRoot) demo_text (Some demo_refused) (Some (false, false)) demo_request demo_os) as [s' [outcome err]] eqn:E.
  assert (err = None) as -> by (vm_compute in E; injection E as _ _ <-; reflexivity).
  exists s', outcome. split; [reflexivity|].
  destruct (contain_exact (H1 := linux_laws defaultCgroupRoot) demo_text "/sys/fs/cgroup/core" demo_refused demo_opened
    (Some (false, false)) demo_request demo_os s' outcome None demo_manager_reachable E) as (Hh & _ & _ & Hk & _).
  split; [exact (Hk eq_refl)|]. apply Nat2Z.inj. exact Hh.
Defined.
Lemma ResolvePath_exact_witness :
  exists s' h, ResolvePath defaultCgroupRoot "agent" demo_os = (s', Ok h) /\ Handle_ID h = 77 /\
    components defaultCgroupRoot `prefix_of` components (Handle_Path h).
Proof.
  destruct (ResolvePath defaultCgroupRoot "agent" demo_os) as [s' [h|e]] eqn:E; [|vm_compute in E; discriminate].
  exists s', h. split; [reflexivity|].
  destruct (ResolvePath_exact defaultCgroupRoot "agent" demo_os s' (Ok h) eq_refl E) as (_ & _ & _ & _ & _ & _ & _ & _ & _ & _ & Hp).
  vm_compute in E. injection E as _ <-. split; [reflexivity|]. exact (Hp eq_refl).
Defined.
End DemoContain.
