(* ===== verification/RunStore.v ===== *)
(** * Agent Runs ([RunStore] of [internal/api/registration.go] and
      [internal/api/lifecycle.go], its part of [internal/api/checkpoint.go] and
      of [internal/api/policy_coordinator.go])

    Every method holds the store's lock for its whole body, so a method is one
    atomic step on [RunStore]. *)
From S2P Require Import Prelude GoStd GoTime.
From Stdlib Require Import Floats.SpecFloat.
Open Scope Z_scope.

Definition Labels := option (gmap string string).
Definition cloneLabels (labels : Labels) : Labels := (fun m => list_to_map (map_to_list m)) <$> labels.

Record AgentRun := mkRun {
  Run_RunID : string;
  Run_AgentName : string;
  Run_ContainerID : string;
  Run_CgroupID : Z;
  Run_InstanceID : Z;
  Run_ScopeCookie : Z;
  Run_CgroupPath : string;
  Run_ScopeMode : string;
  Run_RootPID : Z;
  Run_ProfileID : Z;
  Run_Labels : Labels;
  Run_Status : string;
  Run_StatusReason : string;
  Run_RegisteredAt : Time;
  Run_RunExpiry : Time;
  Run_EndedAt : Time;
  Run_TokenHash : string;
  Run_TokenExpiry : Time;
}.
(** The zero value of the struct. *)
Definition no_run : AgentRun := mkRun "" "" "" 0 0 0 "" "" 0 0 None "" "" 0 0 0 "" 0.
Definition with_labels (run : AgentRun) (labels : Labels) : AgentRun :=
  mkRun (Run_RunID run) (Run_AgentName run) (Run_ContainerID run) (Run_CgroupID run) (Run_InstanceID run) (Run_ScopeCookie run)
    (Run_CgroupPath run) (Run_ScopeMode run) (Run_RootPID run) (Run_ProfileID run) labels (Run_Status run) (Run_StatusReason run)
    (Run_RegisteredAt run) (Run_RunExpiry run) (Run_EndedAt run) (Run_TokenHash run) (Run_TokenExpiry run).
Definition with_status (run : AgentRun) (status reason : string) (endedAt : Time) : AgentRun :=
  mkRun (Run_RunID run) (Run_AgentName run) (Run_ContainerID run) (Run_CgroupID run) (Run_InstanceID run) (Run_ScopeCookie run)
    (Run_CgroupPath run) (Run_ScopeMode run) (Run_RootPID run) (Run_ProfileID run) (Run_Labels run) status reason
    (Run_RegisteredAt run) (Run_RunExpiry run) endedAt (Run_TokenHash run) (Run_TokenExpiry run).
Definition cloned (run : AgentRun) : AgentRun := with_labels run (cloneLabels (Run_Labels run)).

Record ScopeIdentity := mkScopeIdentity { Scope_InstanceID : Z; Scope_Cookie : Z }.
#[export] Instance ScopeIdentity_eq_dec : EqDecision ScopeIdentity.
Proof. solve_decision. Defined.
#[export] Instance ScopeIdentity_countable : Countable ScopeIdentity.
Proof.
  refine (inj_countable' (fun i => (Scope_InstanceID i, Scope_Cookie i)) (fun p => mkScopeIdentity p.1 p.2) _). by intros [].
Defined.
Definition ScopeIdentity_Validate (i : ScopeIdentity) : bool := negb ((Scope_InstanceID i =? 0) || (Scope_Cookie i =? 0)).
Definition scopeIdentity (run : AgentRun) : ScopeIdentity := mkScopeIdentity (Run_InstanceID run) (Run_ScopeCookie run).

Record runTombstone := mkTombstone {
  Tombstone_RunID : string;
  Tombstone_RunStatus : string;
  Tombstone_ExpiresAt : Time;
  Tombstone_sequence : Z;
}.

(** Checkpoint state of a Run. *)
Record Checkpoint := mkCheckpoint {
  Checkpoint_ID : string;
  Checkpoint_RunID : string;
  Checkpoint_Sequence : string;
  Checkpoint_IdempotencyKey : string;
  Checkpoint_ServerReceivedMonotonicNS : string;
  Checkpoint_ServerReceivedUnixNS : string;
  Checkpoint_ClockCalibrationErrorNS : string;
  Checkpoint_ClientReportedUnixNS : string;
  Checkpoint_Type : string;
  Checkpoint_Phase : string;
  Checkpoint_ToolName : string;
  Checkpoint_Summary : string;
  Checkpoint_Labels : Labels;
  Checkpoint_Metadata : Labels;
  Checkpoint_Source : string;
}.
Record checkpointEnvelope := mkEnvelope {
  Envelope_record : Checkpoint;
  Envelope_fingerprint : string;
  Envelope_retainedBytes : Z;
}.
(** [rateTokens] is a [float64]. *)
Record checkpointRunState := mkCheckpointState {
  State_nextSequence : Z;
  State_bySequence : gmap Z checkpointEnvelope;
  State_byKey : gmap string checkpointEnvelope;
  State_rateTokens : spec_float;
  State_rateUpdated : Z;
  State_retainedBytes : Z;
}.

Record RunStore := mkStore {
  store_runs : gmap string AgentRun;
  store_activeByCgroup : gmap Z string;
  store_latestByCgroup : gmap Z string;
  store_liveByIdentity : gmap ScopeIdentity string;
  store_terminating : gset string;
  store_tombstones : gmap ScopeIdentity runTombstone;
  store_tombstoneSeq : Z;
  store_checkpoints : gmap string checkpointRunState;
  store_checkpointBytes : Z;
}.
Definition NewRunStore : RunStore := mkStore ∅ ∅ ∅ ∅ ∅ ∅ 0 ∅ 0.

Definition set_tombstones (s : RunStore) (tombstones : gmap ScopeIdentity runTombstone) : RunStore :=
  mkStore (store_runs s) (store_activeByCgroup s) (store_latestByCgroup s) (store_liveByIdentity s) (store_terminating s)
    tombstones (store_tombstoneSeq s) (store_checkpoints s) (store_checkpointBytes s).
Definition set_terminating (s : RunStore) (terminating : gset string) : RunStore :=
  mkStore (store_runs s) (store_activeByCgroup s) (store_latestByCgroup s) (store_liveByIdentity s) terminating
    (store_tombstones s) (store_tombstoneSeq s) (store_checkpoints s) (store_checkpointBytes s).
Definition set_checkpoints (s : RunStore) (checkpoints : gmap string checkpointRunState) (bytes : Z) : RunStore :=
  mkStore (store_runs s) (store_activeByCgroup s) (store_latestByCgroup s) (store_liveByIdentity s) (store_terminating s)
    (store_tombstones s) (store_tombstoneSeq s) checkpoints bytes.

(** ** Tombstones *)
Definition pruneTombstonesLocked (s : RunStore) (now : Time) : RunStore :=
  if IsZero now then s
  else set_tombstones s (filter (fun kt => Before now (Tombstone_ExpiresAt kt.2) = true) (store_tombstones s)).

(** The loop of [evictOldestTombstoneLocked] over the map: the oldest so far. *)
Definition older (found : option (ScopeIdentity * Z)) (kt : ScopeIdentity * runTombstone) : option (ScopeIdentity * Z) :=
  match found with
  | Some (_, oldestSequence) =>
      if Tombstone_sequence kt.2 <? oldestSequence then Some (kt.1, Tombstone_sequence kt.2) else found
  | None => Some (kt.1, Tombstone_sequence kt.2)
  end.
Definition oldest_tombstone (ts : gmap ScopeIdentity runTombstone) : option (ScopeIdentity * Z) :=
  foldl older None (map_to_list ts).
Definition evictOldestTombstoneLocked (s : RunStore) : RunStore :=
  match oldest_tombstone (store_tombstones s) with
  | Some (identity, _) => set_tombstones s (delete identity (store_tombstones s))
  | None => s
  end.
(** [for len(store.tombstones) >= maxEntries]; the fuel is the size of the
    map, see [evict_until_enough]. *)
Fixpoint evict_until (fuel : nat) (s : RunStore) (maxEntries : Z) : RunStore :=
  if Z.of_nat (size (store_tombstones s)) <? maxEntries then s
  else match fuel with
       | O => s
       | S f => evict_until f (evictOldestTombstoneLocked s) maxEntries
       end.

Definition dropCheckpointStateLocked (s : RunStore) (runID : string) : RunStore :=
  match store_checkpoints s !! runID with
  | None => s
  | Some state =>
      let bytes := store_checkpointBytes s - State_retainedBytes state in
      set_checkpoints s (delete runID (store_checkpoints s)) (if bytes <? 0 then 0 else bytes)
  end.

(** ** Operations *)
Inductive AddError := RunIDExists | IdentityIncomplete | ErrScopeIdentityCollision | ActiveRunExists.
(** The maps and the run, once the checks have passed. *)
Definition insert_run (s : RunStore) (run : AgentRun) (active : bool) : RunStore :=
  mkStore (<[Run_RunID run := cloned run]> (store_runs s))
    (if active then <[Run_CgroupID run := Run_RunID run]> (store_activeByCgroup s) else store_activeByCgroup s)
    (<[Run_CgroupID run := Run_RunID run]> (store_latestByCgroup s))
    (if active then <[scopeIdentity run := Run_RunID run]> (store_liveByIdentity s) else store_liveByIdentity s)
    (store_terminating s) (store_tombstones s) (store_tombstoneSeq s) (store_checkpoints s) (store_checkpointBytes s).
Definition Add (s : RunStore) (run : AgentRun) : RunStore * option AddError :=
  if is_some (store_runs s !! Run_RunID run) then (s, Some RunIDExists)
  else if Run_Status run == "active" then
    let identity := scopeIdentity run in
    if negb (ScopeIdentity_Validate identity) then (s, Some IdentityIncomplete)
    else
      let s := pruneTombstonesLocked s (Run_RegisteredAt run) in
      if is_some (store_liveByIdentity s !! identity) then (s, Some ErrScopeIdentityCollision)
      else if is_some (store_tombstones s !! identity) then (s, Some ErrScopeIdentityCollision)
      else if is_some (store_activeByCgroup s !! Run_CgroupID run) then (s, Some ActiveRunExists)
      else (insert_run s run true, None)
  else (insert_run s run false, None).

Definition Get (s : RunStore) (runID : string) : option AgentRun := cloned <$> store_runs s !! runID.
Definition Len (s : RunStore) : Z := Z.of_nat (size (store_runs s)).
(** A Go map reads a missing run as the zero value. *)
Definition run_or_zero (s : RunStore) (runID : string) : AgentRun := default no_run (store_runs s !! runID).

(** The run, and whether it is active. *)
Definition monitoredRunForCgroup (s : RunStore) (cgroupID : Z) : option (AgentRun * bool) :=
  match store_activeByCgroup s !! cgroupID with
  | Some runID => Some (cloned (run_or_zero s runID), true)
  | None => (fun runID => (cloned (run_or_zero s runID), false)) <$> store_latestByCgroup s !! cgroupID
  end.

Definition FailScope (s : RunStore) (cgroupID : Z) (reason : string) : RunStore * option (AgentRun * bool) :=
  match store_activeByCgroup s !! cgroupID with
  | Some runID =>
      let run := run_or_zero s runID in
      let run := with_status run "failed" reason (Run_EndedAt run) in
      let s := mkStore (<[runID := run]> (store_runs s)) (delete cgroupID (store_activeByCgroup s)) (store_latestByCgroup s)
        (store_liveByIdentity s) (store_terminating s) (store_tombstones s) (store_tombstoneSeq s) (store_checkpoints s) (store_checkpointBytes s) in
      (dropCheckpointStateLocked s runID, Some (cloned run, true))
  | None => (s, (fun runID => (cloned (run_or_zero s runID), false)) <$> store_latestByCgroup s !! cgroupID)
  end.

Inductive TerminationError := ErrRunNotFound | ErrRunNotLive | ErrRunTerminationPending.
(** The run and whether the caller must unregister its scope. *)
Definition beginTermination (s : RunStore) (runID : string) : RunStore * result TerminationError (AgentRun * bool) :=
  match store_runs s !! runID with
  | None => (s, Err ErrRunNotFound)
  | Some run =>
      if negb (IsZero (Run_EndedAt run)) then (s, Ok (cloned run, false))
      else if bool_decide (runID ∈ store_terminating s) then (s, Err ErrRunTerminationPending)
      else if negb (bool_decide (store_liveByIdentity s !! scopeIdentity run = Some runID)) then (s, Err ErrRunNotLive)
      else (set_terminating s ({[runID]} ∪ store_terminating s), Ok (cloned run, true))
  end.
Definition abortTermination (s : RunStore) (runID : string) : RunStore := set_terminating s (store_terminating s ∖ {[runID]}).

Definition terminated (run : AgentRun) (terminalStatus terminalReason : string) (endedAt : Time) : AgentRun :=
  with_status run
    (if (terminalStatus == "expired") || (Run_Status run == "active") then terminalStatus else Run_Status run)
    (if terminalReason != "" then terminalReason else Run_StatusReason run) endedAt.
Definition completeTermination (s : RunStore) (runID terminalStatus terminalReason : string) (endedAt ttl maxEntries : Z) : RunStore * result TerminationError AgentRun :=
  match store_runs s !! runID with
  | None => (s, Err ErrRunNotFound)
  | Some run =>
      if negb (bool_decide (runID ∈ store_terminating s)) then (s, Err ErrRunTerminationPending)
      else
        let identity := scopeIdentity run in
        let run := terminated run terminalStatus terminalReason endedAt in
        let s := mkStore (<[runID := run]> (store_runs s))
          (if store_activeByCgroup s !! Run_CgroupID run == Some runID then delete (Run_CgroupID run) (store_activeByCgroup s)
           else store_activeByCgroup s)
          (store_latestByCgroup s) (delete identity (store_liveByIdentity s)) (store_terminating s ∖ {[runID]})
          (store_tombstones s) (store_tombstoneSeq s) (store_checkpoints s) (store_checkpointBytes s) in
        let s := dropCheckpointStateLocked s runID in
        let s := pruneTombstonesLocked s endedAt in
        let s := evict_until (size (store_tombstones s)) s maxEntries in
        let seq := wrap64 (store_tombstoneSeq s + 1) in
        (mkStore (store_runs s) (store_activeByCgroup s) (store_latestByCgroup s) (store_liveByIdentity s) (store_terminating s)
           (<[identity := mkTombstone runID (Run_Status run) (endedAt + ttl) seq]> (store_tombstones s)) seq
           (store_checkpoints s) (store_checkpointBytes s),
         Ok (cloned run))
  end.

(** In some order. *)
Definition expiredActiveRunIDs (s : RunStore) (now : Time) : list string :=
  map fst (List.filter (fun kr => (Run_Status kr.2 == "active") && negb (IsZero (Run_RunExpiry kr.2)) && negb (Before now (Run_RunExpiry kr.2)))
    (map_to_list (store_runs s))).

Definition LifecycleStatus := string.
Definition LifecycleExact : LifecycleStatus := "exact".
Definition LifecycleStale : LifecycleStatus := "stale".
Definition LifecycleUnknown : LifecycleStatus := "unknown".
Record EventAttribution := mkEventAttribution {
  EventAttribution_RunID : string;
  EventAttribution_RunStatus : string;
  EventAttribution_Status : LifecycleStatus;
}.
Definition attribute (s : RunStore) (identity : ScopeIdentity) (currentInstanceID : Z) (now : Time) : RunStore * EventAttribution :=
  let s := pruneTombstonesLocked s now in
  (s, match store_liveByIdentity s !! identity with
      | Some runID => mkEventAttribution runID (Run_Status (run_or_zero s runID)) LifecycleExact
      | None =>
          match store_tombstones s !! identity with
          | Some t => mkEventAttribution (Tombstone_RunID t) (Tombstone_RunStatus t) LifecycleExact
          | None =>
              if (Scope_InstanceID identity =? currentInstanceID) && negb (currentInstanceID =? 0)
              then mkEventAttribution "" "" LifecycleStale
              else mkEventAttribution "" "" LifecycleUnknown
          end
      end).

Definition activeRunForPolicyEvent (s : RunStore) (cgroupID instanceID scopeCookie : Z) : option AgentRun :=
  if (cgroupID =? 0) || (instanceID =? 0) || (scopeCookie =? 0) then None
  else
    let identity := mkScopeIdentity instanceID scopeCookie in
    match store_liveByIdentity s !! identity with
    | None => None
    | Some runID =>
        if bool_decide (runID ∈ store_terminating s) then None
        else match store_runs s !! runID with
             | None => None
             | Some run =>
                 if (Run_Status run != "active") || negb (Run_CgroupID run =? cgroupID) || (scopeIdentity run != identity)
                 then None else Some (cloned run)
             end
    end.

(** ** Lemmas *)
Lemma cloneLabels_id labels : cloneLabels labels = labels.
Proof. destruct labels as [m|]; [|done]. cbn. by rewrite list_to_map_to_list. Qed.
Lemma cloned_id run : cloned run = run.
Proof. unfold cloned. rewrite cloneLabels_id. by destruct run. Qed.

Lemma foldl_older l : forall found,
  match foldl older found l with
  | None => found = None /\ l = []
  | Some (i, seq) => (found = Some (i, seq) \/ exists t, (i, t) ∈ l /\ Tombstone_sequence t = seq) /\
      (forall j n, found = Some (j, n) -> seq <= n) /\ forall j t, (j, t) ∈ l -> seq <= Tombstone_sequence t
  end.
Proof.
  induction l as [|[j t] l IH]; intros found; cbn [foldl].
  - destruct found as [[i seq]|]; [|done]. split_and!; [by left|intros ? ? [= <- <-]; lia|set_solver].
  - specialize (IH (older found (j, t))). destruct (foldl older _ l) as [[i seq]|].
    + destruct IH as (H1 & H2 & H3). unfold older in H1, H2. cbn in H1, H2.
      destruct found as [[k n]|]; [destruct (Z.ltb_spec (Tombstone_sequence t) n)|].
      * specialize (H2 _ _ eq_refl). split_and!.
        -- right. destruct H1 as [[= <- <-]|(t' & ? & ?)]; [exists t|exists t']; set_solver.
        -- intros ? ? [= <- <-]. lia.
        -- intros j' t' [[= -> ->]|?]%elem_of_cons; [lia|eauto].
      * specialize (H2 _ _ eq_refl). split_and!.
        -- destruct H1 as [?|(t' & ? & ?)]; [by left|right; exists t'; set_solver].
        -- intros ? ? [= <- <-]. lia.
        -- intros j' t' [[= -> ->]|?]%elem_of_cons; [lia|eauto].
      * specialize (H2 _ _ eq_refl). split_and!; [|done|].
        -- right. destruct H1 as [[= <- <-]|(t' & ? & ?)]; [exists t|exists t']; set_solver.
        -- intros j' t' [[= -> ->]|?]%elem_of_cons; [lia|eauto].
    + destruct IH as [IH _]. unfold older in IH. destruct found as [[k n]|]; [destruct (_ <? _)|]; done.
Qed.
(** The evicted tombstone is the oldest one. *)
Lemma oldest_tombstone_spec ts :
  match oldest_tombstone ts with
  | None => ts = ∅
  | Some (i, seq) => exists t, ts !! i = Some t /\ forall j t', ts !! j = Some t' -> Tombstone_sequence t <= Tombstone_sequence t'
  end.
Proof.
  unfold oldest_tombstone. pose proof (foldl_older (map_to_list ts) None) as H. destruct (foldl older None _) as [[i seq]|].
  - destruct H as ([?|(t & Hin & <-)] & _ & Hmin); [done|]. exists t. apply elem_of_map_to_list in Hin. split; [done|].
    intros j t' Hj. eapply Hmin. by apply elem_of_map_to_list.
  - destruct H as [_ H]. by apply map_to_list_empty_iff.
Qed.
Lemma evict_size s : store_tombstones s <> ∅ ->
  size (store_tombstones (evictOldestTombstoneLocked s)) = pred (size (store_tombstones s)).
Proof.
  intros Hne. unfold evictOldestTombstoneLocked. pose proof (oldest_tombstone_spec (store_tombstones s)) as H.
  destruct (oldest_tombstone _) as [[i seq]|]; [|done]. destruct H as (t & Ht & _). cbn. by rewrite map_size_delete, Ht.
Qed.
(** The loop ends within the size of the map and leaves room for one more. *)
Lemma evict_until_enough fuel : forall s maxEntries, 1 <= maxEntries -> (size (store_tombstones s) <= fuel)%nat ->
  Z.of_nat (size (store_tombstones (evict_until fuel s maxEntries))) < maxEntries.
Proof.
  induction fuel as [|fuel IH]; intros s mx Hm Hf; cbn [evict_until]; destruct (Z.ltb_spec (Z.of_nat (size (store_tombstones s))) mx); try lia.
  apply IH; [done|]. rewrite evict_size; [lia|]. intros E. rewrite E, map_size_empty in *. lia.
Qed.
(** Eviction only removes tombstones. *)
Lemma evict_until_sub fuel : forall s maxEntries, exists ts, evict_until fuel s maxEntries = set_tombstones s ts /\ ts ⊆ store_tombstones s.
Proof.
  assert (forall s, set_tombstones s (store_tombstones s) = s) as Hid by (by intros []).
  induction fuel as [|fuel IH]; intros s mx; cbn [evict_until]; destruct (_ <? mx); try (exists (store_tombstones s); by rewrite Hid).
  destruct (IH (evictOldestTombstoneLocked s) mx) as (ts & -> & Hs). exists ts.
  unfold evictOldestTombstoneLocked in *. destruct (oldest_tombstone _) as [[i seq]|]; [|done]. split; [done|].
  etrans; [exact Hs|]. cbn. apply delete_subseteq.
Qed.

(** ** The invariant *)
Definition total (f : checkpointRunState -> Z) (m : gmap string checkpointRunState) : Z :=
  foldr Z.add 0 (map (fun kv => f kv.2) (map_to_list m)).
Lemma foldr_add_perm l l' : l ≡ₚ l' -> foldr Z.add 0 l = foldr Z.add 0 l'.
Proof. induction 1; cbn; lia. Qed.
Lemma total_insert f m k v : m !! k = None -> total f (<[k := v]> m) = f v + total f m.
Proof. intros Hn. unfold total. by rewrite (foldr_add_perm _ _ (fmap_Permutation _ _ _ (map_to_list_insert m k v Hn))). Qed.
Lemma total_lookup f m k v : m !! k = Some v -> total f m = f v + total f (delete k m).
Proof. intros Hv. rewrite <-(insert_delete_id m k v Hv) at 1. apply total_insert, lookup_delete_eq. Qed.
Lemma total_update f m k v v' : m !! k = Some v -> total f (<[k := v']> m) = total f m - f v + f v'.
Proof.
  intros Hv. rewrite <-insert_delete_eq, total_insert, (total_lookup f m k v Hv) by apply lookup_delete_eq. lia.
Qed.
Lemma total_nonneg f m : (forall k v, m !! k = Some v -> 0 <= f v) -> 0 <= total f m.
Proof.
  induction m as [|k v m Hn IH] using map_ind; intros Hf; [done|]. rewrite total_insert by done.
  assert (0 <= f v) by (apply (Hf k); apply lookup_insert_eq). enough (0 <= total f m) by lia.
  apply IH. intros k' v' Hk. apply (Hf k'). rewrite lookup_insert_ne; [done|]. intros ->. by rewrite Hn in Hk.
Qed.

Lemma total_sub f m m' : (forall k v, m !! k = Some v -> 0 <= f v) -> m' ⊆ m -> total f m' <= total f m.
Proof.
  revert m. induction m' as [|k v m' Hn IH] using map_ind; intros m Hf Hs; [by apply total_nonneg|].
  assert (m !! k = Some v) as Hk by (apply (lookup_weaken _ _ _ _ (lookup_insert_eq m' k v) Hs)).
  rewrite total_insert, (total_lookup f m k v Hk) by done. enough (total f m' <= total f (delete k m)) by lia.
  apply IH; [intros k' v' [_ Hk']%lookup_delete_Some; by apply (Hf k')|].
  rewrite <-(delete_id m' k Hn), <-(delete_insert_eq m' k v). by apply delete_mono.
Qed.

Definition ended (run : AgentRun) : Prop := Run_EndedAt run <> 0.
Definition live_run (s : RunStore) (runID : string) (run : AgentRun) : Prop := store_runs s !! runID = Some run /\ ~ ended run.

Record store_ok (s : RunStore) : Prop := {
  ok_ids runID run : store_runs s !! runID = Some run -> Run_RunID run = runID /\ ScopeIdentity_Validate (scopeIdentity run) = true;
  (** Live identities are exactly those of the runs that have not ended. *)
  ok_live identity runID : store_liveByIdentity s !! identity = Some runID <->
    exists run, live_run s runID run /\ scopeIdentity run = identity;
  (** The active run of a cgroup is its only run with status [active]. *)
  ok_active cgroupID runID : store_activeByCgroup s !! cgroupID = Some runID <->
    exists run, live_run s runID run /\ Run_CgroupID run = cgroupID /\ Run_Status run = "active";
  ok_status runID run : store_runs s !! runID = Some run -> Run_Status run = "active" -> ~ ended run;
  ok_terminating runID : runID ∈ store_terminating s -> exists run, live_run s runID run;
  ok_tombstones identity t : store_tombstones s !! identity = Some t ->
    store_liveByIdentity s !! identity = None /\
    exists run, store_runs s !! Tombstone_RunID t = Some run /\ scopeIdentity run = identity /\ ended run /\ Run_Status run = Tombstone_RunStatus t;
  (** Checkpoint state exists only for active runs, and its bytes are counted. *)
  ok_checkpoints runID state : store_checkpoints s !! runID = Some state ->
    0 <= State_retainedBytes state /\ exists run, live_run s runID run /\ Run_Status run = "active";
  ok_bytes : store_checkpointBytes s = total State_retainedBytes (store_checkpoints s);
}.

Lemma store_ok_new : store_ok NewRunStore.
Proof.
  split; cbn; try (intros; rewrite lookup_empty in *; done); try done.
  - intros i r. rewrite lookup_empty. split; [done|]. intros (run & [Hr _] & _). cbn in Hr. by rewrite lookup_empty in Hr.
  - intros c r. rewrite lookup_empty. split; [done|]. intros (run & [Hr _] & _). cbn in Hr. by rewrite lookup_empty in Hr.
Qed.

(** Dropping tombstones keeps everything else. *)
Lemma set_tombstones_ok s ts : ts ⊆ store_tombstones s -> store_ok s -> store_ok (set_tombstones s ts).
Proof.
  intros Hsub [H1 H2 H3 H4 H5 H6 H7 H8]. split; cbn; try done.
  intros i t Ht. apply (H6 i t). by apply (lookup_weaken _ _ _ _ Ht).
Qed.
Lemma prune_sub s now : exists ts, pruneTombstonesLocked s now = set_tombstones s ts /\ ts ⊆ store_tombstones s.
Proof.
  unfold pruneTombstonesLocked. destruct (IsZero now); [exists (store_tombstones s); split; [by destruct s|done]|].
  eexists. split; [done|]. apply map_filter_subseteq.
Qed.
Lemma prune_ok s now : store_ok s -> store_ok (pruneTombstonesLocked s now).
Proof. destruct (prune_sub s now) as (ts & -> & Hs). by apply set_tombstones_ok. Qed.

(** Two live runs with one identity are one run. *)
Lemma live_unique s r1 r2 run1 run2 : store_ok s -> live_run s r1 run1 -> live_run s r2 run2 ->
  scopeIdentity run1 = scopeIdentity run2 -> r1 = r2.
Proof.
  intros Hok L1 L2 E. assert (store_liveByIdentity s !! scopeIdentity run1 = Some r1) as E1 by (apply (ok_live s Hok); eauto).
  assert (store_liveByIdentity s !! scopeIdentity run1 = Some r2) as E2 by (apply (ok_live s Hok); eauto). congruence.
Qed.
Lemma active_unique s r1 r2 run1 run2 : store_ok s -> live_run s r1 run1 -> live_run s r2 run2 ->
  Run_Status run1 = "active" -> Run_Status run2 = "active" -> Run_CgroupID run1 = Run_CgroupID run2 -> r1 = r2.
Proof.
  intros Hok L1 L2 A1 A2 E. assert (store_activeByCgroup s !! Run_CgroupID run1 = Some r1) as E1 by (apply (ok_active s Hok); eauto).
  assert (store_activeByCgroup s !! Run_CgroupID run1 = Some r2) as E2 by (apply (ok_active s Hok); eauto). congruence.
Qed.

Lemma live_run_insert s rid run runs' : store_runs s !! rid = None -> runs' = <[rid := run]> (store_runs s) -> ~ ended run ->
  forall r x, (runs' !! r = Some x /\ ~ ended x) <-> (r = rid /\ x = run) \/ live_run s r x.
Proof.
  intros Hn -> He r x. unfold live_run. rewrite lookup_insert_Some. split.
  - intros [[[<- <-]|[_ Hr]] Hx]; auto.
  - intros [[-> ->]|[Hr Hx]]; [auto|]. split; [|done]. right. split; [|done]. intros <-. by rewrite Hn in Hr.
Qed.
Lemma insert_run_ok s run : store_ok s -> store_runs s !! Run_RunID run = None -> ScopeIdentity_Validate (scopeIdentity run) = true ->
  Run_Status run = "active" -> ~ ended run -> store_liveByIdentity s !! scopeIdentity run = None ->
  store_tombstones s !! scopeIdentity run = None -> store_activeByCgroup s !! Run_CgroupID run = None ->
  store_ok (insert_run s run true).
Proof.
  intros Hok Hn Hv Ha He Hl Ht Hc. pose proof Hok as [H1 H2 H3 H4 H5 H6 H7 H8]. unfold insert_run. rewrite cloned_id.
  pose proof (live_run_insert s (Run_RunID run) run _ Hn eq_refl He) as HL.
  assert (forall r x, live_run s r x -> r <> Run_RunID run) as Hfresh by (intros r x [Hr _] ->; by rewrite Hn in Hr).
  split; cbn; try done.
  - intros r x. rewrite lookup_insert_Some. intros [[<- <-]|[_ Hr]]; [done|by apply H1].
  - intros i r. unfold live_run at 1. cbn. setoid_rewrite HL. rewrite lookup_insert_Some. split.
    + intros [[<- <-]|[Hi Hr]]; [exists run; auto|]. apply H2 in Hr as (x & Hx & Hi'). exists x. auto.
    + intros (x & [[-> ->]|Hx] & <-); [by left|]. right. assert (store_liveByIdentity s !! scopeIdentity x = Some r) as Hx' by (apply H2; eauto).
      split; [|done]. intros E. by rewrite <-E, Hl in Hx'.
  - intros c r. unfold live_run at 1. cbn. setoid_rewrite HL. rewrite lookup_insert_Some. split.
    + intros [[<- <-]|[Hi Hr]]; [exists run; auto|]. apply H3 in Hr as (x & Hx & Hi'). exists x. auto.
    + intros (x & [[-> ->]|Hx] & <- & Hst); [by left|]. right. assert (store_activeByCgroup s !! Run_CgroupID x = Some r) as Hx' by (apply H3; eauto).
      split; [|done]. intros E. by rewrite <-E, Hc in Hx'.
  - intros r x. rewrite lookup_insert_Some. intros [[<- <-]|[_ Hr]]; [done|by apply (H4 r)].
  - intros r Hr. apply H5 in Hr as (x & Hx). exists x. unfold live_run. cbn. apply HL. auto.
  - intros i t Hi. destruct (H6 i t Hi) as (Hlv & x & Hx & Hix & Hex & Hsx). split.
    + rewrite lookup_insert_None. split; [done|]. intros <-. congruence.
    + exists x. rewrite lookup_insert_ne; [done|]. intros E. rewrite <-E in Hx. congruence.
  - intros r st Hr. destruct (H7 r st Hr) as (Hb & x & Hx & Hsx). split; [done|]. exists x. unfold live_run. cbn. split; [apply HL; auto|done].
Qed.

(** Failures of [Add] change at most the expired tombstones; success adds
    exactly the run. *)
Lemma Add_cases s run s' e : Add s run = (s', e) -> Run_Status run = "active" ->
  exists ts, ts ⊆ store_tombstones s /\
  match e with
  | Some _ => s' = set_tombstones s ts \/ s' = s
  | None => s' = insert_run (set_tombstones s ts) run true /\ store_runs s !! Run_RunID run = None /\
      ScopeIdentity_Validate (scopeIdentity run) = true /\ store_liveByIdentity s !! scopeIdentity run = None /\
      ts !! scopeIdentity run = None /\ store_activeByCgroup s !! Run_CgroupID run = None
  end.
Proof.
  unfold Add. intros H Ha. destruct (is_some _) eqn:E1; [injection H as <- <-; exists (store_tombstones s); auto|].
  rewrite Ha, bool_decide_eq_true_2 in H by done. cbv zeta in H.
  destruct (ScopeIdentity_Validate _) eqn:E2; cbn [negb] in H; [|injection H as <- <-; exists (store_tombstones s); auto].
  destruct (prune_sub s (Run_RegisteredAt run)) as (ts & Ep & Hs). rewrite Ep in H. exists ts. cbn in H.
  destruct (is_some (store_liveByIdentity s !! _)) eqn:E3; [injection H as <- <-; auto|].
  destruct (is_some (ts !! _)) eqn:E4; [injection H as <- <-; auto|].
  destruct (is_some (store_activeByCgroup s !! _)) eqn:E5; injection H as <- <-; [auto|].
  apply is_some_false in E1, E3, E4, E5. auto 10.
Qed.
Lemma Add_ok s run s' e : store_ok s -> Run_Status run = "active" -> ~ ended run -> Add s run = (s', e) -> store_ok s'.
Proof.
  intros Hok Ha He H. apply Add_cases in H as (ts & Hs & H); [|done]. destruct e as [e|].
  - destruct H as [-> | ->]; [by apply set_tombstones_ok|done].
  - destruct H as (-> & H1 & H2 & H3 & H4 & H5). apply insert_run_ok; try done. by apply set_tombstones_ok.
Qed.

(** *** Termination *)
Lemma set_terminating_ok s ts : (forall r, r ∈ ts -> exists run, live_run s r run) -> store_ok s -> store_ok (set_terminating s ts).
Proof. intros Ht [H1 H2 H3 H4 H5 H6 H7 H8]. by split. Qed.
Lemma beginTermination_cases s runID s' r : beginTermination s runID = (s', r) -> store_ok s ->
  match r with
  | Ok (run, false) => s' = s /\ store_runs s !! runID = Some run /\ ended run
  | Ok (run, true) => live_run s runID run /\ runID ∉ store_terminating s /\ s' = set_terminating s ({[runID]} ∪ store_terminating s)
  | Err ErrRunNotFound => s' = s /\ store_runs s !! runID = None
  | Err ErrRunTerminationPending => s' = s /\ runID ∈ store_terminating s
  | Err ErrRunNotLive => False
  end.
Proof.
  unfold beginTermination. intros H Hok. destruct (store_runs s !! runID) as [run|] eqn:Er; [|by injection H as <- <-].
  rewrite cloned_id in H. unfold IsZero in H. destruct (Z.eqb_spec (Run_EndedAt run) 0) as [E|E]; cbn [negb] in H;
    [|injection H as <- <-; done].
  case_bool_decide as Et; [by injection H as <- <-|].
  assert (live_run s runID run) as Hl by (by split; [|unfold ended; lia]).
  rewrite bool_decide_eq_true_2 in H by (apply (ok_live s Hok); eauto). by injection H as <- <-.
Qed.
Lemma beginTermination_ok s runID s' r : beginTermination s runID = (s', r) -> store_ok s -> store_ok s'.
Proof.
  intros H Hok. pose proof (beginTermination_cases _ _ _ _ H Hok) as Hc. destruct r as [[run [|]]|[| |]].
  all: try (destruct Hc as (-> & _); done); try done.
  destruct Hc as (Hl & _ & ->). apply set_terminating_ok; [|done]. intros r [->%elem_of_singleton|Hr]%elem_of_union; [eauto|].
  by apply (ok_terminating s).
Qed.
Lemma abortTermination_ok s runID : store_ok s -> store_ok (abortTermination s runID).
Proof. intros Hok. apply set_terminating_ok; [|done]. intros r [Hr _]%elem_of_difference. by apply (ok_terminating s). Qed.

(** The counter never drops below the bytes the other runs retain. *)
Lemma drop_checkpoints s runID : store_ok s ->
  dropCheckpointStateLocked s runID =
    set_checkpoints s (delete runID (store_checkpoints s)) (total State_retainedBytes (delete runID (store_checkpoints s))).
Proof.
  intros Hok. unfold dropCheckpointStateLocked. destruct (store_checkpoints s !! runID) as [st|] eqn:E.
  - rewrite (ok_bytes s Hok), (total_lookup _ _ _ _ E). f_equal. destruct (Z.ltb_spec (State_retainedBytes st + total State_retainedBytes (delete runID (store_checkpoints s)) - State_retainedBytes st) 0) as [Hneg|]; [|lia].
    exfalso. enough (0 <= total State_retainedBytes (delete runID (store_checkpoints s))) by lia.
    apply total_nonneg. intros k v [_ Hk]%lookup_delete_Some. by apply (ok_checkpoints s Hok) in Hk as [? _].
  - rewrite delete_id by done. rewrite <-(ok_bytes s Hok). by destruct s.
Qed.
Lemma set_checkpoints_ok s cps : store_ok s ->
  (forall r st, cps !! r = Some st -> 0 <= State_retainedBytes st /\ exists run, live_run s r run /\ Run_Status run = "active") ->
  store_ok (set_checkpoints s cps (total State_retainedBytes cps)).
Proof. intros [H1 H2 H3 H4 H5 H6 H7 H8] Hc. by split. Qed.
Lemma drop_ok s runID : store_ok s -> store_ok (dropCheckpointStateLocked s runID).
Proof.
  intros Hok. rewrite drop_checkpoints by done. apply set_checkpoints_ok; [done|].
  intros r st [_ Hr]%lookup_delete_Some. by apply (ok_checkpoints s Hok).
Qed.

Definition replace_run (s : RunStore) (runID : string) (run : AgentRun) (active : gmap Z string) (live : gmap ScopeIdentity string) (terminating : gset string) : RunStore :=
  mkStore (<[runID := run]> (store_runs s)) active (store_latestByCgroup s) live terminating
    (store_tombstones s) (store_tombstoneSeq s) (store_checkpoints s) (store_checkpointBytes s).
Lemma replace_drop s runID run active live terminating id :
  dropCheckpointStateLocked (replace_run s runID run active live terminating) id =
    replace_run (dropCheckpointStateLocked s id) runID run active live terminating.
Proof. unfold dropCheckpointStateLocked. cbn. by destruct (store_checkpoints s !! id). Qed.

(** What is common to the two ways an active or failed run changes: it is no
    longer active, and it may have ended. *)
Section Replace.
Context (s : RunStore) (runID : string) (run run' : AgentRun).
Context (Hok : store_ok s) (Hlive : live_run s runID run) (Hid : Run_RunID run' = Run_RunID run).
Context (Hscope : scopeIdentity run' = scopeIdentity run) (Hst : Run_Status run' <> "active").
Context (Hcp : store_checkpoints s !! runID = None).

Lemma replaced_other r x : (<[runID := run']> (store_runs s) !! r = Some x /\ ~ ended x) <->
  (r = runID /\ x = run' /\ ~ ended run') \/ (r <> runID /\ live_run s r x).
Proof.
  unfold live_run. rewrite lookup_insert_Some. split.
  - intros [[[<- <-]|[? ?]] ?]; [left|right]; auto.
  - intros [(-> & -> & ?)|(? & ? & ?)]; auto.
Qed.
Lemma replaced_active (active : gmap Z string) : (forall c r, active !! c = Some r <-> store_activeByCgroup s !! c = Some r /\ r <> runID) ->
  forall c r, active !! c = Some r <-> exists x, (<[runID := run']> (store_runs s) !! r = Some x /\ ~ ended x) /\ Run_CgroupID x = c /\ Run_Status x = "active".
Proof.
  intros Ha c r. rewrite Ha, (ok_active s Hok). setoid_rewrite replaced_other. split.
  - intros ((x & Hx & Hc & Hs) & Hne). exists x. auto.
  - intros (x & [(-> & -> & _)|[Hne Hx]] & Hc & Hs); [done|]. split; [|done]. eauto.
Qed.
Lemma replace_ok (active : gmap Z string) (live : gmap ScopeIdentity string) (terminating : gset string) :
  (forall c r, active !! c = Some r <-> store_activeByCgroup s !! c = Some r /\ r <> runID) ->
  (forall i r, live !! i = Some r <-> store_liveByIdentity s !! i = Some r /\ (r = runID -> ~ ended run')) ->
  (forall r, r ∈ terminating -> r ∈ store_terminating s /\ (r = runID -> ~ ended run')) ->
  store_ok (replace_run s runID run' active live terminating).
Proof.
  intros Ha Hl Ht. pose proof Hok as [H1 H2 H3 H4 H5 H6 H7 H8]. destruct Hlive as [Hr Hne].
  assert (forall r x, store_runs s !! r = Some x -> ended x -> r <> runID) as Hend by (intros r x Hx Hex ->; rewrite Hr in Hx; injection Hx as <-; done).
  split; cbn; try done.
  - intros r x. rewrite lookup_insert_Some. intros [[<- <-]|[_ Hx]]; [|by apply H1]. rewrite Hid, Hscope. by apply H1.
  - intros i r. rewrite Hl, H2. unfold live_run at 2. cbn. setoid_rewrite replaced_other. split.
    + intros ((x & Hx & Hi) & He). destruct (decide (r = runID)) as [->|Hn]; [|exists x; auto].
      exists run'. destruct Hx as [Hx _]. rewrite Hr in Hx. injection Hx as <-. rewrite Hscope. split; [|done]. left. split_and!; [done|done|by apply He].
    + intros (x & [(-> & -> & He)|[Hn Hx]] & Hi); [|split; [eauto|done]]. rewrite Hscope in Hi. split; [|done]. exists run. auto.
  - unfold live_run. cbn. by apply replaced_active.
  - intros r x. rewrite lookup_insert_Some. intros [[<- <-]|[_ Hx]]; [done|by apply (H4 r)].
  - intros r Hin. destruct (Ht r Hin) as [Hin' He]. apply H5 in Hin' as (x & Hx). unfold live_run. cbn. setoid_rewrite replaced_other.
    destruct (decide (r = runID)) as [->|Hn]; [exists run'|exists x]; auto.
  - intros i t Hi. destruct (H6 i t Hi) as (Hn & x & Hx & Hix & Hex & Hsx). split.
    + destruct (live !! i) as [r|] eqn:El; [|done]. apply Hl in El as [El _]. congruence.
    + exists x. rewrite lookup_insert_ne; [done|]. intros E. by apply (Hend _ _ Hx Hex).
  - intros r st Hrs. destruct (H7 r st Hrs) as (Hb & x & Hx & Hsx). split; [done|]. unfold live_run. cbn. setoid_rewrite replaced_other.
    exists x. split; [|done]. right. split; [|done]. intros ->. congruence.
Qed.
End Replace.

Lemma delete_value_Some {K} `{Countable K} (m : gmap K string) (k : K) (v : string) :
  (forall k', m !! k' = Some v -> k' = k) -> forall k' v', (if m !! k == Some v then delete k m else m) !! k' = Some v' <-> m !! k' = Some v' /\ v' <> v.
Proof.
  intros Hu k' v'. case_bool_decide as E.
  - rewrite lookup_delete_Some. split.
    + intros [Hne Hk]. split; [done|]. intros ->. by apply Hne, eq_sym, Hu.
    + intros [Hk Hne]. split; [|done]. intros ->. congruence.
  - split; [|by intros []]. intros Hk. split; [done|]. intros ->. by rewrite (Hu _ Hk) in Hk.
Qed.
(** A live run is active under no other cgroup, and live under no other identity. *)
Lemma active_key s runID run : store_ok s -> live_run s runID run -> forall c, store_activeByCgroup s !! c = Some runID -> c = Run_CgroupID run.
Proof. intros Hok [Hr _] c (x & [Hx _] & <- & _)%(ok_active s Hok). congruence. Qed.
Lemma live_key s runID run : store_ok s -> live_run s runID run -> forall i, store_liveByIdentity s !! i = Some runID <-> i = scopeIdentity run.
Proof.
  intros Hok Hl i. rewrite (ok_live s Hok). split; [|intros ->; eauto].
  intros (x & [Hx _] & <-). destruct Hl as [Hr _]. congruence.
Qed.

Lemma FailScope_cases s cgroupID reason s' r : store_ok s -> FailScope s cgroupID reason = (s', r) ->
  (s' = s /\ forall run, r <> Some (run, true)) \/
  exists runID run, live_run s runID run /\ Run_Status run = "active" /\ Run_CgroupID run = cgroupID /\
    r = Some (with_status run "failed" reason (Run_EndedAt run), true) /\
    s' = replace_run (dropCheckpointStateLocked s runID) runID (with_status run "failed" reason (Run_EndedAt run))
      (delete cgroupID (store_activeByCgroup s)) (store_liveByIdentity s) (store_terminating s).
Proof.
  unfold FailScope. intros Hok. destruct (store_activeByCgroup s !! cgroupID) as [runID|] eqn:E.
  - intros [= <- <-]. right. apply (ok_active s Hok) in E as (run & Hl & Hc & Ha). exists runID, run.
    assert (run_or_zero s runID = run) as -> by (unfold run_or_zero; by rewrite (proj1 Hl)). rewrite cloned_id.
    split_and!; try done. by rewrite <-replace_drop.
  - intros [= <- <-]. left. split; [done|]. by destruct (store_latestByCgroup s !! cgroupID).
Qed.
Lemma dropped_live s id runID run : live_run (dropCheckpointStateLocked s id) runID run <-> live_run s runID run.
Proof. unfold live_run, dropCheckpointStateLocked. by destruct (store_checkpoints s !! id). Qed.
Lemma drop_same s id : store_runs (dropCheckpointStateLocked s id) = store_runs s /\
  store_activeByCgroup (dropCheckpointStateLocked s id) = store_activeByCgroup s /\
  store_liveByIdentity (dropCheckpointStateLocked s id) = store_liveByIdentity s /\
  store_terminating (dropCheckpointStateLocked s id) = store_terminating s /\
  store_tombstones (dropCheckpointStateLocked s id) = store_tombstones s /\
  store_checkpoints (dropCheckpointStateLocked s id) !! id = None.
Proof.
  unfold dropCheckpointStateLocked. destruct (store_checkpoints s !! id) eqn:E; cbn; [|done].
  split_and!; try done. apply lookup_delete_eq.
Qed.
Lemma FailScope_ok s cgroupID reason s' r : store_ok s -> FailScope s cgroupID reason = (s', r) -> store_ok s'.
Proof.
  intros Hok H. apply (FailScope_cases _ _ _ _ _ Hok) in H as [[-> _]|(runID & run & Hl & Ha & Hc & _ & ->)]; [done|].
  destruct (drop_same s runID) as (E1 & E2 & E3 & E4 & E5 & E6).
  apply (replace_ok _ _ run); try done; [by apply drop_ok|by apply dropped_live|..].
  - intros c r'. rewrite E2. rewrite <-(delete_value_Some (store_activeByCgroup s) cgroupID runID).
    + rewrite bool_decide_eq_true_2; [done|]. apply (ok_active s Hok). eauto.
    + intros k' Hk. rewrite <-Hc. by apply (active_key s runID run).
  - intros i r'. rewrite E3. split; [|by intros []]. intros Hi. split; [done|]. intros _. apply Hl.
  - intros r' Hr. rewrite E4. split; [done|]. intros _. apply Hl.
Qed.

(** What is left of the tombstones before the new one is added. *)
Lemma completeTermination_cases s runID status reason endedAt ttl maxEntries s' r :
  store_ok s -> completeTermination s runID status reason endedAt ttl maxEntries = (s', r) ->
  (s' = s /\ runID ∉ store_terminating s /\ exists e, r = Err e) \/
  exists run, let run' := terminated run status reason endedAt in
    live_run s runID run /\ runID ∈ store_terminating s /\ r = Ok run' /\ exists ts seq,
    ts ⊆ store_tombstones s /\ (1 <= maxEntries -> Z.of_nat (size ts) < maxEntries) /\
    let s1 := replace_run (dropCheckpointStateLocked s runID) runID run'
      (if store_activeByCgroup s !! Run_CgroupID run == Some runID then delete (Run_CgroupID run) (store_activeByCgroup s) else store_activeByCgroup s)
      (delete (scopeIdentity run) (store_liveByIdentity s)) (store_terminating s ∖ {[runID]}) in
    s' = mkStore (store_runs s1) (store_activeByCgroup s1) (store_latestByCgroup s1) (store_liveByIdentity s1) (store_terminating s1)
      (<[scopeIdentity run := mkTombstone runID (Run_Status run') (endedAt + ttl) seq]> ts) seq (store_checkpoints s1) (store_checkpointBytes s1).
Proof.
  unfold completeTermination. intros Hok H. destruct (store_runs s !! runID) as [run|] eqn:Er.
  2:{ injection H as <- <-. left. split_and!; [done| |eauto]. intros (run & Hl & _)%(ok_terminating s Hok). congruence. }
  case_bool_decide as Et; cbn [negb] in H; [|injection H as <- <-; left; eauto].
  right. exists run. cbv zeta in H |- *. set (run' := terminated run status reason endedAt) in *.
  destruct (ok_terminating s Hok _ Et) as (x & Hl). pose proof Hl as [Hx _]. rewrite Er in Hx. injection Hx as <-.
  change (Run_CgroupID run') with (Run_CgroupID run) in H.
  set (active := if _ == _ then _ else _) in *.
  change (mkStore _ active _ _ _ _ _ _ _) with (replace_run s runID run' active (delete (scopeIdentity run) (store_liveByIdentity s)) (store_terminating s ∖ {[runID]})) in H.
  rewrite replace_drop, cloned_id in H. set (s1 := replace_run (dropCheckpointStateLocked s runID) _ _ _ _ _) in *.
  destruct (prune_sub s1 endedAt) as (ts1 & E1 & Hs1). rewrite E1 in H.
  destruct (evict_until_sub (size (store_tombstones (set_tombstones s1 ts1))) (set_tombstones s1 ts1) maxEntries) as (ts2 & E2 & Hs2).
  pose proof (evict_until_enough (size (store_tombstones (set_tombstones s1 ts1))) (set_tombstones s1 ts1) maxEntries) as Hroom.
  rewrite E2 in H, Hroom. injection H as <- <-. split_and!; try done. exists ts2, (wrap64 (store_tombstoneSeq s1 + 1)).
  split_and!; [|intros Hm; by apply Hroom|done].
  etrans; [exact Hs2|]. etrans; [exact Hs1|]. cbn. by destruct (drop_same s runID) as (_ & _ & _ & _ & -> & _).
Qed.
Lemma add_tombstone_ok s i t ts seq : store_ok s -> ts ⊆ store_tombstones s -> store_liveByIdentity s !! i = None ->
  (exists run, store_runs s !! Tombstone_RunID t = Some run /\ scopeIdentity run = i /\ ended run /\ Run_Status run = Tombstone_RunStatus t) ->
  store_ok (mkStore (store_runs s) (store_activeByCgroup s) (store_latestByCgroup s) (store_liveByIdentity s) (store_terminating s)
    (<[i := t]> ts) seq (store_checkpoints s) (store_checkpointBytes s)).
Proof.
  intros [H1 H2 H3 H4 H5 H6 H7 H8] Hs Hl Hr. split; cbn; try done.
  intros j t'. rewrite lookup_insert_Some. intros [[<- <-]|[_ Hj]]; [done|]. apply H6. by apply (lookup_weaken _ _ _ _ Hj).
Qed.
Lemma terminated_inactive run status reason endedAt : status <> "active" -> Run_Status (terminated run status reason endedAt) <> "active".
Proof.
  intros Hs. cbn. destruct (bool_decide (Run_Status run = "active")) eqn:Ea; rewrite ?orb_true_r, ?orb_false_r; [done|].
  apply bool_decide_eq_false in Ea. by case_bool_decide.
Qed.
Lemma completeTermination_ok s runID status reason endedAt ttl maxEntries s' r :
  store_ok s -> endedAt <> 0 -> status <> "active" ->
  completeTermination s runID status reason endedAt ttl maxEntries = (s', r) -> store_ok s'.
Proof.
  intros Hok He Hst H. apply (completeTermination_cases _ _ _ _ _ _ _ _ _ Hok) in H as [[-> _]|(run & Hl & Ht & _ & ts & seq & Hs & _ & ->)]; [done|].
  destruct (drop_same s runID) as (E1 & E2 & E3 & E4 & E5 & E6). apply add_tombstone_ok; cbn.
  - apply (replace_ok _ _ run); try done; [by apply drop_ok|by apply dropped_live|..].
    + by apply terminated_inactive.
    + intros c r'. rewrite E2. apply delete_value_Some. by apply (active_key s runID run).
    + intros i r'. rewrite E3, lookup_delete_Some. split.
      * intros [Hne Hi]. split; [done|]. intros ->. by apply (live_key s runID run Hok Hl) in Hi.
      * intros [Hi Hx]. split; [|done]. intros <-. assert (r' = runID) as ->; [|by destruct Hx].
        assert (store_liveByIdentity s !! scopeIdentity run = Some runID) as Hi' by (by apply (live_key s runID run Hok Hl)). congruence.
    + intros r' [Hr Hne]%elem_of_difference. rewrite E4. split; [done|]. set_solver.
  - by rewrite E5.
  - apply lookup_delete_eq.
  - exists (terminated run status reason endedAt). split; [apply lookup_insert_eq|done].
Qed.

(** ** Steps of the lifecycle *)
Inductive store_step (s : RunStore) : RunStore -> Prop :=
  | step_add run s' e : Run_Status run = "active" -> ~ ended run -> Add s run = (s', e) -> store_step s s'
  | step_begin runID s' r : beginTermination s runID = (s', r) -> store_step s s'
  | step_abort runID : store_step s (abortTermination s runID)
  | step_complete runID status reason endedAt ttl maxEntries s' r : endedAt <> 0 -> status <> "active" ->
      completeTermination s runID status reason endedAt ttl maxEntries = (s', r) -> store_step s s'
  | step_fail cgroupID reason s' r : FailScope s cgroupID reason = (s', r) -> store_step s s'
  | step_prune now : store_step s (pruneTombstonesLocked s now).
Lemma store_step_ok s s' : store_step s s' -> store_ok s -> store_ok s'.
Proof.
  intros [run s2 e Ha He H|runID s2 r H|runID|runID status reason endedAt ttl mx s2 r He Hs H|c reason s2 r H|now] Hok.
  - by apply (Add_ok s run s2 e).
  - by apply (beginTermination_ok s runID s2 r).
  - by apply abortTermination_ok.
  - by apply (completeTermination_ok s runID status reason endedAt ttl mx s2 r).
  - by apply (FailScope_ok s c reason s2 r).
  - by apply prune_ok.
Qed.

(** A step keeps the checkpoint state of a run, or drops it from a run that
    is no longer active; and only a run it adds becomes active. *)
Definition step_effect (s s' : RunStore) : Prop := forall runID,
  (store_checkpoints s' !! runID = store_checkpoints s !! runID \/
   store_checkpoints s' !! runID = None /\ forall run, store_runs s' !! runID = Some run -> Run_Status run <> "active") /\
  (is_Some (store_runs s !! runID) -> is_Some (store_runs s' !! runID)) /\
  forall run', store_runs s' !! runID = Some run' -> Run_Status run' = "active" ->
    store_runs s !! runID = None \/ exists run, store_runs s !! runID = Some run /\ Run_Status run = "active".
Lemma step_effect_same s s' : store_checkpoints s' = store_checkpoints s -> store_runs s' = store_runs s -> step_effect s s'.
Proof. intros E1 E2 r. rewrite E1, E2. split_and!; eauto. Qed.
Lemma step_effect_replace s runID run' active live terminating ts seq : Run_Status run' <> "active" -> is_Some (store_runs s !! runID) ->
  step_effect s (let s1 := replace_run (dropCheckpointStateLocked s runID) runID run' active live terminating in
    mkStore (store_runs s1) (store_activeByCgroup s1) (store_latestByCgroup s1) (store_liveByIdentity s1) (store_terminating s1)
      ts seq (store_checkpoints s1) (store_checkpointBytes s1)).
Proof.
  intros Hst Hin r. cbn. destruct (drop_same s runID) as (-> & _ & _ & _ & _ & Hd).
  assert (r <> runID -> store_checkpoints (dropCheckpointStateLocked s runID) !! r = store_checkpoints s !! r) as Hother.
  { intros Hne. unfold dropCheckpointStateLocked. destruct (store_checkpoints s !! runID); [|done]. cbn. by apply lookup_delete_ne. }
  destruct (decide (r = runID)) as [->|Hne].
  - rewrite lookup_insert_eq, Hd. split_and!; [right; split; [done|by intros run [= <-]]|eauto|by intros run [= <-]].
  - rewrite lookup_insert_ne, Hother by done. split_and!; eauto.
Qed.
Lemma store_step_effect s s' : store_ok s -> store_step s s' -> step_effect s s'.
Proof.
  intros Hok [run s2 e Ha He H|runID s2 r H|runID|runID status reason endedAt ttl mx s2 r He Hs H|c reason s2 r H|now].
  - apply Add_cases in H as (ts & _ & H); [|done]. destruct e as [e|]; [by destruct H as [-> | ->]; apply step_effect_same|].
    destruct H as (-> & Hn & _). intros r. cbn. split; [by left|]. rewrite lookup_insert_is_Some. split; [destruct (decide (Run_RunID run = r)); auto|].
    intros run'. rewrite lookup_insert_Some. intros [[<- _]|[_ Hr]] Hst; eauto.
  - pose proof (beginTermination_cases _ _ _ _ H Hok) as Hc. destruct r as [[run [|]]|[| |]].
    all: try (destruct Hc as (-> & _); by apply step_effect_same); try done. destruct Hc as (_ & _ & ->). by apply step_effect_same.
  - by apply step_effect_same.
  - apply (completeTermination_cases _ _ _ _ _ _ _ _ _ Hok) in H as [[-> _]|(run & Hl & Ht & _ & ts & seq & _ & _ & ->)]; [by apply step_effect_same|].
    apply step_effect_replace; [by apply terminated_inactive|destruct Hl; eauto].
  - apply (FailScope_cases _ _ _ _ _ Hok) in H as [[-> _]|(runID & run & Hl & Ha & Hc & _ & ->)]; [by apply step_effect_same|].
    by apply step_effect_replace; [|destruct Hl; eauto].
  - destruct (prune_sub s now) as (ts & -> & _). by apply step_effect_same.
Qed.
