(* ===== verification/Registration.v ===== *)
(** * Registration of Agent Runs ([internal/api/registration.go],
      [internal/api/lifecycle.go], [internal/api/scope_monitor.go])

    The handler allocates an identity, registers the cgroup with the scope
    manager and adds the run to the store; termination removes the scope and
    then retires the run.  The body of a request is an argument: [None] when
    [encoding/json] rejects it.  The random source is the string of the bytes
    it will yield, and [now] the clock reading a call makes. *)
From S2P Require Import Prelude GoStd GoTime Crypto CgroupPath Scope RunStore.
Open Scope Z_scope.

Definition defaultTokenTTL : Duration := 15 * Minute.
Definition defaultRunTTL : Duration := 24 * Hour.
Definition maxTokenBytes : Z := 512.
Definition maxRegistrationReplays : Z := 10000.
Definition defaultTombstoneTTL : Duration := 10 * Minute.
Definition defaultTombstoneMaxEntries : Z := 10000.

Record RegisterRequest := mkRegisterRequest {
  RegisterRequest_RequestID : string;
  RegisterRequest_AgentName : string;
  RegisterRequest_ContainerID : string;
  RegisterRequest_CgroupPath : string;
  RegisterRequest_PID : Z;
  RegisterRequest_RootPID : Z;
  RegisterRequest_ProfileID : Z;
  RegisterRequest_ScopeMode : string;
  RegisterRequest_Labels : Labels;
}.
Record RegisterResponse := mkRegisterResponse {
  Response_RunID : string;
  Response_CgroupID : string;
  Response_InstanceID : string;
  Response_ScopeCookie : string;
  Response_CgroupPath : string;
  Response_ScopeMode : string;
  Response_IngestToken : string;
  Response_TokenExpiry : string;
}.
Record registrationReplay := mkReplay {
  Replay_fingerprint : string;
  Replay_response : RegisterResponse;
  Replay_tokenExpiry : Time;
  Replay_expiresAt : Time;
}.

(** The fields of [RegistrationHandler] that never change. *)
Record Handler := mkHandler {
  handler_tokenTTL : Duration;
  handler_runTTL : Duration;
  handler_tombstoneTTL : Duration;
  handler_tombstoneMaxEntries : Z;
  handler_instanceID : Z;
  handler_signingKey : string;
}.

(** ** Random identities *)
(** [io.ReadFull]: a source with fewer bytes fails and is left empty. *)
Definition ReadFull (random : string) (n : nat) : string * option string :=
  if (String.length random <? n)%nat then ("", None) else (str_drop n random, Some (String.substring 0 n random)).

Definition hex_value (c : ascii) : option Z :=
  let b := byte_val c in
  if in_range 48 57 b then Some (b - 48) else if in_range 97 102 b then Some (b - 87)
  else if in_range 65 70 b then Some (b - 55) else None.
Fixpoint hex_number (acc : Z) (s : string) : option Z :=
  match s with
  | EmptyString => Some acc
  | String c s' => match hex_value c with Some d => hex_number (acc * 16 + d) s' | None => None end
  end.
(** [strconv.ParseUint(s, 16, 64)]. *)
Definition ParseUint16 (s : string) : option Z :=
  if s == "" then None
  else match hex_number 0 s with Some v => if v <=? u64_max then Some v else None | None => None end.

Inductive RandomError := RandomExhausted | RandomUnparsable | RandomZeroRepeatedly.
Fixpoint nonzero_uint64 (attempts : nat) (random : string) : string * result RandomError Z :=
  match attempts with
  | O => (random, Err RandomZeroRepeatedly)
  | S n =>
      match ReadFull random 8 with
      | (random, None) => (random, Err RandomExhausted)
      | (random, Some encoded) =>
          match ParseUint16 (hex_EncodeToString encoded) with
          | None => (random, Err RandomUnparsable)
          | Some value => if negb (value =? 0) then (random, Ok value) else nonzero_uint64 n random
          end
      end
  end.
Definition randomNonZeroUint64 (random : string) : string * result RandomError Z := nonzero_uint64 8 random.
Definition randomHex (random : string) (bytes : nat) : string * option string :=
  let (random, value) := ReadFull random bytes in (random, hex_EncodeToString <$> value).

(** ** Construction *)
Record RegistrationOptions := mkRegistrationOptions {
  Options_TokenTTL : Duration;
  Options_RunTTL : Duration;
  Options_TombstoneTTL : Duration;
  Options_TombstoneMaxEntries : Z;
}.
Inductive NewHandlerError :=
  | TokenTTLInvalid | RunTTLInvalid | TombstoneTTLInvalid | TombstoneMaxInvalid
  | InstanceIDFailed (e : RandomError) | SigningKeyFailed.
Definition or_default (value default : Z) : Z := if value =? 0 then default else value.
Definition NewRegistrationHandler (options : RegistrationOptions) (random : string) : string * result NewHandlerError Handler :=
  let tokenTTL := or_default (Options_TokenTTL options) defaultTokenTTL in
  let runTTL := or_default (Options_RunTTL options) defaultRunTTL in
  let tombstoneTTL := or_default (Options_TombstoneTTL options) defaultTombstoneTTL in
  let maxEntries := or_default (Options_TombstoneMaxEntries options) defaultTombstoneMaxEntries in
  if (tokenTTL <? Second) || (Hour <? tokenTTL) then (random, Err TokenTTLInvalid)
  else if (runTTL <? Second) || (defaultRunTTL <? runTTL) then (random, Err RunTTLInvalid)
  else if (tombstoneTTL <? Second) || (defaultTombstoneTTL <? tombstoneTTL) then (random, Err TombstoneTTLInvalid)
  else if (maxEntries <? 1) || (defaultTombstoneMaxEntries <? maxEntries) then (random, Err TombstoneMaxInvalid)
  else match randomNonZeroUint64 random with
       | (random, Err e) => (random, Err (InstanceIDFailed e))
       | (random, Ok instanceID) =>
           match ReadFull random 32 with
           | (random, None) => (random, Err SigningKeyFailed)
           | (random, Some key) => (random, Ok (mkHandler tokenTTL runTTL tombstoneTTL maxEntries instanceID key))
           end
       end.

(** ** Ingest tokens *)
Definition newline_string : string := String newline EmptyString.
Definition token_payload (runID : string) (expiry : Time) (nonce : string) : string :=
  runID +:+ newline_string +:+ FormatInt (UnixNano expiry) +:+ newline_string +:+ nonce.
Definition token_of (h : Handler) (payload : string) : string :=
  RawURL_EncodeToString payload +:+ "." +:+ RawURL_EncodeToString (HMAC (handler_signingKey h) payload).
Definition signToken (h : Handler) (random runID : string) (expiry : Time) : string * option string :=
  let (random, nonce) := randomHex random 16 in
  (random, (fun nonce => token_of h (token_payload runID expiry nonce)) <$> nonce).

(** Run ID, hash of the token and expiry; every failure is the same error. *)
Definition parseIngestToken (h : Handler) (token : string) : option (string * string * Time) :=
  if (slen token =? 0) || (maxTokenBytes <? slen token) then None
  else match Cut token "." with
  | None => None
  | Some (encodedPayload, encodedSignature) =>
  match RawURL_DecodeString encodedPayload with
  | None => None
  | Some payload =>
  match RawURL_DecodeString encodedSignature with
  | None => None
  | Some signature =>
      if signature != HMAC (handler_signingKey h) payload then None
      else match split_byte newline payload with
           | [runID; expiry; _] =>
               match ParseInt expiry with
               | None => None
               | Some expiryUnixNano =>
                   if (expiryUnixNano <=? 0) || (runID == "") then None
                   else Some (runID, Sum256 token, UnixTime expiryUnixNano)
               end
           | _ => None
           end
  end end end.

Inductive TokenError := InvalidIngestToken | ExpiredIngestToken | InactiveIngestToken.
Definition VerifyIngestToken (h : Handler) (store : RunStore) (now : Time) (token : string) : result TokenError AgentRun :=
  match parseIngestToken h token with
  | None => Err InvalidIngestToken
  | Some (runID, tokenHash, expiry) =>
      if negb (Before now expiry) then Err ExpiredIngestToken
      else match store_runs store !! runID with
           | None => Err InvalidIngestToken
           | Some run =>
               if Run_TokenHash run != tokenHash then Err InvalidIngestToken
               else if (Run_Status run != "active") || bool_decide (runID ∈ store_terminating store) || IsZero (Run_RunExpiry run) ||
                       negb (Before now (Run_RunExpiry run)) || negb (Before now (Run_TokenExpiry run))
               then Err InactiveIngestToken
               else Ok (cloned run)
           end
  end.

(** ** The registration request *)
Inductive Reply :=
  | HTTPError (text : string) (status : Z)
  | Registered (status : Z) (output : RegisterResponse).
Definition StatusText (status : Z) : string :=
  if status =? 400 then "Bad Request" else if status =? 404 then "Not Found"
  else if status =? 409 then "Conflict" else "Internal Server Error".

Definition request_id_rune (character : Z) : bool :=
  in_range 97 122 character || in_range 65 90 character || in_range 48 57 character ||
  (character =? 45) || (character =? 95) || (character =? 46).
Definition validRegistrationRequestID (value : string) : bool :=
  negb ((slen value <? 16) || (128 <? slen value)) && forallb (fun rn => request_id_rune rn.1) (runes value).

(** [json.Marshal] of a request: no field can fail to encode. *)
Definition request_json (input : RegisterRequest) : json :=
  JObject ([("request_id", JString (RegisterRequest_RequestID input)); ("agent_name", JString (RegisterRequest_AgentName input))] ++
    omitempty (RegisterRequest_ContainerID input == "") "container_id" (JString (RegisterRequest_ContainerID input)) ++
    omitempty (RegisterRequest_CgroupPath input == "") "cgroup_path" (JString (RegisterRequest_CgroupPath input)) ++
    omitempty (RegisterRequest_PID input =? 0) "pid" (JInt (RegisterRequest_PID input)) ++
    omitempty (RegisterRequest_RootPID input =? 0) "root_pid" (JInt (RegisterRequest_RootPID input)) ++
    omitempty (RegisterRequest_ProfileID input =? 0) "profile_id" (JInt (RegisterRequest_ProfileID input)) ++
    omitempty (RegisterRequest_ScopeMode input == "") "scope_mode" (JString (RegisterRequest_ScopeMode input)) ++
    omitempty (default ∅ (RegisterRequest_Labels input) == ∅) "labels" (json_labels (RegisterRequest_Labels input))).
Definition registrationFingerprint (input : RegisterRequest) : string := Sum256 (Marshal (request_json input)).

(** What [ServeHTTP] does before it takes the lock: the normalised request. *)
Definition check_request (method : string) (body : option RegisterRequest) : result Reply RegisterRequest :=
  if method != "POST" then Err (HTTPError "method not allowed" 405)
  else match body with
  | None => Err (HTTPError "invalid registration request" 400)
  | Some input =>
      let agentName := TrimSpace (RegisterRequest_AgentName input) in
      let requestID := TrimSpace (RegisterRequest_RequestID input) in
      if negb (validRegistrationRequestID requestID)
      then Err (HTTPError "request_id must contain 16-128 letters, digits, dots, underscores, or hyphens" 400)
      else if (agentName == "") || (128 <? slen agentName)
      then Err (HTTPError "agent_name is required and must not exceed 128 bytes" 400)
      else if (RegisterRequest_CgroupPath input == "") || negb (RegisterRequest_PID input =? 0) || (RegisterRequest_RootPID input <? 0)
      then Err (HTTPError "a trusted cgroup_path is required; pid scope selection is unsupported" 400)
      else
        let scopeMode := if RegisterRequest_ScopeMode input == "" then "leaf_exact" else RegisterRequest_ScopeMode input in
        if scopeMode != "leaf_exact" then Err (HTTPError "only leaf_exact scope_mode is supported" 400)
        else Ok (mkRegisterRequest requestID agentName (RegisterRequest_ContainerID input) (RegisterRequest_CgroupPath input) (RegisterRequest_PID input)
                   (RegisterRequest_RootPID input) (RegisterRequest_ProfileID input) scopeMode (RegisterRequest_Labels input))
  end.

Definition pruneRegistrationReplays (replays : gmap string registrationReplay) (now : Time) : gmap string registrationReplay :=
  filter (fun kr => Before now (Replay_expiresAt kr.2) = true) replays.

(** A request that was admitted: its identity and token. *)
Record Pending := mkPending {
  pending_input : RegisterRequest;
  pending_fingerprint : string;
  pending_now : Time;
  pending_runID : string;
  pending_cookie : Z;
  pending_token : string;
  pending_expiry : Time;
}.
(** Random identity and token of a new run. *)
Definition allocate (h : Handler) (random : string) (input : RegisterRequest) (now : Time) : string * result Reply Pending :=
  match randomHex random 16 with
  | (random, None) => (random, Err (HTTPError "could not allocate run identity" 500))
  | (random, Some runID) =>
  match randomNonZeroUint64 random with
  | (random, Err _) => (random, Err (HTTPError "could not allocate scope identity" 500))
  | (random, Ok cookie) =>
      let expiry := now + handler_tokenTTL h in
      match signToken h random runID expiry with
      | (random, None) => (random, Err (HTTPError "could not issue ingest token" 500))
      | (random, Some token) =>
          (random, Ok (mkPending input (registrationFingerprint input) now runID cookie token expiry))
      end
  end end.

(** The status of a failed [Registrar.Register]. *)
Definition register_status {Er} (e : RegisterError Er) : Z :=
  match e with
  | ErrInvalidTarget | RegisterResolveFailed ResolveInvalidTarget | RegisterResolveFailed ResolveNotLeaf | ErrProtectedScope => 400
  | ErrAlreadyActive | ErrOverlap => 409
  | _ => 500
  end.
Definition new_run (h : Handler) (p : Pending) (registration : Registration) : AgentRun :=
  let input := pending_input p in
  mkRun (pending_runID p) (RegisterRequest_AgentName input) (RegisterRequest_ContainerID input) (Registration_CgroupID registration)
    (handler_instanceID h) (pending_cookie p) (Registration_Path registration) (RegisterRequest_ScopeMode input) (RegisterRequest_RootPID input)
    (Value_ProfileID (Registration_Value registration)) (RegisterRequest_Labels input) "active" "" (pending_now p)
    (pending_now p + handler_runTTL h) 0 (Sum256 (pending_token p)) (pending_expiry p).
Definition response_of (h : Handler) (p : Pending) (registration : Registration) : RegisterResponse :=
  mkRegisterResponse (pending_runID p) (FormatUint (Registration_CgroupID registration)) (FormatUint (handler_instanceID h))
    (FormatUint (pending_cookie p)) (Registration_Path registration) (RegisterRequest_ScopeMode (pending_input p)) (pending_token p)
    (RFC3339Nano (pending_expiry p)).

(** ** The handler and what it shares *)
Record System (M : Type) := mkSystem {
  sys_manager : Manager M;
  sys_store : RunStore;
  sys_random : string;
  sys_replays : gmap string registrationReplay;
  (** Calls of [onRunChanged], in order. *)
  sys_changed : list AgentRun;
}.
Arguments mkSystem {M} _ _ _ _ _.
Arguments sys_manager {M} _.
Arguments sys_store {M} _.
Arguments sys_random {M} _.
Arguments sys_replays {M} _.
Arguments sys_changed {M} _.

Section Handler.
Context {M Er : Type} `{ScopeMap M Er}.

Definition set_manager (s : System M) (m : Manager M) : System M :=
  mkSystem m (sys_store s) (sys_random s) (sys_replays s) (sys_changed s).
Definition set_store (s : System M) (store : RunStore) : System M :=
  mkSystem (sys_manager s) store (sys_random s) (sys_replays s) (sys_changed s).

(** Under [registrationMu]: a replayed request is answered, a new one gets an
    identity. *)
Definition admit_request (h : Handler) (s : System M) (input : RegisterRequest) (now : Time) : System M * result Reply Pending :=
  let replays := pruneRegistrationReplays (sys_replays s) now in
  let s := mkSystem (sys_manager s) (sys_store s) (sys_random s) replays (sys_changed s) in
  match replays !! RegisterRequest_RequestID input with
  | Some replay =>
      (s, Err (if Replay_fingerprint replay != registrationFingerprint input
               then HTTPError "registration request ID conflict" 409
               else match Get (sys_store s) (Response_RunID (Replay_response replay)) with
                    | Some run =>
                        if (Run_Status run != "active") || negb (Before now (Replay_tokenExpiry replay))
                        then HTTPError "registration replay is no longer active" 409
                        else Registered 200 (Replay_response replay)
                    | None => HTTPError "registration replay is no longer active" 409
                    end))
  | None =>
      if maxRegistrationReplays <=? Z.of_nat (size replays) then (s, Err (HTTPError "registration replay capacity reached" 503))
      else let (random, r) := allocate h (sys_random s) input now in
           (mkSystem (sys_manager s) (sys_store s) random replays (sys_changed s), r)
  end.
Definition scope_value (h : Handler) (p : Pending) : ScopeValue :=
  mkValue (handler_instanceID h) (pending_cookie p) (RegisterRequest_ProfileID (pending_input p)) 0.
Definition scope_target (p : Pending) : Target :=
  mkTarget (RegisterRequest_CgroupPath (pending_input p)) (RegisterRequest_RootPID (pending_input p)).
Definition register_scope (h : Handler) (resolve : ResolvePathFn) (probe : ProbeFn) (s : System M) (p : Pending) : System M * result (RegisterError Er) Registration :=
  let (m, r) := Register resolve probe (sys_manager s) (scope_target p) (scope_value h p) in (set_manager s m, r).
Definition add_run (h : Handler) (s : System M) (p : Pending) (registration : Registration) : System M * option AddError :=
  let (store, e) := Add (sys_store s) (new_run h p registration) in (set_store s store, e).
(** The error of [Unregister] is ignored. *)
Definition rollback (s : System M) (registration : Registration) : System M :=
  set_manager s (fst (Unregister (sys_manager s) (Registration_CgroupID registration))).
Definition conclude (h : Handler) (s : System M) (p : Pending) (registration : Registration) : System M :=
  mkSystem (sys_manager s) (sys_store s) (sys_random s)
    (<[RegisterRequest_RequestID (pending_input p) :=
       mkReplay (pending_fingerprint p) (response_of h p registration) (pending_expiry p) (pending_expiry p)]> (sys_replays s))
    (sys_changed s ++ [new_run h p registration]).

(** The calls in order. *)
Definition RegistrationHandler_ServeHTTP (h : Handler) (resolve : ResolvePathFn) (probe : ProbeFn) (s : System M)
    (method : string) (body : option RegisterRequest) (now : Time) : System M * Reply :=
  match check_request method body with
  | Err reply => (s, reply)
  | Ok input =>
  match admit_request h s input now with
  | (s, Err reply) => (s, reply)
  | (s, Ok p) =>
  match register_scope h resolve probe s p with
  | (s, Err e) => (s, HTTPError (StatusText (register_status e)) (register_status e))
  | (s, Ok registration) =>
  match add_run h s p registration with
  | (s, Some _) => (rollback s registration, HTTPError "could not persist run" 500)
  | (s, None) => (conclude h s p registration, Registered 201 (response_of h p registration))
  end end end end.

(** ** Termination *)
(** A call of [onRunChanged]. *)
Definition notify (s : System M) (run : AgentRun) : System M :=
  mkSystem (sys_manager s) (sys_store s) (sys_random s) (sys_replays s) (sys_changed s ++ [run]).
Inductive TerminateError :=
  | BeginFailed (e : TerminationError) | ScopeRemovalFailed (e : UnregisterError Er) | CompleteFailed (e : TerminationError)
  | FailureReasonRequired.
Definition terminateRun (h : Handler) (s : System M) (runID status reason : string) (endedAt : Time) : System M * result TerminateError AgentRun :=
  match beginTermination (sys_store s) runID with
  | (store, Err e) => (set_store s store, Err (BeginFailed e))
  | (store, Ok (run, false)) => (set_store s store, Ok run)
  | (store, Ok (run, true)) =>
      let s := set_store s store in
      match Unregister (sys_manager s) (Run_CgroupID run) with
      | (m, Some e) => (set_store (set_manager s m) (abortTermination (sys_store s) runID), Err (ScopeRemovalFailed e))
      | (m, None) =>
          let s := set_manager s m in
          match completeTermination (sys_store s) runID status reason endedAt (handler_tombstoneTTL h) (handler_tombstoneMaxEntries h) with
          | (store, Err e) => (set_store s store, Err (CompleteFailed e))
          | (store, Ok finished) =>
              (notify (set_store s store) finished, Ok finished)
          end
      end
  end.
Definition FinishRun (h : Handler) (s : System M) (runID : string) (now : Time) : System M * result TerminateError AgentRun :=
  terminateRun h s (TrimSpace runID) "finished" "" now.
Definition FailRunScope (h : Handler) (s : System M) (runID reason : string) (endedAt : Time) : System M * result TerminateError AgentRun :=
  if (TrimSpace reason == "") || IsZero endedAt then (s, Err FailureReasonRequired)
  else terminateRun h s (TrimSpace runID) "failed" reason endedAt.

(** The runs in turn; the errors, each with its run. *)
Fixpoint expire_all (h : Handler) (s : System M) (runIDs : list string) (now : Time) : System M * list (string * TerminateError) :=
  match runIDs with
  | [] => (s, [])
  | runID :: runIDs' =>
      let (s, r) := terminateRun h s runID "expired" "" now in
      let (s, errors) := expire_all h s runIDs' now in
      (s, match r with Err e => (runID, e) :: errors | Ok _ => errors end)
  end.
Definition CleanupExpiredRuns (h : Handler) (s : System M) (now : Time) : System M * list (string * TerminateError) :=
  let (s, errors) := expire_all h s (expiredActiveRunIDs (sys_store s) now) now in
  (set_store s (pruneTombstonesLocked (sys_store s) now), errors).
Definition AttributeEvent (h : Handler) (s : System M) (instanceID scopeCookie : Z) (now : Time) : System M * EventAttribution :=
  let (store, a) := attribute (sys_store s) (mkScopeIdentity instanceID scopeCookie) (handler_instanceID h) now in
  (set_store s store, a).

Record FinishResponse := mkFinishResponse { Finish_RunID : string; Finish_Status : string; Finish_EndedAt : string }.
Definition serveFinish (h : Handler) (s : System M) (runID : string) (now : Time) : System M * result (string * Z) FinishResponse :=
  let (s, r) := FinishRun h s runID now in
  (s, match r with
      | Err e =>
          let status := match e with BeginFailed ErrRunNotFound | CompleteFailed ErrRunNotFound => 404 | _ => 409 end in
          Err (StatusText status, status)
      | Ok run => Ok (mkFinishResponse (Run_RunID run) (Run_Status run) (RFC3339Nano (Run_EndedAt run)))
      end).

(** ** Monitoring scopes *)
Record ScopeViolationEvent := mkScopeViolationEvent {
  ViolationEvent_EventType : string;
  ViolationEvent_RunID : string;
  ViolationEvent_CgroupID : string;
  ViolationEvent_InstanceID : string;
  ViolationEvent_ScopeCookie : string;
  ViolationEvent_Reason : string;
  ViolationEvent_Detail : string;
  ViolationEvent_ObservedAt : string;
}.
Inductive ScopeMonitorError :=
  | MonitorArgumentsMissing | ScopeWithoutRun (cgroupID : Z) | EmitFailed | ViolationTerminationFailed (e : TerminateError).
Definition violation_event (run : AgentRun) (cgroupID : Z) (now : Time) (v : Violation) : ScopeViolationEvent :=
  mkScopeViolationEvent "scope_violation" (Run_RunID run) (FormatUint cgroupID) (FormatUint (Run_InstanceID run))
    (FormatUint (Run_ScopeCookie run)) (Violation_Reason v) (Violation_Detail v) (RFC3339Nano now).
(** [emit] answers whether it accepted the event; the events offered to it
    are returned, and the first one refused stops. *)
Fixpoint emit_all (emit : ScopeViolationEvent -> bool) (events : list ScopeViolationEvent) : list ScopeViolationEvent * bool :=
  match events with
  | [] => ([], true)
  | e :: events' => if emit e then let (sent, ok) := emit_all emit events' in (e :: sent, ok) else ([e], false)
  end.
(** What [Check] found; [describe] is the text of an error. *)
Definition violations_of (describe : CheckError -> string) (m : Manager M) (inspector : InspectFn) (cgroupID : Z) : list Violation :=
  match Manager_Check m cgroupID (Some inspector) with
  | Ok violations => violations
  | Err CheckNotActive => []
  | Err e => [mkViolation "scope_violation" cgroupID "" ViolationInspectionFailed (describe e)]
  end.
(** One cgroup of the loop; an error ends it. *)
Definition monitor_scope (h : Handler) (describe : CheckError -> string) (inspector : InspectFn) (emit : ScopeViolationEvent -> bool)
    (now : Time) (s : System M) (cgroupID : Z) : System M * list ScopeViolationEvent * option ScopeMonitorError :=
  match violations_of describe (sys_manager s) inspector cgroupID with
  | [] => (s, [], None)
  | v :: _ as violations =>
      match monitoredRunForCgroup (sys_store s) cgroupID with
      | None => (s, [], Some (ScopeWithoutRun cgroupID))
      | Some (run, false) => (s, [], None)
      | Some (run, true) =>
          match emit_all emit (map (violation_event run cgroupID now) violations) with
          | (sent, false) => (s, sent, Some EmitFailed)
          | (sent, true) =>
              match FailRunScope h s (Run_RunID run) (Violation_Reason v) now with
              | (s, Err e) => (s, sent, Some (ViolationTerminationFailed e))
              | (s, Ok _) => (s, sent, None)
              end
          end
      end
  end.
Fixpoint monitor_scopes (h : Handler) (describe : CheckError -> string) (inspector : InspectFn) (emit : ScopeViolationEvent -> bool)
    (now : Time) (s : System M) (cgroupIDs : list Z) : System M * list ScopeViolationEvent * option ScopeMonitorError :=
  match cgroupIDs with
  | [] => (s, [], None)
  | id :: ids =>
      match monitor_scope h describe inspector emit now s id with
      | (s, sent, Some e) => (s, sent, Some e)
      | (s, sent, None) =>
          let '(s, rest, e) := monitor_scopes h describe inspector emit now s ids in (s, sent ++ rest, e)
      end
  end.
Definition MonitorScopesOnce (h : Handler) (describe : CheckError -> string) (inspector : InspectFn) (emit : ScopeViolationEvent -> bool)
    (now : Time) (s : System M) : System M * list ScopeViolationEvent * option ScopeMonitorError :=
  if IsZero now then (s, [], Some MonitorArgumentsMissing)
  else monitor_scopes h describe inspector emit now s (ActiveIDs (sys_manager s)).
End Handler.

(** ** Tokens *)
Lemma ReadFull_length random n random' bytes : ReadFull random n = (random', Some bytes) -> String.length bytes = n.
Proof.
  unfold ReadFull. destruct (Nat.ltb_spec (String.length random) n) as [|Hn]; [done|]. intros [= _ <-].
  revert n Hn. induction random as [|c s IH]; intros [|n] Hn; cbn in *; try lia. rewrite IH by lia. lia.
Qed.
(** Run IDs and nonces are lower-case hexadecimal. *)
Lemma randomHex_ok random n random' x : randomHex random n = (random', Some x) ->
  String.length x = (2 * n)%nat /\ str_forall is_hex_digit x = true.
Proof.
  unfold randomHex. destruct (ReadFull random n) as [r [bytes|]] eqn:E; [|done]. intros [= _ <-].
  apply ReadFull_length in E. split; [by rewrite hex_length, E|apply hex_digits].
Qed.
Lemma hex_number_nonneg s : forall acc x, 0 <= acc -> hex_number acc s = Some x -> 0 <= x.
Proof.
  induction s as [|c s IH]; intros acc x Ha; cbn; [by intros [= <-]|]. destruct (hex_value c) as [d|] eqn:Ed; [|done].
  apply IH. enough (0 <= d) by lia. unfold hex_value, in_range in Ed. repeat case_match; simplify_eq; lia.
Qed.
Lemma nonzero_range n : forall random random' v, nonzero_uint64 n random = (random', Ok v) -> 0 < v <= u64_max.
Proof.
  induction n as [|n IH]; intros random random' v; [done|]. cbn [nonzero_uint64].
  destruct (ReadFull random 8) as [r [bytes|]]; [|done]. unfold ParseUint16.
  destruct (hex_EncodeToString bytes == ""); [done|]. destruct (hex_number 0 _) as [x|] eqn:Ex; [|done].
  destruct (Z.leb_spec x u64_max); [|done]. destruct (Z.eqb_spec x 0) as [|Hx]; [apply IH|]. cbn [negb]. intros [= _ <-].
  apply hex_number_nonneg in Ex; lia.
Qed.

Definition line_free (s : string) : Prop := str_exists (fun d => d == newline) s = false.
Lemma hex_line_free s : str_forall is_hex_digit s = true -> line_free s.
Proof. intros H. by apply (str_forall_free is_hex_digit). Qed.
Lemma FormatInt_line_free z : 0 <= z -> line_free (FormatInt z).
Proof.
  intros Hz. unfold FormatInt. destruct (Z.ltb_spec z 0); [lia|]. apply (str_forall_free is_digit); [apply FormatUint_digits|done].
Qed.

(** A token of a run with a hexadecimal identity parses to what was signed. *)
Lemma parse_token h runID expiry nonce : str_forall is_hex_digit runID = true -> runID <> "" -> str_forall is_hex_digit nonce = true ->
  slen runID <= 64 -> slen nonce <= 64 -> unix_epoch < expiry <= unix_epoch + i64_max ->
  let token := token_of h (token_payload runID expiry nonce) in
  parseIngestToken h token = Some (runID, Sum256 token, expiry).
Proof.
  intros Hr Hne Hn Hr64 Hn64 He token. unfold parseIngestToken.
  assert (0 < UnixNano expiry <= i64_max /\ UnixTime (UnixNano expiry) = expiry) as [Hu Ht].
  { unfold UnixNano, UnixTime. rewrite to_int64_small by lia. lia. }
  assert (0 < slen token <= maxTokenBytes) as Hl.
  { unfold token, token_of, token_payload. rewrite !slen_app, !RawURL_length, !slen_app.
    assert (forall x, slen (HMAC (handler_signingKey h) x) = 32) as -> by (intros x; unfold slen; by rewrite HMAC_length).
    assert (0 <= slen (FormatInt (UnixNano expiry)) <= 65) as Hf.
    { unfold FormatInt. destruct (Z.ltb_spec (UnixNano expiry) 0); [lia|]. split; [unfold slen; lia|]. apply FormatUint_slen. unfold i64_max, u64_max in *. lia. }
    change (slen ".") with 1. change (slen newline_string) with 1. unfold maxTokenBytes.
    assert (0 <= slen runID /\ 0 <= slen nonce) as [? ?] by (unfold slen; lia). Z.to_euclidean_division_equations. lia. }
  destruct (Z.eqb_spec (slen token) 0); [lia|]. destruct (Z.ltb_spec maxTokenBytes (slen token)); [lia|]. cbn [orb].
  unfold token at 1, token_of. change ("." +:+ ?x) with (String "."%char x). change "." with (String "."%char EmptyString).
  rewrite Cut_app by apply RawURL_no_dot. rewrite !RawURL_roundtrip, bool_decide_eq_true_2 by done. cbn [negb].
  change (token_payload runID expiry nonce) with (runID +:+ String newline (FormatInt (UnixNano expiry) +:+ String newline nonce)).
  rewrite split_byte_app by (by apply hex_line_free). rewrite split_byte_app by (apply FormatInt_line_free; lia).
  rewrite split_byte_free by (by apply hex_line_free).
  rewrite ParseInt_FormatInt, Ht by lia. destruct (Z.leb_spec (UnixNano expiry) 0); [lia|].
  by rewrite bool_decide_eq_false_2.
Qed.

(** ** Construction and allocation *)
Record handler_ok (h : Handler) : Prop := {
  handler_token_ttl : Second <= handler_tokenTTL h <= Hour;
  handler_run_ttl : Second <= handler_runTTL h <= defaultRunTTL;
  handler_tombstone_ttl : Second <= handler_tombstoneTTL h <= defaultTombstoneTTL;
  handler_tombstone_max : 1 <= handler_tombstoneMaxEntries h <= defaultTombstoneMaxEntries;
  handler_instance : 0 < handler_instanceID h <= u64_max;
  handler_key : String.length (handler_signingKey h) = 32%nat;
}.
Lemma NewRegistrationHandler_ok options random random' h :
  NewRegistrationHandler options random = (random', Ok h) -> handler_ok h.
Proof.
  unfold NewRegistrationHandler. cbv zeta. intros H.
  repeat match type of H with (if ?b then _ else _) = _ => let E := fresh "E" in destruct b eqn:E; [done|]; apply orb_false_iff in E as [? ?] end.
  destruct (randomNonZeroUint64 random) as [r1 [id|]] eqn:Ei; [|done].
  destruct (ReadFull r1 32) as [r2 [key|]] eqn:Ek; [|done]. injection H as _ <-. split; cbn; try lia.
  - by apply nonzero_range in Ei.
  - by apply ReadFull_length in Ek.
Qed.

Record pending_ok (h : Handler) (p : Pending) : Prop := {
  pending_id : String.length (pending_runID p) = 32%nat /\ str_forall is_hex_digit (pending_runID p) = true;
  pending_cookie_range : 0 < pending_cookie p <= u64_max;
  pending_expires : pending_expiry p = pending_now p + handler_tokenTTL h;
  pending_signed : exists nonce, String.length nonce = 32%nat /\ str_forall is_hex_digit nonce = true /\
    pending_token p = token_of h (token_payload (pending_runID p) (pending_expiry p) nonce);
  pending_print : pending_fingerprint p = registrationFingerprint (pending_input p);
}.
Lemma allocate_ok h random input now random' p : allocate h random input now = (random', Ok p) ->
  pending_ok h p /\ pending_input p = input /\ pending_now p = now.
Proof.
  unfold allocate. destruct (randomHex random 16) as [r1 [runID|]] eqn:E1; [|done].
  destruct (randomNonZeroUint64 r1) as [r2 [cookie|]] eqn:E2; [|done]. unfold signToken.
  destruct (randomHex r2 16) as [r3 [nonce|]] eqn:E3; [|done]. intros [= _ <-]. split; [|done].
  apply randomHex_ok in E1, E3. apply nonzero_range in E2. split; cbn; [done|done|done|by destruct E3; exists nonce|done].
Qed.

(** The token of an admitted request names its run until its expiry. *)
Lemma pending_parses h p : pending_ok h p -> unix_epoch < pending_expiry p <= unix_epoch + i64_max ->
  parseIngestToken h (pending_token p) = Some (pending_runID p, Sum256 (pending_token p), pending_expiry p).
Proof.
  intros [[Hl Hr] _ _ (nonce & Hn & Hh & ->) _] He. apply parse_token; try done; try (unfold slen; lia).
  intros E. by rewrite E in Hl.
Qed.

Section Served.
Context {M Er : Type} `{ScopeMap M Er}.

Lemma admit_cases h (s : System M) input now s' r : admit_request h s input now = (s', r) ->
  sys_manager s' = sys_manager s /\ sys_store s' = sys_store s /\ sys_changed s' = sys_changed s /\
  sys_replays s' = pruneRegistrationReplays (sys_replays s) now /\
  match r with
  | Ok p => pending_ok h p /\ pending_input p = input /\ pending_now p = now /\ sys_replays s' !! RegisterRequest_RequestID input = None
  | Err (Registered status output) => status = 200 /\ exists replay run, sys_replays s' !! RegisterRequest_RequestID input = Some replay /\
      Replay_response replay = output /\ Replay_fingerprint replay = registrationFingerprint input /\
      store_runs (sys_store s) !! Response_RunID output = Some run /\ Run_Status run = "active"
  | Err _ => True
  end.
Proof.
  unfold admit_request. cbv zeta. destruct (pruneRegistrationReplays (sys_replays s) now !! RegisterRequest_RequestID input) as [replay|] eqn:E.
  - intros [= <- <-]. cbn [sys_manager sys_store sys_changed sys_replays]. split_and!; try done.
    case_bool_decide as Ef; cbn [negb]; [|done]. unfold Get. destruct (store_runs (sys_store s) !! _) as [run|] eqn:Erun; [|done].
    cbn [fmap option_fmap option_map]. rewrite cloned_id. case_bool_decide as Ea; [|done]. cbn [negb orb].
    destruct (negb _); [done|]. split; [done|]. by exists replay, run.
  - destruct (_ <=? _); [by intros [= <- <-]|]. destruct (allocate _ _ _ _) as [random r0] eqn:Ea. intros [= <- <-].
    cbn [sys_manager sys_store sys_changed sys_replays]. split_and!; try done. destruct r0 as [p|[|status output]]; [|done|].
    + apply allocate_ok in Ea as (Hp & Hi & Hn). split_and!; try done.
    + exfalso. revert Ea. unfold allocate. repeat case_match; congruence.
Qed.

Lemma registered_cases h resolve probe (s : System M) method body now s' status output :
  RegistrationHandler_ServeHTTP h resolve probe s method body now = (s', Registered status output) -> status <> 200 ->
  status = 201 /\ exists input p m registration store,
    check_request method body = Ok input /\ pending_ok h p /\ pending_input p = input /\ pending_now p = now /\
    Register resolve probe (sys_manager s) (scope_target p) (scope_value h p) = (m, Ok registration) /\
    Add (sys_store s) (new_run h p registration) = (store, None) /\
    sys_manager s' = m /\ sys_store s' = store /\ output = response_of h p registration.
Proof.
  unfold RegistrationHandler_ServeHTTP. destruct (check_request method body) as [input|reply] eqn:E0.
  2:{ intros [= <- ->] _. exfalso. revert E0. unfold check_request. repeat case_match; congruence. }
  destruct (admit_request h s input now) as [s1 [p|reply]] eqn:E1; apply admit_cases in E1 as (Em & Es & _ & _ & Hr).
  2:{ intros [= <- ->] Hst. by destruct Hr as [? _]. }
  destruct Hr as (Hp & Hi & Hn & _). unfold register_scope.
  destruct (Register resolve probe (sys_manager s1) _ _) as [m [registration|e]] eqn:E2; [|done].
  unfold add_run. cbn [set_manager sys_store]. destruct (Add _ _) as [store [e|]] eqn:E3; [done|]. intros [= <- <- <-] _.
  split; [done|]. rewrite Em in E2. rewrite Es in E3. by exists input, p, m, registration, store.
Qed.
End Served.

(** A token accepted by [VerifyIngestToken] is the token of an active run
    that is neither being terminated nor past its own or its token's expiry. *)
Lemma VerifyIngestToken_sound h store now token run : VerifyIngestToken h store now token = Ok run ->
  exists runID expiry, parseIngestToken h token = Some (runID, Sum256 token, expiry) /\ store_runs store !! runID = Some run /\
    Run_TokenHash run = Sum256 token /\ Run_Status run = "active" /\ runID ∉ store_terminating store /\
    now < expiry /\ now < Run_RunExpiry run /\ now < Run_TokenExpiry run.
Proof.
  unfold VerifyIngestToken. destruct (parseIngestToken h token) as [[[runID hash] expiry]|] eqn:Ep; [|done].
  assert (hash = Sum256 token) as ->.
  { revert Ep. unfold parseIngestToken. repeat case_match; congruence. }
  unfold Before. destruct (Z.ltb_spec now expiry); [|done]. cbn [negb]. destruct (store_runs store !! runID) as [run'|] eqn:Er; [|done].
  case_bool_decide as Eh; [|done]. cbn [negb]. rewrite cloned_id. case_bool_decide as Ea; [|done]. case_bool_decide as Et; [done|].
  cbn [negb orb]. destruct (IsZero _); [done|]. cbn [orb]. destruct (Z.ltb_spec now (Run_RunExpiry run')); [|done]. cbn [negb orb].
  destruct (Z.ltb_spec now (Run_TokenExpiry run')); [|done]. intros [= <-]. by exists runID, expiry.
Qed.

(** A registration answered with 201 leaves a run in the store whose
    ingest token round-trips: at every later time [VerifyIngestToken] accepts
    the issued token and returns exactly that run while the token and the run
    have not expired, and refuses it afterwards. *)
Theorem registered_token_verifies {M Er} `{ScopeMap M Er} options random random' h resolve probe (s : System M) method body now s' output :
  NewRegistrationHandler options random = (random', Ok h) -> store_ok (sys_store s) ->
  unix_epoch <= now -> now + Hour <= unix_epoch + i64_max ->
  RegistrationHandler_ServeHTTP h resolve probe s method body now = (s', Registered 201 output) ->
  exists run, store_runs (sys_store s') !! Response_RunID output = Some run /\ Run_Status run = "active" /\
    Run_TokenExpiry run = now + handler_tokenTTL h /\ Run_RunExpiry run = now + handler_runTTL h /\
    forall later, VerifyIngestToken h (sys_store s') later (Response_IngestToken output) =
      if negb (later <? Run_TokenExpiry run) then Err ExpiredIngestToken
      else if later <? Run_RunExpiry run then Ok run else Err InactiveIngestToken.
Proof.
  intros Hh%NewRegistrationHandler_ok Hok Hlo Hhi Hs. destruct Hh as [Ht Hr _ _ _ _].
  apply registered_cases in Hs as (_ & input & p & m & registration & store & _ & Hp & _ & Hn & _ & Ha & _ & -> & ->); [|done].
  pose proof Hp as [_ _ He _ _]. unfold Second in *. assert (0 < unix_epoch) as Hu by done.
  apply Add_cases in Ha as (ts & _ & -> & Hnone & _); [|done]. exists (new_run h p registration). cbn [response_of Response_RunID Response_IngestToken].
  unfold insert_run. cbn [store_runs]. rewrite cloned_id. cbn [new_run Run_RunID Run_TokenExpiry Run_RunExpiry].
  rewrite lookup_insert_eq. split_and!; [done..|lia|lia|]. intros later. unfold VerifyIngestToken.
  rewrite pending_parses by (done || lia). unfold Before. destruct (Z.ltb_spec later (pending_expiry p)) as [Hl|]; [|done]. cbn [negb store_runs].
  cbn [new_run Run_RunID]. rewrite lookup_insert_eq. cbn [Run_TokenHash Run_Status store_terminating set_tombstones Run_RunExpiry Run_TokenExpiry].
  rewrite !bool_decide_eq_true_2 by done. cbn [negb orb]. rewrite bool_decide_eq_false_2.
  2:{ intros (x & Hx & _)%(ok_terminating _ Hok). cbn in Hnone. congruence. }
  change (Run_RunExpiry (new_run h p registration)) with (pending_now p + handler_runTTL h).
  change (Run_TokenExpiry (new_run h p registration)) with (pending_expiry p).
  unfold IsZero. destruct (Z.eqb_spec (pending_now p + handler_runTTL h) 0); [lia|]. cbn [orb].
  destruct (Z.ltb_spec later (pending_expiry p)); [|lia]. destruct (later <? _); [|done]. cbn [negb orb]. by rewrite cloned_id.
Qed.

(** ** Witnesses *)
Definition demo_random : string := "coreseed" +:+ "signing-key-signing-key-signing!" +:+ "run-identity-001" +:+ "cookie-1" +:+ "nonce-nonce-nonc".
Definition demo_options : RegistrationOptions := mkRegistrationOptions 0 0 0 0.
Definition demo_handler : Handler :=
  match NewRegistrationHandler demo_options demo_random with (_, Ok h) => h | _ => mkHandler 0 0 0 0 0 "" end.
Definition demo_system : System bounded_map :=
  mkSystem demo_manager NewRunStore (fst (NewRegistrationHandler demo_options demo_random)) ∅ [].
Definition demo_input : RegisterRequest :=
  mkRegisterRequest "request-0000000001" " agent " "" "/sys/fs/cgroup/agent" 0 0 7 "" None.
Definition demo_now : Time := unix_epoch + 1700000000 * Second.
Definition demo_served : System bounded_map * Reply :=
  RegistrationHandler_ServeHTTP demo_handler demo_resolve demo_probe demo_system "POST" (Some demo_input) demo_now.
Definition demo_output : RegisterResponse :=
  match snd demo_served with Registered _ output => output | _ => mkRegisterResponse "" "" "" "" "" "" "" "" end.
Lemma demo_served_eq : demo_served = (fst demo_served, Registered 201 demo_output).
Proof. vm_compute. reflexivity. Qed.
Lemma registered_token_verifies_witness : exists run,
  store_runs (sys_store (fst demo_served)) !! "72756e2d6964656e746974792d303031" = Some run /\
  VerifyIngestToken demo_handler (sys_store (fst demo_served)) (demo_now + 1) (Response_IngestToken demo_output) = Ok run.
Proof.
  destruct (registered_token_verifies demo_options demo_random (fst (NewRegistrationHandler demo_options demo_random)) demo_handler
    demo_resolve demo_probe demo_system "POST" (Some demo_input) demo_now (fst demo_served) demo_output) as (run & Hr & _ & Ht & Hx & Hv).
  - vm_compute. reflexivity.
  - exact store_ok_new.
  - vm_compute. discriminate.
  - vm_compute. discriminate.
  - exact demo_served_eq.
  - exists run. split; [exact Hr|]. rewrite Hv, Ht, Hx. vm_compute. reflexivity.
Defined.
