(* ===== verification/Checkpoint.v ===== *)
(** * Checkpoint ingest ([internal/api/checkpoint.go],
      [internal/api/checkpoint_clock_linux.go])

    An agent reports checkpoints of its own run with its ingest token.  Every
    call authorises under the store's lock, charges the rate limiter of the
    run, and inserts at the run's next sequence number or answers a replay.
    The cancellation state of the request, the clocks, the random source and
    the answer of [onAccepted] are arguments.  The body is an argument too:
    how reading it ended, the tokens [encoding/json] reads from it and the
    request it decodes to.  Floating point is binary64 ([SpecFloat]), with the
    multiplication and the addition of the limiter rounded separately. *)
From S2P Require Import Prelude GoStd GoTime Json Crypto Netip Schema Limits Match NetworkMatch Generation Engine Events Enforcement KernelProgram KernelCapture AuditStream CgroupPath Scope RunStore Registration.
From Stdlib Require Import Floats.SpecFloat.
Open Scope Z_scope.

Definition defaultCheckpointBodyBytes : Z := 65536.
Definition defaultCheckpointRate : Z := 20.
Definition defaultCheckpointCapacity : Z := 1024.
Definition defaultCheckpointRunBytes : Z := 4194304.
Definition defaultCheckpointTotalBytes : Z := 67108864.
Definition maxCheckpointStringBytes : Z := 1024.
Definition maxCheckpointSummaryBytes : Z := 4096.
Definition maxCheckpointMapEntries : Z := 32.

Record CheckpointReceiptTime := mkCheckpointReceipt { Receipt_Monotonic : Z; Receipt_Unix : Z; Receipt_Error : Z }.
Record CheckpointRequest := mkCheckpointRequest {
  CheckpointRequest_Sequence : string;
  CheckpointRequest_IdempotencyKey : string;
  CheckpointRequest_Type : string;
  CheckpointRequest_Phase : string;
  CheckpointRequest_ToolName : string;
  CheckpointRequest_Summary : string;
  CheckpointRequest_Labels : Labels;
  CheckpointRequest_Metadata : Labels;
  CheckpointRequest_ClientReportedUnixNS : string;
}.
Record CheckpointOptions := mkCheckpointOptions {
  CheckpointOptions_MaxBodyBytes : Z;
  CheckpointOptions_RequestsPerSecond : Z;
  CheckpointOptions_CapacityPerRun : Z;
  CheckpointOptions_CapacityBytesPerRun : Z;
  CheckpointOptions_CapacityBytesTotal : Z;
}.
Record CheckpointHandler := mkCheckpointHandler {
  checkpoint_maxBodyBytes : Z;
  checkpoint_requestsPerSecond : Z;
  checkpoint_capacityPerRun : Z;
  checkpoint_capacityBytesPerRun : Z;
  checkpoint_capacityBytesTotal : Z;
}.
Inductive NewCheckpointHandlerError :=
  | BodyLimitInvalid | RateInvalid | CapacityInvalid | RunBytesInvalid | TotalBytesInvalid.
Definition NewCheckpointHandler (options : CheckpointOptions) : result NewCheckpointHandlerError CheckpointHandler :=
  let body := or_default (CheckpointOptions_MaxBodyBytes options) defaultCheckpointBodyBytes in
  let rate := or_default (CheckpointOptions_RequestsPerSecond options) defaultCheckpointRate in
  let capacity := or_default (CheckpointOptions_CapacityPerRun options) defaultCheckpointCapacity in
  let runBytes := or_default (CheckpointOptions_CapacityBytesPerRun options) defaultCheckpointRunBytes in
  let totalBytes := or_default (CheckpointOptions_CapacityBytesTotal options) defaultCheckpointTotalBytes in
  if (body <? 1) || (defaultCheckpointBodyBytes <? body) then Err BodyLimitInvalid
  else if (rate <? 1) || (defaultCheckpointRate <? rate) then Err RateInvalid
  else if (capacity <? 1) || (defaultCheckpointCapacity <? capacity) then Err CapacityInvalid
  else if (runBytes <? 1) || (defaultCheckpointRunBytes <? runBytes) then Err RunBytesInvalid
  else if (totalBytes <? runBytes) || (defaultCheckpointTotalBytes <? totalBytes) then Err TotalBytesInvalid
  else Ok (mkCheckpointHandler body rate capacity runBytes totalBytes).

(** ** Receipt clock *)
Definition captureCheckpointReceiptTime {Ce} (before realtime after : result Ce Z) : result (CaptureError Ce) CheckpointReceiptTime :=
  match before with
  | Err e => Err (MonotonicBefore e)
  | Ok b => match realtime with
            | Err e => Err (Realtime e)
            | Ok u => match after with
                      | Err e => Err (MonotonicAfter e)
                      | Ok a => match Calibrate b u a with
                                | Err e => Err (CaptureInvalid e)
                                | Ok s => Ok (mkCheckpointReceipt (Sample_MonotonicNS s) (Sample_UnixNS s) (Sample_ErrorNS s))
                                end
                      end
            end
  end.

(** ** The rate limiter *)
Definition float64_of (z : Z) : spec_float := binary_normalize 53 1024 z 0 false.
Definition fadd : spec_float -> spec_float -> spec_float := SFadd 53 1024.
Definition fsub : spec_float -> spec_float -> spec_float := SFsub 53 1024.
Definition fmul : spec_float -> spec_float -> spec_float := SFmul 53 1024.
Definition fdiv : spec_float -> spec_float -> spec_float := SFdiv 53 1024.
Definition fgt (x y : spec_float) : bool := SFltb y x.
Definition set_rate (state : checkpointRunState) (tokens : spec_float) (updated : Z) : checkpointRunState :=
  mkCheckpointState (State_nextSequence state) (State_bySequence state) (State_byKey state) tokens updated (State_retainedBytes state).
Definition refillCheckpointTokens (state : checkpointRunState) (nowNS limit : Z) : checkpointRunState :=
  let maximum := float64_of limit in
  let tokens := if fgt (State_rateTokens state) maximum then maximum else State_rateTokens state in
  if nowNS <=? State_rateUpdated state then set_rate state tokens (State_rateUpdated state)
  else
    let elapsedSeconds := fdiv (float64_of (to_int64 (nowNS - State_rateUpdated state))) (float64_of 1000000000) in
    let tokens := fadd tokens (fmul elapsedSeconds (float64_of limit)) in
    set_rate state (if fgt tokens maximum then maximum else tokens) nowNS.

(** ** Authorisation *)
Definition checkpointRunAuthorizedLocked (store : RunStore) (runID tokenHash : string) (tokenExpiry now : Time) : bool :=
  if negb (Before now tokenExpiry) then false
  else match store_runs store !! runID with
       | None => false
       | Some run =>
           if (Run_TokenHash run != tokenHash) || (Run_Status run != "active") || IsZero (Run_RunExpiry run) ||
              negb (Before now (Run_RunExpiry run)) || negb (Before now (Run_TokenExpiry run))
           then false
           else negb (bool_decide (runID ∈ store_terminating store))
       end.

Inductive CheckpointError :=
  | errCheckpointConflict | errCheckpointRate | errCheckpointAuth | errCheckpointService | errContext.
(** Whether the context is done when it is first and when it is next read. *)
Record Context := mkContext { ctx_done_before : bool; ctx_done_locked : bool }.

Definition set_state (store : RunStore) (runID : string) (state : checkpointRunState) : RunStore :=
  set_checkpoints store (<[runID := state]> (store_checkpoints store)) (store_checkpointBytes store).
Definition new_state (ch : CheckpointHandler) (now : Time) : checkpointRunState :=
  mkCheckpointState 1 ∅ ∅ (float64_of (checkpoint_requestsPerSecond ch)) (UnixNano now) 0.
Definition authorizeAndCharge (h : Handler) (ch : CheckpointHandler) (store : RunStore) (ctx : Context) (now : Time) (runID token : string) : RunStore * option CheckpointError :=
  if ctx_done_before ctx then (store, Some errContext)
  else match parseIngestToken h token with
  | None => (store, Some errCheckpointAuth)
  | Some (parsedRunID, tokenHash, tokenExpiry) =>
      if parsedRunID != runID then (store, Some errCheckpointAuth)
      else if ctx_done_locked ctx then (store, Some errContext)
      else if negb (checkpointRunAuthorizedLocked store runID tokenHash tokenExpiry now) then (store, Some errCheckpointAuth)
      else
        let state := default (new_state ch now) (store_checkpoints store !! runID) in
        let state := refillCheckpointTokens state (UnixNano now) (checkpoint_requestsPerSecond ch) in
        if SFltb (State_rateTokens state) (float64_of 1) then (set_state store runID state, Some errCheckpointRate)
        else (set_state store runID (set_rate state (fsub (State_rateTokens state) (float64_of 1)) (State_rateUpdated state)), None)
  end.

(** ** Replays *)
Definition cloneCheckpoint (record : Checkpoint) : Checkpoint :=
  mkCheckpoint (Checkpoint_ID record) (Checkpoint_RunID record) (Checkpoint_Sequence record) (Checkpoint_IdempotencyKey record)
    (Checkpoint_ServerReceivedMonotonicNS record) (Checkpoint_ServerReceivedUnixNS record) (Checkpoint_ClockCalibrationErrorNS record)
    (Checkpoint_ClientReportedUnixNS record) (Checkpoint_Type record) (Checkpoint_Phase record) (Checkpoint_ToolName record)
    (Checkpoint_Summary record) (cloneLabels (Checkpoint_Labels record)) (cloneLabels (Checkpoint_Metadata record)) (Checkpoint_Source record).
Inductive Replayed := ReplayOf (record : Checkpoint) | ReplayConflict | NotReplayed.
Definition checkpointReplay (state : checkpointRunState) (sequence : Z) (key fingerprint : string) : Replayed :=
  let by_sequence := if negb (sequence =? 0) then State_bySequence state !! sequence else None in
  let by_key := if key != "" then State_byKey state !! key else None in
  let check (found : checkpointEnvelope) :=
    if Envelope_fingerprint found != fingerprint then ReplayConflict else ReplayOf (cloneCheckpoint (Envelope_record found)) in
  match by_sequence, by_key with
  | Some found, Some envelope =>
      if Checkpoint_ID (Envelope_record found) != Checkpoint_ID (Envelope_record envelope) then ReplayConflict else check envelope
  | None, Some envelope => check envelope
  | Some found, None => check found
  | None, None => NotReplayed
  end.

(** ** Acceptance *)
Definition checkpoint_record (run : AgentRun) (input : CheckpointRequest) (checkpointID : string) (sequence clientTime : Z) (receipt : CheckpointReceiptTime) : Checkpoint :=
  mkCheckpoint checkpointID (Run_RunID run) (FormatUint sequence) (CheckpointRequest_IdempotencyKey input)
    (FormatUint (Receipt_Monotonic receipt)) (FormatUint (Receipt_Unix receipt)) (FormatUint (Receipt_Error receipt))
    (if negb (clientTime =? 0) then FormatUint clientTime else "")
    (CheckpointRequest_Type input) (CheckpointRequest_Phase input) (CheckpointRequest_ToolName input) (CheckpointRequest_Summary input)
    (cloneLabels (CheckpointRequest_Labels input)) (cloneLabels (CheckpointRequest_Metadata input)) "agent_claim".
Definition insert_checkpoint (state : checkpointRunState) (sequence : Z) (key : string) (envelope : checkpointEnvelope) : checkpointRunState :=
  mkCheckpointState (wrap64 (State_nextSequence state + 1)) (<[sequence := envelope]> (State_bySequence state))
    (if key != "" then <[key := envelope]> (State_byKey state) else State_byKey state)
    (State_rateTokens state) (State_rateUpdated state) (State_retainedBytes state + Envelope_retainedBytes envelope).

(** The collaborators of [accept]: the receipt clock, the random source and
    [onAccepted], if any. *)
Record IngestEnv := mkIngestEnv {
  env_clock : option CheckpointReceiptTime;
  env_random : string;
  env_onAccepted : option (Checkpoint -> bool);
}.
(** The store, the rest of the random source, the calls of [onAccepted] and
    the outcome: the record and whether it is a replay. *)
Definition accept (h : Handler) (ch : CheckpointHandler) (store : RunStore) (ctx : Context) (env : IngestEnv) (now : Time)
    (runID token : string) (input : CheckpointRequest) (requestedSequence clientTime : Z) (fingerprint : string) (retainedBytes : Z)
    : RunStore * string * list Checkpoint * result CheckpointError (Checkpoint * bool) :=
  let fail e := (store, env_random env, [], Err e) in
  if ctx_done_before ctx then fail errContext
  else match parseIngestToken h token with
  | None => fail errCheckpointAuth
  | Some (parsedRunID, tokenHash, tokenExpiry) =>
  if parsedRunID != runID then fail errCheckpointAuth
  else if ctx_done_locked ctx then fail errContext
  else if negb (checkpointRunAuthorizedLocked store runID tokenHash tokenExpiry now) then fail errCheckpointAuth
  else
    let run := run_or_zero store runID in
    match store_checkpoints store !! runID with
    | None => fail errCheckpointService
    | Some state =>
    match checkpointReplay state requestedSequence (CheckpointRequest_IdempotencyKey input) fingerprint with
    | ReplayOf replay => (store, env_random env, [], Ok (replay, true))
    | ReplayConflict => fail errCheckpointConflict
    | NotReplayed =>
        let sequence := if requestedSequence =? 0 then State_nextSequence state else requestedSequence in
        if negb (sequence =? State_nextSequence state) then fail errCheckpointConflict
        else if checkpoint_capacityPerRun ch <=? Z.of_nat (size (State_bySequence state)) then fail errCheckpointService
        else if (retainedBytes <? 1) || (checkpoint_capacityBytesPerRun ch <? State_retainedBytes state + retainedBytes) ||
                (checkpoint_capacityBytesTotal ch <? store_checkpointBytes store + retainedBytes) then fail errCheckpointService
        else match env_clock env with
        | None => fail errCheckpointService
        | Some receipt =>
        if (Receipt_Monotonic receipt =? 0) || (Receipt_Unix receipt =? 0) then fail errCheckpointService
        else match randomHex (env_random env) 16 with
        | (random, None) => (store, random, [], Err errCheckpointService)
        | (random, Some checkpointID) =>
            let record := checkpoint_record run input checkpointID sequence clientTime receipt in
            let submitted := match env_onAccepted env with Some _ => [cloneCheckpoint record] | None => [] end in
            if match env_onAccepted env with Some accepted => negb (accepted (cloneCheckpoint record)) | None => false end
            then (store, random, submitted, Err errCheckpointService)
            else
              let envelope := mkEnvelope record fingerprint retainedBytes in
              let state := insert_checkpoint state sequence (CheckpointRequest_IdempotencyKey input) envelope in
              (set_checkpoints store (<[runID := state]> (store_checkpoints store)) (store_checkpointBytes store + retainedBytes),
               random, submitted, Ok (cloneCheckpoint record, false))
        end end
    end end
  end.

(** ** Requests *)
Definition alnum (c : ascii) : bool := in_range 65 90 (byte_val c) || in_range 97 122 (byte_val c) || in_range 48 57 (byte_val c).
Definition key_char (c : ascii) : bool := alnum c || bool_decide (c ∈ ["."%char; "_"%char; ":"%char; "-"%char]).
(** [^[A-Za-z0-9][A-Za-z0-9._:-]{0,127}$]. *)
Definition idempotencyPattern (key : string) : bool :=
  match key with
  | EmptyString => false
  | String c rest => alnum c && str_forall key_char rest && (slen rest <=? 127)
  end.
Definition validCheckpointType (value : string) : bool :=
  bool_decide (value ∈ ["run_started"; "llm_request"; "llm_response"; "tool_planned"; "tool_started"; "tool_finished"; "run_finished"; "run_failed"]).
Inductive CheckpointRequestError :=
  | NotPositiveDecimal (name : string) | SequenceOrKeyRequired | IdempotencyKeyInvalid | CheckpointTypeUnsupported
  | FieldTooLong (name : string) (limit : Z) | MapTooLarge (name : string) | MapEntryInvalid (name : string).
Definition parseOptionalPositiveUint64 (value name : string) : result CheckpointRequestError Z :=
  if value == "" then Ok 0
  else match ParseUint value with
       | None => Err (NotPositiveDecimal name)
       | Some parsed => if parsed =? 0 then Err (NotPositiveDecimal name) else Ok parsed
       end.
Definition map_entry_ok (kv : string * string) : bool :=
  negb ((TrimSpace kv.1 == "") || (128 <? slen kv.1) || (maxCheckpointStringBytes <? slen kv.2)).
Definition validateCheckpointMap (name : string) (values : Labels) : result CheckpointRequestError unit :=
  let entries := map_to_list (default ∅ values) in
  if maxCheckpointMapEntries <? len entries then Err (MapTooLarge name)
  else if forallb map_entry_ok entries then Ok tt else Err (MapEntryInvalid name).
(** Go visits the two names of the literal map in either order. *)
Definition check_length (f : string * string) : result CheckpointRequestError unit :=
  guard_err (maxCheckpointStringBytes <? slen f.2) (FieldTooLong f.1 maxCheckpointStringBytes).
Definition validateCheckpointRequest (phase_first : bool) (input : CheckpointRequest) : result CheckpointRequestError (Z * Z) :=
  sequence ← parseOptionalPositiveUint64 (CheckpointRequest_Sequence input) "sequence";
  _ ← guard_err ((sequence =? 0) && (CheckpointRequest_IdempotencyKey input == "")) SequenceOrKeyRequired;
  _ ← guard_err ((CheckpointRequest_IdempotencyKey input != "") && negb (idempotencyPattern (CheckpointRequest_IdempotencyKey input))) IdempotencyKeyInvalid;
  _ ← guard_err (negb (validCheckpointType (CheckpointRequest_Type input))) CheckpointTypeUnsupported;
  let phase := ("phase", CheckpointRequest_Phase input) in
  let tool := ("tool_name", CheckpointRequest_ToolName input) in
  _ ← check_length (if phase_first then phase else tool);
  _ ← check_length (if phase_first then tool else phase);
  _ ← guard_err (maxCheckpointSummaryBytes <? slen (CheckpointRequest_Summary input)) (FieldTooLong "summary" maxCheckpointSummaryBytes);
  _ ← validateCheckpointMap "labels" (CheckpointRequest_Labels input);
  _ ← validateCheckpointMap "metadata" (CheckpointRequest_Metadata input);
  clientTime ← parseOptionalPositiveUint64 (CheckpointRequest_ClientReportedUnixNS input) "client_reported_unix_ns";
  Ok (sequence, clientTime).

Definition checkpointFingerprint (input : CheckpointRequest) (sequence clientTime : Z) : string :=
  Sum256 (Marshal (JObject [
    ("sequence", JInt sequence); ("idempotency_key", JString (CheckpointRequest_IdempotencyKey input));
    ("type", JString (CheckpointRequest_Type input)); ("phase", JString (CheckpointRequest_Phase input));
    ("tool_name", JString (CheckpointRequest_ToolName input)); ("summary", JString (CheckpointRequest_Summary input));
    ("labels", json_labels (CheckpointRequest_Labels input)); ("metadata", json_labels (CheckpointRequest_Metadata input));
    ("client_time", JInt clientTime)])).

Definition space_tab_break : list ascii := [chr 32; chr 9; chr 13; chr 10].
Definition bearerToken `{UnicodeTables} (header : string) : option string :=
  match Cut (TrimSpace header) " " with
  | None => None
  | Some (scheme, token) =>
      if negb (EqualFold scheme "Bearer") || (token == "") || ContainsAny token space_tab_break then None else Some token
  end.

(** ** Duplicate names *)
(** The tokens [json.Decoder.Token] returns; the list ends where the decoder
    would fail.  [More] is true unless the next token closes. *)
Inductive token :=
  | TOpenObject | TCloseObject | TOpenArray | TCloseArray
  | TString (s : string)
  | TLiteral.
Inductive NamesError := TokenError | NameNotString | DuplicateName | InvalidDelimiter.
Definition next_token (tokens : list token) : result NamesError (token * list token) :=
  match tokens with t :: rest => Ok (t, rest) | [] => Err TokenError end.
Definition more (tokens : list token) : bool :=
  match tokens with [] | TCloseObject :: _ | TCloseArray :: _ => false | _ => true end.
Section Names.
(** [readValue] of the enclosing function. *)
Context (read_value : list token -> result NamesError (list token)).
Fixpoint read_members (fuel : nat) (seen : list string) (tokens : list token) : result NamesError (list token) :=
  if negb (more tokens) then Ok tokens
  else match fuel with
  | O => Err TokenError
  | S f =>
      '(t, rest) ← next_token tokens;
      match t with
      | TString name =>
          if bool_decide (name ∈ seen) then Err DuplicateName
          else rest ← read_value rest; read_members f (name :: seen) rest
      | _ => Err NameNotString
      end
  end.
Fixpoint read_elements (fuel : nat) (tokens : list token) : result NamesError (list token) :=
  if negb (more tokens) then Ok tokens
  else match fuel with
  | O => Err TokenError
  | S f => rest ← read_value tokens; read_elements f rest
  end.
End Names.
(** Every call and every turn of a loop takes a token, so the number of
    tokens is fuel enough ([read_value_tokens]). *)
Fixpoint read_value (fuel : nat) (tokens : list token) : result NamesError (list token) :=
  match fuel with
  | O => Err TokenError
  | S f =>
      '(t, rest) ← next_token tokens;
      match t with
      | TString _ | TLiteral => Ok rest
      | TOpenObject => rest ← read_members (read_value f) f [] rest; '(_, rest) ← next_token rest; Ok rest
      | TOpenArray => rest ← read_elements (read_value f) f rest; '(_, rest) ← next_token rest; Ok rest
      | TCloseObject | TCloseArray => Err InvalidDelimiter
      end
  end.
Definition rejectDuplicateJSONNames (tokens : list token) : result NamesError unit :=
  _ ← read_value (S (length tokens)) tokens; Ok tt.

(** ** The handler *)
(** A body that fails to arrive, or its bytes with the tokens and the request
    the JSON decoder makes of them. *)
Inductive Body :=
  | BodyUnreadable
  | BodyBytes (payload : string) (tokens : list token) (decoded : option CheckpointRequest).
Inductive CheckpointReply :=
  | CheckpointHTTPError (status : Z) (invalid : option CheckpointRequestError)
  | CheckpointStored (status : Z) (record : Checkpoint).
(** Status of an [accept] error. *)
Definition accept_status (e : CheckpointError) : Z :=
  match e with
  | errCheckpointConflict => 409 | errCheckpointRate => 429 | errCheckpointAuth => 401 | errCheckpointService => 503 | errContext => 408
  end.
Definition charge_status (e : CheckpointError) : Z :=
  match e with errCheckpointRate => 429 | errContext => 408 | _ => 401 end.
Definition trim_type (input : CheckpointRequest) : CheckpointRequest :=
  mkCheckpointRequest (CheckpointRequest_Sequence input) (CheckpointRequest_IdempotencyKey input) (TrimSpace (CheckpointRequest_Type input))
    (CheckpointRequest_Phase input) (CheckpointRequest_ToolName input) (CheckpointRequest_Summary input)
    (CheckpointRequest_Labels input) (CheckpointRequest_Metadata input) (CheckpointRequest_ClientReportedUnixNS input).
Definition media_type `{UnicodeTables} (contentType : string) : string :=
  ToLower (TrimSpace (hd "" (split_byte ";"%char contentType))).
Inductive ReadError := errCheckpointBodyTooLarge | BodyReadFailed | BodyEmpty.
Definition readCheckpointBody (body : Body) (limit : Z) : result ReadError string :=
  match body with
  | BodyUnreadable => Err BodyReadFailed
  | BodyBytes payload _ _ =>
      if limit <? slen payload then Err errCheckpointBodyTooLarge
      else if TrimSpace payload == "" then Err BodyEmpty else Ok payload
  end.
Definition decode_request (ch : CheckpointHandler) (body : Body) : result Z (string * CheckpointRequest) :=
  match body with
  | BodyUnreadable => Err 400
  | BodyBytes _ tokens decoded =>
      match readCheckpointBody body (checkpoint_maxBodyBytes ch) with
      | Err errCheckpointBodyTooLarge => Err 413
      | Err _ => Err 400
      | Ok payload =>
          match rejectDuplicateJSONNames tokens with
          | Err _ => Err 400
          | Ok _ => match decoded with None => Err 400 | Some input => Ok (payload, trim_type input) end
          end
      end
  end.
(** One request: the authorisation and the insertion read the clock and the
    context separately. *)
Definition CheckpointHandler_ServeHTTP `{UnicodeTables} (h : Handler) (ch : CheckpointHandler) (store : RunStore)
    (authorization contentType runID : string) (body : Body) (phase_first : bool) (ctx1 ctx2 : Context) (now1 now2 : Time) (env : IngestEnv)
    : RunStore * string * list Checkpoint * CheckpointReply :=
  let reply store status := (store, env_random env, [], CheckpointHTTPError status None) in
  match bearerToken authorization with
  | None => reply store 401
  | Some token =>
  match authorizeAndCharge h ch store ctx1 now1 runID token with
  | (store, Some e) => reply store (charge_status e)
  | (store, None) =>
  if media_type contentType != "application/json" then reply store 415
  else match decode_request ch body with
  | Err status => reply store status
  | Ok (payload, input) =>
  match validateCheckpointRequest phase_first input with
  | Err e => (store, env_random env, [], CheckpointHTTPError 400 (Some e))
  | Ok (sequence, clientTime) =>
      let '(store, random, submitted, r) :=
        accept h ch store ctx2 env now2 runID token input sequence clientTime (checkpointFingerprint input sequence clientTime) (slen payload + 4096) in
      (store, random, submitted,
       match r with
       | Err e => CheckpointHTTPError (accept_status e) None
       | Ok (record, replayed) => CheckpointStored (if replayed then 200 else 201) record
       end)
  end end end end.

(** ** Lemmas *)
Lemma cloneCheckpoint_id record : cloneCheckpoint record = record.
Proof. unfold cloneCheckpoint. rewrite !cloneLabels_id. by destruct record. Qed.

(** *** Duplicate names *)
Fixpoint tokens_of (v : json) : list token :=
  match v with
  | JNull | JBool _ | JNumber _ => [TLiteral]
  | JString s => [TString s]
  | JArray l => TOpenArray :: concat (map tokens_of l) ++ [TCloseArray]
  | JObject fields => TOpenObject :: concat (map (fun f => TString f.1 :: tokens_of f.2) fields) ++ [TCloseObject]
  end.
Definition verdict (unique : bool) (rest : list token) : result NamesError (list token) :=
  if unique then Ok rest else Err DuplicateName.
Definition reads (read : list token -> result NamesError (list token)) (bound : nat) (v : json) : Prop :=
  forall rest, (length (tokens_of v ++ rest) <= bound)%nat -> read (tokens_of v ++ rest) = verdict (names_unique v) rest.

Lemma tokens_first v : exists t l, tokens_of v = t :: l /\ t <> TCloseObject /\ t <> TCloseArray.
Proof. destruct v; cbn; eauto 10. Qed.
Lemma read_elements_spec read bound l : Forall (reads read bound) l -> forall fuel rest,
  (length (concat (map tokens_of l) ++ TCloseArray :: rest) <= bound)%nat -> (length (concat (map tokens_of l)) <= fuel)%nat ->
  read_elements read fuel (concat (map tokens_of l) ++ TCloseArray :: rest) = verdict (forallb names_unique l) (TCloseArray :: rest).
Proof.
  induction 1 as [|v l Hv _ IH]; intros fuel rest Hb Hf; [by destruct fuel|]. cbn [map concat forallb] in *.
  rewrite <-app_assoc in *. destruct (tokens_first v) as (t & ts & Ev & Ht1 & Ht2).
  pose proof (Hv (concat (map tokens_of l) ++ TCloseArray :: rest)) as Hr. rewrite Ev in *. cbn [app length] in *.
  rewrite length_app in *. destruct fuel as [|fuel]; [lia|]. unfold read_elements; fold read_elements.
  assert (more (t :: ts ++ concat (map tokens_of l) ++ TCloseArray :: rest) = true) as -> by (by destruct t). cbn [negb].
  rewrite Hr by lia. unfold verdict at 1. destruct (names_unique v); [|done]. cbn [mbind result_bind]. apply IH; lia.
Qed.
Lemma read_members_spec read bound fields : Forall (fun f => reads read bound f.2) fields -> forall fuel seen rest,
  NoDup seen ->
  (length (concat (map (fun f => TString f.1 :: tokens_of f.2) fields) ++ TCloseObject :: rest) <= bound)%nat ->
  (length (concat (map (fun f => TString f.1 :: tokens_of f.2) fields)) <= fuel)%nat ->
  read_members read fuel seen (concat (map (fun f => TString f.1 :: tokens_of f.2) fields) ++ TCloseObject :: rest) =
    verdict (bool_decide (NoDup (map fst fields ++ seen)) && forallb (fun f => names_unique f.2) fields) (TCloseObject :: rest).
Proof.
  induction 1 as [|[name v] fields Hv _ IH]; intros fuel seen rest Hs Hb Hf.
  - rewrite bool_decide_eq_true_2 by done. by destruct fuel.
  - cbn [map concat forallb fst snd app] in *. rewrite <-app_assoc in *.
    set (rest' := concat (map (fun f => TString f.1 :: tokens_of f.2) fields) ++ TCloseObject :: rest) in *.
    cbn [length] in *. rewrite length_app in *. destruct fuel as [|fuel]; [lia|].
    unfold read_members; fold read_members. cbn [more negb next_token mbind result_bind].
    case_bool_decide as Hin.
    + rewrite bool_decide_eq_false_2; [done|]. intros [Hn _]%NoDup_cons. set_solver.
    + rewrite (Hv rest') by (cbn [snd]; rewrite length_app; lia). unfold verdict at 1. cbn [snd]. destruct (names_unique v).
      2:{ cbn [mbind result_bind]. by rewrite andb_false_r. }
      cbn [mbind result_bind andb]. unfold rest'. rewrite IH; [|by constructor|unfold rest' in Hb; lia|lia].
      f_equal. f_equal. apply bool_decide_ext. by rewrite <-Permutation_middle.
Qed.
Lemma read_value_tokens v : forall fuel rest, (length (tokens_of v ++ rest) < fuel)%nat ->
  read_value fuel (tokens_of v ++ rest) = verdict (names_unique v) rest.
Proof.
  induction v as [| | | |l IH|fields IH] using json_induction; intros [|fuel] rest Hf; try lia; try done.
  - cbn [tokens_of app length] in *. rewrite <-app_assoc in *. cbn [app] in *. cbn [read_value next_token mbind result_bind names_unique].
    pose proof Hf as Hl. rewrite length_app in Hl. cbn [length] in Hl.
    rewrite (read_elements_spec (read_value fuel) (length (concat (map tokens_of l) ++ TCloseArray :: rest)) l); [|..|lia|lia].
    + unfold verdict. by destruct (forallb names_unique l).
    + eapply Forall_impl; [exact IH|]. intros v Hv rest' Hr. apply Hv. lia.
  - cbn [tokens_of app length] in *. rewrite <-app_assoc in *. cbn [app] in *. cbn [read_value next_token mbind result_bind names_unique].
    pose proof Hf as Hl. rewrite length_app in Hl. cbn [length] in Hl.
    rewrite (read_members_spec (read_value fuel) (length (concat (map (fun f => TString f.1 :: tokens_of f.2) fields) ++ TCloseObject :: rest)) fields);
      [|..|constructor|lia|lia].
    + rewrite app_nil_r. unfold verdict. by destruct (_ && _).
    + eapply Forall_impl; [exact IH|]. intros v Hv rest' Hr. apply Hv. lia.
Qed.

(** C40: on the tokens of any JSON value, [rejectDuplicateJSONNames] ends and
    accepts exactly the values in which no object, at any depth, repeats a
    name; the others it refuses for a duplicate name. *)
Theorem rejectDuplicateJSONNames_exact v rest :
  rejectDuplicateJSONNames (tokens_of v ++ rest) = if names_unique v then Ok tt else Err DuplicateName.
Proof.
  unfold rejectDuplicateJSONNames. rewrite read_value_tokens by lia. unfold verdict. by destruct (names_unique v).
Qed.

(** *** Insertion *)
Lemma refill_keeps st nowNS limit : exists tokens updated, refillCheckpointTokens st nowNS limit = set_rate st tokens updated.
Proof. unfold refillCheckpointTokens. destruct (nowNS <=? _); eauto. Qed.
(** What an authorised call knows about the run. *)
Lemma authorized_run store runID hash expiry now : checkpointRunAuthorizedLocked store runID hash expiry now = true ->
  exists run, store_runs store !! runID = Some run /\ Run_Status run = "active".
Proof.
  unfold checkpointRunAuthorizedLocked. destruct (negb _); [done|]. destruct (store_runs store !! runID) as [run|]; [|done].
  case_bool_decide; [|done]. case_bool_decide; [|done]. eauto.
Qed.
Lemma authorizeAndCharge_cases h ch s ctx now runID token s' e : authorizeAndCharge h ch s ctx now runID token = (s', e) ->
  s' = s \/ exists tokens updated, s' = set_state s runID (set_rate (default (new_state ch now) (store_checkpoints s !! runID)) tokens updated) /\
    exists run, store_runs s !! runID = Some run /\ Run_Status run = "active".
Proof.
  unfold authorizeAndCharge. destruct (ctx_done_before ctx); [intros [= <- _]; auto|].
  destruct (parseIngestToken h token) as [[[id hash] expiry]|]; [|intros [= <- _]; auto].
  destruct (_ != _); [intros [= <- _]; auto|]. destruct (ctx_done_locked ctx); [intros [= <- _]; auto|].
  destruct (checkpointRunAuthorizedLocked s runID hash expiry now) eqn:Ea; cbn [negb]; [|intros [= <- _]; auto].
  apply authorized_run in Ea. cbv zeta.
  destruct (refill_keeps (default (new_state ch now) (store_checkpoints s !! runID)) (UnixNano now) (checkpoint_requestsPerSecond ch)) as (t & u & ->).
  destruct (SFltb _ _); intros [= <- _]; right; eauto.
Qed.

(** The conditions under which a checkpoint is stored. *)
Record stored (ch : CheckpointHandler) (s : RunStore) (runID : string) (st : checkpointRunState) (key : string) (requested : Z) (bytes : Z) : Prop := {
  stored_state : store_checkpoints s !! runID = Some st;
  stored_active : exists run, store_runs s !! runID = Some run /\ Run_Status run = "active";
  stored_sequence : requested = 0 \/ requested = State_nextSequence st;
  stored_key : key <> "" -> State_byKey st !! key = None;
  stored_capacity : Z.of_nat (size (State_bySequence st)) < checkpoint_capacityPerRun ch;
  stored_bytes : 1 <= bytes /\ State_retainedBytes st + bytes <= checkpoint_capacityBytesPerRun ch /\
    store_checkpointBytes s + bytes <= checkpoint_capacityBytesTotal ch;
}.
Lemma accept_cases h ch s ctx env now runID token input requested clientTime fp bytes s' random submitted r :
  accept h ch s ctx env now runID token input requested clientTime fp bytes = (s', random, submitted, r) ->
  let key := CheckpointRequest_IdempotencyKey input in
  match r with
  | Ok (record, false) => exists st receipt id, stored ch s runID st key requested bytes /\
      record = checkpoint_record (run_or_zero s runID) input id (State_nextSequence st) clientTime receipt /\
      submitted = match env_onAccepted env with Some _ => [record] | None => [] end /\
      s' = set_checkpoints s (<[runID := insert_checkpoint st (State_nextSequence st) key (mkEnvelope record fp bytes)]> (store_checkpoints s))
             (store_checkpointBytes s + bytes)
  | Ok (record, true) => s' = s /\ submitted = [] /\ random = env_random env /\
      exists st, store_checkpoints s !! runID = Some st /\ checkpointReplay st requested key fp = ReplayOf record
  | Err _ => s' = s
  end.
Proof.
  unfold accept. cbv zeta. intros H. destruct (ctx_done_before ctx); [by simplify_eq|].
  destruct (parseIngestToken h token) as [[[id hash] expiry]|]; [|by simplify_eq].
  destruct (_ != _); [by simplify_eq|]. destruct (ctx_done_locked ctx); [by simplify_eq|].
  destruct (checkpointRunAuthorizedLocked s runID hash expiry now) eqn:Ea; cbn [negb] in H; [|by simplify_eq].
  destruct (store_checkpoints s !! runID) as [st|] eqn:Est; [|by simplify_eq].
  destruct (checkpointReplay st requested _ fp) as [record| |] eqn:Er; [simplify_eq; split_and!; eauto|by simplify_eq|].
  destruct (Z.eqb_spec (if requested =? 0 then State_nextSequence st else requested) (State_nextSequence st)) as [Es|]; cbn [negb] in H; [|by simplify_eq].
  rewrite Es in H. destruct (Z.leb_spec (checkpoint_capacityPerRun ch) (Z.of_nat (size (State_bySequence st)))) as [|Hc]; [by simplify_eq|].
  destruct (_ || _ || _) eqn:Eb; [by simplify_eq|]. destruct (env_clock env) as [receipt|]; [|by simplify_eq].
  destruct (_ || _) in H; [by simplify_eq|]. destruct (randomHex (env_random env) 16) as [random' [cid|]]; [|by simplify_eq].
  rewrite cloneCheckpoint_id in H. destruct (match env_onAccepted env with Some accepted => negb (accepted _) | None => false end); [by simplify_eq|].
  simplify_eq. exists st, receipt, cid. split_and!; [|done..]. split; try done; [by apply (authorized_run _ _ _ _ _ Ea)|..].
  - destruct (Z.eqb_spec requested 0); auto.
  - intros Hk. revert Er. unfold checkpointReplay. rewrite bool_decide_eq_false_2 by done. cbn [negb].
    destruct (State_byKey st !! _) as [e|]; [|done].
    destruct (if negb (requested =? 0) then State_bySequence st !! requested else None); repeat case_match; done.
  - apply orb_false_iff in Eb as [Eb ?]. apply orb_false_iff in Eb as [? ?]. lia.
Qed.

(** ** Exactly once, in order *)
(** A checkpoint answered with 201: the request and the record. *)
Record LogEntry := mkLogEntry {
  log_request : CheckpointRequest;
  log_requested : Z;
  log_clientTime : Z;
  log_record : Checkpoint;
}.
Definition log_fingerprint (x : LogEntry) : string := checkpointFingerprint (log_request x) (log_requested x) (log_clientTime x).
Definition log_key (x : LogEntry) : string := CheckpointRequest_IdempotencyKey (log_request x).
Definition log_run (x : LogEntry) : string := Checkpoint_RunID (log_record x).

Section Ingest.
Context (h : Handler) (ch : CheckpointHandler).

(** Stores the calls of the program lead to, with the checkpoints accepted on
    the way, in order. *)
Inductive ingest : RunStore -> list LogEntry -> Prop :=
  | ingest_new : ingest NewRunStore []
  | ingest_lifecycle s log s' : ingest s log -> store_step s s' -> ingest s' log
  | ingest_charge s log ctx now runID token s' e : ingest s log ->
      authorizeAndCharge h ch s ctx now runID token = (s', e) -> ingest s' log
  | ingest_accept s log ctx env now runID token input requested clientTime bytes s' random submitted r : ingest s log ->
      (requested <> 0 \/ CheckpointRequest_IdempotencyKey input <> "") ->
      accept h ch s ctx env now runID token input requested clientTime (checkpointFingerprint input requested clientTime) bytes
        = (s', random, submitted, r) ->
      ingest s' (log ++ match r with Ok (record, false) => [mkLogEntry input requested clientTime record] | _ => [] end).

Record state_ok (runID : string) (st : checkpointRunState) : Prop := {
  st_next : State_nextSequence st = 1 + Z.of_nat (size (State_bySequence st));
  st_dom n : is_Some (State_bySequence st !! n) <-> 1 <= n < State_nextSequence st;
  st_capacity : Z.of_nat (size (State_bySequence st)) <= checkpoint_capacityPerRun ch;
  st_bytes : 0 <= State_retainedBytes st <= checkpoint_capacityBytesPerRun ch;
  st_record n e : State_bySequence st !! n = Some e -> Checkpoint_Sequence (Envelope_record e) = FormatUint n;
  st_key key e : State_byKey st !! key = Some e <->
    key <> "" /\ exists n, State_bySequence st !! n = Some e /\ Checkpoint_IdempotencyKey (Envelope_record e) = key;
}.
Definition sequences (runID : string) (log : list LogEntry) : list string :=
  map (fun x => Checkpoint_Sequence (log_record x)) (List.filter (fun x => log_run x == runID) log).
Definition numbered (n : nat) : list string := map (fun k => FormatUint (Z.of_nat k)) (seq 1 n).
Definition recorded (st : checkpointRunState) (x : LogEntry) : Prop :=
  exists n e, State_bySequence st !! n = Some e /\ Envelope_record e = log_record x /\ Envelope_fingerprint e = log_fingerprint x /\
    (log_requested x = 0 \/ log_requested x = n) /\ Checkpoint_IdempotencyKey (log_record x) = log_key x /\
    (log_requested x <> 0 \/ log_key x <> "").
Record ingest_ok (s : RunStore) (log : list LogEntry) : Prop := {
  io_store : store_ok s;
  io_state runID st : store_checkpoints s !! runID = Some st -> state_ok runID st;
  io_log runID st : store_checkpoints s !! runID = Some st -> sequences runID log = numbered (size (State_bySequence st));
  io_other runID : store_checkpoints s !! runID = None ->
    (forall run, store_runs s !! runID = Some run -> Run_Status run = "active" -> sequences runID log = []) /\
    (store_runs s !! runID = None -> sequences runID log = []) /\
    exists n, sequences runID log = numbered n /\ Z.of_nat n <= checkpoint_capacityPerRun ch;
  io_recorded st x : x ∈ log -> store_checkpoints s !! log_run x = Some st -> recorded st x;
  io_bytes : store_checkpointBytes s <= checkpoint_capacityBytesTotal ch;
}.

Lemma sequences_app runID log x : sequences runID (log ++ [x]) =
  sequences runID log ++ (if log_run x == runID then [Checkpoint_Sequence (log_record x)] else []).
Proof. unfold sequences. rewrite List.filter_app, map_app. cbn [List.filter]. by destruct (_ == _). Qed.
Lemma in_sequences log x : x ∈ log -> Checkpoint_Sequence (log_record x) ∈ sequences (log_run x) log.
Proof.
  intros Hx. apply list_elem_of_In, in_map_iff. exists x. split; [done|]. apply filter_In. split; [by apply list_elem_of_In|].
  by apply bool_decide_eq_true.
Qed.
Lemma numbered_S n : numbered (S n) = numbered n ++ [FormatUint (Z.of_nat (S n))].
Proof. unfold numbered. rewrite seq_S, map_app. done. Qed.

Context (Hcap : 0 <= checkpoint_capacityPerRun ch <= defaultCheckpointCapacity).
Context (Hrun : 0 <= checkpoint_capacityBytesPerRun ch) (Htotal : 0 <= checkpoint_capacityBytesTotal ch).

Lemma new_state_ok runID now tokens updated : state_ok runID (set_rate (new_state ch now) tokens updated).
Proof.
  split; cbn [set_rate new_state State_nextSequence State_bySequence State_byKey State_retainedBytes]; rewrite ?map_size_empty; try lia.
  - intros n. rewrite lookup_empty. split; [by intros []|lia].
  - intros n e. by rewrite lookup_empty.
  - intros key e. rewrite lookup_empty. split; [done|]. intros (_ & n & Hn & _). by rewrite lookup_empty in Hn.
Qed.
Lemma set_rate_ok runID st tokens updated : state_ok runID st -> state_ok runID (set_rate st tokens updated).
Proof. by intros [H1 H2 H3 H4 H6 H5]. Qed.
Lemma insert_checkpoint_ok s runID st key requested record fp bytes : state_ok runID st -> stored ch s runID st key requested bytes ->
  Checkpoint_IdempotencyKey record = key -> Checkpoint_Sequence record = FormatUint (State_nextSequence st) ->
  state_ok runID (insert_checkpoint st (State_nextSequence st) key (mkEnvelope record fp bytes)).
Proof.
  intros [H1 H2 H3 H4 H6 H5] [_ _ _ Hk Hc Hb] Hkey Hsq. unfold defaultCheckpointCapacity in Hcap.
  assert (State_bySequence st !! State_nextSequence st = None) as Hn by (apply eq_None_not_Some; rewrite H2; lia).
  set (e := mkEnvelope record fp bytes). unfold insert_checkpoint.
  split; cbn [State_nextSequence State_bySequence State_byKey State_retainedBytes Envelope_retainedBytes].
  - rewrite map_size_insert_None, wrap64_small by (done || unfold u64_max; lia). lia.
  - intros n. rewrite wrap64_small, lookup_insert_is_Some, H2 by (unfold u64_max; lia).
    destruct (decide (State_nextSequence st = n)); [lia|]. lia.
  - rewrite map_size_insert_None by done. lia.
  - cbn. lia.
  - intros n e'. rewrite lookup_insert_Some. intros [[<- <-]|[_ He]]; [done|by apply H6].
  - assert (forall n e', <[State_nextSequence st := e]> (State_bySequence st) !! n = Some e' <->
      n = State_nextSequence st /\ e' = e \/ State_bySequence st !! n = Some e') as Hl.
    { intros n e'. rewrite lookup_insert_Some. split; [intros [[-> ->]|[_ ?]]; auto|]. intros [[-> ->]|Hx]; [auto|].
      right. split; [intros <-; congruence|done]. }
    intros key' e'. setoid_rewrite Hl. case_bool_decide as E; cbn [negb].
    + subst key. rewrite H5. split; intros (Hne & n & Hx & Hy); (split; [done|]); exists n; [auto|].
      destruct Hx as [[-> ->]|Hx]; [|done]. cbn in Hy. congruence.
    + rewrite lookup_insert_Some, H5. split.
      * intros [[<- <-]|[Hne (Hne' & n & Hx & Hy)]]; (split; [done|]); eexists; split; eauto.
      * intros (Hne & n & [[-> ->]|Hx] & Hy); [left; cbn in Hy; split; congruence|]. right. split; [|eauto].
        intros <-. assert (State_byKey st !! key = Some e') as Hs by (apply H5; eauto). rewrite Hk in Hs; done.
Qed.

Lemma ingest_ok_lifecycle s log s' : ingest_ok s log -> store_step s s' -> ingest_ok s' log.
Proof.
  intros [H1 H2 H3 H4 H5 H6] Hstep. pose proof (store_step_effect s s' H1 Hstep) as He. pose proof (store_step_ok s s' Hstep H1) as H1'.
  assert (forall r st, store_checkpoints s' !! r = Some st -> store_checkpoints s !! r = Some st) as Hsub.
  { intros r st Hr. destruct (He r) as ([E|[E _]] & _); [by rewrite <-E|congruence]. }
  split; [done|eauto|eauto| |eauto|].
  - intros r Hn. destruct (He r) as (Hc & Hin & Hact).
    assert (store_runs s' !! r = None -> store_runs s !! r = None) as Hin'.
    { intros Hx. destruct (store_runs s !! r) eqn:E; [|done]. rewrite Hx in Hin. by destruct Hin; [eauto|]. }
    destruct (store_checkpoints s !! r) as [st|] eqn:Est.
    + destruct Hc as [E|[_ Hdrop]]; [congruence|]. split_and!; [intros run Hr Ha; by destruct (Hdrop run Hr)| |].
      * intros Hx. destruct (ok_checkpoints s H1 _ _ Est) as (_ & run & [Hr _] & _). rewrite Hin' in Hr; done.
      * exists (size (State_bySequence st)). split; [by apply H3|apply (H2 r st Est)].
    + destruct (H4 r Est) as (Ha & Hb & Hn'). split_and!; [|auto|done].
      intros run Hr Hst. destruct (Hact run Hr Hst) as [Hx|(run0 & Hr0 & Ha0)]; eauto.
  - rewrite (ok_bytes s' H1'). etrans; [|exact H6]. rewrite (ok_bytes s H1). apply total_sub.
    + intros k v Hk. by destruct (ok_checkpoints s H1 _ _ Hk).
    + apply map_subseteq_spec. eauto.
Qed.

(** Changing the state of one active run. *)
Lemma set_state_store_ok s runID st bytes : store_ok s -> 0 <= State_retainedBytes st ->
  (exists run, store_runs s !! runID = Some run /\ Run_Status run = "active") ->
  bytes = store_checkpointBytes s - default 0 (State_retainedBytes <$> store_checkpoints s !! runID) + State_retainedBytes st ->
  store_ok (set_checkpoints s (<[runID := st]> (store_checkpoints s)) bytes).
Proof.
  intros Hok H0 (run & Hr & Ha) ->.
  replace (_ - _ + _) with (total State_retainedBytes (<[runID := st]> (store_checkpoints s))).
  - apply set_checkpoints_ok; [done|]. intros r st'. rewrite lookup_insert_Some. intros [[<- <-]|[_ Hs]]; [|by apply (ok_checkpoints s Hok)].
    split; [done|]. exists run. split; [|done]. split; [done|]. by apply (ok_status s Hok runID).
  - rewrite (ok_bytes s Hok). destruct (store_checkpoints s !! runID) as [st0|] eqn:E; cbn.
    + by rewrite (total_update _ _ _ _ _ E).
    + rewrite total_insert by done. lia.
Qed.
Lemma ingest_ok_charge s log ctx now runID token s' e : ingest_ok s log ->
  authorizeAndCharge h ch s ctx now runID token = (s', e) -> ingest_ok s' log.
Proof.
  intros Hok Hc. apply authorizeAndCharge_cases in Hc as [->|(tokens & updated & -> & Hact)]; [done|].
  pose proof Hok as [H1 H2 H3 H4 H5 H6]. set (st0 := default (new_state ch now) (store_checkpoints s !! runID)).
  assert (state_ok runID (set_rate st0 tokens updated)) as Hst.
  { unfold st0. destruct (store_checkpoints s !! runID) as [st|] eqn:E; cbn; [by apply set_rate_ok, H2|apply new_state_ok]. }
  assert (sequences runID log = numbered (size (State_bySequence st0))) as Hseq.
  { unfold st0. destruct (store_checkpoints s !! runID) as [st|] eqn:E; cbn [default]; [by apply H3|]. destruct Hact as (run & Hr & Ha).
    rewrite (proj1 (H4 runID E) run Hr Ha). cbn. by rewrite map_size_empty. }
  assert (forall r st, <[runID := set_rate st0 tokens updated]> (store_checkpoints s) !! r = Some st ->
    r = runID /\ st = set_rate st0 tokens updated \/ r <> runID /\ store_checkpoints s !! r = Some st) as Hl.
  { intros r st. rewrite lookup_insert_Some. intros [[<- <-]|[? ?]]; auto. }
  split; cbn [set_state set_checkpoints store_checkpoints store_runs store_checkpointBytes].
  - apply set_state_store_ok; [done|apply Hst|done|]. unfold st0. destruct (store_checkpoints s !! runID); cbn; lia.
  - intros r st [[-> ->]|[_ Hr]]%Hl; [done|by apply H2].
  - intros r st [[-> ->]|[_ Hr]]%Hl; [done|by apply H3].
  - intros r. rewrite lookup_insert_None. intros [Hn _]. by apply H4.
  - intros st x Hx [[Er ->]|[_ Hr]]%Hl; [|by apply H5]. unfold st0. destruct (store_checkpoints s !! runID) as [st|] eqn:E.
    + apply (H5 st x Hx). by rewrite Er.
    + destruct Hact as (run & Hr & Ha). assert (Checkpoint_Sequence (log_record x) ∈ sequences runID log) as Hin.
      { rewrite <-Er. by apply in_sequences. }
      rewrite (proj1 (H4 runID E) run Hr Ha) in Hin. by apply elem_of_nil in Hin.
  - done.
Qed.

Lemma recorded_insert s runID st key requested env x : stored ch s runID st key requested (Envelope_retainedBytes env) -> state_ok runID st ->
  recorded st x -> recorded (insert_checkpoint st (State_nextSequence st) key env) x.
Proof.
  intros _ Hst (n & e & He & Hx). exists n, e. split; [|done]. cbn. rewrite lookup_insert_ne; [done|].
  intros E. assert (is_Some (State_bySequence st !! n)) as Hs by eauto. apply (st_dom _ _ Hst) in Hs. lia.
Qed.
Lemma ingest_ok_accept s log ctx env now runID token input requested clientTime bytes s' random submitted r : ingest_ok s log ->
  (requested <> 0 \/ CheckpointRequest_IdempotencyKey input <> "") ->
  accept h ch s ctx env now runID token input requested clientTime (checkpointFingerprint input requested clientTime) bytes
    = (s', random, submitted, r) ->
  ingest_ok s' (log ++ match r with Ok (record, false) => [mkLogEntry input requested clientTime record] | _ => [] end).
Proof.
  intros Hok Hreq Ha. apply accept_cases in Ha. destruct r as [[record [|]]|e].
  1: destruct Ha as (-> & _). 3: rewrite Ha. 1,3: by rewrite app_nil_r.
  destruct Ha as (st & receipt & id & Hstored & Hrec & _ & ->). pose proof Hstored as [Hs Hact Hsq _ _ Hb].
  pose proof Hok as [H1 H2 H3 H4 H5 H6]. pose proof (H2 _ _ Hs) as Hst.
  set (key := CheckpointRequest_IdempotencyKey input) in *. set (st' := insert_checkpoint _ _ _ _).
  assert (state_ok runID st') as Hst' by (apply (insert_checkpoint_ok s runID st key requested); [done..|by rewrite Hrec|by rewrite Hrec]).
  set (x := mkLogEntry input requested clientTime record).
  assert (log_run x = runID) as Hx.
  { destruct Hact as (run & Hr & _). unfold log_run, x. cbn. rewrite Hrec. cbn. unfold run_or_zero. rewrite Hr. cbn. by apply (ok_ids s H1). }
  assert (forall r st2, <[runID := st']> (store_checkpoints s) !! r = Some st2 ->
    r = runID /\ st2 = st' \/ r <> runID /\ store_checkpoints s !! r = Some st2) as Hl.
  { intros r st2. rewrite lookup_insert_Some. intros [[<- <-]|[? ?]]; auto. }
  assert (forall r, r <> runID -> sequences r (log ++ [x]) = sequences r log) as Hother.
  { intros r Hr. rewrite sequences_app, Hx, bool_decide_eq_false_2 by done. apply app_nil_r. }
  assert (State_bySequence st !! State_nextSequence st = None) as Hfresh by (apply eq_None_not_Some; rewrite (st_dom _ _ Hst); lia).
  split; cbn [set_checkpoints store_checkpoints store_runs store_checkpointBytes].
  - apply set_state_store_ok; [done|apply Hst'|done|]. rewrite Hs. cbn. lia.
  - intros r st2 [[-> ->]|[_ Hr]]%Hl; [done|by apply H2].
  - intros r st2 [[-> ->]|[Hne Hr]]%Hl; [|rewrite Hother by done; by apply H3].
    rewrite sequences_app, Hx, bool_decide_eq_true_2, (H3 _ _ Hs) by done. cbn [st' insert_checkpoint State_bySequence].
    rewrite map_size_insert_None, numbered_S by done. do 2 f_equal. unfold x. cbn [log_record]. rewrite Hrec. cbn [checkpoint_record Checkpoint_Sequence].
    f_equal. rewrite (st_next _ _ Hst). lia.
  - intros r. rewrite lookup_insert_None. intros [Hn Hne]. rewrite Hother by done. by apply H4.
  - intros st2 y [Hy|Hy]%elem_of_app [[Er ->]|[Hne Hr]]%Hl.
    + apply (recorded_insert s runID st key requested); [done..|]. apply H5; [done|]. by rewrite Er.
    + by apply H5.
    + apply list_elem_of_singleton in Hy as ->. exists (State_nextSequence st), (mkEnvelope record (log_fingerprint x) bytes). cbn.
      rewrite lookup_insert_eq. split_and!; try done. by rewrite Hrec.
    + by apply list_elem_of_singleton in Hy as ->.
  - lia.
Qed.
Lemma ingest_invariant s log : ingest s log -> ingest_ok s log.
Proof.
  induction 1 as [|s log s' _ IH Hs|s log ctx now runID token s' e _ IH Hc|s log ctx env now runID token input requested clientTime bytes s' random submitted r _ IH Hr Ha].
  - split; [apply store_ok_new|done..| |intros st x Hx; by apply elem_of_nil in Hx|done].
    intros r _. split_and!; [done..|]. exists 0%nat. split; [done|lia].
  - by apply (ingest_ok_lifecycle s).
  - by apply (ingest_ok_charge s log ctx now runID token s' e).
  - by apply (ingest_ok_accept s log ctx env now runID token input requested clientTime bytes s' random submitted r).
Qed.
End Ingest.

Lemma NewCheckpointHandler_ok options ch : NewCheckpointHandler options = Ok ch ->
  1 <= checkpoint_maxBodyBytes ch <= defaultCheckpointBodyBytes /\ 1 <= checkpoint_requestsPerSecond ch <= defaultCheckpointRate /\
  1 <= checkpoint_capacityPerRun ch <= defaultCheckpointCapacity /\ 1 <= checkpoint_capacityBytesPerRun ch <= defaultCheckpointRunBytes /\
  checkpoint_capacityBytesPerRun ch <= checkpoint_capacityBytesTotal ch <= defaultCheckpointTotalBytes.
Proof.
  unfold NewCheckpointHandler. cbv zeta. intros H.
  repeat match type of H with (if ?b then _ else _) = _ => let E := fresh "E" in destruct b eqn:E; [done|]; apply orb_false_iff in E as [? ?] end.
  injection H as <-. cbn. lia.
Qed.

(** C23: in every store the program reaches, the checkpoints accepted for a
    run are numbered 1, 2, 3 ... without a gap or a repetition and in the order
    of acceptance, never more than the per-run capacity; and the retained bytes
    are exactly counted and stay within the per-run and the total capacity. *)
Theorem checkpoints_gapless options h ch s log : NewCheckpointHandler options = Ok ch -> ingest h ch s log ->
  (forall runID, exists n, sequences runID log = numbered n /\ Z.of_nat n <= checkpoint_capacityPerRun ch) /\
  store_checkpointBytes s = total State_retainedBytes (store_checkpoints s) /\
  0 <= store_checkpointBytes s <= checkpoint_capacityBytesTotal ch /\
  forall runID st, store_checkpoints s !! runID = Some st -> 0 <= State_retainedBytes st <= checkpoint_capacityBytesPerRun ch.
Proof.
  intros Hch%NewCheckpointHandler_ok Hi. apply ingest_invariant in Hi as [H1 H2 H3 H4 _ H6]; [|lia..].
  split_and!; [|by apply (ok_bytes s)| |done|].
  - intros runID. destruct (store_checkpoints s !! runID) as [st|] eqn:E; [|apply (H4 runID E)].
    exists (size (State_bySequence st)). split; [by apply H3|apply (H2 _ _ E)].
  - rewrite (ok_bytes s H1). apply total_nonneg. intros k v Hk. apply (H2 _ _ Hk).
  - intros runID st Hs. apply (H2 _ _ Hs).
Qed.

(** The envelope of an accepted checkpoint is what a request naming it finds. *)
Lemma checkpointReplay_names ch runID st x input requested clientTime : state_ok ch runID st -> recorded st x ->
  0 <= requested -> requested = 0 \/ FormatUint requested = Checkpoint_Sequence (log_record x) ->
  CheckpointRequest_IdempotencyKey input = "" \/ CheckpointRequest_IdempotencyKey input = log_key x ->
  requested <> 0 \/ CheckpointRequest_IdempotencyKey input <> "" ->
  checkpointReplay st requested (CheckpointRequest_IdempotencyKey input) (checkpointFingerprint input requested clientTime) =
    if checkpointFingerprint input requested clientTime == log_fingerprint x then ReplayOf (log_record x) else ReplayConflict.
Proof.
  intros Hst (n & e & He & Hrec & Hfp & _ & Hkey & _) H0 Hseq Hk Hname. revert Hfp. generalize (log_fingerprint x) as lf. intros lf Hfp.
  unfold checkpointReplay.
  generalize (checkpointFingerprint input requested clientTime) as fp. intros fp.
  set (key := CheckpointRequest_IdempotencyKey input) in *.
  assert ((if Envelope_fingerprint e != fp then ReplayConflict else ReplayOf (cloneCheckpoint (Envelope_record e))) =
    if fp == lf then ReplayOf (log_record x) else ReplayConflict) as Hcheck.
  { rewrite Hfp, Hrec, cloneCheckpoint_id. do 2 case_bool_decide; by try congruence. }
  assert (key <> "" -> State_byKey st !! key = Some e) as Hbk.
  { intros Hne. apply (st_key _ _ _ Hst). split; [done|]. exists n. split; [done|]. destruct Hk as [|Hk]; [done|]. rewrite Hrec. congruence. }
  assert (requested <> 0 -> State_bySequence st !! requested = Some e) as Hbs.
  { intros Hne. destruct Hseq as [|Hq]; [done|]. rewrite <-Hrec, (st_record _ _ _ Hst n e He) in Hq.
    apply FormatUint_inj in Hq as ->; [done|lia|]. assert (is_Some (State_bySequence st !! n)) as Hs by eauto. apply (st_dom _ _ _ Hst) in Hs. lia. }
  destruct (Z.eqb_spec requested 0) as [->|Hr]; cbn [negb]; destruct (bool_decide_reflect (key = "")) as [Ek|Ek]; cbn [negb].
  - by destruct Hname.
  - by rewrite Hbk.
  - by rewrite Hbs.
  - rewrite Hbs, Hbk by done. by rewrite bool_decide_eq_true_2.
Qed.

(** A request that names an accepted checkpoint - by its sequence number,
    by its idempotency key or by both - is answered with the stored record when
    it repeats the request that was accepted, and refused as a conflict
    otherwise; either way nothing is stored, announced or consumed, as long as
    the run is authorised. *)
Theorem checkpoint_retry_idempotent options h ch s log x ctx env now token hash expiry input requested clientTime bytes :
  NewCheckpointHandler options = Ok ch -> ingest h ch s log -> x ∈ log ->
  0 <= requested -> requested = 0 \/ FormatUint requested = Checkpoint_Sequence (log_record x) ->
  CheckpointRequest_IdempotencyKey input = "" \/ CheckpointRequest_IdempotencyKey input = log_key x ->
  requested <> 0 \/ CheckpointRequest_IdempotencyKey input <> "" ->
  ctx = mkContext false false -> parseIngestToken h token = Some (log_run x, hash, expiry) ->
  checkpointRunAuthorizedLocked s (log_run x) hash expiry now = true ->
  accept h ch s ctx env now (log_run x) token input requested clientTime (checkpointFingerprint input requested clientTime) bytes =
    (s, env_random env, [], if checkpointFingerprint input requested clientTime == log_fingerprint x
                            then Ok (log_record x, true) else Err errCheckpointConflict).
Proof.
  intros Hch%NewCheckpointHandler_ok Hi Hx H0 Hs Hk Hn -> Hp Ha. apply ingest_invariant in Hi as [H1 H2 _ H4 H5 _]; [|lia..].
  unfold accept. cbn [ctx_done_before ctx_done_locked]. rewrite Hp, bool_decide_eq_true_2 by done. cbn [negb]. rewrite Ha. cbn [negb].
  destruct (store_checkpoints s !! log_run x) as [st|] eqn:E.
  - rewrite (checkpointReplay_names ch (log_run x) st x) by auto. by destruct (_ == _).
  - exfalso. apply authorized_run in Ha as (run & Hr & Hst). pose proof (in_sequences log x Hx) as Hin.
    rewrite (proj1 (H4 _ E) run Hr Hst) in Hin. by apply elem_of_nil in Hin.
Qed.

(** ** Witnesses *)
Definition demo_run_id : string := Response_RunID demo_output.
Definition demo_token : string := Response_IngestToken demo_output.
Definition demo_registered_store : RunStore := sys_store (fst demo_served).
Definition demo_run : AgentRun := run_or_zero demo_registered_store demo_run_id.
Definition demo_checkpoints : CheckpointHandler :=
  match NewCheckpointHandler (mkCheckpointOptions 0 0 0 0 0) with Ok ch => ch | Err _ => mkCheckpointHandler 0 0 0 0 0 end.
Definition demo_context : Context := mkContext false false.
Definition demo_charged : RunStore :=
  fst (authorizeAndCharge demo_handler demo_checkpoints demo_registered_store demo_context (demo_now + 1) demo_run_id demo_token).
Definition demo_checkpoint : CheckpointRequest := mkCheckpointRequest "" "step-1" "tool_started" "" "shell" "ls" None None "".
Definition demo_env : IngestEnv := mkIngestEnv (Some (mkCheckpointReceipt 10 20 1)) "checkpoint-id-01" (Some (fun _ => true)).
Definition demo_accept : RunStore * string * list Checkpoint * result CheckpointError (Checkpoint * bool) :=
  accept demo_handler demo_checkpoints demo_charged demo_context demo_env (demo_now + 2) demo_run_id demo_token demo_checkpoint 0 0
    (checkpointFingerprint demo_checkpoint 0 0) 4200.
Definition demo_stored : RunStore := demo_accept.1.1.1.
Definition demo_record : Checkpoint :=
  checkpoint_record demo_run demo_checkpoint (hex_EncodeToString "checkpoint-id-01") 1 0 (mkCheckpointReceipt 10 20 1).

Definition demo_entry : LogEntry := mkLogEntry demo_checkpoint 0 0 demo_record.
Definition demo_log : list LogEntry := [demo_entry].

Lemma demo_ingest : ingest demo_handler demo_checkpoints demo_stored demo_log.
Proof.
  refine (ingest_accept _ _ demo_charged [] demo_context demo_env (demo_now + 2) demo_run_id demo_token demo_checkpoint 0 0 4200
    demo_stored "" [demo_record] (Ok (demo_record, false)) _ _ _); [|by right|vm_compute; reflexivity].
  refine (ingest_charge _ _ demo_registered_store [] demo_context (demo_now + 1) demo_run_id demo_token demo_charged None _ _); [|vm_compute; reflexivity].
  refine (ingest_lifecycle _ _ NewRunStore [] demo_registered_store (ingest_new _ _) _).
  refine (step_add NewRunStore demo_run demo_registered_store None _ _ _); [vm_compute; reflexivity| |vm_compute; reflexivity].
  vm_compute. auto.
Qed.
Lemma checkpoints_gapless_witness : exists n, sequences demo_run_id demo_log = numbered n /\ Z.of_nat n <= 1024.
Proof.
  destruct (checkpoints_gapless (mkCheckpointOptions 0 0 0 0 0) demo_handler demo_checkpoints demo_stored demo_log) as [H _];
    [vm_compute; reflexivity|exact demo_ingest|exact (H demo_run_id)].
Defined.
Lemma checkpoint_retry_idempotent_witness :
  accept demo_handler demo_checkpoints demo_stored demo_context demo_env (demo_now + 3) (log_run demo_entry) demo_token demo_checkpoint 0 0
    (checkpointFingerprint demo_checkpoint 0 0) 4200 = (demo_stored, env_random demo_env, [], Ok (demo_record, true)).
Proof.
  refine (eq_trans (checkpoint_retry_idempotent (mkCheckpointOptions 0 0 0 0 0) demo_handler demo_checkpoints demo_stored demo_log
    demo_entry demo_context demo_env (demo_now + 3) demo_token (Sum256 demo_token) (demo_now + 15 * Minute) demo_checkpoint 0 0 4200
    _ _ _ _ _ _ _ _ _ _) _).
  - vm_compute. reflexivity.
  - exact demo_ingest.
  - by left.
  - done.
  - by left.
  - by right.
  - right. discriminate.
  - reflexivity.
  - vm_compute. reflexivity.
  - vm_compute. reflexivity.
  - vm_compute. reflexivity.
Defined.
