(* ===== verification/RunLifecycle.v ===== *)
(** * Runs and scopes together (the interleavings of
      [internal/api/registration.go] and [internal/api/lifecycle.go] with
      [internal/scope/manager.go])

    Requests are served concurrently: a registration and any number of
    terminations interleave between their calls of the scope manager and of
    the run store, each call being atomic under its own lock.  One
    registration is in flight at a time ([registrationMu]); a termination is
    identified by its run ([RunStore.terminating]). *)
From S2P Require Import Prelude GoStd GoTime Crypto Netip Schema Limits Match NetworkMatch Generation Engine Events Enforcement KernelProgram KernelCapture AuditStream CgroupPath Scope RunStore Registration.
Open Scope Z_scope.

(** Where the registration in flight stands. *)
Inductive RegPhase :=
  | RegIdle
  | RegAdmitted (p : Pending)
  | RegScoped (p : Pending) (registration : Registration)
  | RegRefused (registration : Registration)
  | RegAdded (p : Pending) (registration : Registration).
(** Where a termination stands: the scope is to be removed, was removed, or
    could not be removed. *)
Inductive TermPhase := TermBegun (run : AgentRun) | TermRemoved (run : AgentRun) | TermRefused.

Record Serving (M : Type) := mkServing {
  serving_sys : System M;
  serving_reg : RegPhase;
  serving_term : gmap string TermPhase;
  (** Scopes whose rollback failed. *)
  serving_orphans : gset Z;
}.
Arguments mkServing {M} _ _ _ _.
Arguments serving_sys {M} _.
Arguments serving_reg {M} _.
Arguments serving_term {M} _.
Arguments serving_orphans {M} _.

(** ** What the two components owe each other *)
Definition value_of (run : AgentRun) : ScopeValue := mkValue (Run_InstanceID run) (Run_ScopeCookie run) (Run_ProfileID run) 0.
Definition registration_of (run : AgentRun) : Registration :=
  mkRegistration (Run_CgroupID run) (Run_CgroupPath run) (Run_RootPID run) (value_of run).
(** A live run whose scope has not been removed by its termination. *)
Definition served (store : RunStore) (term : gmap string TermPhase) (runID : string) (run : AgentRun) : Prop :=
  live_run store runID run /\ forall x, term !! runID <> Some (TermRemoved x).
(** The registration the handler holds and no run owns yet. *)
Definition in_flight (phase : RegPhase) : option Registration :=
  match phase with RegScoped _ registration | RegRefused registration => Some registration | _ => None end.

Record covers (regs : gmap Z Registration) (S : string -> AgentRun -> Prop) (pending : option Registration) (orphans : gset Z) : Prop := {
  covers_own runID run : S runID run -> regs !! Run_CgroupID run = Some (registration_of run);
  covers_owner c registration : regs !! c = Some registration ->
    (exists runID run, S runID run /\ Run_CgroupID run = c) \/
    (pending = Some registration /\ Registration_CgroupID registration = c) \/ c ∈ orphans;
  covers_pending registration : pending = Some registration ->
    regs !! Registration_CgroupID registration = Some registration /\ Registration_CgroupID registration ∉ orphans /\
    forall runID run, S runID run -> Run_CgroupID run <> Registration_CgroupID registration;
  covers_orphans c : c ∈ orphans -> is_Some (regs !! c) /\ forall runID run, S runID run -> Run_CgroupID run <> c;
}.

Lemma covers_ext regs S S' p o : (forall r x, S' r x <-> S r x) -> covers regs S p o -> covers regs S' p o.
Proof.
  intros HS [H1 H2 H3 H4]. split.
  - intros r x Hx%HS. by apply (H1 r).
  - intros c rg Hc. destruct (H2 c rg Hc) as [(r & x & Hx & Hrx)|]; [left; exists r, x; by rewrite HS|by right].
  - intros rg Hp. destruct (H3 rg Hp) as (? & ? & Hn). split_and!; [done..|]. intros r x Hx%HS. by apply (Hn r).
  - intros c Hc. destruct (H4 c Hc) as (? & Hn). split; [done|]. intros r x Hx%HS. by apply (Hn r).
Qed.
Lemma covers_register regs S o rg : regs !! Registration_CgroupID rg = None -> covers regs S None o ->
  covers (<[Registration_CgroupID rg := rg]> regs) S (Some rg) o.
Proof.
  intros Hn [H1 H2 H3 H4].
  assert (forall r x, S r x -> Run_CgroupID x <> Registration_CgroupID rg) as Hother.
  { intros r x Hx E. apply H1 in Hx. rewrite E in Hx. congruence. }
  assert (Registration_CgroupID rg ∉ o) as Ho by (intros [[? ?] _]%H4; congruence).
  split.
  - intros r x Hx. rewrite lookup_insert_ne; [by apply (H1 r)|]. intros E. by apply (Hother r x Hx).
  - intros c rg'. rewrite lookup_insert_Some. intros [[<- <-]|[_ Hc]]; [by right; left|].
    destruct (H2 c rg' Hc) as [?|[[? _]|?]]; [by left|done|by right; right].
  - intros rg' [= <-]. rewrite lookup_insert_eq. done.
  - intros c Hc. destruct (H4 c Hc) as (Hs & Hx). split; [|done]. rewrite lookup_insert_ne; [done|]. by intros <-.
Qed.
Lemma covers_add regs S S' o rg runID run : covers regs S (Some rg) o -> registration_of run = rg ->
  (forall r x, S' r x <-> (r = runID /\ x = run) \/ S r x) -> covers regs S' None o.
Proof.
  intros [H1 H2 H3 H4] <- HS. destruct (H3 _ eq_refl) as (Hreg & Ho & Hn). cbn [registration_of Registration_CgroupID] in *. split.
  - intros r x [[_ ->]|Hx]%HS; [done|by apply (H1 r)].
  - intros c rg Hc. destruct (H2 c rg Hc) as [(r & x & Hx & Hrx)|[[[= <-] Hcg]|Horph]]; [| |by right; right].
    + left. exists r, x. rewrite HS. auto.
    + left. exists runID, run. rewrite HS. auto.
  - done.
  - intros c Hc. destruct (H4 c Hc) as (Hs & Hx). split; [done|]. intros r x [[_ ->]|Hrx]%HS; [|by apply (Hx r)]. intros <-. done.
Qed.
Lemma covers_rollback regs S o rg : covers regs S (Some rg) o -> covers (delete (Registration_CgroupID rg) regs) S None o.
Proof.
  intros [H1 H2 H3 H4]. destruct (H3 _ eq_refl) as (Hreg & Ho & Hn). split.
  - intros r x Hx. rewrite lookup_delete_ne; [by apply (H1 r)|]. intros E. by apply (Hn r x).
  - intros c rg' [Hne Hc]%lookup_delete_Some. destruct (H2 c rg' Hc) as [?|[[[= <-] ?]|?]]; [by left|done|by right; right].
  - done.
  - intros c Hc. destruct (H4 c Hc) as (Hs & Hx). split; [|done]. rewrite lookup_delete_ne; [done|]. by intros <-.
Qed.
Lemma covers_orphan regs S o rg : covers regs S (Some rg) o -> covers regs S None ({[Registration_CgroupID rg]} ∪ o).
Proof.
  intros [H1 H2 H3 H4]. destruct (H3 _ eq_refl) as (Hreg & Ho & Hn). split; [done| |done|].
  - intros c rg' Hc. destruct (H2 c rg' Hc) as [?|[[[= <-] ?]|?]]; [by left|right; right; set_solver..].
  - intros c [->%elem_of_singleton|Hc]%elem_of_union; [split; [eauto|done]|by apply H4].
Qed.
Lemma covers_remove regs S S' p o runID run : covers regs S p o -> S runID run ->
  (forall r x, S r x -> Run_CgroupID x = Run_CgroupID run -> r = runID) -> (forall r x, S' r x <-> S r x /\ r <> runID) ->
  (forall x, S runID x -> x = run) -> covers (delete (Run_CgroupID run) regs) S' p o.
Proof.
  intros [H1 H2 H3 H4] Hrun Huniq HS Hfun. split.
  - intros r x [Hx Hne]%HS. rewrite lookup_delete_ne; [by apply (H1 r)|]. intros E. by apply Hne, (Huniq r x).
  - intros c rg [Hne Hc]%lookup_delete_Some. destruct (H2 c rg Hc) as [(r & x & Hx & Hrx)|]; [|by right].
    left. exists r, x. rewrite HS. split_and!; try done. intros ->. apply Hfun in Hx. congruence.
  - intros rg Hp. destruct (H3 rg Hp) as (Hreg & Ho & Hn). split_and!; [|done|].
    + rewrite lookup_delete_ne; [done|]. by apply (Hn runID).
    + intros r x [Hx _]%HS. by apply (Hn r).
  - intros c Hc. destruct (H4 c Hc) as (Hs & Hx). split.
    + rewrite lookup_delete_ne; [done|]. by apply (Hx runID).
    + intros r x [Hrx _]%HS. by apply (Hx r).
Qed.

Section Lifecycle.
Context {M Er : Type} `{ScopeMapLaws M Er}.
Context (h : Handler) (core : string).

Inductive serving_step (w : Serving M) : Serving M -> Prop :=
  | serve_admit input now s r : serving_reg w = RegIdle -> admit_request h (serving_sys w) input now = (s, r) ->
      serving_step w (mkServing s (match r with Ok p => RegAdmitted p | Err _ => RegIdle end) (serving_term w) (serving_orphans w))
  | serve_scope p resolve probe s r : serving_reg w = RegAdmitted p -> register_scope h resolve probe (serving_sys w) p = (s, r) ->
      serving_step w (mkServing s (match r with Ok registration => RegScoped p registration | Err _ => RegIdle end) (serving_term w) (serving_orphans w))
  | serve_add p registration s e : serving_reg w = RegScoped p registration -> add_run h (serving_sys w) p registration = (s, e) ->
      serving_step w (mkServing s (match e with None => RegAdded p registration | Some _ => RegRefused registration end) (serving_term w) (serving_orphans w))
  | serve_rollback registration m e : serving_reg w = RegRefused registration ->
      Unregister (sys_manager (serving_sys w)) (Registration_CgroupID registration) = (m, e) ->
      serving_step w (mkServing (set_manager (serving_sys w) m) RegIdle (serving_term w)
        (match e with None => serving_orphans w | Some _ => {[Registration_CgroupID registration]} ∪ serving_orphans w end))
  | serve_conclude p registration : serving_reg w = RegAdded p registration ->
      serving_step w (mkServing (conclude h (serving_sys w) p registration) RegIdle (serving_term w) (serving_orphans w))
  | serve_begin runID store r : beginTermination (sys_store (serving_sys w)) runID = (store, r) ->
      serving_step w (mkServing (set_store (serving_sys w) store) (serving_reg w)
        (match r with Ok (run, true) => <[runID := TermBegun run]> (serving_term w) | _ => serving_term w end) (serving_orphans w))
  | serve_remove runID run m e : serving_term w !! runID = Some (TermBegun run) ->
      Unregister (sys_manager (serving_sys w)) (Run_CgroupID run) = (m, e) ->
      serving_step w (mkServing (set_manager (serving_sys w) m) (serving_reg w)
        (<[runID := match e with None => TermRemoved run | Some _ => TermRefused end]> (serving_term w)) (serving_orphans w))
  | serve_abort runID : serving_term w !! runID = Some TermRefused ->
      serving_step w (mkServing (set_store (serving_sys w) (abortTermination (sys_store (serving_sys w)) runID)) (serving_reg w)
        (delete runID (serving_term w)) (serving_orphans w))
  | serve_complete runID run status reason endedAt store r : serving_term w !! runID = Some (TermRemoved run) ->
      status <> "active" -> endedAt <> 0 ->
      completeTermination (sys_store (serving_sys w)) runID status reason endedAt (handler_tombstoneTTL h) (handler_tombstoneMaxEntries h) = (store, r) ->
      serving_step w (mkServing (match r with Ok finished => notify (set_store (serving_sys w) store) finished | Err _ => set_store (serving_sys w) store end)
        (serving_reg w) (delete runID (serving_term w)) (serving_orphans w))
  | serve_prune now : serving_step w (mkServing (set_store (serving_sys w) (pruneTombstonesLocked (sys_store (serving_sys w)) now))
        (serving_reg w) (serving_term w) (serving_orphans w)).

(** From a manager without scopes and an empty store. *)
Inductive serving : Serving M -> Prop :=
  | serving_start m opened random : manager_reachable core m opened -> manager_active m = ∅ ->
      serving (mkServing (mkSystem m NewRunStore random ∅ []) RegIdle ∅ ∅)
  | serving_next w w' : serving w -> serving_step w w' -> serving w'.

Definition registrations (m : Manager M) : gmap Z Registration := scope_registration <$> manager_active m.

Lemma register_registrations resolve probe (m : Manager M) target value m' r : Register resolve probe m target value = (m', r) ->
  match r with
  | Ok rg => registrations m !! Registration_CgroupID rg = None /\ registrations m' = <[Registration_CgroupID rg := rg]> (registrations m) /\
      Registration_RootPID rg = Target_RootPID target /\ Registration_Value rg = value
  | Err _ => registrations m' = registrations m
  end.
Proof.
  intros [(e & -> & E & _)|(hd & _ & _ & _ & _ & _ & Hn & _ & -> & E & _)]%Register_cases; unfold registrations; rewrite E; [done|].
  cbn [Registration_CgroupID]. rewrite lookup_fmap, Hn, fmap_insert. done.
Qed.
Lemma unregister_registrations (m : Manager M) id m' e : Unregister m id = (m', e) ->
  registrations m' = match e with None => delete id (registrations m) | Some _ => registrations m end.
Proof.
  intros [(E & _ & _ & _ & [x ->])|(a & _ & E & _ & _ & _ & ->)]%Unregister_cases; unfold registrations; rewrite E; [done|].
  apply fmap_delete.
Qed.

Record serving_ok (w : Serving M) : Prop := {
  sv_store : store_ok (sys_store (serving_sys w));
  sv_manager : exists opened, manager_reachable core (sys_manager (serving_sys w)) opened;
  sv_term runID : runID ∈ store_terminating (sys_store (serving_sys w)) <-> is_Some (serving_term w !! runID);
  sv_run runID run : serving_term w !! runID = Some (TermBegun run) \/ serving_term w !! runID = Some (TermRemoved run) ->
    live_run (sys_store (serving_sys w)) runID run;
  sv_phase : match serving_reg w with
             | RegScoped p registration => registration_of (new_run h p registration) = registration
             | _ => True
             end;
  sv_covers : covers (registrations (sys_manager (serving_sys w))) (served (sys_store (serving_sys w)) (serving_term w))
    (in_flight (serving_reg w)) (serving_orphans w);
}.

Lemma serving_ok_admit w input now s r : serving_ok w -> serving_reg w = RegIdle -> admit_request h (serving_sys w) input now = (s, r) ->
  serving_ok (mkServing s (match r with Ok p => RegAdmitted p | Err _ => RegIdle end) (serving_term w) (serving_orphans w)).
Proof.
  intros [S1 S2 S3 S4 S5 S6] Hreg (Em & Es & _)%admit_cases. rewrite Hreg in S6.
  split; cbn [serving_sys serving_reg serving_term serving_orphans]; rewrite ?Em, ?Es; [done..|by destruct r|by destruct r].
Qed.
Lemma serving_ok_scope w p resolve probe s r : serving_ok w -> serving_reg w = RegAdmitted p ->
  register_scope h resolve probe (serving_sys w) p = (s, r) ->
  serving_ok (mkServing s (match r with Ok rg => RegScoped p rg | Err _ => RegIdle end) (serving_term w) (serving_orphans w)).
Proof.
  intros [S1 S2 S3 S4 S5 S6] Hreg. rewrite Hreg in S5, S6. cbn [in_flight] in S6. unfold register_scope.
  destruct (Register _ _ _ _ _) as [m r0] eqn:E. intros [= <- <-]. pose proof (register_registrations _ _ _ _ _ _ _ E) as Hr.
  split; cbn [serving_sys serving_reg serving_term serving_orphans set_manager sys_store sys_manager]; try done.
  - destruct S2 as [opened S2]. eexists. by apply (reach_register core _ opened _ _ _ _ _ _ S2 E).
  - destruct r0 as [rg|]; [|done]. destruct Hr as (_ & _ & Hp & Hv). unfold registration_of, value_of. cbn. rewrite Hv.
    destruct rg as [id path root value]. cbn in *. by rewrite Hp, Hv.
  - destruct r0 as [rg|]; cbn [in_flight]; [|by rewrite Hr]. destruct Hr as (Hn & -> & _). by apply covers_register.
Qed.
Lemma serving_ok_add w p rg s e : serving_ok w -> serving_reg w = RegScoped p rg -> add_run h (serving_sys w) p rg = (s, e) ->
  serving_ok (mkServing s (match e with None => RegAdded p rg | Some _ => RegRefused rg end) (serving_term w) (serving_orphans w)).
Proof.
  intros [S1 S2 S3 S4 S5 S6] Hreg. rewrite Hreg in S5, S6. cbn [in_flight] in S6. unfold add_run.
  destruct (Add _ _) as [store e0] eqn:E. intros [= <- <-]. assert (~ ended (new_run h p rg)) as Hne by (unfold ended; cbn; lia).
  assert (store_ok store) as S1' by (by apply (Add_ok _ (new_run h p rg) _ e0 S1)). apply Add_cases in E as (ts & _ & Hc); [|done]. destruct e0 as [e0|].
  - assert (store_runs store = store_runs (sys_store (serving_sys w)) /\ store_terminating store = store_terminating (sys_store (serving_sys w))) as [Eruns Et]
      by (by destruct Hc as [-> | ->]).
    split; cbn [serving_sys serving_reg serving_term serving_orphans set_store sys_store sys_manager in_flight]; try done.
    + intros r. by rewrite Et.
    + intros r run. unfold live_run. rewrite Eruns. apply S4.
    + eapply covers_ext; [|exact S6]. intros r x. unfold served, live_run. by rewrite Eruns.
  - destruct Hc as (-> & Hn & _). cbn [insert_run store_runs set_tombstones] in *. change (Run_RunID (new_run h p rg)) with (pending_runID p) in Hn.
    pose proof (live_run_insert (sys_store (serving_sys w)) (pending_runID p) (new_run h p rg) _ Hn eq_refl Hne) as HL.
    assert (serving_term w !! pending_runID p = None) as Ht.
    { apply eq_None_not_Some. rewrite <-S3. intros (x & Hx & _)%(ok_terminating _ S1). by rewrite Hn in Hx. }
    split; cbn [serving_sys serving_reg serving_term serving_orphans set_store sys_store sys_manager in_flight]; try done.
    + intros r run Hr. unfold live_run. cbn. rewrite cloned_id. apply HL. right. by apply S4.
    + apply (covers_add _ _ _ _ _ (pending_runID p) (new_run h p rg) S6 S5). intros r x. unfold served, live_run at 1. cbn [insert_run store_runs set_tombstones].
      rewrite cloned_id. change (Run_RunID (new_run h p rg)) with (pending_runID p). rewrite HL. split; [tauto|].
      intros [[-> ->]|[? ?]]; [|tauto]. split; [by left|]. intros y. congruence.
Qed.

Lemma reachable_unregister (m : Manager M) id m' e : (exists opened, manager_reachable core m opened) -> Unregister m id = (m', e) ->
  exists opened, manager_reachable core m' opened.
Proof. intros [opened Hm] E. exists opened. by apply (reach_unregister core m opened id m' e). Qed.
Lemma serving_ok_rollback w rg m e : serving_ok w -> serving_reg w = RegRefused rg ->
  Unregister (sys_manager (serving_sys w)) (Registration_CgroupID rg) = (m, e) ->
  serving_ok (mkServing (set_manager (serving_sys w) m) RegIdle (serving_term w)
    (match e with None => serving_orphans w | Some _ => {[Registration_CgroupID rg]} ∪ serving_orphans w end)).
Proof.
  intros [S1 S2 S3 S4 S5 S6] Hreg E. rewrite Hreg in S6. cbn [in_flight] in S6.
  split; cbn [serving_sys serving_reg serving_term serving_orphans set_manager sys_store sys_manager in_flight]; try done.
  - by apply (reachable_unregister _ _ _ _ S2 E).
  - rewrite (unregister_registrations _ _ _ _ E). destruct e; [by apply covers_orphan|by apply covers_rollback].
Qed.
(** The store's runs and termination marks are all that matters of it. *)
Lemma serving_ok_store w store : serving_ok w -> store_ok store -> store_runs store = store_runs (sys_store (serving_sys w)) ->
  store_terminating store = store_terminating (sys_store (serving_sys w)) ->
  serving_ok (mkServing (set_store (serving_sys w) store) (serving_reg w) (serving_term w) (serving_orphans w)).
Proof.
  intros [S1 S2 S3 S4 S5 S6] Hok Eruns Et.
  split; cbn [serving_sys serving_reg serving_term serving_orphans set_store sys_store sys_manager]; try done.
  - intros r. by rewrite Et.
  - intros r run. unfold live_run. rewrite Eruns. apply S4.
  - eapply covers_ext; [|exact S6]. intros r x. unfold served, live_run. by rewrite Eruns.
Qed.
Lemma serving_ok_begin w runID store r : serving_ok w -> beginTermination (sys_store (serving_sys w)) runID = (store, r) ->
  serving_ok (mkServing (set_store (serving_sys w) store) (serving_reg w)
    (match r with Ok (run, true) => <[runID := TermBegun run]> (serving_term w) | _ => serving_term w end) (serving_orphans w)).
Proof.
  intros Hw E. pose proof Hw as [S1 S2 S3 S4 S5 S6]. pose proof (beginTermination_ok _ _ _ _ E S1) as S1'.
  pose proof (beginTermination_cases _ _ _ _ E S1) as Hc. destruct r as [[run [|]]|[| |]]; [|destruct Hc as (-> & _); by apply serving_ok_store..| |].
  2:{ done. } 2:{ destruct Hc as (-> & _). by apply serving_ok_store. }
  destruct Hc as (Hl & Hnt & ->). assert (serving_term w !! runID = None) as Hn by (apply eq_None_not_Some; by rewrite <-S3).
  split; cbn [serving_sys serving_reg serving_term serving_orphans set_store set_terminating store_terminating sys_store sys_manager]; try done.
  - intros r. rewrite lookup_insert_is_Some, <-S3, elem_of_union, elem_of_singleton. destruct (decide (runID = r)); naive_solver.
  - intros r x. change (live_run _ r x) with (live_run (sys_store (serving_sys w)) r x).
    intros [[[<- [= <-]]|[_ Hr]]%lookup_insert_Some|[[<- ?]|[_ Hr]]%lookup_insert_Some]; auto; done.
  - eapply covers_ext; [|exact S6]. intros r x. unfold served. change (live_run _ r x) with (live_run (sys_store (serving_sys w)) r x).
    destruct (decide (r = runID)) as [->|Hne]; [rewrite lookup_insert_eq, Hn|by rewrite lookup_insert_ne]. naive_solver.
Qed.
Lemma served_unique w r1 r2 x1 x2 : serving_ok w -> served (sys_store (serving_sys w)) (serving_term w) r1 x1 ->
  served (sys_store (serving_sys w)) (serving_term w) r2 x2 -> Run_CgroupID x1 = Run_CgroupID x2 -> r1 = r2.
Proof.
  intros [S1 _ _ _ _ S6] H2 H3 Hc. pose proof (covers_own _ _ _ _ S6 _ _ H2) as E2. pose proof (covers_own _ _ _ _ S6 _ _ H3) as E3.
  rewrite Hc, E3 in E2. injection E2 as _ _ Hi Hk. apply (live_unique (sys_store (serving_sys w)) r1 r2 x1 x2 S1); [apply H2|apply H3|].
  unfold scopeIdentity. congruence.
Qed.
Lemma serving_ok_remove w runID run m e : serving_ok w -> serving_term w !! runID = Some (TermBegun run) ->
  Unregister (sys_manager (serving_sys w)) (Run_CgroupID run) = (m, e) ->
  serving_ok (mkServing (set_manager (serving_sys w) m) (serving_reg w)
    (<[runID := match e with None => TermRemoved run | Some _ => TermRefused end]> (serving_term w)) (serving_orphans w)).
Proof.
  intros Hw Ht E. pose proof Hw as [S1 S2 S3 S4 S5 S6].
  assert (served (sys_store (serving_sys w)) (serving_term w) runID run) as Hs by (split; [by apply S4; left|intros x; congruence]).
  split; cbn [serving_sys serving_reg serving_term serving_orphans set_manager sys_store sys_manager]; try done.
  - by apply (reachable_unregister _ _ _ _ S2 E).
  - intros r. rewrite lookup_insert_is_Some, S3. destruct (decide (runID = r)) as [<-|]; [rewrite Ht|]; naive_solver.
  - intros r x Hr. destruct (decide (r = runID)) as [->|Hne]; [|rewrite lookup_insert_ne in Hr by done; by apply S4].
    rewrite lookup_insert_eq in Hr. apply S4. left. rewrite Ht. destruct e; destruct Hr as [[=]|[=]]; congruence.
  - rewrite (unregister_registrations _ _ _ _ E). destruct e as [e|].
    + eapply covers_ext; [|exact S6]. intros r x. unfold served. destruct (decide (r = runID)) as [->|Hne]; [rewrite lookup_insert_eq, Ht|by rewrite lookup_insert_ne].
      naive_solver.
    + apply (covers_remove _ _ _ _ _ runID run S6 Hs).
      * intros r x Hx Hcg. by apply (served_unique w r runID x run).
      * intros r x. unfold served. destruct (decide (r = runID)) as [->|Hne]; [rewrite lookup_insert_eq|rewrite lookup_insert_ne by done]; naive_solver.
      * intros x [[Hx _] _]. destruct Hs as [[Hr _] _]. congruence.
Qed.

Lemma serving_ok_abort w runID : serving_ok w -> serving_term w !! runID = Some TermRefused ->
  serving_ok (mkServing (set_store (serving_sys w) (abortTermination (sys_store (serving_sys w)) runID)) (serving_reg w)
    (delete runID (serving_term w)) (serving_orphans w)).
Proof.
  intros [S1 S2 S3 S4 S5 S6] Ht.
  split; cbn [serving_sys serving_reg serving_term serving_orphans set_store sys_store sys_manager]; try done.
  - by apply abortTermination_ok.
  - intros r. cbn [abortTermination set_terminating store_terminating]. rewrite elem_of_difference, elem_of_singleton, S3.
    rewrite lookup_delete_is_Some. naive_solver.
  - intros r x Hr. apply S4. destruct Hr as [[_ Hr]%lookup_delete_Some|[_ Hr]%lookup_delete_Some]; auto.
  - eapply covers_ext; [|exact S6]. intros r x. unfold served. change (live_run _ r x) with (live_run (sys_store (serving_sys w)) r x).
    destruct (decide (r = runID)) as [->|Hne]; [rewrite lookup_delete_eq, Ht|by rewrite lookup_delete_ne]. naive_solver.
Qed.
Lemma serving_ok_complete w runID run status reason endedAt store outcome : serving_ok w -> serving_term w !! runID = Some (TermRemoved run) ->
  status <> "active" -> endedAt <> 0 ->
  completeTermination (sys_store (serving_sys w)) runID status reason endedAt (handler_tombstoneTTL h) (handler_tombstoneMaxEntries h) = (store, outcome) ->
  serving_ok (mkServing (match outcome with Ok finished => notify (set_store (serving_sys w) store) finished | Err _ => set_store (serving_sys w) store end)
    (serving_reg w) (delete runID (serving_term w)) (serving_orphans w)).
Proof.
  intros [S1 S2 S3 S4 S5 S6] Ht Hs He E. pose proof (completeTermination_ok _ _ _ _ _ _ _ _ _ S1 He Hs E) as S1'.
  apply (completeTermination_cases _ _ _ _ _ _ _ _ _ S1) in E as [(_ & Hn & _)|(run' & Hl & Hin & -> & ts & seq & _ & _ & ->)].
  { exfalso. apply Hn, S3. by rewrite Ht. }
  destruct (drop_same (sys_store (serving_sys w)) runID) as (Eruns & _ & _ & Et & _).
  set (run2 := terminated run' status reason endedAt) in *. assert (ended run2) as Hend by done.
  assert (forall r x, live_run (mkStore (<[runID := run2]> (store_runs (sys_store (serving_sys w)))) ∅ ∅ ∅ ∅ ∅ 0 ∅ 0) r x <->
    live_run (sys_store (serving_sys w)) r x /\ r <> runID) as HL.
  { intros r x. unfold live_run. cbn. rewrite lookup_insert_Some. naive_solver. }
  split; cbn [serving_sys serving_reg serving_term serving_orphans notify set_store sys_store sys_manager]; try done.
  - intros r. cbn [store_terminating replace_run]. rewrite elem_of_difference, elem_of_singleton, S3, lookup_delete_is_Some. naive_solver.
  - intros r x Hr. unfold live_run. cbn [store_runs replace_run]. rewrite Eruns. apply HL.
    destruct Hr as [[Hne Hr]%lookup_delete_Some|[Hne Hr]%lookup_delete_Some]; (split; [apply S4; auto|done]).
  - eapply covers_ext; [|exact S6]. intros r x. unfold served, live_run at 1. cbn [store_runs replace_run]. rewrite Eruns.
    change (_ /\ ~ ended x) with (live_run (mkStore (<[runID := run2]> (store_runs (sys_store (serving_sys w)))) ∅ ∅ ∅ ∅ ∅ 0 ∅ 0) r x).
    rewrite HL. destruct (decide (r = runID)) as [->|Hne]; [rewrite lookup_delete_eq, Ht|rewrite lookup_delete_ne by done]; naive_solver.
Qed.
Lemma serving_invariant w : serving w -> serving_ok w.
Proof.
  induction 1 as [m opened random Hm He|w w' _ IH Hstep].
  - split; cbn; [apply store_ok_new|by exists opened| |by intros r run []|done|].
    + intros r. split; [intros Hr; by apply elem_of_empty in Hr|by intros []].
    + unfold registrations. rewrite He, fmap_empty. split; try done. by intros r run [[Hr _] _].
  - destruct Hstep.
    + by apply serving_ok_admit with input now.
    + by eapply serving_ok_scope.
    + by eapply serving_ok_add.
    + by eapply serving_ok_rollback.
    + destruct IH as [S1 S2 S3 S4 S5 S6]. split; try done. match goal with E : serving_reg w = _ |- _ => by rewrite E in S6 end.
    + by apply serving_ok_begin.
    + by apply serving_ok_remove.
    + by apply serving_ok_abort.
    + by eapply serving_ok_complete.
    + destruct (prune_sub (sys_store (serving_sys w)) now) as (ts & E & Hs).
      apply serving_ok_store; [done|by apply prune_ok, IH|by rewrite E..].
Qed.

(** *** One termination from begin to end *)
(** Nothing the store keeps is lost by a termination but the run's own state. *)
Definition ends (store store' : RunStore) (runID : string) (finished : AgentRun) (ttl endedAt : Z) : Prop :=
  store_runs store' = <[runID := finished]> (store_runs store) /\ store_terminating store' = store_terminating store /\
  store_liveByIdentity store' = delete (scopeIdentity finished) (store_liveByIdentity store) /\
  exists seq, store_tombstones store' !! scopeIdentity finished = Some (mkTombstone runID (Run_Status finished) (endedAt + ttl) seq).
Lemma terminateRun_cases w runID status reason endedAt s' r : serving_ok w -> status <> "active" -> endedAt <> 0 ->
  terminateRun h (serving_sys w) runID status reason endedAt = (s', r) ->
  let store := sys_store (serving_sys w) in
  (forall run, ~ (live_run store runID run /\ runID ∉ store_terminating store)) /\ s' = serving_sys w /\
    match r with Ok x => store_runs store !! runID = Some x /\ ended x | Err (ScopeRemovalFailed _) => False | Err _ => True end \/
  exists run, live_run store runID run /\ runID ∉ store_terminating store /\
  match r with
  | Ok finished => finished = terminated run status reason endedAt /\
      registrations (sys_manager s') = delete (Run_CgroupID run) (registrations (sys_manager (serving_sys w))) /\
      ends store (sys_store s') runID finished (handler_tombstoneTTL h) endedAt /\ sys_changed s' = sys_changed (serving_sys w) ++ [finished]
  | Err (ScopeRemovalFailed _) => registrations (sys_manager s') = registrations (sys_manager (serving_sys w)) /\
      store_runs (sys_store s') = store_runs store /\ store_terminating (sys_store s') = store_terminating store /\
      sys_changed s' = sys_changed (serving_sys w)
  | Err _ => False
  end.
Proof.
  intros [S1 S2 S3 S4 S5 S6] Hst He. unfold terminateRun. destruct (beginTermination _ runID) as [store1 r1] eqn:E1.
  pose proof (beginTermination_cases _ _ _ _ E1 S1) as Hc. destruct r1 as [[run [|]]|[| |]].
  2:{ destruct Hc as (-> & Hr & He1). intros [= <- <-]. left. split_and!; [|by destruct (serving_sys w)|done|done].
      intros x [[Hx Hn] _]. rewrite Hr in Hx. injection Hx as <-. done. }
  2:{ destruct Hc as (-> & Hr). intros [= <- <-]. left. split_and!; [|by destruct (serving_sys w)|done]. intros x [[Hx _] _]. congruence. }
  2:{ done. }
  2:{ destruct Hc as (-> & Hin). intros [= <- <-]. left. split_and!; [|by destruct (serving_sys w)|done]. intros x [_ Hn]. done. }
  destruct Hc as (Hl & Hnt & ->). cbn [set_store sys_manager sys_store]. intros H2. right. exists run. split_and!; [done..|].
  destruct (Unregister _ _) as [m [e|]] eqn:E2; apply unregister_registrations in E2.
  - injection H2 as <- <-. cbn. split_and!; try done. set_solver.
  - cbn [set_manager sys_store sys_manager] in H2. destruct (completeTermination _ _ _ _ _ _ _) as [store2 r2] eqn:E3.
    assert (store_ok (set_terminating (sys_store (serving_sys w)) ({[runID]} ∪ store_terminating (sys_store (serving_sys w))))) as Hok
      by (by apply (beginTermination_ok _ _ _ _ E1)).
    apply (completeTermination_cases _ _ _ _ _ _ _ _ _ Hok) in E3 as [(_ & Hn & _)|(run' & Hl' & _ & -> & ts & seq & _ & _ & ->)].
    { cbn in Hn. set_solver. }
    assert (run' = run) as -> by (destruct Hl as [Hx _], Hl' as [Hy _]; cbn in Hy; congruence).
    injection H2 as <- <-. cbn. destruct (drop_same (set_terminating (sys_store (serving_sys w)) ({[runID]} ∪ store_terminating (sys_store (serving_sys w)))) runID) as (D1 & _).
    split_and!; try done. unfold ends. cbn. split_and!; [by rewrite D1|set_solver|done|]. exists seq. apply lookup_insert_eq.
Qed.

Lemma terminateRun_serving w runID status reason endedAt s' r : serving w -> status <> "active" -> endedAt <> 0 ->
  terminateRun h (serving_sys w) runID status reason endedAt = (s', r) ->
  serving (mkServing s' (serving_reg w) (serving_term w) (serving_orphans w)).
Proof.
  intros Hw Hst He. unfold terminateRun. pose proof (serving_invariant w Hw) as Hok. destruct (beginTermination _ runID) as [store1 r1] eqn:E1.
  pose proof (serving_next _ _ Hw (serve_begin w runID store1 r1 E1)) as W1. pose proof (beginTermination_cases _ _ _ _ E1 (sv_store w Hok)) as Hc.
  destruct r1 as [[run [|]]|e]; [|by intros [= <- <-]..]. destruct Hc as (_ & Hnt & _).
  assert (serving_term w !! runID = None) as Hn by (apply eq_None_not_Some; by rewrite <-(sv_term w Hok)).
  assert (forall p, delete runID (<[runID := p]> (<[runID := TermBegun run]> (serving_term w))) = serving_term w) as Hdel.
  { intros p. rewrite insert_insert_eq, delete_insert_eq. by apply delete_id. }
  destruct (Unregister _ _) as [m e] eqn:E2. cbn [set_store sys_manager] in E2.
  set (w1 := mkServing _ _ _ _) in W1.
  pose proof (serving_next _ _ W1 (serve_remove w1 runID run m e (lookup_insert_eq _ _ _) E2)) as W2. set (w2 := mkServing _ _ _ _) in W2.
  destruct e as [e|].
  - intros [= <- <-]. pose proof (serving_next _ _ W2 (serve_abort w2 runID (lookup_insert_eq _ _ _))) as W3.
    unfold w2, w1 in W3. cbn [serving_sys serving_reg serving_term serving_orphans] in W3. by rewrite Hdel in W3.
  - cbn [set_manager set_store sys_store]. destruct (completeTermination _ _ _ _ _ _ _) as [store2 r2] eqn:E3.
    pose proof (serving_next _ _ W2 (serve_complete w2 runID run status reason endedAt store2 r2 (lookup_insert_eq _ _ _) Hst He E3)) as W3.
    unfold w2, w1 in W3. cbn [serving_sys serving_reg serving_term serving_orphans] in W3. rewrite Hdel in W3. by destruct r2; intros [= <- <-].
Qed.
(** Every run of the list ends as expired or is reported, and no other run
    changes. *)
Lemma expire_all_cases now ids : forall w s' errors, serving w -> now <> 0 -> NoDup ids ->
  (forall id, id ∈ ids -> exists run, live_run (sys_store (serving_sys w)) id run) ->
  expire_all h (serving_sys w) ids now = (s', errors) ->
  serving (mkServing s' (serving_reg w) (serving_term w) (serving_orphans w)) /\
  (forall id, id ∉ ids -> store_runs (sys_store s') !! id = store_runs (sys_store (serving_sys w)) !! id) /\
  forall id run, id ∈ ids -> store_runs (sys_store (serving_sys w)) !! id = Some run ->
    store_runs (sys_store s') !! id = Some (terminated run "expired" "" now) \/
    (exists e, (id, e) ∈ errors) /\ store_runs (sys_store s') !! id = Some run.
Proof.
  induction ids as [|id ids IH]; intros w s' errors Hw Hnow Hnd Hlive; cbn [expire_all].
  { intros [= <- <-]. split_and!; [by destruct w|done|]. intros i run Hin. by apply elem_of_nil in Hin. }
  apply NoDup_cons in Hnd as [Hni Hnd]. destruct (terminateRun _ _ _ _ _ _) as [s1 r1] eqn:E1.
  destruct (expire_all _ _ _ _) as [s2 errors2] eqn:E2. intros [= <- <-].
  pose proof (terminateRun_serving w id "expired" "" now s1 r1 Hw ltac:(done) Hnow E1) as W1.
  assert (forall i, i <> id -> store_runs (sys_store s1) !! i = store_runs (sys_store (serving_sys w)) !! i) as Hother.
  { apply (terminateRun_cases w id "expired" "" now s1 r1 (serving_invariant w Hw)) in E1 as [(_ & -> & _)|(run & _ & _ & Hr)]; [done| |done..].
    intros i Hne. destruct r1 as [fin|[]]; try done; [|by destruct Hr as (_ & -> & _)]. destruct Hr as (_ & _ & (-> & _) & _). by rewrite lookup_insert_ne. }
  destruct (IH (mkServing s1 (serving_reg w) (serving_term w) (serving_orphans w)) s2 errors2 W1 Hnow Hnd) as (W2 & Hout & Hin).
  { intros i Hi. destruct (Hlive i ltac:(by apply elem_of_cons; right)) as (x & Hx & Hne). exists x. split; [|done].
    cbn. rewrite Hother; [done|]. by intros ->. }
  { done. }
  cbn [serving_sys] in *. split_and!; [done| |].
  - intros i [Hne Hi]%not_elem_of_cons. by rewrite Hout, Hother.
  - intros i run [->|Hi]%elem_of_cons Hr.
    + rewrite (Hout id Hni). destruct (Hlive id ltac:(by apply elem_of_cons; left)) as (x & Hx). assert (x = run) as -> by (destruct Hx; congruence).
      apply (terminateRun_cases w id "expired" "" now s1 r1 (serving_invariant w Hw)) in E1 as [(_ & -> & Hc)|(run' & Hl' & _ & Hc)]; [| |done..].
      * destruct r1 as [fin|e]; [|right; split; [exists e; set_solver|done]]. exfalso.
        destruct Hc as [Hy Hend]. destruct Hx as [Hx Hne]. rewrite Hy in Hx. injection Hx as <-. done.
      * assert (run' = run) as -> by (destruct Hl'; congruence). destruct r1 as [fin|e].
        -- left. destruct Hc as (-> & _ & (-> & _) & _). apply lookup_insert_eq.
        -- right. split; [exists e; set_solver|]. destruct e; try done. by destruct Hc as (_ & -> & _).
    + assert (store_runs (sys_store s1) !! i = Some run) as Hr1 by (rewrite Hother; [done|by intros ->]). destruct (Hin i run Hi Hr1) as [?|[[e He] ?]]; [by left|]. right. split; [|done].
      exists e. destruct r1; set_solver.
Qed.

Lemma serving_view w : serving_ok w ->
  scopes_view (manager_scopes (sys_manager (serving_sys w))) = Registration_Value <$> registrations (sys_manager (serving_sys w)).
Proof.
  intros [_ [opened S2] _ _ _ _]. apply manager_invariant in S2. rewrite (mo_scopes _ _ _ S2). unfold registered, registrations.
  by rewrite <-map_fmap_compose.
Qed.
Lemma attribute_live store runID run instanceID now : store_ok store -> live_run store runID run ->
  (attribute store (scopeIdentity run) instanceID now).2 = mkEventAttribution runID (Run_Status run) LifecycleExact.
Proof.
  intros Hok Hl. unfold attribute. destruct (prune_sub store now) as (ts & -> & _). cbn [snd set_tombstones store_liveByIdentity].
  rewrite (proj2 (ok_live store Hok (scopeIdentity run) runID)) by eauto. unfold run_or_zero. cbn. by rewrite (proj1 Hl).
Qed.
End Lifecycle.

(** C20: in every interleaving of registrations, terminations and expiry, the
    kernel's scope map and the run store agree.  Each scope in the map is that
    of a live run, with the run's cgroup and identity, and events stamped with
    it are attributed exactly to that run - or it belongs to the registration
    in flight, or it was left behind by a registration whose rollback failed.
    Each live run has its scope in the map until its own termination removes
    it; and when no registration and no termination is in flight and no
    rollback has failed, the map holds the scopes of the live runs and no
    others. *)
Theorem scopes_match_runs {M Er} `{ScopeMapLaws M Er} h core (w : Serving M) : serving h core w ->
  let store := sys_store (serving_sys w) in
  let scopes := scopes_view (manager_scopes (sys_manager (serving_sys w))) in
  (forall c v, scopes !! c = Some v ->
    (exists runID run, live_run store runID run /\ Run_CgroupID run = c /\ value_of run = v /\ forall now,
      (attribute store (mkScopeIdentity (Value_InstanceID v) (Value_ScopeCookie v)) (handler_instanceID h) now).2 =
        mkEventAttribution runID (Run_Status run) LifecycleExact) \/
    (exists registration, in_flight (serving_reg w) = Some registration /\ Registration_CgroupID registration = c) \/
    c ∈ serving_orphans w) /\
  (forall runID run, live_run store runID run -> (forall x, serving_term w !! runID <> Some (TermRemoved x)) ->
    scopes !! Run_CgroupID run = Some (value_of run)) /\
  (in_flight (serving_reg w) = None -> serving_term w = ∅ -> serving_orphans w = ∅ ->
    forall c v, scopes !! c = Some v <-> exists runID run, live_run store runID run /\ Run_CgroupID run = c /\ value_of run = v).
Proof.
  intros Hw%serving_invariant store scopes. pose proof (serving_view h core w Hw) as Hv. fold scopes in Hv. destruct Hw as [S1 _ _ _ _ S6].
  assert (forall runID run, live_run store runID run -> (forall x, serving_term w !! runID <> Some (TermRemoved x)) ->
    scopes !! Run_CgroupID run = Some (value_of run)) as Hown.
  { intros r x Hl Hx. rewrite Hv, lookup_fmap, (covers_own _ _ _ _ S6 r x) by (by split). done. }
  assert (forall c v, scopes !! c = Some v ->
    (exists runID run, live_run store runID run /\ Run_CgroupID run = c /\ value_of run = v) \/
    (exists rg, in_flight (serving_reg w) = Some rg /\ Registration_CgroupID rg = c) \/ c ∈ serving_orphans w) as Hback.
  { intros c v Hc. pose proof Hc as Hc'. rewrite Hv, lookup_fmap in Hc'. destruct (registrations _ !! c) as [rg|] eqn:E; [|done].
    apply (covers_owner _ _ _ _ S6) in E as [(r & x & [Hl Hx] & Hcg)|[[Hp Hcg]|?]]; [left|right; left; eauto|by right; right].
    exists r, x. split_and!; try done. specialize (Hown r x Hl Hx). rewrite Hcg in Hown. congruence. }
  split_and!; [|done|].
  - intros c v [(r & x & Hl & Hcg & <-)|?]%Hback; [left|by right]. exists r, x. split_and!; try done. intros now.
    by apply (attribute_live store r x).
  - intros Hp Ht Ho c v. split.
    + intros [?|[(rg & Hrg & _)|Horph]]%Hback; [done|congruence|]. rewrite Ho in Horph. by apply elem_of_empty in Horph.
    + intros (r & x & Hl & <- & <-). apply (Hown r); [done|]. intros y. by rewrite Ht.
Qed.

(** A run whose ingest token is accepted is being observed: at that moment
    the kernel's scope map holds the run's cgroup with the run's identity. *)
Theorem verified_runs_observed {M Er} `{ScopeMapLaws M Er} h core (w : Serving M) now token run : serving h core w ->
  VerifyIngestToken h (sys_store (serving_sys w)) now token = Ok run ->
  scopes_view (manager_scopes (sys_manager (serving_sys w))) !! Run_CgroupID run = Some (value_of run).
Proof.
  intros Hw%serving_invariant (r & _ & _ & Hr & _ & Ha & Hnt & _)%VerifyIngestToken_sound.
  rewrite (serving_view h core w Hw), lookup_fmap. destruct Hw as [S1 _ S3 _ _ S6].
  rewrite (covers_own _ _ _ _ S6 r run); [done|]. split; [split; [done|by apply (ok_status _ S1 r)]|].
  intros x Hx. apply Hnt, S3. by rewrite Hx.
Qed.

(** C21: terminating a live run removes its scope and then retires it: the run
    ends with the given status, its token is refused from then on, and events
    that still carry its identity are attributed to it until the tombstone
    expires.  When the scope cannot be removed, run, scope and marks are as
    before, so the termination can be tried again. *)
Theorem terminateRun_exact {M Er} `{ScopeMapLaws M Er} h core (w : Serving M) runID run status reason endedAt s' r :
  serving h core w -> live_run (sys_store (serving_sys w)) runID run -> runID ∉ store_terminating (sys_store (serving_sys w)) ->
  status <> "active" -> endedAt <> 0 -> terminateRun h (serving_sys w) runID status reason endedAt = (s', r) ->
  let scopes s := scopes_view (manager_scopes (sys_manager s)) in
  match r with
  | Ok finished => finished = terminated run status reason endedAt /\ store_runs (sys_store s') !! runID = Some finished /\
      scopes s' = delete (Run_CgroupID run) (scopes (serving_sys w)) /\ sys_changed s' = sys_changed (serving_sys w) ++ [finished] /\
      (forall now token, now <> 0 -> VerifyIngestToken h (sys_store s') now token <> Ok finished) /\
      forall now, now <> 0 -> now < endedAt + handler_tombstoneTTL h ->
        (attribute (sys_store s') (scopeIdentity run) (handler_instanceID h) now).2 = mkEventAttribution runID (Run_Status finished) LifecycleExact
  | Err (ScopeRemovalFailed _) => scopes s' = scopes (serving_sys w) /\ live_run (sys_store s') runID run /\
      store_terminating (sys_store s') = store_terminating (sys_store (serving_sys w)) /\ sys_changed s' = sys_changed (serving_sys w)
  | Err _ => False
  end.
Proof.
  intros Hw Hl Hnt Hst He Et scopes. pose proof (terminateRun_serving h core w runID status reason endedAt s' r Hw Hst He Et) as W'.
  apply serving_invariant in W', Hw. pose proof (serving_view h core w Hw) as V. pose proof (serving_view h core _ W') as V'. cbn [serving_sys] in V'.
  apply (terminateRun_cases h core w runID status reason endedAt s' r Hw Hst He) in Et as [(Hno & _)|(x & Hx & _ & Hc)]; [by destruct (Hno run)|].
  assert (x = run) as -> by (destruct Hl, Hx; congruence). unfold scopes. rewrite V, V'. destruct r as [finished|[]]; try done.
  - destruct Hc as (-> & -> & (Hruns & _ & Hlive & seq & Hts) & Hch). rewrite fmap_delete. split_and!; try done.
    + by rewrite Hruns, lookup_insert_eq.
    + intros now token Hnow (r & _ & _ & Hr & _ & Ha & _)%VerifyIngestToken_sound. by apply (terminated_inactive run status reason endedAt).
    + intros now Hnow Hexp. unfold attribute, pruneTombstonesLocked, IsZero. destruct (Z.eqb_spec now 0); [done|].
      cbn [set_tombstones store_liveByIdentity store_tombstones snd]. change (scopeIdentity (terminated run status reason endedAt)) with (scopeIdentity run) in *.
      rewrite Hlive, lookup_delete_eq. erewrite map_lookup_filter_Some_2; [|exact Hts|unfold Before; cbn; lia]. done.
  - destruct Hc as (-> & Hruns & -> & ->). split_and!; try done. unfold live_run. by rewrite Hruns.
Qed.

(** C22: a pass of [CleanupExpiredRuns] leaves no overdue active run behind
    silently: each one has ended as expired or its failure is among the errors,
    and every other run is untouched. *)
Theorem expired_runs_cleaned {M Er} `{ScopeMapLaws M Er} h core (w : Serving M) now s' errors : serving h core w -> now <> 0 ->
  CleanupExpiredRuns h (serving_sys w) now = (s', errors) -> forall runID run,
  store_runs (sys_store (serving_sys w)) !! runID = Some run ->
  if (Run_Status run == "active") && negb (Run_RunExpiry run =? 0) && (Run_RunExpiry run <=? now)
  then store_runs (sys_store s') !! runID = Some (terminated run "expired" "" now) \/
       (exists e, (runID, e) ∈ errors) /\ store_runs (sys_store s') !! runID = Some run
  else store_runs (sys_store s') !! runID = Some run.
Proof.
  intros Hw Hnow. unfold CleanupExpiredRuns. destruct (expire_all _ _ _ _) as [s1 errors1] eqn:E. intros [= <- <-] runID run Hr.
  pose proof (sv_store _ _ w (serving_invariant h core w Hw)) as S1.
  destruct (prune_sub (sys_store s1) now) as (ts & Ep & _). cbn [set_store sys_store]. rewrite Ep. cbn [set_tombstones store_runs].
  assert (forall id, id ∈ expiredActiveRunIDs (sys_store (serving_sys w)) now <-> exists x, store_runs (sys_store (serving_sys w)) !! id = Some x /\
    (Run_Status x == "active") && negb (Run_RunExpiry x =? 0) && (Run_RunExpiry x <=? now) = true) as Hids.
  { intros id. unfold expiredActiveRunIDs, IsZero, Before. rewrite list_elem_of_In, in_map_iff. split.
    - intros ([k x] & <- & Hin%filter_In). destruct Hin as [Hin Hb]. exists x. cbn in *. rewrite Z.ltb_antisym, negb_involutive in Hb.
      split; [|done]. by apply elem_of_map_to_list, list_elem_of_In.
    - intros (x & Hx & Hb). exists (id, x). split; [done|]. apply filter_In. cbn. rewrite Z.ltb_antisym, negb_involutive. split; [|done].
      by apply list_elem_of_In, elem_of_map_to_list. }
  assert (NoDup (expiredActiveRunIDs (sys_store (serving_sys w)) now)) as Hnd.
  { unfold expiredActiveRunIDs. apply NoDup_ListNoDup. pose proof (NoDup_fst_map_to_list (store_runs (sys_store (serving_sys w)))) as Hn.
    apply NoDup_ListNoDup in Hn. revert Hn. generalize (map_to_list (store_runs (sys_store (serving_sys w)))). intros l.
    induction l as [|[k x] l IH]; [constructor|]. intros Hn. apply NoDup_cons_iff in Hn as [Hk Hn]. cbn. destruct (_ && _); [|by apply IH].
    cbn. constructor; [|by apply IH]. intros Hin. apply Hk. apply in_map_iff in Hin as (y & <- & [Hy _]%filter_In). exact (in_map fst _ _ Hy). }
  destruct (expire_all_cases h core now _ w s1 errors1 Hw Hnow Hnd) as (_ & Hout & Hin); [|done|].
  - intros id (x & Hx & Hb)%Hids. exists x. split; [done|]. apply (ok_status _ S1 id); [done|].
    apply andb_true_iff in Hb as [Hb _]. apply andb_true_iff in Hb as [Hb _]. by apply bool_decide_eq_true in Hb.
  - destruct (_ && _) eqn:Eb; [apply Hin; [apply Hids; eauto|done]|]. rewrite Hout; [done|]. intros (x & Hx & Hb)%Hids. rewrite Hr in Hx. injection Hx as <-. by rewrite Eb in Hb.
Qed.

(** ** Witnesses *)
Definition demo_normalised : RegisterRequest :=
  mkRegisterRequest "request-0000000001" "agent" "" "/sys/fs/cgroup/agent" 0 0 7 "leaf_exact" None.
Definition demo_admitted : System bounded_map := (admit_request demo_handler demo_system demo_normalised demo_now).1.
Definition demo_pending : Pending :=
  match (admit_request demo_handler demo_system demo_normalised demo_now).2 with
  | Ok p => p
  | Err _ => mkPending demo_normalised "" 0 "" 0 "" 0
  end.
Definition demo_registration : Registration := mkRegistration 77 "/sys/fs/cgroup/agent" 0 (scope_value demo_handler demo_pending).
Definition demo_scoped : System bounded_map := (register_scope demo_handler demo_resolve demo_probe demo_admitted demo_pending).1.
Definition demo_added : System bounded_map := (add_run demo_handler demo_scoped demo_pending demo_registration).1.
Definition demo_serving : Serving bounded_map :=
  mkServing (conclude demo_handler demo_added demo_pending demo_registration) RegIdle ∅ ∅.
Definition demo_agent : AgentRun := new_run demo_handler demo_pending demo_registration.

Definition demo_w0 : Serving bounded_map := mkServing demo_system RegIdle ∅ ∅.
Definition demo_w1 : Serving bounded_map := mkServing demo_admitted (RegAdmitted demo_pending) ∅ ∅.
Definition demo_w2 : Serving bounded_map := mkServing demo_scoped (RegScoped demo_pending demo_registration) ∅ ∅.
Definition demo_w3 : Serving bounded_map := mkServing demo_added (RegAdded demo_pending demo_registration) ∅ ∅.
Lemma demo_serving_reached : serving demo_handler "/sys/fs/cgroup/core" demo_serving.
Proof.
  apply (serving_next _ _ demo_w3); [|by apply (serve_conclude _ demo_w3)].
  apply (serving_next _ _ demo_w2); [|apply (serve_add _ demo_w2 demo_pending demo_registration demo_added None eq_refl); vm_compute; reflexivity].
  apply (serving_next _ _ demo_w1); [|apply (serve_scope _ demo_w1 demo_pending demo_resolve demo_probe demo_scoped (Ok demo_registration) eq_refl); vm_compute; reflexivity].
  apply (serving_next _ _ demo_w0); [|apply (serve_admit _ demo_w0 demo_normalised demo_now demo_admitted (Ok demo_pending) eq_refl); vm_compute; reflexivity].
  refine (serving_start _ _ demo_manager [demo_core_handle] (sys_random demo_system) _ eq_refl).
  by refine (reach_new _ (mkBounded ∅) demo_core_handle demo_manager _ _ _).
Qed.
Lemma demo_agent_live : live_run (sys_store (serving_sys demo_serving)) (pending_runID demo_pending) demo_agent.
Proof. split; [vm_compute; reflexivity|]. unfold ended. vm_compute. auto. Qed.

Lemma scopes_match_runs_witness :
  scopes_view (manager_scopes (sys_manager (serving_sys demo_serving))) !! 77 = Some (value_of demo_agent).
Proof.
  destruct (scopes_match_runs demo_handler "/sys/fs/cgroup/core" demo_serving demo_serving_reached) as (_ & Hown & _).
  apply (Hown (pending_runID demo_pending) demo_agent demo_agent_live). intros x. cbn. discriminate.
Defined.
Lemma verified_runs_observed_witness :
  scopes_view (manager_scopes (sys_manager (serving_sys demo_serving))) !! Run_CgroupID demo_agent = Some (value_of demo_agent).
Proof.
  apply (verified_runs_observed demo_handler "/sys/fs/cgroup/core" demo_serving (demo_now + 1) (pending_token demo_pending) demo_agent demo_serving_reached).
  vm_compute. reflexivity.
Defined.
Definition demo_terminated : System bounded_map :=
  (terminateRun demo_handler (serving_sys demo_serving) (pending_runID demo_pending) "finished" "" (demo_now + 5)).1.
Lemma terminateRun_exact_witness :
  scopes_view (manager_scopes (sys_manager demo_terminated)) =
    delete (Run_CgroupID demo_agent) (scopes_view (manager_scopes (sys_manager (serving_sys demo_serving)))).
Proof.
  refine (proj1 (proj2 (proj2 (terminateRun_exact demo_handler "/sys/fs/cgroup/core" demo_serving (pending_runID demo_pending) demo_agent "finished" "" (demo_now + 5)
    demo_terminated (Ok (terminated demo_agent "finished" "" (demo_now + 5))) demo_serving_reached demo_agent_live _ _ _ _)))).
  - apply (bool_decide_eq_false_1 _). vm_compute. reflexivity.
  - discriminate.
  - vm_compute. discriminate.
  - vm_compute. reflexivity.
Defined.
Definition demo_later : Time := demo_now + 25 * Hour.
Definition demo_cleaned : System bounded_map := (CleanupExpiredRuns demo_handler (serving_sys demo_serving) demo_later).1.
Lemma expired_runs_cleaned_witness :
  store_runs (sys_store demo_cleaned) !! pending_runID demo_pending = Some (terminated demo_agent "expired" "" demo_later) \/
  (exists e, (pending_runID demo_pending, e) ∈ @nil (string * TerminateError (Er := ScopeMapError bounded_error))) /\
    store_runs (sys_store demo_cleaned) !! pending_runID demo_pending = Some demo_agent.
Proof.
  pose proof (expired_runs_cleaned demo_handler "/sys/fs/cgroup/core" demo_serving demo_later demo_cleaned [] demo_serving_reached) as H.
  specialize (H ltac:(vm_compute; discriminate) ltac:(vm_compute; reflexivity) (pending_runID demo_pending) demo_agent (proj1 demo_agent_live)).
  assert ((Run_Status demo_agent == "active") && negb (Run_RunExpiry demo_agent =? 0) && (Run_RunExpiry demo_agent <=? demo_later) = true) as E
    by (vm_compute; reflexivity).
  rewrite E in H. exact H.
Defined.
