(* ===== verification/Coordinator.v ===== *)
(** * Policy coordination ([internal/api/policy_coordinator.go])

    An audit event is evaluated only for the active run its scope belongs to;
    when the winning hit asks for containment the executor is called once and
    its answer is checked, recorded and marked on the decision.  The executor
    is the interface [ContainmentExecutor] of the code, on a state of its own;
    [killer.Executor] is an instance. *)
From S2P Require Import Prelude GoStd GoTime Crypto Netip Schema Limits Match FileMatch ExecMatch NetworkMatch Generation Engine Events Enforcement KernelProgram KernelCapture PolicyAudit AuditStream CgroupPath Scope Killer LinuxCgroup RunStore Registration RunLifecycle.
Open Scope Z_scope.

(** [ctx] as in [Contain]; the error is its text. *)
Class ContainmentExecutor (S : Type) := executor_Contain : bool * bool -> Request -> S -> S * (Outcome * option string).

Record PolicyContainmentRecord := mkContainmentRecord {
  Containment_Outcome : Outcome;
  Containment_RunID : string;
  Containment_Generation : Generation;
  Containment_PolicyID : string;
  Containment_RuleID : Z;
  Containment_EventType : Z;
  Containment_EventTypeName : string;
  Containment_ServerReceivedMonotonicNS : Z;
  Containment_ServerReceivedUnixNS : Z;
  Containment_PolicyDecision : Decision;
  Containment_RequestedAction : Action;
}.
Inductive DerivedRecord := DerivedDecision (d : AuditDecisionRecord) | DerivedContainment (r : PolicyContainmentRecord).

(** ** Checking the executor's answer *)
Inductive ContractError :=
  | RecordTypeInvalid (recordType : string) | OutcomeIdentityMismatch | OutcomeSyscallMismatch
  | OutcomeMethodInvalid (method : string) | OutcomeResultInvalid (result : string) | KilledWithError | ReasonMissing.
Definition containmentOutcomeContractError (request : Request) (outcome : Outcome) (executionErr : option string) : option ContractError :=
  if Outcome_RecordType outcome != "containment_result" then Some (RecordTypeInvalid (Outcome_RecordType outcome))
  else if negb (Outcome_KernelMonotonicNS outcome =? Request_KernelMonotonicNS request) ||
     negb (Outcome_CgroupID outcome =? Request_CgroupID request) || negb (Outcome_InstanceID outcome =? Request_InstanceID request) ||
     negb (Outcome_ScopeCookie outcome =? Request_ScopeCookie request) || negb (Outcome_PID outcome =? Request_PID request) ||
     negb (Outcome_TGID outcome =? Request_TGID request) then Some OutcomeIdentityMismatch
  else if Outcome_SyscallResult outcome != Request_SyscallResult request then Some OutcomeSyscallMismatch
  else if Outcome_EnforcementMethod outcome != MethodCgroupKill then Some (OutcomeMethodInvalid (Outcome_EnforcementMethod outcome))
  else if negb (bool_decide (Outcome_EnforcementResult outcome ∈ [ResultNotAttempted; ResultKilled; ResultFailed]))
  then Some (OutcomeResultInvalid (Outcome_EnforcementResult outcome))
  else if is_some executionErr && (Outcome_EnforcementResult outcome == ResultKilled) then Some KilledWithError
  else if negb (is_some executionErr) && (Outcome_EnforcementResult outcome != ResultKilled) && (Outcome_Reason outcome == "") then Some ReasonMissing
  else None.
Definition with_reason (o : Outcome) (reason : string) : Outcome :=
  mkOutcome (Outcome_RecordType o) (Outcome_KernelMonotonicNS o) (Outcome_CgroupID o) (Outcome_InstanceID o) (Outcome_ScopeCookie o)
    (Outcome_PID o) (Outcome_TGID o) (Outcome_SyscallResult o) (Outcome_EnforcementMethod o) (Outcome_EnforcementResult o) reason.
(** [describe] is the text of a contract error; [errors.Join] prints one error
    per line. *)
Definition validatedContainmentOutcome (describe : ContractError -> string) (request : Request) (outcome : Outcome) (executionErr : option string) : Outcome :=
  match containmentOutcomeContractError request outcome executionErr with
  | Some e =>
      outcome_of request ResultFailed
        (match executionErr with Some err => describe e +:+ String newline err | None => describe e end)
  | None =>
      match executionErr with
      | Some err => if Outcome_Reason outcome == "" then with_reason outcome err else outcome
      | None => outcome
      end
  end.

(** ** The winning hit *)
Fixpoint matching_hits (policyID : string) (ruleID : Z) (i : nat) (hits : list PolicyHit) : list nat :=
  match hits with
  | [] => []
  | x :: hits' =>
      let rest := matching_hits policyID ruleID (S i) hits' in
      if (Hit_PolicyID x != policyID) || negb (Hit_RuleID x =? ruleID) then rest else i :: rest
  end.
(** The loop gives up on a second match. *)
Definition containmentWinner (d : AuditDecisionRecord) (ev : KernelEvent) : option nat :=
  match Report_Final (Audit_Report d) with
  | None => None
  | Some final =>
      if (Final_Decision final != DecisionDeny) || (Final_RequestedAction final != ActionContain) || Final_Enforced final then None
      else if Event_ActionResult ev =? ActionResultBlocked then None
      else if (Event_EventType ev =? EventTypeNetConnect) && (Final_NetworkDisposition final != DispositionDenied) then None
      else match matching_hits (Final_PolicyID final) (Final_RuleID final) 0 (Report_Hits (Audit_Report d)) with
           | [winner] =>
               match Report_Hits (Audit_Report d) !! winner with
               | Some hit => if Hit_ContainmentHint hit then Some winner else None
               | None => None
               end
           | _ => None
           end
  end.

(** ** Marking the result *)
(** A reason slice that shares its array with another slice of the same
    length: what it shows, the array, and whether it still uses it.  The array
    is full, so the other slice shows all of it. *)
Record Reasons := mkReasons { reasons_view : list string; reasons_array : list string; reasons_attached : bool }.
Definition shared_reasons (reasons : list string) : Reasons := mkReasons reasons reasons true.
(** [reasons[:0]] is filled in place. *)
Definition removePolicyReason (r : Reasons) (remove : string) : Reasons :=
  let filtered := List.filter (fun reason => reason != remove) (reasons_view r) in
  mkReasons filtered (if reasons_attached r then filtered ++ drop (length filtered) (reasons_array r) else reasons_array r) (reasons_attached r).
(** [append] writes into the array while it has room and moves away from it
    otherwise. *)
Definition appendPolicyReason (r : Reasons) (value : string) : Reasons :=
  if bool_decide (value ∈ reasons_view r) then r
  else
    let n := length (reasons_view r) in
    let fits := reasons_attached r && (n <? length (reasons_array r))%nat in
    mkReasons (reasons_view r ++ [value])
      (if fits then take n (reasons_array r) ++ value :: drop (S n) (reasons_array r) else reasons_array r) fits.

Definition mark_reasons (network : bool) (result : EnforcementResult) (reasons : list string) : Reasons :=
  let r := shared_reasons reasons in
  if result == ResultKilled then
    let r := removePolicyReason r "containment_not_executed" in
    let r := if network then appendPolicyReason (removePolicyReason r "enforcement_not_connected") "synchronous_enforcement_not_connected" else r in
    appendPolicyReason r "post_event_containment_killed"
  else if result == ResultFailed then appendPolicyReason r "post_event_containment_failed"
  else appendPolicyReason r "post_event_containment_not_attempted".
Definition mark_hit (result : EnforcementResult) (reasons : list string) (x : PolicyHit) : PolicyHit :=
  let killed := result == ResultKilled in
  mkPolicyHit (Hit_PolicyID x) (Hit_RuleID x) (Hit_RuleKind x) (Hit_RequestedAction x)
    (if killed then ActionContain else Hit_EffectiveAction x) (Hit_EvidenceSource x) (Hit_Confidence x) (Hit_PostEventOnly x)
    (if killed then false else Hit_ContainmentHint x) (if killed then true else Hit_Enforced x) reasons.
Definition mark_final (result : EnforcementResult) (f : FinalDecision) : FinalDecision :=
  if result == ResultKilled
  then mkFinalDecision (Final_PolicyID f) (Final_RuleID f) (Final_Decision f) (Final_NetworkDisposition f) (Final_RequestedAction f) ActionContain true
  else f.
(** The network decision a hit was made from shares the hit's reasons. *)
Definition mark_network (x : PolicyHit) (array : list string) (d : NetworkPolicyDecision) : NetworkPolicyDecision :=
  if (ND_PolicyID d == Hit_PolicyID x) && (ND_RuleID d =? Hit_RuleID x)
  then mkNetworkPolicyDecision (ND_PolicyID d) (ND_RuleID d) (ND_Disposition d) (ND_MatchedCIDR d) (ND_MatchedPort d) (ND_Enforced d) array
  else d.
Definition with_report (d : AuditDecisionRecord) (report : DecisionReport) (decisions : list NetworkPolicyDecision) : AuditDecisionRecord :=
  mkAuditDecisionRecord (Audit_RecordType d) (Audit_RunID d) (Audit_KernelMonotonicNS d) (Audit_ServerReceivedMonotonicNS d)
    (Audit_ServerReceivedUnixNS d) (Audit_CgroupID d) (Audit_InstanceID d) (Audit_ScopeCookie d) (Audit_PID d)
    (Audit_EventType d) (Audit_EventTypeName d) report decisions.
Definition markContainmentResult (d : AuditDecisionRecord) (hitIndex : nat) (result : EnforcementResult) : AuditDecisionRecord :=
  match Report_Hits (Audit_Report d) !! hitIndex with
  | None => d
  | Some x =>
      let marked := mark_reasons (Audit_EventType d =? EventTypeNetConnect) result (Hit_Reasons x) in
      let report := Audit_Report d in
      with_report d
        (mkDecisionReport (Report_Generation report) (<[hitIndex := mark_hit result (reasons_view marked) x]> (Report_Hits report))
           (Report_Gaps report) (mark_final result <$> Report_Final report))
        (map (mark_network x (reasons_array marked)) (Audit_NetworkDecisions d))
  end.

(** ** Processing an event *)
Inductive CoordinatorError := CoordinatorCancelled | ErrPolicyEventNotActiveRun | CoordinatorEvaluation (e : AuditError).
Definition containment_request (ev : KernelEvent) : Request :=
  mkRequest (Event_KernelMonotonicNS ev) (Event_CgroupID ev) (Event_InstanceID ev) (Event_ScopeCookie ev) (Event_PID ev) (Event_TGID ev) SyscallNotObserved.
Definition run_context (run : AgentRun) : EvaluationContext :=
  mkContext (Run_RunID run) (FormatUint (Run_CgroupID run)) (default ∅ (Run_Labels run)).
Definition containment_record (run : AgentRun) (ev : KernelEvent) (d : AuditDecisionRecord) (outcome : Outcome) : PolicyContainmentRecord :=
  let final := default (mkFinalDecision "" 0 "" "" "" "" false) (Report_Final (Audit_Report d)) in
  mkContainmentRecord outcome (Run_RunID run) (Report_Generation (Audit_Report d)) (Final_PolicyID final) (Final_RuleID final)
    (Event_EventType ev) (Event_EventTypeName ev) (Event_ServerReceivedMonotonicNS ev) (Event_ServerReceivedUnixNS ev)
    (Final_Decision final) (Final_RequestedAction final).

(** [cancelled]: whether the context is done on entry; [ctx] is what the
    executor sees of it. *)
Definition ProcessAuditEvent {S} `{ContainmentExecutor S} (describe : ContractError -> string) (runs : RunStore) (engine : option Engine) (cancelled : bool) (ctx : bool * bool)
    (ev : KernelEvent) (s : S) : S * result CoordinatorError (list DerivedRecord) :=
  if cancelled then (s, Err CoordinatorCancelled)
  else match activeRunForPolicyEvent runs (Event_CgroupID ev) (Event_InstanceID ev) (Event_ScopeCookie ev) with
  | None => (s, Err ErrPolicyEventNotActiveRun)
  | Some run =>
  match EvaluateAuditDecision engine (run_context run) ev with
  | Err e => (s, Err (CoordinatorEvaluation e))
  | Ok None => (s, Ok [])
  | Ok (Some decision) =>
  match containmentWinner decision ev with
  | None => (s, Ok [DerivedDecision decision])
  | Some hitIndex =>
      let request := containment_request ev in
      let '(s, (outcome, containmentErr)) := executor_Contain ctx request s in
      let outcome := validatedContainmentOutcome describe request outcome containmentErr in
      let decision := markContainmentResult decision hitIndex (Outcome_EnforcementResult outcome) in
      (s, Ok [DerivedDecision decision; DerivedContainment (containment_record run ev decision outcome)])
  end end end.

(** ** The executor of the program *)
Lemma Contain_outcomes {M S Hd} `{CgroupBackend S Hd} error_text (m : Manager M) ctx request (s : S) s' outcome err :
  Contain error_text (Some m) (Some ctx) request s = (s', (outcome, err)) ->
  match err with
  | None => outcome = outcome_of request ResultKilled ""
  | Some e => exists result, outcome = outcome_of request result (error_text e) /\ (result = ResultFailed \/ result = ResultNotAttempted)
  end.
Proof.
  unfold Contain. destruct ctx as [finished cancelled]. destruct (Request_Validate request); [intros [= <- <- <-]; eauto|].
  destruct finished; [intros [= <- <- <-]; eauto|]. destruct (WithActiveIdentity _ _ _ _ _ _) as [c [e|]]; intros [= <- <- <-]; [|done].
  eexists. split; [done|]. destruct (_ && _); auto.
Qed.
Section KillerExecutor.
Context {M S Hd : Type} `{CgroupBackend S Hd}.
Context (error_text : ContainError -> string) (m : Manager M).
#[local] Instance killer_executor : ContainmentExecutor S := fun ctx request s =>
  let '(s', (outcome, err)) := Contain error_text (Some m) (Some ctx) request s in (s', (outcome, error_text <$> err)).

(** Its outcomes always keep the contract, so they are recorded as they are
    but for a missing text. *)
Lemma killer_keeps_contract ctx request s s' outcome err : executor_Contain ctx request s = (s', (outcome, err)) ->
  exists cause, Contain error_text (Some m) (Some ctx) request s = (s', (outcome, cause)) /\ err = error_text <$> cause /\
    containmentOutcomeContractError request outcome err = None.
Proof.
  unfold executor_Contain, killer_executor. destruct (Contain _ _ _ _ _) as [s1 [o1 e1]] eqn:E. intros [= <- <- <-].
  exists e1. split_and!; [done..|]. apply Contain_outcomes in E. unfold containmentOutcomeContractError. destruct e1 as [e1|].
  - destruct E as (result & -> & Hr). cbn. rewrite !Z.eqb_refl. cbn. rewrite !bool_decide_eq_true_2 by done.
    by destruct Hr as [-> | ->].
  - rewrite E. cbn. rewrite !Z.eqb_refl. cbn. by rewrite !bool_decide_eq_true_2 by done.
Qed.
End KillerExecutor.

(** ** Lemmas *)
(** The run a policy event belongs to. *)
Definition event_run (runs : RunStore) (ev : KernelEvent) (runID : string) (run : AgentRun) : Prop :=
  live_run runs runID run /\ Run_Status run = "active" /\ runID ∉ store_terminating runs /\ Run_CgroupID run = Event_CgroupID ev /\
  Run_InstanceID run = Event_InstanceID ev /\ Run_ScopeCookie run = Event_ScopeCookie ev.
Lemma activeRunForPolicyEvent_spec runs ev run : store_ok runs ->
  activeRunForPolicyEvent runs (Event_CgroupID ev) (Event_InstanceID ev) (Event_ScopeCookie ev) = Some run -> event_run runs ev (Run_RunID run) run.
Proof.
  intros Hok. unfold activeRunForPolicyEvent. destruct (_ || _ || _); [done|].
  destruct (store_liveByIdentity runs !! _) as [runID|] eqn:El; [|done]. case_bool_decide as Et; [done|].
  destruct (store_runs runs !! runID) as [x|] eqn:Er; [|done]. destruct (_ || _ || _) eqn:Ec; [done|]. rewrite cloned_id. intros [= <-].
  apply orb_false_iff in Ec as [Ec Ei%negb_false_iff%bool_decide_eq_true]. apply orb_false_iff in Ec as [Es%negb_false_iff%bool_decide_eq_true Eg%negb_false_iff%Z.eqb_eq].
  destruct (ok_ids runs Hok _ _ Er) as [-> _]. injection Ei as Ei1 Ei2. repeat split; try done. by apply (ok_status runs Hok runID).
Qed.
Lemma activeRunForPolicyEvent_None runs ev : store_ok runs ->
  activeRunForPolicyEvent runs (Event_CgroupID ev) (Event_InstanceID ev) (Event_ScopeCookie ev) = None ->
  Event_CgroupID ev <> 0 -> forall run, ~ event_run runs ev (Run_RunID run) run.
Proof.
  intros Hok Hnone Hc run (Hlive & Hs & Ht & Eg & Ei & Ek). revert Hnone. unfold activeRunForPolicyEvent.
  pose proof (proj1 Hlive) as Hrun. destruct (ok_ids runs Hok _ _ Hrun) as [_ Hid]. unfold ScopeIdentity_Validate, scopeIdentity in Hid. cbn in Hid.
  rewrite Ei, Ek in Hid. destruct (Z.eqb_spec (Event_CgroupID ev) 0); [done|].
  destruct (Z.eqb_spec (Event_InstanceID ev) 0); [done|]. destruct (Z.eqb_spec (Event_ScopeCookie ev) 0); [done|]. cbn [orb].
  assert (store_liveByIdentity runs !! mkScopeIdentity (Event_InstanceID ev) (Event_ScopeCookie ev) = Some (Run_RunID run)) as ->.
  { apply (ok_live runs Hok). exists run. unfold scopeIdentity. by rewrite Ei, Ek. }
  rewrite bool_decide_eq_false_2, Hrun by done. unfold scopeIdentity. rewrite Hs, Eg, Ei, Ek, Z.eqb_refl.
  by rewrite !bool_decide_eq_true_2.
Qed.
Lemma matching_hits_spec policyID ruleID hits : forall i j, j ∈ matching_hits policyID ruleID i hits <->
  exists k x, j = (i + k)%nat /\ hits !! k = Some x /\ Hit_PolicyID x = policyID /\ Hit_RuleID x = ruleID.
Proof.
  induction hits as [|x hits IH]; intros i j; cbn [matching_hits].
  - split; [intros Hj; by apply elem_of_nil in Hj|]. by intros (k & x & _ & Hk & _).
  - assert (j ∈ matching_hits policyID ruleID (S i) hits <-> exists k y, j = (i + S k)%nat /\ hits !! k = Some y /\ Hit_PolicyID y = policyID /\ Hit_RuleID y = ruleID) as Hrest.
    { rewrite IH. split; intros (k & y & -> & Hk); exists k, y; (split; [lia|done]). }
    assert ((exists k y, j = (i + k)%nat /\ (x :: hits) !! k = Some y /\ Hit_PolicyID y = policyID /\ Hit_RuleID y = ruleID) <->
      (j = i /\ Hit_PolicyID x = policyID /\ Hit_RuleID x = ruleID) \/ exists k y, j = (i + S k)%nat /\ hits !! k = Some y /\ Hit_PolicyID y = policyID /\ Hit_RuleID y = ruleID) as ->.
    { split.
      - intros ([|k] & y & -> & Hk & Hy); [injection Hk as <-; left; split; [lia|done]|]. right. by exists k, y.
      - intros [(-> & Hx)|(k & y & -> & Hk)]; [exists 0%nat, x; split; [lia|done]|by exists (S k), y]. }
    rewrite <-Hrest. destruct (bool_decide_reflect (Hit_PolicyID x = policyID)) as [Ep|Ep], (Z.eqb_spec (Hit_RuleID x) ruleID) as [Eu|Eu];
      cbn [negb orb]; rewrite ?elem_of_cons; naive_solver.
Qed.
Lemma matching_hits_NoDup policyID ruleID hits : forall i, NoDup (matching_hits policyID ruleID i hits).
Proof.
  induction hits as [|x hits IH]; intros i; cbn [matching_hits]; [constructor|]. destruct (_ || _); [apply IH|]. constructor; [|apply IH].
  intros (k & y & E & _)%matching_hits_spec. lia.
Qed.
(** The final decision and its only hit, when containment is due. *)
Definition containment_due (d : AuditDecisionRecord) (ev : KernelEvent) (i : nat) (final : FinalDecision) (x : PolicyHit) : Prop :=
  Report_Final (Audit_Report d) = Some final /\ Final_Decision final = DecisionDeny /\ Final_RequestedAction final = ActionContain /\
  Final_Enforced final = false /\ Event_ActionResult ev <> ActionResultBlocked /\
  (Event_EventType ev = EventTypeNetConnect -> Final_NetworkDisposition final = DispositionDenied) /\
  Report_Hits (Audit_Report d) !! i = Some x /\ Hit_PolicyID x = Final_PolicyID final /\ Hit_RuleID x = Final_RuleID final /\ Hit_ContainmentHint x = true /\
  forall j y, Report_Hits (Audit_Report d) !! j = Some y -> Hit_PolicyID y = Final_PolicyID final -> Hit_RuleID y = Final_RuleID final -> j = i.
Lemma containmentWinner_spec d ev i : containmentWinner d ev = Some i <-> exists final x, containment_due d ev i final x.
Proof.
  unfold containmentWinner, containment_due. destruct (Report_Final (Audit_Report d)) as [final|]; [|split; [done|by intros (f & x & ? & _)]].
  pose proof (matching_hits_spec (Final_PolicyID final) (Final_RuleID final) (Report_Hits (Audit_Report d)) 0) as Hm.
  destruct (bool_decide_reflect (Final_Decision final = DecisionDeny)) as [E1|E1]; cbn [negb orb]; [|split; [done|naive_solver]].
  destruct (bool_decide_reflect (Final_RequestedAction final = ActionContain)) as [E2|E2]; cbn [negb orb]; [|split; [done|naive_solver]].
  destruct (Final_Enforced final) eqn:E3; [split; [done|]; intros (f & x & [= <-] & ? & ? & ? & _); congruence|].
  destruct (Z.eqb_spec (Event_ActionResult ev) ActionResultBlocked) as [E4|E4]; [split; [done|naive_solver]|].
  destruct ((Event_EventType ev =? EventTypeNetConnect) && _) eqn:E5.
  { split; [done|]. intros (f & x & [= <-] & _ & _ & _ & _ & Hn & _). apply andb_true_iff in E5 as [?%Z.eqb_eq ?%negb_true_iff%bool_decide_eq_false]. by destruct Hn. }
  assert (Event_EventType ev = EventTypeNetConnect -> Final_NetworkDisposition final = DispositionDenied) as Hnet.
  { intros Et. rewrite Et in E5. cbn in E5. by apply negb_false_iff, bool_decide_eq_true in E5. }
  destruct (matching_hits _ _ _ _) as [|w [|w' ws]] eqn:Ew.
  - split; [done|]. intros (f & x & [= <-] & _ & _ & _ & _ & _ & Hx & Hp & Hr & _). assert (i ∈ @nil nat) as Hi by (apply Hm; by exists i, x). by apply elem_of_nil in Hi.
  - destruct (proj1 (Hm w) ltac:(by apply list_elem_of_singleton)) as (k & x & -> & Hk & Hp & Hr). cbn [Nat.add] in *. rewrite Hk.
    assert (forall j y, Report_Hits (Audit_Report d) !! j = Some y -> Hit_PolicyID y = Final_PolicyID final -> Hit_RuleID y = Final_RuleID final -> j = k) as Hu.
    { intros j y Hj Hjp Hjr. assert (j ∈ [k]) as Hin by (apply Hm; by exists j, y). by apply list_elem_of_singleton in Hin. }
    destruct (Hit_ContainmentHint x) eqn:Eh.
    + split; [intros [= <-]; exists final, x; by split_and!|]. intros (f & y & [= <-] & _ & _ & _ & _ & _ & Hy & Hyp & Hyr & _). f_equal. symmetry. by apply (Hu i y).
    + split; [done|]. intros (f & y & [= <-] & _ & _ & _ & _ & _ & Hy & Hyp & Hyr & Hh & _). assert (i = k) as -> by (by apply (Hu i y)). congruence.
  - split; [done|]. intros (f & x & [= <-] & _ & _ & _ & _ & _ & Hx & Hp & Hr & _ & Hu).
    assert (forall j, j ∈ w :: w' :: ws -> j = i) as Hall by (intros j (k & y & -> & Hk & Hyp & Hyr)%Hm; by apply (Hu k y)).
    pose proof (matching_hits_NoDup (Final_PolicyID final) (Final_RuleID final) (Report_Hits (Audit_Report d)) 0) as Hnd.
    rewrite Ew in Hnd. apply NoDup_cons in Hnd as [Hn _]. exfalso. apply Hn. rewrite (Hall w), (Hall w') by set_solver. set_solver.
Qed.

(** *** The executor's answer
    [outcome] answers [request]: it carries the request's identity and is a
    cgroup kill with the given result. *)
Definition answers (request : Request) (outcome : Outcome) (result : EnforcementResult) (reason : string) : Prop :=
  outcome = mkOutcome "containment_result" (Request_KernelMonotonicNS request) (Request_CgroupID request) (Request_InstanceID request)
    (Request_ScopeCookie request) (Request_PID request) (Request_TGID request) (Request_SyscallResult request) MethodCgroupKill result reason.
(** The executor says it killed, without an error and for this request. *)
Definition kill_reported (request : Request) (outcome : Outcome) (err : option string) : Prop :=
  err = None /\ exists reason, answers request outcome ResultKilled reason.
(** An answer that can be believed: a known result, no error beside a kill,
    and a reason for anything else. *)
Definition believable (request : Request) (outcome : Outcome) (err : option string) : Prop :=
  exists result reason, answers request outcome result reason /\ result ∈ [ResultNotAttempted; ResultKilled; ResultFailed] /\
    (result = ResultKilled -> err = None) /\ (err = None -> result <> ResultKilled -> reason <> "").
(** What is recorded of an answer. *)
Inductive recorded_as (request : Request) (outcome : Outcome) : option string -> Outcome -> Prop :=
| recorded_given err : believable request outcome err -> err = None \/ Outcome_Reason outcome <> "" -> recorded_as request outcome err outcome
| recorded_error e result : believable request outcome (Some e) -> answers request outcome result "" ->
    forall recorded, answers request recorded result e -> recorded_as request outcome (Some e) recorded
| recorded_failed err reason recorded : ~ believable request outcome err -> answers request recorded ResultFailed reason ->
    recorded_as request outcome err recorded.

Lemma contract_believable request outcome err : containmentOutcomeContractError request outcome err = None <-> believable request outcome err.
Proof.
  unfold containmentOutcomeContractError, believable, answers.
  rewrite !guard_None, !orb_false_iff, !negb_false_iff, !bool_decide_eq_true, !Z.eqb_eq, !andb_false_iff, !negb_false_iff, !bool_decide_eq_true, !bool_decide_eq_false.
  destruct outcome as [rt ns cg inst cookie pid tgid sys method result reason]; cbn [Outcome_RecordType Outcome_KernelMonotonicNS Outcome_CgroupID
    Outcome_InstanceID Outcome_ScopeCookie Outcome_PID Outcome_TGID Outcome_SyscallResult Outcome_EnforcementMethod Outcome_EnforcementResult Outcome_Reason].
  split.
  - intros (-> & (((((-> & ->) & ->) & ->) & ->) & ->) & -> & -> & Hr & H1 & H2 & _). exists result, reason. split_and!; [done|done| |].
    + intros ->. destruct err; [destruct H1; done|done].
    + intros -> Hn. cbn in H2. naive_solver.
  - intros (result' & reason' & [= -> -> -> -> -> -> -> -> -> -> ->] & Hr & H1 & H2). split_and!; try done.
    + destruct err; [|by left]. right. intros ->. by specialize (H1 eq_refl).
    + destruct err; [by left; left|]. destruct (decide (result' = ResultKilled)); [by left; right|]. right. by apply H2.
Qed.
Lemma validated_recorded describe request outcome err :
  recorded_as request outcome err (validatedContainmentOutcome describe request outcome err).
Proof.
  unfold validatedContainmentOutcome. pose proof (contract_believable request outcome err) as Hb.
  destruct (containmentOutcomeContractError request outcome err) as [e|].
  { eapply recorded_failed; [by intros H%Hb|]. unfold answers, outcome_of. reflexivity. }
  assert (believable request outcome err) as Hk by (by apply Hb). destruct err as [err|]; [|by apply recorded_given; [|left]].
  destruct (bool_decide_reflect (Outcome_Reason outcome = "")) as [Er|Er]; [|by apply recorded_given; [|right]].
  destruct Hk as (result & reason & Ha & Hrest). pose proof Ha as Ha'. unfold answers in Ha'. rewrite Ha' in Er. cbn in Er. subst reason.
  apply (recorded_error request outcome err result); [by exists result, ""|done|]. unfold answers. by rewrite Ha'.
Qed.
Lemma recorded_killed request outcome err recorded :
  recorded_as request outcome err recorded -> Outcome_EnforcementResult recorded = ResultKilled <-> kill_reported request outcome err.
Proof.
  unfold kill_reported. intros [err' Hb _|e result Hb Ha recorded' Hr|err' reason recorded' Hb Hr].
  - destruct Hb as (result & reason & Ha & _ & Hk & _). rewrite Ha. cbn. split; [intros ->; split; [by apply Hk|by exists reason]|].
    intros [_ [reason' E]]. unfold answers in E. by injection E.
  - rewrite Hr. cbn. split; [intros ->|by intros [? _]]. destruct Hb as (result & reason & Ha' & _ & Hk & _).
    unfold answers in Ha, Ha'. rewrite Ha in Ha'. injection Ha' as <- _. by specialize (Hk eq_refl).
  - rewrite Hr. cbn. split; [done|]. intros [-> [reason' Ha]]. destruct Hb. exists ResultKilled, reason'. split_and!; [done|set_solver|done|done].
Qed.

(** *** What the answer changes of the decision
    The winning hit [i] and the final decision are marked enforced when the
    executor killed; nothing else that a reader of the decision acts on is
    touched. *)
Record marked (d0 : AuditDecisionRecord) (i : nat) (x : PolicyHit) (final : FinalDecision) (killed : Prop) (d : AuditDecisionRecord) : Prop := {
  mk_final_killed : killed -> Report_Final (Audit_Report d) = Some (mkFinalDecision (Final_PolicyID final) (Final_RuleID final)
    (Final_Decision final) (Final_NetworkDisposition final) (Final_RequestedAction final) "contain" true);
  mk_final_kept : ~ killed -> Report_Final (Audit_Report d) = Some final;
  mk_hit : exists x', Report_Hits (Audit_Report d) !! i = Some x' /\ Hit_PolicyID x' = Hit_PolicyID x /\ Hit_RuleID x' = Hit_RuleID x /\
    (killed -> Hit_Enforced x' = true /\ Hit_EffectiveAction x' = "contain" /\ Hit_ContainmentHint x' = false) /\
    (~ killed -> Hit_Enforced x' = Hit_Enforced x /\ Hit_EffectiveAction x' = Hit_EffectiveAction x /\ Hit_ContainmentHint x' = Hit_ContainmentHint x);
  mk_hits : forall j, j <> i -> Report_Hits (Audit_Report d) !! j = Report_Hits (Audit_Report d0) !! j;
  mk_gaps : Report_Gaps (Audit_Report d) = Report_Gaps (Audit_Report d0);
  mk_generation : Report_Generation (Audit_Report d) = Report_Generation (Audit_Report d0);
  mk_run : Audit_RunID d = Audit_RunID d0;
  mk_dispositions : map ND_Disposition (Audit_NetworkDecisions d) = map ND_Disposition (Audit_NetworkDecisions d0);
}.
Lemma markContainmentResult_marked d i result x final (killed : Prop) :
  Report_Hits (Audit_Report d) !! i = Some x -> Report_Final (Audit_Report d) = Some final -> (result = ResultKilled <-> killed) ->
  marked d i x final killed (markContainmentResult d i result).
Proof.
  intros Hx Hf Hk. unfold markContainmentResult. rewrite Hx.
  constructor; cbn [Audit_Report with_report Report_Final Report_Gaps Report_Generation Report_Hits Audit_RunID Audit_NetworkDecisions]; try done.
  - intros Hkill%Hk. rewrite Hf. cbn. unfold mark_final. by rewrite bool_decide_eq_true_2.
  - intros Hkill. rewrite Hf. cbn. unfold mark_final. by rewrite bool_decide_eq_false_2 by (by rewrite Hk).
  - eexists. split; [apply list_lookup_insert_eq; by eapply lookup_lt_Some|]. unfold mark_hit. cbn. split_and!; [done|done|..].
    + intros Hkill%Hk. by rewrite !bool_decide_eq_true_2.
    + intros Hkill. by rewrite !bool_decide_eq_false_2 by (by rewrite Hk).
  - intros j Hj. by rewrite list_lookup_insert_ne.
  - rewrite map_map. apply map_ext. intros nd. unfold mark_network. by destruct (_ && _).
Qed.

(** The two ways an event is processed. *)
Definition contained {S} `{ContainmentExecutor S} (runs : RunStore) (engine : option Engine)
    (ctx : bool * bool) (ev : KernelEvent) (s s' : S) (r : result CoordinatorError (list DerivedRecord)) : Prop :=
  exists run d0 i final x outcome err recorded d c,
    event_run runs ev (Run_RunID run) run /\ EvaluateAuditDecision engine (run_context run) ev = Ok (Some d0) /\
    containment_due d0 ev i final x /\ executor_Contain ctx (containment_request ev) s = (s', (outcome, err)) /\
    recorded_as (containment_request ev) outcome err recorded /\
    r = Ok [DerivedDecision d; DerivedContainment c] /\
    marked d0 i x final (kill_reported (containment_request ev) outcome err) d /\
    c = mkContainmentRecord recorded (Run_RunID run) (Report_Generation (Audit_Report d0)) (Final_PolicyID final) (Final_RuleID final)
      (Event_EventType ev) (Event_EventTypeName ev) (Event_ServerReceivedMonotonicNS ev) (Event_ServerReceivedUnixNS ev) DecisionDeny ActionContain.
Definition only_evaluated (runs : RunStore) (engine : option Engine) (ev : KernelEvent) (r : result CoordinatorError (list DerivedRecord)) : Prop :=
  match r with
  | Err ErrPolicyEventNotActiveRun => Event_CgroupID ev <> 0 -> forall run, ~ event_run runs ev (Run_RunID run) run
  | Err (CoordinatorEvaluation e) => exists run, event_run runs ev (Run_RunID run) run /\ EvaluateAuditDecision engine (run_context run) ev = Err e
  | Ok [] => exists run, event_run runs ev (Run_RunID run) run /\ EvaluateAuditDecision engine (run_context run) ev = Ok None
  | Ok [DerivedDecision d] => exists run, event_run runs ev (Run_RunID run) run /\
      EvaluateAuditDecision engine (run_context run) ev = Ok (Some d) /\ forall i final x, ~ containment_due d ev i final x
  | _ => False
  end.
Lemma ProcessAuditEvent_cases {S} `{ContainmentExecutor S} describe runs engine cancelled ctx ev (s s' : S) r : store_ok runs ->
  ProcessAuditEvent describe runs engine cancelled ctx ev s = (s', r) ->
  if cancelled then s' = s /\ r = Err CoordinatorCancelled
  else contained runs engine ctx ev s s' r \/ s' = s /\ only_evaluated runs engine ev r.
Proof.
  intros Hok. unfold ProcessAuditEvent. destruct cancelled; [by intros [= <- <-]|].
  destruct (activeRunForPolicyEvent _ _ _ _) as [run|] eqn:Er; [|intros [= <- <-]; right; split; [done|]; exact (activeRunForPolicyEvent_None runs ev Hok Er)].
  apply activeRunForPolicyEvent_spec in Er; [|done].
  destruct (EvaluateAuditDecision _ _ _) as [[d0|]|e] eqn:Ed; [|intros [= <- <-]; right; split; [done|]; by exists run..].
  destruct (containmentWinner d0 ev) as [i|] eqn:Ew.
  2:{ intros [= <- <-]. right. split; [done|]. exists run. split_and!; try done. intros i final x Hdue.
      assert (containmentWinner d0 ev = Some i) as Hw by (apply containmentWinner_spec; eauto). congruence. }
  apply containmentWinner_spec in Ew as (final & x & Hdue). destruct (executor_Contain _ _ _) as [s1 [outcome err]] eqn:Ec.
  intros [= <- <-]. left. pose proof Hdue as (Hf & Hdeny & Hcontain & _ & _ & _ & Hx & _).
  pose proof (validated_recorded describe (containment_request ev) outcome err) as Hrec.
  set (recorded := validatedContainmentOutcome describe (containment_request ev) outcome err) in *.
  pose proof (markContainmentResult_marked d0 i _ x final _ Hx Hf (recorded_killed _ _ _ _ Hrec)) as Hm.
  exists run, d0, i, final, x, outcome, err, recorded. eexists _, _. do 5 (split; [done|]). split; [done|]. split; [exact Hm|].
  unfold containment_record. rewrite (mk_generation _ _ _ _ _ _ Hm), <-Hdeny, <-Hcontain.
  unfold markContainmentResult. rewrite Hx. cbn [Audit_Report with_report Report_Final]. rewrite Hf. cbn. unfold mark_final.
  by destruct (Outcome_EnforcementResult recorded == ResultKilled).
Qed.


(** C16: with the program's own executor, whatever happened to the scopes
    between the evaluation and the kill, the only cgroup that is ever killed is
    that of the run the event was attributed to, and only while the kernel's
    scope map still holds it with that run's identity; a decision that comes
    with a containment record - one that asked for containment - and is marked
    enforced means the kill took place; and no cgroup handle stays open. *)
Theorem containment_hits_the_run {M Er S Hd} `{ScopeMapLaws M Er} `{BackendLaws S Hd} h core (w1 w2 : Serving M) error_text describe engine ctx ev (s s' : S) r :
  serving h core w1 -> serving h core w2 ->
  ProcessAuditEvent (H := killer_executor error_text (sys_manager (serving_sys w2))) describe (sys_store (serving_sys w1)) engine false ctx ev s = (s', r) ->
  backend_handles s' = backend_handles s /\
  (backend_killed s' = backend_killed s \/ exists run v, event_run (sys_store (serving_sys w1)) ev (Run_RunID run) run /\
    backend_killed s' = backend_killed s ++ [Run_CgroupID run] /\
    scopes_view (manager_scopes (sys_manager (serving_sys w2))) !! Run_CgroupID run = Some v /\
    Value_InstanceID v = Run_InstanceID run /\ Value_ScopeCookie v = Run_ScopeCookie run) /\
  forall d c final, r = Ok [DerivedDecision d; DerivedContainment c] -> Report_Final (Audit_Report d) = Some final -> Final_Enforced final = true ->
    backend_killed s' = backend_killed s ++ [Event_CgroupID ev].
Proof.
  intros W1%serving_invariant W2%serving_invariant Hp. destruct W1 as [S1 _ _ _ _ _]. destruct W2 as [_ [opened S2] _ _ _ _].
  apply ProcessAuditEvent_cases in Hp as [(run & d0 & i & final & x & outcome & err & recorded & d & c & Hrun & _ & Hdue & Hc & _ & -> & Hm & _)|(-> & Hev)]; [| |done].
  2:{ split_and!; [done|by left|]. intros d c f -> . done. }
  apply killer_keeps_contract in Hc as (cause & Hc & -> & _). apply (Contain_spec error_text core _ opened) in Hc as (Hh & Hkill & Hkilled & Hdone & _ & _); [|done].
  pose proof Hrun as (_ & _ & _ & Eg & Ei & Ek). split_and!; [done| |].
  - destruct Hkill as [?|[Hb (a & _ & Hv & Hi & Hck & _)]]; [by left|right]. exists run, (Registration_Value (scope_registration a)).
    cbn [containment_request Request_CgroupID Request_InstanceID Request_ScopeCookie] in *. rewrite Eg, Ei, Ek. split_and!; done.
  - intros d' c' f [= <- <-] Hf Hen. apply Hdone. destruct cause as [cause|]; [exfalso|done].
    rewrite (mk_final_kept _ _ _ _ _ _ Hm) in Hf by (by intros [? _]). injection Hf as <-. destruct Hdue as (_ & _ & _ & Hne & _). congruence.
Qed.

(** ** An exec of a shell in the demo run, contained by the killer *)
Definition demo_contain_engine : Engine :=
  mkEngine (withDefaults DefaultLimits) (Some (newEngineSnapshot demo_generation (demo_prepared demo_exec_bundle))).
Definition demo_shell_event : KernelEvent :=
  base_event (mkRaw 3 EventTypeExecAttempt KernelActionAudit ActionResultNone 1000 77 (Run_InstanceID demo_agent) (Run_ScopeCookie demo_agent)
    42 40 1 1000 1 0 0 0 0 4 [] []) "" "/bin/sh" ["sh"; "-c"; "x --evil"] None ∅.
Definition demo_contract (e : ContractError) : string := "contract".
Section DemoContained.
#[local] Existing Instance demo_world.
Definition demo_contained : os * result CoordinatorError (list DerivedRecord) :=
  ProcessAuditEvent (H := killer_executor (H := linux_backend defaultCgroupRoot) demo_text (sys_manager (serving_sys demo_serving))) demo_contract
    (sys_store (serving_sys demo_serving)) (Some demo_contain_engine) false (false, false) demo_shell_event demo_os.
Lemma demo_contained_eq :
  ProcessAuditEvent (H := killer_executor (H := linux_backend defaultCgroupRoot) demo_text (sys_manager (serving_sys demo_serving))) demo_contract
    (sys_store (serving_sys demo_serving)) (Some demo_contain_engine) false (false, false) demo_shell_event demo_os = (demo_contained.1, demo_contained.2).
Proof. unfold demo_contained. apply surjective_pairing. Qed.
Lemma demo_contained_killed : os_killed demo_contained.1 = [77].
Proof. vm_compute. reflexivity. Qed.
Lemma containment_hits_the_run_witness :
  exists run v, event_run (sys_store (serving_sys demo_serving)) demo_shell_event (Run_RunID run) run /\
    os_killed demo_contained.1 = [Run_CgroupID run] /\
    scopes_view (manager_scopes (sys_manager (serving_sys demo_serving))) !! Run_CgroupID run = Some v /\
    Value_InstanceID v = Run_InstanceID run.
Proof.
  destruct (containment_hits_the_run (H4 := linux_laws defaultCgroupRoot) demo_handler "/sys/fs/cgroup/core" demo_serving demo_serving demo_text demo_contract (Some demo_contain_engine)
    (false, false) demo_shell_event demo_os demo_contained.1 demo_contained.2 demo_serving_reached demo_serving_reached demo_contained_eq)
    as (_ & [Hk|(run & v & He & Hk & Hs & Hi & _)] & _).
  - exfalso. change (os_killed demo_contained.1 = os_killed demo_os) in Hk. rewrite demo_contained_killed in Hk. discriminate.
  - exists run, v. split; [exact He|]. split; [exact Hk|]. split; [exact Hs|exact Hi].
Defined.
End DemoContained.

(** ** Reasons rewritten through the shared array *)
(** A policy that denies and contains a connection to 8.8.8.8:53: the kill
    marks the hit, and the reasons of the policy's network decision, which
    share the hit's array, change with it - although its disposition and its
    [enforced] field, which the marking leaves alone, do not. *)
Definition demo_network_contain_policy : Policy :=
  mkPolicy "egress" "Egress allowlist" "" true (mkScope ScopeGlobal "" "" ∅) DecisionDeny ActionContain 7 SeverityHigh
    (mkConditions None None (Some (mkNetworkCondition NetworkDefaultDeny ["10.0.0.5/32"] [mkPortRange 443 443] [FamilyIPv4]))).
Definition demo_network_contain_engine : Engine :=
  mkEngine (withDefaults DefaultLimits) (Some (newEngineSnapshot demo_generation (demo_prepared (mkBundle 1 [demo_network_contain_policy])))).
Definition demo_connect_event : KernelEvent :=
  base_event (mkRaw 3 EventTypeNetConnect KernelActionAudit ActionResultNone 1000 77 5 9 42 40 0 1000 1 0 0 4 0 0 [] [])
    "" "" [] (Some (Addr4 134744072, 53, 2, 6)) ∅.
Definition demo_connect_record : option AuditDecisionRecord :=
  match EvaluateAuditDecision (Some demo_network_contain_engine) (mkContext "" "" ∅) demo_connect_event with Ok r => r | Err _ => None end.
Definition decision_reasons (d : AuditDecisionRecord) : list (bool * list string) := map (fun n => (ND_Enforced n, ND_Reasons n)) (Audit_NetworkDecisions d).
Theorem kill_rewrites_decision_reasons :
  (fun d => containmentWinner d demo_connect_event) <$> demo_connect_record = Some (Some 0%nat) /\
  decision_reasons <$> demo_connect_record = Some [(false, ["direct_dns_not_allowed"; "enforcement_not_connected"])] /\
  (fun d => decision_reasons (markContainmentResult d 0 ResultKilled)) <$> demo_connect_record =
    Some [(false, ["direct_dns_not_allowed"; "synchronous_enforcement_not_connected"])] /\
  (fun d => map Hit_Reasons (Report_Hits (Audit_Report (markContainmentResult d 0 ResultKilled)))) <$> demo_connect_record =
    Some [["direct_dns_not_allowed"; "synchronous_enforcement_not_connected"; "post_event_containment_killed"]].
Proof. split_and!; vm_compute; reflexivity. Qed.
