(* ===== verification/Hub.v ===== *)
(** * Event stream hub ([internal/stream/hub.go])

    The hub numbers the events it publishes, keeps a bounded history of them
    and copies each to the bounded queue of every subscriber whose filter it
    matches.  A subscription is shared between the hub and the connection that
    reads it, so the subscriptions live in a store of their own and the hub
    has the identifiers of those it still serves.  Every method holds the
    hub's lock and is one step; the clock and the state of a context are
    arguments. *)
From S2P Require Import Prelude GoStd GoTime Json.
Open Scope Z_scope.

Definition defaultCapacity : Z := 10000.
Definition defaultMaxAge : Duration := 5 * Minute.
Definition defaultClientQueue : Z := 64.
Definition maxPayloadBytes : Z := 65536.

Record StreamEvent := mkStreamEvent {
  StreamEvent_ID : string;
  StreamEvent_Type : string;
  StreamEvent_Source : string;
  StreamEvent_RunID : string;
  StreamEvent_Severity : string;
  StreamEvent_EventType : string;
  StreamEvent_ServerMonotonicNS : Z;
  StreamEvent_ServerUnixNS : Z;
  StreamEvent_Audit : bool;
  StreamEvent_Payload : string;
}.
Record Message := mkMessage {
  Message_SchemaVersion : string;
  Message_Sequence : string;
  Message_ResumeCursor : string;
  Message_ID : string;
  Message_Type : string;
  Message_Source : string;
  Message_RunID : string;
  Message_Severity : string;
  Message_EventType : string;
  Message_ServerMonotonicNS : string;
  Message_ServerUnixNS : string;
  Message_Audit : bool;
  Message_Payload : string;
  Message_createdAt : Time;
}.
Record Filter := mkFilter {
  Filter_RunID : string;
  Filter_Severity : string;
  Filter_EventType : string;
  Filter_IncludeAudit : bool;
}.
Record HubOptions := mkHubOptions {
  HubOptions_Capacity : Z;
  HubOptions_MaxAge : Duration;
  HubOptions_ClientQueue : Z;
  HubOptions_SnapshotURL : string;
}.
(** The buffered channel of messages and whether [overflow] is closed. *)
Record subscription := mkSubscription {
  sub_filter : Filter;
  sub_messages : list Message;
  sub_overflow : bool;
}.
Record Hub := mkHub {
  hub_capacity : Z;
  hub_maxAge : Duration;
  hub_clientQueue : Z;
  hub_snapshotURL : string;
  hub_latest : Z;
  hub_history : list Message;
  hub_nextID : Z;
  hub_clients : gset Z;
  hub_subscriptions : gmap Z subscription;
  hub_closed : bool;
}.
Inductive HubError := ErrInvalidEvent | ErrHubClosed | ErrSequenceFull | InvalidHubOptions | InvalidSnapshotOptions | SnapshotCancelled.

Definition hub_or_default (v d : Z) : Z := if v =? 0 then d else v.
Definition NewHub (options : HubOptions) : result HubError Hub :=
  let capacity := hub_or_default (HubOptions_Capacity options) defaultCapacity in
  let maxAge := hub_or_default (HubOptions_MaxAge options) defaultMaxAge in
  let clientQueue := hub_or_default (HubOptions_ClientQueue options) defaultClientQueue in
  let snapshotURL := if HubOptions_SnapshotURL options == "" then "/api/v1/snapshot" else HubOptions_SnapshotURL options in
  if (capacity <? 1) || (defaultCapacity <? capacity) || (maxAge <? Second) || (defaultMaxAge <? maxAge) ||
     (clientQueue <? 1) || (1024 <? clientQueue) || negb (HasPrefix snapshotURL "/")
  then Err InvalidHubOptions
  else Ok (mkHub capacity maxAge clientQueue snapshotURL 0 [] 0 ∅ ∅ false).

Definition validateEvent (e : StreamEvent) : bool :=
  negb ((StreamEvent_ID e == "") || (128 <? slen (StreamEvent_ID e)) || (StreamEvent_Type e == "") || (64 <? slen (StreamEvent_Type e)) ||
    (32 <? slen (StreamEvent_Source e)) || (128 <? slen (StreamEvent_RunID e)) || (32 <? slen (StreamEvent_Severity e)) ||
    (64 <? slen (StreamEvent_EventType e)) || (slen (StreamEvent_Payload e) =? 0) || (maxPayloadBytes <? slen (StreamEvent_Payload e)) ||
    negb (Valid (StreamEvent_Payload e))).
Definition matches (f : Filter) (m : Message) : bool :=
  ((Filter_RunID f == "") || (Filter_RunID f == Message_RunID m)) &&
  ((Filter_Severity f == "") || (Filter_Severity f == Message_Severity m)) &&
  ((Filter_EventType f == "") || (Filter_EventType f == Message_EventType m)) &&
  (Filter_IncludeAudit f || negb (Message_Audit m)).

Definition with_history (hub : Hub) (latest : Z) (history : list Message) : Hub :=
  mkHub (hub_capacity hub) (hub_maxAge hub) (hub_clientQueue hub) (hub_snapshotURL hub) latest history (hub_nextID hub) (hub_clients hub)
    (hub_subscriptions hub) (hub_closed hub).
Definition with_clients (hub : Hub) (nextID : Z) (clients : gset Z) (subscriptions : gmap Z subscription) (closed : bool) : Hub :=
  mkHub (hub_capacity hub) (hub_maxAge hub) (hub_clientQueue hub) (hub_snapshotURL hub) (hub_latest hub) (hub_history hub) nextID clients subscriptions closed.

Fixpoint drop_before (cutoff : Time) (history : list Message) : list Message :=
  match history with
  | m :: history' => if Before (Message_createdAt m) cutoff then drop_before cutoff history' else history
  | [] => []
  end.
Definition pruneLocked (hub : Hub) (now : Time) : Hub :=
  with_history hub (hub_latest hub) (drop_before (now - hub_maxAge hub) (hub_history hub)).

(** One client of the fan-out: [select] on its queue. *)
Definition deliver (queue : Z) (m : Message) (sub : subscription) : subscription :=
  if negb (matches (sub_filter sub) m) then sub
  else if len (sub_messages sub) <? queue then mkSubscription (sub_filter sub) (sub_messages sub ++ [m]) (sub_overflow sub)
  else mkSubscription (sub_filter sub) (sub_messages sub) true.
Definition refuses (queue : Z) (m : Message) (sub : subscription) : bool :=
  matches (sub_filter sub) m && negb (len (sub_messages sub) <? queue).
Definition overflows (hub : Hub) (m : Message) (id : Z) : bool :=
  match hub_subscriptions hub !! id with Some sub => refuses (hub_clientQueue hub) m sub | None => false end.
(** Each client is handled on its own, so the order of the map is immaterial. *)
Definition fan_out (hub : Hub) (m : Message) : Hub :=
  with_clients hub (hub_nextID hub)
    (filter (fun id => overflows hub m id = false) (hub_clients hub))
    (map_imap (fun id sub => Some (if bool_decide (id ∈ hub_clients hub) then deliver (hub_clientQueue hub) m sub else sub)) (hub_subscriptions hub))
    (hub_closed hub).
Definition message_of (e : StreamEvent) (latest : Z) (now : Time) : Message :=
  let sequence := FormatUint latest in
  mkMessage "1" sequence sequence (StreamEvent_ID e) (StreamEvent_Type e) (StreamEvent_Source e) (StreamEvent_RunID e) (StreamEvent_Severity e)
    (StreamEvent_EventType e) (FormatUint (StreamEvent_ServerMonotonicNS e)) (FormatUint (StreamEvent_ServerUnixNS e)) (StreamEvent_Audit e)
    (StreamEvent_Payload e) now.
Definition Publish (hub : Hub) (e : StreamEvent) (now : Time) : Hub * result HubError Message :=
  if negb (validateEvent e) then (hub, Err ErrInvalidEvent)
  else if hub_closed hub then (hub, Err ErrHubClosed)
  else if hub_latest hub =? u64_max then (hub, Err ErrSequenceFull)
  else
    let hub := pruneLocked hub now in
    let latest := hub_latest hub + 1 in
    let message := message_of e latest now in
    let history := hub_history hub ++ [message] in
    let excess := len history - hub_capacity hub in
    let history := if 0 <? excess then drop (Z.to_nat excess) history else history in
    (fan_out (with_history hub latest history) message, Ok message).

(** The selection loop of a snapshot, over the history from its newest
    message: [bytes] and [n] are what is already selected. *)
Fixpoint select_newest (f : Filter) (limit maxBytes : Z) (newest : list Message) (bytes : Z) (n : Z) : list Message :=
  match newest with
  | [] => []
  | m :: newest' =>
      if negb (n <? limit) then []
      else if negb (matches f m) then select_newest f limit maxBytes newest' bytes n
      else if maxBytes <? bytes + slen (Message_Payload m) then []
      else m :: select_newest f limit maxBytes newest' (bytes + slen (Message_Payload m)) (n + 1)
  end.
(** [ctx]: nil, or the answers of its successive [Err] calls. *)
Definition Snapshot (hub : Hub) (ctx : option (nat -> bool)) (f : Filter) (limit maxBytes : Z) (now : Time) : Hub * result HubError (list Message) :=
  match ctx with
  | None => (hub, Err InvalidSnapshotOptions)
  | Some cancelled =>
      if (limit <? 1) || (defaultCapacity <? limit) || (maxBytes <? maxPayloadBytes) || (16777216 <? maxBytes) then (hub, Err InvalidSnapshotOptions)
      else if cancelled 0%nat then (hub, Err SnapshotCancelled)
      else
        let hub := pruneLocked hub now in
        let messages := reverse (select_newest f limit maxBytes (reverse (hub_history hub)) 0 0) in
        (hub, if existsb cancelled (seq 1 (length messages)) then Err SnapshotCancelled else Ok messages)
  end.

Definition sequence_of (m : Message) : Z := default 0 (ParseUint (Message_Sequence m)).
Definition oldest_cursor (hub : Hub) : Z :=
  match hub_history hub with m :: _ => sequence_of m | [] => wrap64 (hub_latest hub + 1) end.
Definition resync_payload (hub : Hub) (reason : string) (requested oldest : Z) : string :=
  Marshal (JObject [("reason", JString reason); ("requested_cursor", JString (FormatUint requested)); ("oldest_cursor", JString (FormatUint oldest));
    ("latest_cursor", JString (FormatUint (hub_latest hub))); ("snapshot_url", JString (hub_snapshotURL hub))]).
Definition resyncLocked (hub : Hub) (reason : string) (requested oldest : Z) (now : Time) : Message :=
  let latest := FormatUint (hub_latest hub) in
  mkMessage "1" latest latest ("resync-" +:+ FormatUint (hub_latest hub)) "resync_required" "" "" "" "" "0" "0" false
    (resync_payload hub reason requested oldest) now.
Definition resync (hub : Hub) (reason : string) (cursor : Z) (now : Time) : Hub * Message :=
  let hub := pruneLocked hub now in (hub, resyncLocked hub reason cursor (oldest_cursor hub) now).

Definition cursor_expired (hub : Hub) (cursor : Z) : bool :=
  if hub_latest hub <? cursor then true
  else match hub_history hub with
       | [] => cursor <? hub_latest hub
       | _ => cursor <? wrap64 (oldest_cursor hub - 1)
       end.
(** The messages to send first and the new client, or a resync message. *)
Definition subscribe (hub : Hub) (cursor : Z) (cursorSet : bool) (f : Filter) (now : Time) : Hub * (list Message * option Z * option Message) :=
  let hub := pruneLocked hub now in
  if hub_closed hub then (hub, ([], None, Some (resyncLocked hub "server_shutdown" cursor (wrap64 (hub_latest hub + 1)) now)))
  else if cursorSet && cursor_expired hub cursor then
    let reason := if hub_latest hub <? cursor then "cursor_ahead" else "cursor_expired" in
    (hub, ([], None, Some (resyncLocked hub reason cursor (oldest_cursor hub) now)))
  else
    let cursor := if cursorSet then cursor else hub_latest hub in
    let initial := List.filter (fun m => (cursor <? sequence_of m) && matches f m) (hub_history hub) in
    let id := wrap64 (hub_nextID hub + 1) in
    (with_clients hub id ({[ id ]} ∪ hub_clients hub) (<[id := mkSubscription f [] false]> (hub_subscriptions hub)) (hub_closed hub), (initial, Some id, None)).
Definition unsubscribe (hub : Hub) (client : option Z) : Hub :=
  match client with
  | None => hub
  | Some id => with_clients hub (hub_nextID hub) (hub_clients hub ∖ {[ id ]}) (hub_subscriptions hub) (hub_closed hub)
  end.
Definition Close (hub : Hub) : Hub :=
  if hub_closed hub then hub else with_clients hub (hub_nextID hub) ∅ (hub_subscriptions hub) true.
(** The connection takes the next message from its queue. *)
Definition receive (hub : Hub) (id : Z) : option (Hub * Message) :=
  match hub_subscriptions hub !! id with
  | Some (mkSubscription f (m :: rest) overflow) =>
      Some (with_clients hub (hub_nextID hub) (hub_clients hub) (<[id := mkSubscription f rest overflow]> (hub_subscriptions hub)) (hub_closed hub), m)
  | _ => None
  end.

(** ** The stream: a hub with what was published and read so far *)
Record Stream := mkStream {
  stream_hub : Hub;
  stream_log : list Message;
  stream_got : gmap Z (list Message);
  stream_from : gmap Z Z;
}.
Inductive stream_step (w : Stream) : Stream -> Prop :=
| step_publish e now hub r : Publish (stream_hub w) e now = (hub, r) ->
    stream_step w (mkStream hub (stream_log w ++ match r with Ok m => [m] | Err _ => [] end) (stream_got w) (stream_from w))
| step_snapshot ctx f limit maxBytes now hub r : Snapshot (stream_hub w) ctx f limit maxBytes now = (hub, r) ->
    stream_step w (mkStream hub (stream_log w) (stream_got w) (stream_from w))
| step_resync reason cursor now hub m : resync (stream_hub w) reason cursor now = (hub, m) ->
    stream_step w (mkStream hub (stream_log w) (stream_got w) (stream_from w))
(** Fewer than 2^64 connections are ever made. *)
| step_subscribe cursor cursorSet f now hub initial id : 0 <= cursor -> hub_nextID (stream_hub w) < u64_max ->
    subscribe (stream_hub w) cursor cursorSet f now = (hub, (initial, Some id, None)) ->
    stream_step w (mkStream hub (stream_log w) (<[id := initial]> (stream_got w)) (<[id := if cursorSet then cursor else hub_latest (stream_hub w)]> (stream_from w)))
| step_refused cursor cursorSet f now hub m : subscribe (stream_hub w) cursor cursorSet f now = (hub, ([], None, Some m)) ->
    stream_step w (mkStream hub (stream_log w) (stream_got w) (stream_from w))
| step_unsubscribe client : stream_step w (mkStream (unsubscribe (stream_hub w) client) (stream_log w) (stream_got w) (stream_from w))
| step_close : stream_step w (mkStream (Close (stream_hub w)) (stream_log w) (stream_got w) (stream_from w))
| step_receive id hub m got : receive (stream_hub w) id = Some (hub, m) -> stream_got w !! id = Some got ->
    stream_step w (mkStream hub (stream_log w) (<[id := got ++ [m]]> (stream_got w)) (stream_from w)).
Inductive stream_reachable : Stream -> Prop :=
| stream_start options hub : NewHub options = Ok hub -> stream_reachable (mkStream hub [] ∅ ∅)
| stream_next w w' : stream_reachable w -> stream_step w w' -> stream_reachable w'.

(** What a subscriber with filter [f] that starts after [cursor] is due. *)
Definition due (f : Filter) (cursor : Z) (log : list Message) : list Message := List.filter (matches f) (drop (Z.to_nat cursor) log).
Definition served (w : Stream) (id : Z) (sub : subscription) : Prop :=
  exists got cursor, stream_got w !! id = Some got /\ stream_from w !! id = Some cursor /\ 0 <= cursor <= len (stream_log w) /\
    (got ++ sub_messages sub) `prefix_of` due (sub_filter sub) cursor (stream_log w) /\
    (id ∈ hub_clients (stream_hub w) -> got ++ sub_messages sub = due (sub_filter sub) cursor (stream_log w) /\ sub_overflow sub = false) /\
    len (sub_messages sub) <= hub_clientQueue (stream_hub w).
Record stream_ok (w : Stream) : Prop := {
  so_latest : hub_latest (stream_hub w) = len (stream_log w) /\ len (stream_log w) <= u64_max;
  so_numbered i m : stream_log w !! i = Some m -> Message_Sequence m = FormatUint (Z.of_nat i + 1) /\ Message_ResumeCursor m = Message_Sequence m /\ slen (Message_Payload m) <= maxPayloadBytes;
  so_history : exists k, hub_history (stream_hub w) = drop k (stream_log w);
  so_bounded : len (hub_history (stream_hub w)) <= hub_capacity (stream_hub w) /\ 1 <= hub_capacity (stream_hub w) <= defaultCapacity /\ 1 <= hub_clientQueue (stream_hub w) <= 1024;
  so_ids id : id ∈ dom (hub_subscriptions (stream_hub w)) -> id <= hub_nextID (stream_hub w);
  so_nextID : 0 <= hub_nextID (stream_hub w) <= u64_max;
  so_clients id : id ∈ hub_clients (stream_hub w) -> is_Some (hub_subscriptions (stream_hub w) !! id);
  so_served id sub : hub_subscriptions (stream_hub w) !! id = Some sub -> served w id sub;
  so_closed : hub_closed (stream_hub w) = true -> hub_clients (stream_hub w) = ∅;
}.

(** ** Lemmas *)
Definition set_hub (w : Stream) (hub : Hub) : Stream := mkStream hub (stream_log w) (stream_got w) (stream_from w).
Lemma drop_before_drop cutoff history : exists k, drop_before cutoff history = drop k history.
Proof.
  induction history as [|m history [k IH]]; [by exists 0%nat|]. cbn [drop_before]. destruct (Before _ _); [by exists (S k)|by exists 0%nat].
Qed.
Lemma len_drop {A} k (l : list A) : len (drop k l) <= len l.
Proof. unfold len. rewrite length_drop. lia. Qed.
(** Forgetting the oldest messages changes nothing for the clients. *)
Lemma stream_ok_drop w k : stream_ok w -> stream_ok (set_hub w (with_history (stream_hub w) (hub_latest (stream_hub w)) (drop k (hub_history (stream_hub w))))).
Proof.
  intros [H1 H2 [j H3] H4 H5 H6 H7 H8 H9]. split; cbn; try done.
  - exists (j + k)%nat. by rewrite H3, drop_drop.
  - pose proof (len_drop k (hub_history (stream_hub w))). lia.
Qed.
Lemma stream_prune_ok w now : stream_ok w -> stream_ok (set_hub w (pruneLocked (stream_hub w) now)).
Proof.
  intros Hok. unfold pruneLocked. destruct (drop_before_drop (now - hub_maxAge (stream_hub w)) (hub_history (stream_hub w))) as [k ->]. by apply stream_ok_drop.
Qed.
Lemma due_app f cursor log m : 0 <= cursor <= len log -> due f cursor (log ++ [m]) = due f cursor log ++ (if matches f m then [m] else []).
Proof.
  intros Hc. unfold due, len in *. rewrite drop_app_le by lia. rewrite List.filter_app. cbn. by destruct (matches f m).
Qed.
Lemma refuses_deliver queue m sub : refuses queue m sub = false ->
  sub_messages (deliver queue m sub) = sub_messages sub ++ (if matches (sub_filter sub) m then [m] else []) /\ sub_overflow (deliver queue m sub) = sub_overflow sub.
Proof.
  unfold refuses, deliver. destruct (matches _ _); cbn; [|by rewrite app_nil_r]. destruct (_ <? _); done.
Qed.
Lemma deliver_filter queue m sub : sub_filter (deliver queue m sub) = sub_filter sub.
Proof. unfold deliver. by repeat case_match. Qed.
Lemma deliver_bounded queue m sub : len (sub_messages sub) <= queue -> len (sub_messages (deliver queue m sub)) <= queue.
Proof.
  unfold deliver. destruct (negb _); [done|]. destruct (Z.ltb_spec (len (sub_messages sub)) queue); [|done]. intros _. cbn. unfold len in *. rewrite length_app. cbn. lia.
Qed.
(** Publishing, after the pruning. *)
Lemma publish_ok w e now hub m : stream_ok w -> Publish (stream_hub w) e now = (hub, Ok m) ->
  stream_ok (mkStream hub (stream_log w ++ [m]) (stream_got w) (stream_from w)).
Proof.
  intros Hok. unfold Publish. destruct (negb (validateEvent e)) eqn:Ev; [done|]. assert (slen (StreamEvent_Payload e) <= maxPayloadBytes) as Hpay by (unfold validateEvent in Ev; lia).
  destruct (hub_closed (stream_hub w)) eqn:Ecl; [done|].
  destruct (Z.eqb_spec (hub_latest (stream_hub w)) u64_max) as [|Hmax]; [done|]. apply (stream_prune_ok _ now) in Hok.
  set (h := pruneLocked (stream_hub w) now) in *. assert (hub_closed h = false /\ hub_latest h = hub_latest (stream_hub w)) as [Hcl Hlat] by done.
  cbv zeta. set (msg := message_of e (hub_latest h + 1) now). set (hist := if 0 <? _ then _ else _). intros [= <- <-].
  destruct Hok as [[H1 H1'] H2 [k H3] (H4 & H4c & H4q) H5 H6 H7 H8 H9]. cbn [stream_hub set_hub stream_log stream_got stream_from] in *.
  assert (exists j, hist = drop j (stream_log w ++ [msg])) as [j Hj].
  { assert (hub_history h ++ [msg] = drop (k `min` length (stream_log w)) (stream_log w ++ [msg])) as Hh.
    { rewrite H3, drop_app_le by lia. f_equal. destruct (Nat.min_spec k (length (stream_log w))) as [[? ->]|[? ->]]; [done|]. by rewrite !drop_ge by lia. }
    unfold hist. clear hist. rewrite Hh. destruct (0 <? _); [rewrite drop_drop|]; eexists; reflexivity. }
  assert (len hist <= hub_capacity h) as Hlen.
  { unfold hist. destruct (Z.ltb_spec 0 (len (hub_history h ++ [msg]) - hub_capacity h)) as [Hx|Hx]; [|lia].
    unfold len in *. rewrite length_drop. lia. }
  clearbody hist h.
  split; cbn [stream_hub stream_log stream_got stream_from fan_out with_clients with_history hub_latest hub_history hub_capacity hub_clientQueue hub_nextID hub_subscriptions hub_clients hub_closed].
  - rewrite len_app. change (len [msg]) with 1. split; lia.
  - intros i m' [Hm|[Hi Hm]]%lookup_app_Some; [by apply H2|]. destruct (i - length (stream_log w))%nat as [|n] eqn:En; [|done]. injection Hm as <-.
    unfold msg, message_of. cbn [Message_Sequence Message_ResumeCursor Message_Payload]. rewrite H1. unfold len. split; [f_equal; lia|]. by split.
  - by exists j.
  - done.
  - intros id Hid%dom_imap_subseteq. by apply H5.
  - done.
  - intros id [_ Hid]%elem_of_filter. destruct (H7 id Hid) as [sub Hs]. rewrite map_lookup_imap, Hs. cbn. eauto.
  - intros id sub. rewrite map_lookup_imap. destruct (hub_subscriptions h !! id) as [sub0|] eqn:Es; [|done]. cbn. intros [= <-].
    destruct (H8 id sub0 Es) as (got & cursor & Hg & Hf & Hc & Hp & Hin & Hq). exists got, cursor. cbn [set_hub stream_got stream_from stream_log stream_hub] in *.
    split; [done|]. split; [done|]. split; [rewrite len_app; change (len [msg]) with 1; lia|]. split; [|split].
    + case_bool_decide as Hcl'.
      * destruct (Hin Hcl') as [Heq _]. rewrite deliver_filter, due_app by done. unfold deliver. destruct (matches (sub_filter sub0) msg) eqn:Em; cbn [negb].
        -- destruct (_ <? _); cbn [sub_messages]; [rewrite app_assoc, Heq; done|]. rewrite Heq. by apply prefix_app_r.
        -- by rewrite Heq, app_nil_r.
      * rewrite due_app by done. by apply prefix_app_r.
    + cbn. intros [Hov Hid]%elem_of_filter. rewrite bool_decide_eq_true_2 by done. unfold overflows in Hov. cbn [with_history hub_subscriptions hub_clientQueue] in Hov. rewrite Es in Hov.
      destruct (Hin Hid) as [Heq Ho]. destruct (refuses_deliver _ _ _ Hov) as [-> ->]. rewrite deliver_filter, due_app, app_assoc, Heq by done. done.
    + case_bool_decide; [|done]. by apply deliver_bounded.
  - by rewrite Hcl.
Qed.

(** The sequence number of a message is its place in the log. *)
Lemma log_sequence w i m : stream_ok w -> stream_log w !! i = Some m -> sequence_of m = Z.of_nat i + 1.
Proof.
  intros Hok Hm. destruct (so_numbered w Hok i m Hm) as (E & _ & _). destruct (so_latest w Hok) as [_ Hl]. apply lookup_lt_Some in Hm. unfold len in Hl.
  unfold sequence_of. rewrite E, ParseUint_FormatUint; [done|lia].
Qed.
Definition lost (w : Stream) : Z := len (stream_log w) - len (hub_history (stream_hub w)).
Lemma history_drop w : stream_ok w -> 0 <= lost w /\ hub_history (stream_hub w) = drop (Z.to_nat (lost w)) (stream_log w).
Proof.
  intros Hok. destruct (so_history w Hok) as [k Hk]. unfold lost. rewrite Hk. unfold len. rewrite length_drop. split; [lia|].
  destruct (Nat.le_gt_cases k (length (stream_log w))); [f_equal; lia|]. rewrite !drop_ge by lia. done.
Qed.
Lemma oldest_lost w : stream_ok w -> hub_history (stream_hub w) <> [] -> oldest_cursor (stream_hub w) = lost w + 1.
Proof.
  intros Hok. destruct (history_drop w Hok) as [Hl Hh]. unfold oldest_cursor. destruct (hub_history (stream_hub w)) as [|m rest] eqn:E; [done|]. intros _.
  assert (stream_log w !! Z.to_nat (lost w) = Some m) as Hm by (rewrite <-(Nat.add_0_r (Z.to_nat (lost w))), <-lookup_drop, <-Hh; done).
  rewrite (log_sequence w _ _ Hok Hm). lia.
Qed.
Lemma cursor_expired_spec w cursor : stream_ok w ->
  cursor_expired (stream_hub w) cursor = true <-> (len (stream_log w) < cursor \/ cursor < lost w).
Proof.
  intros Hok. destruct (so_latest w Hok) as [Hl Hmax]. unfold cursor_expired. rewrite Hl. pose proof (history_drop w Hok) as [Hlost _].
  destruct (Z.ltb_spec (len (stream_log w)) cursor); [split; [auto|done]|].
  destruct (hub_history (stream_hub w)) as [|m rest] eqn:E.
  - unfold lost. rewrite E. cbn. rewrite Z.ltb_lt. change (len []) with 0. lia.
  - rewrite (oldest_lost w Hok) by (by rewrite E). rewrite Z.add_simpl_r, wrap64_small, Z.ltb_lt; [lia|]. unfold lost in *. pose proof (len_nonneg (hub_history (stream_hub w))). lia.
Qed.
Lemma filter_none {A} (f : A -> bool) l : (forall x, x ∈ l -> f x = false) -> List.filter f l = [].
Proof. induction l as [|x l IH]; intros H; [done|]. cbn. rewrite (H x) by set_solver. apply IH. set_solver. Qed.
Lemma filter_same {A} (f g : A -> bool) l : (forall x, x ∈ l -> f x = g x) -> List.filter f l = List.filter g l.
Proof. induction l as [|x l IH]; intros H; [done|]. cbn. rewrite (H x) by set_solver. rewrite IH by set_solver. done. Qed.
Lemma initial_due w f cursor : stream_ok w -> lost w <= cursor ->
  List.filter (fun m => (cursor <? sequence_of m) && matches f m) (hub_history (stream_hub w)) = due f cursor (stream_log w).
Proof.
  intros Hok Hc. destruct (history_drop w Hok) as [Hl Hh]. rewrite Hh. unfold due.
  rewrite <-(take_drop (Z.to_nat cursor - Z.to_nat (lost w)) (drop (Z.to_nat (lost w)) (stream_log w))), List.filter_app, drop_drop.
  replace (Z.to_nat (lost w) + (Z.to_nat cursor - Z.to_nat (lost w)))%nat with (Z.to_nat cursor) by lia. rewrite filter_none; [cbn|].
  - apply filter_same. intros m [i Hi]%list_elem_of_lookup. rewrite lookup_drop in Hi. rewrite (log_sequence w _ _ Hok Hi).
    destruct (Z.ltb_spec cursor (Z.of_nat (Z.to_nat cursor + i) + 1)); [done|lia].
  - intros m [i Hi]%list_elem_of_lookup. apply lookup_take_Some in Hi as [Hi Hlt]. rewrite lookup_drop in Hi. rewrite (log_sequence w _ _ Hok Hi).
    destruct (Z.ltb_spec cursor (Z.of_nat (Z.to_nat (lost w) + i) + 1)); [lia|done].
Qed.
(** The two outcomes of [subscribe]. *)
Definition start_cursor (w : Stream) (cursor : Z) (cursorSet : bool) : Z := if cursorSet then cursor else len (stream_log w).
Lemma subscribe_cases w cursor cursorSet f now hub initial client rs : stream_ok w -> 0 <= cursor ->
  subscribe (stream_hub w) cursor cursorSet f now = (hub, (initial, client, rs)) ->
  let pruned := pruneLocked (stream_hub w) now in let w' := set_hub w pruned in
  (rs = None /\ hub_closed pruned = false /\ lost w' <= start_cursor w cursor cursorSet <= len (stream_log w) /\
    initial = due f (start_cursor w cursor cursorSet) (stream_log w) /\
    exists id, client = Some id /\ id = wrap64 (hub_nextID pruned + 1) /\
      hub = with_clients pruned id ({[ id ]} ∪ hub_clients pruned) (<[id := mkSubscription f [] false]> (hub_subscriptions pruned)) (hub_closed pruned)) \/
  (initial = [] /\ client = None /\ hub = pruned /\ (hub_closed pruned = true \/ cursorSet = true /\ (len (stream_log w) < cursor \/ cursor < lost w')) /\
    exists m, rs = Some m /\ Message_Type m = "resync_required" /\ Message_ResumeCursor m = FormatUint (len (stream_log w))).
Proof.
  intros Hok Hc. unfold subscribe. cbv zeta. apply (stream_prune_ok _ now) in Hok. set (h := pruneLocked (stream_hub w) now) in *. clearbody h.
  destruct (so_latest _ Hok) as [Hl _]. cbn [set_hub stream_hub stream_log] in Hl.
  assert (forall reason r o t, exists m, Some (resyncLocked h reason r o t) = Some m /\ Message_Type m = "resync_required" /\ Message_ResumeCursor m = FormatUint (len (stream_log w))) as Hrs.
  { intros. eexists. split; [done|]. cbn [resyncLocked Message_Type Message_ResumeCursor]. by rewrite Hl. }
  destruct (hub_closed h) eqn:Ecl; [intros [= <- <- <- <-]; right; split_and!; auto|].
  pose proof (cursor_expired_spec (set_hub w h) cursor Hok) as He. cbn [set_hub stream_hub stream_log] in He.
  destruct (cursorSet && cursor_expired h cursor) eqn:Ex.
  { apply andb_true_iff in Ex as [-> Ex]. intros [= <- <- <- <-]. right. split_and!; auto. right. split; [done|]. by apply He. }
  intros [= <- <- <- <-]. left. split; [done|]. split; [done|].
  assert (lost (set_hub w h) <= start_cursor w cursor cursorSet <= len (stream_log w)) as Hst.
  { unfold start_cursor. destruct cursorSet; cbn [andb] in Ex.
    - rewrite Ex in He. split; [|]; apply Z.nlt_ge; intros ?; assert (false = true) as [=] by (apply He; lia).
    - unfold lost. cbn [set_hub stream_hub stream_log]. pose proof (len_nonneg (hub_history h)). lia. }
  split; [done|]. split; [|eauto]. rewrite Hl. change (if cursorSet then cursor else len (stream_log w)) with (start_cursor w cursor cursorSet).
  apply (initial_due (set_hub w h)); [done|apply Hst].
Qed.
Lemma stream_step_ok w w' : stream_ok w -> stream_step w w' -> stream_ok w'.
Proof.
  intros Hok. destruct 1 as [e now hub r Hp|ctx f limit maxBytes now hub r Hs|reason cursor now hub m Hr|cursor cursorSet f now hub initial id Hc Hn Hs
    |cursor cursorSet f now hub m Hs|client| |id hub m got Hr Hg].
  - destruct r as [m|err]; [by apply (publish_ok w e now)|]. rewrite app_nil_r.
    assert (hub = stream_hub w) as -> by (revert Hp; unfold Publish; cbv zeta; repeat case_match; by intros [= <-]). by destruct w.
  - revert Hs. unfold Snapshot. destruct ctx as [cancelled|]; [|intros [= <- _]; by destruct w]. destruct (_ || _); [intros [= <- _]; by destruct w|].
    destruct (cancelled 0%nat); [intros [= <- _]; by destruct w|]. intros [= <- _]. by apply stream_prune_ok.
  - injection Hr as <- _. by apply stream_prune_ok.
  - pose proof (subscribe_cases w _ _ _ _ _ _ _ _ Hok Hc Hs) as [(_ & Hcl & Hst & Hi & id' & [= <-] & Hid & ->)|(_ & [=] & _)].
    apply (stream_prune_ok _ now) in Hok. assert (hub_nextID (pruneLocked (stream_hub w) now) = hub_nextID (stream_hub w)) as Hnx by done.
    assert (len (stream_log w) = hub_latest (stream_hub w)) as Hlat by (by destruct (so_latest _ Hok)). unfold start_cursor in *.
    set (h := pruneLocked (stream_hub w) now) in *. clearbody h. rewrite <-Hlat. subst initial.
    destruct Hok as [H1 H2 H3 H4 H5 H6 H7 H8 H9]. cbn [set_hub stream_hub stream_log stream_got stream_from] in *.
    rewrite wrap64_small in Hid by lia. assert (hub_subscriptions h !! id = None) as Hfresh.
    { apply not_elem_of_dom. intros Hin%H5. lia. }
    split; cbn [stream_hub stream_log stream_got stream_from with_clients hub_latest hub_history hub_capacity hub_clientQueue hub_nextID hub_subscriptions hub_clients hub_closed]; try done.
    + intros x. rewrite dom_insert, elem_of_union, elem_of_singleton. intros [->|Hx%H5]; lia.
    + lia.
    + intros x. rewrite elem_of_union, elem_of_singleton. intros [->|Hx]; [rewrite lookup_insert_eq; eauto|]. apply lookup_insert_is_Some. destruct (decide (id = x)); [by left|right; auto].
    + intros x sub. destruct (decide (x = id)) as [->|Hne].
      * rewrite lookup_insert_eq. intros [= <-]. unfold served. cbn [stream_hub stream_log stream_got stream_from sub_filter sub_messages sub_overflow]. eexists _, _. rewrite !lookup_insert_eq.
        split; [done|]. split; [done|]. rewrite app_nil_r. split; [pose proof (len_nonneg (stream_log w)); destruct cursorSet; lia|]. split; [done|]. split; [done|]. unfold len; cbn; lia.
      * rewrite lookup_insert_ne by done. intros Hx. destruct (H8 x sub Hx) as (got & c & Hg & Hf & Hr). exists got, c.
        cbn [set_hub stream_hub stream_log stream_got stream_from with_clients hub_clients hub_clientQueue] in *. rewrite !lookup_insert_ne by done. split; [done|]. split; [done|].
        destruct Hr as ([Hr1 Hr1'] & Hr2 & Hr3 & Hr4). split_and!; try done. rewrite elem_of_union, elem_of_singleton. intros [->|Hx']; [done|]. by apply Hr3.
    + by rewrite Hcl.
  - unfold subscribe in Hs. cbv zeta in Hs. repeat case_match; simplify_eq; by apply stream_prune_ok.
  - destruct client as [id|]; [|by destruct w]. destruct Hok as [H1 H2 H3 H4 H5 H6 H7 H8 H9].
    split; cbn [stream_hub stream_log stream_got stream_from unsubscribe with_clients hub_latest hub_history hub_capacity hub_clientQueue hub_nextID hub_subscriptions hub_clients hub_closed]; try done.
    + intros x [Hx _]%elem_of_difference. by apply H7.
    + intros x sub Hx. destruct (H8 x sub Hx) as (got & c & Hg & Hf & [Hr1 Hr1'] & Hr2 & Hr3 & Hr4). exists got, c. split_and!; try done.
      intros [Hx' _]%elem_of_difference. by apply Hr3.
    + intros ->%H9. set_solver.
  - unfold Close. destruct (hub_closed (stream_hub w)) eqn:E; [by destruct w|]. destruct Hok as [H1 H2 H3 H4 H5 H6 H7 H8 H9].
    split; cbn [stream_hub stream_log stream_got stream_from with_clients hub_latest hub_history hub_capacity hub_clientQueue hub_nextID hub_subscriptions hub_clients hub_closed]; try done.
    intros x sub Hx. destruct (H8 x sub Hx) as (got & c & Hg & Hf & [Hr1 Hr1'] & Hr2 & Hr3 & Hr4). exists got, c. split_and!; done.
  - unfold receive in Hr. destruct (hub_subscriptions (stream_hub w) !! id) as [[f [|m' rest] o]|] eqn:Es; try done. injection Hr as <- <-.
    destruct Hok as [H1 H2 H3 H4 H5 H6 H7 H8 H9]. destruct (H8 _ _ Es) as (got' & c & Hg' & Hf & [Hr1 Hr1'] & Hr2 & Hr3 & Hr4). rewrite Hg in Hg'. injection Hg' as <-.
    split; cbn [stream_hub stream_log stream_got stream_from with_clients hub_latest hub_history hub_capacity hub_clientQueue hub_nextID hub_subscriptions hub_clients hub_closed]; try done.
    + intros x. rewrite dom_insert, elem_of_union, elem_of_singleton. intros [->|Hx]; [apply H5; by apply elem_of_dom|by apply H5].
    + intros x Hx. apply lookup_insert_is_Some. destruct (decide (id = x)); [by left|right; auto].
    + intros x sub. destruct (decide (x = id)) as [->|Hne].
      * rewrite lookup_insert_eq. intros [= <-]. exists (got ++ [m']), c. cbn [stream_hub stream_log stream_got stream_from with_clients hub_clients hub_clientQueue sub_filter sub_messages sub_overflow] in *.
        rewrite lookup_insert_eq, <-app_assoc. cbn [app]. split_and!; try done. unfold len in *. cbn in Hr4. lia.
      * rewrite lookup_insert_ne by done. intros Hx. destruct (H8 x sub Hx) as (g & d & Hg1 & Hf1 & Hd). exists g, d.
        cbn [stream_hub stream_log stream_got stream_from with_clients hub_clients hub_clientQueue] in *. rewrite lookup_insert_ne by done. done.
Qed.
Lemma stream_invariant w : stream_reachable w -> stream_ok w.
Proof.
  induction 1 as [options hub Hn|w w' _ IH Hs]; [|by apply (stream_step_ok w)]. unfold NewHub in Hn. cbv zeta in Hn.
  destruct (_ || _) eqn:E; [done|]. injection Hn as <-. unfold defaultCapacity in *.
  split; cbn [stream_hub stream_log stream_got stream_from hub_latest hub_history hub_capacity hub_clientQueue hub_nextID hub_subscriptions hub_clients hub_closed].
  - unfold len, u64_max. cbn. lia.
  - intros i m Hm. by rewrite lookup_nil in Hm.
  - by exists 0%nat.
  - unfold defaultCapacity, len. cbn. lia.
  - intros id. by rewrite dom_empty.
  - unfold u64_max. lia.
  - intros id Hid. set_solver.
  - intros id sub Hs. by rewrite lookup_empty in Hs.
  - done.
Qed.

(** The bytes of a selection. *)
Definition payload_bytes (l : list Message) : Z := foldr (fun m n => slen (Message_Payload m) + n) 0 l.
Lemma select_newest_spec f limit maxBytes newest : forall bytes n, n <= limit -> bytes <= maxBytes ->
  exists rest, List.filter (matches f) newest = select_newest f limit maxBytes newest bytes n ++ rest /\
    n + len (select_newest f limit maxBytes newest bytes n) <= limit /\ bytes + payload_bytes (select_newest f limit maxBytes newest bytes n) <= maxBytes /\
    (rest = [] \/ n + len (select_newest f limit maxBytes newest bytes n) = limit \/
     exists m rest', rest = m :: rest' /\ maxBytes < bytes + payload_bytes (select_newest f limit maxBytes newest bytes n) + slen (Message_Payload m)).
Proof.
  induction newest as [|m newest IH]; intros bytes n Hn Hb; cbn [select_newest List.filter]; [exists []; unfold len; cbn; split_and!; auto; lia|].
  destruct (Z.ltb_spec n limit); cbn [negb].
  2:{ eexists. split; [reflexivity|]. unfold len. cbn. split_and!; [lia|lia|]. right. left. lia. }
  destruct (matches f m); cbn [negb]; [|by apply IH]. destruct (Z.ltb_spec maxBytes (bytes + slen (Message_Payload m))).
  { exists (m :: List.filter (matches f) newest). split; [done|]. unfold len. cbn. split_and!; [lia|lia|]. right. right. eexists _, _. split; [done|]. lia. }
  destruct (IH (bytes + slen (Message_Payload m)) (n + 1)) as (rest & -> & H1 & H2 & H3); [lia|lia|]. exists rest. split; [done|].
  unfold len in *. cbn [length payload_bytes foldr] in *. fold (payload_bytes (select_newest f limit maxBytes newest (bytes + slen (Message_Payload m)) (n + 1))) in *.
  split; [lia|]. split; [lia|]. destruct H3 as [->|[H3|(m' & rest' & -> & H3)]]; [by left|right; left; lia|]. right. right. eexists _, _. split; [done|]. lia.
Qed.
Lemma filter_reverse {A} (f : A -> bool) (l : list A) : List.filter f (reverse l) = reverse (List.filter f l).
Proof.
  induction l as [|x l IH]; [done|]. rewrite reverse_cons, List.filter_app, IH. cbn [List.filter]. destruct (f x); [by rewrite reverse_cons|by rewrite app_nil_r].
Qed.
Lemma payload_bytes_app l1 l2 : payload_bytes (l1 ++ l2) = payload_bytes l1 + payload_bytes l2.
Proof. induction l1 as [|m l1 IH]; cbn; [done|]. unfold payload_bytes in *. rewrite IH. lia. Qed.
Lemma payload_bytes_reverse l : payload_bytes (reverse l) = payload_bytes l.
Proof. induction l as [|m l IH]; [done|]. rewrite reverse_cons, payload_bytes_app, IH. unfold payload_bytes. cbn. lia. Qed.

(** Whatever is published, however the connections come, read and go, what
    a subscriber has read and still has queued is, in order and without gaps
    or repetitions, the published messages after its cursor that match its
    filter - all of them while the hub serves it, a prefix of them once its
    queue overflowed or it left - and its queue stays within the bound. *)
Theorem subscribers_gapless w id sub : stream_reachable w -> hub_subscriptions (stream_hub w) !! id = Some sub ->
  exists got cursor, stream_got w !! id = Some got /\ stream_from w !! id = Some cursor /\
    (got ++ sub_messages sub) `prefix_of` due (sub_filter sub) cursor (stream_log w) /\
    (id ∈ hub_clients (stream_hub w) -> got ++ sub_messages sub = due (sub_filter sub) cursor (stream_log w) /\ sub_overflow sub = false) /\
    len (sub_messages sub) <= hub_clientQueue (stream_hub w) <= 1024.
Proof.
  intros Hw%stream_invariant Hs. destruct (so_served w Hw id sub Hs) as (got & cursor & Hg & Hf & _ & Hp & Hin & Hq).
  destruct (so_bounded w Hw) as (_ & _ & Hb). exists got, cursor. split_and!; try done. lia.
Qed.

(** Resuming with a cursor succeeds exactly when the hub is open, the cursor
    is not ahead of it and every later message is still retained; the client
    then gets precisely the matching messages published since, and is served
    from there on.  Otherwise it is told to resynchronise and nothing is
    registered. *)
Theorem subscribe_resumes w cursor f now hub initial client rs : stream_reachable w -> 0 <= cursor ->
  subscribe (stream_hub w) cursor true f now = (hub, (initial, client, rs)) ->
  (rs = None <-> hub_closed (stream_hub w) = false /\ cursor <= len (stream_log w) /\ len (stream_log w) - cursor <= len (hub_history hub)) /\
  match rs with
  | None => initial = due f cursor (stream_log w) /\ exists id, client = Some id /\ id ∈ hub_clients hub /\ hub_subscriptions hub !! id = Some (mkSubscription f [] false)
  | Some m => initial = [] /\ client = None /\ hub_clients hub = hub_clients (stream_hub w) /\ Message_Type m = "resync_required" /\
      Message_ResumeCursor m = FormatUint (len (stream_log w))
  end.
Proof.
  intros Hw%stream_invariant Hc Hs. apply (subscribe_cases w _ _ _ _ _ _ _ _ Hw Hc) in Hs. cbv zeta in Hs. unfold lost in Hs. cbn [set_hub stream_hub stream_log start_cursor] in Hs.
  destruct Hs as [(-> & Hcl & Hst & -> & id & -> & Hid & ->)|(-> & -> & -> & Hwhy & m & -> & Hm)].
  - split; [|split; [done|]; exists id; cbn [with_clients hub_clients hub_subscriptions]; split; [done|]; split; [set_solver|by rewrite lookup_insert_eq]].
    split; [|done]. intros _. cbn [with_clients hub_history]. split; [exact Hcl|]. lia.
  - split; [|done]. split; [done|]. intros (Hcl & H1 & H2). destruct Hwhy as [Hx|[_ Hx]]; [cbn in Hx; congruence|lia].
Qed.

(** A snapshot is the newest of the retained messages that match, in order,
    within the two budgets, and as many of them as fit; as the byte budget is
    at least one payload, a matching message is never hidden by it. *)
Theorem Snapshot_newest w ctx f limit maxBytes now hub messages : stream_reachable w ->
  Snapshot (stream_hub w) ctx f limit maxBytes now = (hub, Ok messages) ->
  exists older, List.filter (matches f) (hub_history hub) = older ++ messages /\ len messages <= limit /\ payload_bytes messages <= maxBytes /\
    (older = [] \/ len messages = limit \/ exists older' m, older = older' ++ [m] /\ maxBytes < payload_bytes messages + slen (Message_Payload m)) /\
    (messages = [] -> older = []).
Proof.
  intros Hw%stream_invariant Hs. revert Hs. unfold Snapshot. destruct ctx as [cancelled|]; [|done]. destruct (_ || _) eqn:Eb; [done|]. destruct (cancelled 0%nat); [done|].
  cbv zeta. apply (stream_prune_ok _ now) in Hw. set (h := pruneLocked (stream_hub w) now) in *. clearbody h. destruct (existsb _ _); [done|]. intros [= <- <-].
  destruct (select_newest_spec f limit maxBytes (reverse (hub_history h)) 0 0) as (rest & E & H1 & H2 & H3); [lia|unfold maxPayloadBytes in *; lia|].
  set (sel := select_newest f limit maxBytes (reverse (hub_history h)) 0 0) in *. clearbody sel. rewrite filter_reverse in E.
  assert (List.filter (matches f) (hub_history h) = reverse rest ++ reverse sel) as E' by (rewrite <-reverse_app, <-E; by rewrite reverse_involutive).
  exists (reverse rest). rewrite payload_bytes_reverse. unfold len in *. rewrite length_reverse. split; [done|]. split; [lia|]. split; [lia|].
  split; [destruct H3 as [->|[H3|(m & rest' & -> & H3)]]; [by left|right; left; lia|]; right; right; exists (reverse rest'), m; rewrite reverse_cons; split; [done|lia]|].
  intros Hn. assert (sel = []) as -> by (by destruct sel as [|x l]; [|rewrite reverse_cons in Hn; destruct (reverse l)]). destruct H3 as [->|[H3|(m & rest' & -> & H3)]]; [done| |].
  - exfalso. unfold maxPayloadBytes in *. cbn in H3. lia.
  - exfalso. assert (m ∈ hub_history h) as Hm.
    { assert (In m (List.filter (matches f) (hub_history h))) as Hin by (rewrite E', reverse_cons; apply in_app_iff; left; apply in_app_iff; right; by left).
      apply filter_In in Hin as [Hin _]. by apply list_elem_of_In. }
    destruct (so_history _ Hw) as [k Hk]. cbn [set_hub stream_hub stream_log] in Hk. rewrite Hk in Hm. apply list_elem_of_lookup in Hm as [i Hi]. rewrite lookup_drop in Hi.
    destruct (so_numbered _ Hw _ _ Hi) as (_ & _ & Hp). cbn in H3. lia.
Qed.

(** ** A hub with a queue of one and two publications *)
Definition demo_all : Filter := mkFilter "" "" "" true.
Definition demo_hub : Hub := mkHub 2 defaultMaxAge 1 "/api/v1/snapshot" 0 [] 0 ∅ ∅ false.
Definition demo_stream_event (id : string) : StreamEvent := mkStreamEvent id "kernel_event" "kernel_fact" "run-1" "info" "exec_attempt" 5 7 false "{}".
Definition demo_subscribed : Hub := (subscribe demo_hub 0 false demo_all 100).1.
Definition demo_published1 : Hub := (Publish demo_subscribed (demo_stream_event "a") 200).1.
Definition demo_published2 : Hub := (Publish demo_published1 (demo_stream_event "b") 300).1.
Definition demo_message (id : string) (n : Z) (now : Time) : Message := message_of (demo_stream_event id) n now.
Definition demo_got : gmap Z (list Message) := <[1 := []]> ∅.
Definition demo_from : gmap Z Z := <[1 := 0]> ∅.
Definition demo_stream0 : Stream := mkStream demo_hub [] ∅ ∅.
Definition demo_stream1 : Stream := mkStream demo_subscribed [] demo_got demo_from.
Definition demo_stream2 : Stream := mkStream demo_published1 [demo_message "a" 1 200] demo_got demo_from.
Definition demo_stream : Stream := mkStream demo_published2 [demo_message "a" 1 200; demo_message "b" 2 300] demo_got demo_from.
Lemma demo_stream_reached : stream_reachable demo_stream.
Proof.
  apply (stream_next demo_stream2).
  2:{ refine (step_publish demo_stream2 (demo_stream_event "b") 300 demo_published2 (Ok (demo_message "b" 2 300)) _). vm_compute. reflexivity. }
  apply (stream_next demo_stream1).
  2:{ refine (step_publish demo_stream1 (demo_stream_event "a") 200 demo_published1 (Ok (demo_message "a" 1 200)) _). vm_compute. reflexivity. }
  apply (stream_next demo_stream0).
  - apply (stream_start (mkHubOptions 2 0 1 "")). vm_compute. reflexivity.
  - refine (step_subscribe demo_stream0 0 false demo_all 100 demo_subscribed [] 1 _ _ _); [lia|vm_compute; reflexivity|vm_compute; reflexivity].
Qed.
Lemma subscribers_gapless_witness :
  exists got cursor, stream_got demo_stream !! 1 = Some got /\ stream_from demo_stream !! 1 = Some cursor /\
    (got ++ [demo_message "a" 1 200]) `prefix_of` due demo_all cursor (stream_log demo_stream).
Proof.
  destruct (subscribers_gapless demo_stream 1 (mkSubscription demo_all [demo_message "a" 1 200] true) demo_stream_reached) as (got & cursor & H1 & H2 & H3 & _).
  - vm_compute. reflexivity.
  - exists got, cursor. split; [exact H1|]. split; [exact H2|exact H3].
Defined.
Definition demo_resumed : Hub * (list Message * option Z * option Message) := subscribe demo_published2 1 true demo_all 400.
Lemma subscribe_resumes_witness : demo_resumed.2.1.1 = due demo_all 1 (stream_log demo_stream) /\ due demo_all 1 (stream_log demo_stream) = [demo_message "b" 2 300].
Proof.
  split; [|vm_compute; reflexivity].
  destruct (subscribe_resumes demo_stream 1 demo_all 400 demo_resumed.1 demo_resumed.2.1.1 demo_resumed.2.1.2 None demo_stream_reached) as [_ [H _]].
  - lia.
  - vm_compute. reflexivity.
  - exact H.
Defined.
Definition demo_snapshot : Hub * result HubError (list Message) := Snapshot demo_published2 (Some (fun _ => false)) demo_all 1 65536 400.
Lemma Snapshot_newest_witness :
  exists older, List.filter (matches demo_all) (hub_history demo_snapshot.1) = older ++ [demo_message "b" 2 300] /\ (older = [] -> False).
Proof.
  destruct (Snapshot_newest demo_stream (Some (fun _ => false)) demo_all 1 65536 400 demo_snapshot.1 [demo_message "b" 2 300] demo_stream_reached) as (older & H & _).
  - vm_compute. reflexivity.
  - exists older. split; [exact H|]. intros ->. vm_compute in H. discriminate.
Defined.
