(* ===== verification/Redact.v ===== *)
(** * Redaction ([internal/store/record.go], [internal/stream/json_sink.go])

    Both packages blank credentials before a record enters a queue: a regular
    expression over text, a list of known secrets, and the values of sensitive
    names.  The two files have the same pattern, the same list of suffixes and
    the same text function, modelled once; their walks of a JSON value differ
    and are modelled apart.  A decoded JSON object is a map and its entries are
    rewritten one by one, independently of each other. *)
From S2P Require Import Prelude GoStd GoTime Json.
Open Scope Z_scope.

(** ** Regular expressions ([regexp]): leftmost-first search over runes *)
Inductive regex :=
  | RClass (p : Z -> bool)
  | RSeq (r s : regex)
  | RAlt (r s : regex)
  | ROpt (p : Z -> bool)
  | RStar (p : Z -> bool)
  | REmpty.
(** A rune with its bytes: an invalid byte is [RuneError] of width 1. *)
#[local] Notation glyph := (Z * string)%type.
Fixpoint str_take (n : nat) (s : string) : string :=
  match n, s with
  | S n', String c s' => String c (str_take n' s')
  | _, _ => EmptyString
  end.
Fixpoint glyphs_go (fuel : nat) (s : string) : list glyph :=
  match fuel, s with
  | S f, String _ _ => let (r, n) := DecodeRune s in (r, str_take n s) :: glyphs_go f (str_drop n s)
  | _, _ => []
  end.
Definition glyphs (s : string) : list glyph := glyphs_go (String.length s) s.
Definition spell (l : list glyph) : string := String.concat "" (map snd l).

(** Greedy and backtracking: the first way to match that lets the rest [k]
    succeed. *)
Fixpoint star {X} (p : Z -> bool) (k : list glyph -> option X) (l : list glyph) : option X :=
  match l with
  | g :: l' => if p g.1 then match star p k l' with Some x => Some x | None => k l end else k l
  | [] => k []
  end.
Fixpoint match_re {X} (r : regex) (k : list glyph -> option X) (l : list glyph) : option X :=
  match r with
  | REmpty => k l
  | RClass p => match l with g :: l' => if p g.1 then k l' else None | [] => None end
  | RSeq r s => match_re r (match_re s k) l
  | RAlt r s => match match_re r k l with Some x => Some x | None => match_re s k l end
  | ROpt p => match l with g :: l' => if p g.1 then match k l' with Some x => Some x | None => k l end else k l | [] => k [] end
  | RStar p => star p k l
  end.
(** The input after the match that starts here. *)
Definition match_here (r : regex) (l : list glyph) : option (list glyph) := match_re r Some l.
(** [ReplaceAllString] with a replacement without [$], for an expression that
    does not match the empty string. *)
Fixpoint replace_go (fuel : nat) (r : regex) (text : string) (l : list glyph) : string :=
  match fuel, l with
  | S f, g :: l' =>
      match match_here r l with
      | Some rest => text +:+ replace_go f r text rest
      | None => g.2 +:+ replace_go f r text l'
      end
  | _, _ => EmptyString
  end.
Definition ReplaceAllString (r : regex) (s text : string) : string := let l := glyphs s in replace_go (length l) r text l.

(** ** The credential pattern *)
(** [\s]. *)
Definition re_space (r : Z) : bool := (r =? 9) || (r =? 10) || (r =? 12) || (r =? 13) || (r =? 32).
(** A letter under [(?i)]: k and s also fold with U+212A and U+017F. *)
Definition re_letter (c : ascii) (r : Z) : bool :=
  (ascii_lower r =? byte_val c) || ((byte_val c =? 107) && (r =? 8490)) || ((byte_val c =? 115) && (r =? 383)).
Fixpoint re_word (s : string) : regex :=
  match s with
  | EmptyString => REmpty
  | String c s' => RSeq (RClass (re_letter c)) (re_word s')
  end.
Definition re_dash (r : Z) : bool := (r =? 95) || (r =? 45).
Definition re_joined (a b : string) : regex := RSeq (re_word a) (RSeq (ROpt re_dash) (re_word b)).
Definition credential_names : regex :=
  RAlt (re_word "token") (RAlt (re_joined "api" "key") (RAlt (re_joined "access" "token") (RAlt (re_joined "refresh" "token")
  (RAlt (re_joined "client" "secret") (RAlt (re_word "password") (RAlt (re_word "passwd") (RAlt (re_word "secret") (RAlt (re_word "authorization")
  (RAlt (re_word "cookie") (re_word "aws_secret_access_key")))))))))).
Definition re_value (r : Z) : bool := negb (re_space r || (r =? 44) || (r =? 59)).
Definition credentialPattern : regex :=
  RSeq (RAlt (RSeq (re_word "bearer") (RSeq (RClass re_space) (RStar re_space)))
             (RSeq credential_names (RSeq (RStar re_space) (RSeq (RClass (fun r => (r =? 61) || (r =? 58))) (RStar re_space)))))
    (RSeq (RClass re_value) (RSeq (RClass re_value) (RSeq (RClass re_value) (RSeq (RClass re_value) (RStar re_value))))).

(** ** Text *)
(** [strings.ReplaceAll(s, old, new)] for a non-empty [old]. *)
Fixpoint replace_all (fuel : nat) (s old new : string) : string :=
  match fuel, s with
  | S f, String c s' => if HasPrefix s old then new +:+ replace_all f (str_drop (String.length old) s) old new else String c (replace_all f s' old new)
  | _, _ => EmptyString
  end.
Definition ReplaceAll (s old new : string) : string := replace_all (String.length s) s old new.
Definition marker : string := "[REDACTED]".
(** The secrets worth hiding, longest first ([sort.Slice], [slices.SortFunc]:
    any such order). *)
Definition longer (a b : string) : bool := slen b <? slen a.
Definition sensitive_values (values : list string) : list string := sort_by longer (List.filter (fun v => 4 <=? slen v) values).
Definition redactText (secrets : list string) (value : string) : string :=
  foldl (fun value secret => ReplaceAll value secret marker) (ReplaceAllString credentialPattern value marker) secrets.

(** ** Names *)
Definition sensitive_suffixes : list string :=
  ["prompt"; "token"; "authorization"; "password"; "passwd"; "secret"; "apikey"; "accesskey"; "clientsecret"; "cookie"; "privatekey"; "credential"; "credentials"].
(** The replacer that deletes dashes, underscores and dots. *)
Fixpoint strip_separators (s : string) : string :=
  match s with
  | String c s' => if (c == "-"%char) || (c == "_"%char) || (c == "."%char) then strip_separators s' else String c (strip_separators s')
  | EmptyString => EmptyString
  end.
Section Names.
Context `{UnicodeTables}.
Definition sensitiveLabelKey (key : string) : bool := existsb (HasSuffix (strip_separators (ToLower key))) sensitive_suffixes.
Definition normalizedKey (key : string) : string := strip_separators (ToLower (drop_leading "-"%char key)).
Definition sensitiveKey (key : string) : bool := existsb (HasSuffix (normalizedKey key)) sensitive_suffixes.

(** ** JSON in the store *)
Inductive RedactError := NestingExceeded | PayloadExceeds | InvalidJSON | TrailingContent.
Definition is_string (v : json) : option string := match v with JString s => Some s | _ => None end.
(** [scrubJSON] rewrites maps and arrays in place and leaves any other value,
    a string that is not in one of them included, as it is. *)
Fixpoint scrubJSON (secrets : list string) (v : json) (depth : Z) : result RedactError json :=
  let element (child : json) := match child with JString text => Ok (JString (redactText secrets text)) | _ => scrubJSON secrets child (depth + 1) end in
  if 32 <? depth then Err NestingExceeded
  else match v with
  | JObject fields =>
      fields' ← mapM (fun '(key, child) =>
        child' ← (if sensitiveLabelKey key || EqualFold key "argv" then Ok (JString marker) else element child); Ok (key, child')) fields;
      Ok (JObject fields')
  | JArray l => l' ← mapM element l; Ok (JArray l')
  | _ => Ok v
  end.

(** ** JSON on the stream *)
(** Arguments after an option whose name is sensitive and has no [=]. *)
Fixpoint redact_arguments (secrets : list string) (redactNext : bool) (arguments : list json) : list json :=
  match arguments with
  | [] => []
  | JString text :: rest =>
      if redactNext then JString marker :: redact_arguments secrets false rest
      else JString (redactText secrets text) :: redact_arguments secrets (sensitiveKey text && negb (Contains text "=")) rest
  | argument :: rest => argument :: redact_arguments secrets false rest
  end.
Definition redactArguments (secrets : list string) (arguments : list json) : list json := redact_arguments secrets false arguments.
Fixpoint field (name : string) (fields : list (string * json)) : option json :=
  match fields with
  | [] => None
  | (k, v) :: fields' => if k == name then Some v else field name fields'
  end.
Definition is_true_field (name : string) (fields : list (string * json)) : bool :=
  match field name fields with Some (JBool b) => b | _ => false end.
Fixpoint redactValue (secrets : list string) (v : json) (depth : Z) : result RedactError json :=
  if 32 <? depth then Err NestingExceeded
  else match v with
  | JObject fields =>
      let argumentsTruncated := is_true_field "arguments_truncated" fields in
      fields' ← mapM (fun '(key, child) =>
        child' ← (if sensitiveKey key then Ok (JString marker)
                  else if (normalizedKey key == "argv") && argumentsTruncated then Ok (JArray [JString marker])
                  else match normalizedKey key == "argv", child with
                       | true, JArray arguments => Ok (JArray (redactArguments secrets arguments))
                       | _, _ => redactValue secrets child (depth + 1)
                       end);
        Ok (key, child')) fields;
      Ok (JObject fields')
  | JArray l => l' ← mapM (fun child => redactValue secrets child (depth + 1)) l; Ok (JArray l')
  | JString text => Ok (JString (redactText secrets text))
  | _ => Ok v
  end.
Definition redactJSON (limit : Z) (input : string) (secrets : list string) : result RedactError string :=
  match decode_next input with
  | None => Err InvalidJSON
  | Some (v, rest) =>
      if skip_space rest != "" then Err TrailingContent
      else redacted ← redactValue secrets v 0;
           let encoded := Marshal redacted in if limit <? slen encoded then Err PayloadExceeds else Ok encoded
  end.
End Names.

(** ** Occurrences *)
Lemma Contains_iff s x : Contains s x = true <-> exists a b, s = a +:+ x +:+ b.
Proof.
  split.
  - induction s as [|c s IH]; cbn [Contains]; intros [H|H]%orb_true_iff; try done.
    + apply HasPrefix_app in H as [r ->]. by exists "", r.
    + apply HasPrefix_app in H as [r E]. exists "", r. exact E.
    + destruct (IH H) as (a & b & ->). by exists (String c a), b.
  - intros (a & b & ->). induction a as [|c a IH].
    + rewrite str_app_nil_l. assert (HasPrefix (x +:+ b) x = true) as H by (apply HasPrefix_app; eauto). unfold HasPrefix in H. destruct (x +:+ b); cbn [Contains]; by rewrite H.
    + rewrite str_app_cons. cbn [Contains]. by rewrite IH, orb_true_r.
Qed.
Lemma Contains_mono s t u x : Contains t x = true -> Contains (s +:+ t +:+ u) x = true.
Proof. rewrite !Contains_iff. intros (a & b & ->). exists (s +:+ a), (b +:+ u). by rewrite !str_app_assoc. Qed.
Lemma Contains_mono_l t u x : Contains t x = true -> Contains (t +:+ u) x = true.
Proof. intros H. apply (Contains_mono "" t u) in H. by rewrite str_app_nil_l in H. Qed.
Definition free_of (c : ascii) (x : string) : Prop := str_exists (fun d => d == c) x = false.
Lemma prefix_sep a b c x : free_of c x -> HasPrefix (a +:+ String c b) x = true -> HasPrefix a x = true.
Proof.
  unfold free_of. revert a. induction x as [|d x IH]; intros a; [by destruct a|]. cbn [str_exists]. intros [Hd Hx]%orb_false_iff. apply bool_decide_eq_false in Hd.
  unfold HasPrefix. destruct a as [|e a].
  - rewrite str_app_nil_l. cbn [String.prefix]. by destruct (ascii_dec d c).
  - rewrite str_app_cons. cbn [String.prefix]. destruct (ascii_dec d e); [|done]. by apply IH.
Qed.
(** An occurrence does not straddle a byte it does not have. *)
Lemma Contains_sep a b c x : x <> "" -> free_of c x -> Contains (a +:+ String c b) x = true -> Contains a x = true \/ Contains b x = true.
Proof.
  intros Hx Hc. induction a as [|d a IH].
  - rewrite str_app_nil_l. cbn [Contains]. intros [H|H]%orb_true_iff; [|by right]. apply (prefix_sep "") in H; [|done]. by destruct x.
  - rewrite str_app_cons. cbn [Contains]. intros [H|H]%orb_true_iff.
    + left. rewrite <-str_app_cons in H. apply (prefix_sep (String d a)) in H; [|done]. unfold HasPrefix in H. by rewrite H.
    + destruct (IH H) as [->|?]; [|by right]. left. by rewrite orb_true_r.
Qed.
(** A secret the marker cannot spell, whole or in part. *)
Definition hideable (x : string) : bool :=
  (x != "") && negb (str_exists (fun d => d == "["%char) x) && negb (str_exists (fun d => d == "]"%char) x) && negb (Contains "REDACTED" x).
Lemma hideable_spec x : hideable x = true -> x <> "" /\ free_of "["%char x /\ free_of "]"%char x /\ Contains "REDACTED" x = false.
Proof.
  unfold hideable, free_of. intros (((H1 & H2)%andb_true_iff & H3)%andb_true_iff & H4)%andb_true_iff.
  split_and!; try (by apply negb_true_iff). by apply negb_true_iff, bool_decide_eq_false in H1.
Qed.
Lemma Contains_marker a b x : hideable x = true -> Contains (a +:+ marker +:+ b) x = true -> Contains a x = true \/ Contains b x = true.
Proof.
  intros (Hn & Ho & Hc & Hw)%hideable_spec. unfold marker. intros H.
  assert (a +:+ "[REDACTED]" +:+ b = a +:+ String "[" ("REDACTED" +:+ String "]" b)) as E by done. rewrite E in H.
  apply Contains_sep in H as [?|H]; [by left| |done|done]. apply Contains_sep in H as [H|?]; [|by right|done|done]. congruence.
Qed.

(** ** Replacing every occurrence *)
Lemma replace_all_keeps fuel : forall s seg old x, hideable x = true -> old <> "" -> (String.length s <= fuel)%nat ->
  Contains (seg +:+ replace_all fuel s old marker) x = true -> Contains (seg +:+ s) x = true.
Proof.
  induction fuel as [|fuel IH]; intros [|c s] seg old x Hx Ho Hf; cbn in Hf; try lia; try done. cbn [replace_all].
  destruct (HasPrefix (String c s) old) eqn:Ep.
  - intros [H|H]%Contains_marker; [by apply Contains_mono_l| |done]. apply HasPrefix_app in Ep as [r E]. rewrite E in *. rewrite str_drop_app in H.
    apply (IH r "") in H; [|done|done|]. 
    + rewrite str_app_nil_l in H. rewrite str_app_assoc, <-(str_app_nil_r r). by apply Contains_mono.
    + apply (f_equal String.length) in E. rewrite str_length_app in E. destruct old; [done|]. cbn in E. lia.
  - intros H. change (String c (replace_all fuel s old marker)) with (String c "" +:+ replace_all fuel s old marker) in H. rewrite str_app_assoc in H.
    apply IH in H; [|done|done|lia]. by rewrite <-str_app_assoc in H.
Qed.
(** No occurrence starts in what is already written. *)
Definition none_started (seg s old : string) : Prop := forall a b, seg = a +:+ b -> b <> "" -> HasPrefix (b +:+ s) old = false.
Lemma none_started_Contains seg s old : old <> "" -> none_started seg s old -> Contains seg old = false.
Proof.
  intros Ho Hn. apply not_true_iff_false. intros (a & b & ->)%Contains_iff. assert (HasPrefix ((old +:+ b) +:+ s) old = false) as H.
  { apply (Hn a); [done|]. by destruct old. }
  assert (HasPrefix ((old +:+ b) +:+ s) old = true); [|congruence]. apply HasPrefix_app. exists (b +:+ s). by rewrite str_app_assoc.
Qed.
Lemma app_single_inv seg c a b : seg +:+ String c "" = a +:+ b -> b <> "" -> b = String c "" \/ exists b', b = b' +:+ String c "" /\ seg = a +:+ b' /\ b' <> "".
Proof.
  revert a. induction seg as [|d seg IH]; intros a E Hb.
  - destruct a as [|e a]; [rewrite str_app_nil_l in E; by left|]. rewrite str_app_nil_l, str_app_cons in E. injection E as <- E. by destruct a, b.
  - destruct a as [|e a].
    + right. rewrite str_app_nil_l in E. exists (String d seg). split; [by rewrite <-E|]. done.
    + rewrite !str_app_cons in E. injection E as <- E. destruct (IH a E Hb) as [->|(b' & -> & -> & Hb')]; [by left|]. right. by exists b'.
Qed.
Lemma replace_all_removes fuel : forall s seg old, hideable old = true -> (String.length s <= fuel)%nat -> none_started seg s old ->
  Contains (seg +:+ replace_all fuel s old marker) old = false.
Proof.
  induction fuel as [|fuel IH]; intros [|c s] seg old Ho Hf Hn; cbn in Hf; try lia; pose proof (proj1 (hideable_spec _ Ho)) as Hne.
  1,2: cbn [replace_all]; rewrite str_app_nil_r; by apply (none_started_Contains seg "").
  cbn [replace_all]. destruct (HasPrefix (String c s) old) eqn:Ep.
  - apply not_true_iff_false. intros [H|H]%Contains_marker; [|..|done].
    + rewrite (none_started_Contains seg (String c s)) in H; done.
    + apply HasPrefix_app in Ep as [r E]. rewrite E in *. rewrite str_drop_app in H. rewrite <-(str_app_nil_l (replace_all fuel r old marker)), IH in H; [done|done|..].
      * apply (f_equal String.length) in E. rewrite str_length_app in E. destruct old; [done|]. cbn in E. lia.
      * intros a b Eab Hb. destruct a, b; done.
  - change (String c (replace_all fuel s old marker)) with (String c "" +:+ replace_all fuel s old marker). rewrite str_app_assoc. apply IH; [done|lia|].
    intros a b E Hb. destruct (app_single_inv _ _ _ _ E Hb) as [->|(b' & -> & Eseg & Hb')]; [done|].
    rewrite <-str_app_assoc. exact (Hn a b' Eseg Hb').
Qed.
Lemma ReplaceAll_removes s old : hideable old = true -> Contains (ReplaceAll s old marker) old = false.
Proof.
  intros Ho. unfold ReplaceAll. rewrite <-(str_app_nil_l (replace_all _ _ _ _)). apply replace_all_removes; [done|lia|]. intros a b E Hb. by destruct a, b.
Qed.
Lemma ReplaceAll_keeps s old x : hideable x = true -> old <> "" -> Contains s x = false -> Contains (ReplaceAll s old marker) x = false.
Proof.
  intros Hx Ho Hs. apply not_true_iff_false. intros H. unfold ReplaceAll in H. rewrite <-(str_app_nil_l (replace_all _ _ _ _)) in H.
  apply replace_all_keeps in H; [|done|done|lia]. rewrite str_app_nil_l in H. congruence.
Qed.
(** No text that went through [redactText] contains a secret. *)
Definition secret_free (secrets : list string) (text : string) : Prop := forall x, x ∈ secrets -> hideable x = true -> Contains text x = false.
Definition nonempty (x : string) : Prop := x <> "".
Lemma foldl_keeps secrets : Forall nonempty secrets -> forall value x, hideable x = true -> Contains value x = false ->
  Contains (foldl (fun value secret => ReplaceAll value secret marker) value secrets) x = false.
Proof.
  induction 1 as [|y secrets Hy Hs IH]; intros value x Hx Hv; [done|]. cbn [foldl]. apply IH; [done|]. by apply ReplaceAll_keeps.
Qed.
Lemma redactText_secret_free secrets value : Forall nonempty secrets -> secret_free secrets (redactText secrets value).
Proof.
  intros Hs x Hx Hh. unfold redactText. generalize (ReplaceAllString credentialPattern value marker) as t. intros t. revert t.
  induction Hs as [|y secrets Hy Hs IH]; intros t; [by apply elem_of_nil in Hx|]. apply elem_of_cons in Hx as [->|Hx]; cbn [foldl]; [|by apply IH].
  apply foldl_keeps; [done|done|]. by apply ReplaceAll_removes.
Qed.

(** ** Matching consumes input *)
Fixpoint min_len (r : regex) : nat :=
  match r with
  | RClass _ => 1
  | RSeq r s => min_len r + min_len s
  | RAlt r s => min_len r `min` min_len s
  | ROpt _ | RStar _ | REmpty => 0
  end.
Definition consumed {X} (n : nat) (k : list glyph -> option X) (l : list glyph) (x : X) : Prop :=
  exists pre rest, l = pre ++ rest /\ (n <= length pre)%nat /\ k rest = Some x.
Lemma star_consumed {X} p (k : list glyph -> option X) l x : star p k l = Some x -> consumed 0 k l x.
Proof.
  induction l as [|g l IH]; cbn [star]; [intros H; by exists [], []|]. destruct (p g.1); [|intros H; by exists [], (g :: l)].
  destruct (star p k l) eqn:E; [|intros H; by exists [], (g :: l)]. intros [= ->]. destruct (IH eq_refl) as (pre & rest & -> & _ & Hk).
  exists (g :: pre), rest. split; [done|]. split; [cbn; lia|done].
Qed.
Lemma match_re_consumed r : forall X (k : list glyph -> option X) l x, match_re r k l = Some x -> consumed (min_len r) k l x.
Proof.
  induction r as [p|r IHr s IHs|r IHr s IHs|p|p|]; intros X k l x; cbn [match_re min_len].
  - destruct l as [|g l]; [done|]. destruct (p g.1); [|done]. intros H. by exists [g], l.
  - intros (pre & rest & -> & H1 & (pre' & rest' & -> & H2 & H3)%IHs)%IHr. exists (pre ++ pre'), rest'. rewrite <-app_assoc, length_app. split_and!; [done|lia|done].
  - destruct (match_re r k l) eqn:E.
    + intros [= ->]. apply IHr in E as (pre & rest & -> & H1 & H2). exists pre, rest. split_and!; [done|lia|done].
    + intros (pre & rest & -> & H1 & H2)%IHs. exists pre, rest. split_and!; [done|lia|done].
  - destruct l as [|g l]; [intros H; by exists [], []|]. destruct (p g.1); [|intros H; by exists [], (g :: l)].
    destruct (k l) eqn:E; [intros [= ->]; exists [g], l; split_and!; [done|cbn; lia|done]|intros H; by exists [], (g :: l)].
  - apply star_consumed.
  - intros H. by exists [], l.
Qed.
Lemma match_here_suffix r l rest : match_here r l = Some rest -> exists pre, l = pre ++ rest /\ (min_len r <= length pre)%nat.
Proof. intros (pre & rest' & -> & H & [= ->])%match_re_consumed. eauto. Qed.
Lemma credential_min : min_len credentialPattern = 10%nat.
Proof. reflexivity. Qed.

Lemma str_take_drop n s : str_take n s +:+ str_drop n s = s.
Proof. revert s. induction n as [|n IH]; intros [|c s]; [done..|]. cbn [str_take str_drop]. rewrite str_app_cons. by rewrite IH. Qed.
Lemma glyphs_go_spell fuel : forall s, (String.length s <= fuel)%nat -> spell (glyphs_go fuel s) = s /\ Forall (fun g => g.2 <> "") (glyphs_go fuel s).
Proof.
  induction fuel as [|fuel IH]; intros [|c s] Hf; cbn in Hf; try lia; try (split; [done|constructor]). cbn [glyphs_go].
  pose proof (DecodeRune_inv (String c s) ltac:(done)) as Hd. destruct (DecodeRune (String c s)) as [r n]. destruct Hd as (_ & Hn & _).
  destruct (IH (str_drop n (String c s))) as [H1 H2]; [rewrite str_length_drop; cbn; lia|]. split.
  - unfold spell in *. cbn [map]. rewrite concat_cons, H1. apply str_take_drop.
  - constructor; [|done]. destruct n; [lia|done].
Qed.
Lemma glyphs_spell s : spell (glyphs s) = s /\ Forall (fun g => g.2 <> "") (glyphs s).
Proof. by apply glyphs_go_spell. Qed.
Lemma spell_app l1 l2 : spell (l1 ++ l2) = spell l1 +:+ spell l2.
Proof. unfold spell. induction l1 as [|g l1 IH]; [done|]. cbn [map app]. by rewrite !concat_cons, IH, str_app_assoc. Qed.
Lemma spell_cons g l : spell (g :: l) = g.2 +:+ spell l.
Proof. unfold spell. cbn [map]. apply concat_cons. Qed.
Lemma spell_length l : Forall (fun g => g.2 <> "") l -> (length l <= String.length (spell l))%nat.
Proof.
  induction 1 as [|g l Hg Hl IH]; [done|]. rewrite spell_cons, str_length_app. destruct (g.2); [done|]. cbn. lia.
Qed.
(** Matches of ten runes or more are replaced by ten bytes. *)
Lemma replace_go_length r text fuel : (String.length text <= min_len r)%nat -> forall l, Forall (fun g => g.2 <> "") l ->
  (String.length (replace_go fuel r text l) <= String.length (spell l))%nat.
Proof.
  intros Hr. induction fuel as [|fuel IH]; intros [|g l] Hl; [cbn; lia..|]. cbn [replace_go].
  destruct (match_here r (g :: l)) as [rest|] eqn:E.
  - apply match_here_suffix in E as (pre & E & Hp). rewrite E in *. apply Forall_app in Hl as [H1 H2]. rewrite str_length_app, spell_app, str_length_app.
    pose proof (spell_length pre H1). specialize (IH rest H2). lia.
  - apply Forall_cons in Hl as [_ Hl]. rewrite spell_cons, !str_length_app. specialize (IH l Hl). lia.
Qed.
(** With the fuel of [ReplaceAllString] the whole input is read. *)
Lemma replace_go_fuel r text : (0 < min_len r)%nat -> forall fuel l, (length l <= fuel)%nat -> replace_go fuel r text l = replace_go (length l) r text l.
Proof.
  intros Hr. assert (forall n l fuel, (length l <= n)%nat -> (length l <= fuel)%nat -> replace_go fuel r text l = replace_go (length l) r text l) as H; [|intros; by apply (H (length l))].
  induction n as [|n IH]; intros [|g l] [|fuel] Hn Hf; cbn in Hn, Hf; try lia; try done. cbn [replace_go length].
  destruct (match_here r (g :: l)) as [rest|] eqn:E.
  - apply match_here_suffix in E as (pre & E & Hp). assert (length rest <= length l)%nat as Hl by (apply (f_equal length) in E; rewrite length_app in E; cbn in E; lia).
    f_equal. rewrite (IH rest fuel), (IH rest (length l)) by lia. done.
  - f_equal. rewrite (IH l fuel) by lia. done.
Qed.
Lemma replace_all_length old new fuel : (String.length new <= String.length old)%nat -> forall s, (String.length (replace_all fuel s old new) <= String.length s)%nat.
Proof.
  intros Ho. induction fuel as [|fuel IH]; intros [|c s]; [cbn; lia..|]. cbn [replace_all]. destruct (HasPrefix (String c s) old) eqn:E.
  - apply HasPrefix_app in E as [t ->]. rewrite str_drop_app, !str_length_app. specialize (IH t). lia.
  - cbn. specialize (IH s). lia.
Qed.
Lemma redactText_length secrets value : Forall (fun x => (10 <= String.length x)%nat) secrets -> (String.length (redactText secrets value) <= String.length value)%nat.
Proof.
  intros Hs. unfold redactText. assert (String.length (ReplaceAllString credentialPattern value marker) <= String.length value)%nat as H0.
  { unfold ReplaceAllString. destruct (glyphs_spell value) as [Hg Hn]. etrans; [apply replace_go_length; [by rewrite credential_min|exact Hn]|by rewrite Hg]. }
  revert H0. generalize (ReplaceAllString credentialPattern value marker) as t. induction Hs as [|x secrets Hx Hs IH]; intros t Ht; [done|]. cbn [foldl].
  apply IH. etrans; [|exact Ht]. apply replace_all_length. exact Hx.
Qed.
(** Redaction writes no byte that is neither in the text nor in the marker. *)
Lemma replace_go_bytes f r text fuel : str_forall f text = true -> forall l, str_forall f (spell l) = true -> str_forall f (replace_go fuel r text l) = true.
Proof.
  intros Ht. induction fuel as [|fuel IH]; intros [|g l] Hl; try done. cbn [replace_go]. destruct (match_here r (g :: l)) as [rest|] eqn:E.
  - apply match_here_suffix in E as (pre & E & _). rewrite E, spell_app, str_forall_app in Hl. apply andb_true_iff in Hl as [_ Hl]. by rewrite str_forall_app, Ht, IH.
  - rewrite spell_cons, str_forall_app in Hl. apply andb_true_iff in Hl as [Hg Hl]. by rewrite str_forall_app, Hg, IH.
Qed.
Lemma replace_all_bytes f old new fuel : str_forall f new = true -> forall s, str_forall f s = true -> str_forall f (replace_all fuel s old new) = true.
Proof.
  intros Hn. induction fuel as [|fuel IH]; intros [|c s] Hs; try done. cbn [replace_all]. destruct (HasPrefix (String c s) old) eqn:E.
  - apply HasPrefix_app in E as [t E]. rewrite E in *. rewrite str_drop_app. rewrite str_forall_app in Hs. apply andb_true_iff in Hs as [_ Hs]. by rewrite str_forall_app, Hn, IH.
  - cbn [str_forall] in *. apply andb_true_iff in Hs as [-> Hs]. by rewrite IH.
Qed.
Lemma redactText_bytes f secrets value : str_forall f marker = true -> str_forall f value = true -> str_forall f (redactText secrets value) = true.
Proof.
  intros Hm Hv. unfold redactText. assert (str_forall f (ReplaceAllString credentialPattern value marker) = true) as H0.
  { apply replace_go_bytes; [done|]. by rewrite (proj1 (glyphs_spell value)). }
  revert H0. generalize (ReplaceAllString credentialPattern value marker) as t. induction secrets as [|x secrets IH]; intros t Ht; [done|]. cbn [foldl]. apply IH. by apply replace_all_bytes.
Qed.

(** ** What the walks leave *)
Lemma mapM_Ok {E A B} (f : A -> result E B) l l' : mapM f l = Ok l' -> Forall2 (fun x y => f x = Ok y) l l'.
Proof.
  revert l'. induction l as [|x l IH]; intros l'; cbn [mapM mbind result_bind mret result_ret]; [intros [= <-]; constructor|].
  destruct (f x) eqn:Ef; [|done]. destruct (mapM f l); [|done]. intros [= <-]. constructor; auto.
Qed.
Definition hides (secrets : list string) (s : string) : bool := forallb (fun x => negb (hideable x) || negb (Contains s x)) secrets.
Definition is_marker (v : json) : bool := match v with JString s => s == marker | _ => false end.
Lemma hides_secret_free secrets s : hides secrets s = true <-> secret_free secrets s.
Proof.
  unfold hides, secret_free. rewrite forallb_forall. split; intros Hs x Hx.
  - intros Hh. specialize (Hs x ltac:(by apply list_elem_of_In)). rewrite Hh in Hs. by apply negb_true_iff.
  - apply list_elem_of_In in Hx. destruct (hideable x) eqn:E; [|done]. cbn. by apply negb_true_iff, Hs.
Qed.
Section Walks.
Context `{UnicodeTables} (secrets : list string).
(** Every string is free of secrets and every sensitive name has the marker. *)
Definition stored_key (key : string) : bool := sensitiveLabelKey key || EqualFold key "argv".
Fixpoint hidden (v : json) : bool :=
  match v with
  | JString s => hides secrets s
  | JArray l => forallb hidden l
  | JObject fields => forallb (fun '(k, c) => if stored_key k then is_marker c else hidden c) fields
  | _ => true
  end.
(** On the stream, arguments that are not strings are left alone. *)
Definition hidden_argument (v : json) : bool := match v with JString s => hides secrets s | _ => true end.
Fixpoint hidden_stream (v : json) : bool :=
  match v with
  | JString s => hides secrets s
  | JArray l => forallb hidden_stream l
  | JObject fields => forallb (fun '(k, c) =>
      if sensitiveKey k then is_marker c
      else match normalizedKey k == "argv", c with true, JArray l => forallb hidden_argument l | _, _ => hidden_stream c end) fields
  | _ => true
  end.

Context (Nonempty : Forall nonempty secrets).
Lemma redactText_hides value : hides secrets (redactText secrets value) = true.
Proof. apply hides_secret_free. by apply redactText_secret_free. Qed.
Lemma marker_hides : hides secrets marker = true.
Proof.
  apply hides_secret_free. intros x Hx Hh. apply not_true_iff_false. intros Hc. rewrite <-(str_app_nil_r marker), <-(str_app_nil_l (marker +:+ "")) in Hc.
  apply Contains_marker in Hc as [Hc|Hc]; [..|done]; apply hideable_spec in Hh as [Hn _]; by destruct x.
Qed.
Lemma scrub_string depth s : scrubJSON secrets (JString s) depth = if 32 <? depth then Err NestingExceeded else Ok (JString s).
Proof. done. Qed.
Lemma scrubJSON_hides v : forall depth v', (forall s, v <> JString s) -> scrubJSON secrets v depth = Ok v' -> hidden v' = true.
Proof.
  assert (forall c c' d, (forall depth v', (forall s, c <> JString s) -> scrubJSON secrets c depth = Ok v' -> hidden v' = true) ->
    match c with JString text => Ok (JString (redactText secrets text)) | _ => scrubJSON secrets c d end = Ok c' -> hidden c' = true) as Hel.
  { intros c c' d Hc Ec. destruct c; try (by apply (Hc _ _ ltac:(done) Ec)). injection Ec as <-. apply redactText_hides. }
  induction v as [| b |s|s|l IH|fields IH] using json_induction; intros d v' Hns; cbn [scrubJSON]; destruct (32 <? d); try done; try (intros [= <-]; done).
  - by destruct (Hns s).
  - cbn [mbind result_bind]. destruct (mapM _ l) as [l'|] eqn:El; [|done]. intros [= <-]. apply mapM_Ok in El. cbn [hidden].
    clear Hns. induction El as [|c c' l l' Ec El IHl]; [done|]. apply Forall_cons in IH as [Hc IH]. cbn [forallb]. rewrite IHl, andb_true_r by done. by apply (Hel c c' (d + 1)).
  - cbn [mbind result_bind]. destruct (mapM _ fields) as [f'|] eqn:El; [|done]. intros [= <-]. apply mapM_Ok in El. cbn [hidden].
    clear Hns. induction El as [|[k c] [k' c'] l l' Ec El IHl]; [done|]. apply Forall_cons in IH as [Hc IH]. cbn [forallb snd] in *. rewrite IHl, andb_true_r by done.
    cbn [mbind result_bind] in Ec. unfold stored_key. destruct (_ || _) eqn:Ek; [injection Ec as <- <-; by rewrite Ek|].
    destruct (match c with JString _ => _ | _ => _ end) as [c1|] eqn:Ec1; [|done]. injection Ec as <- <-. rewrite Ek. by apply (Hel c c1 (d + 1)).
Qed.
Lemma redact_arguments_hidden arguments : forall redactNext, forallb hidden_argument (redact_arguments secrets redactNext arguments) = true.
Proof.
  induction arguments as [|a arguments IH]; intros next; [done|]. destruct a; cbn [redact_arguments forallb hidden_argument]; rewrite ?IH; try done.
  destruct next; cbn [forallb hidden_argument]; rewrite IH, andb_true_r; [exact marker_hides|apply redactText_hides].
Qed.
Lemma redactValue_hides v : forall depth v', redactValue secrets v depth = Ok v' -> hidden_stream v' = true.
Proof.
  induction v as [| b |s|s|l IH|fields IH] using json_induction; intros d v'; cbn [redactValue]; destruct (32 <? d); try done; try (intros [= <-]; done).
  - intros [= <-]. apply redactText_hides.
  - cbn [mbind result_bind]. destruct (mapM _ l) as [l'|] eqn:El; [|done]. intros [= <-]. apply mapM_Ok in El. cbn [hidden_stream].
    induction El as [|c c' l l' Ec El IHl]; [done|]. apply Forall_cons in IH as [Hc IH]. cbn [forallb]. rewrite IHl, andb_true_r by done. by apply (Hc (d + 1)).
  - cbn [mbind result_bind]. set (truncated := is_true_field _ fields). clearbody truncated. destruct (mapM _ fields) as [f'|] eqn:El; [|done]. intros [= <-]. apply mapM_Ok in El. cbn [hidden_stream].
    induction El as [|[k c] [k' c'] l l' Ec El IHl]; [done|]. apply Forall_cons in IH as [Hc IH]. cbn [forallb snd] in *. rewrite IHl, andb_true_r by done.
    cbn [mbind result_bind] in Ec. destruct (sensitiveKey k) eqn:Ek; [injection Ec as <- <-; by rewrite Ek|].
    destruct (normalizedKey k == "argv") eqn:Ea; cbn [andb] in Ec.
    + destruct truncated; [injection Ec as <- <-; rewrite Ek, Ea; cbn; by rewrite marker_hides|].
      destruct c as [| | | |arguments|] eqn:Ecc; try (destruct (redactValue _ _ _) as [c1|] eqn:E1; [|done]; injection Ec as <- <-; rewrite Ek, Ea; pose proof (Hc _ _ E1) as H1;
        destruct c1; try done; cbn [redactValue] in E1; destruct (32 <? d + 1); try done).
      * injection Ec as <- <-. rewrite Ek, Ea. apply redact_arguments_hidden.
      * cbn [mbind result_bind] in E1. by destruct (mapM _ _).
    + destruct (redactValue _ _ _) as [c1|] eqn:E1; [|done]. injection Ec as <- <-. rewrite Ek, Ea. by apply (Hc (d + 1)).
Qed.
End Walks.

(** *** Numbers and nesting *)
Lemma scrubJSON_printable `{UnicodeTables} secrets v : forall d v', scrubJSON secrets v d = Ok v' -> printable v = true -> printable v' = true /\ (depth v' <= depth v)%nat.
Proof.
  assert (forall c c' d, (forall d v', scrubJSON secrets c d = Ok v' -> printable c = true -> printable v' = true /\ (depth v' <= depth c)%nat) ->
    match c with JString text => Ok (JString (redactText secrets text)) | _ => scrubJSON secrets c d end = Ok c' -> printable c = true -> printable c' = true /\ (depth c' <= depth c)%nat) as Hel.
  { intros c c' d Hc Ec Hp. destruct c; try (by apply (Hc _ _ Ec Hp)). injection Ec as <-. done. }
  induction v as [| b |s|s|l IH|fields IH] using json_induction; intros d v'; cbn [scrubJSON]; destruct (32 <? d); try done; try (intros [= <-]; done).
  - cbn [mbind result_bind]. destruct (mapM _ l) as [l'|] eqn:El; [|done]. intros [= <-] Hp. apply mapM_Ok in El. cbn [printable depth] in *.
    induction El as [|c c' l l' Ec El IHl]; [done|]. apply Forall_cons in IH as [Hc IH]. cbn [forallb map list_max foldr] in *. apply andb_true_iff in Hp as [Hpc Hp].
    destruct (IHl IH Hp) as [I1 I2]. destruct (Hel c c' _ Hc Ec Hpc) as [J1 J2]. rewrite I1, J1. split; [done|]. unfold list_max in *. lia.
  - cbn [mbind result_bind]. destruct (mapM _ fields) as [f'|] eqn:El; [|done]. intros [= <-] Hp. apply mapM_Ok in El. cbn [printable depth] in *.
    induction El as [|[k c] [k' c'] l l' Ec El IHl]; [done|]. apply Forall_cons in IH as [Hc IH]. cbn [forallb map list_max foldr fst snd] in *. apply andb_true_iff in Hp as [Hpc Hp].
    destruct (IHl IH Hp) as [I1 I2]. rewrite I1, andb_true_r. cbn [mbind result_bind] in Ec.
    assert (printable c' = true /\ (depth c' <= depth c)%nat) as [J1 J2].
    { destruct (_ || _) in Ec; [injection Ec as <- <-; split; [done|cbn; lia]|].
      destruct (match c with JString _ => _ | _ => _ end) as [c1|] eqn:Ec1; [|done]. injection Ec as <- <-. by apply (Hel c c1 (d + 1)). }
    split; [done|]. unfold list_max in *. lia.
Qed.
Lemma redact_arguments_printable `{UnicodeTables} secrets arguments : forall next, forallb printable arguments = true ->
  forallb printable (redact_arguments secrets next arguments) = true /\ (list_max (map depth (redact_arguments secrets next arguments)) <= list_max (map depth arguments))%nat.
Proof.
  induction arguments as [|a arguments IH]; intros next; [done|]. cbn [forallb]. intros [Ha Hp]%andb_true_iff.
  destruct a; cbn [redact_arguments]; try (destruct (IH false Hp) as [I1 I2]; cbn [forallb map list_max foldr]; rewrite Ha, I1; split; [done|]; unfold list_max in *; lia).
  destruct next; [destruct (IH false Hp) as [I1 I2]|destruct (IH (sensitiveKey s && negb (Contains s "=")) Hp) as [I1 I2]];
    cbn [forallb map list_max foldr printable]; rewrite I1; (split; [done|]); unfold list_max in *; cbn [depth]; lia.
Qed.
Lemma redactValue_printable `{UnicodeTables} secrets v : forall d v', 0 <= d -> redactValue secrets v d = Ok v' -> printable v = true ->
  printable v' = true /\ (depth v' <= depth v `max` Z.to_nat (34 - d))%nat.
Proof.
  induction v as [| b |s|s|l IH|fields IH] using json_induction; intros d v' Hd; cbn [redactValue]; destruct (Z.ltb_spec 32 d); try done; try (intros [= <-]; split; [done|apply Nat.le_0_l || apply Nat.le_max_l]).
  - cbn [mbind result_bind]. destruct (mapM _ l) as [l'|] eqn:El; [|done]. intros [= <-] Hp. apply mapM_Ok in El. cbn [printable depth] in *.
    induction El as [|c c' l l' Ec El IHl]; [split; [done|apply Nat.le_max_l]|]. apply Forall_cons in IH as [Hc IH]. cbn [forallb map list_max foldr] in *. apply andb_true_iff in Hp as [Hpc Hp].
    destruct (IHl IH Hp) as [I1 I2]. destruct (Hc (d + 1) c' ltac:(lia) Ec Hpc) as [J1 J2]. rewrite I1, J1. split; [done|]. unfold list_max in *. lia.
  - cbn [mbind result_bind]. set (truncated := is_true_field _ fields). clearbody truncated. destruct (mapM _ fields) as [f'|] eqn:El; [|done]. intros [= <-] Hp. apply mapM_Ok in El. cbn [printable depth] in *.
    induction El as [|[k c] [k' c'] l l' Ec El IHl]; [split; [done|apply Nat.le_max_l]|]. apply Forall_cons in IH as [Hc IH]. cbn [forallb map list_max foldr fst snd] in *. apply andb_true_iff in Hp as [Hpc Hp].
    destruct (IHl IH Hp) as [I1 I2]. rewrite I1, andb_true_r. cbn [mbind result_bind] in Ec.
    assert (printable c' = true /\ (S (depth c') <= S (depth c) `max` Z.to_nat (34 - d))%nat) as [J1 J2]; [|split; [done|]; unfold list_max in *; lia].
    assert (redactValue secrets c (d + 1) = Ok c' -> printable c' = true /\ (S (depth c') <= S (depth c) `max` Z.to_nat (34 - d))%nat) as Hrec.
    { intros E. destruct (Hc (d + 1) c' ltac:(lia) E Hpc) as [J1 J2]. split; [done|lia]. }
    destruct (sensitiveKey k); [injection Ec as <- <-; split; [done|change (depth (JString marker)) with 0%nat; lia]|].
    destruct (normalizedKey k == "argv"); cbn [andb] in Ec; [destruct truncated; [injection Ec as <- <-; split; [done|change (depth (JArray [JString marker])) with 1%nat; lia]|]|].
    + destruct c; try (destruct (redactValue _ _ _) as [c1|] eqn:E1; [|done]; injection Ec as <- <-; by apply Hrec).
      injection Ec as <- <-. destruct (redact_arguments_printable secrets l0 false Hpc) as [K1 K2]. split; [done|]. cbn [depth]. unfold redactArguments in *. lia.
    + destruct (redactValue _ _ _) as [c1|] eqn:E1; [|done]. injection Ec as <- <-. by apply Hrec.
Qed.
