(* ===== verification/StoreRecord.v ===== *)
(** * Stored records ([internal/store/record.go])

    What a record must satisfy to be stored, and the redactor every record
    goes through before it enters a queue. *)
From S2P Require Import Prelude GoStd GoTime Json Redact.
Open Scope Z_scope.

Definition SourceAgentClaim : string := "agent_claim".
Definition SourceKernelFact : string := "kernel_fact".
Definition SourcePolicyDecision : string := "policy_decision".
Definition SourceContainmentResult : string := "containment_result".
Definition SourceDiagnostic : string := "diagnostic".

Record StoreRecord := mkStoreRecord {
  Record_ID : string;
  Record_RecordType : string;
  Record_RunID : string;
  Record_Source : string;
  Record_ServerMonotonicNS : Z;
  Record_ServerUnixNS : Z;
  Record_InstanceID : Z;
  Record_ScopeCookie : Z;
  Record_Severity : string;
  Record_Summary : string;
  Record_Labels : option (gmap string string);
  Record_Payload : string;
}.
Inductive RecordError :=
  | InvalidIdentity | NulByte | InvalidSource | ExceedsLimits | InvalidPayload | LabelsExceed | PayloadRedaction (e : RedactError) | SanitizedPayloadExceeds.

Definition has_nul (s : string) : bool := str_exists (fun c => c == chr 0) s.
Definition label_ok (key value : string) : bool :=
  negb ((key == "") || (128 <? slen key) || (1024 <? slen value) || has_nul key || has_nul value).
Definition validate (r : StoreRecord) : result RecordError unit :=
  _ ← guard_err ((Record_ID r == "") || (128 <? slen (Record_ID r)) || (Record_RecordType r == "") || (64 <? slen (Record_RecordType r))) InvalidIdentity;
  _ ← guard_err (existsb has_nul [Record_ID r; Record_RecordType r; Record_RunID r; Record_Severity r; Record_Summary r]) NulByte;
  _ ← guard_err (negb (bool_decide (Record_Source r ∈ [SourceAgentClaim; SourceKernelFact; SourcePolicyDecision; SourceContainmentResult; SourceDiagnostic]))) InvalidSource;
  _ ← guard_err ((Record_ServerMonotonicNS r =? 0) || (Record_ServerUnixNS r =? 0) || (4096 <? slen (Record_Summary r)) ||
                 (32 <? Z.of_nat (size (default ∅ (Record_Labels r))))) ExceedsLimits;
  _ ← guard_err ((65536 <? slen (Record_Payload r)) || (negb (slen (Record_Payload r) =? 0) && negb (Valid (Record_Payload r)))) InvalidPayload;
  guard_err (existsb (fun kv => negb (label_ok kv.1 kv.2)) (map_to_list (default ∅ (Record_Labels r)))) LabelsExceed.

(** The values a redactor hides. *)
Definition Redactor : Type := list string.
Definition NewRedactor (sensitiveValues : list string) : Redactor := sensitive_values sensitiveValues.
Section Apply.
Context `{UnicodeTables}.
Definition redact_label (redactor : Redactor) (key value : string) : string :=
  if sensitiveLabelKey key then marker else redactText redactor value.
Definition redact_labels (redactor : Redactor) (labels : gmap string string) : gmap string string :=
  map_imap (fun key value => Some (redact_label redactor key value)) labels.
Definition scrub_payload (redactor : Redactor) (payload : string) : result RecordError string :=
  if slen payload =? 0 then Ok payload
  else match decode_next payload with
  | None => Err (PayloadRedaction InvalidJSON)
  | Some (value, _) =>
      match scrubJSON redactor value 0 with
      | Err e => Err (PayloadRedaction e)
      | Ok scrubbed => let payload := Marshal scrubbed in if 65536 <? slen payload then Err SanitizedPayloadExceeds else Ok payload
      end
  end.
Definition Apply (redactor : Redactor) (r : StoreRecord) : result RecordError StoreRecord :=
  _ ← validate r;
  payload ← scrub_payload redactor (Record_Payload r);
  Ok (mkStoreRecord (Record_ID r) (Record_RecordType r) (Record_RunID r) (Record_Source r) (Record_ServerMonotonicNS r) (Record_ServerUnixNS r)
        (Record_InstanceID r) (Record_ScopeCookie r) (Record_Severity r) (redactText redactor (Record_Summary r))
        (redact_labels redactor <$> Record_Labels r) payload).
End Apply.
Definition labelsJSON (labels : option (gmap string string)) : string :=
  match labels with None => "{}" | Some _ => Marshal (json_labels labels) end.

(** ** Lemmas *)
(** [Valid] tells what [decode_next] reads. *)
Lemma Valid_decode s : Valid s = true -> exists v rest, decode_next s = Some (v, rest) /\ skip_space rest = "" /\ Decode s = Some v.
Proof.
  unfold Valid, Decode. destruct (decode_next s) as [[v rest]|]; [|done]. destruct (bool_decide_reflect (skip_space rest = "")) as [E|]; [|done]. eauto.
Qed.
Lemma has_nul_forall s : has_nul s = false <-> str_forall (fun c => c != chr 0) s = true.
Proof.
  unfold has_nul. induction s as [|c s IH]; [done|]. cbn [str_exists str_forall]. rewrite orb_false_iff, andb_true_iff, IH, negb_true_iff. done.
Qed.
Section Applied.
Context `{UnicodeTables} (redactor : Redactor).
Context (Long : Forall (fun x => (10 <= String.length x)%nat) redactor).
Lemma redactText_small value n : slen value <= n -> slen (redactText redactor value) <= n.
Proof. unfold slen. pose proof (redactText_length redactor value Long). lia. Qed.
Lemma redactText_nul value : has_nul value = false -> has_nul (redactText redactor value) = false.
Proof. rewrite !has_nul_forall. by apply redactText_bytes. Qed.
Lemma redact_label_ok key value : label_ok key value = true -> label_ok key (redact_label redactor key value) = true.
Proof.
  unfold label_ok, redact_label. rewrite !negb_true_iff, !orb_false_iff. intros ((((-> & ->) & Hv) & ->) & Hn). destruct (sensitiveLabelKey key); [done|].
  split_and!; try done; [|by apply redactText_nul]. apply Z.ltb_ge, redactText_small. by apply Z.ltb_ge.
Qed.
Lemma redact_labels_size labels : size (redact_labels redactor labels) = size labels.
Proof.
  unfold redact_labels. rewrite <-!size_dom. f_equal. apply set_eq. intros k. rewrite !elem_of_dom, map_lookup_imap. destruct (labels !! k); cbn; split; intros [? ?]; eauto; done.
Qed.
Lemma scrub_payload_valid payload payload' : (slen payload =? 0) = true \/ Valid payload = true -> scrub_payload redactor payload = Ok payload' ->
  slen payload' <= 65536 /\ ((slen payload' =? 0) = true \/ Valid payload' = true).
Proof.
  intros Hp. unfold scrub_payload. destruct (slen payload =? 0) eqn:E0.
  { intros [= <-]. split; [lia|by left]. }
  destruct Hp as [|Hv]; [done|]. destruct (Valid_decode _ Hv) as (v & rest & -> & _ & Hd). apply Decode_canonical in Hd as [Hc Hdepth].
  destruct (scrubJSON redactor v 0) as [v'|] eqn:Es; [|done]. cbv zeta. destruct (Z.ltb_spec 65536 (slen (Marshal v'))); [done|]. intros [= <-].
  split; [done|right]. apply norm_canonical in Hc as [_ Hc]. destruct (scrubJSON_printable _ _ _ _ Es Hc) as [Hp Hd]. apply Valid_Marshal; [done|lia].
Qed.
(** A record the redactor accepts is accepted again where it is stored. *)
Lemma Apply_valid r r' : Apply redactor r = Ok r' -> validate r' = Ok tt.
Proof.
  unfold Apply. unfold mbind at 1, result_bind at 1. destruct (validate r) as [[]|] eqn:Ev; [|done]. unfold mbind, result_bind.
  destruct (scrub_payload redactor (Record_Payload r)) as [payload|] eqn:Ep; [|done]. intros [= <-].
  unfold validate in *. rewrite !guard_bind, guard_err_ok in *. destruct Ev as (H1 & H2 & H3 & H4 & H5 & H6).
  cbn [Record_ID Record_RecordType Record_RunID Record_Source Record_ServerMonotonicNS Record_ServerUnixNS Record_Severity Record_Summary Record_Labels Record_Payload].
  split_and!; try done.
  - cbn [existsb] in *. rewrite !orb_false_iff in *. destruct H2 as (? & ? & ? & ? & ? & _). split_and!; try done. by apply redactText_nul.
  - rewrite !orb_false_iff in *. destruct H4 as (((? & ?) & ?) & Hs). split_and!; try done; [apply Z.ltb_ge, redactText_small; by apply Z.ltb_ge|].
    destruct (Record_Labels r); [|done]. cbn in *. by rewrite redact_labels_size.
  - rewrite orb_false_iff in H5. destruct H5 as [H5a H5b]. apply scrub_payload_valid in Ep as [Hl Hv].
    + apply orb_false_iff. split; [by apply Z.ltb_ge|]. destruct Hv as [->| ->]; [done|]. by rewrite andb_false_r.
    + apply andb_false_iff in H5b as [Hb|Hb]; [left|right]; by apply negb_false_iff.
  - destruct (Record_Labels r) as [labels|]; [|done]. change (default ∅ (redact_labels redactor <$> Some labels)) with (redact_labels redactor labels). apply existsb_false. apply existsb_false in H6.
    apply Forall_forall. intros [k v'] Hkv. apply elem_of_map_to_list in Hkv. unfold redact_labels in Hkv. rewrite map_lookup_imap in Hkv. destruct (labels !! k) as [v|] eqn:El; [|done].
    injection Hkv as <-. rewrite Forall_forall in H6. specialize (H6 (k, v)). cbn [fst snd] in *. apply negb_false_iff, redact_label_ok. apply negb_false_iff, H6. by apply elem_of_map_to_list.
Qed.
End Applied.

Lemma NewRedactor_members values x : x ∈ NewRedactor values <-> x ∈ values /\ 4 <= slen x.
Proof.
  unfold NewRedactor, sensitive_values. rewrite elem_of_sort_by. rewrite !list_elem_of_In, filter_In, Z.leb_le. done.
Qed.
Lemma NewRedactor_nonempty values : Forall nonempty (NewRedactor values).
Proof. apply Forall_forall. intros x [_ Hx]%NewRedactor_members ->. unfold slen in Hx. cbn in Hx. lia. Qed.

(** C33: a record that passes the redactor keeps its identity; no secret of four
    bytes or more that the marker itself cannot spell occurs in its summary,
    in the value of any label or in any string of its payload, the values of
    sensitive names are blanked wherever they occur, and the payload is still
    JSON.  Not covered are secrets shorter than four bytes, which the redactor
    ignores, secrets that the marker itself can spell, and payloads that are a
    bare JSON string, in which the code does not look for secrets. *)
Theorem Apply_hides `{UnicodeTables} values r r' : Apply (NewRedactor values) r = Ok r' ->
  Record_ID r' = Record_ID r /\ Record_RunID r' = Record_RunID r /\ Record_Source r' = Record_Source r /\ Record_Severity r' = Record_Severity r /\
  (forall x, x ∈ values -> 4 <= slen x -> hideable x = true ->
    Contains (Record_Summary r') x = false /\
    forall labels k v, Record_Labels r' = Some labels -> labels !! k = Some v -> if sensitiveLabelKey k then v = marker else Contains v x = false) /\
  (Record_Payload r = "" /\ Record_Payload r' = "" \/
   exists v v', Decode (Record_Payload r) = Some v /\ Record_Payload r' = Marshal v' /\ Decode (Record_Payload r') = Some (norm v') /\
     ((exists s, v = JString s) \/ hidden (NewRedactor values) v' = true)).
Proof.
  unfold Apply. unfold mbind at 1, result_bind at 1. destruct (validate r) as [[]|] eqn:Ev; [|done]. unfold mbind, result_bind.
  destruct (scrub_payload _ (Record_Payload r)) as [payload|] eqn:Ep; [|done]. intros [= <-].
  cbn [Record_ID Record_RunID Record_Source Record_Severity Record_Summary Record_Labels Record_Payload]. do 4 (split; [done|]). split.
  - intros x Hx H4 Hh. assert (x ∈ NewRedactor values) as Hin by (by apply NewRedactor_members).
    pose proof (NewRedactor_nonempty values) as Hne. split; [by apply redactText_secret_free|]. intros labels k v Hl Hv. destruct (Record_Labels r) as [l|]; [|done].
    injection Hl as <-. unfold redact_labels in Hv. rewrite map_lookup_imap in Hv. destruct (l !! k); [|done]. injection Hv as <-. unfold redact_label.
    destruct (sensitiveLabelKey k); [done|]. by apply redactText_secret_free.
  - unfold validate in Ev. rewrite !guard_bind, guard_err_ok in Ev. destruct Ev as (_ & _ & _ & _ & [_ Hv]%orb_false_iff & _). unfold scrub_payload in Ep.
    destruct (Z.eqb_spec (slen (Record_Payload r)) 0) as [E0|E0].
    { left. injection Ep as <-. unfold slen in E0. destruct (Record_Payload r); [done|]. cbn in E0. lia. }
    cbn in Hv. apply negb_false_iff, Valid_decode in Hv as (v & rest & Hn & _ & Hd). rewrite Hn in Ep. destruct (scrubJSON _ v 0) as [v'|] eqn:Es; [|done].
    cbv zeta in Ep. destruct (65536 <? _); [done|]. injection Ep as <-. right. exists v, v'. split; [done|]. split; [done|]. split.
    + pose proof (Decode_canonical _ _ Hd) as [Hc Hdp]. apply norm_canonical in Hc as [_ Hc]. destruct (scrubJSON_printable _ _ _ _ Es Hc) as [Hp Hle].
      apply Decode_printed; [done|lia].
    + assert ((exists s, v = JString s) \/ forall s, v <> JString s) as [Hs|Hs] by (destruct v; eauto; right; done); [by left|right].
      by apply (scrubJSON_hides _ (NewRedactor_nonempty values) v 0 v').
Qed.
Definition demo_stored (summary payload : string) : StoreRecord :=
  mkStoreRecord "rec-1" "kernel_event" "run-1" SourceKernelFact 5 7 1 2 "info" summary (Some {[ "api-token" := "abc"; "note" := "use hunter22 now" ]}) payload.
#[local] Instance demo_tables : UnicodeTables := ascii_tables.
Definition demo_redacted : result RecordError StoreRecord :=
  Apply (NewRedactor ["hunter22"; "x"]) (demo_stored "login with hunter22, password: swordfish" ("{" +:+ quoted "data" +:+ ":[" +:+ quoted "hunter22!" +:+ ",1]," +:+ quoted "argv" +:+ ":[]}")).
Lemma Apply_hides_witness : exists r', demo_redacted = Ok r' /\ Contains (Record_Summary r') "hunter22" = false /\
  Record_Summary r' = "login with [REDACTED], [REDACTED]".
Proof.
  assert (match demo_redacted with Ok r' => Record_Summary r' = "login with [REDACTED], [REDACTED]" | Err _ => False end) as H by (vm_compute; reflexivity).
  destruct demo_redacted as [r'|] eqn:E; [|destruct H]. exists r'. split; [reflexivity|]. split; [|exact H].
  destruct (Apply_hides ["hunter22"; "x"] (demo_stored "login with hunter22, password: swordfish" ("{" +:+ quoted "data" +:+ ":[" +:+ quoted "hunter22!" +:+ ",1]," +:+ quoted "argv" +:+ ":[]}")) r' E)
    as (_ & _ & _ & _ & Hx & _).
  apply (Hx "hunter22"); [apply list_elem_of_In; left; reflexivity|vm_compute; discriminate|vm_compute; reflexivity].
Defined.

(** ** Credentials that are not hidden *)
(** The pattern reads the scheme of an authorization header as its value: the
    credential after it stays. *)
Theorem bearer_credential_kept : redactText [] "Authorization: Bearer sk-live-0123456789" = "[REDACTED] sk-live-0123456789".
Proof. vm_compute. reflexivity. Qed.
(** A payload that is a JSON string passes with the secret in it. *)
Theorem bare_payload_kept : Record_Payload <$> (match Apply (NewRedactor ["hunter22"]) (demo_stored "" (quoted "hunter22")) with Ok r => Some r | Err _ => None end) = Some (quoted "hunter22").
Proof. vm_compute. reflexivity. Qed.
(** A record whose secrets are shorter than the marker can outgrow the limits
    it was checked against. *)
Definition demo_label : StoreRecord :=
  mkStoreRecord "rec-1" "kernel_event" "run-1" SourceKernelFact 5 7 1 2 "info" "" (Some {[ "note" := String.concat "" (replicate 110 "abcd") ]}) "".
Theorem redaction_outgrows_limits : validate demo_label = Ok tt /\ (r ← Apply (NewRedactor ["abcd"]) demo_label; validate r) = Err LabelsExceed.
Proof. split; vm_compute; reflexivity. Qed.
