(* ===== verification/Writer.v ===== *)
(** * The store writer ([internal/store/writer.go])

    [Writer] takes records from any goroutine, keeps them in a bounded queue,
    and one goroutine hands them in batches to a [BatchStore].  A refused batch
    opens a circuit: records then wait in a bounded buffer that periodic probes
    try to flush.  What is read from the queue and the timers in which order is
    a step relation; the records the store accepted are kept beside the store
    by [Logged]. *)
From S2P Require Import Prelude GoStd GoTime Json Redact StoreRecord.
Open Scope Z_scope.

(** The interface of the writer to its store: the batch, the store before, and
    the error with the store after. *)
Class BatchStore (B : Type) := AppendBatch : list StoreRecord -> B -> option string * B.
Definition maximumBatchSize : Z := 256.

Record WriterOptions := mkWriterOptions {
  WriterOptions_QueueCapacity : Z;
  WriterOptions_RecentCapacity : Z;
  WriterOptions_RecentBytes : Z;
  WriterOptions_BatchSize : Z;
  WriterOptions_FlushInterval : Z;
  WriterOptions_RetryInterval : Z;
  WriterOptions_Redactor : Redactor;
}.
Record StoreDiagnostics := mkStoreDiagnostics {
  StoreDiagnostics_CircuitOpen : bool;
  StoreDiagnostics_LastError : string;
  StoreDiagnostics_QueueDepth : Z;
  StoreDiagnostics_QueueDrops : Z;
  StoreDiagnostics_StoreDrops : Z;
  StoreDiagnostics_RecentDepth : Z;
  StoreDiagnostics_RecentBytes : Z;
  StoreDiagnostics_GapFirstRecordID : string;
  StoreDiagnostics_GapLatestRecordID : string;
}.
(** [w_batch] is the local slice of the goroutine, [w_done] its closed channel,
    [w_notices] what it printed on the diagnostics stream. *)
Record Writer (B : Type) := mkWriter {
  w_backend : B;
  w_options : WriterOptions;
  w_queue : list StoreRecord;
  w_batch : list StoreRecord;
  w_closing : bool;
  w_done : bool;
  w_recent : list StoreRecord;
  w_recentBytes : Z;
  w_diagnostics : StoreDiagnostics;
  w_closeErr : option string;
  w_notices : list string;
}.
Arguments mkWriter {B}.
Arguments w_backend {B} _.
Arguments w_options {B} _.
Arguments w_queue {B} _.
Arguments w_batch {B} _.
Arguments w_closing {B} _.
Arguments w_done {B} _.
Arguments w_recent {B} _.
Arguments w_recentBytes {B} _.
Arguments w_diagnostics {B} _.
Arguments w_closeErr {B} _.
Arguments w_notices {B} _.

Definition default_to (z d : Z) : Z := if z =? 0 then d else z.
Definition writer_defaults (o : WriterOptions) : WriterOptions :=
  mkWriterOptions (default_to (WriterOptions_QueueCapacity o) 1024) (default_to (WriterOptions_RecentCapacity o) 1024)
    (default_to (WriterOptions_RecentBytes o) (Z.shiftl 4 20)) (default_to (WriterOptions_BatchSize o) 64)
    (default_to (WriterOptions_FlushInterval o) (50 * Millisecond)) (default_to (WriterOptions_RetryInterval o) Second) (WriterOptions_Redactor o).
Definition writer_limits_invalid (o : WriterOptions) : bool :=
  (WriterOptions_QueueCapacity o <? 1) || (100000 <? WriterOptions_QueueCapacity o) || (WriterOptions_RecentCapacity o <? 1) ||
  (WriterOptions_RecentBytes o <? 1) || (WriterOptions_BatchSize o <? 1) || (WriterOptions_QueueCapacity o <? WriterOptions_BatchSize o) ||
  (maximumBatchSize <? WriterOptions_BatchSize o) || (WriterOptions_FlushInterval o <? Millisecond) || (WriterOptions_RetryInterval o <? Millisecond).
Inductive WriterError := BackendRequired | WriterLimitsInvalid.
Definition no_diagnostics : StoreDiagnostics := mkStoreDiagnostics false "" 0 0 0 0 0 "" "".
Definition NewWriter {B} (backend : option B) (options : WriterOptions) : result WriterError (Writer B) :=
  match backend with
  | None => Err BackendRequired
  | Some backend =>
      let options := writer_defaults options in
      if writer_limits_invalid options then Err WriterLimitsInvalid
      else Ok (mkWriter backend options [] [] false false [] 0 no_diagnostics None [])
  end.

(** ** Diagnostics *)
Definition noteGapLocked (d : StoreDiagnostics) (id : string) : StoreDiagnostics :=
  mkStoreDiagnostics (StoreDiagnostics_CircuitOpen d) (StoreDiagnostics_LastError d) (StoreDiagnostics_QueueDepth d)
    (StoreDiagnostics_QueueDrops d) (StoreDiagnostics_StoreDrops d) (StoreDiagnostics_RecentDepth d) (StoreDiagnostics_RecentBytes d)
    (if StoreDiagnostics_GapFirstRecordID d == "" then id else StoreDiagnostics_GapFirstRecordID d) id.
Definition count_queue_drop (d : StoreDiagnostics) : StoreDiagnostics :=
  mkStoreDiagnostics (StoreDiagnostics_CircuitOpen d) (StoreDiagnostics_LastError d) (StoreDiagnostics_QueueDepth d)
    (wrap64 (StoreDiagnostics_QueueDrops d + 1)) (StoreDiagnostics_StoreDrops d)
    (StoreDiagnostics_RecentDepth d) (StoreDiagnostics_RecentBytes d) (StoreDiagnostics_GapFirstRecordID d) (StoreDiagnostics_GapLatestRecordID d).
Definition count_store_drop (d : StoreDiagnostics) : StoreDiagnostics :=
  mkStoreDiagnostics (StoreDiagnostics_CircuitOpen d) (StoreDiagnostics_LastError d) (StoreDiagnostics_QueueDepth d)
    (StoreDiagnostics_QueueDrops d) (wrap64 (StoreDiagnostics_StoreDrops d + 1))
    (StoreDiagnostics_RecentDepth d) (StoreDiagnostics_RecentBytes d) (StoreDiagnostics_GapFirstRecordID d) (StoreDiagnostics_GapLatestRecordID d).
Definition set_circuit (d : StoreDiagnostics) (open : bool) (lastError : string) : StoreDiagnostics :=
  mkStoreDiagnostics open lastError (StoreDiagnostics_QueueDepth d) (StoreDiagnostics_QueueDrops d) (StoreDiagnostics_StoreDrops d)
    (StoreDiagnostics_RecentDepth d) (StoreDiagnostics_RecentBytes d) (StoreDiagnostics_GapFirstRecordID d) (StoreDiagnostics_GapLatestRecordID d).
Definition set_depth (d : StoreDiagnostics) (queueDepth recentDepth recentBytes : Z) : StoreDiagnostics :=
  mkStoreDiagnostics (StoreDiagnostics_CircuitOpen d) (StoreDiagnostics_LastError d) queueDepth (StoreDiagnostics_QueueDrops d) (StoreDiagnostics_StoreDrops d)
    recentDepth recentBytes (StoreDiagnostics_GapFirstRecordID d) (StoreDiagnostics_GapLatestRecordID d).

Section Operations.
Context {B : Type} `{BatchStore B} `{UnicodeTables}.
Implicit Types w : Writer B.

Definition with_diagnostics w (d : StoreDiagnostics) : Writer B :=
  mkWriter (w_backend w) (w_options w) (w_queue w) (w_batch w) (w_closing w) (w_done w) (w_recent w) (w_recentBytes w) d (w_closeErr w) (w_notices w).
Definition with_backend w (b : B) : Writer B :=
  mkWriter b (w_options w) (w_queue w) (w_batch w) (w_closing w) (w_done w) (w_recent w) (w_recentBytes w) (w_diagnostics w) (w_closeErr w) (w_notices w).
Definition with_queues w (queue batch : list StoreRecord) : Writer B :=
  mkWriter (w_backend w) (w_options w) queue batch (w_closing w) (w_done w) (w_recent w) (w_recentBytes w) (w_diagnostics w) (w_closeErr w) (w_notices w).
Definition with_recent w (recent : list StoreRecord) (recentBytes : Z) : Writer B :=
  mkWriter (w_backend w) (w_options w) (w_queue w) (w_batch w) (w_closing w) (w_done w) recent recentBytes (w_diagnostics w) (w_closeErr w) (w_notices w).

Definition drop w (id : string) (storeDrop : bool) : Writer B :=
  with_diagnostics w (noteGapLocked (if storeDrop then count_store_drop (w_diagnostics w) else count_queue_drop (w_diagnostics w)) id).
Definition Submit w (record : StoreRecord) : Writer B * bool :=
  if w_closing w then (w, false)
  else match Apply (WriterOptions_Redactor (w_options w)) record with
  | Err _ => (drop w (Record_ID record) true, false)
  | Ok sanitized =>
      if len (w_queue w) <? WriterOptions_QueueCapacity (w_options w) then (with_queues w (w_queue w ++ [sanitized]) (w_batch w), true)
      else (drop w (Record_ID record) false, false)
  end.
Definition Diagnostics w : StoreDiagnostics :=
  set_depth (w_diagnostics w) (len (w_queue w)) (StoreDiagnostics_RecentDepth (w_diagnostics w)) (StoreDiagnostics_RecentBytes (w_diagnostics w)).

Definition store_unavailable : string := "agentshield store degraded: storage unavailable".
Definition openCircuit w : Writer B :=
  mkWriter (w_backend w) (w_options w) (w_queue w) (w_batch w) (w_closing w) (w_done w) (w_recent w) (w_recentBytes w)
    (set_circuit (w_diagnostics w) true "storage unavailable") (w_closeErr w) (w_notices w ++ [store_unavailable]).
Definition record_size (record : StoreRecord) : Z :=
  slen (Record_Summary record) + slen (labelsJSON (Record_Labels record)) + slen (Record_Payload record) + 512.
Definition buffer_record w (record : StoreRecord) : Writer B :=
  let size := record_size record in
  if (WriterOptions_RecentCapacity (w_options w) <=? len (w_recent w)) || (WriterOptions_RecentBytes (w_options w) <? to_int64 (w_recentBytes w + size))
  then with_diagnostics w (noteGapLocked (count_store_drop (w_diagnostics w)) (Record_ID record))
  else with_recent w (w_recent w ++ [record]) (to_int64 (w_recentBytes w + size)).
Definition buffer w (records : list StoreRecord) : Writer B :=
  let w := fold_left buffer_record records w in
  with_diagnostics w (set_depth (w_diagnostics w) (StoreDiagnostics_QueueDepth (w_diagnostics w)) (len (w_recent w)) (w_recentBytes w)).
Definition flush w (batch : list StoreRecord) : Writer B :=
  if StoreDiagnostics_CircuitOpen (w_diagnostics w) then buffer w batch
  else match AppendBatch batch (w_backend w) with
  | (None, b) => with_backend w b
  | (Some _, b) => buffer (openCircuit (with_backend w b)) batch
  end.
Definition probe w : Writer B :=
  if negb (StoreDiagnostics_CircuitOpen (w_diagnostics w)) || (len (w_recent w) =? 0) then w
  else match AppendBatch (w_recent w) (w_backend w) with
  | (Some _, b) => openCircuit (with_backend w b)
  | (None, b) =>
      let w := with_recent (with_backend w b) [] 0 in
      with_diagnostics w (set_depth (set_circuit (w_diagnostics w) false "") (StoreDiagnostics_QueueDepth (w_diagnostics w)) 0 0)
  end.

(** ** The loop of [run], one function for each case of its select *)
Definition run_receive w : option (Writer B) :=
  match w_queue w with
  | [] => None
  | record :: queue =>
      let batch := w_batch w ++ [record] in
      if WriterOptions_BatchSize (w_options w) <=? len batch
      then Some (with_queues (flush (with_queues w queue (w_batch w)) batch) queue [])
      else Some (with_queues w queue batch)
  end.
Definition run_flush w : Writer B :=
  if len (w_batch w) =? 0 then w else with_queues (flush w (w_batch w)) (w_queue w) [].
Fixpoint drain (queue batch : list StoreRecord) : list StoreRecord :=
  match queue with
  | [] => batch
  | record :: queue => drain queue (batch ++ [record])
  end.
Definition run_shutdown w : Writer B :=
  let batch := drain (w_queue w) (w_batch w) in
  let w := probe (with_queues w [] (w_batch w)) in
  let w := with_queues (if len batch =? 0 then w else flush w batch) [] [] in
  mkWriter (w_backend w) (w_options w) (w_queue w) (w_batch w) (w_closing w) true (w_recent w) (w_recentBytes w) (w_diagnostics w)
    (if len (w_recent w) =? 0 then w_closeErr w else Some "store closed with unpersisted records") (w_notices w).

(** [Close] marks the writer closed and then waits for the goroutine or for
    its context, whichever comes first. *)
Definition begin_close w : Writer B :=
  mkWriter (w_backend w) (w_options w) (w_queue w) (w_batch w) true (w_done w) (w_recent w) (w_recentBytes w) (w_diagnostics w) (w_closeErr w) (w_notices w).
Inductive close_returns w : option (option string) -> option string -> Prop :=
  | close_nil_context : close_returns w None (Some "store close context is required")
  | close_finished ctx : w_done w = true -> close_returns w (Some ctx) (w_closeErr w)
  | close_cancelled e : close_returns w (Some (Some e)) (Some e).
End Operations.

(** ** Executions *)
(** A store with the records of the batches it took. *)
Definition Logged (B : Type) : Type := B * list StoreRecord.
#[export] Instance logged_store {B} `{BatchStore B} : BatchStore (Logged B) := fun batch s =>
  match AppendBatch batch s.1 with
  | (None, b) => (None, (b, s.2 ++ batch))
  | (Some e, b) => (Some e, (b, s.2))
  end.
(** A writer with what was submitted to it: the sanitized records it took, in
    order, and how many the redactor and the full queue refused. *)
Record Written (B : Type) := mkWritten {
  wr_writer : Writer (Logged B);
  wr_accepted : list StoreRecord;
  wr_refused : nat;
  wr_full : nat;
}.
Arguments mkWritten {B}.
Arguments wr_writer {B} _.
Arguments wr_accepted {B} _.
Arguments wr_refused {B} _.
Arguments wr_full {B} _.
Section Runs.
Context {B : Type} `{BatchStore B} `{UnicodeTables}.
Implicit Types t : Written B.
Definition log t : list StoreRecord := (w_backend (wr_writer t)).2.
(** What a submission adds to the history. *)
Definition record_submission t (record : StoreRecord) : Written B :=
  let w := wr_writer t in
  let w' := (Submit w record).1 in
  if w_closing w then t
  else match Apply (WriterOptions_Redactor (w_options w)) record with
  | Err _ => mkWritten w' (wr_accepted t) (S (wr_refused t)) (wr_full t)
  | Ok sanitized =>
      if (Submit w record).2 then mkWritten w' (wr_accepted t ++ [sanitized]) (wr_refused t) (wr_full t)
      else mkWritten w' (wr_accepted t) (wr_refused t) (S (wr_full t))
  end.
Definition advance t (w : Writer (Logged B)) : Written B := mkWritten w (wr_accepted t) (wr_refused t) (wr_full t).
Inductive writer_step t : Written B -> Prop :=
  | step_submit record : writer_step t (record_submission t record)
  | step_receive w : w_done (wr_writer t) = false -> run_receive (wr_writer t) = Some w -> writer_step t (advance t w)
  | step_flush : w_done (wr_writer t) = false -> writer_step t (advance t (run_flush (wr_writer t)))
  | step_retry : w_done (wr_writer t) = false -> writer_step t (advance t (probe (wr_writer t)))
  | step_close : writer_step t (advance t (begin_close (wr_writer t)))
  | step_shutdown : w_done (wr_writer t) = false -> w_closing (wr_writer t) = true -> writer_step t (advance t (run_shutdown (wr_writer t))).
Inductive writer_reachable : Written B -> Prop :=
  | writer_start b options w : NewWriter (Some (b, [])) options = Ok w -> writer_reachable (mkWritten w [] 0 0)
  | writer_next t t' : writer_reachable t -> writer_step t t' -> writer_reachable t'.
End Runs.

(** ** Where every record is *)
Lemma wrap64_add x y : wrap64 (wrap64 x + y) = wrap64 (x + y).
Proof. unfold wrap64. by rewrite Z.add_mod_idemp_l. Qed.
Lemma to_int64_add x y : to_int64 (to_int64 x + y) = to_int64 (x + y).
Proof.
  unfold to_int64. assert (wrap64 (wrap64 x - 2 ^ 64 + y) = wrap64 (x + y)) as E by
    (unfold wrap64; replace (x mod 2 ^ 64 - 2 ^ 64 + y) with (x mod 2 ^ 64 + y + (-1) * 2 ^ 64) by lia; by rewrite Z.mod_add, Z.add_mod_idemp_l).
  cbv zeta. destruct (wrap64 x <? 2 ^ 63); [by rewrite wrap64_add|by rewrite E].
Qed.
Lemma sublist_full {A} (l l' : list A) : l `sublist_of` l' -> (length l' <= length l)%nat -> l = l'.
Proof. induction 1 as [|x l l' Hs IH|x l l' Hs IH]; cbn; intros Hl; [done|f_equal; apply IH; lia|]. apply sublist_length in Hs. lia. Qed.
Definition total_size (l : list StoreRecord) : Z := foldr Z.add 0 (record_size <$> l).
Lemma total_size_snoc l r : total_size (l ++ [r]) = total_size l + record_size r.
Proof. unfold total_size. induction l as [|r' l IH]; cbn in *; lia. Qed.

Section Conservation.
Context {B : Type} `{BatchStore B} `{UnicodeTables}.
Implicit Types w : Writer (Logged B).
(** The part of the invariant the store operations maintain: [pending] are the
    records in the hands of the loop, after the buffered ones. *)
Record flows (w : Writer (Logged B)) (pending accepted : list StoreRecord) (refused : nat) : Prop := {
  flows_limits : writer_limits_invalid (w_options w) = false;
  flows_order : (w_backend w).2 ++ w_recent w ++ pending `sublist_of` accepted;
  flows_drops : StoreDiagnostics_StoreDrops (w_diagnostics w) =
    wrap64 (Z.of_nat refused + len accepted - len ((w_backend w).2 ++ w_recent w ++ pending));
  flows_circuit : StoreDiagnostics_CircuitOpen (w_diagnostics w) = false -> w_recent w = [];
  flows_capacity : len (w_recent w) <= WriterOptions_RecentCapacity (w_options w);
  flows_bytes : w_recentBytes w = to_int64 (total_size (w_recent w)) /\ w_recentBytes w <= WriterOptions_RecentBytes (w_options w);
  flows_error : StoreDiagnostics_LastError (w_diagnostics w) = if StoreDiagnostics_CircuitOpen (w_diagnostics w) then "storage unavailable" else "";
}.
(** What they leave alone. *)
Definition untouched w w' : Prop :=
  w_options w' = w_options w /\ w_queue w' = w_queue w /\ w_batch w' = w_batch w /\ w_closing w' = w_closing w /\ w_done w' = w_done w /\
  w_closeErr w' = w_closeErr w /\ StoreDiagnostics_QueueDrops (w_diagnostics w') = StoreDiagnostics_QueueDrops (w_diagnostics w).
Definition depths w : Prop :=
  StoreDiagnostics_RecentDepth (w_diagnostics w) = len (w_recent w) /\ StoreDiagnostics_RecentBytes (w_diagnostics w) = w_recentBytes w.
Lemma untouched_refl w : untouched w w.
Proof. done. Qed.
Lemma untouched_trans w1 w2 w3 : untouched w1 w2 -> untouched w2 w3 -> untouched w1 w3.
Proof. unfold untouched. intros (-> & -> & -> & -> & -> & -> & ->) (-> & -> & -> & -> & -> & -> & ->). done. Qed.

Lemma limits_valid o : writer_limits_invalid o = false ->
  1 <= WriterOptions_QueueCapacity o /\ 1 <= WriterOptions_RecentCapacity o /\ 1 <= WriterOptions_RecentBytes o /\ 1 <= WriterOptions_BatchSize o <= maximumBatchSize.
Proof. unfold writer_limits_invalid. rewrite !orb_false_iff, !Z.ltb_ge. lia. Qed.

Lemma buffer_record_flows w r pending accepted refused : StoreDiagnostics_CircuitOpen (w_diagnostics w) = true ->
  flows w (r :: pending) accepted refused ->
  flows (buffer_record w r) pending accepted refused /\ untouched w (buffer_record w r) /\ StoreDiagnostics_CircuitOpen (w_diagnostics (buffer_record w r)) = true.
Proof.
  intros Ho [Hl Hs Hd Hc Hr [Hb Hb'] He]. unfold buffer_record. cbv zeta. destruct (_ || _) eqn:E.
  - split; [|done]. split; cbn; try done.
    + etransitivity; [|exact Hs]. apply sublist_app; [done|]. apply sublist_app; [done|]. by apply sublist_cons.
    + rewrite Hd, wrap64_add. f_equal. rewrite !len_app. unfold len. cbn [length]. lia.
  - apply orb_false_iff in E as [E1%Z.leb_gt E2%Z.ltb_ge]. split; [|done]. split; cbn -[to_int64 total_size]; try done.
    + by rewrite <-(assoc_L (++)).
    + by rewrite <-(assoc_L (++)).
    + congruence.
    + rewrite len_app. unfold len at 2. cbn [length]. lia.
    + rewrite total_size_snoc. split; [|done]. by rewrite Hb, to_int64_add.
Qed.
Lemma buffer_flows w records pending accepted refused : StoreDiagnostics_CircuitOpen (w_diagnostics w) = true ->
  flows w (records ++ pending) accepted refused ->
  flows (buffer w records) pending accepted refused /\ untouched w (buffer w records) /\ depths (buffer w records).
Proof.
  intros Ho Hf. unfold buffer. cbv zeta.
  assert (flows (fold_left buffer_record records w) pending accepted refused /\ untouched w (fold_left buffer_record records w)) as [Hf' Hu].
  { revert w Ho Hf. induction records as [|r records IH]; intros w Ho Hf; [done|]. cbn [fold_left app] in *.
    destruct (buffer_record_flows _ _ _ _ _ Ho Hf) as (Hf' & Hu & Ho'). destruct (IH _ Ho' Hf') as [? ?]. split; [done|]. by eapply untouched_trans. }
  destruct Hf'. split; [by split|done].
Qed.
Lemma openCircuit_flows w pending accepted refused : flows w pending accepted refused -> flows (openCircuit w) pending accepted refused.
Proof. intros []. by split. Qed.
Lemma with_backend_flows w b pending accepted refused : b.2 = (w_backend w).2 -> flows w pending accepted refused -> flows (with_backend w b) pending accepted refused.
Proof. intros E []. split; cbn; rewrite ?E; done. Qed.
Lemma AppendBatch_log batch (s : Logged B) : (AppendBatch batch s).2.2 = s.2 ++ (match (AppendBatch batch s).1 with Some _ => [] | None => batch end).
Proof. unfold AppendBatch at 1 2, logged_store. destruct (AppendBatch batch s.1) as [[e|] b]; cbn; [by rewrite app_nil_r|done]. Qed.
Lemma flush_flows w batch pending accepted refused : flows w (batch ++ pending) accepted refused -> depths w ->
  flows (flush w batch) pending accepted refused /\ untouched w (flush w batch) /\ depths (flush w batch).
Proof.
  intros Hf Hd. unfold flush. destruct (StoreDiagnostics_CircuitOpen (w_diagnostics w)) eqn:Ho; [by apply buffer_flows|].
  pose proof (AppendBatch_log batch (w_backend w)) as Hl. destruct (AppendBatch batch (w_backend w)) as [[e|] b]; cbn in Hl.
  - rewrite app_nil_r in Hl. apply (buffer_flows (openCircuit (with_backend w b))); [done|]. by apply openCircuit_flows, with_backend_flows.
  - split; [|done]. destruct Hf as [Hv Hs Hdr Hc Hr Hb He]. rewrite (Hc Ho) in *. split; cbn; rewrite ?Hl, ?(Hc Ho); try done; by rewrite <-(assoc_L (++)).
Qed.
Lemma probe_flows w pending accepted refused : flows w pending accepted refused -> depths w ->
  flows (probe w) pending accepted refused /\ untouched w (probe w) /\ depths (probe w).
Proof.
  intros Hf Hd. unfold probe. destruct (negb _ || _) eqn:Eg; [done|].
  pose proof (AppendBatch_log (w_recent w) (w_backend w)) as Hl. destruct (AppendBatch (w_recent w) (w_backend w)) as [[e|] b]; cbn in Hl.
  - rewrite app_nil_r in Hl. split; [|done]. by apply openCircuit_flows, with_backend_flows.
  - split; [|done]. destruct Hf as [Hv Hs Hdr Hc Hr Hb He]. split; cbn; rewrite ?Hl; try done; rewrite <-?(assoc_L (++)); try done; apply limits_valid in Hv; [|split; [done|]]; unfold len in *; cbn; lia.
Qed.

Lemma drain_all queue : forall batch, drain queue batch = batch ++ queue.
Proof. induction queue as [|r queue IH]; intros batch; cbn; [by rewrite app_nil_r|]. by rewrite IH, <-(assoc_L (++)). Qed.
Lemma with_queues_flows w queue batch pending accepted refused : flows w pending accepted refused -> flows (with_queues w queue batch) pending accepted refused.
Proof. intros []. by split. Qed.
Record writer_ok (t : Written B) : Prop := {
  ok_flows : flows (wr_writer t) (w_batch (wr_writer t) ++ w_queue (wr_writer t)) (wr_accepted t) (wr_refused t);
  ok_depths : depths (wr_writer t);
  ok_queue : len (w_queue (wr_writer t)) <= WriterOptions_QueueCapacity (w_options (wr_writer t));
  ok_batch : len (w_batch (wr_writer t)) < WriterOptions_BatchSize (w_options (wr_writer t));
  ok_full : StoreDiagnostics_QueueDrops (w_diagnostics (wr_writer t)) = wrap64 (Z.of_nat (wr_full t));
  ok_running : w_done (wr_writer t) = false -> w_closeErr (wr_writer t) = None;
  ok_done : w_done (wr_writer t) = true -> w_closing (wr_writer t) = true /\ w_queue (wr_writer t) = [] /\ w_batch (wr_writer t) = [] /\
    (w_closeErr (wr_writer t) = None <-> w_recent (wr_writer t) = []);
}.
(** A step of the loop that leaves the writer running. *)
Lemma writer_ok_running t w : writer_ok t -> w_done (wr_writer t) = false ->
  flows w (w_batch w ++ w_queue w) (wr_accepted t) (wr_refused t) -> depths w ->
  len (w_queue w) <= WriterOptions_QueueCapacity (w_options w) -> len (w_batch w) < WriterOptions_BatchSize (w_options w) ->
  untouched (with_queues (wr_writer t) (w_queue w) (w_batch w)) w -> writer_ok (advance t w).
Proof.
  intros [Hf Hd Hq Hb Hu Hr _] Hn Hf' Hd' Hq' Hb' (Eo & _ & _ & Ec & En & Ee & Eu). cbn in Eo, Ec, En, Ee, Eu. split; cbn; try done.
  - by rewrite Eu.
  - intros _. rewrite Ee. by apply Hr.
  - congruence.
Qed.
Lemma Submit_ok t record : writer_ok t -> writer_ok (record_submission t record).
Proof.
  intros Hok. unfold record_submission, Submit. cbv zeta. destruct (w_closing (wr_writer t)) eqn:Ec; [done|].
  assert (w_done (wr_writer t) = true -> False) as Hnd by (intros E; apply (ok_done _ Hok) in E as (? & _); congruence).
  destruct Hok as [[Hv Hs Hd Hc Hr Hb He] Hdp Hq Hbt Hu Hrn _]. destruct (Apply _ record) as [sanitized|e]; cbn [fst snd].
  - destruct (Z.ltb_spec (len (w_queue (wr_writer t))) (WriterOptions_QueueCapacity (w_options (wr_writer t)))) as [Hl|Hl]; cbn [fst snd].
    + split; cbn; try done; [split; cbn; try done|].
      * rewrite !(assoc_L (++)) in *. by apply sublist_app.
      * rewrite Hd. f_equal. rewrite !len_app. unfold len. cbn [length]. lia.
      * rewrite len_app. unfold len at 2. cbn [length]. lia.
    + split; cbn; try done. rewrite Hu, wrap64_add. f_equal. lia.
  - split; cbn; try done. split; cbn; try done. rewrite Hd, wrap64_add. f_equal. lia.
Qed.
Lemma receive_ok t w : writer_ok t -> w_done (wr_writer t) = false -> run_receive (wr_writer t) = Some w -> writer_ok (advance t w).
Proof.
  intros Hok Hn Hw. pose proof Hok as [Hf Hd Hq Hb _ _ _]. unfold run_receive in Hw. destruct (w_queue (wr_writer t)) as [|r queue] eqn:Eq; [done|]. cbv zeta in Hw.
  rewrite (cons_middle r), (assoc_L (++)) in Hf. assert (len queue <= WriterOptions_QueueCapacity (w_options (wr_writer t))) as Hq' by (unfold len in *; cbn in Hq; lia).
  destruct (Z.leb_spec (WriterOptions_BatchSize (w_options (wr_writer t))) (len (w_batch (wr_writer t) ++ [r]))) as [Hl|Hl]; injection Hw as <-.
  - apply (with_queues_flows _ queue (w_batch (wr_writer t))) in Hf. destruct (flush_flows _ _ _ _ _ Hf Hd) as (Hf' & Hu & Hd').
    pose proof (limits_valid _ (flows_limits _ _ _ _ Hf)) as (_ & _ & _ & HB). pose proof Hu as (Eo & _ & _ & Ec & En & Ee & Eu). cbn in Eo, Ec, En, Ee, Eu.
    apply (writer_ok_running t); cbn; rewrite ?Eo; try done; [by apply with_queues_flows|].
    unfold len. cbn in *. lia.
  - apply (writer_ok_running t); cbn; try done. by apply with_queues_flows.
Qed.
Lemma flush_tick_ok t : writer_ok t -> w_done (wr_writer t) = false -> writer_ok (advance t (run_flush (wr_writer t))).
Proof.
  intros Hok Hn. pose proof Hok as [Hf Hd Hq Hb _ _ _]. unfold run_flush. destruct (len (w_batch (wr_writer t)) =? 0); [by apply writer_ok_running|].
  destruct (flush_flows _ _ _ _ _ Hf Hd) as (Hf' & Hu & Hd'). pose proof (limits_valid _ (flows_limits _ _ _ _ Hf)) as (_ & _ & _ & HB).
  pose proof Hu as (Eo & _ & _ & Ec & En & Ee & Eu). apply (writer_ok_running t); cbn; rewrite ?Eo; try done; [by apply with_queues_flows|].
  unfold len. cbn. lia.
Qed.
Lemma probe_tick_ok t : writer_ok t -> w_done (wr_writer t) = false -> writer_ok (advance t (probe (wr_writer t))).
Proof.
  intros Hok Hn. pose proof Hok as [Hf Hd Hq Hb _ _ _]. destruct (probe_flows _ _ _ _ Hf Hd) as (Hf' & Hu & Hd').
  pose proof Hu as (Eo & Eq & Eb & Ec & En & Ee & Eu). apply (writer_ok_running t); rewrite ?Eo, ?Eq, ?Eb; done.
Qed.
Lemma shutdown_ok t : writer_ok t -> w_done (wr_writer t) = false -> w_closing (wr_writer t) = true -> writer_ok (advance t (run_shutdown (wr_writer t))).
Proof.
  intros [Hf Hd Hq Hb Hu Hr _] Hn Hc. unfold run_shutdown. rewrite drain_all. cbv zeta.
  apply (with_queues_flows _ [] (w_batch (wr_writer t))) in Hf. destruct (probe_flows _ _ _ _ Hf Hd) as (Hf' & Hu' & Hd'). clear Hf.
  set (w := probe _) in *. clearbody w. pose proof (limits_valid _ (flows_limits _ _ _ _ Hf')) as (HQ & _ & _ & HB).
  set (batch := _ ++ _) in *. clearbody batch. rewrite <-(app_nil_r batch) in Hf'.
  assert (exists w', (if len batch =? 0 then w else flush w batch) = w' /\ flows w' [] (wr_accepted t) (wr_refused t) /\ untouched w w' /\ depths w') as (w' & -> & Hf & Hu'' & Hd'').
  { eexists. split; [done|]. destruct (Z.eqb_spec (len batch) 0) as [->%len_zero|]; [done|by apply flush_flows]. }
  pose proof (untouched_trans _ _ _ Hu' Hu'') as (Eo & _ & _ & Ec & En & Ee & Eu). cbn in Eo, Ec, En, Ee, Eu. clear Hu' Hu''.
  split; cbn.
  - by destruct Hf.
  - done.
  - unfold len. cbn. pose proof (limits_valid _ (flows_limits _ _ _ _ Hf)). lia.
  - unfold len. cbn. pose proof (limits_valid _ (flows_limits _ _ _ _ Hf)). lia.
  - by rewrite Eu.
  - done.
  - intros _. rewrite Ec, Ee, Hr by done. split_and!; try done. destruct (Z.eqb_spec (len (w_recent w')) 0) as [E%len_zero|E]; [by rewrite E|].
    split; [done|]. intros E'. by rewrite E' in E.
Qed.
Lemma writer_step_ok t t' : writer_ok t -> writer_step t t' -> writer_ok t'.
Proof.
  intros Hok [record|w Hn Hw|Hn|Hn| |Hn Hc].
  - by apply Submit_ok.
  - by apply receive_ok.
  - by apply flush_tick_ok.
  - by apply probe_tick_ok.
  - destruct Hok as [[] ? ? ? ? ? Hd]. split; cbn; try done. intros E. destruct (Hd E) as (_ & ?). done.
  - by apply shutdown_ok.
Qed.
Lemma writer_invariant t : writer_reachable t -> writer_ok t.
Proof.
  induction 1 as [b options w Hw|t t' _ IH Hs]; [|by apply (writer_step_ok t)]. unfold NewWriter in Hw. cbv zeta in Hw.
  destruct (writer_limits_invalid (writer_defaults options)) eqn:Ev; [done|]. injection Hw as <-.
  pose proof (limits_valid _ Ev) as (? & ? & ? & ?). split; cbn -[writer_defaults]; try done; [split; cbn -[writer_defaults]; try done| |]; unfold len; cbn -[writer_defaults]; try lia.
  split; [done|lia].
Qed.

(** C34: in every execution the records the store took, the buffered ones, the
    current batch and the queue, in this order, are accepted records in the
    order of their submission: nothing is stored twice, invented or reordered.
    Every other submission to a writer that is not closed is counted: the full
    queue's refusals in the queue drops, those of the redactor and of the full
    buffer in the store drops.  (A submission after [Close] is refused and
    counted nowhere.)  The queue, the batch and the buffer stay within their limits. *)
Theorem writer_conserves t : writer_reachable t ->
  let w := wr_writer t in
  let present := log t ++ w_recent w ++ w_batch w ++ w_queue w in
  present `sublist_of` wr_accepted t /\
  StoreDiagnostics_StoreDrops (Diagnostics w) = wrap64 (Z.of_nat (wr_refused t) + (len (wr_accepted t) - len present)) /\
  StoreDiagnostics_QueueDrops (Diagnostics w) = wrap64 (Z.of_nat (wr_full t)) /\
  StoreDiagnostics_QueueDepth (Diagnostics w) = len (w_queue w) /\ len (w_queue w) <= WriterOptions_QueueCapacity (w_options w) /\
  StoreDiagnostics_RecentDepth (Diagnostics w) = len (w_recent w) /\ len (w_recent w) <= WriterOptions_RecentCapacity (w_options w) /\
  StoreDiagnostics_RecentBytes (Diagnostics w) = to_int64 (total_size (w_recent w)) /\ to_int64 (total_size (w_recent w)) <= WriterOptions_RecentBytes (w_options w) /\
  len (w_batch w) < WriterOptions_BatchSize (w_options w) /\
  (StoreDiagnostics_CircuitOpen (Diagnostics w) = false -> w_recent w = []).
Proof.
  intros [[Hv Hs Hd Hc Hr [Hb Hb'] He] [Hdp Hdb] Hq Hbt Hu _ _]%writer_invariant. cbv zeta. unfold log. cbn -[total_size to_int64].
  split; [done|]. split; [rewrite Hd; f_equal; lia|]. rewrite Hdb, <-Hb. done.
Qed.
(** A writer that closed without an error and counted no store drop has
    stored exactly what it accepted; an error tells that records were left in
    the buffer. *)
Theorem clean_close_persists t : writer_reachable t -> w_done (wr_writer t) = true ->
  (w_closeErr (wr_writer t) = None <-> w_recent (wr_writer t) = []) /\
  (w_closeErr (wr_writer t) = None -> StoreDiagnostics_StoreDrops (Diagnostics (wr_writer t)) = 0 ->
   Z.of_nat (wr_refused t) + len (wr_accepted t) <= u64_max -> log t = wr_accepted t /\ wr_refused t = 0%nat).
Proof.
  intros [[_ Hs Hd _ _ _ _] _ _ _ _ _ Hdone]%writer_invariant Hn. destruct (Hdone Hn) as (_ & Eq & Eb & He). split; [done|].
  intros Hr%He Hz Hmax. unfold log in *. rewrite Hr, Eq, Eb, app_nil_r in *. cbn [app] in *. cbn in Hz. rewrite Hz in Hd.
  pose proof (sublist_length _ _ Hs) as Hlen. unfold len in *. rewrite wrap64_small in Hd by lia. split; [|lia].
  apply sublist_full; [done|lia].
Qed.

(** ** A circuit that does not close again *)
(** A store that, as [SQLite], takes batches of at most [maximumBatchSize]
    records. *)
Definition refuses_large : Prop := forall batch (b : B), maximumBatchSize < len batch -> exists e, AppendBatch batch b = (Some e, b).
Definition stuck w : Prop := StoreDiagnostics_CircuitOpen (w_diagnostics w) = true /\ maximumBatchSize < len (w_recent w).
Lemma buffer_stuck w records : stuck w -> stuck (buffer w records) /\ w_backend (buffer w records) = w_backend w.
Proof.
  intros Hs. unfold buffer. cbv zeta. change (stuck (fold_left buffer_record records w) /\ w_backend (fold_left buffer_record records w) = w_backend w).
  revert w Hs. induction records as [|r records IH]; intros w Hs; [done|]. cbn [fold_left].
  assert (stuck (buffer_record w r) /\ w_backend (buffer_record w r) = w_backend w) as [Hs' <-]; [|by apply IH].
  unfold buffer_record. cbv zeta. destruct (_ || _); [done|]. split; [|done]. destruct Hs as [Ho Hl]. split; [done|]. cbn. rewrite len_app. unfold len at 2. cbn. lia.
Qed.
Lemma flush_stuck w batch : stuck w -> stuck (flush w batch) /\ w_backend (flush w batch) = w_backend w.
Proof. intros Hs. unfold flush. rewrite (proj1 Hs). by apply buffer_stuck. Qed.
Lemma probe_stuck w : refuses_large -> stuck w -> stuck (probe w) /\ w_backend (probe w) = w_backend w.
Proof.
  intros Hlarge [Ho Hl]. unfold probe. rewrite Ho. cbn [negb orb]. destruct (_ =? 0); [done|]. unfold AppendBatch, logged_store.
  destruct (Hlarge _ (w_backend w).1 Hl) as [e ->]. split; [done|]. by destruct (w_backend w).
Qed.

Lemma stuck_step t t' : refuses_large -> stuck (wr_writer t) -> writer_step t t' -> stuck (wr_writer t') /\ w_backend (wr_writer t') = w_backend (wr_writer t).
Proof.
  intros Hlarge Hs [record|w Hn Hw|Hn|Hn| |Hn Hc]; cbn [wr_writer advance]; try done.
  - unfold record_submission, Submit. cbv zeta. destruct (w_closing (wr_writer t)); [done|]. destruct (Apply _ record); [|done]. by destruct (_ <? _).
  - unfold run_receive in Hw. destruct (w_queue (wr_writer t)) as [|r queue]; [done|]. cbv zeta in Hw. destruct (_ <=? _); injection Hw as <-; [|done].
    by apply (flush_stuck (with_queues (wr_writer t) queue (w_batch (wr_writer t)))).
  - unfold run_flush. destruct (_ =? 0); [done|]. by apply flush_stuck.
  - by apply probe_stuck.
  - unfold run_shutdown. cbv zeta. destruct (probe_stuck (with_queues (wr_writer t) [] (w_batch (wr_writer t))) Hlarge Hs) as [Hp Eb].
    cbn [w_backend with_queues] in Eb. set (w := probe _) in *. clearbody w.
    rewrite <-Eb. destruct (len (drain _ _) =? 0); [done|]. by apply (flush_stuck w).
Qed.
(** Once more than [maximumBatchSize] records wait in the buffer, no probe can
    close the circuit: nothing is stored any more, whatever happens. *)
Theorem circuit_never_closes t t' : refuses_large -> StoreDiagnostics_CircuitOpen (w_diagnostics (wr_writer t)) = true -> maximumBatchSize < len (w_recent (wr_writer t)) ->
  rtc writer_step t t' -> StoreDiagnostics_CircuitOpen (w_diagnostics (wr_writer t')) = true /\ log t' = log t.
Proof.
  intros Hlarge Ho Hl Hr. assert (stuck (wr_writer t') /\ w_backend (wr_writer t') = w_backend (wr_writer t)) as [[? _] E]; [|unfold log; by rewrite E].
  assert (stuck (wr_writer t)) as Hs by done. clear Ho Hl. induction Hr as [t|t t1 t' H1 _ IH]; [done|]. destruct (stuck_step _ _ Hlarge Hs H1) as [Hs' <-]. by apply IH.
Qed.
End Conservation.

(** ** A store that is down for its first calls *)
Module Outage.
#[export] Instance outage_store : BatchStore nat := fun batch down =>
  match down with
  | S down' => if maximumBatchSize <? len batch then (Some "batch exceeds 256 records", down) else (Some "database is locked", down')
  | O => if maximumBatchSize <? len batch then (Some "batch exceeds 256 records", O) else (None, O)
  end.
#[export] Instance outage_tables : UnicodeTables := ascii_tables.
Definition outage_record (id : string) : StoreRecord := mkStoreRecord id "kernel_event" "run-1" SourceKernelFact 5 7 1 2 "info" "" None "".
Definition outage_options : WriterOptions := mkWriterOptions 0 0 0 2 0 0 [].
Inductive action := ASubmit (id : string) | AReceive | AFlush | ARetry | AClose | AShutdown.
Definition act (t : Written nat) (a : action) : Written nat :=
  let w := wr_writer t in
  match a with
  | ASubmit id => record_submission t (outage_record id)
  | AReceive => if w_done w then t else match run_receive w with Some w => advance t w | None => t end
  | AFlush => if w_done w then t else advance t (run_flush w)
  | ARetry => if w_done w then t else advance t (probe w)
  | AClose => advance t (begin_close w)
  | AShutdown => if w_done w || negb (w_closing w) then t else advance t (run_shutdown w)
  end.
Lemma act_step t a : rtc writer_step t (act t a).
Proof.
  destruct a; cbn [act]; try (apply rtc_once; by constructor); try (destruct (w_done (wr_writer t)) eqn:E; [done|]).
  - destruct (run_receive (wr_writer t)) eqn:Er; [|done]. by apply rtc_once, step_receive.
  - by apply rtc_once, step_flush.
  - by apply rtc_once, step_retry.
  - destruct (w_closing (wr_writer t)) eqn:Ec; [|done]. by apply rtc_once, step_shutdown.
Qed.
Definition outage (down : nat) : Written nat :=
  match NewWriter (Some (down, [])) outage_options with
  | Ok w => mkWritten w [] 0 0
  | Err _ => mkWritten (mkWriter (down, []) outage_options [] [] false false [] 0 no_diagnostics None []) [] 0 0
  end.
Lemma outage_reachable down actions : writer_reachable (fold_left act actions (outage down)).
Proof.
  assert (writer_reachable (outage down)) as Hs by (unfold outage; apply (writer_start down outage_options); reflexivity).
  revert Hs. generalize (outage down). induction actions as [|a actions IH]; intros t Ht; [done|]. apply IH.
  induction (act_step t a) as [|t t1 t2 H1 _ IH2]; [done|]. apply IH2. by apply (writer_next t).
Qed.
(** Two records, an outage, and the probe that recovers. *)
Definition recovered : Written nat :=
  fold_left act [ASubmit "a"; ASubmit ""; ASubmit "b"; AReceive; AReceive; ARetry; ASubmit "c"; AReceive; AClose; ASubmit "d"; AShutdown] (outage 1).
Definition closed : Written nat :=
  fold_left act [ASubmit "a"; ASubmit "b"; AReceive; AReceive; ASubmit "c"; AClose; AShutdown] (outage 1).
(** A store down for one call while three hundred records arrive: the circuit
    stays open after it is back. *)
Definition backlog (n : nat) : list action := concat (replicate n [ASubmit "a"; AReceive]).
Definition swamped : Written nat := fold_left act (backlog 300) (outage 1).
End Outage.
Import Outage.
Lemma writer_conserves_witness :
  let t := Outage.recovered in
  Record_ID <$> log t = ["a"; "b"; "c"] /\ wr_refused t = 1%nat /\ StoreDiagnostics_StoreDrops (Diagnostics (wr_writer t)) = 1 /\ log t `sublist_of` wr_accepted t.
Proof.
  split; [vm_compute; reflexivity|]. split; [vm_compute; reflexivity|]. split; [vm_compute; reflexivity|].
  destruct (writer_conserves Outage.recovered (Outage.outage_reachable 1 _)) as [Hs _].
  replace (log Outage.recovered) with (log Outage.recovered ++ w_recent (wr_writer Outage.recovered) ++ w_batch (wr_writer Outage.recovered) ++ w_queue (wr_writer Outage.recovered)) by (vm_compute; reflexivity). exact Hs.
Defined.
Lemma clean_close_persists_witness :
  let t := Outage.closed in log t = wr_accepted t /\ wr_refused t = 0%nat.
Proof.
  destruct (clean_close_persists Outage.closed) as [_ Hc]; [apply Outage.outage_reachable|vm_compute; reflexivity|].
  apply Hc; [vm_compute; reflexivity..|vm_compute; discriminate].
Defined.
Lemma swamped_refuses : refuses_large (B := nat).
Proof. intros batch b Hl. unfold AppendBatch, Outage.outage_store. apply Z.ltb_lt in Hl. rewrite Hl. destruct b; eauto. Qed.
(** The outage is over, the next probes change nothing. *)
Theorem outage_is_permanent t' : rtc writer_step Outage.swamped t' -> (w_backend (wr_writer Outage.swamped)).1 = 0%nat /\
  StoreDiagnostics_CircuitOpen (w_diagnostics (wr_writer t')) = true /\ log t' = [].
Proof.
  intros Hr. split; [vm_compute; reflexivity|]. replace [] with (log Outage.swamped) by (vm_compute; reflexivity).
  apply circuit_never_closes; [exact swamped_refuses|vm_compute; reflexivity..|done].
Qed.
