(* ===== verification/Sqlite.v ===== *)
(** * The SQLite store ([internal/store/sqlite.go] and its cgo binding)

    [SQLite] writes the SQL text of each batch, prunes by capacity and reads
    payloads back.  The engine itself is [Sqlite3], the C functions the binding
    calls; what SQLite documents of the statements the store sends is
    [SqliteLaws], stated on readers of that SQL text.  The readers and the
    writers of the text are proved inverse, so the laws apply to what the code
    sends whatever the records contain. *)
From S2P Require Import Prelude GoStd GoTime Json Redact StoreRecord Writer.
Open Scope Z_scope.

(** ** The engine *)
(** [sqlite3_query]: the code of a failed prepare, or the first column of the
    rows the steps return and the code that ends them.  A C string ends at its
    first NUL byte. *)
Class Sqlite3 (H : Type) := {
  sqlite3_exec : string -> H -> Z * option string * H;
  sqlite3_errmsg : H -> string;
  sqlite3_query : string -> H -> result Z (list string * Z);
  sqlite3_column_int64 : string -> Z;
  sqlite3_close_v2 : H -> Z * H;
  file_size : string -> H -> option Z;
}.
Definition SQLITE_OK : Z := 0.
Definition SQLITE_ROW : Z := 100.
Definition SQLITE_DONE : Z := 101.
Fixpoint cstring (s : string) : string :=
  match s with
  | String c s' => if c == chr 0 then EmptyString else String c (cstring s')
  | EmptyString => EmptyString
  end.

(** ** The cgo binding ([native_cgo.go]) *)
Section Cgo.
Context {H : Type} `{Sqlite3 H}.
Definition cgo_Exec (statement : string) (h : H) : option string * H :=
  match sqlite3_exec (cstring statement) h with
  | (code, message, h') =>
      if code != SQLITE_OK
      then (Some ("SQLite exec (" +:+ FormatInt code +:+ "): " +:+ default (sqlite3_errmsg h') message), h')
      else (None, h')
  end.
Definition cgo_ScalarInt64 (query : string) (h : H) : result string Z :=
  match sqlite3_query (cstring query) h with
  | Err _ => Err ("prepare SQLite query: " +:+ sqlite3_errmsg h)
  | Ok ([], code) => Err ("step SQLite query: result " +:+ FormatInt code)
  | Ok (column :: _, _) => Ok (sqlite3_column_int64 column)
  end.
(** The handle is nil once it is closed. *)
Definition cgo_Close (handle : option H) : option string * option H :=
  match handle with
  | None => (None, None)
  | Some h =>
      match sqlite3_close_v2 h with
      | (code, h') => if code != SQLITE_OK then (Some ("close SQLite: result " +:+ FormatInt code), Some h') else (None, None)
      end
  end.
Fixpoint query_strings (rows : list string) (code : Z) (limit maxBytes : Z) (taken : list string) (total : Z) : result string (list string) :=
  if negb (len taken <? limit) then Ok taken
  else match rows with
  | [] => if code =? SQLITE_DONE then Ok taken else Err ("step SQLite evidence query: result " +:+ FormatInt code)
  | row :: rows =>
      let size := slen row in
      if (size <? 0) || (65536 <? size) then Err "SQLite evidence row exceeds limit"
      else if maxBytes <? total + size then Ok taken
      else query_strings rows code limit maxBytes (taken ++ [row]) (total + size)
  end.
Definition cgo_QueryStrings (query : string) (limit maxBytes : Z) (h : H) : result string (list string) :=
  match sqlite3_query (cstring query) h with
  | Err code => Err ("prepare SQLite evidence query: result " +:+ FormatInt code)
  | Ok (rows, code) => query_strings rows code limit maxBytes [] 0
  end.

(** ** The store *)
Record SQLite := mkSQLite {
  sq_database : option H;
  sq_path : string;
  sq_softLimit : Z;
  sq_hardLimit : Z;
}.
Definition set_database (store : SQLite) (d : option H) : SQLite := mkSQLite d (sq_path store) (sq_softLimit store) (sq_hardLimit store).
Inductive SQLiteError :=
  | BatchExceeds | DatabaseClosed | MeasureCapacity (e : string) | CheckpointWAL (e : string) | CountRecords (e : string) | PruneFailed (e : string)
  | HardCapacity | InvalidRecord (e : RecordError) | ExecFailed (e : string)
  | InvalidQuery | ContextError (e : string) | SQLiteUnavailable | QueryFailed (e : string) | InvalidStoredPayload.
Definition sqlQuote (value : string) : string := "'" +:+ ReplaceAll value "'" "''" +:+ "'".

Definition page_accounting : string := "SQLite returned invalid page accounting".
Definition usageLocked (store : SQLite) (h : H) : result string Z :=
  pageCount ← cgo_ScalarInt64 "PRAGMA page_count;" h;
  freePages ← cgo_ScalarInt64 "PRAGMA freelist_count;" h;
  pageSize ← cgo_ScalarInt64 "PRAGMA page_size;" h;
  _ ← guard_err ((pageCount <? 0) || (freePages <? 0) || (pageCount <? freePages) || (pageSize <? 1)) page_accounting;
  Ok (fold_left (fun total path => match file_size path h with Some size => to_int64 (total + size) | None => total end)
        [sq_path store +:+ "-wal"; sq_path store +:+ "-shm"] (to_int64 ((pageCount - freePages) * pageSize))).
Definition checkpoint_statement : string := "PRAGMA wal_checkpoint(TRUNCATE);".
Definition delete_head : string := "DELETE FROM evidence_records WHERE id IN (
SELECT id FROM evidence_records ORDER BY
CASE severity WHEN 'critical' THEN 3 WHEN 'high' THEN 2 ELSE 1 END ASC,
CAST(server_monotonic_ns AS INTEGER) ASC LIMIT ".
Definition delete_statement (deleteCount : Z) : string := delete_head +:+ FormatInt deleteCount +:+ ");".
Definition delete_count (usage soft count : Z) : Z :=
  let averageBytes := Z.max 1 (Z.quot usage count) in
  let deleteCount := Z.quot (to_int64 (usage - soft + averageBytes - 1)) averageBytes in
  Z.min (Z.max 1 deleteCount) (Z.min count 256).
(** What is left of the handle comes back with the error. *)
Definition exec_step (statement : string) (wrap : string -> SQLiteError) : stateM H SQLiteError unit := fun h =>
  match cgo_Exec statement h with
  | (Some e, h') => (h', Err (wrap e))
  | (None, h') => (h', Ok tt)
  end.
Definition lift {A} (r : result string A) (wrap : string -> SQLiteError) (h : H) : H * result SQLiteError A :=
  (h, match r with Ok x => Ok x | Err e => Err (wrap e) end).
Definition measure (store : SQLite) : stateM H SQLiteError Z := fun h => lift (usageLocked store h) MeasureCapacity h.
Definition count_records : stateM H SQLiteError Z := fun h => lift (cgo_ScalarInt64 "SELECT count(*) FROM evidence_records;" h) CountRecords h.
Fixpoint prune_attempts (store : SQLite) (attempts : nat) : stateM H SQLiteError bool :=
  match attempts with
  | O => mret false
  | S attempts =>
      usage ← measure store;
      if usage <=? sq_softLimit store then mret true
      else
        count ← count_records;
        if count =? 0 then mret false
        else
          _ ← exec_step (delete_statement (delete_count usage (sq_softLimit store) count)) PruneFailed;
          _ ← exec_step checkpoint_statement CheckpointWAL;
          prune_attempts store attempts
  end.
Definition pruneLocked (store : SQLite) : stateM H SQLiteError unit :=
  _ ← exec_step checkpoint_statement CheckpointWAL;
  prune_attempts store 20 ≫= fun within : bool =>
  if within then mret tt
  else
    usage ← measure store;
    if sq_hardLimit store <? usage then raise HardCapacity else mret tt.

Definition record_row (r : StoreRecord) : list string :=
  [Record_ID r; Record_RecordType r; Record_RunID r; Record_Source r; FormatUint (Record_ServerMonotonicNS r); FormatUint (Record_ServerUnixNS r);
   FormatUint (Record_InstanceID r); FormatUint (Record_ScopeCookie r); Record_Severity r; Record_Summary r; labelsJSON (Record_Labels r); Record_Payload r].
Definition insert_statement (row : list string) : string :=
  "INSERT INTO evidence_records VALUES(" +:+ Join (map sqlQuote row) "," +:+ ") ON CONFLICT(id) DO NOTHING;".
Definition write_record (statement : string) (r : StoreRecord) : result SQLiteError string :=
  match validate r with
  | Err e => Err (InvalidRecord e)
  | Ok _ => Ok (statement +:+ insert_statement (record_row r))
  end.
Definition append_statement (records : list StoreRecord) : result SQLiteError string :=
  statement ← foldM write_record "BEGIN IMMEDIATE;" records;
  Ok (statement +:+ "COMMIT;").
Definition batch_statement (records : list StoreRecord) : stateM H SQLiteError string := fun h => (h, append_statement records).
Definition exec_or_rollback (statement : string) : stateM H SQLiteError unit := fun h =>
  match cgo_Exec statement h with
  | (Some e, h') => ((cgo_Exec "ROLLBACK;" h').2, Err (ExecFailed e))
  | (None, h') => (h', Ok tt)
  end.
(** What follows a stored batch: the outcome of the pruning is not reported. *)
Definition maintain (store : SQLite) : stateM H SQLiteError unit := fun h =>
  match usageLocked store h with
  | Ok usage => if sq_softLimit store <? usage then ((pruneLocked store h).1, Ok tt) else (h, Ok tt)
  | Err _ => (h, Ok tt)
  end.
(** [AppendBatch] below the lock. *)
Definition append_locked (store : SQLite) (records : list StoreRecord) : stateM H SQLiteError unit :=
  usage ← measure store;
  _ ← (if sq_softLimit store <? usage then pruneLocked store else mret tt);
  statement ← batch_statement records;
  _ ← exec_or_rollback statement;
  maintain store.
Definition SQLite_AppendBatch (store : SQLite) (records : list StoreRecord) : SQLite * result SQLiteError unit :=
  if len records =? 0 then (store, Ok tt)
  else if maximumBatchSize <? len records then (store, Err BatchExceeds)
  else match sq_database store with
  | None => (store, Err DatabaseClosed)
  | Some h => let '(h', r) := append_locked store records h in (set_database store (Some h'), r)
  end.
Definition Count (store : SQLite) : result SQLiteError Z :=
  match sq_database store with
  | None => Err DatabaseClosed
  | Some h => match cgo_ScalarInt64 "SELECT count(*) FROM evidence_records;" h with Ok n => Ok n | Err e => Err (CountRecords e) end
  end.

Definition payload_query (runID : string) (limit : Z) : string :=
  "SELECT payload_json FROM evidence_records WHERE run_id=" +:+ sqlQuote runID +:+
  " AND payload_json<>'' ORDER BY length(server_monotonic_ns) DESC,server_monotonic_ns DESC,id DESC LIMIT " +:+ FormatInt limit +:+ ";".
(** [ctx]: [None] is nil, [Some errs] gives the outcomes of the successive calls
    of [ctx.Err()], [None] after the last. *)
Definition ctx_err (errs : list (option string)) (i : nat) : option string := default None (errs !! i).
Fixpoint check_rows (errs : list (option string)) (i : nat) (rows : list string) : result SQLiteError (list string) :=
  match rows with
  | [] => Ok []
  | row :: rows =>
      match ctx_err errs i with
      | Some e => Err (ContextError e)
      | None => if negb (Valid row) then Err InvalidStoredPayload else rest ← check_rows errs (S i) rows; Ok (row :: rest)
      end
  end.
Definition ReadPayloads (store : SQLite) (ctx : option (list (option string))) (runID : string) (limit maxBytes : Z) : result SQLiteError (list string) :=
  match ctx with
  | None => Err InvalidQuery
  | Some errs =>
      if (runID == "") || (128 <? slen runID) || (limit <? 1) || (1000 <? limit) || (maxBytes <? 65536) || (4194304 <? maxBytes) then Err InvalidQuery
      else match ctx_err errs 0 with
      | Some e => Err (ContextError e)
      | None =>
          match sq_database store with
          | None => Err SQLiteUnavailable
          | Some h =>
              match cgo_QueryStrings (payload_query runID limit) limit maxBytes h with
              | Err e => Err (QueryFailed e)
              | Ok rows => check_rows errs 1 rows
              end
          end
      end
  end.
(** [Close]: the errors it joins, maintenance first. *)
Definition SQLite_Close (store : SQLite) : SQLite * list SQLiteError :=
  match sq_database store with
  | None => (store, [])
  | Some h =>
      let '(h, maintenance) :=
        match usageLocked store h with
        | Err e => (h, [MeasureCapacity e])
        | Ok usage => if sq_softLimit store <? usage then (let '(h', r) := pruneLocked store h in (h', match r with Err e => [e] | Ok _ => [] end)) else (h, [])
        end in
      let h := (cgo_Exec checkpoint_statement h).2 in
      (set_database store None, maintenance ++ match (cgo_Close (Some h)).1 with Some e => [ExecFailed e] | None => [] end)
  end.
End Cgo.
Arguments SQLite : clear implicits.

(** ** Reading the SQL text *)
Definition cut_text (word s : string) : option string := if HasPrefix s word then Some (str_drop (String.length word) s) else None.
Definition squote : ascii := "'"%char.
(** A string literal after its opening quote: a quote inside is doubled. *)
Fixpoint literal_body (s : string) : option (string * string) :=
  match s with
  | EmptyString => None
  | String c s' =>
      if c == squote
      then match s' with
           | String d s'' => if d == squote then match literal_body s'' with Some (v, rest) => Some (String squote v, rest) | None => None end else Some (EmptyString, s')
           | EmptyString => Some (EmptyString, EmptyString)
           end
      else match literal_body s' with Some (v, rest) => Some (String c v, rest) | None => None end
  end.
Definition read_literal (s : string) : option (string * string) := cut_text "'" s ≫= literal_body.
Fixpoint read_values (fuel : nat) (s : string) : option (list string * string) :=
  match fuel with
  | O => None
  | S f =>
      '(v, rest) ← read_literal s;
      match cut_text "," rest with
      | Some rest' => '(vs, rest'') ← read_values f rest'; Some (v :: vs, rest'')
      | None => rest' ← cut_text ")" rest; Some ([v], rest')
      end
  end.
Definition read_insert (s : string) : option (list string * string) :=
  s ← cut_text "INSERT INTO evidence_records VALUES(" s;
  '(row, s) ← read_values (String.length s) s;
  s ← cut_text " ON CONFLICT(id) DO NOTHING;" s;
  Some (row, s).
Fixpoint read_inserts (fuel : nat) (s : string) : option (list (list string)) :=
  if s == "COMMIT;" then Some []
  else match fuel with
  | O => None
  | S f => '(row, s) ← read_insert s; rows ← read_inserts f s; Some (row :: rows)
  end.
(** A transaction of inserts; a deletion by capacity; a query of payloads. *)
Definition read_script (s : string) : option (list (list string)) := s ← cut_text "BEGIN IMMEDIATE;" s; read_inserts (String.length s) s.
Definition read_delete (s : string) : option Z := 
  s ← cut_text delete_head s; let (n, rest) := span_digits s in if rest == ");" then ParseUint n else None.
Definition read_select (s : string) : option (string * Z) :=
  s ← cut_text "SELECT payload_json FROM evidence_records WHERE run_id=" s;
  '(run, s) ← read_literal s;
  s ← cut_text " AND payload_json<>'' ORDER BY length(server_monotonic_ns) DESC,server_monotonic_ns DESC,id DESC LIMIT " s;
  let (n, rest) := span_digits s in
  limit ← ParseUint n;
  if rest == ";" then Some (run, limit) else None.

(** ** What the statements mean *)
Definition Row : Type := list string.
Definition column (i : nat) (row : Row) : string := default "" (row !! i).
Definition row_ok (row : Row) : Prop := exists v, 0 <= v <= u64_max /\ column 4 row = FormatUint v.
(** [ON CONFLICT(id) DO NOTHING]. *)
Definition insert_new (table : list Row) (row : Row) : list Row :=
  if existsb (fun other => column 0 other == column 0 row) table then table else table ++ [row].
(** The order of the deletion: a cast to INTEGER saturates. *)
Definition severity_rank (severity : string) : Z := if severity == "critical" then 3 else if severity == "high" then 2 else 1.
Definition cast_integer (text : string) : Z := Z.min i64_max (default 0 (ParseUint text)).
Definition prune_before (a b : Row) : Prop :=
  severity_rank (column 8 a) < severity_rank (column 8 b) \/
  severity_rank (column 8 a) = severity_rank (column 8 b) /\ cast_integer (column 4 a) <= cast_integer (column 4 b).
(** The order of the query: by length, then by bytes, then by id, all
    descending. *)
Definition text_before (a b : Row) : bool :=
  let la := slen (column 4 a) in let lb := slen (column 4 b) in
  (lb <? la) || ((la =? lb) && (str_lt (column 4 b) (column 4 a) || ((column 4 a == column 4 b) && str_lt (column 0 b) (column 0 a)))).
Definition selected (run : string) (limit : Z) (table : list Row) : list string :=
  take (Z.to_nat limit) (map (column 11) (sort_by text_before (List.filter (fun row => (column 2 row == run) && (column 11 row != "")) table))).

(** The documented behaviour of the engine on these statements: a successful
    transaction of inserts adds the new rows; a failed one followed by
    [ROLLBACK] leaves no trace; a deletion takes the least rows; checkpoints do
    not touch the table; the query returns the selected rows in order; and the
    count is the number of rows. *)
Class SqliteLaws (H : Type) `{Sqlite3 H} := {
  table : H -> list Row;
  sqlite_insert s rows h m h' : read_script s = Some rows -> sqlite3_exec s h = (SQLITE_OK, m, h') -> table h' = fold_left insert_new rows (table h);
  sqlite_rollback s rows h code m h1 : read_script s = Some rows -> sqlite3_exec s h = (code, m, h1) -> code <> SQLITE_OK ->
    table (sqlite3_exec "ROLLBACK;" h1).2 = table h;
  sqlite_delete s n h m h' : read_delete s = Some n -> 0 <= n -> Forall row_ok (table h) -> sqlite3_exec s h = (SQLITE_OK, m, h') ->
    exists deleted, table h ≡ₚ deleted ++ table h' /\ len deleted = Z.min n (len (table h)) /\ forall d k, d ∈ deleted -> k ∈ table h' -> prune_before d k;
  sqlite_delete_failed s n h code m h' : read_delete s = Some n -> sqlite3_exec s h = (code, m, h') -> code <> SQLITE_OK -> table h' = table h;
  sqlite_checkpoint h : table (sqlite3_exec checkpoint_statement h).2 = table h;
  sqlite_select s run limit h rows code : read_select s = Some (run, limit) -> sqlite3_query s h = Ok (rows, code) ->
    rows `prefix_of` selected run limit (table h) /\ (code = SQLITE_DONE -> rows = selected run limit (table h));
  sqlite_count h c cs code : sqlite3_query "SELECT count(*) FROM evidence_records;" h = Ok (c :: cs, code) -> sqlite3_column_int64 c = len (table h);
}.

(** ** The text reads back *)
Lemma cut_text_app word s : cut_text word (word +:+ s) = Some s.
Proof. unfold cut_text. assert (HasPrefix (word +:+ s) word = true) as -> by (apply HasPrefix_app; eauto). by rewrite str_drop_app. Qed.
Lemma cut_text_other c d s : c <> d -> cut_text (String c "") (String d s) = None.
Proof. intros Hn. unfold cut_text. rewrite HasPrefix_char, bool_decide_eq_false_2; [done|congruence]. Qed.
Fixpoint doubled (v : string) : string :=
  match v with
  | String c v' => if c == squote then String squote (String squote (doubled v')) else String c (doubled v')
  | EmptyString => EmptyString
  end.
Lemma ReplaceAll_doubled v : ReplaceAll v "'" "''" = doubled v.
Proof.
  unfold ReplaceAll. induction v as [|c v IH]; [done|]. cbn [String.length replace_all doubled]. rewrite HasPrefix_char. unfold squote.
  destruct (bool_decide_reflect (c = "'"%char)) as [->|]; [|by rewrite IH]. cbn [str_drop String.length]. by rewrite IH.
Qed.
Definition not_quoted (s : string) : Prop := match s with String c _ => c <> squote | EmptyString => True end.
Lemma literal_body_doubled v rest : not_quoted rest -> literal_body (doubled v +:+ String squote rest) = Some (v, rest).
Proof.
  intros Hr. induction v as [|c v IH].
  - cbn [doubled]. rewrite str_app_nil_l. cbn [literal_body]. rewrite bool_decide_eq_true_2 by done.
    destruct rest as [|c rest]; [done|]. cbn in Hr. by rewrite bool_decide_eq_false_2.
  - cbn [doubled]. destruct (bool_decide_reflect (c = squote)) as [->|Hc]; rewrite !str_app_cons; cbn [literal_body].
    + by rewrite !bool_decide_eq_true_2, IH.
    + by rewrite bool_decide_eq_false_2, IH.
Qed.
Lemma read_literal_quote v rest : not_quoted rest -> read_literal (sqlQuote v +:+ rest) = Some (v, rest).
Proof.
  intros Hr. unfold read_literal, sqlQuote. rewrite <-!str_app_assoc, cut_text_app. cbn [mbind option_bind]. rewrite ReplaceAll_doubled.
  by apply literal_body_doubled.
Qed.
Lemma read_values_join vs : forall fuel rest, (length vs <= fuel)%nat -> vs <> [] ->
  read_values fuel (Join (map sqlQuote vs) "," +:+ ")" +:+ rest) = Some (vs, rest).
Proof.
  induction vs as [|v vs IH]; intros [|fuel] rest Hf Hn; cbn in Hf; try done; try lia. cbn [read_values]. destruct vs as [|v' vs'].
  - cbn [map Join]. rewrite read_literal_quote by done. cbn [mbind option_bind].
    assert (cut_text "," (")" +:+ rest) = None) as -> by (by apply cut_text_other). by rewrite cut_text_app.
  - change (Join (map sqlQuote (v :: v' :: vs')) ",") with (sqlQuote v +:+ "," +:+ Join (map sqlQuote (v' :: vs')) ","). rewrite <-!str_app_assoc.
    rewrite read_literal_quote by done. cbn [mbind option_bind]. rewrite cut_text_app. rewrite IH; [done|cbn in *; lia|done].
Qed.
Lemma Join_length vs : (length vs <= String.length (Join (map sqlQuote vs) "," +:+ ")"))%nat.
Proof.
  rewrite str_length_app. induction vs as [|v [|v' vs] IH]; [cbn; lia|cbn [map Join]; unfold sqlQuote; rewrite !str_length_app; cbn; lia|].
  change (Join (map sqlQuote (v :: v' :: vs)) ",") with (sqlQuote v +:+ "," +:+ Join (map sqlQuote (v' :: vs)) ","). rewrite !str_length_app. change (String.length ",") with 1%nat. cbn [length] in *. lia.
Qed.
Lemma read_insert_statement row rest : row <> [] -> read_insert (insert_statement row +:+ rest) = Some (row, rest).
Proof.
  intros Hn. unfold read_insert, insert_statement. rewrite <-!str_app_assoc, cut_text_app. cbn [mbind option_bind].
  change (") ON CONFLICT(id) DO NOTHING;" +:+ rest) with (")" +:+ " ON CONFLICT(id) DO NOTHING;" +:+ rest). rewrite read_values_join; [|..|done].
  - cbn [mbind option_bind]. by rewrite cut_text_app.
  - etrans; [apply Join_length|]. rewrite !str_length_app. lia.
Qed.
Definition script (rows : list Row) : string := "BEGIN IMMEDIATE;" +:+ foldr (fun row s => insert_statement row +:+ s) "COMMIT;" rows.
Lemma read_script_rows rows : Forall (fun row => row <> []) rows -> read_script (script rows) = Some rows.
Proof.
  intros Hn. unfold read_script, script. rewrite cut_text_app. cbn [mbind option_bind].
  set (text := foldr _ _ _). assert (length rows <= String.length text)%nat as Hl.
  { subst text. clear Hn. induction rows as [|row rows IH]; cbn [foldr length]; [lia|]. rewrite str_length_app. unfold insert_statement at 1. rewrite str_length_app. cbn. lia. }
  revert Hl. generalize (String.length text) as fuel. subst text. induction Hn as [|row rows Hr _ IH]; intros [|fuel] Hf; cbn [length] in Hf; try done; try lia.
  cbn [foldr read_inserts]. rewrite bool_decide_eq_false_2 by (unfold insert_statement; by rewrite <-str_app_assoc). rewrite read_insert_statement by done. cbn [mbind option_bind].
  rewrite IH by lia. done.
Qed.
Lemma append_statement_script records s : append_statement records = Ok s ->
  s = script (record_row <$> records) /\ Forall (fun r => validate r = Ok tt) records.
Proof.
  unfold append_statement, script. generalize "BEGIN IMMEDIATE;". induction records as [|r records IH]; intros start.
  - cbn. intros [= <-]. done.
  - cbn [foldM]. unfold write_record at 2. destruct (validate r) as [[]|e] eqn:Ev; [|done]. cbn [mbind result_bind]. intros Hs. apply IH in Hs as [-> Hv].
    split; [|by constructor]. cbn [fmap list_fmap foldr]. by rewrite <-str_app_assoc.
Qed.
Lemma FormatUint_span z rest : no_digit rest -> span_digits (FormatUint z +:+ rest) = (FormatUint z, rest).
Proof. intros Hr. destruct (span_digits_again (FormatUint z) (FormatUint z) "") as [_ H]; [apply span_digits_all, FormatUint_digits|by apply H]. Qed.
Lemma FormatInt_nonneg z : 0 <= z -> FormatInt z = FormatUint z.
Proof. intros Hz. unfold FormatInt. by destruct (Z.ltb_spec z 0); [lia|]. Qed.
Lemma read_delete_statement n : 0 <= n <= u64_max -> read_delete (delete_statement n) = Some n.
Proof.
  intros Hn. unfold read_delete, delete_statement. rewrite cut_text_app. cbn [mbind option_bind]. rewrite FormatInt_nonneg, FormatUint_span by (lia || done).
  cbn -[FormatUint ParseUint u64_max]. by apply ParseUint_FormatUint.
Qed.
Lemma read_payload_query run limit : 0 <= limit <= u64_max -> read_select (payload_query run limit) = Some (run, limit).
Proof.
  intros Hn. unfold read_select, payload_query. rewrite cut_text_app. cbn [mbind option_bind]. rewrite read_literal_quote by done. cbn [mbind option_bind].
  rewrite cut_text_app. cbn [mbind option_bind]. rewrite FormatInt_nonneg, FormatUint_span by (lia || done). rewrite ParseUint_FormatUint by done. done.
Qed.

(** ** No NUL byte cuts the text short *)
Definition nul_free (s : string) : Prop := str_forall (fun c => c != chr 0) s = true.
Lemma cstring_nul_free s : nul_free s -> cstring s = s.
Proof.
  unfold nul_free. induction s as [|c s IH]; [done|]. cbn [str_forall cstring]. intros [Hc Hs]%andb_true_iff. apply negb_true_iff in Hc. rewrite Hc. by rewrite IH.
Qed.
Lemma nul_free_app s t : nul_free s -> nul_free t -> nul_free (s +:+ t).
Proof. unfold nul_free. intros Hs Ht. by rewrite str_forall_app, Hs, Ht. Qed.
Lemma nul_free_join l sep : nul_free sep -> Forall nul_free l -> nul_free (Join l sep).
Proof.
  intros Hsep. induction 1 as [|x [|y l] Hx Hl IH]; [done|done|]. change (Join (x :: y :: l) sep) with (x +:+ sep +:+ Join (y :: l) sep).
  apply nul_free_app; [done|]. by apply nul_free_app.
Qed.
Lemma nul_free_quote v : nul_free v -> nul_free (sqlQuote v).
Proof.
  intros Hv. unfold sqlQuote. rewrite ReplaceAll_doubled. apply nul_free_app; [done|]. apply nul_free_app; [|done]. revert Hv. unfold nul_free. induction v as [|c v IH]; [done|].
  cbn [str_forall doubled]. intros [Hc Hv]%andb_true_iff. destruct (bool_decide_reflect (c = squote)) as [->|]; cbn [str_forall]; by rewrite ?Hc, IH.
Qed.
Lemma nul_free_script rows : Forall (Forall nul_free) rows -> nul_free (script rows).
Proof.
  intros Hr. unfold script. apply nul_free_app; [done|]. induction Hr as [|row rows Hrow _ IH]; [done|]. cbn [foldr]. apply nul_free_app; [|done].
  unfold insert_statement. apply nul_free_app; [done|]. apply nul_free_app; [|done]. apply nul_free_join; [done|]. apply Forall_map. eapply Forall_impl; [exact Hrow|]. apply nul_free_quote.
Qed.
Lemma nul_free_digits s : str_forall is_digit s = true -> nul_free s.
Proof.
  unfold nul_free. induction s as [|c s IH]; [done|]. cbn [str_forall]. intros [Hc Hs]%andb_true_iff. rewrite IH by done. rewrite bool_decide_eq_false_2; [done|]. by intros ->.
Qed.
Lemma nul_free_FormatUint z : nul_free (FormatUint z).
Proof. apply nul_free_digits, FormatUint_digits. Qed.
Lemma nul_free_delete n : 0 <= n -> nul_free (delete_statement n).
Proof. intros Hn. unfold delete_statement. rewrite FormatInt_nonneg by done. repeat apply nul_free_app; try done. apply nul_free_FormatUint. Qed.
Lemma nul_free_query run limit : nul_free run -> 0 <= limit -> nul_free (payload_query run limit).
Proof.
  intros Hr Hn. unfold payload_query. rewrite FormatInt_nonneg by done. apply nul_free_quote in Hr.
  repeat (apply nul_free_app; [done|]). apply nul_free_app; [apply nul_free_FormatUint|done].
Qed.
(** What [Marshal] prints. *)
Lemma nul_free_bytes l : Forall (fun b => 0 < b < 256) l -> nul_free (bytes_to_string l).
Proof.
  unfold nul_free. induction 1 as [|b l Hb _ IH]; [done|]. change (bytes_to_string (b :: l)) with (String (chr b) (bytes_to_string l)). cbn [str_forall]. rewrite IH.
  rewrite bool_decide_eq_false_2; [done|]. intros E. apply (f_equal Ascii.N_of_ascii) in E. unfold chr in E. rewrite !Ascii.N_ascii_embedding in E; lia.
Qed.
Lemma nul_free_concat l : Forall nul_free l -> nul_free (String.concat "" l).
Proof.
  induction 1 as [|x [|y l] Hx Hl IH]; [done|done|]. change (String.concat "" (x :: y :: l)) with (x +:+ "" +:+ String.concat "" (y :: l)). apply nul_free_app; [done|].
  by rewrite str_app_nil_l.
Qed.
Lemma encode_rune_positive r : scalar r -> 1 <= r -> Forall (fun b => 0 < b < 256) (encode_rune r).
Proof.
  intros [Hr Hs] Hp. unfold is_surrogate, in_range in Hs. unfold encode_rune. assert (forall x, 0 <= x mod 64 < 64) by (intros x; apply Z.mod_pos_bound; lia).
  unfold in_range in *. rewrite !andb_false_iff, !Z.leb_gt in Hs.
  repeat match goal with |- context [if ?b then _ else _] => destruct b eqn:? end; repeat constructor; cbv zeta; rewrite ?andb_true_iff, ?Z.leb_le in *; try lia; try divmod.
Qed.
Lemma nul_free_hex r : nul_free (unicode_escape r).
Proof.
  unfold unicode_escape. apply (nul_free_app "\u"); [done|]. apply nul_free_bytes. apply Forall_map. apply Forall_forall. intros k _.
  assert (0 <= Z.land (Z.shiftr r k) 15 < 16) as Hb by (change 15 with (Z.ones 4); rewrite Z.land_ones by lia; apply Z.mod_pos_bound; lia).
  generalize dependent (Z.land (Z.shiftr r k) 15). intros z Hz. unfold hex_nibble, byte_val, chr. destruct (Z.ltb_spec z 10); rewrite Ascii.N_ascii_embedding; lia.
Qed.
Lemma nul_free_json_string s : nul_free (json_string s).
Proof.
  unfold json_string, quoted. apply nul_free_app; [done|]. apply nul_free_app; [|done]. apply nul_free_concat, Forall_map. eapply Forall_impl; [apply runes_scalar|].
  intros [r w] Hr. cbn [fst snd] in *. unfold escape_rune. repeat (case_match; [solve [done | apply nul_free_hex]|]).
  apply nul_free_bytes, encode_rune_positive; [done|]. rewrite !orb_false_iff in *. lia.
Qed.
Lemma span_digits_nul_free s ds r : span_digits s = (ds, r) -> nul_free ds.
Proof.
  intros E. apply nul_free_digits. revert ds E. induction s as [|c s IH]; intros ds; cbn [span_digits]; [by intros [= <- <-]|]. destruct (is_digit c) eqn:Ec; [|by intros [= <- <-]].
  destruct (span_digits s) as [d r0]. intros [= <- <-]. cbn [str_forall]. by rewrite Ec, IH.
Qed.
Lemma nul_free_integer s int rest : scan_integer s = Some (int, rest) -> nul_free int.
Proof.
  unfold scan_integer. destruct s as [|c s]; [done|]. destruct (c == _); [by intros [= <- <-]|]. destruct (is_digit c); [|done].
  intros E%(inj Some). by eapply span_digits_nul_free.
Qed.
Lemma nul_free_fraction s frac rest : scan_fraction s = Some (frac, rest) -> nul_free frac.
Proof.
  unfold scan_fraction. destruct s as [|d s]; [by intros [= <- <-]|]. destruct (bool_decide_reflect (d = "."%char)) as [->|]; [|by intros [= <- <-]].
  destruct (span_digits s) as [ds r] eqn:E. apply span_digits_nul_free in E. destruct ds; [done|]. intros [= <- <-]. by apply (nul_free_app ".").
Qed.
Lemma nul_free_exponent s ex rest : scan_exponent s = Some (ex, rest) -> nul_free ex.
Proof.
  unfold scan_exponent. destruct s as [|d s]; [by intros [= <- <-]|]. destruct (_ || _) eqn:Ed; [|by intros [= <- <-]].
  destruct (scan_sign s) as [sign s'] eqn:Es. assert (nul_free sign) as Hs.
  { unfold scan_sign in Es. destruct s as [|x s]; [by injection Es as <- <-|]. destruct (_ || _) eqn:Ex in Es; injection Es as <- <-; [|done].
    apply orb_true_iff in Ex as [->%bool_decide_eq_true| ->%bool_decide_eq_true]; done. }
  destruct (span_digits s') as [ds r] eqn:E. apply span_digits_nul_free in E. destruct ds; [done|]. intros [= <- <-].
  apply (nul_free_app (String d "")); [|by apply nul_free_app]. apply orb_true_iff in Ed as [->%bool_decide_eq_true| ->%bool_decide_eq_true]; done.
Qed.
Lemma nul_free_number s lit rest : scan_number s = Some (lit, rest) -> nul_free lit.
Proof.
  unfold scan_number. set (m := match s with String _ _ => _ | _ => _ end). assert (nul_free m.1) as Hm by (subst m; destruct s as [|c s]; [done|by destruct (c == _)]).
  destruct m as [minus s1]. cbn [fst] in Hm. destruct (scan_integer s1) as [[int s2]|] eqn:Ei; [|done]. destruct (scan_fraction s2) as [[frac s3]|] eqn:Ef; [|done].
  destruct (scan_exponent s3) as [[ex s4]|] eqn:Ee; [|done]. intros [= <- <-]. apply nul_free_integer in Ei. apply nul_free_fraction in Ef. apply nul_free_exponent in Ee.
  by repeat apply nul_free_app.
Qed.
Lemma nul_free_Marshal v : printable v = true -> nul_free (Marshal v).
Proof.
  induction v as [| b |s| s |l IH|fields IH] using json_induction; cbn [printable Marshal]; intros Hp; [done|by destruct b|by apply bool_decide_eq_true, nul_free_number in Hp|apply nul_free_json_string|..].
  - apply (nul_free_app "["); [done|]. apply nul_free_app; [|done]. apply nul_free_join; [done|]. apply Forall_map. rewrite forallb_forall in Hp. rewrite Forall_forall in IH |- *.
    intros x Hx. apply IH; [done|]. by apply Hp, list_elem_of_In.
  - apply (nul_free_app "{"); [done|]. apply nul_free_app; [|done]. apply nul_free_join; [done|]. apply Forall_map. rewrite forallb_forall in Hp. rewrite Forall_forall in IH |- *.
    intros x Hx. apply nul_free_app; [apply nul_free_json_string|]. apply nul_free_app; [done|]. apply IH; [done|]. by apply Hp, list_elem_of_In.
Qed.

(** ** Pruning *)
Section Spec.
Context {H : Type} `{SqliteLaws H}.
Implicit Types (h : H) (store : SQLite H).
(** [t'] is [t] without rows that none of the kept ones precedes, at most
    [bound] of them. *)
Definition pruned (bound : Z) (t t' : list Row) : Prop :=
  exists deleted, t ≡ₚ deleted ++ t' /\ len deleted <= bound /\ forall d k, d ∈ deleted -> k ∈ t' -> prune_before d k.
Lemma pruned_refl t : pruned 0 t t.
Proof. exists []. split_and!; [done|done|]. intros d k Hd. by apply elem_of_nil in Hd. Qed.
Lemma pruned_weaken n n' t t' : n <= n' -> pruned n t t' -> pruned n' t t'.
Proof. intros Hn (deleted & Hp & Hl & Hk). exists deleted. split_and!; [done|lia|done]. Qed.
Lemma pruned_trans n n' t t' t'' : pruned n t t' -> pruned n' t' t'' -> pruned (n + n') t t''.
Proof.
  intros (d1 & Hp1 & Hl1 & Hk1) (d2 & Hp2 & Hl2 & Hk2). exists (d1 ++ d2). split_and!; [by rewrite Hp1, Hp2, (assoc_L (++))|rewrite len_app; lia|].
  intros d k [Hd|Hd]%elem_of_app Hk; [|by apply Hk2]. apply Hk1; [done|]. rewrite Hp2. apply elem_of_app. by right.
Qed.
Lemma pruned_ok n t t' : pruned n t t' -> Forall row_ok t -> Forall row_ok t'.
Proof. intros (d & Hp & _). rewrite Hp, Forall_app. by intros [_ ?]. Qed.
Lemma checkpoint_step wrap h : table (exec_step checkpoint_statement wrap h).1 = table h.
Proof.
  unfold exec_step, cgo_Exec. pose proof (sqlite_checkpoint h) as Hc. change (cstring checkpoint_statement) with checkpoint_statement.
  destruct (sqlite3_exec checkpoint_statement h) as [[code m] h']. cbn in Hc. by destruct (code != SQLITE_OK).
Qed.
Lemma delete_step n h h' r : 0 <= n <= 256 -> Forall row_ok (table h) -> exec_step (delete_statement n) PruneFailed h = (h', r) -> pruned 256 (table h) (table h').
Proof.
  intros Hn Hok. unfold exec_step, cgo_Exec. rewrite cstring_nul_free by (apply nul_free_delete; lia).
  assert (read_delete (delete_statement n) = Some n) as Hr by (apply read_delete_statement; unfold u64_max; lia).
  destruct (sqlite3_exec (delete_statement n) h) as [[code m] h1] eqn:E. destruct (bool_decide_reflect (code = SQLITE_OK)) as [->|Hc]; intros [= <- <-].
  - destruct (sqlite_delete _ _ _ _ _ Hr (proj1 Hn) Hok E) as (d & Hp & Hl & Hk). exists d. split_and!; [done|lia|done].
  - rewrite (sqlite_delete_failed _ _ _ _ _ _ Hr E Hc). apply (pruned_weaken 0); [lia|apply pruned_refl].
Qed.
Lemma count_records_spec h h' n : count_records h = (h', Ok n) -> h' = h /\ n = len (table h).
Proof.
  unfold count_records, lift, cgo_ScalarInt64. intros E. pose proof (f_equal fst E) as E1. pose proof (f_equal snd E) as E2. cbn [fst snd] in E1, E2. split; [done|].
  change (cstring "SELECT count(*) FROM evidence_records;") with "SELECT count(*) FROM evidence_records;" in E2.
  destruct (sqlite3_query _ h) as [[[|c cs] code]|] eqn:Eq; try done. injection E2 as <-. by apply sqlite_count in Eq.
Qed.
Lemma delete_count_range usage soft count : 0 < count -> 1 <= delete_count usage soft count <= 256.
Proof. intros Hc. unfold delete_count. cbv zeta. lia. Qed.
Lemma prune_attempts_spec store n : forall h h' r, Forall row_ok (table h) -> prune_attempts store n h = (h', r) ->
  pruned (256 * Z.of_nat n) (table h) (table h') /\ (r = Ok true -> exists usage, usageLocked store h' = Ok usage /\ usage <= sq_softLimit store).
Proof.
  induction n as [|n IH]; intros h h' r Hok; cbn [prune_attempts].
  { intros [= <- <-]. split; [apply pruned_refl|done]. }
  assert (pruned (256 * Z.of_nat (S n)) (table h) (table h)) as Hrefl by (apply (pruned_weaken 0); [lia|apply pruned_refl]).
  unfold mbind at 1, stateM_bind at 1, measure at 1, lift at 1. destruct (usageLocked store h) as [usage|e] eqn:Eu; [|by intros [= <- <-]].
  destruct (Z.leb_spec usage (sq_softLimit store)); [intros [= <- <-]; split; [done|by eauto]|].
  unfold mbind at 1, stateM_bind at 1. destruct (count_records h) as [h1 [count|e]] eqn:Ec.
  2: { unfold count_records, lift in Ec. intros [= <- <-]. injection Ec as <- _. done. }
  apply count_records_spec in Ec as [-> ->]. destruct (Z.eqb_spec (len (table h)) 0); [by intros [= <- <-]|].
  unfold mbind at 1, stateM_bind at 1. destruct (exec_step (delete_statement _) PruneFailed h) as [h1 r1] eqn:Ed.
  pose proof (len_nonneg (table h)). apply delete_step in Ed; [|pose proof (delete_count_range usage (sq_softLimit store) (len (table h))); lia|done].
  assert (pruned (256 * Z.of_nat (S n)) (table h) (table h1)) as Hp1 by (apply (pruned_weaken 256); [lia|done]).
  destruct r1 as [[]|e]; [|by intros [= <- <-]]. unfold mbind at 1, stateM_bind at 1. pose proof (checkpoint_step CheckpointWAL h1) as Hc.
  destruct (exec_step checkpoint_statement CheckpointWAL h1) as [h2 [[]|e]]; cbn [fst] in Hc; rewrite <-Hc in Hp1, Ed; [|by intros [= <- <-]].
  intros E. apply IH in E as [Hp Hu]; [|by eapply pruned_ok]. split; [|done]. replace (256 * Z.of_nat (S n)) with (256 + 256 * Z.of_nat n) by lia. by eapply pruned_trans.
Qed.
Lemma pruneLocked_spec store h h' r : Forall row_ok (table h) -> sq_softLimit store <= sq_hardLimit store -> pruneLocked store h = (h', r) ->
  pruned 5120 (table h) (table h') /\ (r = Ok tt -> exists usage, usageLocked store h' = Ok usage /\ usage <= sq_hardLimit store).
Proof.
  intros Hok Hlim. unfold pruneLocked. unfold mbind at 1, stateM_bind at 1. pose proof (checkpoint_step CheckpointWAL h) as Hc.
  destruct (exec_step checkpoint_statement CheckpointWAL h) as [h1 [[]|e]]; cbn [fst] in Hc; rewrite <-Hc in *.
  2: { intros [= <- <-]. split; [|done]. apply (pruned_weaken 0); [lia|apply pruned_refl]. }
  unfold mbind at 1, stateM_bind at 1. destruct (prune_attempts store 20 h1) as [h2 r2] eqn:Ea. apply prune_attempts_spec in Ea as [Hp Hu]; [|done].
  destruct r2 as [[]|e]; [intros [= <- <-]|..|by intros [= <- <-]].
  - split; [done|]. intros _. destruct (Hu eq_refl) as (u & Eu & Hl). exists u. split; [done|lia].
  - unfold mbind, stateM_bind, measure, lift. destruct (usageLocked store h2) as [u|e] eqn:Eu; [|by intros [= <- <-]].
    destruct (Z.ltb_spec (sq_hardLimit store) u); intros [= <- <-]; [done|]. split; [done|]. intros _. by exists u.
Qed.

(** ** Appending *)
Definition storable (r : StoreRecord) : Prop := Forall nul_free (record_row r) /\ 0 <= Record_ServerMonotonicNS r <= u64_max.
Lemma insert_rows_ok rows t : Forall row_ok rows -> Forall row_ok t -> Forall row_ok (fold_left insert_new rows t).
Proof.
  intros Hr. revert t. induction Hr as [|row rows Hrow _ IH]; intros t Ht; [done|]. apply IH. unfold insert_new. destruct (existsb _ t); [done|]. apply Forall_app. auto.
Qed.
Lemma exec_or_rollback_spec records statement h h' r : Forall storable records -> append_statement records = Ok statement ->
  exec_or_rollback statement h = (h', r) ->
  match r with Ok _ => table h' = fold_left insert_new (record_row <$> records) (table h) | Err _ => table h' = table h end.
Proof.
  intros Hs [-> Hv]%append_statement_script. unfold exec_or_rollback, cgo_Exec.
  rewrite cstring_nul_free by (apply nul_free_script, Forall_map; eapply Forall_impl; [exact Hs|by intros ? [? _]]). change (cstring "ROLLBACK;") with "ROLLBACK;".
  assert (read_script (script (record_row <$> records)) = Some (record_row <$> records)) as Hr by (apply read_script_rows, Forall_map, Forall_true; done).
  destruct (sqlite3_exec (script _) h) as [[code m] h1] eqn:E. destruct (bool_decide_reflect (code = SQLITE_OK)) as [->|Hc]; cbn [negb].
  - intros [= <- <-]. by apply (sqlite_insert _ _ _ _ _ Hr) in E.
  - pose proof (sqlite_rollback _ _ _ _ _ _ Hr E Hc) as Ht. destruct (sqlite3_exec "ROLLBACK;" h1) as [[code' m'] h2]. intros [= <- <-]. cbn in Ht. by destruct (code' != SQLITE_OK).
Qed.
Lemma maintain_spec store h h' r : Forall row_ok (table h) -> sq_softLimit store <= sq_hardLimit store -> maintain store h = (h', r) ->
  pruned 5120 (table h) (table h') /\ r = Ok tt.
Proof.
  intros Hok Hlim. assert (pruned 5120 (table h) (table h)) as Hrefl by (apply (pruned_weaken 0); [lia|apply pruned_refl]).
  unfold maintain. destruct (usageLocked store h); [|by intros [= <- <-]]. destruct (_ <? _); [|by intros [= <- <-]].
  destruct (pruneLocked store h) as [h1 r1] eqn:Ep. intros [= <- <-]. by apply pruneLocked_spec in Ep as [? _].
Qed.
End Spec.

Section Stored.
Context {H : Type} `{SqliteLaws H}.
Implicit Types (h : H) (store : SQLite H).
Lemma AppendBatch_spec store h records store' r : sq_database store = Some h -> sq_softLimit store <= sq_hardLimit store ->
  Forall row_ok (table h) -> Forall storable records -> records <> [] -> SQLite_AppendBatch store records = (store', r) ->
  exists h', sq_database store' = Some h' /\ Forall row_ok (table h') /\
  match r with
  | Ok _ => len records <= maximumBatchSize /\ Forall (fun r => validate r = Ok tt) records /\
      exists before, pruned 5120 (table h) before /\ pruned 5120 (fold_left insert_new (record_row <$> records) before) (table h')
  | Err _ => pruned 5120 (table h) (table h')
  end.
Proof.
  intros Hd Hlim Hok Hs Hne. unfold SQLite_AppendBatch. destruct (Z.eqb_spec (len records) 0) as [E%len_zero|_]; [done|].
  assert (pruned 5120 (table h) (table h)) as Hrefl by (apply (pruned_weaken 0); [lia|apply pruned_refl]).
  destruct (Z.ltb_spec maximumBatchSize (len records)) as [Hl|Hl]; [intros [= <- <-]; by exists h|]. rewrite Hd.
  destruct (append_locked store records h) as [h' r'] eqn:E. intros [= <- <-]. exists h'. split; [done|].
  assert (pruned 5120 (table h) (table h') -> Forall row_ok (table h')) as Hok' by (intros Hp; by eapply pruned_ok).
  revert E. unfold append_locked. unfold mbind at 1, stateM_bind at 1, measure at 1, lift at 1. destruct (usageLocked store h) as [usage|e]; [|intros [= <- <-]; by auto].
  unfold mbind at 1, stateM_bind at 1. destruct ((if sq_softLimit store <? usage then pruneLocked store else mret tt) h) as [h1 r1] eqn:Ep.
  assert (pruned 5120 (table h) (table h1)) as Hp1.
  { destruct (_ <? usage); [by apply pruneLocked_spec in Ep as [? _]|]. by injection Ep as <- <-. }
  destruct r1 as [[]|e]; [|intros [= <- <-]; by auto]. unfold mbind at 1, stateM_bind at 1, batch_statement at 1.
  destruct (append_statement records) as [statement|e] eqn:Es; [|intros [= <- <-]; by auto]. unfold mbind at 1, stateM_bind at 1.
  destruct (exec_or_rollback statement h1) as [h2 r2] eqn:Ex. pose proof (exec_or_rollback_spec _ _ _ _ _ Hs Es Ex) as Ht.
  destruct r2 as [u|e]; [|intros [= <- <-]; rewrite Ht in *; by auto]. intros Em.
  assert (Forall row_ok (table h2)) as Hok2.
  { rewrite Ht. apply insert_rows_ok; [|by eapply pruned_ok]. apply Forall_map. eapply Forall_impl; [exact Hs|]. intros x [_ Hx]. by exists (Record_ServerMonotonicNS x). }
  apply maintain_spec in Em as [Hp2 ->]; [|done..]. split; [by eapply pruned_ok|]. apply append_statement_script in Es as [_ Hv]. split; [done|]. split; [done|].
  exists (table h1). rewrite <-Ht. done.
Qed.
(** C35: [AppendBatch] is atomic.  When it reports success, the batch had at
    most 256 valid records and the table is the old one, possibly pruned, with
    every row of the batch whose id was new, possibly pruned again; when it
    reports an error nothing of the batch is in the table.  A pruning deletes
    at most 5120 rows and never one that comes, by severity and then by age,
    after one it keeps.  Whatever bytes the records contain, the text that is
    sent means these rows. *)
Theorem AppendBatch_atomic store h records store' r : sq_database store = Some h -> sq_softLimit store <= sq_hardLimit store ->
  Forall row_ok (table h) -> Forall storable records -> records <> [] -> SQLite_AppendBatch store records = (store', r) ->
  exists h', sq_database store' = Some h' /\ Forall row_ok (table h') /\
  match r with
  | Ok _ => len records <= maximumBatchSize /\ Forall (fun r => validate r = Ok tt) records /\
      exists before, pruned 5120 (table h) before /\ pruned 5120 (fold_left insert_new (record_row <$> records) before) (table h')
  | Err _ => pruned 5120 (table h) (table h')
  end.
Proof. apply AppendBatch_spec. Qed.

(** ** Reading back *)
(** The same selection by the numbers the texts stand for. *)
Definition newest_before (a b : Row) : bool :=
  let ta := default 0 (ParseUint (column 4 a)) in let tb := default 0 (ParseUint (column 4 b)) in
  (tb <? ta) || ((ta =? tb) && str_lt (column 0 b) (column 0 a)).
Definition newest (run : string) (limit : Z) (table : list Row) : list string :=
  take (Z.to_nat limit) (map (column 11) (sort_by newest_before (List.filter (fun row => (column 2 row == run) && (column 11 row != "")) table))).
Lemma text_before_newest a b : row_ok a -> row_ok b -> text_before a b = newest_before a b.
Proof.
  intros (x & Hx & Ea) (y & Hy & Eb). unfold text_before, newest_before. rewrite Ea, Eb, !ParseUint_FormatUint by done. cbn [from_option id]. cbv zeta.
  pose proof (FormatUint_order y x ltac:(lia) ltac:(lia)) as Ho. unfold decimal_lt in Ho. rewrite <-Ho. rewrite (Z.eqb_sym (slen (FormatUint y))).
  destruct (slen (FormatUint y) <? slen (FormatUint x)) eqn:El; [done|]. cbn [orb] in *. destruct (Z.eqb_spec (slen (FormatUint x)) (slen (FormatUint y))) as [E|E]; cbn [andb] in *.
  - f_equal. f_equal. destruct (Z.eqb_spec x y) as [->|Hn]; [by rewrite bool_decide_eq_true_2|]. apply bool_decide_eq_false_2. intros Ef. apply FormatUint_inj in Ef; lia.
  - destruct (Z.eqb_spec x y) as [->|Hn]; [done|]. done.
Qed.
Lemma selected_newest run limit t : Forall row_ok t -> selected run limit t = newest run limit t.
Proof.
  intros Hok. unfold selected, newest. do 2 f_equal. apply sort_by_ext. intros x y Hx Hy. rewrite Forall_forall in Hok.
  apply list_elem_of_In, filter_In in Hx as [Hx _]. apply list_elem_of_In, filter_In in Hy as [Hy _]. apply text_before_newest; apply Hok; by apply list_elem_of_In.
Qed.
Definition total_bytes (l : list string) : Z := foldr (fun s z => slen s + z) 0 l.
Lemma total_bytes_snoc l s : total_bytes (l ++ [s]) = total_bytes l + slen s.
Proof. unfold total_bytes. induction l as [|x l IH]; cbn in *; lia. Qed.
Lemma query_strings_spec rows code limit maxBytes : forall taken out, query_strings rows code limit maxBytes taken (total_bytes taken) = Ok out ->
  len taken <= limit -> total_bytes taken <= maxBytes ->
  exists more, out = taken ++ more /\ more `prefix_of` rows /\ len out <= limit /\ total_bytes out <= maxBytes /\
    (len out = limit \/ (more = rows /\ code = SQLITE_DONE) \/ exists next rest, rows = more ++ next :: rest /\ maxBytes < total_bytes out + slen next).
Proof.
  induction rows as [|row rows IH]; intros taken out; cbn [query_strings]; destruct (Z.ltb_spec (len taken) limit) as [Hl|Hl]; cbn [negb].
  - destruct (Z.eqb_spec code SQLITE_DONE) as [->|]; [|done]. intros [= <-] ? ?. exists []. rewrite app_nil_r. split_and!; [done|done|done|done|]. right; left. done.
  - intros [= <-] ? ?. exists []. rewrite app_nil_r. split_and!; [done|done|done|done|]. left. lia.
  - cbv zeta. destruct (_ || _); [done|]. destruct (Z.ltb_spec maxBytes (total_bytes taken + slen row)) as [Hm|Hm].
    + intros [= <-] ? ?. exists []. rewrite app_nil_r. split_and!; [done|apply prefix_nil|done|done|]. right; right. by exists row, rows.
    + rewrite <-total_bytes_snoc. intros E ? ?. apply IH in E as (more & -> & Hp & Hl' & Hb & Hc); [|rewrite len_app; unfold len at 2; cbn; lia|rewrite total_bytes_snoc; lia].
      exists (row :: more). rewrite <-(assoc_L (++)) in *. split_and!; [done|by apply prefix_cons|done|done|]. destruct Hc as [?|[[-> ->]|(next & rest & -> & Hn)]]; [by left|by right; left|].
      right; right. exists next, rest. done.
  - intros [= <-] ? ?. exists []. rewrite app_nil_r. split_and!; [done|apply prefix_nil|done|done|]. left. lia.
Qed.
Lemma check_rows_spec errs rows : forall i out, check_rows errs i rows = Ok out -> out = rows /\ Forall (fun s => Valid s = true) rows.
Proof.
  induction rows as [|row rows IH]; intros i out; cbn [check_rows]; [by intros [= <-]|]. destruct (ctx_err errs i); [done|]. destruct (Valid row) eqn:Ev; [|done]. cbn [negb].
  destruct (check_rows errs (S i) rows) as [rest|] eqn:E; [|done]. intros [= <-]. apply IH in E as [-> Hv]. auto.
Qed.
(** [ReadPayloads] returns the payloads of one run, newest first by the
    numeric time and then by id: the longest such prefix within the count and
    the byte budget, each a valid JSON text. *)
Theorem ReadPayloads_newest store h ctx run limit maxBytes out : sq_database store = Some h -> Forall row_ok (table h) -> nul_free run ->
  ReadPayloads store ctx run limit maxBytes = Ok out ->
  let all := newest run limit (table h) in
  out `prefix_of` all /\ len out <= limit /\ total_bytes out <= maxBytes /\ Forall (fun s => Valid s = true) out /\
  (out = all \/ exists next rest, all = out ++ next :: rest /\ maxBytes < total_bytes out + slen next).
Proof.
  intros Hd Hok Hrun. unfold ReadPayloads. destruct ctx as [errs|]; [|done]. destruct (_ || _) eqn:Eg; [done|]. destruct (ctx_err errs 0); [done|]. rewrite Hd.
  rewrite !orb_false_iff, !Z.ltb_ge in Eg. destruct Eg as (((((_ & _) & Hl1) & Hl2) & Hm1) & Hm2). unfold cgo_QueryStrings. rewrite cstring_nul_free by (apply nul_free_query; [done|lia]).
  destruct (sqlite3_query (payload_query run limit) h) as [[rows code]|] eqn:Eq; [|done].
  assert (read_select (payload_query run limit) = Some (run, limit)) as Hr by (apply read_payload_query; unfold u64_max; lia).
  destruct (sqlite_select _ _ _ _ _ _ Hr Eq) as [Hpre Hall]. rewrite selected_newest in Hpre, Hall by done.
  destruct (query_strings rows code limit maxBytes [] 0) as [taken|] eqn:Et; [|done]. intros [-> Hv]%check_rows_spec. cbv zeta.
  apply (query_strings_spec rows code limit maxBytes []) in Et as (more & -> & Hp & Hl & Hb & Hc); [|unfold len; cbn; lia|cbn; lia]. cbn [app] in *.
  assert (more `prefix_of` newest run limit (table h)) as Hpa by (by etrans). split; [done|]. split; [done|]. split; [done|]. split; [done|]. destruct Hc as [E|[[-> Hdone]|(next & rest & -> & Hn)]].
  - left. destruct Hpa as [suffix Es].
    assert (length (newest run limit (table h)) <= Z.to_nat limit)%nat as Hn by (unfold newest; rewrite length_take; lia).
    rewrite Es, length_app in Hn. unfold len in E. assert (suffix = []) as -> by (apply length_zero_iff_nil; lia). by rewrite Es, app_nil_r.
  - left. by apply Hall.
  - right. destruct Hpre as [suffix Es]. exists next, (rest ++ suffix). by rewrite Es, <-(assoc_L (++)).
Qed.
End Stored.

(** ** The store behind the writer *)
Definition RecordError_text (e : RecordError) : string :=
  match e with
  | InvalidIdentity => "record identity is invalid"
  | NulByte => "record text contains a NUL byte"
  | InvalidSource => "record source is invalid"
  | ExceedsLimits => "record exceeds limits"
  | InvalidPayload => "record payload is invalid or exceeds limits"
  | LabelsExceed => "record labels exceed limits"
  | PayloadRedaction _ => "record payload nesting exceeds limits"
  | SanitizedPayloadExceeds => "sanitized record payload exceeds limits"
  end.
Definition SQLiteError_text (e : SQLiteError) : string :=
  match e with
  | BatchExceeds => "SQLite batch exceeds 256 records"
  | DatabaseClosed => "SQLite database is closed"
  | MeasureCapacity e => "measure SQLite capacity: " +:+ e
  | CheckpointWAL e => "checkpoint SQLite WAL: " +:+ e
  | CountRecords e => "count SQLite records: " +:+ e
  | PruneFailed e => "prune SQLite: " +:+ e
  | HardCapacity => "SQLite hard capacity remains exceeded after pruning"
  | InvalidRecord e => RecordError_text e
  | ExecFailed e => e
  | InvalidQuery => "invalid evidence query"
  | ContextError e => e
  | SQLiteUnavailable => "SQLite is unavailable on this build"
  | QueryFailed e => e
  | InvalidStoredPayload => "stored evidence payload is invalid"
  end.
#[export] Instance sqlite_batch_store {H} `{Sqlite3 H} : BatchStore (SQLite H) := fun batch store =>
  match SQLite_AppendBatch store batch with
  | (store', Ok _) => (None, store')
  | (store', Err e) => (Some (SQLiteError_text e), store')
  end.
Section Backend.
Context {H : Type} `{Sqlite3 H} `{UnicodeTables}.
(** The limit the writer's probes run into. *)
Lemma sqlite_refuses_large : refuses_large (B := SQLite H).
Proof.
  intros batch store Hl. unfold AppendBatch, sqlite_batch_store, SQLite_AppendBatch. unfold maximumBatchSize in *.
  destruct (Z.eqb_spec (len batch) 0); [lia|]. destruct (Z.ltb_spec 256 (len batch)); [eauto|lia].
Qed.
Implicit Types w : Writer (Logged (SQLite H)).
Lemma buffer_options w records : w_options (buffer w records) = w_options w.
Proof.
  unfold buffer. cbv zeta. cbn [w_options with_diagnostics]. revert w. induction records as [|r records IH]; intros w; [done|]. cbn [fold_left]. rewrite IH.
  unfold buffer_record. cbv zeta. by destruct (_ || _).
Qed.
Lemma flush_options w batch : w_options (flush w batch) = w_options w.
Proof.
  unfold flush. destruct (StoreDiagnostics_CircuitOpen _); [apply buffer_options|]. destruct (AppendBatch batch (w_backend w)) as [[e|] b]; [|done]. by rewrite buffer_options.
Qed.
Lemma probe_options w : w_options (probe w) = w_options w.
Proof. unfold probe. destruct (_ || _); [done|]. by destruct (AppendBatch (w_recent w) (w_backend w)) as [[e|] b]. Qed.
Lemma step_options (t t' : Written (SQLite H)) : writer_step t t' -> w_options (wr_writer t') = w_options (wr_writer t) /\
  (wr_accepted t' = wr_accepted t \/ exists raw r, Apply (WriterOptions_Redactor (w_options (wr_writer t))) raw = Ok r /\ wr_accepted t' = wr_accepted t ++ [r]).
Proof.
  intros [record|w Hn Hw|Hn|Hn| |Hn Hc]; cbn [wr_writer wr_accepted advance]; try (split; [|by left]).
  - unfold record_submission, Submit. cbv zeta. destruct (w_closing (wr_writer t)); [by auto|]. destruct (Apply _ record) as [r|] eqn:Ea; [|by auto].
    destruct (_ <? _); cbn; [|by auto]. split; [done|]. right. by exists record, r.
  - unfold run_receive in Hw. destruct (w_queue (wr_writer t)) as [|r queue]; [done|]. cbv zeta in Hw. destruct (_ <=? _); injection Hw as <-; [|done]. cbn. by rewrite flush_options.
  - unfold run_flush. destruct (_ =? 0); [done|]. cbn. by rewrite flush_options.
  - apply probe_options.
  - done.
  - unfold run_shutdown. cbv zeta. cbn [w_options with_queues]. destruct (_ =? 0); by rewrite ?flush_options, probe_options.
Qed.
Lemma accepted_applied (t : Written (SQLite H)) : writer_reachable t ->
  Forall (fun r => exists raw, Apply (WriterOptions_Redactor (w_options (wr_writer t))) raw = Ok r) (wr_accepted t).
Proof.
  induction 1 as [b options w Hw|t t' _ IH Hs]; [done|]. apply step_options in Hs as [-> [->|(raw & r & Ha & ->)]]; [done|]. apply Forall_app. split; [done|]. constructor; [by exists raw|done].
Qed.
Lemma Apply_nul_free redactor raw r : Apply redactor raw = Ok r -> Forall nul_free (record_row r).
Proof.
  unfold Apply. unfold mbind at 1, result_bind at 1. destruct (validate raw) as [[]|] eqn:Ev; [|done]. unfold mbind, result_bind.
  destruct (scrub_payload redactor (Record_Payload raw)) as [payload|] eqn:Ep; [|done]. intros [= <-].
  unfold validate in Ev. rewrite !guard_bind, guard_err_ok in Ev. destruct Ev as (_ & H2 & H3 & _ & [_ H5]%orb_false_iff & _).
  cbn [existsb] in H2. rewrite !orb_false_iff, !has_nul_forall in H2. destruct H2 as (? & ? & ? & ? & Hsum & _).
  apply negb_false_iff, bool_decide_eq_true in H3. rewrite !elem_of_cons in H3.
  unfold record_row. cbn [Record_ID Record_RecordType Record_RunID Record_Source Record_ServerMonotonicNS Record_ServerUnixNS Record_InstanceID Record_ScopeCookie Record_Severity Record_Summary Record_Labels Record_Payload].
  repeat constructor; try done; try apply nul_free_FormatUint.
  - destruct H3 as [->|[->|[->|[->|[->|H3%elem_of_nil]]]]]; done.
  - unfold nul_free. by apply redactText_bytes.
  - unfold labelsJSON. destruct (redact_labels redactor <$> Record_Labels raw) as [labels|]; [|done]. apply nul_free_Marshal. cbn [json_labels printable]. apply forallb_forall.
    intros f Hf. apply in_map_iff in Hf as (kv & <- & _). done.
  - unfold scrub_payload in Ep. destruct (slen (Record_Payload raw) =? 0) eqn:E0.
    { injection Ep as <-. apply Z.eqb_eq in E0. unfold slen in E0. destruct (Record_Payload raw); [done|]. cbn in E0. lia. }
    cbn in H5. apply negb_false_iff, Valid_decode in H5 as (v & rest & Hn & _ & Hd). rewrite Hn in Ep. destruct (scrubJSON redactor v 0) as [v'|] eqn:Es; [|done].
    cbv zeta in Ep. destruct (65536 <? _); [done|]. injection Ep as <-. pose proof (Decode_canonical _ _ Hd) as [Hc _]. apply norm_canonical in Hc as [_ Hc].
    apply nul_free_Marshal. by destruct (scrubJSON_printable _ _ _ _ Es Hc).
Qed.
Lemma append_statement_valid records : Forall (fun r => validate r = Ok tt) records -> append_statement records = Ok (script (record_row <$> records)).
Proof.
  unfold append_statement, script. generalize "BEGIN IMMEDIATE;". intros start Hv. revert start. induction Hv as [|r records Hr _ IH]; intros start; [done|].
  cbn [foldM]. unfold write_record at 2. rewrite Hr. cbn [mbind result_bind]. etrans; [apply IH|]. cbn [fmap list_fmap foldr]. by rewrite <-str_app_assoc.
Qed.
(** C36: with secrets of at least ten bytes, whatever the writer holds is fit
    for the store: no record of it is refused for its content, no byte of it
    ends the SQL text early, and the text stands for exactly the records. *)
Theorem accepted_fit_store (t : Written (SQLite H)) batch : writer_reachable t ->
  Forall (fun x => (10 <= String.length x)%nat) (WriterOptions_Redactor (w_options (wr_writer t))) ->
  batch ⊆ w_recent (wr_writer t) ++ w_batch (wr_writer t) ++ w_queue (wr_writer t) ->
  exists statement, append_statement batch = Ok statement /\ cstring statement = statement /\ read_script statement = Some (record_row <$> batch).
Proof.
  intros Hr Hlong Hb. assert (Forall (fun r => validate r = Ok tt /\ Forall nul_free (record_row r)) batch) as [Hv Hn]%Forall_and.
  { apply Forall_forall. intros r Hin%Hb. pose proof (accepted_applied t Hr) as Ha. rewrite Forall_forall in Ha.
    destruct (Ha r) as [raw E]; [|split; [by eapply Apply_valid|by eapply Apply_nul_free]].
    pose proof (flows_order _ _ _ _ (ok_flows _ (writer_invariant _ Hr))) as Hs. eapply elem_of_submseteq; [|by apply sublist_submseteq]. apply elem_of_app. by right. }
  exists (script (record_row <$> batch)). split; [by apply append_statement_valid|]. split.
  - apply cstring_nul_free, nul_free_script, Forall_map. done.
  - apply read_script_rows, Forall_map, Forall_true. done.
Qed.
End Backend.

(** ** An engine in memory *)
(** It has the laws; while it is [mem_down] every statement fails. *)
Module Memory.
Record MemDB := mkMemDB { mem_rows : list Row; mem_down : bool }.
Definition prune_less (a b : Row) : bool :=
  let ra := severity_rank (column 8 a) in let rb := severity_rank (column 8 b) in
  (ra <? rb) || ((ra =? rb) && (cast_integer (column 4 a) <? cast_integer (column 4 b))).
#[export] Instance prune_less_weak : StrictWeak prune_less.
Proof.
  split; unfold prune_less; intros *; cbv zeta.
  - rewrite orb_true_iff, andb_true_iff, !orb_false_iff, andb_false_iff, !Z.ltb_lt, !Z.ltb_ge, Z.eqb_eq, Z.eqb_neq. lia.
  - rewrite !orb_false_iff, !andb_false_iff, !Z.ltb_ge, !Z.eqb_neq. lia.
Qed.
Definition mem_exec (s : string) (db : MemDB) : Z * option string * MemDB :=
  if mem_down db then (5, Some "database is locked", db)
  else match read_script s with
  | Some rows => (SQLITE_OK, None, mkMemDB (fold_left insert_new rows (mem_rows db)) false)
  | None =>
      match read_delete s with
      | Some n => (SQLITE_OK, None, mkMemDB (List.skipn (Z.to_nat n) (sort_by prune_less (mem_rows db))) false)
      | None => (SQLITE_OK, None, db)
      end
  end.
Definition mem_query (s : string) (db : MemDB) : result Z (list string * Z) :=
  if s == "SELECT count(*) FROM evidence_records;" then Ok ([FormatUint (len (mem_rows db))], SQLITE_DONE)
  else if s == "PRAGMA page_count;" then Ok ([FormatUint (16 * len (mem_rows db))], SQLITE_DONE)
  else if s == "PRAGMA freelist_count;" then Ok (["0"], SQLITE_DONE)
  else if s == "PRAGMA page_size;" then Ok (["65536"], SQLITE_DONE)
  else match read_select s with Some (run, limit) => Ok (selected run limit (mem_rows db), SQLITE_DONE) | None => Err 1 end.
#[export] Instance mem_sqlite : Sqlite3 MemDB := {|
  sqlite3_exec := mem_exec;
  sqlite3_errmsg _ := "not an error";
  sqlite3_query := mem_query;
  sqlite3_column_int64 := digits_value;
  sqlite3_close_v2 db := (SQLITE_OK, db);
  file_size _ _ := None;
|}.
Lemma read_script_delete s : is_Some (read_script s) -> read_delete s = None.
Proof.
  unfold read_script, read_delete, cut_text. destruct (HasPrefix s "BEGIN IMMEDIATE;") eqn:E1; [|by intros [? ?]]. intros _.
  apply HasPrefix_app in E1 as [r ->]. done.
Qed.
#[export] Instance mem_laws : SqliteLaws MemDB.
Proof.
  refine {| table := mem_rows |}.
  - intros s rows db m db' Hs. cbn. unfold mem_exec. rewrite Hs. destruct (mem_down db); [done|]. by intros [= <- <-].
  - intros s rows db code m db1 Hs. cbn. unfold mem_exec at 1. rewrite Hs. destruct (mem_down db) eqn:Ed; intros [= <- <- <-]; [|done]. intros _. unfold mem_exec. by rewrite Ed.
  - intros s n db m db' Hs Hn _. cbn. unfold mem_exec. destruct (mem_down db); [done|]. destruct (read_script s) eqn:Es; [by rewrite read_script_delete in Hs|].
    rewrite Hs. intros [= <- <-]. cbn [mem_rows]. exists (take (Z.to_nat n) (sort_by prune_less (mem_rows db))).
    rewrite take_drop. split; [by rewrite sort_by_perm|]. split.
    + unfold len. rewrite length_take. rewrite (Permutation_length (sort_by_perm prune_less (mem_rows db))). lia.
    + intros d k (i & Hi)%list_elem_of_lookup_1 (j & Hj)%list_elem_of_lookup_1. rewrite lookup_drop in Hj. apply lookup_take_Some in Hi as [Hi Hlt].
      assert (prune_less k d = false) as Hd by (apply (StronglySorted_lookup _ _ i (Z.to_nat n + j) _ _ (sort_by_sorted prune_less (mem_rows db))); [done|done|lia]).
      unfold prune_less in Hd. cbv zeta in Hd. rewrite orb_false_iff, andb_false_iff, !Z.ltb_ge, Z.eqb_neq in Hd. unfold prune_before. lia.
  - intros s n db code m db' Hs. cbn. unfold mem_exec. destruct (mem_down db); [by intros [= <- <- <-]|]. destruct (read_script s) eqn:Es; [by rewrite read_script_delete in Hs|].
    rewrite Hs. by intros [= <- <- <-].
  - intros db. cbn. unfold mem_exec. destruct (mem_down db); done.
  - intros s run limit db rows code Hs. cbn. unfold mem_query. rewrite Hs.
    repeat match goal with |- context [bool_decide (s = ?x)] => destruct (bool_decide_reflect (s = x)) as [->|]; [discriminate Hs|] end. intros [= <- <-]. done.
  - intros db c cs code. cbn. unfold mem_query. rewrite bool_decide_eq_true_2 by done. intros [= <- <- <-]. apply FormatUint_value, len_nonneg.
Defined.
End Memory.
Import Memory.
Definition demo_mem_record (id severity : string) (time : Z) (payload : string) : StoreRecord :=
  mkStoreRecord id "kernel_event" "run-1" SourceKernelFact time 7 1 2 severity "it's a '); DROP TABLE" None payload.
Definition demo_mem_store (down : bool) : SQLite MemDB :=
  mkSQLite (Some (mkMemDB [record_row (demo_mem_record "old" "high" 9 "{}")] down)) "/var/lib/agentshield/evidence.db" 2097152 4194304.
Definition demo_batch : list StoreRecord := [demo_mem_record "a" "info" 100 "[]"; demo_mem_record "b" "critical" 99 "[1]"].
Definition demo_appended : SQLite MemDB * result SQLiteError unit := SQLite_AppendBatch (demo_mem_store false) demo_batch.
Lemma demo_appended_eq : SQLite_AppendBatch (demo_mem_store false) demo_batch = (demo_appended.1, demo_appended.2).
Proof. unfold demo_appended. apply surjective_pairing. Qed.
Ltac row_oks := cbn [table mem_laws mem_rows fmap list_fmap]; repeat (apply Forall_cons_2; [match goal with |- row_ok ?r => exists (digits_value (column 4 r)) end;
  split; [split; vm_compute; discriminate|vm_compute; reflexivity]|]); apply Forall_nil_2.
(** Three megabytes of rows over the soft limit: one row is pruned, the least
    severe one, although it is the newest. *)
Lemma AppendBatch_atomic_witness : exists h', sq_database demo_appended.1 = Some h' /\ map (column 0) (table h') = ["old"; "b"] /\ Forall row_ok (table h').
Proof.
  destruct (AppendBatch_atomic (demo_mem_store false) (mkMemDB [record_row (demo_mem_record "old" "high" 9 "{}")] false) demo_batch demo_appended.1 demo_appended.2)
    as (h' & Hd & Hok & _).
  - reflexivity.
  - vm_compute. discriminate.
  - row_oks.
  - repeat constructor; vm_compute; discriminate.
  - discriminate.
  - exact demo_appended_eq.
  - exists h'. split; [exact Hd|]. split; [|exact Hok].
    assert ((map (column 0) ∘ table) <$> sq_database demo_appended.1 = Some ["old"; "b"]) as E by (vm_compute; reflexivity). rewrite Hd in E. by injection E.
Defined.
Definition demo_db : MemDB :=
  mkMemDB (record_row <$> [demo_mem_record "a" "info" 99 "[]"; demo_mem_record "b" "info" 100 "[1]"; demo_mem_record "c" "info" 100 ""; demo_mem_record "d" "info" 7 "{}"]) false.
Lemma ReadPayloads_newest_witness :
  ReadPayloads (mkSQLite (Some demo_db) "/e.db" 2097152 4194304) (Some []) "run-1" 2 65536 = Ok ["[1]"; "[]"] /\
  ["[1]"; "[]"] `prefix_of` newest "run-1" 2 (table demo_db).
Proof.
  assert (ReadPayloads (mkSQLite (Some demo_db) "/e.db" 2097152 4194304) (Some []) "run-1" 2 65536 = Ok ["[1]"; "[]"]) as E by (vm_compute; reflexivity).
  split; [exact E|]. refine (proj1 (ReadPayloads_newest _ demo_db (Some []) "run-1" 2 65536 _ _ _ _ E)); [reflexivity|row_oks|reflexivity].
Defined.
(** A writer over this store, with one record in its queue. *)
#[local] Instance demo_sql_tables : UnicodeTables := ascii_tables.
Definition demo_writer_options : WriterOptions := mkWriterOptions 0 0 0 0 0 0 ["a-secret-value"].
Definition demo_sqlite_writer : Written (SQLite MemDB) :=
  match NewWriter (Some (demo_mem_store false, [])) demo_writer_options with
  | Ok w => record_submission (mkWritten w [] 0 0) (demo_mem_record "q" "info" 3 "{}")
  | Err _ => mkWritten (mkWriter (demo_mem_store false, []) demo_writer_options [] [] false false [] 0 no_diagnostics None []) [] 0 0
  end.
Lemma accepted_fit_store_witness : exists statement, append_statement (w_queue (wr_writer demo_sqlite_writer)) = Ok statement /\ cstring statement = statement.
Proof.
  destruct (accepted_fit_store demo_sqlite_writer (w_queue (wr_writer demo_sqlite_writer))) as (statement & E & Hc & _).
  - unfold demo_sqlite_writer. eapply writer_next; [|apply step_submit]. apply (writer_start (demo_mem_store false) demo_writer_options). reflexivity.
  - vm_compute. repeat constructor.
  - intros r Hr. rewrite !elem_of_app. by right; right.
  - exists statement. split; [exact E|exact Hc].
Defined.
