(* ===== verification/SqliteOpen.v ===== *)
(** * Opening the SQLite store ([OpenSQLite] and the directory checks)

    What the operating system answers is [OpenWorld]: the working directory,
    the files before and after the engine opened the path, and the engine's
    handle.  The theorem tells what an opened store was checked for and that a
    failed opening leaves no handle behind. *)
From S2P Require Import Prelude GoStd GoTime StoreRecord Writer Sqlite.
Open Scope Z_scope.

Definition schema : string := "
PRAGMA journal_mode=WAL;
PRAGMA synchronous=NORMAL;
PRAGMA busy_timeout=250;
PRAGMA foreign_keys=ON;
CREATE TABLE IF NOT EXISTS evidence_records (
  id TEXT PRIMARY KEY,
  record_type TEXT NOT NULL,
  run_id TEXT NOT NULL,
  source TEXT NOT NULL,
  server_monotonic_ns TEXT NOT NULL,
  server_unix_ns TEXT NOT NULL,
  instance_id TEXT NOT NULL,
  scope_cookie TEXT NOT NULL,
  severity TEXT NOT NULL,
  summary TEXT NOT NULL,
  labels_json TEXT NOT NULL,
  payload_json TEXT NOT NULL DEFAULT ''
);
CREATE INDEX IF NOT EXISTS evidence_records_run_time
ON evidence_records(run_id, server_monotonic_ns);
CREATE TABLE IF NOT EXISTS agent_runs (run_id TEXT PRIMARY KEY, data_json TEXT NOT NULL);
CREATE TABLE IF NOT EXISTS checkpoints (checkpoint_id TEXT PRIMARY KEY, data_json TEXT NOT NULL);
CREATE TABLE IF NOT EXISTS kernel_events (event_id TEXT PRIMARY KEY, data_json TEXT NOT NULL);
CREATE TABLE IF NOT EXISTS policy_hits (hit_id TEXT PRIMARY KEY, data_json TEXT NOT NULL);
CREATE TABLE IF NOT EXISTS evidence_chains (chain_id TEXT PRIMARY KEY, data_json TEXT NOT NULL);
CREATE TABLE IF NOT EXISTS policies (policy_id TEXT PRIMARY KEY, data_json TEXT NOT NULL);
CREATE TABLE IF NOT EXISTS system_diagnostics (diagnostic_id TEXT PRIMARY KEY, data_json TEXT NOT NULL);
".
Record SQLiteOptions := mkSQLiteOptions { SQLiteOptions_SoftLimitBytes : Z; SQLiteOptions_HardLimitBytes : Z }.

(** ** Paths and files *)
(** [filepath.Dir] and [filepath.Abs] on Linux. *)
Definition Dir (p : string) : string :=
  let kept := str_rev (let r := str_rev p in match Cut r "/" with Some (_, rest) => String slash rest | None => "" end) in Clean kept.
Definition Abs (wd : result string string) (p : string) : result string string :=
  if IsAbs p then Ok (Clean p) else match wd with Ok dir => Ok (Clean (dir +:+ "/" +:+ p)) | Err e => Err e end.
(** [info_sys]: the owner, when the file information carries a [Stat_t]. *)
Record FileInfo := mkFileInfo {
  info_symlink : bool;
  info_regular : bool;
  info_dir : bool;
  info_perm : Z;
  info_sys : option Z;
  info_device_inode : Z * Z;
}.
Definition SameFile (a b : FileInfo) : bool := info_device_inode a == info_device_inode b.
Inductive Lstat := NotExist | LstatFailed (e : string) | Found (info : FileInfo).
Record OpenWorld (H : Type) := mkOpenWorld {
  ow_getwd : result string string;
  ow_mkdirAll : string -> option string;
  ow_evalSymlinks : string -> result string string;
  ow_stat : string -> result string FileInfo;
  ow_geteuid : Z;
  ow_lstat : string -> Lstat;
  ow_open : string -> result (Z * option H) H;
  ow_lstat_opened : string -> Lstat;
  ow_chmod : string -> option string;
}.
Arguments mkOpenWorld {H}.
Arguments ow_getwd {H} _.
Arguments ow_mkdirAll {H} _.
Arguments ow_evalSymlinks {H} _.
Arguments ow_stat {H} _.
Arguments ow_geteuid {H} _.
Arguments ow_lstat {H} _.
Arguments ow_open {H} _.
Arguments ow_lstat_opened {H} _.
Arguments ow_chmod {H} _.
Inductive OpenError :=
  | PathRequired | ResolvePath (e : string) | CapacityLimits | CreateDirectory (e : string) | ResolveDirectory (e : string) | DirectorySymlinks
  | StatDirectory (e : string) | ParentNotDirectory | DirectoryAccessible | DirectoryOwner | InspectPath (e : string) | NotRegularFile
  | OpenFailed (e : string) | IdentityChanged | RestrictPermissions (e : string) | ReadPageSize | InitializeFailed (e : string) | MigrateFailed (e : string).

Section Open.
Context {H : Type} `{Sqlite3 H}.
Implicit Types world : OpenWorld H.
Definition validateSQLiteDirectoryOwner world (info : FileInfo) : result OpenError unit :=
  _ ← guard_err (negb (Z.land (info_perm info) 63 =? 0)) DirectoryAccessible;
  match info_sys info with
  | Some uid => guard_err (negb (uid =? wrap32 (ow_geteuid world))) DirectoryOwner
  | None => Err DirectoryOwner
  end.
Definition validateSQLiteDirectory world (path : string) : result OpenError unit :=
  match ow_evalSymlinks world path with
  | Err e => Err (ResolveDirectory e)
  | Ok resolved =>
      _ ← guard_err (Clean resolved != Clean path) DirectorySymlinks;
      match ow_stat world path with
      | Err e => Err (StatDirectory e)
      | Ok info => _ ← guard_err (negb (info_dir info)) ParentNotDirectory; validateSQLiteDirectoryOwner world info
      end
  end.
Definition sqlite_defaults (o : SQLiteOptions) : SQLiteOptions :=
  mkSQLiteOptions (default_to (SQLiteOptions_SoftLimitBytes o) (Z.shiftl 100 20)) (default_to (SQLiteOptions_HardLimitBytes o) (Z.shiftl 128 20)).
(** Everything before the engine opens the file. *)
Definition open_checks world (path : string) (options : SQLiteOptions) : result OpenError (string * SQLiteOptions * option FileInfo) :=
  _ ← guard_err ((path == "") || (path == ":memory:")) PathRequired;
  match Abs (ow_getwd world) path with
  | Err e => Err (ResolvePath e)
  | Ok cleaned =>
      let options := sqlite_defaults options in
      _ ← guard_err ((SQLiteOptions_SoftLimitBytes options <? Z.shiftl 1 20) || (SQLiteOptions_HardLimitBytes options <? SQLiteOptions_SoftLimitBytes options)) CapacityLimits;
      match ow_mkdirAll world (Dir cleaned) with
      | Some e => Err (CreateDirectory e)
      | None =>
          _ ← validateSQLiteDirectory world (Dir cleaned);
          match ow_lstat world cleaned with
          | LstatFailed e => Err (InspectPath e)
          | NotExist => Ok (cleaned, options, None)
          | Found expected => _ ← guard_err (info_symlink expected || negb (info_regular expected)) NotRegularFile; Ok (cleaned, options, Some expected)
          end
      end
  end.
(** [openNative]: a handle that comes with an error is closed. *)
Definition openNative world (path : string) : result OpenError H * list H :=
  match ow_open world path with
  | Ok handle => (Ok handle, [])
  | Err (code, handle) => (Err (OpenFailed ("open SQLite: result " +:+ FormatInt code)), match handle with Some h => [h] | None => [] end)
  end.
Definition identity_changed (expected : option FileInfo) (actual : Lstat) : bool :=
  match actual with
  | Found actual => info_symlink actual || negb (info_regular actual) || match expected with Some expected => negb (SameFile expected actual) | None => false end
  | _ => true
  end.
Definition migrate_query : string := "SELECT count(*) FROM pragma_table_info('evidence_records') WHERE name='payload_json';".
Definition migrate_statement : string := "ALTER TABLE evidence_records ADD COLUMN payload_json TEXT NOT NULL DEFAULT '';".
Definition read_page_size : stateM H OpenError Z := fun h =>
  (h, match cgo_ScalarInt64 "PRAGMA page_size;" h with Ok n => if n <? 1 then Err ReadPageSize else Ok n | Err _ => Err ReadPageSize end).
Definition exec_or (statement : string) (wrap : string -> OpenError) : stateM H OpenError unit := fun h =>
  match cgo_Exec statement h with
  | (Some e, h') => (h', Err (wrap e))
  | (None, h') => (h', Ok tt)
  end.
Definition migrate : stateM H OpenError unit := fun h =>
  match cgo_ScalarInt64 migrate_query h with
  | Err e => (h, Err (MigrateFailed e))
  | Ok columns => if columns =? 0 then exec_or migrate_statement MigrateFailed h else (h, Ok tt)
  end.
(** From the opened handle to the store: the handle as it is left, and the
    outcome. *)
Definition initialize world (cleaned : string) (options : SQLiteOptions) (expected : option FileInfo) : stateM H OpenError unit :=
  _ ← reject_if (identity_changed expected (ow_lstat_opened world cleaned)) IdentityChanged;
  _ ← match ow_chmod world cleaned with Some e => raise (RestrictPermissions e) | None => mret tt end;
  pageSize ← read_page_size;
  let pageLimit := Z.quot (SQLiteOptions_HardLimitBytes options) pageSize in
  _ ← exec_or (schema +:+ String newline "PRAGMA max_page_count=" +:+ FormatInt pageLimit +:+ ";") InitializeFailed;
  migrate.
(** The store or the error, and the handles closed on the way. *)
Definition OpenSQLite world (path : string) (options : SQLiteOptions) : result OpenError (SQLite H) * list H :=
  match open_checks world path options with
  | Err e => (Err e, [])
  | Ok (cleaned, options, expected) =>
      match openNative world cleaned with
      | (Err e, closed) => (Err e, closed)
      | (Ok database, _) =>
          match initialize world cleaned options expected database with
          | (h, Err e) => (Err e, [h])
          | (h, Ok _) => (Ok (mkSQLite (Some h) cleaned (SQLiteOptions_SoftLimitBytes options) (SQLiteOptions_HardLimitBytes options)), [])
          end
      end
  end.
End Open.

(** ** What an opened store was checked for *)
Lemma IsAbs_cons p : IsAbs ("/" +:+ p) = true.
Proof. apply HasPrefix_app. eauto. Qed.
Lemma Abs_rooted wd p q : (forall d, wd = Ok d -> IsAbs d = true) -> Abs wd p = Ok q -> IsAbs q = true.
Proof.
  intros Hwd. unfold Abs. destruct (IsAbs p) eqn:Ep.
  - intros [= <-]. unfold Clean. cbv zeta. rewrite Ep. apply IsAbs_cons.
  - destruct wd as [d|]; [|done]. intros [= <-]. specialize (Hwd d eq_refl). apply HasPrefix_app in Hwd as [r ->]. unfold Clean. cbv zeta.
    rewrite <-!str_app_assoc, IsAbs_cons. apply IsAbs_cons.
Qed.
Section Opened.
Context {H : Type} `{Sqlite3 H}.
Implicit Types world : OpenWorld H.
(** The directory belongs to the process, nobody else can enter it, and no
    symbolic link leads to it. *)
Definition private_directory world (path : string) : Prop :=
  (exists resolved, ow_evalSymlinks world path = Ok resolved /\ Clean resolved = Clean path) /\
  exists info, ow_stat world path = Ok info /\ info_dir info = true /\ Z.land (info_perm info) 63 = 0 /\ info_sys info = Some (wrap32 (ow_geteuid world)).
Lemma validateSQLiteDirectory_spec world path : validateSQLiteDirectory world path = Ok tt <-> private_directory world path.
Proof.
  unfold validateSQLiteDirectory, validateSQLiteDirectoryOwner, private_directory. destruct (ow_evalSymlinks world path) as [resolved|e]; [|split; [done|by intros [(? & ? & _) _]]].
  rewrite guard_bind, negb_false_iff, bool_decide_eq_true. destruct (ow_stat world path) as [info|e]; [|split; [by intros [_ ?]|by intros [_ (? & ? & _)]]].
  rewrite !guard_bind, !negb_false_iff, Z.eqb_eq. destruct (info_sys info) as [uid|] eqn:Es.
  - rewrite guard_err_ok, negb_false_iff, Z.eqb_eq. split.
    + intros (? & ? & ? & ->). split; eauto 6.
    + intros [(? & [= <-] & ?) (? & [= <-] & ? & ? & E)]. rewrite Es in E. injection E as ->. done.
  - split; [by intros (_ & _ & _ & ?)|]. intros [_ (? & [= <-] & _ & _ & E)]. congruence.
Qed.
Definition plain_file (info : FileInfo) : Prop := info_symlink info = false /\ info_regular info = true.
Lemma open_checks_spec world path options cleaned opts expected : (forall d, ow_getwd world = Ok d -> IsAbs d = true) ->
  open_checks world path options = Ok (cleaned, opts, expected) ->
  IsAbs cleaned = true /\ Z.shiftl 1 20 <= SQLiteOptions_SoftLimitBytes opts <= SQLiteOptions_HardLimitBytes opts /\
  private_directory world (Dir cleaned) /\
  match expected with None => ow_lstat world cleaned = NotExist | Some info => ow_lstat world cleaned = Found info /\ plain_file info end.
Proof.
  intros Hwd. unfold open_checks. rewrite guard_bind. intros [_ E]. revert E. destruct (Abs (ow_getwd world) path) as [q|] eqn:Eq; [|done]. apply Abs_rooted in Eq; [|done].
  cbv zeta. rewrite guard_bind. intros [Hl E]. revert E. rewrite orb_false_iff, !Z.ltb_ge in Hl. destruct (ow_mkdirAll world (Dir q)); [done|].
  unfold mbind at 1, result_bind at 1. destruct (validateSQLiteDirectory world (Dir q)) as [[]|] eqn:Ev; [|done]. apply validateSQLiteDirectory_spec in Ev.
  destruct (ow_lstat world q) as [|e|info] eqn:El; [intros [= <- <- <-]|done|].
  - split; [done|]. split; [lia|]. done.
  - rewrite guard_bind, orb_false_iff, negb_false_iff. intros ([? ?] & [= <- <- <-]). split; [done|]. split; [lia|]. done.
Qed.
Lemma identity_kept expected actual : identity_changed expected actual = false ->
  exists info, actual = Found info /\ plain_file info /\ forall e, expected = Some e -> info_device_inode e = info_device_inode info.
Proof.
  unfold identity_changed. destruct actual as [|e|info]; [done..|]. rewrite !orb_false_iff, negb_false_iff. intros [[? ?] He]. exists info. split; [done|]. split; [done|].
  intros e ->. by apply negb_false_iff, bool_decide_eq_true in He.
Qed.
(** A store is opened only on an absolute path in a private directory, on a
    regular file that is still the one inspected before the engine opened it,
    with permissions restricted and a soft limit of at least a megabyte that
    the hard limit bounds; and whenever opening fails after the engine gave a
    handle, that handle is closed, while an opened store's handle is not. *)
Theorem OpenSQLite_checked world path options r closed : (forall d, ow_getwd world = Ok d -> IsAbs d = true) ->
  OpenSQLite world path options = (r, closed) ->
  match r with
  | Ok store =>
      closed = [] /\ is_Some (sq_database store) /\ IsAbs (sq_path store) = true /\ private_directory world (Dir (sq_path store)) /\
      Z.shiftl 1 20 <= sq_softLimit store <= sq_hardLimit store /\ ow_chmod world (sq_path store) = None /\
      exists info, ow_lstat_opened world (sq_path store) = Found info /\ plain_file info /\
        (ow_lstat world (sq_path store) = NotExist \/
         exists before, ow_lstat world (sq_path store) = Found before /\ info_device_inode before = info_device_inode info)
  | Err _ => forall cleaned opts expected h, open_checks world path options = Ok (cleaned, opts, expected) -> ow_open world cleaned = Ok h -> exists h', closed = [h']
  end.
Proof.
  intros Hwd. unfold OpenSQLite. destruct (open_checks world path options) as [[[cleaned opts] expected]|e] eqn:Ec; [|by intros [= <- <-]].
  destruct (openNative world cleaned) as [[database|e] left_open] eqn:Eo.
  2: { intros [= <- <-] ? ? ? h [= <- <- <-] Eh. unfold openNative in Eo. by rewrite Eh in Eo. }
  destruct (initialize world cleaned opts expected database) as [h [u|e]] eqn:Ei; intros [= <- <-]; [|by eauto].
  destruct (open_checks_spec _ _ _ _ _ _ Hwd Ec) as (Habs & Hl & Hp & He). cbn [sq_database sq_path sq_softLimit sq_hardLimit]. split; [done|]. split; [done|]. split; [done|]. split; [done|].
  split; [done|]. revert Ei. unfold initialize. unfold mbind at 1, stateM_bind at 1, reject_if at 1. destruct (identity_changed _ _) eqn:Eid; [done|].
  unfold mret at 1, stateM_ret at 1. unfold mbind at 1, stateM_bind at 1. destruct (ow_chmod world cleaned) as [e|] eqn:Eh; [done|]. intros _. split; [done|].
  apply identity_kept in Eid as (info & El & Hf & Hsame). exists info. split; [done|]. split; [done|]. destruct expected as [before|]; [|by left]. destruct He as [Hb _]. right. exists before. auto.
Qed.
End Opened.
Import Memory.
Definition demo_open_world (actual : Lstat) : OpenWorld Memory.MemDB :=
  mkOpenWorld (Ok "/srv") (fun _ => None) (fun p => Ok p) (fun _ => Ok (mkFileInfo false false true 448 (Some 1000) (1, 2))) 1000
    (fun _ => Found (mkFileInfo false true false 384 (Some 1000) (1, 7))) (fun _ => Ok (Memory.mkMemDB [] false)) (fun _ => actual) (fun _ => None).
Definition demo_replaced : result OpenError (SQLite Memory.MemDB) * list Memory.MemDB :=
  OpenSQLite (demo_open_world (Found (mkFileInfo false true false 384 (Some 1000) (1, 8)))) "data/evidence.db" (mkSQLiteOptions 0 0).
(** The file is replaced while the engine opens it: the handle is closed. *)
Lemma OpenSQLite_checked_witness : exists h', demo_replaced = (Err IdentityChanged, [h']).
Proof.
  assert (demo_replaced = (Err IdentityChanged, demo_replaced.2)) as E by (vm_compute; reflexivity).
  destruct (OpenSQLite_checked (demo_open_world (Found (mkFileInfo false true false 384 (Some 1000) (1, 8)))) "data/evidence.db" (mkSQLiteOptions 0 0) (Err IdentityChanged) demo_replaced.2
    ltac:(intros d [= <-]; reflexivity) E "/srv/data/evidence.db" (mkSQLiteOptions 104857600 134217728) (Some (mkFileInfo false true false 384 (Some 1000) (1, 7))) (Memory.mkMemDB [] false))
    as [h' Eh]; [vm_compute; reflexivity|reflexivity|]. exists h'. rewrite <-Eh. exact E.
Defined.
