(* ===== verification/JsonSink.v ===== *)
(** * The JSON line sink ([internal/stream/json_sink.go])

    The sink takes the monitor's output in chunks of any size, cuts it into
    lines, redacts each line and publishes it on the hub.  The redaction is in
    the redaction file; here are the framing and the classification. *)
From S2P Require Import Prelude GoStd GoTime Json Crypto Redact StoreRecord Hub.
Open Scope Z_scope.

Definition maxJSONLineBytes : Z := maxPayloadBytes.
Record PublishedRecord := mkPublishedRecord {
  PublishedRecord_RunID : string;
  PublishedRecord_KernelFact : bool;
  PublishedRecord_PolicyDecision : bool;
  PublishedRecord_Blocked : bool;
  PublishedRecord_DroppedType : string;
  PublishedRecord_DroppedCount : Z;
}.
Inductive SinkError :=
  | SinkRequires | LineExceeded | SanitizeRecord (e : RedactError) | DecodeHeader | MissingMonotonic | MissingUnix | InvalidDropCount | PublishRecord (e : HubError).
(** The sink with its hub; [sink_errors] and [sink_published] are what the two
    callbacks received, [sink_events] what the hub accepted, and [sink_lines]
    counts the lines that were handled, which the clock of the hub indexes. *)
Record JSONLineSink := mkJSONLineSink {
  sink_hub : Hub;
  sink_RunID : string;
  sink_secrets : list string;
  sink_buffer : string;
  sink_discardLine : bool;
  sink_errors : list SinkError;
  sink_published : list PublishedRecord;
  sink_events : list StreamEvent;
  sink_lines : nat;
}.
Definition NewJSONLineSink (hub : option Hub) (RunID : string) (sensitiveValues : list string) : result SinkError JSONLineSink :=
  match hub with
  | None => Err SinkRequires
  | Some hub =>
      if (RunID == "") || (128 <? slen RunID) then Err SinkRequires
      else Ok (mkJSONLineSink hub RunID (sensitive_values sensitiveValues) "" false [] [] [] 0)
  end.
Definition with_line (sink : JSONLineSink) (buffer : string) (discard : bool) : JSONLineSink :=
  mkJSONLineSink (sink_hub sink) (sink_RunID sink) (sink_secrets sink) buffer discard (sink_errors sink) (sink_published sink) (sink_events sink) (sink_lines sink).
Definition report (sink : JSONLineSink) (e : SinkError) : JSONLineSink :=
  mkJSONLineSink (sink_hub sink) (sink_RunID sink) (sink_secrets sink) (sink_buffer sink) (sink_discardLine sink) (sink_errors sink ++ [e])
    (sink_published sink) (sink_events sink) (sink_lines sink).
Definition publish (sink : JSONLineSink) (hub : Hub) (event : StreamEvent) (record : PublishedRecord) : JSONLineSink :=
  mkJSONLineSink hub (sink_RunID sink) (sink_secrets sink) (sink_buffer sink) (sink_discardLine sink) (sink_errors sink)
    (sink_published sink ++ [record]) (sink_events sink ++ [event]) (sink_lines sink).
Definition count_line (sink : JSONLineSink) : JSONLineSink :=
  mkJSONLineSink (sink_hub sink) (sink_RunID sink) (sink_secrets sink) (sink_buffer sink) (sink_discardLine sink) (sink_errors sink)
    (sink_published sink) (sink_events sink) (S (sink_lines sink)).

(** ** The header *)
Record recordHeader := mkRecordHeader {
  recordHeader_RecordType : string;
  recordHeader_EventTypeName : string;
  recordHeader_ActionName : string;
  recordHeader_ActionResultName : string;
  recordHeader_ServerReceivedMonotonicNS : string;
  recordHeader_ServerReceivedUnixNS : string;
  recordHeader_DroppedEventTypeName : string;
  recordHeader_DroppedCount : string;
}.
Section Sink.
Context `{UnicodeTables}.
(** [json.Unmarshal] into a string field: names are compared without case, the
    last member that matches wins, [null] changes nothing and any other type is
    an error. *)
Fixpoint string_field (name : string) (fields : list (string * json)) (value : string) : option string :=
  match fields with
  | [] => Some value
  | (key, v) :: fields =>
      if EqualFold key name
      then match v with JString s => string_field name fields s | JNull => string_field name fields value | _ => None end
      else string_field name fields value
  end.
Definition decode_header (text : string) : option recordHeader :=
  match Decode text with
  | Some (JObject fields) =>
      recordType ← string_field "record_type" fields "";
      eventTypeName ← string_field "event_type_name" fields "";
      actionName ← string_field "action_name" fields "";
      actionResultName ← string_field "action_result_name" fields "";
      monotonic ← string_field "server_received_monotonic_ns" fields "";
      unix ← string_field "server_received_unix_ns" fields "";
      droppedType ← string_field "dropped_event_type_name" fields "";
      droppedCount ← string_field "dropped_count" fields "";
      Some (mkRecordHeader recordType eventTypeName actionName actionResultName monotonic unix droppedType droppedCount)
  | Some JNull => Some (mkRecordHeader "" "" "" "" "" "" "" "")
  | _ => None
  end.

(** ** Classification *)
Definition is_kernel_fact (h : recordHeader) : bool :=
  (recordHeader_RecordType h == "") && (recordHeader_EventTypeName h != "drop_notice") && (recordHeader_EventTypeName h != "self_diag").
Definition record_type (h : recordHeader) : string := if recordHeader_RecordType h != "" then recordHeader_RecordType h else "kernel_event".
Definition record_source (h : recordHeader) : string :=
  if recordHeader_RecordType h != "" then
    if recordHeader_RecordType h == "agent_checkpoint" then "agent_claim"
    else if recordHeader_RecordType h == "containment_result" then "containment_result"
    else if bool_decide (recordHeader_RecordType h ∈ ["derived_record_error"; "drop_notice"; "self_diag"]) then "diagnostic"
    else "policy_decision"
  else if negb (is_kernel_fact h) then "diagnostic" else "kernel_fact".
Definition event_type (h : recordHeader) : string :=
  let eventType := if recordHeader_RecordType h != "" then recordHeader_RecordType h else recordHeader_EventTypeName h in
  if eventType == "" then record_type h else eventType.
Definition severity_of (h : recordHeader) : string :=
  if recordHeader_ActionResultName h == "blocked" then "high"
  else if (recordHeader_ActionName h == "alert") || (recordHeader_ActionName h == "contain") || Contains (event_type h) "error" || Contains (event_type h) "drop"
  then "medium" else "info".
Definition positive (text : string) : option Z :=
  match ParseUint text with Some v => if v =? 0 then None else Some v | None => None end.
(** The count a drop notice must carry; zero for the other records. *)
Definition dropped_count (h : recordHeader) : option Z :=
  if event_type h == "drop_notice"
  then match positive (recordHeader_DroppedCount h) with Some n => if recordHeader_DroppedEventTypeName h == "" then None else Some n | None => None end
  else Some 0.
Definition line_event (sink : JSONLineSink) (h : recordHeader) (monotonic unix : Z) (sanitized : string) : StreamEvent :=
  mkStreamEvent (record_type h +:+ "-" +:+ hex_EncodeToString (str_take 12 (Sum256 sanitized))) (record_type h) (record_source h) (sink_RunID sink)
    (severity_of h) (event_type h) monotonic unix (is_kernel_fact h && (recordHeader_ActionName h == "audit")) sanitized.

(** ** Lines *)
Context (clock : nat -> Time).
Definition publishLine (sink : JSONLineSink) (line : string) : JSONLineSink :=
  match redactJSON maxPayloadBytes line (sink_secrets sink) with
  | Err e => report sink (SanitizeRecord e)
  | Ok sanitized =>
      match decode_header sanitized with
      | None => report sink DecodeHeader
      | Some h =>
          match positive (recordHeader_ServerReceivedMonotonicNS h) with
          | None => report sink MissingMonotonic
          | Some monotonic =>
              match positive (recordHeader_ServerReceivedUnixNS h) with
              | None => report sink MissingUnix
              | Some unix =>
                  match dropped_count h with
                  | None => report sink InvalidDropCount
                  | Some droppedCount =>
                      let event := line_event sink h monotonic unix sanitized in
                      match Publish (sink_hub sink) event (clock (sink_lines sink)) with
                      | (_, Err e) => report sink (PublishRecord e)
                      | (hub, Ok _) =>
                          publish sink hub event (mkPublishedRecord (sink_RunID sink) (is_kernel_fact h) (recordHeader_RecordType h == "policy_decision")
                            (recordHeader_ActionResultName h == "blocked") (recordHeader_DroppedEventTypeName h) droppedCount)
                      end
                  end
              end
          end
      end
  end.
Definition take_chunk (sink : JSONLineSink) (chunk : string) : JSONLineSink :=
  if sink_discardLine sink then sink
  else if maxJSONLineBytes <? slen (sink_buffer sink) + slen chunk then report (with_line sink "" true) LineExceeded
  else with_line sink (sink_buffer sink +:+ chunk) false.
Definition end_line (sink : JSONLineSink) : JSONLineSink :=
  let sink := if negb (sink_discardLine sink) && (0 <? slen (TrimSpace (sink_buffer sink))) then count_line (publishLine sink (drop_cr (sink_buffer sink))) else sink in
  with_line sink "" false.
(** The loop of [Write], over the pieces between the newlines: the last one is
    not terminated, and an empty one is no iteration. *)
Fixpoint write_pieces (sink : JSONLineSink) (pieces : list string) : JSONLineSink :=
  match pieces with
  | [] => sink
  | [chunk] => if chunk == "" then sink else take_chunk sink chunk
  | chunk :: pieces => write_pieces (end_line (take_chunk sink chunk)) pieces
  end.
Definition Write (sink : JSONLineSink) (input : string) : JSONLineSink * Z := (write_pieces sink (split_byte newline input), slen input).
Definition Write_all (sink : JSONLineSink) (inputs : list string) : JSONLineSink := foldl (fun sink input => (Write sink input).1) sink inputs.
End Sink.

(** ** Framing *)
Section Framing.
Context `{UnicodeTables} (clock : nat -> Time).
Implicit Types sink : JSONLineSink.
Definition fits sink : Prop := slen (sink_buffer sink) <= maxJSONLineBytes.
Lemma take_chunk_fits sink chunk : fits sink -> fits (take_chunk sink chunk).
Proof.
  unfold fits, take_chunk. intros Hf. destruct (sink_discardLine sink); [done|]. destruct (Z.ltb_spec maxJSONLineBytes (slen (sink_buffer sink) + slen chunk)); [done|].
  cbn [sink_buffer with_line]. by rewrite slen_app.
Qed.
Lemma take_chunk_app sink x y : take_chunk (take_chunk sink x) y = take_chunk sink (x +:+ y).
Proof.
  unfold take_chunk at 2 3. destruct (sink_discardLine sink) eqn:Ed; [by unfold take_chunk; rewrite Ed|]. rewrite slen_app. pose proof (slen_nonneg y).
  destruct (Z.ltb_spec maxJSONLineBytes (slen (sink_buffer sink) + slen x)) as [Hx|Hx].
  - destruct (Z.ltb_spec maxJSONLineBytes (slen (sink_buffer sink) + (slen x + slen y))); [done|lia].
  - unfold take_chunk. cbn [sink_discardLine sink_buffer with_line]. rewrite slen_app, <-Z.add_assoc, <-str_app_assoc. by destruct (_ <? _).
Qed.
Lemma take_chunk_nil sink : fits sink -> take_chunk sink "" = sink.
Proof.
  unfold fits, take_chunk. intros Hf. destruct (sink_discardLine sink) eqn:Ed; [done|]. change (slen "") with 0. rewrite Z.add_0_r.
  destruct (Z.ltb_spec maxJSONLineBytes (slen (sink_buffer sink))); [lia|]. rewrite str_app_nil_r. destruct sink; cbn in *. by rewrite Ed.
Qed.
Lemma end_line_fits sink : fits (end_line clock sink).
Proof. unfold fits, end_line. cbn. done. Qed.
Lemma split_byte_nonempty c s : split_byte c s <> [].
Proof. induction s as [|d s IH]; [done|]. cbn [split_byte]. destruct (split_byte c s); [done|]. by destruct (d == c). Qed.
(** The pieces of a concatenation: the last of the first and the first of the
    second are joined. *)
Lemma split_byte_concat c s t : exists front last first back,
  split_byte c s = front ++ [last] /\ split_byte c t = first :: back /\ split_byte c (s +:+ t) = front ++ (last +:+ first) :: back.
Proof.
  induction s as [|d s (front & last & first & back & Es & Et & Est)].
  - destruct (split_byte c t) as [|first back] eqn:Et; [by apply split_byte_nonempty in Et|]. exists [], "", first, back. cbn [app]. by rewrite !str_app_nil_l.
  - rewrite str_app_cons. cbn [split_byte]. rewrite Es, Est, Et. destruct (d == c) eqn:Ed.
    + exists ("" :: front), last, first, back. destruct front; done.
    + destruct front as [|f front]; cbn [app].
      * exists [], (String d last), first, back. by rewrite str_app_cons.
      * exists (String d f :: front), last, first, back. done.
Qed.
(** All pieces but the last end a line. *)
Lemma write_pieces_snoc front : forall sink last, fits sink ->
  write_pieces clock sink (front ++ [last]) = take_chunk (foldl (fun sink chunk => end_line clock (take_chunk sink chunk)) sink front) last.
Proof.
  induction front as [|f front IH]; intros sink last Hf; cbn [app foldl].
  - cbn [write_pieces]. destruct (bool_decide_reflect (last = "")) as [->|]; [|done]. by rewrite take_chunk_nil.
  - rewrite <-IH by apply end_line_fits. cbn [write_pieces]. by destruct (front ++ [last]) eqn:E; [destruct front|].
Qed.
Lemma Write_app sink a b : fits sink -> (Write clock (Write clock sink a).1 b).1 = (Write clock sink (a +:+ b)).1 /\ fits (Write clock sink a).1.
Proof.
  intros Hf. unfold Write. cbn [fst]. destruct (split_byte_concat newline a b) as (front & last & first & back & Ea & Eb & Eab). rewrite Ea, Eb, Eab.
  rewrite write_pieces_snoc by done. set (s1 := foldl _ sink front). assert (fits s1) as H1.
  { subst s1. clear Ea Eab. revert sink Hf. induction front as [|f front IH]; intros sink Hf; [done|]. cbn [foldl]. apply IH, end_line_fits. }
  split; [|by apply take_chunk_fits]. destruct back as [|x back] using rev_ind.
  - rewrite (write_pieces_snoc front) by done. pose proof (write_pieces_snoc [] (take_chunk s1 last) first (take_chunk_fits _ _ H1)) as E0. cbn [app foldl] in E0.
    rewrite E0. apply take_chunk_app.
  - clear IHback. change (first :: back ++ [x]) with ((first :: back) ++ [x]). change ((last +:+ first) :: back ++ [x]) with (((last +:+ first) :: back) ++ [x]).
    rewrite (assoc_L (++)), !write_pieces_snoc by (done || by apply take_chunk_fits). rewrite foldl_app. cbn [foldl]. by rewrite take_chunk_app.
Qed.
End Framing.
(** The sink does not depend on how its input is cut into chunks: writing
    the pieces one after the other leaves the same buffer, publishes the same
    events and reports the same errors as one write of everything. *)
Theorem Write_chunks `{UnicodeTables} clock sink inputs : slen (sink_buffer sink) <= maxJSONLineBytes ->
  Write_all clock sink inputs = (Write clock sink (String.concat "" inputs)).1.
Proof.
  unfold Write_all. revert sink. induction inputs as [|a inputs IH]; intros sink Hf; [done|]. cbn [foldl]. destruct (Write_app clock sink a (String.concat "" inputs) Hf) as [E Hf'].
  rewrite IH by done. by rewrite E, concat_cons.
Qed.

(** ** What is published *)
Section Published.
Context `{UnicodeTables} (clock : nat -> Time) (run : string) (secrets : list string) (Nonempty : Forall nonempty secrets).
Implicit Types sink : JSONLineSink.
Definition is_overlong (e : SinkError) : bool := match e with LineExceeded => true | _ => false end.
Definition other_errors (errors : list SinkError) : list SinkError := List.filter (fun e => negb (is_overlong e)) errors.
(** An event of this run whose payload is JSON without secrets and whose
    source says where the record comes from. *)
Definition clean_event (e : StreamEvent) : Prop :=
  StreamEvent_RunID e = run /\ validateEvent e = true /\
  (exists v, StreamEvent_Payload e = Marshal v /\ Decode (StreamEvent_Payload e) = Some (norm v) /\ hidden_stream secrets v = true) /\
  (StreamEvent_Source e = "kernel_fact" -> StreamEvent_Type e = "kernel_event") /\
  (StreamEvent_Source e = "agent_claim" <-> StreamEvent_Type e = "agent_checkpoint") /\
  (StreamEvent_Source e = "containment_result" <-> StreamEvent_Type e = "containment_result") /\
  (StreamEvent_Audit e = true -> StreamEvent_Source e = "kernel_fact") /\
  1 <= StreamEvent_ServerMonotonicNS e <= u64_max /\ 1 <= StreamEvent_ServerUnixNS e <= u64_max.
Record sink_ok sink : Prop := {
  ok_run : sink_RunID sink = run;
  ok_secrets : sink_secrets sink = secrets;
  ok_events : Forall clean_event (sink_events sink);
  ok_count : (length (sink_events sink) + length (other_errors (sink_errors sink)) = sink_lines sink)%nat;
}.
Lemma positive_range text v : positive text = Some v -> 1 <= v <= u64_max.
Proof. unfold positive. destruct (ParseUint text) as [n|] eqn:E; [|done]. apply ParseUint_range in E. destruct (Z.eqb_spec n 0); [done|]. intros [= <-]. lia. Qed.
Lemma redactJSON_clean input text : redactJSON maxPayloadBytes input secrets = Ok text ->
  exists v, text = Marshal v /\ Decode text = Some (norm v) /\ hidden_stream secrets v = true.
Proof.
  unfold redactJSON. destruct (decode_next input) as [[v rest]|] eqn:Ed; [|done]. destruct (bool_decide_reflect (skip_space rest = "")) as [Er|]; [|done]. cbn [negb].
  destruct (redactValue secrets v 0) as [v'|] eqn:Ev; [|done]. cbn [mbind result_bind]. cbv zeta. destruct (_ <? _); [done|]. intros [= <-]. exists v'. split; [done|].
  assert (Decode input = Some v) as Hd by (unfold Decode; rewrite Ed, Er; done). pose proof (Decode_canonical _ _ Hd) as [Hc Hdp]. apply norm_canonical in Hc as [_ Hc].
  destruct (redactValue_printable _ _ 0 _ ltac:(lia) Ev Hc) as [Hp Hle]. split; [|by eapply redactValue_hides]. apply Decode_printed; [done|].
  assert (34 <= maxNestingDepth)%nat by (apply Nat.leb_le; reflexivity). change (Z.to_nat (34 - 0)) with 34%nat in Hle. lia.
Qed.
Lemma source_type h : (record_source h = "kernel_fact" -> record_type h = "kernel_event") /\ (record_source h = "agent_claim" <-> record_type h = "agent_checkpoint") /\
  (record_source h = "containment_result" <-> record_type h = "containment_result") /\ (is_kernel_fact h = true -> record_source h = "kernel_fact").
Proof.
  unfold record_source, record_type, is_kernel_fact. destruct (bool_decide_reflect (recordHeader_RecordType h = "")) as [E|E]; cbn [negb andb].
  - destruct (_ && _); cbn [negb]; split_and!; done.
  - destruct (bool_decide_reflect (recordHeader_RecordType h = "agent_checkpoint")) as [->|E1]; [split_and!; done|].
    destruct (bool_decide_reflect (recordHeader_RecordType h = "containment_result")) as [->|E2]; [split_and!; done|]. destruct (bool_decide _); split_and!; done.
Qed.
Lemma publishLine_ok sink line : sink_ok sink -> sink_ok (count_line (publishLine clock sink line)).
Proof.
  intros Hok. pose proof Hok as [Hr Hs He Hc].
  assert (forall e, is_overlong e = false -> sink_ok (count_line (report sink e))) as Herr.
  { intros e Ho. split; cbn [sink_RunID sink_secrets sink_events sink_errors sink_lines count_line report]; try done.
    unfold other_errors in *. rewrite List.filter_app, length_app. cbn [List.filter]. rewrite Ho. cbn [negb length]. lia. }
  unfold publishLine. destruct (redactJSON _ _ _) as [text|e] eqn:Et; [|by apply Herr]. rewrite Hs in Et. destruct (decode_header text) as [h|]; [|by apply Herr].
  destruct (positive (recordHeader_ServerReceivedMonotonicNS h)) as [mono|] eqn:Em; [|by apply Herr]. destruct (positive (recordHeader_ServerReceivedUnixNS h)) as [unix|] eqn:Eu; [|by apply Herr].
  destruct (dropped_count h) as [n|]; [|by apply Herr]. cbv zeta. destruct (Publish _ _ _) as [hub [m|e]] eqn:Ep; [|by apply Herr].
  split; cbn [sink_RunID sink_secrets sink_events sink_errors sink_lines count_line publish]; try done; [|rewrite length_app; cbn [length]; lia]. apply Forall_app. split; [done|]. apply Forall_singleton. destruct (source_type h) as (H1 & H2 & H3 & H4).
  split; [done|]. split; [unfold Publish in Ep; by destruct (validateEvent _)|]. split; [by eapply redactJSON_clean|]. split; [done|]. split; [done|]. split; [done|].
  split; [intros [Ha _]%andb_true_iff; by apply H4|]. split; by eapply positive_range.
Qed.
Lemma take_chunk_ok sink chunk : sink_ok sink -> sink_ok (take_chunk sink chunk).
Proof.
  intros [Hr Hs He Hc]. unfold take_chunk. destruct (sink_discardLine sink); [done|]. destruct (_ <? _); [|by split]. split; cbn [sink_RunID sink_secrets sink_events sink_errors sink_lines with_line report]; try done.
  unfold other_errors in *. rewrite List.filter_app, length_app. cbn [List.filter is_overlong negb length]. lia.
Qed.
Lemma end_line_ok sink : sink_ok sink -> sink_ok (end_line clock sink).
Proof.
  intros Hok. unfold end_line. cbv zeta. destruct (_ && _); [|by destruct Hok]. by destruct (publishLine_ok sink (drop_cr (sink_buffer sink)) Hok).
Qed.
Lemma write_pieces_ok pieces : forall sink, sink_ok sink -> sink_ok (write_pieces clock sink pieces).
Proof.
  induction pieces as [|p pieces IH]; intros sink Hok; [done|]. cbn [write_pieces]. destruct pieces as [|q pieces]; [destruct (p == ""); [done|by apply take_chunk_ok]|].
  by apply IH, end_line_ok, take_chunk_ok.
Qed.
Lemma Write_all_ok inputs : forall sink, sink_ok sink -> sink_ok (Write_all clock sink inputs).
Proof. unfold Write_all. induction inputs as [|a inputs IH]; intros sink Hok; [done|]. cbn [foldl]. by apply IH, write_pieces_ok. Qed.
End Published.
(** Whatever is written to a sink, every event it publishes belongs to its
    run, carries JSON in which no configured secret and no value of a sensitive
    name is left, is labelled an agent's claim, a kernel fact or a containment
    result only if the record is one, and has server times; and every line
    that is not blank or too long is published or reported, exactly once. *)
Theorem sink_publishes_redacted `{UnicodeTables} clock hub run values sink inputs : NewJSONLineSink (Some hub) run values = Ok sink ->
  let sink' := Write_all clock sink inputs in
  Forall (clean_event run (sensitive_values values)) (sink_events sink') /\
  (length (sink_events sink') + length (other_errors (sink_errors sink')) = sink_lines sink')%nat.
Proof.
  unfold NewJSONLineSink. destruct (_ || _); [done|]. intros [= <-]. cbv zeta.
  destruct (Write_all_ok clock run (sensitive_values values) (NewRedactor_nonempty values) inputs (mkJSONLineSink hub run (sensitive_values values) "" false [] [] [] 0)) as [_ _ He Hc]; [by split|].
  done.
Qed.
(** ** A run of the sink *)
Definition demo_sink_hub : Hub := mkHub 2 defaultMaxAge 1 "/api/v1/snapshot" 0 [] 0 ∅ ∅ false.
Definition demo_line (extra : string) : string :=
  "{" +:+ quoted "event_type_name" +:+ ":" +:+ quoted "exec" +:+ "," +:+ quoted "server_received_monotonic_ns" +:+ ":" +:+ quoted "17" +:+ "," +:+
  quoted "server_received_unix_ns" +:+ ":" +:+ quoted "18" +:+ "," +:+ quoted "note" +:+ ":" +:+ quoted ("hunter22" +:+ extra) +:+ "}" +:+ String newline "".
Definition demo_sink : JSONLineSink := mkJSONLineSink demo_sink_hub "run-1" ["hunter22"] "" false [] [] [] 0.
#[local] Instance demo_sink_tables : UnicodeTables := ascii_tables.
Definition demo_written : JSONLineSink := Write_all (fun _ => 100) demo_sink ["{" +:+ quoted "a"; ":1}" +:+ String newline (demo_line "!")].
Lemma Write_chunks_witness : demo_written = (Write (fun _ => 100) demo_sink (String.concat "" ["{" +:+ quoted "a"; ":1}" +:+ String newline (demo_line "!")])).1.
Proof. apply (Write_chunks (fun _ => 100) demo_sink). vm_compute. discriminate. Defined.
Lemma sink_publishes_redacted_witness : sink_errors demo_written = [MissingMonotonic] /\ StreamEvent_Source <$> sink_events demo_written = ["kernel_fact"] /\
  Forall (clean_event "run-1" ["hunter22"]) (sink_events demo_written).
Proof.
  split; [vm_compute; reflexivity|]. split; [vm_compute; reflexivity|].
  refine (proj1 (sink_publishes_redacted (fun _ => 100) demo_sink_hub "run-1" ["hunter22"; "abc"] demo_sink ["{" +:+ quoted "a"; ":1}" +:+ String newline (demo_line "!")] _)).
  vm_compute. reflexivity.
Defined.
