(* ===== verification/WebSocket.v ===== *)
(** * WebSocket framing and handshake ([internal/stream/handler.go])

    SHA-1 and padded base64 for the handshake, the frames the server writes and
    the reader of the client's control frames.  Sockets are byte lists; the
    peer of each function is the framing of RFC 6455, written as a reader and
    a masked writer. *)
From S2P Require Import Prelude GoStd GoTime Json Crypto.
Open Scope Z_scope.

(** ** SHA-1 *)
Definition rotl (n x : Z) : Z := wrap32 (Z.lor (Z.shiftl x n) (Z.shiftr x (32 - n))).
Definition sha1_next (w : list Z) : Z := rotl 1 (Z.lxor (Z.lxor (nth 13 w 0) (nth 8 w 0)) (Z.lxor (nth 2 w 0) (nth 0 w 0))).
Definition sha1_function (t : Z) (b c d : Z) : Z :=
  if t <? 20 then Z.lor (Z.land b c) (Z.land (u32_max - b) d) else if t <? 40 then Z.lxor (Z.lxor b c) d
  else if t <? 60 then Z.lor (Z.lor (Z.land b c) (Z.land b d)) (Z.land c d) else Z.lxor (Z.lxor b c) d.
Definition sha1_constant (t : Z) : Z := if t <? 20 then 0x5a827999 else if t <? 40 then 0x6ed9eba1 else if t <? 60 then 0x8f1bbcdc else 0xca62c1d6.
(** The window [w] holds the next sixteen words of the schedule. *)
Fixpoint sha1_rounds (n : nat) (t : Z) (w h : list Z) : list Z :=
  match n, h with
  | S n, [a; b; c; d; e] =>
      sha1_rounds n (t + 1) (drop 1 w ++ [sha1_next w]) [wrap32 (rotl 5 a + sha1_function t b c d + e + sha1_constant t + nth 0 w 0); a; rotl 30 b; c; d]
  | _, _ => h
  end.
Definition sha1_block (h b : list Z) : list Z := zip_with (fun x y => wrap32 (x + y)) h (sha1_rounds 80 0 (map from_big_endian (chunks 16 4 b)) h).
Definition sha1_Sum (data : string) : list Z :=
  let padded := pad (string_bytes data) in
  concat (map (big_endian 4) (fold_left sha1_block (chunks (length padded) 64 padded) [0x67452301; 0xefcdab89; 0x98badcfe; 0x10325476; 0xc3d2e1f0])).

(** ** Base64, standard alphabet, padded *)
Definition std_char (z : Z) : ascii :=
  chr (if z <? 26 then 65 + z else if z <? 52 then 71 + z else if z <? 62 then z - 4 else if z =? 62 then 43 else 47).
Definition std_value (c : ascii) : option Z :=
  let b := byte_val c in
  if in_range 65 90 b then Some (b - 65) else if in_range 97 122 b then Some (b - 71)
  else if in_range 48 57 b then Some (b + 4) else if b =? 43 then Some 62 else if b =? 47 then Some 63 else None.
Definition padding (n : nat) : string := match (n mod 3)%nat with 1%nat => "==" | 2%nat => "=" | _ => "" end.
Definition Std_EncodeToString (l : list Z) : string := String.string_of_list_ascii (map std_char (url_encode l)) +:+ padding (length l).
(** Quanta of four characters; only the last may be padded. *)
Fixpoint std_decode (l : list ascii) : option (list Z) :=
  match l with
  | [] => Some []
  | a :: b :: c :: d :: rest =>
      a ← std_value a;
      b ← std_value b;
      if d == "="%char then
        match rest with
        | [] => if c == "="%char then Some [a * 4 + b / 16] else c ← std_value c; Some [a * 4 + b / 16; b mod 16 * 16 + c / 4]
        | _ => None
        end
      else
        c ← std_value c;
        d ← std_value d;
        more ← std_decode rest;
        Some (a * 4 + b / 16 :: b mod 16 * 16 + c / 4 :: c mod 4 * 64 + d :: more)
  | _ => None
  end.
Definition Std_DecodeString (s : string) : option (list Z) :=
  std_decode (List.filter (fun c => negb (is_line_break c)) (String.list_ascii_of_string s)).

(** ** The handshake *)
Definition websocketGUID : string := "258EAFA5-E914-47DA-95CA-C5AB0DC85B11".
Definition crlf : string := String (chr 13) (String (chr 10) "").
Definition accept_value (key : string) : string := Std_EncodeToString (sha1_Sum (key +:+ websocketGUID)).
Definition writeUpgrade (key : string) : string :=
  "HTTP/1.1 101 Switching Protocols" +:+ crlf +:+ "Upgrade: websocket" +:+ crlf +:+ "Connection: Upgrade" +:+ crlf +:+
  "Sec-WebSocket-Accept: " +:+ accept_value key +:+ crlf +:+ crlf.

(** ** Frames *)
(** The bytes of an unmasked, final frame. *)
Definition writeFrame (opcode : Z) (payload : list Z) : list Z :=
  let n := len payload in
  Z.lor 128 opcode ::
  (if n <? 126 then [n mod 256]
   else if n <=? 65535 then [126; Z.shiftr n 8 mod 256; n mod 256]
   else 127 :: big_endian 8 n) ++ payload.
Definition close_payload (code : Z) (reason : string) : list Z := big_endian 2 code ++ string_bytes reason.
Definition writeCloseFrame (code : Z) (reason : string) : list Z := writeFrame 8 (close_payload code reason).

(** [payload[index] ^= mask[index%4]]. *)
Definition unmask (mask payload : list Z) : list Z := imap (fun i b => Z.lxor b (nth (i mod 4) mask 0)) payload.
(** [io.ReadFull]: all or an error. *)
Definition read_full (n : nat) (input : list Z) : option (list Z * list Z) := if (n <=? length input)%nat then Some (take n input, drop n input) else None.
(** The extended length of a frame. *)
Definition read_length (low : Z) (input : list Z) : option (Z * list Z) :=
  if low =? 126 then '(b, rest) ← read_full 2 input; Some (from_big_endian b, rest)
  else if low =? 127 then '(b, rest) ← read_full 8 input; let n := from_big_endian b in if negb (Z.land n (2 ^ 63) =? 0) then None else Some (n, rest)
  else Some (low, input).
Inductive ClientFrame := CloseFrame | PingFrame (payload : list Z) | PongFrame.
(** One iteration of [readClientFrames]: the frame and what follows it, or
    [None] where the loop returns. *)
Definition read_client_frame (input : list Z) : option (ClientFrame * list Z) :=
  '(header, rest) ← read_full 2 input;
  let h0 := nth 0 header 0 in
  let h1 := nth 1 header 0 in
  if (Z.land h0 128 =? 0) || (Z.land h1 128 =? 0) then None
  else
    let opcode := Z.land h0 15 in
    if negb (opcode =? 8) && negb (opcode =? 9) && negb (opcode =? 10) then None
    else
      '(length, rest) ← read_length (Z.land h1 127) rest;
      if 125 <? length then None
      else
        '(mask, rest) ← read_full 4 rest;
        '(masked, rest) ← read_full (Z.to_nat length) rest;
        let payload := unmask mask masked in
        Some (if opcode =? 8 then CloseFrame else if opcode =? 9 then PingFrame payload else PongFrame, rest).
(** The pongs written until the loop returns; [writes] tells how many writes
    succeed before the connection breaks. *)
Fixpoint read_client_frames (fuel : nat) (writes : nat) (input : list Z) : list (list Z) :=
  match fuel with
  | O => []
  | S fuel =>
      match read_client_frame input with
      | None => []
      | Some (CloseFrame, _) => []
      | Some (PongFrame, rest) => read_client_frames fuel writes rest
      | Some (PingFrame payload, rest) =>
          match writes with
          | O => []
          | S writes => writeFrame 10 payload :: read_client_frames fuel writes rest
          end
      end
  end.
Definition readClientFrames (writes : nat) (input : list Z) : list (list Z) := read_client_frames (S (length input)) writes input.

(** ** The other end (RFC 6455) *)
(** A reader of one unfragmented, unmasked frame. *)
Definition rfc_read (input : list Z) : option (Z * list Z * list Z) :=
  match input with
  | b0 :: b1 :: rest =>
      if (Z.land b0 128 =? 0) || negb (Z.land b1 128 =? 0) then None
      else
        '(n, rest) ← (if b1 =? 126 then '(b, rest) ← read_full 2 rest; Some (from_big_endian b, rest)
                      else if b1 =? 127 then '(b, rest) ← read_full 8 rest; Some (from_big_endian b, rest) else Some (b1, rest));
        '(payload, rest) ← read_full (Z.to_nat n) rest;
        Some (Z.land b0 15, payload, rest)
  | _ => None
  end.
(** A masked control frame of a client. *)
Definition client_frame (opcode : Z) (mask payload : list Z) : list Z :=
  Z.lor 128 opcode :: Z.lor 128 (len payload) :: mask ++ unmask mask payload.

Lemma accept_value_rfc : accept_value "dGhlIHNhbXBsZSBub25jZQ==" = "s3pPLMBiTxaQ9kYGzzhZRbK+xOo=".
Proof. vm_compute. reflexivity. Qed.
Lemma sha1_abc : hex_EncodeToString (bytes_to_string (sha1_Sum "abc")) = "a9993e364706816aba3e25717850c26c9cd0d89d".
Proof. vm_compute. reflexivity. Qed.

(** ** Base64 decodes what it encodes *)
Lemma std_value_char z : sextet z -> std_value (std_char z) = Some z /\ is_line_break (std_char z) = false /\ std_char z <> "="%char.
Proof.
  unfold sextet. intros Hz. assert (exists n, (n < 64)%nat /\ z = Z.of_nat n) as (n & Hn & ->) by (exists (Z.to_nat z); lia).
  clear Hz. do 64 (destruct n as [|n]; [by vm_compute|]). lia.
Qed.
Lemma std_roundtrip l : Forall is_byte l -> Std_DecodeString (Std_EncodeToString l) = Some l.
Proof.
  intros Hl. unfold Std_DecodeString, Std_EncodeToString. pose proof (url_sextets _ Hl) as Hs.
  assert (forall l, Forall sextet l -> List.filter (fun c => negb (is_line_break c)) (map std_char l) = map std_char l) as Hclean.
  { clear. induction 1 as [|z l Hz _ IH]; [done|]. cbn [map List.filter]. destruct (std_value_char z Hz) as (_ & -> & _). cbn [negb]. by rewrite IH. }
  assert (forall s t, String.list_ascii_of_string (s +:+ t) = String.list_ascii_of_string s ++ String.list_ascii_of_string t) as Happ.
  { clear. induction s as [|c s IH]; intros t; [done|]. rewrite str_app_cons. cbn. by rewrite IH. }
  rewrite Happ, String.list_ascii_of_string_of_list_ascii, List.filter_app, Hclean by done. clear Happ.
  replace (List.filter _ _) with (String.list_ascii_of_string (padding (length l))) by (unfold padding; repeat case_match; done). clear Hclean.
  revert Hl Hs. unfold is_byte. induction l as [|a|a b|a b c l IH] using groups_of_three; cbn [url_encode]; intros Hl Hs.
  1: done. all: repeat (apply Forall_cons in Hl as [? Hl]); repeat (apply Forall_cons in Hs as [?Hx Hs]);
    repeat match goal with H : sextet ?z |- _ => pose proof (std_value_char z H) as (?Hv & _ & ?Hn); clear H end; cbn [map app].
  - change (String.list_ascii_of_string (padding (length [a]))) with ["="%char; "="%char]. cbn [app std_decode]. rewrite Hv, Hv0. cbn [mbind option_bind].
    rewrite !bool_decide_eq_true_2 by done. repeat f_equal. Z.to_euclidean_division_equations. lia.
  - change (String.list_ascii_of_string (padding (length [a; b]))) with ["="%char]. cbn [app std_decode]. rewrite Hv, Hv0, Hv1. cbn [mbind option_bind].
    rewrite bool_decide_eq_true_2, bool_decide_eq_false_2 by done. repeat f_equal; Z.to_euclidean_division_equations; lia.
  - assert (padding (length (a :: b :: c :: l)) = padding (length l)) as -> by (unfold padding; cbn [length]; by rewrite <-(Nat.Div0.mod_add (length l) 1 3), Nat.add_comm).
    cbn [std_decode]. rewrite Hv, Hv0, Hv1, Hv2, IH by done. cbn [mbind option_bind]. rewrite bool_decide_eq_false_2 by done. repeat f_equal; Z.to_euclidean_division_equations; lia.
Qed.

(** ** Frames *)
Lemma read_full_app n a b : length a = n -> read_full n (a ++ b) = Some (a, b).
Proof.
  intros <-. unfold read_full. rewrite length_app. assert ((length a <=? length a + length b)%nat = true) as -> by (apply Nat.leb_le; lia). by rewrite take_app_length, drop_app_length.
Qed.
Lemma from_big_endian_app l b : from_big_endian (l ++ [b]) = from_big_endian l * 256 + b.
Proof. unfold from_big_endian. by rewrite fold_left_app. Qed.
Lemma from_to_big_endian n : forall z, 0 <= z < 256 ^ Z.of_nat n -> from_big_endian (big_endian n z) = z.
Proof.
  induction n as [|n IH]; intros z Hz; [change (256 ^ Z.of_nat 0) with 1 in Hz; cbn; lia|]. cbn [big_endian]. rewrite from_big_endian_app, IH.
  - pose proof (Z.div_mod z 256 ltac:(lia)). lia.
  - rewrite Nat2Z.inj_succ, Z.pow_succ_r in Hz by lia. split; [apply Z.div_pos; lia|apply Z.div_lt_upper_bound; lia].
Qed.
Lemma opcode_bits opcode : 0 <= opcode < 16 -> Z.land (Z.lor 128 opcode) 128 = 128 /\ Z.land (Z.lor 128 opcode) 15 = opcode.
Proof.
  intros Ho. assert (exists n, (n < 16)%nat /\ opcode = Z.of_nat n) as (n & Hn & ->) by (exists (Z.to_nat opcode); lia). clear Ho. do 16 (destruct n as [|n]; [by vm_compute|]). lia.
Qed.
Lemma length_bits n : 0 <= n < 128 -> Z.land n 128 = 0 /\ Z.land (Z.lor 128 n) 128 = 128 /\ Z.land (Z.lor 128 n) 127 = n.
Proof.
  intros Ho. assert (exists k, (k < 128)%nat /\ n = Z.of_nat k) as (k & Hk & ->) by (exists (Z.to_nat n); lia). clear Ho. do 128 (destruct k as [|k]; [by vm_compute|]). lia.
Qed.
(** A peer that reads frames as RFC 6455 says reads back every frame the
    server writes, with its opcode and payload and nothing of what follows, at
    each of the three length encodings. *)
Theorem writeFrame_reads_back opcode payload rest : 0 <= opcode < 16 -> len payload < 2 ^ 63 ->
  rfc_read (writeFrame opcode payload ++ rest) = Some (opcode, payload, rest).
Proof.
  intros Ho Hl. destruct (opcode_bits _ Ho) as [B1 B2]. pose proof (len_nonneg payload). assert (length payload = Z.to_nat (len payload)) as El by (unfold len; lia).
  unfold writeFrame. cbv zeta. destruct (Z.ltb_spec (len payload) 126) as [H1|H1]; [|destruct (Z.leb_spec (len payload) 65535) as [H2|H2]]; cbn [app]; unfold rfc_read; rewrite B1, B2; cbn [Z.eqb orb negb].
  - rewrite Z.mod_small by lia. destruct (length_bits (len payload) ltac:(lia)) as [-> _]. cbn [Z.eqb negb].
    destruct (Z.eqb_spec (len payload) 126); [lia|]. destruct (Z.eqb_spec (len payload) 127); [lia|]. cbn [mbind option_bind]. by rewrite read_full_app.
  - change (Z.land 126 128) with 0. cbn [Z.eqb negb Pos.eqb].
    change (Z.shiftr (len payload) 8 mod 256 :: len payload mod 256 :: payload ++ rest) with ([Z.shiftr (len payload) 8 mod 256; len payload mod 256] ++ payload ++ rest).
    rewrite (read_full_app 2) by done. cbn [mbind option_bind]. assert (from_big_endian [Z.shiftr (len payload) 8 mod 256; len payload mod 256] = len payload) as ->.
    { unfold from_big_endian. cbn [fold_left]. rewrite Z.shiftr_div_pow2 by lia. change (2 ^ 8) with 256. Z.to_euclidean_division_equations. lia. }
    by rewrite read_full_app.
  - change (Z.land 127 128) with 0. cbn [Z.eqb negb Pos.eqb]. rewrite <-(assoc_L (++)), (read_full_app 8) by apply big_endian_length. cbn [mbind option_bind].
    rewrite from_to_big_endian by (split; [lia|]; etrans; [exact Hl|vm_compute; reflexivity]). by rewrite read_full_app.
Qed.
Lemma writeFrame_reads_back_witness : rfc_read (writeFrame 1 (replicate 200 7) ++ [1; 2]) = Some (1, replicate 200 7, [1; 2]).
Proof. apply (writeFrame_reads_back 1 (replicate 200 7) [1; 2]); [lia|vm_compute; reflexivity]. Defined.

(** ** Control frames *)
Lemma unmask_twice mask payload : unmask mask (unmask mask payload) = payload.
Proof.
  unfold unmask. apply list_eq. intros i. rewrite !list_lookup_imap. destruct (payload !! i); [|done]. cbn. f_equal. by rewrite Z.lxor_assoc, Z.lxor_nilpotent, Z.lxor_0_r.
Qed.
Record Control := mkControl { control_ping : bool; control_mask : list Z; control_payload : list Z }.
Definition control_bytes (c : Control) : list Z := client_frame (if control_ping c then 9 else 10) (control_mask c) (control_payload c).
Definition control_ok (c : Control) : Prop := length (control_mask c) = 4%nat /\ len (control_payload c) <= 125.
Lemma read_client_frame_client opcode mask payload rest : opcode = 8 \/ opcode = 9 \/ opcode = 10 -> length mask = 4%nat -> len payload <= 125 ->
  read_client_frame (client_frame opcode mask payload ++ rest) = Some (if opcode =? 8 then CloseFrame else if opcode =? 9 then PingFrame payload else PongFrame, rest).
Proof.
  intros Ho Hm Hp. pose proof (len_nonneg payload). destruct (opcode_bits opcode ltac:(lia)) as [B1 B2]. destruct (length_bits (len payload) ltac:(lia)) as (_ & B3 & B4).
  unfold read_client_frame, client_frame. cbn [app]. change (Z.lor 128 opcode :: Z.lor 128 (len payload) :: (mask ++ unmask mask payload) ++ rest) with ([Z.lor 128 opcode; Z.lor 128 (len payload)] ++ (mask ++ unmask mask payload) ++ rest).
  rewrite (read_full_app 2) by done. cbn [mbind option_bind nth]. cbv zeta. rewrite B1, B2, B3, B4. cbn [Z.eqb orb].
  assert (negb (opcode =? 8) && negb (opcode =? 9) && negb (opcode =? 10) = false) as -> by (destruct Ho as [->|[->| ->]]; done).
  unfold read_length. destruct (Z.eqb_spec (len payload) 126); [lia|]. destruct (Z.eqb_spec (len payload) 127); [lia|]. cbn [mbind option_bind]. destruct (Z.ltb_spec 125 (len payload)); [lia|].
  rewrite <-(assoc_L (++)), (read_full_app 4) by done. cbn [mbind option_bind]. rewrite read_full_app by (unfold unmask; rewrite length_imap; unfold len; lia). cbn [mbind option_bind].
  by rewrite unmask_twice.
Qed.
(** What ends the reading: nothing readable, or a close frame. *)
Definition ends_reading (tail : list Z) : Prop := match read_client_frame tail with None => True | Some (CloseFrame, _) => True | _ => False end.
(** The reader answers the pings of a client, in order and with their
    unmasked payloads, ignores its pongs, and stops at the first frame that is
    a close frame, is not a masked control frame or is not complete; its fuel
    is enough for any input. *)
Theorem pings_answered controls tail writes : Forall control_ok controls -> ends_reading tail ->
  readClientFrames writes (concat (map control_bytes controls) ++ tail) = take writes (map (fun c => writeFrame 10 (control_payload c)) (List.filter control_ping controls)).
Proof.
  intros Hok Ht. unfold readClientFrames. set (input := concat _ ++ tail). assert (length controls <= length input)%nat as Hl.
  { subst input. rewrite length_app. clear Ht Hok. induction controls as [|c controls IH]; cbn [map concat length]; [lia|]. rewrite length_app. unfold control_bytes at 1, client_frame at 1. cbn [length]. lia. }
  revert Hl. generalize (length input) as fuel. subst input. revert writes. induction Hok as [|c controls [Hm Hp] _ IH]; intros writes fuel Hf.
  - cbn [map concat app List.filter take read_client_frames]. unfold ends_reading in Ht. rewrite take_nil. by destruct (read_client_frame tail) as [[[| |] rest]|].
  - cbn [length] in Hf. destruct fuel as [|fuel]; [lia|]. cbn [map concat]. rewrite <-(assoc_L (++)). cbn [read_client_frames]. unfold control_bytes at 1.
    rewrite read_client_frame_client by (done || by destruct (control_ping c); auto). cbn [List.filter]. destruct (control_ping c); cbn [Z.eqb Pos.eqb map].
    + destruct writes as [|writes]; [done|]. cbn [take]. f_equal. apply IH. lia.
    + apply IH. lia.
Qed.
Lemma pings_answered_witness :
  readClientFrames 5 (concat (map control_bytes [mkControl true [1; 2; 3; 4] [104; 105]; mkControl false [9; 9; 9; 9] []]) ++ [129; 0]) = [[138; 2; 104; 105]].
Proof.
  rewrite (pings_answered [mkControl true [1; 2; 3; 4] [104; 105]; mkControl false [9; 9; 9; 9] []] [129; 0] 5); [vm_compute; reflexivity|..|vm_compute; exact I].
  repeat constructor; vm_compute; discriminate.
Defined.
(** Reading always ends: every frame takes bytes. *)
Lemma read_full_length n input a b : read_full n input = Some (a, b) -> length input = (n + length b)%nat.
Proof. unfold read_full. destruct (Nat.leb_spec n (length input)); [|done]. intros [= <- <-]. rewrite length_drop. lia. Qed.
Lemma read_client_frame_shorter input f rest : read_client_frame input = Some (f, rest) -> (length rest < length input)%nat.
Proof.
  unfold read_client_frame. destruct (read_full 2 input) as [[header r0]|] eqn:E0; [|done]. cbn [mbind option_bind]. apply read_full_length in E0. cbv zeta. destruct (_ || _); [done|].
  destruct (_ && _); [done|]. destruct (read_length _ r0) as [[n r1]|] eqn:E1; [|done]. cbn [mbind option_bind]. assert (length r1 <= length r0)%nat as L1.
  { unfold read_length in E1. destruct (_ =? 126); [|destruct (_ =? 127)].
    - destruct (read_full 2 r0) as [[b r]|] eqn:E; [|done]. injection E1 as <- <-. apply read_full_length in E. lia.
    - destruct (read_full 8 r0) as [[b r]|] eqn:E; [|done]. cbn [mbind option_bind] in E1. cbv zeta in E1. destruct (negb _); [done|]. injection E1 as <- <-. apply read_full_length in E. lia.
    - by injection E1 as <- <-. }
  destruct (125 <? n); [done|]. destruct (read_full 4 r1) as [[mask r2]|] eqn:E2; [|done]. cbn [mbind option_bind]. apply read_full_length in E2.
  destruct (read_full (Z.to_nat n) r2) as [[masked r3]|] eqn:E3; [|done]. cbn [mbind option_bind]. apply read_full_length in E3. intros [= <- <-]. lia.
Qed.
Lemma read_client_frames_fuel fuel : forall writes input fuel', (length input < fuel)%nat -> (length input < fuel')%nat ->
  read_client_frames fuel writes input = read_client_frames fuel' writes input.
Proof.
  induction fuel as [|fuel IH]; intros writes input [|fuel'] H1 H2; try lia. cbn [read_client_frames]. destruct (read_client_frame input) as [[f rest]|] eqn:E; [|done].
  apply read_client_frame_shorter in E. destruct f as [|payload|]; [done|..]; [destruct writes; [done|]; f_equal|]; apply IH; lia.
Qed.
