(* ===== verification/StreamHandler.v ===== *)
(** * The stream endpoint ([internal/stream/handler.go])

    Tickets, authorization, the query and the life of a connection.  A request
    is its headers and raw query; a connection is the frames written on it.
    The steps of the connections are steps of the hub's stream, so what the hub
    promises of its subscribers holds of the frames. *)
From S2P Require Import Prelude GoStd GoTime Json Crypto Hub WebSocket.
Open Scope Z_scope.

Definition defaultTicketTTL : Duration := 30 * Second.
Definition defaultConnectionTTL : Duration := 5 * Minute.
Definition defaultMaxConnections : Z := 128.
Definition maxTickets : Z := 1024.
Record HandlerOptions := mkHandlerOptions {
  HandlerOptions_ReadToken : string;
  HandlerOptions_TicketTTL : Duration;
  HandlerOptions_ConnectionTTL : Duration;
  HandlerOptions_MaxConnections : Z;
}.
(** [sh_tickets] is keyed by the digest of the ticket. *)
Record StreamHandler := mkStreamHandler {
  sh_tokenHash : string;
  sh_ticketTTL : Duration;
  sh_tickets : gmap string Time;
  sh_activeConnections : Z;
  sh_maxConnections : Z;
  sh_connectionTTL : Duration;
}.
Inductive StreamHandlerError := ReadTokenRequired | TicketTTLRange | ConnectionTTLRange | ConnectionMaximumRange.
Definition NewHandler (hub : bool) (options : HandlerOptions) : result StreamHandlerError StreamHandler :=
  let token := HandlerOptions_ReadToken options in
  _ ← guard_err (negb hub || (slen token <? 24) || (512 <? slen token)) ReadTokenRequired;
  let ticketTTL := hub_or_default (HandlerOptions_TicketTTL options) defaultTicketTTL in
  _ ← guard_err ((ticketTTL <? Second) || (Minute <? ticketTTL)) TicketTTLRange;
  let connectionTTL := hub_or_default (HandlerOptions_ConnectionTTL options) defaultConnectionTTL in
  _ ← guard_err ((connectionTTL <? Second) || (60 * Minute <? connectionTTL)) ConnectionTTLRange;
  let maxConnections := hub_or_default (HandlerOptions_MaxConnections options) defaultMaxConnections in
  _ ← guard_err ((maxConnections <? 1) || (1024 <? maxConnections)) ConnectionMaximumRange;
  Ok (mkStreamHandler (Sum256 token) ticketTTL ∅ 0 maxConnections connectionTTL).
Definition with_tickets (h : StreamHandler) (tickets : gmap string Time) : StreamHandler :=
  mkStreamHandler (sh_tokenHash h) (sh_ticketTTL h) tickets (sh_activeConnections h) (sh_maxConnections h) (sh_connectionTTL h).
Definition with_active (h : StreamHandler) (active : Z) : StreamHandler :=
  mkStreamHandler (sh_tokenHash h) (sh_ticketTTL h) (sh_tickets h) active (sh_maxConnections h) (sh_connectionTTL h).

(** ** Requests and replies *)
(** Header names are canonical. *)
Record HttpRequest := mkHttpRequest { request_Header : gmap string (list string); request_RawQuery : string }.
Definition Header_Values (r : HttpRequest) (name : string) : list string := default [] (request_Header r !! name).
Definition Header_Get (r : HttpRequest) (name : string) : string := default "" (head (Header_Values r name)).
Record HttpReply := mkHttpReply { reply_status : Z; reply_headers : list (string * string); reply_body : string }.
(** [http.Error]. *)
Definition http_Error (headers : list (string * string)) (message : string) (status : Z) : HttpReply :=
  mkHttpReply status (headers ++ [("Content-Type", "text/plain; charset=utf-8"); ("X-Content-Type-Options", "nosniff")]) (message +:+ String newline "").
Definition unauthorized : HttpReply := http_Error [("Www-Authenticate", "Bearer")] "unauthorized" 401.

(** [url.QueryUnescape]. *)
Fixpoint query_unescape (s : string) : option string :=
  match s with
  | EmptyString => Some EmptyString
  | String c s' =>
      if c == "%"%char then
        match s' with
        | String a (String b rest) =>
            match hex_value a, hex_value b with
            | Some a, Some b => String (chr (a * 16 + b)) <$> query_unescape rest
            | _, _ => None
            end
        | _ => None
        end
      else String (if c == "+"%char then " "%char else c) <$> query_unescape s'
  end.
(** [url.ParseQuery] without its error, as [URL.Query] gives it: malformed
    pairs are skipped. *)
Definition add_pair (values : gmap string (list string)) (pair : string) : gmap string (list string) :=
  if Contains pair ";" || (pair == "") then values
  else
    let (key, value) := match Cut pair "=" with Some (k, v) => (k, v) | None => (pair, "") end in
    match query_unescape key, query_unescape value with
    | Some key, Some value => <[key := default [] (values !! key) ++ [value]]> values
    | _, _ => values
    end.
Definition ParseQuery (raw : string) : gmap string (list string) := foldl add_pair ∅ (split_byte "&"%char raw).
Definition Values_Get (query : gmap string (list string)) (key : string) : string := default "" (head (default [] (query !! key))).
Definition ParseBool (s : string) : option bool :=
  if bool_decide (s ∈ ["1"; "t"; "T"; "true"; "TRUE"; "True"]) then Some true
  else if bool_decide (s ∈ ["0"; "f"; "F"; "false"; "FALSE"; "False"]) then Some false else None.

Definition allowed_parameters : list string := ["cursor"; "run_id"; "severity"; "event_type"; "include_audit"; "ticket"].
Inductive QueryError := InvalidStreamQuery | FilterTooLong | InvalidIncludeAudit | InvalidResumeCursor.
Definition QueryError_text (e : QueryError) : string :=
  match e with
  | InvalidStreamQuery => "invalid stream query"
  | FilterTooLong => "stream filter is too long"
  | InvalidIncludeAudit => "invalid include_audit filter"
  | InvalidResumeCursor => "invalid resume cursor"
  end.
Definition parameter_ok (key : string) (values : list string) : bool := bool_decide (key ∈ allowed_parameters) && (len values =? 1).
Definition parse_include_audit (raw : string) : result QueryError bool :=
  if raw == "" then Ok true else match ParseBool raw with Some value => Ok value | None => Err InvalidIncludeAudit end.
Definition parseQuery (query : gmap string (list string)) : result QueryError (Z * bool * Filter) :=
  _ ← guard_err (existsb (fun kv => negb (parameter_ok kv.1 kv.2)) (map_to_list query)) InvalidStreamQuery;
  let run_id := Values_Get query "run_id" in
  let severity := Values_Get query "severity" in
  let event_type := Values_Get query "event_type" in
  _ ← guard_err ((128 <? slen run_id) || (32 <? slen severity) || (64 <? slen event_type)) FilterTooLong;
  include_audit ← parse_include_audit (Values_Get query "include_audit");
  let filter := mkFilter run_id severity event_type include_audit in
  match query !! "cursor" with
  | None => Ok (0, false, filter)
  | Some raw => match ParseUint (default "" (head raw)) with Some cursor => Ok (cursor, true, filter) | None => Err InvalidResumeCursor end
  end.

Section Handler.
Context `{UnicodeTables}.
(** ** Authorization *)
Definition blank_bytes : list ascii := [" "%char; chr 9; chr 13; chr 10].
Definition authorizeBearer (h : StreamHandler) (header : string) : bool :=
  match Cut header " " with
  | None => false
  | Some (scheme, token) =>
      if negb (EqualFold scheme "Bearer") || (token == "") || (512 <? slen token) || ContainsAny token blank_bytes then false
      else Sum256 token == sh_tokenHash h
  end.
Definition pruneTicketsLocked (tickets : gmap string Time) (now : Time) : gmap string Time := filter (fun kv => Before now kv.2 = true) tickets.
Definition consumeTicket (h : StreamHandler) (ticket : string) (now : Time) : StreamHandler * bool :=
  if (slen ticket <? 32) || (128 <? slen ticket) || ContainsAny ticket blank_bytes then (h, false)
  else
    let hash := Sum256 ticket in
    let tickets := pruneTicketsLocked (sh_tickets h) now in
    (with_tickets h (delete hash tickets), match tickets !! hash with Some expiry => Before now expiry | None => false end).
(** [random]: the bytes of the ticket, or the failure of the source; the clock
    is read twice. *)
Definition serveTicket (h : StreamHandler) (request : HttpRequest) (random : option string) (now now' : Time) : StreamHandler * HttpReply :=
  if negb (authorizeBearer h (Header_Get request "Authorization")) then (h, unauthorized)
  else match random with
  | None => (h, http_Error [] "ticket unavailable" 503)
  | Some bytes =>
      let ticket := RawURL_EncodeToString bytes in
      let expiry := now + sh_ticketTTL h in
      let tickets := pruneTicketsLocked (sh_tickets h) now' in
      if maxTickets <=? Z.of_nat (size tickets) then (with_tickets h tickets, http_Error [] "ticket capacity reached" 503)
      else (with_tickets h (<[Sum256 ticket := expiry]> tickets),
            mkHttpReply 201 [("Cache-Control", "no-store"); ("Content-Type", "application/json"); ("Referrer-Policy", "no-referrer")]
              (Marshal (JObject [("ticket", JString ticket); ("expires_at", JString (RFC3339Nano expiry)); ("stream_url", JString "/api/v1/stream")]) +:+ String newline ""))
  end.

(** ** The upgrade *)
Definition headerHasToken (values : list string) (wanted : string) : bool :=
  existsb (fun value => existsb (fun token => EqualFold (TrimSpace token) wanted) (split_byte ","%char value)) values.
Definition validateUpgrade (request : HttpRequest) : result string string :=
  if negb (headerHasToken (Header_Values request "Connection") "upgrade") || negb (EqualFold (TrimSpace (Header_Get request "Upgrade")) "websocket")
  then Err "websocket upgrade required"
  else if Header_Get request "Sec-Websocket-Version" != "13" then Err "unsupported websocket version"
  else
    let key := TrimSpace (Header_Get request "Sec-Websocket-Key") in
    match Std_DecodeString key with
    | Some decoded => if len decoded =? 16 then Ok key else Err "invalid websocket key"
    | None => Err "invalid websocket key"
    end.
Definition acquireConnection (h : StreamHandler) : option StreamHandler :=
  if sh_maxConnections h <=? sh_activeConnections h then None else Some (with_active h (sh_activeConnections h + 1)).
Definition releaseConnection (h : StreamHandler) : StreamHandler := with_active h (sh_activeConnections h - 1).
(** [serveStream] up to the acquired connection: the reply of a refusal, or the
    key and the query.  The ticket is looked at only without a bearer token. *)
Definition open_stream (h : StreamHandler) (request : HttpRequest) (now : Time) : StreamHandler * result HttpReply (string * (Z * bool * Filter)) :=
  let query := ParseQuery (request_RawQuery request) in
  match validateUpgrade request with
  | Err text => (h, Err (http_Error [] text 400))
  | Ok key =>
      let '(h, authorized) := if authorizeBearer h (Header_Get request "Authorization") then (h, true) else consumeTicket h (Values_Get query "ticket") now in
      if negb authorized then (h, Err unauthorized)
      else match parseQuery query with
      | Err e => (h, Err (http_Error [] (QueryError_text e) 400))
      | Ok parsed =>
          match acquireConnection h with
          | None => (h, Err (http_Error [] "stream connection capacity reached" 503))
          | Some h => (h, Ok (key, parsed))
          end
      end
  end.
End Handler.

(** ** The frames of a message *)
(** A [json.RawMessage] is compacted: white space between tokens is dropped and
    the HTML characters and line separators are escaped. *)
Fixpoint compact (fuel : nat) (in_string escaped : bool) (s : string) : string :=
  match fuel, s with
  | S f, String c rest =>
      let b := byte_val c in
      if (b =? 60) || (b =? 62) || (b =? 38) then unicode_escape b +:+ compact f in_string false rest
      else if HasPrefix s (bytes_to_string [226; 128; 168]) then unicode_escape 8232 +:+ compact f in_string false (str_drop 3 s)
      else if HasPrefix s (bytes_to_string [226; 128; 169]) then unicode_escape 8233 +:+ compact f in_string false (str_drop 3 s)
      else if in_string then String c (compact f (escaped || negb (b =? 34)) (negb escaped && (b =? 92)) rest)
      else if is_space c then compact f false false rest
      else String c (compact f (b =? 34) false rest)
  | _, _ => EmptyString
  end.
Definition compact_json (s : string) : string := compact (String.length s) false false s.
(** [json.Marshal(message)]: the raw payload takes the place of a literal. *)
Definition message_json (m : Message) : string :=
  Marshal (JObject ([("schema_version", JString (Message_SchemaVersion m)); ("sequence", JString (Message_Sequence m)); ("resume_cursor", JString (Message_ResumeCursor m));
      ("id", JString (Message_ID m)); ("type", JString (Message_Type m))] ++
    omitempty (Message_Source m == "") "source" (JString (Message_Source m)) ++ omitempty (Message_RunID m == "") "run_id" (JString (Message_RunID m)) ++
    omitempty (Message_Severity m == "") "severity" (JString (Message_Severity m)) ++ omitempty (Message_EventType m == "") "event_type" (JString (Message_EventType m)) ++
    [("server_monotonic_ns", JString (Message_ServerMonotonicNS m)); ("server_unix_ns", JString (Message_ServerUnixNS m))] ++
    omitempty (negb (Message_Audit m)) "audit" (JBool (Message_Audit m)) ++ [("payload", JNumber (compact_json (Message_Payload m)))])).
Definition writeJSONFrame (m : Message) : list Z := writeFrame 1 (string_bytes (message_json m)).

(** ** Connections *)
(** [cn_ending]: the frames written on the way out. *)
Record Connection := mkConnection {
  cn_upgrade : string;
  cn_cursor : Z;
  cn_sent : list (list Z);
  cn_ending : list (list Z);
  cn_open : bool;
}.
Record Endpoint := mkEndpoint {
  ep_stream : Stream;
  ep_handler : StreamHandler;
  ep_connections : gmap Z Connection;
}.
Definition send_message (c : Connection) (m : Message) : Connection :=
  mkConnection (cn_upgrade c) (default 0 (ParseUint (Message_ResumeCursor m))) (cn_sent c ++ [writeJSONFrame m]) (cn_ending c) (cn_open c).
Definition end_connection (c : Connection) (ending : list (list Z)) : Connection := mkConnection (cn_upgrade c) (cn_cursor c) (cn_sent c) ending false.
(** The connection after the upgrade: the messages already due are sent first. *)
Definition first_frames (key : string) (cursor : Z) (initial : list Message) : Connection :=
  mkConnection (writeUpgrade key) cursor (map writeJSONFrame initial) [] true.
Definition resync_ending (m : Message) (code : Z) : list (list Z) := [writeJSONFrame m; writeCloseFrame code "resync required"].
(** The deferred calls: the client leaves the hub, the connection is released. *)
Definition leave (e : Endpoint) (id : Z) (hub : Hub) (c : Connection) : Endpoint :=
  mkEndpoint (set_hub (ep_stream e) (unsubscribe hub (Some id))) (releaseConnection (ep_handler e)) (<[id := c]> (ep_connections e)).
(** What [select] can see besides messages: the reader ended, the hub closed,
    the lifetime is over. *)
Inductive Departure := ReaderDone | HubDone | LifetimeReached.
Definition departure_ending (d : Departure) : list (list Z) :=
  match d with
  | HubDone => [writeCloseFrame 1001 "server shutdown"]
  | LifetimeReached => [writeCloseFrame 1001 "connection lifetime reached"]
  | ReaderDone => []
  end.
Section Steps.
Context `{UnicodeTables}.
Inductive endpoint_step (e : Endpoint) : Endpoint -> Prop :=
  (** Publishers, snapshots and the shutdown of the hub. *)
  | ep_publish event now hub r : Publish (stream_hub (ep_stream e)) event now = (hub, r) ->
      endpoint_step e (mkEndpoint (mkStream hub (stream_log (ep_stream e) ++ match r with Ok m => [m] | Err _ => [] end) (stream_got (ep_stream e)) (stream_from (ep_stream e)))
        (ep_handler e) (ep_connections e))
  | ep_snapshot ctx f limit maxBytes now hub r : Snapshot (stream_hub (ep_stream e)) ctx f limit maxBytes now = (hub, r) ->
      endpoint_step e (mkEndpoint (set_hub (ep_stream e) hub) (ep_handler e) (ep_connections e))
  | ep_close : endpoint_step e (mkEndpoint (set_hub (ep_stream e) (Close (stream_hub (ep_stream e)))) (ep_handler e) (ep_connections e))
  | ep_ticket request random now now' h reply : serveTicket (ep_handler e) request random now now' = (h, reply) ->
      endpoint_step e (mkEndpoint (ep_stream e) h (ep_connections e))
  | ep_refused request now h reply : open_stream (ep_handler e) request now = (h, Err reply) -> endpoint_step e (mkEndpoint (ep_stream e) h (ep_connections e))
  (** An upgraded connection, after all the messages due were written; the
      acquired slot, the subscription and these writes are one step. *)
  | ep_connect request now now' h key cursor cursorSet f hub initial id : open_stream (ep_handler e) request now = (h, Ok (key, (cursor, cursorSet, f))) ->
      hub_nextID (stream_hub (ep_stream e)) < u64_max -> subscribe (stream_hub (ep_stream e)) cursor cursorSet f now' = (hub, (initial, Some id, None)) ->
      endpoint_step e (mkEndpoint (mkStream hub (stream_log (ep_stream e)) (<[id := initial]> (stream_got (ep_stream e)))
          (<[id := if cursorSet then cursor else hub_latest (stream_hub (ep_stream e))]> (stream_from (ep_stream e))))
        h (<[id := first_frames key cursor initial]> (ep_connections e)))
  (** The transport fails while they are written, after [sent] of them. *)
  | ep_aborted request now now' h key cursor cursorSet f hub initial id sent : open_stream (ep_handler e) request now = (h, Ok (key, (cursor, cursorSet, f))) ->
      hub_nextID (stream_hub (ep_stream e)) < u64_max -> subscribe (stream_hub (ep_stream e)) cursor cursorSet f now' = (hub, (initial, Some id, None)) ->
      endpoint_step e (mkEndpoint (mkStream (unsubscribe hub (Some id)) (stream_log (ep_stream e)) (<[id := initial]> (stream_got (ep_stream e)))
          (<[id := if cursorSet then cursor else hub_latest (stream_hub (ep_stream e))]> (stream_from (ep_stream e))))
        (releaseConnection h) (<[id := end_connection (first_frames key cursor (take sent initial)) []]> (ep_connections e)))
  (** A connection that is told to resynchronise and closed. *)
  | ep_resynced request now now' h key cursor cursorSet f hub m : open_stream (ep_handler e) request now = (h, Ok (key, (cursor, cursorSet, f))) ->
      subscribe (stream_hub (ep_stream e)) cursor cursorSet f now' = (hub, ([], None, Some m)) ->
      endpoint_step e (mkEndpoint (set_hub (ep_stream e) hub) (releaseConnection h) (ep_connections e))
  | ep_message id c hub m got : ep_connections e !! id = Some c -> cn_open c = true -> receive (stream_hub (ep_stream e)) id = Some (hub, m) ->
      stream_got (ep_stream e) !! id = Some got ->
      endpoint_step e (mkEndpoint (mkStream hub (stream_log (ep_stream e)) (<[id := got ++ [m]]> (stream_got (ep_stream e))) (stream_from (ep_stream e)))
        (ep_handler e) (<[id := send_message c m]> (ep_connections e)))
  (** A message that was taken from the queue but not written. *)
  | ep_write_failed id c hub m got : ep_connections e !! id = Some c -> cn_open c = true -> receive (stream_hub (ep_stream e)) id = Some (hub, m) ->
      stream_got (ep_stream e) !! id = Some got ->
      endpoint_step e (mkEndpoint (mkStream (unsubscribe hub (Some id)) (stream_log (ep_stream e)) (<[id := got ++ [m]]> (stream_got (ep_stream e))) (stream_from (ep_stream e)))
        (releaseConnection (ep_handler e)) (<[id := end_connection c []]> (ep_connections e)))
  | ep_overflow id c sub now hub m : ep_connections e !! id = Some c -> cn_open c = true -> hub_subscriptions (stream_hub (ep_stream e)) !! id = Some sub ->
      sub_overflow sub = true -> resync (stream_hub (ep_stream e)) "slow_client" (cn_cursor c) now = (hub, m) ->
      endpoint_step e (leave e id hub (end_connection c (resync_ending m 1008)))
  | ep_depart id c d : ep_connections e !! id = Some c -> cn_open c = true -> (d = HubDone -> hub_closed (stream_hub (ep_stream e)) = true) ->
      endpoint_step e (leave e id (stream_hub (ep_stream e)) (end_connection c (departure_ending d))).
Inductive endpoint_reachable : Endpoint -> Prop :=
  | endpoint_start hub_options options hub h : NewHub hub_options = Ok hub -> NewHandler true options = Ok h ->
      endpoint_reachable (mkEndpoint (mkStream hub [] ∅ ∅) h ∅)
  | endpoint_next e e' : endpoint_reachable e -> endpoint_step e e' -> endpoint_reachable e'.
End Steps.

(** ** Tickets *)
Section Tickets.
Context `{UnicodeTables}.
Inductive TicketEvent := TicketIssued (hash : string) (expiry : Time) | TicketAccepted (hash : string) (now : Time).
Definition event_hash (e : TicketEvent) : string := match e with TicketIssued hash _ => hash | TicketAccepted hash _ => hash end.
Definition about (hash : string) (trace : list TicketEvent) : list TicketEvent := List.filter (fun e => event_hash e == hash) trace.
#[local] Arguments about : simpl never.
(** The request carries [token]: a bearer scheme, one space and a text without
    blanks, of 1 to 512 bytes, whose digest is the token's. *)
Definition bears (token : string) (request : HttpRequest) : Prop :=
  exists scheme presented, Cut (Header_Get request "Authorization") " " = Some (scheme, presented) /\ EqualFold scheme "Bearer" = true /\ 1 <= slen presented <= 512 /\
    (forall c, c ∈ [" "%char; chr 9; chr 13; chr 10] -> str_exists (fun d => d == c) presented = false) /\ Sum256 presented = Sum256 token.
Definition ticket_of (request : HttpRequest) : string := Values_Get (ParseQuery (request_RawQuery request)) "ticket".
(** What a request for a stream does to the tickets: it uses one when it is an
    upgrade without the bearer token. *)
Definition ticket_use (h : StreamHandler) (request : HttpRequest) (now : Time) : list TicketEvent :=
  if is_ok (validateUpgrade request) && negb (authorizeBearer h (Header_Get request "Authorization")) && (consumeTicket h (ticket_of request) now).2
  then [TicketAccepted (Sum256 (ticket_of request)) now] else [].
Inductive ticket_step : StreamHandler * list TicketEvent -> StreamHandler * list TicketEvent -> Prop :=
  | ticket_issue h trace request bytes now now' h' reply : serveTicket h request (Some bytes) now now' = (h', reply) -> reply_status reply = 201 ->
      ticket_step (h, trace) (h', trace ++ [TicketIssued (Sum256 (RawURL_EncodeToString bytes)) (now + sh_ticketTTL h)])
  | ticket_refused h trace request random now now' h' reply : serveTicket h request random now now' = (h', reply) -> reply_status reply <> 201 ->
      ticket_step (h, trace) (h', trace)
  | ticket_stream h trace request now h' r : open_stream h request now = (h', r) -> ticket_step (h, trace) (h', trace ++ ticket_use h request now)
  | ticket_release h trace : ticket_step (h, trace) (releaseConnection h, trace).
Inductive ticket_reachable (options : HandlerOptions) : StreamHandler * list TicketEvent -> Prop :=
  | ticket_start h : NewHandler true options = Ok h -> ticket_reachable options (h, [])
  | ticket_next s s' : ticket_reachable options s -> ticket_step s s' -> ticket_reachable options s'.
(** A live ticket was issued last, and every use followed an issue. *)
Record tickets_ok (s : StreamHandler * list TicketEvent) : Prop := {
  live_issued hash expiry : sh_tickets s.1 !! hash = Some expiry -> last (about hash s.2) = Some (TicketIssued hash expiry);
  uses_issued pre hash now post : s.2 = pre ++ TicketAccepted hash now :: post -> exists expiry, last (about hash pre) = Some (TicketIssued hash expiry) /\ now < expiry;
  live_bounded : Z.of_nat (size (sh_tickets s.1)) <= maxTickets;
}.
Lemma prune_lookup tickets now hash expiry : pruneTicketsLocked tickets now !! hash = Some expiry <-> tickets !! hash = Some expiry /\ now < expiry.
Proof. unfold pruneTicketsLocked. rewrite map_lookup_filter_Some. cbn. unfold Before. by rewrite Z.ltb_lt. Qed.
Lemma prune_filter (tickets : gmap string Time) now : pruneTicketsLocked tickets now = filter (fun kv => now < kv.2) tickets.
Proof. apply map_eq. intros hash. apply option_eq. intros expiry. by rewrite prune_lookup, map_lookup_filter_Some. Qed.
Lemma prune_size tickets now : (size (pruneTicketsLocked tickets now) <= size tickets)%nat.
Proof. rewrite <-!size_dom. apply subseteq_size. unfold pruneTicketsLocked. apply dom_filter_subseteq. Qed.
Lemma about_app hash a b : about hash (a ++ b) = about hash a ++ about hash b.
Proof. apply List.filter_app. Qed.
Lemma about_self hash e : event_hash e = hash -> about hash [e] = [e].
Proof. intros He. unfold about. cbn. by rewrite bool_decide_eq_true_2. Qed.
Lemma about_other hash e : event_hash e <> hash -> about hash [e] = [].
Proof. intros Hn. unfold about. cbn. by rewrite bool_decide_eq_false_2. Qed.
(** Tickets may go without further ado. *)
Lemma tickets_ok_fewer h h' trace : tickets_ok (h, trace) -> sh_tickets h' ⊆ sh_tickets h -> tickets_ok (h', trace).
Proof.
  intros [H1 H2 H3] Hs. split; cbn in *; [|done|].
  - intros hash expiry Hh. apply H1. by eapply lookup_weaken.
  - pose proof (map_subseteq_size _ _ Hs). lia.
Qed.
Lemma prune_subseteq tickets now : pruneTicketsLocked tickets now ⊆ tickets.
Proof. apply map_subseteq_spec. intros hash expiry [? _]%prune_lookup. done. Qed.
Lemma serveTicket_issued h request bytes now now' h' reply trace : tickets_ok (h, trace) -> serveTicket h request (Some bytes) now now' = (h', reply) -> reply_status reply = 201 ->
  tickets_ok (h', trace ++ [TicketIssued (Sum256 (RawURL_EncodeToString bytes)) (now + sh_ticketTTL h)]).
Proof.
  intros Hok. unfold serveTicket. destruct (negb _); [by intros [= <- <-]|]. cbv zeta. destruct (Z.leb_spec maxTickets (Z.of_nat (size (pruneTicketsLocked (sh_tickets h) now')))) as [Hf|Hf]; [by intros [= <- <-]|].
  intros [= <- <-] _. apply (tickets_ok_fewer h (with_tickets h (pruneTicketsLocked (sh_tickets h) now'))) in Hok; [|apply prune_subseteq].
  destruct Hok as [H1 H2 H3]. cbn in *. generalize dependent (Sum256 (RawURL_EncodeToString bytes)). intros k. split; cbn in *.
  - intros hash expiry. rewrite lookup_insert. destruct (decide (k = hash)) as [<-|Hn].
    + intros [= <-]. rewrite about_app, about_self by done. apply last_snoc.
    + intros Hh. rewrite about_app, about_other, app_nil_r by done. by apply H1.
  - intros pre hash t post E. destruct post as [|x post] using rev_ind; [apply app_inj_tail in E as [_ E]; done|]. clear IHpost.
    change (TicketAccepted hash t :: post ++ [x]) with ((TicketAccepted hash t :: post) ++ [x]) in E. rewrite (assoc_L (++)) in E. apply app_inj_tail in E as [-> _]. by eapply H2.
  - unfold Time in *. pose proof (map_size_insert k (now + sh_ticketTTL h) (pruneTicketsLocked (sh_tickets h) now')) as Hm. rewrite Hm. destruct (_ !! k); cbn [id]; lia.
Qed.
Lemma admit_tickets h request now h' r trace : tickets_ok (h, trace) -> open_stream h request now = (h', r) -> tickets_ok (h', trace ++ ticket_use h request now).
Proof.
  intros Hok Ha. assert (forall h1 h2 : StreamHandler, sh_tickets h2 = sh_tickets h1 -> forall t, tickets_ok (h1, t) -> tickets_ok (h2, t)) as Hsame by (intros h1 h2 E t Ht; apply (tickets_ok_fewer h1); [done|by rewrite E]).
  unfold open_stream in Ha. cbv zeta in Ha. unfold ticket_use. destruct (validateUpgrade request) as [key|e] eqn:Eu; cbn [is_ok andb]; [|injection Ha as <- <-; by rewrite app_nil_r].
  fold (ticket_of request) in Ha. set (checked := if authorizeBearer h _ then _ else _) in Ha.
  assert (tickets_ok (checked.1, trace ++ (if negb (authorizeBearer h (Header_Get request "Authorization")) && (consumeTicket h (ticket_of request) now).2 then [TicketAccepted (Sum256 (ticket_of request)) now] else []))) as Hc.
  { subst checked. destruct (authorizeBearer h _); cbn [negb andb fst]; [by rewrite app_nil_r|]. clear Ha. unfold consumeTicket. destruct (_ || _); cbn [fst snd]; [by rewrite app_nil_r|].
    cbv zeta. cbn [fst snd]. apply (tickets_ok_fewer h (with_tickets h (pruneTicketsLocked (sh_tickets h) now))) in Hok; [|apply prune_subseteq].
    generalize dependent (Sum256 (ticket_of request)). intros k. destruct (pruneTicketsLocked (sh_tickets h) now !! k) as [expiry|] eqn:Ek.
    2: { rewrite app_nil_r. apply (tickets_ok_fewer _ _ _ Hok). cbn. apply delete_subseteq. }
    pose proof Ek as [_ Hlt]%prune_lookup. unfold Before. apply Z.ltb_lt in Hlt as Hltb. rewrite Hltb. destruct Hok as [H1 H2 H3]. cbn in *. split; cbn in *.
    - intros hash e. rewrite lookup_delete_Some. intros [Hn He]. rewrite about_app, about_other, app_nil_r by done. by apply H1.
    - intros pre hash t post E. destruct post as [|x post] using rev_ind.
      + apply app_inj_tail in E as [-> [= <- <-]]. exists expiry. split; [by apply H1|done].
      + clear IHpost. change (TicketAccepted hash t :: post ++ [x]) with ((TicketAccepted hash t :: post) ++ [x]) in E. rewrite (assoc_L (++)) in E. apply app_inj_tail in E as [-> _]. by eapply H2.
    - pose proof (map_subseteq_size _ _ (delete_subseteq (pruneTicketsLocked (sh_tickets h) now) k)). lia. }
  destruct checked as [h1 authorized]. cbn [fst] in Hc. revert Ha. destruct authorized; cbn [negb]; [|by intros [= <- <-]].
  destruct (parseQuery _) as [parsed|e]; [|by intros [= <- <-]]. unfold acquireConnection. destruct (_ <=? _); intros [= <- <-]; [exact Hc|]. by apply (Hsame h1).
Qed.
Lemma tickets_invariant options s : ticket_reachable options s -> tickets_ok s.
Proof.
  induction 1 as [h Hn|s s' _ IH Hs].
  - unfold NewHandler in Hn. cbv zeta in Hn. rewrite !guard_bind in Hn. destruct Hn as (_ & _ & _ & _ & [= <-]). split; cbn; [|by intros [|? ?] ? ? ? E|vm_compute; discriminate].
    intros hash expiry. by rewrite lookup_empty.
  - destruct Hs as [h trace request bytes now now' h' reply Ht Hr|h trace request random now now' h' reply Ht Hr|h trace request now h' r Ha|h trace].
    + by eapply serveTicket_issued.
    + apply (tickets_ok_fewer _ _ _ IH). revert Ht Hr. unfold serveTicket. destruct (negb _); [by intros [= <- <-]|]. destruct random; [|by intros [= <- <-]]. cbv zeta.
      destruct (_ <=? _); intros [= <- <-]; [|done]. intros _. apply prune_subseteq.
    + by eapply admit_tickets.
    + by apply (tickets_ok_fewer _ _ _ IH).
Qed.
Lemma open_stream_token h request now : sh_tokenHash (open_stream h request now).1 = sh_tokenHash h.
Proof.
  unfold open_stream. cbv zeta. destruct (validateUpgrade request); [|done]. set (checked := if authorizeBearer h _ then _ else _).
  assert (sh_tokenHash checked.1 = sh_tokenHash h) as E by (subst checked; destruct (authorizeBearer h _); [done|]; unfold consumeTicket; by destruct (_ || _)).
  destruct checked as [h1 [|]]; cbn [fst negb] in *; [|done]. destruct (parseQuery _); [|done]. unfold acquireConnection. by destruct (_ <=? _).
Qed.
Lemma tickets_token options s : ticket_reachable options s -> sh_tokenHash s.1 = Sum256 (HandlerOptions_ReadToken options).
Proof.
  induction 1 as [h Hn|s s' _ IH Hs].
  - unfold NewHandler in Hn. cbv zeta in Hn. rewrite !guard_bind in Hn. by destruct Hn as (_ & _ & _ & _ & [= <-]).
  - rewrite <-IH. assert (forall h request random now now' h' reply, serveTicket h request random now now' = (h', reply) -> sh_tokenHash h' = sh_tokenHash h) as Ht.
    { intros h request random now now' h' reply. unfold serveTicket. destruct (negb _); [by intros [= <- _]|]. destruct random; [|by intros [= <- _]]. cbv zeta. by destruct (_ <=? _); intros [= <- _]. }
    destruct Hs as [h trace request bytes now now' h' reply He _|h trace request random now now' h' reply He _|h trace request now h' r Ha|h trace]; cbn [fst]; [by eapply Ht..| |done].
    pose proof (open_stream_token h request now) as E. by rewrite Ha in E.
Qed.
Lemma authorizeBearer_bears h token request : sh_tokenHash h = Sum256 token -> authorizeBearer h (Header_Get request "Authorization") = true <-> bears token request.
Proof.
  intros E. unfold authorizeBearer, bears. destruct (Cut _ _) as [[scheme presented]|]; [|split; [done|by intros (? & ? & ? & _)]]. rewrite E.
  assert (ContainsAny presented blank_bytes = false <-> forall c, c ∈ [" "%char; chr 9; chr 13; chr 10] -> str_exists (fun d => d == c) presented = false) as Hb.
  { unfold ContainsAny, blank_bytes. induction presented as [|x presented IH]; [done|]. cbn [str_exists]. rewrite orb_false_iff, IH. split.
    - intros [Hx Hp] c Hc. rewrite (Hp c Hc), orb_false_r. apply bool_decide_eq_false. intros ->. by apply bool_decide_eq_false in Hx.
    - intros Hc. split; [|intros c Hin; specialize (Hc c Hin); by apply orb_false_iff in Hc as [_ ?]]. apply bool_decide_eq_false. intros Hin. specialize (Hc x Hin). apply orb_false_iff in Hc as [Hc _]. by apply bool_decide_eq_false in Hc. }
  assert (presented == "" = false <-> 1 <= slen presented) as Hn.
  { rewrite bool_decide_eq_false. unfold slen. destruct presented; cbn [String.length]; split; try done; lia. }
  destruct (negb _ || _ || _ || _) eqn:Eg.
  - split; [done|]. intros (? & ? & [= <- <-] & Hs & [Hl Hu] & Hc & _). rewrite Hs, (proj2 Hn Hl), (proj2 Hb Hc) in Eg. cbn in Eg. rewrite orb_false_r in Eg. lia.
  - rewrite !orb_false_iff, negb_false_iff, Z.ltb_ge in Eg. destruct Eg as (((Hs & Hl) & Hu) & Hc). rewrite bool_decide_eq_true. apply Hn in Hl. pose proof (proj1 Hb Hc) as Hc'. split.
    + intros ?. by exists scheme, presented.
    + by intros (? & ? & [= <- <-] & _ & _ & _ & ?).
Qed.
(** C38: tickets are single-use and short-lived: whenever one is accepted, the
    last thing that happened to it was being issued, and it had not expired; at
    most 1024 are live.  A ticket is issued exactly to a request that bears the
    configured read token, while random bytes can be had and fewer than 1024
    are live, and it lives for the configured time; any other request leaves
    the tickets as they are, but for those that expired.  A stream is only
    admitted to the bearer of that token or for a ticket accepted then. *)
Theorem tickets_single_use options h trace : ticket_reachable options (h, trace) ->
  (forall pre hash now post, trace = pre ++ TicketAccepted hash now :: post -> exists expiry, last (about hash pre) = Some (TicketIssued hash expiry) /\ now < expiry) /\
  Z.of_nat (size (sh_tickets h)) <= maxTickets /\
  (forall request random now now' h' reply, serveTicket h request random now now' = (h', reply) ->
    (reply_status reply = 201 <-> bears (HandlerOptions_ReadToken options) request /\ is_Some random /\ Z.of_nat (size (filter (fun kv => now' < kv.2) (sh_tickets h))) < 1024) /\
    (forall bytes, random = Some bytes -> reply_status reply = 201 -> sh_tickets h' !! Sum256 (RawURL_EncodeToString bytes) = Some (now + sh_ticketTTL h)) /\
    (forall hash expiry, sh_tickets h' !! hash = Some expiry ->
      sh_tickets h !! hash = Some expiry \/
      reply_status reply = 201 /\ exists bytes, random = Some bytes /\ hash = Sum256 (RawURL_EncodeToString bytes) /\ expiry = now + sh_ticketTTL h)) /\
  forall request now h' admitted, open_stream h request now = (h', Ok admitted) ->
    bears (HandlerOptions_ReadToken options) request \/ ticket_use h request now = [TicketAccepted (Sum256 (ticket_of request)) now].
Proof.
  intros Hr. pose proof (tickets_invariant _ _ Hr) as [H1 H2 H3]. pose proof (tickets_token _ _ Hr) as Htoken. cbn [fst] in Htoken. split; [exact H2|]. split; [exact H3|]. split.
  - intros request random now now' h' reply Ht. pose proof (authorizeBearer_bears h _ request Htoken) as Hb. revert Ht. unfold serveTicket.
    destruct (authorizeBearer h _); cbn [negb]; [|intros [= <- <-]; split; [split; [done|]; intros (Hbears & _); by apply Hb in Hbears|split; [done|by left]]].
    destruct random as [bytes|]; [|intros [= <- <-]; split; [split; [done|by intros (_ & [? ?] & _)]|split; [done|by left]]]. cbv zeta. rewrite prune_filter.
    case Z.leb_spec; intros Hf [= <- <-]; cbn [reply_status http_Error with_tickets sh_tickets].
    + change maxTickets with 1024 in Hf. split; [split; [done|]; intros (_ & _ & ?); lia|]. split; [done|]. intros hash expiry [? _]%map_lookup_filter_Some. by left.
    + split; [split; [|done]; intros _; split; [by apply Hb|done]|]. split; [intros ? [= <-] _; apply lookup_insert_eq|]. intros hash expiry. rewrite lookup_insert_Some. intros [[<- <-]|[_ [? _]%map_lookup_filter_Some]]; [right; split; [done|by exists bytes]|by left].
  - intros request now h' admitted Ha. unfold open_stream in Ha. cbv zeta in Ha. unfold ticket_use. rewrite <-(authorizeBearer_bears h _ request Htoken).
    destruct (validateUpgrade request); [|done]. cbn [is_ok andb]. destruct (authorizeBearer h _); [by left|right]. cbn [negb andb]. fold (ticket_of request) in Ha.
    destruct (consumeTicket h (ticket_of request) now) as [h1 [|]]; [done|]. by injection Ha.
Qed.
End Tickets.

(** ** What the connections carry *)
Definition is_open (kv : Z * Connection) : Prop := cn_open kv.2 = true.
#[local] Instance is_open_decision kv : base.Decision (is_open kv) := decide (cn_open kv.2 = true).
Definition open_connections (connections : gmap Z Connection) : gmap Z Connection := filter is_open connections.
Lemma open_insert_new connections id c : connections !! id = None ->
  Z.of_nat (size (open_connections (<[id := c]> connections))) = Z.of_nat (size (open_connections connections)) + (if cn_open c then 1 else 0).
Proof.
  intros Hn. unfold open_connections. destruct (cn_open c) eqn:Ec.
  - rewrite map_filter_insert_True by done. rewrite map_size_insert_None; [lia|]. apply map_lookup_filter_None. by left.
  - rewrite map_filter_insert_False by (unfold is_open; cbn; by rewrite Ec). rewrite delete_id by done. lia.
Qed.
Lemma open_insert_old connections id c c' : connections !! id = Some c -> cn_open c = true ->
  Z.of_nat (size (open_connections (<[id := c']> connections))) = Z.of_nat (size (open_connections connections)) - (if cn_open c' then 0 else 1).
Proof.
  intros Hc Ho. unfold open_connections. assert (filter is_open connections !! id = Some c) as Hf by (by apply map_lookup_filter_Some). destruct (cn_open c') eqn:Ec.
  - rewrite map_filter_insert_True by done. rewrite map_size_insert_Some by (by exists c). lia.
  - rewrite map_filter_insert_False by (unfold is_open; cbn; by rewrite Ec). rewrite map_filter_delete. pose proof (map_size_delete_Some id (filter is_open connections) ltac:(by exists c)) as Hs.
    assert (size (filter is_open connections) <> 0)%nat by (apply map_size_ne_0_lookup; eauto). rewrite Hs. lia.
Qed.
Lemma Publish_subs hub e now hub' r id : Publish hub e now = (hub', r) -> is_Some (hub_subscriptions hub !! id) -> is_Some (hub_subscriptions hub' !! id).
Proof.
  unfold Publish. destruct (negb _); [by intros [= <- _]|]. destruct (hub_closed hub); [by intros [= <- _]|]. destruct (_ =? _); [by intros [= <- _]|]. cbv zeta. intros [= <- _] [sub Hs].
  cbn. rewrite map_lookup_imap, Hs. by eexists.
Qed.
Section Delivery.
Context `{UnicodeTables}.
Lemma admit_active h request now h' r : open_stream h request now = (h', r) -> sh_maxConnections h' = sh_maxConnections h /\
  match r with Ok _ => sh_activeConnections h' = sh_activeConnections h + 1 /\ sh_activeConnections h < sh_maxConnections h | Err _ => sh_activeConnections h' = sh_activeConnections h end.
Proof.
  unfold open_stream. cbv zeta. destruct (validateUpgrade request); [|by intros [= <- <-]].
  set (checked := if authorizeBearer h _ then _ else _). assert (sh_maxConnections checked.1 = sh_maxConnections h /\ sh_activeConnections checked.1 = sh_activeConnections h) as [E1 E2].
  { subst checked. destruct (authorizeBearer h _); [done|]. unfold consumeTicket. by destruct (_ || _). }
  destruct checked as [h1 [|]]; cbn [fst negb] in *; [|by intros [= <- <-]]. destruct (parseQuery _); [|by intros [= <- <-]]. unfold acquireConnection.
  destruct (Z.leb_spec (sh_maxConnections h1) (sh_activeConnections h1)); intros [= <- <-]; cbn; [done|]. rewrite <-E1, <-E2. done.
Qed.
Lemma serveTicket_active h request random now now' h' reply : serveTicket h request random now now' = (h', reply) ->
  sh_maxConnections h' = sh_maxConnections h /\ sh_activeConnections h' = sh_activeConnections h.
Proof. unfold serveTicket. destruct (negb _); [by intros [= <- <-]|]. destruct random; [|by intros [= <- <-]]. cbv zeta. destruct (_ <=? _); by intros [= <- <-]. Qed.
(** A connection has sent what its client read from the hub. *)
Definition carries (e : Endpoint) (id : Z) (c : Connection) : Prop :=
  is_Some (hub_subscriptions (stream_hub (ep_stream e)) !! id) /\
  exists got, stream_got (ep_stream e) !! id = Some got /\ cn_sent c `prefix_of` map writeJSONFrame got /\
    (cn_open c = true -> cn_sent c = map writeJSONFrame got /\ cn_ending c = []).
Record endpoint_ok (e : Endpoint) : Prop := {
  eo_stream : stream_reachable (ep_stream e);
  eo_carries id c : ep_connections e !! id = Some c -> carries e id c;
  eo_active : sh_activeConnections (ep_handler e) = Z.of_nat (size (open_connections (ep_connections e)));
  eo_max : sh_activeConnections (ep_handler e) <= sh_maxConnections (ep_handler e) <= 1024;
}.
(** The hub changes, the connections do not. *)
Lemma endpoint_ok_hub e s : endpoint_ok e -> stream_reachable s -> stream_got s = stream_got (ep_stream e) ->
  (forall id, is_Some (hub_subscriptions (stream_hub (ep_stream e)) !! id) -> is_Some (hub_subscriptions (stream_hub s) !! id)) ->
  endpoint_ok (mkEndpoint s (ep_handler e) (ep_connections e)).
Proof.
  intros [H1 H2 H3 H4] Hs Hg Hk. split; cbn; try done. intros id c Hc. destruct (H2 id c Hc) as [Hi Hgot]. split; cbn; [by apply Hk|by rewrite Hg].
Qed.
Lemma endpoint_ok_handler e h : endpoint_ok e -> sh_maxConnections h = sh_maxConnections (ep_handler e) -> sh_activeConnections h = sh_activeConnections (ep_handler e) ->
  endpoint_ok (mkEndpoint (ep_stream e) h (ep_connections e)).
Proof. intros [H1 H2 H3 H4] Em Ea. split; cbn; rewrite ?Em, ?Ea; done. Qed.
(** A new client. *)
Lemma endpoint_ok_connect e h hub cursor cursorSet f now initial id c : endpoint_ok e -> 0 <= cursor -> hub_nextID (stream_hub (ep_stream e)) < u64_max ->
  subscribe (stream_hub (ep_stream e)) cursor cursorSet f now = (hub, (initial, Some id, None)) ->
  cn_sent c `prefix_of` map writeJSONFrame initial -> (cn_open c = true -> cn_sent c = map writeJSONFrame initial /\ cn_ending c = []) ->
  sh_activeConnections h = sh_activeConnections (ep_handler e) + (if cn_open c then 1 else 0) -> sh_activeConnections h <= sh_maxConnections h <= 1024 ->
  endpoint_ok (mkEndpoint (mkStream hub (stream_log (ep_stream e)) (<[id := initial]> (stream_got (ep_stream e)))
      (<[id := if cursorSet then cursor else hub_latest (stream_hub (ep_stream e))]> (stream_from (ep_stream e)))) h (<[id := c]> (ep_connections e))).
Proof.
  intros Hok Hc Hid Hs Hp Ho Ha Hm. pose proof Hok as [H1 H2 H3 H4]. pose proof (stream_invariant _ H1) as Hw.
  assert (stream_reachable (mkStream hub (stream_log (ep_stream e)) (<[id := initial]> (stream_got (ep_stream e)))
      (<[id := if cursorSet then cursor else hub_latest (stream_hub (ep_stream e))]> (stream_from (ep_stream e))))) as Hr by (eapply stream_next; [exact H1|by eapply step_subscribe]).
  assert (hub_subscriptions hub = <[id := mkSubscription f [] false]> (hub_subscriptions (stream_hub (ep_stream e))) /\ id = hub_nextID (stream_hub (ep_stream e)) + 1) as [Hsub Eid].
  { revert Hs. unfold subscribe. cbv zeta. destruct (hub_closed _); [done|]. destruct (_ && _); [done|]. intros [= <- _ <-]. cbn. split; [|apply wrap64_small; destruct (so_nextID _ Hw); unfold u64_max in *; lia].
    do 2 f_equal. }
  assert (ep_connections e !! id = None) as Hnew.
  { destruct (ep_connections e !! id) as [c'|] eqn:E; [|done]. destruct (H2 id c' E) as [Hi _]. apply elem_of_dom, (so_ids _ Hw) in Hi. lia. }
  split; cbn [ep_stream ep_handler ep_connections]; [done| |by rewrite open_insert_new, Ha, H3|done].
  intros id' c'. rewrite lookup_insert. destruct (decide (id = id')) as [<-|Hn].
  - intros [= <-]. split; cbn [ep_stream stream_hub stream_got]; [rewrite Hsub, lookup_insert_eq; by eexists|]. exists initial. by rewrite lookup_insert_eq.
  - intros Hc'. destruct (H2 id' c' Hc') as [Hi Hg]. split; cbn [ep_stream stream_hub stream_got]; [by rewrite Hsub, lookup_insert_ne|by rewrite lookup_insert_ne].
Qed.
(** The connection of a client changes with what it read. *)
Lemma endpoint_ok_update e s h id c c' got : endpoint_ok e -> stream_reachable s -> ep_connections e !! id = Some c -> cn_open c = true ->
  (forall id, is_Some (hub_subscriptions (stream_hub (ep_stream e)) !! id) -> is_Some (hub_subscriptions (stream_hub s) !! id)) ->
  stream_got s = <[id := got]> (stream_got (ep_stream e)) -> cn_sent c' `prefix_of` map writeJSONFrame got ->
  (cn_open c' = true -> cn_sent c' = map writeJSONFrame got /\ cn_ending c' = []) ->
  sh_activeConnections h = sh_activeConnections (ep_handler e) - (if cn_open c' then 0 else 1) -> sh_maxConnections h = sh_maxConnections (ep_handler e) ->
  endpoint_ok (mkEndpoint s h (<[id := c']> (ep_connections e))).
Proof.
  intros [H1 H2 H3 H4] Hs Hc Ho Hk Hg Hp Hopen Ha Hm. split; cbn [ep_stream ep_handler ep_connections]; [done| |rewrite (open_insert_old _ id c) by done; lia|destruct (cn_open c'); lia].
  intros id' x. rewrite lookup_insert. destruct (decide (id = id')) as [<-|Hn].
  - intros [= <-]. destruct (H2 id c Hc) as [Hi _]. split; cbn [ep_stream]; [by apply Hk|]. exists got. by rewrite Hg, lookup_insert_eq.
  - intros Hx. destruct (H2 id' x Hx) as [Hi Hgot]. split; cbn [ep_stream]; [by apply Hk|]. by rewrite Hg, lookup_insert_ne.
Qed.
Lemma admit_cursor h request now h' key cursor cursorSet f : open_stream h request now = (h', Ok (key, (cursor, cursorSet, f))) -> 0 <= cursor.
Proof.
  unfold open_stream. cbv zeta. destruct (validateUpgrade request); [|done]. destruct (if authorizeBearer h _ then _ else _) as [h1 [|]]; [|done]. cbn [negb].
  destruct (parseQuery _) as [parsed|] eqn:Eq; [|done]. destruct (acquireConnection h1); [|done]. intros [= _ _ ->]. revert Eq. unfold parseQuery. rewrite guard_bind. intros [_ E]. revert E. cbv zeta.
  rewrite guard_bind. intros [_ E]. revert E. unfold mbind, result_bind. destruct (parse_include_audit _); [|done]. destruct (_ !! "cursor") as [raw|]; [|intros [= <- _ _]; lia].
  destruct (ParseUint _) as [v|] eqn:Ep; [|done]. intros [= <- _ _]. apply ParseUint_range in Ep. lia.
Qed.
Lemma unsubscribed hub log got from client : stream_reachable (mkStream hub log got from) -> stream_reachable (mkStream (unsubscribe hub client) log got from).
Proof. intros Hw. apply (stream_next _ _ Hw), (step_unsubscribe (mkStream hub log got from)). Qed.
Lemma unsubscribe_subs hub client : hub_subscriptions (unsubscribe hub client) = hub_subscriptions hub.
Proof. by destruct client. Qed.
Lemma receive_subs hub id hub' m id' : receive hub id = Some (hub', m) -> is_Some (hub_subscriptions hub !! id') -> is_Some (hub_subscriptions hub' !! id').
Proof.
  unfold receive. destruct (hub_subscriptions hub !! id) as [[f [|x rest] o]|]; [done| |done]. intros [= <- _] Hi. cbn. apply lookup_insert_is_Some. destruct (decide (id = id')); [by left|by right].
Qed.
Lemma got_id e id c : endpoint_ok e -> ep_connections e !! id = Some c -> cn_open c = true ->
  exists got, stream_got (ep_stream e) !! id = Some got /\ cn_sent c = map writeJSONFrame got /\ stream_got (ep_stream e) = <[id := got]> (stream_got (ep_stream e)).
Proof. intros Hok Hc Ho. destruct (eo_carries _ Hok _ _ Hc) as (_ & got & Hg & _ & Hsent). destruct (Hsent Ho) as [Es _]. exists got. split; [done|]. split; [done|]. by rewrite insert_id. Qed.
Lemma endpoint_step_ok e e' : endpoint_ok e -> endpoint_step e e' -> endpoint_ok e'.
Proof.
  intros Hok Hs. pose proof Hok as [Hr _ Ha Hm]. destruct Hs as [event now hub r Hp|ctx f limit maxBytes now hub r Hp| |request random now now' h reply Ht|request now h reply Had
    |request now now' h key cursor cursorSet f hub initial id Had Hid Hsub|request now now' h key cursor cursorSet f hub initial id sent Had Hid Hsub
    |request now now' h key cursor cursorSet f hub m Had Hsub|id c hub m got Hc Ho Hrc Hg|id c hub m got Hc Ho Hrc Hg|id c sub now hub m Hc Ho Hsub Hov Hrs|id c d Hc Ho Hd].
  - apply endpoint_ok_hub; [done|by eapply stream_next, step_publish|done|]. intros id. by eapply Publish_subs.
  - apply endpoint_ok_hub; [done|by eapply stream_next, step_snapshot|done|]. intros id. cbn. revert Hp. unfold Snapshot. destruct ctx; [|by intros [= <- _]]. destruct (_ || _); [by intros [= <- _]|].
    destruct (b 0%nat); [by intros [= <- _]|]. cbv zeta. destruct (existsb _ _); by intros [= <- _].
  - apply endpoint_ok_hub; [done|by eapply stream_next, step_close|done|]. intros id. cbn. unfold Close. by destruct (hub_closed _).
  - apply serveTicket_active in Ht as [? ?]. by apply endpoint_ok_handler.
  - apply admit_active in Had as [? ?]. by apply endpoint_ok_handler.
  - pose proof (admit_cursor _ _ _ _ _ _ _ _ Had). apply admit_active in Had as (Em & Ea & Hlt). eapply endpoint_ok_connect; try done; [rewrite Em; lia].
  - pose proof (admit_cursor _ _ _ _ _ _ _ _ Had). apply admit_active in Had as (Em & Ea & Hlt).
    set (s1 := mkStream hub (stream_log (ep_stream e)) (<[id := initial]> (stream_got (ep_stream e))) (<[id := if cursorSet then cursor else hub_latest (stream_hub (ep_stream e))]> (stream_from (ep_stream e)))).
    assert (endpoint_ok (mkEndpoint s1 (releaseConnection h) (<[id := end_connection (first_frames key cursor (take sent initial)) []]> (ep_connections e)))) as Hok'.
    { eapply endpoint_ok_connect; try done; cbn; [|lia|rewrite Em; lia]. exists (map writeJSONFrame (drop sent initial)). by rewrite <-map_app, take_drop. }
    apply (endpoint_ok_hub _ (set_hub s1 (unsubscribe hub (Some id))) Hok'); [apply unsubscribed, Hok'|done|]. intros id'. cbn. done.
  - apply admit_active in Had as (Em & Ea & Hlt). apply (endpoint_ok_handler (mkEndpoint (set_hub (ep_stream e) hub) (ep_handler e) (ep_connections e))); cbn; [|done|lia].
    apply endpoint_ok_hub; [done|by eapply stream_next, step_refused|done|]. intros id. cbn. revert Hsub. unfold subscribe. cbv zeta. destruct (hub_closed _); [by intros [= <- _]|]. by destruct (_ && _); intros [= <- _].
  - destruct (got_id _ _ _ Hok Hc Ho) as (got' & Hg' & Es & _). rewrite Hg in Hg'. injection Hg' as <-.
    eapply (endpoint_ok_update _ _ _ id c _ (got ++ [m])); try done; [by eapply stream_next, step_receive|intros id'; by eapply receive_subs|cbn; by rewrite Es, map_app|cbn; rewrite Es, map_app; intros _..|cbn; rewrite Ho; lia].
    destruct (eo_carries _ Hok _ _ Hc) as (_ & ? & _ & _ & He). by destruct (He Ho).
  - destruct (got_id _ _ _ Hok Hc Ho) as (got' & Hg' & Es & _). rewrite Hg in Hg'. injection Hg' as <-.
    eapply (endpoint_ok_update _ _ _ id c _ (got ++ [m])); try done.
    + apply unsubscribed. by eapply stream_next, step_receive.
    + intros id'. cbn. by eapply receive_subs.
    + cbn. rewrite Es, map_app. by apply prefix_app_r.
  - destruct (got_id _ _ _ Hok Hc Ho) as (got & Hg & Es & Eg). unfold leave. eapply (endpoint_ok_update _ _ _ id c _ got); try done.
    + apply unsubscribed. by eapply stream_next, step_resync.
    + intros id'. cbn. unfold resync in Hrs. cbv zeta in Hrs. by injection Hrs as <- _.
    + cbn. by rewrite Es.
  - destruct (got_id _ _ _ Hok Hc Ho) as (got & Hg & Es & Eg). unfold leave. eapply (endpoint_ok_update _ _ _ id c _ got); try done.
    + apply unsubscribed. by destruct (ep_stream e).
    + cbn. by rewrite Es.
Qed.
Lemma endpoint_invariant e : endpoint_reachable e -> endpoint_ok e.
Proof.
  induction 1 as [hub_options options hub h Hh Hn|e e' _ IH Hs]; [|by eapply endpoint_step_ok]. unfold NewHandler in Hn. cbv zeta in Hn. rewrite !guard_bind in Hn. destruct Hn as (_ & _ & _ & Hm & [= <-]).
  rewrite orb_false_iff, !Z.ltb_ge in Hm. split; cbn; [by eapply stream_start|intros id c; by rewrite lookup_empty|done|lia].
Qed.
(** C37: in every run of the endpoint, the text frames written on a connection
    are, in order and without gaps or repetitions, the messages published
    after its cursor that match its filter: for an open connection that the
    hub still serves, all of them but those still in its queue.  The
    connections that are open are exactly those counted, and no more than the
    maximum. *)
Theorem connections_gapless e id c : endpoint_reachable e -> ep_connections e !! id = Some c ->
  sh_activeConnections (ep_handler e) = Z.of_nat (size (open_connections (ep_connections e))) /\ sh_activeConnections (ep_handler e) <= sh_maxConnections (ep_handler e) <= 1024 /\
  exists sub cursor, hub_subscriptions (stream_hub (ep_stream e)) !! id = Some sub /\ stream_from (ep_stream e) !! id = Some cursor /\
    cn_sent c `prefix_of` map writeJSONFrame (due (sub_filter sub) cursor (stream_log (ep_stream e))) /\
    (cn_open c = true -> id ∈ hub_clients (stream_hub (ep_stream e)) ->
      cn_sent c ++ map writeJSONFrame (sub_messages sub) = map writeJSONFrame (due (sub_filter sub) cursor (stream_log (ep_stream e)))).
Proof.
  intros [Hr Hc Ha Hm]%endpoint_invariant Hid. split; [done|]. split; [done|]. destruct (Hc id c Hid) as ([sub Hs] & got & Hg & Hp & Ho).
  destruct (so_served _ (stream_invariant _ Hr) id sub Hs) as (got' & cursor & Hg' & Hf & _ & Hpre & Hin & _). rewrite Hg in Hg'. injection Hg' as <-.
  exists sub, cursor. split; [done|]. split; [done|]. split.
  - etrans; [exact Hp|]. destruct Hpre as [tail ->]. exists (map writeJSONFrame (sub_messages sub ++ tail)). by rewrite <-map_app, (assoc_L (++)).
  - intros Hopen Hcl. destruct (Ho Hopen) as [-> _]. destruct (Hin Hcl) as [E _]. by rewrite <-map_app, E.
Qed.
End Delivery.

(** ** A ticket, a connection and a message *)
#[local] Instance demo_stream_tables : UnicodeTables := ascii_tables.
Definition demo_read_token : string := "0123456789abcdef01234567".
Definition demo_handler0 : StreamHandler := mkStreamHandler (Sum256 demo_read_token) defaultTicketTTL ∅ 0 1 defaultConnectionTTL.
Definition demo_handler_options : HandlerOptions := mkHandlerOptions demo_read_token 0 0 1.
Definition demo_ticket_request : HttpRequest := mkHttpRequest {[ "Authorization" := ["bearer " +:+ demo_read_token] ]} "".
Definition demo_ticket_bytes : string := "abcdefghijklmnopqrstuvwxyz012345".
Definition demo_issued : StreamHandler * HttpReply := serveTicket demo_handler0 demo_ticket_request (Some demo_ticket_bytes) 100 100.
Definition demo_upgrade (query : string) : HttpRequest :=
  mkHttpRequest {[ "Connection" := ["keep-alive, Upgrade"]; "Upgrade" := ["websocket"]; "Sec-Websocket-Version" := ["13"]; "Sec-Websocket-Key" := ["dGhlIHNhbXBsZSBub25jZQ=="] ]} query.
Definition demo_stream_request : HttpRequest := demo_upgrade ("ticket=" +:+ RawURL_EncodeToString demo_ticket_bytes +:+ "&run_id=run%2D1").
Definition demo_admitted : StreamHandler * result HttpReply (string * (Z * bool * Filter)) := open_stream demo_issued.1 demo_stream_request 200.
Definition demo_trace : list TicketEvent :=
  ([] ++ [TicketIssued (Sum256 (RawURL_EncodeToString demo_ticket_bytes)) (100 + sh_ticketTTL demo_handler0)]) ++ ticket_use demo_issued.1 demo_stream_request 200.
Lemma demo_trace_reached : ticket_reachable demo_handler_options (demo_admitted.1, demo_trace).
Proof.
  unfold demo_trace. eapply ticket_next; [|apply (ticket_stream demo_issued.1 _ demo_stream_request 200 _ demo_admitted.2); unfold demo_admitted; apply surjective_pairing].
  eapply ticket_next; [|apply (ticket_issue demo_handler0 [] demo_ticket_request demo_ticket_bytes 100 100 _ demo_issued.2); [unfold demo_issued; apply surjective_pairing|vm_compute; reflexivity]].
  apply ticket_start. vm_compute. reflexivity.
Qed.
Lemma tickets_single_use_witness : demo_admitted.2 = Ok ("dGhlIHNhbXBsZSBub25jZQ==", (0, false, mkFilter "run-1" "" "" true)) /\ (open_stream demo_admitted.1 demo_stream_request 300).2 = Err unauthorized /\
  exists expiry, last (about (Sum256 (RawURL_EncodeToString demo_ticket_bytes)) [TicketIssued (Sum256 (RawURL_EncodeToString demo_ticket_bytes)) 30000000100]) =
    Some (TicketIssued (Sum256 (RawURL_EncodeToString demo_ticket_bytes)) expiry) /\ 200 < expiry.
Proof.
  split; [vm_compute; reflexivity|]. split; [vm_compute; reflexivity|].
  destruct (tickets_single_use demo_handler_options demo_admitted.1 demo_trace demo_trace_reached) as [Huse _]. eapply (Huse _ _ 200 []). vm_compute. reflexivity.
Defined.
Definition demo_endpoint0 : Endpoint := mkEndpoint (mkStream (mkHub 2 defaultMaxAge 1 "/api/v1/snapshot" 0 [] 0 ∅ ∅ false) [] ∅ ∅) demo_handler0 ∅.
Definition demo_connect : HttpRequest :=
  mkHttpRequest (<["Authorization" := ["Bearer " +:+ demo_read_token]]> (request_Header (demo_upgrade ""))) "run_id=run-1".
Definition demo_filter1 : Filter := mkFilter "run-1" "" "" true.
Definition demo_hub1 : Hub := (subscribe (stream_hub (ep_stream demo_endpoint0)) 0 false demo_filter1 100).1.
Definition demo_endpoint1 : Endpoint :=
  mkEndpoint (mkStream demo_hub1 [] (<[1 := []]> ∅) (<[1 := 0]> ∅)) (with_active demo_handler0 1) (<[1 := first_frames "dGhlIHNhbXBsZSBub25jZQ==" 0 []]> ∅).
Definition demo_event1 : StreamEvent := mkStreamEvent "e-1" "kernel_event" "kernel_fact" "run-1" "info" "exec" 5 6 false "{}".
Definition demo_message1 : Message := message_of demo_event1 1 200.
Definition demo_hub2 : Hub := (Publish demo_hub1 demo_event1 200).1.
Definition demo_endpoint2 : Endpoint := mkEndpoint (mkStream demo_hub2 [demo_message1] (<[1 := []]> ∅) (<[1 := 0]> ∅)) (with_active demo_handler0 1) (ep_connections demo_endpoint1).
Lemma demo_endpoint1_reached : endpoint_reachable demo_endpoint1.
Proof.
  eapply endpoint_next; [apply (endpoint_start (mkHubOptions 2 0 1 "") demo_handler_options); vm_compute; reflexivity|].
  apply (ep_connect demo_endpoint0 demo_connect 100 100 (with_active demo_handler0 1) "dGhlIHNhbXBsZSBub25jZQ==" 0 false demo_filter1 demo_hub1 [] 1); [vm_compute; reflexivity|vm_compute; reflexivity|vm_compute; reflexivity].
Qed.
Lemma demo_endpoint2_reached : endpoint_reachable demo_endpoint2.
Proof. eapply endpoint_next; [exact demo_endpoint1_reached|]. apply (ep_publish demo_endpoint1 demo_event1 200 demo_hub2 (Ok demo_message1)). vm_compute. reflexivity. Qed.
Lemma connections_gapless_witness :
  exists e c sub cursor, endpoint_step demo_endpoint2 e /\ ep_connections e !! 1 = Some c /\ cn_sent c = [writeJSONFrame demo_message1] /\ cn_cursor c = 1 /\
    hub_subscriptions (stream_hub (ep_stream e)) !! 1 = Some sub /\ cn_sent c `prefix_of` map writeJSONFrame (due (sub_filter sub) cursor [demo_message1]).
Proof.
  destruct (receive demo_hub2 1) as [[hub m]|] eqn:Er; [|vm_compute in Er; discriminate]. assert (m = demo_message1) as -> by (vm_compute in Er; by injection Er).
  set (e := mkEndpoint (mkStream hub [demo_message1] (<[1 := [] ++ [demo_message1]]> (<[1 := []]> ∅)) (<[1 := 0]> ∅)) (with_active demo_handler0 1)
    (<[1 := send_message (first_frames "dGhlIHNhbXBsZSBub25jZQ==" 0 []) demo_message1]> (ep_connections demo_endpoint1))).
  assert (endpoint_step demo_endpoint2 e) as Hs by (apply (ep_message demo_endpoint2 1 (first_frames "dGhlIHNhbXBsZSBub25jZQ==" 0 []) hub demo_message1 []); [reflexivity|reflexivity|exact Er|reflexivity]).
  destruct (connections_gapless e 1 (send_message (first_frames "dGhlIHNhbXBsZSBub25jZQ==" 0 []) demo_message1)) as (_ & _ & sub & cursor & Hsub & _ & Hp & _);
    [eapply endpoint_next; [exact demo_endpoint2_reached|exact Hs]|reflexivity|].
  exists e, (send_message (first_frames "dGhlIHNhbXBsZSBub25jZQ==" 0 []) demo_message1), sub, cursor. split_and!; [exact Hs|reflexivity|reflexivity|vm_compute; reflexivity|exact Hsub|exact Hp].
Defined.
