(* ===== verification/McpPolicy.v ===== *)
(** * Inspected documents ([internal/inspection/json.go], [internal/inspection/mcp.go])

    The strict decoder of request bodies, the search for credentials in a
    decoded value, and the policy of MCP tool calls.  Files are read through
    [ownerRead]; a loop over a Go map takes the entries in the order of
    [MapOrder], which may be any. *)
From S2P Require Import Prelude GoStd GoTime Json Crypto CgroupPath Redact.
Open Scope Z_scope.

Definition MaxBody : Z := Z.shiftl 256 10.

(** ** The decoder *)
Definition has_field (name : string) (fields : list (string * json)) : bool := existsb (fun f => f.1 == name) fields.
Definition maxDepth : Z := 32.
(** A value read token by token; [depth] counts the enclosing brackets. *)
Fixpoint token_value (fuel : nat) (depth : Z) (s : string) : option (json * string) :=
  match fuel with
  | O => None
  | S f =>
      if maxDepth <? depth then None
      else
      match skip_space s with
      | EmptyString => None
      | String c rest as s =>
          if c == "{"%char then
            match expect "}"%char (skip_space rest) with
            | Some rest' => Some (JObject [], rest')
            | None => match token_members f depth [] rest with Some (object, rest') => Some (JObject object, rest') | None => None end
            end
          else if c == "["%char then
            match expect "]"%char (skip_space rest) with
            | Some rest' => Some (JArray [], rest')
            | None => match token_elements f depth rest with Some (array, rest') => Some (JArray array, rest') | None => None end
            end
          else if byte_val c =? 34 then match unquote (String.length rest) rest with Some (text, rest') => Some (JString text, rest') | None => None end
          else if c == "t"%char then cut_literal "true" (JBool true) s
          else if c == "f"%char then cut_literal "false" (JBool false) s
          else if c == "n"%char then cut_literal "null" JNull s
          else match scan_number s with Some (literal, rest') => Some (JNumber literal, rest') | None => None end
      end
  end
with token_members (fuel : nat) (depth : Z) (object : list (string * json)) (s : string) : option (list (string * json) * string) :=
  match fuel with
  | O => None
  | S f =>
      match expect (chr 34) (skip_space s) with
      | None => None
      | Some s =>
          match unquote (String.length s) s with
          | None => None
          | Some (name, s) =>
              if has_field name object then None
              else
              match expect ":"%char (skip_space s) with
              | None => None
              | Some s =>
                  match token_value f (depth + 1) s with
                  | None => None
                  | Some (entry, s) =>
                      let object := obj_set name entry object in
                      match skip_space s with
                      | String c rest => if c == ","%char then token_members f depth object rest else if c == "}"%char then Some (object, rest) else None
                      | EmptyString => None
                      end
                  end
              end
          end
      end
  end
with token_elements (fuel : nat) (depth : Z) (s : string) : option (list json * string) :=
  match fuel with
  | O => None
  | S f =>
      match token_value f (depth + 1) s with
      | None => None
      | Some (entry, s) =>
          match skip_space s with
          | String c rest =>
              if c == ","%char then match token_elements f depth rest with Some (array, rest') => Some (entry :: array, rest') | None => None end
              else if c == "]"%char then Some ([entry], rest) else None
          | EmptyString => None
          end
      end
  end.
Definition decodeObject (data : string) : option (list (string * json)) :=
  if negb (utf8_valid data) then None
  else match token_value (json_fuel data) 0 data with
       | Some (JObject object, rest) => if skip_space rest == "" then Some object else None
       | _ => None
       end.
(** [object[name]]. *)
Definition field (object : list (string * json)) (name : string) : option json := snd <$> find (fun f => f.1 == name) object.

(** ** Credentials *)
Fixpoint re_times (n : nat) (p : Z -> bool) : regex := match n with O => REmpty | S n => RSeq (RClass p) (re_times n p) end.
(** [[A-Z]] under [(?i)]. *)
Definition re_upper (r : Z) : bool := in_range 97 122 (ascii_lower r) || (r =? 8490) || (r =? 383).
Definition secret_names : regex :=
  RAlt (re_joined "api" "key") (RAlt (re_joined "access" "token") (RAlt (re_joined "refresh" "token") (RAlt (re_joined "client" "secret")
  (RAlt (re_word "password") (RAlt (re_word "passwd") (RAlt (re_word "secret") (RAlt (re_word "authorization")
  (RAlt (re_word "cookie") (re_word "aws_secret_access_key"))))))))).
(** The whole name, from [^] to [$]. *)
Definition at_end (l : list (Z * string)) : option unit := match l with [] => Some tt | _ => None end.
Definition secretField (name : string) : bool := is_some (match_re secret_names at_end (glyphs name)).
Definition private_key_header : regex :=
  RSeq (re_word "-----begin ") (RSeq (RStar (fun r => re_upper r || (r =? 32))) (re_word "private key-----")).
Definition assignment : regex :=
  RSeq (RAlt (re_joined "api" "key") (RAlt (re_word "password") (RAlt (re_word "secret") (re_joined "access" "token"))))
    (RSeq (RStar re_space) (RSeq (RClass (fun r => (r =? 61) || (r =? 58))) (RSeq (RStar re_space)
    (RSeq (re_times 8 (fun r => negb (re_space r))) (RStar (fun r => negb (re_space r))))))).
Definition access_key : regex := RSeq (re_word "akia") (re_times 16 (fun r => re_upper r || in_range 48 57 r)).
Definition credentialPattern : regex := RAlt private_key_header (RAlt assignment access_key).
(** [MatchString] of an expression that does not match the empty string. *)
Fixpoint match_somewhere (r : regex) (l : list (Z * string)) : bool :=
  match l with
  | [] => false
  | _ :: l' => is_some (match_here r l) || match_somewhere r l'
  end.
Definition text_sensitive (forbidden : list string) (text : string) : bool :=
  match_somewhere credentialPattern (glyphs text) || existsb (fun secret => Contains text secret) forbidden.
Definition nonempty_text (v : json) : bool := match v with JString text => text != "" | _ => false end.
Fixpoint sensitive (forbidden : list string) (value : json) : bool :=
  match value with
  | JString text => text_sensitive forbidden text
  | JArray values => existsb (sensitive forbidden) values
  | JObject fields =>
      existsb (fun f => (nonempty_text f.2 && secretField f.1) || text_sensitive forbidden f.1 || sensitive forbidden f.2) fields
  | _ => false
  end.

(** ** MCP policies *)
Record ArgumentRule := mkArgumentRule { ArgumentRule_AllowedValues : list string; ArgumentRule_PathPrefix : string }.
Record ToolPolicy := mkToolPolicy {
  ToolPolicy_Name : string;
  ToolPolicy_Arguments : gmap string ArgumentRule;
  ToolPolicy_Required : list string;
}.
Record MCPPolicy := mkMCPPolicy {
  MCPPolicy_ServerName : string;
  MCPPolicy_Version : string;
  MCPPolicy_DefinitionFile : string;
  MCPPolicy_DefinitionSHA256 : string;
  MCPPolicy_Tools : list ToolPolicy;
}.
(** The anchored patterns: a class of bytes and a range of lengths. *)
Definition is_alnum (c : ascii) : bool := in_range 48 57 (byte_val c) || in_range 65 90 (byte_val c) || in_range 97 122 (byte_val c).
Definition spelled (p : ascii -> bool) (lo hi : Z) (s : string) : bool := str_forall p s && (lo <=? slen s) && (slen s <=? hi).
Definition identifier : string -> bool := spelled (fun c => is_alnum c || (c == "_"%char) || (c == "-"%char)) 1 64.
Definition runIdentifier : string -> bool := spelled is_hex_digit 32 32.
Definition digestPattern : string -> bool := spelled is_hex_digit 64 64.
Definition toolName : string -> bool := spelled (fun c => is_alnum c || (c == "_"%char) || (c == "."%char) || (c == "-"%char)) 1 128.

Definition backslash : ascii := chr 92.
Definition cleanAbsolute (value : string) : bool :=
  HasPrefix value "/" && (Clean value == value) && negb (ContainsAny value [backslash; chr 0]).
Definition sha256_hex (data : string) : string := hex_EncodeToString (Sum256 data).

(** The error texts are the reasons reported to the client. *)
Inductive McpReason :=
  | definition_unavailable | definition_changed | definition_identity | invalid_definition
  | unsupported_mcp_request | invalid_request_id | invalid_tool_parameters | tool_denied
  | argument_required | argument_denied | argument_out_of_range.
Definition McpReason_text (e : McpReason) : string :=
  match e with
  | definition_unavailable => "definition_unavailable" | definition_changed => "definition_changed"
  | definition_identity => "definition_identity" | invalid_definition => "invalid_definition"
  | unsupported_mcp_request => "unsupported_mcp_request" | invalid_request_id => "invalid_request_id"
  | invalid_tool_parameters => "invalid_tool_parameters" | tool_denied => "tool_denied"
  | argument_required => "argument_required" | argument_denied => "argument_denied"
  | argument_out_of_range => "argument_out_of_range"
  end.
Inductive McpConfigError :=
  | InvalidMCPPolicy | DefinitionsRejected (e : McpReason) | InvalidToolPolicy | InvalidArgumentPolicy
  | InvalidPathPolicy | InvalidAllowedValue | RequiredWithoutPolicy.

(** The order in which a loop takes the entries of a map. *)
Class MapOrder := {
  range_order : forall {A : Type}, list A -> list A;
  range_order_perm : forall (A : Type) (l : list A), range_order l ≡ₚ l;
}.

Section Mcp.
Context `{MapOrder} (ownerRead : string -> option string).

(** An interface value compared with a string. *)
Definition is_text (v : option json) (text : string) : bool := match v with Some (JString s) => s == text | _ => false end.
Definition is_string (v : option json) : bool := match v with Some (JString _) => true | _ => false end.
Definition is_object (v : option json) : bool := match v with Some (JObject _) => true | _ => false end.
(** One entry of the definition's [tools], with the names seen before it. *)
Definition definition_tool (names : list string) (item : json) : option string :=
  match item with
  | JObject tool =>
      match field tool "name" with
      | Some (JString name) =>
          if negb (toolName name) || bool_decide (name ∈ names) || negb (is_string (field tool "description")) || negb (is_object (field tool "inputSchema"))
          then None else Some name
      | _ => None
      end
  | _ => None
  end.
Fixpoint tool_names (names : list string) (items : list json) : option (list string) :=
  match items with
  | [] => Some names
  | item :: items => match definition_tool names item with Some name => tool_names (name :: names) items | None => None end
  end.
Definition definitions (policy : MCPPolicy) : result McpReason (list string) :=
  match ownerRead (MCPPolicy_DefinitionFile policy) with
  | None => Err definition_unavailable
  | Some data =>
      if MaxBody <? slen data then Err definition_unavailable
      else if sha256_hex data != MCPPolicy_DefinitionSHA256 policy then Err definition_changed
      else match decodeObject data with
      | None => Err definition_identity
      | Some definition =>
          if negb (is_text (field definition "server_name") (MCPPolicy_ServerName policy))
             || negb (is_text (field definition "version") (MCPPolicy_Version policy))
          then Err definition_identity
          else match field definition "tools" with
          | Some (JArray tools) =>
              if 128 <? len tools then Err invalid_definition
              else match tool_names [] tools with Some names => Ok names | None => Err invalid_definition end
          | _ => Err invalid_definition
          end
      end
  end.

(** *** Validation of a policy *)
Definition validate_value (value : string) : result McpConfigError unit :=
  guard_err ((value == "") || (4096 <? slen value) || ContainsAny value [chr 0]) InvalidAllowedValue.
Definition validate_rule (entry : string * ArgumentRule) : result McpConfigError unit :=
  let (key, rule) := entry in
  let prefix := ArgumentRule_PathPrefix rule in
  let values := ArgumentRule_AllowedValues rule in
  _ ← guard_err ((key == "") || (128 <? slen key) || Bool.eqb (prefix == "") (len values =? 0) || (64 <? len values)) InvalidArgumentPolicy;
  _ ← guard_err ((prefix != "") && (negb (cleanAbsolute prefix) || (prefix == "/"))) InvalidPathPolicy;
  _ ← mapM validate_value values;
  Ok tt.
Definition validate_required (tool : ToolPolicy) (required : string) : result McpConfigError unit :=
  guard_err (is_none (ToolPolicy_Arguments tool !! required)) RequiredWithoutPolicy.
Fixpoint validate_tools (names seen : list string) (tools : list ToolPolicy) : result McpConfigError unit :=
  match tools with
  | [] => Ok tt
  | tool :: tools =>
      let name := ToolPolicy_Name tool in
      _ ← guard_err (negb (toolName name) || negb (bool_decide (name ∈ names)) || bool_decide (name ∈ seen)
                     || (32 <? Z.of_nat (size (ToolPolicy_Arguments tool)))) InvalidToolPolicy;
      _ ← mapM validate_rule (range_order (map_to_list (ToolPolicy_Arguments tool)));
      _ ← mapM (validate_required tool) (ToolPolicy_Required tool);
      validate_tools names (name :: seen) tools
  end.
Definition validateMCP (policy : MCPPolicy) : result McpConfigError unit :=
  _ ← guard_err (negb (identifier (MCPPolicy_ServerName policy)) || (MCPPolicy_Version policy == "") || (128 <? slen (MCPPolicy_Version policy))
                 || negb (digestPattern (MCPPolicy_DefinitionSHA256 policy)) || (len (MCPPolicy_Tools policy) =? 0) || (128 <? len (MCPPolicy_Tools policy)))
      InvalidMCPPolicy;
  match definitions policy with
  | Err e => Err (DefinitionsRejected e)
  | Ok names => validate_tools names [] (MCPPolicy_Tools policy)
  end.

(** *** A request *)
Definition known_member (name : string) : bool := bool_decide (name ∈ ["jsonrpc"; "id"; "method"; "params"]).
Definition request_id_ok (id : option json) : bool :=
  match id with
  | Some (JString id) => negb ((id == "") || (128 <? slen id))
  | Some (JNumber id) => slen id <=? 128
  | _ => false
  end.
Definition within_rule (rule : ArgumentRule) (text : string) : bool :=
  let prefix := ArgumentRule_PathPrefix rule in
  if prefix != "" then cleanAbsolute text && ((text == prefix) || HasPrefix text (prefix +:+ "/"))
  else bool_decide (text ∈ ArgumentRule_AllowedValues rule).
Definition check_argument (tool : ToolPolicy) (argument : string * json) : result McpReason unit :=
  match ToolPolicy_Arguments tool !! argument.1 with
  | None => Err argument_denied
  | Some rule =>
      match argument.2 with
      | JString text =>
          _ ← guard_err (4096 <? slen text) argument_denied;
          guard_err (negb (within_rule rule text)) argument_out_of_range
      | _ => Err argument_denied
      end
  end.
Definition find_tool (policy : MCPPolicy) (name : string) : option ToolPolicy :=
  find (fun tool => ToolPolicy_Name tool == name) (MCPPolicy_Tools policy).
Definition check_call (policy : MCPPolicy) (names : list string) (params : list (string * json)) : result McpReason unit :=
  match field params "name" with
  | Some (JString name) =>
      if negb (bool_decide (name ∈ names)) then Err tool_denied
      else match field params "arguments" with
      | Some (JObject arguments) =>
          match find_tool policy name with
          | None => Err tool_denied
          | Some selected =>
              _ ← mapM (fun required => guard_err (is_none (field arguments required)) argument_required) (ToolPolicy_Required selected);
              _ ← mapM (check_argument selected) (range_order arguments);
              Ok tt
          end
      | _ => Err invalid_tool_parameters
      end
  | _ => Err tool_denied
  end.
Definition checkMCP (policy : MCPPolicy) (request : list (string * json)) : result McpReason unit :=
  names ← definitions policy;
  _ ← guard_err (negb (forallb (fun f => known_member f.1) request)) unsupported_mcp_request;
  _ ← guard_err (negb (is_text (field request "jsonrpc") "2.0") || negb (is_text (field request "method") "tools/call")) unsupported_mcp_request;
  _ ← guard_err (negb (request_id_ok (field request "id"))) invalid_request_id;
  match field request "params" with
  | Some (JObject params) => if negb (len params =? 2) then Err invalid_tool_parameters else check_call policy names params
  | _ => Err invalid_tool_parameters
  end.
End Mcp.

(** ** Lemmas *)
(** The strict decoder reads what the standard one reads. *)
Lemma token_parse fuel : forall depth s,
  (forall room r, 33 - depth <= Z.of_nat room -> token_value fuel depth s = Some r -> parse_value fuel room s = Some r) /\
  (forall room object r, 32 - depth <= Z.of_nat room -> token_members fuel depth object s = Some r -> parse_members fuel room object s = Some r) /\
  (forall room r, 32 - depth <= Z.of_nat room -> token_elements fuel depth s = Some r -> parse_elements fuel room s = Some r).
Proof.
  induction fuel as [|fuel IH]; intros depth s; [done|]. split; [|split].
  - intros room r Hroom. cbn [token_value parse_value_with]. destruct (maxDepth <? depth) eqn:Hd; [done|]. apply Z.ltb_ge in Hd. unfold maxDepth in Hd.
    destruct room as [|room]; [lia|]. destruct (skip_space s) as [|c s1]; [done|].
    destruct (c == "{"%char); [|destruct (c == "["%char); [|done]].
    + destruct (expect _ _); [done|]. destruct (token_members _ _ _ _) as [[l r']|] eqn:E; [|done]. apply (IH depth s1) with (room := room) in E as ->; [done|lia].
    + destruct (expect _ _); [done|]. destruct (token_elements _ _ _) as [[l r']|] eqn:E; [|done]. apply (IH depth s1) with (room := room) in E as ->; [done|lia].
  - intros room object r Hroom. cbn [token_members parse_members_with]. destruct (expect _ _) as [s1|]; [|done].
    destruct (unquote _ _) as [[name s2]|]; [|done]. destruct (has_field _ _); [done|]. destruct (expect ":"%char _) as [s3|]; [|done].
    destruct (token_value _ _ _) as [[v s4]|] eqn:E; [|done]. apply (IH (depth + 1) s3) with (room := room) in E as ->; [|lia]. cbv zeta.
    destruct (skip_space s4) as [|c rest]; [done|]. destruct (c == ","%char); [|done]. intros E. by apply (IH depth rest).
  - intros room r Hroom. cbn [token_elements parse_elements_with]. destruct (token_value _ _ _) as [[v s4]|] eqn:E; [|done].
    apply (IH (depth + 1) s) with (room := room) in E as ->; [|lia]. destruct (skip_space s4) as [|c rest]; [done|]. destruct (c == ","%char); [|done].
    destruct (token_elements _ _ _) as [[l r']|] eqn:E; [|done]. apply (IH depth rest) with (room := room) in E as ->; [done|lia].
Qed.
Lemma decodeObject_Decode data object : decodeObject data = Some object -> Decode data = Some (JObject object).
Proof.
  unfold decodeObject, Decode, decode_next. destruct (utf8_valid data); [|done]. cbn [negb].
  destruct (token_value _ _ _) as [[[| | | | |fields] rest]|] eqn:E; try done. apply token_parse with (room := maxNestingDepth) in E as ->; [|by apply Z.leb_le; vm_compute].
  destruct (_ == _); [|done]. by intros [= <-].
Qed.
Lemma ascending_NoDup l : ascending l = true -> NoDup l.
Proof.
  induction l as [|x l IH]; [constructor|]. cbn [ascending]. intros [H1 H2]%andb_true_iff. constructor; [|auto]. intros Hx.
  rewrite forallb_forall in H1. specialize (H1 x ltac:(by apply list_elem_of_In)). pose proof (less_asym (less := str_lt) _ _ H1). congruence.
Qed.
(** A member of a decoded object is what [field] finds. *)
Lemma field_spec object name v : NoDup (map fst object) -> field object name = Some v <-> (name, v) ∈ object.
Proof.
  unfold field. induction object as [|[k w] object IH]; cbn [map fst find]; intros Hn; [set_solver|]. apply NoDup_cons in Hn as [Hk Hn].
  destruct (k == name) eqn:E.
  - apply bool_decide_eq_true in E as ->. cbn. split; [intros [= ->]; left|]. intros [[= <-]|Hin]%elem_of_cons; [done|]. exfalso. apply Hk.
    apply list_elem_of_fmap. by exists (name, v).
  - apply bool_decide_eq_false in E. rewrite (IH Hn), elem_of_cons. split; [auto|]. by intros [[= <- _]|?].
Qed.
Lemma decodeObject_names data object : decodeObject data = Some object -> NoDup (map fst object).
Proof. intros [Hc _]%decodeObject_Decode%Decode_canonical. apply andb_true_iff in Hc as [Hc _]. by apply ascending_NoDup. Qed.

(** *** Text found in a value *)
(** [text] is a string or a member name of the value. *)
Inductive occurs (text : string) : json -> Prop :=
  | occurs_here : occurs text (JString text)
  | occurs_array v l : v ∈ l -> occurs text v -> occurs text (JArray l)
  | occurs_name v fields : (text, v) ∈ fields -> occurs text (JObject fields)
  | occurs_member name v fields : (name, v) ∈ fields -> occurs text v -> occurs text (JObject fields).
(** [name] has the non-empty text [text] in some object of the value. *)
Inductive assigns (name text : string) : json -> Prop :=
  | assigns_here fields : (name, JString text) ∈ fields -> assigns name text (JObject fields)
  | assigns_array v l : v ∈ l -> assigns name text v -> assigns name text (JArray l)
  | assigns_member name' v fields : (name', v) ∈ fields -> assigns name text v -> assigns name text (JObject fields).
Lemma existsb_elem {A} (f : A -> bool) l : existsb f l = true <-> exists x, x ∈ l /\ f x = true.
Proof. rewrite existsb_exists. by setoid_rewrite list_elem_of_In. Qed.
Lemma sensitive_spec forbidden v :
  sensitive forbidden v = true <->
  (exists text, occurs text v /\ text_sensitive forbidden text = true) \/
  (exists name text, assigns name text v /\ text <> "" /\ secretField name = true).
Proof.
  split.
  - induction v as [| b |s|s|l IH|fields IH] using json_induction; cbn [sensitive]; try done.
    + intros Hs. left. exists s. by split; [constructor|].
    + intros (v & Hv & Hs)%existsb_elem. rewrite Forall_forall in IH. destruct (IH v Hv Hs) as [(t & Ht & Hc)|(n & t & Hn & Ht & Hc)].
      * left. exists t. split; [by econstructor|done].
      * right. exists n, t. split_and!; [by econstructor|done..].
    + intros ([name v] & Hv & Hs)%existsb_elem. cbn [fst snd] in Hs. apply orb_true_iff in Hs as [[[Ht Hn]%andb_true_iff|Hs]%orb_true_iff|Hs].
      * right. destruct v as [| | |text| |]; try done. exists name, text. cbn in Ht. apply negb_true_iff, bool_decide_eq_false in Ht. by split_and!; [constructor|..].
      * left. exists name. split; [by econstructor|done].
      * rewrite Forall_forall in IH. destruct (IH _ Hv Hs) as [(t & Ht & Hc)|(n & t & Hn & Ht & Hc)].
        -- left. exists t. split; [by eapply occurs_member|done].
        -- right. exists n, t. split_and!; [by eapply assigns_member|done..].
  - intros [(t & Ht & Hc)|(n & t & Hn & Ht & Hc)].
    + induction Ht as [|v l Hv _ IH|v fields Hv|name v fields Hv _ IH]; cbn [sensitive]; [done|..]; apply existsb_elem; eauto; eexists; split; try exact Hv; cbn [fst snd]; [rewrite Hc|rewrite IH]; by rewrite ?orb_true_r.
    + induction Hn as [fields Hv|v l Hv _ IH|name v fields Hv _ IH]; cbn [sensitive]; apply existsb_elem; eauto; eexists; split; try exact Hv; cbn [fst snd nonempty_text]; [|by rewrite IH, !orb_true_r].
      rewrite Hc. by rewrite bool_decide_eq_false_2.
Qed.

(** *** Policies *)
Lemma mapM_units {E A B} (f : A -> result E unit) l (m : result E B) x :
  (_ ← mapM f l; m) = Ok x <-> (forall a, a ∈ l -> f a = Ok tt) /\ m = Ok x.
Proof.
  induction l as [|a l IH]; cbn [mapM].
  - split; [intros Hm; split; [set_solver|exact Hm]|by intros [_ Hm]].
  - destruct (f a) as [[]|e] eqn:Ef.
    + transitivity ((_ ← mapM f l; m) = Ok x).
      { cbn. destruct (mapM f l); reflexivity. }
      rewrite IH. split; intros [H1 H2]; (split; [|exact H2]); [|set_solver]. intros b [->|Hb]%elem_of_cons; [exact Ef|auto].
    + split; [done|]. intros [H1 _]. specialize (H1 a ltac:(left)). congruence.
Qed.
(** What a valid policy's path rules look like. *)
Definition prefix_ok (rule : ArgumentRule) : Prop :=
  ArgumentRule_PathPrefix rule <> "" -> cleanAbsolute (ArgumentRule_PathPrefix rule) = true /\ ArgumentRule_PathPrefix rule <> "/".
Definition rules_ok (policy : MCPPolicy) : Prop :=
  forall tool key rule, tool ∈ MCPPolicy_Tools policy -> ToolPolicy_Arguments tool !! key = Some rule -> prefix_ok rule.
Lemma validate_rule_prefix key rule : validate_rule (key, rule) = Ok tt -> prefix_ok rule.
Proof.
  unfold validate_rule. rewrite !guard_bind. intros (_ & Hp & _) Hne. rewrite bool_decide_eq_false_2 in Hp by done. cbn [negb andb] in Hp.
  apply orb_false_iff in Hp as [Hc Hs]. apply negb_false_iff in Hc. by apply bool_decide_eq_false in Hs.
Qed.

Section McpLemmas.
Context `{MapOrder}.
Implicit Types (ownerRead : string -> option string).
Lemma range_order_elem {A} (x : A) l : x ∈ range_order l <-> x ∈ l.
Proof. by rewrite range_order_perm. Qed.
Lemma validate_tools_rules names tools : forall seen, validate_tools names seen tools = Ok tt ->
  forall tool key rule, tool ∈ tools -> ToolPolicy_Arguments tool !! key = Some rule -> prefix_ok rule.
Proof.
  induction tools as [|t tools IH]; intros seen; [set_solver|]. cbn [validate_tools]. rewrite guard_bind, !mapM_units. intros (_ & Hr & _ & Ht).
  intros tool key rule [->|Hin]%elem_of_cons Hk; [|by eapply IH]. apply (validate_rule_prefix key), Hr, range_order_elem, elem_of_map_to_list, Hk.
Qed.
Lemma validateMCP_rules ownerRead policy : validateMCP ownerRead policy = Ok tt -> rules_ok policy.
Proof.
  unfold validateMCP. rewrite guard_bind. intros [_ Hv]. destruct (definitions _ _) as [names|]; [|done]. intros tool key rule. by eapply validate_tools_rules.
Qed.

(** A path argument allowed by a rule lies in the directory of the rule. *)
Definition inside (prefix text : string) : Prop :=
  IsAbs text = true /\ Clean text = text /\ ContainsAny text [backslash; chr 0] = false /\ components prefix `prefix_of` components text.
Lemma cleanAbsolute_spec value : cleanAbsolute value = true <-> IsAbs value = true /\ Clean value = value /\ ContainsAny value [backslash; chr 0] = false.
Proof. unfold cleanAbsolute, IsAbs. rewrite !andb_true_iff, bool_decide_eq_true, negb_true_iff. tauto. Qed.
Definition obeys (rule : ArgumentRule) (text : string) : Prop :=
  if ArgumentRule_PathPrefix rule == "" then text ∈ ArgumentRule_AllowedValues rule else inside (ArgumentRule_PathPrefix rule) text.
Lemma within_rule_spec rule text : prefix_ok rule -> within_rule rule text = true <-> obeys rule text.
Proof.
  unfold within_rule, obeys, inside, prefix_ok. destruct (_ == "") eqn:E; cbn [negb]; [intros _; by rewrite bool_decide_eq_true|].
  apply bool_decide_eq_false in E. intros Hok. destruct (Hok E) as [[Ha [Hc _]]%cleanAbsolute_spec Hs]. rewrite andb_true_iff, cleanAbsolute_spec.
  set (prefix := ArgumentRule_PathPrefix rule) in *.
  assert (IsAbs text = true -> Clean text = text -> (text == prefix) || HasPrefix text (prefix +:+ "/") = true <-> components prefix `prefix_of` components text) as Hiff; [|tauto].
  intros Hta Htc. rewrite <-clean_ancestor_components, Hc, Htc, clean_ancestor_spec, orb_true_iff, bool_decide_eq_true, HasPrefix_app by done.
  split; [intros [->|[r Er]]; [by left|right; right; exists r; by rewrite Er, <-str_app_assoc]|].
  intros [->|[?|[r ->]]]; [by left|done|]. right. exists r. by rewrite <-str_app_assoc.
Qed.

(** A tool call the policy allows. *)
Record allowed_call (policy : MCPPolicy) (names : list string) (request : list (string * json)) : Prop := mkAllowed {
  allowed_members : forall name, name ∈ map fst request -> name ∈ ["jsonrpc"; "id"; "method"; "params"];
  allowed_version : ("jsonrpc", JString "2.0") ∈ request;
  allowed_method : ("method", JString "tools/call") ∈ request;
  allowed_id : exists id, ("id", id) ∈ request /\ request_id_ok (Some id) = true;
  allowed_params : exists params tool arguments,
    ("params", JObject params) ∈ request /\ len params = 2 /\
    ("name", JString (ToolPolicy_Name tool)) ∈ params /\ ("arguments", JObject arguments) ∈ params /\
    ToolPolicy_Name tool ∈ names /\ find_tool policy (ToolPolicy_Name tool) = Some tool /\
    (forall required, required ∈ ToolPolicy_Required tool -> required ∈ map fst arguments) /\
    (forall key v, (key, v) ∈ arguments -> exists rule text,
      ToolPolicy_Arguments tool !! key = Some rule /\ v = JString text /\ slen text <= 4096 /\ obeys rule text);
}.
Lemma is_text_spec v text : is_text v text = true <-> v = Some (JString text).
Proof. destruct v as [[| | |s| |]|]; cbn; try (split; congruence). rewrite bool_decide_eq_true. split; congruence. Qed.
Lemma field_member object name : is_none (field object name) = false <-> name ∈ map fst object.
Proof.
  unfold field. induction object as [|[k w] object IH]; cbn [find map fst]; [set_solver|]. destruct (k == name) eqn:E.
  - apply bool_decide_eq_true in E as ->. split; [intros _; left|done].
  - apply bool_decide_eq_false in E. rewrite IH, elem_of_cons. split; [auto|]. by intros [<-|?].
Qed.
Lemma object_canonical fields : canonical (JObject fields) = true ->
  NoDup (map fst fields) /\ forall name inner, (name, JObject inner) ∈ fields -> canonical (JObject inner) = true.
Proof.
  intros [Ha Hf]%andb_true_iff. split; [by apply ascending_NoDup|]. intros name inner Hin. rewrite forallb_forall in Hf.
  specialize (Hf _ (proj1 (list_elem_of_In _ _) Hin)). by apply andb_true_iff in Hf as [_ Hf].
Qed.
Lemma check_argument_spec policy tool key v : rules_ok policy -> tool ∈ MCPPolicy_Tools policy ->
  check_argument tool (key, v) = Ok tt <-> exists rule text, ToolPolicy_Arguments tool !! key = Some rule /\ v = JString text /\ slen text <= 4096 /\ obeys rule text.
Proof.
  intros Hok Ht. unfold check_argument. cbn [fst snd]. destruct (_ !! key) as [rule|] eqn:Ek; [|split; [done|by intros (? & ? & ? & _)]].
  destruct v as [| | |text| |]; try (split; [done|by intros (? & ? & _ & ? & _)]).
  rewrite guard_bind, guard_err_ok, negb_false_iff, Z.ltb_ge, (within_rule_spec rule text (Hok _ _ _ Ht Ek)). split; [intros [? ?]; by exists rule, text|].
  intros (? & ? & [= <-] & [= <-] & ? & ?). done.
Qed.
Lemma find_tool_spec policy name tool : find_tool policy name = Some tool -> tool ∈ MCPPolicy_Tools policy /\ ToolPolicy_Name tool = name.
Proof. intros [Hin Hn]%find_some. rewrite bool_decide_eq_true in Hn. split; [by apply list_elem_of_In|done]. Qed.
Lemma check_call_spec policy names params : rules_ok policy -> canonical (JObject params) = true ->
  check_call policy names params = Ok tt <-> exists tool arguments,
    ("name", JString (ToolPolicy_Name tool)) ∈ params /\ ("arguments", JObject arguments) ∈ params /\
    ToolPolicy_Name tool ∈ names /\ find_tool policy (ToolPolicy_Name tool) = Some tool /\
    (forall required, required ∈ ToolPolicy_Required tool -> required ∈ map fst arguments) /\
    (forall key v, (key, v) ∈ arguments -> exists rule text,
      ToolPolicy_Arguments tool !! key = Some rule /\ v = JString text /\ slen text <= 4096 /\ obeys rule text).
Proof.
  intros Hok [Hn _]%object_canonical. setoid_rewrite <-(field_spec params _ _ Hn). unfold check_call.
  destruct (field params "name") as [[| | |name| |]|]; try (split; [done|by intros (? & ? & ? & _)]).
  destruct (bool_decide (name ∈ names)) eqn:En; cbn [negb]; [|apply bool_decide_eq_false in En; split; [done|]; intros (? & ? & [= ->] & _ & ? & _); done].
  apply bool_decide_eq_true in En. destruct (field params "arguments") as [[| | | | |arguments]|]; try (split; [done|by intros (? & ? & _ & ? & _)]).
  destruct (find_tool policy name) as [tool|] eqn:Et; [|split; [done|]; intros (? & ? & [= ->] & _ & _ & ? & _); congruence].
  pose proof (find_tool_spec _ _ _ Et) as [Hin <-]. rewrite !mapM_units. setoid_rewrite guard_err_ok. setoid_rewrite field_member. setoid_rewrite range_order_elem. split.
  - intros (Hr & Ha & _). exists tool, arguments. split_and!; try done. intros key v Hkv. by apply (check_argument_spec policy), Ha.
  - intros (tool' & arguments' & [= E] & [= <-] & _ & Hf & Hr & Ha). rewrite <-E, Et in Hf. injection Hf as <-. split_and!; [done| |done].
    intros [key v] Hkv. by apply (check_argument_spec policy), Ha.
Qed.
Lemma checkMCP_spec ownerRead policy request : rules_ok policy -> canonical (JObject request) = true ->
  checkMCP ownerRead policy request = Ok tt <-> exists names, definitions ownerRead policy = Ok names /\ allowed_call policy names request.
Proof.
  intros Hok Hc. destruct (object_canonical _ Hc) as [Hn Hi]. unfold checkMCP. destruct (definitions _ _) as [names|e]; [|split; [done|by intros (? & ? & _)]].
  transitivity (allowed_call policy names request); [|split; [by exists names|by intros (? & [= <-] & ?)]].
  change ((_ ← Ok names; ?m)) with m.
  cbn -[guard_err check_call]. rewrite !guard_bind, negb_false_iff, orb_false_iff, !negb_false_iff, !is_text_spec, !(field_spec request _ _ Hn), forallb_forall.
  split.
  - intros (Hm & (Hv & Hme) & Hid & Hp). destruct (field request "params") as [[| | | | |params]|] eqn:Ep; try done. apply (field_spec _ _ _ Hn) in Ep.
    destruct (len params =? 2) eqn:El; [|done]. apply Z.eqb_eq in El. apply check_call_spec in Hp as (tool & arguments & Hp); [|done|by eapply Hi]. constructor; try done.
    + intros name (f & -> & Hf)%list_elem_of_fmap. apply list_elem_of_In, Hm in Hf. by apply bool_decide_eq_true in Hf.
    + destruct (field request "id") as [id|] eqn:Ei; [|done]. exists id. split; [by apply (field_spec _ _ _ Hn)|done].
    + by exists params, tool, arguments.
  - intros [Hm Hv Hme (id & Hid & Hidok) (params & tool & arguments & Hp & El & Hrest)]. split_and!; try done.
    + intros f Hf%list_elem_of_In. apply bool_decide_eq_true, Hm, list_elem_of_fmap. by exists f.
    + apply (field_spec _ _ _ Hn) in Hid as ->. done.
    + assert (canonical (JObject params) = true) as Hcp by by eapply Hi. apply (field_spec _ _ _ Hn) in Hp as ->. rewrite El. cbn [negb Z.eqb].
      apply check_call_spec; [done..|]. by exists tool, arguments.
Qed.
Lemma allowed_call_names policy names names' request : (forall name, name ∈ names <-> name ∈ names') ->
  allowed_call policy names request -> allowed_call policy names' request.
Proof.
  intros Hn [H1 H2 H3 H4 (params & tool & arguments & Hp & El & Hname & Hargs & Hin & Hfind & Hreq & Hrules)]. constructor; try done.
  exists params, tool, arguments. split_and!; try done. by apply Hn.
Qed.
End McpLemmas.

(** The pinned definition file, unchanged, and the tools it describes. *)
Definition describes (item : json) (name : string) : Prop :=
  exists tool, item = JObject tool /\ field tool "name" = Some (JString name) /\ toolName name = true /\
    is_string (field tool "description") = true /\ is_object (field tool "inputSchema") = true.
Definition pinned (ownerRead : string -> option string) (policy : MCPPolicy) (names : list string) : Prop :=
  exists data definition items,
    ownerRead (MCPPolicy_DefinitionFile policy) = Some data /\ slen data <= MaxBody /\
    sha256_hex data = MCPPolicy_DefinitionSHA256 policy /\ decodeObject data = Some definition /\
    ("server_name", JString (MCPPolicy_ServerName policy)) ∈ definition /\ ("version", JString (MCPPolicy_Version policy)) ∈ definition /\
    ("tools", JArray items) ∈ definition /\ len items <= 128 /\ Forall2 describes items names /\ NoDup names.
Lemma definition_tool_spec names item name : definition_tool names item = Some name <-> describes item name /\ name ∉ names.
Proof.
  unfold definition_tool, describes. destruct item as [| | | | |tool]; try (split; [done|by intros [(? & ? & _) _]]).
  destruct (field tool "name") as [[| | |n| |]|] eqn:En; try (split; [done|intros [(? & [= <-] & ? & _) _]; congruence]).
  destruct (_ || _) eqn:E; split; try done.
  - intros [(? & [= <-] & Hf & H1 & H2 & H3) Hn]. rewrite En in Hf. injection Hf as ->. rewrite H1, H2, H3, bool_decide_eq_false_2 in E by done. done.
  - intros [= ->]. rewrite !orb_false_iff, !negb_false_iff, bool_decide_eq_false in E. destruct E as [[[? ?] ?] ?]. split; [|done]. by exists tool.
  - intros [(? & [= <-] & Hf & _) _]. congruence.
Qed.
Lemma tool_names_spec items : forall names names', NoDup names ->
  tool_names names items = Some names' <-> exists fresh, names' = rev fresh ++ names /\ Forall2 describes items fresh /\ NoDup names'.
Proof.
  induction items as [|item items IH]; intros names names' Hn; cbn [tool_names].
  - split; [intros [= <-]; exists []; by repeat constructor|]. intros (fresh & -> & Hf%Forall2_nil_inv_l & _). by subst.
  - destruct (definition_tool names item) as [name|] eqn:E.
    + pose proof (proj1 (definition_tool_spec _ _ _) E) as [Hd Hi]. rewrite IH by by constructor. split.
      * intros (fresh & -> & Hf & Hnd). exists (name :: fresh). cbn [rev]. rewrite <-app_assoc. split_and!; [done|by constructor|done].
      * intros (fresh & -> & Hf & Hnd). apply Forall2_cons_inv_l in Hf as (name' & fresh' & Hd' & Hf & ->). exists fresh'. cbn [rev] in *. rewrite <-app_assoc in *.
        assert (name' = name) as -> by (destruct Hd as (t & -> & Et & _), Hd' as (t' & [= <-] & Et' & _); congruence). done.
    + split; [done|]. intros (fresh & -> & Hf & Hnd). apply Forall2_cons_inv_l in Hf as (name' & fresh' & Hd' & Hf & ->).
      assert (definition_tool names item = Some name') as E'; [|congruence]. apply definition_tool_spec. split; [done|]. cbn [rev] in Hnd. rewrite <-app_assoc in Hnd.
      apply NoDup_app in Hnd as (_ & _ & Hnd). by apply NoDup_cons in Hnd as [? _].
Qed.
Lemma definitions_pinned ownerRead policy names : definitions ownerRead policy = Ok names <-> pinned ownerRead policy (rev names).
Proof.
  unfold definitions, pinned. destruct (ownerRead _) as [data|]; [|split; [done|by intros (? & ? & ? & ? & _)]].
  destruct (MaxBody <? slen data) eqn:El; [apply Z.ltb_lt in El; split; [done|]; intros (? & ? & ? & [= <-] & ? & _); lia|]. apply Z.ltb_ge in El.
  destruct (sha256_hex data == _) eqn:Eh; cbn [negb]; [apply bool_decide_eq_true in Eh|apply bool_decide_eq_false in Eh; split; [done|]; by intros (? & ? & ? & [= <-] & _ & ? & _)].
  destruct (decodeObject data) as [definition|] eqn:Ed; [|split; [done|]; intros (? & ? & ? & [= <-] & _ & _ & ? & _); congruence].
  pose proof (decodeObject_names _ _ Ed) as Hn. destruct (_ || _) eqn:Ei.
  - split; [done|]. intros (? & ? & ? & [= <-] & _ & _ & E & H1 & H2 & _). assert (x0 = definition) as -> by congruence.
    apply (field_spec _ _ _ Hn) in H1, H2. by rewrite H1, H2, !(proj2 (is_text_spec _ _)) in Ei.
  - apply orb_false_iff in Ei as [H1 H2]. apply negb_false_iff, is_text_spec, (field_spec _ _ _ Hn) in H1, H2.
    transitivity (exists items, field definition "tools" = Some (JArray items) /\ len items <= 128 /\ tool_names [] items = Some names).
    { destruct (field definition "tools") as [[| | | |items|]|]; try (split; [done|by intros (? & ? & _)]).
      destruct (128 <? len items) eqn:E; [apply Z.ltb_lt in E; split; [done|]; intros (? & [= <-] & ? & _); lia|]. apply Z.ltb_ge in E.
      destruct (tool_names [] items) as [ns|] eqn:En; split; try done; [intros [= ->]; by exists items|intros (? & [= <-] & _ & E'); congruence|intros (? & [= <-] & _ & E'); congruence]. }
    setoid_rewrite (field_spec _ _ _ Hn). setoid_rewrite (fun l => tool_names_spec l [] names (NoDup_nil_2)). setoid_rewrite app_nil_r. split.
    + intros (items & Hi & Hl & fresh & -> & Hf & Hnd). exists data, definition, items. rewrite rev_involutive. split_and!; try done. by rewrite <-Permutation_rev in Hnd.
    + intros (? & ? & items & [= <-] & _ & _ & E & _ & _ & Hi & Hl & Hf & Hnd). assert (x0 = definition) as -> by congruence. exists items. split_and!; [done..|].
      exists (rev names). rewrite rev_involutive. split_and!; [done..|]. by rewrite <-Permutation_rev in Hnd.
Qed.

(** C27: a request body passes the MCP check exactly when the definition file
    still has the pinned digest and identity and the body is a JSON-RPC
    [tools/call] of a described tool that the policy names, with the required
    arguments, every argument under a rule: one of the listed values, or a
    clean absolute path whose components continue the prefix, which no dot
    component, backslash or NUL leaves.  The policy passed validation, perhaps
    with other files; the order of map iteration is any. *)
Theorem checkMCP_exact `{MapOrder} (configured ownerRead : string -> option string) policy data request
  (Hpolicy : validateMCP configured policy = Ok tt) (Hbody : decodeObject data = Some request) :
  checkMCP ownerRead policy request = Ok tt <->
  exists names, pinned ownerRead policy names /\ allowed_call policy names request.
Proof.
  apply validateMCP_rules in Hpolicy. apply decodeObject_Decode in Hbody as [Hc _]%Decode_canonical. rewrite checkMCP_spec by done.
  setoid_rewrite definitions_pinned. split.
  - intros (names & Hp & Ha). exists (rev names). split; [done|]. by eapply allowed_call_names; [|exact Ha]; intros name; rewrite <-Permutation_rev.
  - intros (names & Hp & Ha). exists (rev names). rewrite rev_involutive. split; [done|]. by eapply allowed_call_names; [|exact Ha]; intros name; rewrite <-Permutation_rev.
Qed.

(** A file tool confined to a directory. *)
Module McpDemo.
#[export] Instance in_order : MapOrder := {| range_order := fun _ l => l; range_order_perm := fun _ l => reflexivity l |}.
Definition definition_text : string :=
  Marshal (JObject [("server_name", JString "files"); ("tools", JArray [JObject [("description", JString "reads a file"); ("inputSchema", JObject []); ("name", JString "read")]]);
    ("version", JString "1")]).
Definition files (path : string) : option string := if path == "/etc/mcp.json" then Some definition_text else None.
Definition rule : ArgumentRule := mkArgumentRule [] "/srv/data".
Definition policy : MCPPolicy :=
  mkMCPPolicy "files" "1" "/etc/mcp.json" (sha256_hex definition_text) [mkToolPolicy "read" {["path" := rule]} ["path"]].
Definition call (path : string) : string :=
  Marshal (JObject [("id", JNumber "1"); ("jsonrpc", JString "2.0"); ("method", JString "tools/call");
    ("params", JObject [("arguments", JObject [("path", JString path)]); ("name", JString "read")])]).
Definition verdict (path : string) : option McpReason :=
  match decodeObject (call path) with
  | Some request => match checkMCP files policy request with Ok _ => None | Err e => Some e end
  | None => None
  end.
End McpDemo.
Import McpDemo.
Lemma mcp_demo_verdicts : map verdict ["/srv/data/a"; "/srv/data"; "/srv/data/../etc"; "/srv/database"; "srv/data/a"] =
  [None; None; Some argument_out_of_range; Some argument_out_of_range; Some argument_out_of_range].
Proof. vm_compute. reflexivity. Qed.
(** The decoder refuses a repeated name, bytes after the object, a byte that is
    not UTF-8, and a 34th level. *)
Definition repeated_name : string := "{" +:+ quoted "a" +:+ ":1," +:+ quoted "a" +:+ ":1}".
Definition nested (n : nat) : string := "{" +:+ quoted "a" +:+ ":" +:+ String.concat "" (repeat "[" n) +:+ String.concat "" (repeat "]" n) +:+ "}".
Lemma decodeObject_refuses :
  map (fun s => is_some (decodeObject s)) [repeated_name; call "/srv/data" +:+ "1"; String (chr 255) ""; nested 33; nested 32; call "/srv/data"] =
  [false; false; false; false; true; true].
Proof. vm_compute. reflexivity. Qed.
Lemma checkMCP_exact_witness : match decodeObject (call "/srv/data/a") with
  | Some request => exists names, pinned files policy names /\ allowed_call policy names request
  | None => False
  end.
Proof.
  destruct (decodeObject (call "/srv/data/a")) as [request|] eqn:E; [|by vm_compute in E].
  apply (checkMCP_exact files files policy (call "/srv/data/a") request); [by vm_compute|exact E|].
  vm_compute in E. injection E as <-. vm_compute. reflexivity.
Defined.
