(* ===== verification/Checker.v ===== *)
(** * The local inspection endpoint ([internal/inspection/checker.go])

    Approvals, request budgets and the check itself.  A request is answered in
    stages, each one critical section or one call out of the package; requests
    interleave at the stages.  [Authenticate], [ActiveRun], [Audit] and
    [ownerRead] belong to the caller: every stage gets the answers of its own
    moment. *)
From S2P Require Import Prelude GoStd GoTime Json Crypto Redact StreamHandler McpPolicy.
Open Scope Z_scope.

(** ** [mime.ParseMediaType] *)
Definition is_tspecial (c : ascii) : bool :=
  bool_decide (c ∈ ["("; ")"; "<"; ">"; "@"; ","; ";"; ":"; "/"; "["; "]"; "?"; "="]%char) || (byte_val c =? 92) || (byte_val c =? 34).
Definition is_token_char (c : ascii) : bool := in_range 33 126 (byte_val c) && negb (is_tspecial c).
Fixpoint consumeToken (s : string) : string * string :=
  match s with
  | String c s' => if is_token_char c then let (token, rest) := consumeToken s' in (String c token, rest) else ("", s)
  | EmptyString => ("", "")
  end.
Definition CutPrefix (s prefix : string) : option string := if HasPrefix s prefix then Some (str_drop (String.length prefix) s) else None.
Definition checkMediaTypeDisposition (s : string) : bool :=
  let (typ, rest) := consumeToken s in
  if typ == "" then false
  else if rest == "" then true
  else match CutPrefix rest "/" with
  | None => false
  | Some rest => let (sub, rest) := consumeToken rest in (sub != "") && (rest == "")
  end.
(** A quoted string after its opening quote. *)
Fixpoint quoted_value (fuel : nat) (s : string) : option (string * string) :=
  match fuel, s with
  | S f, String c s' =>
      if byte_val c =? 34 then Some ("", s')
      else match (if byte_val c =? 92 then s' else "") with
      | String d s'' =>
          if is_tspecial d then match quoted_value f s'' with Some (value, rest) => Some (String d value, rest) | None => None end
          else match quoted_value f s' with Some (value, rest) => Some (String c value, rest) | None => None end
      | EmptyString =>
          if (byte_val c =? 13) || (byte_val c =? 10) then None
          else match quoted_value f s' with Some (value, rest) => Some (String c value, rest) | None => None end
      end
  | _, _ => None
  end.
Definition consumeValue (s : string) : string * string :=
  match s with
  | String c s' => if byte_val c =? 34 then default ("", s) (quoted_value (String.length s') s') else consumeToken s
  | EmptyString => ("", "")
  end.
Definition trim_left (s : string) : string := strip_all (String.length s) space_encodings s.
Section Media.
Context `{UnicodeTables}.
(** [None]: no parameter here. *)
Definition consumeMediaParam (s : string) : option (string * string * string) :=
  match CutPrefix s ";" with
  | None => None
  | Some rest =>
      let (param, rest) := consumeToken (trim_left rest) in
      let param := ToLower param in
      if param == "" then None
      else match CutPrefix (trim_left rest) "=" with
      | None => None
      | Some rest =>
          let rest := trim_left rest in
          let (value, rest') := consumeValue rest in
          if (value == "") && (rest' == rest) then None else Some (param, value, rest')
      end
  end.
(** The parameters only matter for being well formed: a repeated name has one
    value. *)
Fixpoint media_params (fuel : nat) (params : gmap string string) (s : string) : bool :=
  match fuel with
  | O => true
  | S f =>
      let s := trim_left s in
      if s == "" then true
      else match consumeMediaParam s with
      | None => TrimSpace s == ";"
      | Some (key, value, rest) =>
          match params !! key with
          | Some v => if v != value then false else media_params f params rest
          | None => media_params f (<[key := value]> params) rest
          end
      end
  end.
(** The media type, when the whole value is well formed. *)
Definition ParseMediaType (v : string) : option string :=
  let base := match Cut v ";" with Some (base, _) => base | None => v end in
  let mediatype := TrimSpace (ToLower base) in
  if negb (checkMediaTypeDisposition mediatype) then None
  else if media_params (String.length v) ∅ (str_drop (String.length base) v) then Some mediatype else None.
End Media.

(** ** The checker *)
Record Route := mkRoute { Route_ID : string; Route_Kind : string; Route_MCP : option MCPPolicy }.
Record Config := mkConfig {
  Config_Routes : list Route;
  Config_SensitiveFiles : list string;
  Config_RequestsPerRun : Z;
  Config_Concurrency : Z;
}.
Record Decision := mkDecision {
  Decision_RunID : string;
  Decision_RouteID : string;
  Decision_SHA256 : string;
  Decision_Reason : string;
  Decision_Checked : bool;
}.
Record Approval := mkApproval { Approval_RunID : string; Approval_RouteID : string; Approval_SHA256 : string; Approval_ExpiresAt : Time }.
(** [ck_slots]: how many of the [ck_capacity] slots are held. *)
Record Checker := mkChecker {
  ck_routes : gmap string Route;
  ck_forbidden : list string;
  ck_approvals : gmap string Time;
  ck_counts : gmap string Z;
  ck_limit : Z;
  ck_slots : Z;
  ck_capacity : Z;
}.
Definition with_approvals (c : Checker) (approvals : gmap string Time) : Checker :=
  mkChecker (ck_routes c) (ck_forbidden c) approvals (ck_counts c) (ck_limit c) (ck_slots c) (ck_capacity c).
Definition with_counts (c : Checker) (counts : gmap string Z) : Checker :=
  mkChecker (ck_routes c) (ck_forbidden c) (ck_approvals c) counts (ck_limit c) (ck_slots c) (ck_capacity c).
Definition with_slots (c : Checker) (slots : Z) : Checker :=
  mkChecker (ck_routes c) (ck_forbidden c) (ck_approvals c) (ck_counts c) (ck_limit c) slots (ck_capacity c).
(** What the caller's functions answer at one moment. *)
Record Moment := mkMoment {
  m_now : Time;
  m_active : string -> bool;
  m_audit : Decision -> bool;
  m_read : string -> option string;
}.

(** *** Construction *)
Inductive NewError :=
  | InvalidInspectionConfiguration | InvalidInspectionRoute | DuplicateInspectionRoute | UnexpectedMCPConfiguration
  | MissingMCPPolicy | MCPRejected (e : McpConfigError) | UnsupportedInspectionKind | InvalidSensitiveFile.
Section New.
Context `{MapOrder} (ownerRead : string -> option string).
Definition check_route (route : Route) : result NewError unit :=
  if Route_Kind route == "model" then guard_err (is_some (Route_MCP route)) UnexpectedMCPConfiguration
  else if Route_Kind route == "mcp" then
    match Route_MCP route with
    | None => Err MissingMCPPolicy
    | Some policy => match validateMCP ownerRead policy with Ok _ => Ok tt | Err e => Err (MCPRejected e) end
    end
  else Err UnsupportedInspectionKind.
Fixpoint add_routes (routes : gmap string Route) (l : list Route) : result NewError (gmap string Route) :=
  match l with
  | [] => Ok routes
  | route :: l =>
      _ ← guard_err (negb (identifier (Route_ID route))) InvalidInspectionRoute;
      _ ← guard_err (is_some (routes !! Route_ID route)) DuplicateInspectionRoute;
      _ ← check_route route;
      add_routes (<[Route_ID route := route]> routes) l
  end.
Definition read_sensitive (path : string) : result NewError string :=
  match ownerRead path with
  | Some data => if (slen data <? 8) || (MaxBody <? slen data) then Err InvalidSensitiveFile else Ok data
  | None => Err InvalidSensitiveFile
  end.
(** [callbacks]: whether all the caller's functions are given. *)
Definition New (cfg : Config) (callbacks : bool) : result NewError Checker :=
  _ ← guard_err (negb callbacks || (len (Config_Routes cfg) <? 1) || (32 <? len (Config_Routes cfg)) || (32 <? len (Config_SensitiveFiles cfg))
                 || (Config_RequestsPerRun cfg <? 1) || (10000 <? Config_RequestsPerRun cfg)
                 || (Config_Concurrency cfg <? 1) || (16 <? Config_Concurrency cfg)) InvalidInspectionConfiguration;
  routes ← add_routes ∅ (Config_Routes cfg);
  forbidden ← mapM read_sensitive (Config_SensitiveFiles cfg);
  Ok (mkChecker routes forbidden ∅ ∅ (Config_RequestsPerRun cfg) 0 (Config_Concurrency cfg)).
End New.

(** *** Approvals *)
Definition approvalKey (run route digest : string) : string := run +:+ "/" +:+ route +:+ "/" +:+ digest.
Inductive ApproveError := InactiveApproval | UnknownInspectionRoute | ApprovalCapacity | ApprovalAuditUnavailable.
Definition approval_decision (a : Approval) : Decision := mkDecision (Approval_RunID a) (Approval_RouteID a) (Approval_SHA256 a) "approval_granted" false.
Definition live_approvals (approvals : gmap string Time) (now : Time) : gmap string Time := filter (fun kv => Before now kv.2 = true) approvals.
(** Expired approvals are deleted even when the new one is refused after that. *)
Definition Approve (c : Checker) (a : Approval) (m : Moment) : Checker * result ApproveError unit :=
  let now := m_now m in
  if negb (runIdentifier (Approval_RunID a)) || negb (digestPattern (Approval_SHA256 a)) || negb (m_active m (Approval_RunID a))
     || negb (Before now (Approval_ExpiresAt a)) || Before (now + 5 * Minute) (Approval_ExpiresAt a)
  then (c, Err InactiveApproval)
  else if is_none (ck_routes c !! Approval_RouteID a) then (c, Err UnknownInspectionRoute)
  else
    let approvals := live_approvals (ck_approvals c) now in
    if 1024 <=? Z.of_nat (size approvals) then (with_approvals c approvals, Err ApprovalCapacity)
    else if negb (m_audit m (approval_decision a)) then (with_approvals c approvals, Err ApprovalAuditUnavailable)
    else (with_approvals c (<[approvalKey (Approval_RunID a) (Approval_RouteID a) (Approval_SHA256 a) := Approval_ExpiresAt a]> approvals), Ok tt).

(** *** The budget of a run *)
Definition count_of (counts : gmap string Z) (run : string) : Z := default 0 (counts !! run).
Definition live_counts (counts : gmap string Z) (active : string -> bool) : gmap string Z := filter (fun kv => active kv.1 = true) counts.
(** Allowed, and otherwise whether the refusal is audited. *)
Definition reserveBudget (c : Checker) (active : string -> bool) (run : string) : Checker * (bool * bool) :=
  let counts := live_counts (ck_counts c) active in
  let n := count_of counts run in
  if (1024 <=? Z.of_nat (size counts)) && (n =? 0) then (with_counts c counts, (false, false))
  else if ck_limit c <=? n then
    if n =? ck_limit c then (with_counts c (<[run := n + 1]> counts), (false, true)) else (with_counts c counts, (false, false))
  else (with_counts c (<[run := n + 1]> counts), (true, true)).

(** *** A request *)
Record CheckRequest := mkCheckRequest {
  cr_Method : string;
  cr_Path : string;
  cr_RawPath : string;
  cr_http : HttpRequest;
  (** The body, or the failure to read it. *)
  cr_Body : option string;
}.
Definition no_store : list (string * string) := [("Cache-Control", "no-store")].
Definition check_prefix : string := "/gateway/v1/check/".
Definition bearer : string := "Bearer ".
(** A request in progress: the stages of [ServeHTTP] once the caller is known. *)
Inductive Flight :=
  | Holding (run id : string) (request : CheckRequest)
  | Counted (run id : string) (request : CheckRequest)
  | Inspected (run id data : string)
  | Consumed (run id data reason : string)
  | Reporting (run id digest reason : string) (checked : bool) (status : Z).
(** The next stage, or the reply with the audited decision. *)
Inductive Progress :=
  | Next (f : Flight)
  | Done (audited : option Decision) (reply : HttpReply).
Definition result_body (checked : bool) (reason digest : string) : string :=
  Marshal (JObject [("checked", JBool checked); ("executed", JBool false); ("forwarded", JBool false); ("mode", JString "local_only");
    ("reason", JString reason); ("sha256", JString digest)]) +:+ String newline "".
Definition json_reply (checked : bool) (reason digest : string) (status : Z) : HttpReply :=
  mkHttpReply status (no_store ++ [("Content-Type", "application/json")]) (result_body checked reason digest).
(** [result]: the decision is audited before it is reported. *)
Definition report_result (m : Moment) (run route digest reason : string) (checked : bool) (status : Z) : Progress :=
  let decision := mkDecision run route digest reason checked in
  if m_audit m decision then Done (Some decision) (json_reply checked reason digest status)
  else Done None (json_reply false "audit_unavailable" digest 503).

Section Serve.
Context `{UnicodeTables} `{MapOrder}.
(** Up to the slot: a refusal, or the run and the route. *)
Definition front (c : Checker) (authenticate : string -> option string) (request : CheckRequest) : result HttpReply (string * string) :=
  let header := Header_Get (cr_http request) in
  if (cr_Method request != "POST") || (request_RawQuery (cr_http request) != "") || (cr_RawPath request != "") || (header "Origin" != "") || (header "Mcp-Session-Id" != "")
  then Err (http_Error no_store "unsupported local check" 400)
  else
    let id := TrimPrefix (cr_Path request) check_prefix in
    if is_none (ck_routes c !! id) || (cr_Path request != check_prefix +:+ id) then Err (http_Error no_store "404 page not found" 404)
    else
      let authorization := header "Authorization" in
      match authenticate (TrimPrefix authorization bearer) with
      | Some run =>
          if negb (HasPrefix authorization bearer) || negb (runIdentifier run) then Err (http_Error no_store "unauthorized" 401)
          else if ck_capacity c <=? ck_slots c then Err (http_Error no_store "inspection busy" 429)
          else Ok (run, id)
      | None => Err (http_Error no_store "unauthorized" 401)
      end.
(** What the request holds after its slot. *)
Definition body_checks (c : Checker) (read : string -> option string) (run id : string) (request : CheckRequest) : Flight :=
  let header := Header_Get (cr_http request) in
  if (ParseMediaType (header "Content-Type") != Some "application/json") || (header "Content-Encoding" != "")
  then Reporting run id "" "unsupported_content" false 415
  else match cr_Body request with
  | None => Reporting run id "" "body_limit" false 413
  | Some data =>
      if MaxBody <? slen data then Reporting run id "" "body_limit" false 413
      else
        let digest := sha256_hex data in
        match decodeObject data with
        | None => Reporting run id digest "invalid_json" false 400
        | Some object =>
            if sensitive (ck_forbidden c) (JObject object) then Reporting run id digest "sensitive_data" false 403
            else match ck_routes c !! id ≫= Route_MCP with
            | None => Inspected run id data
            | Some policy =>
                match checkMCP read policy object with
                | Ok _ => Inspected run id data
                | Err e => Reporting run id digest (McpReason_text e) false 403
                end
            end
        end
  end.
(** The approval is gone whatever comes of it. *)
Definition consume (c : Checker) (run id digest : string) (now : Time) : Checker * string :=
  let key := approvalKey run id digest in
  (with_approvals c (delete key (ck_approvals c)),
   match ck_approvals c !! key with
   | Some expiry => if Before now expiry then "checked" else "approval_required"
   | None => "approval_required"
   end).
Definition decide_reply (m : Moment) (run id digest reason : string) : Flight :=
  if negb (m_active m run) then Reporting run id digest "inactive_run" false 401
  else if reason != "checked" then Reporting run id digest reason false 403
  else Reporting run id digest reason true 200.
Definition advance (c : Checker) (m : Moment) (f : Flight) : Checker * Progress :=
  match f with
  | Holding run id request =>
      match reserveBudget c (m_active m) run with
      | (c, (true, _)) => (c, Next (Counted run id request))
      | (c, (false, true)) => (c, Next (Reporting run id "" "request_budget" false 429))
      | (c, (false, false)) => (c, Done None (http_Error no_store "request budget exhausted" 429))
      end
  | Counted run id request => (c, Next (body_checks c (m_read m) run id request))
  | Inspected run id data => let (c, reason) := consume c run id (sha256_hex data) (m_now m) in (c, Next (Consumed run id data reason))
  | Consumed run id data reason => (c, Next (decide_reply m run id (sha256_hex data) reason))
  | Reporting run id digest reason checked status => (c, report_result m run id digest reason checked status)
  end.
Definition release (c : Checker) : Checker := with_slots c (ck_slots c - 1).
(** A request served without interruption; [moments] are those of its stages. *)
Fixpoint serve_flight (fuel : nat) (c : Checker) (moments : nat -> Moment) (f : Flight) : option (Checker * HttpReply) :=
  match fuel with
  | O => None
  | S n => match advance c (moments n) f with
           | (c, Next f) => serve_flight n c moments f
           | (c, Done _ reply) => Some (release c, reply)
           end
  end.
Definition ServeHTTP (c : Checker) (authenticate : string -> option string) (moments : nat -> Moment) (request : CheckRequest) : option (Checker * HttpReply) :=
  match front c authenticate request with
  | Err reply => Some (c, reply)
  | Ok (run, id) => serve_flight 5 (with_slots c (ck_slots c + 1)) moments (Holding run id request)
  end.
End Serve.

(** ** The service: approvals and requests in any order *)
Inductive CheckEvent :=
  | Granted (run route digest : string)
  | Reserved (active : string -> bool) (run : string) (allowed audit : bool)
  | Answered (audited : option Decision) (reply : HttpReply).
(** The trace has the newest event first. *)
Record Service := mkService { sv_checker : Checker; sv_flights : gmap nat Flight; sv_trace : list CheckEvent }.
Definition granted_events (a : Approval) (r : result ApproveError unit) : list CheckEvent :=
  match r with Ok _ => [Granted (Approval_RunID a) (Approval_RouteID a) (Approval_SHA256 a)] | Err _ => [] end.
Definition reserved_events (c : Checker) (m : Moment) (f : Flight) : list CheckEvent :=
  match f with
  | Holding run _ _ => let (allowed, audit) := (reserveBudget c (m_active m) run).2 in [Reserved (m_active m) run allowed audit]
  | _ => []
  end.
Section Steps.
Context `{UnicodeTables} `{MapOrder}.
Inductive service_step (s : Service) : Service -> Prop :=
  | sv_approve a m c r : Approve (sv_checker s) a m = (c, r) ->
      service_step s (mkService c (sv_flights s) (granted_events a r ++ sv_trace s))
  | sv_refuse authenticate request reply : front (sv_checker s) authenticate request = Err reply ->
      service_step s (mkService (sv_checker s) (sv_flights s) (Answered None reply :: sv_trace s))
  | sv_enter authenticate request run id i : front (sv_checker s) authenticate request = Ok (run, id) -> sv_flights s !! i = None ->
      service_step s (mkService (with_slots (sv_checker s) (ck_slots (sv_checker s) + 1)) (<[i := Holding run id request]> (sv_flights s)) (sv_trace s))
  | sv_advance i f m c f' : sv_flights s !! i = Some f -> advance (sv_checker s) m f = (c, Next f') ->
      service_step s (mkService c (<[i := f']> (sv_flights s)) (reserved_events (sv_checker s) m f ++ sv_trace s))
  | sv_finish i f m c audited reply : sv_flights s !! i = Some f -> advance (sv_checker s) m f = (c, Done audited reply) ->
      service_step s (mkService (release c) (delete i (sv_flights s)) (Answered audited reply :: reserved_events (sv_checker s) m f ++ sv_trace s)).
Inductive service_reachable (start : Checker) : Service -> Prop :=
  | service_start : service_reachable start (mkService start ∅ [])
  | service_next s s' : service_reachable start s -> service_step s s' -> service_reachable start s'.
End Steps.

(** *** Weights of the requests in progress *)
Definition tally (w : Flight -> Z) (flights : gmap nat Flight) : Z := map_fold (fun _ f acc => w f + acc) 0 flights.
Lemma tally_delete w flights i f : flights !! i = Some f -> tally w flights = w f + tally w (delete i flights).
Proof. intros Hi. unfold tally. rewrite (map_fold_delete_L _ _ i f flights); [done| |done]. intros; cbn; lia. Qed.
Lemma tally_insert w flights i f : tally w (<[i := f]> flights) = w f + tally w (delete i flights).
Proof.
  rewrite <-insert_delete_eq. unfold tally. rewrite map_fold_insert_L; [done| |apply lookup_delete_eq]. intros; cbn; lia.
Qed.
Lemma tally_fresh w flights i f : flights !! i = None -> tally w (<[i := f]> flights) = w f + tally w flights.
Proof. intros Hi. by rewrite tally_insert, delete_id. Qed.
Lemma tally_nonneg w flights : (forall f, 0 <= w f) -> 0 <= tally w flights.
Proof.
  intros Hw. induction flights as [|i f flights Hi IH] using map_ind; [done|]. rewrite tally_fresh by done. specialize (Hw f). lia.
Qed.
Definition count_events (p : CheckEvent -> bool) (trace : list CheckEvent) : Z := len (List.filter p trace).
Lemma events_cons p e trace : count_events p (e :: trace) = (if p e then 1 else 0) + count_events p trace.
Proof. unfold count_events. cbn [List.filter]. destruct (p e); [|lia]. unfold len. cbn [length]. lia. Qed.
Lemma events_nil p : count_events p [] = 0.
Proof. done. Qed.
Lemma events_app p l trace : count_events p (l ++ trace) = count_events p l + count_events p trace.
Proof. unfold count_events. rewrite List.filter_app. unfold len. rewrite length_app. lia. Qed.

(** *** What one stage does *)
Definition Triple : Type := string * string * string.
Definition valid_triple (t : Triple) : Prop := runIdentifier t.1.1 = true /\ digestPattern t.2 = true.
Definition key_of (t : Triple) : string := approvalKey t.1.1 t.1.2 t.2.
Lemma spelled_length p lo hi s : spelled p lo hi s = true -> lo <= slen s <= hi.
Proof. unfold spelled. intros H. apply andb_true_iff in H as [H H3]. apply andb_true_iff in H as [_ H2]. lia. Qed.
Lemma app_length_inj a b c d : String.length a = String.length c -> a +:+ b = c +:+ d -> a = c /\ b = d.
Proof.
  revert c. induction a as [|x a IH]; intros [|y c] Hl E; try done. injection Hl as Hl. rewrite !str_app_cons in E. injection E as -> E.
  by destruct (IH c Hl E) as [-> ->].
Qed.
(** The key determines run, route and digest. *)
Lemma key_of_inj t t' : valid_triple t -> valid_triple t' -> key_of t = key_of t' -> t = t'.
Proof.
  destruct t as [[r i] d], t' as [[r' i'] d']. intros [Hr Hd] [Hr' Hd']. cbn in *. apply spelled_length in Hr, Hd, Hr', Hd'. unfold slen in *.
  unfold key_of, approvalKey. cbn. intros E. apply app_length_inj in E as [-> E]; [|lia]. rewrite !str_app_cons, !str_app_nil_l in E. injection E as E.
  assert (String.length i = String.length i') as Hi.
  { apply (f_equal String.length) in E. rewrite !str_length_app in E. cbn [String.length] in E. lia. }
  apply app_length_inj in E as [-> E]; [|done]. by injection E as ->.
Qed.
Lemma sha256_digest data : digestPattern (sha256_hex data) = true.
Proof.
  unfold digestPattern, spelled, sha256_hex, slen. rewrite hex_digits, hex_length, Sum256_length. done.
Qed.
Definition live (approvals : gmap string Time) (t : Triple) : Z := match approvals !! key_of t with Some _ => 1 | None => 0 end.
(** The approvals a request has consumed and not yet reported. *)
Definition pending (t : Triple) (f : Flight) : Z :=
  match f with
  | Consumed run id data reason => if ((run, id, sha256_hex data) == t) && (reason == "checked") then 1 else 0
  | Reporting run id digest _ checked _ => if ((run, id, digest) == t) && checked then 1 else 0
  | _ => 0
  end.
Definition checked_for (t : Triple) (audited : option Decision) : bool :=
  match audited with Some d => ((Decision_RunID d, Decision_RouteID d, Decision_SHA256 d) == t) && Decision_Checked d | None => false end.
Definition is_granted (t : Triple) (e : CheckEvent) : bool := match e with Granted run route digest => (run, route, digest) == t | _ => false end.
Definition is_checked (t : Triple) (e : CheckEvent) : bool := match e with Answered audited _ => checked_for t audited | _ => false end.
Definition flight_run (f : Flight) : string :=
  match f with Holding run _ _ | Counted run _ _ | Inspected run _ _ | Consumed run _ _ _ | Reporting run _ _ _ _ _ => run end.
Definition after (t : Triple) (p : Progress) : Z := match p with Next f => pending t f | Done audited _ => if checked_for t audited then 1 else 0 end.
Section Stages.
Context `{UnicodeTables} `{MapOrder}.
(** The outcomes of the body checks: a refusal, or a body that may go on. *)
Definition passes (c : Checker) (read : string -> option string) (id data : string) : Prop :=
  exists object, decodeObject data = Some object /\ sensitive (ck_forbidden c) (JObject object) = false /\
    forall route policy, ck_routes c !! id = Some route -> Route_MCP route = Some policy -> checkMCP read policy object = Ok tt.
Lemma body_checks_cases c read run id request :
  (exists digest reason status, body_checks c read run id request = Reporting run id digest reason false status /\ status <> 200) \/
  (exists data, body_checks c read run id request = Inspected run id data /\ cr_Body request = Some data /\ passes c read id data).
Proof.
  unfold body_checks, passes. destruct (_ || _); [left; by eexists _, _, _|]. destruct (cr_Body request) as [data|]; [|left; by eexists _, _, _].
  destruct (_ <? _); [left; by eexists _, _, _|]. destruct (decodeObject data) as [object|] eqn:Ed; [|left; by eexists _, _, _].
  destruct (sensitive _ _) eqn:Es; [left; by eexists _, _, _|]. destruct (ck_routes c !! id ≫= Route_MCP) as [policy|] eqn:Er.
  - destruct (checkMCP read policy object) as [[]|] eqn:Ec; [|left; by eexists _, _, _]. right. exists data. split_and!; [done..|]. exists object. split_and!; [done..|].
    intros route policy' Hr Hp. rewrite Hr in Er. cbn in Er. congruence.
  - right. exists data. split_and!; [done..|]. exists object. split_and!; [done..|]. intros route policy' Hr Hp. rewrite Hr in Er. cbn in Er. congruence.
Qed.
Lemma reserve_approvals c active run : ck_approvals (reserveBudget c active run).1 = ck_approvals c.
Proof. unfold reserveBudget. repeat case_match; done. Qed.
Lemma live_delete approvals key t : live (delete key approvals) t = if key == key_of t then 0 else live approvals t.
Proof.
  unfold live. destruct (key == key_of t) eqn:E; [apply bool_decide_eq_true in E as ->; by rewrite lookup_delete_eq|].
  apply bool_decide_eq_false in E. by rewrite lookup_delete_ne.
Qed.
Lemma consume_conserves c run id data now t : runIdentifier run = true -> valid_triple t ->
  let '(c', reason) := consume c run id (sha256_hex data) now in
  pending t (Consumed run id data reason) + live (ck_approvals c') t <= live (ck_approvals c) t.
Proof.
  intros Hr Ht. unfold consume. cbn [ck_approvals with_approvals pending]. rewrite live_delete. change (approvalKey run id (sha256_hex data)) with (key_of (run, id, sha256_hex data)).
  assert (0 <= live (ck_approvals c) t) by (unfold live; by case_match).
  destruct (bool_decide ((run, id, sha256_hex data) = t)) eqn:Et; cbn [andb].
  - apply bool_decide_eq_true in Et as <-. rewrite (bool_decide_eq_true_2 (key_of _ = key_of _)) by done. unfold live. destruct (ck_approvals c !! _); [destruct (Before _ _); done|done].
  - apply bool_decide_eq_false in Et. destruct (bool_decide (key_of _ = _)) eqn:Ek; [|lia]. apply bool_decide_eq_true, key_of_inj in Ek; [done| |done].
    split; [done|apply sha256_digest].
Qed.
Lemma advance_conserves c m f c' p t : advance c m f = (c', p) -> runIdentifier (flight_run f) = true -> valid_triple t ->
  after t p + live (ck_approvals c') t <= pending t f + live (ck_approvals c) t.
Proof.
  intros E Hr Ht. destruct f as [run id request|run id request|run id data|run id data reason|run id digest reason checked status]; cbn [advance flight_run] in *.
  - pose proof (reserve_approvals c (m_active m) run) as Ha. destruct (reserveBudget _ _ _) as [c1 [[] []]]; injection E as <- <-; cbn [fst] in Ha; cbn [after pending checked_for]; rewrite Ha, ?andb_false_r; lia.
  - injection E as <- <-. cbn [after pending]. destruct (body_checks_cases c (m_read m) run id request) as [(d & r & st & -> & _)|(data & -> & _)]; cbn [pending]; rewrite ?andb_false_r; lia.
  - pose proof (consume_conserves c run id data (m_now m) t Hr Ht) as Hc. destruct (consume _ _ _ _ _) as [c1 reason]. injection E as <- <-. cbn [after]. change (pending t (Inspected run id data)) with 0. lia.
  - injection E as <- <-. cbn [after]. unfold decide_reply. destruct (m_active m run), (reason == "checked") eqn:Er; cbn [negb pending]; rewrite ?Er, ?andb_false_r, ?andb_true_r; try case_match; lia.
  - injection E as <- <-. unfold report_result. destruct (m_audit m _); cbn [after checked_for pending Decision_RunID Decision_RouteID Decision_SHA256 Decision_Checked]; case_match; lia.
Qed.
Lemma advance_run c m f c' f' : advance c m f = (c', Next f') -> flight_run f' = flight_run f.
Proof.
  destruct f as [run id request|run id request|run id data|run id data reason|run id digest reason checked status]; cbn [advance flight_run].
  - destruct (reserveBudget _ _ _) as [c1 [[] []]]; by intros [= _ <-].
  - intros [= _ <-]. by destruct (body_checks_cases c (m_read m) run id request) as [(d & r & st & -> & _)|(data & -> & _)].
  - destruct (consume _ _ _ _ _). by intros [= _ <-].
  - intros [= _ <-]. unfold decide_reply. by repeat case_match.
  - unfold report_result. by case_match.
Qed.
(** Only approvals, counts and slots change. *)
Definition same_setup (c c' : Checker) : Prop :=
  ck_routes c' = ck_routes c /\ ck_forbidden c' = ck_forbidden c /\ ck_limit c' = ck_limit c /\ ck_capacity c' = ck_capacity c.
Lemma reserve_setup c active run : same_setup c (reserveBudget c active run).1 /\ ck_slots (reserveBudget c active run).1 = ck_slots c.
Proof. unfold reserveBudget. repeat case_match; done. Qed.
Lemma advance_setup c m f c' p : advance c m f = (c', p) -> same_setup c c' /\ ck_slots c' = ck_slots c.
Proof.
  destruct f as [run id request|run id request|run id data|run id data reason|run id digest reason checked status]; cbn [advance].
  - pose proof (reserve_setup c (m_active m) run) as Hs. by destruct (reserveBudget _ _ _) as [c1 [[] []]]; intros [= <- _].
  - by intros [= <- _].
  - unfold consume. by intros [= <- _].
  - by intros [= <- _].
  - by intros [= <- _].
Qed.
Lemma Approve_setup c a m c' r : Approve c a m = (c', r) -> same_setup c c' /\ ck_slots c' = ck_slots c /\ ck_counts c' = ck_counts c.
Proof. unfold Approve. repeat case_match; intros [= <- _]; done. Qed.
Lemma Approve_conserves c a m c' r t : Approve c a m = (c', r) -> valid_triple t ->
  live (ck_approvals c') t <= live (ck_approvals c) t + count_events (is_granted t) (granted_events a r).
Proof.
  intros E Ht. unfold Approve in E.
  assert (live (live_approvals (ck_approvals c) (m_now m)) t <= live (ck_approvals c) t) as Hlive.
  { unfold live. destruct (live_approvals _ _ !! key_of t) eqn:El; [|repeat case_match; lia]. unfold live_approvals in El. apply map_lookup_filter_Some in El as [-> _]. done. }
  destruct (_ || _) eqn:Eg; [injection E as <- <-; cbn [granted_events ck_approvals with_approvals]; rewrite events_nil; lia|]. destruct (is_none _); [injection E as <- <-; cbn [granted_events ck_approvals with_approvals]; rewrite events_nil; lia|].
  destruct (_ <=? _); [injection E as <- <-; cbn [granted_events ck_approvals with_approvals]; rewrite events_nil; lia|]. destruct (negb (m_audit _ _)); injection E as <- <-; cbn [granted_events ck_approvals with_approvals]; [rewrite events_nil; lia|].
  rewrite events_cons, events_nil. cbn [is_granted].
  destruct (bool_decide ((Approval_RunID a, Approval_RouteID a, Approval_SHA256 a) = t)) eqn:Et.
  - apply bool_decide_eq_true in Et. assert (live (ck_approvals c) t >= 0) by (unfold live; case_match; lia). unfold live at 1. case_match; lia.
  - apply bool_decide_eq_false in Et. rewrite !orb_false_iff, !negb_false_iff in Eg. destruct Eg as [[[[Hr Hd] _] _] _].
    unfold live at 1. rewrite lookup_insert_ne; [unfold live in *; lia|]. intros Ek. apply Et. apply key_of_inj; [done|done|exact Ek].
Qed.
End Stages.

(** *** Budgets *)
(** Reservations of a run since it was last seen inactive. *)
Fixpoint period (selected : bool -> bool -> bool) (run : string) (trace : list CheckEvent) : Z :=
  match trace with
  | [] => 0
  | Reserved active r allowed audit :: trace =>
      (if active run then period selected run trace else 0) + (if (r == run) && selected allowed audit then 1 else 0)
  | _ :: trace => period selected run trace
  end.
Definition allowed_requests : string -> list CheckEvent -> Z := period (fun allowed _ => allowed).
Definition recorded_requests : string -> list CheckEvent -> Z := period (fun _ audit => audit).
Lemma count_pruned counts active run : count_of (live_counts counts active) run = if active run then count_of counts run else 0.
Proof.
  unfold count_of, live_counts. destruct (active run) eqn:E.
  - destruct (counts !! run) as [n|] eqn:Ec.
    + by rewrite (map_lookup_filter_Some_2 _ counts run n).
    + rewrite (map_lookup_filter_None_2 _ counts run); [done|by left].
  - rewrite (map_lookup_filter_None_2 _ counts run); [done|]. right. cbn. congruence.
Qed.
Lemma count_insert counts run n r : count_of (<[run := n]> counts) r = if run == r then n else count_of counts r.
Proof.
  unfold count_of. destruct (run == r) eqn:E; [apply bool_decide_eq_true in E as ->; by rewrite lookup_insert_eq|].
  apply bool_decide_eq_false in E. by rewrite lookup_insert_ne.
Qed.
(** What a reservation does to the count of any run. *)
Lemma reserve_counts c active run c' allowed audit r : reserveBudget c active run = (c', (allowed, audit)) ->
  let n := if active r then count_of (ck_counts c) r else 0 in
  count_of (ck_counts c') r = n + (if (run == r) && audit then 1 else 0) /\
  (run = r -> audit = true -> allowed = true /\ n < ck_limit c \/ allowed = false /\ n = ck_limit c) /\ (allowed = true -> audit = true).
Proof.
  unfold reserveBudget. cbv zeta. destruct (_ && _).
  { intros [= <- <- <-]. cbn [ck_counts with_counts]. rewrite count_pruned, andb_false_r. split_and!; [lia|done..]. }
  destruct (ck_limit c <=? _) eqn:El; [destruct (_ =? ck_limit c) eqn:Eq|]; intros [= <- <- <-]; cbn [ck_counts with_counts];
    rewrite ?count_insert, ?count_pruned in *; rewrite ?andb_false_r, ?andb_true_r.
  - split_and!; [|intros <- _; right; split; [done|lia]|done]. case_bool_decide; subst; lia.
  - split_and!; [lia|done..].
  - split_and!; [|intros <- _; left; split; [done|lia]|done]. case_bool_decide; subst; lia.
Qed.
(** The reservations a request still has to account for. *)
Definition owes (run : string) (f : Flight) : Z :=
  match f with Holding _ _ _ => 0 | _ => if flight_run f == run then 1 else 0 end.
Definition is_reserved (run : string) (e : CheckEvent) : bool := match e with Reserved _ r _ audit => (r == run) && audit | _ => false end.
Definition audited_for (run : string) (audited : option Decision) : bool := match audited with Some d => Decision_RunID d == run | None => false end.
Definition is_audited (run : string) (e : CheckEvent) : bool := match e with Answered audited _ => audited_for run audited | _ => false end.
Definition owes_after (run : string) (p : Progress) : Z := match p with Next f => owes run f | Done audited _ => if audited_for run audited then 1 else 0 end.

(** *** The content of checked requests *)
Section Content.
Context `{UnicodeTables} `{MapOrder} (start : Checker).
Definition checked_body (id digest : string) : Prop := exists data read, digest = sha256_hex data /\ passes start read id data.
Definition flight_clean (f : Flight) : Prop :=
  match f with
  | Inspected _ id data | Consumed _ id data _ => checked_body id (sha256_hex data)
  | Reporting _ id digest reason checked status =>
      checked = true /\ status = 200 /\ reason = "checked" /\ checked_body id digest \/ checked = false /\ status <> 200
  | _ => True
  end.
Definition answer_clean (audited : option Decision) (reply : HttpReply) : Prop :=
  match audited with
  | Some d => Decision_Checked d = true /\ reply_status reply = 200 /\ checked_body (Decision_RouteID d) (Decision_SHA256 d) \/
              Decision_Checked d = false /\ reply_status reply <> 200
  | None => reply_status reply <> 200
  end.
Lemma front_refuses c authenticate request reply : front c authenticate request = Err reply -> reply_status reply <> 200.
Proof. unfold front. repeat case_match; intros [= <-]; done. Qed.
Lemma front_run c authenticate request run id : front c authenticate request = Ok (run, id) -> runIdentifier run = true /\ ck_slots c < ck_capacity c.
Proof.
  unfold front. cbv zeta. destruct (_ || _); [done|]. destruct (_ || _); [done|]. destruct (authenticate _) as [r|]; [|done]. destruct (_ || _) eqn:E; [done|].
  destruct (_ <=? _) eqn:El; [done|]. intros [= <- _]. apply orb_false_iff in E as [_ E]. apply negb_false_iff in E. split; [done|lia].
Qed.
Lemma advance_owes c m f c' p run : advance c m f = (c', p) ->
  owes_after run p <= owes run f + count_events (is_reserved run) (reserved_events c m f).
Proof.
  destruct f as [r id request|r id request|r id data|r id data reason|r id digest reason checked status]; cbn [advance reserved_events]; rewrite ?events_nil.
  - destruct (reserveBudget c (m_active m) r) as [c1 [allowed audit]] eqn:E. cbn [snd]. rewrite events_cons, events_nil. cbn [is_reserved].
    assert (allowed = true -> audit = true) as Ha by (by apply (reserve_counts _ _ _ _ _ _ r E)).
    destruct allowed, audit; [..|by specialize (Ha eq_refl)| |]; intros [= _ <-]; cbn [owes_after owes flight_run audited_for]; rewrite ?andb_true_r, ?andb_false_r; try case_match; lia.
  - intros [= _ <-]. cbn [owes_after]. destruct (body_checks_cases c (m_read m) r id request) as [(d & re & st & -> & _)|(data & -> & _)]; cbn [owes flight_run]; lia.
  - destruct (consume _ _ _ _ _). intros [= _ <-]. cbn [owes_after owes flight_run]. lia.
  - intros [= _ <-]. unfold decide_reply. repeat case_match; cbn [owes_after owes flight_run]; lia.
  - unfold report_result. destruct (m_audit _ _); intros [= _ <-]; cbn [owes_after owes flight_run audited_for Decision_RunID]; case_match; lia.
Qed.
Lemma advance_clean c m f c' p : same_setup start c -> advance c m f = (c', p) -> flight_clean f ->
  match p with Next f' => flight_clean f' | Done audited reply => answer_clean audited reply end.
Proof.
  intros (Hroutes & Hforbidden & _).
  destruct f as [r id request|r id request|r id data|r id data reason|r id digest reason checked status]; cbn [advance].
  - destruct (reserveBudget _ _ _) as [c1 [[] []]]; intros [= _ <-]; cbn; auto; by intros _; right.
  - intros [= _ <-] _. destruct (body_checks_cases c (m_read m) r id request) as [(d & re & st & -> & Hst)|(data & -> & _ & Hp)]; [by right|].
    exists data, (m_read m). split; [done|]. unfold passes in *. by rewrite <-Hroutes, <-Hforbidden.
  - destruct (consume _ _ _ _ _). intros [= _ <-]. done.
  - intros [= _ <-] Hc. unfold decide_reply. destruct (negb (m_active m r)); [by right|]. destruct (reason == "checked") eqn:Er; cbn [negb]; [|by right].
    apply bool_decide_eq_true in Er as ->. by left.
  - intros E Hc. unfold report_result in E. destruct (m_audit _ _); injection E as _ <-; [|done]. cbn in *. destruct Hc as [(-> & -> & -> & Hc)|[-> Hst]]; [left; done|by right].
Qed.
End Content.

(** *** The invariant *)
Section Invariant.
Context `{UnicodeTables} `{MapOrder} (start : Checker).
Record budget_ok (c : Checker) (trace : list CheckEvent) (run : string) : Prop := {
  budget_recorded : count_of (ck_counts c) run = recorded_requests run trace;
  budget_bound : 0 <= recorded_requests run trace <= ck_limit start + 1;
  budget_allowed : allowed_requests run trace = Z.min (recorded_requests run trace) (ck_limit start);
}.
Record service_ok (s : Service) : Prop := {
  ok_setup : same_setup start (sv_checker s);
  ok_runs i f : sv_flights s !! i = Some f -> runIdentifier (flight_run f) = true /\ flight_clean start f;
  ok_slots : ck_slots (sv_checker s) = tally (fun _ => 1) (sv_flights s) /\ ck_slots (sv_checker s) <= ck_capacity start;
  ok_approvals t : valid_triple t ->
    count_events (is_checked t) (sv_trace s) + tally (pending t) (sv_flights s) + live (ck_approvals (sv_checker s)) t <= count_events (is_granted t) (sv_trace s);
  ok_budget run : budget_ok (sv_checker s) (sv_trace s) run;
  ok_audits run : count_events (is_audited run) (sv_trace s) + tally (owes run) (sv_flights s) <= count_events (is_reserved run) (sv_trace s);
  ok_answers audited reply : Answered audited reply ∈ sv_trace s -> answer_clean start audited reply;
}.
(** A new checker. *)
Definition just_built (c : Checker) : Prop := ck_approvals c = ∅ /\ ck_counts c = ∅ /\ ck_slots c = 0 /\ 1 <= ck_limit c /\ 1 <= ck_capacity c.
Lemma service_ok_start : just_built start -> service_ok (mkService start ∅ []).
Proof.
  intros (Ha & Hc & Hs & Hl & Hk). constructor; cbn [sv_checker sv_flights sv_trace].
  - done.
  - intros i f Hi. by rewrite lookup_empty in Hi.
  - rewrite Hs. split; [done|lia].
  - intros t _. unfold live. rewrite Ha, lookup_empty. done.
  - intros run. constructor; cbn; [by rewrite Hc|lia|lia].
  - done.
  - set_solver.
Qed.
Lemma granted_quiet a r : forall e, e ∈ granted_events a r -> (forall t, is_checked t e = false) /\ (forall run, is_audited run e = false /\ is_reserved run e = false).
Proof. intros e. unfold granted_events. destruct r; [|set_solver]. by intros ->%list_elem_of_singleton. Qed.
Lemma events_none p l : (forall e, e ∈ l -> p e = false) -> count_events p l = 0.
Proof.
  induction l as [|e l IH]; intros Hl; [done|]. rewrite events_cons, (Hl e) by left. rewrite IH; [done|]. intros x Hx. apply Hl. by right.
Qed.
Lemma period_granted sel run a r trace : period sel run (granted_events a r ++ trace) = period sel run trace.
Proof. by destruct r. Qed.
Lemma service_ok_approve s a m c r : service_ok s -> Approve (sv_checker s) a m = (c, r) -> service_ok (mkService c (sv_flights s) (granted_events a r ++ sv_trace s)).
Proof.
  intros [H1 H2 H3 H4 H5 H6 H7] E. destruct (Approve_setup _ _ _ _ _ E) as (Hs & Hslots & Hcounts). pose proof (granted_quiet a r) as Hq.
  constructor; cbn [sv_checker sv_flights sv_trace].
  - unfold same_setup in *. intuition congruence.
  - done.
  - by rewrite Hslots.
  - intros t Ht. specialize (H4 t Ht). pose proof (Approve_conserves _ _ _ _ _ t E Ht). rewrite !events_app, (events_none (is_checked t) (granted_events a r)); [lia|].
    intros e He. by apply Hq.
  - intros run. destruct (H5 run) as [B1 B2 B3]. unfold recorded_requests, allowed_requests in *. constructor; unfold recorded_requests, allowed_requests; rewrite !period_granted; [by rewrite Hcounts|done..].
  - intros run. specialize (H6 run). rewrite !events_app, !(events_none _ (granted_events a r)); [lia|..]; intros e He; by apply Hq.
  - intros audited reply [Hin|Hin]%elem_of_app; [|by apply H7]. destruct r; [|set_solver]. by apply list_elem_of_singleton in Hin.
Qed.
Lemma service_ok_refuse s authenticate request reply : service_ok s -> front (sv_checker s) authenticate request = Err reply ->
  service_ok (mkService (sv_checker s) (sv_flights s) (Answered None reply :: sv_trace s)).
Proof.
  intros [H1 H2 H3 H4 H5 H6 H7] E. constructor; cbn [sv_checker sv_flights sv_trace].
  - done.
  - done.
  - done.
  - intros t Ht. rewrite !events_cons. by apply H4.
  - intros run. by destruct (H5 run).
  - intros run. rewrite !events_cons. apply H6.
  - intros audited rep [[= -> ->]|Hin]%elem_of_cons; [|by apply H7]. by eapply front_refuses.
Qed.
Lemma service_ok_enter s authenticate request run id i : service_ok s -> front (sv_checker s) authenticate request = Ok (run, id) -> sv_flights s !! i = None ->
  service_ok (mkService (with_slots (sv_checker s) (ck_slots (sv_checker s) + 1)) (<[i := Holding run id request]> (sv_flights s)) (sv_trace s)).
Proof.
  intros [H1 H2 [H3 H3'] H4 H5 H6 H7] E Hi. destruct (front_run _ _ _ _ _ E) as [Hr Hslots]. constructor; cbn [sv_checker sv_flights sv_trace].
  - done.
  - intros j f [[<- <-]|[_ Hj]]%lookup_insert_Some; [done|by eapply H2].
  - destruct H1 as (_ & _ & _ & Hcap). cbn [ck_slots with_slots]. rewrite tally_fresh by done. lia.
  - intros t Ht. rewrite tally_fresh by done. by apply H4.
  - intros r. by destruct (H5 r).
  - intros r. rewrite tally_fresh by done. apply H6.
  - done.
Qed.
Lemma budget_reserve c active r c' allowed audit trace run : 0 <= ck_limit start -> same_setup start c ->
  reserveBudget c active r = (c', (allowed, audit)) -> budget_ok c trace run -> budget_ok c' (Reserved active r allowed audit :: trace) run.
Proof.
  intros Hl (_ & _ & Hlimit & _) E [B1 B2 B3]. destruct (reserve_counts _ _ _ _ _ _ run E) as (Hc & Ha & Hi). unfold recorded_requests, allowed_requests in *.
  assert (period (fun _ au => au) run (Reserved active r allowed audit :: trace) = (if active run then count_of (ck_counts c) run else 0) + (if (r == run) && audit then 1 else 0)) as Ep
    by (cbn [period]; by rewrite B1).
  assert (period (fun al _ => al) run (Reserved active r allowed audit :: trace) =
    (if active run then Z.min (count_of (ck_counts c) run) (ck_limit start) else 0) + (if (r == run) && allowed then 1 else 0)) as Eq
    by (cbn [period]; by rewrite B1, B3).
  constructor; unfold recorded_requests, allowed_requests; rewrite ?Ep, ?Eq; [done|..]; rewrite <-B1 in B2; rewrite Hlimit in Ha;
    (destruct (r == run) eqn:Er; [apply bool_decide_eq_true in Er; specialize (Ha Er)|]); destruct (active run), allowed, audit; cbn [andb];
    try specialize (Hi eq_refl); try specialize (Ha eq_refl); try done; lia.
Qed.
(** A stage: the request goes on, or is answered and leaves. *)
Lemma budget_stage c m f c' p trace run : 0 <= ck_limit start -> same_setup start c -> advance c m f = (c', p) ->
  budget_ok c trace run -> budget_ok c' (reserved_events c m f ++ trace) run.
Proof.
  intros Hl Hs E Hb. destruct f as [r id request|r id request|r id data|r id data reason|r id digest reason checked status]; cbn [advance reserved_events] in *.
  - destruct (reserveBudget c (m_active m) r) as [c1 [allowed audit]] eqn:Er. cbn [snd app].
    assert (c' = c1) as -> by (by destruct allowed, audit; injection E as <- _). by apply (budget_reserve _ _ _ _ _ _ _ _ Hl Hs Er).
  - by injection E as <- _.
  - unfold consume in E. injection E as <- _. by destruct Hb.
  - by injection E as <- _.
  - by injection E as <- _.
Qed.
Lemma reserved_quiet c m f : forall e, e ∈ reserved_events c m f ->
  (forall t, is_checked t e = false /\ is_granted t e = false) /\ (forall run, is_audited run e = false) /\ (forall audited reply, e <> Answered audited reply).
Proof. intros e. unfold reserved_events. destruct f; [|set_solver..]. case_match. by intros ->%list_elem_of_singleton. Qed.
Lemma service_ok_advance s i f m c f' : 0 <= ck_limit start -> service_ok s -> sv_flights s !! i = Some f -> advance (sv_checker s) m f = (c, Next f') ->
  service_ok (mkService c (<[i := f']> (sv_flights s)) (reserved_events (sv_checker s) m f ++ sv_trace s)).
Proof.
  intros Hl [H1 H2 [H3 H3'] H4 H5 H6 H7] Hi E. destruct (H2 _ _ Hi) as [Hr Hclean]. destruct (advance_setup _ _ _ _ _ E) as [Hs Hslots].
  pose proof (reserved_quiet (sv_checker s) m f) as Hq. constructor; cbn [sv_checker sv_flights sv_trace].
  - unfold same_setup in *. intuition congruence.
  - intros j g [[<- <-]|[_ Hj]]%lookup_insert_Some; [|by eapply H2]. split; [by rewrite (advance_run _ _ _ _ _ E)|]. exact (advance_clean start _ _ _ _ _ H1 E Hclean).
  - rewrite Hslots. split; [|done]. rewrite tally_insert. by rewrite (tally_delete _ _ i f Hi) in H3.
  - intros t Ht. specialize (H4 t Ht). pose proof (advance_conserves _ _ _ _ _ t E Hr Ht) as Hc. cbn [after] in Hc. rewrite tally_insert.
    rewrite (tally_delete _ _ i f Hi) in H4. rewrite !events_app, !(events_none _ (reserved_events _ _ _)); [lia|..]; intros e He; by apply Hq.
  - intros run. by apply (budget_stage _ _ _ _ _ _ _ Hl H1 E).
  - intros run. specialize (H6 run). pose proof (advance_owes _ _ _ _ _ run E) as Ho. cbn [owes_after] in Ho. rewrite tally_insert, !events_app.
    rewrite (tally_delete _ _ i f Hi) in H6. rewrite (events_none (is_audited run) (reserved_events _ _ _)); [lia|]; intros e He; by apply Hq.
  - intros audited reply [Hin|Hin]%elem_of_app; [|by apply H7]. exfalso. by eapply Hq.
Qed.
Lemma service_ok_finish s i f m c audited reply : 0 <= ck_limit start -> service_ok s -> sv_flights s !! i = Some f -> advance (sv_checker s) m f = (c, Done audited reply) ->
  service_ok (mkService (release c) (delete i (sv_flights s)) (Answered audited reply :: reserved_events (sv_checker s) m f ++ sv_trace s)).
Proof.
  intros Hl [H1 H2 [H3 H3'] H4 H5 H6 H7] Hi E. destruct (H2 _ _ Hi) as [Hr Hclean]. destruct (advance_setup _ _ _ _ _ E) as [Hs Hslots].
  pose proof (reserved_quiet (sv_checker s) m f) as Hq. constructor; cbn [sv_checker sv_flights sv_trace].
  - unfold same_setup in *. cbn. intuition congruence.
  - intros j g [_ Hj]%lookup_delete_Some. by eapply H2.
  - cbn [release with_slots ck_slots]. rewrite Hslots. rewrite (tally_delete _ _ i f Hi) in H3. split; lia.
  - intros t Ht. specialize (H4 t Ht). pose proof (advance_conserves _ _ _ _ _ t E Hr Ht) as Hc. cbn [after] in Hc.
    rewrite (tally_delete _ _ i f Hi) in H4. cbn [release with_slots ck_approvals]. rewrite !events_cons, !events_app, !(events_none _ (reserved_events _ _ _)); [cbn [is_checked is_granted]; lia|..]; intros e He; by apply Hq.
  - intros run. destruct (budget_stage _ _ _ _ _ _ run Hl H1 E (H5 run)) as [B1 B2 B3]. by constructor.
  - intros run. specialize (H6 run). pose proof (advance_owes _ _ _ _ _ run E) as Ho. cbn [owes_after] in Ho. rewrite !events_cons, !events_app.
    rewrite (tally_delete _ _ i f Hi) in H6. rewrite (events_none (is_audited run) (reserved_events _ _ _)); [cbn [is_audited is_reserved]; lia|]; intros e He; by apply Hq.
  - intros aud rep [[= -> ->]|[Hin|Hin]%elem_of_app]%elem_of_cons; [|exfalso; by eapply Hq|by apply H7]. exact (advance_clean start _ _ _ _ _ H1 E Hclean).
Qed.
Lemma service_invariant s : just_built start -> service_reachable start s -> service_ok s.
Proof.
  intros Hf. assert (0 <= ck_limit start) as Hl by (destruct Hf as (_ & _ & _ & ? & _); lia). induction 1 as [|s s' _ IH Hstep]; [by apply service_ok_start|].
  destruct Hstep; eauto using service_ok_approve, service_ok_refuse, service_ok_enter, service_ok_advance, service_ok_finish.
Qed.
End Invariant.

(** *** Construction *)
Section Built.
Context `{MapOrder} (configured : string -> option string).
Lemma add_routes_valid l : forall routes routes', add_routes configured routes l = Ok routes' ->
  (forall id route policy, routes !! id = Some route -> Route_MCP route = Some policy -> validateMCP configured policy = Ok tt) ->
  forall id route policy, routes' !! id = Some route -> Route_MCP route = Some policy -> validateMCP configured policy = Ok tt.
Proof.
  induction l as [|r l IH]; intros routes routes'; cbn [add_routes]; [by intros [= <-]|]. rewrite !guard_bind. intros (_ & _ & E) Hv.
  destruct (check_route configured r) as [[]|] eqn:Ec; [|done]. apply (IH _ _ E). intros id route policy [[<- <-]|[_ Hi]]%lookup_insert_Some Hp; [|by eapply Hv].
  unfold check_route in Ec. rewrite Hp in Ec. cbn in Ec. destruct (_ == _); [done|]. destruct (_ == _); [|done]. by destruct (validateMCP configured policy) as [[]|].
Qed.
Lemma New_built cfg callbacks c : New configured cfg callbacks = Ok c -> just_built c /\
  (forall id route policy, ck_routes c !! id = Some route -> Route_MCP route = Some policy -> validateMCP configured policy = Ok tt).
Proof.
  unfold New. rewrite guard_bind. intros [Hg E]. rewrite !orb_false_iff, !Z.ltb_ge in Hg. destruct (add_routes _ _ _) as [routes|] eqn:Er; [|done].
  cbn in E. destruct (mapM _ _) as [forbidden|]; [|done]. injection E as <-. split; [unfold just_built; cbn; intuition lia|].
  apply (add_routes_valid _ _ _ Er). intros id route policy Hi. by rewrite lookup_empty in Hi.
Qed.
End Built.

Section Properties.
Context `{UnicodeTables} `{MapOrder}.
(** C24: however approvals and requests interleave, a run gets no more checked
    answers for a route and a body digest than approvals were granted for
    exactly that run, route and digest: an approval is used at most once, and
    never for another request. *)
Theorem checked_answers_approved configured cfg start s run route digest
  (Hnew : New configured cfg true = Ok start) (Hreach : service_reachable start s)
  (Hrun : runIdentifier run = true) (Hdigest : digestPattern digest = true) :
  count_events (is_checked (run, route, digest)) (sv_trace s) <= count_events (is_granted (run, route, digest)) (sv_trace s).
Proof.
  apply New_built in Hnew as [Hf _]. destruct (service_invariant start s Hf Hreach) as [_ _ _ H4 _ _ _].
  specialize (H4 (run, route, digest) (conj Hrun Hdigest)).
  assert (0 <= tally (pending (run, route, digest)) (sv_flights s)) by (apply tally_nonneg; intros []; cbn [pending]; repeat case_match; lia).
  assert (0 <= live (ck_approvals (sv_checker s)) (run, route, digest)) by (unfold live; case_match; lia). lia.
Qed.

(** C25: every answer with status 200 was audited as checked first, for the
    digest of a body in which no forbidden value and no credential occurs, in
    no name and no text, and which on an MCP route is a call the validated
    policy allows under the pinned definition. *)
Theorem checked_bodies_clean configured cfg start s audited reply
  (Hnew : New configured cfg true = Ok start) (Hreach : service_reachable start s)
  (Hanswer : Answered audited reply ∈ sv_trace s) (Hstatus : reply_status reply = 200) :
  exists d data object, audited = Some d /\ Decision_Checked d = true /\ Decision_SHA256 d = sha256_hex data /\ decodeObject data = Some object /\
    (forall text, occurs text (JObject object) ->
      match_somewhere credentialPattern (glyphs text) = false /\ forall secret, secret ∈ ck_forbidden start -> Contains text secret = false) /\
    (forall name text, assigns name text (JObject object) -> text <> "" -> secretField name = false) /\
    (forall r policy, ck_routes start !! Decision_RouteID d = Some r -> Route_MCP r = Some policy ->
      exists read names, pinned read policy names /\ allowed_call policy names object).
Proof.
  apply New_built in Hnew as [Hf Hv]. destruct (service_invariant start s Hf Hreach) as [_ _ _ _ _ _ H7]. specialize (H7 _ _ Hanswer).
  destruct audited as [d|]; [|done]. destruct H7 as [(Hc & _ & data & read & Hd & object & Ho & Hs & Hm)|[_ ?]]; [|done].
  exists d, data, object. split_and!; try done.
  - intros text Ht. destruct (text_sensitive (ck_forbidden start) text) eqn:E.
    { rewrite (proj2 (sensitive_spec _ _)) in Hs; [done|]. left. by exists text. }
    apply orb_false_iff in E as [E1 E2]. split; [done|]. intros secret Hin. apply not_true_iff_false. intros Hcont. apply not_true_iff_false in E2. apply E2, existsb_elem. by exists secret.
  - intros name text Ha Hne. apply not_true_iff_false. intros Hn. rewrite (proj2 (sensitive_spec _ _)) in Hs; [done|]. right. by exists name, text.
  - intros r policy Hr Hp. exists read. pose proof (Hm _ _ Hr Hp) as Hok. pose proof (validateMCP_rules _ _ (Hv _ _ _ Hr Hp)) as Hrules.
    apply decodeObject_Decode in Ho as [Hcan _]%Decode_canonical. apply checkMCP_spec in Hok as (names & Hdef%definitions_pinned & Ha); [|done..].
    exists (rev names). split; [done|]. by eapply allowed_call_names; [|exact Ha]; intros name; rewrite <-Permutation_rev.
Qed.

(** C26: since a run was last seen inactive it had at most [RequestsPerRun]
    requests looked at and at most one refusal recorded besides; the audited
    answers of a run never outnumber its recorded requests, so a flood of
    refused requests does not grow the evidence; and no more requests are in
    progress than the configured concurrency. *)
Theorem requests_bounded configured cfg start s run
  (Hnew : New configured cfg true = Ok start) (Hreach : service_reachable start s) :
  allowed_requests run (sv_trace s) <= ck_limit start /\ recorded_requests run (sv_trace s) <= ck_limit start + 1 /\
  count_events (is_audited run) (sv_trace s) <= count_events (is_reserved run) (sv_trace s) /\
  ck_slots (sv_checker s) = tally (fun _ => 1) (sv_flights s) /\ ck_slots (sv_checker s) <= ck_capacity start.
Proof.
  apply New_built in Hnew as [Hf _]. destruct (service_invariant start s Hf Hreach) as [_ _ [H3 H3'] _ H5 H6 _].
  destruct (H5 run) as [_ B2 B3]. specialize (H6 run).
  assert (0 <= tally (owes run) (sv_flights s)) by (apply tally_nonneg; intros []; cbn [owes]; repeat case_match; lia).
  split_and!; [rewrite B3; lia|lia|lia|done|done].
Qed.

(** *** A request without interruption *)
Definition rank (f : Flight) : nat := match f with Holding _ _ _ => 5 | Counted _ _ _ => 4 | Inspected _ _ _ => 3 | Consumed _ _ _ _ => 2 | Reporting _ _ _ _ _ _ => 1 end.
Lemma advance_rank c m f c' f' : advance c m f = (c', Next f') -> (rank f' < rank f)%nat.
Proof.
  destruct f as [run id request|run id request|run id data|run id data reason|run id digest reason checked status]; cbn [advance rank].
  - destruct (reserveBudget _ _ _) as [c1 [[] []]]; intros [= _ <-]; cbn; lia.
  - intros [= _ <-]. destruct (body_checks_cases c (m_read m) run id request) as [(d & r & st & -> & _)|(data & -> & _)]; cbn; lia.
  - destruct (consume _ _ _ _ _). intros [= _ <-]. cbn. lia.
  - intros [= _ <-]. unfold decide_reply. repeat case_match; cbn; lia.
  - unfold report_result. by case_match.
Qed.
(** The events of a request served without interruption. *)
Fixpoint flight_trace (fuel : nat) (c : Checker) (moments : nat -> Moment) (f : Flight) (trace : list CheckEvent) : list CheckEvent :=
  match fuel with
  | O => trace
  | S n => match advance c (moments n) f with
           | (c', Next f') => flight_trace n c' moments f' (reserved_events c (moments n) f ++ trace)
           | (_, Done audited reply) => Answered audited reply :: reserved_events c (moments n) f ++ trace
           end
  end.
Lemma serve_flight_steps start moments fuel : forall c flights trace i f, (rank f <= fuel)%nat -> flights !! i = None ->
  service_reachable start (mkService c (<[i := f]> flights) trace) ->
  exists c' reply audited trace', serve_flight fuel c moments f = Some (c', reply) /\ flight_trace fuel c moments f trace = Answered audited reply :: trace' /\
    service_reachable start (mkService c' flights (flight_trace fuel c moments f trace)).
Proof.
  induction fuel as [|fuel IH]; intros c flights trace i f Hr Hi Hs; [destruct f; cbn in Hr; lia|]. cbn [serve_flight flight_trace].
  destruct (advance c (moments fuel) f) as [c1 [f'|audited reply]] eqn:E.
  - pose proof (advance_rank _ _ _ _ _ E). eapply (IH c1 flights (reserved_events c (moments fuel) f ++ trace) i f'); [lia|done|]. eapply service_next; [exact Hs|].
    rewrite <-(insert_insert_eq flights i f' f). exact (sv_advance (mkService c (<[i := f]> flights) trace) i f (moments fuel) c1 f' (lookup_insert_eq flights i f) E).
  - exists (release c1), reply, audited, (reserved_events c (moments fuel) f ++ trace). split; [done|]. split; [done|]. eapply service_next; [exact Hs|].
    rewrite <-(delete_insert_id flights i f Hi) at 2. exact (sv_finish (mkService c (<[i := f]> flights) trace) i f (moments fuel) c1 audited reply (lookup_insert_eq flights i f) E).
Qed.
(** The service after a request, and its trace. *)
Definition served (s : Service) (authenticate : string -> option string) (moments : nat -> Moment) (request : CheckRequest) : Service :=
  match front (sv_checker s) authenticate request with
  | Err reply => mkService (sv_checker s) (sv_flights s) (Answered None reply :: sv_trace s)
  | Ok (run, id) =>
      let c := with_slots (sv_checker s) (ck_slots (sv_checker s) + 1) in
      mkService (match serve_flight 5 c moments (Holding run id request) with Some (c', _) => c' | None => c end) (sv_flights s)
        (flight_trace 5 c moments (Holding run id request) (sv_trace s))
  end.
Lemma served_reachable start s authenticate moments request : service_reachable start s ->
  exists c' reply audited trace', ServeHTTP (sv_checker s) authenticate moments request = Some (c', reply) /\
    served s authenticate moments request = mkService c' (sv_flights s) (Answered audited reply :: trace') /\ service_reachable start (served s authenticate moments request).
Proof.
  intros Hreach. unfold ServeHTTP, served. destruct (front _ _ _) as [[run id]|reply] eqn:E.
  - edestruct (serve_flight_steps start moments 5 (with_slots (sv_checker s) (ck_slots (sv_checker s) + 1)) (sv_flights s) (sv_trace s) (fresh (dom (sv_flights s))) (Holding run id request))
      as (c' & reply & audited & trace' & E1 & E2 & E3); [cbn; lia|apply not_elem_of_dom, is_fresh| |].
    + eapply service_next; [exact Hreach|]. eapply sv_enter; [exact E|apply not_elem_of_dom, is_fresh].
    + exists c', reply, audited, trace'. cbv zeta. rewrite E1, E2 in *. done.
  - exists (sv_checker s), reply, None, (sv_trace s). split_and!; [done..|]. eapply service_next; [exact Hreach|]. by eapply sv_refuse.
Qed.
(** A request is always answered, within five stages after its slot, and
    serving it is a sequence of steps of the service that leaves the other
    requests alone and ends with its answer. *)
Theorem ServeHTTP_answers start s authenticate moments request (Hreach : service_reachable start s) :
  exists c' reply audited trace', ServeHTTP (sv_checker s) authenticate moments request = Some (c', reply) /\
    service_reachable start (mkService c' (sv_flights s) (Answered audited reply :: trace')).
Proof.
  destruct (served_reachable start s authenticate moments request Hreach) as (c' & reply & audited & trace' & E1 & E2 & E3).
  exists c', reply, audited, trace'. split; [done|]. by rewrite E2 in E3.
Qed.
End Properties.

(** ** An approved tool call *)
Module CheckerDemo.
Import McpDemo.
#[local] Existing Instance ascii_tables.
Definition secret : string := "correct horse".
Definition read (path : string) : option string := if path == "/etc/secret" then Some secret else files path.
Definition config : Config := mkConfig [mkRoute "tools" "mcp" (Some policy)] ["/etc/secret"] 2 1.
Definition start : Checker := Eval vm_compute in match New read config true with Ok c => c | Err _ => mkChecker ∅ [] ∅ ∅ 0 0 0 end.
Definition run : string := "0123456789abcdef0123456789abcdef".
Definition authenticate (token : string) : option string := if token == "t" then Some run else None.
Definition moment : Moment := mkMoment 0 (fun _ => true) (fun _ => true) read.
Definition body : string := call "/srv/data/a".
Definition digest : string := Eval vm_compute in sha256_hex body.
Definition approval : Approval := mkApproval run "tools" digest Minute.
Definition request (data : string) : CheckRequest :=
  mkCheckRequest "POST" "/gateway/v1/check/tools" "" (mkHttpRequest {["Authorization" := ["Bearer t"]; "Content-Type" := ["application/json; charset=utf-8"]]} "") (Some data).
Definition approved : Service := let (c, r) := Approve start approval moment in mkService c ∅ (granted_events approval r).
Definition answered : Service := served approved authenticate (fun _ => moment) (request body).
Definition statuses (s : Service) : list Z := omap (fun e => match e with Answered _ reply => Some (reply_status reply) | _ => None end) (sv_trace s).
Lemma built : New read config true = Ok start.
Proof. vm_compute. reflexivity. Qed.
Lemma answered_reachable : service_reachable start answered.
Proof.
  unfold answered. edestruct (served_reachable start approved authenticate (fun _ => moment) (request body)) as (? & ? & ? & ? & _ & _ & Hr); [|exact Hr].
  unfold approved. destruct (Approve start approval moment) as [c r] eqn:E. eapply service_next; [apply service_start|]. rewrite <-(app_nil_r (granted_events approval r)).
  exact (sv_approve (mkService start ∅ []) approval moment c r E).
Qed.
(** The approval serves one request; the second is refused, and the third is
    over the budget of two, recorded once. *)
Definition again (s : Service) : Service := served s authenticate (fun _ => moment) (request body).
Lemma answered_statuses : statuses (again (again (again answered))) = [429; 429; 403; 200].
Proof. vm_compute. reflexivity. Qed.
(** The audited decision and the reply. *)
Definition decision : Decision := mkDecision run "tools" digest "checked" true.
Definition reply : HttpReply := json_reply true "checked" digest 200.
Lemma answered_head : head (sv_trace answered) = Some (Answered (Some decision) reply).
Proof. vm_compute. reflexivity. Qed.
Lemma answered_counts : count_events (is_audited run) (sv_trace (again (again (again answered)))) = 3.
Proof. vm_compute. reflexivity. Qed.
End CheckerDemo.
Section Witnesses.
Import McpDemo CheckerDemo.
#[local] Existing Instance ascii_tables.
Lemma checked_answers_approved_witness :
  count_events (is_checked (run, "tools", digest)) (sv_trace answered) = 1 /\
  count_events (is_checked (run, "tools", digest)) (sv_trace answered) <= count_events (is_granted (run, "tools", digest)) (sv_trace answered).
Proof.
  split; [by vm_compute|]. apply (checked_answers_approved read config start answered run "tools" digest); [exact built|exact answered_reachable|by vm_compute..].
Defined.
Lemma checked_bodies_clean_witness : exists data object, Decision_SHA256 decision = sha256_hex data /\ decodeObject data = Some object /\
  forall text, occurs text (JObject object) -> Contains text secret = false.
Proof.
  destruct (checked_bodies_clean read config start answered (Some decision) reply) as (d & data & object & [= <-] & _ & Hd & Ho & Hs & _ & _).
  - exact built.
  - exact answered_reachable.
  - apply head_Some_elem_of. exact answered_head.
  - reflexivity.
  - exists data, object. split; [exact Hd|]. split; [exact Ho|]. intros text Ht. apply (proj2 (Hs text Ht)). left.
Defined.
Lemma requests_bounded_witness : allowed_requests run (sv_trace answered) = 1 /\ allowed_requests run (sv_trace answered) <= 2.
Proof.
  split; [by vm_compute|]. exact (proj1 (requests_bounded read config start answered run built answered_reachable)).
Defined.
Lemma ServeHTTP_answers_witness : exists c' reply audited trace', ServeHTTP (sv_checker answered) authenticate (fun _ => moment) (request body) = Some (c', reply) /\
  service_reachable start (mkService c' (sv_flights answered) (Answered audited reply :: trace')).
Proof. exact (ServeHTTP_answers start answered authenticate (fun _ => moment) (request body) answered_reachable). Defined.
End Witnesses.
