(* ===== verification/Overview.v ===== *)
(** * The overview ([internal/api/overview.go], [internal/api/read_auth.go])

    Counters and runs shown to a reader who has the read token.  Every
    operation is one critical section; the clock is an argument. *)
From S2P Require Import Prelude GoStd GoTime Json Crypto StreamHandler.
Open Scope Z_scope.

(** ** Readers *)
Definition token_blanks : list ascii := [" "%char; chr 9; chr 13; chr 10].
(** [readAuthorizer]: the digest of the read token. *)
Definition readAuthorizer := string.
Definition newReadAuthorizer (token : string) : option readAuthorizer :=
  if (slen token <? 24) || (512 <? slen token) || ContainsAny token token_blanks then None else Some (Sum256 token).
Definition authorized `{UnicodeTables} (authorizer : readAuthorizer) (header : string) : bool :=
  match Cut header " " with
  | None => false
  | Some (scheme, token) =>
      if negb (EqualFold scheme "Bearer") || (token == "") || (512 <? slen token) || ContainsAny token token_blanks then false
      else Sum256 token == authorizer
  end.

(** ** The state *)
Record OverviewCapability := mkOverviewCapability { Capability_Name : string; Capability_Status : string; Capability_Detail : string }.
Record overviewRunState := mkOverviewRunState {
  or_runID : string;
  or_label : string;
  or_status : string;
  or_startedAt : Time;
  or_lastEventAt : Time;
  or_eventCount : Z;
  or_blockedCount : Z;
}.
Record OverviewState := mkOverviewState {
  ov_runs : gmap string overviewRunState;
  ov_kernelEvents : Z;
  ov_policyHits : Z;
  ov_blocked : Z;
  ov_capabilities : list OverviewCapability;
}.
Record OverviewRunInput := mkOverviewRunInput { RunInput_RunID : string; RunInput_Label : string; RunInput_Status : string; RunInput_StartedAt : Time }.
Record OverviewEventInput := mkOverviewEventInput { EventInput_RunID : string; EventInput_PolicyHit : bool; EventInput_Blocked : bool; EventInput_OccurredAt : Time }.
Definition NewOverviewState : OverviewState := mkOverviewState ∅ 0 0 0 [].

Definition validRunStatus (status : string) : bool := (status == "active") || (status == "finished") || (status == "failed").
Definition runStatusRank (status : string) : Z := if status == "active" then 0 else if status == "failed" then 1 else 2.
Definition validCapabilityStatus (status : string) : bool :=
  (status == "available") || (status == "degraded") || (status == "unavailable") || (status == "unknown").

Inductive OverviewError := InvalidOverviewRun | ErrOverviewRunNotFound | ErrOverviewOverflow | InvalidOverviewCapability | DuplicateOverviewCapability.
Definition zero_run : overviewRunState := mkOverviewRunState "" "" "" 0 0 0 0.
Definition UpsertRun (s : OverviewState) (input : OverviewRunInput) : OverviewState * result OverviewError unit :=
  if (RunInput_RunID input == "") || (128 <? slen (RunInput_RunID input)) || (128 <? slen (RunInput_Label input))
     || negb (validRunStatus (RunInput_Status input)) || IsZero (RunInput_StartedAt input)
  then (s, Err InvalidOverviewRun)
  else
    let run := default zero_run (ov_runs s !! RunInput_RunID input) in
    let run := mkOverviewRunState (RunInput_RunID input) (RunInput_Label input) (RunInput_Status input) (RunInput_StartedAt input)
                 (or_lastEventAt run) (or_eventCount run) (or_blockedCount run) in
    (mkOverviewState (<[RunInput_RunID input := run]> (ov_runs s)) (ov_kernelEvents s) (ov_policyHits s) (ov_blocked s) (ov_capabilities s), Ok tt).
Definition b2z (b : bool) : Z := if b then 1 else 0.
Definition ObserveEvent (s : OverviewState) (input : OverviewEventInput) (now : Time) : OverviewState * result OverviewError unit :=
  match ov_runs s !! EventInput_RunID input with
  | None => (s, Err ErrOverviewRunNotFound)
  | Some run =>
      if (ov_kernelEvents s =? u64_max) || (or_eventCount run =? u64_max)
         || (EventInput_PolicyHit input && (ov_policyHits s =? u64_max))
         || (EventInput_Blocked input && ((ov_blocked s =? u64_max) || (or_blockedCount run =? u64_max)))
      then (s, Err ErrOverviewOverflow)
      else
        let occurredAt := if IsZero (EventInput_OccurredAt input) then now else EventInput_OccurredAt input in
        let lastEventAt := if Before (or_lastEventAt run) occurredAt then occurredAt else or_lastEventAt run in
        let run := mkOverviewRunState (or_runID run) (or_label run) (or_status run) (or_startedAt run) lastEventAt
                     (or_eventCount run + 1) (or_blockedCount run + b2z (EventInput_Blocked input)) in
        (mkOverviewState (<[EventInput_RunID input := run]> (ov_runs s)) (ov_kernelEvents s + 1) (ov_policyHits s + b2z (EventInput_PolicyHit input))
           (ov_blocked s + b2z (EventInput_Blocked input)) (ov_capabilities s), Ok tt)
  end.
Definition ObservePolicyHit (s : OverviewState) (runID : string) : OverviewState * result OverviewError unit :=
  if is_none (ov_runs s !! runID) then (s, Err ErrOverviewRunNotFound)
  else if ov_policyHits s =? u64_max then (s, Err ErrOverviewOverflow)
  else (mkOverviewState (ov_runs s) (ov_kernelEvents s) (ov_policyHits s + 1) (ov_blocked s) (ov_capabilities s), Ok tt).
Fixpoint check_capabilities (seen : list string) (l : list OverviewCapability) : result OverviewError unit :=
  match l with
  | [] => Ok tt
  | capability :: l =>
      let name := Capability_Name capability in
      _ ← guard_err ((name == "") || (64 <? slen name) || (256 <? slen (Capability_Detail capability)) || negb (validCapabilityStatus (Capability_Status capability)))
            InvalidOverviewCapability;
      _ ← guard_err (bool_decide (name ∈ seen)) DuplicateOverviewCapability;
      check_capabilities (name :: seen) l
  end.
Definition SetCapabilities (s : OverviewState) (capabilities : list OverviewCapability) : OverviewState * result OverviewError unit :=
  match check_capabilities [] capabilities with
  | Err e => (s, Err e)
  | Ok _ => (mkOverviewState (ov_runs s) (ov_kernelEvents s) (ov_policyHits s) (ov_blocked s)
               (sort_by (fun a b => str_lt (Capability_Name a) (Capability_Name b)) capabilities), Ok tt)
  end.

(** ** The snapshot *)
Record OverviewRun := mkOverviewRun {
  OverviewRun_RunID : string;
  OverviewRun_Label : string;
  OverviewRun_Status : string;
  OverviewRun_StartedAt : string;
  OverviewRun_LastEventAt : string;
  OverviewRun_EventCount : string;
  OverviewRun_BlockedCount : string;
}.
Record OverviewSnapshot := mkOverviewSnapshot {
  Snapshot_GeneratedAt : string;
  Snapshot_ActiveRuns : string;
  Snapshot_KernelEvents : string;
  Snapshot_PolicyHits : string;
  Snapshot_Blocked : string;
  Snapshot_Runs : list OverviewRun;
  Snapshot_Capabilities : list OverviewCapability;
}.
Definition overview_run (run : overviewRunState) : OverviewRun :=
  mkOverviewRun (or_runID run) (or_label run) (or_status run) (RFC3339Nano (or_startedAt run))
    (if IsZero (or_lastEventAt run) then "" else RFC3339Nano (or_lastEventAt run)) (FormatUint (or_eventCount run)) (FormatUint (or_blockedCount run)).
Definition overview_before (a b : OverviewRun) : bool :=
  if OverviewRun_Status a != OverviewRun_Status b then runStatusRank (OverviewRun_Status a) <? runStatusRank (OverviewRun_Status b)
  else if OverviewRun_StartedAt a != OverviewRun_StartedAt b then str_lt (OverviewRun_StartedAt b) (OverviewRun_StartedAt a)
  else str_lt (OverviewRun_RunID a) (OverviewRun_RunID b).
(** [runs]: the map's entries in the order the loop meets them. *)
Definition snapshot_of (s : OverviewState) (runs : list overviewRunState) (now : Time) : OverviewSnapshot :=
  mkOverviewSnapshot (RFC3339Nano now) (FormatUint (len (List.filter (fun run => or_status run == "active") runs))) (FormatUint (ov_kernelEvents s))
    (FormatUint (ov_policyHits s)) (FormatUint (ov_blocked s)) (sort_by overview_before (map overview_run runs)) (ov_capabilities s).
Definition Overview (s : OverviewState) (now : Time) : OverviewSnapshot := snapshot_of s (map snd (map_to_list (ov_runs s))) now.

Definition run_json (r : OverviewRun) : json :=
  JObject ([("run_id", JString (OverviewRun_RunID r)); ("label", JString (OverviewRun_Label r)); ("status", JString (OverviewRun_Status r));
            ("started_at", JString (OverviewRun_StartedAt r))] ++ omitempty (OverviewRun_LastEventAt r == "") "last_event_at" (JString (OverviewRun_LastEventAt r)) ++
           [("event_count", JString (OverviewRun_EventCount r)); ("blocked_count", JString (OverviewRun_BlockedCount r))]).
Definition capability_json (c : OverviewCapability) : json :=
  JObject [("name", JString (Capability_Name c)); ("status", JString (Capability_Status c)); ("detail", JString (Capability_Detail c))].
(** The copy of an empty list of capabilities is a nil slice. *)
Definition snapshot_json (s : OverviewSnapshot) : json :=
  JObject [("schema_version", JString "1"); ("generated_at", JString (Snapshot_GeneratedAt s));
    ("counts", JObject [("active_runs", JString (Snapshot_ActiveRuns s)); ("kernel_events", JString (Snapshot_KernelEvents s));
                        ("policy_hits", JString (Snapshot_PolicyHits s)); ("blocked", JString (Snapshot_Blocked s))]);
    ("runs", JArray (map run_json (Snapshot_Runs s)));
    ("capabilities", match Snapshot_Capabilities s with [] => JNull | l => JArray (map capability_json l) end)].
(** [provider]: the snapshot, or the provider's failure. *)
Definition OverviewHandler_ServeHTTP `{UnicodeTables} (auth : readAuthorizer) (request : HttpRequest) (provider : option OverviewSnapshot) : HttpReply :=
  if negb (authorized auth (Header_Get request "Authorization")) then unauthorized
  else match provider with
  | None => http_Error [] "overview unavailable" 503
  | Some snapshot => mkHttpReply 200 [("Cache-Control", "no-store"); ("Content-Type", "application/json")] (Marshal (snapshot_json snapshot) +:+ String newline "")
  end.

(** ** Order *)
(** First by a key, then by another order. *)
Definition lex_by {A B} (f : A -> B) (less1 : B -> B -> bool) (less2 : A -> A -> bool) (a b : A) : bool :=
  if less1 (f a) (f b) then true else if less1 (f b) (f a) then false else less2 a b.
Lemma lex_by_weak {A B} (f : A -> B) less1 less2 : StrictWeak less1 -> StrictWeak less2 -> StrictWeak (lex_by f less1 less2).
Proof.
  intros H1 H2. unfold lex_by. split.
  - intros x y. destruct (less1 (f x) (f y)) eqn:E1; [by rewrite (less_asym (less := less1) _ _ E1)|].
    destruct (less1 (f y) (f x)); [done|]. apply less_asym.
  - intros x y z. pose proof (less_ntrans (less := less1) (f x) (f y) (f z)) as Hzx. pose proof (less_ntrans (less := less1) (f z) (f y) (f x)) as Hxz.
    pose proof (less_ntrans (less := less1) (f y) (f z) (f x)) as Hxy. pose proof (less_ntrans (less := less1) (f z) (f x) (f y)) as Hyz.
    pose proof (less_asym (less := less1) (f x) (f y)). pose proof (less_asym (less := less1) (f y) (f z)).
    destruct (less1 (f y) (f x)) eqn:A1, (less1 (f x) (f y)) eqn:A2, (less1 (f z) (f y)) eqn:A3, (less1 (f y) (f z)) eqn:A4, (less1 (f z) (f x)) eqn:A5, (less1 (f x) (f z)) eqn:A6;
      intros B1 B2; try done; try (by specialize (Hzx eq_refl eq_refl)); try (by specialize (Hxz eq_refl eq_refl)); try (by specialize (Hxy eq_refl eq_refl));
      try (by specialize (Hyz eq_refl eq_refl)); try (by exfalso; auto); by apply (less_ntrans x y z).
Qed.
Lemma flip_weak {A} (less : A -> A -> bool) : StrictWeak less -> StrictWeak (fun a b => less b a).
Proof. intros H. split; [intros x y; apply less_asym|]. intros x y z E1 E2. exact (less_ntrans z y x E2 E1). Qed.
#[export] Instance ltb_weak : StrictWeak Z.ltb.
Proof. split; intros *; rewrite ?Z.ltb_lt, ?Z.ltb_ge; lia. Qed.
Lemma on_weak {A B} (f : A -> B) less : StrictWeak less -> StrictWeak (fun a b => less (f a) (f b)).
Proof. intros H. split; [intros x y; apply less_asym|]. intros x y z. apply less_ntrans. Qed.
Definition shown_before : OverviewRun -> OverviewRun -> bool :=
  lex_by (fun r => runStatusRank (OverviewRun_Status r)) Z.ltb
    (lex_by OverviewRun_StartedAt (fun a b => str_lt b a) (fun a b => str_lt (OverviewRun_RunID a) (OverviewRun_RunID b))).
#[export] Instance shown_before_weak : StrictWeak shown_before.
Proof. apply lex_by_weak; [apply _|]. apply lex_by_weak; [apply (flip_weak str_lt), _|apply (on_weak OverviewRun_RunID str_lt), _]. Qed.
Lemma rank_inj a b : validRunStatus a = true -> validRunStatus b = true -> runStatusRank a = runStatusRank b -> a = b.
Proof.
  unfold validRunStatus, runStatusRank. rewrite !orb_true_iff, !bool_decide_eq_true. intros [[->| ->]| ->] [[->| ->]| ->]; try done.
Qed.
Lemma overview_before_shown a b : validRunStatus (OverviewRun_Status a) = true -> validRunStatus (OverviewRun_Status b) = true ->
  overview_before a b = shown_before a b.
Proof.
  intros Ha Hb. unfold overview_before, shown_before, lex_by. destruct (bool_decide (OverviewRun_Status a = OverviewRun_Status b)) eqn:E; cbn [negb].
  - apply bool_decide_eq_true in E as ->. rewrite Z.ltb_irrefl. destruct (bool_decide (OverviewRun_StartedAt a = OverviewRun_StartedAt b)) eqn:E2; cbn [negb].
    + apply bool_decide_eq_true in E2 as ->. destruct (str_lt (OverviewRun_StartedAt b) (OverviewRun_StartedAt b)) eqn:Es; [|done].
      pose proof (less_asym (less := str_lt) _ _ Es). congruence.
    + apply bool_decide_eq_false in E2. destruct (str_lt (OverviewRun_StartedAt b) (OverviewRun_StartedAt a)) eqn:E3; [done|].
      destruct (str_lt (OverviewRun_StartedAt a) (OverviewRun_StartedAt b)) eqn:E4; [done|]. destruct E2. by apply str_lt_total.
  - apply bool_decide_eq_false in E. destruct (Z.ltb_spec (runStatusRank (OverviewRun_Status a)) (runStatusRank (OverviewRun_Status b))); [done|].
    destruct (Z.ltb_spec (runStatusRank (OverviewRun_Status b)) (runStatusRank (OverviewRun_Status a))); [done|]. destruct E. apply rank_inj; [done..|lia].
Qed.

(** ** The log *)
Inductive OverviewOp :=
  | OpRun (input : OverviewRunInput)
  | OpEvent (input : OverviewEventInput) (now : Time)
  | OpHit (runID : string)
  | OpCapabilities (capabilities : list OverviewCapability).
Definition overview_step (s : OverviewState) (op : OverviewOp) : OverviewState * result OverviewError unit :=
  match op with
  | OpRun input => UpsertRun s input
  | OpEvent input now => ObserveEvent s input now
  | OpHit runID => ObservePolicyHit s runID
  | OpCapabilities capabilities => SetCapabilities s capabilities
  end.
(** The state and the accepted operations, oldest first. *)
Fixpoint overview_run_ops (s : OverviewState) (ops : list OverviewOp) : OverviewState * list OverviewOp :=
  match ops with
  | [] => (s, [])
  | op :: ops =>
      let (s, r) := overview_step s op in
      let (s, log) := overview_run_ops s ops in
      (s, if is_ok r then op :: log else log)
  end.
Definition events_of (p : OverviewEventInput -> bool) (log : list OverviewOp) : Z :=
  len (List.filter (fun op => match op with OpEvent input _ => p input | _ => false end) log).
Definition hits_of (log : list OverviewOp) : Z :=
  len (List.filter (fun op => match op with OpEvent input _ => EventInput_PolicyHit input | OpHit _ => true | _ => false end) log).
Definition of_run (id : string) (input : OverviewEventInput) : bool := EventInput_RunID input == id.
Definition event_time (input : OverviewEventInput) (now : Time) : Time := if IsZero (EventInput_OccurredAt input) then now else EventInput_OccurredAt input.
Definition last_time (id : string) (log : list OverviewOp) : Time :=
  foldl (fun t op => match op with OpEvent input now => if of_run id input then Z.max t (event_time input now) else t | _ => t end) 0 log.
(** The last accepted description of a run. *)
Definition described (id : string) (log : list OverviewOp) : option OverviewRunInput :=
  foldl (fun d op => match op with OpRun input => if RunInput_RunID input == id then Some input else d | _ => d end) None log.
Record run_shown (id : string) (log : list OverviewOp) (run : overviewRunState) : Prop := {
  shown_id : or_runID run = id;
  shown_described : described id log = Some (mkOverviewRunInput id (or_label run) (or_status run) (or_startedAt run));
  shown_status : validRunStatus (or_status run) = true;
  shown_events : or_eventCount run = events_of (of_run id) log;
  shown_blocked : or_blockedCount run = events_of (fun e => of_run id e && EventInput_Blocked e) log;
  shown_last : or_lastEventAt run = last_time id log;
}.
Record overview_ok (s : OverviewState) (log : list OverviewOp) : Prop := {
  total_events : ov_kernelEvents s = events_of (fun _ => true) log;
  total_blocked : ov_blocked s = events_of EventInput_Blocked log;
  total_hits : ov_policyHits s = hits_of log;
  totals_fit : ov_kernelEvents s <= u64_max /\ ov_blocked s <= u64_max /\ ov_policyHits s <= u64_max;
  runs_shown id : match ov_runs s !! id with Some run => run_shown id log run | None => described id log = None /\ events_of (of_run id) log = 0 /\ events_of (fun e => of_run id e && EventInput_Blocked e) log = 0 /\ last_time id log = 0 end;
}.
Lemma events_of_app p log op : events_of p (log ++ [op]) = events_of p log + match op with OpEvent input _ => b2z (p input) | _ => 0 end.
Proof. unfold events_of, len. rewrite List.filter_app, length_app. cbn. destruct op; cbn; try lia. destruct (p input); cbn; lia. Qed.
Lemma hits_app log op : hits_of (log ++ [op]) = hits_of log + match op with OpEvent input _ => b2z (EventInput_PolicyHit input) | OpHit _ => 1 | _ => 0 end.
Proof. unfold hits_of, len. rewrite List.filter_app, length_app. cbn. destruct op; cbn; try lia. destruct (EventInput_PolicyHit input); cbn; lia. Qed.
Lemma described_app id log op : described id (log ++ [op]) = match op with OpRun input => if RunInput_RunID input == id then Some input else described id log | _ => described id log end.
Proof. unfold described. rewrite foldl_app. cbn. by destruct op. Qed.
Lemma last_app id log op : last_time id (log ++ [op]) =
  match op with OpEvent input now => if of_run id input then Z.max (last_time id log) (event_time input now) else last_time id log | _ => last_time id log end.
Proof. unfold last_time. rewrite foldl_app. cbn. by destruct op. Qed.
#[local] Arguments events_of : simpl never.
#[local] Arguments hits_of : simpl never.
#[local] Arguments last_time : simpl never.
#[local] Arguments described : simpl never.
#[local] Hint Rewrite events_of_app hits_app described_app last_app : overview_log.
Lemma upsert_ok s log input s' r : overview_ok s log -> UpsertRun s input = (s', r) -> overview_ok s' (if is_ok r then log ++ [OpRun input] else log).
Proof.
  intros [H1 H2 H3 H4 H5]. unfold UpsertRun. destruct (_ || _) eqn:Eg; [by intros [= <- <-]; constructor|]. intros [= <- <-]. cbn [is_ok].
  rewrite !orb_false_iff, !negb_false_iff in Eg. destruct Eg as [[[[_ _] _] Hs] _].
  constructor; cbn [ov_kernelEvents ov_blocked ov_policyHits ov_runs]; autorewrite with overview_log; try lia.
  intros id. specialize (H5 id). destruct (decide (RunInput_RunID input = id)) as [<-|Hne].
  - rewrite lookup_insert_eq. destruct (ov_runs s !! RunInput_RunID input) as [run|] eqn:E; [destruct H5 as [E1 E2 E3 E4 E5 E6]|destruct H5 as (E1 & E4 & E5 & E6)];
      (constructor; cbn; autorewrite with overview_log; rewrite ?bool_decide_eq_true_2 by done; [done|by destruct input|done|lia|lia|congruence]).
  - rewrite lookup_insert_ne by done. destruct (ov_runs s !! id) as [run|] eqn:E; [destruct H5 as [E1 E2 E3 E4 E5 E6]; constructor|destruct H5 as (E1 & E4 & E5 & E6); split_and!];
      autorewrite with overview_log; rewrite ?bool_decide_eq_false_2 by done; try done; lia.
Qed.
Lemma event_ok s log input now s' r : overview_ok s log -> ObserveEvent s input now = (s', r) -> overview_ok s' (if is_ok r then log ++ [OpEvent input now] else log).
Proof.
  intros [H1 H2 H3 H4 H5]. unfold ObserveEvent. destruct (ov_runs s !! EventInput_RunID input) as [run|] eqn:Er; [|by intros [= <- <-]; constructor].
  destruct (_ || _) eqn:Eg; [by intros [= <- <-]; constructor|]. intros [= <- <-]. cbn [is_ok].
  assert (ov_kernelEvents s <> u64_max /\ (EventInput_PolicyHit input = true -> ov_policyHits s <> u64_max) /\ (EventInput_Blocked input = true -> ov_blocked s <> u64_max)) as (G1 & G2 & G3).
  { rewrite !orb_false_iff, !Z.eqb_neq in Eg. destruct Eg as [[[G1 _] G2] G3]. split; [done|]. split; intros E; rewrite E in *; cbn [andb] in *;
      rewrite ?orb_false_iff, ?Z.eqb_neq in *; tauto. }
  constructor; cbn [ov_kernelEvents ov_blocked ov_policyHits ov_runs]; autorewrite with overview_log; try (cbn; lia).
  - unfold b2z. split_and!; repeat case_match; try lia; specialize (G2 eq_refl) || specialize (G3 eq_refl); lia.
  - intros id. specialize (H5 id). destruct (decide (EventInput_RunID input = id)) as [<-|Hne].
    + rewrite lookup_insert_eq. rewrite Er in H5. destruct H5 as [E1 E2 E3 E4 E5 E6].
      constructor; cbn; autorewrite with overview_log; unfold of_run in *; rewrite ?bool_decide_eq_true_2 by done; cbn; try done; try lia.
      rewrite <-E6. unfold Before. fold (event_time input now). generalize (event_time input now), (or_lastEventAt run). unfold Time. intros t t'. destruct (Z.ltb_spec t' t); lia.
    + rewrite lookup_insert_ne by done. destruct (ov_runs s !! id) as [run'|] eqn:E; [destruct H5 as [E1 E2 E3 E4 E5 E6]; constructor|destruct H5 as (E1 & E4 & E5 & E6); split_and!];
      autorewrite with overview_log; unfold of_run in *; rewrite ?bool_decide_eq_false_2 by done; cbn; try done; lia.
Qed.
Lemma overview_step_ok s log op s' r : overview_ok s log -> overview_step s op = (s', r) -> overview_ok s' (if is_ok r then log ++ [op] else log).
Proof.
  destruct op as [input|input now|runID|capabilities]; cbn [overview_step]; [apply upsert_ok|apply event_ok|..]; intros [H1 H2 H3 H4 H5].
  - unfold ObservePolicyHit. destruct (is_none _); [by intros [= <- <-]; constructor|]. destruct (Z.eqb_spec (ov_policyHits s) u64_max); [by intros [= <- <-]; constructor|].
    intros [= <- <-]. cbn [is_ok]. constructor; cbn [ov_kernelEvents ov_blocked ov_policyHits ov_runs]; autorewrite with overview_log; try lia.
    intros id. specialize (H5 id). destruct (ov_runs s !! id); [destruct H5; constructor|destruct H5 as (? & ? & ? & ?); split_and!]; autorewrite with overview_log; try done; lia.
  - unfold SetCapabilities. destruct (check_capabilities _ _); intros [= <- <-]; [|by constructor]. cbn [is_ok].
    constructor; cbn [ov_kernelEvents ov_blocked ov_policyHits ov_runs]; autorewrite with overview_log; try lia.
    intros id. specialize (H5 id). destruct (ov_runs s !! id); [destruct H5; constructor|destruct H5 as (? & ? & ? & ?); split_and!]; autorewrite with overview_log; try done; lia.
Qed.
Lemma overview_ops_ok ops : forall s log, overview_ok s log -> let (s', log') := overview_run_ops s ops in overview_ok s' (log ++ log').
Proof.
  induction ops as [|op ops IH]; intros s log Hok; cbn [overview_run_ops]; [by rewrite app_nil_r|].
  destruct (overview_step s op) as [s1 r] eqn:E. apply (overview_step_ok _ _ _ _ _ Hok) in E. specialize (IH _ _ E).
  destruct (overview_run_ops s1 ops) as [s2 log']. destruct (is_ok r); [|done]. by rewrite <-app_assoc in IH.
Qed.
Lemma new_overview_ok : overview_ok NewOverviewState [].
Proof. constructor; cbn; try done. Qed.
(** The runs of the map are listed once, under their identifiers. *)
Lemma shown_runs s log : overview_ok s log -> NoDup (map or_runID (map snd (map_to_list (ov_runs s)))) /\
  forall run, run ∈ map snd (map_to_list (ov_runs s)) -> validRunStatus (or_status run) = true.
Proof.
  intros [_ _ _ _ H5]. assert (forall id run, (id, run) ∈ map_to_list (ov_runs s) -> run_shown id log run) as Hs.
  { intros id run Hin%elem_of_map_to_list. specialize (H5 id). by rewrite Hin in H5. }
  split.
  - rewrite map_map. assert (map (fun x => or_runID x.2) (map_to_list (ov_runs s)) = map fst (map_to_list (ov_runs s))) as -> by
      (apply map_ext_in; intros [id run] Hin%list_elem_of_In; by destruct (Hs _ _ Hin)).
    apply NoDup_fst_map_to_list.
  - intros run ([id run'] & -> & Hin)%list_elem_of_fmap. by destruct (Hs _ _ Hin).
Qed.
Lemma filter_len_perm {A} (f : A -> bool) l l' : l ≡ₚ l' -> len (List.filter f l) = len (List.filter f l').
Proof. unfold len. intros Hp. f_equal. induction Hp; cbn; repeat case_match; cbn; congruence. Qed.
Lemma sorted_runs_unique l l' : NoDup (map or_runID l) -> (forall run, run ∈ l -> validRunStatus (or_status run) = true) -> l ≡ₚ l' ->
  sort_by overview_before (map overview_run l) = sort_by overview_before (map overview_run l').
Proof.
  intros Hn Hv Hp.
  assert (forall l0, l0 ≡ₚ l -> sort_by overview_before (map overview_run l0) = sort_by shown_before (map overview_run l0)) as Hext.
  { intros l0 H0. apply sort_by_ext. intros x y (a & -> & Ha)%list_elem_of_fmap (b & -> & Hb)%list_elem_of_fmap. rewrite H0 in Ha, Hb.
    apply overview_before_shown; by apply Hv. }
  rewrite (Hext l), (Hext l') by done. apply sort_by_perm_eq; [apply _| |by rewrite Hp].
  intros x y (a & -> & Ha)%list_elem_of_fmap (b & -> & Hb)%list_elem_of_fmap H1 H2. f_equal.
  assert (or_runID a = or_runID b) as Eid.
  { unfold shown_before, lex_by in H1, H2. cbn in H1, H2. repeat case_match; try done. by apply str_lt_total. }
  apply list_elem_of_lookup in Ha as [i Hi], Hb as [j Hj]. assert (i = j) as <-; [|congruence].
  eapply NoDup_lookup; [exact Hn|..]; rewrite list_lookup_fmap, ?Hi, ?Hj; cbn; [done|by rewrite Eid].
Qed.
(** After any operations the counters are exactly the numbers of accepted
    events, blocked events and policy hits, without wrapping; every run shows
    its last accepted description, its own counts and the time of its latest
    event; and the snapshot lists the runs in one order, whatever the order in
    which the map is walked. *)
Theorem overview_exact ops :
  let (s, log) := overview_run_ops NewOverviewState ops in
  overview_ok s log /\
  forall runs now, runs ≡ₚ map snd (map_to_list (ov_runs s)) ->
    snapshot_of s runs now = Overview s now /\ StronglySorted (not_after shown_before) (Snapshot_Runs (Overview s now)).
Proof.
  pose proof (overview_ops_ok ops _ _ new_overview_ok) as Hok. destruct (overview_run_ops NewOverviewState ops) as [s log]. cbn [app] in Hok.
  split; [done|]. intros runs now Hp. destruct (shown_runs s log Hok) as [Hn Hv]. split.
  - unfold Overview, snapshot_of. f_equal.
    + f_equal. by apply filter_len_perm.
    + symmetry. apply sorted_runs_unique; [done..|by symmetry].
  - cbn. rewrite (sort_by_ext overview_before shown_before); [apply sort_by_sorted; apply _|].
    intros x y (a & -> & Ha)%list_elem_of_fmap (b & -> & Hb)%list_elem_of_fmap. apply overview_before_shown; by apply Hv.
Qed.
(** A reader gets a snapshot only with a token of the configured digest. *)
Lemma overview_needs_token `{UnicodeTables} auth request provider : reply_status (OverviewHandler_ServeHTTP auth request provider) = 200 ->
  exists scheme token, Cut (Header_Get request "Authorization") " " = Some (scheme, token) /\ EqualFold scheme "Bearer" = true /\ Sum256 token = auth.
Proof.
  unfold OverviewHandler_ServeHTTP, authorized. destruct (Cut _ _) as [[scheme token]|]; [|done]. destruct (_ || _) eqn:E; [done|].
  rewrite !orb_false_iff, negb_false_iff in E. destruct (Sum256 token == auth) eqn:Et; [|done]. intros _. exists scheme, token. split; [done|]. split; [tauto|].
  by apply bool_decide_eq_true in Et.
Qed.

(** The start times are compared as text with trailing zeros cut off, so within
    a second the order is not the order in time: of two active runs the one
    that started on the full second comes before one started half a second
    later, although later runs come first. *)
Definition started (id : string) (t : Time) : OverviewRun := overview_run (mkOverviewRunState id "" "active" t 0 0 0).
Lemma later_start_not_first :
  overview_before (started "a" (UnixTime 1700000000000000000)) (started "b" (UnixTime 1700000000500000000)) = true /\
  overview_before (started "a" (UnixTime 1700000000000000000)) (started "b" (UnixTime 1700000001000000000)) = false.
Proof. vm_compute. done. Qed.
