(* ===== verification/EvidenceCodec.v ===== *)
(** * Evidence events as JSON ([internal/evidence/timeline.go], [internal/correlator/correlator.go])

    What [encoding/json] writes for an [evidence.Event], what it reads back into
    one, and what redaction does in between.  An object is read by the exact
    names of the fields: the payloads are those this program wrote, which have
    no others.  Reading into a value that exists keeps what the object does not
    mention, as the Go decoder does. *)
From S2P Require Import Prelude GoStd GoTime Json Redact StoreRecord Correlator Evidence.
Open Scope Z_scope.

(** ** Writing *)
Definition option_json {A} (f : A -> json) (v : option A) : json := match v with Some a => f a | None => JNull end.
(** A slice that was never appended to is nil. *)
Definition slice_json {A} (f : A -> json) (l : list A) : json := match l with [] => JNull | _ => JArray (map f l) end.
Definition evidence_attribution_json (a : EvidenceAttribution) : json :=
  JObject ([("status", JString (EA_Status a))] ++ omitempty (EA_RunID a == "") "run_id" (JString (EA_RunID a)) ++
    omitempty (EA_RunStatus a == "") "run_status" (JString (EA_RunStatus a)) ++ [("basis", JString (EA_Basis a))]).
Definition operation_json (o : OperationResult) : json :=
  JObject [("attempt_observed", JBool (AttemptObserved o)); ("action_result", JString (OR_ActionResult o)); ("mechanism", JString (OR_Mechanism o))].
Definition evidence_decision_json (d : EvidenceDecision) : json :=
  JObject [("policy_id", JString (ED_PolicyID d)); ("rule_id", JString (ED_RuleID d)); ("requested_action", JString (ED_RequestedAction d));
    ("final_decision", JString (ED_FinalDecision d)); ("enforced", JBool (ED_Enforced d)); ("mechanism", JString (ED_Mechanism d))].
Definition containment_json (c : Containment) : json :=
  JObject [("requested", JBool (Containment_Requested c)); ("result", JString (Containment_Result c)); ("method", JString (Containment_Method c));
    ("target_identity", JString (TargetIdentity c)); ("original_action_result", JString (OriginalActionResult c))].
Definition attribution_json (a : Attribution) : json :=
  JObject (omitempty (Attribution_RunID a == "") "run_id" (JString (Attribution_RunID a)) ++
    omitempty (Attribution_RunStatus a == "") "run_status" (JString (Attribution_RunStatus a)) ++ [("status", JString (Attribution_Status a))]).
Definition factor_json (f : Factor) : json :=
  JObject [("name", JString (Factor_Name f)); ("points", JInt (Factor_Points f)); ("detail", JString (Factor_Detail f))].
Definition candidate_json (c : Candidate) : json :=
  JObject [("checkpoint_id", JString (Candidate_CheckpointID c)); ("score", JInt (Candidate_Score c)); ("delta_ns", JInt (Candidate_DeltaNS c));
    ("factors", slice_json factor_json (Candidate_Factors c))].
Definition correlation_json (r : CorrelationResult) : json :=
  JObject ([("event_id", JString (Result_EventID r)); ("attribution", attribution_json (Result_Attribution r))] ++
    omitempty (Result_SelectedCheckpoint r == "") "selected_checkpoint_id" (JString (Result_SelectedCheckpoint r)) ++
    [("confidence", JInt (Result_Confidence r)); ("conflict", JBool (Result_Conflict r)); ("candidates", slice_json candidate_json (Result_Candidates r));
     ("correlation_status", JString (Result_CorrelationStatus r)); ("authoritative_clock", JString (Result_AuthoritativeClock r))]).
Definition event_json (e : EvidenceEvent) : json :=
  JObject [("ID", JString (EE_ID e)); ("Type", JString (EE_Type e)); ("Source", JString (EE_Source e));
    ("ServerMonotonicNS", JInt (EE_ServerMonotonicNS e)); ("ServerUnixNS", JInt (EE_ServerUnixNS e)); ("Summary", JString (EE_Summary e));
    ("Attribution", option_json evidence_attribution_json (EE_Attribution e)); ("Correlation", option_json correlation_json (EE_Correlation e));
    ("Operation", option_json operation_json (EE_Operation e)); ("Decision", option_json evidence_decision_json (EE_Decision e));
    ("Containment", option_json containment_json (EE_Containment e))].

(** ** Reading *)
(** A field into the value it has: absent and null leave it. *)
Definition read_string (base : string) (v : option json) : option string :=
  match v with None | Some JNull => Some base | Some (JString s) => Some s | _ => None end.
Definition read_bool (base : bool) (v : option json) : option bool :=
  match v with None | Some JNull => Some base | Some (JBool b) => Some b | _ => None end.
Definition read_uint (base : Z) (v : option json) : option Z :=
  match v with None | Some JNull => Some base | Some (JNumber literal) => ParseUint literal | _ => None end.
Definition read_int (base : Z) (v : option json) : option Z :=
  match v with None | Some JNull => Some base | Some (JNumber literal) => ParseInt literal | _ => None end.
Definition read_struct {A} (read : A -> list (string * json) -> option A) (base : A) (v : option json) : option A :=
  match v with None | Some JNull => Some base | Some (JObject fields) => read base fields | _ => None end.
(** Null sets a pointer to nil; an object is read into what it points to. *)
Definition read_pointer {A} (read : A -> list (string * json) -> option A) (zero : A) (base : option A) (v : option json) : option (option A) :=
  match v with
  | None => Some base
  | Some JNull => Some None
  | Some (JObject fields) => Some <$> read (default zero base) fields
  | _ => None
  end.
(** The elements that exist are read into. *)
Fixpoint read_items {A} (read : A -> list (string * json) -> option A) (zero : A) (base : list A) (l : list json) : option (list A) :=
  match l with
  | [] => Some []
  | v :: l =>
      x ← read_struct read (hd zero base) (Some v);
      xs ← read_items read zero (tl base) l;
      Some (x :: xs)
  end.
Definition read_slice {A} (read : A -> list (string * json) -> option A) (zero : A) (base : list A) (v : option json) : option (list A) :=
  match v with
  | None => Some base
  | Some JNull => Some []
  | Some (JArray l) => read_items read zero base l
  | _ => None
  end.
Definition read_evidence_attribution (base : EvidenceAttribution) (o : list (string * json)) : option EvidenceAttribution :=
  status ← read_string (EA_Status base) (field "status" o);
  runID ← read_string (EA_RunID base) (field "run_id" o);
  runStatus ← read_string (EA_RunStatus base) (field "run_status" o);
  basis ← read_string (EA_Basis base) (field "basis" o);
  Some (mkEvidenceAttribution status runID runStatus basis).
Definition read_operation (base : OperationResult) (o : list (string * json)) : option OperationResult :=
  attempt ← read_bool (AttemptObserved base) (field "attempt_observed" o);
  result ← read_string (OR_ActionResult base) (field "action_result" o);
  mechanism ← read_string (OR_Mechanism base) (field "mechanism" o);
  Some (mkOperationResult attempt result mechanism).
Definition read_evidence_decision (base : EvidenceDecision) (o : list (string * json)) : option EvidenceDecision :=
  policyID ← read_string (ED_PolicyID base) (field "policy_id" o);
  ruleID ← read_string (ED_RuleID base) (field "rule_id" o);
  requested ← read_string (ED_RequestedAction base) (field "requested_action" o);
  final ← read_string (ED_FinalDecision base) (field "final_decision" o);
  enforced ← read_bool (ED_Enforced base) (field "enforced" o);
  mechanism ← read_string (ED_Mechanism base) (field "mechanism" o);
  Some (mkEvidenceDecision policyID ruleID requested final enforced mechanism).
Definition read_containment (base : Containment) (o : list (string * json)) : option Containment :=
  requested ← read_bool (Containment_Requested base) (field "requested" o);
  result ← read_string (Containment_Result base) (field "result" o);
  method ← read_string (Containment_Method base) (field "method" o);
  target ← read_string (TargetIdentity base) (field "target_identity" o);
  original ← read_string (OriginalActionResult base) (field "original_action_result" o);
  Some (mkContainment requested result method target original).
Definition read_attribution (base : Attribution) (o : list (string * json)) : option Attribution :=
  runID ← read_string (Attribution_RunID base) (field "run_id" o);
  runStatus ← read_string (Attribution_RunStatus base) (field "run_status" o);
  status ← read_string (Attribution_Status base) (field "status" o);
  Some (mkAttribution runID runStatus status).
Definition read_factor (base : Factor) (o : list (string * json)) : option Factor :=
  name ← read_string (Factor_Name base) (field "name" o);
  points ← read_int (Factor_Points base) (field "points" o);
  detail ← read_string (Factor_Detail base) (field "detail" o);
  Some (mkFactor name points detail).
Definition no_factor : Factor := mkFactor "" 0 "".
Definition read_candidate (base : Candidate) (o : list (string * json)) : option Candidate :=
  checkpointID ← read_string (Candidate_CheckpointID base) (field "checkpoint_id" o);
  score ← read_int (Candidate_Score base) (field "score" o);
  delta ← read_int (Candidate_DeltaNS base) (field "delta_ns" o);
  factors ← read_slice read_factor no_factor (Candidate_Factors base) (field "factors" o);
  Some (mkCandidate checkpointID score delta factors).
Definition no_candidate : Candidate := mkCandidate "" 0 0 [].
Definition read_correlation (base : CorrelationResult) (o : list (string * json)) : option CorrelationResult :=
  eventID ← read_string (Result_EventID base) (field "event_id" o);
  attribution ← read_struct read_attribution (Result_Attribution base) (field "attribution" o);
  selected ← read_string (Result_SelectedCheckpoint base) (field "selected_checkpoint_id" o);
  confidence ← read_int (Result_Confidence base) (field "confidence" o);
  conflict ← read_bool (Result_Conflict base) (field "conflict" o);
  candidates ← read_slice read_candidate no_candidate (Result_Candidates base) (field "candidates" o);
  status ← read_string (Result_CorrelationStatus base) (field "correlation_status" o);
  clock ← read_string (Result_AuthoritativeClock base) (field "authoritative_clock" o);
  Some (mkCorrelationResult eventID attribution selected confidence conflict candidates status clock).
Definition read_event (base : EvidenceEvent) (o : list (string * json)) : option EvidenceEvent :=
  id ← read_string (EE_ID base) (field "ID" o);
  type ← read_string (EE_Type base) (field "Type" o);
  source ← read_string (EE_Source base) (field "Source" o);
  monotonic ← read_uint (EE_ServerMonotonicNS base) (field "ServerMonotonicNS" o);
  unix ← read_uint (EE_ServerUnixNS base) (field "ServerUnixNS" o);
  summary ← read_string (EE_Summary base) (field "Summary" o);
  attribution ← read_pointer read_evidence_attribution (mkEvidenceAttribution "" "" "" "") (EE_Attribution base) (field "Attribution" o);
  correlation ← read_pointer read_correlation (mkCorrelationResult "" (mkAttribution "" "" "") "" 0 false [] "" "") (EE_Correlation base) (field "Correlation" o);
  operation ← read_pointer read_operation (mkOperationResult false "" "") (EE_Operation base) (field "Operation" o);
  decision ← read_pointer read_evidence_decision (mkEvidenceDecision "" "" "" "" false "") (EE_Decision base) (field "Decision" o);
  containment ← read_pointer read_containment (mkContainment false "" "" "" "") (EE_Containment base) (field "Containment" o);
  Some (mkEvidenceEvent id type source monotonic unix summary attribution correlation operation decision containment).
Definition no_event : EvidenceEvent := mkEvidenceEvent "" "" "" 0 0 "" None None None None None.
(** [json.Unmarshal(payload, &event)]. *)
Definition Unmarshal_event (payload : string) (base : EvidenceEvent) : option EvidenceEvent :=
  match Decode payload with
  | Some JNull => Some base
  | Some (JObject fields) => read_event base fields
  | _ => None
  end.

(** ** Mapping the texts of a value *)
Fixpoint map_text (f : string -> string) (v : json) : json :=
  match v with
  | JString s => JString (f s)
  | JArray l => JArray (map (map_text f) l)
  | JObject fields => JObject (map (fun kv => (kv.1, map_text f kv.2)) fields)
  | _ => v
  end.
(** All the names of a value. *)
Fixpoint names_all (p : string -> bool) (v : json) : bool :=
  match v with
  | JArray l => forallb (names_all p) l
  | JObject fields => forallb (fun kv => p kv.1 && names_all p kv.2) fields
  | _ => true
  end.
Definition map_values (g : json -> json) (fields : list (string * json)) : list (string * json) := map (fun kv => (kv.1, g kv.2)) fields.
Lemma obj_set_values g key v fields : map_values g (obj_set key v fields) = obj_set key (g v) (map_values g fields).
Proof.
  induction fields as [|[k w] fields IH]; [done|]. cbn [obj_set map_values map fst snd]. destruct (str_lt key k); [done|]. destruct (str_lt k key); [|done].
  cbn [map fst snd]. unfold map_values in IH. by rewrite IH.
Qed.
Lemma set_all_values g fields : forall acc, map_values g (set_all fields acc) = set_all (map_values g fields) (map_values g acc).
Proof.
  unfold set_all. induction fields as [|[k v] fields IH]; intros acc; [done|]. change (map_values g ((k, v) :: fields)) with ((k, g v) :: map_values g fields). cbn [foldl fst snd]. by rewrite IH, obj_set_values.
Qed.
Lemma set_all_ascending fields : forall acc, ascending (map fst acc) = true -> ascending (map fst (set_all fields acc)) = true.
Proof. unfold set_all. induction fields as [|[k v] fields IH]; intros acc Ha; [done|]. cbn [foldl fst snd]. apply IH. by apply ascending_set. Qed.
Lemma set_all_sorted fields : ascending (map fst fields) = true -> set_all fields [] = fields.
Proof.
  intros Ha. assert (forall acc, Forall (fun g => forallb (str_lt g.1) (map fst fields) = true) acc -> set_all fields acc = acc ++ fields) as Hs; [|by apply (Hs [])].
  unfold set_all. induction fields as [|[k v] fields IH]; intros acc Hacc; [by rewrite app_nil_r|]. cbn [map fst ascending forallb] in *.
  apply andb_true_iff in Ha as [Hk Ha]. cbn [foldl fst snd]. rewrite obj_set_last.
  - rewrite IH; [by rewrite <-app_assoc|done|]. apply Forall_app. split; [|by constructor]. eapply Forall_impl; [exact Hacc|]. by intros g [_ ?]%andb_true_iff.
  - eapply Forall_impl; [exact Hacc|]. by intros g [? _]%andb_true_iff.
Qed.
Lemma forallb_Forall {A} (p : A -> bool) l : forallb p l = true <-> Forall (fun x => p x = true) l.
Proof. rewrite forallb_forall, Forall_forall. by setoid_rewrite list_elem_of_In. Qed.
Lemma norm_fields_valid fields : forallb (fun kv => utf8_valid kv.1) fields = true -> map (fun f => (to_valid f.1, norm f.2)) fields = map_values norm fields.
Proof.
  rewrite forallb_Forall. unfold map_values. induction 1 as [|[k v] fields Hk _ IH]; [done|]. cbn [map fst snd]. by rewrite IH, to_valid_id.
Qed.
Lemma set_all_keys (p : string * json -> bool) fields : forall acc, forallb p fields = true -> forallb p acc = true -> forallb p (set_all fields acc) = true.
Proof.
  unfold set_all. induction fields as [|[k v] fields IH]; intros acc; [done|]. cbn [foldl forallb fst snd]. intros [Hk Hf]%andb_true_iff Ha. apply IH; [done|].
  clear IH Hf. induction acc as [|[k' w] acc IHa]; cbn [obj_set forallb]; [by rewrite Hk|]. cbn [forallb] in Ha. apply andb_true_iff in Ha as [H1 H2].
  destruct (str_lt k k'); [cbn [forallb]; by rewrite Hk, H1, H2|]. destruct (str_lt k' k); cbn [forallb]; [by rewrite H1, IHa|by rewrite Hk, H2].
Qed.
Lemma list_max_elem {A} (f : A -> nat) l x : x ∈ l -> (f x <= list_max (map f l))%nat.
Proof. intros Hx. pose proof (proj1 (list_max_le (map f l) _) (le_n _)) as H. rewrite Forall_forall in H. apply H. apply list_elem_of_fmap. by exists x. Qed.
Lemma norm_names p v : names_all utf8_valid v = true -> names_all p v = true -> names_all p (norm v) = true.
Proof.
  induction v as [| b |s|s|l IH|fields IH] using json_induction; cbn [names_all norm]; try done.
  - rewrite !forallb_Forall, !Forall_forall in *. intros Hu Hp v (w & -> & Hw)%list_elem_of_fmap. by apply IH; [done|apply Hu|apply Hp].
  - intros Hu Hp. apply set_all_keys; [|done]. rewrite forallb_Forall in *. apply Forall_map. rewrite Forall_forall in *. intros [k v] Hin.
    specialize (IH _ Hin). specialize (Hu _ Hin). specialize (Hp _ Hin). cbn [fst snd] in *. apply andb_true_iff in Hu as [Hk Hu], Hp as [Hp1 Hp2].
    by rewrite to_valid_id, Hp1, IH.
Qed.
(** A printed value is read back as a canonical one, no deeper. *)
Lemma norm_shape v : printable v = true -> (depth v <= maxNestingDepth)%nat -> decode_next (Marshal v) = Some (norm v, "") /\ printable (norm v) = true /\ (depth (norm v) <= depth v)%nat.
Proof.
  intros Hp Hd. pose proof (Marshal_reads_back obj_set v (json_fuel (Marshal v)) (depth v) "" Hp (le_n _) I) as H1.
  pose proof (Marshal_reads_back obj_set v (json_fuel (Marshal v)) maxNestingDepth "" Hp Hd I) as H2. rewrite str_app_nil_r, norm_with_set in H1, H2. unfold json_fuel in H1 at 1. unfold json_fuel in H2 at 1.
  specialize (H1 ltac:(lia)). specialize (H2 ltac:(lia)). split; [done|]. apply parse_canonical in H1 as [Hc Hdv]. split; [|done]. rewrite <-(proj1 (norm_canonical _ Hc)). by apply norm_canonical; [rewrite (proj1 (norm_canonical _ Hc))].
Qed.
(** Decoding, mapping and decoding again is mapping and decoding once. *)
Lemma norm_map_norm g v : names_all utf8_valid v = true -> norm (map_text g (norm v)) = norm (map_text (fun s => g (to_valid s)) v).
Proof.
  induction v as [| b |s|s|l IH|fields IH] using json_induction; cbn [names_all norm map_text]; try done.
  - intros Hn%forallb_Forall. f_equal. rewrite !map_map. induction IH as [|v l Hv Hl IHl]; [done|]. apply Forall_cons in Hn as [H1 H2]. cbn [map]. by rewrite Hv, IHl.
  - intros Hn%forallb_Forall. f_equal.
    assert (forallb (fun kv => utf8_valid kv.1) fields = true) as Hk by (apply forallb_Forall; eapply Forall_impl; [exact Hn|]; by intros ? [? _]%andb_true_iff).
    assert (forall h, forallb (fun kv => utf8_valid kv.1) (map_values h fields) = true) as Hk'
      by (intros h; apply forallb_Forall, Forall_map; apply forallb_Forall in Hk; exact Hk).
    rewrite (norm_fields_valid fields Hk). change (map (fun kv => (kv.1, map_text g kv.2)) ?l) with (map_values (map_text g) l).
    change (map (fun kv => (kv.1, map_text (fun s => g (to_valid s)) kv.2)) ?l) with (map_values (map_text (fun s => g (to_valid s))) l).
    rewrite (norm_fields_valid (map_values _ fields)) by apply Hk'. rewrite (set_all_values (map_text g)). change (map_values (map_text g) []) with ([] : list (string * json)).
    assert (map_values (map_text g) (map_values norm fields) = map_values (fun v => map_text g (norm v)) fields) as -> by (unfold map_values; by rewrite map_map).
    rewrite (norm_fields_valid (set_all _ [])) by (by apply set_all_keys).
    rewrite (set_all_values norm). change (map_values norm []) with ([] : list (string * json)). rewrite (set_all_sorted (set_all _ [])) by (by apply set_all_ascending).
    f_equal. unfold map_values. rewrite !map_map. cbn [fst snd]. clear Hk Hk'. induction IH as [|[k v] fields Hv Hl IHl]; [done|].
    apply Forall_cons in Hn as [H1 H2]. cbn [map fst snd] in *. apply andb_true_iff in H1 as [_ H1]. by rewrite Hv, IHl.
Qed.

(** ** Redaction maps the texts *)
Section Scrub.
Context `{UnicodeTables}.
Definition plain_name (key : string) : bool := negb (sensitiveLabelKey key || EqualFold key "argv").
Definition is_text_value (v : json) : bool := match v with JString _ => true | _ => false end.
Lemma mapM_pure {E A B} (f : A -> result E B) (g : A -> B) l : Forall (fun x => f x = Ok (g x)) l -> mapM f l = Ok (map g l).
Proof. induction 1 as [|x l Hx _ IH]; [done|]. cbn. rewrite Hx. cbn. by rewrite IH. Qed.
Lemma scrub_texts secrets v : forall d, 0 <= d -> d + Z.of_nat (depth v) <= 32 -> names_all plain_name v = true -> is_text_value v = false ->
  scrubJSON secrets v d = Ok (map_text (redactText secrets) v).
Proof.
  induction v as [| b |s|s|l IH|fields IH] using json_induction; intros d Hd Hdepth Hn Ht; cbn [scrubJSON]; try done;
    (destruct (Z.ltb_spec 32 d); [cbn [depth] in Hdepth; lia|]); try done.
  - cbn [names_all depth] in *. apply forallb_Forall in Hn. rewrite (mapM_pure _ (map_text (redactText secrets))); [done|]. rewrite Forall_forall in *. intros v Hv.
    specialize (IH v Hv (d + 1)). pose proof (list_max_elem depth l v Hv). destruct v; try done; apply IH; try done; try lia; by apply Hn.
  - cbn [names_all depth] in *. apply forallb_Forall in Hn.
    rewrite (mapM_pure _ (fun kv => (kv.1, map_text (redactText secrets) kv.2))); [done|]. rewrite Forall_forall in *. intros [k v] Hv.
    specialize (IH _ Hv (d + 1)). pose proof (list_max_elem (fun f : string * json => depth f.2) fields _ Hv). specialize (Hn _ Hv). cbn [fst snd] in *.
    apply andb_true_iff in Hn as [Hk Hn]. apply negb_true_iff in Hk. rewrite Hk. destruct v; try done; rewrite IH; try done; try lia.
Qed.
(** What the redactor makes of a value with plain names, as the next reader
    decodes it. *)
Lemma scrub_payload_texts redactor v payload : printable v = true -> (depth v <= 32)%nat -> is_text_value (norm v) = false ->
  names_all utf8_valid v = true -> names_all plain_name v = true -> scrub_payload redactor (Marshal v) = Ok payload ->
  Decode payload = Some (norm (map_text (fun s => redactText redactor (to_valid s)) v)).
Proof.
  intros Hp Hd Ht Hu Hplain. unfold scrub_payload. destruct (slen (Marshal v) =? 0) eqn:El.
  { destruct (Marshal_first v Hp) as (c & s & E & _). rewrite E in El. unfold slen in El. cbn [String.length] in El. apply Z.eqb_eq in El. lia. }
  assert (forall n, (n <= 32)%nat -> (n <= maxNestingDepth)%nat) as Hmax by (intros n Hn; etrans; [exact Hn|]; apply Nat.leb_le; by vm_compute).
  destruct (norm_shape v Hp (Hmax _ Hd)) as (-> & Hpn & Hdn). pose proof (norm_names plain_name v Hu Hplain) as Hn.
  pose proof (scrub_texts redactor (norm v) 0 ltac:(lia) ltac:(lia) Hn Ht) as Hs. rewrite Hs. destruct (_ <? _); [done|]. intros [= <-].
  apply scrubJSON_printable in Hs as [Hp' Hd']; [|done]. rewrite Decode_printed; [by rewrite norm_map_norm|done|apply Hmax; lia].
Qed.
End Scrub.

(** ** Events *)
Definition map_attribution (f : string -> string) (a : Attribution) : Attribution :=
  mkAttribution (f (Attribution_RunID a)) (f (Attribution_RunStatus a)) (f (Attribution_Status a)).
Definition map_factor (f : string -> string) (x : Factor) : Factor := mkFactor (f (Factor_Name x)) (Factor_Points x) (f (Factor_Detail x)).
Definition map_candidate (f : string -> string) (c : Candidate) : Candidate :=
  mkCandidate (f (Candidate_CheckpointID c)) (Candidate_Score c) (Candidate_DeltaNS c) (map (map_factor f) (Candidate_Factors c)).
Definition map_correlation (f : string -> string) (r : CorrelationResult) : CorrelationResult :=
  mkCorrelationResult (f (Result_EventID r)) (map_attribution f (Result_Attribution r)) (f (Result_SelectedCheckpoint r)) (Result_Confidence r) (Result_Conflict r)
    (map (map_candidate f) (Result_Candidates r)) (f (Result_CorrelationStatus r)) (f (Result_AuthoritativeClock r)).
Definition map_evidence_attribution (f : string -> string) (a : EvidenceAttribution) : EvidenceAttribution :=
  mkEvidenceAttribution (f (EA_Status a)) (f (EA_RunID a)) (f (EA_RunStatus a)) (f (EA_Basis a)).
Definition map_operation (f : string -> string) (o : OperationResult) : OperationResult := mkOperationResult (AttemptObserved o) (f (OR_ActionResult o)) (f (OR_Mechanism o)).
Definition map_evidence_decision (f : string -> string) (d : EvidenceDecision) : EvidenceDecision :=
  mkEvidenceDecision (f (ED_PolicyID d)) (f (ED_RuleID d)) (f (ED_RequestedAction d)) (f (ED_FinalDecision d)) (ED_Enforced d) (f (ED_Mechanism d)).
Definition map_containment (f : string -> string) (c : Containment) : Containment :=
  mkContainment (Containment_Requested c) (f (Containment_Result c)) (f (Containment_Method c)) (f (TargetIdentity c)) (f (OriginalActionResult c)).
(** Every text of an event. *)
Definition map_event (f : string -> string) (e : EvidenceEvent) : EvidenceEvent :=
  mkEvidenceEvent (f (EE_ID e)) (f (EE_Type e)) (f (EE_Source e)) (EE_ServerMonotonicNS e) (EE_ServerUnixNS e) (f (EE_Summary e))
    (map_evidence_attribution f <$> EE_Attribution e) (map_correlation f <$> EE_Correlation e) (map_operation f <$> EE_Operation e)
    (map_evidence_decision f <$> EE_Decision e) (map_containment f <$> EE_Containment e).

Section MapEvent.
Context (f : string -> string) (Hf : forall s, f s = "" <-> s = "").
Lemma map_empty s : (f s == "") = (s == "").
Proof. by apply bool_decide_ext. Qed.
Lemma map_attribution_json a : map_text f (attribution_json a) = attribution_json (map_attribution f a).
Proof. unfold attribution_json, omitempty. cbn. rewrite !map_empty. by destruct (Attribution_RunID a == ""), (Attribution_RunStatus a == ""). Qed.
Lemma map_slice_json {A} (g : A -> json) (h : A -> A) l : (forall x, map_text f (g x) = g (h x)) -> map_text f (slice_json g l) = slice_json g (map h l).
Proof. intros Hg. destruct l as [|x l]; [done|]. cbn. rewrite Hg. do 2 f_equal. rewrite !map_map. by apply map_ext. Qed.
Lemma map_correlation_json r : map_text f (correlation_json r) = correlation_json (map_correlation f r).
Proof.
  unfold correlation_json, omitempty. cbn [map_correlation Result_EventID Result_Attribution Result_SelectedCheckpoint Result_Confidence Result_Conflict Result_Candidates Result_CorrelationStatus Result_AuthoritativeClock].
  rewrite map_empty. assert (map_text f (slice_json candidate_json (Result_Candidates r)) = slice_json candidate_json (map (map_candidate f) (Result_Candidates r))) as Hc.
  { apply map_slice_json. intros c. cbn [candidate_json map_text map fst snd]. by rewrite (map_slice_json factor_json (map_factor f)). }
  destruct (Result_SelectedCheckpoint r == ""); cbn [app map_text map fst snd]; by rewrite Hc, map_attribution_json.
Qed.
Lemma map_event_json e : map_text f (event_json e) = event_json (map_event f e).
Proof.
  unfold event_json. cbn [map_text map fst snd map_event EE_ID EE_Type EE_Source EE_ServerMonotonicNS EE_ServerUnixNS EE_Summary EE_Attribution EE_Correlation EE_Operation EE_Decision EE_Containment].
  repeat f_equal; [destruct (EE_Attribution e) as [a|]|destruct (EE_Correlation e)|destruct (EE_Operation e)|destruct (EE_Decision e)|destruct (EE_Containment e)]; try done.
  - unfold option_json, evidence_attribution_json, omitempty. cbn. rewrite !map_empty. by destruct (EA_RunID a == ""), (EA_RunStatus a == "").
  - apply map_correlation_json.
Qed.
End MapEvent.

(** The names of an event's object and its parts. *)
Definition event_names : list string :=
  ["ID"; "Type"; "Source"; "ServerMonotonicNS"; "ServerUnixNS"; "Summary"; "Attribution"; "Correlation"; "Operation"; "Decision"; "Containment";
   "status"; "run_id"; "run_status"; "basis"; "attempt_observed"; "action_result"; "mechanism"; "policy_id"; "rule_id"; "requested_action"; "final_decision";
   "enforced"; "requested"; "result"; "method"; "target_identity"; "original_action_result"; "name"; "points"; "detail"; "checkpoint_id"; "score"; "delta_ns";
   "factors"; "event_id"; "attribution"; "selected_checkpoint_id"; "confidence"; "conflict"; "candidates"; "correlation_status"; "authoritative_clock"].
Lemma names_slice {A} p (g : A -> json) l : (forall x, names_all p (g x) = true) -> names_all p (slice_json g l) = true.
Proof. intros Hg. destruct l as [|x l]; [done|]. unfold slice_json. cbn [names_all]. apply forallb_Forall, Forall_map, Forall_forall. auto. Qed.
Lemma event_names_all p e : forallb p event_names = true -> names_all p (event_json e) = true.
Proof.
  cbn [forallb event_names]. rewrite !andb_true_iff. intros Hp. destruct_and?. unfold event_json. cbn [names_all forallb fst snd].
  assert (forall a, names_all p (attribution_json a) = true) as Ha by (intros a; unfold attribution_json, omitempty; destruct (Attribution_RunID a == ""), (Attribution_RunStatus a == ""); cbn; by repeat (apply andb_true_iff; split)).
  assert (forall l, names_all p (slice_json candidate_json l) = true) as Hc.
  { intros l. apply names_slice. intros c. cbn [candidate_json names_all forallb fst snd]. rewrite names_slice; [by repeat (apply andb_true_iff; split)|]. intros x. cbn. by repeat (apply andb_true_iff; split). }
  repeat (apply andb_true_iff; split); try done.
  - destruct (EE_Attribution e) as [a|]; [|done]. unfold option_json, evidence_attribution_json, omitempty. destruct (EA_RunID a == ""), (EA_RunStatus a == ""); cbn; by repeat (apply andb_true_iff; split).
  - destruct (EE_Correlation e) as [r|]; [|done]. unfold option_json, correlation_json, omitempty. destruct (Result_SelectedCheckpoint r == ""); cbn [app names_all forallb fst snd]; rewrite Ha, Hc; by repeat (apply andb_true_iff; split).
  - destruct (EE_Operation e); cbn; [by repeat (apply andb_true_iff; split)|done].
  - destruct (EE_Decision e); cbn; [by repeat (apply andb_true_iff; split)|done].
  - destruct (EE_Containment e); cbn; [by repeat (apply andb_true_iff; split)|done].
Qed.

(** ** Reading back *)
Definition int_ok (z : Z) : Prop := - i64_max - 1 <= z <= i64_max.
Definition candidate_ok (c : Candidate) : Prop := int_ok (Candidate_Score c) /\ int_ok (Candidate_DeltaNS c) /\ Forall (fun f => int_ok (Factor_Points f)) (Candidate_Factors c).
(** The integers of an event at their widths. *)
Record event_widths (e : EvidenceEvent) : Prop := {
  event_monotonic : 0 <= EE_ServerMonotonicNS e <= u64_max;
  event_unix : 0 <= EE_ServerUnixNS e <= u64_max;
  event_correlation r : EE_Correlation e = Some r -> int_ok (Result_Confidence r) /\ Forall candidate_ok (Result_Candidates r);
}.
Lemma FormatInt_uint z : 0 <= z -> FormatInt z = FormatUint z.
Proof. intros Hz. unfold FormatInt. destruct (Z.ltb_spec z 0); [lia|done]. Qed.
Lemma event_printable e : printable (event_json e) = true /\ (depth (event_json e) <= 6)%nat.
Proof.
  assert (forall z, printable (JInt z) = true) as Hi by (intros z; cbn; apply bool_decide_eq_true, FormatInt_literal).
  assert (forall {A} (g : A -> json) l n, (forall x, printable (g x) = true /\ (depth (g x) <= n)%nat) -> printable (slice_json g l) = true /\ (depth (slice_json g l) <= S n)%nat) as Hsl.
  { intros A g l n Hg. destruct l as [|x l]; [cbn; split; [done|lia]|]. unfold slice_json. split.
    - cbn [printable]. apply forallb_Forall, Forall_map, Forall_forall. intros y _. apply Hg.
    - cbn [depth]. apply le_n_S, list_max_le. rewrite map_map. apply Forall_map, Forall_forall. intros y _. apply Hg. }
  assert (forall a, printable (attribution_json a) = true /\ (depth (attribution_json a) <= 1)%nat) as Ha
    by (intros a; unfold attribution_json, omitempty; destruct (Attribution_RunID a == ""), (Attribution_RunStatus a == ""); cbn; split; (done || lia)).
  assert (forall c, printable (candidate_json c) = true /\ (depth (candidate_json c) <= 3)%nat) as Hc.
  { intros c. destruct (Hsl _ factor_json (Candidate_Factors c) 1%nat) as [H1 H2]; [intros x; cbn [factor_json printable forallb fst snd]; rewrite Hi; cbn; split; (done || lia)|].
    unfold candidate_json. cbn [printable forallb fst snd depth map list_max foldr]. rewrite !Hi, H1. split; [reflexivity|unfold JInt; cbn [depth]; lia]. }
  assert (forall r, printable (correlation_json r) = true /\ (depth (correlation_json r) <= 5)%nat) as Hr.
  { intros r. destruct (Hsl _ candidate_json (Result_Candidates r) 3%nat Hc) as [H1 H2]. destruct (Ha (Result_Attribution r)) as [H3 H4].
    unfold correlation_json, omitempty. destruct (Result_SelectedCheckpoint r == ""); cbn [app printable forallb fst snd depth map list_max foldr]; rewrite !Hi, H1, H3; (split; [reflexivity|unfold JInt; cbn [depth]; lia]). }
  unfold event_json. cbn [printable forallb fst snd depth map list_max foldr]. rewrite !Hi.
  assert (printable (option_json correlation_json (EE_Correlation e)) = true /\ (depth (option_json correlation_json (EE_Correlation e)) <= 5)%nat) as [H1 H2]
    by (destruct (EE_Correlation e); [apply Hr|cbn; split; [done|lia]]).
  assert (printable (option_json evidence_attribution_json (EE_Attribution e)) = true /\ (depth (option_json evidence_attribution_json (EE_Attribution e)) <= 1)%nat) as [H3 H4]
    by (destruct (EE_Attribution e) as [a|]; [unfold option_json, evidence_attribution_json, omitempty; destruct (EA_RunID a == ""), (EA_RunStatus a == "")|]; cbn; split; (done || lia)).
  rewrite H1, H3. destruct (EE_Operation e), (EE_Decision e), (EE_Containment e); (split; [reflexivity|unfold JInt; cbn [option_json operation_json evidence_decision_json containment_json depth map snd list_max foldr]; lia]).
Qed.

(** *** Fields of a decoded object *)
Lemma field_obj_set name key v fields : Redact.field name (obj_set key v fields) = if key == name then Some v else Redact.field name fields.
Proof.
  induction fields as [|[k w] fields IH]; [done|]. cbn [obj_set]. destruct (str_lt key k) eqn:E1; [done|]. destruct (str_lt k key) eqn:E2.
  - cbn [Redact.field]. rewrite IH. destruct (k == name) eqn:Ek; [|done]. apply bool_decide_eq_true in Ek as ->. destruct (key == name) eqn:Ek; [|done].
    apply bool_decide_eq_true in Ek as ->. by rewrite str_lt_irrefl in E2.
  - assert (key = k) as -> by (by apply str_lt_total). cbn [Redact.field]. by destruct (k == name).
Qed.
Lemma field_set_all name fields : NoDup (map fst fields) -> forall acc,
  Redact.field name (set_all fields acc) = match Redact.field name fields with Some v => Some v | None => Redact.field name acc end.
Proof.
  unfold set_all. induction fields as [|[k v] fields IH]; intros Hn acc; [done|]. cbn [map fst] in Hn. apply NoDup_cons in Hn as [Hk Hn].
  cbn [foldl Redact.field fst snd]. rewrite IH, field_obj_set by done. destruct (k == name) eqn:E; [|done]. apply bool_decide_eq_true in E as ->.
  assert (Redact.field name fields = None) as ->; [|done]. clear IH Hn. induction fields as [|[k' v'] fields IH]; [done|]. cbn [Redact.field map fst] in *.
  rewrite bool_decide_eq_false_2 by (intros ->; apply Hk; left). apply IH. intros Hin. apply Hk. by right.
Qed.
(** A field of a printed and decoded object. *)
Lemma field_decoded name fields : NoDup (map fst fields) -> forallb (fun kv => utf8_valid kv.1) fields = true ->
  Redact.field name (set_all (map (fun f => (to_valid f.1, norm f.2)) fields) []) = norm <$> Redact.field name fields.
Proof.
  intros Hn Hu. rewrite norm_fields_valid by done. rewrite field_set_all.
  - clear. induction fields as [|[k v] fields IH]; [done|]. cbn [map_values map Redact.field fst snd]. destruct (k == name); [done|]. exact IH.
  - unfold map_values. by rewrite map_map.
Qed.
(** Rewrite the fields of a decoded object with known names. *)
Ltac read_fields :=
  repeat match goal with
  | |- context [Redact.field ?k (set_all (map _ ?fs) [])] =>
      rewrite (field_decoded k fs) by (first [ by apply (bool_decide_unpack _); vm_compute | by vm_compute ])
  end;
  cbn [Redact.field app]; go_consts; cbn [fmap option_fmap option_map].
Lemma read_back_operation base o : read_pointer read_operation (mkOperationResult false "" "") base (Some (norm (operation_json o))) = Some (Some (map_operation to_valid o)).
Proof. cbn [operation_json norm read_pointer]. unfold read_operation. read_fields. done. Qed.
Lemma read_back_decision zero base d : read_pointer read_evidence_decision zero base (Some (norm (evidence_decision_json d))) = Some (Some (map_evidence_decision to_valid d)).
Proof. cbn [evidence_decision_json norm read_pointer]. unfold read_evidence_decision. read_fields. done. Qed.
Lemma read_back_containment zero base c : read_pointer read_containment zero base (Some (norm (containment_json c))) = Some (Some (map_containment to_valid c)).
Proof. cbn [containment_json norm read_pointer]. unfold read_containment. read_fields. done. Qed.
Lemma read_back_factor base f : int_ok (Factor_Points f) -> read_struct read_factor base (Some (norm (factor_json f))) = Some (map_factor to_valid f).
Proof.
  intros Hi. cbn [factor_json norm read_struct]. unfold read_factor. read_fields. unfold JInt. cbn [norm read_int]. by rewrite ParseInt_signed.
Qed.
Lemma read_back_slice {A} (read : A -> list (string * json) -> option A) zero (g : A -> json) (h : A -> A) (P : A -> Prop) l :
  (forall base x, P x -> read_struct read base (Some (norm (g x))) = Some (h x)) -> Forall P l ->
  forall base, read_slice read zero base (Some (norm (slice_json g l))) = Some (map h l).
Proof.
  intros Hg Hl base. destruct l as [|x l]; [done|]. unfold slice_json. cbn [norm read_slice]. revert base. induction Hl as [|y l' Hy Hl IH]; intros base; [done|].
  cbn [map read_items]. rewrite Hg by done. cbn. by rewrite IH.
Qed.
Lemma read_back_candidate base c : candidate_ok c -> read_struct read_candidate base (Some (norm (candidate_json c))) = Some (map_candidate to_valid c).
Proof.
  intros (H1 & H2 & H3). cbn [candidate_json norm read_struct]. unfold read_candidate. read_fields.
  rewrite (read_back_slice read_factor no_factor factor_json (map_factor to_valid) (fun f => int_ok (Factor_Points f))) by (done || apply read_back_factor).
  unfold JInt. cbn [norm read_int]. by rewrite !ParseInt_signed.
Qed.
Lemma to_valid_empty s : to_valid s = "" <-> s = "".
Proof.
  split; [|by intros ->]. intros E. destruct (decide (s = "")) as [|Hne]; [done|]. exfalso. destruct s as [|c s]; [done|].
  pose proof (runes_scalar (String c s)) as Hsc. unfold to_valid in E. destruct (runes (String c s)) as [|rn l] eqn:Er; [done|].
  apply Forall_cons in Hsc as [Hr _]. cbn [map] in E. rewrite encoded_cons in E. destruct (rune_string_first rn.1 Hr) as (d & t & Ed & _). by rewrite Ed in E.
Qed.
(** A text that is left out reads as the base's. *)
Lemma read_back_attribution base a : (Attribution_RunID a = "" -> Attribution_RunID base = "") -> (Attribution_RunStatus a = "" -> Attribution_RunStatus base = "") ->
  read_struct read_attribution base (Some (norm (attribution_json a))) = Some (map_attribution to_valid a).
Proof.
  intros H1 H2. unfold attribution_json, omitempty, map_attribution. cbn [norm read_struct].
  destruct (Attribution_RunID a == "") eqn:E1, (Attribution_RunStatus a == "") eqn:E2; cbn [app]; cbn [norm read_struct]; unfold read_attribution; read_fields; cbn;
    try apply bool_decide_eq_true in E1; try apply bool_decide_eq_true in E2; rewrite ?H1, ?H2, ?E1, ?E2 by done; done.
Qed.
Lemma read_back_evidence_attribution zero base a :
  (EA_RunID a = "" -> EA_RunID (default zero base) = "") -> (EA_RunStatus a = "" -> EA_RunStatus (default zero base) = "") ->
  read_pointer read_evidence_attribution zero base (Some (norm (evidence_attribution_json a))) = Some (Some (map_evidence_attribution to_valid a)).
Proof.
  intros H1 H2. unfold evidence_attribution_json, omitempty, map_evidence_attribution. cbn [norm read_pointer].
  destruct (EA_RunID a == "") eqn:E1, (EA_RunStatus a == "") eqn:E2; cbn [app]; cbn [norm read_pointer]; unfold read_evidence_attribution; read_fields; cbn;
    try apply bool_decide_eq_true in E1; try apply bool_decide_eq_true in E2; rewrite ?H1, ?H2, ?E1, ?E2 by done; done.
Qed.
Lemma read_back_correlation zero base r : int_ok (Result_Confidence r) -> Forall candidate_ok (Result_Candidates r) ->
  (Attribution_RunID (Result_Attribution r) = "" -> Attribution_RunID (Result_Attribution (default zero base)) = "") ->
  (Attribution_RunStatus (Result_Attribution r) = "" -> Attribution_RunStatus (Result_Attribution (default zero base)) = "") ->
  (Result_SelectedCheckpoint r = "" -> Result_SelectedCheckpoint (default zero base) = "") ->
  read_pointer read_correlation zero base (Some (norm (correlation_json r))) = Some (Some (map_correlation to_valid r)).
Proof.
  intros Hi Hc H1 H2 H3. unfold correlation_json, omitempty. cbn [norm read_pointer].
  destruct (Result_SelectedCheckpoint r == "") eqn:E; cbn [app norm read_pointer]; unfold read_correlation; read_fields;
    rewrite read_back_attribution by done;
    rewrite (read_back_slice read_candidate no_candidate candidate_json (map_candidate to_valid) candidate_ok) by (done || apply read_back_candidate);
    unfold JInt; cbn [norm read_int]; rewrite ParseInt_signed by done; cbn; unfold map_correlation; [|done].
  apply bool_decide_eq_true in E. by rewrite (H3 E), E.
Qed.
(** The texts that are left out when empty, of a base to read over. *)
Definition covers (base e : EvidenceEvent) : Prop :=
  (forall a a0, EE_Attribution e = Some a -> EE_Attribution base = Some a0 -> (EA_RunID a = "" -> EA_RunID a0 = "") /\ (EA_RunStatus a = "" -> EA_RunStatus a0 = "")) /\
  (forall r r0, EE_Correlation e = Some r -> EE_Correlation base = Some r0 ->
    (Attribution_RunID (Result_Attribution r) = "" -> Attribution_RunID (Result_Attribution r0) = "") /\
    (Attribution_RunStatus (Result_Attribution r) = "" -> Attribution_RunStatus (Result_Attribution r0) = "") /\
    (Result_SelectedCheckpoint r = "" -> Result_SelectedCheckpoint r0 = "")).
Lemma read_back_event base e : event_widths e -> covers base e ->
  (exists fields, norm (event_json e) = JObject fields /\ read_event base fields = Some (map_event to_valid e)).
Proof.
  intros [Hm Hu Hr] [Ha Hc]. unfold event_json. cbn [norm]. eexists. split; [reflexivity|]. unfold read_event. read_fields.
  unfold JInt. cbn [norm read_string read_uint]. rewrite !FormatInt_uint, !ParseUint_FormatUint by lia. cbn [mbind option_bind].
  match goal with |- context [read_pointer read_evidence_attribution ?z ?b ?v] => assert (read_pointer read_evidence_attribution z b v = Some (map_evidence_attribution to_valid <$> EE_Attribution e)) as -> end.
  { destruct (EE_Attribution e) as [a|]; [|done]. cbn [option_json]. apply read_back_evidence_attribution; destruct (EE_Attribution base) as [a0|]; try done; by apply (Ha a a0). }
  match goal with |- context [read_pointer read_correlation ?z ?b ?v] => assert (read_pointer read_correlation z b v = Some (map_correlation to_valid <$> EE_Correlation e)) as -> end.
  { destruct (EE_Correlation e) as [r|]; [|done]. cbn [option_json]. destruct (Hr r eq_refl) as [Hi Hf]. apply read_back_correlation; try done; destruct (EE_Correlation base) as [r0|]; try done; by apply (Hc r r0). }
  unfold map_event. destruct (EE_Operation e), (EE_Decision e), (EE_Containment e); cbn [option_json]; rewrite ?read_back_operation, ?read_back_decision, ?read_back_containment; done.
Qed.

(** ** A stored event *)
Lemma replace_all_empty fuel s old : (String.length s <= fuel)%nat -> replace_all fuel s old marker = "" <-> s = "".
Proof. destruct fuel as [|fuel], s as [|c s]; intros Hl; try done; [cbn in Hl; lia|]. cbn [replace_all]. destruct (HasPrefix _ _); done. Qed.
Lemma redactText_empty secrets s : redactText secrets s = "" <-> s = "".
Proof.
  unfold redactText. assert (ReplaceAllString credentialPattern s marker = "" <-> s = "") as <-.
  { unfold ReplaceAllString. destruct (glyphs_spell s) as [Es Hg]. destruct (glyphs s) as [|g l].
    - cbn in Es. by rewrite <-Es.
    - apply Forall_cons in Hg as [Hg _]. rewrite spell_cons in Es. cbn [length replace_go]. destruct (match_here _ _); destruct g as [r [|c t]]; cbn in *; try done; split; try done; by intros ->. }
  generalize (ReplaceAllString credentialPattern s marker). induction secrets as [|x secrets IH]; intros t; [done|]. cbn [foldl]. rewrite IH. by apply replace_all_empty.
Qed.

(** The tables on ASCII: capitals and small letters, and nothing else. *)
Class AsciiCase `{UnicodeTables} : Prop := {
  lower_ascii r : 0 <= r < 128 -> lower_rune r = ascii_lower r;
  fold_ascii r s : 0 <= r < 128 -> 0 <= s < 128 -> fold_rune r = fold_rune s -> ascii_lower r = ascii_lower s;
}.
Lemma ascii_tables_case : AsciiCase (H := ascii_tables).
Proof. by split. Qed.
Section Names.
Context `{AsciiCase}.
Definition is_ascii_text (s : string) : bool := forallb (fun rn => (0 <=? rn.1) && (rn.1 <? 128)) (runes s).
Lemma ToLower_ascii s : is_ascii_text s = true -> ToLower s = ToLower (H := ascii_tables) s.
Proof.
  unfold is_ascii_text, ToLower. intros Hs%forallb_Forall. do 2 f_equal. induction Hs as [|rn l Hr _ IH]; [done|]. cbn [map]. rewrite IH. f_equal. f_equal. apply lower_ascii. lia.
Qed.
Lemma EqualFold_ascii s t : is_ascii_text s = true -> is_ascii_text t = true -> EqualFold s t = true -> EqualFold (H := ascii_tables) s t = true.
Proof.
  unfold is_ascii_text, EqualFold. intros Hs%forallb_Forall Ht%forallb_Forall E%bool_decide_eq_true. apply bool_decide_eq_true. revert Ht E. generalize (runes t). induction Hs as [|rn l Hr _ IH]; intros [|tn l'] Ht E; try done.
  apply Forall_cons in Ht as [Htn Ht]. cbn [map] in *. injection E as E1 E2. f_equal; [|by apply IH]. apply fold_ascii; [lia..|done].
Qed.
Lemma plain_name_ascii key : is_ascii_text key = true -> plain_name (H := ascii_tables) key = true -> plain_name key = true.
Proof.
  intros Ha. unfold plain_name. rewrite !negb_true_iff, !orb_false_iff. unfold sensitiveLabelKey. rewrite ToLower_ascii by done. intros [-> Hf]. split; [done|].
  apply not_true_is_false. intros E. apply EqualFold_ascii in E; [congruence|done|by vm_compute].
Qed.
Lemma event_names_plain : forallb plain_name event_names = true.
Proof.
  apply forallb_Forall. assert (Forall (fun k => is_ascii_text k = true /\ plain_name (H := ascii_tables) k = true) event_names) as Hall.
  { apply Forall_forall. intros k Hk. apply andb_true_iff. revert k Hk. apply Forall_forall, (forallb_Forall (fun k => is_ascii_text k && plain_name (H := ascii_tables) k)). by vm_compute. }
  eapply Forall_impl; [exact Hall|]. intros k [Ha Hp]. by apply plain_name_ascii.
Qed.
Lemma covers_map f e : (forall s, f s = "" <-> s = "") -> covers e (map_event f e).
Proof.
  intros Hf. unfold covers, map_event. cbn. split.
  - intros a a0 Ha Ha0. rewrite Ha0 in Ha. injection Ha as <-. cbn. rewrite !Hf. done.
  - intros r r0 Hr Hr0. rewrite Hr0 in Hr. injection Hr as <-. cbn. rewrite !Hf. done.
Qed.
Lemma event_widths_map f e : event_widths e -> event_widths (map_event f e).
Proof.
  intros [H1 H2 H3]. split; [done|done|]. cbn. intros r Hr. destruct (EE_Correlation e) as [r0|]; [|done]. injection Hr as <-. destruct (H3 r0 eq_refl) as [Hc Hall].
  split; [done|]. cbn. apply Forall_map. eapply Forall_impl; [exact Hall|]. intros c (Hs & Hd & Hfs). split_and!; [done..|]. cbn. apply Forall_map. exact Hfs.
Qed.
(** The payload a redactor leaves of a written event reads, over the event
    itself or over a zero event, as the event with each text redacted. *)
Lemma stored_event redactor e payload base : event_widths e -> base = e \/ base = no_event ->
  scrub_payload redactor (Marshal (event_json e)) = Ok payload ->
  Unmarshal_event payload base = Some (map_event to_valid (map_event (fun s => redactText redactor (to_valid s)) e)).
Proof.
  intros He Hbase Hp. set (f := fun s => redactText redactor (to_valid s)). assert (forall s, f s = "" <-> s = "") as Hf by (intros s; unfold f; by rewrite redactText_empty, to_valid_empty).
  destruct (event_printable e) as [Hpr Hd]. assert (Decode payload = Some (norm (event_json (map_event f e)))) as Hdec.
  { rewrite <-(map_event_json f Hf). eapply scrub_payload_texts; try done; [lia|apply event_names_all; by vm_compute|apply event_names_all, event_names_plain]. }
  unfold Unmarshal_event. rewrite Hdec. destruct (read_back_event base (map_event f e) (event_widths_map f e He)) as (fields & -> & Hr); [|exact Hr].
  destruct Hbase as [->| ->]; [by apply covers_map|done].
Qed.
End Names.
