(* ===== verification/EvidenceApi.v ===== *)
(** * The evidence endpoint over the stream ([internal/api/evidence.go])

    The recovery window of the hub, shown as a timeline: each message of the
    run is projected into an evidence event whose identifier carries the
    message's sequence number. *)
From S2P Require Import Prelude GoStd GoTime Json Crypto Redact Hub Correlator Evidence EvidenceCodec JsonSink StreamHandler Overview.
Open Scope Z_scope.

(** ** Numbers of an [any]
    [json.Unmarshal] into an [any] reads a number as the nearest [float64],
    halves to even; a number beyond the largest one is an error. *)
(** [strconv] stops accumulating an exponent of five digits. *)
Definition exponent_value (s : string) : Z := foldl (fun v c => if v <? 10000 then 10 * v + (byte_val c - 48) else v) 0 (String.list_ascii_of_string s).
(** The sign, the mantissa and the exponent of ten of a literal. *)
Definition literal_parts (s : string) : bool * Z * Z :=
  let (negative, s) := match s with String c s' => if c == "-"%char then (true, s') else (false, s) | EmptyString => (false, s) end in
  let (int, s) := span_digits s in
  let (frac, s) := match s with String c s' => if c == "."%char then span_digits s' else (EmptyString, s) | EmptyString => (EmptyString, s) end in
  let exponent := match s with
    | String _ s' => let (sign, s'') := scan_sign s' in let e := exponent_value (span_digits s'').1 in if sign == "-" then - e else e
    | EmptyString => 0
    end in
  (negative, digits_value (int +:+ frac), exponent - slen frac).
(** The nearest [q * 2 ^ k] with [q] of at most 53 bits. *)
Definition scale (num den k : Z) : Z * Z := if k <? 0 then (num * 2 ^ (- k), den) else (num, den * 2 ^ k).
Definition float_exponent (num den : Z) : Z :=
  let k := Z.log2 num - Z.log2 den - 52 in
  let (n, d) := scale num den k in
  Z.max (if n <? 2 ^ 52 * d then k - 1 else k) (- 1074).
Definition round_half_even (n d : Z) : Z :=
  let q := n / d in let r := n mod d in if (d <? 2 * r) || ((2 * r =? d) && Z.odd q) then q + 1 else q.
Definition float_round (num den : Z) : Z * Z :=
  if num =? 0 then (0, 0) else let k := float_exponent num den in let (n, d) := scale num den k in (round_half_even n d, k).
Definition float_of (s : string) : option (bool * Z * Z) :=
  let '(negative, m, e) := literal_parts s in
  let (q, k) := float_round (m * 10 ^ Z.max e 0) (10 ^ Z.max (- e) 0) in
  if (0 <=? k) && (2 ^ 1024 <=? q * 2 ^ k) then None else Some (negative, q, k).
(** The conversion to [uint64] of a value it does not represent is up to the
    machine. *)
Class FloatConversion := uint64_unrepresented : bool -> Z -> Z.
Definition uint64_of_float `{FloatConversion} (f : bool * Z * Z) : Z :=
  let '(negative, q, k) := f in
  let v := if k <? 0 then q / 2 ^ (- k) else q * 2 ^ k in
  if (negative && negb (v =? 0)) || (u64_max <? v) then uint64_unrepresented negative v else v.
Fixpoint numbers_fit (v : json) : bool :=
  match v with
  | JNumber s => match float_of s with Some _ => true | None => false end
  | JArray l => forallb numbers_fit l
  | JObject fields => forallb (fun kv => numbers_fit kv.2) fields
  | _ => true
  end.

(** ** Fields of a payload *)
(** A nil map has no fields. *)
Definition Values := list (string * json).
Definition UnmarshalValues (payload : string) : option Values :=
  match Decode payload with
  | Some JNull => Some []
  | Some (JObject fields) => if numbers_fit (JObject fields) then Some fields else None
  | _ => None
  end.
Definition stringField (values : Values) (key fallback : string) : string :=
  match Redact.field key values with Some (JString value) => if value != "" then value else fallback | _ => fallback end.
Definition boolField (values : Values) (key : string) : bool := match Redact.field key values with Some (JBool value) => value | _ => false end.
Section Projection.
Context `{FloatConversion}.
Definition decimalField (values : Values) (key : string) : string :=
  match Redact.field key values with
  | Some (JString value) => value
  | Some (JNumber s) => match float_of s with Some f => FormatUint (uint64_of_float f) | None => "0" end
  | _ => "0"
  end.
Definition containmentTargetIdentity (payload : Values) : string :=
  let cgroupID := decimalField payload "cgroup_id" in
  let instanceID := decimalField payload "instance_id" in
  let scopeCookie := decimalField payload "scope_cookie" in
  if (cgroupID == "0") || (instanceID == "0") || (scopeCookie == "0") then "unknown"
  else "cgroup_id=" +:+ cgroupID +:+ ",instance_id=" +:+ instanceID +:+ ",scope_cookie=" +:+ scopeCookie.
(** [for index := range summary]: the last rune that starts at 4093 or before. *)
Fixpoint last_start (rs : list (Z * nat)) (index end_ : nat) : nat :=
  match rs with
  | [] => end_
  | (_, width) :: rs' => if (4093 <? Z.of_nat index) then end_ else last_start rs' (index + width) index
  end.
Definition boundedSummary (summary : string) : string :=
  if slen summary <=? 4096 then summary else str_take (last_start (runes summary) 0 0) summary +:+ "...".
Definition evidenceSummary (eventType : string) (payload : Values) : string :=
  match match Redact.field "summary" payload with Some (JString summary) => if summary != "" then Some summary else None | _ => None end with
  | Some summary => boundedSummary summary
  | None =>
      let subject := stringField payload "data" "" in
      let subject := if subject == "" then
          match Redact.field "dst_ip" payload with
          | Some (JString destination) => if destination != "" then destination +:+ ":" +:+ decimalField payload "dst_port" else subject
          | _ => subject
          end
        else subject in
      if subject != "" then boundedSummary (eventType +:+ " observed: " +:+ subject) else eventType +:+ " record observed"
  end.
Definition kernelMechanism (eventType : string) (payload : Values) : string :=
  if eventType == "exec_attempt" then "tracepoint/sys_enter_execve"
  else if eventType == "file_open" then "tracepoint/sys_enter_openat"
  else if eventType == "net_connect" then if stringField payload "family_name" "ipv4" == "ipv6" then "cgroup/connect6" else "cgroup/connect4"
  else "kernel_hook".
Definition decisionMechanism (final : Values) (eventType : string) : string :=
  if boolField final "enforced" && (eventType == "net_connect") then "cgroup/connect hook" else "post_event evaluation".

Inductive ProjectionError := InvalidMonotonicTime | InvalidUnixTime | PayloadUndecodable.
(** [None] where the message is left out. *)
Definition evidenceEvent (m : Message) : result ProjectionError (option EvidenceEvent) :=
  match ParseUint (Message_ServerMonotonicNS m) with
  | None => Err InvalidMonotonicTime
  | Some monotonic => if monotonic =? 0 then Err InvalidMonotonicTime else
  match ParseUint (Message_ServerUnixNS m) with
  | None => Err InvalidUnixTime
  | Some unix => if unix =? 0 then Err InvalidUnixTime else
  match UnmarshalValues (Message_Payload m) with
  | None => Err PayloadUndecodable
  | Some payload =>
      let event source operation decision containment :=
        Some (mkEvidenceEvent (Message_ID m) (Message_EventType m) source monotonic unix (evidenceSummary (Message_EventType m) payload)
                None None operation decision containment) in
      Ok (if Message_Source m == AgentClaim then event AgentClaim None None None
          else if Message_Source m == KernelFact then
            event KernelFact (Some (mkOperationResult true (stringField payload "action_result_name" "unknown") (kernelMechanism (Message_EventType m) payload))) None None
          else if Message_Source m == PolicyDecision then
            match Redact.field "final" payload with
            | Some (JObject final) =>
                event PolicyDecision None (Some (mkEvidenceDecision (stringField final "policy_id" "unknown") (decimalField final "rule_id")
                  (stringField final "requested_action" "unknown") (stringField final "policy_decision" "unknown") (boolField final "enforced")
                  (decisionMechanism final (stringField payload "event_type_name" (Message_EventType m))))) None
            | _ => None
            end
          else if Message_Source m == ContainmentResult then
            event ContainmentResult None None (Some (mkContainment (stringField payload "requested_action" "" == "contain")
              (stringField payload "enforcement_result" "unknown") (stringField payload "enforcement_method" "unknown")
              (containmentTargetIdentity payload) (stringField payload "syscall_result" "unknown")))
          else None)
  end end end.
Definition with_id (e : EvidenceEvent) (id : string) : EvidenceEvent :=
  mkEvidenceEvent id (EE_Type e) (EE_Source e) (EE_ServerMonotonicNS e) (EE_ServerUnixNS e) (EE_Summary e) (EE_Attribution e) (EE_Correlation e)
    (EE_Operation e) (EE_Decision e) (EE_Containment e).
Definition stream_id (id sequence : string) : string := id +:+ "@stream-" +:+ sequence.

(** ** The provider *)
Definition evidenceSnapshotLimit : Z := 1000.
Definition evidenceSnapshotBytes : Z := 4194304.
Inductive EvidenceError :=
  | InvalidEvidenceRun | EvidenceContextRequired | EvidenceCancelled | EvidenceSnapshot (e : HubError) | EvidenceProjection (e : ProjectionError)
  | EvidenceTimeline (e : TimelineError).
(** The loop over the messages; [cancelled] answers the calls of [ctx.Err]. *)
Fixpoint project (cancelled : nat -> bool) (i : nat) (messages : list Message) : result EvidenceError (list EvidenceEvent) :=
  match messages with
  | [] => Ok []
  | m :: messages' =>
      if cancelled i then Err EvidenceCancelled
      else match evidenceEvent m with
      | Err e => Err (EvidenceProjection e)
      | Ok event =>
          events ← project cancelled (S i) messages';
          Ok (match event with Some event => [with_id event (stream_id (EE_ID event) (Message_Sequence m))] | None => [] end ++ events)
      end
  end.
(** [slot]: whether the [select] took one of the snapshot slots rather than
    the end of the context. *)
Definition StreamEvidence (hub : Hub) (ctx : option (nat -> bool)) (slot : bool) (runID : string) (now : Time) : Hub * result EvidenceError Timeline :=
  if (runID == "") || (128 <? slen runID) then (hub, Err InvalidEvidenceRun)
  else match ctx with
  | None => (hub, Err EvidenceContextRequired)
  | Some cancelled =>
      if negb slot then (hub, Err EvidenceCancelled)
      else match Snapshot hub ctx (mkFilter runID "" "" true) evidenceSnapshotLimit evidenceSnapshotBytes now with
      | (hub, Err e) => (hub, Err (EvidenceSnapshot e))
      | (hub, Ok messages) =>
          (hub, match project cancelled (S (length messages)) messages with
                | Err e => Err e
                | Ok events => match Build runID events with Ok t => Ok t | Err e => Err (EvidenceTimeline e) end
                end)
      end
  end.
End Projection.
Definition item_json (i : Item) : json :=
  JObject ([("sequence", JString (Item_Sequence i)); ("id", JString (Item_ID i)); ("type", JString (Item_Type i)); ("source", JString (Item_Source i));
      ("server_monotonic_ns", JString (Item_ServerMonotonicNS i)); ("server_unix_ns", JString (Item_ServerUnixNS i)); ("summary", JString (Item_Summary i))] ++
    omitempty (is_none (Item_Attribution i)) "attribution" (option_json evidence_attribution_json (Item_Attribution i)) ++
    omitempty (is_none (Item_Correlation i)) "correlation" (option_json correlation_json (Item_Correlation i)) ++
    omitempty (is_none (Item_Operation i)) "operation" (option_json operation_json (Item_Operation i)) ++
    omitempty (is_none (Item_Decision i)) "decision" (option_json evidence_decision_json (Item_Decision i)) ++
    omitempty (is_none (Item_Containment i)) "containment" (option_json containment_json (Item_Containment i))).
Definition timeline_json (t : Timeline) : json :=
  JObject [("schema_version", JString (Timeline_SchemaVersion t)); ("run_id", JString (Timeline_RunID t)); ("items", JArray (map item_json (Timeline_Items t)))].
(** [provider]: what the provider answers for the run. *)
Definition EvidenceHandler_ServeHTTP `{UnicodeTables} (auth : readAuthorizer) (request : HttpRequest) (runID : string) (provider : option Timeline) : HttpReply :=
  if negb (authorized auth (Header_Get request "Authorization")) then unauthorized
  else if (runID == "") || (128 <? slen runID) then http_Error [] "invalid Run ID" 400
  else match provider with
  | None => http_Error [] "evidence unavailable" 503
  | Some timeline => mkHttpReply 200 [("Cache-Control", "no-store"); ("Content-Type", "application/json")] (Marshal (timeline_json timeline) +:+ String newline "")
  end.

(** ** Small numbers are exact *)
Lemma literal_parts_uint z : 0 <= z -> literal_parts (FormatUint z) = (false, z, 0).
Proof.
  intros Hz. unfold literal_parts. pose proof (FormatUint_digits z) as Hd. pose proof (proj1 (FormatUint_value z Hz)) as Hv.
  destruct (FormatUint z) as [|c s] eqn:E; [by cbn in Hv; subst z|]. assert (c == "-"%char = false) as ->.
  { apply bool_decide_eq_false. intros ->. done. }
  rewrite <-E in *. rewrite span_digits_all by done. by rewrite str_app_nil_r, Hv.
Qed.
Lemma float_round_small z : 0 < z < 2 ^ 53 -> exists k, - 52 <= k <= 0 /\ float_round z 1 = (z * 2 ^ (- k), k).
Proof.
  intros Hz. exists (Z.log2 z - 52). pose proof (Z.log2_spec z ltac:(lia)) as [H1 H2]. pose proof (Z.log2_nonneg z) as H0.
  assert (Z.log2 z <= 52) as H3 by (apply Z.lt_succ_r, (Z.log2_lt_pow2 z 53); lia). split; [lia|].
  assert (2 ^ 52 <= z * 2 ^ (52 - Z.log2 z)) as H4.
  { replace (2 ^ 52) with (2 ^ Z.log2 z * 2 ^ (52 - Z.log2 z)) by (rewrite <-Z.pow_add_r by lia; f_equal; lia). apply Z.mul_le_mono_nonneg_r; [apply Z.pow_nonneg|]; lia. }
  assert (scale z 1 (Z.log2 z - 52) = (z * 2 ^ (52 - Z.log2 z), 1)) as Es.
  { unfold scale. destruct (Z.ltb_spec (Z.log2 z - 52) 0); [do 2 f_equal; f_equal; lia|]. replace (Z.log2 z) with 52 by lia. change (52 - 52) with 0. by rewrite Z.pow_0_r, !Z.mul_1_r. }
  unfold float_round, float_exponent. destruct (Z.eqb_spec z 0); [lia|]. change (Z.log2 1) with 0. rewrite Z.sub_0_r, Es. destruct (Z.ltb_spec (z * 2 ^ (52 - Z.log2 z)) (2 ^ 52 * 1)); [lia|].
  rewrite Z.max_l by lia. rewrite Es. unfold round_half_even. rewrite Z.div_1_r, Z.mod_1_r. change ((1 <? 2 * 0) || ((2 * 0 =? 1) && _)) with false. cbv match. f_equal. f_equal. f_equal. lia.
Qed.
Lemma float_small `{FloatConversion} z : 0 <= z < 2 ^ 53 -> exists f, float_of (FormatUint z) = Some f /\ uint64_of_float f = z.
Proof.
  intros Hz. unfold float_of. rewrite literal_parts_uint by lia. change (10 ^ Z.max 0 0) with 1. change (10 ^ Z.max (- 0) 0) with 1. rewrite Z.mul_1_r.
  destruct (decide (z = 0)) as [->|Hn]; [exists (false, 0, 0); done|]. destruct (float_round_small z ltac:(lia)) as (k & Hk & ->).
  assert ((0 <=? k) && (2 ^ 1024 <=? z * 2 ^ (- k) * 2 ^ k) = false) as ->.
  { destruct (Z.leb_spec 0 k); [|done]. replace k with 0 by lia. cbn -[Z.pow]. change (2 ^ (-0)) with 1. change (2 ^ 0) with 1. apply Z.leb_gt. assert (2 ^ 53 < 2 ^ 1024) by (by vm_compute). lia. }
  eexists. split; [reflexivity|]. unfold uint64_of_float. cbv zeta. assert ((if k <? 0 then z * 2 ^ (- k) / 2 ^ (- k) else z * 2 ^ (- k) * 2 ^ k) = z) as ->.
  { destruct (Z.ltb_spec k 0); [apply Z.div_mul, Z.pow_nonzero; lia|]. replace k with 0 by lia. cbn. lia. }
  cbn [andb orb]. destruct (Z.ltb_spec u64_max z); [|done]. exfalso. change u64_max with (2 ^ 64 - 1) in *. assert (2 ^ 53 < 2 ^ 64 - 1) by (by vm_compute). lia.
Qed.
(** An identifier of 32 bits written as a JSON number is shown as it is. *)
Lemma decimalField_small `{FloatConversion} values key z : 0 <= z < 2 ^ 53 -> Redact.field key values = Some (JNumber (FormatUint z)) -> decimalField values key = FormatUint z.
Proof. intros Hz E. unfold decimalField. rewrite E. by destruct (float_small z Hz) as (f & -> & ->). Qed.

(** ** Summaries *)
Lemma last_start_bound rs : forall index end_, Z.of_nat end_ <= 4093 -> Z.of_nat (last_start rs index end_) <= 4093.
Proof. induction rs as [|[r w] rs IH]; intros index end_ He; [done|]. cbn. destruct (Z.ltb_spec 4093 (Z.of_nat index)); [done|]. apply IH. lia. Qed.
Lemma str_take_length n s : (String.length (str_take n s) <= n)%nat.
Proof. revert s. induction n as [|n IH]; intros [|c s]; cbn; [lia..|]. specialize (IH s). lia. Qed.
Lemma boundedSummary_length s : slen (boundedSummary s) <= 4096.
Proof.
  unfold boundedSummary. destruct (Z.leb_spec (slen s) 4096); [done|]. rewrite slen_app. pose proof (last_start_bound (runes s) 0 0 ltac:(lia)). pose proof (str_take_length (last_start (runes s) 0 0) s).
  unfold slen in *. change (Z.of_nat (String.length "...")) with 3. lia.
Qed.
Lemma evidenceSummary_length `{FloatConversion} eventType payload : slen eventType <= 64 -> slen (evidenceSummary eventType payload) <= 4096.
Proof.
  intros Ht. unfold evidenceSummary. destruct (match Redact.field "summary" payload with Some _ => _ | None => _ end); [apply boundedSummary_length|]. cbv zeta.
  destruct (_ != ""); [apply boundedSummary_length|]. rewrite slen_app. change (slen " record observed") with 16. lia.
Qed.

(** ** What is shown of a message *)
(** A text member of an object, or [fallback] when it is missing, empty or
    not a string. *)
Inductive text_of (values : Values) (key fallback : string) : string -> Prop :=
| text_given v : Redact.field key values = Some (JString v) -> v <> "" -> text_of values key fallback v
| text_missing : (forall v, Redact.field key values = Some (JString v) -> v = "") -> text_of values key fallback fallback.
Lemma text_of_fun values key fallback v : text_of values key fallback v <-> v = stringField values key fallback.
Proof.
  unfold stringField. split.
  - destruct 1 as [v E Hv|Hv]; [by rewrite E, bool_decide_eq_false_2|]. destruct (Redact.field key values) as [[| | |s| |]|]; try done. rewrite (Hv s eq_refl). by rewrite bool_decide_eq_true_2.
  - intros ->. destruct (Redact.field key values) as [[| | |s| |]|] eqn:E; try (apply text_missing; by rewrite E).
    destruct (bool_decide (s = "")) eqn:Es; cbn [negb].
    + apply bool_decide_eq_true in Es as ->. apply text_missing. rewrite E. by intros v [= <-].
    + apply bool_decide_eq_false in Es. by apply text_given.
Qed.
(** The bytes before rune [n]. *)
Definition rune_start (rs : list (Z * nat)) (n : nat) : nat := foldr (fun r w => (r.2 + w)%nat) 0%nat (take n rs).
(** A summary of more than 4096 bytes ends before its last rune that starts
    at byte 4093 or earlier. *)
Inductive clipped (s : string) : string -> Prop :=
| clipped_whole : slen s <= 4096 -> clipped s s
| clipped_cut n : 4096 < slen s -> (n < length (runes s))%nat -> Z.of_nat (rune_start (runes s) n) <= 4093 ->
    (S n = length (runes s) \/ 4093 < Z.of_nat (rune_start (runes s) (S n))) ->
    clipped s (str_take (rune_start (runes s) n) s +:+ "...").
Lemma last_start_spec rs : forall index end_, rs <> [] -> Z.of_nat index <= 4093 -> exists n, (n < length rs)%nat /\
  last_start rs index end_ = (index + rune_start rs n)%nat /\ Z.of_nat (index + rune_start rs n) <= 4093 /\ (S n = length rs \/ 4093 < Z.of_nat (index + rune_start rs (S n))).
Proof.
  induction rs as [|[r w] rs IH]; intros index end_ Hne Hi; [done|]. cbn [last_start]. destruct (Z.ltb_spec 4093 (Z.of_nat index)); [lia|].
  destruct (decide (rs = [])) as [->|Hrs].
  { exists 0%nat. cbn. split_and!; lia. }
  destruct (decide (4093 < Z.of_nat (index + w))) as [Hw|Hw].
  - exists 0%nat. cbn [rune_start take foldr length]. split_and!; [lia| |lia|]. { destruct rs as [|[r' w'] rs]; [done|]. cbn. destruct (Z.ltb_spec 4093 (Z.of_nat (index + w))); lia. }
    right. unfold rune_start. cbn. lia.
  - destruct (IH (index + w)%nat index Hrs ltac:(lia)) as (n & Hn & -> & Hle & Hnext). exists (S n). unfold rune_start in *. cbn [take foldr length snd] in *. split_and!; [lia|lia|lia|]. cbn [take foldr snd] in Hnext. lia.
Qed.
Lemma rune_start_mono rs n n' : (n <= n')%nat -> (rune_start rs n <= rune_start rs n')%nat.
Proof.
  revert n n'. unfold rune_start. induction rs as [|x rs IH]; intros [|n] [|n'] Hn; cbn; try lia. specialize (IH n n' ltac:(lia)). lia.
Qed.
Lemma clipped_fun s out : clipped s out <-> out = boundedSummary s.
Proof.
  unfold boundedSummary. destruct (Z.leb_spec (slen s) 4096) as [Hs|Hs].
  { split; [by destruct 1; [|lia]|intros ->; by constructor]. }
  assert (runes s <> []) as Hr. { destruct s as [|c s]; [by cbn in Hs|]. unfold runes. cbn [String.length runes_go]. done. }
  destruct (last_start_spec (runes s) 0 0 Hr ltac:(lia)) as (n & Hn & -> & Hle & Hnext). cbn [Nat.add] in *.
  split; [|by intros ->; apply clipped_cut]. destruct 1 as [|n' _ Hn' Hle' Hnext']; [lia|].
  assert (n = n') as ->; [|done]. destruct (Nat.lt_trichotomy n n') as [Hlt|[?|Hlt]]; [|done|].
  - pose proof (rune_start_mono (runes s) (S n) n' ltac:(lia)). lia.
  - pose proof (rune_start_mono (runes s) (S n') n ltac:(lia)). lia.
Qed.
Section Spec.
Context `{FloatConversion}.
(** A number member, written as a string or as a JSON number; 0 when it is
    missing. *)
Inductive number_of (values : Values) (key : string) : string -> Prop :=
| number_text v : Redact.field key values = Some (JString v) -> number_of values key v
| number_literal s f : Redact.field key values = Some (JNumber s) -> float_of s = Some f -> number_of values key (FormatUint (uint64_of_float f))
| number_missing : (forall v, Redact.field key values <> Some (JString v)) -> (forall s, Redact.field key values = Some (JNumber s) -> float_of s = None) -> number_of values key "0".
(** The summary a message carries, or one made of its subject. *)
Inductive summarised (eventType : string) (payload : Values) : string -> Prop :=
| summary_own s out : text_of payload "summary" "" s -> s <> "" -> clipped s out -> summarised eventType payload out
| summary_data s out : text_of payload "summary" "" "" -> text_of payload "data" "" s -> s <> "" ->
    clipped (eventType +:+ " observed: " +:+ s) out -> summarised eventType payload out
| summary_destination ip port out : text_of payload "summary" "" "" -> text_of payload "data" "" "" -> text_of payload "dst_ip" "" ip -> ip <> "" -> number_of payload "dst_port" port ->
    clipped (eventType +:+ " observed: " +:+ ip +:+ ":" +:+ port) out -> summarised eventType payload out
| summary_plain : text_of payload "summary" "" "" -> text_of payload "data" "" "" -> text_of payload "dst_ip" "" "" ->
    summarised eventType payload (eventType +:+ " record observed").
(** The kernel hook that saw an operation. *)
Inductive observed_by (eventType : string) (payload : Values) : string -> Prop :=
| by_execve : eventType = "exec_attempt" -> observed_by eventType payload "tracepoint/sys_enter_execve"
| by_openat : eventType = "file_open" -> observed_by eventType payload "tracepoint/sys_enter_openat"
| by_connect6 : eventType = "net_connect" -> text_of payload "family_name" "ipv4" "ipv6" -> observed_by eventType payload "cgroup/connect6"
| by_connect4 family : eventType = "net_connect" -> text_of payload "family_name" "ipv4" family -> family <> "ipv6" -> observed_by eventType payload "cgroup/connect4"
| by_hook : eventType ∉ ["exec_attempt"; "file_open"; "net_connect"] -> observed_by eventType payload "kernel_hook".
(** How a decision took effect: only an enforced connection was stopped in
    the kernel. *)
Inductive decided_by (eventType : string) (enforced : bool) : string -> Prop :=
| by_connect_hook : enforced = true -> eventType = "net_connect" -> decided_by eventType enforced "cgroup/connect hook"
| by_evaluation : (enforced = false \/ eventType <> "net_connect") -> decided_by eventType enforced "post_event evaluation".
(** The cgroup a containment was about, named only when all of its identity
    is known. *)
Inductive target_of (payload : Values) : string -> Prop :=
| target_known cgroup instance cookie : number_of payload "cgroup_id" cgroup -> number_of payload "instance_id" instance -> number_of payload "scope_cookie" cookie ->
    cgroup <> "0" -> instance <> "0" -> cookie <> "0" -> target_of payload ("cgroup_id=" +:+ cgroup +:+ ",instance_id=" +:+ instance +:+ ",scope_cookie=" +:+ cookie)
| target_unknown key : key ∈ ["cgroup_id"; "instance_id"; "scope_cookie"] -> number_of payload key "0" -> target_of payload "unknown".
(** What a message can be read as: two clocks that were set, and an object
    (or null) without numbers beyond [float64]. *)
Record reads (m : Message) (monotonic unix : Z) (payload : Values) : Prop := {
  rd_monotonic : ParseUint (Message_ServerMonotonicNS m) = Some monotonic /\ monotonic <> 0;
  rd_unix : ParseUint (Message_ServerUnixNS m) = Some unix /\ unix <> 0;
  rd_payload : (Decode (Message_Payload m) = Some (JObject payload) /\ numbers_fit (JObject payload) = true) \/ (Decode (Message_Payload m) = Some JNull /\ payload = []);
}.
(** The event a message is shown as, by its source.  Claims, kernel facts and
    containments are always shown, a decision when it is final, nothing else. *)
Inductive projects (m : Message) : EvidenceEvent -> Prop :=
| projects_claim t u payload summary : reads m t u payload -> summarised (Message_EventType m) payload summary -> Message_Source m = "agent_claim" ->
    projects m (mkEvidenceEvent (Message_ID m +:+ "@stream-" +:+ Message_Sequence m) (Message_EventType m) "agent_claim" t u summary None None None None None)
| projects_fact t u payload summary result hook : reads m t u payload -> summarised (Message_EventType m) payload summary -> Message_Source m = "kernel_fact" ->
    text_of payload "action_result_name" "unknown" result -> observed_by (Message_EventType m) payload hook ->
    projects m (mkEvidenceEvent (Message_ID m +:+ "@stream-" +:+ Message_Sequence m) (Message_EventType m) "kernel_fact" t u summary None None
      (Some (mkOperationResult true result hook)) None None)
| projects_decision t u payload summary final policy rule requested decision eventType enforced mechanism : reads m t u payload -> summarised (Message_EventType m) payload summary ->
    Message_Source m = "policy_decision" -> Redact.field "final" payload = Some (JObject final) ->
    text_of final "policy_id" "unknown" policy -> number_of final "rule_id" rule -> text_of final "requested_action" "unknown" requested ->
    text_of final "policy_decision" "unknown" decision -> (enforced = true <-> Redact.field "enforced" final = Some (JBool true)) ->
    text_of payload "event_type_name" (Message_EventType m) eventType -> decided_by eventType enforced mechanism ->
    projects m (mkEvidenceEvent (Message_ID m +:+ "@stream-" +:+ Message_Sequence m) (Message_EventType m) "policy_decision" t u summary None None None
      (Some (mkEvidenceDecision policy rule requested decision enforced mechanism)) None)
| projects_containment t u payload summary action requested result method target original : reads m t u payload -> summarised (Message_EventType m) payload summary ->
    Message_Source m = "containment_result" -> text_of payload "requested_action" "" action -> (requested = true <-> action = "contain") ->
    text_of payload "enforcement_result" "unknown" result -> text_of payload "enforcement_method" "unknown" method -> target_of payload target ->
    text_of payload "syscall_result" "unknown" original ->
    projects m (mkEvidenceEvent (Message_ID m +:+ "@stream-" +:+ Message_Sequence m) (Message_EventType m) "containment_result" t u summary None None None None
      (Some (mkContainment requested result method target original))).
(** The shown events of a list of messages, in order. *)
Inductive projected : list Message -> list EvidenceEvent -> Prop :=
| projected_nil : projected [] []
| projected_shown m messages e events : projects m e -> projected messages events -> projected (m :: messages) (e :: events)
| projected_left_out m messages events : (forall e, ~ projects m e) -> projected messages events -> projected (m :: messages) events.

(** *** The code computes it *)
Lemma number_of_fun values key v : number_of values key v <-> v = decimalField values key.
Proof.
  unfold decimalField. split.
  - destruct 1 as [v E|s f E Ef|Hs Hn]; [by rewrite E|by rewrite E, Ef|]. destruct (Redact.field key values) as [[| |n|s| |]|]; try done; [by rewrite (Hn n eq_refl)|by destruct (Hs s)].
  - intros ->. destruct (Redact.field key values) as [[| |n|s| |]|] eqn:E; try (apply number_missing; by rewrite E); [|by apply number_text].
    destruct (float_of n) as [f|] eqn:Ef; [by eapply number_literal|]. apply number_missing; rewrite E; [done|]. by intros s [= <-].
Qed.
Lemma stringField_empty values key : stringField values key "" = match Redact.field key values with Some (JString s) => s | _ => "" end.
Proof. unfold stringField. destruct (Redact.field key values) as [[| | |s| |]|]; try done. destruct (bool_decide (s = "")) eqn:E; [|done]. by apply bool_decide_eq_true in E as ->. Qed.
Lemma summarised_fun eventType payload out : summarised eventType payload out <-> out = evidenceSummary eventType payload.
Proof.
  assert (evidenceSummary eventType payload =
    let own := stringField payload "summary" "" in let data := stringField payload "data" "" in let ip := stringField payload "dst_ip" "" in
    if own != "" then boundedSummary own else if data != "" then boundedSummary (eventType +:+ " observed: " +:+ data)
    else if ip != "" then boundedSummary (eventType +:+ " observed: " +:+ ip +:+ ":" +:+ decimalField payload "dst_port") else eventType +:+ " record observed") as ->.
  { unfold evidenceSummary. cbv zeta. rewrite (stringField_empty payload "summary"), (stringField_empty payload "dst_ip").
    assert (forall T (x y : T), (if "" != "" then x else y) = y) as He by done.
    destruct (Redact.field "summary" payload) as [[| | |s| |]|]; rewrite ?He. 4: destruct (s != "") eqn:Es; [done|].
    all: destruct (bool_decide (stringField payload "data" "" = "")) eqn:Ed; cbn [negb]; [|by rewrite Ed].
    all: apply bool_decide_eq_true in Ed; rewrite ?Ed, ?He; destruct (Redact.field "dst_ip" payload) as [[| | |ip| |]|]; try done; destruct (ip != "") eqn:Ei; [|done]; by destruct ip. }
  cbv zeta. split.
  - destruct 1 as [s out Ht Hs Hc|s out Ht Hd Hs Hc|ip port out Ht Hd Hi Hs Hp Hc|Ht Hd Hi];
      repeat match goal with H : text_of _ _ _ _ |- _ => apply text_of_fun in H | H : clipped _ _ |- _ => apply clipped_fun in H as -> | H : number_of _ _ _ |- _ => apply number_of_fun in H end;
      repeat match goal with H : _ = stringField _ _ _ |- _ => rewrite <-H in *; clear H end; subst; rewrite ?bool_decide_eq_true_2 by done; rewrite ?bool_decide_eq_false_2 by done; done.
  - intros ->. destruct (bool_decide (stringField payload "summary" "" = "")) eqn:E1; cbn [negb].
    2:{ apply bool_decide_eq_false in E1. by apply (summary_own _ _ (stringField payload "summary" "")); [apply text_of_fun| |apply clipped_fun]. }
    apply bool_decide_eq_true in E1. destruct (bool_decide (stringField payload "data" "" = "")) eqn:E2; cbn [negb].
    2:{ apply bool_decide_eq_false in E2. by apply (summary_data _ _ (stringField payload "data" "")); [apply text_of_fun|apply text_of_fun| |apply clipped_fun]. }
    apply bool_decide_eq_true in E2. destruct (bool_decide (stringField payload "dst_ip" "" = "")) eqn:E3; cbn [negb].
    + apply bool_decide_eq_true in E3. by apply summary_plain; apply text_of_fun.
    + apply bool_decide_eq_false in E3. by eapply (summary_destination _ _ (stringField payload "dst_ip" "")); [apply text_of_fun..| |by apply number_of_fun|apply clipped_fun].
Qed.
Lemma observed_by_fun eventType payload hook : observed_by eventType payload hook <-> hook = kernelMechanism eventType payload.
Proof.
  unfold kernelMechanism. split.
  - destruct 1 as [-> | -> | -> Ht | family -> Ht Hf | Hn]; [done|done|..].
    + apply text_of_fun in Ht. rewrite <-Ht. done.
    + apply text_of_fun in Ht as ->. change ("net_connect" == "exec_attempt") with false. change ("net_connect" == "file_open") with false. change ("net_connect" == "net_connect") with true. cbv match. by rewrite bool_decide_eq_false_2.
    + rewrite !bool_decide_eq_false_2; [done|set_solver..].
  - intros ->. destruct (bool_decide (eventType = "exec_attempt")) eqn:E1; [apply bool_decide_eq_true in E1; by constructor|]. destruct (bool_decide (eventType = "file_open")) eqn:E2; [apply bool_decide_eq_true in E2; by constructor|].
    apply bool_decide_eq_false in E1, E2. destruct (bool_decide (eventType = "net_connect")) eqn:E3; [apply bool_decide_eq_true in E3|apply bool_decide_eq_false in E3; apply by_hook; set_solver].
    destruct (bool_decide (stringField payload "family_name" "ipv4" = "ipv6")) eqn:E4; [apply bool_decide_eq_true in E4; apply by_connect6; [done|by apply text_of_fun]|].
    apply bool_decide_eq_false in E4. by eapply by_connect4; [|by apply text_of_fun|].
Qed.
Lemma decided_by_fun final eventType mechanism : decided_by eventType (boolField final "enforced") mechanism <-> mechanism = decisionMechanism final eventType.
Proof.
  unfold decisionMechanism. split.
  - destruct 1 as [-> -> | [-> | Hn]]; [done|done|]. rewrite (bool_decide_eq_false_2 _ Hn). by rewrite andb_false_r.
  - intros ->. destruct (boolField final "enforced") eqn:E; cbn [andb]; [|by apply by_evaluation; left]. destruct (bool_decide (eventType = "net_connect")) eqn:En.
    + apply bool_decide_eq_true in En. by apply by_connect_hook.
    + apply bool_decide_eq_false in En. apply by_evaluation. by right.
Qed.
Lemma target_of_fun payload target : target_of payload target <-> target = containmentTargetIdentity payload.
Proof.
  unfold containmentTargetIdentity. cbv zeta. split.
  - destruct 1 as [cgroup instance cookie H1%number_of_fun H2%number_of_fun H3%number_of_fun N1 N2 N3|key Hk Hz%number_of_fun].
    + rewrite <-H1, <-H2, <-H3. by rewrite !bool_decide_eq_false_2.
    + assert (forall s, "0" = s -> (s == "0") = true) as Heq by (by intros s <-). rewrite !elem_of_cons, elem_of_nil in Hk. destruct Hk as [-> | [-> | [-> | []]]]; rewrite (Heq _ Hz), ?orb_true_r; done.
  - intros ->. destruct (bool_decide (decimalField payload "cgroup_id" = "0")) eqn:E1; cbn [orb]; [apply bool_decide_eq_true in E1; apply (target_unknown _ "cgroup_id"); [set_solver|by apply number_of_fun]|].
    destruct (bool_decide (decimalField payload "instance_id" = "0")) eqn:E2; cbn [orb]; [apply bool_decide_eq_true in E2; apply (target_unknown _ "instance_id"); [set_solver|by apply number_of_fun]|].
    destruct (bool_decide (decimalField payload "scope_cookie" = "0")) eqn:E3; cbn [orb]; [apply bool_decide_eq_true in E3; apply (target_unknown _ "scope_cookie"); [set_solver|by apply number_of_fun]|].
    apply bool_decide_eq_false in E1, E2, E3. by apply target_known; try apply number_of_fun.
Qed.
Lemma enforced_fun final enforced : (enforced = true <-> Redact.field "enforced" final = Some (JBool true)) <-> enforced = boolField final "enforced".
Proof. unfold boolField. destruct (Redact.field "enforced" final) as [[|[]| | | |]|], enforced; naive_solver. Qed.
Lemma reads_unmarshal m t u payload : reads m t u payload <-> (ParseUint (Message_ServerMonotonicNS m) = Some t /\ t <> 0) /\ (ParseUint (Message_ServerUnixNS m) = Some u /\ u <> 0) /\
  UnmarshalValues (Message_Payload m) = Some payload.
Proof.
  assert (UnmarshalValues (Message_Payload m) = Some payload <->
    (Decode (Message_Payload m) = Some (JObject payload) /\ numbers_fit (JObject payload) = true) \/ (Decode (Message_Payload m) = Some JNull /\ payload = [])) as Hp.
  { unfold UnmarshalValues. destruct (Decode (Message_Payload m)) as [[| | | | |fields]|]; try (split; [done|by intros [[? _]|[? _]]]).
    - split; [intros [= <-]; by right|by intros [[? _]|[_ ->]]].
    - destruct (numbers_fit (JObject fields)) eqn:En; (split; [intros [= <-]|intros [[[= <-] ?]|[? _]]]); try done; [by left|congruence]. }
  rewrite Hp. split; [by intros []|by intros (? & ? & ?)].
Qed.
End Spec.

(** ** The projected events *)
Section Projected.
Context `{FloatConversion}.
Definition shown (m : Message) : option EvidenceEvent :=
  match evidenceEvent m with Ok (Some e) => Some (with_id e (stream_id (EE_ID e) (Message_Sequence m))) | _ => None end.
(** What the endpoint can read: clocks that were set and a payload that is an
    object (or null) without numbers beyond [float64]. *)
Definition readable (m : Message) : Prop :=
  (exists t, ParseUint (Message_ServerMonotonicNS m) = Some t /\ t <> 0) /\ (exists t, ParseUint (Message_ServerUnixNS m) = Some t /\ t <> 0) /\
  is_Some (UnmarshalValues (Message_Payload m)).
Lemma evidenceEvent_readable m : (exists e, evidenceEvent m = Ok e) <-> readable m.
Proof.
  unfold evidenceEvent, readable. destruct (ParseUint (Message_ServerMonotonicNS m)) as [t|]; [|split; [by intros [? ?]|by intros ((? & ? & _) & _)]].
  destruct (Z.eqb_spec t 0) as [->|Ht]; [split; [by intros [? ?]|intros ((? & [= <-] & ?) & _); done]|].
  destruct (ParseUint (Message_ServerUnixNS m)) as [u|]; [|split; [by intros [? ?]|by intros (_ & (? & ? & _) & _)]].
  destruct (Z.eqb_spec u 0) as [->|Hu]; [split; [by intros [? ?]|intros (_ & (? & [= <-] & ?) & _); done]|].
  destruct (UnmarshalValues _); [|split; [by intros [? ?]|by intros (_ & _ & ? & ?)]]. split; [|by eauto]. intros _. split_and!; eauto.
Qed.
(** What a projected event says of its message. *)
Record stands_for (m : Message) (e : EvidenceEvent) : Prop := {
  sf_id : EE_ID e = stream_id (Message_ID m) (Message_Sequence m);
  sf_type : EE_Type e = Message_EventType m;
  sf_source : EE_Source e = Message_Source m;
  sf_monotonic : ParseUint (Message_ServerMonotonicNS m) = Some (EE_ServerMonotonicNS e) /\ EE_ServerMonotonicNS e <> 0;
  sf_unix : ParseUint (Message_ServerUnixNS m) = Some (EE_ServerUnixNS e) /\ EE_ServerUnixNS e <> 0;
  sf_summary : slen (Message_EventType m) <= 64 -> slen (EE_Summary e) <= 4096;
  sf_unattributed : EE_Attribution e = None /\ EE_Correlation e = None;
  sf_sourced : well_sourced e;
}.
Lemma shown_stands_for m e : shown m = Some e -> stands_for m e.
Proof.
  unfold shown, evidenceEvent. destruct (ParseUint (Message_ServerMonotonicNS m)) as [t|] eqn:Em; [|done]. destruct (Z.eqb_spec t 0); [done|].
  destruct (ParseUint (Message_ServerUnixNS m)) as [u|] eqn:Eu; [|done]. destruct (Z.eqb_spec u 0); [done|]. destruct (UnmarshalValues _) as [payload|]; [|done]. cbv zeta.
  assert (forall source operation decision containment, Message_Source m = source ->
    well_sourced (mkEvidenceEvent "" "" source 0 0 "" None None operation decision containment) ->
    Some (with_id (mkEvidenceEvent (Message_ID m) (Message_EventType m) source t u (evidenceSummary (Message_EventType m) payload) None None operation decision containment)
      (stream_id (Message_ID m) (Message_Sequence m))) = Some e -> stands_for m e) as Hmake.
  { intros source operation decision containment Hs Hw [= <-]. constructor; cbn; try done. intros ?. by apply evidenceSummary_length. }
  destruct (Message_Source m == AgentClaim) eqn:E1; [|destruct (Message_Source m == KernelFact) eqn:E2; [|destruct (Message_Source m == PolicyDecision) eqn:E3; [|destruct (Message_Source m == ContainmentResult) eqn:E4; [|done]]]].
  all: match goal with H : (_ == _) = true |- _ => apply bool_decide_eq_true in H end.
  3: destruct (Redact.field "final" payload) as [[]|]; try done.
  all: apply Hmake; [done|].
  all: unfold well_sourced; cbn; split_and!; [set_solver|..]; rewrite ?is_Some_alt; naive_solver.
Qed.
Lemma evidenceEvent_reads m t u payload : reads m t u payload -> evidenceEvent m = Ok
    (let event source operation decision containment :=
      Some (mkEvidenceEvent (Message_ID m) (Message_EventType m) source t u (evidenceSummary (Message_EventType m) payload) None None operation decision containment) in
    if Message_Source m == AgentClaim then event AgentClaim None None None
    else if Message_Source m == KernelFact then
      event KernelFact (Some (mkOperationResult true (stringField payload "action_result_name" "unknown") (kernelMechanism (Message_EventType m) payload))) None None
    else if Message_Source m == PolicyDecision then
      match Redact.field "final" payload with
      | Some (JObject final) =>
          event PolicyDecision None (Some (mkEvidenceDecision (stringField final "policy_id" "unknown") (decimalField final "rule_id")
            (stringField final "requested_action" "unknown") (stringField final "policy_decision" "unknown") (boolField final "enforced")
            (decisionMechanism final (stringField payload "event_type_name" (Message_EventType m))))) None
      | _ => None
      end
    else if Message_Source m == ContainmentResult then
      event ContainmentResult None None (Some (mkContainment (stringField payload "requested_action" "" == "contain")
        (stringField payload "enforcement_result" "unknown") (stringField payload "enforcement_method" "unknown")
        (containmentTargetIdentity payload) (stringField payload "syscall_result" "unknown")))
    else None).
Proof.
  intros ((Em & Hm) & (Eu & Hu) & Ep)%reads_unmarshal. unfold evidenceEvent. rewrite Em. apply Z.eqb_neq in Hm as ->. rewrite Eu. apply Z.eqb_neq in Hu as ->. by rewrite Ep.
Qed.
Lemma shown_projects m e : shown m = Some e <-> projects m e.
Proof.
  split.
  - intros Es. assert (exists t u payload, reads m t u payload) as (t & u & payload & Hr).
    { unfold shown in Es. destruct (evidenceEvent m) as [o|] eqn:Ee; [|done]. destruct (proj1 (evidenceEvent_readable m) (ex_intro _ _ Ee)) as ((t & ? & ?) & (u & ? & ?) & (payload & ?)).
      exists t, u, payload. by apply reads_unmarshal. }
    unfold shown in Es. rewrite (evidenceEvent_reads m t u payload Hr) in Es. cbv zeta in Es. pose proof (proj2 (summarised_fun (Message_EventType m) payload _) eq_refl) as Hsum.
    destruct (bool_decide (Message_Source m = AgentClaim)) eqn:E1; [apply bool_decide_eq_true in E1; injection Es as <-; by eapply projects_claim|].
    destruct (bool_decide (Message_Source m = KernelFact)) eqn:E2; [apply bool_decide_eq_true in E2; injection Es as <-; by eapply projects_fact; [..|apply text_of_fun|apply observed_by_fun]|].
    destruct (bool_decide (Message_Source m = PolicyDecision)) eqn:E3.
    { apply bool_decide_eq_true in E3. destruct (Redact.field "final" payload) as [[| | | | |final]|] eqn:Ef; try done. injection Es as <-.
      by eapply projects_decision; [exact Hr|exact Hsum|exact E3|exact Ef|apply text_of_fun|apply number_of_fun|apply text_of_fun|apply text_of_fun|apply enforced_fun|by apply text_of_fun|apply decided_by_fun]. }
    destruct (bool_decide (Message_Source m = ContainmentResult)) eqn:E4; [|done]. apply bool_decide_eq_true in E4. injection Es as <-.
    by eapply projects_containment; [exact Hr|exact Hsum|exact E4|by apply text_of_fun|apply bool_decide_eq_true|apply text_of_fun|apply text_of_fun|apply target_of_fun|apply text_of_fun].
  - intros He. unfold shown.
    destruct He as [t u payload summary Hr ->%summarised_fun Hs|t u payload summary result hook Hr ->%summarised_fun Hs ->%text_of_fun ->%observed_by_fun
      |t u payload summary final policy rule requested decision eventType enforced mechanism Hr ->%summarised_fun Hs Hf ->%text_of_fun ->%number_of_fun ->%text_of_fun ->%text_of_fun ->%enforced_fun ->%text_of_fun ->%decided_by_fun
      |t u payload summary action requested result method target original Hr ->%summarised_fun Hs ->%text_of_fun Hq ->%text_of_fun ->%text_of_fun ->%target_of_fun ->%text_of_fun];
      rewrite (evidenceEvent_reads m t u payload Hr), Hs; [reflexivity|reflexivity|cbv zeta; by rewrite Hf|].
    assert (requested = (stringField payload "requested_action" "" == "contain")) as -> by (apply eq_bool_prop_intro; rewrite bool_decide_spec, Is_true_true; exact Hq). reflexivity.
Qed.
Lemma projected_shown_list messages events : projected messages events <-> events = omap shown messages.
Proof.
  split.
  - induction 1 as [|m messages e events He _ IH|m messages events He _ IH]; cbn; [done|by rewrite (proj2 (shown_projects m e) He), IH|]. destruct (shown m) as [e|] eqn:Es; [|done]. by apply shown_projects, He in Es.
  - intros ->. induction messages as [|m messages IH]; cbn; [constructor|]. destruct (shown m) as [e|] eqn:Es; [by apply projected_shown; [apply shown_projects|]|].
    apply projected_left_out; [|done]. intros e He%shown_projects. congruence.
Qed.
End Projected.

(** ** The window *)
Lemma stream_logged w : stream_reachable w -> Forall (fun m => exists e n now, validateEvent e = true /\ m = message_of e n now) (stream_log w).
Proof.
  induction 1 as [|w w' _ IH Hs]; [done|]. destruct Hs; try exact IH. apply Forall_app. split; [exact IH|]. destruct r as [m|]; [|done]. apply Forall_singleton.
  revert H. unfold Publish. destruct (validateEvent e) eqn:Ev; cbn [negb]; [|done]. destruct (hub_closed _); [done|]. destruct (_ =? _); [done|]. cbv zeta. intros [= _ <-]. by eauto.
Qed.
Lemma filter_sublist {A} (p : A -> bool) l : List.filter p l `sublist_of` l.
Proof. induction l as [|x l IH]; [done|]. cbn. destruct (p x); by constructor. Qed.
Lemma sublist_map {A B} (f : A -> B) l1 l2 : l1 `sublist_of` l2 -> map f l1 `sublist_of` map f l2.
Proof. induction 1; by constructor. Qed.
Lemma Snapshot_messages w ctx f limit maxBytes now hub messages : stream_ok w ->
  Snapshot (stream_hub w) ctx f limit maxBytes now = (hub, Ok messages) -> messages `sublist_of` stream_log w /\ len messages <= limit.
Proof.
  intros Hw Hs. revert Hs. unfold Snapshot. destruct ctx as [cancelled|]; [|done]. destruct (_ || _) eqn:Eb; [done|]. destruct (cancelled 0%nat); [done|].
  cbv zeta. apply (stream_prune_ok _ now) in Hw. set (h := pruneLocked (stream_hub w) now) in *. clearbody h. destruct (existsb _ _); [done|]. intros [= <- <-].
  destruct (select_newest_spec f limit maxBytes (reverse (hub_history h)) 0 0) as (rest & E & H1 & _); [lia|unfold maxPayloadBytes in *; lia|].
  set (sel := select_newest f limit maxBytes (reverse (hub_history h)) 0 0) in *. clearbody sel. split; [|unfold len in *; rewrite length_reverse; lia].
  destruct (so_history _ Hw) as [k Hk]. cbn [set_hub stream_hub stream_log] in Hk.
  etrans; [apply (sublist_inserts_l (reverse rest)); reflexivity|]. rewrite <-reverse_app, <-E, filter_reverse, reverse_involutive. etrans; [apply filter_sublist|]. rewrite Hk. apply sublist_drop.
Qed.
Lemma sequences_distinct w : stream_ok w -> NoDup (map Message_Sequence (stream_log w)).
Proof.
  intros Hw. apply NoDup_alt. intros i j x Hi Hj. apply list_lookup_fmap_Some in Hi as (m & -> & Hm), Hj as (m' & E & Hm').
  destruct (so_numbered w Hw i m Hm) as [E1 _], (so_numbered w Hw j m' Hm') as [E2 _]. rewrite E1, E2 in E. apply FormatUint_inj in E; lia.
Qed.
Lemma dash_inj x y s t : str_forall is_digit s = true -> str_forall is_digit t = true -> x +:+ String "-" s = y +:+ String "-" t -> s = t.
Proof.
  intros Hs Ht. revert y. induction x as [|c x IH]; intros [|d y]; rewrite ?str_app_nil_l, ?str_app_cons; [by intros [= <-]|..|intros [= _ E]; by apply (IH y)];
    intros [= _ E]; exfalso; subst; by rewrite str_forall_app in *; rewrite andb_comm in *.
Qed.
Lemma stream_id_inj id id' s s' : str_forall is_digit s = true -> str_forall is_digit s' = true -> stream_id id s = stream_id id' s' -> s = s'.
Proof.
  intros Hs Hs'. unfold stream_id. change ("@stream-" +:+ s) with ("@stream" +:+ String "-" s). change ("@stream-" +:+ s') with ("@stream" +:+ String "-" s').
  rewrite !str_app_assoc. by apply dash_inj.
Qed.

(** The messages of a run a snapshot answers with: of what the hub still
    retains at [now], the newest of the run, at most 1000 of them and 4 MiB of
    payloads, and as many as fit. *)
Record evidence_window (hub : Hub) (run : string) (now : Time) (retained messages : list Message) : Prop := {
  ew_retained : exists aged, hub_history hub = aged ++ retained /\ Forall (fun m => Message_createdAt m < now - hub_maxAge hub) aged /\
    (forall m, head retained = Some m -> now - hub_maxAge hub <= Message_createdAt m);
  ew_newest : exists older, filter (fun m => Message_RunID m = run) retained = older ++ messages /\
    (older = [] \/ len messages = 1000 \/ exists rest m, older = rest ++ [m] /\ 4194304 < payload_bytes messages + slen (Message_Payload m));
  ew_count : len messages <= 1000;
  ew_bytes : payload_bytes messages <= 4194304;
}.
Lemma drop_before_spec cutoff history retained : (exists aged, history = aged ++ retained /\ Forall (fun m => Message_createdAt m < cutoff) aged /\
  (forall m, head retained = Some m -> cutoff <= Message_createdAt m)) <-> retained = drop_before cutoff history.
Proof.
  split.
  - intros (aged & -> & Ha & Hr). induction Ha as [|m aged Hm _ IH]; cbn [app drop_before]; [|unfold Before; by destruct (Z.ltb_spec (Message_createdAt m) cutoff); [|lia]].
    destruct retained as [|m retained]; [done|]. cbn. unfold Before. specialize (Hr m eq_refl). by destruct (Z.ltb_spec (Message_createdAt m) cutoff); [lia|].
  - intros ->. induction history as [|m history (aged & E & Ha & Hr)]; [by exists []|]. cbn [drop_before]. unfold Before. destruct (Z.ltb_spec (Message_createdAt m) cutoff) as [Hm|Hm].
    + exists (m :: aged). cbn. split; [by f_equal|]. split; [by constructor|done].
    + exists []. split; [done|]. split; [done|]. by intros ? [= <-].
Qed.
Lemma run_filter run history : run <> "" -> List.filter (matches (mkFilter run "" "" true)) history = filter (fun m => Message_RunID m = run) history.
Proof.
  intros Hr. assert (forall m, matches (mkFilter run "" "" true) m = bool_decide (Message_RunID m = run)) as Hm.
  { intros m. unfold matches. cbn [Filter_RunID Filter_Severity Filter_EventType Filter_IncludeAudit]. rewrite (bool_decide_eq_false_2 (run = "")) by done. change ("" == "") with true. cbn [orb andb].
    rewrite !andb_true_r. apply bool_decide_ext. split; congruence. }
  induction history as [|m history IH]; [done|]. cbn [List.filter]. rewrite Hm, IH, filter_cons. by destruct (decide (Message_RunID m = run)) as [E|E]; [rewrite bool_decide_eq_true_2|rewrite bool_decide_eq_false_2].
Qed.
Lemma payload_bytes_nonneg l : 0 <= payload_bytes l.
Proof. unfold payload_bytes. induction l as [|m l IH]; cbn [foldr]; [done|]. unfold slen. set (n := foldr _ _ _) in *. clearbody n. lia. Qed.
(** Two maximal choices from the newest end are the same. *)
Lemma newest_unique (older older' messages messages' : list Message) : older ++ messages = older' ++ messages' ->
  (older = [] \/ len messages = 1000 \/ exists rest m, older = rest ++ [m] /\ 4194304 < payload_bytes messages + slen (Message_Payload m)) ->
  len messages' <= 1000 -> payload_bytes messages' <= 4194304 -> (length messages' <= length messages)%nat.
Proof.
  intros E Hmax Hc Hb. destruct (Nat.le_gt_cases (length messages') (length messages)) as [?|Hlt]; [done|exfalso].
  assert (messages' = drop (length older') older ++ messages) as E'.
  { assert (length older' <= length older)%nat as Hl by (apply (f_equal length) in E; rewrite !length_app in E; lia).
    apply (f_equal (drop (length older'))) in E. rewrite drop_app_length in E. rewrite <-E. rewrite drop_app_le by done. done. }
  destruct Hmax as [->|[Hm|(rest & m & -> & Hm)]].
  - rewrite drop_nil in E'. subst messages'. cbn in Hlt. lia.
  - unfold len in *. lia.
  - destruct (decide (length older' <= length rest)%nat) as [Hl|Hl].
    + rewrite drop_app_le in E' by done. subst messages'. rewrite !payload_bytes_app in Hb. pose proof (payload_bytes_nonneg (drop (length older') rest)). change (payload_bytes [m]) with (slen (Message_Payload m) + 0) in Hb. lia.
    + rewrite drop_ge in E' by (rewrite length_app; cbn; lia). subst messages'. cbn in Hlt. lia.
Qed.
Lemma evidence_snapshot w cancelled run now hub messages : stream_reachable w -> run <> "" ->
  Snapshot (stream_hub w) (Some cancelled) (mkFilter run "" "" true) evidenceSnapshotLimit evidenceSnapshotBytes now = (hub, Ok messages) <->
  exists retained, evidence_window (stream_hub w) run now retained messages /\ hub = with_history (stream_hub w) (hub_latest (stream_hub w)) retained /\
    (forall j, (j <= length messages)%nat -> cancelled j = false).
Proof.
  intros Hw Hr. assert (forall l, existsb cancelled (seq 1 l) = false <-> forall j, (1 <= j <= l)%nat -> cancelled j = false) as Hex.
  { intros l. rewrite <-not_true_iff_false, existsb_exists. setoid_rewrite in_seq. split; [|intros Hj (j & Hin & Hc); rewrite Hj in Hc by lia; done].
    intros Hn j Hj. destruct (cancelled j) eqn:Ec; [|done]. destruct Hn. exists j. split; [lia|done]. }
  split.
  - intros Es. destruct (Snapshot_newest w _ _ _ _ _ _ _ Hw Es) as (older & E & Hc & Hb & Hmax & _). revert Es. unfold Snapshot. change (_ || _) with false. cbv match.
    destruct (cancelled 0%nat) eqn:E0; [done|]. cbv zeta. set (sel := reverse _). clearbody sel. destruct (existsb _ _) eqn:Ee; [done|]. intros [= <- <-].
    eexists. split; [|split; [reflexivity|]].
    + split; [by apply drop_before_spec|exists older|exact Hc|exact Hb]. split; [|naive_solver]. rewrite <-run_filter by done. exact E.
    + intros [|j] Hj; [done|]. apply (proj1 (Hex _) Ee). lia.
  - intros (retained & [->%drop_before_spec (older & E & Hmax) Hc Hb] & -> & Hj). unfold Snapshot. change (_ || _) with false. cbv match. rewrite (Hj 0%nat) by lia. cbv zeta.
    set (sel := reverse _). assert (sel = messages) as ->.
    { destruct (Snapshot_newest w (Some (fun _ => false)) (mkFilter run "" "" true) evidenceSnapshotLimit evidenceSnapshotBytes now (pruneLocked (stream_hub w) now) sel Hw) as (older' & E' & Hc' & Hb' & Hmax' & _).
      { unfold Snapshot. change (_ || _) with false. cbv match zeta. fold sel. assert (forall l, existsb (fun _ : nat => false) l = false) as -> by (induction l; done). done. }
      rewrite run_filter in E' by done. cbn [pruneLocked with_history hub_history] in E'. unfold pruneLocked in E'. cbn [with_history hub_history] in E'. rewrite E in E'.
      assert (length sel = length messages) as Hl by (apply Nat.le_antisymm; [eapply (newest_unique older older')|eapply (newest_unique older' older)]; eauto; naive_solver).
      symmetry in E'. by apply app_inj_2 in E' as [_ ?]. }
    assert (existsb cancelled (seq 1 (length messages)) = false) as -> by (apply Hex; intros; apply Hj; lia). done.
Qed.

Section Endpoint.
Context `{FloatConversion}.
Lemma project_ok cancelled messages : forall i events,
  project cancelled i messages = Ok events <-> (forall j, (j < length messages)%nat -> cancelled (i + j)%nat = false) /\ Forall readable messages /\ events = omap shown messages.
Proof.
  induction messages as [|m messages IH]; intros i events; cbn [project length].
  { split; [intros [= <-]; split_and!; [lia|done|done]|by intros (_ & _ & ->)]. }
  destruct (cancelled i) eqn:Ec.
  { split; [done|]. intros (Hj & _). specialize (Hj 0%nat ltac:(lia)). rewrite Nat.add_0_r in Hj. congruence. }
  rewrite Forall_cons, <-evidenceEvent_readable. change (omap shown (m :: messages)) with (match shown m with Some e => e :: omap shown messages | None => omap shown messages end).
  unfold shown at 1. destruct (evidenceEvent m) as [event|err]; [|split; [done|by intros (_ & ([? ?] & _) & _)]].
  assert ((forall j, (j < S (length messages))%nat -> cancelled (i + j)%nat = false) <-> (forall j, (j < length messages)%nat -> cancelled (S i + j)%nat = false)) as ->.
  { split; intros Hj j Hlt; [specialize (Hj (S j) ltac:(lia)); by rewrite Nat.add_succ_r in Hj|destruct j as [|j]; [by rewrite Nat.add_0_r|rewrite Nat.add_succ_r; apply Hj; lia]]. }
  destruct (project cancelled (S i) messages) as [rest|] eqn:Ep; cbn [mbind result_bind].
  - apply IH in Ep as (Hj & Hr & ->). split; [intros [= <-]; split_and!; eauto; by destruct event|intros (_ & _ & ->); by destruct event].
  - split; [done|]. intros (Hj & (_ & Hr) & _). assert (project cancelled (S i) messages = Ok (omap shown messages)) as E by (by apply IH). congruence.
Qed.
Lemma shown_distinct messages : NoDup (map Message_Sequence messages) -> Forall (fun m => str_forall is_digit (Message_Sequence m) = true) messages ->
  NoDup (map EE_ID (omap shown messages)).
Proof.
  induction messages as [|m messages IH]; intros Hn Hd; [apply NoDup_nil_2|]. cbn [map] in Hn. apply NoDup_cons in Hn as [Hm Hn]. apply Forall_cons in Hd as [Hdm Hd].
  specialize (IH Hn Hd). cbn. destruct (shown m) as [e|] eqn:Es; [|exact IH]. cbn [map]. apply NoDup_cons. split; [|exact IH]. intros (e' & E & He')%list_elem_of_fmap.
  apply list_elem_of_omap in He' as (m' & Hm' & Es'). apply shown_stands_for in Es, Es'. rewrite (sf_id _ _ Es), (sf_id _ _ Es') in E.
  rewrite Forall_forall in Hd. apply stream_id_inj in E; [|done|by apply Hd]. apply Hm. rewrite E. by apply list_elem_of_fmap_2.
Qed.
(** The projections of the newest messages are an acceptable timeline, up to
    the types that are missing. *)
Lemma shown_acceptable w run messages : stream_reachable w -> messages `sublist_of` stream_log w -> len messages <= 1000 -> run <> "" ->
  acceptable run (omap shown messages) <-> Forall (fun m => is_Some (shown m) -> Message_EventType m <> "") messages.
Proof.
  intros Hw Hsub Hlen Hrun. pose proof (stream_invariant w Hw) as Hok. pose proof (stream_logged w Hw) as Hlog.
  assert (Forall (fun m => str_forall is_digit (Message_Sequence m) = true /\ slen (Message_EventType m) <= 64) messages) as Hm.
  { apply Forall_forall. intros m Hin. rewrite Forall_forall in Hlog. destruct (Hlog m (elem_of_sublist _ _ _ Hin Hsub)) as (e & n & t & Hv & ->). split; [apply FormatUint_digits|].
    unfold validateEvent in Hv. rewrite negb_true_iff, !orb_false_iff in Hv. cbn. lia. }
  split.
  - intros (_ & _ & _ & Hall). apply Forall_forall. intros m Hin [e He]. rewrite Forall_forall in Hall.
    assert (e ∈ omap shown messages) as Hine by (apply list_elem_of_omap; eauto). destruct (Hall e Hine) as ((_ & Ht & _) & _). by rewrite <-(sf_type m e (shown_stands_for m e He)).
  - intros Ht. split_and!; [done| | |].
    + assert (forall l : list Message, (length (omap shown l) <= length l)%nat) as Hle by (induction l as [|x l IH]; cbn; [lia|]; destruct (shown x); cbn; lia). specialize (Hle messages). unfold len in *. lia.
    + apply shown_distinct; [|eapply Forall_impl; [exact Hm|by intros ? [? _]]]. eapply sublist_NoDup; [by apply (sequences_distinct w)|]. by apply sublist_map.
    + apply Forall_forall. intros e (m & Hin & He)%list_elem_of_omap. rewrite Forall_forall in Hm, Ht. destruct (Hm m Hin) as [_ Hl]. pose proof (Ht m Hin ltac:(eauto)) as Hty.
      destruct (shown_stands_for m e He) as [S1 S2 S3 [_ S4] [_ S5] S6 [S7 S8] S9]. split_and!; [|done|].
      * unfold well_formed. rewrite S1, S2. split_and!; try done; [|by apply S6]. unfold stream_id. by destruct (Message_ID m).
      * unfold well_referenced. by rewrite S7, S8.
Qed.

Lemma readable_reads m : (exists monotonic unix payload, reads m monotonic unix payload) <-> readable m.
Proof.
  unfold readable. setoid_rewrite reads_unmarshal. split.
  - intros (t & u & payload & ? & ? & ?). split_and!; eauto.
  - intros ((t & ?) & (u & ?) & (payload & ?)). by exists t, u, payload.
Qed.
Lemma StreamEvidence_inv hub ctx slot run now hub' t : StreamEvidence hub ctx slot run now = (hub', Ok t) <->
  exists cancelled messages, run <> "" /\ slen run <= 128 /\ ctx = Some cancelled /\ slot = true /\
    Snapshot hub (Some cancelled) (mkFilter run "" "" true) evidenceSnapshotLimit evidenceSnapshotBytes now = (hub', Ok messages) /\
    project cancelled (S (length messages)) messages = Ok (omap shown messages) /\ Build run (omap shown messages) = Ok t.
Proof.
  unfold StreamEvidence. destruct ((run == "") || (128 <? slen run)) eqn:Er.
  { split; [done|]. intros (? & ? & Hr & Hl & _). exfalso. apply orb_true_iff in Er as [Er|Er]; [by apply bool_decide_eq_true in Er|lia]. }
  apply orb_false_iff in Er as [Er%bool_decide_eq_false Hl%Z.ltb_ge]. destruct ctx as [cancelled|]; [|split; [done|by intros (? & ? & _ & _ & ? & _)]].
  destruct slot; cbn [negb]; [|split; [done|by intros (? & ? & _ & _ & _ & ? & _)]]. split.
  - destruct (Snapshot _ _ _ _ _ _) as [h [messages|e]] eqn:Es; [|done]. intros [= <- E]. exists cancelled, messages. destruct (project _ _ _) as [events|e] eqn:Ep; [|done].
    pose proof Ep as (_ & _ & ->)%project_ok. destruct (Build run _) as [t0|] eqn:Eb; [|done]. injection E as <-. done.
  - intros (c & ms & _ & _ & [= <-] & _ & -> & -> & ->). done.
Qed.
(** A timeline of a run: each event once, by its clock and identifier,
    numbered from 1, its content unchanged. *)
Definition chronicle (run : string) (events : list EvidenceEvent) (t : Timeline) : Prop :=
  Timeline_SchemaVersion t = "1" /\ Timeline_RunID t = run /\
  exists order, order ≡ₚ events /\ StronglySorted before order /\ length (Timeline_Items t) = length order /\
    forall i ev it, order !! i = Some ev -> Timeline_Items t !! i = Some it -> shows i ev it.
Lemma chronicle_built run events t : Build run events = Ok t -> chronicle run events t.
Proof.
  intros Hb. pose proof (Build_chronology run events t Hb) as (Ho & Hr & _). apply Build_ok in Hb as [_ ->]. by split_and!.
Qed.
(** C31: the evidence endpoint answers with a timeline exactly when the run
    is named, the request was not cancelled and every message of the window -
    the newest of the run that the hub retains, at most 1000 and 4 MiB - is
    readable and, if shown, typed.  Every agent claim, kernel fact and
    containment of the window is then shown, and every decision that is final,
    each once, in the order of the server's clock, under an identifier bound to
    its sequence number so that repeated records never clash, with the result,
    hook, decision or containment its payload states ([projects]), and no
    attribution or correlation of its own.  Asking changes nothing in the hub
    but the messages that have aged out. *)
Theorem stream_evidence_exact w ctx slot run now hub t : stream_reachable w ->
  (StreamEvidence (stream_hub w) ctx slot run now = (hub, Ok t) <->
   exists cancelled retained messages events, run <> "" /\ slen run <= 128 /\ ctx = Some cancelled /\ slot = true /\
     evidence_window (stream_hub w) run now retained messages /\ hub = with_history (stream_hub w) (hub_latest (stream_hub w)) retained /\
     (forall j, (j <= 2 * length messages)%nat -> cancelled j = false) /\
     Forall (fun m => (exists monotonic unix payload, reads m monotonic unix payload) /\ (forall e, projects m e -> Message_EventType m <> "")) messages /\
     projected messages events /\ chronicle run events t /\ t = timeline_of run events) /\
  (forall m e, projects m e -> stands_for m e).
Proof.
  intros Hw. split; [|intros m e He; by apply shown_stands_for, shown_projects].
  assert (forall messages, Forall (fun m => (exists monotonic unix payload, reads m monotonic unix payload) /\ (forall e, projects m e -> Message_EventType m <> "")) messages <->
    Forall readable messages /\ Forall (fun m => is_Some (shown m) -> Message_EventType m <> "") messages) as Hall.
  { intros messages. rewrite <-Forall_and. apply Forall_proper; [|done]. intros m. rewrite readable_reads. split; intros [? Ht]; (split; [done|]); [intros [e He]|intros e He]; apply shown_projects in He; eauto. }
  split.
  - intros Es. pose proof Es as (cancelled & messages & Hr & Hl & -> & -> & Hs & Hp & Hb)%StreamEvidence_inv. pose proof (stream_invariant w Hw) as Hok.
    pose proof (Snapshot_messages _ _ _ _ _ _ _ _ Hok Hs) as [Hsub Hlen]. apply evidence_snapshot in Hs as (retained & Hwin & -> & Hc); [|done..].
    apply project_ok in Hp as (Hj & Hread & _). pose proof Hb as [Hacc ->]%Build_ok. exists cancelled, retained, messages, (omap shown messages). split_and!; try done.
    + intros j Hjl. destruct (decide (j <= length messages)%nat) as [?|Hn]; [by apply Hc|]. specialize (Hj (j - S (length messages))%nat ltac:(lia)). by replace (S (length messages) + (j - S (length messages)))%nat with j in Hj by lia.
    + apply Hall. split; [done|]. by apply (shown_acceptable w run).
    + by apply projected_shown_list.
    + by apply chronicle_built.
  - intros (cancelled & retained & messages & events & Hr & Hl & -> & -> & Hwin & -> & Hc & Hm & He & _ & ->). apply projected_shown_list in He as ->. apply Hall in Hm as [Hread Htyped].
    assert (Snapshot (stream_hub w) (Some cancelled) (mkFilter run "" "" true) evidenceSnapshotLimit evidenceSnapshotBytes now = (with_history (stream_hub w) (hub_latest (stream_hub w)) retained, Ok messages)) as Hs.
    { apply evidence_snapshot; [done..|]. exists retained. split_and!; [done|done|]. intros j Hj. apply Hc. lia. }
    pose proof (Snapshot_messages _ _ _ _ _ _ _ _ (stream_invariant w Hw) Hs) as [Hsub Hlen]. apply StreamEvidence_inv. exists cancelled, messages. split_and!; try done.
    + apply project_ok. split_and!; [|done|done]. intros j Hj. apply Hc. lia.
    + apply Build_ok. split; [|done]. by apply (shown_acceptable w).
Qed.
End Endpoint.

(** ** The lines of an audit process *)
(** The events [publishLine] publishes, with numbers [float64] holds. *)
Definition line_published `{UnicodeTables} (m : Message) : Prop :=
  exists sink h monotonic unix sanitized n now, m = message_of (line_event sink h monotonic unix sanitized) n now /\ decode_header sanitized = Some h /\
    positive (recordHeader_ServerReceivedMonotonicNS h) = Some monotonic /\ positive (recordHeader_ServerReceivedUnixNS h) = Some unix /\
    (forall v, Decode sanitized = Some v -> numbers_fit v = true).
Lemma publishLine_published `{UnicodeTables} clock sink line : sink_events (publishLine clock sink line) = sink_events sink \/
  exists h monotonic unix sanitized, sink_events (publishLine clock sink line) = sink_events sink ++ [line_event sink h monotonic unix sanitized] /\
    decode_header sanitized = Some h /\ positive (recordHeader_ServerReceivedMonotonicNS h) = Some monotonic /\ positive (recordHeader_ServerReceivedUnixNS h) = Some unix.
Proof.
  unfold publishLine. destruct (redactJSON _ _ _) as [text|]; [|by left]. destruct (decode_header text) as [h|] eqn:Eh; [|by left].
  destruct (positive _) as [mono|] eqn:Em; [|by left]. destruct (positive (recordHeader_ServerReceivedUnixNS h)) as [unix|] eqn:Eu; [|by left].
  destruct (dropped_count h); [|by left]. cbv zeta. destruct (Publish _ _ _) as [hub [m|e]]; [|by left]. right. by exists h, mono, unix, text.
Qed.
Lemma line_readable `{UnicodeTables} m : line_published m -> readable m /\ Message_EventType m <> "".
Proof.
  intros (sink & h & mono & unix & text & n & now & -> & Hh & Hm & Hu & Hf). split.
  - assert (forall t, 1 <= t <= u64_max -> exists u, ParseUint (FormatUint t) = Some u /\ u <> 0) as Hclock.
    { intros t Ht. exists t. split; [apply ParseUint_FormatUint; lia|lia]. }
    split; [apply Hclock; by eapply positive_range|]. split; [apply Hclock; by eapply positive_range|]. cbn [message_of line_event Message_Payload StreamEvent_Payload].
    unfold decode_header in Hh. unfold UnmarshalValues. destruct (Decode text) as [[]|] eqn:Ed; try done. rewrite (Hf _ eq_refl). by eexists.
  - cbn [message_of line_event Message_EventType StreamEvent_EventType]. unfold event_type, record_type. cbv zeta.
    destruct (bool_decide_reflect (recordHeader_RecordType h = "")); cbn [negb]; [destruct (bool_decide_reflect (recordHeader_EventTypeName h = ""))|]; try done.
    by rewrite bool_decide_eq_false_2.
Qed.
(** The evidence endpoint is never closed by what an audit process
    writes: over a hub fed by the lines of the sink, every request for a named
    run that is not cancelled is answered with a timeline. *)
Theorem audit_evidence_served `{UnicodeTables} `{FloatConversion} w run now : stream_reachable w -> Forall line_published (stream_log w) -> run <> "" -> slen run <= 128 ->
  exists hub t, StreamEvidence (stream_hub w) (Some (fun _ => false)) true run now = (hub, Ok t).
Proof.
  intros Hw Hlines Hrun Hlen. pose proof (stream_invariant w Hw) as Hok. set (never := fun _ : nat => false).
  assert (exists hub messages, Snapshot (stream_hub w) (Some never) (mkFilter run "" "" true) evidenceSnapshotLimit evidenceSnapshotBytes now = (hub, Ok messages)) as (hub & messages & Es).
  { unfold Snapshot. change (_ || _) with false. change (never 0%nat) with false. cbv match zeta. do 2 eexists. f_equal. assert (forall l, existsb never l = false) as -> by (induction l; done). done. }
  pose proof (Snapshot_messages _ _ _ _ _ _ _ _ Hok Es) as [Hsub Hl].
  assert (Forall (fun m => readable m /\ Message_EventType m <> "") messages) as Hall.
  { apply Forall_forall. intros m Hin. rewrite Forall_forall in Hlines. by apply line_readable, Hlines, (elem_of_sublist messages). }
  exists hub, (timeline_of run (omap shown messages)). unfold StreamEvidence. rewrite bool_decide_eq_false_2 by done. destruct (Z.ltb_spec 128 (slen run)); [lia|]. cbn [orb negb].
  rewrite Es. f_equal. rewrite (proj2 (project_ok never messages _ (omap shown messages))).
  - rewrite (proj2 (Build_ok run _ (timeline_of run (omap shown messages)))); [done|]. split; [|done]. apply (shown_acceptable w); try done.
    eapply Forall_impl; [exact Hall|]. intros m [_ ?] _. done.
  - split_and!; [done| |done]. eapply Forall_impl; [exact Hall|]. by intros m [? _].
Qed.

(** ** Readers *)
(** Only a reader with the token, who names a run, gets evidence. *)
Lemma evidence_needs_token `{UnicodeTables} auth request run provider : let reply := EvidenceHandler_ServeHTTP auth request run provider in
  reply_status reply = 200 <-> authorized auth (Header_Get request "Authorization") = true /\ run <> "" /\ slen run <= 128 /\ is_Some provider.
Proof.
  cbv zeta. unfold EvidenceHandler_ServeHTTP. destruct (authorized _ _); cbn [negb]; [|split; [done|by intros [? _]]].
  destruct (bool_decide_reflect (run = "")) as [->|Hr]; [split; [done|by intros (_ & ? & _)]|]. cbn [orb].
  destruct (Z.ltb_spec 128 (slen run)); [split; [done|intros (_ & _ & ? & _); lia]|]. destruct provider; [|split; [done|by intros (_ & _ & _ & ? & ?)]]. split; [eauto|done].
Qed.

(** ** A run shown *)
Module EvidenceDemo.
#[export] Instance demo_conversion : FloatConversion := fun _ _ => 0.
#[export] Instance demo_case : UnicodeTables := ascii_tables.
Definition never (_ : nat) : bool := false.
Definition demo_evidence : Hub * result EvidenceError Timeline := StreamEvidence (stream_hub demo_stream) (Some never) true "run-1" 400.
Definition demo_text : string := match redactJSON maxPayloadBytes (demo_line "!") ["hunter22"] with Ok text => text | Err _ => "" end.
Definition demo_header : recordHeader := default (mkRecordHeader "" "" "" "" "" "" "" "") (decode_header demo_text).
Definition demo_audit : StreamEvent := line_event demo_sink demo_header 17 18 demo_text.
Definition demo_audit_hub : Hub := (Publish demo_sink_hub demo_audit 200).1.
Definition demo_audit_message : Message := message_of demo_audit 1 200.
Definition demo_audit_stream : Stream := mkStream demo_audit_hub [demo_audit_message] ∅ ∅.
End EvidenceDemo.
Import EvidenceDemo.
Lemma stream_evidence_exact_witness : exists messages events t, demo_evidence.2 = Ok t /\ projected messages events /\ chronicle "run-1" events t /\
  map Item_ID (Timeline_Items t) = ["a@stream-1"; "b@stream-2"].
Proof.
  assert (exists t, demo_evidence.2 = Ok t /\ map Item_ID (Timeline_Items t) = ["a@stream-1"; "b@stream-2"]) as (t & E & Hi) by (eexists; split; vm_compute; reflexivity).
  destruct (stream_evidence_exact demo_stream (Some never) true "run-1" 400 demo_evidence.1 t demo_stream_reached) as [H _].
  destruct (proj1 H) as (c & retained & messages & events & _ & _ & _ & _ & _ & _ & _ & _ & Hp & Hc & _).
  - rewrite <-E. unfold demo_evidence. destruct (StreamEvidence _ _ _ _ _). reflexivity.
  - exists messages, events, t. auto.
Defined.
Lemma audit_evidence_served_witness : exists hub t, StreamEvidence (stream_hub demo_audit_stream) (Some (fun _ => false)) true "run-1" 300 = (hub, Ok t).
Proof.
  apply (audit_evidence_served demo_audit_stream "run-1" 300).
  - apply (stream_next (mkStream demo_sink_hub [] ∅ ∅)); [apply (stream_start (mkHubOptions 2 0 1 "")); vm_compute; reflexivity|].
    refine (step_publish (mkStream demo_sink_hub [] ∅ ∅) demo_audit 200 demo_audit_hub (Ok demo_audit_message) _). vm_compute. reflexivity.
  - constructor; [|constructor]. exists demo_sink, demo_header, 17, 18, demo_text, 1, 200. split; [reflexivity|]. split; [vm_compute; reflexivity|]. split; [vm_compute; reflexivity|].
    split; [vm_compute; reflexivity|]. intros v Hv. assert (match Decode demo_text with Some v => numbers_fit v | None => true end = true) as H by (vm_compute; reflexivity). rewrite Hv in H. exact H.
  - discriminate.
  - vm_compute. discriminate.
Defined.
