(* ===== verification/RuntimePipeline.v ===== *)
(** * The runtime pipeline ([internal/api/runtime_pipeline.go])

    One worker reads a bounded queue of checkpoints and kernel events and
    turns each into evidence: it attributes the event to a registered run,
    correlates it with recent checkpoints, redacts it, hands it to the store
    and to the stream, and asks the policy coordinator for decisions.  The
    components it calls are shared with other goroutines: between two calls
    [env_interfere] changes them. *)
From S2P Require Import Prelude GoStd GoTime Json Crypto Scope Events Engine PolicyAudit Killer RunStore Registration Checkpoint Coordinator Correlator Evidence Redact StoreRecord Writer Hub EvidenceCodec StreamHandler Overview EvidenceApi AuditStream RunLifecycle.
Open Scope Z_scope.

(** ** State *)
Inductive runtimeInput := KernelInput (ev : KernelEvent) | CheckpointInput (checkpoint : Checkpoint).
Inductive RuntimeError :=
  | RunOverview (e : OverviewError) | ReceiptClockFailed | LifecycleRejected | CheckpointWithoutRun | EventWithoutRun | CgroupMismatch
  | Redaction (e : RecordError) | StorageRejected | PayloadUnreadable | TimelineRefused (e : TimelineError) | PublishRefused (e : HubError)
  | PolicyFailed (e : CoordinatorError).
(** The components the pipeline shares; [S] is the state of the containment
    executor. *)
Record Shared (B S : Type) := mkShared {
  sh_runs : RunStore;
  sh_engine : option Engine;
  sh_executor : S;
  sh_writer : Writer B;
  sh_hub : Hub;
  sh_overview : OverviewState;
}.
Arguments mkShared {B S} _ _ _ _ _ _.
Arguments sh_runs {B S} _.
Arguments sh_engine {B S} _.
Arguments sh_executor {B S} _.
Arguments sh_writer {B S} _.
Arguments sh_hub {B S} _.
Arguments sh_overview {B S} _.
(** What the worker meets while it processes one input: the other goroutines,
    the clocks and the pipeline's context. *)
Record Env (B S : Type) := mkEnv {
  env_interfere : nat -> Shared B S -> Shared B S;
  env_now : nat -> Time;
  env_receipt : nat -> option CheckpointReceiptTime;
  env_cancelled : bool;
  env_ctx : bool * bool;
}.
Arguments mkEnv {B S} _ _ _ _ _.
Arguments env_interfere {B S} _.
Arguments env_now {B S} _.
Arguments env_receipt {B S} _.
Arguments env_cancelled {B S} _.
Arguments env_ctx {B S} _.
(** One call of [emit]: what it was given, the record it stored and whether the
    store took it, and what it published. *)
Record Emission := mkEmission {
  em_input : runtimeInput;
  em_run : AgentRun;
  em_event : EvidenceEvent;
  em_record : option StoreRecord;
  em_stored : bool;
  em_published : option StreamEvent;
}.
(** The worker's view: the components, its own fields, and what it reported
    and emitted. *)
Record Worker (B S : Type) := mkWorker {
  wk_shared : Shared B S;
  wk_sequence : Z;
  wk_claims : list CorrelationCheckpoint;
  wk_errors : list RuntimeError;
  wk_emissions : list Emission;
}.
Arguments mkWorker {B S} _ _ _ _ _.
Arguments wk_shared {B S} _.
Arguments wk_sequence {B S} _.
Arguments wk_claims {B S} _.
Arguments wk_errors {B S} _.
Arguments wk_emissions {B S} _.

Section Pipeline.
Context {B S : Type} `{BatchStore B} `{ContainmentExecutor S} `{UnicodeTables} `{FloatConversion}.
(** The instance the registration handler serves, the redactor of the options
    and the texts of contract errors. *)
Context (instanceID : Z) (redactor : Redactor) (describe : ContractError -> string).
Implicit Types (w : Worker B S) (sh : Shared B S) (env : Env B S).

Definition with_shared w sh : Worker B S := mkWorker sh (wk_sequence w) (wk_claims w) (wk_errors w) (wk_emissions w).
Definition interfered env (n : nat) w : Worker B S := with_shared w (env_interfere env n (wk_shared w)).
Definition reported w (e : RuntimeError) : Worker B S := mkWorker (wk_shared w) (wk_sequence w) (wk_claims w) (wk_errors w ++ [e]) (wk_emissions w).
Definition emitted w (e : Emission) : Worker B S := mkWorker (wk_shared w) (wk_sequence w) (wk_claims w) (wk_errors w) (wk_emissions w ++ [e]).
Definition set_runs sh (runs : RunStore) : Shared B S := mkShared runs (sh_engine sh) (sh_executor sh) (sh_writer sh) (sh_hub sh) (sh_overview sh).
Definition set_executor sh (s : S) : Shared B S := mkShared (sh_runs sh) (sh_engine sh) s (sh_writer sh) (sh_hub sh) (sh_overview sh).
Definition set_writer sh (writer : Writer B) : Shared B S := mkShared (sh_runs sh) (sh_engine sh) (sh_executor sh) writer (sh_hub sh) (sh_overview sh).
Definition set_hub sh (hub : Hub) : Shared B S := mkShared (sh_runs sh) (sh_engine sh) (sh_executor sh) (sh_writer sh) hub (sh_overview sh).
Definition set_overview sh (overview : OverviewState) : Shared B S := mkShared (sh_runs sh) (sh_engine sh) (sh_executor sh) (sh_writer sh) (sh_hub sh) overview.

(** ** Emitting evidence *)
Definition evidence_record (run : AgentRun) (event : EvidenceEvent) (severity : string) : StoreRecord :=
  mkStoreRecord (EE_ID event) (EE_Type event) (Run_RunID run) (EE_Source event) (EE_ServerMonotonicNS event) (EE_ServerUnixNS event)
    (Run_InstanceID run) (Run_ScopeCookie run) severity (EE_Summary event) None (Marshal (event_json event)).
Definition stripCorrelation (e : EvidenceEvent) : EvidenceEvent :=
  mkEvidenceEvent (EE_ID e) (EE_Type e) (EE_Source e) (EE_ServerMonotonicNS e) (EE_ServerUnixNS e) (EE_Summary e) (EE_Attribution e) None
    (EE_Operation e) (EE_Decision e) (EE_Containment e).
Definition stream_event (run : AgentRun) (event : EvidenceEvent) (severity : string) (audit : bool) (item : Item) : StreamEvent :=
  mkStreamEvent (EE_ID event) (EE_Type event) (EE_Source event) (Run_RunID run) severity (EE_Type event) (EE_ServerMonotonicNS event)
    (EE_ServerUnixNS event) audit (Marshal (item_json item)).
(** [n]: the number of the first interference of this call. *)
Definition emit env (n : nat) (input : runtimeInput) w (run : AgentRun) (event : EvidenceEvent) (severity : string) (audit : bool) : Worker B S :=
  match Apply redactor (evidence_record run event severity) with
  | Err e => reported (emitted w (mkEmission input run event None false None)) (Redaction e)
  | Ok record =>
      let w := interfered env n w in
      let (writer, stored) := Submit (sh_writer (wk_shared w)) record in
      let w := with_shared w (set_writer (wk_shared w) writer) in
      let w := if stored then w else reported w StorageRejected in
      let note w published := emitted w (mkEmission input run event (Some record) stored published) in
      match Unmarshal_event (Record_Payload record) event with
      | None => reported (note w None) PayloadUnreadable
      | Some event =>
          match Build (Run_RunID run) [stripCorrelation event] with
          | Err e => reported (note w None) (TimelineRefused e)
          | Ok timeline =>
              let w := interfered env (n + 1) w in
              let published := stream_event run event severity audit (default (event_item event) (head (Timeline_Items timeline))) in
              let (hub, r) := Publish (sh_hub (wk_shared w)) published (env_now env (n + 1)) in
              let w := with_shared w (set_hub (wk_shared w) hub) in
              match r with Ok _ => note w (Some published) | Err e => reported (note w None) (PublishRefused e) end
          end
      end
  end.

(** ** Checkpoints *)
Definition parsed (s : string) : Z := match ParseUint s with Some v => v | None => 0 end.
Definition claim_of (c : Checkpoint) : CorrelationCheckpoint :=
  mkCorrelationCheckpoint (Checkpoint_ID c) (Checkpoint_RunID c) (parsed (Checkpoint_ServerReceivedMonotonicNS c)) 0 (parsed (Checkpoint_Sequence c))
    (Checkpoint_Type c) (Checkpoint_Phase c) (Checkpoint_ToolName c) 0 0.
Definition claim_event (c : Checkpoint) : EvidenceEvent :=
  mkEvidenceEvent (Checkpoint_ID c) (Checkpoint_Type c) AgentClaim (parsed (Checkpoint_ServerReceivedMonotonicNS c)) (parsed (Checkpoint_ServerReceivedUnixNS c))
    (Checkpoint_Summary c) None None None None None.
Definition push_claim (claims : list CorrelationCheckpoint) (c : CorrelationCheckpoint) : list CorrelationCheckpoint :=
  let claims := claims ++ [c] in if 1024 <? len claims then tail claims else claims.
Definition processCheckpoint env w (c : Checkpoint) : Worker B S :=
  let w := interfered env 0 w in
  match Get (sh_runs (wk_shared w)) (Checkpoint_RunID c) with
  | None => reported w CheckpointWithoutRun
  | Some run =>
      let w := mkWorker (wk_shared w) (wk_sequence w) (push_claim (wk_claims w) (claim_of c)) (wk_errors w) (wk_emissions w) in
      emit env 1 (CheckpointInput c) w run (claim_event c) "info" false
  end.

(** ** Kernel events *)
Definition kernel_id (ev : KernelEvent) (sequence : Z) : string := "kernel-" +:+ FormatUint (Event_InstanceID ev) +:+ "-" +:+ FormatUint sequence.
(** The loop over the claims from the newest: at most 64 of the run. *)
Definition recent_claims (claims : list CorrelationCheckpoint) (runID : string) : list CorrelationCheckpoint :=
  take 64 (List.filter (fun c => CC_RunID c == runID) (reverse claims)).
Definition default_correlator (resolve : ResolveRun) : option Correlator :=
  match NewCorrelator (Some resolve) (mkCorrelationOptions 0 0 0) with Ok k => Some k | Err _ => None end.
Definition attribution_of (a : EventAttribution) : Attribution :=
  mkAttribution (EventAttribution_RunID a) (EventAttribution_RunStatus a) (EventAttribution_Status a).
Definition correlation_event (ev : KernelEvent) (id : string) : CorrelationEvent :=
  mkCorrelationEvent id (Event_InstanceID ev) (Event_ScopeCookie ev) (Event_ServerReceivedMonotonicNS ev) (Event_PID ev) (Event_TGID ev)
    (Event_EventTypeName ev) (Base (Event_Data ev)).
Definition family_values (ev : KernelEvent) : Values := [("family_name", JString (Event_AddressFamilyName ev))].
Definition summary_values (ev : KernelEvent) : Values :=
  [("data", JString (Event_Data ev)); ("dst_ip", JString (Event_DestinationIP ev)); ("dst_port", JString (FormatUint (Event_DestinationPort ev)))].
Definition kernel_event_evidence (ev : KernelEvent) (id : string) (a : EventAttribution) (correlation : CorrelationResult) : EvidenceEvent :=
  mkEvidenceEvent id (Event_EventTypeName ev) KernelFact (Event_ServerReceivedMonotonicNS ev) (Event_ServerReceivedUnixNS ev)
    (evidenceSummary (Event_EventTypeName ev) (summary_values ev))
    (Some (mkEvidenceAttribution (EventAttribution_Status a) (EventAttribution_RunID a) (EventAttribution_RunStatus a) "instance_id+scope_cookie"))
    (Some correlation)
    (Some (mkOperationResult true (Event_ActionResultName ev) (kernelMechanism (Event_EventTypeName ev) (family_values ev)))) None None.
Definition decision_event (ev : KernelEvent) (id : string) (receipt : CheckpointReceiptTime) (final : FinalDecision) : EvidenceEvent :=
  let mechanism := if Final_Enforced final && (Final_RequestedAction final == "block") then kernelMechanism (Event_EventTypeName ev) (family_values ev) else "post_event" in
  mkEvidenceEvent ("decision-" +:+ id) "policy_decision" PolicyDecision (Receipt_Monotonic receipt) (Receipt_Unix receipt)
    ("Policy " +:+ Final_PolicyID final +:+ " requested " +:+ Final_RequestedAction final) None None None
    (Some (mkEvidenceDecision (Final_PolicyID final) (FormatUint (Final_RuleID final)) (Final_RequestedAction final) (Final_Decision final) (Final_Enforced final) mechanism)) None.
Definition containment_event (id : string) (receipt : CheckpointReceiptTime) (o : Outcome) : EvidenceEvent :=
  mkEvidenceEvent ("containment-" +:+ id) "containment_result" ContainmentResult (Receipt_Monotonic receipt) (Receipt_Unix receipt)
    ("Post-event containment " +:+ Outcome_EnforcementResult o) None None None None
    (Some (mkContainment true (Outcome_EnforcementResult o) (Outcome_EnforcementMethod o)
      ("cgroup " +:+ FormatUint (Outcome_CgroupID o) +:+ "; instance " +:+ FormatUint (Outcome_InstanceID o) +:+ "; scope " +:+ FormatUint (Outcome_ScopeCookie o))
      (Outcome_SyscallResult o))).
(** The loop over the derived records; the [k]-th reads the clock and uses the
    interferences from [10 * (k + 1)] on. *)
Fixpoint process_derived env (k : nat) (ev : KernelEvent) (id : string) (runID : string) (registered : AgentRun) w (derived : list DerivedRecord) : Worker B S :=
  match derived with
  | [] => w
  | record :: derived' =>
      match env_receipt env k with
      | None => reported w ReceiptClockFailed
      | Some receipt =>
          let n := (10 * (k + 1))%nat in
          let w := match record with
            | DerivedDecision d =>
                match Report_Final (Audit_Report d) with
                | None => w
                | Some final =>
                    let w := interfered env n w in
                    let w := with_shared w (set_overview (wk_shared w) (ObservePolicyHit (sh_overview (wk_shared w)) runID).1) in
                    emit env (n + 1) (KernelInput ev) w registered (decision_event ev id receipt final) "medium" false
                end
            | DerivedContainment r => emit env n (KernelInput ev) w registered (containment_event id receipt (Containment_Outcome r)) "high" false
            end in
          process_derived env (Datatypes.S k) ev id runID registered w derived'
      end
  end.
(** The event is observed and the policies asked, once it was emitted. *)
Definition process_policy env (ev : KernelEvent) (id : string) (runID : string) (registered : AgentRun) w : Worker B S :=
  let w := interfered env 4 w in
  let w := with_shared w (set_overview (wk_shared w)
    (ObserveEvent (sh_overview (wk_shared w)) (mkOverviewEventInput runID false (Event_ActionResult ev =? ActionResultBlocked) 0) (env_now env 4)).1) in
  let w := interfered env 5 w in
  let (s, r) := ProcessAuditEvent describe (sh_runs (wk_shared w)) (sh_engine (wk_shared w)) (env_cancelled env) (env_ctx env) ev (sh_executor (wk_shared w)) in
  let w := with_shared w (set_executor (wk_shared w) s) in
  match r with
  | Err ErrPolicyEventNotActiveRun => w
  | Err e => reported w (PolicyFailed e)
  | Ok derived => process_derived env 0 ev id runID registered w derived
  end.
Definition processKernel env w (ev : KernelEvent) : Worker B S :=
  let sequence := wrap64 (wk_sequence w + 1) in
  let w := mkWorker (wk_shared w) sequence (wk_claims w) (wk_errors w) (wk_emissions w) in
  let id := kernel_id ev sequence in
  let w := interfered env 0 w in
  let (runs, attribution) := attribute (sh_runs (wk_shared w)) (mkScopeIdentity (Event_InstanceID ev) (Event_ScopeCookie ev)) instanceID (env_now env 0) in
  let w := with_shared w (set_runs (wk_shared w) runs) in
  let runID := EventAttribution_RunID attribution in
  if runID == "" then reported w EventWithoutRun
  else
    let w := interfered env 1 w in
    match Get (sh_runs (wk_shared w)) runID with
    | None => reported w CgroupMismatch
    | Some registered =>
        if negb (Run_CgroupID registered =? Event_CgroupID ev) then reported w CgroupMismatch
        else match default_correlator (fun _ _ _ => attribution_of attribution) with
        | None => w
        | Some matcher =>
            let correlation := Correlate matcher (correlation_event ev id) (recent_claims (wk_claims w) runID) in
            let severity := if Event_ActionResult ev =? ActionResultBlocked then "high" else "info" in
            let w := emit env 2 (KernelInput ev) w registered (kernel_event_evidence ev id attribution correlation) severity (Event_Action ev =? KernelActionAudit) in
            process_policy env ev id runID registered w
        end
    end.
Definition process env w (input : runtimeInput) : Worker B S :=
  match input with CheckpointInput c => processCheckpoint env w c | KernelInput ev => processKernel env w ev end.
End Pipeline.

(** ** The queue *)
Section Runtime.
Context {B S : Type} `{BatchStore B} `{ContainmentExecutor S} `{UnicodeTables} `{FloatConversion}.
Context (instanceID : Z) (redactor : Redactor) (describe : ContractError -> string).
(** [rt_cancelled]: the pipeline's context is done.  The last three fields
    record the inputs taken, the inputs processed and how many were refused. *)
Record Runtime := mkRuntime {
  rt_closing : bool;
  rt_done : bool;
  rt_cancelled : bool;
  rt_queue : list runtimeInput;
  rt_drops : Z;
  rt_worker : Worker B S;
  rt_accepted : list runtimeInput;
  rt_processed : list runtimeInput;
  rt_refused : nat;
}.
Implicit Types (rt : Runtime) (env : Env B S).
Definition runtimeCapacity : Z := 256.
Definition NewRuntimePipeline (sh : Shared B S) : Runtime := mkRuntime false false false [] 0 (mkWorker sh 0 [] [] []) [] [] 0.
Definition submit rt (input : runtimeInput) : Runtime * bool :=
  if negb (rt_closing rt) && (len (rt_queue rt) <? runtimeCapacity)
  then (mkRuntime (rt_closing rt) (rt_done rt) (rt_cancelled rt) (rt_queue rt ++ [input]) (rt_drops rt) (rt_worker rt) (rt_accepted rt ++ [input]) (rt_processed rt) (rt_refused rt), true)
  else (mkRuntime (rt_closing rt) (rt_done rt) (rt_cancelled rt) (rt_queue rt) (wrap64 (rt_drops rt + 1)) (rt_worker rt) (rt_accepted rt) (rt_processed rt) (Datatypes.S (rt_refused rt)), false).
Definition QueueDrops rt : Z := rt_drops rt.
Definition set_worker rt (w : Worker B S) : Runtime :=
  mkRuntime (rt_closing rt) (rt_done rt) (rt_cancelled rt) (rt_queue rt) (rt_drops rt) w (rt_accepted rt) (rt_processed rt) (rt_refused rt).
(** [RunChanged] runs on the goroutine that changed the run. *)
Definition lifecycle_record (run : AgentRun) (receipt : CheckpointReceiptTime) : StoreRecord :=
  mkStoreRecord ("run-" +:+ Run_RunID run +:+ "-" +:+ Run_Status run) "run_lifecycle" (Run_RunID run) SourceDiagnostic (Receipt_Monotonic receipt)
    (Receipt_Unix receipt) (Run_InstanceID run) (Run_ScopeCookie run) "" ("Run " +:+ Run_Status run) (Some {[ "status" := Run_Status run ]}) "".
Definition RunChanged (w : Worker B S) (run : AgentRun) (receipt : option CheckpointReceiptTime) : Worker B S :=
  let (overview, r) := UpsertRun (sh_overview (wk_shared w)) (mkOverviewRunInput (Run_RunID run) (Run_AgentName run) (Run_Status run) (Run_RegisteredAt run)) in
  let w := with_shared w (set_overview (wk_shared w) overview) in
  let w := match r with Ok _ => w | Err e => reported w (RunOverview e) end in
  match receipt with
  | None => reported w ReceiptClockFailed
  | Some receipt =>
      let (writer, stored) := Submit (sh_writer (wk_shared w)) (lifecycle_record run receipt) in
      let w := with_shared w (set_writer (wk_shared w) writer) in
      if stored then w else reported w LifecycleRejected
  end.
(** One turn of [for input := range queue], and its end: the channel is closed
    and empty. *)
Definition work env rt : option Runtime :=
  match rt_queue rt with
  | input :: queue =>
      Some (mkRuntime (rt_closing rt) (rt_done rt) (rt_cancelled rt) queue (rt_drops rt) (process instanceID redactor describe env (rt_worker rt) input)
              (rt_accepted rt) (rt_processed rt ++ [input]) (rt_refused rt))
  | [] => if rt_closing rt && negb (rt_done rt)
          then Some (mkRuntime true true (rt_cancelled rt) [] (rt_drops rt) (rt_worker rt) (rt_accepted rt) (rt_processed rt) (rt_refused rt)) else None
  end.
(** [Close] with a context: the queue is closed; the call returns once the
    worker is done, or with the error of its context, and cancels. *)
Definition begin_shutdown rt : Runtime :=
  mkRuntime true (rt_done rt) (rt_cancelled rt) (rt_queue rt) (rt_drops rt) (rt_worker rt) (rt_accepted rt) (rt_processed rt) (rt_refused rt).
Definition cancel rt : Runtime :=
  mkRuntime (rt_closing rt) (rt_done rt) true (rt_queue rt) (rt_drops rt) (rt_worker rt) (rt_accepted rt) (rt_processed rt) (rt_refused rt).
(** [ctx]: the error of the caller's context, if it is done. *)
Inductive shutdown_returns rt : option string -> option string -> Prop :=
| shutdown_clean ctx : rt_done rt = true -> shutdown_returns rt ctx None
| shutdown_late e : shutdown_returns rt (Some e) (Some e).

(** ** Other goroutines *)
(** The registry keeps every run it has, with its scope and its cgroup. *)
Definition keeps_runs (s s' : RunStore) : Prop :=
  store_ok s' /\ forall id run, store_runs s !! id = Some run ->
    exists run', store_runs s' !! id = Some run' /\ scopeIdentity run' = scopeIdentity run /\ Run_CgroupID run' = Run_CgroupID run.
Definition receipt_ok (r : CheckpointReceiptTime) : Prop := 0 <= Receipt_Monotonic r <= u64_max /\ 0 <= Receipt_Unix r <= u64_max.
Record env_ok env : Prop := {
  env_keeps n sh : store_ok (sh_runs sh) -> keeps_runs (sh_runs sh) (sh_runs (env_interfere env n sh));
  env_receipts k r : env_receipt env k = Some r -> receipt_ok r;
}.
(** The clocks of an event are [uint64]. *)
Definition input_ok (input : runtimeInput) : Prop :=
  match input with
  | KernelInput ev => 0 <= Event_ServerReceivedMonotonicNS ev <= u64_max /\ 0 <= Event_ServerReceivedUnixNS ev <= u64_max
  | CheckpointInput _ => True
  end.
Inductive runtime_step rt : Runtime -> Prop :=
| runtime_submit input : input_ok input -> runtime_step rt (submit rt input).1
| runtime_work env rt' : env_ok env -> (rt_cancelled rt = true -> env_cancelled env = true) -> work env rt = Some rt' -> runtime_step rt rt'
| runtime_changed run receipt : runtime_step rt (set_worker rt (RunChanged (rt_worker rt) run receipt))
| runtime_close : runtime_step rt (begin_shutdown rt)
| runtime_cancel ctx r : rt_closing rt = true -> shutdown_returns rt ctx r -> runtime_step rt (cancel rt)
| runtime_world sh : keeps_runs (sh_runs (wk_shared (rt_worker rt))) (sh_runs sh) -> runtime_step rt (set_worker rt (with_shared (rt_worker rt) sh)).
Inductive runtime_reachable : Runtime -> Prop :=
| runtime_start sh : store_ok (sh_runs sh) -> runtime_reachable (NewRuntimePipeline sh)
| runtime_next rt rt' : runtime_reachable rt -> runtime_step rt rt' -> runtime_reachable rt'.

(** ** Conservation *)
Record queue_ok rt : Prop := {
  qo_flow : rt_accepted rt = rt_processed rt ++ rt_queue rt;
  qo_bound : len (rt_queue rt) <= runtimeCapacity;
  qo_drops : rt_drops rt = Z.of_nat (rt_refused rt) mod 2 ^ 64;
  qo_done : rt_done rt = true -> rt_closing rt = true /\ rt_queue rt = [];
  qo_inputs : Forall input_ok (rt_accepted rt);
}.
Lemma queue_step rt rt' : queue_ok rt -> runtime_step rt rt' -> queue_ok rt'.
Proof.
  intros [Hf Hb Hd Hn Hi]. destruct 1 as [input Hin|env rt' He Hc Hw|run receipt| |ctx r Hcl _|sh _]; try by split.
  - unfold submit. destruct (negb (rt_closing rt) && (len (rt_queue rt) <? runtimeCapacity)) eqn:E; cbn [fst].
    + apply andb_true_iff in E as [Ec El]. apply Z.ltb_lt in El. apply negb_true_iff in Ec. split; cbn; try done.
      * by rewrite Hf, app_assoc.
      * rewrite len_app. unfold len, runtimeCapacity in *. cbn. lia.
      * intros Hdone. destruct (Hn Hdone). congruence.
      * apply Forall_app. split; [done|by constructor].
    + split; cbn; try done. rewrite Hd. unfold wrap64. change (Z.of_nat (Datatypes.S (rt_refused rt))) with (Z.of_nat (1 + rt_refused rt)).
      rewrite Nat2Z.inj_add, Zplus_mod_idemp_l. f_equal. lia.
  - unfold work in Hw. destruct (rt_queue rt) as [|input queue] eqn:Eq.
    + destruct (rt_closing rt && negb (rt_done rt)); [|done]. injection Hw as <-. split; cbn; try done.
    + injection Hw as <-. split; cbn; try done; [by rewrite Hf, <-app_assoc| |].
      * unfold len in *. cbn in Hb. lia.
      * intros Hdone. by destruct (Hn Hdone).
  - split; cbn; try done. intros Hdone. by destruct (Hn Hdone).
Qed.
Lemma queue_invariant rt : runtime_reachable rt -> queue_ok rt.
Proof. induction 1 as [sh Hs|rt rt' _ IH Hs]; [|by eapply queue_step]. split; cbn; try done. Qed.
(** Turns of the worker alone. *)
Fixpoint turns env (n : nat) rt : option Runtime :=
  match n with O => Some rt | Datatypes.S n' => rt' ← work env rt; turns env n' rt' end.
Lemma turns_drain env rt : queue_ok rt -> rt_closing rt = true -> rt_done rt = false ->
  exists rt', turns env (length (rt_queue rt) + 1) rt = Some rt' /\ rt_done rt' = true /\ rt_processed rt' = rt_accepted rt /\ rt_accepted rt' = rt_accepted rt.
Proof.
  remember (rt_queue rt) as queue eqn:Eq. revert rt Eq. induction queue as [|input queue IH]; intros rt Eq Hok Hc Hn; cbn [length Nat.add turns]; unfold work; rewrite <-Eq.
  - rewrite Hc, Hn. cbn. eexists. split; [reflexivity|]. cbn. rewrite (qo_flow rt Hok), <-Eq, app_nil_r. done.
  - cbn [mbind option_bind]. destruct (IH (mkRuntime (rt_closing rt) (rt_done rt) (rt_cancelled rt) queue (rt_drops rt) (process instanceID redactor describe env (rt_worker rt) input)
      (rt_accepted rt) (rt_processed rt ++ [input]) (rt_refused rt))) as (rt' & E & H1' & H2' & H3'); try done.
    + destruct Hok as [Hf Hb Hd Hdn Hi]. split; cbn; try done; [by rewrite Hf, <-Eq, <-app_assoc|rewrite <-Eq in Hb; unfold len in *; cbn in Hb; lia|congruence].
    + by exists rt'.
Qed.
End Runtime.

(** ** Truth of the evidence *)
Section Truth.
Context {B S : Type} `{BatchStore B} `{ContainmentExecutor S} `{AsciiCase} `{FloatConversion}.
Context (instanceID : Z) (redactor : Redactor) (describe : ContractError -> string).
Implicit Types (w : Worker B S) (env : Env B S).
(** An event as its readers see it: every text redacted. *)
Definition redacted_event (e : EvidenceEvent) : EvidenceEvent := map_event to_valid (map_event (fun s => redactText redactor (to_valid s)) e).
(** The claims a correlation may name: checkpoints of the run processed
    before. *)
Definition claimed_before (inputs : list runtimeInput) (runID id : string) : Prop :=
  exists c, CheckpointInput c ∈ inputs /\ Checkpoint_ID c = id /\ Checkpoint_RunID c = runID.
(** A record the coordinator derived from this very event. *)
Definition derived_from (ev : KernelEvent) (record : DerivedRecord) : Prop :=
  exists runs engine cancelled ctx (s s' : S) derived, store_ok runs /\
    ProcessAuditEvent describe runs engine cancelled ctx ev s = (s', Ok derived) /\ record ∈ derived.
(** The run that has the scope and the cgroup of the event. *)
Definition owns (run : AgentRun) (ev : KernelEvent) : Prop :=
  Run_InstanceID run = Event_InstanceID ev /\ Run_ScopeCookie run = Event_ScopeCookie ev /\ Run_CgroupID run = Event_CgroupID ev.
(** What an input has to tell of a run, as an event: the claim a checkpoint
    makes, the fact a kernel event is, or what the policies decided on it and
    the containment they asked for. *)
Inductive tells (run : AgentRun) : runtimeInput -> EvidenceEvent -> Prop :=
| tells_claim c : Run_RunID run = Checkpoint_RunID c ->
    tells run (CheckpointInput c)
      (mkEvidenceEvent (Checkpoint_ID c) (Checkpoint_Type c) "agent_claim" (default 0 (ParseUint (Checkpoint_ServerReceivedMonotonicNS c)))
         (default 0 (ParseUint (Checkpoint_ServerReceivedUnixNS c))) (Checkpoint_Summary c) None None None None None)
| tells_fact ev sequence status run_status correlation : owns run ev ->
    tells run (KernelInput ev)
      (mkEvidenceEvent ("kernel-" +:+ FormatUint (Event_InstanceID ev) +:+ "-" +:+ FormatUint sequence) (Event_EventTypeName ev) "kernel_fact"
         (Event_ServerReceivedMonotonicNS ev) (Event_ServerReceivedUnixNS ev) (evidenceSummary (Event_EventTypeName ev) (summary_values ev))
         (Some (mkEvidenceAttribution status (Run_RunID run) run_status "instance_id+scope_cookie")) (Some correlation)
         (Some (mkOperationResult true (Event_ActionResultName ev) (kernelMechanism (Event_EventTypeName ev) (family_values ev)))) None None)
| tells_decision ev sequence receipt d final mechanism : owns run ev -> derived_from ev (DerivedDecision d) -> Report_Final (Audit_Report d) = Some final ->
    (Final_Enforced final = true /\ Final_RequestedAction final = "block" -> mechanism = kernelMechanism (Event_EventTypeName ev) (family_values ev)) ->
    (~ (Final_Enforced final = true /\ Final_RequestedAction final = "block") -> mechanism = "post_event") ->
    tells run (KernelInput ev)
      (mkEvidenceEvent ("decision-kernel-" +:+ FormatUint (Event_InstanceID ev) +:+ "-" +:+ FormatUint sequence) "policy_decision" "policy_decision"
         (Receipt_Monotonic receipt) (Receipt_Unix receipt) ("Policy " +:+ Final_PolicyID final +:+ " requested " +:+ Final_RequestedAction final) None None None
         (Some (mkEvidenceDecision (Final_PolicyID final) (FormatUint (Final_RuleID final)) (Final_RequestedAction final) (Final_Decision final) (Final_Enforced final) mechanism)) None)
| tells_containment ev sequence receipt r : owns run ev -> derived_from ev (DerivedContainment r) ->
    tells run (KernelInput ev)
      (mkEvidenceEvent ("containment-kernel-" +:+ FormatUint (Event_InstanceID ev) +:+ "-" +:+ FormatUint sequence) "containment_result" "containment_result"
         (Receipt_Monotonic receipt) (Receipt_Unix receipt) ("Post-event containment " +:+ Outcome_EnforcementResult (Containment_Outcome r)) None None None None
         (Some (mkContainment true (Outcome_EnforcementResult (Containment_Outcome r)) (Outcome_EnforcementMethod (Containment_Outcome r))
            ("cgroup " +:+ FormatUint (Outcome_CgroupID (Containment_Outcome r)) +:+ "; instance " +:+ FormatUint (Outcome_InstanceID (Containment_Outcome r)) +:+
             "; scope " +:+ FormatUint (Outcome_ScopeCookie (Containment_Outcome r))) (Outcome_SyscallResult (Containment_Outcome r))))).
(** What was emitted is what an input that was processed tells of its run. *)
Record grounded (inputs : list runtimeInput) (input : runtimeInput) (run : AgentRun) (e : EvidenceEvent) : Prop := {
  gr_input : input ∈ inputs;
  gr_tells : tells run input e;
  gr_sourced : well_sourced e;
  gr_attribution a : EE_Attribution e = Some a -> EA_RunID a = Run_RunID run;
  gr_correlation r : EE_Correlation e = Some r -> Result_EventID r = EE_ID e /\
    (Result_SelectedCheckpoint r = "" \/ claimed_before inputs (Run_RunID run) (Result_SelectedCheckpoint r)) /\
    forall cand, cand ∈ Result_Candidates r -> claimed_before inputs (Run_RunID run) (Candidate_CheckpointID cand);
}.
Record emission_ok (inputs : list runtimeInput) (em : Emission) : Prop := {
  eo_grounded : grounded inputs (em_input em) (em_run em) (em_event em);
  eo_record r : em_record em = Some r -> Record_ID r = EE_ID (em_event em) /\ Record_Source r = EE_Source (em_event em) /\
    Record_RunID r = Run_RunID (em_run em) /\ Record_InstanceID r = Run_InstanceID (em_run em) /\ Record_ScopeCookie r = Run_ScopeCookie (em_run em) /\
    Unmarshal_event (Record_Payload r) no_event = Some (redacted_event (em_event em));
  eo_stored : em_stored em = true -> is_Some (em_record em);
  eo_published p : em_published em = Some p -> is_Some (em_record em) /\
    StreamEvent_Source p = EE_Source (em_event em) /\ StreamEvent_RunID p = Run_RunID (em_run em) /\ StreamEvent_ID p = EE_ID (redacted_event (em_event em)) /\
    exists item, StreamEvent_Payload p = Marshal (item_json item) /\ shows 0 (stripCorrelation (redacted_event (em_event em))) item;
}.
Lemma apply_fields r r' : Apply redactor r = Ok r' -> Record_ID r' = Record_ID r /\ Record_Source r' = Record_Source r /\ Record_RunID r' = Record_RunID r /\
  Record_InstanceID r' = Record_InstanceID r /\ Record_ScopeCookie r' = Record_ScopeCookie r /\ scrub_payload redactor (Record_Payload r) = Ok (Record_Payload r').
Proof.
  unfold Apply. unfold mbind at 1, result_bind at 1. destruct (validate r); [|done]. unfold mbind, result_bind. destruct (scrub_payload _ _) as [payload|]; [|done]. by intros [= <-].
Qed.
Lemma sources_agree e e' : (is_Some (EE_Operation e') <-> is_Some (EE_Operation e)) -> (is_Some (EE_Decision e') <-> is_Some (EE_Decision e)) ->
  (is_Some (EE_Containment e') <-> is_Some (EE_Containment e)) -> well_sourced e -> well_sourced e' -> EE_Source e' = EE_Source e.
Proof.
  intros S1 S2 S3 (H1' & Ho & Hd & Hc & _) (H2' & Ho' & Hd' & Hc' & _). rewrite S1 in Ho'. rewrite S2 in Hd'. rewrite S3 in Hc'. rewrite !elem_of_cons, elem_of_nil in H1', H2'.
  destruct H1' as [E|[E|[E|[E|[]]]]], H2' as [E'|[E'|[E'|[E'|[]]]]]; rewrite E, E' in *; try done; naive_solver.
Qed.
Lemma interfered_keeps env n w : env_ok env -> store_ok (sh_runs (wk_shared w)) -> keeps_runs (sh_runs (wk_shared w)) (sh_runs (wk_shared (interfered env n w))).
Proof. intros [He _] Hw. by apply He. Qed.
Lemma keeps_refl s : store_ok s -> keeps_runs s s.
Proof. intros Hs. split; [done|]. eauto. Qed.
Lemma keeps_trans s1 s2 s3 : keeps_runs s1 s2 -> keeps_runs s2 s3 -> keeps_runs s1 s3.
Proof.
  intros [_ K1] [Hs K2]. split; [done|]. intros id run Hr. destruct (K1 id run Hr) as (run2 & Hr2 & E1 & E2), (K2 id run2 Hr2) as (run3 & Hr3 & E3 & E4).
  exists run3. split_and!; [done|congruence..].
Qed.
Lemma Build_single runID e t : Build runID [e] = Ok t -> well_sourced e /\ exists item, head (Timeline_Items t) = Some item /\ shows 0 e item.
Proof.
  intros [(_ & _ & _ & Ha) ->]%Build_ok. apply Forall_singleton in Ha as (_ & Hs & _). split; [done|]. eexists. split; [reflexivity|]. repeat split.
Qed.
(** The worker's own fields are kept and the registry only grows. *)
Record moves w w' : Prop := {
  mv_runs : keeps_runs (sh_runs (wk_shared w)) (sh_runs (wk_shared w'));
  mv_sequence : wk_sequence w' = wk_sequence w;
  mv_claims : wk_claims w' = wk_claims w;
}.
Lemma moves_trans w1 w2 w3 : moves w1 w2 -> moves w2 w3 -> moves w1 w3.
Proof. intros [R1 S1 C1] [R2 S2 C2]. split; [by eapply keeps_trans|congruence..]. Qed.
Lemma moves_interfered env n w : env_ok env -> store_ok (sh_runs (wk_shared w)) -> moves w (interfered env n w).
Proof. intros He Hw. split; [by apply interfered_keeps|done..]. Qed.
(** Changes outside the registry. *)
Lemma moves_local w w' : sh_runs (wk_shared w') = sh_runs (wk_shared w) -> wk_sequence w' = wk_sequence w -> wk_claims w' = wk_claims w ->
  store_ok (sh_runs (wk_shared w)) -> moves w w'.
Proof. intros E1 E2 E3 Hs. split; [rewrite E1; by apply keeps_refl|done..]. Qed.
Definition emits inputs w w' : Prop := moves w w' /\ exists ems, wk_emissions w' = wk_emissions w ++ ems /\ Forall (emission_ok inputs) ems.
Lemma emits_trans inputs w1 w2 w3 : emits inputs w1 w2 -> emits inputs w2 w3 -> emits inputs w1 w3.
Proof.
  intros [M1 (e1 & E1 & F1)] [M2 (e2 & E2 & F2)]. split; [by eapply moves_trans|]. exists (e1 ++ e2). rewrite E2, E1, app_assoc. split; [done|]. by apply Forall_app.
Qed.
Lemma emits_quiet inputs w w' : moves w w' -> wk_emissions w' = wk_emissions w -> emits inputs w w'.
Proof. intros M E. split; [done|]. exists []. by rewrite E, app_nil_r. Qed.
Lemma emit_ok inputs env n input w run event severity audit : env_ok env -> store_ok (sh_runs (wk_shared w)) -> grounded inputs input run event -> event_widths event ->
  emits inputs w (emit redactor env n input w run event severity audit).
Proof.
  intros He Hw Hg Hev. unfold emit. destruct (Apply redactor (evidence_record run event severity)) as [record|e] eqn:Ea.
  2:{ split; [by apply moves_local|]. eexists [_]. split; [reflexivity|]. apply Forall_singleton. by split. }
  apply apply_fields in Ea as (F1 & F2 & F3 & F4 & F5 & Hp). cbn [evidence_record Record_ID Record_Source Record_RunID Record_InstanceID Record_ScopeCookie Record_Payload] in *.
  pose proof (stored_event redactor event _ event Hev (or_introl eq_refl) Hp) as Hread. pose proof (stored_event redactor event _ no_event Hev (or_intror eq_refl) Hp) as Hzero.
  pose proof (moves_interfered env n w He Hw) as M1. cbv zeta. set (w1 := interfered env n w) in *.
  destruct (Submit (sh_writer (wk_shared w1)) record) as [writer stored]. set (w2 := with_shared w1 (set_writer (wk_shared w1) writer)).
  set (w3 := if stored then w2 else reported w2 StorageRejected).
  assert (moves w w3 /\ wk_emissions w3 = wk_emissions w) as [M3 E3].
  { split; [|unfold w3; by destruct stored]. eapply moves_trans; [exact M1|]. destruct stored; (apply moves_local; [reflexivity..|apply M1]). }
  clearbody w3. clear w2 M1. clearbody w1.
  assert (forall p, (forall se, p = Some se -> StreamEvent_Source se = EE_Source event /\ StreamEvent_RunID se = Run_RunID run /\ StreamEvent_ID se = EE_ID (redacted_event event) /\
      exists item, StreamEvent_Payload se = Marshal (item_json item) /\ shows 0 (stripCorrelation (redacted_event event)) item) ->
    emission_ok inputs (mkEmission input run event (Some record) stored p)) as Hem.
  { intros p Hpub. split; cbn [em_input em_run em_event em_record em_stored em_published]; [done| |eauto|].
    - intros r [= <-]. split_and!; done.
    - intros se Hse. split; [eauto|]. by apply Hpub. }
  assert (forall w4 em e, moves w3 w4 -> wk_emissions w4 = wk_emissions w3 -> emission_ok inputs em -> emits inputs w (emitted w4 em) /\ emits inputs w (reported (emitted w4 em) e)) as Hout.
  { intros w4 em e M4 E4 Hok. assert (moves w w4) as M by (by eapply moves_trans). split; (split; [destruct M; by split|]; exists [em]; cbn; rewrite E4, E3; split; [done|by apply Forall_singleton]). }
  assert (moves w3 w3) as Mr by (apply moves_local; [reflexivity..|apply M3]).
  rewrite Hread. destruct (Build (Run_RunID run) _) as [timeline|e] eqn:Eb; [|apply Hout; try done; by apply Hem].
  apply Build_single in Eb as (Hs & item & Hhead & Hshow). rewrite Hhead. cbn [default].
  pose proof (moves_interfered env (n + 1) w3 He (proj1 (mv_runs _ _ M3))) as M4. set (w4 := interfered env (n + 1) w3) in *.
  destruct (Publish _ _ _) as [hub r]. set (w5 := with_shared w4 (set_hub (wk_shared w4) hub)).
  assert (moves w3 w5) as M5 by (eapply moves_trans; [exact M4|]; apply moves_local; [reflexivity..|apply M4]).
  assert (forall p, emission_ok inputs (mkEmission input run event (Some record) stored p) -> emits inputs w (emitted w5 (mkEmission input run event (Some record) stored p)) /\
    forall e, emits inputs w (reported (emitted w5 (mkEmission input run event (Some record) stored p)) e)) as Hfin by (intros p Hok; split; [|intros e]; apply (Hout w5 _ ReceiptClockFailed) || apply (Hout w5 _ e); done).
  destruct r as [m|e]; apply Hfin, Hem; [|done]. intros se [= <-]. cbn [stream_event StreamEvent_Source StreamEvent_RunID StreamEvent_ID StreamEvent_Payload]. split_and!; try done; [|by exists item].
  apply (sources_agree event (stripCorrelation (redacted_event event))); [cbn; by rewrite !fmap_is_Some..|apply Hg|done].
Qed.

(** ** The numbers of a correlation *)
Lemma candidate_widths o runID ev c cand : options_ok o -> checkpoint_candidate o runID ev c = Some cand -> candidate_ok cand.
Proof.
  intros Ho. unfold checkpoint_candidate. destruct (_ || _ || _); [done|]. destruct (boundedDelta _ _ _) as [delta|] eqn:Ed; [|done]. cbv zeta. destruct (_ <=? _); [|done]. intros [= <-].
  apply boundedDelta_Some in Ed as (_ & Hw & Hmax). pose proof (score_explained o ev c delta Ho Hw) as [_ Hs]. pose proof (closeness_range o delta Ho Hw) as Hc.
  split_and!; [unfold int_ok, i64_max in *; lia|cbn; unfold int_ok, i64_max in *; lia|].
  assert (Forall (fun f => 5 <= Factor_Points f <= 35) (candidate_factors ev c delta o)) as Hf.
  { unfold candidate_factors, identity_factor, tool_factor, phase_factor. rewrite !Forall_app. split_and!; [destruct (_ && _); [|destruct (_ && _)]|destruct (_ && _)|destruct (compatible _ _)|].
    all: first [apply Forall_nil_2|apply Forall_singleton; cbn [Factor_Points]; lia]. }
  eapply Forall_impl; [exact Hf|]. unfold int_ok, i64_max. intros f Hf'. cbn in Hf'. lia.
Qed.
Lemma correlation_widths k ev cs : options_ok (correlator_options k) -> int_ok (Result_Confidence (Correlate k ev cs)) /\ Forall candidate_ok (Result_Candidates (Correlate k ev cs)).
Proof.
  intros Ho. assert (int_ok 0) as H0' by (unfold int_ok, i64_max; lia). unfold Correlate. destruct (_ || _ || _ || _); [done|]. cbv zeta. destruct (_ || _); [done|].
  set (l := sort_by _ _). assert (Forall candidate_ok l) as Hl.
  { unfold l. rewrite sort_by_perm. apply Forall_forall. intros cand (c & _ & Hc)%list_elem_of_omap. by eapply candidate_widths. }
  destruct l as [|best rest]; [done|]. apply Forall_cons in Hl as [Hb Hr]. destruct (match rest with [] => _ | _ => _ end); cbn; (split; [apply Hb|by constructor]).
Qed.
Lemma default_correlator_ok resolve : exists k, default_correlator resolve = Some k /\ options_ok (correlator_options k) /\ correlator_resolve k = resolve.
Proof. eexists. split; [reflexivity|]. split; [|reflexivity]. split; cbn; lia. Qed.
Lemma attribute_identity s identity current now : store_ok s -> keeps_runs s (attribute s identity current now).1 /\
  let a := (attribute s identity current now).2 in
  EventAttribution_RunID a <> "" -> exists run, store_runs (attribute s identity current now).1 !! EventAttribution_RunID a = Some run /\ scopeIdentity run = identity.
Proof.
  intros Hs. unfold attribute. cbv zeta. pose proof (prune_ok s now Hs) as Hp. set (s' := pruneTombstonesLocked s now) in *.
  assert (store_runs s' = store_runs s) as Er by (unfold s', pruneTombstonesLocked; by destruct (IsZero now)). cbn [fst snd]. split; [split; [done|]; rewrite Er; eauto|].
  destruct (store_liveByIdentity s' !! identity) as [runID|] eqn:El; [|destruct (store_tombstones s' !! identity) as [t|] eqn:Et]; cbn.
  - intros _. apply (ok_live s' Hp) in El as (run & [Hr _] & Hi). eauto.
  - intros _. apply (ok_tombstones s' Hp) in Et as (_ & run & Hr & Hi & _). eauto.
  - by destruct (_ && _).
Qed.
(** The claims the worker remembers were processed. *)
Definition claims_ok (inputs : list runtimeInput) w : Prop := Forall (fun cc => exists c, CheckpointInput c ∈ inputs /\ cc = claim_of c) (wk_claims w).
Lemma push_claim_ok (P : CorrelationCheckpoint -> Prop) claims c : Forall P claims -> P c -> Forall P (push_claim claims c).
Proof.
  intros Hl Hc. unfold push_claim. cbv zeta. assert (Forall P (claims ++ [c])) as Ha by (apply Forall_app; split; [done|by constructor]).
  destruct (_ <? _); [|done]. destruct (claims ++ [c]); [done|]. by apply Forall_cons in Ha as [_ Ha].
Qed.
Lemma recent_claims_elem claims runID c : c ∈ recent_claims claims runID -> c ∈ claims /\ CC_RunID c = runID.
Proof.
  unfold recent_claims. intros Hc.
  assert (c ∈ List.filter (fun c => CC_RunID c == runID) (reverse claims)) as Hf by (eapply elem_of_sublist; [exact Hc|apply sublist_take]).
  apply list_elem_of_In, filter_In in Hf as [Hin E%bool_decide_eq_true]. split; [|done]. apply list_elem_of_In in Hin. by rewrite elem_of_reverse in Hin.
Qed.
Lemma emission_ok_more inputs inputs' em : inputs ⊆ inputs' -> emission_ok inputs em -> emission_ok inputs' em.
Proof.
  intros Hsub [[G0 G1 G2 G3 G4] E2 E3 E4]. assert (forall r i, claimed_before inputs r i -> claimed_before inputs' r i) as Hc by (intros r i (c & Hin & Hc); exists c; split; [by apply Hsub|done]).
  split; [split; [by apply Hsub|done..|]|done..]. intros r Hr. destruct (G4 r Hr) as (C1 & C2 & C3). split; [done|]. split; [destruct C2; eauto|]. eauto.
Qed.
(** ** Processing *)
Lemma owns_identity run ev : scopeIdentity run = mkScopeIdentity (Event_InstanceID ev) (Event_ScopeCookie ev) -> Run_CgroupID run = Event_CgroupID ev -> owns run ev.
Proof. unfold scopeIdentity. intros [= E1 E2] E3. done. Qed.
Lemma claim_grounded inputs c run : CheckpointInput c ∈ inputs -> Run_RunID run = Checkpoint_RunID c -> grounded inputs (CheckpointInput c) run (claim_event c) /\ event_widths (claim_event c).
Proof.
  intros Hin Hr. split; [split; [done|exact (tells_claim run c Hr)|..]; cbn; try done|].
  - unfold well_sourced. cbn. split_and!; [set_solver|..]; (split; [by intros [? ?]|done]) || (intros [[? ?]|[? ?]]; done).
  - assert (forall s, 0 <= parsed s <= u64_max) as Hp by (intros s'; unfold parsed; destruct (ParseUint s') eqn:E; [by apply ParseUint_range in E|unfold u64_max; lia]). split; cbn; try done; apply Hp.
Qed.
Lemma kernel_grounded inputs w ev id sequence a run k : KernelInput ev ∈ inputs -> id = kernel_id ev sequence -> claims_ok inputs w -> options_ok (correlator_options k) -> correlator_resolve k = (fun _ _ _ => attribution_of a) ->
  scopeIdentity run = mkScopeIdentity (Event_InstanceID ev) (Event_ScopeCookie ev) -> Run_CgroupID run = Event_CgroupID ev -> Run_RunID run = EventAttribution_RunID a -> input_ok (KernelInput ev) ->
  let e := kernel_event_evidence ev id a (Correlate k (correlation_event ev id) (recent_claims (wk_claims w) (EventAttribution_RunID a))) in
  grounded inputs (KernelInput ev) run e /\ event_widths e.
Proof.
  intros Hinput Hid Hcl Ho Hk Hi Hg Hr [Hm Hu]. set (cs := recent_claims _ _). pose proof (Correlate_references k (correlation_event ev id) cs) as (R1 & R2 & R3). cbv zeta.
  assert (forall cand, cand ∈ Result_Candidates (Correlate k (correlation_event ev id) cs) -> claimed_before inputs (Run_RunID run) (Candidate_CheckpointID cand)) as Hcand.
  { intros cand Hin. destruct (R3 cand Hin) as (c & Hc & <- & _). apply recent_claims_elem in Hc as [Hc Er]. unfold claims_ok in Hcl. rewrite Forall_forall in Hcl.
    destruct (Hcl c Hc) as (cp & Hcp & ->). exists cp. split_and!; [done|done|]. rewrite Hr. exact Er. }
  split; [split|].
  - done.
  - rewrite Hid. unfold kernel_event_evidence. rewrite <-Hr. apply (tells_fact run ev sequence). by apply owns_identity.
  - unfold well_sourced. cbn. split_and!; [set_solver|split; [done|eauto]|split; [by intros [? ?]|done]|split; [by intros [? ?]|done]|done].
  - cbn. by intros a' [= <-].
  - cbn. intros r [= <-]. split; [exact R1|]. split; [|done]. destruct R2 as [?|(cand & Hin & ->)]; [by left|right; eauto].
  - pose proof (correlation_widths k (correlation_event ev id) cs Ho) as Hw. split; cbn; [done|done|]. by intros r [= <-].
Qed.
Lemma decision_grounded inputs ev id sequence receipt d final run : KernelInput ev ∈ inputs -> id = kernel_id ev sequence ->
  derived_from ev (DerivedDecision d) -> Report_Final (Audit_Report d) = Some final -> scopeIdentity run = mkScopeIdentity (Event_InstanceID ev) (Event_ScopeCookie ev) -> Run_CgroupID run = Event_CgroupID ev ->
  receipt_ok receipt -> grounded inputs (KernelInput ev) run (decision_event ev id receipt final) /\ event_widths (decision_event ev id receipt final).
Proof.
  intros Hin -> Hd Hf Hi Hg [Hm Hu]. split; [split; [done| |..]; cbn; try done|by split].
  { apply (tells_decision run ev sequence receipt d final); [by apply owns_identity|done|done|..];
      destruct (Final_Enforced final), (bool_decide_reflect (Final_RequestedAction final = "block")); cbn; naive_solver. }
  unfold well_sourced. cbn. split_and!; [set_solver|split; [by intros [? ?]|done]|split; [done|eauto]|split; [by intros [? ?]|done]|by intros [[? ?]|[? ?]]].
Qed.
Lemma containment_grounded inputs ev id sequence receipt r run : KernelInput ev ∈ inputs -> id = kernel_id ev sequence ->
  derived_from ev (DerivedContainment r) -> scopeIdentity run = mkScopeIdentity (Event_InstanceID ev) (Event_ScopeCookie ev) -> Run_CgroupID run = Event_CgroupID ev ->
  receipt_ok receipt -> grounded inputs (KernelInput ev) run (containment_event id receipt (Containment_Outcome r)) /\ event_widths (containment_event id receipt (Containment_Outcome r)).
Proof.
  intros Hin -> Hd Hi Hg [Hm Hu]. split; [split; [done| |..]; cbn; try done|by split].
  { apply (tells_containment run ev sequence receipt r); [by apply owns_identity|done]. }
  unfold well_sourced. cbn. split_and!; [set_solver|split; [by intros [? ?]|done]|split; [by intros [? ?]|done]|split; [done|eauto]|by intros [[? ?]|[? ?]]].
Qed.
Lemma process_derived_ok inputs env ev id sequence runID run derived : KernelInput ev ∈ inputs -> id = kernel_id ev sequence -> Forall (derived_from ev) derived -> env_ok env -> scopeIdentity run = mkScopeIdentity (Event_InstanceID ev) (Event_ScopeCookie ev) -> Run_CgroupID run = Event_CgroupID ev ->
  forall k w, store_ok (sh_runs (wk_shared w)) -> emits inputs w (process_derived redactor env k ev id runID run w derived).
Proof.
  intros Hin Hid Hder He Hi Hg. induction Hder as [|record derived Hrec _ IH]; intros k w Hw; cbn [process_derived]; [apply emits_quiet; [by apply moves_local|done]|].
  destruct (env_receipt env k) as [receipt|] eqn:Er; [|apply emits_quiet; [by apply moves_local|done]]. apply (env_receipts env He) in Er. cbv zeta.
  match goal with |- emits _ _ (process_derived _ _ _ _ _ _ _ ?x _) => assert (emits inputs w x) as Hx; [|eapply emits_trans; [exact Hx|apply IH, Hx]] end.
  destruct record as [d|r].
  - destruct (Report_Final (Audit_Report d)) as [final|] eqn:Ef; [|apply emits_quiet; [by apply moves_local|done]]. pose proof (moves_interfered env (10 * (k + 1)) w He Hw) as M.
    set (w1 := interfered env _ w) in *. set (w2 := with_shared w1 _). assert (moves w w2) as M2 by (eapply moves_trans; [exact M|]; apply moves_local; [reflexivity..|apply M]).
    destruct (decision_grounded inputs ev id sequence receipt d final run Hin Hid Hrec Ef Hi Hg Er) as [G W]. eapply emits_trans; [by apply emits_quiet|]. apply emit_ok; [done|apply M2|done|done].
  - destruct (containment_grounded inputs ev id sequence receipt r run Hin Hid Hrec Hi Hg Er) as [G W]. by apply emit_ok.
Qed.
Lemma emits_interfered inputs env n w w' : env_ok env -> emits inputs w w' -> emits inputs w (interfered env n w').
Proof. intros He Hx. eapply emits_trans; [exact Hx|]. apply emits_quiet; [apply moves_interfered; [done|apply Hx]|done]. Qed.
Lemma emits_local inputs w w' w'' : emits inputs w w' -> sh_runs (wk_shared w'') = sh_runs (wk_shared w') -> wk_sequence w'' = wk_sequence w' -> wk_claims w'' = wk_claims w' ->
  wk_emissions w'' = wk_emissions w' -> emits inputs w w''.
Proof. intros Hx E1 E2 E3 E4. eapply emits_trans; [exact Hx|]. apply emits_quiet; [apply moves_local; try done; apply Hx|done]. Qed.
Lemma process_policy_ok inputs env ev id sequence runID run w : KernelInput ev ∈ inputs -> id = kernel_id ev sequence -> env_ok env -> scopeIdentity run = mkScopeIdentity (Event_InstanceID ev) (Event_ScopeCookie ev) -> Run_CgroupID run = Event_CgroupID ev ->
  store_ok (sh_runs (wk_shared w)) -> emits inputs w (process_policy redactor describe env ev id runID run w).
Proof.
  intros Hin Hid He Hi Hg Hw. unfold process_policy. cbv zeta. assert (emits inputs w w) as X0 by (apply emits_quiet; [by apply moves_local|done]).
  apply (emits_interfered inputs env 4 w w He) in X0. set (w1 := interfered env 4 w) in *. set (w2 := with_shared w1 _).
  assert (emits inputs w w2) as X2 by (by apply (emits_local inputs w w1)). apply (emits_interfered inputs env 5 w w2 He) in X2. set (w3 := interfered env 5 w2) in *. clearbody w3.
  destruct (ProcessAuditEvent _ _ _ _ _ _ _) as [s r] eqn:Ep. set (w4 := with_shared w3 _). assert (emits inputs w w4) as X4 by (by apply (emits_local inputs w w3)). clearbody w4.
  destruct r as [derived|e]; [|destruct e; [by apply (emits_local inputs w w4)|done|by apply (emits_local inputs w w4)]].
  eapply emits_trans; [exact X4|]. apply (process_derived_ok inputs env ev id sequence); try done; [|apply X4].
  apply Forall_forall. intros record Hrec. do 7 eexists. split; [|split; [exact Ep|exact Hrec]]. apply X2.
Qed.
Lemma process_ok inputs env w input : env_ok env -> store_ok (sh_runs (wk_shared w)) -> claims_ok inputs w -> input_ok input -> input ∈ inputs ->
  let w' := process instanceID redactor describe env w input in
  keeps_runs (sh_runs (wk_shared w)) (sh_runs (wk_shared w')) /\ claims_ok inputs w' /\ exists ems, wk_emissions w' = wk_emissions w ++ ems /\ Forall (emission_ok inputs) ems.
Proof.
  intros He Hw Hcl Hin Helem. cbv zeta.
  assert (forall w1 w', claims_ok inputs w1 -> keeps_runs (sh_runs (wk_shared w)) (sh_runs (wk_shared w1)) -> wk_emissions w1 = wk_emissions w -> emits inputs w1 w' ->
    keeps_runs (sh_runs (wk_shared w)) (sh_runs (wk_shared w')) /\ claims_ok inputs w' /\ exists ems, wk_emissions w' = wk_emissions w ++ ems /\ Forall (emission_ok inputs) ems) as Hfin.
  { intros w1 w' Hc1 K1 E1 [[K2 _ C2] Hems]. split; [by eapply keeps_trans|]. split; [unfold claims_ok; by rewrite C2|]. by rewrite E1 in Hems. }
  destruct input as [ev|c]; cbn [process].
  - unfold processKernel. cbv zeta. set (w0 := mkWorker _ (wrap64 _) _ _ _). assert (keeps_runs (sh_runs (wk_shared w)) (sh_runs (wk_shared (interfered env 0 w0)))) as K1 by exact (interfered_keeps env 0 w0 He Hw).
    assert (claims_ok inputs (interfered env 0 w0)) as C1 by exact Hcl. assert (wk_emissions (interfered env 0 w0) = wk_emissions w) as E1 by done.
    set (w1 := interfered env 0 w0) in *. set (sequence := wrap64 (wk_sequence w + 1)) in *. set (id := kernel_id _ _).
    assert (id = kernel_id ev sequence) as Hid by done. clearbody w1 id. clear w0.
    destruct (attribute_identity (sh_runs (wk_shared w1)) (mkScopeIdentity (Event_InstanceID ev) (Event_ScopeCookie ev)) instanceID (env_now env 0) (proj1 K1)) as [Ka Hident].
    destruct (attribute _ _ _ _) as [runs a]. cbn [fst snd] in Ka, Hident. set (w2 := with_shared w1 (set_runs (wk_shared w1) runs)).
    assert (keeps_runs (sh_runs (wk_shared w)) (sh_runs (wk_shared w2))) as K2 by (by eapply keeps_trans). assert (claims_ok inputs w2) as C2 by exact C1.
    assert (emits inputs w2 w2) as X2 by (apply emits_quiet; [apply moves_local; try done; apply K2|done]).
    destruct (bool_decide_reflect (EventAttribution_RunID a = "")) as [|Hne]; [by apply (Hfin w2), (emits_local inputs w2 w2)|]. destruct (Hident Hne) as (run0 & Hr0 & Hi0).
    pose proof (emits_interfered inputs env 1 w2 w2 He X2) as X3. destruct (proj2 (interfered_keeps env 1 w2 He (proj1 K2)) _ run0 Hr0) as (run & Hr & Hi & _).
    set (w3 := interfered env 1 w2) in *. assert (store_ok (sh_runs (wk_shared w3))) as Hs3 by apply X3. unfold Get. rewrite Hr. cbn [fmap option_fmap option_map]. rewrite cloned_id.
    destruct (Z.eqb_spec (Run_CgroupID run) (Event_CgroupID ev)) as [Hg|]; cbn [negb]; [|by apply (Hfin w2), (emits_local inputs w2 w3)].
    destruct (default_correlator_ok (fun _ _ _ => attribution_of a)) as (k & -> & Ho & Hk). rewrite Hi0 in Hi.
    destruct (kernel_grounded inputs w3 ev id sequence a run k Helem Hid C2 Ho Hk Hi Hg (proj1 (ok_ids _ Hs3 _ _ Hr)) Hin) as [G W].
    apply (Hfin w2); try done. eapply emits_trans; [exact X3|]. eapply emits_trans; [by apply (emit_ok inputs env 2 (KernelInput ev) w3 run)|].
    apply (process_policy_ok inputs env ev id sequence); try done. by apply (emit_ok inputs env 2 (KernelInput ev) w3 run).
  - unfold processCheckpoint. cbv zeta. pose proof (interfered_keeps env 0 w He Hw) as K1. set (w1 := interfered env 0 w) in *. unfold Get.
    assert (emits inputs w1 w1) as X1 by (apply emits_quiet; [apply moves_local; try done; apply K1|done]).
    destruct (store_runs (sh_runs (wk_shared w1)) !! Checkpoint_RunID c) as [run|] eqn:Er; cbn [fmap option_fmap option_map]; [|by apply (Hfin w1), (emits_local inputs w1 w1)].
    rewrite cloned_id. set (w2 := mkWorker (wk_shared w1) _ _ _ _). destruct (claim_grounded inputs c run Helem (proj1 (ok_ids _ (proj1 K1) _ _ Er))) as [G W].
    apply (Hfin w2); try done; [|apply emit_ok; try done; apply K1]. apply push_claim_ok; [exact Hcl|]. by exists c.
Qed.
(** Everything the pipeline emits is grounded in an input it processed. *)
Lemma emissions_invariant rt : runtime_reachable instanceID redactor describe rt ->
  store_ok (sh_runs (wk_shared (rt_worker rt))) /\ claims_ok (rt_processed rt) (rt_worker rt) /\ Forall (emission_ok (rt_processed rt)) (wk_emissions (rt_worker rt)).
Proof.
  induction 1 as [sh Hs|rt rt' Hrt (Hs & Hc & He) Hstep]; [split_and!; [done|apply Forall_nil_2..]|]. pose proof (queue_invariant instanceID redactor describe rt Hrt) as Hq.
  destruct Hstep as [input Hin|env rt' Henv Hctx Hw|run receipt| |ctx r Hcl Hr|sh Hk].
  - unfold submit. by destruct (_ && _).
  - unfold work in Hw. destruct (rt_queue rt) as [|input queue] eqn:Eq; [destruct (_ && _); [by injection Hw as <-|done]|]. injection Hw as <-. cbn [rt_worker rt_processed].
    assert (rt_processed rt ⊆ rt_processed rt ++ [input]) as Hsub by set_solver.
    destruct (process_ok (rt_processed rt ++ [input]) env (rt_worker rt) input) as (K & C & ems & E & F); try done.
    + eapply Forall_impl; [exact Hc|]. intros cc (c & Hin & ->). exists c. set_solver.
    + pose proof (qo_inputs _ Hq) as Hi. rewrite (qo_flow _ Hq), Eq in Hi. apply Forall_app in Hi as [_ Hi]. by apply Forall_cons in Hi as [Hi _].
    + set_solver.
    + split_and!; [apply K|done|]. rewrite E. apply Forall_app. split; [|done]. eapply Forall_impl; [exact He|]. intros em. by apply emission_ok_more.
  - unfold RunChanged. destruct (UpsertRun _ _) as [ov r]. destruct r as [u|e], receipt as [receipt|]; cbv zeta; try done; destruct (Submit _ _) as [wr [|]]; done.
  - done.
  - done.
  - cbn. split_and!; [apply Hk|done|done].
Qed.

(** *** No input is passed over *)
(** The worker emitted evidence of the input, or reported that it has no run. *)
Definition answered w (input : runtimeInput) : Prop :=
  (exists em, em ∈ wk_emissions w /\ em_input em = input) \/
  match input with
  | CheckpointInput _ => CheckpointWithoutRun ∈ wk_errors w
  | KernelInput _ => EventWithoutRun ∈ wk_errors w \/ CgroupMismatch ∈ wk_errors w
  end.
Definition grows w w' : Prop := wk_emissions w ⊆ wk_emissions w' /\ wk_errors w ⊆ wk_errors w'.
Lemma grows_trans w1 w2 w3 : grows w1 w2 -> grows w2 w3 -> grows w1 w3.
Proof. intros [A1 A2] [B1 B2]. split; by etrans. Qed.
Lemma answered_grows w w' input : grows w w' -> answered w input -> answered w' input.
Proof.
  intros [G1 G2] [(em & Hem & E)|Hr]; [left; exists em; split; [by apply G1|done]|right]. destruct input; [|by apply G2].
  destruct Hr; [left|right]; by apply G2.
Qed.
Lemma emit_grows env n input w run event severity audit : let w' := emit redactor env n input w run event severity audit in
  grows w w' /\ exists em, em ∈ wk_emissions w' /\ em_input em = input.
Proof.
  cbv zeta. unfold emit. destruct (Apply _ _) as [record|e].
  2:{ cbn. split; [split; set_solver|]. eexists. split; [apply elem_of_app; right; by apply list_elem_of_singleton|done]. }
  destruct (Submit _ _) as [writer [|]]; destruct (Unmarshal_event _ _); [destruct (Build _ _); [destruct (Publish _ _ _) as [hub [?|?]]|]| |destruct (Build _ _); [destruct (Publish _ _ _) as [hub [?|?]]|]|];
    cbn; (split; [split; set_solver|]; eexists; split; [apply elem_of_app; right; by apply list_elem_of_singleton|done]).
Qed.
Lemma process_derived_grows env ev id runID run derived : forall k w, grows w (process_derived redactor env k ev id runID run w derived).
Proof.
  induction derived as [|record derived IH]; intros k w; cbn [process_derived]; [split; set_solver|].
  destruct (env_receipt env k) as [receipt|]; [|cbn; split; set_solver]. cbv zeta. eapply grows_trans; [|apply IH].
  destruct record as [d|r]; [destruct (Report_Final (Audit_Report d)) as [final|]; [|split; set_solver]|apply emit_grows].
  eapply grows_trans; [|apply emit_grows]. split; cbn; set_solver.
Qed.
Lemma process_policy_grows env ev id runID run w : grows w (process_policy redactor describe env ev id runID run w).
Proof.
  unfold process_policy. cbv zeta. destruct (ProcessAuditEvent _ _ _ _ _ _ _) as [s [derived|e]]; [|destruct e; cbn; split; cbn; set_solver].
  eapply grows_trans; [|apply process_derived_grows]. split; cbn; set_solver.
Qed.
Lemma process_answered env w input : let w' := process instanceID redactor describe env w input in grows w w' /\ answered w' input.
Proof.
  cbv zeta. destruct input as [ev|c]; cbn [process].
  - unfold processKernel. cbv zeta. destruct (attribute _ _ _ _) as [runs a]. destruct (_ == "").
    { cbn. split; [split; set_solver|]. right. left. cbn. set_solver. }
    destruct (Get _ _) as [registered|]; [|cbn; split; [split; set_solver|]; right; right; cbn; set_solver].
    destruct (negb _); [cbn; split; [split; set_solver|]; right; right; cbn; set_solver|].
    destruct (default_correlator_ok (fun _ _ _ => attribution_of a)) as (k & -> & _).
    match goal with |- grows _ (process_policy _ _ _ _ _ _ _ ?x) /\ _ => set (w1 := x) end.
    pose proof (process_policy_grows env ev (kernel_id ev (wrap64 (wk_sequence w + 1))) (EventAttribution_RunID a) registered w1) as Hp.
    assert (grows w w1 /\ exists em, em ∈ wk_emissions w1 /\ em_input em = KernelInput ev) as [G (em & Hem & E)].
    { unfold w1. destruct (emit_grows env 2 (KernelInput ev) (interfered env 1 (with_shared (interfered env 0 (mkWorker (wk_shared w) (wrap64 (wk_sequence w + 1)) (wk_claims w) (wk_errors w) (wk_emissions w)))
        (set_runs (wk_shared (interfered env 0 (mkWorker (wk_shared w) (wrap64 (wk_sequence w + 1)) (wk_claims w) (wk_errors w) (wk_emissions w)))) runs))) registered
        (kernel_event_evidence ev (kernel_id ev (wrap64 (wk_sequence w + 1))) a (Correlate k (correlation_event ev (kernel_id ev (wrap64 (wk_sequence w + 1)))) (recent_claims (wk_claims w) (EventAttribution_RunID a))))
        (if Event_ActionResult ev =? ActionResultBlocked then "high" else "info") (Event_Action ev =? KernelActionAudit)) as [G Hem]. split; [|exact Hem].
      eapply grows_trans; [|exact G]. split; cbn; set_solver. }
    split; [by eapply grows_trans|]. eapply answered_grows; [exact Hp|]. left. by exists em.
  - unfold processCheckpoint. cbv zeta. destruct (Get _ _) as [run|]; [|cbn; split; [split; set_solver|]; right; cbn; set_solver].
    match goal with |- grows _ ?x /\ _ => set (w1 := x) end. assert (grows w w1 /\ exists em, em ∈ wk_emissions w1 /\ em_input em = CheckpointInput c) as [G Hem]; [|split; [done|by left]].
    unfold w1. match goal with |- grows _ (emit _ _ _ _ ?w0 _ _ _ _) /\ _ => destruct (emit_grows env 1 (CheckpointInput c) w0 run (claim_event c) "info" false) as [G Hem] end.
    split; [|exact Hem]. eapply grows_trans; [|exact G]. split; cbn; set_solver.
Qed.
Lemma answered_invariant rt : runtime_reachable instanceID redactor describe rt -> Forall (answered (rt_worker rt)) (rt_processed rt).
Proof.
  induction 1 as [sh Hs|rt rt' _ IH Hstep]; [apply Forall_nil_2|]. destruct Hstep as [input Hin|env rt' Henv Hctx Hw|run receipt| |ctx r Hcl Hr|sh Hk]; try exact IH.
  - unfold submit. by destruct (_ && _).
  - unfold work in Hw. destruct (rt_queue rt) as [|input queue]; [destruct (_ && _); [by injection Hw as <-|done]|]. injection Hw as <-. cbn [rt_worker rt_processed].
    destruct (process_answered env (rt_worker rt) input) as [G A]. apply Forall_app. split; [|by apply Forall_singleton].
    eapply Forall_impl; [exact IH|]. intros x. by apply answered_grows.
  - cbn. eapply Forall_impl; [exact IH|]. intros x. apply answered_grows. unfold RunChanged. destruct (UpsertRun _ _) as [ov r].
    destruct r as [u|e], receipt as [receipt|]; cbv zeta; try (destruct (Submit _ _) as [wr [|]]); split; cbn; set_solver.
Qed.
End Truth.

(** The steps of the registry keep its runs. *)
Lemma keeps_same s s' : store_ok s' -> store_runs s' = store_runs s -> keeps_runs s s'.
Proof. intros Hs E. split; [done|]. rewrite E. eauto. Qed.
Lemma keeps_replace s s' runID run run' : store_ok s' -> store_runs s' = <[runID := run']> (store_runs s) -> store_runs s !! runID = Some run ->
  scopeIdentity run' = scopeIdentity run -> Run_CgroupID run' = Run_CgroupID run -> keeps_runs s s'.
Proof.
  intros Hs E Hr Hi Hg. split; [done|]. rewrite E. intros id x Hx. destruct (decide (id = runID)) as [->|Hne]; [|rewrite lookup_insert_ne by done; eauto].
  rewrite lookup_insert_eq. assert (x = run) as -> by congruence. eauto.
Qed.
Lemma store_step_keeps s s' : store_ok s -> store_step s s' -> keeps_runs s s'.
Proof.
  intros Hok Hst. pose proof (store_step_ok s s' Hst Hok) as Hok'. destruct Hst as [run s2 e Ha He H|runID s2 r H|runID|runID status reason endedAt ttl mx s2 r He Hs H|c reason s2 r H|now].
  - apply Add_cases in H as (ts & _ & H); [|done]. destruct e as [e|]; [by destruct H as [-> | ->]; apply keeps_same|]. destruct H as (-> & Hn & _). split; [done|]. cbn.
    intros id x Hx. exists x. rewrite lookup_insert_ne; [done|congruence].
  - pose proof (beginTermination_cases _ _ _ _ H Hok) as Hc. destruct r as [[run [|]]|[| |]].
    all: try (destruct Hc as (-> & _); by apply keeps_same); try done. destruct Hc as (_ & _ & ->). by apply keeps_same.
  - by apply keeps_same.
  - apply (completeTermination_cases _ _ _ _ _ _ _ _ _ Hok) in H as [[-> _]|(run & Hl & Ht & _ & ts & seq & _ & _ & E)]; [by apply keeps_same|].
    apply (keeps_replace s s2 runID run (terminated run status reason endedAt)); try done; [|apply Hl]. rewrite E. cbn. by destruct (drop_same s runID) as (-> & _).
  - apply (FailScope_cases _ _ _ _ _ Hok) in H as [[-> _]|(runID & run & Hl & Ha & Hc & _ & E)]; [by apply keeps_same|].
    apply (keeps_replace s s2 runID run (with_status run "failed" reason (Run_EndedAt run))); try done; [|apply Hl]. rewrite E. cbn. by destruct (drop_same s runID) as (-> & _).
  - destruct (prune_sub s now) as (ts & E & _). apply keeps_same; [done|by rewrite E].
Qed.
Lemma store_steps_keep s s' : store_ok s -> rtc store_step s s' -> keeps_runs s s'.
Proof.
  intros Hok Hs. revert Hok. induction Hs as [s|s1 s2 s3 H12 _ IH]; intros Hok; [by apply keeps_refl|]. pose proof (store_step_keeps _ _ Hok H12) as K. eapply keeps_trans; [exact K|apply IH, K].
Qed.

(** ** The pipeline *)
(** The queue loses nothing: what was taken is, in order, what was
    processed and what still waits, at most 256 inputs; every refusal is
    counted; once the worker is done everything taken was processed and
    nothing more is taken; and from any closed queue the worker is done after
    one turn per waiting input and one more, whatever the components do. *)
Theorem runtime_conserves {B S} `{BatchStore B} `{ContainmentExecutor S} `{UnicodeTables} `{FloatConversion} instanceID redactor describe (rt : Runtime (B := B) (S := S)) :
  runtime_reachable instanceID redactor describe rt ->
  rt_accepted rt = rt_processed rt ++ rt_queue rt /\ len (rt_queue rt) <= 256 /\ QueueDrops rt = Z.of_nat (rt_refused rt) mod 2 ^ 64 /\
  (rt_done rt = true -> rt_processed rt = rt_accepted rt /\ forall input, (submit rt input).2 = false) /\
  (rt_closing rt = true -> rt_done rt = false -> forall env, exists rt',
     turns instanceID redactor describe env (length (rt_queue rt) + 1) rt = Some rt' /\ rt_done rt' = true /\ rt_processed rt' = rt_accepted rt).
Proof.
  intros Hrt. pose proof (queue_invariant instanceID redactor describe rt Hrt) as Hq. pose proof Hq as [Hf Hb Hd Hn _]. split_and!; try done.
  - intros Hdone. destruct (Hn Hdone) as [Hc Eq]. split; [by rewrite Hf, Eq, app_nil_r|]. intros input. unfold submit. by rewrite Hc.
  - intros Hc Hdone env. destruct (turns_drain instanceID redactor describe env rt Hq Hc Hdone) as (rt' & E & D & P & _). eauto.
Qed.
(** An expired run is not a status the overview knows: the change is refused
    and the run stays as it was. *)
Theorem expired_run_not_shown {B S} `{BatchStore B} `{UnicodeTables} (w : Worker B S) run receipt : Run_Status run = "expired" ->
  sh_overview (wk_shared (RunChanged w run receipt)) = sh_overview (wk_shared w) /\ RunOverview InvalidOverviewRun ∈ wk_errors (RunChanged w run receipt).
Proof.
  intros Hs. unfold RunChanged, UpsertRun. cbn [RunInput_RunID RunInput_Label RunInput_Status RunInput_StartedAt]. rewrite Hs. change (negb (validRunStatus "expired")) with true.
  rewrite orb_true_r. cbn [orb]. destruct receipt as [receipt|]; cbv zeta; [destruct (Submit _ _) as [wr [|]]|]; cbn; split; try done; set_solver.
Qed.

(** ** A checkpoint and an exec of the demo run *)
Module RuntimeDemo.
#[export] Instance demo_batches : BatchStore nat := fun batch n => (None, (n + length batch)%nat).
#[export] Instance demo_killer : ContainmentExecutor nat := fun _ request n => (Datatypes.S n, (outcome_of request ResultKilled "", None)).
#[export] Instance demo_letters : UnicodeTables := ascii_tables.
#[export] Instance demo_letters_case : AsciiCase := ascii_tables_case.
#[export] Instance demo_floats : FloatConversion := fun _ _ => 0.
Definition demo_runtime_writer : Writer nat :=
  mkWriter 0%nat (writer_defaults (mkWriterOptions 0 0 0 0 0 0 (NewRedactor ["hunter22"]))) [] [] false false [] 0 no_diagnostics None [].
Definition demo_shared : Shared nat nat :=
  mkShared (sys_store (serving_sys demo_serving)) (Some demo_contain_engine) 0%nat demo_runtime_writer demo_hub NewOverviewState.
Definition demo_still : Env nat nat := mkEnv (fun _ sh => sh) (fun n => 100 + Z.of_nat n) (fun _ => Some (mkCheckpointReceipt 30 40 0)) false (false, false).
Definition demo_claimed : Checkpoint :=
  mkCheckpoint "cp-1" (Run_RunID demo_agent) "1" "" "1000" "20" "0" "" "tool_started" "" "sh" "login with hunter22" None None "agent".
Definition demo_received : KernelEvent := with_receipt demo_shell_event (mkReceiptTime 2000 25 0).
Definition demo_rt0 : @Runtime nat nat := NewRuntimePipeline demo_shared.
Definition demo_rt1 : @Runtime nat nat := (submit demo_rt0 (CheckpointInput demo_claimed)).1.
Definition demo_rt2 : @Runtime nat nat := (submit demo_rt1 (KernelInput demo_received)).1.
Definition demo_work (rt : @Runtime nat nat) : option (@Runtime nat nat) := work (Run_InstanceID demo_agent) (NewRedactor ["hunter22"]) demo_contract demo_still rt.
Definition demo_rt3 : @Runtime nat nat := default demo_rt2 (demo_work demo_rt2).
Definition demo_rt4 : @Runtime nat nat := default demo_rt3 (demo_work demo_rt3).
Definition demo_rt5 : @Runtime nat nat := begin_shutdown demo_rt4.
Definition demo_reachable : @Runtime nat nat -> Prop := runtime_reachable (Run_InstanceID demo_agent) (NewRedactor ["hunter22"]) demo_contract.
Definition emission_view (em : Emission) : string * string * bool * option string :=
  (EE_Source (em_event em), EE_ID (em_event em), em_stored em, StreamEvent_ID <$> em_published em).
End RuntimeDemo.
Import RuntimeDemo.
Lemma demo_work_reached rt : demo_reachable rt -> rt_cancelled rt = false -> is_some (demo_work rt) = true -> demo_reachable (default rt (demo_work rt)).
Proof.
  intros Hrt Hc Hs. destruct (demo_work rt) as [rt'|] eqn:E; [|done]. apply (runtime_next _ _ _ rt); [done|]. apply (runtime_work _ _ _ rt demo_still); [|intros Hc'; congruence|exact E].
  split; [intros n sh Hok; by apply keeps_refl|]. intros k r [= <-]. split; cbn; unfold u64_max; lia.
Qed.
Lemma demo_rt4_reached : demo_reachable demo_rt4.
Proof.
  assert (demo_reachable demo_rt2) as H2.
  { apply (runtime_next _ _ _ demo_rt1); [apply (runtime_next _ _ _ demo_rt0)|].
    - apply runtime_start. exact (sv_store _ _ _ (serving_invariant _ _ _ demo_serving_reached)).
    - by apply (runtime_submit _ _ _ demo_rt0 (CheckpointInput demo_claimed)).
    - apply (runtime_submit _ _ _ demo_rt1 (KernelInput demo_received)). vm_compute. split; split; discriminate. }
  assert (demo_reachable demo_rt3) as H3 by (apply demo_work_reached; [exact H2|vm_compute; reflexivity..]).
  apply demo_work_reached; [exact H3|vm_compute; reflexivity..].
Qed.
Lemma runtime_conserves_witness : rt_processed demo_rt4 = [CheckpointInput demo_claimed; KernelInput demo_received] /\
  exists rt', turns (Run_InstanceID demo_agent) (NewRedactor ["hunter22"]) demo_contract demo_still 1 demo_rt5 = Some rt' /\ rt_done rt' = true /\
    rt_processed rt' = [CheckpointInput demo_claimed; KernelInput demo_received].
Proof.
  split; [reflexivity|].
  destruct (runtime_conserves (Run_InstanceID demo_agent) (NewRedactor ["hunter22"]) demo_contract demo_rt5) as (_ & _ & _ & _ & H).
  - exact (runtime_next _ _ _ demo_rt4 (begin_shutdown demo_rt4) demo_rt4_reached (runtime_close _ _ _ demo_rt4)).
  - destruct (H eq_refl eq_refl demo_still) as (rt' & E & D & P). exists rt'. split; [exact E|]. split; [exact D|exact P].
Defined.
