(* ===== verification/StoredEvidence.v ===== *)
(** * Evidence from the store ([internal/api/runtime_pipeline.go])

    [StoredEvidenceProvider.Evidence] reads the newest payloads of a run and
    shows them as a timeline.  The window may have lost checkpoints that a
    correlation names: those references are cut before the timeline is built. *)
From S2P Require Import Prelude GoStd GoTime Json Redact StoreRecord Correlator Evidence EvidenceCodec Sqlite.
Open Scope Z_scope.

(** ** References outside the window *)
Definition claim_ids (items : list EvidenceEvent) : gset string := list_to_set (map EE_ID (List.filter (fun e => EE_Source e == AgentClaim) items)).
Definition prune_correlation (claims : gset string) (c : CorrelationResult) : CorrelationResult :=
  let known id := bool_decide (id ∈ claims) in
  let kept := List.filter (fun candidate => known (Candidate_CheckpointID candidate)) (Result_Candidates c) in
  let missing := ((Result_SelectedCheckpoint c != "") && negb (known (Result_SelectedCheckpoint c))) ||
                 existsb (fun candidate => negb (known (Candidate_CheckpointID candidate))) (Result_Candidates c) in
  if missing then mkCorrelationResult (Result_EventID c) (Result_Attribution c) "" 0 (Result_Conflict c) kept "checkpoint_outside_snapshot" (Result_AuthoritativeClock c)
  else mkCorrelationResult (Result_EventID c) (Result_Attribution c) (Result_SelectedCheckpoint c) (Result_Confidence c) (Result_Conflict c) kept
         (Result_CorrelationStatus c) (Result_AuthoritativeClock c).
Definition prune_event (claims : gset string) (e : EvidenceEvent) : EvidenceEvent :=
  mkEvidenceEvent (EE_ID e) (EE_Type e) (EE_Source e) (EE_ServerMonotonicNS e) (EE_ServerUnixNS e) (EE_Summary e) (EE_Attribution e)
    (prune_correlation claims <$> EE_Correlation e) (EE_Operation e) (EE_Decision e) (EE_Containment e).

(** ** The provider *)
Inductive StoredError := DatabaseRequired | StoredContextRequired | StoredCancelled | StoredRead (e : SQLiteError) | StoredUndecodable | StoredTimeline (e : TimelineError).
Section Provider.
Context {H : Type} `{Sqlite3 H}.
(** [slot]: whether the [select] took a snapshot slot rather than the end of
    the context. *)
Definition StoredEvidence_Evidence (database : option (SQLite H)) (ctx : option (list (option string))) (slot : bool) (runID : string) : result StoredError Timeline :=
  match database, ctx with
  | None, _ => Err DatabaseRequired
  | _, None => Err StoredContextRequired
  | Some database, Some _ =>
      if negb slot then Err StoredCancelled
      else match ReadPayloads database ctx runID 1000 4194304 with
      | Err e => Err (StoredRead e)
      | Ok payloads =>
          match mapM (fun payload => Unmarshal_event payload no_event) payloads with
          | None => Err StoredUndecodable
          | Some items =>
              match Build runID (map (prune_event (claim_ids items)) items) with Ok t => Ok t | Err e => Err (StoredTimeline e) end
          end
      end
  end.
End Provider.

(** ** Lemmas *)
Lemma claim_ids_elem items id : id ∈ claim_ids items <-> claimed items id.
Proof.
  unfold claim_ids, claimed. rewrite elem_of_list_to_set, list_elem_of_fmap. split.
  - intros (e & -> & He). apply list_elem_of_In, filter_In in He as [He E%bool_decide_eq_true]. exists e. split; [by apply list_elem_of_In|done].
  - intros (e & He & <- & E). exists e. split; [done|]. apply list_elem_of_In, filter_In. split; [by apply list_elem_of_In|by apply bool_decide_eq_true].
Qed.
Lemma claimed_pruned claims items id : claimed (map (prune_event claims) items) id <-> claimed items id.
Proof.
  unfold claimed. split.
  - intros (e & He & Hi & Hs). apply list_elem_of_fmap in He as (e' & -> & He). by exists e'.
  - intros (e & He & Hi & Hs). exists (prune_event claims e). split; [by apply list_elem_of_fmap_2|done].
Qed.
Lemma prune_references claims c : let c' := prune_correlation claims c in
  Result_EventID c' = Result_EventID c /\ Result_Attribution c' = Result_Attribution c /\
  (Result_SelectedCheckpoint c' = "" \/ Result_SelectedCheckpoint c' ∈ claims) /\
  (forall cand, cand ∈ Result_Candidates c' <-> cand ∈ Result_Candidates c /\ Candidate_CheckpointID cand ∈ claims).
Proof.
  cbv zeta. unfold prune_correlation. cbv zeta. assert (forall cand, cand ∈ List.filter (fun x => bool_decide (Candidate_CheckpointID x ∈ claims)) (Result_Candidates c) <->
    cand ∈ Result_Candidates c /\ Candidate_CheckpointID cand ∈ claims) as Hf.
  { intros cand. rewrite !list_elem_of_In, filter_In, bool_decide_eq_true. done. }
  destruct (_ || _) eqn:E; cbn; [split_and!; auto|]. apply orb_false_iff in E as [E _]. split_and!; try done.
  destruct (bool_decide_reflect (Result_SelectedCheckpoint c = "")); [by left|]. cbn in E. right. by apply negb_false_iff, bool_decide_eq_true in E.
Qed.
(** What the events themselves must say, whatever the window holds. *)
Definition self_consistent (runID : string) (e : EvidenceEvent) : Prop :=
  well_formed e /\ well_sourced e /\ (forall a, EE_Attribution e = Some a -> EA_RunID a = "" \/ EA_RunID a = runID) /\
  forall c, EE_Correlation e = Some c -> Result_EventID c = EE_ID e /\ (Attribution_RunID (Result_Attribution c) = "" \/ Attribution_RunID (Result_Attribution c) = runID).
Lemma pruned_acceptable runID items : acceptable runID (map (prune_event (claim_ids items)) items) <->
  runID <> "" /\ len items <= 10000 /\ NoDup (map EE_ID items) /\ Forall (self_consistent runID) items.
Proof.
  unfold acceptable. assert (len (map (prune_event (claim_ids items)) items) = len items) as -> by (unfold len; by rewrite length_map). rewrite map_map. cbn.
  assert (forall e, well_sourced (prune_event (claim_ids items) e) <-> well_sourced e) as Hw by (intros e; unfold well_sourced; cbn; by rewrite fmap_is_Some).
  rewrite Forall_map. assert (Forall (fun e => well_formed (prune_event (claim_ids items) e) /\ well_sourced (prune_event (claim_ids items) e) /\
      well_referenced runID (map (prune_event (claim_ids items)) items) (prune_event (claim_ids items) e)) items <-> Forall (self_consistent runID) items) as ->; [|done].
  apply Forall_iff. intros e. rewrite Hw. unfold self_consistent, well_referenced. cbn. split.
  - intros (H1 & H2 & H3 & H4). split_and!; try done. intros c Hc. rewrite Hc in H4. destruct (H4 _ eq_refl) as (E1 & E2 & _).
    destruct (prune_references (claim_ids items) c) as (P1 & P2 & _). rewrite P1 in E1. rewrite P2 in E2. done.
  - intros (H1 & H2 & H3 & H4). split_and!; try done. intros c Hc. destruct (EE_Correlation e) as [c0|]; [|done]. injection Hc as <-.
    destruct (H4 c0 eq_refl) as (E1 & E2). destruct (prune_references (claim_ids items) c0) as (P1 & P2 & P3 & P4). rewrite P1, P2. split_and!; try done.
    + destruct P3 as [?|P3]; [by left|right]. by apply claimed_pruned, claim_ids_elem.
    + intros cand Hc. apply P4 in Hc as [_ Hc]. by apply claimed_pruned, claim_ids_elem.
Qed.
Lemma ReadPayloads_count {H} `{Sqlite3 H} (database : SQLite H) ctx runID out : ReadPayloads database ctx runID 1000 4194304 = Ok out -> runID <> "" /\ slen runID <= 128 /\ len out <= 1000.
Proof.
  unfold ReadPayloads. destruct ctx as [errs|]; [|done]. destruct (_ || _) eqn:Eg; [done|]. destruct (ctx_err errs 0); [done|]. destruct (sq_database database) as [h|]; [|done].
  rewrite !orb_false_iff, bool_decide_eq_false, !Z.ltb_ge in Eg. destruct Eg as (((((Hn & Hl) & _) & _) & _) & _). unfold cgo_QueryStrings. destruct (sqlite3_query _ h) as [[rows code]|]; [|done].
  destruct (query_strings rows code 1000 4194304 [] 0) as [taken|] eqn:Et; [|done]. intros [-> _]%check_rows_spec.
  apply (query_strings_spec rows code 1000 4194304 []) in Et as (more & _ & _ & Hc & _); [done|unfold len; cbn; lia|cbn; lia].
Qed.
Lemma mapM_length {A B} (f : A -> option B) l k : mapM f l = Some k -> length k = length l.
Proof. revert k. induction l as [|x l IH]; intros k; [by intros [= <-]|]. cbn. destruct (f x); [|done]. cbn. destruct (mapM f l) as [k'|]; [|done]. cbn. intros [= <-]. cbn. by rewrite (IH k'). Qed.

(** C30: the stored evidence of a run is shown exactly when its newest
    payloads can be read and decoded, have distinct identifiers and each is
    consistent with itself and the run - a checkpoint that has left the window
    never takes the timeline down.  A correlation within the window is shown
    as stored; one that names a checkpoint outside it is shown without its
    selection and confidence, marked, with the candidates that remain. *)
Theorem stored_evidence_exact {H} `{Sqlite3 H} (database : SQLite H) ctx slot runID t :
  (StoredEvidence_Evidence (Some database) ctx slot runID = Ok t <->
   exists payloads items, slot = true /\ ReadPayloads database ctx runID 1000 4194304 = Ok payloads /\ mapM (fun payload => Unmarshal_event payload no_event) payloads = Some items /\
     NoDup (map EE_ID items) /\ Forall (self_consistent runID) items /\ t = timeline_of runID (map (prune_event (claim_ids items)) items)) /\
  (forall items c, let c' := prune_correlation (claim_ids items) c in
    let inside id := claimed items id in
    ((Result_SelectedCheckpoint c = "" \/ inside (Result_SelectedCheckpoint c)) /\ (forall cand, cand ∈ Result_Candidates c -> inside (Candidate_CheckpointID cand)) -> c' = c) /\
    (c' <> c -> Result_SelectedCheckpoint c' = "" /\ Result_Confidence c' = 0 /\ Result_CorrelationStatus c' = "checkpoint_outside_snapshot") /\
    (forall cand, cand ∈ Result_Candidates c' <-> cand ∈ Result_Candidates c /\ inside (Candidate_CheckpointID cand))).
Proof.
  split.
  - unfold StoredEvidence_Evidence. destruct ctx as [errs|]; [|split; [done|by intros (? & ? & _ & ? & _)]]. destruct slot; cbn [negb]; [|split; [done|by intros (? & ? & ? & _)]].
    destruct (ReadPayloads _ _ _ _ _) as [payloads|] eqn:Er; [|split; [done|by intros (? & ? & _ & ? & _)]]. pose proof (ReadPayloads_count _ _ _ _ Er) as (Hrun & _ & Hlen).
    destruct (mapM _ payloads) as [items|] eqn:Em; [|split; [done|intros (? & ? & _ & [= <-] & E & _); congruence]].
    assert (len items <= 10000) as Hl by (apply mapM_length in Em; unfold len in *; lia). pose proof (pruned_acceptable runID items) as Ha.
    destruct (Build runID _) as [t0|e] eqn:Eb.
    + apply Build_ok in Eb as [Hacc ->]. apply Ha in Hacc as (_ & _ & Hn & Hf). split; [intros [= <-]; eauto 10|]. intros (p & i & _ & [= <-] & E & _ & _ & ->). congruence.
    + split; [done|]. intros (p & i & _ & [= <-] & E & Hn & Hf & _). rewrite Em in E. injection E as <-. assert (acceptable runID (map (prune_event (claim_ids items)) items)) as Hacc by (by apply Ha).
      by rewrite (proj2 (Build_ok runID _ _) (conj Hacc eq_refl)) in Eb.
  - intros items c. cbv zeta. destruct (prune_references (claim_ids items) c) as (_ & _ & _ & Hc). split; [|split; [|intros cand; by rewrite Hc, claim_ids_elem]].
    + intros [Hs Hall]. unfold prune_correlation. cbv zeta.
      assert (existsb (fun candidate => negb (bool_decide (Candidate_CheckpointID candidate ∈ claim_ids items))) (Result_Candidates c) = false) as ->.
      { apply not_true_is_false. intros (cand & Hin & E)%existsb_exists. apply negb_true_iff, bool_decide_eq_false in E. apply E, claim_ids_elem, Hall. by apply list_elem_of_In. }
      assert ((Result_SelectedCheckpoint c != "") && negb (bool_decide (Result_SelectedCheckpoint c ∈ claim_ids items)) = false) as ->.
      { destruct Hs as [->|Hs]; [done|]. rewrite (bool_decide_eq_true_2 (_ ∈ claim_ids items)) by (by apply claim_ids_elem). apply andb_false_r. }
      cbn [orb]. rewrite forallb_filter_id; [by destruct c|]. apply forallb_forall. intros cand Hin. apply bool_decide_eq_true, claim_ids_elem, Hall. by apply list_elem_of_In.
    + unfold prune_correlation. cbv zeta. destruct (_ || _) eqn:E; [done|]. intros Hne. exfalso. apply Hne. apply orb_false_iff in E as [_ E]. rewrite forallb_filter_id; [by destruct c|].
      apply forallb_forall. intros cand Hin. apply not_false_is_true. intros Ef. assert (existsb (fun x => negb (bool_decide (Candidate_CheckpointID x ∈ claim_ids items))) (Result_Candidates c) = true); [|congruence].
      apply existsb_exists. exists cand. split; [done|]. by rewrite Ef.
Qed.

(** ** A fact whose checkpoint was pruned *)
Import Memory.
Definition lone_fact : EvidenceEvent := nth 1 sample_events no_event.
Definition lone_row : StoreRecord := mkStoreRecord (EE_ID lone_fact) (EE_Type lone_fact) "run-demo" KernelFact 5 7 1 2 "info" "" None (Marshal (event_json lone_fact)).
Definition lone_payload : string := Marshal (event_json lone_fact).
Definition lone_store : SQLite MemDB := mkSQLite (Some (mkMemDB [record_row lone_row] false)) "/e.db" 2097152 4194304.
Definition lone_evidence : result StoredError Timeline := StoredEvidence_Evidence (Some lone_store) (Some []) true "run-demo".
Definition shown_statuses (items : list EvidenceEvent) : list (option string) :=
  map (fun e => Result_CorrelationStatus <$> EE_Correlation e) (map (prune_event (claim_ids items)) items).
Definition is_shown (r : result StoredError Timeline) : bool := match r with Ok _ => true | Err _ => false end.
Lemma lone_read : ReadPayloads lone_store (Some []) "run-demo" 1000 4194304 = Ok [lone_payload].
Proof. vm_compute. reflexivity. Qed.
Lemma lone_statuses : shown_statuses <$> mapM (fun payload => Unmarshal_event payload no_event) [lone_payload] = Some [Some "checkpoint_outside_snapshot"].
Proof. vm_compute. reflexivity. Qed.
Lemma lone_shown : is_shown lone_evidence = true.
Proof. vm_compute. reflexivity. Qed.
Lemma stored_evidence_exact_witness : exists items, lone_evidence = Ok (timeline_of "run-demo" (map (prune_event (claim_ids items)) items)) /\
  shown_statuses items = [Some "checkpoint_outside_snapshot"].
Proof.
  pose proof lone_shown as Hs. destruct lone_evidence as [t|] eqn:E; [|discriminate].
  destruct (proj1 (stored_evidence_exact lone_store (Some []) true "run-demo" t)) as [Hf _]. destruct (Hf E) as (payloads & items & _ & Hr & Hm & _ & _ & Ht).
  exists items. split; [by rewrite Ht|]. rewrite lone_read in Hr. apply Ok_inj in Hr. subst payloads. pose proof lone_statuses as Hc. rewrite Hm in Hc. by injection Hc.
Defined.
