(* ===== verification/InspectionAudit.v ===== *)
(** * The audit of local checks ([internal/api/inspection.go])

    The functions the inspection endpoint is given: who a token belongs to,
    whether a run is active, and the audit, which stores a decision as evidence
    before the check may be answered. *)
From S2P Require Import Prelude GoStd GoTime Json Crypto Scope RunStore Registration Checkpoint RunLifecycle Correlator Evidence Redact StoreRecord Hub EvidenceCodec Sqlite StreamHandler McpPolicy Checker EvidenceApi RuntimePipeline.
Open Scope Z_scope.

(** ** Identities *)
Definition inspection_Authenticate (h : Handler) (runs : RunStore) (now : Time) (token : string) : result Registration.TokenError string :=
  run ← VerifyIngestToken h runs now token; Ok (Run_RunID run).
Definition inspection_ActiveRun (runs : RunStore) (now : Time) (id : string) : bool :=
  match store_runs runs !! id with
  | None => false
  | Some run => negb (bool_decide (id ∈ store_terminating runs)) && (Run_Status run == "active") && Before now (Run_RunExpiry run) && Before now (Run_TokenExpiry run)
  end.

(** ** The audit *)
Inductive InspectionError :=
  | InspectionIdentity | InspectionClock | InspectionRandom | InspectionTimeline (e : TimelineError) | InspectionRedaction (e : RecordError)
  | InspectionStorage (e : SQLiteError) | InspectionPayload.
Definition inspection_outcome (d : Checker.Decision) : string * string :=
  if Decision_Reason d == "approval_granted" then ("approval_granted", "info") else if Decision_Checked d then ("checked", "info") else ("rejected", "warning").
Definition inspection_event (d : Checker.Decision) (nonce : string) (receipt : CheckpointReceiptTime) : EvidenceEvent :=
  mkEvidenceEvent ("inspection-" +:+ hex_EncodeToString nonce) "local_inspection" PolicyDecision (Receipt_Monotonic receipt) (Receipt_Unix receipt)
    ("local-only " +:+ Decision_Reason d +:+ " route=" +:+ Decision_RouteID d +:+ " sha256=" +:+ Decision_SHA256 d +:+ "; not forwarded or executed") None None None
    (Some (mkEvidenceDecision "local-inspection" (Decision_RouteID d) "check" (inspection_outcome d).1 false "local_preflight_only")) None.
(** What the audit works on, and what it meets: the clock, the random bytes
    and the time of the publication. *)
Record Desk (H : Type) := mkDesk { desk_database : SQLite H; desk_hub : Hub }.
Arguments mkDesk {H} _ _.
Arguments desk_database {H} _.
Arguments desk_hub {H} _.
Record AuditEnv := mkAuditEnv { ae_receipt : option CheckpointReceiptTime; ae_nonce : option string; ae_now : Time }.
Section Audit.
Context {H : Type} `{Sqlite3 H} `{UnicodeTables}.
Implicit Types (desk : Desk H).
Definition inspection_record (run : AgentRun) (event : EvidenceEvent) (receipt : CheckpointReceiptTime) (severity : string) : StoreRecord :=
  mkStoreRecord (EE_ID event) (EE_Type event) (Run_RunID run) SourcePolicyDecision (Receipt_Monotonic receipt) (Receipt_Unix receipt) (Run_InstanceID run)
    (Run_ScopeCookie run) severity (EE_Summary event) None (Marshal (event_json event)).
(** Once the record is stored: the message for live viewers. *)
Definition inspection_publish (env : AuditEnv) (run : AgentRun) (severity : string) (receipt : CheckpointReceiptTime) desk (event : EvidenceEvent) (payload : string) : Desk H * result InspectionError unit :=
  match Unmarshal_event payload event with
  | None => (desk, Err InspectionPayload)
  | Some event =>
      match Build (Run_RunID run) [event] with
      | Err e => (desk, Err (InspectionTimeline e))
      | Ok timeline =>
          let published := mkStreamEvent (EE_ID event) (EE_Type event) (EE_Source event) (Run_RunID run) severity (EE_Type event) (Receipt_Monotonic receipt)
            (Receipt_Unix receipt) true (Marshal (item_json (default (event_item event) (head (Timeline_Items timeline))))) in
          (mkDesk (desk_database desk) (Publish (desk_hub desk) published (ae_now env)).1, Ok tt)
      end
  end.
Definition inspection_Audit (runs : RunStore) (redactor : Redactor) (env : AuditEnv) desk (d : Checker.Decision) : Desk H * result InspectionError unit :=
  match Get runs (Decision_RunID d) with
  | None => (desk, Err InspectionIdentity)
  | Some run =>
  match ae_receipt env with
  | None => (desk, Err InspectionClock)
  | Some receipt =>
  match ae_nonce env with
  | None => (desk, Err InspectionRandom)
  | Some nonce =>
      let severity := (inspection_outcome d).2 in
      let event := inspection_event d nonce receipt in
      match Build (Run_RunID run) [event] with
      | Err e => (desk, Err (InspectionTimeline e))
      | Ok _ =>
      match Apply redactor (inspection_record run event receipt severity) with
      | Err e => (desk, Err (InspectionRedaction e))
      | Ok record =>
      match SQLite_AppendBatch (desk_database desk) [record] with
      | (database, Err e) => (mkDesk database (desk_hub desk), Err (InspectionStorage e))
      | (database, Ok _) => inspection_publish env run severity receipt (mkDesk database (desk_hub desk)) event (Record_Payload record)
      end end end
  end end end.
(** The audit as the endpoint sees it. *)
Definition inspection_moment (h : Handler) (runs : RunStore) (redactor : Redactor) (env : AuditEnv) (read : string -> option string) (now : Time) desk : Moment :=
  mkMoment now (inspection_ActiveRun runs now) (fun d => match (inspection_Audit runs redactor env desk d).2 with Ok _ => true | Err _ => false end) read.
End Audit.

(** ** Lemmas *)
Section Durable.
Context {H : Type} `{SqliteLaws H} `{AsciiCase}.
Implicit Types (desk : Desk H).
Lemma inspection_event_ok d nonce receipt : receipt_ok receipt -> event_widths (inspection_event d nonce receipt).
Proof. intros [Hm Hu]. by split. Qed.
Lemma inspection_publish_desk env run severity receipt desk event payload desk' r : inspection_publish env run severity receipt desk event payload = (desk', r) ->
  desk_database desk' = desk_database desk.
Proof. unfold inspection_publish. destruct (Unmarshal_event _ _); [|by intros [= <- <-]]. destruct (Build _ _); by intros [= <- <-]. Qed.
(** *** What is stored of a decision
    The outcome and severity a decision is filed under. *)
Inductive filed_as (d : Checker.Decision) : string -> string -> Prop :=
| filed_granted : Decision_Reason d = "approval_granted" -> filed_as d "approval_granted" "info"
| filed_checked : Decision_Reason d <> "approval_granted" -> Decision_Checked d = true -> filed_as d "checked" "info"
| filed_rejected : Decision_Reason d <> "approval_granted" -> Decision_Checked d = false -> filed_as d "rejected" "warning".
(** The evidence of a decision: its reason, route and digest, the outcome, and
    that nothing was enforced or forwarded. *)
Record states_decision (d : Checker.Decision) (nonce : string) (receipt : CheckpointReceiptTime) (outcome : string) (e : EvidenceEvent) : Prop := {
  sd_id : EE_ID e = "inspection-" +:+ hex_EncodeToString nonce;
  sd_type : EE_Type e = "local_inspection" /\ EE_Source e = "policy_decision";
  sd_time : EE_ServerMonotonicNS e = Receipt_Monotonic receipt /\ EE_ServerUnixNS e = Receipt_Unix receipt;
  sd_summary : EE_Summary e = "local-only " +:+ Decision_Reason d +:+ " route=" +:+ Decision_RouteID d +:+ " sha256=" +:+ Decision_SHA256 d +:+ "; not forwarded or executed";
  sd_decision : EE_Decision e = Some (mkEvidenceDecision "local-inspection" (Decision_RouteID d) "check" outcome false "local_preflight_only");
  sd_nothing_else : EE_Attribution e = None /\ EE_Correlation e = None /\ EE_Operation e = None /\ EE_Containment e = None;
}.
(** The record of a decision of a run: its identity, and the redacted event. *)
Definition decision_record (redactor : Redactor) (run : AgentRun) (d : Checker.Decision) (nonce : string) (receipt : CheckpointReceiptTime) (record : StoreRecord) : Prop :=
  exists outcome event, filed_as d outcome (Record_Severity record) /\ states_decision d nonce receipt outcome event /\
  Record_ID record = EE_ID event /\ Record_RecordType record = "local_inspection" /\ Record_RunID record = Run_RunID run /\ Record_Source record = SourcePolicyDecision /\
  Record_ServerMonotonicNS record = Receipt_Monotonic receipt /\ Record_ServerUnixNS record = Receipt_Unix receipt /\
  Record_InstanceID record = Run_InstanceID run /\ Record_ScopeCookie record = Run_ScopeCookie run /\
  Unmarshal_event (Record_Payload record) no_event = Some (redacted_event redactor event).
Lemma inspection_outcome_filed d : filed_as d (inspection_outcome d).1 (inspection_outcome d).2.
Proof.
  unfold inspection_outcome. destruct (bool_decide_reflect (Decision_Reason d = "approval_granted")) as [E|E]; [by apply filed_granted|].
  destruct (Decision_Checked d) eqn:Ec; [by apply filed_checked|by apply filed_rejected].
Qed.
Lemma inspection_record_storable redactor run d nonce receipt record : receipt_ok receipt ->
  Apply redactor (inspection_record run (inspection_event d nonce receipt) receipt (inspection_outcome d).2) = Ok record -> storable record /\ decision_record redactor run d nonce receipt record.
Proof.
  intros Hr Ha. split.
  - split; [by eapply Apply_nul_free|]. revert Ha. unfold Apply. unfold mbind at 1, result_bind at 1. destruct (validate _); [|done]. unfold mbind, result_bind. destruct (scrub_payload _ _); [|done]. intros [= <-]. apply Hr.
  - exists (inspection_outcome d).1, (inspection_event d nonce receipt). pose proof Ha as Ha'. apply (apply_fields redactor) in Ha as (F1 & F2 & F3 & F4 & F5 & Hp).
    assert (Record_Severity record = (inspection_outcome d).2 /\ Record_RecordType record = "local_inspection" /\
      Record_ServerMonotonicNS record = Receipt_Monotonic receipt /\ Record_ServerUnixNS record = Receipt_Unix receipt) as (G1 & G2 & G3 & G4).
    { revert Ha'. unfold Apply. unfold mbind at 1, result_bind at 1. destruct (validate _); [|done]. unfold mbind, result_bind. destruct (scrub_payload _ _); [|done]. by intros [= <-]. }
    rewrite G1. split; [apply inspection_outcome_filed|]. clear Ha' G1. split; [constructor; repeat split; reflexivity|]. cbn [inspection_record Record_ID Record_RunID Record_Source Record_InstanceID Record_ScopeCookie Record_Payload] in *.
    do 8 (split; [assumption|]).
    apply (stored_event redactor (inspection_event d nonce receipt) _ no_event); [by apply inspection_event_ok|by right|exact Hp].
Qed.
Lemma inspection_Audit_stores runs redactor env desk d desk' h : sq_database (desk_database desk) = Some h -> sq_softLimit (desk_database desk) <= sq_hardLimit (desk_database desk) ->
  Forall row_ok (table h) -> (forall receipt, ae_receipt env = Some receipt -> receipt_ok receipt) -> store_ok runs ->
  inspection_Audit runs redactor env desk d = (desk', Ok tt) ->
  exists run nonce receipt record before h', ae_nonce env = Some nonce /\ ae_receipt env = Some receipt /\
    store_runs runs !! Decision_RunID d = Some run /\ Run_RunID run = Decision_RunID d /\ decision_record redactor run d nonce receipt record /\
    sq_database (desk_database desk') = Some h' /\ pruned 5120 (table h) before /\ pruned 5120 (insert_new before (record_row record)) (table h').
Proof.
  intros Hd Hlim Hok Hclock Hruns. unfold inspection_Audit, Get. destruct (store_runs runs !! Decision_RunID d) as [run|] eqn:Er; [|done]. cbn [fmap option_fmap option_map]. rewrite cloned_id.
  destruct (ae_receipt env) as [receipt|]; [|done]. specialize (Hclock receipt eq_refl). destruct (ae_nonce env) as [nonce|]; [|done]. cbv zeta.
  destruct (Build _ _); [|done]. destruct (Apply _ _) as [record|] eqn:Ea; [|done]. destruct (inspection_record_storable _ _ _ _ _ _ Hclock Ea) as [Hs Hrec].
  destruct (SQLite_AppendBatch _ _) as [database [u|e]] eqn:Eb; [|done]. intros Hp. apply inspection_publish_desk in Hp.
  destruct (AppendBatch_spec _ h [record] database (Ok u) Hd Hlim Hok) as (h' & Hd' & _ & _ & _ & before & P1 & P2); [by constructor|done|done|].
  exists run, nonce, receipt, record, before, h'. rewrite Hp. split_and!; try done. by apply (ok_ids runs Hruns).
Qed.
(** Neither the hub nor the time of the publication matters to the audit. *)
Definition elsewhere desk (hub : Hub) : Desk H := mkDesk (desk_database desk) hub.
Definition published_at (env : AuditEnv) (now : Time) : AuditEnv := mkAuditEnv (ae_receipt env) (ae_nonce env) now.
Lemma inspection_Audit_viewers runs redactor env desk d hub now :
  let one := inspection_Audit runs redactor env desk d in
  let other := inspection_Audit runs redactor (published_at env now) (elsewhere desk hub) d in
  other.2 = one.2 /\ desk_database other.1 = desk_database one.1.
Proof.
  cbv zeta. unfold inspection_Audit, published_at, elsewhere. cbn [ae_receipt ae_nonce desk_database desk_hub].
  destruct (Get _ _) as [run|]; [|done]. destruct (ae_receipt env) as [receipt|]; [|done]. destruct (ae_nonce env) as [nonce|]; [|done].
  destruct (Build _ _); [|done]. destruct (Apply _ _); [|done]. destruct (SQLite_AppendBatch _ _) as [database [u|e]]; [|done].
  unfold inspection_publish. destruct (Unmarshal_event _ _); [|done]. by destruct (Build _ _).
Qed.
(** C28: the local check is answered only from stored evidence: where the
    audit of the endpoint is this one, an answer with status 200 means that a
    record of exactly this decision (its reason, route and digest, filed under
    its outcome and marked as neither enforced nor forwarded), of the run as it
    is registered, taken at this time and with every text redacted, was
    committed to the database (whose size limit may prune it like any other).
    Nothing the live stream does changes that: with any other hub, closed or
    full, and any other time of publication the check gets the same answer and
    leaves the same database. *)
Theorem checked_answer_stored h runs redactor env read now desk db run route digest reason checked audited reply :
  sq_database (desk_database desk) = Some db -> sq_softLimit (desk_database desk) <= sq_hardLimit (desk_database desk) -> Forall row_ok (table db) ->
  (forall receipt, ae_receipt env = Some receipt -> receipt_ok receipt) -> store_ok runs ->
  report_result (inspection_moment h runs redactor env read now desk) run route digest reason checked 200 = Done audited reply -> reply_status reply = 200 ->
  let d := mkDecision run route digest reason checked in
  audited = Some d /\
  (exists agent nonce receipt record before db', ae_nonce env = Some nonce /\ ae_receipt env = Some receipt /\
    store_runs runs !! run = Some agent /\ Run_RunID agent = run /\ decision_record redactor agent d nonce receipt record /\
    sq_database (desk_database (inspection_Audit runs redactor env desk d).1) = Some db' /\
    pruned 5120 (table db) before /\ pruned 5120 (insert_new before (record_row record)) (table db')) /\
  (forall hub later,
    report_result (inspection_moment h runs redactor (published_at env later) read now (elsewhere desk hub)) run route digest reason checked 200 = Done audited reply /\
    desk_database (inspection_Audit runs redactor (published_at env later) (elsewhere desk hub) d).1 = desk_database (inspection_Audit runs redactor env desk d).1).
Proof.
  intros Hd Hlim Hok Hclock Hruns Hreport Hstatus d.
  assert (audited = Some d /\ (inspection_Audit runs redactor env desk d).2 = Ok tt) as [Ha Hok2].
  { revert Hreport. unfold report_result, inspection_moment. cbn [m_audit]. fold d.
    destruct (inspection_Audit runs redactor env desk d).2 as [[]|e]; [by intros [= <- <-]|]. intros [= <- <-]. done. }
  split; [done|]. split.
  - destruct (inspection_Audit runs redactor env desk d) as [desk' r] eqn:Ea. cbn [snd] in Hok2. subst r.
    exact (inspection_Audit_stores runs redactor env desk d desk' db Hd Hlim Hok Hclock Hruns Ea).
  - intros hub later. destruct (inspection_Audit_viewers runs redactor env desk d hub later) as [E1 E2]. split; [|exact E2].
    rewrite <-Hreport. unfold report_result, inspection_moment. cbn [m_audit]. fold d. by rewrite E1.
Qed.
End Durable.
(** Whoever a token belongs to is active at that time. *)
Lemma authenticated_active h runs now token run : store_ok runs -> inspection_Authenticate h runs now token = Ok run -> inspection_ActiveRun runs now run = true.
Proof.
  intros Hok. unfold inspection_Authenticate. destruct (VerifyIngestToken h runs now token) as [agent|] eqn:E; [|done]. intros [= <-]. revert E.
  unfold VerifyIngestToken. destruct (parseIngestToken h token) as [[[runID hash] expiry]|]; [|done]. destruct (negb (Before now expiry)); [done|].
  destruct (store_runs runs !! runID) as [x|] eqn:Er; [|done]. destruct (_ != _); [done|]. destruct (_ || _) eqn:Ec; [done|]. rewrite cloned_id. intros [= <-].
  destruct (ok_ids runs Hok _ _ Er) as [-> _]. unfold inspection_ActiveRun. rewrite Er. rewrite !orb_false_iff in Ec. destruct Ec as ((((H1 & H2) & _) & H4) & H5).
  apply negb_false_iff in H1, H4, H5. by rewrite H1, H2, H4, H5.
Qed.

(** ** A check of the demo run *)
Module AuditDemo.
Import Memory.
#[export] Instance demo_audit_tables : UnicodeTables := ascii_tables.
#[export] Instance demo_audit_case : AsciiCase := ascii_tables_case.
Definition demo_row (id : string) : Row := record_row (demo_mem_record id "high" 9 "{}").
Definition demo_desk (rows : list Row) : Desk MemDB := mkDesk (mkSQLite (Some (mkMemDB rows false)) "/e.db" 2097152 4194304) demo_hub.
Definition demo_audit_env : AuditEnv := mkAuditEnv (Some (mkCheckpointReceipt 5 7 0)) (Some "0123456789abcdef") 100.
Definition demo_audit_runs : RunStore := sys_store (serving_sys demo_serving).
Definition demo_decision : Checker.Decision := mkDecision (Run_RunID demo_agent) "model" "00" "checked" true.
Definition demo_audited (rows : list Row) : Desk MemDB * result InspectionError unit :=
  inspection_Audit demo_audit_runs (NewRedactor ["hunter22"]) demo_audit_env (demo_desk rows) demo_decision.
Definition stored_ids (desk : Desk MemDB) : option (list string) := (fun db => map (column 0) (mem_rows db)) <$> sq_database (desk_database desk).
Definition demo_report : Progress :=
  report_result (inspection_moment demo_handler demo_audit_runs (NewRedactor ["hunter22"]) demo_audit_env (fun _ => None) 100 (demo_desk [demo_row "old"]))
    (Run_RunID demo_agent) "model" "00" "checked" true 200.
Definition reported_status (p : Progress) : Z := match p with Done _ reply => reply_status reply | _ => 0 end.
Definition reported_decision (p : Progress) : option Checker.Decision := match p with Done d _ => d | _ => None end.
End AuditDemo.
Import AuditDemo Memory.
Lemma checked_answer_stored_witness : exists agent nonce receipt record before db',
  store_runs demo_audit_runs !! Run_RunID demo_agent = Some agent /\ decision_record (NewRedactor ["hunter22"]) agent demo_decision nonce receipt record /\
  sq_database (desk_database (demo_audited [demo_row "old"]).1) = Some db' /\ pruned 5120 (insert_new before (record_row record)) (table db').
Proof.
  assert (reported_status demo_report = 200) as Hs by (vm_compute; reflexivity). destruct demo_report as [f|audited reply] eqn:E; [discriminate|].
  destruct (checked_answer_stored demo_handler demo_audit_runs (NewRedactor ["hunter22"]) demo_audit_env (fun _ => None) 100 (demo_desk [demo_row "old"]) (mkMemDB [demo_row "old"] false)
    (Run_RunID demo_agent) "model" "00" "checked" true audited reply) as (_ & (agent & nonce & receipt & record & before & db' & _ & _ & H1 & _ & H2 & H3 & _ & H4) & _).
  - reflexivity.
  - vm_compute. discriminate.
  - row_oks.
  - intros receipt Hr. injection Hr as <-. split; split; vm_compute; discriminate.
  - exact (sv_store _ _ _ (serving_invariant _ _ _ demo_serving_reached)).
  - exact E.
  - exact Hs.
  - exists agent, nonce, receipt, record, before, db'. split; [exact H1|]. split; [exact H2|]. split; [exact H3|exact H4].
Defined.
(** A check is answered although its record is gone: the batch that stores it
    prunes it, as it is less severe than the rows that fill the database. *)
Theorem checked_answer_pruned : (demo_audited [demo_row "a"; demo_row "b"]).2 = Ok tt /\ stored_ids (demo_audited [demo_row "a"; demo_row "b"]).1 = Some ["a"; "b"].
Proof. split; vm_compute; reflexivity. Qed.
