(* ===== verification/Loader.v ===== *)
(** * Loading a policy file ([internal/policy/loader.go])

    The text of a bundle becomes a [Bundle] in five steps: bounds and UTF-8,
    the scan for repeated keys, the strict decoding into the raw structs, the
    fields that must be spelled out, and the limits, validation and compile
    preview of [Limits] and [Schema].  The decoder is the reflective one of
    [encoding/json]: it is driven by the shape of the target type (the struct
    tags) and reads into the value the target already has, so a member that
    spells a field in another case overwrites what the first one stored, and
    the spare room of a slice keeps its old elements.  The YAML decoder is
    not part of the sources: it is the class [YamlDecoder]. *)
From S2P Require Import Prelude GoStd GoTime Json Glob Netip Schema Limits.
Open Scope Z_scope.

Definition Format := string.
Definition FormatJSON : Format := "json".
Definition FormatYAML : Format := "yaml".

(** ** Repeated keys *)
Inductive ScanError := ScanSyntax | DuplicateKey (key : string).
(** The reader of the members of an object that keeps their order. *)
Definition in_order : adder := fun key v fields => fields ++ [(key, v)].
(** A value that opens no bracket: the rest of the text. *)
Definition scan_scalar (s : string) : result ScanError string :=
  match parse_value_with in_order 1 0 s with Some (_, rest) => Ok rest | None => Err ScanSyntax end.
Fixpoint scanJSONValue (fuel : nat) (s : string) : result ScanError string :=
  match fuel with
  | O => Err ScanSyntax
  | S f =>
      match skip_space s with
      | EmptyString => Err ScanSyntax
      | String c rest as s =>
          if c == "{"%char then
            match expect "}"%char (skip_space rest) with Some rest' => Ok rest' | None => scan_members f [] rest end
          else if c == "["%char then
            match expect "]"%char (skip_space rest) with Some rest' => Ok rest' | None => scan_elements f rest end
          else scan_scalar s
      end
  end
with scan_members (fuel : nat) (seen : list string) (s : string) : result ScanError string :=
  match fuel with
  | O => Err ScanSyntax
  | S f =>
      match expect (chr 34) (skip_space s) with
      | None => Err ScanSyntax
      | Some s =>
          match unquote (String.length s) s with
          | None => Err ScanSyntax
          | Some (key, s) =>
              if bool_decide (key ∈ seen) then Err (DuplicateKey key)
              else
              match expect ":"%char (skip_space s) with
              | None => Err ScanSyntax
              | Some s =>
                  s ← scanJSONValue f s;
                  match skip_space s with
                  | String c rest =>
                      if c == ","%char then scan_members f (seen ++ [key]) rest else if c == "}"%char then Ok rest else Err ScanSyntax
                  | EmptyString => Err ScanSyntax
                  end
              end
          end
      end
  end
with scan_elements (fuel : nat) (s : string) : result ScanError string :=
  match fuel with
  | O => Err ScanSyntax
  | S f =>
      s ← scanJSONValue f s;
      match skip_space s with
      | String c rest => if c == ","%char then scan_elements f rest else if c == "]"%char then Ok rest else Err ScanSyntax
      | EmptyString => Err ScanSyntax
      end
  end.
(** What a decoder's next call finds. *)
Inductive NextValue := NextEOF | NextError | NextDocument.
Definition requireEndOfInput (next : NextValue) : bool := match next with NextEOF => true | _ => false end.
Definition json_next (rest : string) : NextValue :=
  if skip_space rest == "" then NextEOF
  else match parse_value_with in_order (json_fuel rest) maxNestingDepth rest with Some _ => NextDocument | None => NextError end.
(** The code's scanner decodes each number as a [float64] and so already refuses
    one beyond its range; here such a number is refused by the decoder of the
    policy structs, none of whose fields is a float, so that [decodeJSON] accepts
    the same texts. *)
Definition rejectDuplicateJSONKeys (data : string) : result ScanError unit :=
  rest ← scanJSONValue (json_fuel data) data;
  guard_err (negb (requireEndOfInput (json_next rest))) ScanSyntax.

(** ** The reflective decoder *)
Inductive shape :=
  | SString | SBool | SInt | SUint16 | STextMap
  | SPointer (target : shape)
  | SSlice (element : shape)
  | SStruct (fields : list (string * shape)).
(** The elements of a slice, and those left in the room after its length. *)
Record slice (A : Type) := mkSlice { elements : list A; spare : list A }.
Arguments mkSlice {A}.
Arguments elements {A}.
Arguments spare {A}.
Fixpoint denote (sh : shape) : Type :=
  match sh with
  | SString => string
  | SBool => bool
  | SInt | SUint16 => Z
  | STextMap => gmap string string
  | SPointer target => option (denote target)
  | SSlice element => slice (denote element)
  | SStruct fields => foldr (fun f rest => (denote f.2 * rest)%type) unit fields
  end.
Definition denote_all (fields : list (string * shape)) : Type := foldr (fun f rest => (denote f.2 * rest)%type) unit fields.
Fixpoint zero (sh : shape) : denote sh :=
  match sh with
  | SString => ""
  | SBool => false
  | SInt | SUint16 => 0
  | STextMap => ∅
  | SPointer _ => None
  | SSlice _ => mkSlice [] []
  | SStruct fields =>
      (fix all (fields : list (string * shape)) : denote_all fields :=
        match fields with [] => tt | f :: fields => (zero f.2, all fields) end) fields
  end.
Section Decoder.
Context `{UnicodeTables}.
(** The field a member is read into: the one of its name, otherwise the first
    that differs in case only. *)
Definition hit (fields : list (string * shape)) (key name : string) : bool :=
  if existsb (fun f => f.1 == key) fields then name == key else EqualFold key name.
Fixpoint put (read : forall sh, denote sh -> option (denote sh)) (chosen : string -> bool) (fields : list (string * shape))
    : denote_all fields -> option (denote_all fields) :=
  match fields with
  | [] => fun _ => None
  | f :: fields => fun base =>
      if chosen f.1 then x ← read f.2 base.1; Some (x, base.2)
      else rest ← put read chosen fields base.2; Some (base.1, rest)
  end.
Definition read_entry (acc : option (gmap string string)) (m : string * json) : option (gmap string string) :=
  acc ← acc;
  match m.2 with JString s => Some (<[m.1 := s]> acc) | JNull => Some (<[m.1 := ""]> acc) | _ => None end.
(** [Decode] into a target of shape [sh] that holds a value. *)
Fixpoint decode_into (v : json) (sh : shape) {struct v} : denote sh -> option (denote sh) :=
  (fix into (sh : shape) : denote sh -> option (denote sh) :=
    match sh with
    | SString => fun base => match v with JNull => Some base | JString s => Some s | _ => None end
    | SBool => fun base => match v with JNull => Some base | JBool b => Some b | _ => None end
    | SInt => fun base => match v with JNull => Some base | JNumber literal => ParseInt literal | _ => None end
    | SUint16 => fun base =>
        match v with
        | JNull => Some base
        | JNumber literal => n ← ParseUint literal; if n <=? 65535 then Some n else None
        | _ => None
        end
    | STextMap => fun base => match v with JNull => Some ∅ | JObject members => foldl read_entry (Some base) members | _ => None end
    | SPointer target => fun base => match v with JNull => Some None | _ => Some <$> into target (default (zero target) base) end
    | SSlice element => fun base =>
        match v with
        | JNull | JArray [] => Some (mkSlice [] [])
        | JArray l =>
            let room := elements base ++ spare base in
            read ← (fix each (l : list json) (room : list (denote element)) : option (list (denote element)) :=
              match l with
              | [] => Some []
              | w :: l => x ← decode_into w element (hd (zero element) room); xs ← each l (tl room); Some (x :: xs)
              end) l room;
            Some (mkSlice read (drop (length l) room))
        | _ => None
        end
    | SStruct fields => fun base =>
        match v with
        | JNull => Some base
        | JObject members =>
            (fix each (members : list (string * json)) (base : denote_all fields) : option (denote_all fields) :=
              match members with
              | [] => Some base
              | m :: members => base ← put (decode_into m.2) (hit fields m.1) fields base; each members base
              end) members base
        | _ => None
        end
    end) sh.
End Decoder.

(** ** The raw structs *)
Definition scope_shape : shape :=
  SStruct [("type", SString); ("run_id", SString); ("cgroup_id", SString); ("label_selector", STextMap)].
Definition file_shape : shape :=
  SStruct [("exact_paths", SSlice SString); ("prefixes", SSlice SString); ("suffixes", SSlice SString); ("basenames", SSlice SString);
    ("access", SSlice SString)].
Definition exec_shape : shape := SStruct [("executables", SSlice SString); ("arg_contains", SSlice SString)].
Definition port_shape : shape := SStruct [("from", SUint16); ("to", SUint16)].
Definition network_shape : shape :=
  SStruct [("default", SString); ("cidrs", SSlice SString); ("ports", SSlice port_shape); ("families", SSlice SString)].
Definition conditions_shape : shape :=
  SStruct [("file", SPointer file_shape); ("exec", SPointer exec_shape); ("network", SPointer network_shape)].
Definition policy_shape : shape :=
  SStruct [("id", SString); ("name", SString); ("description", SString); ("enabled", SPointer SBool); ("scope", scope_shape);
    ("policy_decision", SString); ("requested_action", SString); ("priority", SPointer SInt); ("severity", SString); ("conditions", conditions_shape)].
Definition bundle_shape : shape := SStruct [("schema_version", SInt); ("policies", SSlice policy_shape)].
Record rawPolicy := mkRawPolicy {
  raw_ID : string;
  raw_Name : string;
  raw_Description : string;
  raw_Enabled : option bool;
  raw_Scope : Scope;
  raw_Decision : Decision;
  raw_RequestedAction : Action;
  raw_Priority : option Z;
  raw_Severity : Severity;
  raw_Conditions : Conditions;
}.
Record rawBundle := mkRawBundle { raw_SchemaVersion : Z; raw_Policies : list rawPolicy }.
(** The structs of the decoded value. *)
Definition to_scope (x : denote scope_shape) : Scope := let '(type, (runID, (cgroupID, (labels, _)))) := x in mkScope type runID cgroupID labels.
Definition to_file (x : denote file_shape) : FileCondition :=
  let '(exact, (prefixes, (suffixes, (basenames, (access, _))))) := x in
  mkFileCondition (elements exact) (elements prefixes) (elements suffixes) (elements basenames) (elements access).
Definition to_exec (x : denote exec_shape) : ExecCondition := let '(executables, (args, _)) := x in mkExecCondition (elements executables) (elements args).
Definition to_port (x : denote port_shape) : PortRange := let '(from, (to, _)) := x in mkPortRange from to.
Definition to_network (x : denote network_shape) : NetworkCondition :=
  let '(default, (cidrs, (ports, (families, _)))) := x in
  mkNetworkCondition default (elements cidrs) (map to_port (elements ports)) (elements families).
Definition to_conditions (x : denote conditions_shape) : Conditions :=
  let '(file, (exec, (network, _))) := x in mkConditions (to_file <$> file) (to_exec <$> exec) (to_network <$> network).
Definition to_policy (x : denote policy_shape) : rawPolicy :=
  let '(id, (name, (description, (enabled, (scope, (decision, (action, (priority, (severity, (conditions, _)))))))))) := x in
  mkRawPolicy id name description enabled (to_scope scope) decision action priority severity (to_conditions conditions).
Definition to_bundle (x : denote bundle_shape) : rawBundle :=
  let '(version, (policies, _)) := x in mkRawBundle version (map to_policy (elements policies)).

(** ** Fields that must be spelled out *)
Inductive RequiredError := EnabledRequired (index : Z) | PriorityRequired (index : Z).
Definition converted (p : rawPolicy) : Policy :=
  mkPolicy (raw_ID p) (raw_Name p) (raw_Description p) (default false (raw_Enabled p)) (raw_Scope p) (raw_Decision p)
    (raw_RequestedAction p) (default 0 (raw_Priority p)) (raw_Severity p) (raw_Conditions p).
Definition required_errors (index : Z) (p : rawPolicy) : list RequiredError :=
  (match raw_Enabled p with None => [EnabledRequired index] | Some _ => [] end) ++
  (match raw_Priority p with None => [PriorityRequired index] | Some _ => [] end).
Fixpoint required_from (index : Z) (policies : list rawPolicy) : list RequiredError :=
  match policies with [] => [] | p :: policies => required_errors index p ++ required_from (index + 1) policies end.
Definition bundle (raw : rawBundle) : Bundle * list RequiredError :=
  (mkBundle (raw_SchemaVersion raw) (map converted (raw_Policies raw)), required_from 0 (raw_Policies raw)).

(** ** Loading *)
(** The first [Decode] of the strict YAML decoder, and what its second finds. *)
Class YamlDecoder := {
  yaml_decode : string -> option rawBundle;
  yaml_next : string -> NextValue;
}.
Inductive BundleDecodeError := DecodeScan (e : ScanError) | DecodeInvalid | DecodeTrailing.
Inductive LoadError :=
  | InputTooLarge (size limit : Z)
  | InputNotUTF8
  | FormatUnsupported (format : Format)
  | DecodeFailed (format : Format) (e : BundleDecodeError)
  | RequiredFields (errors : list RequiredError)
  | LimitsExceeded (e : LimitError)
  | BundleInvalid (errors : list BundleError)
  | PreviewFailed (e : PreviewError).
Record LoadResult := mkLoadResult {
  LoadResult_Bundle : Bundle;
  LoadResult_Diagnostics : list Diagnostic;
  LoadResult_Preview : CompilePreview;
}.
Definition no_bundle : Bundle := mkBundle 0 [].
Definition no_preview : CompilePreview := mkCompilePreview [] 0 0 0 0.
Definition no_result : LoadResult := mkLoadResult no_bundle [] no_preview.
Section Load.
Context `{UnicodeTables} `{YamlDecoder}.
Definition decodeJSON (data : string) : result BundleDecodeError rawBundle :=
  match rejectDuplicateJSONKeys data with
  | Err e => Err (DecodeScan e)
  | Ok _ =>
      match parse_value_with in_order (json_fuel data) maxNestingDepth data with
      | None => Err DecodeInvalid
      | Some (v, rest) =>
          match decode_into v bundle_shape (zero bundle_shape) with
          | None => Err DecodeInvalid
          | Some x => if requireEndOfInput (json_next rest) then Ok (to_bundle x) else Err DecodeTrailing
          end
      end
  end.
Definition decodeYAML (data : string) : result BundleDecodeError rawBundle :=
  match yaml_decode data with
  | None => Err DecodeInvalid
  | Some raw => if requireEndOfInput (yaml_next data) then Ok raw else Err DecodeTrailing
  end.
Definition decode_format (data : string) (format : Format) : result LoadError rawBundle :=
  let run (decode : string -> result BundleDecodeError rawBundle) := match decode data with Ok raw => Ok raw | Err e => Err (DecodeFailed format e) end in
  if ToLower format == FormatJSON then run decodeJSON
  else if ToLower format == FormatYAML then run decodeYAML
  else Err (FormatUnsupported format).
Definition Load (data : string) (format : Format) (limits : Limits) : LoadResult * option LoadError :=
  let limits := withDefaults limits in
  if MaxFileBytes limits <? slen data then (no_result, Some (InputTooLarge (slen data) (MaxFileBytes limits)))
  else if negb (utf8_valid data) then (no_result, Some InputNotUTF8)
  else match decode_format data format with
  | Err e => (no_result, Some e)
  | Ok raw =>
  match bundle raw with
  | (_, (_ :: _) as errors) => (no_result, Some (RequiredFields errors))
  | (b, []) =>
  match validateBundleLimits b limits with
  | Some e => (mkLoadResult b [] no_preview, Some (LimitsExceeded e))
  | None =>
  let '(normalized, diagnostics, errors) := NormalizeAndValidate (Some b) in
  let b := default b normalized in
  match errors with
  | _ :: _ => (mkLoadResult b diagnostics no_preview, Some (BundleInvalid errors))
  | [] =>
  match PreviewCompile b limits with
  | (preview, Some e) => (mkLoadResult b diagnostics preview, Some (PreviewFailed e))
  | (preview, None) => (mkLoadResult b diagnostics preview, None)
  end
  end
  end
  end
  end.

(** ** Loading from disk *)
(** [filepath.Ext]: from the last dot of the last component. *)
Fixpoint ext_from (s : string) (found : string) : string :=
  match s with
  | EmptyString => found
  | String c rest => ext_from rest (if c == "/"%char then "" else if c == "."%char then s else found)
  end.
Definition Ext (filename : string) : string := ext_from filename "".
Definition formatFromExtension (filename : string) : option Format :=
  let ext := ToLower (Ext filename) in
  if ext == ".json" then Some FormatJSON else if (ext == ".yaml") || (ext == ".yml") then Some FormatYAML else None.
(** What the system calls on the file give; [file_read] is the first
    [limit + 1] bytes, or fewer, or an error. *)
Record PolicyFile := mkPolicyFile {
  file_stat : option (bool * Z);
  file_read : Z -> option string;
}.
Inductive FileError :=
  | ExtensionUnsupported | OpenFailed | StatFailed | NotRegular | FileTooLarge (size limit : Z) | ReadFailed | LoadFailed (e : LoadError).
Definition LoadFile (filename : string) (opened : option PolicyFile) (limits : Limits) : LoadResult * option FileError :=
  match formatFromExtension filename with
  | None => (no_result, Some ExtensionUnsupported)
  | Some format =>
  let limits := withDefaults limits in
  match opened with
  | None => (no_result, Some OpenFailed)
  | Some file =>
  match file_stat file with
  | None => (no_result, Some StatFailed)
  | Some (regular, size) =>
  if negb regular then (no_result, Some NotRegular)
  else if MaxFileBytes limits <? size then (no_result, Some (FileTooLarge size (MaxFileBytes limits)))
  else match file_read file (to_int64 (MaxFileBytes limits + 1)) with
  | None => (no_result, Some ReadFailed)
  | Some data =>
  match Load data format limits with
  | (r, Some e) => (r, Some (LoadFailed e))
  | (r, None) => (r, None)
  end
  end
  end
  end
  end.
End Load.

(** ** The scan *)
Definition scan_verdict (unique : bool) (rest : string) (r : result ScanError string) : Prop :=
  if unique then r = Ok rest else exists key, r = Err (DuplicateKey key).
Lemma scan_bind unique unique' rest rest' r k : scan_verdict unique rest r -> scan_verdict unique' rest' (k rest) ->
  scan_verdict (unique && unique') rest' (s ← r; k s).
Proof. destruct unique; cbn [andb]; [intros -> Hk; exact Hk|intros [key ->] _; by exists key]. Qed.
Lemma scan_scalar_parse fuel room s v rest : s <> "" -> skip_space s = s -> HasPrefix s "{" = false -> HasPrefix s "[" = false ->
  parse_value_with in_order (S fuel) room s = Some (v, rest) -> names_unique v = true /\ scan_scalar s = Ok rest.
Proof.
  intros Hs Hk H1 H2. unfold scan_scalar. cbn [parse_value_with]. rewrite Hk. destruct s as [|c s]; [done|]. rewrite HasPrefix_char in H1, H2. rewrite H1, H2.
  intros Hp. rewrite Hp. split; [|done]. revert Hp. clear H1 H2. destruct (_ =? 34); [destruct (unquote _ _) as [[? ?]|]; [|done]; by intros [= <- _]|].
  unfold cut_literal. repeat (destruct (c == _); [destruct (HasPrefix _ _); [intros [= <- _]; done|intros [=]]|]). destruct (scan_number _) as [[? ?]|]; [|done]. by intros [= <- _].
Qed.
Lemma skip_space_idem s : skip_space (skip_space s) = skip_space s.
Proof. induction s as [|c s IH]; [done|]. cbn [skip_space]. destruct (is_space c) eqn:E; [done|]. cbn [skip_space]. by rewrite E. Qed.
Lemma scan_members_step key v acc new rest rest' s (k : string -> result ScanError string) : NoDup (map fst acc) ->
  (key ∉ map fst acc -> scan_verdict (names_unique v) rest s) ->
  (NoDup (map fst (acc ++ [(key, v)])) -> scan_verdict (bool_decide (NoDup (map fst (acc ++ [(key, v)] ++ new))) && forallb (fun f => names_unique f.2) new) rest' (k rest)) ->
  scan_verdict (bool_decide (NoDup (map fst (acc ++ [(key, v)] ++ new))) && forallb (fun f => names_unique f.2) ([(key, v)] ++ new)) rest'
    (if bool_decide (key ∈ map fst acc) then Err (DuplicateKey key) else s ← s; k s).
Proof.
  intros Hn Hs Hk. destruct (bool_decide_reflect (key ∈ map fst acc)) as [Hin|Hin].
  - rewrite (bool_decide_eq_false_2 (NoDup _)); [by exists key|]. rewrite !map_app. cbn [map fst app]. rewrite NoDup_app. intros (_ & H & _). apply (H key Hin). by left.
  - assert (NoDup (map fst (acc ++ [(key, v)]))) as Hn'.
    { rewrite map_app, NoDup_app. split_and!; [done| |apply NoDup_singleton]. intros x Hx Hx'. apply list_elem_of_singleton in Hx' as ->. done. }
    cbn [app forallb snd]. rewrite andb_assoc, (andb_comm _ (names_unique v)), <-andb_assoc. apply (scan_bind _ _ rest); auto.
Qed.
Lemma scan_parse fuel : forall room s,
  (forall v rest, parse_value_with in_order fuel room s = Some (v, rest) -> scan_verdict (names_unique v) rest (scanJSONValue fuel s)) /\
  (forall acc fields rest, parse_members_with in_order fuel room acc s = Some (fields, rest) ->
    exists new, fields = acc ++ new /\ (NoDup (map fst acc) ->
      scan_verdict (bool_decide (NoDup (map fst fields)) && forallb (fun f => names_unique f.2) new) rest (scan_members fuel (map fst acc) s))) /\
  (forall l rest, parse_elements_with in_order fuel room s = Some (l, rest) -> scan_verdict (forallb names_unique l) rest (scan_elements fuel s)).
Proof.
  induction fuel as [|fuel IH]; intros room s; [done|]. split_and!.
  - intros v rest. pose proof (skip_space_idem s) as Hk. cbn [parse_value_with scanJSONValue]. destruct (skip_space s) as [|c s1] eqn:Es; [done|].
    destruct (c == "{"%char) eqn:E1; [destruct room as [|room]; [done|]|destruct (c == "["%char) eqn:E2; [destruct room as [|room]; [done|]|]].
    + destruct (expect _ _) as [r|]; [by intros [= <- <-]|]. destruct (parse_members_with _ _ _ _ _) as [[l r]|] eqn:Em; [|done]. intros [= <- <-].
      destruct (proj1 (proj2 (IH room s1)) _ _ _ Em) as (new & -> & Hv). cbn [names_unique app] in *. apply Hv. constructor.
    + destruct (expect _ _) as [r|]; [by intros [= <- <-]|]. destruct (parse_elements_with _ _ _ _) as [[l r]|] eqn:Em; [|done]. intros [= <- <-].
      exact (proj2 (proj2 (IH room s1)) _ _ Em).
    + intros Hp. destruct (scan_scalar_parse fuel room (String c s1) v rest) as [-> ->]; [done|done|by rewrite HasPrefix_char..| |done].
      cbn [parse_value_with]. by rewrite Hk, E1, E2.
  - intros acc fields rest. cbn [parse_members_with scan_members]. destruct (expect _ _) as [s1|]; [|done]. destruct (unquote _ _) as [[key s2]|]; [|done].
    destruct (expect ":"%char _) as [s3|]; [|done]. destruct (parse_value_with _ _ _ _) as [[v s4]|] eqn:Ev; [|done]. apply (IH room s3) in Ev. cbv zeta.
    destruct (skip_space s4) as [|c r] eqn:E4; [done|]. unfold in_order at 1 2. destruct (c == ","%char) eqn:Ec.
    + intros Em. destruct (proj1 (proj2 (IH room r)) _ _ _ Em) as (new & -> & Hv). exists ([(key, v)] ++ new). rewrite <-app_assoc in *. split; [done|]. intros Hn.
      apply (scan_members_step key v acc new s4 rest (scanJSONValue fuel s3)); [done|done|]. intros Hn'. rewrite E4, Ec. replace (map fst acc ++ [key]) with (map fst (acc ++ [(key, v)])) by (by rewrite map_app). exact (Hv Hn').
    + destruct (c == "}"%char) eqn:Ec'; [|done]. intros [= <- <-]. exists ([(key, v)] ++ []). split; [done|]. intros Hn.
      apply (scan_members_step key v acc [] s4 r (scanJSONValue fuel s3)); [done|done|]. intros Hn'. rewrite E4, Ec, Ec'. by rewrite bool_decide_eq_true_2.
  - intros l rest. cbn [parse_elements_with scan_elements]. destruct (parse_value_with _ _ _ _) as [[v s4]|] eqn:Ev; [|done]. apply (IH room s) in Ev.
    destruct (skip_space s4) as [|c r] eqn:E4; [done|]. destruct (c == ","%char) eqn:Ec.
    + destruct (parse_elements_with _ _ _ _) as [[l' r']|] eqn:Em; [|done]. intros [= <- <-]. apply (IH room r) in Em. cbn [forallb]. apply (scan_bind _ _ s4); [done|]. by rewrite E4, Ec.
    + destruct (c == "]"%char) eqn:Ec'; [|done]. intros [= <- <-]. cbn [forallb]. apply (scan_bind _ _ s4); [done|]. by rewrite E4, Ec, Ec'.
Qed.

(** ** What loading accepts *)
(** The document of an input that holds one. *)
Definition document (data : string) : option json :=
  match parse_value_with in_order (json_fuel data) maxNestingDepth data with
  | Some (v, rest) => if skip_space rest == "" then Some v else None
  | None => None
  end.
(** The fuel is enough: a larger one reads the same. *)
Lemma document_fuel fuel data : (json_fuel data <= fuel)%nat ->
  parse_value_with in_order fuel maxNestingDepth data = parse_value_with in_order (json_fuel data) maxNestingDepth data.
Proof. intros Hf. apply (parse_fuel in_order (json_fuel data)); [done|]. unfold json_fuel. lia. Qed.
Lemma json_next_end rest : requireEndOfInput (json_next rest) = (skip_space rest == "").
Proof. unfold json_next. case_bool_decide; [done|]. by destruct (parse_value_with _ _ _ _). Qed.
Lemma required_from_nil policies : forall index,
  required_from index policies = [] <-> Forall (fun p => is_Some (raw_Enabled p) /\ is_Some (raw_Priority p)) policies.
Proof.
  induction policies as [|p policies IH]; intros index; cbn [required_from]; [done|]. rewrite app_nil, IH, Forall_cons. unfold required_errors. rewrite app_nil.
  destruct (raw_Enabled p), (raw_Priority p); split; intros [[? ?] ?]; try done; try (by destruct (is_Some_None (A := bool))); try (by destruct (is_Some_None (A := Z))); naive_solver.
Qed.
Section Accepts.
Context `{UnicodeTables} `{YamlDecoder}.
Lemma decodeJSON_ok data raw : decodeJSON data = Ok raw <-> exists v x,
  document data = Some v /\ names_unique v = true /\ decode_into v bundle_shape (zero bundle_shape) = Some x /\ raw = to_bundle x.
Proof.
  unfold decodeJSON, document, rejectDuplicateJSONKeys. destruct (parse_value_with _ _ _ _) as [[v rest]|] eqn:E.
  - apply scan_parse in E as Hs. rewrite !json_next_end. unfold scan_verdict in Hs. destruct (names_unique v) eqn:Eu.
    + rewrite Hs. cbn [mbind result_bind]. rewrite json_next_end. destruct (skip_space rest == "") eqn:Er; cbn [negb guard_err].
      * destruct (decode_into _ _ _) as [x|] eqn:Ed; [|naive_solver]. split; [intros [= <-]; eauto 6|]. intros (? & ? & [= <-] & _ & Hx & ->). congruence.
      * naive_solver.
    + destruct Hs as [key ->]. cbn. split; [done|]. intros (v' & x & Hv & Hu & _). destruct (_ == _); [|done]. congruence.
  - split; [|naive_solver]. destruct (rest ← _; _); done.
Qed.
(** What is asked of a decoded bundle. *)
Definition complete (raw : rawBundle) : Prop := Forall (fun p => is_Some (raw_Enabled p) /\ is_Some (raw_Priority p)) (raw_Policies raw).
Definition normalized (b : Bundle) : Bundle := mkBundle (Bundle_SchemaVersion b) (map normalize_policy (Policies b)).
Record acceptable (limits : Limits) (b : Bundle) : Prop := {
  acceptable_count : len (Policies b) <= MaxPolicies limits;
  acceptable_limits : Forall (within_limits limits) (Policies b);
  acceptable_schema : wf_bundle (normalized b);
  acceptable_kernel : CompilePreview_KernelRuleCount (PreviewCompile (normalized b) limits).1 <= KernelMapCapacity limits;
  acceptable_user : CompilePreview_UserSpaceRuleCount (PreviewCompile (normalized b) limits).1 <= MaxUserSpaceRules limits;
  acceptable_block : Forall (fun p => RequestedAction p = ActionBlock -> Preview_UserSpaceRuleCount (previewPolicy p) <= 0) (Policies (normalized b));
}.
End Accepts.
Lemma withDefaults_idem l : withDefaults (withDefaults l) = withDefaults l.
Proof.
  unfold withDefaults. cbn. assert (forall v d, 0 < d -> (if (if v <=? 0 then d else v) <=? 0 then d else if v <=? 0 then d else v) = if v <=? 0 then d else v) as Hp.
  { intros v d Hd. destruct (Z.leb_spec v 0); [destruct (Z.leb_spec d 0); [lia|done]|]. destruct (Z.leb_spec v 0); [lia|done]. }
  by rewrite !Hp.
Qed.
Lemma within_limits_normalize l p : within_limits l (normalize_policy p) <-> within_limits l p.
Proof. unfold normalize_policy. destruct (RequestedAction p == ActionKill); [|done]. destruct p; split; intros []; by constructor. Qed.
Lemma within_limits_normalized l policies : Forall (within_limits l) (map normalize_policy policies) <-> Forall (within_limits l) policies.
Proof. rewrite Forall_map. apply Forall_iff. intros p. apply within_limits_normalize. Qed.
(** The verdict of the last three steps. *)
Lemma acceptable_steps l b : acceptable (withDefaults l) b <->
  validateBundleLimits b (withDefaults l) = None /\ Bundle_Validate (normalized b) = [] /\ (PreviewCompile (normalized b) (withDefaults l)).2 = None.
Proof.
  rewrite validateBundleLimits_None, Bundle_Validate_nil, PreviewCompile_None, withDefaults_idem. cbn [normalized Policies]. rewrite within_limits_normalized. unfold len. rewrite length_map. split.
  - intros []. split_and!; done.
  - intros ([? ?] & ? & ? & ? & ? & ? & ? & ?). by constructor.
Qed.
Section Loaded.
Context `{UnicodeTables} `{YamlDecoder}.
Definition loaded (limits : Limits) (b : Bundle) : LoadResult :=
  mkLoadResult (normalized b) (concat (map kill_diagnostic (Policies b))) (PreviewCompile (normalized b) limits).1.
Lemma Load_ok data format l0 r (l := withDefaults l0) : Load data format l0 = (r, None) <->
  slen data <= MaxFileBytes l /\ utf8_valid data = true /\
  exists raw, decode_format data format = Ok raw /\ complete raw /\ acceptable l (bundle raw).1 /\ r = loaded l (bundle raw).1.
Proof.
  unfold Load. fold l. destruct (Z.ltb_spec (MaxFileBytes l) (slen data)) as [Hs|Hs]; [split; [done|]; intros (? & _); lia|].
  destruct (utf8_valid data); cbn [negb]; [|naive_solver]. destruct (decode_format data format) as [raw|e]; [|naive_solver].
  trans (complete raw /\ acceptable l (bundle raw).1 /\ r = loaded l (bundle raw).1); [|naive_solver].
  unfold complete. unfold bundle at 1. rewrite <-(required_from_nil _ 0). destruct (required_from 0 (raw_Policies raw)); [|naive_solver]. cbn [bundle fst].
  set (b := mkBundle _ _). unfold l. rewrite acceptable_steps. fold l. destruct (validateBundleLimits b l); [naive_solver|]. cbn [NormalizeAndValidate default]. fold (normalized b).
  cbn [from_option id]. destruct (Bundle_Validate (normalized b)); [|naive_solver]. unfold loaded. destruct (PreviewCompile (normalized b) l) as [preview [e|]]; naive_solver.
Qed.
End Loaded.

(** ** A bundle as JSON *)
Definition texts_json (l : list string) : json := match l with [] => JNull | _ => JArray (map JString l) end.
Definition empty {A} (l : list A) : bool := match l with [] => true | _ => false end.
Definition omit_texts (name : string) (l : list string) : list (string * json) := omitempty (empty l) name (texts_json l).
Definition scope_json (s : Scope) : json :=
  JObject ([("type", JString (Scope_Type s))] ++ omitempty (Scope_RunID s == "") "run_id" (JString (Scope_RunID s)) ++
    omitempty (Scope_CgroupID s == "") "cgroup_id" (JString (Scope_CgroupID s)) ++
    omitempty (bool_decide (Scope_LabelSelector s = ∅)) "label_selector" (json_labels (Some (Scope_LabelSelector s)))).
Definition file_json (c : FileCondition) : json :=
  JObject (omit_texts "exact_paths" (ExactPaths c) ++ omit_texts "prefixes" (Prefixes c) ++ omit_texts "suffixes" (Suffixes c) ++
    omit_texts "basenames" (Basenames c) ++ [("access", texts_json (Access c))]).
Definition exec_json (c : ExecCondition) : json :=
  JObject (omit_texts "executables" (Executables c) ++ omit_texts "arg_contains" (ArgContains c)).
Definition port_json (r : PortRange) : json := JObject [("from", JInt (From r)); ("to", JInt (To r))].
Definition network_json (c : NetworkCondition) : json :=
  JObject ([("default", JString (Default c))] ++ omit_texts "cidrs" (CIDRs c) ++
    omitempty (empty (Ports c)) "ports" (JArray (map port_json (Ports c))) ++ [("families", texts_json (Families c))]).
Definition omit_nil {A} (name : string) (f : A -> json) (v : option A) : list (string * json) :=
  match v with Some x => [(name, f x)] | None => [] end.
Definition conditions_json (c : Conditions) : json :=
  JObject (omit_nil "file" file_json (File c) ++ omit_nil "exec" exec_json (Exec c) ++ omit_nil "network" network_json (Network c)).
Definition policy_json (p : Policy) : json :=
  JObject ([("id", JString (ID p)); ("name", JString (Name p))] ++ omitempty (Description p == "") "description" (JString (Description p)) ++
    [("enabled", JBool (Enabled p)); ("scope", scope_json (Policy_Scope p)); ("policy_decision", JString (Policy_Decision p));
     ("requested_action", JString (RequestedAction p)); ("priority", JInt (Priority p)); ("severity", JString (Policy_Severity p));
     ("conditions", conditions_json (Policy_Conditions p))]).
Definition policies_json (l : list Policy) : json := match l with [] => JNull | _ => JArray (map policy_json l) end.
Definition bundle_json (b : Bundle) : json :=
  JObject [("schema_version", JInt (Bundle_SchemaVersion b)); ("policies", policies_json (Policies b))].

(** *** Reading it back *)
Definition raw_texts (l : list string) : slice string := mkSlice l [].
Definition raw_scope (s : Scope) : denote scope_shape := (Scope_Type s, (Scope_RunID s, (Scope_CgroupID s, (Scope_LabelSelector s, tt)))).
Definition raw_file (c : FileCondition) : denote file_shape :=
  (raw_texts (ExactPaths c), (raw_texts (Prefixes c), (raw_texts (Suffixes c), (raw_texts (Basenames c), (raw_texts (Access c), tt))))).
Definition raw_exec (c : ExecCondition) : denote exec_shape := (raw_texts (Executables c), (raw_texts (ArgContains c), tt)).
Definition raw_port (r : PortRange) : denote port_shape := (From r, (To r, tt)).
Definition raw_network (c : NetworkCondition) : denote network_shape :=
  (Default c, (raw_texts (CIDRs c), (mkSlice (map raw_port (Ports c)) [], (raw_texts (Families c), tt)))).
Definition raw_conditions (c : Conditions) : denote conditions_shape :=
  (raw_file <$> File c, (raw_exec <$> Exec c, (raw_network <$> Network c, tt))).
Definition raw_policy (p : Policy) : denote policy_shape :=
  (ID p, (Name p, (Description p, (Some (Enabled p), (raw_scope (Policy_Scope p), (Policy_Decision p, (RequestedAction p,
    (Some (Priority p), (Policy_Severity p, (raw_conditions (Policy_Conditions p), tt)))))))))).
Definition raw_bundle (b : Bundle) : denote bundle_shape := (Bundle_SchemaVersion b, (mkSlice (map raw_policy (Policies b)) [], tt)).
Lemma to_bundle_raw b : (bundle (to_bundle (raw_bundle b))).1 = b /\ complete (to_bundle (raw_bundle b)).
Proof.
  destruct b as [version policies]. unfold bundle, complete. cbn [fst raw_bundle to_bundle raw_SchemaVersion raw_Policies elements Bundle_SchemaVersion Policies]. rewrite !map_map. split.
  - f_equal. rewrite <-(map_id policies) at 2. apply map_ext. intros [id name desc en [t r c ls] d a pr sev [f e n]]. unfold converted. cbn. f_equal; f_equal.
    + by destruct f as [[]|].
    + by destruct e as [[]|].
    + destruct n as [[de ci po fa]|]; [|done]. cbn. do 2 f_equal. rewrite map_map. rewrite <-(map_id po) at 2. apply map_ext. by intros [].
  - apply Forall_map, Forall_true. intros p. cbn. eauto.
Qed.

Section ReadBackBundle.
Context `{UnicodeTables}.
Fixpoint read_struct (fields : list (string * shape)) (members : list (string * json)) (base : denote_all fields) : option (denote_all fields) :=
  match members with
  | [] => Some base
  | m :: members => base ← put (decode_into m.2) (hit fields m.1) fields base; read_struct fields members base
  end.
Lemma decode_struct fields members base : decode_into (JObject members) (SStruct fields) base = read_struct fields members base.
Proof. cbn [decode_into]. revert base. induction members as [|m members IH]; intros base; [done|]. cbn [read_struct]. destruct (put _ _ _ _); [|done]. apply IH. Qed.
Lemma decode_array element {A} (g : A -> json) (raw : A -> denote element) (l : list A) : Forall (fun x => decode_into (g x) element (zero element) = Some (raw x)) l ->
  decode_into (JArray (map g l)) (SSlice element) (mkSlice [] []) = Some (mkSlice (map raw l) []).
Proof.
  intros Hl. cbn [decode_into]. destruct l as [|x l]; [done|]. cbn [map elements spare app]. 
  assert (forall l, Forall (fun x => decode_into (g x) element (zero element) = Some (raw x)) l ->
    (fix each (l : list json) (room : list (denote element)) : option (list (denote element)) :=
      match l with [] => Some [] | w :: l => x ← decode_into w element (hd (zero element) room); xs ← each l (tl room); Some (x :: xs) end) (map g l) [] = Some (map raw l)) as Hb.
  { clear. induction 1 as [|x l Hx _ IH]; [done|]. cbn [map hd tl]. rewrite Hx. cbn [mbind option_bind]. by rewrite IH. }
  rewrite Forall_cons in Hl. destruct Hl as [Hx Hl]. cbn [hd tl]. rewrite Hx. cbn [mbind option_bind]. rewrite Hb by done. done.
Qed.
Lemma read_cons fields m members base : read_struct fields (m :: members) base =
  (base ← put (decode_into m.2) (hit fields m.1) fields base; read_struct fields members base).
Proof. done. Qed.
End ReadBackBundle.
(** One member: the field it is read into is computed. *)
Ltac hits := repeat match goal with |- context [hit ?fs ?k ?n] => let b := eval vm_compute in (hit fs k n) in change (hit fs k n) with b end.
Ltac read_member tac := rewrite read_cons; cbn [put fst snd]; hits; cbv iota; tac; cbn [mbind option_bind fst snd].
Section ReadBackStructs.
Context `{UnicodeTables}.
Lemma decode_string s base : decode_into (JString s) SString base = Some s.
Proof. done. Qed.
Lemma decode_texts l : decode_into (texts_json l) (SSlice SString) (mkSlice [] []) = Some (raw_texts l).
Proof.
  destruct l as [|x l]; [done|]. unfold texts_json, raw_texts. rewrite (decode_array SString JString id); [by rewrite map_id|]. by apply Forall_true.
Qed.
Lemma read_entries l : NoDup (map fst l) -> forall acc : gmap string string, Forall (fun kv => acc !! kv.1 = None) l ->
  foldl read_entry (Some acc) (map (fun kv => (kv.1, JString kv.2)) l) = Some (list_to_map l ∪ acc).
Proof.
  induction l as [|[k v] l IH]; intros Hn acc Ha; cbn [map foldl]; [by rewrite list_to_map_nil, (left_id_L ∅ (∪))|]. rewrite list_to_map_cons.
  cbn [map fst] in Hn. apply NoDup_cons in Hn as [Hk Hn]. apply Forall_cons in Ha as [Hka Ha]. cbn [fst snd] in *. unfold read_entry at 2. cbn [mbind option_bind fst snd].
  rewrite IH; [|done|].
  - f_equal. cbn [fst snd]. rewrite <-insert_union_l. symmetry. apply insert_union_r. apply not_elem_of_list_to_map. exact Hk.
  - rewrite Forall_forall in *. intros kv Hkv. rewrite lookup_insert_ne; [by apply Ha|]. intros ->. apply Hk. by apply list_elem_of_fmap_2.
Qed.
Lemma decode_labels m : decode_into (json_labels (Some m)) STextMap ∅ = Some m.
Proof.
  cbn [json_labels decode_into]. assert (sorted_entries m ≡ₚ map_to_list m) as Hp by (apply sort_by_perm).
  rewrite read_entries.
  - rewrite (right_id_L ∅ (∪)). f_equal. rewrite <-(list_to_map_to_list m) at 2. apply list_to_map_proper; [|done]. change (map fst) with (fmap (M := list) (@fst string string)).
    rewrite Hp. apply NoDup_fst_map_to_list.
  - change (map fst) with (fmap (M := list) (@fst string string)). rewrite Hp. apply NoDup_fst_map_to_list.
  - apply Forall_true. intros kv. exact (lookup_empty kv.1).
Qed.
Lemma decode_scope s : decode_into (scope_json s) scope_shape (zero scope_shape) = Some (raw_scope s).
Proof.
  unfold scope_json, scope_shape, omitempty. rewrite decode_struct. destruct s as [type run cg labels]. cbn [Scope_Type Scope_RunID Scope_CgroupID Scope_LabelSelector].
  cbn [zero]. destruct (bool_decide_reflect (run = "")) as [->|]; destruct (bool_decide_reflect (cg = "")) as [->|]; destruct (bool_decide_reflect (labels = ∅)) as [->|]; cbn [app];
    repeat read_member ltac:(first [rewrite decode_string|rewrite decode_labels]); done.
Qed.
Lemma empty_nil {A} (l : list A) : empty l = true -> l = [].
Proof. by destruct l. Qed.
Lemma decode_file c : decode_into (file_json c) file_shape (zero file_shape) = Some (raw_file c).
Proof.
  unfold file_json, file_shape, omit_texts, omitempty. rewrite decode_struct. destruct c as [a p s b x]. cbn [ExactPaths Prefixes Suffixes Basenames Access zero].
  destruct (empty a) eqn:Ea; [apply empty_nil in Ea as ->|]; (destruct (empty p) eqn:Ep; [apply empty_nil in Ep as ->|]);
    (destruct (empty s) eqn:Es; [apply empty_nil in Es as ->|]); (destruct (empty b) eqn:Eb; [apply empty_nil in Eb as ->|]); cbn [app];
    repeat read_member ltac:(rewrite decode_texts); done.
Qed.
Lemma decode_exec c : decode_into (exec_json c) exec_shape (zero exec_shape) = Some (raw_exec c).
Proof.
  unfold exec_json, exec_shape, omit_texts, omitempty. rewrite decode_struct. destruct c as [a p]. cbn [Executables ArgContains zero].
  destruct (empty a) eqn:Ea; [apply empty_nil in Ea as ->|]; (destruct (empty p) eqn:Ep; [apply empty_nil in Ep as ->|]); cbn [app];
    repeat read_member ltac:(rewrite decode_texts); done.
Qed.
(** Integers at the width of their fields. *)
Definition port_ok (r : PortRange) : Prop := 0 <= From r <= 65535 /\ 0 <= To r <= 65535.
Definition widths (p : Policy) : Prop :=
  - i64_max - 1 <= Priority p <= i64_max /\ from_option (fun n => Forall port_ok (Ports n)) True (Network (Policy_Conditions p)).
Lemma decode_uint16 z base : 0 <= z <= 65535 -> decode_into (JInt z) SUint16 base = Some z.
Proof.
  intros Hz. unfold JInt. cbn [decode_into]. unfold FormatInt. destruct (Z.ltb_spec z 0); [lia|]. rewrite ParseUint_FormatUint by (unfold u64_max; lia).
  cbn [mbind option_bind]. by destruct (Z.leb_spec z 65535); [|lia].
Qed.
Lemma decode_int z base : - i64_max - 1 <= z <= i64_max -> decode_into (JInt z) SInt base = Some z.
Proof. exact (ParseInt_signed z). Qed.
Lemma decode_port r : port_ok r -> decode_into (port_json r) port_shape (zero port_shape) = Some (raw_port r).
Proof. intros [Hf Ht]. unfold port_json, port_shape. rewrite decode_struct. cbn [zero]. repeat read_member ltac:(rewrite decode_uint16 by done). done. Qed.
Lemma decode_network c : Forall port_ok (Ports c) -> decode_into (network_json c) network_shape (zero network_shape) = Some (raw_network c).
Proof.
  intros Hp. assert (decode_into (JArray (map port_json (Ports c))) (SSlice port_shape) (zero (SSlice port_shape)) = Some (mkSlice (map raw_port (Ports c)) [])) as Hports.
  { apply (decode_array port_shape). eapply Forall_impl; [exact Hp|]. apply decode_port. }
  unfold network_json, network_shape, omit_texts, omitempty. rewrite decode_struct. destruct c as [d ci po fa]. cbn [Default CIDRs Ports Families] in *. cbn [zero].
  destruct (empty ci) eqn:Ec; [apply empty_nil in Ec as ->|]; (destruct (empty po) eqn:Ep; [apply empty_nil in Ep as ->|]); cbn [app];
    repeat read_member ltac:(first [rewrite decode_string|rewrite decode_texts|rewrite Hports]); done.
Qed.
Lemma decode_pointer v target : v <> JNull -> decode_into v (SPointer target) None = Some <$> decode_into v target (zero target).
Proof. by destruct v. Qed.
Lemma decode_conditions c : from_option (fun n => Forall port_ok (Ports n)) True (Network c) ->
  decode_into (conditions_json c) conditions_shape (zero conditions_shape) = Some (raw_conditions c).
Proof.
  unfold conditions_json, conditions_shape, omit_nil. rewrite decode_struct. destruct c as [f e n]. cbn [File Exec Network zero]. intros Hn.
  destruct f as [f|], e as [e|], n as [n|]; cbn [app from_option] in *;
    repeat read_member ltac:(rewrite decode_pointer by done; first [rewrite decode_file|rewrite decode_exec|rewrite decode_network by done]; cbn [fmap option_fmap option_map]); done.
Qed.
Lemma decode_policy p : widths p -> decode_into (policy_json p) policy_shape (zero policy_shape) = Some (raw_policy p).
Proof.
  intros [Hp Hn]. unfold policy_json, policy_shape, omitempty. rewrite decode_struct. destruct p as [id name desc en sc d a pr sev co].
  cbn [ID Name Description Enabled Policy_Scope Policy_Decision RequestedAction Priority Policy_Severity Policy_Conditions] in *.
  change (zero (SStruct _)) with (("", ("", ("", (None, (zero scope_shape, ("", ("", (None, ("", (zero conditions_shape, tt)))))))))) : denote policy_shape).
  destruct (bool_decide_reflect (desc = "")) as [->|]; cbn [app];
    repeat read_member ltac:(first [rewrite decode_string|rewrite decode_scope|rewrite decode_conditions by done|
      rewrite decode_pointer by done; first [rewrite decode_int by done|idtac]; cbn [fmap option_fmap option_map decode_into]]); done.
Qed.
Lemma decode_policies l : Forall widths l -> decode_into (policies_json l) (SSlice policy_shape) (mkSlice [] []) = Some (mkSlice (map raw_policy l) []).
Proof. intros Hw. destruct l as [|p l]; [done|]. apply (decode_array policy_shape). eapply Forall_impl; [exact Hw|]. apply decode_policy. Qed.
Lemma decode_bundle b : - i64_max - 1 <= Bundle_SchemaVersion b <= i64_max -> Forall widths (Policies b) -> decode_into (bundle_json b) bundle_shape (zero bundle_shape) = Some (raw_bundle b).
Proof.
  intros Hv Hw. unfold bundle_json, bundle_shape. rewrite decode_struct. destruct b as [v policies]. cbn [Bundle_SchemaVersion Policies] in *.
  change (zero (SStruct _)) with ((0, (mkSlice [] [], tt)) : denote bundle_shape). read_member ltac:(rewrite decode_int by done).
  read_member ltac:(rewrite decode_policies by done). done.
Qed.
End ReadBackStructs.

(** *** The text of a value is UTF-8 *)
Definition ascii_char (c : ascii) : bool := byte_val c <? 128.
Lemma byte_val_nonneg c : 0 <= byte_val c.
Proof. unfold byte_val. lia. Qed.
Lemma ascii_valid s : str_forall ascii_char s = true -> utf8_valid s = true.
Proof.
  induction s as [|c s IH]; [done|]. cbn [str_forall]. intros [Hc Hs]%andb_true_iff. unfold ascii_char in Hc. apply Z.ltb_lt in Hc. pose proof (byte_val_nonneg c).
  change (String c s) with (String c "" +:+ s). apply utf8_valid_app; [|auto]. replace (String c "") with (rune_string (byte_val c)).
  - apply utf8_valid_rune. split; [lia|]. unfold is_surrogate, in_range. destruct (Z.leb_spec 55296 (byte_val c)); [lia|done].
  - unfold rune_string, encode_rune, in_range. destruct (Z.leb_spec 0 (byte_val c)); [|lia]. destruct (Z.leb_spec (byte_val c) 127); [|lia]. cbn [andb bytes_to_string]. cbn. by rewrite chr_byte_val.
Qed.
Lemma digit_ascii c : is_digit c = true -> ascii_char c = true.
Proof. intros [_ Hc]%is_digit_range. unfold ascii_char. apply Z.ltb_lt. lia. Qed.
Lemma span_digits_ascii s : str_forall ascii_char (span_digits s).1 = true.
Proof.
  induction s as [|c s IH]; [done|]. cbn [span_digits]. destruct (is_digit c) eqn:Ec; [|done]. destruct (span_digits s) as [ds r]. cbn [fst str_forall] in *. by rewrite digit_ascii.
Qed.
Lemma scan_number_ascii s l r : scan_number s = Some (l, r) -> str_forall ascii_char l = true.
Proof.
  assert (forall s i r, scan_integer s = Some (i, r) -> str_forall ascii_char i = true) as Hi.
  { intros [|c s0] i r0; [done|]. cbn [scan_integer]. destruct (c == "0"%char); [by intros [= <- _]|]. destruct (is_digit c); [|done]. intros [= E]. pose proof (span_digits_ascii (String c s0)) as Hd. cbn [span_digits] in *. by rewrite E in Hd. }
  assert (forall s i r, scan_fraction s = Some (i, r) -> str_forall ascii_char i = true) as Hf.
  { intros [|c s0] i r0; cbn [scan_fraction]; [by intros [= <- _]|]. destruct (bool_decide_reflect (c = "."%char)) as [->|]; [|by intros [= <- _]].
    pose proof (span_digits_ascii s0) as Hd. destruct (span_digits s0) as [[|d ds] r1]; [done|]. by intros [= <- _]. }
  assert (forall s i r, scan_exponent s = Some (i, r) -> str_forall ascii_char i = true) as He.
  { intros [|c s0] i r0; cbn [scan_exponent]; [by intros [= <- _]|]. destruct (_ || _) eqn:Ec; [|by intros [= <- _]]. assert (ascii_char c = true) as Hc.
    { by apply orb_true_iff in Ec as [->%bool_decide_eq_true | ->%bool_decide_eq_true]. }
    clear Ec.
    assert (str_forall ascii_char (scan_sign s0).1 = true) as Hs.
    { destruct s0 as [|d s0]; [done|]. cbn [scan_sign]. destruct (_ || _) eqn:Ed; [|done]. apply orb_true_iff in Ed as [->%bool_decide_eq_true | ->%bool_decide_eq_true]; done. }
    destruct (scan_sign s0) as [sign s1]. pose proof (span_digits_ascii s1) as Hd. destruct (span_digits s1) as [[|d ds] r1]; [done|]. intros [= <- _].
    cbn [str_forall fst] in *. by rewrite Hc, str_forall_app, Hs. }
  unfold scan_number. destruct (match s with String c s' => _ | EmptyString => _ end) as [m s1] eqn:Em.
  assert (str_forall ascii_char m = true) as Hm.
  { destruct s as [|c s']; [by injection Em as <- _|]. destruct (c == "-"%char); by injection Em as <- _. }
  destruct (scan_integer s1) as [[i s2]|] eqn:Ei; [|done]. destruct (scan_fraction s2) as [[f s3]|] eqn:Ef; [|done]. destruct (scan_exponent s3) as [[e s4]|] eqn:Ee; [|done].
  intros [= <- _]. rewrite !str_forall_app. rewrite Hm, (Hi _ _ _ Ei), (Hf _ _ _ Ef), (He _ _ _ Ee). done.
Qed.
Lemma hex_nibble_ascii z : 0 <= z < 16 -> ascii_char (hex_nibble z) = true.
Proof. intros Hz. unfold hex_nibble, ascii_char. apply Z.ltb_lt. destruct (Z.ltb_spec z 10); rewrite byte_val_chr by (unfold is_byte; lia); lia. Qed.
Lemma unicode_escape_ascii r : str_forall ascii_char (unicode_escape r) = true.
Proof.
  unfold unicode_escape. cbn [map bytes_to_string foldr str_forall]. unfold bytes_to_string. cbn [map foldr str_forall]. rewrite !chr_byte_val. rewrite !hex_nibble_ascii; [done|..];
    change 15 with (Z.ones 4); rewrite Z.land_ones by lia; apply Z.mod_pos_bound; lia.
Qed.
Lemma escape_rune_valid r n : scalar r -> utf8_valid (escape_rune r n) = true.
Proof.
  intros Hr. unfold escape_rune. repeat (match goal with |- context [if ?b then _ else _] => destruct b end; [first [reflexivity|apply ascii_valid, unicode_escape_ascii]|]).
  by apply utf8_valid_rune.
Qed.
Lemma concat_valid l : Forall (fun s => utf8_valid s = true) l -> utf8_valid (String.concat "" l) = true.
Proof.
  induction 1 as [|s l Hs Hl IH]; [done|]. destruct l as [|t l]; [done|]. cbn [String.concat]. apply utf8_valid_app; [done|]. by apply (utf8_valid_app "").
Qed.
Lemma Join_valid l sep : utf8_valid sep = true -> Forall (fun s => utf8_valid s = true) l -> utf8_valid (Join l sep) = true.
Proof.
  intros Hsep. induction 1 as [|s l Hs Hl IH]; [done|]. destruct l as [|t l]; [done|]. rewrite Join_cons2. by repeat apply utf8_valid_app.
Qed.
Lemma json_string_valid s : utf8_valid (json_string s) = true.
Proof.
  unfold json_string, quoted. apply (utf8_valid_app dquote); [done|]. apply utf8_valid_app; [|done]. apply concat_valid. apply Forall_map.
  eapply Forall_impl; [apply runes_scalar|]. intros [r n] Hr. by apply escape_rune_valid.
Qed.
Lemma Marshal_valid v : printable v = true -> utf8_valid (Marshal v) = true.
Proof.
  induction v as [| b |s|s|l IH|fields IH] using json_induction; cbn [printable Marshal]; intros Hp.
  - done.
  - by destruct b.
  - apply bool_decide_eq_true in Hp. eapply ascii_valid, scan_number_ascii, Hp.
  - apply json_string_valid.
  - apply (utf8_valid_app "["); [done|]. apply utf8_valid_app; [|done]. apply Join_valid; [done|]. rewrite forallb_forall in Hp. rewrite Forall_forall in IH. apply Forall_forall.
    intros t (v & -> & Hv)%list_elem_of_fmap. apply IH; [done|]. by apply Hp, list_elem_of_In.
  - apply (utf8_valid_app "{"); [done|]. apply utf8_valid_app; [|done]. apply Join_valid; [done|]. rewrite forallb_forall in Hp. rewrite Forall_forall in IH. apply Forall_forall.
    intros t ([k v] & -> & Hv)%list_elem_of_fmap. apply utf8_valid_app; [apply json_string_valid|]. apply (utf8_valid_app ":"); [done|]. apply (IH _ Hv). by apply (Hp (k, v)), list_elem_of_In.
Qed.

(** *** Printed bundles *)
Fixpoint texts_valid (v : json) : bool :=
  match v with
  | JString s => utf8_valid s
  | JArray l => forallb texts_valid l
  | JObject fields => forallb (fun f => utf8_valid f.1 && texts_valid f.2) fields
  | _ => true
  end.
Lemma add_all_in_order fields : forall acc, add_all in_order fields acc = acc ++ fields.
Proof. unfold add_all, in_order. induction fields as [|[k v] fields IH]; intros acc; cbn [foldl fst snd]; [by rewrite app_nil_r|]. by rewrite IH, <-app_assoc. Qed.
Lemma map_same {A} (f : A -> A) l : (forall x, x ∈ l -> f x = x) -> map f l = l.
Proof. intros Hf. rewrite <-(map_id l) at 2. apply map_ext_in. intros x Hx. by apply Hf, list_elem_of_In. Qed.
Lemma norm_in_order v : texts_valid v = true -> norm_with in_order v = v.
Proof.
  induction v as [| b |s|s|l IH|fields IH] using json_induction; cbn [texts_valid norm_with]; intros Hv; try done.
  - by rewrite to_valid_id.
  - f_equal. rewrite forallb_forall in Hv. rewrite Forall_forall in IH. apply map_same. intros v Hin. apply IH; [done|]. by apply Hv, list_elem_of_In.
  - rewrite add_all_in_order. cbn [app]. f_equal. rewrite forallb_forall in Hv. rewrite Forall_forall in IH. apply map_same. intros [k v] Hin.
    specialize (Hv (k, v) ltac:(by apply list_elem_of_In)). apply andb_true_iff in Hv as [Hk Hv]. cbn [fst snd] in *. rewrite to_valid_id by done. f_equal. exact (IH _ Hin Hv).
Qed.
(** Unique names, numbers that are literals, and nesting at most [n]. *)
Definition plain (n : nat) (v : json) : Prop := names_unique v = true /\ printable v = true /\ (depth v <= n)%nat.
Lemma plain_object n fields : NoDup (map fst fields) -> Forall (fun f => plain n f.2) fields -> plain (S n) (JObject fields).
Proof.
  intros Hn Hf. unfold plain. cbn [names_unique printable depth]. rewrite bool_decide_eq_true_2 by done. cbn [andb]. rewrite !forallb_forall. rewrite Forall_forall in Hf.
  split_and!; [intros f Hin; by apply Hf, list_elem_of_In..|]. apply le_n_S, list_max_le, Forall_map, Forall_forall. intros f Hin. by apply Hf.
Qed.
Lemma plain_array n {A} (g : A -> json) l : (forall x, x ∈ l -> plain n (g x)) -> plain (S n) (JArray (map g l)).
Proof.
  intros Hl. unfold plain. cbn [names_unique printable depth]. rewrite !forallb_forall.
  split_and!; [intros v (x & <- & Hx)%in_map_iff; by apply Hl, list_elem_of_In..|]. apply le_n_S, list_max_le. rewrite map_map. apply Forall_map, Forall_forall. intros x Hx. by apply Hl.
Qed.
Lemma plain_string n s : plain n (JString s).
Proof. unfold plain. cbn. split_and!; [done..|lia]. Qed.
Lemma plain_int n z : plain n (JInt z).
Proof. unfold plain, JInt. cbn. split_and!; [done| |lia]. apply bool_decide_eq_true, FormatInt_literal. Qed.
Lemma plain_texts l : plain 1 (texts_json l).
Proof. destruct l as [|x l]; [by split_and!; [..|cbn; lia]|]. apply plain_array. intros s _. apply plain_string. Qed.
Lemma plain_mono n m v : plain n v -> (n <= m)%nat -> plain m v.
Proof. intros (? & ? & ?) ?. split_and!; [done..|lia]. Qed.
Lemma plain_omit n e name v : plain n v -> Forall (fun f => plain n f.2) (omitempty e name v).
Proof. intros Hv. unfold omitempty. destruct e; [constructor|constructor; [done|constructor]]. Qed.
Ltac plain_fields := repeat first [apply Forall_app; split|apply plain_omit|apply List.Forall_nil|apply Forall_cons; split; cbn [snd]];
  try match goal with
  | |- plain _ (JString _) => apply plain_string
  | |- plain _ (JInt _) => apply plain_int
  | |- plain 1 (texts_json _) => apply plain_texts
  end.
Ltac distinct_names := unfold omitempty; repeat match goal with |- context [if ?b then _ else _] => destruct b end; apply (bool_decide_unpack _); vm_compute; exact I.
Lemma plain_labels m : plain 1 (json_labels (Some m)).
Proof.
  apply plain_object; [|apply Forall_map, Forall_true; intros; apply plain_string]. rewrite map_map. cbn [fst].
  change (NoDup (fst <$> sorted_entries m)). unfold sorted_entries. rewrite sort_by_perm. apply NoDup_fst_map_to_list.
Qed.
Lemma plain_scope s : plain 2 (scope_json s).
Proof. apply plain_object; [rewrite !map_app; distinct_names|]. plain_fields. apply plain_labels. Qed.
Lemma plain_file c : plain 2 (file_json c).
Proof. apply plain_object; [unfold omit_texts; rewrite !map_app; distinct_names|]. unfold omit_texts. plain_fields. Qed.
Lemma plain_exec c : plain 2 (exec_json c).
Proof. apply plain_object; [unfold omit_texts; rewrite !map_app; distinct_names|]. unfold omit_texts. plain_fields. Qed.
Lemma plain_network c : plain 3 (network_json c).
Proof.
  apply plain_object; [unfold omit_texts; rewrite !map_app; distinct_names|]. unfold omit_texts. plain_fields; try (apply (plain_mono 1); [apply plain_texts|lia]).
  apply plain_array. intros r _. apply plain_object; [distinct_names|]. plain_fields.
Qed.
Lemma plain_conditions c : plain 4 (conditions_json c).
Proof.
  apply plain_object; [destruct c as [[f|] [e|] [n|]]; distinct_names|].
  destruct c as [[f|] [e|] [n|]]; cbn [omit_nil File Exec Network app]; plain_fields;
    match goal with
    | |- plain _ (network_json _) => apply plain_network
    | |- plain _ (file_json _) => apply (plain_mono 2); [apply plain_file|lia]
    | |- plain _ (exec_json _) => apply (plain_mono 2); [apply plain_exec|lia]
    end.
Qed.
Lemma plain_bundle b : plain 7 (bundle_json b).
Proof.
  apply plain_object; [distinct_names|]. plain_fields. destruct (Policies b) as [|p l]; [by split_and!; [..|cbn; lia]|]. apply plain_array. clear. intros q _.
  apply plain_object; [rewrite !map_app; distinct_names|]. plain_fields; [by split_and!; [..|cbn; lia]|apply (plain_mono 2); [apply plain_scope|lia]|apply plain_conditions].
Qed.

(** ** Properties *)
Section Properties.
Context `{UnicodeTables} `{YamlDecoder}.
Lemma document_printed b : texts_valid (bundle_json b) = true -> document (Marshal (bundle_json b)) = Some (bundle_json b).
Proof.
  intros Ht. destruct (plain_bundle b) as (_ & Hp & Hd). unfold document, json_fuel.
  pose proof (Marshal_reads_back in_order (bundle_json b) (2 * String.length (Marshal (bundle_json b)) + 2)%nat maxNestingDepth "" Hp) as Hr.
  rewrite str_app_nil_r in Hr. rewrite Hr; [by rewrite norm_in_order| |done|lia]. etrans; [exact Hd|]. apply Nat.leb_le. vm_compute. reflexivity.
Qed.
Lemma decode_format_json data format : ToLower format = FormatJSON ->
  forall raw, decode_format data format = Ok raw <-> decodeJSON data = Ok raw.
Proof. intros Hf raw. unfold decode_format. rewrite Hf. cbv zeta. rewrite bool_decide_eq_true_2 by done. destruct (decodeJSON data); naive_solver. Qed.
Lemma Load_json_ok data format l0 r (l := withDefaults l0) : ToLower format = FormatJSON ->
  Load data format l0 = (r, None) <-> slen data <= MaxFileBytes l /\ utf8_valid data = true /\
  exists v x, document data = Some v /\ names_unique v = true /\ decode_into v bundle_shape (zero bundle_shape) = Some x /\
    complete (to_bundle x) /\ acceptable l (bundle (to_bundle x)).1 /\ r = loaded l (bundle (to_bundle x)).1.
Proof.
  intros Hf. rewrite Load_ok. fold l. setoid_rewrite (decode_format_json data format Hf). setoid_rewrite decodeJSON_ok. split.
  - intros (? & ? & raw & (v & x & ? & ? & ? & ->) & ? & ? & ->). split_and!; [done..|]. by exists v, x.
  - intros (? & ? & v & x & ? & ? & ? & ? & ? & ->). split_and!; [done..|]. exists (to_bundle x). split_and!; [|done..]. by exists v, x.
Qed.

(** C2: a JSON policy file is loaded without error exactly when it is a regular
    file within the size limit, both when examined and in the bytes read, its
    text is UTF-8 and one JSON document in which no object, at any depth,
    repeats a name, the strict decoder reads that document into the policy
    structs, every policy spells out [enabled] and [priority], and the bundle
    stays within the limits, is valid once "kill" is rewritten to "contain",
    and compiles within the capacities; the result is then that normalized
    bundle, with a diagnostic per rewritten policy and its preview. *)
Theorem LoadFile_exact filename opened l0 r (l := withDefaults l0)
  (Hext : formatFromExtension filename = Some FormatJSON) (Hlower : ToLower FormatJSON = FormatJSON) :
  LoadFile filename opened l0 = (r, None) <->
  exists file size data v x, opened = Some file /\ file_stat file = Some (true, size) /\ size <= MaxFileBytes l /\
    file_read file (to_int64 (MaxFileBytes l + 1)) = Some data /\ slen data <= MaxFileBytes l /\ utf8_valid data = true /\
    document data = Some v /\ names_unique v = true /\ decode_into v bundle_shape (zero bundle_shape) = Some x /\
    complete (to_bundle x) /\ acceptable l (bundle (to_bundle x)).1 /\ r = loaded l (bundle (to_bundle x)).1.
Proof.
  unfold LoadFile. rewrite Hext. fold l. destruct opened as [file|]; [|naive_solver]. destruct (file_stat file) as [[[] size]|] eqn:Es; cbn [negb]; [|naive_solver..].
  destruct (Z.ltb_spec (MaxFileBytes l) size) as [Hs|Hs]; [split; [done|]; intros (? & ? & ? & ? & ? & [= <-] & E & ? & _); rewrite Es in E; injection E as <-; lia|].
  destruct (file_read file _) as [data|] eqn:Er; [|split; [done|]; intros (? & ? & ? & ? & ? & [= <-] & _ & _ & E & _); congruence].
  trans (Load data FormatJSON l = (r, None)); [destruct (Load data FormatJSON l) as [r' [e|]]; naive_solver|].
  rewrite Load_json_ok by done. unfold l. rewrite withDefaults_idem. fold l. split.
  - intros (? & ? & v & x & ? & ? & ? & ? & ? & ->). by exists file, size, data, v, x.
  - intros (file' & size' & data' & v & x & [= <-] & _ & _ & Ed & ? & ? & ? & ? & ? & ? & ? & ->). rewrite Er in Ed. injection Ed as <-.
    split_and!; [done..|]. by exists v, x.
Qed.

(** C3: the loader inverts the printing of a bundle as JSON: a bundle whose
    texts are UTF-8 and whose integers fit their fields, printed within the
    size limit, is loaded back exactly when it is acceptable under the limits
    (counts, lengths, schema after rewriting "kill", capacities), and the
    result is that bundle normalized, with its diagnostics and its preview. *)
Theorem Load_roundtrip format b l0 r (l := withDefaults l0) (Hf : ToLower format = FormatJSON)
  (Hversion : - i64_max - 1 <= Bundle_SchemaVersion b <= i64_max) (Hw : Forall widths (Policies b))
  (Ht : texts_valid (bundle_json b) = true) (Hs : slen (Marshal (bundle_json b)) <= MaxFileBytes l) :
  Load (Marshal (bundle_json b)) format l0 = (r, None) <-> acceptable l b /\ r = loaded l b.
Proof.
  destruct (plain_bundle b) as (Hu & Hp & Hd). destruct (to_bundle_raw b) as [Hb Hc]. pose proof (document_printed b Ht) as Hdoc. pose proof (decode_bundle b Hversion Hw) as Hraw.
  rewrite Load_json_ok by exact Hf. fold l. split.
  - intros (_ & _ & v & x & Hv & _ & Hx & _ & Ha & ->). rewrite Hdoc in Hv. apply (inj Some) in Hv as <-. rewrite Hraw in Hx. apply (inj Some) in Hx as <-.
    rewrite Hb in Ha. rewrite Hb. by split.
  - intros [Ha ->]. split; [exact Hs|]. split; [exact (Marshal_valid _ Hp)|]. refine (ex_intro _ (bundle_json b) (ex_intro _ (raw_bundle b) _)). rewrite Hb.
    split; [exact Hdoc|]. split; [exact Hu|]. split; [exact Hraw|]. exact (conj Hc (conj Ha eq_refl)).
Qed.
End Properties.

(** ** A file *)
Module LoaderDemo.
#[local] Existing Instance ascii_tables.
#[local] Instance no_yaml : YamlDecoder := {| yaml_decode _ := None; yaml_next _ := NextError |}.
Definition guarded (action : Action) : Policy :=
  mkPolicy "secrets" "Guard secrets" "" true (mkScope ScopeLabels "" "" {["team" := "core"]}) DecisionDeny action 10 SeverityHigh
    (mkConditions (Some (mkFileCondition ["/etc/shadow"] [] [] [] [FileRead])) None None).
Definition one (action : Action) : Bundle := mkBundle 1 [guarded action].
Definition defaults : Limits := mkLimits 0 0 0 0 0 0 0.
Definition disk (data : string) : option PolicyFile := Some (mkPolicyFile (Some (true, slen data)) (fun _ => Some data)).
Definition load (data : string) : LoadResult * option LoadError := Load data FormatJSON defaults.
Definition load_error (data : string) : option LoadError := (load data).2.
Lemma one_acceptable : acceptable (withDefaults defaults) (one ActionKill).
Proof. apply acceptable_steps. split_and!; vm_compute; reflexivity. Qed.
(** The members of the policy with [enabled] spelled twice. *)
Definition spelled_twice (second : string) : string :=
  Marshal (JObject [("schema_version", JInt 1); ("policies", JArray [
    JObject [("id", JString "secrets"); ("name", JString "Guard secrets"); ("enabled", JBool false); (second, JBool true);
      ("scope", scope_json (mkScope ScopeGlobal "" "" ∅)); ("policy_decision", JString "deny"); ("requested_action", JString "contain");
      ("priority", JInt 10); ("severity", JString "high"); ("conditions", conditions_json (Policy_Conditions (guarded ActionContain)))]])]).
(** A member that repeats a field in another case is neither a repeated key
    nor an unknown field: it replaces the value the first one stored. *)
Theorem case_variant_overrides :
  (load (spelled_twice "Enabled")).2 = None /\ map Enabled (Policies (LoadResult_Bundle (load (spelled_twice "Enabled")).1)) = [true] /\
  load_error (spelled_twice "enabled") = Some (DecodeFailed FormatJSON (DecodeScan (DuplicateKey "enabled"))) /\
  load_error (spelled_twice "enable") = Some (DecodeFailed FormatJSON DecodeInvalid).
Proof. vm_compute. split_and!; reflexivity. Qed.
(** The spare room of a slice keeps its elements: a third spelling brings back
    the identifier the second one dropped. *)
Lemma spare_elements_return :
  (raw_ID <$> raw_Policies (default (mkRawBundle 0 []) (to_bundle <$> decode_into (JObject [("policies", JArray [JObject [("id", JString "a")]; JObject [("id", JString "b")]]);
    ("Policies", JArray [JNull]); ("POLICIES", JArray [JNull; JNull])]) bundle_shape (zero bundle_shape)))) = ["a"; "b"].
Proof. vm_compute. reflexivity. Qed.
Lemma Load_roundtrip_witness : Load (Marshal (bundle_json (one ActionKill))) "JSON" defaults = (loaded (withDefaults defaults) (one ActionKill), None).
Proof.
  apply (Load_roundtrip "JSON" (one ActionKill) defaults _); [vm_compute; reflexivity|vm_compute; by split| |vm_compute; reflexivity|vm_compute; by intros|].
  - repeat constructor; vm_compute; by intros.
  - split; [exact one_acceptable|reflexivity].
Defined.
Lemma LoadFile_exact_witness : exists data, LoadFile "policies/base.json" (disk data) defaults = (loaded (withDefaults defaults) (one ActionKill), None).
Proof.
  exists (Marshal (bundle_json (one ActionKill))). apply (LoadFile_exact "policies/base.json" _ defaults); [vm_compute; reflexivity..|].
  eexists _, _, (Marshal (bundle_json (one ActionKill))), (bundle_json (one ActionKill)), (raw_bundle (one ActionKill)). destruct (to_bundle_raw (one ActionKill)) as [Hb Hc].
  rewrite Hb. split_and!; [reflexivity|reflexivity|vm_compute; by intros|reflexivity|vm_compute; by intros|vm_compute; reflexivity|vm_compute; reflexivity|vm_compute; reflexivity| |exact Hc|exact one_acceptable|reflexivity].
  apply decode_bundle; [vm_compute; by split|]. repeat constructor; vm_compute; by intros.
Defined.
End LoaderDemo.
