(* ===== verification/EnvCheck.v ===== *)
(** * Environment checks ([internal/envcheck/envcheck.go])

    The static report behind [agentshield diagnose] and the diagnostics
    endpoint.  [Machine] is what the process finds: the platform it was built
    for, its context, and what reading and examining a path gives (the
    contents, or the text of the error). *)
From S2P Require Import Prelude GoStd GoTime.
Open Scope Z_scope.

Definition minimumKernelMajor : Z := 5.
Definition minimumKernelMinor : Z := 15.
Definition Status := string.
Definition StatusPass : Status := "pass".
Definition StatusWarn : Status := "warn".
Definition StatusFail : Status := "fail".
Definition StatusUnknown : Status := "unknown".
Record Check := mkCheck { Check_Name : string; Check_Status : Status; Check_Message : string; Check_Details : gmap string string }.
Record Report := mkReport { Report_OS : string; Report_Arch : string; Report_Checks : list Check }.
Record Machine := mkMachine {
  m_goos : string;
  m_goarch : string;
  m_ctx_err : option string;
  m_read : string -> result string string;
  m_stat : string -> option string;
}.

(** ** strconv.Quote *)
(** [unicode.IsPrint] beyond ASCII. *)
Class PrintTable := print_rune : Z -> bool.
Definition hex_escape (letter : ascii) (digits : list Z) (r : Z) : string :=
  String "\"%char (String letter (bytes_to_string (map (fun k => byte_val (hex_nibble (Z.land (Z.shiftr r k) 15))) digits))).
Definition quote_rune `{PrintTable} (r : Z) (width : nat) (first : Z) : string :=
  if (r =? RuneError) && (width =? 1)%nat then hex_escape "x" [4; 0] first
  else if r =? 34 then String "\"%char dquote else if r =? 92 then "\\"
  else if in_range 32 126 r || (128 <=? r) && print_rune r then bytes_to_string (encode_rune r)
  else if r =? 7 then "\a" else if r =? 8 then "\b" else if r =? 12 then "\f" else if r =? 10 then "\n"
  else if r =? 13 then "\r" else if r =? 9 then "\t" else if r =? 11 then "\v"
  else if (r <? 32) || (r =? 127) then hex_escape "x" [4; 0] r
  else if r <? 65536 then hex_escape "u" [12; 8; 4; 0] r
  else hex_escape "U" [28; 24; 20; 16; 12; 8; 4; 0] r.
Fixpoint quote_runes `{PrintTable} (rs : list (Z * nat)) (s : string) : string :=
  match rs with
  | [] => ""
  | (r, width) :: rs => quote_rune r width (match s with String c _ => byte_val c | EmptyString => 0 end) +:+ quote_runes rs (str_drop width s)
  end.
Definition Quote `{PrintTable} (s : string) : string := quoted (quote_runes (runes s) s).

(** ** The checks *)
Section Checks.
Context `{UnicodeTables} `{PrintTable}.
Definition architectureCheck (goos goarch : string) : Check :=
  let details := {["os" := goos; "arch" := goarch; "supported_linux_arches" := "amd64,arm64"]} in
  if goos != "linux" then mkCheck "architecture" StatusUnknown "architecture support is only evaluated on Linux" details
  else if (goarch == "amd64") || (goarch == "arm64") then mkCheck "architecture" StatusPass "architecture is supported" details
  else mkCheck "architecture" StatusFail "architecture is not supported by the current kernel event decoder" details.
Definition HasFailures (r : Report) : bool := existsb (fun c => Check_Status c == StatusFail) (Report_Checks r).
Definition IsReady (r : Report) : bool :=
  match Report_Checks r with
  | [] => false
  | checks => forallb (fun c => negb ((Check_Status c == StatusFail) || (Check_Status c == StatusUnknown))) checks
  end.
Definition parseKernelVersion (release : string) : result string (Z * Z) :=
  match split_byte "."%char (TrimSpace release) with
  | major :: minor :: _ =>
      if (major == "") || (minor == "") then Err ("invalid kernel release " +:+ Quote release)
      else
      match ParseInt major with
      | None => Err ("invalid kernel major version in " +:+ Quote release)
      | Some x =>
          if x <? 0 then Err ("invalid kernel major version in " +:+ Quote release)
          else
          match ParseInt minor with
          | None => Err ("invalid kernel minor version in " +:+ Quote release)
          | Some y => if y <? 0 then Err ("invalid kernel minor version in " +:+ Quote release) else Ok (x, y)
          end
      end
  | _ => Err ("invalid kernel release " +:+ Quote release)
  end.
Definition kernelReleaseCheck (release : string) : Check :=
  let release := TrimSpace release in
  let details := {["release" := release; "minimum" := FormatInt minimumKernelMajor +:+ "." +:+ FormatInt minimumKernelMinor]} in
  match parseKernelVersion release with
  | Err e => mkCheck "kernel" StatusUnknown "unable to determine whether the Linux kernel version is supported" (<["error" := e]> details)
  | Ok (major, minor) =>
      if (major <? minimumKernelMajor) || (major =? minimumKernelMajor) && (minor <? minimumKernelMinor)
      then mkCheck "kernel" StatusFail "Linux kernel is older than the minimum supported version" details
      else mkCheck "kernel" StatusPass "Linux kernel version is supported" details
  end.
Definition linuxKernelCheck (m : Machine) : Check :=
  match m_read m "/proc/sys/kernel/osrelease" with
  | Err e => mkCheck "kernel" StatusUnknown "unable to read Linux kernel release" {["error" := e]}
  | Ok release => kernelReleaseCheck release
  end.
Definition fileExistsCheck (m : Machine) (name path message : string) : Check :=
  match m_stat m path with
  | Some e => mkCheck name StatusFail "required file is not available" {["path" := path; "error" := e]}
  | None => mkCheck name StatusPass message {["path" := path]}
  end.
Definition cgroup_controllers : string := "/sys/fs/cgroup/cgroup.controllers".
Definition cgroupV2Check (m : Machine) : Check :=
  match m_read m cgroup_controllers with
  | Err e => mkCheck "cgroup_v2" StatusFail "cgroup v2 controllers file is not available" {["path" := cgroup_controllers; "error" := e]}
  | Ok contents => mkCheck "cgroup_v2" StatusPass "cgroup v2 is available" {["controllers" := TrimSpace contents]}
  end.
Definition bpfPermissionResult (unprivilegedBPFDisabled : string) (bpffsErr : option string) : Check :=
  let details : gmap string string := {["permission_probe" := "not_performed"]} in
  let details := if unprivilegedBPFDisabled != "" then <["unprivileged_bpf_disabled" := unprivilegedBPFDisabled]> details else details in
  match bpffsErr with
  | Some e => mkCheck "bpf_permissions" StatusUnknown "bpffs is not visible and BPF loading permission was not probed"
                (<["bpffs_error" := e]> (<["bpffs" := "not_visible"]> details))
  | None => mkCheck "bpf_permissions" StatusUnknown "bpffs is visible, but BPF loading permission was not probed" (<["bpffs" := "visible"]> details)
  end.
Definition bpfPermissionCheck (m : Machine) : Check :=
  let disabled := match m_read m "/proc/sys/kernel/unprivileged_bpf_disabled" with Ok value => TrimSpace value | Err _ => "" end in
  bpfPermissionResult disabled (m_stat m "/sys/fs/bpf").
Definition containerCheck (m : Machine) : Check :=
  if is_none (m_stat m "/.dockerenv") then mkCheck "container" StatusWarn "process appears to run inside Docker" {["runtime" := "docker"]}
  else if is_none (m_stat m "/run/.containerenv") then mkCheck "container" StatusWarn "process appears to run inside a container" {["runtime" := "container"]}
  else if match m_read m "/proc/version" with Ok version => Contains (ToLower version) "microsoft" | Err _ => false end
  then mkCheck "container" StatusWarn "process appears to run inside WSL" {["runtime" := "wsl"]}
  else mkCheck "container" StatusPass "no common container or WSL marker detected" ∅.
Definition Run (m : Machine) : Report :=
  mkReport (m_goos m) (m_goarch m)
    (if m_goos m != "linux" then
       [mkCheck "linux" StatusFail "AgentShield kernel features require Linux" {["current_os" := m_goos m]};
        architectureCheck (m_goos m) (m_goarch m);
        mkCheck "btf" StatusUnknown "BTF detection is only available on Linux" ∅;
        mkCheck "cgroup_v2" StatusUnknown "cgroup v2 detection is only available on Linux" ∅;
        mkCheck "bpf_permissions" StatusUnknown "BPF permission detection is only available on Linux" ∅;
        mkCheck "container" StatusUnknown "container environment detection is only available on Linux" ∅]
     else
     match m_ctx_err m with
     | Some e => [mkCheck "context" StatusFail e ∅]
     | None =>
         [linuxKernelCheck m; architectureCheck (m_goos m) (m_goarch m);
          fileExistsCheck m "btf" "/sys/kernel/btf/vmlinux" "BTF vmlinux is available";
          cgroupV2Check m; bpfPermissionCheck m; containerCheck m]
     end).

(** ** What the report says *)
(** A release the kernel check refuses: it names an older version. *)
Definition too_old (release : string) : Prop := exists major minor, parseKernelVersion (TrimSpace release) = Ok (major, minor) /\
  (major < minimumKernelMajor \/ major = minimumKernelMajor /\ minor < minimumKernelMinor).
Lemma kernelReleaseCheck_fails release : Check_Status (kernelReleaseCheck release) = StatusFail <-> too_old release.
Proof.
  unfold kernelReleaseCheck, too_old. destruct (parseKernelVersion (TrimSpace release)) as [[major minor]|e].
  - destruct (_ || _) eqn:E; cbn.
    + split; [|done]. intros _. exists major, minor. split; [done|]. apply orb_true_iff in E as [E|E]; [left; lia|]. apply andb_true_iff in E as [??]. right. lia.
    + split; [done|]. intros (? & ? & [= <- <-] & Ho). apply orb_false_iff in E as [E1 E2]. apply andb_false_iff in E2. lia.
  - split; [done|]. by intros (? & ? & ? & _).
Qed.
Lemma is_digit_point : is_digit "."%char = false.
Proof. done. Qed.
(** The version of a release "major.minor" or "major.minor.rest". *)
Lemma parseKernelVersion_reads major minor rest release : 0 <= major <= i64_max -> 0 <= minor <= i64_max ->
  rest = "" \/ (exists t, rest = String "." t) -> TrimSpace release = FormatUint major +:+ String "." (FormatUint minor +:+ rest) ->
  parseKernelVersion release = Ok (major, minor).
Proof.
  intros Hx Hy Hr E. assert (forall z, str_exists (fun d => d == "."%char) (FormatUint z) = false) as Hf.
  { intros z. exact (str_forall_free is_digit _ _ (FormatUint_digits z) is_digit_point). }
  assert (forall z, 0 <= z <= i64_max -> ParseInt (FormatUint z) = Some z) as Hp.
  { intros z Hz. pose proof (ParseInt_FormatInt z Hz) as P. unfold FormatInt in P. destruct (Z.ltb_spec z 0); [lia|]. done. }
  assert (forall z, (FormatUint z == "") = false) as Hn.
  { intros z. apply bool_decide_eq_false_2. intros Ez. unfold FormatUint in Ez. by destruct (N.to_uint _). }
  unfold parseKernelVersion. rewrite E, split_byte_app by apply Hf.
  assert (exists l, split_byte "."%char (FormatUint minor +:+ rest) = FormatUint minor :: l) as [l ->].
  { destruct Hr as [-> | [t ->]]; [rewrite str_app_nil_r, split_byte_free by apply Hf; by eexists|rewrite split_byte_app by apply Hf; by eexists]. }
  rewrite !Hn, !Hp by done. cbn [orb]. destruct (Z.ltb_spec major 0); [lia|]. by destruct (Z.ltb_spec minor 0); [lia|].
Qed.
Lemma permission_unknown m : Check_Status (bpfPermissionCheck m) = StatusUnknown.
Proof. unfold bpfPermissionCheck, bpfPermissionResult. by destruct (m_stat m "/sys/fs/bpf"). Qed.
Lemma container_passes m : Check_Status (containerCheck m) <> StatusFail.
Proof. unfold containerCheck. repeat match goal with |- context [if ?b then _ else _] => destruct b; [discriminate|] end. discriminate. Qed.

(** The report on Linux has a failure exactly when the context ended, or the
    kernel names a version older than 5.15, or the processor is not supported,
    or the type information or the cgroup v2 controllers are missing. *)
Theorem HasFailures_exact m : m_goos m = "linux" ->
  HasFailures (Run m) = true <->
  is_Some (m_ctx_err m) \/ (exists release, m_read m "/proc/sys/kernel/osrelease" = Ok release /\ too_old release) \/
  m_goarch m ∉ ["amd64"; "arm64"] \/ is_Some (m_stat m "/sys/kernel/btf/vmlinux") \/ (exists e, m_read m cgroup_controllers = Err e).
Proof.
  intros Hos. unfold HasFailures, Run. rewrite Hos. cbn [Report_Checks]. rewrite (bool_decide_eq_true_2 ("linux" = "linux")) by done. cbn [negb].
  destruct (m_ctx_err m) as [e|]; [split; [by eauto|done]|]. rewrite existsb_exists.
  assert (Check_Status (linuxKernelCheck m) = StatusFail <-> exists release, m_read m "/proc/sys/kernel/osrelease" = Ok release /\ too_old release) as Hk.
  { unfold linuxKernelCheck. destruct (m_read m _) as [release|e]; [|naive_solver]. rewrite kernelReleaseCheck_fails. naive_solver. }
  assert (Check_Status (architectureCheck "linux" (m_goarch m)) = StatusFail <-> m_goarch m ∉ ["amd64"; "arm64"]) as Ha.
  { unfold architectureCheck. rewrite (bool_decide_eq_true_2 ("linux" = "linux")) by done. cbn [negb].
    destruct (bool_decide_reflect (m_goarch m = "amd64")) as [->|]; [split; [done|set_solver]|].
    destruct (bool_decide_reflect (m_goarch m = "arm64")) as [->|]; [split; [done|set_solver]|]. cbn. set_solver. }
  assert (Check_Status (fileExistsCheck m "btf" "/sys/kernel/btf/vmlinux" "BTF vmlinux is available") = StatusFail <-> is_Some (m_stat m "/sys/kernel/btf/vmlinux")) as Hb.
  { unfold fileExistsCheck. destruct (m_stat m _); [split; [by eauto|done]|split; [done|by intros [? ?]]]. }
  assert (Check_Status (cgroupV2Check m) = StatusFail <-> exists e, m_read m cgroup_controllers = Err e) as Hc.
  { unfold cgroupV2Check. destruct (m_read m cgroup_controllers) as [c|e]; [split; [intros E; discriminate E|by intros [? ?]]|split; [by eauto|done]]. }
  assert (Check_Status (bpfPermissionCheck m) <> StatusFail) as Hp by (by rewrite permission_unknown).
  pose proof (container_passes m) as Hd.
  rewrite <-Hk, <-Ha, <-Hb, <-Hc. split.
  - intros (c & Hin & Hs%bool_decide_eq_true). cbn [In] in Hin. destruct Hin as [<-|[<-|[<-|[<-|[<-|[<-|[]]]]]]]; tauto.
  - intros [[? ?]|[E|[E|[E|E]]]]; [done|..]; apply (bool_decide_eq_true_2 _) in E; eexists; (split; [|exact E]); cbn [In]; tauto.
Qed.
(** No report is ever ready: on every machine one of the checks fails or is
    left unknown. *)
Theorem Run_never_ready m : IsReady (Run m) = false.
Proof.
  unfold IsReady, Run. cbn [Report_Checks]. destruct (_ != "linux"); [done|]. destruct (m_ctx_err m); [done|]. cbn [forallb].
  rewrite permission_unknown.
  rewrite (bool_decide_eq_true_2 (StatusUnknown = StatusUnknown)) by done. by rewrite orb_true_r, !andb_false_r.
Qed.
End Checks.
(** A machine without a failure. *)
Module EnvDemo.
#[local] Existing Instance ascii_tables.
#[local] Instance ascii_print : PrintTable := fun _ => false.
Definition machine (release : string) : Machine :=
  mkMachine "linux" "arm64" None (fun path => if path == "/proc/sys/kernel/osrelease" then Ok (release +:+ String (chr 10) "") else Ok "cpu io") (fun path => if path == "/sys/kernel/btf/vmlinux" then None else Some "missing").
Lemma failures : map (fun r => HasFailures (Run (machine r))) ["6.8.0-45-generic"; "5.15"; "5.14.99"; "4.20.1"; "unknown"] = [false; false; true; true; false].
Proof. vm_compute. reflexivity. Qed.
Lemma quoted_release : parseKernelVersion "6" = Err ("invalid kernel release " +:+ quoted "6") /\ parseKernelVersion "-1.2" = Err ("invalid kernel major version in " +:+ quoted "-1.2").
Proof. vm_compute. by split. Qed.
End EnvDemo.
