(* ===== verification/Diagnostics.v ===== *)
(** * Policy catalogue and diagnostics ([internal/api/policies.go],
    [internal/api/diagnostics.go])

    What the two read endpoints show: the configured policies with the
    generation they are active in, and the environment report with the state
    of the hooks and the events lost per type.  Every operation is one critical
    section; the clock is an argument. *)
From S2P Require Import Prelude GoStd GoTime Json Crypto Redact Schema Generation StreamHandler Overview EnvCheck.
Open Scope Z_scope.

(** ** The catalogue *)
Record PolicyGeneration := mkPolicyGeneration { PG_Revision : string; PG_Bank : string }.
Record PolicySummary := mkPolicySummary {
  PS_ID : string;
  PS_Name : string;
  PS_Description : string;
  PS_Enabled : bool;
  PS_Scope : string;
  PS_Decision : string;
  PS_RequestedAction : string;
  PS_Severity : string;
  PS_Condition : string;
  PS_Priority : Z;
}.
Record PolicySnapshot := mkPolicySnapshot {
  PolicySnapshot_GeneratedAt : string;
  PolicySnapshot_Configured : bool;
  PolicySnapshot_Generation : PolicyGeneration;
  PolicySnapshot_Policies : list PolicySummary;
}.
Record PolicyCatalog := mkPolicyCatalog {
  catalog_configured : bool;
  catalog_generation : PolicyGeneration;
  catalog_policies : list PolicySummary;
}.
Definition policyBankName (bank : Bank) : string := if bank == BankA then "A" else "B".
Definition policyScope (scope : Scope) : string :=
  if Scope_Type scope == ScopeRun then "run:" +:+ Scope_RunID scope
  else if Scope_Type scope == ScopeCgroup then "cgroup:" +:+ Scope_CgroupID scope
  else if Scope_Type scope == ScopeLabels then
    let keys := sort_by str_lt (map fst (map_to_list (Scope_LabelSelector scope))) in
    "labels:" +:+ Join (map (fun key => key +:+ "=" +:+ default "" (Scope_LabelSelector scope !! key)) keys) ","
  else Scope_Type scope.
Definition policyCondition (c : Conditions) : string :=
  if is_some (File c) then "file" else if is_some (Exec c) then "exec" else if is_some (Network c) then "network" else "unknown".
Definition policy_summary (p : Policy) : PolicySummary :=
  mkPolicySummary (ID p) (Name p) (Description p) (Enabled p) (policyScope (Policy_Scope p)) (Policy_Decision p) (RequestedAction p)
    (Policy_Severity p) (policyCondition (Policy_Conditions p)) (Priority p).
Definition summary_before (a b : PolicySummary) : bool :=
  if PS_Priority a =? PS_Priority b then str_lt (PS_ID a) (PS_ID b) else PS_Priority b <? PS_Priority a.
Definition no_generation : PolicyGeneration := mkPolicyGeneration "" "".
Definition show_generation (g : Generation) : PolicyGeneration := mkPolicyGeneration (FormatUint (Revision g)) (policyBankName (Generation_Bank g)).
Definition known_bank (b : Bank) : bool := (b == BankA) || (b == BankB).
Definition NewPolicyCatalog (bundle : option Bundle) (g : Generation) : option PolicyCatalog :=
  match bundle with
  | None => Some (mkPolicyCatalog false no_generation [])
  | Some b =>
      if (Revision g =? 0) || negb (known_bank (Generation_Bank g)) then None
      else Some (mkPolicyCatalog true (show_generation g) (sort_by summary_before (map policy_summary (Policies b))))
  end.
Definition PolicyCatalog_Policies (c : PolicyCatalog) (now : Time) : PolicySnapshot :=
  mkPolicySnapshot (RFC3339Nano now) (catalog_configured c) (catalog_generation c) (catalog_policies c).
Definition generation_json (g : PolicyGeneration) : json := JObject [("revision", JString (PG_Revision g)); ("bank", JString (PG_Bank g))].
Definition summary_json (p : PolicySummary) : json :=
  JObject ([("id", JString (PS_ID p)); ("name", JString (PS_Name p))] ++ omitempty (PS_Description p == "") "description" (JString (PS_Description p)) ++
    [("enabled", JBool (PS_Enabled p)); ("scope", JString (PS_Scope p)); ("decision", JString (PS_Decision p));
     ("requested_action", JString (PS_RequestedAction p)); ("severity", JString (PS_Severity p)); ("condition", JString (PS_Condition p)); ("priority", JInt (PS_Priority p))]).
Definition policy_snapshot_json (s : PolicySnapshot) : json :=
  JObject [("schema_version", JString "1"); ("generated_at", JString (PolicySnapshot_GeneratedAt s)); ("configured", JBool (PolicySnapshot_Configured s));
    ("generation", generation_json (PolicySnapshot_Generation s)); ("policies", JArray (map summary_json (PolicySnapshot_Policies s)))].
Definition PolicyHandler_ServeHTTP `{UnicodeTables} (auth : readAuthorizer) (request : HttpRequest) (provider : option PolicySnapshot) : HttpReply :=
  if negb (authorized auth (Header_Get request "Authorization")) then unauthorized
  else match provider with
  | None => http_Error [] "policies unavailable" 503
  | Some s => mkHttpReply 200 [("Cache-Control", "no-store"); ("Content-Type", "application/json")] (Marshal (policy_snapshot_json s) +:+ String newline "")
  end.

(** ** Diagnostics *)
Record LoadAttachProbe := mkProbe { Probe_Status : string; Probe_Detail : string }.
Record HookStatus := mkHookStatus { Hook_Name : string; Hook_Status : string; Hook_Detail : string }.
Record DropCount := mkDropCount { Drop_EventType : string; Drop_Count : string }.
Record DiagnosticsState := mkDiagnosticsState {
  ds_report : Report;
  ds_byteOrder : string;
  ds_loadAttach : LoadAttachProbe;
  ds_hooks : list HookStatus;
  ds_policyGeneration : PolicyGeneration;
  ds_drops : gmap string Z;
}.
Record DiagnosticsSnapshot := mkDiagnosticsSnapshot {
  DS_GeneratedAt : string;
  DS_OS : string;
  DS_Arch : string;
  DS_ByteOrder : string;
  DS_Checks : list Check;
  DS_LoadAttach : LoadAttachProbe;
  DS_Hooks : list HookStatus;
  DS_PolicyGeneration : PolicyGeneration;
  DS_Drops : list DropCount;
}.
(** [first]: the first byte of 0x0102 in memory. *)
Definition nativeByteOrder (first : Z) : string := if first =? 2 then "little-endian" else "big-endian".
(** The copy shares nothing with its argument; a nil map becomes an empty one. *)
Definition cloneEnvironmentReport (r : Report) : Report :=
  mkReport (Report_OS r) (Report_Arch r) (map (fun c => mkCheck (Check_Name c) (Check_Status c) (Check_Message c) (Check_Details c)) (Report_Checks r)).
Definition hook_names : list string :=
  ["tracepoint/syscalls/sys_enter_execve"; "tracepoint/syscalls/sys_enter_openat"; "cgroup/connect4"; "cgroup/connect6"].
Inductive DiagnosticsError := ReportIncomplete | GenerationBankInvalid | InvalidDropCount | DropCountOverflow.
Definition NewDiagnosticsState (report : Report) (g : Generation) (first : Z) : result DiagnosticsError DiagnosticsState :=
  _ ← guard_err ((Report_OS report == "") || (Report_Arch report == "")) ReportIncomplete;
  _ ← guard_err ((Revision g != 0) && negb (known_bank (Generation_Bank g))) GenerationBankInvalid;
  Ok (mkDiagnosticsState (cloneEnvironmentReport report) (nativeByteOrder first)
    (mkProbe "unknown" "actual BPF load and attach has not completed")
    (map (fun name => mkHookStatus name "pending" "load and attach not yet completed") hook_names)
    (if Revision g == 0 then no_generation else show_generation g) ∅).
Definition set_hooks (s : DiagnosticsState) (probe : LoadAttachProbe) (status detail : string) : DiagnosticsState :=
  mkDiagnosticsState (ds_report s) (ds_byteOrder s) probe (map (fun h => mkHookStatus (Hook_Name h) status detail) (ds_hooks s)) (ds_policyGeneration s) (ds_drops s).
Definition MarkHooksReady (s : DiagnosticsState) : DiagnosticsState :=
  set_hooks s (mkProbe "available" "BPF object loaded and all configured hooks attached") "attached" "confirmed by the running Go loader".
Definition bounded_detail (detail : string) : string := if 512 <? slen detail then str_take (Z.to_nat 512) detail else detail.
Definition MarkLoadAttachFailed (s : DiagnosticsState) (err : option string) : DiagnosticsState :=
  match err with
  | None => s
  | Some detail =>
      if Probe_Status (ds_loadAttach s) == "available" then s
      else set_hooks s (mkProbe "unavailable" (bounded_detail detail)) "not_attached" "load or attach did not complete"
  end.
Definition ObserveDrop (s : DiagnosticsState) (eventType : string) (count : Z) : DiagnosticsState * result DiagnosticsError unit :=
  if (eventType == "") || (64 <? slen eventType) || (count =? 0) then (s, Err InvalidDropCount)
  else if u64_max - count <? default 0 (ds_drops s !! eventType) then (s, Err DropCountOverflow)
  else (mkDiagnosticsState (ds_report s) (ds_byteOrder s) (ds_loadAttach s) (ds_hooks s) (ds_policyGeneration s)
          (<[eventType := default 0 (ds_drops s !! eventType) + count]> (ds_drops s)), Ok tt).
Definition drop_before (a b : DropCount) : bool := str_lt (Drop_EventType a) (Drop_EventType b).
Definition Diagnostics (s : DiagnosticsState) (now : Time) : DiagnosticsSnapshot :=
  mkDiagnosticsSnapshot (RFC3339Nano now) (Report_OS (ds_report s)) (Report_Arch (ds_report s)) (ds_byteOrder s)
    (Report_Checks (cloneEnvironmentReport (ds_report s))) (ds_loadAttach s) (ds_hooks s) (ds_policyGeneration s)
    (sort_by drop_before (map (fun kv => mkDropCount kv.1 (FormatUint kv.2)) (map_to_list (ds_drops s)))).
Definition check_json (c : Check) : json :=
  JObject ([("name", JString (Check_Name c)); ("status", JString (Check_Status c)); ("message", JString (Check_Message c))] ++
    omitempty (bool_decide (Check_Details c = ∅)) "details" (json_labels (Some (Check_Details c)))).
Definition hook_json (h : HookStatus) : json := JObject [("name", JString (Hook_Name h)); ("status", JString (Hook_Status h)); ("detail", JString (Hook_Detail h))].
Definition diagnostics_json (s : DiagnosticsSnapshot) : json :=
  JObject [("schema_version", JString "1"); ("generated_at", JString (DS_GeneratedAt s)); ("os", JString (DS_OS s)); ("arch", JString (DS_Arch s));
    ("byte_order", JString (DS_ByteOrder s)); ("checks", JArray (map check_json (DS_Checks s)));
    ("load_attach", JObject [("status", JString (Probe_Status (DS_LoadAttach s))); ("detail", JString (Probe_Detail (DS_LoadAttach s)))]);
    ("hooks", JArray (map hook_json (DS_Hooks s))); ("policy_generation", generation_json (DS_PolicyGeneration s));
    ("drops", JArray (map (fun d => JObject [("event_type", JString (Drop_EventType d)); ("count", JString (Drop_Count d))]) (DS_Drops s)))].
Definition DiagnosticsHandler_ServeHTTP `{UnicodeTables} (auth : readAuthorizer) (request : HttpRequest) (provider : option DiagnosticsSnapshot) : HttpReply :=
  if negb (authorized auth (Header_Get request "Authorization")) then unauthorized
  else match provider with
  | None => http_Error [] "diagnostics unavailable" 503
  | Some s => mkHttpReply 200 [("Cache-Control", "no-store"); ("Content-Type", "application/json")] (Marshal (diagnostics_json s) +:+ String newline "")
  end.

(** ** What the catalogue lists *)
Lemma summary_before_lex a b : summary_before a b = true <->
  PS_Priority b < PS_Priority a \/ PS_Priority a = PS_Priority b /\ str_lt (PS_ID a) (PS_ID b) = true.
Proof. unfold summary_before. destruct (Z.eqb_spec (PS_Priority a) (PS_Priority b)); rewrite ?Z.ltb_lt; intuition lia. Qed.
Lemma summary_before_false a b : summary_before a b = false <->
  PS_Priority a < PS_Priority b \/ PS_Priority a = PS_Priority b /\ str_lt (PS_ID a) (PS_ID b) = false.
Proof. unfold summary_before. destruct (Z.eqb_spec (PS_Priority a) (PS_Priority b)); rewrite ?Z.ltb_ge; intuition lia. Qed.
#[export] Instance summary_before_weak : StrictWeak summary_before.
Proof.
  split.
  - intros a b. rewrite summary_before_lex, summary_before_false. pose proof (less_asym (PS_ID a) (PS_ID b)). intuition lia.
  - intros a b c. rewrite !summary_before_false. pose proof (less_ntrans (PS_ID a) (PS_ID b) (PS_ID c)). intuition lia.
Qed.
Lemma summaries_sorted l : StronglySorted (fun x y => PS_Priority y < PS_Priority x \/ PS_Priority x = PS_Priority y /\ str_lt (PS_ID y) (PS_ID x) = false) (sort_by summary_before l).
Proof.
  pose proof (sort_by_sorted summary_before l) as Hs. induction Hs as [|x m Hm IH Hx]; constructor; [done|]. eapply Forall_impl; [exact Hx|].
  intros y Hy. apply summary_before_false in Hy. intuition lia.
Qed.
(** A catalogue of a valid bundle exists exactly for a generation of one of
    the two banks, and lists every policy once, by falling priority and then
    by identifier, with the revision and bank of the generation. *)
Theorem catalog_exact b g (Hb : wf_bundle b) :
  (is_Some (NewPolicyCatalog (Some b) g) <-> Revision g <> 0 /\ Generation_Bank g ∈ [BankA; BankB]) /\
  forall c now (s := PolicyCatalog_Policies c now), NewPolicyCatalog (Some b) g = Some c ->
    PolicySnapshot_Policies s ≡ₚ map policy_summary (Policies b) /\ NoDup (map PS_ID (PolicySnapshot_Policies s)) /\
    StronglySorted (fun x y => PS_Priority y < PS_Priority x \/ PS_Priority x = PS_Priority y /\ str_lt (PS_ID y) (PS_ID x) = false) (PolicySnapshot_Policies s) /\
    PolicySnapshot_Generation s = mkPolicyGeneration (FormatUint (Revision g)) (if Generation_Bank g == BankA then "A" else "B").
Proof.
  unfold NewPolicyCatalog. split.
  - destruct (Z.eqb_spec (Revision g) 0) as [E|E]; cbn [orb]; [split; [by intros []|naive_solver]|]. unfold known_bank.
    destruct (bool_decide_reflect (Generation_Bank g = BankA)) as [E1|E1]; [cbn; split; [rewrite E1; set_solver|by eauto]|].
    destruct (bool_decide_reflect (Generation_Bank g = BankB)) as [E2|E2]; cbn; [split; [rewrite E2; set_solver|by eauto]|split; [by intros []|set_solver]].
  - intros c now. destruct (_ || _); [done|]. intros [= <-]. cbn. split_and!; [apply sort_by_perm| |apply summaries_sorted|done].
    change (NoDup (PS_ID <$> sort_by summary_before (map policy_summary (Policies b)))). rewrite sort_by_perm. change (NoDup (map PS_ID (map policy_summary (Policies b)))).
    rewrite map_map. exact (wf_bundle_nodup b Hb).
Qed.

(** ** What the diagnostics show *)
Inductive DiagnosticsOp := OpReady | OpFailed (err : option string) | OpDrop (eventType : string) (count : Z).
Definition diagnostics_step (s : DiagnosticsState) (op : DiagnosticsOp) : DiagnosticsState * bool :=
  match op with
  | OpReady => (MarkHooksReady s, true)
  | OpFailed err => (MarkLoadAttachFailed s err, true)
  | OpDrop eventType count => let (s, r) := ObserveDrop s eventType count in (s, is_ok r)
  end.
(** The state and the accepted operations, oldest first. *)
Fixpoint diagnostics_run (s : DiagnosticsState) (ops : list DiagnosticsOp) : DiagnosticsState * list DiagnosticsOp :=
  match ops with
  | [] => (s, [])
  | op :: ops =>
      let (s, accepted) := diagnostics_step s op in
      let (s, log) := diagnostics_run s ops in
      (s, if accepted then op :: log else log)
  end.
Definition dropped (eventType : string) (log : list DiagnosticsOp) : Z :=
  foldr (fun op n => match op with OpDrop t count => if t == eventType then count + n else n | _ => n end) 0 log.
Definition readied (log : list DiagnosticsOp) : bool := existsb (fun op => match op with OpReady => true | _ => false end) log.
Definition last_failure (log : list DiagnosticsOp) : option string :=
  foldl (fun e op => match op with OpFailed (Some detail) => Some detail | _ => e end) None log.
Record attach_shown (log : list DiagnosticsOp) (probe : LoadAttachProbe) (hooks : list HookStatus) : Prop := {
  attach_names : map Hook_Name hooks = hook_names;
  attach_status : Probe_Status probe = if readied log then "available" else if is_some (last_failure log) then "unavailable" else "unknown";
  attach_hooks : Forall (fun h => Hook_Status h = if readied log then "attached" else if is_some (last_failure log) then "not_attached" else "pending") hooks;
  attach_detail : readied log = false -> forall e, last_failure log = Some e -> Probe_Detail probe = bounded_detail e;
}.
Record diagnostics_ok (s : DiagnosticsState) (log : list DiagnosticsOp) : Prop := {
  diagnostics_attach : attach_shown log (ds_loadAttach s) (ds_hooks s);
  diagnostics_drops t : ds_drops s !! t = if dropped t log =? 0 then None else Some (dropped t log);
  diagnostics_fit t : 0 <= dropped t log <= u64_max;
}.
Lemma dropped_app t log op : dropped t (log ++ [op]) = dropped t log + match op with OpDrop t' count => if t' == t then count else 0 | _ => 0 end.
Proof.
  induction log as [|o log IH]; [destruct op as [| |t' n]; [done..|]; cbn; destruct (t' == t); lia|]. destruct o as [| |t' n]; [exact IH..|].
  change (dropped t (OpDrop t' n :: log)) with (if t' == t then n + dropped t log else dropped t log).
  change (dropped t ((OpDrop t' n :: log) ++ [op])) with (if t' == t then n + dropped t (log ++ [op]) else dropped t (log ++ [op])). rewrite IH. destruct (t' == t); lia.
Qed.
Lemma readied_app log op : readied (log ++ [op]) = readied log || match op with OpReady => true | _ => false end.
Proof. unfold readied. rewrite existsb_app. cbn. by rewrite orb_false_r. Qed.
Lemma last_failure_app log op : last_failure (log ++ [op]) = match op with OpFailed (Some detail) => Some detail | _ => last_failure log end.
Proof. unfold last_failure. rewrite foldl_app. done. Qed.
#[local] Hint Rewrite dropped_app readied_app last_failure_app : diagnostics_log.
Lemma attach_same log op probe hooks : match op with OpReady | OpFailed (Some _) => False | _ => True end -> attach_shown log probe hooks -> attach_shown (log ++ [op]) probe hooks.
Proof. intros Hop [H1 H2 H3 H4]. destruct op as [|[e|]|]; [done..| |]; constructor; autorewrite with diagnostics_log; rewrite ?orb_false_r; done. Qed.
Lemma hooks_marked hooks status detail names : map Hook_Name hooks = names ->
  map Hook_Name (map (fun h => mkHookStatus (Hook_Name h) status detail) hooks) = names /\ Forall (fun h => Hook_Status h = status) (map (fun h => mkHookStatus (Hook_Name h) status detail) hooks).
Proof. intros <-. rewrite map_map. split; [done|]. by apply Forall_map, Forall_true. Qed.
Lemma step_ok s log op s' accepted : match op with OpDrop _ count => 0 <= count <= u64_max | _ => True end -> diagnostics_ok s log ->
  diagnostics_step s op = (s', accepted) -> diagnostics_ok s' (if accepted then log ++ [op] else log).
Proof.
  intros Hop [Ha Hd Hf]. destruct op as [|err|t count]; cbn [diagnostics_step].
  - intros [= <- <-]. destruct Ha as [Hn _ _ _]. destruct (hooks_marked (ds_hooks s) "attached" "confirmed by the running Go loader" _ Hn) as [H1 H2].
    constructor; [constructor; autorewrite with diagnostics_log; rewrite ?orb_true_r; done| |]; intros t; autorewrite with diagnostics_log; rewrite Z.add_0_r; [apply Hd|apply Hf].
  - intros [= <- <-]. unfold MarkLoadAttachFailed. destruct err as [e|].
    + constructor; [|intros t; autorewrite with diagnostics_log; rewrite Z.add_0_r; by destruct (_ == "available"); [apply Hd|apply Hd]|intros t; autorewrite with diagnostics_log; rewrite Z.add_0_r; apply Hf].
      destruct Ha as [Hn Hs Hh Hdt]. destruct (hooks_marked (ds_hooks s) "not_attached" "load or attach did not complete" _ Hn) as [H1 H2]. destruct (readied log) eqn:Er.
      * rewrite Hs. cbn. constructor; autorewrite with diagnostics_log; rewrite ?Er; done.
      * rewrite bool_decide_eq_false_2 by (rewrite Hs; by destruct (is_some _)). constructor; autorewrite with diagnostics_log; rewrite ?Er; cbn; [done..|]. by intros _ e' [= ->].
    + constructor; [by apply attach_same|..]; intros t; autorewrite with diagnostics_log; rewrite Z.add_0_r; [apply Hd|apply Hf].
  - unfold ObserveDrop. destruct (_ || _) eqn:Eg; [by intros [= <- <-]; constructor|]. assert (default 0 (ds_drops s !! t) = dropped t log) as Hdef.
    { rewrite Hd. destruct (Z.eqb_spec (dropped t log) 0) as [E|]; [by rewrite E|done]. }
    rewrite Hdef. destruct (Z.ltb_spec (u64_max - count) (dropped t log)); intros [= <- <-]; [by constructor|]. cbn [is_ok].
    rewrite !orb_false_iff, Z.eqb_neq in Eg. destruct Eg as [_ Hc]. constructor; cbn [ds_loadAttach ds_hooks ds_drops].
    + by apply attach_same.
    + intros t'. autorewrite with diagnostics_log. pose proof (Hf t). destruct (bool_decide_reflect (t = t')) as [<-|Hne].
      * rewrite lookup_insert_eq. destruct (Z.eqb_spec (dropped t log + count) 0); [lia|done].
      * rewrite lookup_insert_ne by done. by rewrite Z.add_0_r.
    + intros t'. autorewrite with diagnostics_log. pose proof (Hf t'). destruct (bool_decide_reflect (t = t')) as [<-|Hne]; lia.
Qed.
Lemma run_ok ops : forall s log s' log', Forall (fun op => match op with OpDrop _ count => 0 <= count <= u64_max | _ => True end) ops ->
  diagnostics_ok s log -> diagnostics_run s ops = (s', log') -> diagnostics_ok s' (log ++ log').
Proof.
  induction ops as [|op ops IH]; intros s log s' log' Hops Hs; cbn [diagnostics_run]; [intros [= <- <-]; by rewrite app_nil_r|].
  apply Forall_cons in Hops as [Hop Hops]. destruct (diagnostics_step s op) as [s1 accepted] eqn:E1. destruct (diagnostics_run s1 ops) as [s2 l2] eqn:E2. intros [= <- <-].
  specialize (IH _ _ _ _ Hops (step_ok _ _ _ _ _ Hop Hs E1) E2). destruct accepted; [by rewrite <-app_assoc in IH|done].
Qed.
#[export] Instance drop_before_weak : StrictWeak drop_before.
Proof. split; unfold drop_before; intros a b; [apply less_asym|intros c; apply less_ntrans]. Qed.
(** After any sequence of reports the diagnostics show, per event type in
    ascending order, the exact sum of the accepted losses, which never
    overflows, and hooks that are attached once the loader said so (whatever
    fails later), not attached after a failure, pending before both; the
    failure shown is the last one, cut at 512 bytes. *)
Theorem diagnostics_exact report g first s0 ops s log now (snap := Diagnostics s now) : NewDiagnosticsState report g first = Ok s0 ->
  Forall (fun op => match op with OpDrop _ count => 0 <= count <= u64_max | _ => True end) ops -> diagnostics_run s0 ops = (s, log) ->
  attach_shown log (DS_LoadAttach snap) (DS_Hooks snap) /\
  (forall t n, mkDropCount t n ∈ DS_Drops snap <-> dropped t log <> 0 /\ n = FormatUint (dropped t log)) /\
  (forall t, 0 <= dropped t log <= u64_max) /\
  StronglySorted (fun a b => str_lt (Drop_EventType b) (Drop_EventType a) = false) (DS_Drops snap) /\ NoDup (map Drop_EventType (DS_Drops snap)).
Proof.
  unfold NewDiagnosticsState. intros [_ [_ Hs0]%guard_bind]%guard_bind Hops Hrun. apply Ok_inj in Hs0 as <-. eapply (run_ok ops _ []) in Hrun as [Ha Hd Hf]; [|done|].
  2: { constructor; [|intros t; exact (lookup_empty t)|intros t; unfold u64_max; cbn; lia]. constructor; cbn; [done..| |done]. by repeat constructor. }
  rewrite app_nil_l in *. subst snap. cbn [Diagnostics DS_LoadAttach DS_Hooks DS_Drops]. split_and!; [done| |done|apply sort_by_sorted; apply _|].
  - intros t n. rewrite elem_of_sort_by. change (mkDropCount t n ∈ (fun kv => mkDropCount kv.1 (FormatUint kv.2)) <$> map_to_list (ds_drops s) <-> dropped t log <> 0 /\ n = FormatUint (dropped t log)).
    rewrite list_elem_of_fmap. split.
    + intros ([t' z] & [= -> ->] & Hin%elem_of_map_to_list). rewrite Hd in Hin. destruct (Z.eqb_spec (dropped t' log) 0); [done|]. by injection Hin as <-.
    + intros [Hn ->]. exists (t, dropped t log). split; [done|]. apply elem_of_map_to_list. rewrite Hd. by destruct (Z.eqb_spec (dropped t log) 0).
  - change (NoDup (Drop_EventType <$> sort_by drop_before (map (fun kv => mkDropCount kv.1 (FormatUint kv.2)) (map_to_list (ds_drops s))))). rewrite sort_by_perm.
    change (NoDup (map Drop_EventType (map (fun kv => mkDropCount kv.1 (FormatUint kv.2)) (map_to_list (ds_drops s))))). rewrite map_map. exact (NoDup_fst_map_to_list (ds_drops s)).
Qed.
